(* ===== verification/_CoqProject ===== *)
-Q . S2P
Prelude.v
QtText.v
Json.v
IpListParse.v
IpCover.v
IpAddressText.v
IpNetworkText.v
IpListEntries.v
OtpBase32.v
OtpWire.v
Otp.v
OtpLinks.v
OtpImport.v
CoreSupervisor.v
CoreSupervision.v
CoreStderr.v
Lists.v
Logs.v
AutoSelector.v
AutoSelectorPlan.v
AutoSelectorMonitor.v
AutoSelectorSweeps.v
AutoSelectorResume.v
KillSwitch.v
Subscription.v
DnsAddress.v
ResumeGuard.v
HeadlessRuntime.v
HeadlessBoot.v
ConnectionManager.v
ConnectionPhases.v
ConnectionAnswers.v
ConfigChains.v
ConfigHops.v
ConfigPath.v
ConfigGrowth.v
ConfigOutbounds.v
ConfigSections.v
ConfigDelivery.v
RouteRules.v
RouteProfiles.v
ConfigPrerequisites.v
ConfigTags.v
ConfigRoute.v
ConfigRouting.v
ConfigCrossing.v
Validation.v
ValidationAddress.v
ValidationNumbers.v
ValidationDuration.v
SimpleRules.v
SimpleLines.v
SimpleUpdate.v
SimpleText.v
SimpleTargets.v
RemoteProtocol.v
RemoteConfig.v
RemoteServer.v
RemoteMoves.v
RemoteAccess.v
RemoteDialogue.v
RemoteProgress.v
RemoteLockout.v
RemoteRouter.v
RemoteAnswers.v
VpnAuth.v
VpnAuthReply.v
VpnAuthMoves.v
VpnAuthLog.v
TrafficLedger.v
TrafficStats.v
