(* ===== verification/Prelude.v ===== *)
(** * Throne: a verification development for the client's core logic

    Throne is a desktop and headless client for proxy and VPN protocols: it keeps
    profiles and subscriptions, builds the configuration of a core process,
    starts and supervises that process, and guards the traffic meanwhile. This
    library models the parts of its C++ that decide something and proves what
    they promise. Qt, the operating system, the database, the network and the
    core are arguments of the definitions, or events with arbitrary content.

    ** How the parts work together

    ConnectionManager starts, stops and switches profiles. It asks KillSwitch
    whether a start is allowed and waits for it to arm; it asks CoreSupervisor
    for a core, and gets the start it deferred back when the core is up.
    CoreSupervisor names the reason of a crash from CoreStderr and restarts the
    core after a delay. HeadlessRuntime drives the same start at boot, decides
    the exit code of the process, and keeps in ResumeGuard's file whether the
    next boot may resume. What a start runs is a configuration: the generator
    resolves what the routing profile needs (ConfigPrerequisites), builds the
    outbounds (ConfigOutbounds) and writes the rules (ConfigRoute). The profiles
    come from Subscription (a refresh against the stored rows) and, for an auto
    selector, from AutoSelectorPlan; the rules from RouteRules and RouteProfiles.
    DnsAddress, IpListParse and OTP are the text formats users paste. Other
    programs ask over the network: RemoteServer admits them, reads their sealed
    messages and hands each as an exchange to RemoteRouter on the main thread,
    whose endpoints call ConnectionManager and answer, at once or later. While a
    profile runs, VpnAuth signs its endpoints in, AutoSelectorMonitor tells
    AutoSelectorSweeps when a pool is dead, and TrafficStats counts the traffic.

    ** Files

    - Prelude, QtText, Json, Lists, Logs: notations, tactics ([setter], [case_tests]),
      the operations of QString, QByteArray and QJsonValue that the sources use,
      stable sorting, laws of logs. Text is a list of UTF-16 code units.
    - IpListParse (src/src/scanner/IpListParse.cpp) with IpCover, IpAddressText,
      IpNetworkText and IpListEntries: addresses, networks, ranges and files.
      A range is covered by networks exactly, printing and parsing are inverse,
      every parsed list is canonical; [mapped_block_lost] is a defect.
    - OtpBase32, OtpWire, Otp, OtpLinks, OtpImport (src/src/global/OTP.cpp):
      base32 as RFC 4648, codes as RFC 4226 and RFC 6238, protocol-buffer wire
      format, links and migration links, JSON and pasted text; each pair of
      writer and reader is a round trip up to what the format keeps.
    - CoreSupervisor (src/src/engine/supervisor/CoreSupervisor.cpp): a World
      record and one function per handler; CoreSupervision proves over all event
      sequences that unattended restarts end, that shutdown is final, that an
      exit is handled once and that delays are bounded; CoreStderr that the cause
      of a crash does not depend on how reads cut the output.
    - KillSwitch (src/src/sys/KillSwitch.cpp): the guard processes, their
      readiness, timers and waiters. The reported state is true, a guard process
      that protects is only closed for the one that takes over or when the switch
      is turned off, arming ends.
    - ConnectionManager (src/src/engine/connection/ConnectionManager.cpp and
      ConnectionModes.cpp): [Conn] is the members, locks, worker threads and the
      calls queued to the main thread; [connStep] runs one handler or one step of
      a worker, so a list of events is any interleaving. ConnectionPhases gives
      the specification [PhaseStep], shows that [connStep] refines it, and from
      its invariants that starts exclude each other and stops and that the
      workers finish. ConnectionAnswers shows that every request is answered
      exactly once.
    - HeadlessRuntime and ResumeGuard (src/src/engine/headless/HeadlessRuntime.cpp
      and ResumeGuard.cpp): the exit is decided once and carried out; the guard
      suppresses a resume exactly after three bad boots in a row. HeadlessBoot
      reads off a run what each event means to the guard ([hears], [ends]) and
      shows that the handlers leave exactly the guard of that boot.
    - AutoSelector, AutoSelectorPlan (src/include/configs/outbounds/autoselector.h,
      src/src/configs/AutoSelectorPlan.cpp): settings, history, and the plan that
      accounts for every profile, orders the pool and is stable under a rerank.
    - Subscription (src/src/configs/sub/SubscriptionReconcile.cpp): the diff of a
      refresh accounts for every old and new row once and places each in the list.
    - DnsAddress (src/src/configs/DnsAddress.cpp): reading and printing servers.
    - ConfigChains, ConfigOutbounds (src/src/configs/generate.cpp): a
      [BuildContext] goes through one function per step of the builder. ConfigHops,
      ConfigPath, ConfigGrowth and ConfigSections prove what a chain adds and that
      later chains keep it; ConfigDelivery that tags are apart and which ways a
      section has. [Leads] and [passes] are the specification of a way through
      detours and bridges. ConfigCrossing, which comes after the routes, follows a
      way through the two configurations as they are written: a bridge is crossed
      when the rules of the core that owns it hand it to the hop behind it.
    - RouteRules, RouteProfiles (src/src/database/entities/RouteRule.cpp and
      RouteProfile.cpp): a rule is the record of the class, its attributes tables of
      getters and setters; its object for the core, the problems that validation
      finds, raw profiles with outbounds by id, and the rules paired with endpoints.
    - SimpleRules (RouteProfile.cpp and MainWindow::toggleRuleInCurrentRoute): the
      lines that users type into the lists of an action, their rules, the servers
      that hold one, the line that covers another. SimpleLines shows that no line of
      an edited text is lost, SimpleUpdate what an edited text
      leaves of a profile, SimpleText that the text of a list is read back as the
      same rules, SimpleTargets that a switched line has one target and exactly which
      lines are reported as covered.
    - ConfigPrerequisites, ConfigTags, ConfigRoute and ConfigRouting (generate.cpp):
      [calculatePrerequisites] and [buildRouteSection], and [buildRouting], which
      composes them with the outbounds as BuildSingBoxConfig does. From a build that
      succeeds: a rule leads through the profile it names, no rule names an outbound
      that the configuration lacks, and which rule sets are defined and which of
      those that rules name are not.
    - Validation, ValidationDuration (src/src/global/Validation.cpp): the checks of
      settings fields, each a function to an optional message, with the parsers of
      the core that they copy. ValidationAddress shows that its address parser and
      that of IpListParse accept the same texts, ValidationNumbers that the numbers
      and networks accepted are exactly those meant; durations that are shown are
      read back, sizes that are accepted fit.
    - VpnAuth, VpnAuthMoves, VpnAuthLog (src/src/engine/vpn/VpnAuthController.cpp): the
      sign-in of OpenVPN and OpenConnect endpoints. VpnAuthMoves divides every handler
      into moves; VpnAuthLog states what may be done given what was done before
      ([recoveryAllowed], [answerAllowed]) and shows that every run obeys it: restarts
      and questions are bounded, an automatic reply is a [properReply] to its form
      (VpnAuthReply), and a code that was refused is not sent again unless the clock
      turns between the two readings that the handler takes.
    - AutoSelectorMonitor (src/src/stats/autoselector/AutoSelectorMonitor.cpp): the polls
      of a running selector; exactly when a pool is given up, and what starts the
      growing pause between rebuilds over again.
      AutoSelectorSweeps, AutoSelectorResume
      (src/src/engine/autoselector/AutoSelectorController.cpp): ranking threads, their
      semaphores and the calls they post; a start that waits goes on exactly once.
    - TrafficLedger, TrafficStats (src/src/stats/traffic/TrafficStatsManager.cpp,
      src/src/database/TrafficStatsRepo.cpp): what is recorded reaches the tables of
      minutes and hours once, in whatever order threads write and roll up.
    - RemoteProtocol, RemoteConfig (src/src/api/remote/Protocol.cpp, Message.cpp and
      Config.cpp): keys as text, frames, requests and responses; the addresses to
      listen at and to admit. [Crypto] is the interface to the vendored cipher and
      [CryptoLaws] what the code relies on: opening with the same key, nonce and
      data inverts sealing, and nothing else opens.
    - RemoteServer (src/src/api/remote/Server.cpp): [World] is the worker with its
      sockets, timers, records of failures and exchanges, [step] one event of the
      socket, the timers, the main thread or the program. RemoteMoves divides every
      step into [Move]s and gives the induction over runs. RemoteDialogue shows
      that a conversation hands on each message once and in order and answers each
      at most once; RemoteAccess that what is open is within its limits and admitted
      by the configuration in force; RemoteProgress that no complete message is
      left waiting; RemoteLockout that bounded tables refuse exactly as unbounded
      ones would.
    - RemoteRouter, RemoteAnswers (src/src/api/remote/Router.cpp): the table of
      endpoints, the readers of bodies, the requests that start, stop and
      reconfigure the connection, and the waiters with their deadlines. Dispatch
      runs one endpoint or says why not; a request is answered once.

    ** Conventions

    A class with state is a record with one setter per field; what it emits is a
    list in the record, oldest first, so an order of effects is an order in that
    list. What it reads of other objects is an argument of the handler, or an
    environment record when there is much of it. Failure is [option] or an error
    type with the source's reasons. Machine integers are integers with the
    wrap-around written out ([u8], [u32], [u64], [i32]) wherever the code can
    reach it; serials and generations that cannot overflow in a lifetime are not
    wrapped, as each file says.

    ** Hypotheses of the generator

    Protocol objects, probes for ports and random secrets are functions of the
    environment. [portsDistinct] says that the probes gave distinct ports, which
    the operating system promises while they are held. [WellGiven] and [Startable]
    describe the context a build starts from. [namesKnown] is what the rule
    editor lets through; the examples of [RoutingSample] show what happens without
    it.

    ** Fuel

    Loops that are not structural run on fuel that their input bounds: the words
    of an address (8), the bits of a number plus one, ten groups of seven bits for
    a 64-bit varint, the letters a byte can complete (2), eight turns for the groups of an address, the length of a duration,
    of the line, of the message or of the history that each round shortens, the
    number of names in a profile for a name that is free, and 258 blocks for
    the cover of a 128-bit range, and the bytes at hand for the input of a
    connection ([inputLoop_enough]). [cover_range_exact], [base32_encode_rfc],
    [varint_roundtrip], [migration_roundtrip] and [history_lru] would fail if the
    fuel ran out. In ConnectionPhases [energy] bounds the steps the workers still
    take, and [workers_finish] runs exactly that many.

    ** Not modelled

    The inbounds, the DNS section and the test configurations of the generator, the
    sharing of routing profiles, the protocol classes with their links and JSON,
    the subscription formats, the check of regular expressions, the SQL repositories, the remote endpoints that list and edit the database, the
    RPC channel, the files of keys, preflight and command
    line, scanner and speed tests, charts and rates of statistics, backups, platform code, the user
    interface, and the core itself, which is written in Go. Inside the modelled
    files, dialogs, log lines and translated texts are left out, except where a
    later decision reads them. *)

From Stdlib Require Export ZArith Lia Bool.
From stdpp Require Export base tactics numbers list option gmap sets strings.

#[global] Set Default Goal Selector "1".

(** ** Notations *)

Declare Scope throne_scope.
Delimit Scope throne_scope with throne.

(** Bit operations and comparisons the way the C++ sources write them. *)
Infix "<<<" := Z.shiftl (at level 45, left associativity) : throne_scope.
Infix ">>>" := Z.shiftr (at level 45, left associativity) : throne_scope.
Infix ".|" := Z.lor (at level 50, left associativity) : throne_scope.
Infix ".&" := Z.land (at level 48, left associativity) : throne_scope.

(** ** Automation *)

Create HintDb throne.

(** Turns boolean tests into propositions, everywhere. *)
Create Rewrite HintDb boolprop.
#[export] Hint Rewrite andb_true_iff orb_true_iff andb_false_iff orb_false_iff
  negb_true_iff negb_false_iff Z.eqb_eq Z.eqb_neq Z.ltb_lt Z.ltb_ge
  Z.leb_le Z.leb_gt Nat.eqb_eq Nat.eqb_neq Nat.ltb_lt Nat.ltb_ge
  Nat.leb_le Nat.leb_gt bool_decide_eq_true bool_decide_eq_false : boolprop.

Ltac bprop := autorewrite with boolprop in *; cbn [negb andb orb] in *.

(** Splits the scrutinee of every test of the goal, with its equation. *)
Ltac case_tests :=
  repeat match goal with
  | |- context [if ?b then _ else _] =>
      lazymatch b with
      | context [if _ then _ else _] => fail
      | context [match _ with _ => _ end] => fail
      | _ => let E := fresh "E" in destruct b eqn:E
      end
  end.

(** The same for the tests of a hypothesis. *)
Ltac case_tests_in H :=
  repeat match type of H with
  | context [if ?b then _ else _] =>
      lazymatch b with
      | context [if _ then _ else _] => fail
      | context [match _ with _ => _ end] => fail
      | _ => let E := fresh "E" in destruct b eqn:E
      end
  end.

(** ** Machine integers *)

Local Open Scope Z_scope.
Local Open Scope throne_scope.

Definition u8 (x : Z) : Z := x mod 2 ^ 8.
Definition u16 (x : Z) : Z := x mod 2 ^ 16.
Definition u32 (x : Z) : Z := x mod 2 ^ 32.
Definition u64 (x : Z) : Z := x mod 2 ^ 64.

(** Two's complement reading of the low [w] bits. *)
Definition sint (w x : Z) : Z :=
  let y := x mod 2 ^ w in if y <? 2 ^ (w - 1) then y else y - 2 ^ w.
Definition i32 (x : Z) : Z := sint 32 x.
Definition i64 (x : Z) : Z := sint 64 x.

Lemma u8_small x : 0 <= x < 2 ^ 8 -> u8 x = x.
Proof. apply Z.mod_small. Qed.
Lemma u16_small x : 0 <= x < 2 ^ 16 -> u16 x = x.
Proof. apply Z.mod_small. Qed.
Lemma u32_small x : 0 <= x < 2 ^ 32 -> u32 x = x.
Proof. apply Z.mod_small. Qed.
Lemma u64_small x : 0 <= x < 2 ^ 64 -> u64 x = x.
Proof. apply Z.mod_small. Qed.

Lemma u8_range x : 0 <= u8 x < 2 ^ 8.
Proof. apply Z.mod_pos_bound. lia. Qed.
Lemma u16_range x : 0 <= u16 x < 2 ^ 16.
Proof. apply Z.mod_pos_bound. lia. Qed.
Lemma u32_range x : 0 <= u32 x < 2 ^ 32.
Proof. apply Z.mod_pos_bound. lia. Qed.
Lemma u64_range x : 0 <= u64 x < 2 ^ 64.
Proof. apply Z.mod_pos_bound. lia. Qed.

Lemma sint_small w x :
  0 < w -> - 2 ^ (w - 1) <= x < 2 ^ (w - 1) -> sint w x = x.
Proof.
  intros Hw Hx. unfold sint.
  assert (2 ^ w = 2 * 2 ^ (w - 1)) as E.
  { rewrite <- Z.pow_succ_r by lia. f_equal. lia. }
  destruct (Z.le_gt_cases 0 x) as [Hp|Hn].
  - rewrite Z.mod_small by lia. destruct (Z.ltb_spec x (2 ^ (w - 1))); lia.
  - replace (x mod 2 ^ w) with (x + 2 ^ w).
    + destruct (Z.ltb_spec (x + 2 ^ w) (2 ^ (w - 1))); lia.
    + apply (Z.mod_unique_pos x (2 ^ w) (-1)); lia.
Qed.

#[export] Hint Resolve u8_range u16_range u32_range u64_range : throne.

(** [std::countr_zero] of a nonzero word and [std::bit_width]. *)
Fixpoint pos_ctz (p : positive) : Z :=
  match p with
  | xO q => 1 + pos_ctz q
  | _ => 0
  end.
Definition countr_zero (x : Z) : Z :=
  match x with Zpos p => pos_ctz p | _ => 64 end.
Definition bit_width (x : Z) : Z := if x =? 0 then 0 else Z.log2 x + 1.

Lemma pos_ctz_spec p : exists q, Zpos p = 2 ^ pos_ctz p * (2 * q + 1) /\ 0 <= pos_ctz p /\ 0 <= q.
Proof.
  induction p as [p IH|p IH|]; cbn [pos_ctz].
  - exists (Zpos p). lia.
  - destruct IH as (q & E & H & Hq). exists q. split; [|lia].
    rewrite Z.pow_add_r by lia. lia.
  - exists 0. lia.
Qed.

Lemma countr_zero_spec x :
  0 < x -> exists q, x = 2 ^ countr_zero x * (2 * q + 1) /\ 0 <= countr_zero x /\ 0 <= q.
Proof. destruct x as [|p|p]; try lia. intros _. apply pos_ctz_spec. Qed.

(** [x lor y] is a sum when [y] fits under the bits of [z]. *)
Lemma lor_shiftl_add x y n :
  0 <= n -> 0 <= y < 2 ^ n -> (x <<< n) .| y = x * 2 ^ n + y.
Proof.
  intros Hn Hy. rewrite <- Z.lxor_lor, <- Z.add_nocarry_lxor, <- Z.shiftl_mul_pow2; try lia.
  all: apply Z.bits_inj'; intros i Hi; rewrite Z.land_spec, Z.bits_0.
  all: destruct (Z.lt_ge_cases i n) as [H|H].
  all: try (rewrite Z.shiftl_spec_low by lia; reflexivity).
  all: replace y with (y mod 2 ^ n) by (apply Z.mod_small; lia).
  all: rewrite Z.mod_pow2_bits_high by lia; apply andb_false_r.
Qed.

(** ** Lists *)

(** The longest prefix whose elements satisfy [p]. *)
Fixpoint takeWhile {A} (p : A -> bool) (l : list A) : list A :=
  match l with
  | [] => []
  | x :: l' => if p x then x :: takeWhile p l' else []
  end.

Fixpoint dropWhile {A} (p : A -> bool) (l : list A) : list A :=
  match l with
  | [] => []
  | x :: l' => if p x then dropWhile p l' else l
  end.

Definition dropWhileEnd {A} (p : A -> bool) (l : list A) : list A :=
  rev (dropWhile p (rev l)).

Lemma takeWhile_dropWhile {A} (p : A -> bool) l : takeWhile p l ++ dropWhile p l = l.
Proof. induction l as [|x l IH]; cbn; [done|]. destruct (p x); cbn; [by f_equal|done]. Qed.

Lemma takeWhile_all {A} (p : A -> bool) l : Forall (fun x => p x = true) (takeWhile p l).
Proof.
  induction l as [|x l IH]; cbn; [constructor|].
  destruct (p x) eqn:E; constructor; done.
Qed.

Lemma dropWhile_head {A} (p : A -> bool) l x l' : dropWhile p l = x :: l' -> p x = false.
Proof.
  induction l as [|y l IH]; cbn; [done|]. destruct (p y) eqn:E; [done|].
  by intros [= -> ->].
Qed.

Lemma dropWhile_length {A} (p : A -> bool) l : (length (dropWhile p l) <= length l)%nat.
Proof. induction l as [|x l IH]; cbn; [lia|]. destruct (p x); cbn; lia. Qed.

Lemma dropWhile_none {A} (p : A -> bool) l :
  Forall (fun x => p x = false) l -> dropWhile p l = l.
Proof. destruct 1 as [|x l H _]; cbn; [done|]. by rewrite H. Qed.

Lemma dropWhileEnd_none {A} (p : A -> bool) l :
  Forall (fun x => p x = false) l -> dropWhileEnd p l = l.
Proof.
  intros H. unfold dropWhileEnd. rewrite dropWhile_none.
  - apply rev_involutive.
  - by apply Forall_rev.
Qed.

Lemma app_eq_head {A} (x y : A) l m : l ++ [x] = m ++ [y] -> l = m /\ x = y.
Proof. apply app_inj_tail. Qed.

(** ** Records *)

(** [setter eta get v r] is the record [r] with the field [get] replaced by
    [v]; [eta] writes a record as its constructor applied to its fields. *)
Ltac setter eta get v r :=
  let t := eval unfold eta in (eta r) in
  match eval pattern (get r) in t with
  | ?f _ => let r' := eval cbv beta in (f v) in exact r'
  end.
