(* ===== verification/QtText.v ===== *)
(** * Text: the operations of QString, QStringView and QByteArray the sources use *)

From Stdlib Require Import Ascii String.
From S2P Require Import Prelude.

Local Open Scope Z_scope.

(** A QString is the list of its UTF-16 code units, a QByteArray the list of
    its bytes; both are lists of integers here. *)
Abbreviation qstring := (list Z).

Definition ch (a : Ascii.ascii) : Z := Z.of_N (Ascii.N_of_ascii a).
Arguments ch a%_char.
Definition qs (s : string) : qstring := map ch (String.list_ascii_of_string s).
Arguments qs s%_string.

Definition isEmpty {A} (s : list A) : bool := match s with [] => true | _ => false end.
Definition qsize {A} (s : list A) : Z := Z.of_nat (length s).

(** QChar::isSpace: the ASCII controls 9..13, NEL, and the Unicode separators. *)
Definition isSpace (c : Z) : bool :=
  (c =? 0x20) || ((9 <=? c) && (c <=? 13)) || (c =? 0x85) || (c =? 0xa0) ||
  (c =? 0x1680) || ((0x2000 <=? c) && (c <=? 0x200a)) || (c =? 0x2028) ||
  (c =? 0x2029) || (c =? 0x202f) || (c =? 0x205f) || (c =? 0x3000).

Definition trimmed (s : qstring) : qstring := dropWhileEnd isSpace (dropWhile isSpace s).

(** indexOf(c), lastIndexOf(c), contains(c), count(c). *)
Fixpoint indexOf (c : Z) (s : qstring) : option nat :=
  match s with
  | [] => None
  | d :: s' => if d =? c then Some O else S <$> indexOf c s'
  end.
Definition lastIndexOf (c : Z) (s : qstring) : option nat := (fun n => (length s - 1 - n)%nat) <$> indexOf c (rev s).
Definition contains (c : Z) (s : qstring) : bool := existsb (Z.eqb c) s.
Definition count (c : Z) (s : qstring) : nat := length (List.filter (Z.eqb c) s).

Definition startsWithC (c : Z) (s : qstring) : bool :=
  match s with d :: _ => d =? c | [] => false end.
Definition endsWithC (c : Z) (s : qstring) : bool := startsWithC c (rev s).

(** startsWith of a string. *)
Fixpoint startsWith (p s : qstring) : bool :=
  match p, s with
  | [], _ => true
  | x :: p', y :: s' => (x =? y) && startsWith p' s'
  | _ :: _, [] => false
  end.

(** indexOf of a string, and contains of one. *)
Fixpoint indexOfStr (p s : qstring) : option nat :=
  if startsWith p s then Some O
  else match s with
       | [] => None
       | _ :: s' => S <$> indexOfStr p s'
       end.
Definition containsStr (p s : qstring) : bool :=
  match indexOfStr p s with Some _ => true | None => false end.

(** The pieces between the characters [sep] selects, empty ones included. *)
Fixpoint splitBy (sep : Z -> bool) (s : qstring) : list qstring :=
  match s with
  | [] => [[]]
  | c :: s' =>
      if sep c then [] :: splitBy sep s'
      else match splitBy sep s' with
           | [] => [[c]]
           | p :: ps => (c :: p) :: ps
           end
  end.
Definition split (c : Z) (s : qstring) : list qstring := splitBy (fun d => d =? c) s.

(** The pieces joined with [sep] between them. *)
Fixpoint join (sep : qstring) (ps : list qstring) : qstring :=
  match ps with
  | [] => []
  | [p] => p
  | p :: ps' => p ++ sep ++ join sep ps'
  end.

(** QString::simplified: the words with one space between. *)
Definition simplified (s : qstring) : qstring := join [ch " "] (List.filter (fun w => negb (isEmpty w)) (splitBy isSpace s)).

(** QString::number of a non-negative number, lower-case digits. *)
Definition digitChar (d : Z) : Z := if d <? 10 then 48 + d else 87 + d.
Fixpoint numberLoop (fuel : nat) (base n : Z) (acc : qstring) : qstring :=
  match fuel with
  | O => acc
  | S fuel' =>
      let acc' := digitChar (n mod base) :: acc in
      if n / base =? 0 then acc' else numberLoop fuel' base (n / base) acc'
  end.
Definition unumber (base n : Z) : qstring := numberLoop (S (Z.to_nat (Z.log2 n))) base n [].
Definition number (n : Z) : qstring := if n <? 0 then ch "-" :: unumber 10 (- n) else unumber 10 n.

(** Case-insensitive comparisons, by the case folding of characters. *)
Definition startsWithCI (foldCase : Z -> Z) (p s : qstring) : bool := startsWith (map foldCase p) (map foldCase s).
Definition containsCI (foldCase : Z -> Z) (p s : qstring) : bool := containsStr (map foldCase p) (map foldCase s).
Definition equalCI (foldCase : Z -> Z) (p s : qstring) : bool := bool_decide (map foldCase p = map foldCase s).

(** QString::toLongLong and toInt of decimal text: spaces around it and a sign
    are accepted, and nothing out of the type's range. *)
Fixpoint decimalLoop (s : qstring) (v : Z) : option Z :=
  match s with
  | [] => Some v
  | c :: s' => if (48 <=? c) && (c <=? 57) then decimalLoop s' (10 * v + (c - 48)) else None
  end.
Definition unsignedText (s : qstring) : option Z := if isEmpty s then None else decimalLoop s 0.
Definition toInteger (s : qstring) : option Z :=
  match trimmed s with
  | c :: s' => if c =? 45 then Z.opp <$> unsignedText s'
               else if c =? 43 then unsignedText s' else unsignedText (c :: s')
  | [] => None
  end.
Definition toIntegerIn (lo hi : Z) (s : qstring) : option Z :=
  n ← toInteger s; if (lo <=? n) && (n <=? hi) then Some n else None.
Definition toInt : qstring -> option Z := toIntegerIn (- 2 ^ 31) (2 ^ 31 - 1).
Definition toLongLong : qstring -> option Z := toIntegerIn (- 2 ^ 63) (2 ^ 63 - 1).

(** ** Lemmas *)

(** A property of the integers below [n] checked by evaluation. *)
Lemma below_forall (p : Z -> bool) (n : nat) :
  forallb p (map Z.of_nat (seq 0 n)) = true -> forall x, 0 <= x < Z.of_nat n -> p x = true.
Proof.
  intros H x Hx. rewrite forallb_forall in H. apply H.
  rewrite in_map_iff. exists (Z.to_nat x). split; [lia|]. apply in_seq. lia.
Qed.

Definition free (c : Z) (s : qstring) : Prop := Forall (fun d => d <> c) s.

Lemma free_contains c s : contains c s = false <-> free c s.
Proof.
  unfold contains, free. induction s as [|d s IH]; cbn; [split; auto|].
  rewrite orb_false_iff, Z.eqb_neq, IH, Forall_cons. intuition congruence.
Qed.

Lemma contains_app c s t : contains c (s ++ t) = contains c s || contains c t.
Proof. apply existsb_app. Qed.

Lemma free_app c s t : free c (s ++ t) <-> free c s /\ free c t.
Proof. apply Forall_app. Qed.

Lemma indexOf_free c s : free c s -> indexOf c s = None.
Proof.
  induction 1 as [|d s Hd _ IH]; cbn; [done|].
  destruct (Z.eqb_spec d c); [done|]. by rewrite IH.
Qed.

Lemma indexOf_app c s t : free c s -> indexOf c (s ++ c :: t) = Some (length s).
Proof.
  induction 1 as [|d s Hd _ IH]; cbn; [by rewrite Z.eqb_refl|].
  destruct (Z.eqb_spec d c); [done|]. by rewrite IH.
Qed.

Lemma indexOf_Some c s n :
  indexOf c s = Some n -> s = take n s ++ c :: drop (S n) s /\ free c (take n s).
Proof.
  revert n. induction s as [|d s IH]; cbn; intros n; [done|].
  destruct (Z.eqb_spec d c) as [->|Hd].
  - intros [= <-]. cbn. rewrite drop_0. split; [done|constructor].
  - destruct (indexOf c s) as [m|]; cbn; [|done]. intros [= <-].
    destruct (IH m eq_refl) as [E F]. cbn. rewrite <- E. split; [done|by constructor].
Qed.

Lemma indexOf_contains c s : is_Some (indexOf c s) <-> contains c s = true.
Proof.
  unfold contains. induction s as [|d s IH]; cbn; [split; [by intros []|done]|].
  rewrite (Z.eqb_sym c d). destruct (Z.eqb_spec d c); cbn; [split; eauto|].
  rewrite <- IH, fmap_is_Some. done.
Qed.

(** Splitting. *)
Lemma split_app c s t : free c s -> split c (s ++ c :: t) = s :: split c t.
Proof.
  unfold split. induction 1 as [|d s Hd _ IH]; cbn; [by rewrite Z.eqb_refl|].
  destruct (Z.eqb_spec d c); [done|]. by rewrite IH.
Qed.

Lemma splitBy_none p s : Forall (fun d => p d = false) s -> splitBy p s = [s].
Proof. induction 1 as [|d s Hd _ IH]; cbn; [done|]. by rewrite Hd, IH. Qed.

Lemma split_free c s : free c s -> split c s = [s].
Proof.
  intros H. apply splitBy_none. eapply Forall_impl; [done|]. intros d Hd. by apply Z.eqb_neq.
Qed.

Lemma splitBy_nonempty p s : splitBy p s <> [].
Proof. destruct s as [|c s]; cbn; [done|]. destruct (p c); [done|]. by case_match. Qed.

Lemma join_cons sep w ws : ws <> [] -> join sep (w :: ws) = w ++ sep ++ join sep ws.
Proof. by destruct ws. Qed.

Lemma join_split c s : join [c] (split c s) = s.
Proof.
  unfold split. induction s as [|d s IH]; [done|]. cbn [splitBy].
  pose proof (splitBy_nonempty (fun e => e =? c) s) as Hne.
  destruct (Z.eqb_spec d c) as [->|Hd].
  - rewrite join_cons by done. by rewrite IH.
  - destruct (splitBy _ s) as [|p ps] eqn:E; [done|].
    destruct ps as [|q qs']; [cbn in *; by rewrite IH|].
    rewrite join_cons in * by done. cbn. by rewrite <- IH.
Qed.

Lemma split_free_parts c s : Forall (free c) (split c s).
Proof.
  unfold split. induction s as [|d s IH]; cbn; [repeat constructor|].
  destruct (Z.eqb_spec d c) as [->|Hd]; [constructor; [constructor|done]|].
  destruct (splitBy _ s) as [|p ps]; [repeat constructor; done|].
  inversion IH; subst. constructor; [by constructor|done].
Qed.

Lemma split_join c ws : ws <> [] -> Forall (free c) ws -> split c (join [c] ws) = ws.
Proof.
  intros Hne Hws. induction Hws as [|w ws Hw Hws IH]; [done|].
  destruct ws as [|w' ws]; cbn [join]; [by apply split_free|].
  cbn [app]. rewrite split_app by done. f_equal. by apply IH.
Qed.

Lemma join_Forall (P : Z -> Prop) sep ws :
  Forall P sep -> Forall (Forall P) ws -> Forall P (join sep ws).
Proof.
  intros Hs. induction 1 as [|w ws Hw _ IH]; [constructor|].
  destruct ws; [done|]. rewrite join_cons by done. rewrite !Forall_app. done.
Qed.

(** Trimming text without spaces at its ends. *)
Definition noSpace (s : qstring) : Prop := Forall (fun c => isSpace c = false) s.

Lemma trimmed_noSpace s : noSpace s -> trimmed s = s.
Proof.
  intros H. unfold trimmed. rewrite (dropWhile_none _ s) by done. by apply dropWhileEnd_none.
Qed.

(** [indexOfStr] skips characters that cannot start the pattern. *)
Lemma indexOfStr_skip x p w s :
  free x w -> indexOfStr (x :: p) (w ++ s) = (fun n => (length w + n)%nat) <$> indexOfStr (x :: p) s.
Proof.
  induction 1 as [|d w Hd _ IH]; cbn [app length].
  - by destruct (indexOfStr _ s).
  - cbn [indexOfStr startsWith]. destruct (Z.eqb_spec x d); [done|]. cbn [andb].
    rewrite IH. by destruct (indexOfStr _ s).
Qed.

Lemma numberLoop_chars fuel base n acc (P : Z -> Prop) :
  1 < base <= 16 -> (forall d, 0 <= d < base -> P (digitChar d)) ->
  Forall P acc -> Forall P (numberLoop fuel base n acc).
Proof.
  intros Hb HP. revert n acc. induction fuel as [|fuel IH]; cbn [numberLoop]; intros n acc Ha; [done|].
  assert (Forall P (digitChar (n mod base) :: acc)).
  { constructor; [|done]. apply HP. apply Z.mod_pos_bound. lia. }
  case_match; [done|]. by apply IH.
Qed.

(** Lower-case hexadecimal digits. *)
Definition hexChar (c : Z) : Prop := 48 <= c <= 57 \/ 97 <= c <= 102.

Lemma unumber_chars base n : 1 < base <= 16 -> Forall hexChar (unumber base n).
Proof.
  intros Hb. apply numberLoop_chars; [done| |constructor].
  intros d Hd. unfold digitChar, hexChar. case_match; bprop; lia.
Qed.

Lemma unumber10_chars n : Forall (fun c => 48 <= c <= 57) (unumber 10 n).
Proof.
  apply numberLoop_chars; [lia| |constructor].
  intros d Hd. unfold digitChar. case_match; bprop; lia.
Qed.

Lemma unumber_nonempty base n : unumber base n <> [].
Proof.
  unfold unumber. cbn [numberLoop]. case_match; [done|].
  assert (forall f m acc, acc <> [] -> numberLoop f base m acc <> []) as H0.
  { induction f as [|f IH]; cbn [numberLoop]; intros m acc Ha; [done|]. case_match; [done|]. by apply IH. }
  by apply H0.
Qed.

(** The length of a printed number, and its fuel. *)
Lemma number_loop_length base k : forall fuel n acc,
  1 < base -> 0 <= n < base ^ Z.of_nat (S k) ->
  (length (numberLoop fuel base n acc) <= S k + length acc)%nat.
Proof.
  induction k as [|k IH]; intros fuel n acc Hb Hn;
    (destruct fuel as [|fuel]; cbn [numberLoop]; [lia|]).
  - change (Z.of_nat 1) with 1 in Hn. rewrite Z.pow_1_r in Hn. rewrite (Z.div_small n base) by lia. cbn. lia.
  - case_match; cbn [length]; [lia|].
    specialize (IH fuel (n / base) (digitChar (n mod base) :: acc) Hb). cbn [length] in IH.
    rewrite Nat2Z.inj_succ, Z.pow_succ_r in Hn by lia.
    assert (0 <= n / base < base ^ Z.of_nat (S k)); [|lia].
    split; [apply Z.div_pos; lia|]. apply Z.div_lt_upper_bound; lia.
Qed.

Lemma log2_fuel n : 0 <= n -> n < 2 ^ Z.of_nat (S (Z.to_nat (Z.log2 n))).
Proof.
  intros Hn. rewrite Nat2Z.inj_succ, Z2Nat.id by apply Z.log2_nonneg.
  destruct (Z.eq_dec n 0) as [->|]; [done|]. apply Z.log2_spec. lia.
Qed.

(** A printed integer reads back. *)
Lemma decimal_loop_print fuel : forall n acc v,
  0 <= n -> n < 2 ^ Z.of_nat fuel -> (0 < fuel)%nat -> v = 0 ->
  decimalLoop (numberLoop fuel 10 n acc) v = decimalLoop acc n.
Proof.
  induction fuel as [|fuel IH]; intros n acc v Hn Hf H0 ->; [lia|]. cbn [numberLoop].
  pose proof (Z.div_mod n 10 ltac:(lia)) as E. pose proof (Z.mod_pos_bound n 10 ltac:(lia)) as Hm.
  assert (forall d w, 0 <= d < 10 -> decimalLoop (digitChar d :: acc) w = decimalLoop acc (10 * w + d)) as Hd.
  { intros d w Hd. cbn [decimalLoop]. unfold digitChar. destruct (Z.ltb_spec d 10); [|lia].
    destruct (Z.leb_spec 48 (48 + d)), (Z.leb_spec (48 + d) 57); try lia. cbn [andb]. f_equal. lia. }
  destruct (Z.eqb_spec (n / 10) 0) as [Ez|Ez].
  - rewrite Hd by lia. f_equal. lia.
  - assert (fuel <> O). { intros ->. cbn in Hf. Z.to_euclidean_division_equations; lia. }
    rewrite Nat2Z.inj_succ, Z.pow_succ_r in Hf by lia.
    rewrite IH by (lia || Z.to_euclidean_division_equations; lia). rewrite Hd by lia. f_equal. lia.
Qed.

Lemma unsigned_print n : 0 <= n -> unsignedText (unumber 10 n) = Some n.
Proof.
  intros Hn. unfold unsignedText. pose proof (unumber_nonempty 10 n).
  assert (isEmpty (unumber 10 n) = false) as -> by (by destruct (unumber 10 n)).
  unfold unumber. rewrite decimal_loop_print; [done|lia|by apply log2_fuel|lia|lia].
Qed.

Lemma digit_not_space c : 48 <= c <= 57 -> isSpace c = false.
Proof. intros H. unfold isSpace. rewrite !orb_false_iff, !andb_false_iff, !Z.eqb_neq, !Z.leb_gt. lia. Qed.

Lemma number_noSpace n : noSpace (number n).
Proof.
  assert (forall m, noSpace (unumber 10 m)) as H.
  { intros m. eapply Forall_impl; [apply unumber10_chars|]. intros c Hc. by apply digit_not_space. }
  unfold number. case_match; [constructor; [done|apply H]|apply H].
Qed.

Lemma toInteger_number n : toInteger (number n) = Some n.
Proof.
  unfold toInteger. rewrite trimmed_noSpace by apply number_noSpace. unfold number.
  destruct (Z.ltb_spec n 0).
  - change (ch "-" =? 45) with true. cbv iota. rewrite unsigned_print by lia. cbn. f_equal. lia.
  - pose proof (unumber10_chars n) as Hc. rewrite <- (unsigned_print n) by lia.
    pose proof (unumber_nonempty 10 n). destruct (unumber 10 n) as [|c s]; [done|].
    apply Forall_cons in Hc as [Hc _]. destruct (Z.eqb_spec c 45), (Z.eqb_spec c 43); (lia || done).
Qed.

Lemma toIntegerIn_number lo hi n : lo <= n <= hi -> toIntegerIn lo hi (number n) = Some n.
Proof.
  intros H. unfold toIntegerIn. rewrite toInteger_number. cbn [mbind option_bind].
  destruct (Z.leb_spec lo n), (Z.leb_spec n hi); (lia || done).
Qed.

Lemma toIntegerIn_range lo hi s n : toIntegerIn lo hi s = Some n -> lo <= n <= hi.
Proof.
  unfold toIntegerIn. destruct (toInteger s); [|done]. cbn [mbind option_bind].
  case_match; [|done]. intros [= ->]. bprop. lia.
Qed.

Lemma number_injective m n : number m = number n -> m = n.
Proof. intros E. pose proof (toInteger_number m) as H. rewrite E, toInteger_number in H. congruence. Qed.

Lemma count_app c s t : count c (s ++ t) = (count c s + count c t)%nat.
Proof. unfold count. rewrite List.filter_app. apply length_app. Qed.

Lemma count_free c s : free c s -> count c s = O.
Proof.
  unfold count. induction 1 as [|d s Hd _ IH]; [done|]. cbn [List.filter].
  destruct (Z.eqb_spec c d); [congruence|done].
Qed.

Lemma trimmed_ends x s y : isSpace x = false -> isSpace y = false -> trimmed (x :: s ++ [y]) = x :: s ++ [y].
Proof.
  intros Hx Hy. unfold trimmed, dropWhileEnd. cbn [dropWhile]. rewrite Hx.
  change (x :: s ++ [y]) with ((x :: s) ++ [y]). rewrite rev_app_distr. cbn [rev app dropWhile]. rewrite Hy.
  change (y :: rev s ++ [x]) with ([y] ++ (rev s ++ [x])). rewrite rev_app_distr, rev_app_distr, rev_involutive. done.
Qed.

(** Texts that start with, contain or end with a text. *)
Lemma startsWith_app p s : startsWith p (p ++ s) = true.
Proof. induction p as [|x p IH]; [by destruct s|]. cbn. by rewrite Z.eqb_refl. Qed.

Lemma startsWith_parts p : forall s, startsWith p s = true -> s = p ++ drop (length p) s.
Proof.
  induction p as [|x p IH]; intros s E; [done|]. destruct s as [|y s]; [done|].
  cbn in *. apply andb_true_iff in E as [->%Z.eqb_eq E]. f_equal. by apply IH.
Qed.

Lemma indexOfStr_parts p s n : indexOfStr p s = Some n -> s = take n s ++ p ++ drop (n + length p) s.
Proof.
  revert n. induction s as [|c s IH]; intros n; cbn [indexOfStr].
  - destruct p; [|done]. cbn. by intros [= <-].
  - destruct (startsWith p (c :: s)) eqn:E.
    + intros [= <-]. by apply startsWith_parts.
    + destruct (indexOfStr p s) as [m|]; [|done]. intros [= <-]. cbn. f_equal. by apply IH.
Qed.

Lemma containsStr_parts p s : containsStr p s = true <-> exists a b, s = a ++ p ++ b.
Proof.
  unfold containsStr. split.
  - destruct (indexOfStr p s) as [n|] eqn:E; [|done]. intros _. apply indexOfStr_parts in E. eauto.
  - intros (a & b & ->). induction a as [|x a IH]; cbn [app].
    + destruct (p ++ b) eqn:E; cbn; rewrite <- E, startsWith_app; done.
    + cbn [indexOfStr]. destruct (startsWith p _); [done|]. by destruct (indexOfStr p (a ++ p ++ b)).
Qed.

(** Trimmed text: how it starts and ends, and what was cut off. *)
Lemma trimmed_cut s : exists a b, s = a ++ trimmed s ++ b.
Proof.
  unfold trimmed, dropWhileEnd. exists (takeWhile isSpace s), (rev (takeWhile isSpace (rev (dropWhile isSpace s)))).
  rewrite <- rev_app_distr, takeWhile_dropWhile, rev_involutive. symmetry. apply takeWhile_dropWhile.
Qed.

Lemma trimmed_first s : match s with c :: _ => isSpace c = false | [] => True end -> exists b, s = trimmed s ++ b.
Proof.
  intros H. unfold trimmed, dropWhileEnd. exists (rev (takeWhile isSpace (rev s))).
  assert (dropWhile isSpace s = s) as -> by (destruct s; [done|]; cbn; by rewrite H).
  by rewrite <- rev_app_distr, takeWhile_dropWhile, rev_involutive.
Qed.

Lemma trimmed_end s : trimmed s = [] \/ exists t y, trimmed s = t ++ [y] /\ isSpace y = false.
Proof.
  unfold trimmed, dropWhileEnd. destruct (dropWhile isSpace (rev _)) as [|y t] eqn:E; [by left|].
  right. exists (rev t), y. split; [done|]. by eapply dropWhile_head.
Qed.

Lemma trimmed_head s : match trimmed s with c :: _ => isSpace c = false | [] => True end.
Proof.
  unfold trimmed. destruct (dropWhile isSpace s) as [|c t] eqn:E; [done|]. apply dropWhile_head in E.
  destruct (trimmed_first (c :: t)) as [b Hb]; [done|]. unfold trimmed in Hb. cbn [dropWhile] in Hb. rewrite E in Hb.
  destruct (dropWhileEnd isSpace (c :: t)) as [|d u]; [done|]. by injection Hb as <- _.
Qed.

Lemma trimmed_again s : trimmed (trimmed s) = trimmed s.
Proof.
  pose proof (trimmed_head s) as Hh. destruct (trimmed_end s) as [->|(t & y & E & Hy)]; [done|]. rewrite E in *.
  destruct t as [|x t]; cbn [app] in *; [|by apply trimmed_ends].
  unfold trimmed, dropWhileEnd. cbn. rewrite Hy. cbn. by rewrite Hy.
Qed.

Lemma lastIndexOf_app c s t : free c t -> lastIndexOf c (s ++ c :: t) = Some (length s).
Proof.
  intros Hf. unfold lastIndexOf. rewrite rev_app_distr. cbn [rev]. rewrite <- app_assoc. cbn [app].
  rewrite indexOf_app by (by apply Forall_rev). cbn [fmap option_fmap option_map]. f_equal. rewrite length_app, length_rev. cbn [length]. lia.
Qed.
