(* ===== verification/Json.v ===== *)
(** * JSON values: QJsonValue and QJsonObject as the sources use them

    An object is the list of its members; a lookup finds the first of a key.
    Numbers keep Qt's two representations, and reading one as a double rounds
    an integer to 53 significant bits. *)

From Stdlib Require Import Ascii String.
From S2P Require Import Prelude QtText.

Local Open Scope Z_scope.
#[local] Set Warnings "-register-all".

(** A QJsonValue: [JInt] is a number held as qint64, [JDouble] one held as a
    double: its value rounded towards zero, and whether that is all of it. *)
Inductive QJsonValue :=
| JNull
| JBool (b : bool)
| JInt (z : Z)
| JDouble (integral : Z) (whole : bool)
| JString (s : qstring)
| JArray (vs : list QJsonValue)
| JObject (kvs : list (qstring * QJsonValue)).

Abbreviation QJsonObject := (list (qstring * QJsonValue)).

Fixpoint jsonGet (o : QJsonObject) (key : qstring) : option QJsonValue :=
  match o with
  | [] => None
  | (k, v) :: o' => if bool_decide (k = key) then Some v else jsonGet o' key
  end.
(** Assignment to a member. *)
Fixpoint jsonSet (o : QJsonObject) (key : qstring) (v : QJsonValue) : QJsonObject :=
  match o with
  | [] => [(key, v)]
  | (k, x) :: o' => if bool_decide (k = key) then (k, v) :: o' else (k, x) :: jsonSet o' key v
  end.
Definition jsonHas (o : QJsonObject) (key : qstring) : bool :=
  match jsonGet o key with Some _ => true | None => false end.
Definition jsonText (v : option QJsonValue) : qstring :=
  match v with Some (JString s) => s | _ => [] end.

(** The double nearest to an integer, ties to even: 53 significant bits. *)
Definition doubleOf (z : Z) : Z :=
  let a := Z.abs z in
  if a <=? 2 ^ 53 then z
  else let e := Z.log2 a - 52 in
       let q := a / 2 ^ e in
       let r := a mod 2 ^ e in
       let up := (2 ^ (e - 1) <? r) || ((r =? 2 ^ (e - 1)) && Z.odd q) in
       Z.sgn z * ((if up then q + 1 else q) * 2 ^ e).

(** The reading functions with their defaults. *)
Definition intRange (z : Z) : bool := (- 2 ^ 31 <=? z) && (z <? 2 ^ 31).
Definition jsonToInt (default : Z) (v : option QJsonValue) : Z :=
  match v with
  | Some (JInt z) | Some (JDouble z true) => if intRange z then z else default
  | _ => default
  end.
Definition jsonToBool (default : bool) (v : option QJsonValue) : bool :=
  match v with Some (JBool b) => b | _ => default end.
Definition jsonToString (default : qstring) (v : option QJsonValue) : qstring :=
  match v with Some (JString s) => s | _ => default end.
Definition jsonToArray (v : option QJsonValue) : list QJsonValue :=
  match v with Some (JArray vs) => vs | _ => [] end.
Definition jsonToObject (v : option QJsonValue) : QJsonObject :=
  match v with Some (JObject o) => o | _ => [] end.
(** static_cast<qint64>(toDouble()) *)
Definition jsonToInteger (v : option QJsonValue) : Z :=
  match v with
  | Some (JInt z) => doubleOf z
  | Some (JDouble z _) => z
  | _ => 0
  end.

(** QJsonValue::toInteger of Qt 6: exact, and the default for what is no 64-bit integer. *)
Definition jsonToInt64 (default : Z) (v : option QJsonValue) : Z :=
  match v with
  | Some (JInt z) | Some (JDouble z true) => if (- 2 ^ 63 <=? z) && (z <? 2 ^ 63) then z else default
  | _ => default
  end.

(** ** Decidability: a value is coded as a tree of numbers and texts *)

Fixpoint jsonTree (v : QJsonValue) : gen_tree (Z + bool + qstring) :=
  match v with
  | JNull => GenNode 0 []
  | JBool b => GenLeaf (inl (inr b))
  | JInt z => GenLeaf (inl (inl z))
  | JDouble z w => GenNode 1 [GenLeaf (inl (inl z)); GenLeaf (inl (inr w))]
  | JString s => GenLeaf (inr s)
  | JArray vs => GenNode 2 (map jsonTree vs)
  | JObject kvs => GenNode 3 (map (fun kv => GenNode 4 [GenLeaf (inr kv.1); jsonTree kv.2]) kvs)
  end.
Fixpoint jsonOfTree (t : gen_tree (Z + bool + qstring)) : QJsonValue :=
  match t with
  | GenLeaf (inl (inr b)) => JBool b
  | GenLeaf (inl (inl z)) => JInt z
  | GenLeaf (inr s) => JString s
  | GenNode 1 [GenLeaf (inl (inl z)); GenLeaf (inl (inr w))] => JDouble z w
  | GenNode 2 ts => JArray (map jsonOfTree ts)
  | GenNode 3 ts => JObject (map (fun t => match t with
      | GenNode 4 [GenLeaf (inr k); u] => (k, jsonOfTree u)
      | _ => ([], JNull)
      end) ts)
  | _ => JNull
  end.

Lemma jsonOfTree_jsonTree v : jsonOfTree (jsonTree v) = v.
Proof.
  revert v. fix IH 1. intros [|b|z|z w|s|vs|kvs]; cbn; [done..| |]; f_equal; rewrite map_map.
  - induction vs as [|v vs IHvs]; cbn; [done|]. by rewrite IH, IHvs.
  - induction kvs as [|[k v] kvs IHkvs]; cbn; [done|]. by rewrite IH, IHkvs.
Qed.

#[export] Instance QJsonValue_eq_dec : EqDecision QJsonValue.
Proof. refine (fun x y => cast_if (decide (jsonTree x = jsonTree y))); [|congruence].
  rewrite <- (jsonOfTree_jsonTree x), <- (jsonOfTree_jsonTree y). congruence. Defined.
#[export] Instance QJsonValue_countable : Countable QJsonValue :=
  inj_countable' jsonTree jsonOfTree jsonOfTree_jsonTree.

(** ** Lemmas *)

Lemma jsonToInt_int d z : intRange z = true -> jsonToInt d (Some (JInt z)) = z.
Proof. intros H. cbn. by rewrite H. Qed.


Lemma double_exact z : Z.abs z <= 2 ^ 53 -> doubleOf z = z.
Proof. intros H. unfold doubleOf. destruct (Z.leb_spec (Z.abs z) (2 ^ 53)); [done|lia]. Qed.

Lemma jsonHas_get o key : jsonHas o key = true <-> is_Some (jsonGet o key).
Proof. unfold jsonHas. destruct (jsonGet o key); split; [eauto|done|done|by intros []]. Qed.

Lemma jsonGet_set o key v k : jsonGet (jsonSet o key v) k = if bool_decide (key = k) then Some v else jsonGet o k.
Proof.
  induction o as [|[k' v'] o IH]; cbn; [done|]. destruct (bool_decide (k' = key)) eqn:E; cbn.
  - apply bool_decide_eq_true_1 in E as ->. by destruct (bool_decide (key = k)).
  - rewrite IH. apply bool_decide_eq_false_1 in E. repeat case_bool_decide; congruence.
Qed.

Lemma jsonGet_set_same o key v : jsonGet (jsonSet o key v) key = Some v.
Proof. rewrite jsonGet_set. by rewrite bool_decide_true. Qed.
Lemma jsonGet_set_other o key v k : key <> k -> jsonGet (jsonSet o key v) k = jsonGet o k.
Proof. intros H. rewrite jsonGet_set. by rewrite bool_decide_false. Qed.
