(* ===== verification/IpListParse.v ===== *)
(** * Parsing of IP lists (src/src/scanner/IpListParse.cpp)

    Addresses, networks, ranges and whole list files, as the scanner reads
    them: the character-level parsers, the canonical text of a network, the
    cover of an address range by networks, and [ParseIpListText]. *)

From Stdlib Require Import Ascii String.
From S2P Require Import Prelude QtText.

Local Open Scope Z_scope.
Local Open Scope throne_scope.

Definition kIpListParseMaxSamples : nat := 5.
Definition kIpListParseSampleChars : nat := 64.

(** IPv4 lives in the low 32 bits of [lo]. *)
Record IpListParseAddr := Addr { v6 : bool; hi : Z; lo : Z }.

#[export] Instance IpListParseAddr_eq_dec : EqDecision IpListParseAddr.
Proof. solve_decision. Defined.

Inductive IpListParseKind := KAddress | KPort | KOther.

#[export] Instance IpListParseKind_eq_dec : EqDecision IpListParseKind.
Proof. solve_decision. Defined.

Definition ipListParseBits (addr : IpListParseAddr) : Z := if v6 addr then 128 else 32.

(** ** Characters and numbers *)

Fixpoint ipListParseDecimalLoop (text : qstring) (value : Z) : option Z :=
  match text with
  | [] => Some value
  | c :: text' =>
      if (c <? ch "0") || (ch "9" <? c) then None
      else ipListParseDecimalLoop text' (u32 (value * 10 + (c - ch "0")))
  end.

Definition ipListParseDecimal (text : qstring) (maxDigits : Z) : option Z :=
  if isEmpty text || (maxDigits <? qsize text) then None
  else ipListParseDecimalLoop text 0.

Definition ipListParseHexDigit (u : Z) : Z :=
  if (ch "0" <=? u) && (u <=? ch "9") then u - ch "0"
  else if (ch "a" <=? u) && (u <=? ch "f") then u - ch "a" + 10
  else if (ch "A" <=? u) && (u <=? ch "F") then u - ch "A" + 10
  else -1.

Definition ipListParsePort (text : qstring) : option Z :=
  match ipListParseDecimal text 5 with
  | None => None
  | Some value => if 65535 <? value then None else Some value
  end.

(** ** IPv4 *)

(** One turn per dot-separated part; [rest = []] is the part after which the
    source breaks out of its loop. *)
Fixpoint ipListParseV4Loop (ps : list qstring) (value parts : Z) : option (Z * Z) :=
  match ps with
  | [] => Some (value, parts)
  | part :: rest =>
      match ipListParseDecimal part 3 with
      | None => None
      | Some octet =>
          if 255 <? octet then None
          else if (1 <? qsize part) && startsWithC (ch "0") part then None
          else if 4 <? parts + 1 then None
          else ipListParseV4Loop rest (u32 ((value <<< 8) .| octet)) (parts + 1)
      end
  end.

Definition ipListParseV4 (text : qstring) : option Z :=
  match ipListParseV4Loop (split (ch ".") text) 0 0 with
  | None => None
  | Some (value, parts) => if parts =? 4 then Some value else None
  end.

(** ** IPv6 *)

Fixpoint ipListParseHexGroup (group : qstring) (value : Z) : option Z :=
  match group with
  | [] => Some value
  | c :: group' =>
      let digit := ipListParseHexDigit c in
      if digit <? 0 then None
      else ipListParseHexGroup group' (u16 ((value <<< 4) .| digit))
  end.

(** [groups] holds the first [count] entries of the source's array. *)
Fixpoint ipListParseV6PartLoop (allowV4Tail : bool) (gs : list qstring) (groups : list Z)
    : option (list Z) :=
  match gs with
  | [] => Some groups
  | group :: rest =>
      if isEmpty rest && allowV4Tail && contains (ch ".") group then
        if 6 <? qsize groups then None
        else match ipListParseV4 group with
             | None => None
             | Some v4 => Some (groups ++ [u16 (v4 >>> 16); u16 (v4 .& 0xffff)])
             end
      else if isEmpty group || (4 <? qsize group) || (8 <=? qsize groups) then None
      else match ipListParseHexGroup group 0 with
           | None => None
           | Some value => ipListParseV6PartLoop allowV4Tail rest (groups ++ [value])
           end
  end.

Definition ipListParseV6Part (text : qstring) (allowV4Tail : bool) : option (list Z) :=
  if isEmpty text then Some []
  else ipListParseV6PartLoop allowV4Tail (split (ch ":") text) [].

(** Folds four groups into a 64-bit half, high group first. *)
Definition ipListParseHalf (groups : list Z) : Z :=
  fold_left (fun acc g => u64 ((acc <<< 16) .| g)) groups 0.

Definition ipListParseV6 (text : qstring) : option (Z * Z) :=
  match indexOfStr (qs "::") text with
  | None =>
      match ipListParseV6Part text true with
      | Some head =>
          if qsize head =? 8 then Some (ipListParseHalf (take 4 head), ipListParseHalf (drop 4 head))
          else None
      | None => None
      end
  | Some gap =>
      if containsStr (qs "::") (drop (gap + 1) text) then None
      else match ipListParseV6Part (take gap text) false with
      | None => None
      | Some head =>
          match ipListParseV6Part (drop (gap + 2) text) true with
          | None => None
          | Some tail =>
              if 7 <? qsize head + qsize tail then None
              else
                let groups := head ++ replicate (8 - length head - length tail) 0 ++ tail in
                Some (ipListParseHalf (take 4 groups), ipListParseHalf (drop 4 groups))
          end
      end
  end.

Definition ipListParseAddress (text : qstring) : option IpListParseAddr :=
  if contains (ch ":") text then
    let text := match indexOf (ch "%") text with Some zone => take zone text | None => text end in
    match ipListParseV6 text with
    | Some (h, l) => Some (Addr true h l)
    | None => None
    end
  else match ipListParseV4 text with
       | Some v4 => Some (Addr false 0 v4)
       | None => None
       end.

(** ** Networks *)

Definition ipListParseIsMapped (addr : IpListParseAddr) : bool :=
  v6 addr && (hi addr =? 0) && ((lo addr >>> 32) =? 0xffff).

(** [~0ULL << n] on 64 bits. *)
Definition ones64_shl (n : Z) : Z := u64 ((2 ^ 64 - 1) <<< n).

Definition ipListParseMask (addr : IpListParseAddr) (prefix : Z) : IpListParseAddr :=
  if negb (v6 addr) then
    Addr (v6 addr) (hi addr) (lo addr .& (u64 (0xffffffff <<< (32 - prefix)) .& 0xffffffff))
  else if prefix <? 64 then
    Addr (v6 addr) (hi addr .& (if prefix =? 0 then 0 else ones64_shl (64 - prefix))) 0
  else if prefix =? 64 then Addr (v6 addr) (hi addr) 0
  else if prefix <? 128 then Addr (v6 addr) (hi addr) (lo addr .& ones64_shl (128 - prefix))
  else addr.

(** Length of the run of zero groups at the front. *)
Definition zeroRun (groups : list Z) : nat := length (takeWhile (fun g => g =? 0) groups).

(** The scan for the first longest run of two or more zero groups; [i] is the
    position of the remaining groups. *)
Fixpoint ipListParseBestRun (fuel : nat) (groups : list Z) (i : nat) (best : option nat * nat)
    : option nat * nat :=
  match fuel with
  | O => best
  | S fuel' =>
      match groups with
      | [] => best
      | g :: groups' =>
          if negb (g =? 0) then ipListParseBestRun fuel' groups' (S i) best
          else
            let run := zeroRun groups in
            ipListParseBestRun fuel' (drop run groups) (i + run)
              (if (snd best <? run)%nat then (Some i, run) else best)
      end
  end.

(** The printing loop over the groups from position [i] on. *)
Fixpoint ipListParseFormatLoop (fuel : nat) (groups : list Z) (i : nat)
    (best : option nat * nat) (out : qstring) : qstring :=
  match fuel with
  | O => out
  | S fuel' =>
      match groups with
      | [] => out
      | g :: groups' =>
          if bool_decide (fst best = Some i) then
            ipListParseFormatLoop fuel' (drop (snd best) groups) (i + snd best) best (out ++ qs "::")
          else
            let out := if negb (isEmpty out) && negb (endsWithC (ch ":") out)
                       then out ++ [ch ":"] else out in
            ipListParseFormatLoop fuel' groups' (S i) best (out ++ unumber 16 g)
      end
  end.

Definition ipListParseGroups (addr : IpListParseAddr) : list Z :=
  map (fun i => u16 (hi addr >>> (48 - 16 * i))) [0; 1; 2; 3] ++
  map (fun i => u16 (lo addr >>> (48 - 16 * i))) [0; 1; 2; 3].

Definition ipListParseFormat (addr : IpListParseAddr) : qstring :=
  if negb (v6 addr) then
    let v := u32 (lo addr) in
    unumber 10 (v >>> 24) ++ [ch "."] ++ unumber 10 ((v >>> 16) .& 0xff) ++ [ch "."] ++
    unumber 10 ((v >>> 8) .& 0xff) ++ [ch "."] ++ unumber 10 (v .& 0xff)
  else
    let groups := ipListParseGroups addr in
    let best := ipListParseBestRun 8 groups 0 (None, 1%nat) in
    ipListParseFormatLoop 8 groups 0 best [].

Definition ipListParseCidr (addr : IpListParseAddr) (prefix : Z) : qstring :=
  let address := ipListParseFormat addr in
  if ipListParseBits addr <=? prefix then address else address ++ [ch "/"] ++ number prefix.

(** The text before and after the square brackets and the slash of a network:
    the address and the optional prefix length. *)
Definition ipListParseNetworkParts (text : qstring) : option (qstring * option qstring) :=
  let text := trimmed text in
  let bracketed :=
    if startsWithC (ch "[") text then
      match indexOf (ch "]") text with
      | None => None
      | Some close =>
          let suffix := drop (close + 1) text in
          if negb (isEmpty suffix) && negb (startsWithC (ch "/") suffix) then None
          else Some (take (close - 1) (drop 1 text), suffix)
      end
    else Some (text, []) in
  match bracketed with
  | None => None
  | Some (body, suffix) =>
      match indexOf (ch "/") body with
      | Some slash =>
          if negb (isEmpty suffix) then None
          else Some (take slash body, Some (drop (slash + 1) body))
      | None =>
          if negb (isEmpty suffix) then Some (body, Some (drop 1 suffix)) else Some (body, None)
      end
  end.

Definition ipListParseNetwork (text : qstring) : option (IpListParseAddr * Z) :=
  match ipListParseNetworkParts text with
  | None => None
  | Some (body, prefixText) =>
      match ipListParseAddress body with
      | None => None
      | Some addr =>
          let bits := ipListParseBits addr in
          let prefix :=
            match prefixText with
            | None => Some bits
            | Some t =>
                match ipListParseDecimal t 3 with
                | None => None
                | Some value => if bits <? value then None else Some value
                end
            end in
          match prefix with
          | None => None
          | Some prefix =>
              let '(addr, prefix) :=
                if ipListParseIsMapped addr && (96 <=? prefix)
                then (Addr false 0 (lo addr .& 0xffffffff), prefix - 96)
                else (addr, prefix) in
              if prefix =? 0 then None else Some (ipListParseMask addr prefix, prefix)
          end
      end
  end.

Definition NormalizeCidr (text : qstring) : qstring :=
  match ipListParseNetwork text with
  | None => []
  | Some (addr, prefix) => ipListParseCidr addr prefix
  end.

(** ** Covering an address range by networks *)

Definition ipListParseLess (a b : IpListParseAddr) : bool :=
  if negb (hi a =? hi b) then hi a <? hi b else lo a <? lo b.

(** log2 of the next block's size: as large as [first]'s alignment and the
    remaining range allow. *)
Definition ipListParseBlockBits (first last : IpListParseAddr) : Z :=
  let bits := ipListParseBits first in
  let align := if negb (lo first =? 0) then countr_zero (lo first)
               else if negb (hi first =? 0) then 64 + countr_zero (hi first) else 128 in
  let align := Z.min align bits in
  let diffLo := u64 (lo last - lo first) in
  let diffHi := u64 (hi last - hi first - (if lo last <? lo first then 1 else 0)) in
  let sizeLo := u64 (diffLo + 1) in
  let sizeHi := u64 (diffHi + (if sizeLo =? 0 then 1 else 0)) in
  let fit := if negb (sizeHi =? 0) then 64 + bit_width sizeHi - 1 else bit_width sizeLo - 1 in
  Z.min align fit.

(** The last address of the block of [2^k] addresses at [first]. *)
Definition ipListParseBlockEnd (first : IpListParseAddr) (k : Z) : IpListParseAddr :=
  if 64 <=? k then
    Addr (v6 first)
      (if 64 <? k then hi first .| u64 (u64 (1 <<< (k - 64)) - 1) else hi first)
      (2 ^ 64 - 1)
  else if 0 <? k then Addr (v6 first) (hi first) (lo first .| u64 (u64 (1 <<< k) - 1))
  else first.

Definition ipListParseNext (blockEnd : IpListParseAddr) : IpListParseAddr :=
  let l := u64 (lo blockEnd + 1) in
  Addr (v6 blockEnd) (u64 (hi blockEnd + (if l =? 0 then 1 else 0))) l.

(** The loop of ipListParseCoverRange; the emitted networks are kept as
    address and prefix length. [None] only when the fuel runs out. *)
Fixpoint ipListParseCoverLoop (fuel : nat) (first last : IpListParseAddr)
    : option (list (IpListParseAddr * Z)) :=
  match fuel with
  | O => None
  | S fuel' =>
      let k := ipListParseBlockBits first last in
      let blockEnd := ipListParseBlockEnd first k in
      let block := (first, ipListParseBits first - k) in
      if (hi blockEnd =? hi last) && (lo blockEnd =? lo last) then Some [block]
      else match ipListParseCoverLoop fuel' (ipListParseNext blockEnd) last with
           | None => None
           | Some out => Some (block :: out)
           end
  end.

Definition ipListParseCoverBlocks (first last : IpListParseAddr)
    : option (list (IpListParseAddr * Z)) :=
  let topHi := if v6 first then 2 ^ 64 - 1 else 0 in
  let topLo := if v6 first then 2 ^ 64 - 1 else 0xffffffff in
  if (hi first =? 0) && (lo first =? 0) && (hi last =? topHi) && (lo last =? topLo) then None
  else ipListParseCoverLoop 258 first last.

(** [None] when the cover would be the whole address space. *)
Definition ipListParseCoverRange (first last : IpListParseAddr) : option (list qstring) :=
  match ipListParseCoverBlocks first last with
  | None => None
  | Some blocks => Some (map (fun b => ipListParseCidr (fst b) (snd b)) blocks)
  end.

(** ** Tokens *)

Definition ipListParseRangeEnd (text : qstring) : option IpListParseAddr :=
  let text := if startsWithC (ch "[") text && endsWithC (ch "]") text
              then take (length text - 2) (drop 1 text) else text in
  if contains (ch "/") text then None
  else match ipListParseAddress text with
       | None => None
       | Some addr =>
           Some (if ipListParseIsMapped addr then Addr false 0 (lo addr .& 0xffffffff) else addr)
       end.

(** The end of a range split from the port written after it (-1: none). *)
Definition ipListParseRangeRight (right : qstring) : option (qstring * Z) :=
  if startsWithC (ch "[") right then
    match indexOf (ch "]") right with
    | None => None
    | Some close =>
        let rest := drop (close + 1) right in
        if isEmpty rest then Some (take (close + 1) right, -1)
        else if negb (startsWithC (ch ":") rest) then None
        else match ipListParsePort (drop 1 rest) with
             | None => None
             | Some port => Some (take (close + 1) right, port)
             end
    end
  else if (count (ch ":") right =? 1)%nat then
    match indexOf (ch ":") right with
    | None => None
    | Some colon =>
        match ipListParsePort (drop (colon + 1) right) with
        | None => None
        | Some port => Some (take colon right, port)
        end
    end
  else Some (right, -1).

Definition ipListParseRangeLast (first : IpListParseAddr) (right : qstring)
    : option IpListParseAddr :=
  match (if v6 first then None else ipListParseDecimal right 3) with
  | Some octet =>
      if (255 <? octet) || ((1 <? qsize right) && startsWithC (ch "0") right) then None
      else Some (Addr (v6 first) (hi first) ((lo first .& (2 ^ 64 - 1 - 0xff)) .| octet))
  | None =>
      match ipListParseRangeEnd right with
      | None => None
      | Some last => if Bool.eqb (v6 last) (v6 first) then Some last else None
      end
  end.

Definition ipListParseRangeToken (token : qstring) : option (list qstring * Z) :=
  let dash := default (length token) (indexOf (ch "-") token) in
  match ipListParseRangeRight (drop (dash + 1) token) with
  | None => None
  | Some (rest, port) =>
      match ipListParseRangeEnd (take dash token) with
      | None => None
      | Some first =>
          match ipListParseRangeLast first rest with
          | None => None
          | Some last =>
              let '(first, last) := if ipListParseLess last first then (last, first)
                                    else (first, last) in
              match ipListParseCoverRange first last with
              | None => None
              | Some cidrs => Some (cidrs, port)
              end
          end
      end
  end.

(** The network part of an address token and its port (-1: none). *)
Definition ipListParseTokenParts (token : qstring) : option (qstring * Z) :=
  if startsWithC (ch "[") token then
    match indexOf (ch "]") token with
    | None => None
    | Some close =>
        let rest := drop (close + 1) token in
        if startsWithC (ch ":") rest then
          match ipListParsePort (drop 1 rest) with
          | None => None
          | Some port => Some (take (close + 1) token, port)
          end
        else Some (token, -1)
    end
  else if (count (ch ":") token =? 1)%nat then
    match indexOf (ch ":") token with
    | None => None
    | Some colon =>
        match ipListParsePort (drop (colon + 1) token) with
        | None => None
        | Some port => Some (take colon token, port)
        end
    end
  else Some (token, -1).

Definition ipListParseAddressToken (token : qstring) : option (list qstring * Z) :=
  if isEmpty token then None
  else if contains (ch "-") token then ipListParseRangeToken token
  else match ipListParseTokenParts token with
       | None => None
       | Some (network, port) =>
           match ipListParseNetwork network with
           | None => None
           | Some (addr, prefix) => Some ([ipListParseCidr addr prefix], port)
           end
       end.

Definition ipListParseLooksLikeAddress (token : qstring) : bool :=
  match token with
  | [] => false
  | front :: _ =>
      if startsWithC (ch "[") token || containsStr (qs "::") token ||
         (7 <=? count (ch ":") token)%nat then true
      else if (count (ch ".") token <? 2)%nat || (front <? ch "0") || (ch "9" <? front) then false
      else forallb (fun c => ((ch "0" <=? c) && (c <=? ch "9")) || (c =? ch ".") || (c =? ch "/")
                             || (c =? ch ":") || (c =? ch "-")) token
  end.

Definition ipListParseIsSeparator (c : Z) : bool :=
  (c =? ch ",") || (c =? ch ";") || (c =? 9) || (c =? ch "|").

Definition ipListParseRangeChar (c : Z) : bool :=
  (0 <=? ipListParseHexDigit c) || (c =? ch ".") || (c =? ch ":") || (c =? ch "[") || (c =? ch "]").

(** ** Lines *)

(** [out] is the text built so far, [line] what is left to read. *)
Fixpoint ipListParseJoinLoop (fuel : nat) (line out : qstring) : qstring :=
  match fuel, line with
  | S fuel', c :: rest =>
      let plain := ipListParseJoinLoop fuel' rest (out ++ [c]) in
      if (c =? ch "-") || (c =? 0x2013) then
        let kept := dropWhileEnd isSpace out in
        let next := dropWhile isSpace rest in
        match last kept, next with
        | Some e, n :: _ =>
            if ipListParseRangeChar e && ipListParseRangeChar n
            then ipListParseJoinLoop fuel' next (kept ++ [ch "-"])
            else plain
        | _, _ => plain
        end
      else plain
  | _, _ => out
  end.
Definition ipListParseJoinRanges (line : qstring) : qstring :=
  ipListParseJoinLoop (length line) line [].

Definition ipListParseQuote (c : Z) : bool := (c =? 34) || (c =? 39).
Definition ipListParseUnquote (text : qstring) : qstring :=
  trimmed (dropWhileEnd ipListParseQuote (dropWhile ipListParseQuote (trimmed text))).

Definition ipListParseSplit (text : qstring) (bySeparator : bool) : list qstring :=
  if bySeparator then splitBy ipListParseIsSeparator text
  else List.filter (fun part => negb (isEmpty part)) (splitBy isSpace text).

Record IpListParseToken := Token {
  text : qstring; field : nat; kind : IpListParseKind;
  cidrs : list qstring; tport : Z; consumed : bool }.

Record IpListEntry := Entry { cidr : qstring; port : Z; latencyMs : Z }.

#[export] Instance IpListEntry_eq_dec : EqDecision IpListEntry.
Proof. solve_decision. Defined.

Record ParseResult := Result {
  entries : list IpListEntry; rejected : Z; duplicates : Z; samples : list qstring }.

Record ParseState := PState {
  result : ParseResult; seen : gset qstring; firstContentLine : bool;
  tabularFile : bool; portColumn : option nat }.

(** The classification of one word of a field. *)
Definition ipListParseToken (f : nat) (word : qstring) : option IpListParseToken :=
  let t := ipListParseUnquote word in
  if isEmpty t then None
  else Some
    match ipListParseAddressToken t with
    | Some (cs, p) => Token t f KAddress cs p false
    | None =>
        match ipListParsePort t with
        | Some p => Token t f KPort [] p false
        | None => Token t f KOther [] (-1) false
        end
    end.

Definition ipListParseTokens (fields : list qstring) : list IpListParseToken :=
  concat (imap (fun f field => omap (ipListParseToken f) (ipListParseSplit field false)) fields).

Definition reject (token : qstring) (st : ParseState) : ParseState :=
  let r := result st in
  PState (Result (entries r) (rejected r + 1) (duplicates r)
            (if (length (samples r) <? kIpListParseMaxSamples)%nat
             then samples r ++ [take kIpListParseSampleChars token] else samples r))
    (seen st) (firstContentLine st) (tabularFile st) (portColumn st).

Definition ipListParseKey (cidr : qstring) (port : Z) : qstring := cidr ++ [ch " "] ++ number port.

Definition addCidr (port : Z) (st : ParseState) (c : qstring) : ParseState :=
  let r := result st in
  let key := ipListParseKey c port in
  if bool_decide (key ∈ seen st) then
    PState (Result (entries r) (rejected r) (duplicates r + 1) (samples r))
      (seen st) (firstContentLine st) (tabularFile st) (portColumn st)
  else
    PState (Result (entries r ++ [Entry c port 0]) (rejected r) (duplicates r) (samples r))
      ({[key]} ∪ seen st) (firstContentLine st) (tabularFile st) (portColumn st).

Definition add (defaultPort : Z) (cs : list qstring) (p : Z) (st : ParseState) : ParseState :=
  let p := if p <=? 0 then defaultPort else p in
  fold_left (addCidr p) cs st.

Section ParseText.
(** [QString::fromUtf8] and the case folding of Qt's case-insensitive
    comparisons. *)
Context (fromUtf8 : list Z -> qstring) (foldCase : Z -> Z).

Definition kNames : list qstring :=
  map qs ["address"; "host"; "hostname"; "cidr"; "subnet"; "network";
          "prefix"; "range"; "endpoint"; "server"; "target"]%string.

Definition ipListParseIsColumnName (token : qstring) : bool :=
  if startsWithCI foldCase (qs "ip") token || startsWithCI foldCase (qs "addr") token || containsCI foldCase (qs "port") token
  then true
  else existsb (fun name => equalCI foldCase name token) kNames.

(** The first field that names a port column. *)
Fixpoint ipListParsePortColumn (fields : list qstring) (f : nat) : option nat :=
  match fields with
  | [] => None
  | x :: fields' => if containsCI foldCase (qs "port") x then Some f
                    else ipListParsePortColumn fields' (S f)
  end.

Definition rejectAll (ts : list qstring) (st : ParseState) : ParseState :=
  fold_left (fun st t => reject t st) ts st.

(** The port of an address token, and whether it consumes the token after it. *)
Definition ipListParseTokenPort (st : ParseState) (fields : list qstring)
    (token : IpListParseToken) (rest : list IpListParseToken) : Z * bool :=
  if tport token <? 0 then
    if tabularFile st then
      match portColumn st with
      | Some pc =>
          if (pc <? length fields)%nat && negb (pc =? field token)%nat then
            match ipListParsePort (default [] (fields !! pc)) with
            | Some columnPort => (columnPort, false)
            | None => (tport token, false)
            end
          else (tport token, false)
      | None => (tport token, false)
      end
    else match rest with
         | next :: _ => if bool_decide (kind next = KPort) then (tport next, true)
                        else (tport token, false)
         | [] => (tport token, false)
         end
  else (tport token, false).

Definition consume (ts : list IpListParseToken) : list IpListParseToken :=
  match ts with
  | [] => []
  | t :: ts' => Token (text t) (field t) (kind t) (cidrs t) (tport t) true :: ts'
  end.

(** The loop over the tokens of a line that holds an address; [fuel] is the
    number of tokens. *)
Fixpoint ipListParseTokenLoop (fuel : nat) (defaultPort : Z) (fields : list qstring) (tabular : bool)
    (ts : list IpListParseToken) (st : ParseState) : ParseState :=
  match fuel, ts with
  | S fuel', token :: rest =>
      if consumed token then ipListParseTokenLoop fuel' defaultPort fields tabular rest st
      else match kind token with
      | KAddress =>
          let '(p, eats) := ipListParseTokenPort st fields token rest in
          ipListParseTokenLoop fuel' defaultPort fields tabular
            (if eats then consume rest else rest) (add defaultPort (cidrs token) p st)
      | KPort =>
          ipListParseTokenLoop fuel' defaultPort fields tabular rest
            (if tabular then st else reject (text token) st)
      | KOther =>
          ipListParseTokenLoop fuel' defaultPort fields tabular rest
            (if negb tabular || ipListParseLooksLikeAddress (text token)
             then reject (text token) st else st)
      end
  | _, _ => st
  end.

(** The line without its comment, trimmed, its ranges joined; [None] when the
    source skips it. *)
Definition ipListParseLineText (line : qstring) : option qstring :=
  let line := match indexOf (ch "#") line with Some hash => take hash line | None => line end in
  let line := match indexOfStr (qs "//") line with Some s => take s line | None => line end in
  let line := trimmed line in
  if isEmpty line || startsWithC (ch ";") line then None
  else Some (if contains (ch "-") line || contains 0x2013 line
             then ipListParseJoinRanges line else line).

Definition setFlags (first tab : bool) (pc : option nat) (st : ParseState) : ParseState :=
  PState (result st) (seen st) first tab pc.

Definition ipListParseLine (defaultPort : Z) (st : ParseState) (rawLine : qstring) : ParseState :=
  match ipListParseLineText rawLine with
  | None => st
  | Some line =>
      let separated := existsb ipListParseIsSeparator line in
      let fields := map ipListParseUnquote (ipListParseSplit line separated) in
      let tokens := ipListParseTokens fields in
      if isEmpty tokens then st
      else
        let tabular := separated || tabularFile st in
        let addresses := existsb (fun t => bool_decide (kind t = KAddress)) tokens in
        let addressShaped :=
          existsb (fun t => negb (bool_decide (kind t = KAddress)) &&
                            ipListParseLooksLikeAddress (text t)) tokens in
        let namesColumn := existsb (fun t => ipListParseIsColumnName (text t)) tokens in
        if negb addresses then
          if firstContentLine st && negb addressShaped && namesColumn then
            setFlags false true
              (match ipListParsePortColumn fields 0 with
               | Some f => Some f | None => portColumn st end) st
          else
            let st := setFlags false (tabularFile st) (portColumn st) st in
            if negb tabular then rejectAll (map text tokens) st
            else if addressShaped then
              rejectAll (List.filter ipListParseLooksLikeAddress (map text tokens)) st
            else reject line st
        else
          ipListParseTokenLoop (length tokens) defaultPort fields tabular tokens
            (setFlags false (tabularFile st) (portColumn st) st)
  end.

Definition initialState : ParseState := PState (Result [] 0 0 []) ∅ true false None.

Definition clampDefaultPort (defaultPort : Z) : Z :=
  if (defaultPort <? 0) || (65535 <? defaultPort) then 0 else defaultPort.

(** The lines of the content: no line after a final newline. *)
Definition contentLines (content : qstring) : list qstring :=
  if isEmpty content then []
  else let ls := split 10 content in
       if isEmpty (default [] (last ls)) then removelast ls else ls.

Definition ParseIpListText (text : list Z) (defaultPort : Z) : ParseResult :=
  let content := fromUtf8 text in
  let content := if startsWithC 0xFEFF content then drop 1 content else content in
  result (fold_left (ipListParseLine (clampDefaultPort defaultPort)) (contentLines content) initialState).

End ParseText.

(** ** Printing entries *)

Definition FormatTarget (address : qstring) (port : Z) : qstring :=
  if port <=? 0 then address
  else if contains (ch ":") address then [ch "["] ++ address ++ qs "]:" ++ number port
  else address ++ [ch ":"] ++ number port.

Definition IsHostCidr (cidr : qstring) : bool :=
  if isEmpty cidr then false
  else match indexOf (ch "/") cidr with
       | None => true
       | Some slash =>
           bool_decide (drop (slash + 1) cidr =
                        (if contains (ch ":") (take slash cidr) then qs "128" else qs "32"))
       end.

Definition FormatEntry (entry : IpListEntry) : qstring :=
  if IsHostCidr (cidr entry) then
    FormatTarget (match indexOf (ch "/") (cidr entry) with
                  | None => cidr entry
                  | Some slash => take slash (cidr entry)
                  end) (port entry)
  else if port entry <=? 0 then cidr entry
  else cidr entry ++ [ch " "] ++ number (port entry).

Definition AddressCount (cidr : qstring) : Z :=
  if isEmpty cidr then 0
  else match indexOf (ch "/") cidr with
       | None => 1
       | Some slash =>
           let bits := if contains (ch ":") (take slash cidr) then 128 else 32 in
           match ipListParseDecimal (drop (slash + 1) cidr) 3 with
           | None => 0
           | Some prefix =>
               if bits <? prefix then 0
               else let hostBits := bits - prefix in
                    if 63 <=? hostBits then u64 (1 <<< 63) else u64 (1 <<< hostBits)
           end
       end.

Definition entryFromCidr (defaultPort : Z) (acc : list IpListEntry * gset qstring) (text : qstring)
    : list IpListEntry * gset qstring :=
  let cidr := NormalizeCidr text in
  if isEmpty cidr || bool_decide (cidr ∈ snd acc) then acc
  else (fst acc ++ [Entry cidr defaultPort 0], {[cidr]} ∪ snd acc).

Definition EntriesFromCidrs (cidrs : list qstring) (defaultPort : Z) : list IpListEntry :=
  fst (fold_left (entryFromCidr (clampDefaultPort defaultPort)) cidrs ([], ∅)).
