(* ===== verification/IpCover.v ===== *)
(** * The cover of an address range by networks is exact

    [ipListParseCoverRange] walks from the first address of a range to the
    last with 64-bit halves and wrapping arithmetic. This file relates the
    halves to the address as one number and shows that the loop ends and that
    the blocks it emits tile the range. *)

From S2P Require Import Prelude QtText IpListParse.

Local Open Scope Z_scope.
Local Open Scope throne_scope.

(** ** Addresses as numbers *)

Definition val (a : IpListParseAddr) : Z := hi a * 2 ^ 64 + lo a.

Record wf_addr (a : IpListParseAddr) : Prop := {
  wf_hi : 0 <= hi a < 2 ^ 64;
  wf_lo : 0 <= lo a < 2 ^ 64;
  wf_v4 : v6 a = false -> hi a = 0 /\ lo a < 2 ^ 32 }.

(** A network's addresses: the block of [2 ^ (bits - prefix)] from its base. *)
Definition block_size (b : IpListParseAddr * Z) : Z := 2 ^ (ipListParseBits (fst b) - snd b).
Definition in_block (x : Z) (b : IpListParseAddr * Z) : Prop :=
  val (fst b) <= x < val (fst b) + block_size b.

(** The blocks lie one after another, aligned, from [a] up to [b]. *)
Fixpoint tiles (f : bool) (a b : Z) (blocks : list (IpListParseAddr * Z)) : Prop :=
  match blocks with
  | [] => a = b + 1
  | blk :: rest =>
      wf_addr (fst blk) /\ v6 (fst blk) = f /\ val (fst blk) = a /\
      0 < snd blk <= ipListParseBits (fst blk) /\
      (block_size blk | a) /\ tiles f (a + block_size blk) b rest
  end.

Lemma val_range a : wf_addr a -> 0 <= val a < 2 ^ ipListParseBits a.
Proof.
  intros [Hh Hl H4]. unfold val, ipListParseBits. destruct (v6 a).
  - change (2 ^ 128) with (2 ^ 64 * 2 ^ 64). nia.
  - destruct H4 as [-> ?]; [done|]. lia.
Qed.

Lemma val_hi x : 0 <= lo x < 2 ^ 64 -> hi x = val x / 2 ^ 64.
Proof. intros H. unfold val. apply (Z.div_unique_pos _ _ _ (lo x)); lia. Qed.

Lemma val_lo x : 0 <= lo x < 2 ^ 64 -> lo x = val x mod 2 ^ 64.
Proof. intros H. unfold val. apply (Z.mod_unique_pos _ _ (hi x)); lia. Qed.

(** ** Alignment *)

(** [c] is the largest power of two (at most [bits]) that divides [V]. *)
Definition is_align (bits V c : Z) : Prop :=
  0 <= c <= bits /\ (2 ^ c | V) /\ (c < bits -> ~ (2 ^ (c + 1) | V)).

Lemma divide_pow2 m n : 0 <= m <= n -> (2 ^ m | 2 ^ n).
Proof. intros H. exists (2 ^ (n - m)). rewrite <- Z.pow_add_r by lia. f_equal. lia. Qed.

Lemma odd_not_divide c q : 0 <= c -> ~ (2 ^ (c + 1) | 2 ^ c * (2 * q + 1)).
Proof.
  intros Hc [z Hz]. rewrite Z.pow_add_r in Hz by lia.
  assert (2 ^ c * (2 * q + 1) = 2 ^ c * (2 * z)) as E by lia.
  apply Z.mul_reg_l in E; lia.
Qed.

Lemma is_align_odd bits V c q :
  0 <= c -> 0 <= q -> V = 2 ^ c * (2 * q + 1) -> V < 2 ^ bits -> is_align bits V (Z.min c bits).
Proof.
  intros Hc Hq -> Hb. assert (c < bits) as Hlt.
  { apply (Z.pow_lt_mono_r_iff 2); try lia.
    destruct (Z.le_gt_cases 0 bits); [lia|]. rewrite (Z.pow_neg_r 2 bits) in Hb by lia.
    pose proof (Z.pow_pos_nonneg 2 c). nia. }
  rewrite Z.min_l by lia. repeat split; try lia.
  - apply Z.divide_factor_l.
  - intros _. by apply odd_not_divide.
Qed.

(** The alignment the code computes from the two halves. *)
Definition code_align (a : IpListParseAddr) : Z :=
  Z.min (if negb (lo a =? 0) then countr_zero (lo a)
         else if negb (hi a =? 0) then 64 + countr_zero (hi a) else 128) (ipListParseBits a).

Lemma code_align_spec a : wf_addr a -> is_align (ipListParseBits a) (val a) (code_align a).
Proof.
  intros Hwf. pose proof (val_range a Hwf) as Hr. destruct Hwf as [Hh Hl _].
  unfold code_align. destruct (Z.eqb_spec (lo a) 0) as [E|E]; cbn [negb].
  - destruct (Z.eqb_spec (hi a) 0) as [E'|E']; cbn [negb].
    + unfold val. rewrite E, E'. replace (Z.min 128 _) with (ipListParseBits a).
      * repeat split; [unfold ipListParseBits; by case_match|lia|apply Z.divide_0_r|lia].
      * unfold ipListParseBits. by case_match.
    + destruct (countr_zero_spec (hi a)) as (q & Hq & Hc & Hq0); [lia|].
      apply (is_align_odd _ _ _ q); [lia..| |lia].
      unfold val. rewrite E, Z.pow_add_r by lia. rewrite Hq at 1. lia.
  - destruct (countr_zero_spec (lo a)) as (q & Hq & Hc & Hq0); [lia|].
    assert (countr_zero (lo a) < 64) as Hlt.
    { apply (Z.pow_lt_mono_r_iff 2); [lia..|]. pose proof (Z.pow_pos_nonneg 2 (countr_zero (lo a))). nia. }
    apply (is_align_odd _ _ _ (q + hi a * 2 ^ (63 - countr_zero (lo a)))); [lia| |  |lia].
    + pose proof (Z.pow_nonneg 2 (63 - countr_zero (lo a))). nia.
    + unfold val. rewrite Hq at 1.
      assert (2 ^ 64 = 2 ^ countr_zero (lo a) * (2 * 2 ^ (63 - countr_zero (lo a)))) as E64.
      { rewrite <- Z.pow_succ_r, <- Z.pow_add_r by lia. f_equal. lia. }
      rewrite E64. ring.
Qed.

Lemma is_align_advance bits V c :
  is_align bits V c -> c < bits -> (2 ^ (c + 1) | V + 2 ^ c).
Proof.
  intros (Hc & [m Hm] & Hn) Hlt. specialize (Hn Hlt).
  destruct (Z.Even_or_Odd m) as [[k Hk]|[k Hk]].
  - destruct Hn. exists k. rewrite Z.pow_add_r by lia. lia.
  - exists (k + 1). rewrite Z.pow_add_r by lia. nia.
Qed.

Lemma is_align_ge bits V c d :
  is_align bits V c -> 0 <= d <= bits -> (2 ^ d | V) -> d <= c.
Proof.
  intros (Hc & _ & Hn) Hd Hdiv. destruct (Z.le_gt_cases d c) as [|Hgt]; [done|].
  destruct Hn; [lia|]. etrans; [|done]. apply divide_pow2. lia.
Qed.

(** ** One turn of the loop *)

(** Both ends of a range of one family that is not the whole space. *)
Record range_ok (first last : IpListParseAddr) : Prop := {
  ok_first : wf_addr first;
  ok_last : wf_addr last;
  ok_family : v6 first = v6 last;
  ok_order : val first <= val last;
  ok_small : val last - val first + 1 < 2 ^ ipListParseBits first }.

Definition range_size (first last : IpListParseAddr) : Z := val last - val first + 1.

Lemma bits_cases a : ipListParseBits a = 32 \/ ipListParseBits a = 128.
Proof. unfold ipListParseBits. case_match; lia. Qed.

(** The size computed from the halves: its high and low words. *)
Lemma range_size_words first last :
  range_ok first last ->
  let diffLo := u64 (lo last - lo first) in
  let diffHi := u64 (hi last - hi first - (if lo last <? lo first then 1 else 0)) in
  let sizeLo := u64 (diffLo + 1) in
  u64 (diffHi + (if sizeLo =? 0 then 1 else 0)) = range_size first last / 2 ^ 64 /\
  sizeLo = range_size first last mod 2 ^ 64.
Proof.
  intros [[Hfh Hfl _] [Hlh Hll _] _ Hle Hs]. unfold range_size, val in *.
  assert (2 ^ ipListParseBits first <= 2 ^ 128) as Hb.
  { apply Z.pow_le_mono_r; [lia|]. destruct (bits_cases first); lia. }
  change (2 ^ 128) with (2 ^ 64 * 2 ^ 64) in Hb.
  set (fh := hi first) in *. set (fl := lo first) in *.
  set (lh := hi last) in *. set (ll := lo last) in *.
  set (b := if ll <? fl then 1 else 0).
  assert (u64 (ll - fl) = ll - fl + b * 2 ^ 64) as ->.
  { unfold u64, b. symmetry. apply (Z.mod_unique_pos _ _ (- b)); unfold b; case_match; bprop; lia. }
  assert (0 <= lh - fh - b < 2 ^ 64) as Hdh.
  { unfold b; case_match; bprop; nia. }
  rewrite (u64_small (lh - fh - b)) by done.
  set (dl := ll - fl + b * 2 ^ 64).
  assert (0 <= dl < 2 ^ 64) as Hdl. { unfold dl, b; case_match; bprop; lia. }
  assert (lh * 2 ^ 64 + ll - (fh * 2 ^ 64 + fl) + 1 = (lh - fh - b) * 2 ^ 64 + dl + 1) as E.
  { unfold dl. lia. }
  rewrite E in *. destruct (Z.eq_dec dl (2 ^ 64 - 1)) as [Em|Em].
  - rewrite Em. change (u64 (2 ^ 64 - 1 + 1)) with 0. cbn [Z.eqb].
    rewrite Em in Hs. rewrite (u64_small (lh - fh - b + 1)) by lia.
    split.
    + apply (Z.div_unique_pos _ _ _ 0); lia.
    + apply (Z.mod_unique_pos _ _ (lh - fh - b + 1)); lia.
  - rewrite (u64_small (dl + 1)) by lia. destruct (Z.eqb_spec (dl + 1) 0); [lia|].
    rewrite Z.add_0_r, u64_small by lia. split.
    + apply (Z.div_unique_pos _ _ _ (dl + 1)); lia.
    + apply (Z.mod_unique_pos _ _ (lh - fh - b)); lia.
Qed.

Lemma log2_high_word s :
  0 < s -> s / 2 ^ 64 <> 0 -> 64 + Z.log2 (s / 2 ^ 64) = Z.log2 s.
Proof.
  intros Hs Hh. symmetry. rewrite <- Z.shiftr_div_pow2 by lia.
  assert (64 <= Z.log2 s).
  { apply Z.log2_le_pow2; [lia|]. destruct (Z.le_gt_cases (2 ^ 64) s); [done|].
    rewrite Z.div_small in Hh; lia. }
  rewrite Z.log2_shiftr by lia. lia.
Qed.

(** The block taken is the largest that is aligned and still fits. *)
Lemma block_bits_eq first last :
  range_ok first last ->
  ipListParseBlockBits first last = Z.min (code_align first) (Z.log2 (range_size first last)).
Proof.
  intros Hok. destruct (range_size_words _ _ Hok) as [Eh El].
  assert (0 < range_size first last) as Hpos.
  { destruct Hok. unfold range_size. lia. }
  unfold ipListParseBlockBits. cbv zeta in *. rewrite Eh, El.
  change (Z.min _ (ipListParseBits first)) with (code_align first) at 1.
  f_equal. unfold bit_width.
  destruct (Z.eqb_spec (range_size first last / 2 ^ 64) 0) as [E|E]; cbn [negb].
  - apply Z.div_small_iff in E; [|lia]. destruct E as [E|E]; [|lia].
    rewrite Z.mod_small by done. destruct (Z.eqb_spec (range_size first last) 0); lia.
  - rewrite <- (log2_high_word (range_size first last)) by done. lia.
Qed.

Lemma u64_ones k : 0 <= k < 64 -> u64 (u64 (1 <<< k) - 1) = 2 ^ k - 1.
Proof.
  intros Hk. rewrite Z.shiftl_1_l.
  assert (2 ^ k < 2 ^ 64) by (apply Z.pow_lt_mono_r; lia).
  pose proof (Z.pow_pos_nonneg 2 k ltac:(lia) ltac:(lia)).
  rewrite (u64_small (2 ^ k)), u64_small by lia. done.
Qed.

(** OR-ing ones under an aligned word adds them. *)
Lemma lor_aligned x k : 0 <= k -> (2 ^ k | x) -> x .| (2 ^ k - 1) = x + (2 ^ k - 1).
Proof.
  intros Hk [z ->]. pose proof (Z.pow_pos_nonneg 2 k ltac:(lia) Hk).
  rewrite <- Z.shiftl_mul_pow2 at 1 by done. rewrite lor_shiftl_add; lia.
Qed.

Lemma divide_lo a k : 0 <= k <= 64 -> (2 ^ k | val a) -> (2 ^ k | lo a).
Proof.
  intros Hk H. replace (lo a) with (val a - hi a * 2 ^ 64) by (unfold val; lia).
  apply Z.divide_sub_r; [done|]. apply Z.divide_mul_r, divide_pow2. lia.
Qed.

Lemma divide_hi a k :
  wf_addr a -> 64 <= k -> (2 ^ k | val a) -> lo a = 0 /\ (2 ^ (k - 64) | hi a).
Proof.
  intros [_ Hl _] Hk [z Hz]. unfold val in Hz.
  assert (2 ^ k = 2 ^ (k - 64) * 2 ^ 64) as E.
  { rewrite <- Z.pow_add_r by lia. f_equal. lia. }
  rewrite E in Hz. set (p := 2 ^ (k - 64)) in *.
  assert (hi a = z * p) by nia. split; [nia|]. exists z. lia.
Qed.

Lemma aligned_fits x p q : 0 < p -> (p | x) -> (p | q) -> x < q -> x + p <= q.
Proof. intros Hp [y ->] [z ->] Hlt. assert (y < z) by nia. nia. Qed.

(** The block's last address, computed by OR, is its base plus 2^k - 1. *)
Lemma block_end_spec a k :
  wf_addr a -> 0 <= k < ipListParseBits a -> (2 ^ k | val a) ->
  val a + 2 ^ k <= 2 ^ ipListParseBits a ->
  let e := ipListParseBlockEnd a k in
  wf_addr e /\ v6 e = v6 a /\ val e = val a + 2 ^ k - 1.
Proof.
  intros Hwf [Hk Hkb] Hdiv Hle e. pose proof Hwf as [Hh Hl H4].
  assert (k < 128) by (destruct (bits_cases a); lia). clear Hkb.
  pose proof (Z.pow_pos_nonneg 2 k ltac:(lia) Hk) as Hp.
  assert (v6 a = false -> hi a = 0 /\ lo a + 2 ^ k <= 2 ^ 32) as H4'.
  { intros E. destruct (H4 E) as [E0 _]. unfold val, ipListParseBits in Hle.
    rewrite E, E0 in Hle. lia. }
  unfold e, ipListParseBlockEnd. destruct (Z.leb_spec 64 k) as [H64|H64].
  - destruct (divide_hi a k Hwf H64 Hdiv) as [El Ehd].
    destruct (v6 a) eqn:E6.
    2: { exfalso. destruct (H4' eq_refl) as [_ ?].
         assert (2 ^ 64 <= 2 ^ k) by (apply Z.pow_le_mono_r; lia). lia. }
    unfold val, ipListParseBits in Hle. rewrite E6, El in Hle.
    assert (2 ^ k = 2 ^ (k - 64) * 2 ^ 64) as Ek.
    { rewrite <- Z.pow_add_r by lia. f_equal. lia. }
    change (2 ^ 128) with (2 ^ 64 * 2 ^ 64) in Hle.
    pose proof (Z.pow_pos_nonneg 2 (k - 64) ltac:(lia) ltac:(lia)) as Hp'.
    rewrite Ek in Hle, Hp |- *. unfold val; rewrite El; cbn [hi lo v6].
    destruct (Z.ltb_spec 64 k) as [Hgt|Heq].
    + rewrite u64_ones, lor_aligned by (done || lia).
      repeat split; cbn [hi lo v6]; try lia; try done; nia.
    + assert (k = 64) as -> by lia. repeat split; cbn [hi lo v6]; try lia; done.
  - assert (2 ^ k <= 2 ^ 63) by (apply Z.pow_le_mono_r; lia).
    assert (2 ^ k | lo a) as Hdl by (apply divide_lo; [lia|done]).
    assert (lo a + 2 ^ k <= 2 ^ 64) as Hfit.
    { apply aligned_fits; [done..| |lia]. apply divide_pow2. lia. }
    destruct (Z.ltb_spec 0 k) as [Hk0|Hk0].
    + rewrite u64_ones, lor_aligned by (done || lia).
      unfold val; repeat split; cbn [hi lo v6]; try lia; (destruct H4'; [done|lia]).
    + assert (k = 0) as -> by lia. change (2 ^ 0) with 1. split; [exact Hwf|]. split; [done|lia].
Qed.

(** The address after a block that does not end the range. *)
Lemma next_spec e :
  wf_addr e -> val e + 1 < 2 ^ ipListParseBits e ->
  let n := ipListParseNext e in
  wf_addr n /\ v6 n = v6 e /\ val n = val e + 1.
Proof.
  intros Hwf Hlt n. pose proof Hwf as [Hh Hl H4].
  assert (2 ^ ipListParseBits e <= 2 ^ 64 * 2 ^ 64) as Hb.
  { unfold ipListParseBits. case_match; lia. }
  unfold n, ipListParseNext, val in *. cbv zeta.
  destruct (Z.eq_dec (lo e) (2 ^ 64 - 1)) as [E|E].
  - rewrite E in *. change (u64 (2 ^ 64 - 1 + 1)) with 0. cbn [Z.eqb].
    rewrite (u64_small (hi e + 1)) by lia.
    repeat split; cbn [hi lo v6]; try lia; (destruct H4; [done|lia]).
  - rewrite (u64_small (lo e + 1)) by lia. destruct (Z.eqb_spec (lo e + 1) 0); [lia|].
    rewrite Z.add_0_r, (u64_small (hi e)) by lia.
    split; [split|split]; cbn [hi lo v6]; try lia; try done. intros E6. split.
    + by destruct (H4 E6).
    + destruct (H4 E6) as [E0 _]. unfold ipListParseBits in Hlt. rewrite E6, E0 in Hlt. lia.
Qed.

Lemma same_address a b :
  wf_addr a -> wf_addr b -> (hi a =? hi b) && (lo a =? lo b) = true <-> val a = val b.
Proof.
  intros [] []. unfold val. rewrite andb_true_iff, !Z.eqb_eq. split; [intros [-> ->]; done|nia].
Qed.

(** Turns the loop still takes: the alignment grows until the remaining size
    is what limits the block, and then the size's logarithm falls. *)
Definition cover_measure (bits align size : Z) : Z :=
  if align <=? Z.log2 size then 2 * bits + 1 - align else Z.log2 size + 1.

Lemma log2_sub_pow s : 0 < s -> s - 2 ^ Z.log2 s <> 0 -> Z.log2 (s - 2 ^ Z.log2 s) < Z.log2 s.
Proof.
  intros Hs Hn. destruct (Z.log2_spec s Hs) as [Hl Hu]. rewrite Z.pow_succ_r in Hu by apply Z.log2_nonneg.
  apply Z.log2_lt_pow2; lia.
Qed.

Lemma cover_measure_step bits V S c c' :
  let k := Z.min c (Z.log2 S) in
  is_align bits V c -> is_align bits (V + 2 ^ k) c' -> 0 < S < 2 ^ bits -> 2 ^ k < S ->
  0 <= cover_measure bits c' (S - 2 ^ k) < cover_measure bits c S.
Proof.
  intros k Hc Hc' HS Hk. pose proof Hc as ([Hc0 Hcb] & Hdiv & _).
  pose proof Hc' as ([Hc0' Hcb'] & _).
  assert (0 <= Z.log2 S < bits) as Hlog.
  { split; [apply Z.log2_nonneg|]. apply Z.log2_lt_pow2; lia. }
  assert (0 <= k) as Hk0 by lia.
  assert (0 <= Z.log2 (S - 2 ^ k) < bits) as Hlog'.
  { split; [apply Z.log2_nonneg|]. pose proof (Z.pow_pos_nonneg 2 k ltac:(lia) Hk0).
    apply Z.log2_lt_pow2; lia. }
  unfold cover_measure. destruct (Z.leb_spec c (Z.log2 S)) as [Hle|Hgt].
  - replace k with c in * by lia.
    assert (c + 1 <= c').
    { eapply is_align_ge; [done|lia|]. by apply (is_align_advance bits); [|lia]. }
    case_match; lia.
  - replace k with (Z.log2 S) in * by lia.
    assert (Z.log2 S <= c').
    { eapply is_align_ge; [done|lia|]. apply Z.divide_add_r; [|done].
      etrans; [|done]. apply divide_pow2. lia. }
    pose proof (log2_sub_pow S ltac:(lia) ltac:(lia)).
    destruct (Z.leb_spec c' (Z.log2 (S - 2 ^ Z.log2 S))); lia.
Qed.

Lemma cover_measure_bound first last :
  range_ok first last ->
  cover_measure (ipListParseBits first) (code_align first) (range_size first last)
    <= 2 * ipListParseBits first + 1.
Proof.
  intros Hok. pose proof (code_align_spec _ (ok_first _ _ Hok)) as ([? ?] & _).
  assert (Z.log2 (range_size first last) < ipListParseBits first).
  { destruct Hok. apply Z.log2_lt_pow2; unfold range_size; lia. }
  unfold cover_measure. case_match; lia.
Qed.

(** The loop, given enough fuel, tiles the range. *)
Lemma cover_loop_tiles fuel : forall first last,
  range_ok first last ->
  cover_measure (ipListParseBits first) (code_align first) (range_size first last)
    < Z.of_nat fuel ->
  exists blocks,
    ipListParseCoverLoop fuel first last = Some blocks /\
    tiles (v6 first) (val first) (val last) blocks /\
    Z.of_nat (length blocks) <=
      cover_measure (ipListParseBits first) (code_align first) (range_size first last).
Proof.
  induction fuel as [|fuel IH]; intros first last Hok Hfuel.
  { unfold cover_measure in Hfuel. pose proof (Z.log2_nonneg (range_size first last)).
    pose proof (code_align_spec _ (ok_first _ _ Hok)) as ([? ?] & _). case_match; lia. }
  pose proof Hok as [Hf Hl Hfam Hle Hsm].
  pose proof (code_align_spec _ Hf) as Hal. pose proof Hal as ([Ha0 Hab] & Hdiv & _).
  set (S := range_size first last) in *.
  assert (0 < S) as HS by (unfold S, range_size; lia).
  assert (S < 2 ^ ipListParseBits first) as HSb by done.
  assert (0 <= Z.log2 S < ipListParseBits first) as Hlog.
  { split; [apply Z.log2_nonneg|]. apply Z.log2_lt_pow2; lia. }
  cbn [ipListParseCoverLoop]. rewrite (block_bits_eq _ _ Hok). fold S.
  set (k := Z.min (code_align first) (Z.log2 S)).
  assert (2 ^ k | val first) as Hdk by (etrans; [|done]; apply divide_pow2; lia).
  assert (2 ^ k <= S) as HkS.
  { etrans; [|apply Z.log2_spec; done]. apply Z.pow_le_mono_r; lia. }
  pose proof (Z.pow_pos_nonneg 2 k ltac:(lia) ltac:(lia)) as Hkp.
  pose proof (val_range _ Hl) as Hlr.
  assert (ipListParseBits last = ipListParseBits first) as Hbl by (unfold ipListParseBits; by rewrite Hfam).
  rewrite Hbl in Hlr.
  destruct (block_end_spec first k Hf ltac:(lia) Hdk ltac:(unfold S, range_size in HkS; lia))
    as (Hew & Hef & Hev).
  set (e := ipListParseBlockEnd first k) in *.
  assert (block_size (first, ipListParseBits first - k) = 2 ^ k) as Hbs.
  { unfold block_size. cbn [fst snd]. f_equal. lia. }
  assert (forall rest, tiles (v6 first) (val first + 2 ^ k) (val last) rest ->
    tiles (v6 first) (val first) (val last) ((first, ipListParseBits first - k) :: rest)) as Hcons.
  { intros rest Hr. cbn [tiles]. rewrite Hbs. cbn [fst snd]. split_and!; try done; lia. }
  destruct ((hi e =? hi last) && (lo e =? lo last)) eqn:Eend.
  - apply same_address in Eend; [|done..]. eexists. split; [done|]. split.
    + apply Hcons. cbn [tiles]. lia.
    + cbn [length]. unfold cover_measure. case_match; bprop; lia.
  - assert (val e <> val last) as Hne.
    { intros E. apply same_address in E; [|done..]. congruence. }
    assert (2 ^ k < S) as Hlt by (unfold S, range_size in *; lia).
    destruct (next_spec e Hew) as (Hnw & Hnf & Hnv).
    { unfold ipListParseBits at 1. rewrite Hef. fold (ipListParseBits first).
      unfold S, range_size in *. lia. }
    set (n := ipListParseNext e) in *.
    assert (ipListParseBits n = ipListParseBits first) as Hbn.
    { unfold ipListParseBits. by rewrite Hnf, Hef. }
    assert (range_size n last = S - 2 ^ k) as HSn by (unfold S, range_size; lia).
    assert (range_ok n last) as Hokn.
    { split; [done..|congruence| |]; unfold S, range_size in *; rewrite ?Hbn; lia. }
    pose proof (cover_measure_step (ipListParseBits first) (val first) S (code_align first)
      (code_align n) Hal) as Hstep.
    replace (val first + 2 ^ Z.min (code_align first) (Z.log2 S)) with (val n) in Hstep by (fold k; lia).
    fold k in Hstep. rewrite <- Hbn in Hstep at 1.
    specialize (Hstep (code_align_spec _ Hnw) ltac:(lia) Hlt).
    destruct (IH n last Hokn) as (rest & Er & Ht & Hlen); [rewrite HSn, Hbn; lia|].
    rewrite Er. eexists. split; [done|]. split.
    + apply Hcons. rewrite <- Hef, <- Hnf. by replace (val first + 2 ^ k) with (val n) by lia.
    + rewrite HSn, Hbn in Hlen. cbn [length]. lia.
Qed.

(** ** The cover as a set of addresses *)

Lemma tiles_le f a b blocks : tiles f a b blocks -> a <= b + 1.
Proof.
  revert a. induction blocks as [|blk rest IH]; cbn [tiles]; intros a H; [lia|].
  destruct H as (_ & _ & _ & [_ Hp] & _ & Ht). apply IH in Ht. unfold block_size in Ht.
  pose proof (Z.pow_pos_nonneg 2 (ipListParseBits (fst blk) - snd blk)). lia.
Qed.

Lemma tiles_mem_bounds f a b blocks blk x :
  tiles f a b blocks -> blk ∈ blocks -> in_block x blk -> a <= x <= b.
Proof.
  revert a. induction blocks as [|h rest IH]; cbn [tiles]; intros a H Hin Hx; [by apply not_elem_of_nil in Hin|].
  destruct H as (_ & _ & Hv & [_ Hp] & _ & Ht). pose proof (tiles_le _ _ _ _ Ht) as Hle.
  pose proof (Z.pow_pos_nonneg 2 (ipListParseBits (fst h) - snd h) ltac:(lia) ltac:(lia)).
  unfold block_size in *. apply elem_of_cons in Hin as [->|Hin].
  - unfold in_block, block_size in Hx. lia.
  - specialize (IH _ Ht Hin Hx). lia.
Qed.

(** Every address of the interval lies in exactly one block. *)
Lemma tiles_cover f a b blocks x :
  tiles f a b blocks -> a <= x <= b -> exists! blk, blk ∈ blocks /\ in_block x blk.
Proof.
  revert a. induction blocks as [|h rest IH]; cbn [tiles]; intros a H Hx; [lia|].
  destruct H as (_ & _ & Hv & _ & _ & Ht).
  destruct (Z.lt_ge_cases x (a + block_size h)) as [Hlt|Hge].
  - exists h. split; [split; [by left|unfold in_block; lia]|].
    intros blk [Hin Hb]. apply elem_of_cons in Hin as [->|Hin]; [done|].
    pose proof (tiles_mem_bounds _ _ _ _ _ _ Ht Hin Hb). lia.
  - destruct (IH _ Ht ltac:(lia)) as (blk & [Hin Hb] & Hu). exists blk.
    split; [split; [by right|done]|].
    intros blk' [Hin' Hb']. apply elem_of_cons in Hin' as [->|Hin']; [|by apply Hu].
    unfold in_block in Hb'. lia.
Qed.

Definition whole_space (first last : IpListParseAddr) : Prop :=
  val last - val first + 1 = 2 ^ ipListParseBits first.

Lemma cover_blocks_none first last :
  wf_addr first -> wf_addr last -> v6 first = v6 last ->
  let topHi := if v6 first then 2 ^ 64 - 1 else 0 in
  let topLo := if v6 first then 2 ^ 64 - 1 else 0xffffffff in
  (hi first =? 0) && (lo first =? 0) && (hi last =? topHi) && (lo last =? topLo) = true <->
  whole_space first last.
Proof.
  intros [Hfh Hfl Hf4] [Hlh Hll Hl4] Hfam topHi topLo. unfold whole_space, val, ipListParseBits.
  rewrite !andb_true_iff, !Z.eqb_eq. subst topHi topLo. rewrite <- Hfam in Hl4.
  change (2 ^ 128) with (2 ^ 64 * 2 ^ 64).
  destruct (v6 first); [split; [intros [[[-> ->] ->] ->]; lia|nia]|].
  destruct (Hf4 eq_refl) as [-> ?], (Hl4 eq_refl) as [-> ?].
  split; [intros [[[? ->] ?] ->]; lia|lia].
Qed.

(** Each block begins where the one before it ends. *)
Lemma tiles_adjacent f a z blocks : tiles f a z blocks ->
  forall i b c, blocks !! i = Some b -> blocks !! S i = Some c -> val (fst c) = val (fst b) + block_size b.
Proof.
  revert a. induction blocks as [|x blocks IH]; intros a Ht i b c; [done|]. destruct Ht as (_ & _ & Hx & _ & _ & Ht).
  destruct i as [|i]; cbn; [|by eapply IH]. intros [= ->]. destruct blocks as [|y blocks]; [done|]. intros [= ->].
  destruct Ht as (_ & _ & Hy & _). by rewrite Hx, Hy.
Qed.

(** C39: The range cover is exact and the loop ends. For two addresses of one
    family in order, [ipListParseCoverRange] refuses exactly the whole address
    space; otherwise it produces at most [2 * bits + 1] networks, each a
    well-formed block aligned to its own size, each beginning where the one before
    it ends, and every address lies in one of them, and in only one, precisely when
    it is in the range. *)
Theorem cover_range_exact (first last : IpListParseAddr)
    (Hf : wf_addr first) (Hl : wf_addr last)
    (Hfam : v6 first = v6 last) (Hle : val first <= val last) :
  (whole_space first last -> ipListParseCoverRange first last = None) /\
  (~ whole_space first last ->
   exists blocks,
     ipListParseCoverRange first last
       = Some (map (fun b => ipListParseCidr (fst b) (snd b)) blocks) /\
     Z.of_nat (length blocks) <= 2 * ipListParseBits first + 1 /\
     Forall (fun b => wf_addr (fst b) /\ v6 (fst b) = v6 first /\
                      0 < snd b <= ipListParseBits first /\ (block_size b | val (fst b))) blocks /\
     (forall i b c, blocks !! i = Some b -> blocks !! S i = Some c -> val (fst c) = val (fst b) + block_size b) /\
     (forall x, val first <= x <= val last -> exists! b, b ∈ blocks /\ in_block x b) /\
     (forall x b, b ∈ blocks -> in_block x b -> val first <= x <= val last)).
Proof.
  pose proof (cover_blocks_none _ _ Hf Hl Hfam) as Hguard. cbv zeta in Hguard.
  unfold ipListParseCoverRange, ipListParseCoverBlocks. split; intros Hw.
  { apply Hguard in Hw. by rewrite Hw. }
  destruct (_ && _) eqn:E; [by destruct Hw; apply Hguard|]. clear E Hguard.
  pose proof (val_range _ Hf) as Hfr. pose proof (val_range _ Hl) as Hlr.
  assert (range_ok first last) as Hok.
  { split; [done..|]. unfold whole_space, ipListParseBits in *. rewrite <- Hfam in Hlr. lia. }
  pose proof (cover_measure_bound _ _ Hok) as Hm.
  destruct (cover_loop_tiles 258 first last Hok) as (blocks & Eb & Ht & Hlen).
  { destruct (bits_cases first); lia. }
  rewrite Eb. exists blocks. split; [done|]. split; [lia|].
  split; [|split; [exact (tiles_adjacent _ _ _ _ Ht)|split; [intros x Hx; by apply (tiles_cover _ _ _ _ _ Ht)
                  |intros x b Hb Hx; by apply (tiles_mem_bounds _ _ _ _ _ _ Ht Hb Hx)]]].
  clear Eb Hlen Hm Hok Hw Hfr. revert Ht. generalize (val first).
  induction blocks as [|b rest IH]; cbn [tiles]; intros a Ht; constructor.
  - destruct Ht as (H1 & H2 & H3 & H4 & H5 & _). unfold ipListParseBits in *.
    rewrite H2 in H4. rewrite H3. done.
  - apply (IH (a + block_size b)). by destruct Ht as (_ & _ & _ & _ & _ & ?).
Qed.

Definition example_first : IpListParseAddr := Addr false 0 0x01020304.
Definition example_last : IpListParseAddr := Addr false 0 0x01020309.

Lemma cover_range_exact_witness :
  exists blocks,
    ipListParseCoverRange example_first example_last
      = Some (map (fun b => ipListParseCidr (fst b) (snd b)) blocks) /\
    Z.of_nat (length blocks) <= 2 * 32 + 1.
Proof.
  destruct (cover_range_exact example_first example_last) as [_ H].
  - split; cbn; lia.
  - split; cbn; lia.
  - reflexivity.
  - vm_compute. discriminate.
  - destruct H as (blocks & E & Hlen & _); [vm_compute; discriminate|].
    exists blocks. split; [exact E|exact Hlen].
Defined.
