(* ===== verification/IpAddressText.v ===== *)
(** * Round trips of addresses and networks through their text

    [ipListParseFormat] and [ipListParseCidr] print what [ipListParseV4],
    [ipListParseV6] and [ipListParseNetwork] read; the printed text is
    canonical. *)

From Stdlib Require Import Ascii String.
From S2P Require Import Prelude QtText IpListParse IpCover.

Local Open Scope Z_scope.
Local Open Scope throne_scope.

(** ** Octets *)

Definition octet_ok (s : qstring) (n : Z) : Prop :=
  ipListParseDecimal s 3 = Some n /\ (255 <? n) = false /\
  ((1 <? qsize s) && startsWithC (ch "0") s = false).

Lemma octet_print n : 0 <= n < 256 -> octet_ok (unumber 10 n) n.
Proof.
  intros Hn.
  pose (p := fun n => bool_decide (ipListParseDecimal (unumber 10 n) 3 = Some n) && negb (255 <? n) &&
    negb ((1 <? qsize (unumber 10 n)) && startsWithC (ch "0") (unumber 10 n))).
  assert (p n = true) as H.
  { apply (below_forall p 256); [vm_compute; reflexivity|lia]. }
  unfold p in H. unfold octet_ok. bprop. destruct H as [[? ?] ?]. done.
Qed.

(** Digit strings of at most three characters, by their digits. *)
Definition digit3 (f : qstring -> bool) : bool :=
  forallb (fun a => f [a] && forallb (fun b => f [a; b] && forallb (fun c => f [a; b; c])
    (map (Z.add 48) (map Z.of_nat (seq 0 10)))) (map (Z.add 48) (map Z.of_nat (seq 0 10))))
    (map (Z.add 48) (map Z.of_nat (seq 0 10))).

Lemma digit_in c : 48 <= c <= 57 -> In c (map (Z.add 48) (map Z.of_nat (seq 0 10))).
Proof.
  intros H. apply in_map_iff. exists (c - 48). split; [lia|].
  apply in_map_iff. exists (Z.to_nat (c - 48)). split; [lia|]. apply in_seq. lia.
Qed.

Lemma digit3_spec f s :
  digit3 f = true -> s <> [] -> (length s <= 3)%nat -> Forall (fun c => 48 <= c <= 57) s -> f s = true.
Proof.
  unfold digit3. intros H Hne Hlen Hd. rewrite forallb_forall in H.
  destruct s as [|a s]; [done|]. apply Forall_cons in Hd as [Ha Hd].
  specialize (H a (digit_in a Ha)). apply andb_true_iff in H as [H1 H].
  destruct s as [|b s]; [done|]. apply Forall_cons in Hd as [Hb Hd]. rewrite forallb_forall in H.
  specialize (H b (digit_in b Hb)). apply andb_true_iff in H as [H2 H].
  destruct s as [|c s]; [done|]. apply Forall_cons in Hd as [Hc Hd]. rewrite forallb_forall in H.
  specialize (H c (digit_in c Hc)).
  destruct s; [done|]. cbn in Hlen. lia.
Qed.

Lemma decimal_loop_digits s v n : ipListParseDecimalLoop s v = Some n -> Forall (fun c => 48 <= c <= 57) s.
Proof.
  revert v. induction s as [|c s IH]; cbn [ipListParseDecimalLoop]; intros v H; [constructor|].
  destruct ((c <? ch "0") || (ch "9" <? c)) eqn:E; [done|]. apply IH in H.
  constructor; [|done]. change (ch "0") with 48 in E. change (ch "9") with 57 in E. bprop. lia.
Qed.

Lemma decimal_some s m n :
  ipListParseDecimal s m = Some n -> s <> [] /\ qsize s <= m /\ Forall (fun c => 48 <= c <= 57) s.
Proof.
  unfold ipListParseDecimal. destruct (isEmpty s || (m <? qsize s)) eqn:E; [done|].
  intros H. apply decimal_loop_digits in H. bprop. destruct s; [by destruct E|]. split_and!; [done|lia|done].
Qed.

(** The octet texts the parser accepts are exactly the printed ones. *)
Lemma octet_unique s n : octet_ok s n -> 0 <= n < 256 /\ s = unumber 10 n.
Proof.
  intros (Hd & Hn & Hz). destruct (decimal_some _ _ _ Hd) as (Hne & Hlen & Hdig).
  pose (f := fun s => match ipListParseDecimal s 3 with
                      | None => false
                      | Some n => (255 <? n) || ((1 <? qsize s) && startsWithC (ch "0") s) ||
                                  ((0 <=? n) && bool_decide (s = unumber 10 n))
                      end).
  assert (f s = true) as H.
  { apply digit3_spec; [vm_compute; reflexivity|done|unfold qsize in Hlen; lia|done]. }
  unfold f in H. rewrite Hd, Hn, Hz in H. cbn [orb] in H. bprop. lia || (split; [lia|tauto]).
Qed.

(** ** IPv4 *)

Definition v4_text (a b c d : Z) : qstring :=
  unumber 10 a ++ [ch "."] ++ unumber 10 b ++ [ch "."] ++ unumber 10 c ++ [ch "."] ++ unumber 10 d.

Definition v4_of (a b c d : Z) : Z := ((a * 2 ^ 8 + b) * 2 ^ 8 + c) * 2 ^ 8 + d.

Lemma digits_free c s : Forall (fun c => 48 <= c <= 57) s -> ~ 48 <= c <= 57 -> free c s.
Proof. intros H Hc. eapply Forall_impl; [done|]. cbn. intros d Hd ->. done. Qed.

Lemma v4_loop_step part rest n v k :
  octet_ok part n -> k < 4 -> 0 <= v < 2 ^ 24 -> 0 <= n < 256 ->
  ipListParseV4Loop (part :: rest) v k = ipListParseV4Loop rest (v * 2 ^ 8 + n) (k + 1).
Proof.
  intros (Hd & Hn & Hz) Hk Hv Hn'. cbn [ipListParseV4Loop]. rewrite Hd, Hn, Hz.
  destruct (Z.ltb_spec 4 (k + 1)); [lia|]. rewrite lor_shiftl_add by lia.
  rewrite u32_small by lia. done.
Qed.

Lemma v4_parts_print a b c d :
  0 <= a < 256 -> 0 <= b < 256 -> 0 <= c < 256 -> 0 <= d < 256 ->
  ipListParseV4 (v4_text a b c d) = Some (v4_of a b c d).
Proof.
  intros Ha Hb Hc Hd. unfold ipListParseV4, v4_text. cbn [app].
  assert (forall n, free (ch ".") (unumber 10 n)) as Hf.
  { intros n. apply digits_free; [apply unumber10_chars|]. vm_compute. intros [H _]. by destruct H. }
  rewrite !split_app, split_free by apply Hf.
  rewrite (v4_loop_step _ _ a) by (first [by apply octet_print|lia]).
  rewrite (v4_loop_step _ _ b) by (first [by apply octet_print|lia]).
  rewrite (v4_loop_step _ _ c) by (first [by apply octet_print|lia]).
  rewrite (v4_loop_step _ _ d) by (first [by apply octet_print|lia]).
  cbn [ipListParseV4Loop]. change (0 + 1 + 1 + 1 + 1 =? 4) with true. done.
Qed.

Lemma v4_loop_inv part rest v k r :
  ipListParseV4Loop (part :: rest) v k = Some r ->
  exists n, octet_ok part n /\ k + 1 <= 4 /\
    ipListParseV4Loop rest (u32 ((v <<< 8) .| n)) (k + 1) = Some r.
Proof.
  cbn [ipListParseV4Loop]. destruct (ipListParseDecimal part 3) as [n|] eqn:E; [|done].
  destruct (255 <? n) eqn:E1; [done|]. destruct (_ && _) eqn:E2; [done|].
  destruct (Z.ltb_spec 4 (k + 1)); [done|]. intros H'. exists n. split_and!; [done..|lia|done].
Qed.

Lemma v4_loop_parts ps : forall v k w m,
  ipListParseV4Loop ps v k = Some (w, m) -> m = k + Z.of_nat (length ps).
Proof.
  induction ps as [|p ps IH]; intros v k w m H.
  - cbn in H. injection H. intros. cbn [length]. lia.
  - apply v4_loop_inv in H as (n & _ & _ & H). apply IH in H. cbn [length]. lia.
Qed.

Lemma v4_parse_inv s v :
  ipListParseV4 s = Some v ->
  exists a b c d, 0 <= a < 256 /\ 0 <= b < 256 /\ 0 <= c < 256 /\ 0 <= d < 256 /\
    s = v4_text a b c d /\ v = v4_of a b c d.
Proof.
  intros Hp. pose proof Hp as H0. unfold ipListParseV4 in H0.
  destruct (ipListParseV4Loop _ 0 0) as [[w m]|] eqn:E; [|done].
  destruct (Z.eqb_spec m 4) as [->|]; [|done]. clear H0.
  pose proof (v4_loop_parts _ _ _ _ _ E) as Hlen.
  pose proof (join_split (ch ".") s) as Hj.
  destruct (split (ch ".") s) as [|p1 [|p2 [|p3 [|p4 [|? ?]]]]]; cbn [length] in Hlen; try lia.
  apply v4_loop_inv in E as (a & Ha & _ & E). apply v4_loop_inv in E as (b & Hb & _ & E).
  apply v4_loop_inv in E as (c & Hc & _ & E). apply v4_loop_inv in E as (d & Hd & _ & E).
  apply octet_unique in Ha as [Ha ->], Hb as [Hb ->], Hc as [Hc ->], Hd as [Hd ->].
  exists a, b, c, d. split_and!; try lia.
  - rewrite <- Hj. done.
  - rewrite <- Hj in Hp. change (join [ch "."] _) with (v4_text a b c d) in Hp.
    rewrite v4_parts_print in Hp by done. congruence.
Qed.

Lemma v4_octets v :
  0 <= v < 2 ^ 32 ->
  let o i := (v >>> i) .& 0xff in
  v >>> 24 = v / 2 ^ 24 /\ o 16 = (v / 2 ^ 16) mod 256 /\ o 8 = (v / 2 ^ 8) mod 256 /\ v .& 0xff = v mod 256.
Proof.
  intros Hv o. unfold o. change 0xff with (Z.ones 8).
  rewrite !Z.land_ones, !Z.shiftr_div_pow2 by lia. done.
Qed.

Lemma format_v4 v :
  0 <= v < 2 ^ 32 ->
  ipListParseFormat (Addr false 0 v) =
    v4_text (v / 2 ^ 24) ((v / 2 ^ 16) mod 256) ((v / 2 ^ 8) mod 256) (v mod 256).
Proof.
  intros Hv. destruct (v4_octets v Hv) as (E1 & E2 & E3 & E4).
  unfold ipListParseFormat. cbn [v6 lo negb]. rewrite u32_small by done. cbv zeta.
  by rewrite E1, E2, E3, E4.
Qed.

Lemma v4_of_octets v :
  0 <= v < 2 ^ 32 ->
  v4_of (v / 2 ^ 24) ((v / 2 ^ 16) mod 256) ((v / 2 ^ 8) mod 256) (v mod 256) = v.
Proof. intros Hv. unfold v4_of. change 256 with (2 ^ 8). Z.to_euclidean_division_equations. lia. Qed.

Lemma octets_v4_of a b c d :
  0 <= a < 256 -> 0 <= b < 256 -> 0 <= c < 256 -> 0 <= d < 256 ->
  let v := v4_of a b c d in
  0 <= v < 2 ^ 32 /\ v / 2 ^ 24 = a /\ (v / 2 ^ 16) mod 256 = b /\ (v / 2 ^ 8) mod 256 = c /\ v mod 256 = d.
Proof.
  intros Ha Hb Hc Hd v. unfold v, v4_of. change 256 with (2 ^ 8) in *.
  split_and!; Z.to_euclidean_division_equations; lia.
Qed.

(** The IPv4 parser and the printer are inverse to each other: the texts
    [ipListParseV4] accepts are exactly the dotted quads the printer writes,
    one for each 32-bit value. Short, integer and zero-padded forms have no
    reading. *)
Theorem v4_text_bijection (s : qstring) (v : Z) :
  ipListParseV4 s = Some v <-> 0 <= v < 2 ^ 32 /\ s = ipListParseFormat (Addr false 0 v).
Proof.
  split.
  - intros H. apply v4_parse_inv in H as (a & b & c & d & Ha & Hb & Hc & Hd & -> & ->).
    destruct (octets_v4_of a b c d Ha Hb Hc Hd) as (Hr & E1 & E2 & E3 & E4).
    split; [done|]. rewrite format_v4 by done. by rewrite E1, E2, E3, E4.
  - intros [Hv ->]. rewrite format_v4 by done.
    rewrite v4_parts_print, v4_of_octets; [done..| | | |]; Z.to_euclidean_division_equations; lia.
Qed.

(** ** Hexadecimal groups *)

Lemma hex_digit_print d : 0 <= d < 16 -> ipListParseHexDigit (digitChar d) = d.
Proof.
  intros Hd. apply Z.eqb_eq.
  apply (below_forall (fun d => ipListParseHexDigit (digitChar d) =? d) 16); [reflexivity|lia].
Qed.

Lemma hex_group_digit d acc v :
  0 <= d < 16 -> 0 <= v -> v * 16 + d < 2 ^ 16 ->
  ipListParseHexGroup (digitChar d :: acc) v = ipListParseHexGroup acc (v * 16 + d).
Proof.
  intros Hd Hv Hlt. cbn [ipListParseHexGroup]. rewrite hex_digit_print by done.
  destruct (Z.ltb_spec d 0); [lia|]. rewrite lor_shiftl_add, u16_small by lia. done.
Qed.

Lemma hex_number_parse fuel : forall n acc,
  0 <= n < 2 ^ 16 -> n < 2 ^ Z.of_nat fuel -> (0 < fuel)%nat ->
  ipListParseHexGroup (numberLoop fuel 16 n acc) 0 = ipListParseHexGroup acc n.
Proof.
  induction fuel as [|fuel IH]; intros n acc Hn Hf H0; [lia|]. cbn [numberLoop].
  pose proof (Z.div_mod n 16 ltac:(lia)) as E. pose proof (Z.mod_pos_bound n 16 ltac:(lia)).
  destruct (Z.eqb_spec (n / 16) 0) as [Ez|Ez].
  - rewrite hex_group_digit by lia. f_equal. lia.
  - assert (fuel <> O). { intros ->. cbn in Hf. Z.to_euclidean_division_equations; lia. }
    rewrite Nat2Z.inj_succ, Z.pow_succ_r in Hf by lia.
    rewrite IH by (lia || Z.to_euclidean_division_equations; lia).
    rewrite hex_group_digit by (lia || Z.to_euclidean_division_equations; lia). f_equal. lia.
Qed.

Lemma hex_print g :
  0 <= g < 65536 ->
  ipListParseHexGroup (unumber 16 g) 0 = Some g /\ (length (unumber 16 g) <= 4)%nat.
Proof.
  intros Hg. unfold unumber. split.
  - rewrite hex_number_parse; [done|lia|apply log2_fuel; lia|lia].
  - apply (number_loop_length 16 3 _ _ []); [lia|]. change (16 ^ Z.of_nat 4) with 65536. lia.
Qed.

Lemma hex_free c g : ~ hexChar c -> free c (unumber 16 g).
Proof.
  intros Hc. eapply Forall_impl; [apply unumber_chars; lia|]. cbn. intros d Hd ->. done.
Qed.

Ltac not_hex := vm_compute; intros [[? ?]|[? ?]]; congruence.

Definition groups_ok (gs : list Z) : Prop := Forall (fun g => 0 <= g < 65536) gs.
Definition hexes (gs : list Z) : list qstring := map (unumber 16) gs.
Definition colons (gs : list Z) : qstring := join [ch ":"] (hexes gs).

Lemma hexes_free c gs : ~ hexChar c -> Forall (free c) (hexes gs).
Proof. intros Hc. apply Forall_map, Forall_true. intros g. by apply hex_free. Qed.

Lemma colons_free c gs : ~ hexChar c -> c <> ch ":" -> free c (colons gs).
Proof.
  intros Hc Hn. apply join_Forall; [constructor; [congruence|constructor]|]. by apply hexes_free.
Qed.

Lemma part_loop_groups tl gs : forall acc,
  groups_ok gs -> (length acc + length gs <= 8)%nat ->
  ipListParseV6PartLoop tl (hexes gs) acc = Some (acc ++ gs).
Proof.
  induction gs as [|g gs IH]; intros acc Hg Hlen; cbn [hexes map ipListParseV6PartLoop].
  - by rewrite app_nil_r.
  - apply Forall_cons in Hg as [Hg Hgs]. cbn [length] in Hlen.
    assert (contains (ch ".") (unumber 16 g) = false) as ->.
    { apply free_contains, hex_free. not_hex. }
    rewrite !andb_false_r. destruct (hex_print g Hg) as [-> Hl].
    assert (isEmpty (unumber 16 g) = false) as ->.
    { pose proof (unumber_nonempty 16 g). by destruct (unumber 16 g). }
    unfold qsize. destruct (Z.ltb_spec 4 (Z.of_nat (length (unumber 16 g)))); [lia|].
    destruct (Z.leb_spec 8 (Z.of_nat (length acc))); [lia|]. cbn [orb].
    fold (hexes gs). rewrite IH, <- app_assoc by (done || rewrite length_app; cbn; lia). done.
Qed.

Lemma part_groups tl gs :
  groups_ok gs -> (length gs <= 8)%nat -> ipListParseV6Part (colons gs) tl = Some gs.
Proof.
  intros Hg Hlen. unfold ipListParseV6Part. destruct gs as [|g gs]; [done|].
  assert (isEmpty (colons (g :: gs)) = false) as ->.
  { unfold colons, hexes. cbn [map]. pose proof (unumber_nonempty 16 g).
    destruct gs; [|cbn [map]; rewrite join_cons by done]; by destruct (unumber 16 g). }
  unfold colons. rewrite split_join; [|done|apply hexes_free; not_hex].
  by rewrite part_loop_groups by (done || cbn in *; lia).
Qed.

(** A join of groups holds no double colon. *)
Lemma indexOfStr_one_colon d t :
  d <> 58 -> indexOfStr (qs "::") (58 :: d :: t) = S <$> indexOfStr (qs "::") (d :: t).
Proof.
  intros Hd. change (qs "::") with [58; 58].
  transitivity (if (58 =? 58) && ((58 =? d) && true) then Some O
                else S <$> indexOfStr [58; 58] (d :: t)); [done|].
  destruct (Z.eqb_spec 58 d); [lia|done].
Qed.

Lemma hex_head g : exists d w, unumber 16 g = d :: w /\ d <> 58.
Proof.
  pose proof (unumber_nonempty 16 g) as Hn. pose proof (unumber_chars 16 g ltac:(lia)) as Hc.
  destruct (unumber 16 g) as [|d w]; [done|]. exists d, w. split; [done|].
  apply Forall_cons in Hc as [[|] _]; lia.
Qed.

Lemma colons_cons2 g g' gs : colons (g :: g' :: gs) = unumber 16 g ++ [58] ++ colons (g' :: gs).
Proof. done. Qed.

Lemma colons_head g gs : exists d t, colons (g :: gs) = d :: t /\ d <> 58.
Proof.
  destruct (hex_head g) as (d & w & E & Hd). destruct gs as [|g' gs].
  - by exists d, w.
  - rewrite colons_cons2, E. by eexists d, _.
Qed.

Lemma indexOf_gap gs rest :
  indexOfStr (qs "::") (colons gs ++ rest) =
    (fun n => (length (colons gs) + n)%nat) <$> indexOfStr (qs "::") rest.
Proof.
  assert (forall g t, indexOfStr (qs "::") (unumber 16 g ++ t) =
    (fun n => (length (unumber 16 g) + n)%nat) <$> indexOfStr (qs "::") t) as Hword.
  { intros g t. apply indexOfStr_skip, hex_free. not_hex. }
  induction gs as [|g gs IH]; [change (colons [] ++ rest) with rest; by destruct (indexOfStr (qs "::") rest)|].
  destruct gs as [|g' gs]; [apply Hword|].
  rewrite colons_cons2, <- !app_assoc, Hword, !length_app.
  destruct (colons_head g' gs) as (d & t & E & Hd). rewrite E in *. cbn [app] in *.
  rewrite indexOfStr_one_colon, IH by done.
  destruct (indexOfStr (qs "::") rest); cbn; [|done]. f_equal. lia.
Qed.

Lemma colons_no_gap gs : indexOfStr (qs "::") (colons gs) = None.
Proof. rewrite <- (app_nil_r (colons gs)), indexOf_gap. done. Qed.

(** ** The longest run of zero groups *)

(** [best] names no run, or a run of [n] zero groups from [s]. *)
Definition zeros_at (gs : list Z) (s n : nat) : Prop :=
  (s + n <= length gs)%nat /\ take n (drop s gs) = replicate n 0.

Lemma zeroRun_spec gs :
  (zeroRun gs <= length gs)%nat /\ take (zeroRun gs) gs = replicate (zeroRun gs) 0.
Proof.
  unfold zeroRun. induction gs as [|g gs [IHl IHz]]; cbn; [done|].
  destruct (Z.eqb_spec g 0) as [->|]; cbn; [|split; [lia|done]]. rewrite IHz. split; [lia|done].
Qed.

Definition best_ok (gs : list Z) (best : option nat * nat) : Prop :=
  match fst best with
  | None => snd best = 1%nat
  | Some s => (2 <= snd best)%nat /\ zeros_at gs s (snd best)
  end.

Lemma best_run_ok all fuel : forall i best,
  (i <= length all)%nat -> best_ok all best ->
  best_ok all (ipListParseBestRun fuel (drop i all) i best).
Proof.
  induction fuel as [|fuel IH]; intros i best Hi Hb; cbn [ipListParseBestRun]; [done|].
  destruct (drop i all) as [|g gs] eqn:E; [done|].
  assert (i < length all)%nat as Hlt.
  { assert (length (drop i all) = S (length gs)) as Hl by by rewrite E. rewrite length_drop in Hl. lia. }
  assert (gs = drop (S i) all) as ->.
  { change gs with (drop 1 (g :: gs)). rewrite <- E, drop_drop. f_equal. lia. }
  destruct (negb (g =? 0)) eqn:Eg; [apply IH; [lia|done]|].
  rewrite <- E. destruct (zeroRun_spec (drop i all)) as [Hl Hz]. rewrite length_drop in Hl.
  rewrite drop_drop. apply IH; [lia|].
  destruct (snd best <? zeroRun (drop i all))%nat eqn:Ec; [|done].
  bprop. unfold best_ok. cbn [fst snd]. split; [|split; [lia|done]].
  destruct best as [[s|] n]; cbn in *; unfold best_ok in Hb; cbn in Hb; lia.
Qed.

(** The scan sees only which groups are zero. *)
Definition zero_pattern (gs : list Z) : list Z := map (fun g => if g =? 0 then 0 else 1) gs.

Lemma best_run_pattern fuel : forall gs i best,
  ipListParseBestRun fuel gs i best = ipListParseBestRun fuel (zero_pattern gs) i best.
Proof.
  assert (forall gs, zeroRun (zero_pattern gs) = zeroRun gs) as Hrun.
  { unfold zeroRun, zero_pattern. induction gs as [|g gs IH]; cbn; [done|].
    destruct (g =? 0); cbn; [by rewrite IH|done]. }
  induction fuel as [|fuel IH]; intros gs i best; cbn [ipListParseBestRun]; [done|].
  destruct gs as [|g gs]; cbn [zero_pattern map]; [done|].
  change ((if g =? 0 then 0 else 1) :: map _ gs) with (zero_pattern (g :: gs)).
  rewrite Hrun. destruct (Z.eqb_spec g 0) as [->|Hg]; cbn [negb Z.eqb].
  - rewrite IH. unfold zero_pattern. by rewrite fmap_drop.
  - apply IH.
Qed.

Fixpoint patterns (n : nat) : list (list Z) :=
  match n with
  | O => [[]]
  | S n' => map (cons 0) (patterns n') ++ map (cons 1) (patterns n')
  end.

Lemma patterns_all gs : In (zero_pattern gs) (patterns (length gs)).
Proof.
  induction gs as [|g gs IH]; cbn; [by left|]. apply in_app_iff.
  destruct (g =? 0); [left|right]; by apply in_map.
Qed.

Definition all_zero (gs : list Z) : bool := forallb (fun g => g =? 0) gs.

(** Among all runs of two or more zero groups, the chosen one is the longest,
    and the first of that length. *)
Definition best_is_first_longest (gs : list Z) (best : option nat * nat) : bool :=
  forallb (fun i => forallb (fun n =>
    if (2 <=? n)%nat && (i + n <=? length gs)%nat && all_zero (take n (drop i gs)) then
      match fst best with
      | None => false
      | Some s => (n <? snd best)%nat || ((n =? snd best)%nat && (s <=? i)%nat)
      end
    else true) (seq 0 9)) (seq 0 9).

Lemma patterns_longest :
  forallb (fun gs => best_is_first_longest gs (ipListParseBestRun 8 gs 0 (None, 1%nat)))
    (patterns 8) = true.
Proof. vm_compute. reflexivity. Qed.

Lemma all_zero_pattern gs : all_zero (zero_pattern gs) = all_zero gs.
Proof.
  unfold all_zero, zero_pattern. induction gs as [|g gs IH]; cbn; [done|].
  rewrite IH. by destruct (g =? 0).
Qed.

(** The run of zero groups that the printer compresses is RFC 5952's: it is
    a run of at least two zero groups inside the address, no other run is
    longer, and among the runs of that length it is the first; with no run of
    two zero groups nothing is compressed. *)
Theorem best_run_rfc5952 (addr : IpListParseAddr) :
  let gs := ipListParseGroups addr in
  let best := ipListParseBestRun 8 gs 0 (None, 1%nat) in
  best_ok gs best /\
  (forall i n, (2 <= n)%nat -> zeros_at gs i n ->
     exists s, fst best = Some s /\ ((n < snd best)%nat \/ n = snd best /\ (s <= i)%nat)).
Proof.
  intros gs best. assert (length gs = 8%nat) as Hlen by done. split.
  - unfold best. rewrite <- (drop_0 gs) at 2. apply best_run_ok; [lia|done].
  - intros i n Hn [Hin Hz]. pose proof patterns_longest as H. rewrite forallb_forall in H.
    pose proof (patterns_all gs) as Hp. rewrite Hlen in Hp. specialize (H _ Hp).
    rewrite <- best_run_pattern in H. fold best in H.
    unfold best_is_first_longest in H. rewrite forallb_forall in H.
    specialize (H i ltac:(apply in_seq; lia)). rewrite forallb_forall in H.
    specialize (H n ltac:(apply in_seq; lia)).
    assert (length (zero_pattern gs) = 8%nat) as Hlz by (unfold zero_pattern; by rewrite length_map).
    rewrite Hlz in H.
    assert (all_zero (take n (drop i (zero_pattern gs))) = true) as Ha.
    { replace (take n (drop i (zero_pattern gs))) with (zero_pattern (take n (drop i gs)))
        by (unfold zero_pattern; by rewrite skipn_map, firstn_map).
      rewrite all_zero_pattern, Hz. unfold all_zero. apply forallb_forall.
      intros g Hg. apply Z.eqb_eq. apply list_elem_of_In, elem_of_replicate in Hg. tauto. }
    rewrite Ha in H. rewrite Hlen in Hin.
    rewrite (proj2 (Nat.leb_le 2 n)), (proj2 (Nat.leb_le (i + n) 8)) in H by lia.
    cbn [andb] in H. destruct (fst best) as [s|]; [|done]. exists s. split; [done|].
    bprop. destruct H as [H|[H1 H2]]; [left|right]; bprop; lia.
Qed.

(** ** The printed IPv6 text *)

(** What the printing loop appends for groups outside the run. *)
Definition glue (out : qstring) (gs : list Z) : qstring :=
  if isEmpty gs then out
  else (if negb (isEmpty out) && negb (endsWithC (ch ":") out) then out ++ [ch ":"] else out) ++ colons gs.

Lemma hex_not_colon_end out g : endsWithC (ch ":") (out ++ unumber 16 g) = false.
Proof.
  unfold endsWithC. rewrite rev_app_distr.
  pose proof (Forall_rev (unumber_chars 16 g ltac:(lia))) as Hc.
  pose proof (unumber_nonempty 16 g) as Hn.
  destruct (rev (unumber 16 g)) as [|d w] eqn:E.
  { apply (f_equal (@rev Z)) in E. by rewrite rev_involutive in E. }
  cbn. apply Z.eqb_neq. apply Forall_cons in Hc as [[|] _]; change (ch ":") with 58; lia.
Qed.

Lemma hex_not_empty out g : isEmpty (out ++ unumber 16 g) = false.
Proof. pose proof (unumber_nonempty 16 g). by destruct out, (unumber 16 g). Qed.

Lemma glue_cons out g gs :
  glue ((if negb (isEmpty out) && negb (endsWithC (ch ":") out) then out ++ [ch ":"] else out)
          ++ unumber 16 g) gs = glue out (g :: gs).
Proof.
  unfold glue. rewrite hex_not_empty, hex_not_colon_end. cbn [negb andb isEmpty].
  destruct gs as [|g' gs]; cbn [isEmpty]; [done|]. rewrite colons_cons2, <- !app_assoc. done.
Qed.

Lemma format_loop_after gs : forall fuel i best out,
  (length gs <= fuel)%nat -> (forall s, fst best = Some s -> (s < i)%nat) ->
  ipListParseFormatLoop fuel gs i best out = glue out gs.
Proof.
  induction gs as [|g gs IH]; intros fuel i best out Hf Hs.
  - by destruct fuel.
  - destruct fuel as [|fuel]; cbn [length] in Hf; [lia|]. cbn [ipListParseFormatLoop].
    rewrite bool_decide_eq_false_2 by (intros E; apply Hs in E; lia).
    rewrite IH; [apply glue_cons|lia|]. intros s E. apply Hs in E. lia.
Qed.

Lemma format_loop_run d : forall fuel gs i s n out,
  s = (i + d)%nat -> (2 <= n)%nat -> (d + n <= length gs)%nat -> (length gs <= fuel)%nat ->
  ipListParseFormatLoop fuel gs i (Some s, n) out =
    glue (glue out (take d gs) ++ qs "::") (drop (d + n) gs).
Proof.
  induction d as [|d IH]; intros fuel gs i s n out Hs Hn Hl Hf.
  - destruct fuel as [|fuel]; [lia|]. destruct gs as [|g gs]; [cbn in Hl; lia|].
    cbn [ipListParseFormatLoop fst snd]. rewrite bool_decide_eq_true_2 by (f_equal; lia).
    rewrite format_loop_after; [done| |].
    + rewrite length_drop. cbn [length] in *. lia.
    + cbn. intros s' [= <-]. lia.
  - destruct fuel as [|fuel]; [lia|]. destruct gs as [|g gs]; [cbn in Hl; lia|].
    cbn [ipListParseFormatLoop fst snd]. rewrite bool_decide_eq_false_2 by (intros [=]; lia).
    cbn [length] in *. rewrite IH by lia. rewrite glue_cons. done.
Qed.

Lemma format_v6 h l :
  let a := Addr true h l in
  let gs := ipListParseGroups a in
  match ipListParseBestRun 8 gs 0 (None, 1%nat) with
  | (None, _) => ipListParseFormat a = colons gs
  | (Some s, n) => ipListParseFormat a = colons (take s gs) ++ qs "::" ++ colons (drop (s + n) gs)
  end.
Proof.
  intros a gs. unfold ipListParseFormat. cbn [v6 negb a]. fold a gs.
  destruct (best_run_rfc5952 a) as [Hb _]. cbv zeta in Hb. fold gs in Hb.
  destruct (ipListParseBestRun 8 gs 0 (None, 1%nat)) as [[s|] n] eqn:E.
  - destruct Hb as [Hn [Hs _]]. cbn in Hn, Hs.
    rewrite (format_loop_run s) by (done || cbn; lia).
    assert (glue [] (take s gs) = colons (take s gs)) as ->.
    { unfold glue. destruct (take s gs); done. }
    unfold glue. destruct (drop (s + n) gs) as [|g gs']; cbn [isEmpty]; [by rewrite app_nil_r|].
    assert (endsWithC (ch ":") (colons (take s gs) ++ qs "::") = true) as ->.
    { unfold endsWithC. by rewrite rev_app_distr. }
    rewrite andb_false_r, <- app_assoc. done.
  - rewrite format_loop_after; [done|done|done].
Qed.

(** ** Halves and groups *)

Lemma half4 g0 g1 g2 g3 :
  groups_ok [g0; g1; g2; g3] ->
  ipListParseHalf [g0; g1; g2; g3] = ((g0 * 2 ^ 16 + g1) * 2 ^ 16 + g2) * 2 ^ 16 + g3.
Proof.
  intros H. unfold groups_ok in H. rewrite !Forall_cons in H. destruct H as (H0 & H1 & H2 & H3 & _).
  unfold ipListParseHalf. cbn [fold_left].
  rewrite !lor_shiftl_add by lia. rewrite (u64_small (0 * 2 ^ 16 + g0)) by lia.
  rewrite (u64_small ((0 * 2 ^ 16 + g0) * 2 ^ 16 + g1)) by lia.
  rewrite (u64_small (((0 * 2 ^ 16 + g0) * 2 ^ 16 + g1) * 2 ^ 16 + g2)) by lia.
  rewrite u64_small; lia.
Qed.

Definition half_groups (x : Z) : list Z := map (fun i => u16 (x >>> (48 - 16 * i))) [0; 1; 2; 3].

Lemma half_groups_ok x : groups_ok (half_groups x).
Proof. repeat constructor; apply u16_range. Qed.

Lemma half_of_groups x : 0 <= x < 2 ^ 64 -> ipListParseHalf (half_groups x) = x.
Proof.
  intros Hx. pose proof (half_groups_ok x) as Hg. unfold half_groups in *. cbn [map] in *.
  rewrite half4 by done. clear Hg. unfold u16. cbn [Z.sub Z.mul Z.opp Z.add Z.pos_sub].
  rewrite !Z.shiftr_div_pow2 by lia. Z.to_euclidean_division_equations. lia.
Qed.

Lemma groups_ok_addr a : groups_ok (ipListParseGroups a).
Proof. apply Forall_app. split; apply half_groups_ok. Qed.

Lemma groups_take a : take 4 (ipListParseGroups a) = half_groups (hi a).
Proof. done. Qed.
Lemma groups_drop a : drop 4 (ipListParseGroups a) = half_groups (lo a).
Proof. done. Qed.

(** ** IPv6 *)

Lemma v6_parse_plain gs :
  groups_ok gs -> length gs = 8%nat ->
  ipListParseV6 (colons gs) = Some (ipListParseHalf (take 4 gs), ipListParseHalf (drop 4 gs)).
Proof.
  intros Hg Hlen. unfold ipListParseV6. rewrite colons_no_gap, part_groups by (done || lia).
  unfold qsize. by rewrite Hlen.
Qed.

Lemma v6_parse_gap gs s n :
  groups_ok gs -> length gs = 8%nat -> (2 <= n)%nat -> zeros_at gs s n ->
  ipListParseV6 (colons (take s gs) ++ qs "::" ++ colons (drop (s + n) gs)) =
    Some (ipListParseHalf (take 4 gs), ipListParseHalf (drop 4 gs)).
Proof.
  intros Hg Hlen Hn [Hs Hz]. unfold ipListParseV6.
  set (A := colons (take s gs)). set (B := colons (drop (s + n) gs)).
  assert (indexOfStr (qs "::") (A ++ qs "::" ++ B) = Some (length A)) as ->.
  { unfold A. rewrite indexOf_gap. change (indexOfStr (qs "::") (qs "::" ++ B)) with (Some O). cbn. by rewrite Nat.add_0_r. }
  assert (containsStr (qs "::") (drop (length A + 1) (A ++ qs "::" ++ B)) = false) as ->.
  { rewrite drop_app_add. change (drop 1 (qs "::" ++ B)) with ([58] ++ B).
    unfold containsStr, B. destruct (drop (s + n) gs) as [|g gs'].
    - done.
    - destruct (colons_head g gs') as (d & t & E & Hd).
      pose proof (colons_no_gap (g :: gs')) as Hno. rewrite E in *. cbn [app].
      by rewrite indexOfStr_one_colon, Hno. }
  rewrite take_app_length, drop_app_add. change (drop 2 (qs "::" ++ B)) with B.
  assert (length (take s gs) <= 8 /\ length (drop (s + n) gs) <= 8)%nat as [Hla Hlb].
  { rewrite length_take, length_drop. lia. }
  unfold A, B. rewrite (part_groups false), (part_groups true); [|by apply Forall_drop|done|by apply Forall_take|done].
  unfold qsize. rewrite length_take, length_drop, Hlen.
  destruct (Z.ltb_spec 7 (Z.of_nat (s `min` 8) + Z.of_nat (8 - (s + n)))); [lia|].
  replace (8 - s `min` 8 - (8 - (s + n)))%nat with n by lia.
  assert (take s gs ++ replicate n 0 ++ drop (s + n) gs = gs) as ->; [|done].
  rewrite <- Hz, <- drop_drop, !take_drop. done.
Qed.

Lemma v6_text_colon h l : contains (ch ":") (ipListParseFormat (Addr true h l)) = true.
Proof.
  pose proof (format_v6 h l) as H. cbv zeta in H.
  destruct (ipListParseBestRun _ _ _ _) as [[s|] n]; rewrite H.
  - rewrite contains_app. apply orb_true_iff. by right.
  - change (ipListParseGroups _) with (half_groups h ++ half_groups l).
    unfold half_groups. cbn [map app]. rewrite colons_cons2, !contains_app.
    apply orb_true_iff. by right.
Qed.

Lemma v6_text_free c h l : ~ hexChar c -> c <> ch ":" -> free c (ipListParseFormat (Addr true h l)).
Proof.
  intros Hc Hn. pose proof (format_v6 h l) as H. cbv zeta in H.
  destruct (ipListParseBestRun _ _ _ _) as [[s|] n]; rewrite H; [|by apply colons_free].
  rewrite !free_app. split_and!; try (by apply colons_free).
  repeat constructor; change (ch ":") with 58 in Hn; change (ch ":") with 58; congruence.
Qed.

Lemma v4_text_free c v :
  0 <= v < 2 ^ 32 -> ~ 48 <= c <= 57 -> c <> ch "." -> free c (ipListParseFormat (Addr false 0 v)).
Proof.
  intros Hv Hc Hn. rewrite format_v4 by done. unfold v4_text. rewrite !free_app.
  split_and!; try (apply digits_free; [apply unumber10_chars|done]); constructor; (congruence || constructor).
Qed.

(** Printing an address and reading it back gives the same address, for
    every IPv4 and every IPv6 address, whichever run of zero groups the text
    compresses. *)
Theorem address_text_roundtrip (a : IpListParseAddr) (Hwf : wf_addr a) :
  ipListParseAddress (ipListParseFormat a) = Some a.
Proof.
  destruct a as [[|] h l], Hwf as [Hh Hl H4]; cbn [hi lo v6] in *; unfold ipListParseAddress.
  - rewrite v6_text_colon. rewrite indexOf_free by (apply v6_text_free; [not_hex|done]).
    pose proof (format_v6 h l) as H. cbv zeta in H.
    pose proof (groups_ok_addr (Addr true h l)) as Hg.
    destruct (best_run_rfc5952 (Addr true h l)) as [Hb _]. cbv zeta in Hb.
    destruct (ipListParseBestRun _ _ _ _) as [[s|] n]; rewrite H.
    + destruct Hb as [Hn Hz]. rewrite v6_parse_gap by done.
      rewrite groups_take, groups_drop, !half_of_groups by done. done.
    + rewrite v6_parse_plain by done.
      rewrite groups_take, groups_drop, !half_of_groups by done. done.
  - destruct H4 as [-> H4]; [done|].
    rewrite (proj2 (free_contains _ _)).
    + rewrite (proj2 (v4_text_bijection _ l)); [done|]. split; [lia|done].
    + apply v4_text_free; [lia| |done]. vm_compute. intros [_ H]. by apply H.
Qed.

Lemma address_text_roundtrip_witness :
  ipListParseAddress (ipListParseFormat (Addr true 0x20010db800000000 0x1)) =
    Some (Addr true 0x20010db800000000 0x1).
Proof.
  apply (address_text_roundtrip (Addr true 0x20010db800000000 0x1)).
  split; cbn; [lia|lia|discriminate].
Defined.
