(* ===== verification/IpNetworkText.v ===== *)
(** * Networks: masking, the canonical text, and the list-entry round trip *)

From Stdlib Require Import Ascii String.
From S2P Require Import Prelude QtText IpListParse IpCover IpAddressText.

Local Open Scope Z_scope.
Local Open Scope throne_scope.

(** ** Masking *)

(** [x] with its low [n] bits cleared. *)
Definition clear_low (n x : Z) : Z := x / 2 ^ n * 2 ^ n.

Lemma clear_low_bounds n x : 0 <= n -> 0 <= x -> 0 <= clear_low n x <= x.
Proof.
  intros Hn Hx. unfold clear_low. pose proof (Z.pow_pos_nonneg 2 n ltac:(lia) Hn) as Hp.
  pose proof (Z.div_mod x (2 ^ n) ltac:(lia)). pose proof (Z.mod_pos_bound x (2 ^ n) Hp).
  pose proof (Z.div_pos x (2 ^ n) Hx Hp). nia.
Qed.

Lemma clear_low_divide n x : (2 ^ n | clear_low n x).
Proof. by exists (x / 2 ^ n). Qed.

Lemma clear_low_id n x : 0 <= n -> (2 ^ n | x) -> clear_low n x = x.
Proof.
  intros Hn [z ->]. unfold clear_low. pose proof (Z.pow_pos_nonneg 2 n ltac:(lia) Hn).
  rewrite Z.div_mul by lia. done.
Qed.

Lemma land_high w n x :
  0 <= n <= w -> 0 <= x < 2 ^ w -> x .& (2 ^ w - 2 ^ n) = clear_low n x.
Proof.
  intros Hn Hx. unfold clear_low.
  assert (2 ^ w - 2 ^ n = Z.ones (w - n) <<< n) as ->.
  { rewrite Z.shiftl_mul_pow2, Z.ones_equiv by lia.
    assert (2 ^ w = 2 ^ (w - n) * 2 ^ n) by (rewrite <- Z.pow_add_r by lia; f_equal; lia). lia. }
  rewrite <- Z.shiftl_mul_pow2, <- Z.shiftr_div_pow2 by lia.
  apply Z.bits_inj'. intros i Hi. rewrite Z.land_spec.
  destruct (Z.lt_ge_cases i n).
  - rewrite !Z.shiftl_spec_low by lia. apply andb_false_r.
  - rewrite !Z.shiftl_spec, Z.shiftr_spec by lia. replace (i - n + n) with i by lia.
    destruct (Z.lt_ge_cases i w).
    + rewrite Z.ones_spec_low by lia. apply andb_true_r.
    + rewrite Z.ones_spec_high by lia. rewrite andb_false_r.
      replace x with (x mod 2 ^ w) by (apply Z.mod_small; lia). by rewrite Z.mod_pow2_bits_high by lia.
Qed.

Lemma ones_shl w n : 0 <= n < w -> ((2 ^ w - 1) <<< n) mod 2 ^ w = 2 ^ w - 2 ^ n.
Proof.
  intros Hn. rewrite Z.shiftl_mul_pow2 by lia.
  assert (2 ^ n < 2 ^ w) by (apply Z.pow_lt_mono_r; lia).
  pose proof (Z.pow_pos_nonneg 2 n ltac:(lia) ltac:(lia)).
  symmetry. apply (Z.mod_unique_pos _ _ (2 ^ n - 1)); lia.
Qed.

(** The mask keeps the network's block base: the largest multiple of the block
    size that does not exceed the address. *)
Lemma mask_spec a p :
  wf_addr a -> 0 < p <= ipListParseBits a ->
  let m := ipListParseMask a p in
  wf_addr m /\ v6 m = v6 a /\ val m = clear_low (ipListParseBits a - p) (val a).
Proof.
  intros [Hh Hl H4] Hp m. subst m. unfold ipListParseMask, ipListParseBits in *.
  destruct (v6 a) eqn:E6; cbn [negb].
  - assert (forall n x, 0 <= n < 64 -> 0 <= x < 2 ^ 64 -> x .& ones64_shl n = clear_low n x) as Hm.
    { intros n x Hn Hx. unfold ones64_shl, u64. rewrite (ones_shl 64) by lia. apply land_high; lia. }
    assert (forall n, 0 <= n <= 64 -> clear_low (64 + n) (val a) = clear_low n (hi a) * 2 ^ 64) as Hhi.
    { intros n Hn. unfold clear_low. rewrite Z.pow_add_r by lia.
      rewrite <- Z.div_div by (try apply Z.pow_nonzero; lia).
      rewrite <- val_hi by lia. ring. }
    destruct (Z.ltb_spec p 64).
    { destruct (Z.eqb_spec p 0); [lia|]. rewrite Hm by lia.
      pose proof (clear_low_bounds (64 - p) (hi a) ltac:(lia) ltac:(lia)).
      replace (128 - p) with (64 + (64 - p)) by lia. rewrite Hhi by lia.
      split_and!; [split; cbn [hi lo v6]; [lia|lia|congruence]|done|apply Z.add_0_r]. }
    destruct (Z.eqb_spec p 64) as [->|].
    { change (128 - 64) with (64 + 0). rewrite Hhi by lia.
      split_and!; [split; cbn [hi lo v6]; [lia|lia|congruence]|done|].
      unfold val, clear_low. cbn [hi lo]. change (2 ^ 0) with 1. rewrite Z.div_1_r. lia. }
    destruct (Z.ltb_spec p 128).
    { rewrite Hm by lia. pose proof (clear_low_bounds (128 - p) (lo a) ltac:(lia) ltac:(lia)).
      split_and!; [split; cbn [hi lo v6]; [lia|lia|congruence]|done|].
      unfold val, clear_low. cbn [hi lo].
      assert (2 ^ 64 = 2 ^ (p - 64) * 2 ^ (128 - p)) as E.
      { rewrite <- Z.pow_add_r by lia. f_equal. lia. }
      replace (hi a * 2 ^ 64 + lo a) with (lo a + hi a * 2 ^ (p - 64) * 2 ^ (128 - p)) by (rewrite E; ring).
      pose proof (Z.pow_pos_nonneg 2 (128 - p) ltac:(lia) ltac:(lia)).
      rewrite Z.div_add by lia. rewrite E. ring. }
    assert (p = 128) as -> by lia. split_and!; [split; [done..|congruence]|done|].
    unfold clear_low. change (2 ^ (128 - 128)) with 1. rewrite Z.div_1_r. lia.
  - destruct H4 as [E0 H4]; [done|].
    assert (u64 (0xffffffff <<< (32 - p)) .& 0xffffffff = 2 ^ 32 - 2 ^ (32 - p)) as ->.
    { change 0xffffffff with (2 ^ 32 - 1) at 1. change 0xffffffff with (Z.ones 32).
      rewrite Z.land_ones by lia. rewrite u64_small; [by apply ones_shl; lia|].
      rewrite Z.shiftl_mul_pow2 by lia. pose proof (Z.pow_pos_nonneg 2 (32 - p) ltac:(lia) ltac:(lia)).
      assert (2 ^ (32 - p) <= 2 ^ 31) by (apply Z.pow_le_mono_r; lia). lia. }
    rewrite land_high by lia.
    pose proof (clear_low_bounds (32 - p) (lo a) ltac:(lia) ltac:(lia)).
    split_and!; [split; cbn [hi lo v6]; [lia|lia|intros _; lia]|done|].
    unfold val. cbn [hi lo]. rewrite E0. cbn [Z.mul Z.add]. done.
Qed.

Lemma mask_aligned a p :
  wf_addr a -> 0 < p <= ipListParseBits a -> (2 ^ (ipListParseBits a - p) | val a) -> ipListParseMask a p = a.
Proof.
  intros Hwf Hp Hd. destruct (mask_spec a p Hwf Hp) as (Hw & H6 & Hv).
  rewrite clear_low_id in Hv by (lia || done).
  destruct (ipListParseMask a p) as [f h l], a as [f' h' l']. cbn in H6. subst f'.
  destruct Hw as [Hwh Hwl _], Hwf as [Hh Hl _]. unfold val in Hv. cbn [hi lo] in *.
  assert (h = h' /\ l = l') as [-> ->] by lia. done.
Qed.

(** ** What the network parser accepts *)

(** A canonical network: a block base with a usable prefix, and no IPv4-mapped
    network that the parser would turn into IPv4. *)
Record canonical (a : IpListParseAddr) (p : Z) : Prop := {
  can_wf : wf_addr a;
  can_prefix : 0 < p <= ipListParseBits a;
  can_base : (2 ^ (ipListParseBits a - p) | val a);
  can_mapped : ipListParseIsMapped a && (96 <=? p) = false }.

Lemma half_range gs : 0 <= ipListParseHalf gs < 2 ^ 64.
Proof.
  unfold ipListParseHalf. rewrite <- fold_left_rev_right.
  destruct (rev gs) as [|g gs']; cbn [fold_right]; [lia|apply u64_range].
Qed.

Lemma address_wf s a : ipListParseAddress s = Some a -> wf_addr a.
Proof.
  unfold ipListParseAddress. destruct (contains (ch ":") s).
  - destruct (ipListParseV6 _) as [[h l]|] eqn:E; [|done]. intros [= <-].
    assert (0 <= h < 2 ^ 64 /\ 0 <= l < 2 ^ 64) as [Hh Hl]; [|by split].
    unfold ipListParseV6 in E. repeat case_match; simplify_eq; split; apply half_range.
  - destruct (ipListParseV4 s) as [v|] eqn:E; [|done]. intros [= <-].
    apply v4_text_bijection in E as [Hv _]. split; cbn; [lia|lia|intros _; lia].
Qed.

Lemma mapped_high a p :
  wf_addr a -> v6 a = true -> 96 <= p <= 128 ->
  ipListParseIsMapped (ipListParseMask a p) = ipListParseIsMapped a.
Proof.
  intros [Hh Hl _] H6 Hp. unfold ipListParseMask. rewrite H6. cbn [negb].
  destruct (Z.ltb_spec p 64); [lia|]. destruct (Z.eqb_spec p 64); [lia|].
  destruct (Z.ltb_spec p 128); [|done]. unfold ipListParseIsMapped. cbn [v6 hi lo].
  rewrite H6. f_equal. f_equal. unfold ones64_shl, u64. rewrite (ones_shl 64) by lia.
  rewrite land_high by lia. rewrite !Z.shiftr_div_pow2 by lia. unfold clear_low.
  assert (2 ^ 32 = 2 ^ (p - 96) * 2 ^ (128 - p)) as E by (rewrite <- Z.pow_add_r by lia; f_equal; lia).
  rewrite E, (Z.mul_comm (2 ^ (p - 96))), <- !Z.div_div by (try apply Z.pow_nonzero; try apply Z.pow_pos_nonneg; lia).
  rewrite Z.div_mul by (apply Z.pow_nonzero; lia). done.
Qed.

Lemma canonical_mask a p :
  wf_addr a -> 0 < p <= ipListParseBits a -> ipListParseIsMapped a && (96 <=? p) = false ->
  canonical (ipListParseMask a p) p.
Proof.
  intros Hwf Hp Hm. destruct (mask_spec a p Hwf Hp) as (Hw & H6 & Hv).
  assert (ipListParseBits (ipListParseMask a p) = ipListParseBits a) as Hb.
  { unfold ipListParseBits. by rewrite H6. }
  split; [done|by rewrite Hb|rewrite Hb, Hv; apply clear_low_divide|].
  destruct (Z.leb_spec 96 p) as [Hle|]; [|by rewrite andb_false_r]. rewrite andb_true_r in *.
  destruct (v6 a) eqn:E6; [|unfold ipListParseIsMapped; by rewrite H6].
  rewrite mapped_high; [done..|]. unfold ipListParseBits in Hp. rewrite E6 in Hp. lia.
Qed.

Lemma decimal_nonneg s m n : ipListParseDecimal s m = Some n -> 0 <= n.
Proof.
  unfold ipListParseDecimal. case_match; [done|].
  assert (forall s v n, 0 <= v -> ipListParseDecimalLoop s v = Some n -> 0 <= n) as H0.
  { clear. induction s as [|c s IH]; cbn [ipListParseDecimalLoop]; intros v n Hv Hr; [congruence|].
    case_match; [done|]. eapply IH; [|done]. apply u32_range. }
  intros Hr. by apply (H0 s 0).
Qed.

Lemma network_canonical s a p : ipListParseNetwork s = Some (a, p) -> canonical a p.
Proof.
  unfold ipListParseNetwork. destruct (ipListParseNetworkParts s) as [[body pt]|]; [|done].
  destruct (ipListParseAddress body) as [b|] eqn:Ea; [|done]. apply address_wf in Ea.
  match goal with |- match ?o with _ => _ end = _ -> _ => destruct o as [q|] eqn:Eq; [|done] end.
  assert (0 <= q <= ipListParseBits b) as Hq.
  { destruct pt as [t|]; [|destruct (bits_cases b); injection Eq as <-; lia].
    destruct (ipListParseDecimal t 3) as [v|] eqn:Ed; [|done]. apply decimal_nonneg in Ed.
    destruct (Z.ltb_spec (ipListParseBits b) v); [done|]. injection Eq as <-. lia. }
  clear Eq. destruct (ipListParseIsMapped b && (96 <=? q)) eqn:Em.
  - destruct (Z.eqb_spec (q - 96) 0); [done|]. intros [= <- <-].
    apply andb_true_iff in Em as [Em Hle]. unfold ipListParseIsMapped in Em. bprop.
    destruct Em as [[E6 _] _]. unfold ipListParseBits in Hq. rewrite E6 in Hq.
    apply canonical_mask; [|unfold ipListParseBits; cbn [v6]; lia|done].
    change 0xffffffff with (Z.ones 32). rewrite Z.land_ones by lia.
    pose proof (Z.mod_pos_bound (lo b) (2 ^ 32) ltac:(lia)). split; cbn [hi lo]; [lia|lia|intros _; lia].
  - destruct (Z.eqb_spec q 0); [done|]. intros [= <- <-]. apply canonical_mask; [done|lia|done].
Qed.

(** ** The canonical text *)

Definition textChar (c : Z) : Prop := hexChar c \/ c = ch "." \/ c = ch ":" \/ c = ch "/".

Lemma format_chars a : wf_addr a -> Forall (fun c => hexChar c \/ c = ch "." \/ c = ch ":") (ipListParseFormat a).
Proof.
  intros Hwf. destruct a as [[|] h l].
  - pose proof (format_v6 h l) as H. cbv zeta in H.
    assert (forall gs, Forall (fun c => hexChar c \/ c = ch "." \/ c = ch ":") (colons gs)) as Hc.
    { intros gs. apply join_Forall; [repeat constructor; tauto|]. apply Forall_map, Forall_true. intros g.
      eapply Forall_impl; [apply unumber_chars; lia|]. cbn. tauto. }
    destruct (ipListParseBestRun _ _ _ _) as [[s|] n]; rewrite H; [|done].
    rewrite !Forall_app. split_and!; [done|repeat constructor; tauto|done].
  - destruct Hwf as [_ Hl H4]. cbn [hi lo v6] in *. destruct (H4 eq_refl) as [-> ?].
    rewrite format_v4 by lia. unfold v4_text.
    assert (forall n, Forall (fun c => hexChar c \/ c = ch "." \/ c = ch ":") (unumber 10 n)) as Hn.
    { intros n. eapply Forall_impl; [apply unumber10_chars|]. cbn. unfold hexChar. tauto. }
    rewrite !Forall_app. split_and!; try done; repeat constructor; tauto.
Qed.

Lemma format_free a c : wf_addr a -> ~ hexChar c -> c <> ch "." -> c <> ch ":" -> free c (ipListParseFormat a).
Proof.
  intros Hwf H1 H2 H3. eapply Forall_impl; [by apply format_chars|]. cbn. intros d [Hd|[-> | ->]]; congruence.
Qed.

Lemma number_nonneg n : 0 <= n -> number n = unumber 10 n.
Proof. intros H. unfold number. destruct (Z.ltb_spec n 0); [lia|done]. Qed.

Lemma cidr_chars a p : wf_addr a -> 0 < p -> Forall textChar (ipListParseCidr a p).
Proof.
  intros Hwf Hp. unfold ipListParseCidr, textChar.
  assert (Forall textChar (ipListParseFormat a)) as Hf.
  { eapply Forall_impl; [by apply format_chars|]. unfold textChar. cbn. tauto. }
  case_match; [done|]. rewrite number_nonneg by lia. rewrite !Forall_app. split_and!; [done| |].
  - repeat constructor; unfold textChar; tauto.
  - eapply Forall_impl; [apply unumber10_chars|]. cbn. unfold hexChar. tauto.
Qed.

Lemma textChar_cases c : textChar c -> isSpace c = false /\ c <> ch "[" /\ c <> ch "#" /\ c <> ch "-"
  /\ c <> 0x2013 /\ c <> ch ";" /\ c <> 34 /\ c <> 39 /\ ipListParseIsSeparator c = false.
Proof.
  intros H.
  assert (48 <= c <= 57 \/ 97 <= c <= 102 \/ c = 46 \/ c = 58 \/ c = 47) as H'.
  { unfold textChar, hexChar in H. change (ch ".") with 46 in H. change (ch ":") with 58 in H.
    change (ch "/") with 47 in H. lia. }
  clear H. change (ch "[") with 91. change (ch "#") with 35. change (ch "-") with 45. change (ch ";") with 59.
  split_and!; [|lia..|].
  - unfold isSpace. rewrite !orb_false_iff, !andb_false_iff, !Z.eqb_neq, !Z.leb_gt. lia.
  - unfold ipListParseIsSeparator. change (ch ",") with 44. change (ch ";") with 59. change (ch "|") with 124.
    rewrite !orb_false_iff, !Z.eqb_neq. lia.
Qed.

Lemma prefix_print n : 0 <= n <= 128 -> ipListParseDecimal (number n) 3 = Some n.
Proof. intros Hn. rewrite number_nonneg by lia. apply octet_print. lia. Qed.

(** A canonical network survives its text: what [ipListParseCidr] prints
    for it, [ipListParseNetwork] reads back as the same base and prefix, and
    everything [ipListParseNetwork] accepts is such a canonical network. *)
Theorem network_text_roundtrip (a : IpListParseAddr) (p : Z) :
  canonical a p <-> ipListParseNetwork (ipListParseCidr a p) = Some (a, p).
Proof.
  split; [|apply network_canonical]. intros [Hwf Hp Hb Hm].
  assert (noSpace (ipListParseCidr a p)) as Hns.
  { eapply Forall_impl; [apply cidr_chars; [done|lia]|]. cbn. intros c Hc. by apply textChar_cases. }
  assert (startsWithC (ch "[") (ipListParseCidr a p) = false) as Hbr.
  { pose proof (cidr_chars a p Hwf ltac:(lia)) as Hc. destruct (ipListParseCidr a p); [done|].
    cbn. apply Z.eqb_neq. apply Forall_cons in Hc as [Hc _].
    apply textChar_cases in Hc. tauto. }
  assert (free (ch "/") (ipListParseFormat a)) as Hs by (apply format_free; [done|not_hex|vm_compute; congruence|vm_compute; congruence]).
  unfold ipListParseNetwork, ipListParseNetworkParts. rewrite trimmed_noSpace, Hbr by done. cbn [isEmpty negb].
  assert (ipListParseMask a p = a) as Hmask by (apply mask_aligned; done).
  unfold ipListParseCidr. destruct (Z.leb_spec (ipListParseBits a) p) as [Hle|Hgt].
  - rewrite indexOf_free by done. rewrite address_text_roundtrip by done.
    replace p with (ipListParseBits a) in * by lia. rewrite Hm.
    destruct (Z.eqb_spec (ipListParseBits a) 0); [lia|]. by rewrite Hmask.
  - cbn [app]. rewrite indexOf_app by done. rewrite take_app_length.
    change (ch "/" :: number p) with ([ch "/"] ++ number p). rewrite drop_app_add. cbn [app drop].
    rewrite drop_0, address_text_roundtrip by done.
    rewrite prefix_print by (destruct (bits_cases a); lia).
    destruct (Z.ltb_spec (ipListParseBits a) p); [lia|]. rewrite Hm.
    destruct (Z.eqb_spec p 0); [lia|]. by rewrite Hmask.
Qed.

(** Normalizing is idempotent, and the normal form of an accepted text is
    the canonical text of a canonical network. *)
Theorem normalize_idempotent (s : qstring) :
  NormalizeCidr (NormalizeCidr s) = NormalizeCidr s /\
  (NormalizeCidr s <> [] -> exists a p, canonical a p /\ NormalizeCidr s = ipListParseCidr a p).
Proof.
  unfold NormalizeCidr at 2 3 4 5.
  destruct (ipListParseNetwork s) as [[a p]|] eqn:E.
  - apply network_canonical in E. split; [|intros _; by exists a, p].
    unfold NormalizeCidr. by rewrite (proj1 (network_text_roundtrip a p) E).
  - split; [reflexivity|done].
Qed.
