(* ===== verification/IpListEntries.v ===== *)
(** * Whole list files: what ParseIpListText produces, and printing entries back *)

From Stdlib Require Import Ascii String.
From S2P Require Import Prelude QtText IpListParse IpCover IpAddressText IpNetworkText.

Local Open Scope Z_scope.
Local Open Scope throne_scope.

(** ** Decimal numbers *)

Lemma decimal_digit_print d acc v :
  0 <= d < 10 -> 0 <= v -> v * 10 + d < 2 ^ 32 ->
  ipListParseDecimalLoop (digitChar d :: acc) v = ipListParseDecimalLoop acc (v * 10 + d).
Proof.
  intros Hd Hv Hlt. cbn [ipListParseDecimalLoop].
  assert (digitChar d = 48 + d) as -> by (unfold digitChar; case_match; bprop; lia).
  change (ch "0") with 48. change (ch "9") with 57.
  destruct (Z.ltb_spec (48 + d) 48); [lia|]. destruct (Z.ltb_spec 57 (48 + d)); [lia|]. cbn [orb].
  rewrite u32_small by lia. f_equal. lia.
Qed.

Lemma decimal_number_parse fuel : forall n acc,
  0 <= n < 2 ^ 32 -> n < 2 ^ Z.of_nat fuel -> (0 < fuel)%nat ->
  ipListParseDecimalLoop (numberLoop fuel 10 n acc) 0 = ipListParseDecimalLoop acc n.
Proof.
  induction fuel as [|fuel IH]; intros n acc Hn Hf H0; [lia|]. cbn [numberLoop].
  pose proof (Z.div_mod n 10 ltac:(lia)) as E. pose proof (Z.mod_pos_bound n 10 ltac:(lia)).
  destruct (Z.eqb_spec (n / 10) 0) as [Ez|Ez].
  - rewrite decimal_digit_print by lia. f_equal. lia.
  - assert (fuel <> O). { intros ->. cbn in Hf. Z.to_euclidean_division_equations; lia. }
    rewrite Nat2Z.inj_succ, Z.pow_succ_r in Hf by lia.
    rewrite IH by (lia || Z.to_euclidean_division_equations; lia).
    rewrite decimal_digit_print by (lia || Z.to_euclidean_division_equations; lia). f_equal. lia.
Qed.

(** A port's text reads back as the port. *)
Lemma port_print n : 0 <= n <= 65535 -> ipListParsePort (number n) = Some n.
Proof.
  intros Hn. rewrite number_nonneg by lia. unfold ipListParsePort, ipListParseDecimal.
  pose proof (number_loop_length 10 4 (S (Z.to_nat (Z.log2 n))) n [] ltac:(lia)) as Hl.
  change (10 ^ Z.of_nat 5) with 100000 in Hl. specialize (Hl ltac:(lia)). cbn [length] in Hl.
  assert (isEmpty (unumber 10 n) = false) as ->.
  { pose proof (unumber_nonempty 10 n). by destruct (unumber 10 n). }
  unfold qsize. destruct (Z.ltb_spec 5 (Z.of_nat (length (unumber 10 n)))); [unfold unumber in *; lia|].
  cbn [orb]. unfold unumber. rewrite decimal_number_parse; [|lia|apply log2_fuel; lia|lia].
  cbn [ipListParseDecimalLoop]. destruct (Z.ltb_spec 65535 n); [lia|done].
Qed.

(** ** Tokens *)

(** The texts entries carry: a block base with its prefix. *)
Definition block_text (c : qstring) : Prop :=
  exists a p, wf_addr a /\ 0 < p <= ipListParseBits a /\
              (2 ^ (ipListParseBits a - p) | val a) /\ c = ipListParseCidr a p.

Definition port_ok (p : Z) : Prop := -1 <= p <= 65535.

Lemma port_range s p : ipListParsePort s = Some p -> 0 <= p <= 65535.
Proof.
  unfold ipListParsePort. destruct (ipListParseDecimal s 5) as [v|] eqn:E; [|done].
  apply decimal_nonneg in E. destruct (Z.ltb_spec 65535 v); [done|]. intros [= <-]. lia.
Qed.

Lemma unmap_wf a : wf_addr a -> wf_addr (if ipListParseIsMapped a then Addr false 0 (lo a .& 0xffffffff) else a).
Proof.
  intros Hwf. case_match; [|done]. change 0xffffffff with (Z.ones 32). rewrite Z.land_ones by lia.
  pose proof (Z.mod_pos_bound (lo a) (2 ^ 32) ltac:(lia)). split; cbn [hi lo]; [lia|lia|intros _; lia].
Qed.

Lemma range_end_wf s a : ipListParseRangeEnd s = Some a -> wf_addr a.
Proof.
  unfold ipListParseRangeEnd. cbv zeta. case_match; [done|].
  destruct (ipListParseAddress _) as [b|] eqn:E; [|done]. apply address_wf in E. intros [= <-]. by apply unmap_wf.
Qed.

Lemma range_last_ok first s a :
  wf_addr first -> ipListParseRangeLast first s = Some a -> wf_addr a /\ v6 a = v6 first.
Proof.
  intros Hwf. unfold ipListParseRangeLast.
  destruct (if v6 first then None else ipListParseDecimal s 3) as [octet|] eqn:E.
  - destruct (v6 first) eqn:E6; [done|]. apply decimal_nonneg in E.
    destruct ((255 <? octet) || _) eqn:Eo; [done|]. intros [= <-]. bprop. destruct Eo as [Eo _].
    destruct Hwf as [Hh Hl H4]. destruct (H4 E6) as [E0 Hlt].
    change (2 ^ 64 - 1 - 0xff) with (2 ^ 64 - 2 ^ 8). rewrite land_high by lia.
    unfold clear_low. rewrite <- Z.shiftl_mul_pow2, lor_shiftl_add by lia.
    assert (0 <= lo first / 2 ^ 8 < 2 ^ 24) by (Z.to_euclidean_division_equations; lia).
    split; [|done]. split; cbn [hi lo]; [lia|lia|intros _; lia].
  - destruct (ipListParseRangeEnd s) as [b|] eqn:Er; [|done]. destruct (Bool.eqb _ _) eqn:Eb; [|done].
    intros [= <-]. apply eqb_prop in Eb. split; [by eapply range_end_wf|done].
Qed.

Lemma range_right_port s r p : ipListParseRangeRight s = Some (r, p) -> port_ok p.
Proof.
  unfold ipListParseRangeRight, port_ok. intros H.
  repeat case_match; simplify_eq; try lia;
    match goal with H : ipListParsePort _ = Some _ |- _ => apply port_range in H; lia end.
Qed.

Lemma less_spec a b : wf_addr a -> wf_addr b -> ipListParseLess a b = (val a <? val b).
Proof.
  intros [Ha1 Ha2 _] [Hb1 Hb2 _]. unfold ipListParseLess, val.
  destruct (Z.eqb_spec (hi a) (hi b)) as [E|E]; cbn [negb].
  - rewrite E. destruct (Z.ltb_spec (lo a) (lo b)), (Z.ltb_spec (hi b * 2 ^ 64 + lo a) (hi b * 2 ^ 64 + lo b)); lia.
  - destruct (Z.ltb_spec (hi a) (hi b)), (Z.ltb_spec (hi a * 2 ^ 64 + lo a) (hi b * 2 ^ 64 + lo b)); nia.
Qed.

Lemma cover_range_texts first last cs :
  wf_addr first -> wf_addr last -> v6 first = v6 last -> val first <= val last ->
  ipListParseCoverRange first last = Some cs -> Forall block_text cs.
Proof.
  intros Hf Hl Hfam Hle Hc.
  pose proof (cover_blocks_none _ _ Hf Hl Hfam) as Hguard. cbv zeta in Hguard.
  unfold ipListParseCoverRange, ipListParseCoverBlocks in Hc.
  destruct (_ && _) eqn:E; [done|]. assert (~ whole_space first last) as Hw.
  { intros Hw. apply Hguard in Hw. congruence. }
  pose proof (val_range _ Hf) as Hfr. pose proof (val_range _ Hl) as Hlr.
  assert (ipListParseBits last = ipListParseBits first) as Hb by (unfold ipListParseBits; by rewrite Hfam).
  assert (range_ok first last) as Hok.
  { split; [done..|]. unfold whole_space in *. rewrite Hb in Hlr. lia. }
  destruct (ipListParseCoverLoop 258 first last) as [blocks|] eqn:Eb; [|done]. injection Hc as <-.
  destruct (cover_loop_tiles 258 first last Hok) as (blocks' & Eb' & Ht & _).
  { pose proof (cover_measure_bound _ _ Hok). destruct (bits_cases first); lia. }
  rewrite Eb in Eb'. injection Eb' as <-. clear -Ht. revert Ht. generalize (val first).
  induction blocks as [|b rest IH]; cbn [tiles map]; intros a Ht; constructor.
  - destruct Ht as (H1 & H2 & H3 & H4 & H5 & _). exists (fst b), (snd b). unfold block_size in H5.
    rewrite H3. done.
  - apply (IH (a + block_size b)). by destruct Ht as (_ & _ & _ & _ & _ & ?).
Qed.

Lemma range_token_ok s cs p :
  ipListParseRangeToken s = Some (cs, p) -> Forall block_text cs /\ port_ok p.
Proof.
  unfold ipListParseRangeToken. cbv zeta.
  destruct (ipListParseRangeRight _) as [[r q]|] eqn:Er; [|done]. apply range_right_port in Er.
  destruct (ipListParseRangeEnd _) as [first|] eqn:Ef; [|done]. apply range_end_wf in Ef.
  destruct (ipListParseRangeLast first r) as [last|] eqn:El; [|done].
  apply range_last_ok in El as [Hl Hfam]; [|done]. rewrite less_spec by done.
  destruct (Z.ltb_spec (val last) (val first)).
  - destruct (ipListParseCoverRange last first) as [cs'|] eqn:Ec; [|done]. intros [= <- <-]. split; [|done].
    apply cover_range_texts in Ec; [done..|lia].
  - destruct (ipListParseCoverRange first last) as [cs'|] eqn:Ec; [|done]. intros [= <- <-]. split; [|done].
    apply cover_range_texts in Ec; [done..|lia].
Qed.

Lemma token_parts_port s r p : ipListParseTokenParts s = Some (r, p) -> port_ok p.
Proof.
  unfold ipListParseTokenParts, port_ok. intros H.
  repeat case_match; simplify_eq; try lia;
    match goal with H : ipListParsePort _ = Some _ |- _ => apply port_range in H; lia end.
Qed.

Lemma address_token_ok s cs p :
  ipListParseAddressToken s = Some (cs, p) -> Forall block_text cs /\ port_ok p.
Proof.
  unfold ipListParseAddressToken. case_match; [done|]. case_match; [apply range_token_ok|].
  destruct (ipListParseTokenParts s) as [[n q]|] eqn:Ep; [|done].
  destruct (ipListParseNetwork n) as [[a b]|] eqn:En; [|done]. intros [= <- <-]. split.
  - apply network_canonical in En as [? ? ? _]. repeat constructor. by exists a, b.
  - by eapply token_parts_port.
Qed.

Definition token_ok (t : IpListParseToken) : Prop :=
  Forall block_text (cidrs t) /\ port_ok (tport t).

Lemma parse_token_ok f w t : ipListParseToken f w = Some t -> token_ok t.
Proof.
  unfold ipListParseToken. cbv zeta. case_match; [done|]. intros [= <-].
  destruct (ipListParseAddressToken _) as [[cs p]|] eqn:E; [by apply address_token_ok in E|].
  destruct (ipListParsePort _) as [p|] eqn:Ep; split; cbn; unfold port_ok; try constructor; try lia.
  all: apply port_range in Ep; lia.
Qed.

Lemma tokens_ok fields : Forall token_ok (ipListParseTokens fields).
Proof.
  unfold ipListParseTokens. apply Forall_concat. apply Forall_lookup. intros i l Hl.
  rewrite list_lookup_imap in Hl. destruct (fields !! i) as [x|]; cbn in Hl; [|done]. injection Hl as <-.
  apply Forall_forall. intros t Ht. apply list_elem_of_omap in Ht as (w & _ & Ht). by eapply parse_token_ok.
Qed.

(** ** The invariant of the parse *)

Record parse_inv (st : ParseState) : Prop := {
  inv_seen : forall e, e ∈ entries (result st) -> ipListParseKey (cidr e) (port e) ∈ seen st;
  inv_nodup : NoDup (entries (result st));
  inv_entries : Forall (fun e => block_text (cidr e) /\ 0 <= port e <= 65535 /\ latencyMs e = 0) (entries (result st));
  inv_counts : 0 <= duplicates (result st);
  inv_samples : Z.of_nat (length (samples (result st))) = Z.min (rejected (result st)) 5;
  inv_sample_len : Forall (fun s => (length s <= 64)%nat) (samples (result st)) }.

Lemma reject_inv t st : parse_inv st -> parse_inv (reject t st).
Proof.
  intros [H1 H2 H3 H4 H5 H6]. unfold reject, kIpListParseMaxSamples, kIpListParseSampleChars.
  split; cbn [result seen entries rejected duplicates samples]; [done..| |].
  - case_match; bprop; [rewrite length_app; cbn [length]; lia|lia].
  - case_match; [|done]. apply Forall_app. split; [done|].
    constructor; [|constructor]. rewrite length_take. lia.
Qed.

Lemma rejectAll_inv ts st : parse_inv st -> parse_inv (rejectAll ts st).
Proof. unfold rejectAll. revert st. induction ts as [|t ts IH]; cbn; intros st H; [done|]. by apply IH, reject_inv. Qed.

Lemma addCidr_inv p st c :
  0 <= p <= 65535 -> block_text c -> parse_inv st -> parse_inv (addCidr p st c).
Proof.
  intros Hp Hc [H1 H2 H3 H4 H5 H6]. unfold addCidr. cbv zeta. case_bool_decide as Hs.
  - split; cbn [result seen entries rejected duplicates samples]; (done || lia).
  - split; cbn [result seen entries rejected duplicates samples]; [| | |done..].
    + intros e He. apply elem_of_app in He as [He|He]; [apply elem_of_union_r; by apply H1|].
      apply list_elem_of_singleton in He as ->. by apply elem_of_union_l, elem_of_singleton.
    + apply NoDup_app. split_and!; [done| |apply NoDup_singleton].
      intros e He Hin. apply list_elem_of_singleton in Hin as ->. by apply H1 in He.
    + apply Forall_app. split; [done|]. by apply Forall_singleton.
Qed.

Lemma add_inv d cs p st :
  0 <= d <= 65535 -> port_ok p -> Forall block_text cs -> parse_inv st -> parse_inv (add d cs p st).
Proof.
  intros Hd Hp Hc. unfold add, port_ok in *. revert st.
  assert (0 <= (if p <=? 0 then d else p) <= 65535) as Hq by (destruct (Z.leb_spec p 0); lia).
  induction Hc as [|c cs Hc _ IH]; cbn [fold_left]; intros st H; [done|]. by apply IH, addCidr_inv.
Qed.

Lemma token_port_ok st fields t rest :
  token_ok t -> Forall token_ok rest -> port_ok (fst (ipListParseTokenPort st fields t rest)).
Proof.
  intros [_ Ht] Hr. unfold ipListParseTokenPort, port_ok in *.
  repeat case_match; cbn [fst]; try done.
  - match goal with H : ipListParsePort _ = Some _ |- _ => apply port_range in H; lia end.
  - apply Forall_cons in Hr as [[_ Hr] _]. done.
Qed.

Lemma token_loop_inv fuel d fields tab : forall ts st,
  0 <= d <= 65535 -> Forall token_ok ts -> parse_inv st ->
  parse_inv (ipListParseTokenLoop fuel d fields tab ts st).
Proof.
  induction fuel as [|fuel IH]; intros ts st Hd Ht Hi; cbn [ipListParseTokenLoop]; [done|].
  destruct ts as [|t ts]; [done|]. apply Forall_cons in Ht as [Ht Hts].
  case_match; [by apply IH|]. case_match.
  - pose proof (token_port_ok st fields t ts Ht Hts) as Hp.
    destruct (ipListParseTokenPort st fields t ts) as [p eats]. cbn [fst] in Hp.
    apply IH; [done| |apply add_inv; [done|done|apply Ht|done]].
    destruct eats; [|done]. destruct ts as [|t' ts]; [done|]. cbn [consume].
    apply Forall_cons in Hts as [? ?]. by constructor.
  - apply IH; [done|done|]. case_match; [done|by apply reject_inv].
  - apply IH; [done|done|]. case_match; [by apply reject_inv|done].
Qed.

Lemma line_inv fold d st line :
  0 <= d <= 65535 -> parse_inv st -> parse_inv (ipListParseLine fold d st line).
Proof.
  intros Hd Hi. unfold ipListParseLine.
  assert (forall a b c, parse_inv (setFlags a b c st)) as Hf by (intros; by destruct Hi; split).
  destruct (ipListParseLineText line) as [l|]; [|done]. cbv zeta.
  case_match; [done|]. case_match; [case_match; [apply Hf|]|].
  - case_match; [by apply rejectAll_inv|]. case_match; [by apply rejectAll_inv|by apply reject_inv].
  - apply token_loop_inv; [done|apply tokens_ok|apply Hf].
Qed.

(** C40: Whatever the bytes of a list file and whatever the default port, the
    parsed entries are distinct, each is the text of an aligned block with a
    port from 0 to 65535 and no latency, every rejected piece is counted, and
    at most five of them (the first ones, cut to 64 characters) are sampled. *)
Theorem parse_text_wellformed (fromUtf8 : list Z -> qstring) (foldCase : Z -> Z)
    (bytes : list Z) (defaultPort : Z) :
  let r := ParseIpListText fromUtf8 foldCase bytes defaultPort in
  NoDup (entries r) /\
  Forall (fun e => block_text (cidr e) /\ 0 <= port e <= 65535 /\ latencyMs e = 0) (entries r) /\
  0 <= duplicates r /\
  Z.of_nat (length (samples r)) = Z.min (rejected r) 5 /\
  Forall (fun s => (length s <= 64)%nat) (samples r).
Proof.
  intros r. unfold r, ParseIpListText.
  assert (0 <= clampDefaultPort defaultPort <= 65535) as Hd.
  { unfold clampDefaultPort. case_match; bprop; lia. }
  match goal with |- context [fold_left ?f ?ls _] => generalize ls; set (g := f) end.
  intros ls. assert (forall ls st, parse_inv st -> parse_inv (fold_left g ls st)) as Hfold.
  { clear ls. induction ls as [|l ls IH]; cbn [fold_left]; intros st H; [done|]. by apply IH, line_inv. }
  destruct (Hfold ls initialState) as [_ H2 H3 H4 H5 H6]; [|done].
  split; cbn; [|constructor|constructor|lia|lia|constructor].
  intros e He. by apply not_elem_of_nil in He.
Qed.

(** ** Printing an entry and parsing it back *)

(** Characters of printed entries, the space between a network and its port
    aside. *)
Definition cleanChar (c : Z) : Prop := textChar c \/ c = ch "[" \/ c = ch "]".
Definition clean (s : qstring) : Prop := s <> [] /\ Forall cleanChar s.

Lemma cleanChar_code c :
  cleanChar c -> 48 <= c <= 57 \/ 97 <= c <= 102 \/ c = 46 \/ c = 58 \/ c = 47 \/ c = 91 \/ c = 93.
Proof.
  unfold cleanChar, textChar, hexChar. change (ch ".") with 46. change (ch ":") with 58.
  change (ch "/") with 47. change (ch "[") with 91. change (ch "]") with 93. lia.
Qed.

Lemma cleanChar_space c : cleanChar c -> isSpace c = false.
Proof.
  intros H%cleanChar_code. unfold isSpace.
  rewrite !orb_false_iff, !andb_false_iff, !Z.eqb_neq, !Z.leb_gt. lia.
Qed.

Lemma cleanChar_sep c : cleanChar c -> ipListParseIsSeparator c = false.
Proof.
  intros H%cleanChar_code. unfold ipListParseIsSeparator. change (ch ",") with 44.
  change (ch ";") with 59. change (ch "|") with 124. rewrite !orb_false_iff, !Z.eqb_neq. lia.
Qed.

Lemma cleanChar_quote c : cleanChar c -> ipListParseQuote c = false.
Proof. intros H%cleanChar_code. unfold ipListParseQuote. rewrite !orb_false_iff, !Z.eqb_neq. lia. Qed.

Lemma unquote_clean s : clean s -> ipListParseUnquote s = s.
Proof.
  intros [_ Hs]. unfold ipListParseUnquote.
  assert (noSpace s) as Hn by exact (Forall_impl _ _ _ Hs cleanChar_space).
  assert (Forall (fun c => ipListParseQuote c = false) s) as Hq by exact (Forall_impl _ _ _ Hs cleanChar_quote).
  rewrite (trimmed_noSpace s), (dropWhile_none _ s), (dropWhileEnd_none _ s) by done. by apply trimmed_noSpace.
Qed.

(** A doubled character needs two of it. *)
Lemma indexOfStr_double c s : (count c s <= 1)%nat -> indexOfStr [c; c] s = None.
Proof.
  unfold count. induction s as [|d s IH]; cbn [List.filter indexOfStr startsWith]; [done|].
  intros H. destruct (Z.eqb_spec c d) as [->|Hd]; cbn [length andb] in *.
  - destruct s as [|e s]; [done|]. cbn [List.filter] in *. destruct (Z.eqb_spec d e); cbn [length andb] in *; [lia|].
    rewrite IH; [done|lia].
  - rewrite IH; [done|lia].
Qed.

Definition spaced (ws : list qstring) : qstring := join [32] ws.

Lemma split_spaced ws : ws <> [] -> Forall clean ws -> splitBy isSpace (spaced ws) = ws.
Proof.
  intros Hne H. unfold spaced. induction H as [|w ws [Hw Hc] Hws IH]; [done|].
  assert (Forall (fun d => isSpace d = false) w) as Hns by exact (Forall_impl _ _ _ Hc cleanChar_space).
  destruct ws as [|w' ws]; [by apply splitBy_none|]. rewrite join_cons by done.
  assert (forall w t, Forall (fun d => isSpace d = false) w ->
    splitBy isSpace (w ++ 32 :: t) = w :: splitBy isSpace t) as Happ.
  { clear. intros w t. induction 1 as [|d w Hd _ IH]; [done|]. cbn. by rewrite Hd, IH. }
  cbn [app]. rewrite Happ by done. f_equal. by apply IH.
Qed.

Lemma spaced_chars ws : Forall clean ws -> Forall (fun c => cleanChar c \/ c = 32) (spaced ws).
Proof.
  intros H. apply join_Forall; [repeat constructor; by right|].
  eapply Forall_impl; [done|]. intros w [_ Hc]. eapply Forall_impl; [done|]. tauto.
Qed.

Lemma spaced_free c ws : Forall clean ws -> ~ cleanChar c -> c <> 32 -> free c (spaced ws).
Proof.
  intros H Hc H32. eapply Forall_impl; [by apply spaced_chars|]. cbn. intros d [Hd| ->]; congruence.
Qed.

Ltac not_clean := let H := fresh in intros H%cleanChar_code; vm_compute in H; intuition (congruence || lia).

Lemma spaced_ends ws :
  ws <> [] -> Forall clean ws -> exists x s y, spaced ws ++ [] = x :: s /\ isSpace x = false /\
    (exists s', spaced ws = s' ++ [y]) /\ isSpace y = false.
Proof.
  intros Hne H. unfold spaced. rewrite app_nil_r. induction H as [|w ws [Hw Hc] Hws IH]; [done|].
  assert (exists x t, w = x :: t /\ isSpace x = false) as (x & t & Ex & Hx).
  { destruct w as [|x t]; [done|]. exists x, t. split; [done|]. apply Forall_cons in Hc as [Hc _].
    by apply cleanChar_space. }
  destruct ws as [|w' ws].
  - assert (exists y t, w = t ++ [y] /\ isSpace y = false) as (y & t' & Ey & Hy).
    { destruct (exists_last Hw) as (t' & y & Ey). exists y, t'. split; [done|]. rewrite Ey in Hc.
      apply Forall_app in Hc as [_ Hc]. apply Forall_cons in Hc as [Hc _]. by apply cleanChar_space. }
    exists x, t, y. split_and!; [done|done|by exists t'|done].
  - rewrite join_cons by done. destruct (IH ltac:(done)) as (x' & s & y & E & _ & (s' & Es) & Hy).
    rewrite Ex. exists x, (t ++ [32] ++ join [32] (w' :: ws)), y.
    split_and!; [done|done| |done]. exists ((x :: t) ++ [32] ++ s'). rewrite Es. by rewrite <- !app_assoc.
Qed.

Lemma spaced_trim ws : ws <> [] -> Forall clean ws -> trimmed (spaced ws) = spaced ws.
Proof.
  intros Hne H. destruct (spaced_ends ws Hne H) as (x & s & y & E & Hx & (s' & E') & Hy).
  rewrite app_nil_r in E. rewrite E in E'. destruct s' as [|z s'].
  - injection E' as -> ->. rewrite E. unfold trimmed, dropWhileEnd. cbn. rewrite Hx. cbn. by rewrite Hx.
  - injection E' as -> ->. rewrite E. by apply trimmed_ends.
Qed.

(** Such a line reaches the tokenizer unchanged. *)
Lemma line_text_clean ws :
  ws <> [] -> Forall clean ws -> (count (ch "/") (spaced ws) <= 1)%nat ->
  ipListParseLineText (spaced ws) = Some (spaced ws).
Proof.
  intros Hne H Hs. unfold ipListParseLineText.
  rewrite indexOf_free by (apply spaced_free; [done|not_clean|done]).
  change (qs "//") with [ch "/"; ch "/"]. rewrite indexOfStr_double by done. rewrite spaced_trim by done. cbv zeta.
  destruct (spaced_ends ws Hne H) as (x & s & _ & E & _). rewrite app_nil_r in E.
  assert (isEmpty (spaced ws) = false) as -> by by rewrite E.
  assert (startsWithC (ch ";") (spaced ws) = false) as ->.
  { pose proof (spaced_free (ch ";") ws H ltac:(not_clean) ltac:(done)) as Hf. rewrite E in Hf |- *.
    apply Forall_cons in Hf as [Hf _]. by apply Z.eqb_neq. }
  rewrite (proj2 (free_contains (ch "-") _)) by (apply spaced_free; [done|not_clean|done]).
  rewrite (proj2 (free_contains 0x2013 _)) by (apply spaced_free; [done|not_clean|done]). done.
Qed.

Lemma contentLines_clean ws : ws <> [] -> Forall clean ws -> contentLines (spaced ws) = [spaced ws].
Proof.
  intros Hne H. unfold contentLines. destruct (spaced_ends ws Hne H) as (x & s & _ & E & _).
  rewrite app_nil_r in E. rewrite split_free by (apply spaced_free; [done|not_clean|done]).
  rewrite E. done.
Qed.

Lemma fields_clean ws :
  ws <> [] -> Forall clean ws ->
  existsb ipListParseIsSeparator (spaced ws) = false /\
  map ipListParseUnquote (ipListParseSplit (spaced ws) false) = ws.
Proof.
  intros Hne H. split.
  - apply not_true_is_false. intros Hs. apply existsb_exists in Hs as (c & Hin & Hc).
    pose proof (spaced_chars ws H) as Hch. rewrite Forall_forall in Hch.
    destruct (Hch c) as [Hcl| ->]; [by apply list_elem_of_In|by rewrite cleanChar_sep in Hc|done].
  - unfold ipListParseSplit. rewrite split_spaced by done.
    clear Hne. induction H as [|w ws Hw Hws IH]; [done|].
    destruct w; [by destruct Hw|]. cbn [List.filter map isEmpty negb] in *. rewrite unquote_clean by done. by rewrite IH.
Qed.

Lemma word_token f w : clean w -> omap (ipListParseToken f) (ipListParseSplit w false) =
  match ipListParseToken f w with Some t => [t] | None => [] end.
Proof.
  intros Hw. pose proof (split_spaced [w] ltac:(done) (Forall_cons_2 _ _ _ Hw (Forall_nil_2 _))) as E.
  unfold ipListParseSplit. cbn [spaced join] in E. rewrite E.
  destruct Hw as [Hw _]. by destruct w.
Qed.

Ltac kinds :=
  rewrite ?(bool_decide_eq_true_2 (KAddress = KAddress)), ?(bool_decide_eq_true_2 (KPort = KPort)),
    ?(bool_decide_eq_false_2 (KPort = KAddress)) by done.

Lemma single_address_line utf fold d s c q :
  utf s = s -> clean s -> (count (ch "/") s <= 1)%nat -> 0 <= d <= 65535 ->
  ipListParseAddressToken s = Some ([c], q) ->
  ParseIpListText utf fold s d = Result [Entry c (if q <=? 0 then d else q) 0] 0 0 [].
Proof.
  intros Hu Hs Hc Hd Ht. unfold ParseIpListText. rewrite Hu.
  assert (Forall clean [s]) as Hf by by apply Forall_singleton.
  change s with (spaced [s]) in Hc.
  assert (startsWithC 0xFEFF s = false) as ->.
  { destruct Hs as [Hn Hs]. destruct s as [|x s]; [done|]. apply Forall_cons in Hs as [Hx%cleanChar_code _].
    apply Z.eqb_neq. lia. }
  replace (contentLines s) with [s] by (symmetry; by apply (contentLines_clean [s])).
  cbn [fold_left]. unfold ipListParseLine.
  replace (ipListParseLineText s) with (Some s) by (symmetry; by apply (line_text_clean [s])).
  destruct (fields_clean [s] ltac:(done) Hf) as [Esep Ef]. cbn [spaced join] in Esep, Ef. rewrite Esep. cbv zeta.
  rewrite Ef. unfold ipListParseTokens. cbn [imap]. rewrite word_token by done.
  unfold ipListParseToken. rewrite unquote_clean, Ht by done.
  assert (isEmpty s = false) as -> by (destruct Hs as [Hs _]; by destruct s).
  cbn. unfold ipListParseTokenPort. cbn [tport tabularFile initialState setFlags].
  assert (clampDefaultPort d = d) as ->.
  { unfold clampDefaultPort. destruct (Z.ltb_spec d 0); [lia|]. destruct (Z.ltb_spec 65535 d); [lia|done]. }
  kinds. destruct (q <? 0); cbn; unfold add; cbn [fold_left]; unfold addCidr; cbn [seen setFlags initialState];
    by rewrite (bool_decide_eq_false_2 (_ ∈ _)) by apply not_elem_of_empty.
Qed.

Lemma address_port_line utf fold s w c q :
  utf (spaced [s; w]) = spaced [s; w] -> clean s -> clean w ->
  (count (ch "/") (spaced [s; w]) <= 1)%nat -> 0 < q ->
  ipListParseAddressToken s = Some ([c], -1) ->
  ipListParseAddressToken w = None -> ipListParsePort w = Some q ->
  ParseIpListText utf fold (spaced [s; w]) 0 = Result [Entry c q 0] 0 0 [].
Proof.
  intros Hu Hs Hw Hc Hq Ht Hn Hp. unfold ParseIpListText. rewrite Hu.
  assert (Forall clean [s; w]) as Hf by (constructor; [done|by apply Forall_singleton]).
  assert (startsWithC 0xFEFF (spaced [s; w]) = false) as ->.
  { destruct Hs as [Hn' Hs]. destruct s as [|x s]; [done|]. apply Forall_cons in Hs as [Hx%cleanChar_code _].
    apply Z.eqb_neq. lia. }
  rewrite contentLines_clean by done. cbn [fold_left]. unfold ipListParseLine.
  rewrite line_text_clean by done.
  destruct (fields_clean [s; w] ltac:(done) Hf) as [Esep Ef]. rewrite Esep. cbv zeta.
  rewrite Ef. unfold ipListParseTokens. cbn [imap]. unfold compose. rewrite !word_token by done.
  unfold ipListParseToken. rewrite !unquote_clean, Ht, Hn, Hp by done.
  assert (isEmpty s = false) as -> by (destruct Hs as [Hs _]; by destruct s).
  assert (isEmpty w = false) as -> by (destruct Hw as [Hw _]; by destruct w).
  cbn. kinds. cbn. kinds. unfold add. destruct (Z.leb_spec q 0); [lia|].
  cbn [fold_left]. unfold addCidr; cbn [seen setFlags initialState].
  by rewrite (bool_decide_eq_false_2 (_ ∈ _)) by apply not_elem_of_empty.
Qed.

(** ** The texts of entries *)

Lemma cidr_clean a p : wf_addr a -> 0 < p -> clean (ipListParseCidr a p).
Proof.
  intros Hwf Hp. split.
  - assert (ipListParseFormat a <> []) as Hne.
    { intros E. pose proof (address_text_roundtrip a Hwf) as H. by rewrite E in H. }
    unfold ipListParseCidr. case_match; [done|]. by destruct (ipListParseFormat a).
  - eapply Forall_impl; [by apply cidr_chars|]. unfold cleanChar. cbn. tauto.
Qed.

Lemma format_clean a : wf_addr a -> Forall cleanChar (ipListParseFormat a).
Proof.
  intros Hwf. eapply Forall_impl; [by apply format_chars|]. unfold cleanChar, textChar. cbn. tauto.
Qed.

Lemma number_clean n : 0 <= n -> clean (number n).
Proof.
  intros Hn. rewrite number_nonneg by done. split; [apply unumber_nonempty|].
  eapply Forall_impl; [apply unumber10_chars|]. unfold cleanChar, textChar, hexChar. cbn. tauto.
Qed.

Lemma number_free c n : 0 <= n -> ~ 48 <= c <= 57 -> free c (number n).
Proof. intros Hn Hc. rewrite number_nonneg by done. apply digits_free; [apply unumber10_chars|done]. Qed.

Ltac not_digit := let H := fresh in vm_compute; intros [H ?]; congruence.

Lemma v6_colons_two h l : (2 <= count (ch ":") (ipListParseFormat (Addr true h l)))%nat.
Proof.
  pose proof (format_v6 h l) as H. cbv zeta in H.
  destruct (ipListParseBestRun _ _ _ _) as [[s|] n]; rewrite H.
  - rewrite !count_app. change (count (ch ":") (qs "::")) with 2%nat. lia.
  - change (ipListParseGroups _) with (half_groups h ++ half_groups l).
    unfold half_groups. cbn [map app]. rewrite !colons_cons2, !count_app.
    change (count (ch ":") [58]) with 1%nat. lia.
Qed.

Lemma v4_colons a : wf_addr a -> v6 a = false -> free (ch ":") (ipListParseFormat a).
Proof.
  destruct a as [f h l]; cbn [v6]; intros Hwf ->. destruct Hwf as [_ Hl H4]. cbn [hi lo v6] in *.
  destruct (H4 eq_refl) as [-> ?]. apply v4_text_free; [lia|not_digit|done].
Qed.

Lemma slash_count a p : wf_addr a -> 0 < p -> (count (ch "/") (ipListParseCidr a p) <= 1)%nat.
Proof.
  intros Hwf Hp. assert (free (ch "/") (ipListParseFormat a)) as Hs
    by (apply format_free; [done|not_hex|done|done]).
  unfold ipListParseCidr. case_match; [rewrite count_free by done; lia|].
  rewrite !count_app, (count_free _ (ipListParseFormat a)), (count_free _ (number p)); [done| |done].
  apply number_free; [lia|not_digit].
Qed.

Lemma cidr_colons a p :
  0 < p -> count (ch ":") (ipListParseCidr a p) = count (ch ":") (ipListParseFormat a).
Proof.
  intros Hp. unfold ipListParseCidr. case_match; [done|].
  rewrite !count_app, (count_free _ (number p)) by (apply number_free; [lia|not_digit]).
  change (count (ch ":") [ch "/"]) with 0%nat. lia.
Qed.

(** A network's text is one address token. *)
Lemma cidr_token a p :
  canonical a p -> ipListParseAddressToken (ipListParseCidr a p) = Some ([ipListParseCidr a p], -1).
Proof.
  intros Hc. pose proof Hc as [Hwf Hp _ _]. destruct (cidr_clean a p Hwf ltac:(lia)) as [Hne Hcl].
  pose proof (cidr_chars a p Hwf ltac:(lia)) as Hch.
  unfold ipListParseAddressToken. destruct (ipListParseCidr a p) as [|x s] eqn:E; [done|]. cbn [isEmpty].
  rewrite <- E in *. rewrite (proj2 (free_contains (ch "-") _)).
  2: { eapply Forall_impl; [exact Hch|]. cbn. intros c Hc'. by apply textChar_cases. }
  unfold ipListParseTokenParts.
  assert (startsWithC (ch "[") (ipListParseCidr a p) = false) as ->.
  { rewrite E in *. apply Forall_cons in Hch as [Hx _]. apply Z.eqb_neq. apply textChar_cases in Hx. tauto. }
  assert ((count (ch ":") (ipListParseCidr a p) =? 1)%nat = false) as ->.
  { rewrite cidr_colons by lia. apply Nat.eqb_neq. destruct (v6 a) eqn:E6.
    - destruct a as [f h l]. cbn [v6] in E6. subst f. pose proof (v6_colons_two h l). lia.
    - by rewrite count_free by (by apply v4_colons). }
  by rewrite (proj1 (network_text_roundtrip a p) Hc).
Qed.

Lemma port_token n : 0 <= n -> ipListParseAddressToken (number n) = None.
Proof.
  intros Hn. unfold ipListParseAddressToken. case_match; [done|].
  rewrite (proj2 (free_contains (ch "-") _)) by (apply number_free; [done|not_digit]).
  unfold ipListParseTokenParts.
  assert (startsWithC (ch "[") (number n) = false) as ->.
  { pose proof (number_free (ch "[") n Hn ltac:(not_digit)) as Hf. destruct (number n); [done|].
    apply Forall_cons in Hf as [Hf _]. by apply Z.eqb_neq. }
  rewrite count_free by (apply number_free; [done|not_digit]). cbn [Nat.eqb].
  unfold ipListParseNetwork, ipListParseNetworkParts.
  destruct (number_clean n Hn) as [_ Hcl].
  rewrite trimmed_noSpace by (exact (Forall_impl _ _ _ Hcl cleanChar_space)).
  assert (startsWithC (ch "[") (number n) = false) as ->.
  { pose proof (number_free (ch "[") n Hn ltac:(not_digit)) as Hf. destruct (number n); [done|].
    apply Forall_cons in Hf as [Hf _]. by apply Z.eqb_neq. }
  rewrite indexOf_free by (apply number_free; [done|not_digit]). cbn [isEmpty negb].
  unfold ipListParseAddress. rewrite (proj2 (free_contains (ch ":") _)) by (apply number_free; [done|not_digit]).
  unfold ipListParseV4. rewrite split_free by (apply number_free; [done|not_digit]).
  destruct (ipListParseV4Loop [number n] 0 0) as [[v k]|] eqn:Ev; [|done].
  apply v4_loop_parts in Ev. by subst k.
Qed.

Lemma starts_free c s : free c s -> startsWithC c s = false.
Proof. destruct 1 as [|x s Hx _]; [done|]. by apply Z.eqb_neq. Qed.

(** Brackets around an address do not change its reading. *)
Lemma bracket_network t :
  noSpace t -> free (ch "[") t -> free (ch "]") t -> free (ch "/") t ->
  ipListParseNetwork (ch "[" :: t ++ [ch "]"]) = ipListParseNetwork t.
Proof.
  intros Hns Hopen Hclose Hslash. unfold ipListParseNetwork.
  assert (ipListParseNetworkParts (ch "[" :: t ++ [ch "]"]) = Some (t, None)) as ->.
  { unfold ipListParseNetworkParts. rewrite trimmed_ends by done. cbn [startsWithC]. rewrite Z.eqb_refl.
    change (ch "[" :: t ++ [ch "]"]) with ((ch "[" :: t) ++ ch "]" :: []).
    rewrite indexOf_app by (constructor; done).
    assert (drop (length (ch "[" :: t) + 1) ((ch "[" :: t) ++ [ch "]"]) = []) as ->
      by (rewrite drop_app_add; done).
    assert (take (length (ch "[" :: t) - 1) (drop 1 ((ch "[" :: t) ++ [ch "]"])) = t) as ->.
    { cbn [length app drop Nat.sub]. rewrite Nat.sub_0_r, drop_0. apply take_app_length. }
    cbn [isEmpty negb andb]. by rewrite indexOf_free. }
  assert (ipListParseNetworkParts t = Some (t, None)) as ->; [|done].
  unfold ipListParseNetworkParts. rewrite trimmed_noSpace, starts_free by done. by rewrite indexOf_free.
Qed.

Lemma bracket_token t n a p :
  noSpace t -> free (ch "[") t -> free (ch "]") t -> free (ch "/") t -> free (ch "-") t ->
  0 < n <= 65535 -> ipListParseNetwork t = Some (a, p) ->
  ipListParseAddressToken ([ch "["] ++ t ++ qs "]:" ++ number n) = Some ([ipListParseCidr a p], n).
Proof.
  intros Hns Hopen Hclose Hslash Hdash Hn Hnet.
  assert (free (ch "-") (number n)) as Hdn by (apply number_free; [lia|not_digit]).
  unfold ipListParseAddressToken. rewrite (proj2 (free_contains (ch "-") _)).
  2: { rewrite !free_app. split_and!; [by repeat constructor|done|by repeat constructor|done]. }
  change (isEmpty ([ch "["] ++ t ++ qs "]:" ++ number n)) with false. cbn iota.
  change ([ch "["] ++ t ++ qs "]:" ++ number n) with ((ch "[" :: t) ++ ch "]" :: ([ch ":"] ++ number n)).
  unfold ipListParseTokenParts.
  change (startsWithC (ch "[") ((ch "[" :: t) ++ ch "]" :: ([ch ":"] ++ number n))) with (ch "[" =? ch "[").
  rewrite Z.eqb_refl, indexOf_app by (constructor; done).
  assert (drop (length (ch "[" :: t) + 1) ((ch "[" :: t) ++ ch "]" :: ([ch ":"] ++ number n))
          = [ch ":"] ++ number n) as -> by (rewrite drop_app_add; cbn [drop]; by rewrite drop_0).
  change (startsWithC (ch ":") ([ch ":"] ++ number n)) with (ch ":" =? ch ":"). rewrite Z.eqb_refl.
  change (drop 1 ([ch ":"] ++ number n)) with (drop 0 (number n)). rewrite drop_0, port_print by lia.
  assert (take (length (ch "[" :: t) + 1) ((ch "[" :: t) ++ ch "]" :: ([ch ":"] ++ number n))
          = ch "[" :: t ++ [ch "]"]) as -> by (rewrite take_app_add; done).
  by rewrite bracket_network, Hnet.
Qed.

Lemma colon_token t n a p :
  t <> [] -> free (ch "[") t -> free (ch ":") t -> free (ch "-") t ->
  0 < n <= 65535 -> ipListParseNetwork t = Some (a, p) ->
  ipListParseAddressToken (t ++ [ch ":"] ++ number n) = Some ([ipListParseCidr a p], n).
Proof.
  intros Hne Hopen Hcol Hdash Hn Hnet.
  assert (free (ch "-") (number n)) as Hdn by (apply number_free; [lia|not_digit]).
  assert (free (ch "[") (number n)) as Hon by (apply number_free; [lia|not_digit]).
  assert (free (ch ":") (number n)) as Hcn by (apply number_free; [lia|not_digit]).
  unfold ipListParseAddressToken.
  assert (isEmpty (t ++ [ch ":"] ++ number n) = false) as -> by by destruct t.
  rewrite (proj2 (free_contains (ch "-") _)).
  2: { rewrite !free_app. split_and!; [done|by repeat constructor|done]. }
  unfold ipListParseTokenParts. rewrite starts_free.
  2: { rewrite !free_app. split_and!; [done|by repeat constructor|done]. }
  rewrite !count_app, (count_free _ t), (count_free _ (number n)) by done.
  change ((0 + (count (ch ":") [ch ":"] + 0) =? 1)%nat) with true. cbn iota.
  change ([ch ":"] ++ number n) with (ch ":" :: number n). rewrite indexOf_app by done.
  assert (drop (length t + 1) (t ++ ch ":" :: number n) = number n) as ->
    by (rewrite drop_app_add; cbn [drop]; by rewrite drop_0).
  rewrite port_print, take_app_length by lia. by rewrite Hnet.
Qed.

(** A host with its port is one address token that carries the port. *)
Lemma target_token a p n :
  canonical a p -> p = ipListParseBits a -> 0 < n <= 65535 ->
  ipListParseAddressToken (FormatTarget (ipListParseCidr a p) n) = Some ([ipListParseCidr a p], n).
Proof.
  intros Hc Hp Hn. pose proof Hc as [Hwf Hpr _ _].
  pose proof (cidr_clean a p Hwf ltac:(lia)) as [Hne Hcl].
  pose proof (proj1 (network_text_roundtrip a p) Hc) as Hnet.
  assert (forall c, ~ hexChar c -> c <> ch "." -> c <> ch ":" -> free c (ipListParseCidr a p)) as Hfree.
  { intros c H1 H2 H3. unfold ipListParseCidr.
    destruct (Z.leb_spec (ipListParseBits a) p); [by apply format_free|lia]. }
  unfold FormatTarget. destruct (Z.leb_spec n 0); [lia|].
  destruct (contains (ch ":") (ipListParseCidr a p)) eqn:Ecol.
  - apply bracket_token; try (apply Hfree; [not_hex|done|done]); try done.
    exact (Forall_impl _ _ _ Hcl cleanChar_space).
  - apply free_contains in Ecol. apply colon_token; try (apply Hfree; [not_hex|done|done]); done.
Qed.

Lemma number_inj m n : 0 <= m <= 65535 -> 0 <= n <= 65535 -> number m = number n -> m = n.
Proof. intros Hm Hn E. pose proof (port_print m Hm) as H. rewrite E, port_print in H; congruence. Qed.

Lemma cidr_host a p :
  canonical a p ->
  IsHostCidr (ipListParseCidr a p) = (p =? ipListParseBits a) /\
  (p = ipListParseBits a -> indexOf (ch "/") (ipListParseCidr a p) = None).
Proof.
  intros [Hwf Hp _ _]. destruct (cidr_clean a p Hwf ltac:(lia)) as [Hne _].
  assert (free (ch "/") (ipListParseFormat a)) as Hslash by (apply format_free; [done|not_hex|done|done]).
  unfold IsHostCidr. assert (isEmpty (ipListParseCidr a p) = false) as -> by by destruct (ipListParseCidr a p).
  unfold ipListParseCidr. destruct (Z.leb_spec (ipListParseBits a) p).
  - rewrite indexOf_free by done. destruct (Z.eqb_spec p (ipListParseBits a)); [done|lia].
  - destruct (Z.eqb_spec p (ipListParseBits a)); [lia|]. split; [|done].
    cbn [app]. rewrite indexOf_app, take_app_length by done.
    assert (drop (length (ipListParseFormat a) + 1) (ipListParseFormat a ++ ch "/" :: number p) = number p) as ->
      by (rewrite drop_app_add; cbn [drop]; by rewrite drop_0).
    apply bool_decide_eq_false_2. destruct (bits_cases a) as [E|E]; rewrite E in *.
    + assert (v6 a = false) as E6 by (unfold ipListParseBits in E; by destruct (v6 a)).
      rewrite (proj2 (free_contains _ _)) by (by apply v4_colons).
      change (qs "32") with (number 32). intros Eq%number_inj; lia.
    + assert (v6 a = true) as E6 by (unfold ipListParseBits in E; by destruct (v6 a)).
      destruct a as [f h l]. cbn in E6. subst f. rewrite v6_text_colon.
      change (qs "128") with (number 128). intros Eq%number_inj; lia.
Qed.

Section RoundTrip.
(** Decoding UTF-8 leaves ASCII text as it is. *)
Context (fromUtf8 : list Z -> qstring) (foldCase : Z -> Z).
Hypothesis fromUtf8_ascii : forall s, Forall (fun c => 0 <= c < 128) s -> fromUtf8 s = s.

Lemma utf_clean s : Forall (fun c => cleanChar c \/ c = 32) s -> fromUtf8 s = s.
Proof.
  intros H. apply fromUtf8_ascii. eapply Forall_impl; [exact H|]. cbn. intros c [Hc%cleanChar_code| ->]; lia.
Qed.

Lemma target_clean t n : Forall cleanChar t -> t <> [] -> 0 < n -> clean (FormatTarget t n).
Proof.
  intros Ht Hne Hn. destruct (number_clean n ltac:(lia)) as [_ Hnc].
  assert (forall c, In c [ch "["; ch "]"; ch ":"] -> cleanChar c) as Hb.
  { intros c Hc. unfold cleanChar, textChar. cbn in Hc. intuition congruence. }
  unfold FormatTarget. destruct (Z.leb_spec n 0); [lia|]. case_match; (split; [by destruct t|]).
  - rewrite !Forall_app. split_and!; [|done| |done].
    + apply Forall_singleton, Hb. cbn. tauto.
    + apply Forall_cons. split; [apply Hb; cbn; tauto|]. apply Forall_singleton, Hb. cbn. tauto.
  - rewrite !Forall_app. split_and!; [done| |done]. apply Forall_singleton, Hb. cbn. tauto.
Qed.

Lemma target_slashes t n : (0 < n) -> count (ch "/") (FormatTarget t n) = count (ch "/") t.
Proof.
  intros Hn. unfold FormatTarget. case_match; [done|].
  assert (count (ch "/") (number n) = O) as E by (apply count_free, number_free; [lia|not_digit]).
  case_match; rewrite !count_app, E.
  - change (count (ch "/") [ch "["]) with O. change (count (ch "/") (qs "]:")) with O. lia.
  - change (count (ch "/") [ch ":"]) with O. lia.
Qed.

(** Printing an entry and parsing the line gives the entry back, as the
    header of [FormatEntry] demands, for every entry whose text is a canonical
    network: hosts, hosts with a port (in brackets for IPv6), networks, and
    networks with a port. Nothing is rejected and nothing counted twice. *)
Theorem format_entry_roundtrip (a : IpListParseAddr) (p n : Z)
    (Hc : canonical a p) (Hn : 0 <= n <= 65535) :
  let e := Entry (ipListParseCidr a p) n 0 in
  ParseIpListText fromUtf8 foldCase (FormatEntry e) 0 = Result [e] 0 0 [].
Proof.
  intros e. pose proof Hc as [Hwf Hp _ _]. destruct (cidr_clean a p Hwf ltac:(lia)) as [Hne Hcl].
  pose proof (slash_count a p Hwf ltac:(lia)) as Hsl.
  destruct (cidr_host a p Hc) as [Hhost Hidx].
  assert (forall s, clean s -> fromUtf8 s = s) as Hutf.
  { intros s [_ Hs]. apply utf_clean. eapply Forall_impl; [exact Hs|]. tauto. }
  assert (ParseIpListText fromUtf8 foldCase (ipListParseCidr a p) 0
          = Result [Entry (ipListParseCidr a p) 0 0] 0 0 []) as Hplain.
  { rewrite (single_address_line fromUtf8 foldCase 0 _ (ipListParseCidr a p) (-1)); [done|..].
    - by apply Hutf.
    - done.
    - done.
    - lia.
    - by apply cidr_token. }
  unfold FormatEntry, e. cbn [cidr port]. rewrite Hhost.
  destruct (Z.eqb_spec p (ipListParseBits a)) as [E|E].
  - rewrite Hidx by done. destruct (Z.leb_spec n 0).
    + replace n with 0 by lia. exact Hplain.
    + assert (clean (FormatTarget (ipListParseCidr a p) n)) as Ht by (apply target_clean; [done|done|lia]).
      rewrite (single_address_line fromUtf8 foldCase 0 _ (ipListParseCidr a p) n).
      * destruct (Z.leb_spec n 0); [lia|done].
      * by apply Hutf.
      * done.
      * by rewrite target_slashes.
      * lia.
      * apply target_token; [done..|lia].
  - destruct (Z.leb_spec n 0).
    + replace n with 0 by lia. exact Hplain.
    + pose proof (number_clean n ltac:(lia)) as Hnc.
      apply (address_port_line fromUtf8 foldCase (ipListParseCidr a p) (number n)).
      * apply utf_clean, spaced_chars. constructor; [done|by apply Forall_singleton].
      * done.
      * done.
      * cbn [spaced join]. rewrite !count_app, (count_free _ (number n)) by (apply number_free; [lia|not_digit]).
        change (count (ch "/") [32]) with O. lia.
      * lia.
      * by apply cidr_token.
      * apply port_token. lia.
      * apply port_print. lia.
Qed.
End RoundTrip.

Lemma format_entry_roundtrip_witness :
  ParseIpListText id id (FormatEntry (Entry (ipListParseCidr (Addr false 0 0x0a000000) 8) 443 0)) 0 =
    Result [Entry (ipListParseCidr (Addr false 0 0x0a000000) 8) 443 0] 0 0 [].
Proof.
  apply (format_entry_roundtrip id id).
  - reflexivity.
  - split; [split; cbn; lia|cbn; lia|exists 10; reflexivity|reflexivity].
  - lia.
Defined.

(** A list file whose range crosses the IPv4-mapped block yields a network
    that does not survive the round trip: the cover emits it as an IPv6
    network, and reading it back turns it into the whole IPv4 space, which the
    parser refuses. *)
Theorem mapped_block_lost :
  map cidr (entries (ParseIpListText id id (qs "::fffe:ffff:ffff-::1:0:0:0") 0))
    = [qs "::fffe:ffff:ffff"; qs "::ffff:0:0/96"; qs "::1:0:0:0"] /\
  entries (ParseIpListText id id (FormatEntry (Entry (qs "::ffff:0:0/96") 0 0)) 0) = [].
Proof. split; vm_compute; reflexivity. Qed.
