(* ===== verification/OtpBase32.v ===== *)
(** * Base32 secrets of one-time passwords (src/src/global/OTP.cpp)

    [Base32Decode], [Base32Encode] and [NormalizeSecret] with their 32-bit bit
    buffers, and RFC 4648 as a function on bit strings that they implement. *)

From Stdlib Require Import Ascii String.
From S2P Require Import Prelude QtText.

Local Open Scope Z_scope.
Local Open Scope throne_scope.

(** ** The code *)

Definition BASE32_ALPHABET : qstring := qs "ABCDEFGHIJKLMNOPQRSTUVWXYZ234567".

(** QChar::toLatin1: 0 for what Latin-1 does not have. *)
Definition toLatin1 (c : Z) : Z := if c <=? 0xff then c else 0.

(** The characters of a secret that carry no value. *)
Definition base32Skipped (c : Z) : bool :=
  (c =? ch " ") || (c =? ch "-") || (c =? ch "_") || (c =? 9) || (c =? 13) || (c =? 10) || (c =? ch "=").

Definition base32Value (c : Z) : option Z :=
  if (ch "A" <=? c) && (c <=? ch "Z") then Some (c - ch "A")
  else if (ch "a" <=? c) && (c <=? ch "z") then Some (c - ch "a")
  else if (ch "2" <=? c) && (c <=? ch "7") then Some (c - ch "2" + 26)
  else None.

(** The loop over the text: [None] when a character is not base32. *)
Fixpoint Base32DecodeLoop (input : qstring) (buffer bitsLeft : Z) (out : list Z) : option (list Z) :=
  match input with
  | [] => Some out
  | qc :: input' =>
      let c := toLatin1 qc in
      if base32Skipped c then Base32DecodeLoop input' buffer bitsLeft out
      else match base32Value c with
           | None => None
           | Some value =>
               let buffer := u32 (u32 (buffer <<< 5) .| value) in
               let bitsLeft := bitsLeft + 5 in
               if 8 <=? bitsLeft then
                 let bitsLeft := bitsLeft - 8 in
                 Base32DecodeLoop input' buffer bitsLeft (out ++ [(buffer >>> bitsLeft) .& 0xff])
               else Base32DecodeLoop input' buffer bitsLeft out
           end
  end.

(** [*ok] is whether the result is [Some]; the returned bytes are empty when it is not. *)
Definition Base32Decode (input : qstring) : option (list Z) := Base32DecodeLoop input 0 0 [].

Definition base32Letter (i : Z) : Z := nth (Z.to_nat i) BASE32_ALPHABET 0.

(** The inner loop: at most two letters per byte, as there are at most 12 bits. *)
Fixpoint Base32EncodeLetters (fuel : nat) (buffer bitsLeft : Z) (out : qstring) : Z * qstring :=
  match fuel with
  | O => (bitsLeft, out)
  | S fuel' =>
      if 5 <=? bitsLeft then
        let bitsLeft := bitsLeft - 5 in
        Base32EncodeLetters fuel' buffer bitsLeft (out ++ [base32Letter ((buffer >>> bitsLeft) .& 0x1f)])
      else (bitsLeft, out)
  end.

Fixpoint Base32EncodeLoop (input : list Z) (buffer bitsLeft : Z) (out : qstring) : qstring :=
  match input with
  | [] => if 0 <? bitsLeft
          then out ++ [base32Letter (u32 (buffer <<< (5 - bitsLeft)) .& 0x1f)]
          else out
  | c :: input' =>
      let buffer := u32 (u32 (buffer <<< 8) .| u8 c) in
      let '(bitsLeft, out) := Base32EncodeLetters 2 buffer (bitsLeft + 8) out in
      Base32EncodeLoop input' buffer bitsLeft out
  end.

Definition Base32Encode (input : list Z) : qstring := Base32EncodeLoop input 0 0 [].

Definition NormalizeSecret (secret : qstring) : qstring :=
  match Base32Decode secret with
  | Some (b :: bs) => Base32Encode (b :: bs)
  | _ => []
  end.

(** ** RFC 4648 on bit strings *)

(** The [w] low bits of [x], most significant first, and the number bits write. *)
Fixpoint toBits (w : nat) (x : Z) : list bool :=
  match w with
  | O => []
  | S w' => Z.testbit x (Z.of_nat w') :: toBits w' x
  end.
Definition ofBits (bs : list bool) : Z := fold_left (fun n (b : bool) => 2 * n + Z.b2z b) bs 0.

Definition bitsOf (w : nat) (xs : list Z) : list bool := concat (map (toBits w) xs).

(** Five bits a letter; the last letter is filled up with zeros. *)
Fixpoint rfcLetters (bs : list bool) : qstring :=
  match bs with
  | [] => []
  | b1 :: b2 :: b3 :: b4 :: b5 :: bs' => base32Letter (ofBits [b1; b2; b3; b4; b5]) :: rfcLetters bs'
  | _ => [base32Letter (ofBits (take 5 (bs ++ [false; false; false; false])))]
  end.

(** Eight bits a byte; an incomplete byte is dropped. *)
Fixpoint rfcBytes (bs : list bool) : list Z :=
  match bs with
  | b1 :: b2 :: b3 :: b4 :: b5 :: b6 :: b7 :: b8 :: bs' =>
      ofBits [b1; b2; b3; b4; b5; b6; b7; b8] :: rfcBytes bs'
  | _ => []
  end.

(** The values of a secret's letters. *)
Fixpoint base32Values (s : qstring) : option (list Z) :=
  match s with
  | [] => Some []
  | qc :: s' =>
      if base32Skipped (toLatin1 qc) then base32Values s'
      else v ← base32Value (toLatin1 qc); vs ← base32Values s'; Some (v :: vs)
  end.

(** ** Bits *)

Lemma ofBits_app a b : ofBits (a ++ b) = ofBits a * 2 ^ Z.of_nat (length b) + ofBits b.
Proof.
  unfold ofBits. rewrite fold_left_app.
  assert (forall n, fold_left (fun n (b : bool) => 2 * n + Z.b2z b) b n =
    n * 2 ^ Z.of_nat (length b) + fold_left (fun n (b : bool) => 2 * n + Z.b2z b) b 0) as H; [|apply H].
  induction b as [|x b IH]; intros n; cbn [fold_left length]; [lia|].
  rewrite IH. rewrite (IH (2 * 0 + _)). rewrite Nat2Z.inj_succ, Z.pow_succ_r by lia. lia.
Qed.

Lemma ofBits_range bs : 0 <= ofBits bs < 2 ^ Z.of_nat (length bs).
Proof.
  induction bs as [|b bs IH] using rev_ind; [cbn; lia|].
  rewrite ofBits_app, length_app. cbn [length].
  rewrite Nat2Z.inj_add, Z.pow_add_r by lia. destruct b; cbn; lia.
Qed.

Lemma toBits_length w x : length (toBits w x) = w.
Proof. induction w as [|w IH]; cbn; [done|by rewrite IH]. Qed.

Lemma ofBits_toBits w x : ofBits (toBits w x) = x mod 2 ^ Z.of_nat w.
Proof.
  induction w as [|w IH]; cbn [toBits]; [by rewrite Z.mod_1_r|].
  change (?b :: ?l) with ([b] ++ l). rewrite ofBits_app, toBits_length, IH.
  rewrite Nat2Z.inj_succ, Z.pow_succ_r by lia.
  rewrite (Z.mul_comm 2 (2 ^ Z.of_nat w)), Z.rem_mul_r by lia.
  replace (ofBits [Z.testbit x (Z.of_nat w)]) with (Z.b2z (Z.testbit x (Z.of_nat w))) by (by destruct (Z.testbit _ _)).
  rewrite Z.testbit_spec' by lia. lia.
Qed.

Lemma toBits_ofBits bs : toBits (length bs) (ofBits bs) = bs.
Proof.
  assert (forall l x, toBits (length l) (x * 2 ^ Z.of_nat (length l) + ofBits l) = l) as H.
  { induction l as [|b l IH]; intros x; cbn [toBits length]; [done|].
    change (b :: l) with ([b] ++ l). rewrite ofBits_app.
    replace (ofBits [b]) with (Z.b2z b) by (by destruct b).
    rewrite Nat2Z.inj_succ, Z.pow_succ_r by lia.
    replace (x * (2 * 2 ^ Z.of_nat (length l)) + (Z.b2z b * 2 ^ Z.of_nat (length l) + ofBits l))
      with ((2 * x + Z.b2z b) * 2 ^ Z.of_nat (length l) + ofBits l) by lia.
    rewrite IH. cbn [app]. f_equal.
    rewrite Z.testbit_eqb, Z.div_add_l, Z.div_small, Z.add_0_r by (try apply ofBits_range; lia).
    rewrite Z.mul_comm, Z.add_comm, Z.mod_add by lia. by destruct b. }
  specialize (H bs 0). by rewrite Z.mul_0_l, Z.add_0_l in H.
Qed.

Lemma ofBits_inj a b : length a = length b -> ofBits a = ofBits b -> a = b.
Proof. intros Hl Ho. by rewrite <- (toBits_ofBits a), Hl, Ho, toBits_ofBits. Qed.

(** A buffer holds the bits [R] when its low bits are those of [R]. *)
Definition holds (buffer : Z) (R : list bool) : Prop :=
  buffer mod 2 ^ Z.of_nat (length R) = ofBits R.

Lemma holds_push buffer R (w : nat) v :
  holds buffer R -> 0 <= v < 2 ^ Z.of_nat w -> (length R + w <= 32)%nat ->
  holds (u32 (u32 (buffer <<< Z.of_nat w) .| v)) (R ++ toBits w v).
Proof.
  unfold holds. intros H Hv Hl.
  rewrite length_app, toBits_length, ofBits_app, toBits_length, ofBits_toBits, (Z.mod_small v) by lia.
  rewrite Nat2Z.inj_add. set (n := Z.of_nat (length R)) in *. set (m := Z.of_nat w) in *.
  assert (forall x, x mod 2 ^ 32 mod 2 ^ (n + m) = x mod 2 ^ (n + m)) as Hmod.
  { intros x. replace (2 ^ 32) with (2 ^ (n + m) * 2 ^ (32 - (n + m))) by (rewrite <- Z.pow_add_r by lia; f_equal; lia).
    rewrite Z.rem_mul_r by lia. by rewrite Z.mul_comm, Z.mod_add, Z.mod_mod by lia. }
  unfold u32. rewrite Hmod.
  rewrite <- (Z.land_ones (_ .| v) (n + m)) by lia. rewrite Z.land_lor_distr_l, !Z.land_ones by lia.
  rewrite Hmod. rewrite (Z.mod_small v) by (rewrite Z.pow_add_r by lia; nia).
  rewrite Z.shiftl_mul_pow2, Z.pow_add_r, Z.mul_mod_distr_r, H by lia.
  rewrite <- Z.shiftl_mul_pow2 by lia. rewrite lor_shiftl_add by lia. by rewrite Z.shiftl_mul_pow2 by lia.
Qed.

Lemma div_mod_parts P q r a s : 0 <= a < P -> 0 <= s < P -> a + P * q = r * P + s -> q = r /\ a = s.
Proof. intros Ha Hs E. assert (q = r) by nia. subst. split; [done|lia]. Qed.

Lemma holds_parts buffer R S :
  holds buffer (R ++ S) ->
  (buffer / 2 ^ Z.of_nat (length S)) mod 2 ^ Z.of_nat (length R) = ofBits R /\ holds buffer S.
Proof.
  unfold holds. rewrite length_app, ofBits_app, Nat2Z.inj_add. intros H.
  rewrite Z.pow_add_r, Z.mul_comm, Z.rem_mul_r in H by lia.
  apply div_mod_parts in H; [done|by apply Z.mod_pos_bound; lia|apply ofBits_range].
Qed.

Lemma holds_top buffer R S :
  holds buffer (R ++ S) -> (buffer >>> Z.of_nat (length S)) .& (2 ^ Z.of_nat (length R) - 1) = ofBits R.
Proof.
  intros H%holds_parts. rewrite Z.sub_1_r, <- Z.ones_equiv, Z.land_ones, Z.shiftr_div_pow2 by lia. apply H.
Qed.

Lemma holds_low buffer R S : holds buffer (R ++ S) -> holds buffer S.
Proof. intros H%holds_parts. apply H. Qed.

(** ** The decoder implements the specification *)

Lemma list_split_at {A} (n : nat) (l : list A) :
  (n <= length l)%nat -> exists a b, l = a ++ b /\ length a = n.
Proof.
  intros H. exists (take n l), (drop n l). rewrite take_drop, length_take. split; [done|lia].
Qed.

Lemma rfcBytes_step R S : length R = 8%nat -> rfcBytes (R ++ S) = ofBits R :: rfcBytes S.
Proof. intros H. do 9 (destruct R as [|? R]; try discriminate H). reflexivity. Qed.

Lemma rfcBytes_short R : (length R < 8)%nat -> rfcBytes R = [].
Proof. intros H. do 8 (destruct R as [|? R]; [reflexivity|]). cbn in H. lia. Qed.

Lemma rfcLetters_step R S : length R = 5%nat -> rfcLetters (R ++ S) = base32Letter (ofBits R) :: rfcLetters S.
Proof. intros H. do 6 (destruct R as [|? R]; try discriminate H). reflexivity. Qed.

Lemma base32Value_range c v : base32Value c = Some v -> 0 <= v < 32.
Proof.
  unfold base32Value. change (ch "A") with 65. change (ch "Z") with 90. change (ch "a") with 97.
  change (ch "z") with 122. change (ch "2") with 50. change (ch "7") with 55.
  intros H. case_tests_in H; bprop; simplify_eq; lia.
Qed.

Lemma decode_loop_bits s : forall buffer R out,
  holds buffer R -> (length R < 8)%nat ->
  Base32DecodeLoop s buffer (Z.of_nat (length R)) out =
    (fun vs => out ++ rfcBytes (R ++ bitsOf 5 vs)) <$> base32Values s.
Proof.
  induction s as [|qc s IH]; intros buffer R out H Hl; cbn [Base32DecodeLoop base32Values].
  { cbn. by rewrite app_nil_r, rfcBytes_short, app_nil_r by lia. }
  destruct (base32Skipped (toLatin1 qc)); [by apply IH|].
  destruct (base32Value (toLatin1 qc)) as [v|] eqn:Ev; [|done]. cbn [mbind option_bind].
  assert (holds (u32 (u32 (buffer <<< 5) .| v)) (R ++ toBits 5 v)) as Hp
    by (apply (holds_push buffer R 5); [done|by eapply base32Value_range|lia]).
  set (buffer' := u32 _) in *.
  assert (forall vs, R ++ bitsOf 5 (v :: vs) = (R ++ toBits 5 v) ++ bitsOf 5 vs) as Hc
    by (intros vs; unfold bitsOf; cbn [map concat]; by rewrite app_assoc).
  assert (Z.of_nat (length R) + 5 = Z.of_nat (length (R ++ toBits 5 v))) as Hn
    by (rewrite length_app, toBits_length; lia).
  destruct (Z.leb_spec 8 (Z.of_nat (length R) + 5)).
  - destruct (list_split_at 8 (R ++ toBits 5 v)) as (A & B & E & HA); [lia|].
    rewrite E in Hp, Hn. replace (Z.of_nat (length R) + 5 - 8) with (Z.of_nat (length B))
      by (rewrite Hn, length_app; lia).
    rewrite (IH buffer' B) by first [by eapply holds_low|rewrite length_app in Hn; lia].
    destruct (base32Values s) as [vs|]; [|done]. cbn [fmap option_fmap option_map mbind option_bind]. rewrite Hc, E, <- !app_assoc, (rfcBytes_step A) by done. cbn [app]. do 3 f_equal.
    pose proof (holds_top buffer' A B Hp) as Ht. rewrite HA in Ht. exact Ht.
  - rewrite Hn, (IH buffer' (R ++ toBits 5 v)) by (done || lia).
    destruct (base32Values s) as [vs|]; [|done]. cbn [fmap option_fmap option_map mbind option_bind]. by rewrite Hc.
Qed.

(** ** The encoder implements the specification *)

Lemma letters_flush buffer : forall fuel R out,
  holds buffer R -> (length R < 5 * (fuel + 1))%nat ->
  exists R' letters, (length R' < 5)%nat /\ holds buffer R' /\
    Base32EncodeLetters fuel buffer (Z.of_nat (length R)) out = (Z.of_nat (length R'), out ++ letters) /\
    forall S, rfcLetters (R ++ S) = letters ++ rfcLetters (R' ++ S).
Proof.
  induction fuel as [|fuel IH]; intros R out H Hl; cbn [Base32EncodeLetters].
  { exists R, []. rewrite app_nil_r. split_and!; try done; lia. }
  destruct (Z.leb_spec 5 (Z.of_nat (length R))).
  - destruct (list_split_at 5 R) as (A & B & -> & HA); [lia|]. rewrite length_app in *.
    replace (Z.of_nat (length A + length B) - 5) with (Z.of_nat (length B)) by lia.
    pose proof (holds_top buffer A B H) as Ht. rewrite HA in Ht.
    change (2 ^ Z.of_nat 5 - 1) with 0x1f in Ht. rewrite Ht.
    destruct (IH B (out ++ [base32Letter (ofBits A)])) as (R' & ls & HR & Hh & E & Hs);
      [by eapply holds_low|lia|].
    exists R', (base32Letter (ofBits A) :: ls). split_and!; [done..| |].
    + rewrite E, <- app_assoc. done.
    + intros S. rewrite <- app_assoc, rfcLetters_step by done. by rewrite Hs.
  - exists R, []. rewrite app_nil_r. split_and!; try done; lia.
Qed.

Lemma holds_fill buffer R :
  holds buffer R -> (0 < length R < 5)%nat ->
  [base32Letter (u32 (buffer <<< (5 - Z.of_nat (length R))) .& 0x1f)] = rfcLetters R.
Proof.
  intros H Hl. pose proof (holds_push buffer R (5 - length R) 0 H ltac:(lia) ltac:(lia)) as Hp.
  rewrite Nat2Z.inj_sub in Hp by lia. rewrite Z.lor_0_r in Hp. unfold u32 in Hp at 1.
  rewrite Z.mod_small in Hp by apply u32_range.
  rewrite <- (app_nil_r (R ++ _)) in Hp. apply holds_top in Hp. rewrite length_app, toBits_length in Hp.
  replace (length R + (5 - length R))%nat with 5%nat in Hp by lia.
  cbn [length] in Hp. rewrite Z.shiftr_0_r in Hp. change (2 ^ Z.of_nat 5 - 1) with 0x1f in Hp. change (Z.of_nat 5) with 5 in Hp. rewrite Hp.
  clear H Hp. do 5 (destruct R as [|? R]; cbn in Hl; try lia; try reflexivity).
Qed.

Lemma encode_loop_bits bytes : forall buffer R out,
  Forall (fun b => 0 <= b < 256) bytes -> holds buffer R -> (length R < 5)%nat ->
  Base32EncodeLoop bytes buffer (Z.of_nat (length R)) out = out ++ rfcLetters (R ++ bitsOf 8 bytes).
Proof.
  induction bytes as [|b bytes IH]; intros buffer R out Hb H Hl; cbn [Base32EncodeLoop].
  - unfold bitsOf. cbn [map concat]. rewrite app_nil_r. destruct (Z.ltb_spec 0 (Z.of_nat (length R))).
    + rewrite (holds_fill buffer R) by (done || lia). done.
    + destruct R; [cbn; by rewrite app_nil_r|cbn in *; lia].
  - apply Forall_cons in Hb as [Hb Hbs]. rewrite (u8_small b) by lia.
    assert (holds (u32 (u32 (buffer <<< 8) .| b)) (R ++ toBits 8 b)) as Hp
      by (apply (holds_push buffer R 8); [done|lia|lia]).
    set (buffer' := u32 _) in *.
    replace (Z.of_nat (length R) + 8) with (Z.of_nat (length (R ++ toBits 8 b)))
      by (rewrite length_app, toBits_length; lia).
    destruct (letters_flush buffer' 2 (R ++ toBits 8 b) out Hp) as (R' & ls & HR & Hh & E & Hs).
    { rewrite length_app, toBits_length. lia. }
    rewrite E. rewrite IH by done. unfold bitsOf. cbn [map concat]. rewrite app_assoc, Hs.
    by rewrite app_assoc.
Qed.

(** ** The properties *)

(** The encoder is RFC 4648's base32 without padding: the bits of the
    bytes, five to a letter, the last letter filled up with zero bits; the
    32-bit buffer, which overflows on every secret longer than four bytes, and
    its two letters per byte do not show in the result. *)
Theorem base32_encode_rfc (bytes : list Z) (Hb : Forall (fun b => 0 <= b < 256) bytes) :
  Base32Encode bytes = rfcLetters (bitsOf 8 bytes).
Proof. apply (encode_loop_bits bytes 0 []); [done|done|cbn; lia]. Qed.

Lemma base32_encode_rfc_witness :
  Base32Encode [102; 111; 111; 98; 97] = rfcLetters (bitsOf 8 [102; 111; 111; 98; 97]) /\
  Base32Encode [102; 111; 111; 98; 97] = qs "MZXW6YTB".
Proof. split; [apply base32_encode_rfc; repeat constructor; lia|reflexivity]. Defined.

(** The decoder drops the separators, refuses any other character outside
    the alphabet, and otherwise yields the bytes RFC 4648 reads from the
    letters, ignoring an incomplete last byte. *)
Theorem base32_decode_rfc (s : qstring) :
  Base32Decode s = (fun vs => rfcBytes (bitsOf 5 vs)) <$> base32Values s.
Proof. apply (decode_loop_bits s 0 [] []); [done|cbn; lia]. Qed.

(** The letters of an encoded secret are of the alphabet, and decode to the
    bits they stand for. *)
Lemma letter_value i : 0 <= i < 32 ->
  base32Value (toLatin1 (base32Letter i)) = Some i /\ base32Skipped (toLatin1 (base32Letter i)) = false.
Proof.
  intros Hi.
  pose proof (below_forall (fun i => match base32Value (toLatin1 (base32Letter i)) with
    | Some v => (v =? i) && negb (base32Skipped (toLatin1 (base32Letter i))) | None => false end)
    32 ltac:(vm_compute; reflexivity) i Hi) as H. cbn beta in H.
  destruct (base32Value _); [|done]. bprop. destruct H as [-> ->]. done.
Qed.

Lemma letters_values bs :
  exists vs pad, base32Values (rfcLetters bs) = Some vs /\ bitsOf 5 vs = bs ++ pad /\ (length pad < 5)%nat.
Proof.
  induction bs as [bs IH] using (induction_ltof1 _ (@length bool)); unfold ltof in IH.
  destruct (Nat.le_gt_cases 5 (length bs)) as [Hl|Hl].
  - destruct (list_split_at 5 bs Hl) as (A & B & -> & HA). rewrite length_app in *.
    destruct (IH B) as (vs & pad & Ev & Eb & Hp); [lia|].
    exists (ofBits A :: vs), pad. rewrite rfcLetters_step by done. cbn [base32Values].
    pose proof (ofBits_range A) as HrA. rewrite HA in HrA.
    destruct (letter_value (ofBits A)) as [-> ->]; [exact HrA|]. cbn [mbind option_bind]. rewrite Ev. cbn [mbind option_bind].
    split_and!; [done| |done]. unfold bitsOf in *. cbn [map concat]. rewrite Eb.
    rewrite <- HA at 1. by rewrite toBits_ofBits, <- app_assoc.
  - destruct bs as [|b bs]; [exists [], []; split_and!; [done|done|cbn; lia]|].
    set (full := take 5 ((b :: bs) ++ [false; false; false; false])).
    assert (length full = 5%nat) as Hf
      by (subst full; rewrite length_take, length_app; cbn [length] in *; lia).
    assert (rfcLetters (b :: bs) = [base32Letter (ofBits full)]) as ->.
    { subst full. clear IH. do 4 (destruct bs as [|? bs]; [reflexivity|]). cbn in Hl. lia. }
    exists [ofBits full], (take (5 - length (b :: bs)) [false; false; false; false]). cbn [base32Values].
    pose proof (ofBits_range full) as HrF. rewrite Hf in HrF.
    destruct (letter_value (ofBits full)) as [-> ->]; [exact HrF|]. cbn [mbind option_bind].
    split_and!; [done| |rewrite length_take; cbn in *; lia].
    unfold bitsOf. cbn [map concat]. rewrite <- Hf at 1. rewrite toBits_ofBits, app_nil_r. subst full.
    rewrite take_app_ge by (cbn in *; lia). done.
Qed.

Lemma rfcBytes_bitsOf bytes pad :
  Forall (fun b => 0 <= b < 256) bytes -> (length pad < 8)%nat -> rfcBytes (bitsOf 8 bytes ++ pad) = bytes.
Proof.
  intros Hb Hp. induction Hb as [|b bytes Hb _ IH]; [by apply rfcBytes_short|].
  unfold bitsOf in *. cbn [map concat]. rewrite <- app_assoc, rfcBytes_step by apply toBits_length.
  rewrite IH, ofBits_toBits. f_equal. apply Z.mod_small. cbn. lia.
Qed.

Lemma decode_encode bytes :
  Forall (fun b => 0 <= b < 256) bytes -> Base32Decode (Base32Encode bytes) = Some bytes.
Proof.
  intros Hb.
  assert (Base32Encode bytes = rfcLetters (bitsOf 8 bytes)) as ->
    by (apply (encode_loop_bits bytes 0 []); [done|done|cbn; lia]).
  unfold Base32Decode. change 0 with (Z.of_nat (length (@nil bool))) at 2.
  rewrite decode_loop_bits by (done || (cbn; lia)).
  destruct (letters_values (bitsOf 8 bytes)) as (vs & pad & -> & E & Hp). cbn [fmap option_fmap option_map app].
  rewrite E, rfcBytes_bitsOf by (done || lia). done.
Qed.

Lemma rfcBytes_range bs : Forall (fun b => 0 <= b < 256) (rfcBytes bs).
Proof.
  induction bs as [bs IH] using (induction_ltof1 _ (@length bool)); unfold ltof in IH.
  destruct (Nat.le_gt_cases 8 (length bs)) as [Hl|Hl].
  - destruct (list_split_at 8 bs Hl) as (A & B & -> & HA). rewrite rfcBytes_step by done.
    constructor; [|apply IH; rewrite length_app; lia]. pose proof (ofBits_range A) as H. rewrite HA in H. exact H.
  - rewrite rfcBytes_short by lia. constructor.
Qed.

Lemma decode_bytes s bs : Base32Decode s = Some bs -> Forall (fun b => 0 <= b < 256) bs.
Proof.
  unfold Base32Decode. change 0 with (Z.of_nat (length (@nil bool))) at 2.
  rewrite decode_loop_bits by (done || (cbn; lia)).
  destruct (base32Values s); [|done]. intros [= <-]. apply rfcBytes_range.
Qed.

(** A normal form decodes to the key of the text it was made from. *)
Lemma normalize_decode s : NormalizeSecret s <> [] -> Base32Decode (NormalizeSecret s) = Base32Decode s.
Proof.
  unfold NormalizeSecret. destruct (Base32Decode s) as [[|b bs]|] eqn:E; [done| |done].
  intros _. apply decode_encode. by eapply decode_bytes.
Qed.

Lemma encode_nonempty b bs : 0 <= b < 256 -> Forall (fun b => 0 <= b < 256) bs -> Base32Encode (b :: bs) <> [].
Proof. intros Hb Hbs E. pose proof (decode_encode (b :: bs) ltac:(by constructor)) as H. by rewrite E in H. Qed.

Lemma normalize_nonempty s : NormalizeSecret s <> [] <-> exists b bs, Base32Decode s = Some (b :: bs).
Proof.
  unfold NormalizeSecret. destruct (Base32Decode s) as [[|b bs]|] eqn:E.
  - split; [done|by intros (? & ? & ?)].
  - split; [eauto|]. intros _. apply decode_bytes in E. apply Forall_cons in E as [Hb Hbs]. by apply encode_nonempty.
  - split; [done|by intros (? & ? & ?)].
Qed.

Lemma normalize_normal s : NormalizeSecret (NormalizeSecret s) = NormalizeSecret s.
Proof.
  destruct (decide (NormalizeSecret s = [])) as [E|E]; [by rewrite E|].
  unfold NormalizeSecret at 1. rewrite normalize_decode by done.
  apply normalize_nonempty in E as (b & bs & E). unfold NormalizeSecret. by rewrite E.
Qed.

(** A normal form has no spaces, so trimming keeps it. *)
Lemma letters_noSpace bs : noSpace (rfcLetters bs).
Proof.
  assert (forall c, length c = 5%nat -> isSpace (base32Letter (ofBits c)) = false) as Hc.
  { intros c Hl. pose proof (ofBits_range c) as Hr. rewrite Hl in Hr.
    pose proof (below_forall (fun i => negb (isSpace (base32Letter i))) 32 ltac:(vm_compute; reflexivity) _ Hr) as H.
    by apply negb_true_iff in H. }
  induction bs as [bs IH] using (induction_ltof1 _ (@length bool)); unfold ltof in IH.
  destruct (Nat.le_gt_cases 5 (length bs)) as [Hl|Hl].
  - destruct (list_split_at 5 bs Hl) as (A & B & -> & HA). rewrite rfcLetters_step by done.
    constructor; [by apply Hc|apply IH; rewrite length_app; lia].
  - clear IH. destruct bs as [|b bs]; [constructor|].
    assert (rfcLetters (b :: bs) = [base32Letter (ofBits (take 5 ((b :: bs) ++ [false; false; false; false])))]) as ->.
    { do 4 (destruct bs as [|? bs]; [reflexivity|]). cbn in Hl. lia. }
    constructor; [|constructor]. apply Hc. rewrite length_take, length_app. cbn [length]. lia.
Qed.

Lemma encode_noSpace bytes : Forall (fun b => 0 <= b < 256) bytes -> noSpace (Base32Encode bytes).
Proof.
  intros Hb. assert (Base32Encode bytes = rfcLetters (bitsOf 8 bytes)) as ->
    by (apply (encode_loop_bits bytes 0 []); [done|done|cbn; lia]).
  apply letters_noSpace.
Qed.

(** A key survives its text: decoding what [Base32Encode] writes gives the
    bytes back, for every byte string. *)
Theorem base32_roundtrip (bytes : list Z) (Hb : Forall (fun b => 0 <= b < 256) bytes) :
  Base32Decode (Base32Encode bytes) = Some bytes.
Proof. by apply decode_encode. Qed.

Lemma base32_roundtrip_witness : Base32Decode (Base32Encode [0; 255; 16]) = Some [0; 255; 16].
Proof. apply base32_roundtrip. repeat constructor; lia. Defined.

(** Normalizing a secret keeps its key and is idempotent; the result is
    empty exactly when the text does not decode to at least one byte, and two
    texts have one normal form exactly when they stand for one key. *)
Theorem normalize_secret_canonical (s t : qstring) :
  NormalizeSecret (NormalizeSecret s) = NormalizeSecret s /\
  (NormalizeSecret s <> [] <-> exists b bs, Base32Decode s = Some (b :: bs)) /\
  (NormalizeSecret s <> [] -> Base32Decode (NormalizeSecret s) = Base32Decode s) /\
  (NormalizeSecret s <> [] ->
     (NormalizeSecret s = NormalizeSecret t <-> Base32Decode s = Base32Decode t)).
Proof.
  split_and!; [apply normalize_normal|apply normalize_nonempty|apply normalize_decode|].
  intros Hs. split; intros E.
  - rewrite <- (normalize_decode s Hs), E. apply normalize_decode. by rewrite <- E.
  - unfold NormalizeSecret. by rewrite E.
Qed.
