(* ===== verification/OtpWire.v ===== *)
(** * The wire format of migration links (src/src/global/OTP.cpp)

    The protocol-buffer writer and reader of one-time password exports. A
    QByteArray read from position [pos] on is the list of its bytes from [pos]
    on, so that [in.size() - pos] is the length of that list; a position is an
    int, so the arrays are below 2^31 bytes and the casts of lengths to int
    are the identity. *)

From Stdlib Require Import Ascii String.
From S2P Require Import Prelude QtText.

Local Open Scope Z_scope.
Local Open Scope throne_scope.

Abbreviation bytes := (list Z).

(** ** Writing *)

(** The do-while loop: a quint64 has at most ten groups of seven bits. *)
Fixpoint pbVarintLoop (fuel : nat) (value : Z) : bytes :=
  match fuel with
  | O => []
  | S fuel' =>
      let byte := u8 (value .& 0x7f) in
      let value := value >>> 7 in
      let byte := if negb (value =? 0) then byte .| 0x80 else byte in
      byte :: (if negb (value =? 0) then pbVarintLoop fuel' value else [])
  end.
Definition pbWriteVarint (out : bytes) (value : Z) : bytes := out ++ pbVarintLoop 10 (u64 value).

Definition pbWriteTag (out : bytes) (field wireType : Z) : bytes :=
  pbWriteVarint out (u64 (u64 field <<< 3) .| u64 wireType).

Definition pbWriteBytes (out : bytes) (field : Z) (value : bytes) : bytes :=
  pbWriteVarint (pbWriteTag out field 2) (qsize value) ++ value.

Definition pbWriteUint (out : bytes) (field value : Z) : bytes :=
  pbWriteVarint (pbWriteTag out field 0) value.

(** ** Reading: [None] is the reader's [false] *)

Fixpoint pbVarintRead (input : bytes) (shift value : Z) : option (Z * bytes) :=
  match input with
  | [] => None
  | c :: input' =>
      let byte := u8 c in
      let value := value .| u64 ((byte .& 0x7f) <<< shift) in
      if (byte .& 0x80) =? 0 then Some (value, input')
      else let shift := shift + 7 in
           if 63 <? shift then None else pbVarintRead input' shift value
  end.
Definition pbReadVarint (input : bytes) : option (Z * bytes) := pbVarintRead input 0 0.

Record PbField := Field { fieldNumber : Z; wireType : Z; varint : Z; payload : bytes }.

Definition pbReadField (input : bytes) : option (PbField * bytes) :=
  '(tag, input) ← pbReadVarint input;
  let field := i32 (tag >>> 3) in
  let wireType := tag .& 0x07 in
  if wireType =? 0 then
    '(v, input) ← pbReadVarint input; Some (Field field wireType v [], input)
  else if wireType =? 1 then
    if qsize input <? 8 then None else Some (Field field wireType 0 [], drop 8 input)
  else if wireType =? 2 then
    '(len, input) ← pbReadVarint input;
    if qsize input <? len then None
    else Some (Field field wireType 0 (take (Z.to_nat len) input), drop (Z.to_nat len) input)
  else if wireType =? 5 then
    if qsize input <? 4 then None else Some (Field field wireType 0 [], drop 4 input)
  else None.

(** ** Varints *)

Lemma land_7f x : x .& 0x7f = x mod 128.
Proof. change 0x7f with (Z.ones 7). by rewrite Z.land_ones by lia. Qed.

Lemma continuation_bit x : 0 <= x < 128 ->
  x .| 0x80 = x + 128 /\ (x + 128) .& 0x7f = x /\ (x + 128) .& 0x80 = 128 /\ x .& 0x80 = 0.
Proof.
  intros Hx.
  pose proof (below_forall (fun x => (x .| 0x80 =? x + 128) && ((x + 128) .& 0x7f =? x)
    && ((x + 128) .& 0x80 =? 128) && (x .& 0x80 =? 0)) 128 ltac:(vm_compute; reflexivity) x Hx) as H.
  cbn beta in H. bprop. tauto.
Qed.

Lemma varint_read_write fuel : forall v shift acc rest,
  0 <= v < 2 ^ (64 - shift) -> 0 <= acc < 2 ^ shift -> 0 <= shift <= 63 ->
  64 - shift <= 7 * Z.of_nat fuel -> (7 | shift) ->
  pbVarintRead (pbVarintLoop fuel v ++ rest) shift acc = Some (acc + v * 2 ^ shift, rest).
Proof.
  induction fuel as [|fuel IH]; intros v shift acc rest Hv Ha Hs Hf Hd; [lia|].
  cbn [pbVarintLoop]. rewrite land_7f, Z.shiftr_div_pow2 by lia. change (2 ^ 7) with 128.
  pose proof (Z.mod_pos_bound v 128 ltac:(lia)) as Hm.
  pose proof (Z.div_mod v 128 ltac:(lia)) as Hdm.
  destruct (continuation_bit (v mod 128) Hm) as (Ec & El & Eh & E0).
  rewrite (u8_small (v mod 128)) by lia.
  assert (2 ^ (64 - shift) * 2 ^ shift = 2 ^ 64) as Hpow by (rewrite <- Z.pow_add_r by lia; f_equal; lia).
  assert (acc .| u64 ((v mod 128) <<< shift) = acc + v mod 128 * 2 ^ shift) as Hor.
  { rewrite u64_small by (rewrite Z.shiftl_mul_pow2 by lia; nia).
    rewrite Z.lor_comm, lor_shiftl_add by lia. lia. }
  destruct (Z.eqb_spec (v / 128) 0) as [E|E]; cbn [negb app pbVarintRead].
  - rewrite u8_small by lia. rewrite land_7f, Z.mod_mod by lia. rewrite E0, Hor. cbn [Z.eqb].
    do 2 f_equal. rewrite Hdm at 2. rewrite E. lia.
  - rewrite Ec.
    rewrite u8_small by lia. rewrite El, Eh, Hor. cbn [Z.eqb].
    assert (v / 128 < 2 ^ (64 - (shift + 7))) as Hv'.
    { destruct (Z.le_gt_cases shift 57) as [Hs'|Hs'].
      - apply Z.div_lt_upper_bound; [lia|]. change 128 with (2 ^ 7). rewrite <- Z.pow_add_r by lia.
        replace (7 + (64 - (shift + 7))) with (64 - shift) by lia. lia.
      - destruct Hd as [k ->]. assert (k = 9) as -> by lia. cbn in *.
        exfalso. apply E. apply Z.div_small. lia. }
    assert (shift <> 63) as Hne by (intros ->; cbn in *; apply E, Z.div_small; lia).
    assert (shift + 7 <= 63) as Hs2 by (destruct Hd as [k ->]; lia).
    destruct (Z.ltb_spec 63 (shift + 7)); [lia|].
    rewrite IH; [| | |lia|lia|].
    + do 2 f_equal. rewrite Z.pow_add_r by lia. change (2 ^ 7) with 128. nia.
    + split; [apply Z.div_pos; lia|done].
    + rewrite Z.pow_add_r by lia. nia.
    + destruct Hd as [k ->]. exists (k + 1). lia.
Qed.

Lemma read_varint_write v rest :
  0 <= v < 2 ^ 64 -> pbReadVarint (pbWriteVarint [] v ++ rest) = Some (v, rest).
Proof.
  intros Hv. unfold pbReadVarint, pbWriteVarint. cbn [app]. rewrite u64_small by lia.
  rewrite varint_read_write; [do 2 f_equal; lia|done|done|lia|lia|by exists 0].
Qed.

Lemma write_varint_app out v : pbWriteVarint out v = out ++ pbWriteVarint [] v.
Proof. done. Qed.

Lemma write_tag_app out f w : pbWriteTag out f w = out ++ pbWriteTag [] f w.
Proof. unfold pbWriteTag. by rewrite write_varint_app. Qed.

Lemma write_bytes_app out f b : pbWriteBytes out f b = out ++ pbWriteBytes [] f b.
Proof. unfold pbWriteBytes. by rewrite write_varint_app, write_tag_app, (write_varint_app (pbWriteTag [] _ _)), <- !app_assoc. Qed.

Lemma write_uint_app out f v : pbWriteUint out f v = out ++ pbWriteUint [] f v.
Proof. unfold pbWriteUint. by rewrite write_varint_app, write_tag_app, (write_varint_app (pbWriteTag [] _ _)), <- !app_assoc. Qed.

Lemma tag_value f w : 0 <= f < 2 ^ 28 -> 0 <= w < 8 -> u64 (u64 f <<< 3) .| u64 w = 8 * f + w.
Proof.
  intros Hf Hw. rewrite (u64_small f), (u64_small w) by lia.
  rewrite u64_small by (rewrite Z.shiftl_mul_pow2 by lia; lia).
  rewrite lor_shiftl_add by lia. lia.
Qed.

Lemma tag_split f w : 0 <= f < 2 ^ 28 -> 0 <= w < 8 ->
  i32 ((8 * f + w) >>> 3) = f /\ (8 * f + w) .& 0x07 = w.
Proof.
  intros Hf Hw. rewrite Z.shiftr_div_pow2 by lia. change (2 ^ 3) with 8.
  change 0x07 with (Z.ones 3). rewrite Z.land_ones by lia. change (2 ^ 3) with 8.
  replace ((8 * f + w) / 8) with f by (apply (Z.div_unique_pos _ _ _ w); lia).
  split; [apply sint_small; cbn; lia|]. symmetry. apply (Z.mod_unique_pos _ _ f); lia.
Qed.

Lemma read_uint f v rest : 0 <= f < 2 ^ 28 -> 0 <= v < 2 ^ 64 ->
  pbReadField (pbWriteUint [] f v ++ rest) = Some (Field f 0 v [], rest).
Proof.
  intros Hf Hv. unfold pbReadField, pbWriteUint, pbWriteTag. rewrite tag_value by lia.
  rewrite write_varint_app, <- app_assoc, read_varint_write by lia. cbn [mbind option_bind].
  destruct (tag_split f 0) as [-> ->]; [lia..|]. cbn [Z.eqb]. by rewrite read_varint_write.
Qed.

Lemma read_bytes f b rest : 0 <= f < 2 ^ 28 -> qsize b < 2 ^ 31 ->
  pbReadField (pbWriteBytes [] f b ++ rest) = Some (Field f 2 0 b, rest).
Proof.
  intros Hf Hb. unfold pbReadField, pbWriteBytes, pbWriteTag. rewrite tag_value by lia.
  assert (0 <= qsize b) by (unfold qsize; lia).
  rewrite write_varint_app, <- !app_assoc, read_varint_write by lia. cbn [mbind option_bind].
  destruct (tag_split f 2) as [-> ->]; [lia..|]. cbn [Z.eqb].
  rewrite read_varint_write by lia. cbn [mbind option_bind].
  destruct (Z.ltb_spec (qsize (b ++ rest)) (qsize b)) as [Hlt|_].
  { unfold qsize in Hlt. rewrite length_app in Hlt. lia. }
  unfold qsize. rewrite Nat2Z.id, take_app_length, drop_app_length. done.
Qed.

(** Reading consumes at least the tag, so the readers' loops end. *)
Lemma varint_read_shorter input : forall shift value v rest,
  pbVarintRead input shift value = Some (v, rest) -> (length rest < length input)%nat.
Proof.
  induction input as [|c input IH]; intros shift value v rest; cbn; [done|].
  case_match; [intros [= _ <-]; lia|]. case_match; [done|]. intros Hr%IH. lia.
Qed.

Lemma read_varint_shorter input v rest :
  pbReadVarint input = Some (v, rest) -> (length rest < length input)%nat.
Proof. apply varint_read_shorter. Qed.

Lemma read_field_shorter input f rest :
  pbReadField input = Some (f, rest) -> (length rest < length input)%nat.
Proof.
  unfold pbReadField. destruct (pbReadVarint input) as [[tag r1]|] eqn:E1; [|done]. cbn [mbind option_bind].
  apply read_varint_shorter in E1. cbv zeta. case_tests.
  - destruct (pbReadVarint r1) as [[v r2]|] eqn:Er; [|done]. apply read_varint_shorter in Er.
    intros [= _ <-]. lia.
  - done.
  - intros [= _ <-]. rewrite length_drop. lia.
  - destruct (pbReadVarint r1) as [[v r2]|] eqn:Er; [|done]. apply read_varint_shorter in Er.
    cbn [mbind option_bind]. case_match; [done|]. intros [= _ <-]. rewrite length_drop. lia.
  - done.
  - intros [= _ <-]. rewrite length_drop. lia.
  - done.
Qed.

(** ** Properties *)

(** Every quint64 survives the wire: the varint written for it is read back
    exactly, whatever follows, and the writer needs at most the ten groups the
    reader accepts. *)
Theorem varint_roundtrip (v : Z) (rest : bytes) (Hv : 0 <= v < 2 ^ 64) :
  pbReadVarint (pbWriteVarint [] v ++ rest) = Some (v, rest) /\
  (length (pbWriteVarint [] v) <= 10)%nat.
Proof.
  split; [by apply read_varint_write|]. unfold pbWriteVarint. cbn [app].
  assert (forall n x, (length (pbVarintLoop n x) <= n)%nat) as H; [|apply H].
  induction n as [|n IH]; intros x; cbn [pbVarintLoop length]; [lia|].
  specialize (IH (x >>> 7)). case_match; cbn [length]; lia.
Qed.

Lemma varint_roundtrip_witness :
  pbReadVarint (pbWriteVarint [] (2 ^ 64 - 1) ++ [7]) = Some (2 ^ 64 - 1, [7]) /\
  (length (pbWriteVarint [] (2 ^ 64 - 1)) <= 10)%nat.
Proof. apply (varint_roundtrip (2 ^ 64 - 1) [7]). lia. Defined.
