(* ===== verification/Otp.v ===== *)
(** * One-time passwords (src/src/global/OTP.cpp, src/include/global/OTP.hpp)

    An entry, its validation, the codes of RFC 4226 and RFC 6238 and the time
    left in a step. The message authentication code and the case mapping of
    QString are Qt's and are arguments; [None] from [GenerateHOTP] is a read
    outside the code's byte array, which [hotp_truncation] excludes. *)

From Stdlib Require Import Ascii String.
From S2P Require Import Prelude QtText OtpBase32 OtpWire.

Local Open Scope Z_scope.
Local Open Scope throne_scope.

(** ** Data *)

Inductive Algorithm := SHA1 | SHA256 | SHA512.
Inductive OtpType := TOTP | HOTP.
Inductive HashAlgorithm := Hash_Sha1 | Hash_Sha256 | Hash_Sha512.

#[export] Instance Algorithm_eq_dec : EqDecision Algorithm.
Proof. solve_decision. Defined.
#[export] Instance OtpType_eq_dec : EqDecision OtpType.
Proof. solve_decision. Defined.

Definition DEFAULT_DIGITS : Z := 6.
Definition DEFAULT_PERIOD : Z := 30.
Definition MIN_DIGITS : Z := 4.
Definition MAX_DIGITS : Z := 10.
Definition MIN_PERIOD : Z := 1.
Definition MAX_PERIOD : Z := 3600.

Record OtpEntry := MkEntry {
  name : qstring; issuer : qstring; secret : qstring;
  algorithm : Algorithm; type : OtpType; digits : Z; period : Z; counter : Z }.

Definition defaultEntry : OtpEntry :=
  MkEntry [] [] [] SHA1 TOTP DEFAULT_DIGITS DEFAULT_PERIOD 0.

Definition toHash (a : Algorithm) : HashAlgorithm :=
  match a with
  | SHA256 => Hash_Sha256
  | SHA512 => Hash_Sha512
  | _ => Hash_Sha1
  end.

(** ** Names of algorithms and types *)

Definition AlgorithmToString (a : Algorithm) : qstring :=
  match a with
  | SHA256 => qs "SHA256"
  | SHA512 => qs "SHA512"
  | _ => qs "SHA1"
  end.
Definition TypeToString (t : OtpType) : qstring :=
  match t with HOTP => qs "hotp" | TOTP => qs "totp" end.

Section CaseMapping.
Context (toUpper toLower : qstring -> qstring).

(** The second component is [*ok]. *)
Definition AlgorithmFromString (s : qstring) : Algorithm * bool :=
  let normalized := List.filter (fun c => negb (c =? ch "-")) (toUpper (trimmed s)) in
  if bool_decide (normalized = qs "SHA256") then (SHA256, true)
  else if bool_decide (normalized = qs "SHA512") then (SHA512, true)
  else if bool_decide (normalized = qs "SHA1") || isEmpty normalized then (SHA1, true)
  else (SHA1, false).

Definition TypeFromString (s : qstring) : OtpType * bool :=
  let normalized := toLower (trimmed s) in
  if bool_decide (normalized = qs "hotp") then (HOTP, true)
  else if bool_decide (normalized = qs "totp") || isEmpty normalized then (TOTP, true)
  else (TOTP, false).
End CaseMapping.

(** ** Validation *)

(** The reasons [Validate] gives; [None] is its empty string. *)
Inductive OtpReason := SecretIsEmpty | SecretNotBase32 | SecretTooShort | DigitsOutOfRange | PeriodOutOfRange.

Definition isTOTP (e : OtpEntry) : bool := match type e with TOTP => true | HOTP => false end.

Definition Validate (e : OtpEntry) : option OtpReason :=
  if isEmpty (trimmed (secret e)) then Some SecretIsEmpty
  else match Base32Decode (secret e) with
       | None => Some SecretNotBase32
       | Some key =>
           if isEmpty key then Some SecretTooShort
           else if (digits e <? MIN_DIGITS) || (MAX_DIGITS <? digits e) then Some DigitsOutOfRange
           else if isTOTP e && ((period e <? MIN_PERIOD) || (MAX_PERIOD <? period e)) then Some PeriodOutOfRange
           else None
       end.

(** ** Codes *)

(** The counter's eight bytes, written from the last to the first. *)
Fixpoint hotpMessageLoop (i : nat) (counter : Z) (message : bytes) : bytes :=
  match i with
  | O => message
  | S i' => hotpMessageLoop i' (counter >>> 8) (u8 (counter .& 0xff) :: message)
  end.
Definition hotpMessage (counter : Z) : bytes := hotpMessageLoop 8 (u64 counter) [].

Fixpoint hotpModulusLoop (i : nat) (modulus : Z) : Z :=
  match i with O => modulus | S i' => hotpModulusLoop i' (u64 (modulus * 10)) end.
Definition hotpModulus (digits : Z) : Z := hotpModulusLoop (Z.to_nat digits) 1.

(** The dynamic truncation, with [None] for a read outside the array. *)
Definition hotpBinary (mac : bytes) : option Z :=
  last ← mac !! Z.to_nat (qsize mac - 1);
  let offset := Z.to_nat (last .& 0x0f) in
  b0 ← mac !! offset;
  b1 ← mac !! (offset + 1)%nat;
  b2 ← mac !! (offset + 2)%nat;
  b3 ← mac !! (offset + 3)%nat;
  Some (((u32 ((u8 b0 .& 0x7f) <<< 24) .| u32 (u8 b1 <<< 16)) .| u32 (u8 b2 <<< 8)) .| u8 b3).

(** QString::arg of a number with a width and the fill character '0'. *)
Definition argPadded (n width : Z) : qstring :=
  let s := unumber 10 n in replicate (Z.to_nat width - length s) (ch "0") ++ s.

Section Codes.
(** QMessageAuthenticationCode::hash(message, key, algorithm), and the clock. *)
Context (hmac : bytes -> bytes -> HashAlgorithm -> bytes) (clock : Z).

Definition GenerateHOTP (key : bytes) (counter : Z) (algorithm : Algorithm) (digits : Z) : option qstring :=
  if isEmpty key || (digits <? MIN_DIGITS) || (MAX_DIGITS <? digits) then Some []
  else let mac := hmac (hotpMessage counter) key (toHash algorithm) in
       if qsize mac <? 20 then Some []
       else binary ← hotpBinary mac;
            Some (argPadded (binary mod hotpModulus digits) digits).

Definition unixNow (unixTime : Z) : Z := if unixTime <? 0 then clock else unixTime.

Definition keyOf (e : OtpEntry) : bytes := match Base32Decode (secret e) with Some key => key | None => [] end.

Definition GenerateCode (e : OtpEntry) (unixTime : Z) : option qstring :=
  match Validate e with
  | Some _ => Some []
  | None =>
      match type e with
      | HOTP => GenerateHOTP (keyOf e) (u64 (counter e)) (algorithm e) (digits e)
      | TOTP => GenerateHOTP (keyOf e) (u64 (Z.quot (unixNow unixTime) (period e))) (algorithm e) (digits e)
      end
  end.

Definition SecondsRemaining (e : OtpEntry) (unixTime : Z) : Z :=
  match type e with
  | HOTP => 0
  | TOTP => if period e <? MIN_PERIOD then 0
            else i32 (period e - Z.rem (unixNow unixTime) (period e))
  end.
End Codes.

(** ** The counter's bytes and the modulus *)

Definition beValue (bs : bytes) : Z := fold_left (fun n b => 256 * n + b) bs 0.

Lemma beValue_from bs : forall n, fold_left (fun n b => 256 * n + b) bs n = n * 256 ^ Z.of_nat (length bs) + beValue bs.
Proof.
  unfold beValue. induction bs as [|b bs IH]; intros n; cbn [fold_left length]; [lia|].
  rewrite IH, (IH (256 * 0 + b)), Nat2Z.inj_succ, Z.pow_succ_r by lia. lia.
Qed.

Lemma message_loop i : forall c message, 0 <= c ->
  length (hotpMessageLoop i c message) = (i + length message)%nat /\
  beValue (hotpMessageLoop i c message) = c mod 256 ^ Z.of_nat i * 256 ^ Z.of_nat (length message) + beValue message.
Proof.
  induction i as [|i IH]; intros c message Hc; cbn [hotpMessageLoop].
  { split; [done|]. change (256 ^ Z.of_nat 0) with 1. rewrite Z.mod_1_r. lia. }
  assert (u8 (c .& 0xff) = c mod 256) as E.
  { change 0xff with (Z.ones 8). rewrite Z.land_ones by lia. unfold u8. apply Z.mod_mod. lia. }
  rewrite E, Z.shiftr_div_pow2 by lia. change (2 ^ 8) with 256.
  destruct (IH (c / 256) (c mod 256 :: message)) as [-> ->]; [apply Z.div_pos; lia|].
  cbn [length]. split; [lia|]. unfold beValue at 1. cbn [fold_left]. rewrite beValue_from.
  rewrite !Nat2Z.inj_succ, !Z.pow_succ_r by lia.
  rewrite (Z.rem_mul_r c 256) by lia. lia.
Qed.

Lemma hotp_message_value c : length (hotpMessage c) = 8%nat /\ beValue (hotpMessage c) = u64 c.
Proof.
  unfold hotpMessage. destruct (message_loop 8 (u64 c) []) as [-> ->]; [apply u64_range|].
  split; [done|]. cbn [length]. change (256 ^ Z.of_nat 0) with 1. change (256 ^ Z.of_nat 8) with (2 ^ 64).
  rewrite Z.mod_small by apply u64_range. cbn. lia.
Qed.

Lemma modulus_pow d : MIN_DIGITS <= d <= MAX_DIGITS -> hotpModulus d = 10 ^ d.
Proof.
  unfold MIN_DIGITS, MAX_DIGITS. intros H.
  pose proof (below_forall (fun d => hotpModulus d =? 10 ^ d) 11 ltac:(vm_compute; reflexivity) d ltac:(lia)) as E.
  by apply Z.eqb_eq in E.
Qed.

(** ** The truncation *)

(** RFC 4226's number: 31 bits, big-endian, from the offset the last byte names. *)
Definition rfc4226_binary (mac : bytes) : Z :=
  beValue (take 4 (drop (Z.to_nat (List.last mac 0 mod 16)) mac)) mod 2 ^ 31.

Definition isBytes (bs : bytes) : Prop := Forall (fun b => 0 <= b < 256) bs.

Lemma binary_word b0 b1 b2 b3 :
  0 <= b0 < 256 -> 0 <= b1 < 256 -> 0 <= b2 < 256 -> 0 <= b3 < 256 ->
  ((u32 ((u8 b0 .& 0x7f) <<< 24) .| u32 (u8 b1 <<< 16)) .| u32 (u8 b2 <<< 8)) .| u8 b3
  = beValue [b0; b1; b2; b3] mod 2 ^ 31.
Proof.
  intros H0 H1 H2 H3. rewrite !u8_small by lia. rewrite land_7f.
  pose proof (Z.mod_pos_bound b0 128 ltac:(lia)).
  rewrite !u32_small by (rewrite Z.shiftl_mul_pow2 by lia; lia).
  assert (forall x y a b, 0 <= b <= a -> (x <<< a) .| (y <<< b) = (x * 2 ^ (a - b) .| y) <<< b) as Hf.
  { intros x y a b Hab. rewrite Z.shiftl_lor. f_equal.
    rewrite <- Z.shiftl_mul_pow2, Z.shiftl_shiftl by lia. f_equal. lia. }
  assert (forall x y, 0 <= y < 256 -> x * 2 ^ 8 .| y = x * 2 ^ 8 + y) as Ho.
  { intros x y Hy. rewrite <- Z.shiftl_mul_pow2 by lia. rewrite lor_shiftl_add by lia. by rewrite Z.shiftl_mul_pow2 by lia. }
  rewrite Hf by lia. change (24 - 16) with 8. rewrite Ho by lia.
  rewrite Hf by lia. change (16 - 8) with 8. rewrite Ho by lia.
  rewrite Z.shiftl_mul_pow2, Ho by lia.
  apply (Z.mod_unique_pos _ _ (b0 / 128)); unfold beValue; cbn [fold_left];
    pose proof (Z.div_mod b0 128 ltac:(lia)); lia.
Qed.

Lemma truncation_reads mac :
  isBytes mac -> (20 <= length mac)%nat -> hotpBinary mac = Some (rfc4226_binary mac).
Proof.
  intros Hb Hl. unfold hotpBinary, rfc4226_binary, qsize.
  destruct (exists_last (l := mac)) as (m & x & ->); [by intros ->; cbn in Hl; lia|].
  rewrite last_last, length_app in *. cbn [length] in *.
  replace (Z.to_nat (Z.of_nat (length m + 1) - 1)) with (length m) by lia.
  rewrite list_lookup_middle by done. cbn [mbind option_bind].
  change 0x0f with (Z.ones 4). rewrite Z.land_ones by lia. change (2 ^ 4) with 16.
  pose proof (Z.mod_pos_bound x 16 ltac:(lia)) as Hx.
  set (o := Z.to_nat (x mod 16)). assert (o <= 15)%nat as Ho by lia.
  assert (forall i, (m ++ [x]) !! (o + i)%nat = drop o (m ++ [x]) !! i) as Hd by (intros i; by rewrite lookup_drop).
  rewrite <- (Nat.add_0_r o) at 1. rewrite !Hd.
  assert (isBytes (drop o (m ++ [x]))) as Hbd by by apply Forall_drop.
  assert (length (drop o (m ++ [x])) >= 4)%nat as Hld by (rewrite length_drop, length_app; cbn [length]; lia).
  clear Hd. destruct (drop o (m ++ [x])) as [|b0 [|b1 [|b2 [|b3 rest]]]]; try (cbn in Hld; lia).
  cbn [lookup list_lookup mbind option_bind take]. do 4 apply Forall_cons in Hbd as [? Hbd].
  by rewrite binary_word.
Qed.

(** ** Decimal codes *)

Lemma decimalLoop_zeros n s : decimalLoop (replicate n 48 ++ s) 0 = decimalLoop s 0.
Proof. induction n as [|n IH]; [done|exact IH]. Qed.

Lemma argPadded_code (n d : Z) :
  0 <= n < 10 ^ d -> 0 < d ->
  length (argPadded n d) = Z.to_nat d /\ Forall (fun c => 48 <= c <= 57) (argPadded n d) /\
  unsignedText (argPadded n d) = Some n.
Proof.
  intros Hn Hd. unfold argPadded.
  assert (length (unumber 10 n) <= Z.to_nat d)%nat as Hl.
  { unfold unumber. replace (Z.to_nat d) with (S (Z.to_nat (d - 1)) + length (@nil Z))%nat by (cbn [length]; lia).
    apply number_loop_length; [lia|]. replace (Z.of_nat (S (Z.to_nat (d - 1)))) with d by lia. lia. }
  assert (length (replicate (Z.to_nat d - length (unumber 10 n)) (ch "0") ++ unumber 10 n) = Z.to_nat d) as El
    by (rewrite length_app, length_replicate; lia).
  split_and!; [done| |].
  - apply Forall_app. split; [apply Forall_replicate; change (ch "0") with 48; lia|apply unumber10_chars].
  - unfold unsignedText. pose proof (unsigned_print n ltac:(lia)) as E. unfold unsignedText in E.
    assert (isEmpty (replicate (Z.to_nat d - length (unumber 10 n)) (ch "0") ++ unumber 10 n) = false) as ->.
    { destruct (replicate _ _ ++ _); [cbn in El; lia|done]. }
    change (ch "0") with 48. rewrite decimalLoop_zeros.
    destruct (isEmpty (unumber 10 n)); [done|exact E].
Qed.

(** The code RFC 4226 prescribes: its 31-bit number in the last [d] digits. *)
Definition rfc4226_code (mac : bytes) (d : Z) (code : qstring) : Prop :=
  length code = Z.to_nat d /\ Forall (fun c => 48 <= c <= 57) code /\
  unsignedText code = Some (rfc4226_binary mac mod 10 ^ d).

Section CodeLemmas.
Context (hmac : bytes -> bytes -> HashAlgorithm -> bytes) (clock : Z).
Hypothesis hmac_bytes : forall m k a, isBytes (hmac m k a).
(** SHA-1, the shortest of the three hashes, has 20 bytes. *)
Hypothesis hmac_size : forall m k a, (20 <= length (hmac m k a))%nat.

Lemma generate_hotp_code key c a d :
  key <> [] -> MIN_DIGITS <= d <= MAX_DIGITS ->
  exists code, GenerateHOTP hmac key c a d = Some code /\
    rfc4226_code (hmac (hotpMessage c) key (toHash a)) d code.
Proof.
  intros Hk Hd. unfold GenerateHOTP.
  assert (isEmpty key = false) as -> by by destruct key. cbn [orb].
  destruct (Z.ltb_spec d MIN_DIGITS), (Z.ltb_spec MAX_DIGITS d); try lia. cbn [orb].
  pose proof (hmac_size (hotpMessage c) key (toHash a)) as Hs.
  destruct (Z.ltb_spec (qsize (hmac (hotpMessage c) key (toHash a))) 20); [unfold qsize in *; lia|].
  rewrite truncation_reads by done. cbn [mbind option_bind]. eexists. split; [done|].
  rewrite modulus_pow by done. unfold MIN_DIGITS, MAX_DIGITS in Hd. unfold rfc4226_code.
  apply argPadded_code; [apply Z.mod_pos_bound; lia|lia].
Qed.

Lemma validate_usable e :
  Validate e = None ->
  keyOf e <> [] /\ MIN_DIGITS <= digits e <= MAX_DIGITS /\
  (type e = TOTP -> MIN_PERIOD <= period e <= MAX_PERIOD).
Proof.
  unfold Validate, keyOf. destruct (isEmpty (trimmed (secret e))); [done|].
  destruct (Base32Decode (secret e)) as [key|]; [|done]. destruct (isEmpty key) eqn:Ek; [done|].
  destruct ((digits e <? MIN_DIGITS) || (MAX_DIGITS <? digits e)) eqn:Ed; [done|].
  destruct (isTOTP e && _) eqn:Ep; [done|]. intros _. bprop.
  split_and!; [by destruct key|lia|lia|..]; intros Ht; destruct Ep as [Ep|Ep];
    unfold isTOTP in Ep; rewrite ?Ht in Ep; (done || lia).
Qed.

Lemma valid_code e t :
  Validate e = None ->
  exists code, GenerateCode hmac clock e t = Some code /\
    length code = Z.to_nat (digits e) /\ Forall (fun c => 48 <= c <= 57) code.
Proof.
  intros E. unfold GenerateCode. rewrite E. destruct (validate_usable e E) as (Hk & Hd & _).
  assert (forall c, exists code, GenerateHOTP hmac (keyOf e) c (algorithm e) (digits e) = Some code /\
    length code = Z.to_nat (digits e) /\ Forall (fun c => 48 <= c <= 57) code) as H.
  { intros c. destruct (generate_hotp_code (keyOf e) c (algorithm e) (digits e) Hk Hd) as (code & Ec & Hl & Hdig & _).
    by exists code. }
  destruct (type e); apply H.
Qed.
End CodeLemmas.

(** ** Properties *)

Section Properties.
Context (hmac : bytes -> bytes -> HashAlgorithm -> bytes) (clock : Z).
Hypothesis hmac_bytes : forall m k a, isBytes (hmac m k a).
Hypothesis hmac_size : forall m k a, (20 <= length (hmac m k a))%nat.

(** C38: HOTP is RFC 4226: for a key, a counter and 4 to 10 digits the code has
    exactly that many decimal digits and is the dynamically truncated 31-bit
    number modulo the power of ten, of the authentication code of the counter's
    eight big-endian bytes; no read of the four bytes leaves the array, whatever
    offset the last byte names. *)
Theorem hotp_rfc4226 (key : bytes) (c : Z) (a : Algorithm) (d : Z)
    (Hk : key <> []) (Hd : MIN_DIGITS <= d <= MAX_DIGITS) :
  exists code message,
    length message = 8%nat /\ beValue message = u64 c /\
    GenerateHOTP hmac key c a d = Some code /\
    rfc4226_code (hmac message key (toHash a)) d code.
Proof.
  destruct (generate_hotp_code hmac hmac_bytes hmac_size key c a d Hk Hd) as (code & E & Hc).
  destruct (hotp_message_value c). by exists code, (hotpMessage c).
Qed.

(** An entry that [Validate] accepts yields a code of its number of digits
    at every time; one that it refuses yields the empty text. *)
Theorem code_iff_valid (e : OtpEntry) (t : Z) :
  exists code, GenerateCode hmac clock e t = Some code /\
    (Validate e = None <-> code <> []) /\
    (Validate e = None -> length code = Z.to_nat (digits e) /\ Forall (fun c => 48 <= c <= 57) code).
Proof.
  destruct (Validate e) as [r|] eqn:E; [exists []; unfold GenerateCode; by rewrite E|].
  destruct (valid_code hmac clock hmac_bytes hmac_size e t E) as (code & Ec & Hl & Hdig).
  exists code. split_and!; [done| |done]. split; [|done]. intros _ ->.
  destruct (validate_usable e E) as (_ & Hd & _). unfold MIN_DIGITS in Hd. cbn in Hl. lia.
Qed.

Lemma step_quot t p r : 0 <= t -> 0 < p -> 0 <= r < p - Z.rem t p -> Z.quot (t + r) p = Z.quot t p.
Proof.
  intros Ht Hp Hr. rewrite Z.rem_mod_nonneg in Hr by lia.
  rewrite !Z.quot_div_nonneg by lia. symmetry. apply (Z.div_unique_pos _ _ _ (t mod p + r)).
  - pose proof (Z.mod_pos_bound t p ltac:(lia)). lia.
  - pose proof (Z.div_mod t p ltac:(lia)). lia.
Qed.

(** [SecondsRemaining] is the time for which the shown code of a TOTP entry
    stays right: it lies between one second and the period, the code does not
    change before it has passed, and when it has passed the counter has moved
    on by exactly one. *)
Theorem totp_step (e : OtpEntry) (t : Z)
    (Hv : Validate e = None) (Ht : type e = TOTP) (Hnow : 0 <= t) :
  let s := SecondsRemaining clock e t in
  1 <= s <= period e /\
  (forall r, 0 <= r < s -> GenerateCode hmac clock e (t + r) = GenerateCode hmac clock e t) /\
  Z.quot (t + s) (period e) = Z.quot t (period e) + 1 /\ SecondsRemaining clock e (t + s) = period e.
Proof.
  destruct (validate_usable e Hv) as (_ & _ & Hp). specialize (Hp Ht). unfold MIN_PERIOD, MAX_PERIOD in Hp.
  assert (forall u, 0 <= u -> SecondsRemaining clock e u = period e - Z.rem u (period e)) as Hs.
  { intros u Hu. unfold SecondsRemaining, unixNow. rewrite Ht.
    destruct (Z.ltb_spec (period e) MIN_PERIOD); [unfold MIN_PERIOD in *; lia|].
    destruct (Z.ltb_spec u 0); [lia|]. pose proof (Z.rem_bound_pos u (period e) ltac:(lia) ltac:(lia)).
    apply sint_small; cbn; lia. }
  pose proof (Z.rem_bound_pos t (period e) ltac:(lia) ltac:(lia)) as Hr.
  cbv zeta. rewrite (Hs t) by lia. split_and!; [lia|lia|..].
  - intros r Hr'. unfold GenerateCode, unixNow. rewrite Hv, Ht.
    destruct (Z.ltb_spec (t + r) 0), (Z.ltb_spec t 0); try lia. by rewrite step_quot by lia.
  - rewrite Z.rem_mod_nonneg, !Z.quot_div_nonneg by (rewrite ?Z.rem_mod_nonneg in *; lia).
    symmetry. apply (Z.div_unique_pos _ _ _ 0); [lia|]. pose proof (Z.div_mod t (period e) ltac:(lia)). lia.
  - rewrite Hs by lia. rewrite !Z.rem_mod_nonneg by (rewrite ?Z.rem_mod_nonneg in *; lia).
    replace (t + _) with (0 + (t / period e + 1) * period e) by (pose proof (Z.div_mod t (period e) ltac:(lia)); lia).
    rewrite Z.mod_add, Z.mod_0_l by lia. lia.
Qed.
End Properties.

(** A message authentication code that depends on the message, for the examples. *)
Definition toyMac (message key : bytes) (_ : HashAlgorithm) : bytes := replicate 20 (beValue (message ++ key) mod 256).

Lemma toyMac_bytes m k a : isBytes (toyMac m k a).
Proof. apply Forall_replicate, Z.mod_pos_bound. lia. Qed.
Lemma toyMac_size m k a : (20 <= length (toyMac m k a))%nat.
Proof. unfold toyMac. by rewrite length_replicate. Qed.

Definition exampleEntry : OtpEntry :=
  MkEntry (qs "alice") (qs "Example") (qs "JBSWY3DPEHPK3PXP") SHA1 TOTP 6 30 0.

Lemma hotp_rfc4226_witness :
  [1; 2] <> [] /\ exists code message,
    length message = 8%nat /\ beValue message = u64 5 /\
    GenerateHOTP toyMac [1; 2] 5 SHA256 8 = Some code /\
    rfc4226_code (toyMac message [1; 2] (toHash SHA256)) 8 code.
Proof.
  split; [done|]. apply (hotp_rfc4226 toyMac toyMac_bytes toyMac_size [1; 2] 5 SHA256 8); [done|].
  unfold MIN_DIGITS, MAX_DIGITS. lia.
Defined.

Lemma code_iff_valid_witness :
  exists code, GenerateCode toyMac 0 exampleEntry 59 = Some code /\
    (Validate exampleEntry = None <-> code <> []) /\
    (Validate exampleEntry = None ->
       length code = Z.to_nat (digits exampleEntry) /\ Forall (fun c => 48 <= c <= 57) code).
Proof. apply (code_iff_valid toyMac 0 toyMac_bytes toyMac_size exampleEntry 59). Defined.

Lemma totp_step_witness :
  let s := SecondsRemaining 0 exampleEntry 59 in
  1 <= s <= period exampleEntry /\
  (forall r, 0 <= r < s -> GenerateCode toyMac 0 exampleEntry (59 + r) = GenerateCode toyMac 0 exampleEntry 59) /\
  Z.quot (59 + s) (period exampleEntry) = Z.quot 59 (period exampleEntry) + 1 /\
  SecondsRemaining 0 exampleEntry (59 + s) = period exampleEntry.
Proof. apply (totp_step toyMac 0 exampleEntry 59); [reflexivity|reflexivity|lia]. Defined.
