(* ===== verification/OtpLinks.v ===== *)
(** * Links and migration payloads of one-time passwords (src/src/global/OTP.cpp)

    [ExportToLink], [ParseFromLink], [ExportToMigrationLink] and
    [ParseFromMigrationLink]. A QUrl is the record of the components the code
    sets and reads; printing and parsing one, base64 and UTF-8 are Qt's and
    arguments. *)

From Stdlib Require Import Ascii String.
From S2P Require Import Prelude QtText OtpBase32 OtpWire Otp.

Local Open Scope Z_scope.
Local Open Scope throne_scope.

(** ** Problems *)

(** A line the reader of an import sees; the texts are translations whose
    arguments are the constructor's. *)
Inductive OtpProblem :=
| otpBadAlgorithm (label value : qstring)
| otpBadDigits (label value : qstring)
| otpBadPeriod (label value : qstring)
| otpBadCounter (label value : qstring)
| otpBadType (label value : qstring)
| otpNoSecret (label : qstring)
| otpBadSecret (label : qstring)
| otpBadDigitCode (label value : qstring)
| otpNotAnEntry
| otpUnreadableExport
| otpUnreadableMigration
| otpUnreadableLink
| otpShortSecret (characters : Z)
| otpNotBase32
| otpNotALink (echo : qstring).

Definition otpEntryLabel (unnamed : qstring) (e : OtpEntry) : qstring :=
  if negb (isEmpty (name e)) then name e
  else if negb (isEmpty (issuer e)) then issuer e
  else unnamed.

(** Fields of an entry, set one at a time. *)
Definition setName (x : qstring) (e : OtpEntry) : OtpEntry :=
  MkEntry x (issuer e) (secret e) (algorithm e) (type e) (digits e) (period e) (counter e).
Definition setIssuer (x : qstring) (e : OtpEntry) : OtpEntry :=
  MkEntry (name e) x (secret e) (algorithm e) (type e) (digits e) (period e) (counter e).
Definition setSecret (x : qstring) (e : OtpEntry) : OtpEntry :=
  MkEntry (name e) (issuer e) x (algorithm e) (type e) (digits e) (period e) (counter e).
Definition setAlgorithm (x : Algorithm) (e : OtpEntry) : OtpEntry :=
  MkEntry (name e) (issuer e) (secret e) x (type e) (digits e) (period e) (counter e).
Definition setType (x : OtpType) (e : OtpEntry) : OtpEntry :=
  MkEntry (name e) (issuer e) (secret e) (algorithm e) x (digits e) (period e) (counter e).
Definition setDigits (x : Z) (e : OtpEntry) : OtpEntry :=
  MkEntry (name e) (issuer e) (secret e) (algorithm e) (type e) x (period e) (counter e).
Definition setPeriod (x : Z) (e : OtpEntry) : OtpEntry :=
  MkEntry (name e) (issuer e) (secret e) (algorithm e) (type e) (digits e) x (counter e).
Definition setCounter (x : Z) (e : OtpEntry) : OtpEntry :=
  MkEntry (name e) (issuer e) (secret e) (algorithm e) (type e) (digits e) (period e) x.

(** ** QUrl *)

Record QUrl := Url {
  urlValid : bool; urlScheme : qstring; urlHost : qstring; urlPath : qstring;
  urlQuery : list (qstring * qstring) }.

Fixpoint queryItemValue (query : list (qstring * qstring)) (key : qstring) : qstring :=
  match query with
  | [] => []
  | (k, v) :: query' => if bool_decide (k = key) then v else queryItemValue query' key
  end.
Definition hasQueryItem (query : list (qstring * qstring)) (key : qstring) : bool :=
  existsb (fun kv => bool_decide (fst kv = key)) query.

(** What a link is read as: not one of this scheme, refused, or an entry. *)
Inductive LinkResult := NotOtpLink | LinkRefused (problem : OtpProblem) | LinkEntry (entry : OtpEntry).

Section Links.
Context (toUpper toLower : qstring -> qstring) (foldCase : Z -> Z) (unnamed : qstring).
Context (parseUrl : qstring -> QUrl) (printUrl : QUrl -> qstring).

(** *** otpauth links *)

Definition linkQuery (e : OtpEntry) : list (qstring * qstring) :=
    ([(qs "secret", secret e)]
     ++ (if negb (isEmpty (issuer e)) then [(qs "issuer", issuer e)] else [])
     ++ [(qs "algorithm", AlgorithmToString (algorithm e)); (qs "digits", number (digits e))]
     ++ (match type e with
         | HOTP => [(qs "counter", number (counter e))]
         | TOTP => [(qs "period", number (period e))]
         end)).
Definition linkUrl (e : OtpEntry) : QUrl :=
  Url true (qs "otpauth") (TypeToString (type e))
    (qs "/" ++ (if isEmpty (issuer e) then name e else issuer e ++ qs ":" ++ name e))
    (linkQuery e).
Definition ExportToLink (e : OtpEntry) : qstring := printUrl (linkUrl e).

(** The label and the issuer item give the name and the issuer. *)
Definition linkLabel (url : QUrl) : OtpEntry :=
  let label := urlPath url in
  let label := if startsWithC (ch "/") label then drop 1 label else label in
  let e := match indexOf (ch ":") label with
           | Some sep => setName (trimmed (drop (sep + 1) label))
                           (setIssuer (trimmed (take sep label)) defaultEntry)
           | None => setName (trimmed label) defaultEntry
           end in
  let issuerItem := trimmed (queryItemValue (urlQuery url) (qs "issuer")) in
  let e := if negb (isEmpty issuerItem) then setIssuer issuerItem e else e in
  if isEmpty (name e) then setName (issuer e) e else e.

Definition linkAlgorithm (query : list (qstring * qstring)) (e : OtpEntry) : OtpEntry + OtpProblem :=
  if hasQueryItem query (qs "algorithm") then
    let text := queryItemValue query (qs "algorithm") in
    let '(a, ok) := AlgorithmFromString toUpper text in
    if negb ok then inr (otpBadAlgorithm (otpEntryLabel unnamed (setAlgorithm a e)) text) else inl (setAlgorithm a e)
  else inl e.

Definition linkDigits (query : list (qstring * qstring)) (e : OtpEntry) : OtpEntry + OtpProblem :=
  if hasQueryItem query (qs "digits") then
    let text := trimmed (queryItemValue query (qs "digits")) in
    match toInt text with
    | Some d => if (d <? MIN_DIGITS) || (MAX_DIGITS <? d) then inr (otpBadDigits (otpEntryLabel unnamed e) text)
                else inl (setDigits d e)
    | None => inr (otpBadDigits (otpEntryLabel unnamed e) text)
    end
  else inl e.

Definition linkPeriod (query : list (qstring * qstring)) (e : OtpEntry) : OtpEntry + OtpProblem :=
  if isTOTP e && hasQueryItem query (qs "period") then
    let text := trimmed (queryItemValue query (qs "period")) in
    match toInt text with
    | Some p => if (p <? MIN_PERIOD) || (MAX_PERIOD <? p) then inr (otpBadPeriod (otpEntryLabel unnamed e) text)
                else inl (setPeriod p e)
    | None => inr (otpBadPeriod (otpEntryLabel unnamed e) text)
    end
  else inl e.

Definition linkCounter (query : list (qstring * qstring)) (e : OtpEntry) : OtpEntry + OtpProblem :=
  if negb (isTOTP e) && hasQueryItem query (qs "counter") then
    let text := trimmed (queryItemValue query (qs "counter")) in
    match toLongLong text with
    | Some c => if c <? 0 then inr (otpBadCounter (otpEntryLabel unnamed e) text) else inl (setCounter c e)
    | None => inr (otpBadCounter (otpEntryLabel unnamed e) text)
    end
  else inl e.

Definition andThen (r : OtpEntry + OtpProblem) (f : OtpEntry -> OtpEntry + OtpProblem) : OtpEntry + OtpProblem :=
  match r with inl e => f e | inr p => inr p end.

Definition ParseFromLink (link : qstring) : LinkResult :=
  let url := parseUrl (trimmed link) in
  if negb (urlValid url) || negb (equalCI foldCase (urlScheme url) (qs "otpauth")) then NotOtpLink
  else
    let query := urlQuery url in
    let e := linkLabel url in
    let '(t, ok) := TypeFromString toLower (urlHost url) in
    let e := setType t e in
    if negb ok then LinkRefused (otpBadType (otpEntryLabel unnamed e) (urlHost url))
    else
      let text := queryItemValue query (qs "secret") in
      if isEmpty (trimmed text) then LinkRefused (otpNoSecret (otpEntryLabel unnamed e))
      else
        let e := setSecret (NormalizeSecret text) e in
        if isEmpty (secret e) then LinkRefused (otpBadSecret (otpEntryLabel unnamed e))
        else match andThen (andThen (andThen (linkAlgorithm query e) (linkDigits query))
                              (linkPeriod query)) (linkCounter query) with
             | inl e => LinkEntry e
             | inr p => LinkRefused p
             end.

(** *** Migration payloads *)

Context (toUtf8 : qstring -> bytes) (fromUtf8 : bytes -> qstring)
        (toBase64 : bytes -> bytes) (fromBase64 : bytes -> bytes).

Definition migrationAlgorithm (value : Z) : option Algorithm :=
  if (value =? 0) || (value =? 1) then Some SHA1
  else if value =? 2 then Some SHA256
  else if value =? 3 then Some SHA512
  else None.
Definition migrationAlgorithmValue (a : Algorithm) : Z :=
  match a with SHA256 => 2 | SHA512 => 3 | _ => 1 end.

Definition entryParameters (e : OtpEntry) (key : bytes) : bytes :=
  let p := pbWriteBytes [] 1 key in
  let p := pbWriteBytes p 2 (toUtf8 (name e)) in
  let p := if negb (isEmpty (issuer e)) then pbWriteBytes p 3 (toUtf8 (issuer e)) else p in
  let p := pbWriteUint p 4 (migrationAlgorithmValue (algorithm e)) in
  let p := pbWriteUint p 5 (if digits e =? 8 then 2 else 1) in
  let p := pbWriteUint p 6 (match type e with HOTP => 1 | TOTP => 2 end) in
  match type e with HOTP => pbWriteUint p 7 (u64 (counter e)) | TOTP => p end.

Definition exportEntry (payload : bytes) (e : OtpEntry) : bytes :=
  match Base32Decode (secret e) with
  | Some key => if isEmpty key then payload else pbWriteBytes payload 1 (entryParameters e key)
  | None => payload
  end.

(** Empty when no entry has a key. *)
Definition migrationPayload (entries : list OtpEntry) : bytes :=
  let payload := fold_left exportEntry entries [] in
  if isEmpty payload then []
  else pbWriteUint (pbWriteUint (pbWriteUint payload 2 1) 3 1) 4 0.

Definition migrationUrl (payload : bytes) : QUrl :=
  Url true (qs "otpauth-migration") (qs "offline") [] [(qs "data", fromUtf8 (toBase64 payload))].

Definition ExportToMigrationLink (entries : list OtpEntry) : qstring :=
  let payload := migrationPayload entries in
  if isEmpty payload then [] else printUrl (migrationUrl payload).

Record MigrationState := MState {
  mEntry : OtpEntry; haveSecret : bool;
  badAlgorithm : option Z; badDigits : option Z; badType : option Z }.

Definition migrationField (st : MigrationState) (fd : PbField) : MigrationState :=
  let '(MState e have ba bd bt) := st in
  let f := fieldNumber fd in
  let v := varint fd in
  let b := payload fd in
  if f =? 1 then MState (setSecret (Base32Encode b) e) (negb (isEmpty b)) ba bd bt
  else if f =? 2 then MState (setName (fromUtf8 b) e) have ba bd bt
  else if f =? 3 then MState (setIssuer (fromUtf8 b) e) have ba bd bt
  else if f =? 4 then
    match migrationAlgorithm v with
    | Some a => MState (setAlgorithm a e) have ba bd bt
    | None => MState e have (Some v) bd bt
    end
  else if f =? 5 then
    if v <=? 2 then MState (setDigits (if v =? 2 then 8 else DEFAULT_DIGITS) e) have ba bd bt
    else MState e have ba (Some v) bt
  else if f =? 6 then
    if v <=? 2 then MState (setType (if v =? 1 then HOTP else TOTP) e) have ba bd bt
    else MState e have ba bd (Some v)
  else if f =? 7 then MState (setCounter (i64 v) e) have ba bd bt
  else MState e have ba bd bt.

(** A reader's loop over the fields of a message: [None] is its [return false].
    Every round consumes a byte, so the length of the message is fuel enough. *)
Fixpoint fieldLoop {A} (step : A -> PbField -> option A) (fuel : nat) (input : bytes) (st : A) : option A :=
  match input, fuel with
  | [], _ => Some st
  | _ :: _, O => None
  | _ :: _, S fuel' =>
      '(fd, rest) ← pbReadField input;
      st ← step st fd;
      fieldLoop step fuel' rest st
  end.

Definition migrationEntry (message : bytes) : option MigrationState :=
  fieldLoop (fun st fd => Some (migrationField st fd)) (length message) message
    (MState defaultEntry false None None None).

Definition migrationOutcome (st : MigrationState) : OtpEntry + OtpProblem :=
  let e := mEntry st in
  let e := if isEmpty (name e) then setName (issuer e) e else e in
  let label := otpEntryLabel unnamed e in
  if negb (haveSecret st) then inr (otpNoSecret label)
  else match badAlgorithm st, badDigits st, badType st with
       | Some v, _, _ => inr (otpBadAlgorithm label (if v =? 4 then qs "MD5" else number v))
       | None, Some v, _ => inr (otpBadDigitCode label (number v))
       | None, None, Some v => inr (otpBadType label (number v))
       | None, None, None => inl e
       end.

Definition migrationItem (acc : list OtpEntry * list OtpProblem) (fd : PbField)
  : option (list OtpEntry * list OtpProblem) :=
  let '(entries, skipped) := acc in
  if negb (fieldNumber fd =? 1) || negb (wireType fd =? 2) then Some acc
  else st ← migrationEntry (payload fd);
       match migrationOutcome st with
       | inl e => Some (entries ++ [e], skipped)
       | inr p => Some (entries, skipped ++ [p])
       end.

Definition readMigrationPayload (input : bytes) : option (list OtpEntry * list OtpProblem) :=
  fieldLoop migrationItem (length input) input ([], []).

(** The entries when the function returns true, and the lines added to [problems]. *)
Definition ParseFromMigrationLink (link : qstring) : option (list OtpEntry) * list OtpProblem :=
  let url := parseUrl (trimmed link) in
  if negb (urlValid url) || negb (equalCI foldCase (urlScheme url) (qs "otpauth-migration")) then (None, [])
  else
    let data := queryItemValue (urlQuery url) (qs "data") in
    if isEmpty data then (None, [])
    else
      let input := fromBase64 (toUtf8 data) in
      if isEmpty input then (None, [])
      else match readMigrationPayload input with
           | None => (None, [])
           | Some (entries, skipped) => (if isEmpty entries then None else Some entries, skipped)
           end.
End Links.

(** ** Entries an import accepts *)

(** A usable entry whose secret is in normal form. *)
Definition sound_entry (e : OtpEntry) : Prop :=
  Validate e = None /\ NormalizeSecret (secret e) = secret e.

Lemma sound_entry_intro e key :
  isBytes key -> key <> [] -> secret e = Base32Encode key ->
  MIN_DIGITS <= digits e <= MAX_DIGITS ->
  (type e = TOTP -> MIN_PERIOD <= period e <= MAX_PERIOD) -> sound_entry e.
Proof.
  intros Hb Hk Hs Hd Hp. pose proof (decode_encode key Hb) as Hdec. pose proof (encode_noSpace key Hb) as Hn.
  split.
  - unfold Validate. rewrite Hs, trimmed_noSpace, Hdec by done.
    destruct key as [|b key]; [done|]. apply Forall_cons in Hb as [Hb Hbs].
    pose proof (encode_nonempty b key Hb Hbs) as Hne. destruct (Base32Encode (b :: key)); [done|]. cbn [isEmpty].
    destruct (Z.ltb_spec (digits e) MIN_DIGITS), (Z.ltb_spec MAX_DIGITS (digits e)); try lia. cbn [orb].
    unfold isTOTP. destruct (type e); [|done]. specialize (Hp eq_refl).
    destruct (Z.ltb_spec (period e) MIN_PERIOD), (Z.ltb_spec MAX_PERIOD (period e)); (done || lia).
  - rewrite Hs. unfold NormalizeSecret. rewrite Hdec. by destruct key.
Qed.

Lemma normalize_key s : NormalizeSecret s <> [] ->
  exists key, isBytes key /\ key <> [] /\ NormalizeSecret s = Base32Encode key /\ Base32Decode s = Some key.
Proof.
  intros H. pose proof H as (b & bs & E)%normalize_nonempty. exists (b :: bs).
  split_and!; [by eapply decode_bytes|done| |done]. unfold NormalizeSecret. by rewrite E.
Qed.

(** What the optional items of a link may do to an entry. *)
Definition ranges_ok (e : OtpEntry) : Prop :=
  MIN_DIGITS <= digits e <= MAX_DIGITS /\ MIN_PERIOD <= period e <= MAX_PERIOD /\ 0 <= counter e < 2 ^ 63.

Section LinkSound.
Context (toUpper toLower : qstring -> qstring) (foldCase : Z -> Z) (unnamed : qstring).
Context (parseUrl : qstring -> QUrl) (printUrl : QUrl -> qstring).

Definition keeps (f : OtpEntry -> OtpEntry + OtpProblem) : Prop :=
  forall e e', f e = inl e' -> ranges_ok e -> ranges_ok e' /\ secret e' = secret e.

Lemma keeps_then r f e' : keeps f -> andThen r f = inl e' ->
  exists e, r = inl e /\ f e = inl e'.
Proof. intros Hf. destruct r as [e|p]; cbn; [eauto|done]. Qed.

Lemma keeps_algorithm query : keeps (linkAlgorithm toUpper unnamed query).
Proof.
  intros e e'. unfold linkAlgorithm. destruct (hasQueryItem _ _); [|by intros [= <-]].
  destruct (AlgorithmFromString _ _) as [a [|]]; [|done]. by intros [= <-].
Qed.

Lemma keeps_digits query : keeps (linkDigits unnamed query).
Proof.
  intros e e'. unfold linkDigits. destruct (hasQueryItem _ _); [|by intros [= <-]].
  destruct (toInt _) as [d|]; [|done]. destruct (_ || _) eqn:E; [done|]. intros [= <-] (Hd & Hp & Hc).
  bprop. split; [|done]. unfold ranges_ok. cbn [digits period counter setDigits]. lia.
Qed.

Lemma keeps_period query : keeps (linkPeriod unnamed query).
Proof.
  intros e e'. unfold linkPeriod. destruct (isTOTP e && _); [|by intros [= <-]].
  destruct (toInt _) as [d|]; [|done]. destruct (_ || _) eqn:E; [done|]. intros [= <-] (Hd & Hp & Hc).
  bprop. split; [|done]. unfold ranges_ok. cbn [digits period counter setPeriod]. lia.
Qed.

Lemma keeps_counter query : keeps (linkCounter unnamed query).
Proof.
  intros e e'. unfold linkCounter. destruct (negb (isTOTP e) && _); [|by intros [= <-]].
  destruct (toLongLong _) as [d|] eqn:Ed; [|done]. destruct (_ <? _) eqn:E; [done|]. intros [= <-] (Hd & Hp & Hc).
  bprop. apply toIntegerIn_range in Ed. split; [|done]. unfold ranges_ok.
  cbn [digits period counter setCounter]. lia.
Qed.

Lemma linkLabel_ranges url : ranges_ok (linkLabel url).
Proof.
  assert (forall e, ranges_ok e -> forall x, ranges_ok (setName x e) /\ ranges_ok (setIssuer x e)) as H by done.
  assert (ranges_ok defaultEntry) as Hd by (unfold ranges_ok, MIN_DIGITS, MAX_DIGITS, MIN_PERIOD, MAX_PERIOD; cbn; unfold DEFAULT_DIGITS, DEFAULT_PERIOD; lia).
  unfold linkLabel. cbv zeta. repeat case_match; repeat (apply H); done.
Qed.

Lemma link_entry_sound link e :
  ParseFromLink toUpper toLower foldCase unnamed parseUrl link = LinkEntry e ->
  sound_entry e /\ ranges_ok e.
Proof.
  unfold ParseFromLink. cbv zeta. destruct (_ || _); [done|].
  destruct (TypeFromString _ _) as [t [|]]; [|done]. cbn [negb].
  destruct (isEmpty (trimmed _)); [done|]. cbn [secret setSecret].
  destruct (isEmpty (NormalizeSecret _)) eqn:Es; [done|].
  set (s := queryItemValue _ (qs "secret")) in *.
  destruct (andThen _ _) as [e'|] eqn:Et; [|done]. intros [= ->].
  apply keeps_then in Et as (e3 & Et & H4%keeps_counter); [|apply keeps_counter].
  apply keeps_then in Et as (e2 & Et & H3%keeps_period); [|apply keeps_period].
  apply keeps_then in Et as (e1 & H1%keeps_algorithm & H2%keeps_digits); [|apply keeps_digits].
  assert (ranges_ok (setSecret (NormalizeSecret s) (setType t (linkLabel (parseUrl (trimmed link)))))) as H0
    by exact (linkLabel_ranges (parseUrl (trimmed link))).
  destruct (H1 H0) as [R1 S1]. destruct (H2 R1) as [R2 S2]. destruct (H3 R2) as [R3 S3].
  destruct (H4 R3) as [R4 S4]. split; [|done].
  destruct (normalize_key s) as (key & Hb & Hk & E & _); [by destruct (NormalizeSecret s)|].
  apply (sound_entry_intro e key); [done|done| |apply R4|intros _; apply R4].
  rewrite S4, S3, S2, S1. exact E.
Qed.
End LinkSound.

(** ** Links survive *)

(** Upper-case (lower-case) ASCII text is its own upper (lower) case. *)
Definition upper_keeps (toUpper : qstring -> qstring) : Prop :=
  forall s, forallb (fun c => ((65 <=? c) && (c <=? 90)) || ((48 <=? c) && (c <=? 57))) s = true -> toUpper s = s.
Definition lower_keeps (toLower : qstring -> qstring) : Prop :=
  forall s, forallb (fun c => (97 <=? c) && (c <=? 122)) s = true -> toLower s = s.

Lemma algorithm_name_roundtrip toUpper a :
  upper_keeps toUpper -> AlgorithmFromString toUpper (AlgorithmToString a) = (a, true).
Proof.
  intros H. unfold AlgorithmFromString.
  assert (trimmed (AlgorithmToString a) = AlgorithmToString a) as -> by by destruct a.
  rewrite H by by destruct a. by destruct a.
Qed.

Lemma type_name_roundtrip toLower t :
  lower_keeps toLower -> TypeFromString toLower (TypeToString t) = (t, true).
Proof.
  intros H. unfold TypeFromString.
  assert (trimmed (TypeToString t) = TypeToString t) as -> by by destruct t.
  rewrite H by by destruct t. by destruct t.
Qed.

(** What a link keeps of an entry: the other type's parameter is not written. *)
Definition linkForm (e : OtpEntry) : OtpEntry :=
  MkEntry (if isEmpty (name e) then issuer e else name e) (issuer e) (NormalizeSecret (secret e))
    (algorithm e) (type e) (digits e)
    (match type e with TOTP => period e | HOTP => DEFAULT_PERIOD end)
    (match type e with HOTP => counter e | TOTP => 0 end).

(** Names a label can hold: trimmed, and without the colon that separates the
    issuer from the name. *)
Record label_ok (e : OtpEntry) : Prop := {
  label_name : trimmed (name e) = name e;
  label_issuer : trimmed (issuer e) = issuer e;
  label_issuer_colon : free (ch ":") (issuer e);
  label_name_colon : issuer e = [] -> free (ch ":") (name e) }.

(** The items of an exported link. *)
Lemma link_items e :
  queryItemValue (linkQuery e) (qs "secret") = secret e /\
  queryItemValue (linkQuery e) (qs "issuer") = issuer e /\
  queryItemValue (linkQuery e) (qs "algorithm") = AlgorithmToString (algorithm e) /\
  hasQueryItem (linkQuery e) (qs "algorithm") = true /\
  queryItemValue (linkQuery e) (qs "digits") = number (digits e) /\
  hasQueryItem (linkQuery e) (qs "digits") = true.
Proof.
  unfold linkQuery. set (n := number (digits e)). set (a := AlgorithmToString (algorithm e)).
  destruct (issuer e), (type e); split_and!; reflexivity.
Qed.

Lemma link_type_items e :
  match type e with
  | TOTP => queryItemValue (linkQuery e) (qs "period") = number (period e) /\
            hasQueryItem (linkQuery e) (qs "period") = true
  | HOTP => queryItemValue (linkQuery e) (qs "counter") = number (counter e) /\
            hasQueryItem (linkQuery e) (qs "counter") = true
  end.
Proof.
  unfold linkQuery. set (n := number (period e)). set (m := number (counter e)).
  destruct (issuer e), (type e); split_and!; reflexivity.
Qed.

Lemma qs_slash x : qs "/" ++ x = ch "/" :: x.
Proof. done. Qed.
Lemma qs_colon x : qs ":" ++ x = ch ":" :: x.
Proof. done. Qed.

Lemma link_label e : label_ok e ->
  linkLabel (linkUrl e) =
    MkEntry (if isEmpty (name e) then issuer e else name e) (issuer e) [] SHA1 TOTP DEFAULT_DIGITS DEFAULT_PERIOD 0.
Proof.
  intros [Hn Hi Hc Hcn]. unfold linkLabel, linkUrl. cbn [urlPath urlQuery].
  destruct (link_items e) as (_ & -> & _). rewrite Hi.
  rewrite qs_slash. cbn [startsWithC]. rewrite Z.eqb_refl. cbv zeta. cbn [drop skipn]. rewrite drop_0.
  destruct (issuer e) as [|c i] eqn:Ei; cbn [isEmpty negb app].
  - rewrite indexOf_free by by apply Hcn. rewrite Hn. cbn. by destruct (name e).
  - rewrite qs_colon, (app_comm_cons i). rewrite indexOf_app by done. rewrite drop_app_add, take_app_length. cbn [drop skipn].
    rewrite drop_0, Hi, Hn. cbn [isEmpty negb name setIssuer setName]. by destruct (name e).
Qed.

Section LinkRoundTrip.
Context (toUpper toLower : qstring -> qstring) (foldCase : Z -> Z) (unnamed : qstring).
Context (parseUrl : qstring -> QUrl) (printUrl : QUrl -> qstring).
Hypothesis upper : upper_keeps toUpper.
Hypothesis lower : lower_keeps toLower.

Lemma number_item (lo hi n : Z) : lo <= n <= hi -> toIntegerIn lo hi (trimmed (number n)) = Some n.
Proof. intros H. rewrite trimmed_noSpace by apply number_noSpace. by apply toIntegerIn_number. Qed.

(** Each optional item of an exported link sets its field. *)
Lemma read_algorithm e x :
  linkAlgorithm toUpper unnamed (linkQuery e) x = inl (setAlgorithm (algorithm e) x).
Proof.
  unfold linkAlgorithm. destruct (link_items e) as (_ & _ & -> & -> & _).
  by rewrite algorithm_name_roundtrip by done.
Qed.

Lemma read_digits e x : MIN_DIGITS <= digits e <= MAX_DIGITS ->
  linkDigits unnamed (linkQuery e) x = inl (setDigits (digits e) x).
Proof.
  unfold linkDigits. intros H. destruct (link_items e) as (_ & _ & _ & _ & -> & ->).
  unfold toInt. rewrite number_item by (unfold MIN_DIGITS, MAX_DIGITS in H; lia).
  destruct (Z.ltb_spec (digits e) MIN_DIGITS), (Z.ltb_spec MAX_DIGITS (digits e)); (lia || done).
Qed.

Lemma read_period e x : type x = type e -> (type e = TOTP -> MIN_PERIOD <= period e <= MAX_PERIOD) ->
  linkPeriod unnamed (linkQuery e) x =
    inl (match type e with TOTP => setPeriod (period e) x | HOTP => x end).
Proof.
  unfold linkPeriod, isTOTP. intros -> H. pose proof (link_type_items e) as Hi.
  destruct (type e); [|done]. destruct Hi as [-> ->]. specialize (H eq_refl). cbn [andb].
  unfold toInt. rewrite number_item by (unfold MIN_PERIOD, MAX_PERIOD in H; lia).
  destruct (Z.ltb_spec (period e) MIN_PERIOD), (Z.ltb_spec MAX_PERIOD (period e)); (lia || done).
Qed.

Lemma read_counter e x : type x = type e -> 0 <= counter e < 2 ^ 63 ->
  linkCounter unnamed (linkQuery e) x =
    inl (match type e with TOTP => x | HOTP => setCounter (counter e) x end).
Proof.
  unfold linkCounter, isTOTP. intros -> H. pose proof (link_type_items e) as Hi.
  destruct (type e); [done|]. destruct Hi as [-> ->]. cbn [andb negb].
  unfold toLongLong. rewrite number_item by lia. destruct (Z.ltb_spec (counter e) 0); (lia || done).
Qed.

(** An entry survives its otpauth link: for a usable entry whose names a
    label can hold, and a URL library that reads back the URL it printed,
    parsing the exported link is not refused and gives the entry, with the
    secret in normal form, the period kept for TOTP and the counter for HOTP,
    and an empty name replaced by the issuer. *)
Theorem link_roundtrip (e : OtpEntry)
    (Hurl : parseUrl (trimmed (printUrl (linkUrl e))) = linkUrl e)
    (Hv : Validate e = None) (Hl : label_ok e) (Hc : 0 <= counter e < 2 ^ 63) :
  ParseFromLink toUpper toLower foldCase unnamed parseUrl (ExportToLink printUrl e) = LinkEntry (linkForm e).
Proof.
  unfold ParseFromLink, ExportToLink. rewrite Hurl, link_label by done. cbv zeta.
  cbn [urlScheme urlValid urlHost linkUrl urlQuery]. unfold equalCI. rewrite bool_decide_true by done.
  cbn [negb orb]. rewrite type_name_roundtrip by done. cbn [negb].
  destruct (link_items e) as (-> & _).
  destruct (validate_usable e Hv) as (Hk & Hd & Hp).
  assert (isEmpty (trimmed (secret e)) = false) as ->
    by (unfold Validate in Hv; by destruct (isEmpty (trimmed (secret e)))).
  assert (isEmpty (NormalizeSecret (secret e)) = false) as Hs.
  { assert (NormalizeSecret (secret e) <> []) as Hn; [|by destruct (NormalizeSecret (secret e))].
    unfold keyOf in Hk. destruct (Base32Decode (secret e)) as [[|b key]|] eqn:E; [done| |done].
    apply normalize_nonempty. eauto. }
  cbn [secret setSecret]. rewrite Hs, read_algorithm. cbn [andThen]. rewrite read_digits by done. cbn [andThen].
  rewrite read_period by done. cbn [andThen]. rewrite read_counter by (try destruct (type e); done).
  unfold linkForm. by destruct (type e).
Qed.
End LinkRoundTrip.

Lemma link_roundtrip_witness :
  Validate exampleEntry = None /\
  ParseFromLink id id id [] (fun _ => linkUrl exampleEntry) (ExportToLink urlPath exampleEntry)
    = LinkEntry (linkForm exampleEntry).
Proof.
  split; [reflexivity|].
  apply (link_roundtrip id id id [] (fun _ => linkUrl exampleEntry) urlPath); try done.
  split; try reflexivity; [|done]. repeat constructor; discriminate.
Defined.

(** ** Migration payloads survive *)

(** The fields of a message, as a relation: what the loops read. *)
Inductive fields_of : bytes -> list PbField -> Prop :=
| fields_nil : fields_of [] []
| fields_cons input fd rest fds :
    pbReadField input = Some (fd, rest) -> fields_of rest fds -> fields_of input (fd :: fds).

Fixpoint foldFields {A} (step : A -> PbField -> option A) (fds : list PbField) (st : A) : option A :=
  match fds with
  | [] => Some st
  | fd :: fds' => st ← step st fd; foldFields step fds' st
  end.

Lemma read_field_nil : pbReadField [] = None.
Proof. done. Qed.

(** Enough fuel makes the loop the fold over the fields: it never stops early. *)
Lemma fieldLoop_fields {A} (step : A -> PbField -> option A) input fds :
  fields_of input fds -> forall fuel st, (length input <= fuel)%nat ->
  fieldLoop step fuel input st = foldFields step fds st.
Proof.
  induction 1 as [|input fd rest fds Hr Hf IH]; intros fuel st Hl; [by destruct fuel|].
  pose proof (read_field_shorter _ _ _ Hr) as Hs.
  destruct input as [|c input]; [done|]. destruct fuel as [|fuel]; [cbn in Hl; lia|].
  cbn [fieldLoop foldFields]. rewrite Hr. cbn [mbind option_bind].
  destruct (step st fd) as [st'|]; [|done]. cbn [mbind option_bind]. apply IH. cbn in *. lia.
Qed.

Lemma fieldLoop_some {A} (step : A -> PbField -> option A) fuel : forall input st r,
  fieldLoop step fuel input st = Some r -> exists fds, fields_of input fds /\ foldFields step fds st = Some r.
Proof.
  induction fuel as [|fuel IH]; intros input st r; (destruct input as [|c input]; cbn [fieldLoop];
    [intros [= ->]; exists []; split; [constructor|done]|]); [done|].
  destruct (pbReadField (c :: input)) as [[fd rest]|] eqn:Er; [|done]. cbn [mbind option_bind].
  destruct (step st fd) as [st'|] eqn:Es; [|done]. cbn [mbind option_bind]. intros (fds & Hf & Hd)%IH.
  exists (fd :: fds). split; [by econstructor|]. cbn [foldFields]. by rewrite Es.
Qed.

Lemma fields_bytes f b rest fds : 0 <= f < 2 ^ 28 -> qsize b < 2 ^ 31 ->
  fields_of rest fds -> fields_of (pbWriteBytes [] f b ++ rest) (Field f 2 0 b :: fds).
Proof. intros Hf Hb H. econstructor; [by apply read_bytes|done]. Qed.

Lemma fields_uint f v rest fds : 0 <= f < 2 ^ 28 -> 0 <= v < 2 ^ 64 ->
  fields_of rest fds -> fields_of (pbWriteUint [] f v ++ rest) (Field f 0 v [] :: fds).
Proof. intros Hf Hb H. econstructor; [by apply read_uint|done]. Qed.

Lemma write_bytes_size f b : qsize b <= qsize (pbWriteBytes [] f b).
Proof. unfold qsize, pbWriteBytes. rewrite length_app. lia. Qed.

(** What Google Authenticator's format keeps of an entry. *)
Definition migratedDigits (d : Z) : Z := if d =? 8 then 8 else DEFAULT_DIGITS.
Definition migrated (e : OtpEntry) : OtpEntry :=
  MkEntry (if isEmpty (name e) then issuer e else name e) (issuer e) (NormalizeSecret (secret e))
    (algorithm e) (type e) (migratedDigits (digits e)) DEFAULT_PERIOD
    (match type e with HOTP => counter e | TOTP => 0 end).

Definition has_key (e : OtpEntry) : bool := negb (isEmpty (keyOf e)).

Section MigrationRoundTrip.
Context (foldCase : Z -> Z) (unnamed : qstring).
Context (parseUrl : qstring -> QUrl) (printUrl : QUrl -> qstring).
Context (toUtf8 : qstring -> bytes) (fromUtf8 : bytes -> qstring)
        (toBase64 : bytes -> bytes) (fromBase64 : bytes -> bytes).

Record migration_ok (e : OtpEntry) : Prop := {
  mig_name : fromUtf8 (toUtf8 (name e)) = name e;
  mig_issuer : fromUtf8 (toUtf8 (issuer e)) = issuer e;
  mig_counter : - 2 ^ 63 <= counter e < 2 ^ 63;
  mig_size : qsize (entryParameters toUtf8 e (keyOf e)) < 2 ^ 31 }.

Definition typeField (e : OtpEntry) : PbField := Field 6 0 (match type e with HOTP => 1 | TOTP => 2 end) [].
Definition parameterFields (e : OtpEntry) : list PbField :=
  [Field 1 2 0 (keyOf e); Field 2 2 0 (toUtf8 (name e))] ++
  (if isEmpty (issuer e) then [] else [Field 3 2 0 (toUtf8 (issuer e))]) ++
  [Field 4 0 (migrationAlgorithmValue (algorithm e)) [];
   Field 5 0 (if digits e =? 8 then 2 else 1) []; typeField e] ++
  (match type e with HOTP => [Field 7 0 (u64 (counter e)) []] | TOTP => [] end).

Lemma parameters_parts e :
  entryParameters toUtf8 e (keyOf e) =
    pbWriteBytes [] 1 (keyOf e) ++ pbWriteBytes [] 2 (toUtf8 (name e)) ++
    (if isEmpty (issuer e) then [] else pbWriteBytes [] 3 (toUtf8 (issuer e))) ++
    pbWriteUint [] 4 (migrationAlgorithmValue (algorithm e)) ++
    pbWriteUint [] 5 (if digits e =? 8 then 2 else 1) ++
    pbWriteUint [] 6 (match type e with HOTP => 1 | TOTP => 2 end) ++
    (match type e with HOTP => pbWriteUint [] 7 (u64 (counter e)) | TOTP => [] end).
Proof.
  unfold entryParameters. cbv zeta.
  rewrite (write_bytes_app (pbWriteBytes [] 1 _)).
  destruct (isEmpty (issuer e)), (type e); cbn [negb app];
    rewrite ?(write_bytes_app (_ ++ _)), ?(write_uint_app (_ ++ _)), <- ?app_assoc, ?app_nil_r; try done.
Qed.

Lemma parameters_fields e : migration_ok e ->
  fields_of (entryParameters toUtf8 e (keyOf e)) (parameterFields e).
Proof.
  intros [_ _ _ Hs]. rewrite parameters_parts in *.
  pose proof (write_bytes_size 1 (keyOf e)). pose proof (write_bytes_size 2 (toUtf8 (name e))).
  pose proof (write_bytes_size 3 (toUtf8 (issuer e))).
  assert (forall a b : bytes, qsize (a ++ b) = qsize a + qsize b) as Ha by (intros a b; unfold qsize; rewrite length_app; lia).
  assert (forall b : bytes, 0 <= qsize b) as Hz by (intros b; unfold qsize; lia).
  set (rest := pbWriteUint [] 4 _ ++ _) in *.
  assert (fields_of rest ([Field 4 0 (migrationAlgorithmValue (algorithm e)) [];
    Field 5 0 (if digits e =? 8 then 2 else 1) []; typeField e] ++
    (match type e with HOTP => [Field 7 0 (u64 (counter e)) []] | TOTP => [] end))) as Hr.
  { subst rest. cbn [app]. apply fields_uint; [lia|by destruct (algorithm e)|].
    apply fields_uint; [lia|by destruct (digits e =? 8)|]. unfold typeField.
    destruct (type e); (apply fields_uint; [lia|done|]); [constructor|].
    rewrite <- (app_nil_r (pbWriteUint [] 7 _)). apply fields_uint; [lia|apply u64_range|constructor]. }
  clearbody rest. rewrite !Ha in Hs. unfold parameterFields. cbn [app].
  pose proof (Hz rest). pose proof (Hz (pbWriteBytes [] 1 (keyOf e))). pose proof (Hz (pbWriteBytes [] 2 (toUtf8 (name e)))).
  apply fields_bytes; [lia| |apply fields_bytes; [lia| |]].
  - destruct (isEmpty (issuer e)); pose proof (Hz []); pose proof (Hz (toUtf8 (issuer e))); lia.
  - destruct (isEmpty (issuer e)); pose proof (Hz []); pose proof (Hz (toUtf8 (issuer e))); lia.
  - destruct (isEmpty (issuer e)); [exact Hr|]. apply fields_bytes; [lia|lia|exact Hr].
Qed.

Lemma i64_u64 c : - 2 ^ 63 <= c < 2 ^ 63 -> i64 (u64 c) = c.
Proof.
  intros H. unfold i64, u64, sint. rewrite Z.mod_mod by lia. fold (sint 64 c). by apply sint_small.
Qed.

(** Reading the parameters of an entry gives the entry the format keeps. *)
Lemma migration_entry e : migration_ok e -> has_key e = true ->
  exists st, migrationEntry fromUtf8 (entryParameters toUtf8 e (keyOf e)) = Some st /\
             migrationOutcome unnamed st = inl (migrated e).
Proof.
  intros Hok Hk. pose proof (parameters_fields e Hok) as Hf. destruct Hok as [Hn Hi Hc _].
  unfold migrationEntry. rewrite (fieldLoop_fields _ _ _ Hf) by lia.
  assert (negb (isEmpty (keyOf e)) = true) as Hk' by exact Hk.
  assert (NormalizeSecret (secret e) = Base32Encode (keyOf e)) as Hs.
  { unfold NormalizeSecret, keyOf in *. by destruct (Base32Decode (secret e)) as [[|b k]|]. }
  unfold parameterFields, typeField. eexists.
  set (E := MkEntry (name e) (issuer e) (Base32Encode (keyOf e)) (algorithm e) (type e)
    (migratedDigits (digits e)) DEFAULT_PERIOD (match type e with HOTP => counter e | TOTP => 0 end)).
  split; [transitivity (Some (MState E true None None None)); [|reflexivity]|].
  - subst E. unfold migratedDigits, DEFAULT_DIGITS.
    destruct (issuer e) as [|c i] eqn:Ei, (algorithm e), (digits e =? 8), (type e);
      cbn; rewrite ?Hn, ?Hi, ?Hk', ?(i64_u64 _ Hc); reflexivity.
  - subst E. unfold migrationOutcome, migrated. cbn [mEntry haveSecret badAlgorithm badDigits badType negb name].
    rewrite Hs. by destruct (name e).
Qed.

Lemma migration_items es : forall acc,
  Forall migration_ok es ->
  foldFields (migrationItem unnamed fromUtf8)
    (map (fun e => Field 1 2 0 (entryParameters toUtf8 e (keyOf e))) (List.filter has_key es)) acc
  = Some (fst acc ++ map migrated (List.filter has_key es), snd acc).
Proof.
  induction es as [|e es IH]; intros acc Hes; [cbn; rewrite app_nil_r; by destruct acc|].
  apply Forall_cons in Hes as [He Hes]. cbn [List.filter]. destruct (has_key e) eqn:Ek; [|by apply IH].
  cbn [map foldFields]. destruct (migration_entry e He Ek) as (st & Est & Eo).
  destruct acc as [entries skipped].
  assert (migrationItem unnamed fromUtf8 (entries, skipped) (Field 1 2 0 (entryParameters toUtf8 e (keyOf e)))
    = Some (entries ++ [migrated e], skipped)) as ->.
  { unfold migrationItem. cbn [fieldNumber wireType payload Z.eqb negb orb].
    change (Pos.eqb _ _) with true. cbn [negb orb]. rewrite Est. cbn [mbind option_bind]. by rewrite Eo. }
  cbn [mbind option_bind]. rewrite IH by done. cbn [fst snd]. by rewrite <- app_assoc.
Qed.

Lemma export_entries es : forall acc,
  fold_left (exportEntry toUtf8) es acc =
    acc ++ concat (map (fun e => pbWriteBytes [] 1 (entryParameters toUtf8 e (keyOf e))) (List.filter has_key es)).
Proof.
  induction es as [|e es IH]; intros acc; cbn [fold_left List.filter]; [by rewrite app_nil_r|].
  rewrite IH. unfold exportEntry, has_key, keyOf. destruct (Base32Decode (secret e)) as [[|b k]|] eqn:E; [done| |done].
  cbn [isEmpty negb map concat]. rewrite write_bytes_app, <- app_assoc. by rewrite E.
Qed.

Lemma payload_fields es : Forall migration_ok es ->
  List.filter has_key es <> [] ->
  migrationPayload toUtf8 es <> [] /\
  fields_of (migrationPayload toUtf8 es)
    (map (fun e => Field 1 2 0 (entryParameters toUtf8 e (keyOf e))) (List.filter has_key es) ++
     [Field 2 0 1 []; Field 3 0 1 []; Field 4 0 0 []]).
Proof.
  intros Hes Hne. unfold migrationPayload. rewrite export_entries. cbn [app].
  set (w := concat _).
  assert (isEmpty w = false) as ->.
  { subst w. destruct (List.filter has_key es) as [|e es']; [done|]. cbn [map concat].
    pose proof (write_bytes_size 1 (keyOf e)). unfold pbWriteBytes, pbWriteTag, pbWriteVarint. cbn [app pbVarintLoop].
    reflexivity. }
  rewrite (write_uint_app (pbWriteUint _ 3 1)), (write_uint_app (pbWriteUint _ 2 1)), (write_uint_app w).
  rewrite <- !app_assoc. split; [intros E; apply app_eq_nil in E as [_ E]; discriminate E|].
  assert (fields_of (pbWriteUint [] 2 1 ++ pbWriteUint [] 3 1 ++ pbWriteUint [] 4 0)
    [Field 2 0 1 []; Field 3 0 1 []; Field 4 0 0 []]) as Ht.
  { apply fields_uint; [lia..|]. apply fields_uint; [lia..|].
    rewrite <- (app_nil_r (pbWriteUint [] 4 0)). apply fields_uint; [lia..|]. constructor. }
  subst w. clear Hne. induction Hes as [|e es He Hes IH]; cbn [List.filter]; [exact Ht|].
  destruct (has_key e); [|exact IH]. cbn [map concat app]. rewrite <- app_assoc.
  apply fields_bytes; [lia|apply He|exact IH].
Qed.

Lemma read_payload es : Forall migration_ok es -> List.filter has_key es <> [] ->
  readMigrationPayload unnamed fromUtf8 (migrationPayload toUtf8 es)
  = Some (map migrated (List.filter has_key es), []).
Proof.
  intros Hes Hne. destruct (payload_fields es Hes Hne) as [_ Hf].
  unfold readMigrationPayload. rewrite (fieldLoop_fields _ _ _ Hf) by lia.
  assert (forall fds1 fds2 acc, foldFields (migrationItem unnamed fromUtf8) (fds1 ++ fds2) acc =
    (r ← foldFields (migrationItem unnamed fromUtf8) fds1 acc; foldFields (migrationItem unnamed fromUtf8) fds2 r)) as Happ.
  { induction fds1 as [|fd fds1 IH]; intros fds2 acc; [done|]. cbn [app foldFields].
    destruct (migrationItem unnamed fromUtf8 acc fd); [|done]. cbn [mbind option_bind]. apply IH. }
  rewrite Happ, migration_items by done. reflexivity.
Qed.

(** C37: A migration link gives back exactly what its format keeps. For entries
    whose text is valid Unicode, a URL library that reads back the URL it
    printed and base64 that decodes what it encoded, parsing the exported link
    succeeds without a problem and yields, in order, every entry with a usable
    secret: same names, normalized secret, same algorithm, type and HOTP
    counter, the 30-second period, and eight digits for eight but six for
    every other number of digits. *)
Theorem migration_roundtrip (es : list OtpEntry)
    (Hurl : parseUrl (trimmed (printUrl (migrationUrl fromUtf8 toBase64 (migrationPayload toUtf8 es))))
            = migrationUrl fromUtf8 toBase64 (migrationPayload toUtf8 es))
    (Hbase64 : forall p, p <> [] -> fromUtf8 (toBase64 p) <> [] /\ fromBase64 (toUtf8 (fromUtf8 (toBase64 p))) = p)
    (Hes : Forall migration_ok es) (Hne : List.filter has_key es <> []) :
  ParseFromMigrationLink foldCase unnamed parseUrl toUtf8 fromUtf8 fromBase64
    (ExportToMigrationLink printUrl toUtf8 fromUtf8 toBase64 es)
  = (Some (map migrated (List.filter has_key es)), []).
Proof.
  destruct (payload_fields es Hes Hne) as [Hp _]. destruct (Hbase64 _ Hp) as [Hd Hb].
  unfold ParseFromMigrationLink, ExportToMigrationLink. cbv zeta.
  destruct (isEmpty (migrationPayload toUtf8 es)) eqn:Ep; [by destruct (migrationPayload toUtf8 es)|].
  rewrite Hurl. unfold migrationUrl. cbn [urlValid urlScheme urlQuery]. unfold equalCI.
  rewrite bool_decide_true by done. cbn [negb orb queryItemValue]. rewrite bool_decide_true by done.
  rewrite Hb, Ep, read_payload by done.
  destruct (isEmpty (fromUtf8 _)) eqn:Ed; [by destruct (fromUtf8 (toBase64 _))|].
  by destruct (List.filter has_key es).
Qed.
End MigrationRoundTrip.

Lemma migration_roundtrip_witness :
  ParseFromMigrationLink id [] (fun _ => migrationUrl id id (migrationPayload id [exampleEntry])) id id id
    (ExportToMigrationLink urlPath id id id [exampleEntry])
  = (Some [migrated exampleEntry], []).
Proof.
  apply (migration_roundtrip id [] (fun _ => migrationUrl id id (migrationPayload id [exampleEntry]))
           urlPath id id id id [exampleEntry]).
  - reflexivity.
  - done.
  - apply Forall_singleton. split; [done|done|cbn; lia|vm_compute; reflexivity].
  - discriminate.
Defined.

(** Digits that the format cannot express are lost in silence: a usable
    entry with neither six nor eight digits comes back usable but with six, so
    that from then on its codes differ in length from those of the original. *)
Theorem migration_changes_code (hmac : bytes -> bytes -> HashAlgorithm -> bytes) (clock : Z)
    (Hbytes : forall m k a, isBytes (hmac m k a)) (Hsize : forall m k a, (20 <= length (hmac m k a))%nat)
    (e : OtpEntry) (t : Z) (Hv : Validate e = None) (Hd : digits e <> 6) (Hd8 : digits e <> 8) :
  Validate (migrated e) = None /\
  GenerateCode hmac clock (migrated e) t <> GenerateCode hmac clock e t.
Proof.
  destruct (validate_usable e Hv) as (Hk & Hr & _).
  assert (migratedDigits (digits e) = 6) as E6 by (unfold migratedDigits; destruct (Z.eqb_spec (digits e) 8); done).
  assert (Validate (migrated e) = None) as Hm.
  { apply (sound_entry_intro _ (keyOf e)).
    - unfold keyOf in *. destruct (Base32Decode (secret e)) eqn:Ek; [by eapply decode_bytes|done].
    - done.
    - unfold migrated, NormalizeSecret, keyOf in *. cbn [secret]. by destruct (Base32Decode (secret e)) as [[|b k]|].
    - cbn [digits migrated]. rewrite E6. unfold MIN_DIGITS, MAX_DIGITS. lia.
    - intros _. cbn [period migrated]. unfold MIN_PERIOD, MAX_PERIOD, DEFAULT_PERIOD. lia. }
  split; [done|].
  destruct (valid_code hmac clock Hbytes Hsize e t Hv) as (c1 & -> & L1 & _).
  destruct (valid_code hmac clock Hbytes Hsize (migrated e) t Hm) as (c2 & -> & L2 & _).
  intros [= ->]. cbn [digits migrated] in L2. rewrite E6 in L2. unfold MIN_DIGITS in Hr. lia.
Qed.

Definition sevenDigits : OtpEntry := setDigits 7 exampleEntry.

Lemma migration_changes_code_witness :
  Validate (migrated sevenDigits) = None /\
  GenerateCode toyMac 0 (migrated sevenDigits) 59 <> GenerateCode toyMac 0 sevenDigits 59.
Proof. apply (migration_changes_code toyMac 0 toyMac_bytes toyMac_size sevenDigits 59); [reflexivity|discriminate|discriminate]. Defined.
