(* ===== verification/OtpImport.v ===== *)
(** * Imports and exports of one-time passwords (src/src/global/OTP.cpp)

    The JSON export and its reader and [ParseAny], which reads whatever the
    user pastes. Printing and parsing JSON text is QJsonDocument's and an
    argument. *)

From Stdlib Require Import Ascii String.
From S2P Require Import Prelude QtText Json OtpBase32 OtpWire Otp OtpLinks.

Local Open Scope Z_scope.
Local Open Scope throne_scope.

(** ** The JSON export *)

(** QJsonValue::toDouble, when it is a whole number, and the cast to qint64:
    a double outside the range of qint64 is not equal to its cast. *)
Definition otpJsonInteger (v : option QJsonValue) : option Z :=
  let whole n := if (- 2 ^ 63 <=? n) && (n <? 2 ^ 63) then Some n else None in
  match v with
  | Some (JString s) => toLongLong (trimmed s)
  | Some (JInt z) => whole (doubleOf z)
  | Some (JDouble n true) => whole n
  | _ => None
  end.

Section Json.
Context (toUpper toLower : qstring -> qstring) (foldCase : Z -> Z) (unnamed : qstring).
(** QString::number of a double, and QJsonDocument's compact text of an array. *)
Context (doubleText : QJsonValue -> qstring) (compactText : list QJsonValue -> qstring).
(** QJsonDocument::fromJson, [None] for a parse error, and toJson. *)
Context (fromJson : bytes -> option QJsonValue) (toJson : QJsonValue -> bytes).

Definition otpJsonText (v : QJsonValue) : qstring :=
  match v with
  | JString s => s
  | JInt _ | JDouble _ _ => doubleText v
  | _ => let text := drop 1 (compactText [v]) in take 40 (take (length text - 1) text)
  end.
Definition otpItemText (o : QJsonObject) (key : qstring) : qstring :=
  match jsonGet o key with Some v => otpJsonText v | None => [] end.

Definition jsonDigits (o : QJsonObject) (e : OtpEntry) : OtpEntry + OtpProblem :=
  if jsonHas o (qs "digits") then
    let bad := inr (otpBadDigits (otpEntryLabel unnamed e) (otpItemText o (qs "digits"))) in
    match otpJsonInteger (jsonGet o (qs "digits")) with
    | Some d => if (d <? MIN_DIGITS) || (MAX_DIGITS <? d) then bad else inl (setDigits d e)
    | None => bad
    end
  else inl e.

Definition jsonPeriod (o : QJsonObject) (e : OtpEntry) : OtpEntry + OtpProblem :=
  if isTOTP e && jsonHas o (qs "period") then
    let bad := inr (otpBadPeriod (otpEntryLabel unnamed e) (otpItemText o (qs "period"))) in
    match otpJsonInteger (jsonGet o (qs "period")) with
    | Some p => if (p <? MIN_PERIOD) || (MAX_PERIOD <? p) then bad else inl (setPeriod p e)
    | None => bad
    end
  else inl e.

Definition jsonCounter (o : QJsonObject) (e : OtpEntry) : OtpEntry + OtpProblem :=
  if negb (isTOTP e) && jsonHas o (qs "counter") then
    let bad := inr (otpBadCounter (otpEntryLabel unnamed e) (otpItemText o (qs "counter"))) in
    match otpJsonInteger (jsonGet o (qs "counter")) with
    | Some c => if c <? 0 then bad else inl (setCounter c e)
    | None => bad
    end
  else inl e.

Definition entryFromJsonObject (o : QJsonObject) : OtpEntry + OtpProblem :=
  let e := setIssuer (jsonText (jsonGet o (qs "issuer"))) (setName (jsonText (jsonGet o (qs "name"))) defaultEntry) in
  let text := jsonText (jsonGet o (qs "secret")) in
  let label := otpEntryLabel unnamed e in
  if isEmpty (trimmed text) then inr (otpNoSecret label)
  else
    let e := setSecret (NormalizeSecret text) e in
    if isEmpty (secret e) then inr (otpBadSecret label)
    else
      let algorithmText := jsonText (jsonGet o (qs "algorithm")) in
      let '(a, ok) := AlgorithmFromString toUpper algorithmText in
      let e := setAlgorithm a e in
      if negb ok then inr (otpBadAlgorithm label algorithmText)
      else
        let typeText := jsonText (jsonGet o (qs "type")) in
        let '(t, ok) := TypeFromString toLower typeText in
        let e := setType t e in
        if negb ok then inr (otpBadType label typeText)
        else andThen (andThen (jsonDigits o e) (jsonPeriod o)) (jsonCounter o).

Definition entryToJsonObject (e : OtpEntry) : QJsonObject :=
  [(qs "name", JString (name e))] ++
  (if negb (isEmpty (issuer e)) then [(qs "issuer", JString (issuer e))] else []) ++
  [(qs "secret", JString (secret e)); (qs "algorithm", JString (AlgorithmToString (algorithm e)));
   (qs "type", JString (TypeToString (type e))); (qs "digits", JInt (digits e))] ++
  (match type e with
   | TOTP => [(qs "period", JInt (period e))]
   | HOTP => [(qs "counter", JInt (counter e))]
   end).

Definition exportDocument (entries : list OtpEntry) : QJsonValue :=
  JObject [(qs "version", JInt 1); (qs "otp", JArray (map (fun e => JObject (entryToJsonObject e)) entries))].
Definition ExportToJson (entries : list OtpEntry) : bytes := toJson (exportDocument entries).

Definition jsonItem (acc : list OtpEntry * list OtpProblem) (v : QJsonValue) : list OtpEntry * list OtpProblem :=
  match v with
  | JObject o => match entryFromJsonObject o with
                 | inl e => (fst acc ++ [e], snd acc)
                 | inr p => (fst acc, snd acc ++ [p])
                 end
  | _ => (fst acc, snd acc ++ [otpNotAnEntry])
  end.

(** The entries when the function returns true, and the lines added to [problems]. *)
Definition ParseFromJson (json : bytes) : option (list OtpEntry) * list OtpProblem :=
  match fromJson json with
  | None => (None, [])
  | Some document =>
      let array := match document with
                   | JArray vs => vs
                   | JObject o => match jsonGet o (qs "otp") with Some (JArray vs) => vs | _ => [] end
                   | _ => []
                   end in
      if isEmpty array then (None, [])
      else let '(entries, problems) := fold_left jsonItem array ([], []) in
           (if isEmpty entries then None else Some entries, problems)
  end.

(** ** Pasted text *)

Context (parseUrl : qstring -> QUrl).
Context (toUtf8 : qstring -> bytes) (fromUtf8 : bytes -> qstring) (fromBase64 : bytes -> bytes).

Definition MIN_BARE_SECRET_BYTES : Z := 10.

(** The regular expression's space class, and splitting without empty parts. *)
Definition regexSpace (c : Z) : bool := ((9 <=? c) && (c <=? 13)) || (c =? 32).
Definition splitSkipEmpty (sep : Z -> bool) (s : qstring) : list qstring :=
  List.filter (fun p => negb (isEmpty p)) (splitBy sep s).

Definition LooksLikeBareSecret (line : qstring) : bool :=
  match splitSkipEmpty (fun c => regexSpace c || (c =? ch "-")) line with
  | [] => false
  | [_] => true
  | first :: rest =>
      let width := length first in
      if (8 <? Z.of_nat width) then false
      else forallb (fun group : qstring => (length group =? width)%nat) (first :: rest)
  end.

Definition bareSecret (line : qstring) : qstring :=
  if LooksLikeBareSecret line then NormalizeSecret line else [].

Definition importLine (acc : list OtpEntry * list OtpProblem) (rawLine : qstring)
  : list OtpEntry * list OtpProblem :=
  let '(result, problems) := acc in
  let line := trimmed rawLine in
  if isEmpty line then acc
  else if startsWithCI foldCase (qs "otpauth-migration://") line then
    let '(batch, skipped) := ParseFromMigrationLink foldCase unnamed parseUrl toUtf8 fromUtf8 fromBase64 line in
    match batch with
    | Some batch => (result ++ batch, problems ++ skipped)
    | None => (result, problems ++ (if isEmpty skipped then [otpUnreadableMigration] else []) ++ skipped)
    end
  else match ParseFromLink toUpper toLower foldCase unnamed parseUrl line with
       | LinkEntry e => (result ++ [e], problems)
       | LinkRefused p => (result, problems ++ [p])
       | NotOtpLink =>
           if startsWithCI foldCase (qs "otpauth://") line then (result, problems ++ [otpUnreadableLink])
           else
             let secret := bareSecret line in
             if negb (isEmpty secret) then
               let key := match Base32Decode secret with Some key => key | None => [] end in
               if MIN_BARE_SECRET_BYTES <=? qsize key then (result ++ [setSecret secret defaultEntry], problems)
               else (result, problems ++ [otpShortSecret ((MIN_BARE_SECRET_BYTES * 8 + 4) / 5)])
             else (result, problems ++ [if LooksLikeBareSecret line then otpNotBase32 else otpNotALink (take 40 line)])
       end.

Definition importLines (text : qstring) : list qstring :=
  splitSkipEmpty (fun c => (c =? 13) || (c =? 10)) text.

Definition ParseAny (text : qstring) : list OtpEntry * list OtpProblem :=
  let text := trimmed text in
  if isEmpty text then ([], [])
  else if startsWithC (ch "{") text || startsWithC (ch "[") text then
    let '(parsed, skipped) := ParseFromJson (toUtf8 text) in
    match parsed with
    | Some entries => (entries, skipped)
    | None => ([], (if isEmpty skipped then [otpUnreadableExport] else []) ++ skipped)
    end
  else fold_left importLine (importLines text) ([], []).
End Json.

(** ** The JSON export survives *)

(** What a JSON export keeps of an entry; a counter passes through a double. *)
Definition jsonForm (e : OtpEntry) : OtpEntry :=
  MkEntry (name e) (issuer e) (NormalizeSecret (secret e)) (algorithm e) (type e) (digits e)
    (match type e with TOTP => period e | HOTP => DEFAULT_PERIOD end)
    (match type e with HOTP => doubleOf (counter e) | TOTP => 0 end).

Lemma json_members e :
  let o := entryToJsonObject e in
  jsonGet o (qs "name") = Some (JString (name e)) /\
  jsonText (jsonGet o (qs "issuer")) = issuer e /\
  jsonGet o (qs "secret") = Some (JString (secret e)) /\
  jsonGet o (qs "algorithm") = Some (JString (AlgorithmToString (algorithm e))) /\
  jsonGet o (qs "type") = Some (JString (TypeToString (type e))) /\
  jsonGet o (qs "digits") = Some (JInt (digits e)) /\
  jsonGet o (match type e with TOTP => qs "period" | HOTP => qs "counter" end)
    = Some (JInt (match type e with TOTP => period e | HOTP => counter e end)).
Proof.
  cbv zeta. unfold entryToJsonObject. set (a := AlgorithmToString (algorithm e)).
  destruct (issuer e), (type e); split_and!; reflexivity.
Qed.

Lemma json_integer z : - 2 ^ 63 <= doubleOf z < 2 ^ 63 -> otpJsonInteger (Some (JInt z)) = Some (doubleOf z).
Proof.
  intros H. cbn [otpJsonInteger]. destruct (Z.leb_spec (- 2 ^ 63) (doubleOf z)), (Z.ltb_spec (doubleOf z) (2 ^ 63)); (lia || done).
Qed.

Section JsonRoundTrip.
Context (toUpper toLower : qstring -> qstring) (unnamed : qstring).
Context (doubleText : QJsonValue -> qstring) (compactText : list QJsonValue -> qstring).
Context (fromJson : bytes -> option QJsonValue) (toJson : QJsonValue -> bytes).
Hypothesis upper : upper_keeps toUpper.
Hypothesis lower : lower_keeps toLower.

(** An entry the reader accepts: usable, and with a counter no double moves
    out of range. *)
Definition exportable (e : OtpEntry) : Prop :=
  Validate e = None /\ 0 <= counter e /\ doubleOf (counter e) < 2 ^ 63 /\ 0 <= doubleOf (counter e).

Lemma json_entry e : exportable e ->
  entryFromJsonObject toUpper toLower unnamed doubleText compactText (entryToJsonObject e) = inl (jsonForm e).
Proof.
  intros (Hv & Hc & Hd & Hd0). destruct (validate_usable e Hv) as (Hk & Hdig & Hp).
  destruct (json_members e) as (En & Ei & Es & Ea & Et & Edig & Elast).
  unfold entryFromJsonObject. cbv zeta. rewrite En, Ei, Es, Ea, Et. cbn [jsonText].
  assert (isEmpty (trimmed (secret e)) = false) as ->
    by (unfold Validate in Hv; by destruct (isEmpty (trimmed (secret e)))).
  assert (isEmpty (NormalizeSecret (secret e)) = false) as Hs.
  { assert (NormalizeSecret (secret e) <> []) as Hn; [|by destruct (NormalizeSecret (secret e))].
    unfold keyOf in Hk. destruct (Base32Decode (secret e)) as [[|b key]|] eqn:E; [done| |done].
    apply normalize_nonempty. eauto. }
  cbn [secret setSecret]. rewrite Hs, algorithm_name_roundtrip, type_name_roundtrip by done. cbn [negb].
  assert (doubleOf (digits e) = digits e) as Hdd by (apply double_exact; unfold MIN_DIGITS, MAX_DIGITS in *; lia).
  unfold jsonDigits, jsonHas. rewrite Edig, json_integer by (rewrite Hdd; unfold MIN_DIGITS, MAX_DIGITS in *; lia).
  rewrite Hdd. destruct (Z.ltb_spec (digits e) MIN_DIGITS), (Z.ltb_spec MAX_DIGITS (digits e)); try lia.
  cbn [orb andThen]. unfold jsonPeriod, jsonCounter, jsonForm, jsonHas, isTOTP.
  cbn [type setDigits setType setAlgorithm setSecret setName setIssuer].
  destruct (type e) eqn:Ety; cbn [andb negb andThen]; rewrite Elast.
  - specialize (Hp eq_refl).
    assert (doubleOf (period e) = period e) as Hpd by (apply double_exact; unfold MIN_PERIOD, MAX_PERIOD in *; lia).
    rewrite json_integer by (rewrite Hpd; unfold MIN_PERIOD, MAX_PERIOD in *; lia). rewrite Hpd.
    destruct (Z.ltb_spec (period e) MIN_PERIOD), (Z.ltb_spec MAX_PERIOD (period e)); try lia. done.
  - cbn [type setDigits setType setAlgorithm setSecret setName setIssuer]. rewrite json_integer by lia.
    destruct (Z.ltb_spec (doubleOf (counter e)) 0); [lia|]. done.
Qed.

Lemma json_items es : forall acc, Forall exportable es ->
  fold_left (jsonItem toUpper toLower unnamed doubleText compactText)
    (map (fun e => JObject (entryToJsonObject e)) es) acc = (fst acc ++ map jsonForm es, snd acc).
Proof.
  induction es as [|e es IH]; intros acc Hes; cbn [map fold_left]; [rewrite app_nil_r; by destruct acc|].
  apply Forall_cons in Hes as [He Hes]. rewrite IH by done. cbn [jsonItem]. rewrite json_entry by done.
  cbn [fst snd]. by rewrite <- app_assoc.
Qed.

(** A JSON export gives the entries back, in order and without a problem,
    given a JSON library that reads what it printed: names, normalized secret,
    algorithm, type and digits, the period of TOTP and the counter of HOTP
    entries. A counter is read as a double, so it is exact up to 2^53 and
    rounded to 53 significant bits above. *)
Theorem json_roundtrip (es : list OtpEntry)
    (Hjson : fromJson (toJson (exportDocument es)) = Some (exportDocument es))
    (Hes : Forall exportable es) (Hne : es <> []) :
  ParseFromJson toUpper toLower unnamed doubleText compactText fromJson (ExportToJson toJson es)
    = (Some (map jsonForm es), []) /\
  Forall (fun e => counter e <= 2 ^ 53 -> doubleOf (counter e) = counter e) es.
Proof.
  split.
  - unfold ParseFromJson, ExportToJson. rewrite Hjson. unfold exportDocument. cbn [jsonGet].
    rewrite bool_decide_false by done. rewrite bool_decide_true by done.
    destruct es as [|e es]; [done|]. rewrite json_items by done. reflexivity.
  - eapply Forall_impl; [exact Hes|]. intros e (_ & Hc & _) Hle. apply double_exact. lia.
Qed.
End JsonRoundTrip.

Lemma json_roundtrip_witness :
  ParseFromJson id id [] (fun _ => []) (fun _ => []) (fun _ => Some (exportDocument [exampleEntry]))
    (ExportToJson (fun _ => []) [exampleEntry]) = (Some (map jsonForm [exampleEntry]), []) /\
  Forall (fun e => counter e <= 2 ^ 53 -> doubleOf (counter e) = counter e) [exampleEntry].
Proof.
  apply (json_roundtrip id id [] (fun _ => []) (fun _ => []) (fun _ => Some (exportDocument [exampleEntry])) (fun _ => []));
    [done|done|reflexivity| |discriminate].
  apply Forall_singleton. split_and!; [reflexivity|by vm_compute|reflexivity|by vm_compute].
Defined.

(** ** What an import accepts and what it shows *)

Lemma take_bytes n b : isBytes b -> isBytes (take n b).
Proof. apply Forall_take. Qed.
Lemma drop_bytes n b : isBytes b -> isBytes (drop n b).
Proof. apply Forall_drop. Qed.

Lemma varint_read_bytes input : forall shift value v rest,
  isBytes input -> pbVarintRead input shift value = Some (v, rest) -> isBytes rest.
Proof.
  induction input as [|c input IH]; intros shift value v rest Hb; cbn [pbVarintRead]; [done|].
  apply Forall_cons in Hb as [_ Hb]. case_match; [by intros [= _ <-]|]. case_match; [done|]. by apply IH.
Qed.

Lemma read_field_bytes input fd rest :
  isBytes input -> pbReadField input = Some (fd, rest) -> isBytes (payload fd) /\ isBytes rest.
Proof.
  intros Hb. unfold pbReadField, pbReadVarint.
  destruct (pbVarintRead input 0 0) as [[tag r1]|] eqn:E1; [|done]. cbn [mbind option_bind].
  apply varint_read_bytes in E1; [|done]. cbv zeta.
  assert (isBytes []) as Hnil by constructor. case_tests.
  - destruct (pbVarintRead r1 0 0) as [[v r2]|] eqn:Er; [|done]. apply varint_read_bytes in Er; [|done].
    by intros [= <- <-].
  - done.
  - intros [= <- <-]. split; [done|by apply drop_bytes].
  - destruct (pbVarintRead r1 0 0) as [[v r2]|] eqn:Er; [|done]. apply varint_read_bytes in Er; [|done].
    cbn [mbind option_bind]. case_match; [done|]. intros [= <- <-].
    split; [by apply take_bytes|by apply drop_bytes].
  - done.
  - intros [= <- <-]. split; [done|by apply drop_bytes].
  - done.
Qed.

Lemma fields_bytes_ok input fds : fields_of input fds -> isBytes input -> Forall (fun fd => isBytes (payload fd)) fds.
Proof.
  induction 1 as [|input fd rest fds Hr _ IH]; intros Hb; [constructor|].
  destruct (read_field_bytes _ _ _ Hb Hr). constructor; auto.
Qed.

(** An invariant of a fold over fields. *)
Lemma foldFields_inv {A} (step : A -> PbField -> option A) (P : A -> Prop) (Q : PbField -> Prop) fds :
  (forall st fd st', P st -> Q fd -> step st fd = Some st' -> P st') ->
  Forall Q fds -> forall st r, P st -> foldFields step fds st = Some r -> P r.
Proof.
  intros Hstep. induction 1 as [|fd fds Hq _ IH]; intros st r Hp; cbn [foldFields]; [by intros [= ->]|].
  destruct (step st fd) as [st'|] eqn:E; [|done]. cbn [mbind option_bind]. apply IH. by eapply Hstep.
Qed.

(** A migration entry being read: its numbers are of the format, and its
    secret, once seen, is the text of a key. *)
Record migration_inv (st : MigrationState) : Prop := {
  inv_digits : digits (mEntry st) = 6 \/ digits (mEntry st) = 8;
  inv_period : period (mEntry st) = DEFAULT_PERIOD;
  inv_secret : haveSecret st = true ->
    exists key, isBytes key /\ key <> [] /\ secret (mEntry st) = Base32Encode key }.

Lemma migration_field_inv fromUtf8 st fd :
  migration_inv st -> isBytes (payload fd) -> migration_inv (migrationField fromUtf8 st fd).
Proof.
  destruct st as [e have ba bd bt]. intros [Hd Hp Hs] Hb. unfold migrationField.
  case_tests; try (by split).
  - split; [done|done|]. cbn [haveSecret mEntry secret setSecret]. intros Hh. exists (payload fd).
    split_and!; [done|by intros Hn; rewrite Hn in Hh|done].
  - destruct (migrationAlgorithm (varint fd)); by split.
  - split; [right; done|done|done].
  - split; [left; done|done|done].
Qed.

Section ImportSound.
Context (toUpper toLower : qstring -> qstring) (foldCase : Z -> Z) (unnamed : qstring).
Context (doubleText : QJsonValue -> qstring) (compactText : list QJsonValue -> qstring).
Context (fromJson : bytes -> option QJsonValue) (parseUrl : qstring -> QUrl).
Context (toUtf8 : qstring -> bytes) (fromUtf8 : bytes -> qstring) (fromBase64 : bytes -> bytes).

(** *** Migration links *)

Lemma migration_outcome_sound st e :
  migration_inv st -> migrationOutcome unnamed st = inl e -> sound_entry e.
Proof.
  intros [Hd Hp Hs]. unfold migrationOutcome. cbv zeta. destruct (haveSecret st); [|done]. cbn [negb].
  destruct (badAlgorithm st); [done|]. destruct (badDigits st); [done|]. destruct (badType st); [done|].
  intros [= <-]. destruct (Hs eq_refl) as (key & Hb & Hk & E).
  apply (sound_entry_intro _ key); [done|done|by destruct (isEmpty _)| |].
  - destruct (isEmpty _); cbn [digits setName]; unfold MIN_DIGITS, MAX_DIGITS; lia.
  - intros _. destruct (isEmpty _); cbn [period setName]; rewrite Hp; unfold MIN_PERIOD, MAX_PERIOD, DEFAULT_PERIOD; lia.
Qed.

Lemma migration_entry_inv message st :
  isBytes message -> migrationEntry fromUtf8 message = Some st -> migration_inv st.
Proof.
  intros Hb. unfold migrationEntry. intros (fds & Hf & Hd)%fieldLoop_some.
  eapply (foldFields_inv _ migration_inv (fun fd => isBytes (payload fd))); [|by eapply fields_bytes_ok| |exact Hd].
  - intros s fd s' Hs Hq [= <-]. by apply migration_field_inv.
  - split; [left; done|done|done].
Qed.

Lemma read_payload_sound input entries skipped :
  isBytes input -> readMigrationPayload unnamed fromUtf8 input = Some (entries, skipped) ->
  Forall sound_entry entries.
Proof.
  intros Hb. unfold readMigrationPayload. intros (fds & Hf & Hd)%fieldLoop_some.
  eapply (foldFields_inv _ (fun acc => Forall sound_entry (fst acc)) (fun fd => isBytes (payload fd)) fds) in Hd;
    [exact Hd| |by eapply fields_bytes_ok|constructor].
  intros [es ps] fd acc Hs Hq. unfold migrationItem. destruct (_ || _); [by intros [= <-]|].
  destruct (migrationEntry fromUtf8 (payload fd)) as [st|] eqn:Es; [|done]. cbn [mbind option_bind].
  apply migration_entry_inv in Es; [|done].
  destruct (migrationOutcome unnamed st) as [e|p] eqn:Eo; intros [= <-]; [|done].
  cbn [fst] in *. apply Forall_app. split; [done|]. apply Forall_singleton. by eapply migration_outcome_sound.
Qed.

Lemma migration_link_sound link entries skipped :
  (forall b, isBytes (fromBase64 b)) ->
  ParseFromMigrationLink foldCase unnamed parseUrl toUtf8 fromUtf8 fromBase64 link = (Some entries, skipped) ->
  Forall sound_entry entries.
Proof.
  intros Hb. unfold ParseFromMigrationLink. cbv zeta. destruct (_ || _); [done|]. destruct (isEmpty _); [done|].
  destruct (isEmpty (fromBase64 _)); [done|].
  destruct (readMigrationPayload _ _ _) as [[es ps]|] eqn:E; [|done].
  apply read_payload_sound in E; [|done]. destruct (isEmpty es); [done|]. by intros [= <- _].
Qed.

(** *** JSON entries *)

Lemma json_integer_range v n : otpJsonInteger v = Some n -> - 2 ^ 63 <= n < 2 ^ 63.
Proof.
  unfold otpJsonInteger. destruct v as [[| |z|w [|]|x| |]|]; try done; intros H.
  - case_match; [|done]. bprop. injection H as <-. lia.
  - case_match; [|done]. bprop. injection H as <-. lia.
  - apply toIntegerIn_range in H. lia.
Qed.

Lemma keeps_json_digits o : keeps (jsonDigits unnamed doubleText compactText o).
Proof.
  intros e e'. unfold jsonDigits. destruct (jsonHas _ _); [|by intros [= <-]].
  destruct (otpJsonInteger _) as [n|]; [|done]. destruct (_ || _) eqn:E; [done|].
  intros [= <-] (Hd & Hp & Hc). bprop. split; [|done]. unfold ranges_ok. cbn [digits period counter setDigits]. lia.
Qed.

Lemma keeps_json_period o : keeps (jsonPeriod unnamed doubleText compactText o).
Proof.
  intros e e'. unfold jsonPeriod. destruct (_ && _); [|by intros [= <-]].
  destruct (otpJsonInteger _) as [n|]; [|done]. destruct (_ || _) eqn:E; [done|].
  intros [= <-] (Hd & Hp & Hc). bprop. split; [|done]. unfold ranges_ok. cbn [digits period counter setPeriod]. lia.
Qed.

Lemma keeps_json_counter o : keeps (jsonCounter unnamed doubleText compactText o).
Proof.
  intros e e'. unfold jsonCounter. destruct (_ && _); [|by intros [= <-]].
  destruct (otpJsonInteger _) as [n|] eqn:En; [|done]. destruct (_ <? _) eqn:E; [done|].
  apply json_integer_range in En. intros [= <-] (Hd & Hp & Hc). bprop. split; [|done].
  unfold ranges_ok. cbn [digits period counter setCounter]. lia.
Qed.

Lemma json_entry_sound o e :
  entryFromJsonObject toUpper toLower unnamed doubleText compactText o = inl e -> sound_entry e.
Proof.
  unfold entryFromJsonObject. cbv zeta. destruct (isEmpty (trimmed _)); [done|].
  set (s := jsonText (jsonGet o (qs "secret"))). cbn [secret setSecret].
  destruct (isEmpty (NormalizeSecret s)) eqn:Es; [done|].
  destruct (AlgorithmFromString _ _) as [a [|]]; [|done]. destruct (TypeFromString _ _) as [t [|]]; [|done]. cbn [negb].
  set (e0 := setType t _).
  assert (ranges_ok e0) as H0 by (unfold ranges_ok, MIN_DIGITS, MAX_DIGITS, MIN_PERIOD, MAX_PERIOD; cbn;
    unfold DEFAULT_DIGITS, DEFAULT_PERIOD; lia).
  intros Et.
  apply keeps_then in Et as (e2 & Et & H3%keeps_json_counter); [|apply keeps_json_counter].
  apply keeps_then in Et as (e1 & H1%keeps_json_digits & H2%keeps_json_period); [|apply keeps_json_period].
  destruct (H1 H0) as [R1 S1]. destruct (H2 R1) as [R2 S2]. destruct (H3 R2) as [R3 S3].
  destruct (normalize_key s) as (key & Hb & Hk & E & _); [by destruct (NormalizeSecret s)|].
  apply (sound_entry_intro e key); [done|done| |apply R3|intros _; apply R3].
  rewrite S3, S2, S1. exact E.
Qed.

Lemma json_items_sound vs : forall acc, Forall sound_entry (fst acc) ->
  Forall sound_entry (fst (fold_left (jsonItem toUpper toLower unnamed doubleText compactText) vs acc)).
Proof.
  induction vs as [|v vs IH]; intros acc Ha; cbn [fold_left]; [done|]. apply IH.
  destruct v; cbn [jsonItem fst]; try done.
  destruct (entryFromJsonObject _ _ _ _ _ _) as [e|p] eqn:E; [|done]. cbn [fst].
  apply Forall_app. split; [done|]. apply Forall_singleton. by eapply json_entry_sound.
Qed.

Lemma json_sound json entries problems :
  ParseFromJson toUpper toLower unnamed doubleText compactText fromJson json = (Some entries, problems) ->
  Forall sound_entry entries.
Proof.
  unfold ParseFromJson. destruct (fromJson json) as [d|]; [|done]. cbv zeta. set (vs := match d with JArray vs => vs | _ => _ end).
  destruct (isEmpty vs); [done|].
  pose proof (json_items_sound vs ([], []) ltac:(constructor)) as H.
  destruct (fold_left _ vs ([], [])) as [es ps]. destruct (isEmpty es); [done|]. by intros [= <- _].
Qed.

(** *** Pasted text *)

Lemma bare_secret_sound line :
  bareSecret line <> [] -> sound_entry (setSecret (bareSecret line) defaultEntry).
Proof.
  unfold bareSecret. destruct (LooksLikeBareSecret line); [|done]. intros H.
  destruct (normalize_key line H) as (key & Hb & Hk & E & _).
  apply (sound_entry_intro _ key); [done|done|exact E| |]; cbn; unfold MIN_DIGITS, MAX_DIGITS, DEFAULT_DIGITS,
    MIN_PERIOD, MAX_PERIOD, DEFAULT_PERIOD; lia.
Qed.

Lemma import_line_sound acc line :
  (forall b, isBytes (fromBase64 b)) -> Forall sound_entry (fst acc) ->
  Forall sound_entry (fst (importLine toUpper toLower foldCase unnamed parseUrl toUtf8 fromUtf8 fromBase64 acc line)).
Proof.
  intros Hb. destruct acc as [result problems]. cbn [fst]. intros Ha. unfold importLine. cbv zeta.
  assert (forall e, sound_entry e -> Forall sound_entry (result ++ [e])) as Hadd.
  { intros e He. apply Forall_app. split; [done|by apply Forall_singleton]. }
  destruct (isEmpty (trimmed line)); [done|].
  destruct (startsWithCI _ (qs "otpauth-migration://") _).
  { destruct (ParseFromMigrationLink _ _ _ _ _ _ _) as [[batch|] skipped] eqn:Em; [|done].
    cbn [fst]. apply Forall_app. split; [done|]. by eapply migration_link_sound. }
  destruct (ParseFromLink _ _ _ _ _ _) as [|p|e] eqn:El; [|done|apply Hadd; by eapply link_entry_sound].
  destruct (startsWithCI _ _ _); [done|].
  pose proof (bare_secret_sound (trimmed line)) as Hbare.
  destruct (negb (isEmpty (bareSecret _))) eqn:Es; [|done]. case_match; [|done].
  apply Hadd, Hbare. by destruct (bareSecret (trimmed line)).
Qed.

(** Whatever is pasted, every entry an import returns is usable as it is:
    it passes [Validate], so it yields codes, and its secret is in normal form;
    this holds of otpauth links, of migration payloads of any bytes, of JSON
    documents and of bare secrets. *)
Theorem import_sound (text : qstring) (Hb : forall b, isBytes (fromBase64 b)) :
  Forall sound_entry (fst (ParseAny toUpper toLower foldCase unnamed doubleText compactText fromJson
                             parseUrl toUtf8 fromUtf8 fromBase64 text)).
Proof.
  unfold ParseAny. cbv zeta. destruct (isEmpty (trimmed text)); [constructor|].
  destruct (_ || _).
  { destruct (ParseFromJson _ _ _ _ _ _ _) as [[es|] ps] eqn:E; cbn [fst]; [by eapply json_sound|constructor]. }
  assert (forall ls acc, Forall sound_entry (fst acc) -> Forall sound_entry (fst (fold_left
    (importLine toUpper toLower foldCase unnamed parseUrl toUtf8 fromUtf8 fromBase64) ls acc))) as H.
  { induction ls as [|l ls IH]; intros acc Ha; cbn [fold_left]; [done|]. by apply IH, import_line_sound. }
  apply H. constructor.
Qed.

(** What a problem shows of the pasted lines. *)
Definition echo_ok (lines : list qstring) (p : OtpProblem) : Prop :=
  match p with
  | otpNotALink echo => exists line, In line lines /\ echo = take 40 (trimmed line) /\
      LooksLikeBareSecret (trimmed line) = false /\
      startsWithCI foldCase (qs "otpauth://") (trimmed line) = false /\
      startsWithCI foldCase (qs "otpauth-migration://") (trimmed line) = false
  | _ => True
  end.

Definition not_echo (p : OtpProblem) : bool := match p with otpNotALink _ => false | _ => true end.

Lemma read_payload_echo input entries skipped :
  readMigrationPayload unnamed fromUtf8 input = Some (entries, skipped) -> forallb not_echo skipped = true.
Proof.
  unfold readMigrationPayload. intros (fds & Hf & Hd)%fieldLoop_some.
  eapply (foldFields_inv _ (fun acc => forallb not_echo (snd acc) = true) (fun _ => True) fds) in Hd;
    [exact Hd| |apply Forall_forall; done|done].
  intros [es ps] fd acc Hs _. unfold migrationItem. destruct (_ || _); [by intros [= <-]|].
  destruct (migrationEntry fromUtf8 (payload fd)) as [st|]; [|done]. cbn [mbind option_bind].
  unfold migrationOutcome. cbv zeta. repeat case_match; intros [= <-]; simplify_eq; cbn [snd] in *;
    rewrite ?forallb_app, ?Hs; done.
Qed.

Lemma migration_echo link entries skipped :
  ParseFromMigrationLink foldCase unnamed parseUrl toUtf8 fromUtf8 fromBase64 link = (entries, skipped) ->
  forallb not_echo skipped = true.
Proof.
  unfold ParseFromMigrationLink. cbv zeta. destruct (_ || _); [by intros [= _ <-]|].
  destruct (isEmpty _); [by intros [= _ <-]|]. destruct (isEmpty (fromBase64 _)); [by intros [= _ <-]|].
  destruct (readMigrationPayload _ _ _) as [[es ps]|] eqn:E; [|by intros [= _ <-]].
  intros [= _ <-]. by eapply read_payload_echo.
Qed.

Lemma not_echo_ok lines ps : forallb not_echo ps = true -> Forall (echo_ok lines) ps.
Proof.
  intros H. rewrite forallb_forall in H. apply Forall_forall. intros p Hp%list_elem_of_In.
  specialize (H p Hp). by destruct p.
Qed.

Lemma then_echo r f p :
  (forall q, r = inr q -> not_echo q = true) -> (forall e q, f e = inr q -> not_echo q = true) ->
  andThen r f = inr p -> not_echo p = true.
Proof. destruct r as [e|q]; cbn [andThen]; intros H1 H2 E; [by eapply H2|]. apply H1. congruence. Qed.

Lemma link_refused_echo link p :
  ParseFromLink toUpper toLower foldCase unnamed parseUrl link = LinkRefused p -> not_echo p = true.
Proof.
  unfold ParseFromLink. cbv zeta. destruct (_ || _); [done|].
  destruct (TypeFromString _ _) as [t [|]]; [|by intros [= <-]]. cbn [negb].
  destruct (isEmpty (trimmed _)); [by intros [= <-]|].
  destruct (isEmpty _); [by intros [= <-]|].
  destruct (andThen _ _) as [e|q] eqn:E; [done|]. intros [= <-].
  eapply then_echo; [|intros e q'|exact E].
  - intros q1. apply then_echo; [intros q2; apply then_echo|].
    + intros q3. unfold linkAlgorithm. repeat case_match; intros [= <-]; done.
    + intros e q3. unfold linkDigits. cbv zeta. repeat case_match; intros [= <-]; done.
    + intros e q3. unfold linkPeriod. cbv zeta. repeat case_match; intros [= <-]; done.
  - unfold linkCounter. cbv zeta. repeat case_match; intros [= <-]; done.
Qed.

Lemma json_item_echo acc v :
  forallb not_echo (snd acc) = true ->
  forallb not_echo (snd (jsonItem toUpper toLower unnamed doubleText compactText acc v)) = true.
Proof.
  intros Ha. destruct v as [| | | | | |o]; cbn [jsonItem snd]; rewrite ?forallb_app, ?Ha; try done.
  destruct (entryFromJsonObject _ _ _ _ _ o) as [e|p] eqn:E; cbn [snd]; [done|]. rewrite forallb_app, Ha.
  cbn. rewrite andb_true_r. revert E. unfold entryFromJsonObject. cbv zeta.
  destruct (isEmpty (trimmed _)); [by intros [= <-]|]. destruct (isEmpty _); [by intros [= <-]|].
  destruct (AlgorithmFromString _ _) as [a [|]]; [|by intros [= <-]].
  destruct (TypeFromString _ _) as [t [|]]; [|by intros [= <-]]. cbn [negb].
  apply then_echo; [intros q; apply then_echo|].
  - intros q'. unfold jsonDigits. cbv zeta. repeat case_match; intros [= <-]; done.
  - intros e q'. unfold jsonPeriod. cbv zeta. repeat case_match; intros [= <-]; done.
  - intros e q'. unfold jsonCounter. cbv zeta. repeat case_match; intros [= <-]; done.
Qed.

Lemma json_echo json : forallb not_echo
  (snd (ParseFromJson toUpper toLower unnamed doubleText compactText fromJson json)) = true.
Proof.
  unfold ParseFromJson. destruct (fromJson json) as [d|]; [|done]. cbv zeta.
  set (vs := match d with JArray vs => vs | _ => _ end). destruct (isEmpty vs); [done|].
  assert (forall l acc, forallb not_echo (snd acc) = true -> forallb not_echo (snd (fold_left
    (jsonItem toUpper toLower unnamed doubleText compactText) l acc)) = true) as H.
  { induction l as [|v l IH]; intros acc Ha; cbn [fold_left]; [done|]. by apply IH, json_item_echo. }
  specialize (H vs ([], []) eq_refl). by destruct (fold_left _ vs ([], [])) as [es ps].
Qed.

Lemma import_line_echo lines acc line :
  In line lines -> Forall (echo_ok lines) (snd acc) ->
  Forall (echo_ok lines)
    (snd (importLine toUpper toLower foldCase unnamed parseUrl toUtf8 fromUtf8 fromBase64 acc line)).
Proof.
  intros Hin. destruct acc as [result problems]. cbn [snd]. intros Ha. unfold importLine. cbv zeta.
  assert (forall ps, Forall (echo_ok lines) ps -> Forall (echo_ok lines) (problems ++ ps)) as Hadd.
  { intros ps Hp. by apply Forall_app. }
  assert (forall p, echo_ok lines p -> Forall (echo_ok lines) (problems ++ [p])) as Hone.
  { intros p Hp. by apply Hadd, Forall_singleton. }
  destruct (isEmpty (trimmed line)); [done|].
  destruct (startsWithCI _ (qs "otpauth-migration://") _) eqn:Emig.
  { destruct (ParseFromMigrationLink _ _ _ _ _ _ _) as [[batch|] skipped] eqn:Em;
      apply migration_echo in Em; cbn [snd]; apply Hadd; [by apply not_echo_ok|].
    apply Forall_app. split; [|by apply not_echo_ok]. destruct (isEmpty skipped); [by apply Forall_singleton|constructor]. }
  destruct (ParseFromLink _ _ _ _ _ _) as [|p|e] eqn:El; [| |done].
  2:{ apply link_refused_echo in El. cbn [snd]. apply Hone. by destruct p. }
  destruct (startsWithCI _ (qs "otpauth://") _) eqn:Eotp; [by apply Hone|].
  destruct (negb _); [case_match; [done|by apply Hone]|].
  cbn [snd]. apply Hone. destruct (LooksLikeBareSecret (trimmed line)) eqn:El'; [done|].
  exists line. by split_and!.
Qed.

(** An import never shows a secret back: the only pasted text in its
    problems is that of lines that are no otpauth or migration link and do not
    look like a bare secret either, and of those at most 40 characters. *)
Theorem import_echo (text : qstring) :
  Forall (echo_ok (importLines (trimmed text)))
    (snd (ParseAny toUpper toLower foldCase unnamed doubleText compactText fromJson
            parseUrl toUtf8 fromUtf8 fromBase64 text)).
Proof.
  unfold ParseAny. cbv zeta. destruct (isEmpty (trimmed text)); [constructor|].
  destruct (_ || _).
  { pose proof (json_echo (toUtf8 (trimmed text))) as H.
    destruct (ParseFromJson _ _ _ _ _ _ _) as [[es|] ps]; cbn [snd] in *; [by apply not_echo_ok|].
    apply Forall_app. split; [|by apply not_echo_ok]. destruct (isEmpty ps); [by apply Forall_singleton|constructor]. }
  assert (forall ls acc, incl ls (importLines (trimmed text)) ->
    Forall (echo_ok (importLines (trimmed text))) (snd acc) ->
    Forall (echo_ok (importLines (trimmed text))) (snd (fold_left
    (importLine toUpper toLower foldCase unnamed parseUrl toUtf8 fromUtf8 fromBase64) ls acc))) as H.
  { induction ls as [|l ls IH]; intros acc Hi Ha; cbn [fold_left]; [done|]. apply incl_cons_inv in Hi as [Hl Hi].
    apply IH; [done|]. by apply import_line_echo. }
  apply H; [apply incl_refl|constructor].
Qed.
End ImportSound.

Lemma import_sound_witness :
  Forall sound_entry (fst (ParseAny id id id [] (fun _ => []) (fun _ => []) (fun _ => None)
    (fun _ => Url false [] [] [] []) id id (fun _ => [1; 2; 3]) (qs "JBSWY3DPEHPK3PXP"))).
Proof. apply import_sound. intros b. repeat (apply Forall_cons; split; [lia|]). constructor. Defined.

Example import_bare :
  map secret (fst (ParseAny id id id [] (fun _ => []) (fun _ => []) (fun _ => None)
    (fun _ => Url false [] [] [] []) id id (fun _ => []) (qs "jbsw y3dp ehpk 3pxp"))) = [qs "JBSWY3DPEHPK3PXP"].
Proof. reflexivity. Qed.
