(* ===== verification/CoreSupervisor.v ===== *)
(** * The core supervisor (src/src/engine/supervisor/CoreSupervisor.cpp)

    The policy that starts, watches and restarts the core process. [World] is
    the supervisor's members, the settings and the process it reads, the tasks
    posted to the thread of the process and the list of what it emitted, oldest
    first. Every handler of the class is a function on worlds; what other
    threads and the operating system do is an event with arbitrary arguments.
    Generations and counters are integers: a wrap-around needs 2^31 crashes. *)

From Stdlib Require Import Ascii String.
From S2P Require Import Prelude QtText.

Local Open Scope Z_scope.
Local Open Scope throne_scope.

(** ** Constants *)

Definition kConnectTimeoutMs : Z := 20000.
Definition kStableMs : Z := 60 * 1000.
Definition kBackoffFirstMs : Z := 500.
Definition kBackoffCapMs : Z := 30000.
Definition kGiveUpAfter : Z := 5.
Definition kProfileCrashWindowMs : Z := 10000.
Definition kIntentRestartDelayMs : Z := 200.
Definition kPrivilegeProbeRetries : Z := 2.
Definition NoProfileId : Z := -1919.
Definition kCoreIdentityExitCode : Z := 86.

(** ** Data *)

Inductive CoreState := NotStarted | Starting | Connected | Backoff | GaveUp | ListenFailed | ShuttingDown.

#[export] Instance CoreState_eq_dec : EqDecision CoreState.
Proof. solve_decision. Defined.

(** [m_lastFailure]: empty, or one of the texts the class writes into it. *)
Inductive FailureText :=
| NoFailure
| ChannelUnavailable (error : qstring)
| KeepsExiting
| ExitedWithoutConnecting (times : Z) (lastError : option qstring)
| KeptExiting (lastError : option qstring).

(** The texts of [CoreExitReasonText]; [NoReason] is the empty one. *)
Inductive ExitReason := CouldNotStart | StoppedWithError | NoReason.

(** What is posted to the thread of the process. *)
Inductive Task :=
| TStart
| TKill (waitMs : Z)
| TKillForExit
| TResetKill
| TPrivilegeKill
| TTimeoutKill (gen : Z)
| TRestart (stopProfile : option (bool * bool * bool)).

(** Signals, posts to the main thread and calls into other components. *)
Inductive Effect :=
| EmitStateChanged (s : CoreState)
| EmitRpcConnected
| EmitCoreStarted (profileId : Z)
| EmitCoreGaveUp (reason : FailureText)
| EmitListenFailed (error : qstring)
| EmitCoreExited (wasConnected : bool) (reason : ExitReason)
| EmitResumeCancelled
| CloseSocket
| CloseServer
| StartPrivilegeProbe (gen attempt : Z)
| RetryPrivilegeProbe (gen attempt : Z)
| SetKnownAdmin (privileged : bool)
| QueueRestartDeadCore
| NoteIdentityUnsupported (detail : qstring)
| StopRunningProfile (crash sync manual : bool)
| ProcessStarted (gen : Z)
| ProcessKilled (gen : Z).

Record World := MkWorld {
  m_state : CoreState;
  m_expectedExitGen : Z;
  m_startWhenUp : Z;
  m_probing : bool;
  m_failures : Z;
  m_startFailures : Z;
  m_lastCoreError : qstring;
  m_lastCoreErrorGen : Z;
  m_handledExitGen : Z;
  m_acceptedGen : Z;
  m_connectGen : Z;
  m_timedOutGen : Z;
  m_connectedAt : option Z;
  m_profileCrashTimer : option Z;
  m_lastFailure : FailureText;
  m_restartCount : Z;
  m_restartTimer : option Z;
  m_connectTimer : option Z;
  m_process : option Z;
  guard_identity : bool;
  started_id : Z;
  core_running : bool;
  prepare_exit : bool;
  kill_switch : bool;
  identityUnsupported : bool;
  clock : Z;
  tasks : list Task;
  emitted : list Effect }.

Definition worldEta (w : World) : World :=
  MkWorld (m_state w) (m_expectedExitGen w) (m_startWhenUp w) (m_probing w) (m_failures w)
    (m_startFailures w) (m_lastCoreError w) (m_lastCoreErrorGen w) (m_handledExitGen w)
    (m_acceptedGen w) (m_connectGen w) (m_timedOutGen w) (m_connectedAt w) (m_profileCrashTimer w)
    (m_lastFailure w) (m_restartCount w) (m_restartTimer w) (m_connectTimer w) (m_process w)
    (guard_identity w) (started_id w) (core_running w) (prepare_exit w) (kill_switch w)
    (identityUnsupported w) (clock w) (tasks w) (emitted w).

Definition set_m_state (v : CoreState) (w : World) : World := ltac:(setter worldEta m_state v w).
Definition set_m_expectedExitGen (v : Z) (w : World) : World := ltac:(setter worldEta m_expectedExitGen v w).
Definition set_m_startWhenUp (v : Z) (w : World) : World := ltac:(setter worldEta m_startWhenUp v w).
Definition set_m_probing (v : bool) (w : World) : World := ltac:(setter worldEta m_probing v w).
Definition set_m_failures (v : Z) (w : World) : World := ltac:(setter worldEta m_failures v w).
Definition set_m_startFailures (v : Z) (w : World) : World := ltac:(setter worldEta m_startFailures v w).
Definition set_m_lastCoreError (v : qstring) (w : World) : World := ltac:(setter worldEta m_lastCoreError v w).
Definition set_m_lastCoreErrorGen (v : Z) (w : World) : World := ltac:(setter worldEta m_lastCoreErrorGen v w).
Definition set_m_handledExitGen (v : Z) (w : World) : World := ltac:(setter worldEta m_handledExitGen v w).
Definition set_m_acceptedGen (v : Z) (w : World) : World := ltac:(setter worldEta m_acceptedGen v w).
Definition set_m_connectGen (v : Z) (w : World) : World := ltac:(setter worldEta m_connectGen v w).
Definition set_m_timedOutGen (v : Z) (w : World) : World := ltac:(setter worldEta m_timedOutGen v w).
Definition set_m_connectedAt (v : option Z) (w : World) : World := ltac:(setter worldEta m_connectedAt v w).
Definition set_m_profileCrashTimer (v : option Z) (w : World) : World := ltac:(setter worldEta m_profileCrashTimer v w).
Definition set_m_lastFailure (v : FailureText) (w : World) : World := ltac:(setter worldEta m_lastFailure v w).
Definition set_m_restartCount (v : Z) (w : World) : World := ltac:(setter worldEta m_restartCount v w).
Definition set_m_restartTimer (v : option Z) (w : World) : World := ltac:(setter worldEta m_restartTimer v w).
Definition set_m_connectTimer (v : option Z) (w : World) : World := ltac:(setter worldEta m_connectTimer v w).
Definition set_m_process (v : option Z) (w : World) : World := ltac:(setter worldEta m_process v w).
Definition set_guard_identity (v : bool) (w : World) : World := ltac:(setter worldEta guard_identity v w).
Definition set_started_id (v : Z) (w : World) : World := ltac:(setter worldEta started_id v w).
Definition set_core_running (v : bool) (w : World) : World := ltac:(setter worldEta core_running v w).
Definition set_prepare_exit (v : bool) (w : World) : World := ltac:(setter worldEta prepare_exit v w).
Definition set_kill_switch (v : bool) (w : World) : World := ltac:(setter worldEta kill_switch v w).
Definition set_identityUnsupported (v : bool) (w : World) : World := ltac:(setter worldEta identityUnsupported v w).
Definition set_clock (v : Z) (w : World) : World := ltac:(setter worldEta clock v w).
Definition set_tasks (v : list Task) (w : World) : World := ltac:(setter worldEta tasks v w).
Definition set_emitted (v : list Effect) (w : World) : World := ltac:(setter worldEta emitted v w).

Definition emit (e : Effect) (w : World) : World := set_emitted (emitted w ++ [e]) w.
Definition post (t : Task) (w : World) : World := set_tasks (tasks w ++ [t]) w.

(** ** What the core said (src/src/engine/supervisor/CoreExitReason.cpp) *)

Definition CoreExitLooksLikePanic (line : qstring) : bool :=
  startsWith (qs "Core panicked:") line || startsWith (qs "panic:") line || startsWith (qs "fatal error:") line.

Definition CoreExitReasonText (failedToStart : bool) (rawCause : qstring) : ExitReason :=
  if failedToStart then CouldNotStart
  else if CoreExitLooksLikePanic rawCause then StoppedWithError
  else NoReason.

(** ** Small helpers of the class *)

Definition setState (s : CoreState) (w : World) : World :=
  if decide (m_state w = s) then w else emit (EmitStateChanged s) (set_m_state s w).

Definition exiting (w : World) : bool := bool_decide (m_state w = ShuttingDown) || prepare_exit w.
Definition canStartCore (w : World) : bool :=
  negb (bool_decide (m_state w = ListenFailed)) && negb (bool_decide (m_state w = ShuttingDown)).
Definition currentGeneration (w : World) : Z := match m_process w with Some gen => gen | None => 0 end.
Definition awaitingCoreStarted (w : World) : bool := m_probing w.

Definition beginRestart (w : World) : World :=
  let w := set_m_probing false w in
  let w := set_m_restartTimer None w in
  let w := set_m_connectTimer None w in
  let w := set_m_failures 0 w in
  let w := set_m_startFailures 0 w in
  let w := set_m_lastFailure NoFailure w in
  let w := set_m_lastCoreError [] w in
  setState Starting w.

Definition postProcessRestart (before : option (bool * bool * bool)) (w : World) : World :=
  let w := set_m_handledExitGen (Z.max (m_handledExitGen w) (currentGeneration w)) w in
  let w := set_m_restartCount (m_restartCount w + 1) w in
  post (TRestart before) w.

Definition scheduleRestart (delayMs : Z) (w : World) : World :=
  set_m_restartTimer (Some delayMs) (setState Backoff w).

(** The timer's slot; the timer is single-shot. *)
Definition postRestart (w : World) : World :=
  if negb (bool_decide (m_state w = Backoff)) || exiting w then w
  else postProcessRestart None (setState Starting w).

Definition restartDeadCore (startWhenUpProfileId : Z) (w : World) : World :=
  if (negb (bool_decide (m_state w = Backoff)) && negb (bool_decide (m_state w = GaveUp))) || exiting w then w
  else postProcessRestart None (set_m_startWhenUp startWhenUpProfileId (beginRestart w)).

Section Supervisor.
(** Windows answers the privilege question locally; a GUI words the give-up. *)
Context (windows gui : bool).

(** ** Requests *)

(** [listen]: the error of the local server, if it could not listen. *)
Definition listen (error : option qstring) (w : World) : World * bool :=
  match error with
  | None => (w, true)
  | Some text =>
      let w := set_m_lastFailure (ChannelUnavailable text) w in
      (emit (EmitListenFailed text) (setState ListenFailed w), false)
  end.

Definition start (startWhenUpProfileId : Z) (w : World) : World :=
  if negb (bool_decide (m_state w = NotStarted)) then w
  else
    let w := if 0 <=? startWhenUpProfileId then set_m_startWhenUp startWhenUpProfileId w else w in
    post TStart (setState Starting w).

Definition shutdown (killWaitMs : Z) (w : World) : World :=
  let w := setState ShuttingDown w in
  let w := set_m_probing false w in
  let w := set_m_restartTimer None w in
  let w := set_m_connectTimer None w in
  emit CloseServer (post (TKill killWaitMs) w).

Definition killForExit (w : World) : World :=
  let w := setState ShuttingDown w in
  let w := set_m_probing false w in
  let w := set_m_restartTimer None w in
  let w := set_m_connectTimer None w in
  post TKillForExit w.

Definition resetCore (w : World) : World * bool :=
  if negb (canStartCore w) || exiting w then (w, false)
  else
    let was := m_state w in
    let w := beginRestart w in
    if bool_decide (was = Backoff) || bool_decide (was = GaveUp) then
      let w := set_m_startWhenUp (-1) w in
      let w := set_started_id NoProfileId w in
      (postProcessRestart (Some (true, true, true)) w, true)
    else (post TResetKill w, true).

Definition restartNotListening (profileId : Z) (w : World) : World * bool :=
  if negb (canStartCore w) || exiting w then (w, false)
  else (postProcessRestart None (set_m_startWhenUp profileId (beginRestart w)), true).

Definition restartForGuard (w : World) : World :=
  if negb (canStartCore w) || exiting w then w
  else postProcessRestart (Some (true, true, false)) (beginRestart w).

Definition killForPrivilegeChange (w : World) : World :=
  let current := m_state w in
  if bool_decide (current = ListenFailed) || bool_decide (current = ShuttingDown) then w
  else if bool_decide (current = Backoff) || bool_decide (current = GaveUp) then emit QueueRestartDeadCore w
  else post TPrivilegeKill w.

Definition setStartWhenUp (profileId : Z) (w : World) : World * bool :=
  match m_process w with
  | Some _ => (set_m_startWhenUp profileId w, true)
  | None => (w, false)
  end.

Definition cancelResume (w : World) : World :=
  emit EmitResumeCancelled (set_started_id NoProfileId (set_m_startWhenUp (-1) w)).

Definition runningWithoutGuardIdentity (w : World) : bool :=
  if windows then false
  else if identityUnsupported w then false
  else match m_process w with Some _ => core_running w && negb (guard_identity w) | None => false end.

(** ** Connections and the privilege probe *)

Definition emitCoreStarted (w : World) : World :=
  let w := set_m_startFailures 0 w in
  let profileId := m_startWhenUp w in
  emit (EmitCoreStarted profileId) (set_m_startWhenUp (-1) w).

Definition setupRpc (w : World) : World := emit EmitRpcConnected w.

(** [peerIsCore] is whether the system names the core's process as the peer. *)
Definition verifyCorePid (peerIsCore : bool) (w : World) : bool :=
  match m_process w with None => false | Some _ => peerIsCore end.

Definition onNewConnection (peerIsCore : bool) (w : World) : World :=
  let gen := currentGeneration w in
  if negb (verifyCorePid peerIsCore w) then emit CloseSocket w
  else if (gen <=? m_handledExitGen w) || (gen <=? m_timedOutGen w) then emit CloseSocket w
  else
    let w := setupRpc w in
    let w := set_core_running true w in
    if exiting w then w
    else
      let w := if m_acceptedGen w <? gen
               then set_m_connectedAt (Some (clock w)) (set_m_acceptedGen gen w) else w in
      let w := set_m_connectTimer None w in
      let w := setState Connected w in
      if windows then emitCoreStarted w
      else emit (StartPrivilegeProbe (m_acceptedGen w) 0) (set_m_probing true w).

(** [channelUp] is whether the RPC client is still connected. *)
Definition onPrivilegeProbed (gen : Z) (ok privileged channelUp : bool) (attempt : Z) (w : World) : World :=
  if ((attempt =? 0) && negb (m_probing w)) || negb (gen =? m_acceptedGen w)
     || negb (bool_decide (m_state w = Connected)) || exiting w then w
  else if negb ok && negb channelUp then w
  else
    let w := if ok then emit (SetKnownAdmin privileged) w else w in
    let w := if negb ok && (attempt <? kPrivilegeProbeRetries) then emit (RetryPrivilegeProbe gen attempt) w else w in
    if 0 <? attempt then w
    else emitCoreStarted (set_m_probing false w).

(** The retry timer of a failed probe. *)
Definition onProbeRetry (gen attempt : Z) (w : World) : World :=
  if (gen =? m_acceptedGen w) && bool_decide (m_state w = Connected) && negb (exiting w)
  then emit (StartPrivilegeProbe gen (attempt + 1)) w else w.

(** ** The process's reports *)

Definition onCoreSpawned (gen : Z) (w : World) : World :=
  if negb (bool_decide (m_state w = Starting)) || (gen <=? m_acceptedGen w) || exiting w then w
  else set_m_connectTimer (Some kConnectTimeoutMs) (set_m_connectGen gen w).

Definition onConnectTimeout (w : World) : World :=
  if negb (bool_decide (m_state w = Starting)) || exiting w then w
  else
    let gen := m_connectGen w in
    if (gen <=? m_acceptedGen w) || negb (gen =? currentGeneration w) then w
    else post (TTimeoutKill gen) (set_m_timedOutGen gen w).

Definition connectTimeoutText : qstring :=
  qs "did not connect within " ++ number (kConnectTimeoutMs / 1000) ++ qs " s".

Definition noteCoreError (gen : Z) (line : qstring) (w : World) : World :=
  if (gen <=? m_handledExitGen w) || (gen <? m_lastCoreErrorGen w) || (m_expectedExitGen w =? gen) then w
  else
    let w := set_m_lastCoreErrorGen gen w in
    set_m_lastCoreError
      (if (gen =? m_timedOutGen w) && negb (CoreExitLooksLikePanic line) then connectTimeoutText else line) w.

(** The error to show with the exit of [gen], when this core left one. *)
Definition exitError (gen : Z) (w : World) : option qstring :=
  if (m_lastCoreErrorGen w =? gen) && negb (isEmpty (m_lastCoreError w)) then Some (m_lastCoreError w) else None.

(** An elapsed-timer check of an exit of a connected core: the second crash
    within the window is too frequent. *)
Definition noteProfileCrash (w : World) : World * bool :=
  match m_profileCrashTimer w with
  | None => (set_m_profileCrashTimer (Some (clock w)) w, false)
  | Some since =>
      let w' := set_m_profileCrashTimer (Some (clock w)) w in
      if clock w - since <? kProfileCrashWindowMs then (set_m_profileCrashTimer None w', true) else (w', false)
  end.

Definition giveUpText (wasConnected : bool) (gen : Z) (w : World) : FailureText :=
  if gui then KeepsExiting
  else if negb wasConnected && (kGiveUpAfter <=? m_startFailures w)
       then ExitedWithoutConnecting (m_startFailures w) (exitError gen w)
       else KeptExiting (exitError gen w).

Definition backoffDelay (failures : Z) : Z :=
  Z.min (kBackoffFirstMs <<< Z.min (failures - 1) 6) kBackoffCapMs.

(** The profile to resume after an exit that counts as a failure. *)
Definition noteResume (wasConnected tooFrequent : bool) (w : World) : World :=
  if wasConnected || (m_startWhenUp w <? 0) then
    if tooFrequent && (0 <=? started_id w) then set_started_id NoProfileId (set_m_startWhenUp (-1) w)
    else set_m_startWhenUp (started_id w) w
  else w.

Definition countFailure (wasConnected : bool) (w : World) : World :=
  let w := match m_connectedAt w with
           | Some since => if wasConnected && (kStableMs <=? clock w - since) then set_m_failures 0 w else w
           | None => w
           end in
  let w := set_m_failures (m_failures w + 1) w in
  if negb wasConnected then set_m_startFailures (m_startFailures w + 1) w else w.

Definition onCoreFailed (wasConnected : bool) (gen : Z) (failedToStart : bool) (w : World) : World :=
  let w := countFailure wasConnected w in
  let '(w, tooFrequent) := if wasConnected then noteProfileCrash w else (w, false) in
  let w := noteResume wasConnected tooFrequent w in
  let w := emit (EmitCoreExited wasConnected
             (CoreExitReasonText failedToStart (if m_lastCoreErrorGen w =? gen then m_lastCoreError w else []))) w in
  if ((kGiveUpAfter <=? m_failures w) && (m_startWhenUp w <? 0))
     || (negb wasConnected && (kGiveUpAfter <=? m_startFailures w)) then
    let w := set_started_id NoProfileId (set_m_startWhenUp (-1) w) in
    let w := set_m_lastFailure (giveUpText wasConnected gen w) w in
    emit (EmitCoreGaveUp (m_lastFailure w)) (setState GaveUp w)
  else scheduleRestart (backoffDelay (m_failures w)) w.

Definition onCoreExited (gen : Z) (failedToStart : bool) (exitCode : Z) (w : World) : World :=
  if gen <=? m_handledExitGen w then w
  else
    let w := set_m_handledExitGen gen w in
    let wasProbing := m_probing w && (gen =? m_acceptedGen w) in
    let w := if wasProbing then set_m_probing false w else w in
    if exiting w then w
    else
      let w := set_m_connectTimer None w in
      if m_expectedExitGen w =? gen then
        let w := set_m_failures 0 w in
        let w := set_m_startFailures 0 w in
        let w := if negb wasProbing || (m_startWhenUp w <? 0) then set_m_startWhenUp (started_id w) w else w in
        scheduleRestart kIntentRestartDelayMs w
      else
        let wasConnected := negb failedToStart && (gen =? m_acceptedGen w) && negb wasProbing in
        if negb wasConnected && (exitCode =? kCoreIdentityExitCode) && negb (identityUnsupported w) then
          let detail := match exitError gen w with
                        | Some line => line
                        | None => qs "kill switch: cannot adopt the guard group"
                        end in
          let w := emit (NoteIdentityUnsupported detail) (set_identityUnsupported true w) in
          scheduleRestart kIntentRestartDelayMs w
        else onCoreFailed wasConnected gen failedToStart w.

(** ** The thread of the process (src/src/sys/Process.cpp) *)

(** [CoreProcess::Start] and [Restart]: a new generation, with the guard
    identity the settings ask for. *)
Definition processStart (w : World) : World :=
  let gen := currentGeneration w + 1 in
  let w := set_m_process (Some gen) w in
  let w := set_guard_identity (kill_switch w && negb (identityUnsupported w)) w in
  emit (ProcessStarted gen) w.

Definition processKill (w : World) : World := emit (ProcessKilled (currentGeneration w)) w.

Definition stopProfile (args : option (bool * bool * bool)) (w : World) : World :=
  match args with Some (a, b, c) => emit (StopRunningProfile a b c) w | None => w end.

Definition runTask (t : Task) (w : World) : World :=
  match t, m_process w with
  | TStart, _ => processStart (set_m_process (Some 0) w)
  | _, None => w
  | TKill _, Some _ => processKill w
  | TKillForExit, Some _ => processKill w
  | TResetKill, Some gen =>
      let w := emit (StopRunningProfile true true true) w in
      let w := set_started_id NoProfileId w in
      processKill (set_m_expectedExitGen gen w)
  | TPrivilegeKill, Some gen => processKill (set_m_expectedExitGen gen w)
  | TTimeoutKill g, Some gen => if gen =? g then processKill w else w
  | TRestart before, Some _ =>
      if prepare_exit w then w
      else processStart (processKill (stopProfile before w))
  end.

(** ** The system *)

(** What can happen next; the arguments are the outside world's choice. *)
Inductive Event :=
| EvStart (profileId : Z)
| EvShutdown (killWaitMs : Z)
| EvKillForExit
| EvResetCore
| EvRestartNotListening (profileId : Z)
| EvRestartForGuard
| EvKillForPrivilegeChange
| EvRestartDeadCore
| EvSetStartWhenUp (profileId : Z)
| EvCancelResume
| EvNewConnection (peerIsCore : bool)
| EvPrivilegeProbed (gen : Z) (ok privileged channelUp : bool) (attempt : Z)
| EvProbeRetry (gen attempt : Z)
| EvCoreSpawned (gen : Z)
| EvConnectTimeout
| EvRestartTimeout
| EvCoreExited (gen : Z) (failedToStart : bool) (exitCode : Z) (cause : qstring)
| EvRunTask
| EvSettings (startedId : Z) (running exit killSwitch : bool)
| EvTick (ms : Z).

Definition step (ev : Event) (w : World) : World :=
  match ev with
  | EvStart p => start p w
  | EvShutdown ms => shutdown ms w
  | EvKillForExit => killForExit w
  | EvResetCore => fst (resetCore w)
  | EvRestartNotListening p => fst (restartNotListening p w)
  | EvRestartForGuard => restartForGuard w
  | EvKillForPrivilegeChange => killForPrivilegeChange w
  | EvRestartDeadCore => restartDeadCore (started_id w) w
  | EvSetStartWhenUp p => fst (setStartWhenUp p w)
  | EvCancelResume => cancelResume w
  | EvNewConnection peer => onNewConnection peer w
  | EvPrivilegeProbed gen ok privileged up attempt => onPrivilegeProbed gen ok privileged up attempt w
  | EvProbeRetry gen attempt => onProbeRetry gen attempt w
  | EvCoreSpawned gen => onCoreSpawned gen w
  | EvConnectTimeout =>
      match m_connectTimer w with Some _ => onConnectTimeout (set_m_connectTimer None w) | None => w end
  | EvRestartTimeout =>
      match m_restartTimer w with Some _ => postRestart (set_m_restartTimer None w) | None => w end
  | EvCoreExited gen failed code cause => onCoreExited gen failed code (noteCoreError gen cause w)
  | EvRunTask => match tasks w with t :: ts => runTask t (set_tasks ts w) | [] => w end
  | EvSettings id running exit ks =>
      set_started_id id (set_core_running running (set_prepare_exit (prepare_exit w || exit) (set_kill_switch ks w)))
  | EvTick ms => set_clock (clock w + Z.max 0 ms) w
  end.

Definition run (evs : list Event) (w : World) : World := fold_left (fun w ev => step ev w) evs w.
End Supervisor.

Definition initialWorld : World :=
  MkWorld NotStarted 0 (-1) false 0 0 [] 0 0 0 0 0 None None NoFailure 0 None None None false
    NoProfileId false false false false 0 [] [].
