(* ===== verification/CoreSupervision.v ===== *)
(** * What the core supervisor guarantees

    Invariants of [CoreSupervisor.step] over every sequence of events. *)

From S2P Require Import Prelude QtText CoreSupervisor.

Local Open Scope Z_scope.

(** Reads the fields of updated worlds. *)
Ltac fields :=
  cbn [m_state m_expectedExitGen m_startWhenUp m_probing m_failures m_startFailures m_lastCoreError
       m_lastCoreErrorGen m_handledExitGen m_acceptedGen m_connectGen m_timedOutGen m_connectedAt
       m_profileCrashTimer m_lastFailure m_restartCount m_restartTimer m_connectTimer m_process
       guard_identity started_id core_running prepare_exit kill_switch identityUnsupported clock tasks emitted
       set_m_state set_m_expectedExitGen set_m_startWhenUp set_m_probing set_m_failures set_m_startFailures
       set_m_lastCoreError set_m_lastCoreErrorGen set_m_handledExitGen set_m_acceptedGen set_m_connectGen
       set_m_timedOutGen set_m_connectedAt set_m_profileCrashTimer set_m_lastFailure set_m_restartCount
       set_m_restartTimer set_m_connectTimer set_m_process set_guard_identity set_started_id set_core_running
       set_prepare_exit set_kill_switch set_identityUnsupported set_clock set_tasks set_emitted emit post] in *.

(** Runs a handler on a world given by its fields, one branch at a time. *)
Ltac run_handler w :=
  destruct w; unfold start, shutdown, killForExit, resetCore, restartNotListening, restartForGuard,
    killForPrivilegeChange, restartDeadCore, setStartWhenUp, cancelResume, onNewConnection, onPrivilegeProbed,
    onProbeRetry, onCoreSpawned, onConnectTimeout, postRestart, postProcessRestart, beginRestart, setState,
    emitCoreStarted, setupRpc, runTask, processStart, processKill, stopProfile, noteCoreError, exiting,
    canStartCore, currentGeneration in *; fields;
  repeat (case_match; fields); cbn [fst snd] in *; fields.

(** ** What setting the state changes *)

Lemma setState_state s w : m_state (setState s w) = s.
Proof. unfold setState. destruct (decide (m_state w = s)); by fields. Qed.

Lemma setState_same s w : m_state w = s -> setState s w = w.
Proof. intros H. unfold setState. by rewrite decide_True. Qed.

(** A field other than the state and the log is kept. *)
Lemma setState_field {A} (f : World -> A) s w :
  (forall v u, f (set_m_state v u) = f u) -> (forall v u, f (set_emitted v u) = f u) ->
  f (setState s w) = f w.
Proof. intros H1 H2. unfold setState, emit. destruct (decide _); [done|]. by rewrite H2, H1. Qed.

(** ** The steps of a failed exit *)

Lemma countFailure_spec b w :
  let w' := countFailure b w in
  (m_failures w' = m_failures w + 1 \/ (b = true /\ m_failures w' = 1)) /\
  m_startFailures w' = m_startFailures w + (if b then 0 else 1) /\
  m_state w' = m_state w /\ m_restartTimer w' = m_restartTimer w /\ m_restartCount w' = m_restartCount w /\
  m_startWhenUp w' = m_startWhenUp w /\ started_id w' = started_id w /\ emitted w' = emitted w /\
  m_handledExitGen w' = m_handledExitGen w /\ tasks w' = tasks w.
Proof.
  unfold countFailure. destruct (m_connectedAt w) as [since|].
  1: destruct (b && (kStableMs <=? clock w - since)) eqn:E.
  all: destruct b; cbn [negb andb] in *; try discriminate; destruct w; fields; split_and!; try done; try lia.
  all: first [by left|right; by split].
Qed.

(** The fields [noteProfileCrash] and [noteResume] leave alone. *)
Definition same_counts (w w' : World) : Prop :=
  m_failures w' = m_failures w /\ m_startFailures w' = m_startFailures w /\ m_state w' = m_state w /\
  m_restartTimer w' = m_restartTimer w /\ m_restartCount w' = m_restartCount w /\ emitted w' = emitted w /\
  m_handledExitGen w' = m_handledExitGen w /\ tasks w' = tasks w.

Lemma noteProfileCrash_same w : same_counts w (fst (noteProfileCrash w)) /\
  m_startWhenUp (fst (noteProfileCrash w)) = m_startWhenUp w /\ started_id (fst (noteProfileCrash w)) = started_id w.
Proof. unfold noteProfileCrash, same_counts. destruct (m_profileCrashTimer w); [case_match|]; destruct w; by fields. Qed.

Lemma noteResume_same b t w : same_counts w (noteResume b t w) /\
  (started_id w < 0 -> m_startWhenUp w < 0 ->
   m_startWhenUp (noteResume b t w) < 0 /\ started_id (noteResume b t w) < 0).
Proof.
  unfold noteResume, same_counts. destruct (b || _); [destruct (t && _)|]; destruct w; fields; split_and!; try done; intros; try lia.
Qed.

(** ** The time before a restart *)

Definition delay_ok (w : World) : Prop :=
  0 <= m_failures w /\
  forall d, m_restartTimer w = Some d ->
    d = kIntentRestartDelayMs \/ exists k, 0 <= k <= 6 /\ d = Z.min (kBackoffFirstMs * 2 ^ k) kBackoffCapMs.

Lemma backoffDelay_form n : 1 <= n ->
  exists k, 0 <= k <= 6 /\ backoffDelay n = Z.min (kBackoffFirstMs * 2 ^ k) kBackoffCapMs.
Proof.
  intros Hn. exists (Z.min (n - 1) 6). split; [lia|]. unfold backoffDelay. by rewrite Z.shiftl_mul_pow2 by lia.
Qed.

Section Supervision.
Context (windows gui : bool).

(** What a failed exit does, in terms of the counters. *)
Lemma onCoreFailed_spec b gen failed w :
  let w' := onCoreFailed gui b gen failed w in
  (m_failures w' = m_failures w + 1 \/ (b = true /\ m_failures w' = 1)) /\
  m_startFailures w' = m_startFailures w + (if b then 0 else 1) /\
  m_restartCount w' = m_restartCount w /\ m_handledExitGen w' = m_handledExitGen w /\
  ((m_state w' = GaveUp /\ m_restartTimer w' = m_restartTimer w /\ m_startWhenUp w' < 0 /\ started_id w' < 0 /\
    (kGiveUpAfter <= m_failures w' \/ (b = false /\ kGiveUpAfter <= m_startFailures w'))) \/
   (m_state w' = Backoff /\ m_restartTimer w' = Some (backoffDelay (m_failures w')) /\
    (b = false -> m_startFailures w' < kGiveUpAfter) /\
    (kGiveUpAfter <= m_failures w' -> 0 <= m_startWhenUp w'))).
Proof.
  cbv zeta. unfold onCoreFailed. pose proof (countFailure_spec b w) as Hc. cbv zeta in Hc.
  set (w1 := countFailure b w) in *. clearbody w1.
  destruct (if b then noteProfileCrash w1 else (w1, false)) as [w2 t] eqn:E2.
  assert (same_counts w1 w2) as H2.
  { destruct b; [|by injection E2 as <- _]. destruct (noteProfileCrash_same w1) as [H _]. by rewrite E2 in H. }
  pose proof (proj1 (noteResume_same b t w2)) as H3. set (w3 := noteResume b t w2) in *. clearbody w3.
  destruct Hc as (C1 & C2 & C3 & C4 & C5 & _ & _ & _ & C9 & _).
  destruct H2 as (A1 & A2 & A3 & A4 & A5 & A6 & A7 & _). destruct H3 as (B1 & B2 & B3 & B4 & B5 & B6 & B7 & _).
  assert (m_failures w3 = m_failures w1) as Ef by congruence.
  assert (m_startFailures w3 = m_startFailures w1) as Es by congruence.
  assert (m_restartTimer w3 = m_restartTimer w) as Et by congruence.
  assert (m_restartCount w3 = m_restartCount w) as Er by congruence.
  assert (m_handledExitGen w3 = m_handledExitGen w) as Eh by congruence.
  clear A1 A2 A3 A4 A5 A6 A7 B1 B2 B3 B4 B5 B6 B7 C3 C4 C5 C9.
  rewrite <- Ef in C1. rewrite <- Es in C2. rewrite <- Et, <- Er, <- Eh. clear Ef Es Et Er Eh E2 t w2 w1.
  cbv zeta. set (e := EmitCoreExited _ _). clearbody e. unfold giveUpText, exitError.
  destruct w3; unfold scheduleRestart, setState. fields.
  destruct ((_ && _) || (_ && _)) eqn:E.
  - repeat (case_match; fields); subst; split_and!; try done; try lia; left; bprop; unfold NoProfileId;
      (split_and!; [done|done|lia|lia|]); destruct E as [[E _]|[E1 E]]; (left; lia) || (right; split; [done|lia]).
  - repeat (case_match; fields); subst; split_and!; try done; try lia; right; bprop; split_and!; try done;
      destruct E as [[E|E] [E1|E1]]; try done; intros; (done || lia).
Qed.

Lemma onCoreFailed_resume b gen failed w :
  started_id w < 0 -> m_startWhenUp w < 0 ->
  m_startWhenUp (onCoreFailed gui b gen failed w) < 0 /\ started_id (onCoreFailed gui b gen failed w) < 0.
Proof.
  intros Hs Hu. unfold onCoreFailed. pose proof (countFailure_spec b w) as Hc. cbv zeta in Hc.
  set (w1 := countFailure b w) in *. clearbody w1. destruct Hc as (_ & _ & _ & _ & _ & C6 & C7 & _).
  destruct (if b then noteProfileCrash w1 else (w1, false)) as [w2 t] eqn:E2.
  assert (m_startWhenUp w2 = m_startWhenUp w1 /\ started_id w2 = started_id w1) as [A1 A2].
  { destruct b; [|by injection E2 as <- _]. destruct (noteProfileCrash_same w1) as [_ H]. by rewrite E2 in H. }
  destruct (noteResume_same b t w2) as [_ H3]. destruct H3 as [B1 B2]; [congruence..|].
  set (w3 := noteResume b t w2) in *. clearbody w3. clear - B1 B2.
  destruct w3; unfold scheduleRestart, setState, giveUpText, exitError; fields.
  repeat (case_match; fields); unfold NoProfileId; lia.
Qed.

Lemma setState_other s w :
  m_failures (setState s w) = m_failures w /\ m_startFailures (setState s w) = m_startFailures w /\
  m_restartTimer (setState s w) = m_restartTimer w /\ m_restartCount (setState s w) = m_restartCount w /\
  m_handledExitGen (setState s w) = m_handledExitGen w /\ tasks (setState s w) = tasks w /\
  started_id (setState s w) = started_id w /\ m_startWhenUp (setState s w) = m_startWhenUp w /\
  prepare_exit (setState s w) = prepare_exit w.
Proof. split_and!; by apply setState_field. Qed.

(** What the report of an exit does: nothing but for a new generation, the end
    of an exit being torn down, an intended restart, or a failure. *)
Lemma onCoreExited_cases gen failed code w :
  let w' := onCoreExited gui gen failed code w in
  (gen <= m_handledExitGen w /\ w' = w) \/
  (m_handledExitGen w < gen /\ m_handledExitGen w' = gen /\
   ((exiting w = true /\ m_state w' = m_state w /\ emitted w' = emitted w /\ tasks w' = tasks w /\
     m_failures w' = m_failures w /\ m_startFailures w' = m_startFailures w /\
     m_restartTimer w' = m_restartTimer w /\ m_restartCount w' = m_restartCount w /\ prepare_exit w' = prepare_exit w /\
     m_startWhenUp w' = m_startWhenUp w /\ started_id w' = started_id w) \/
    (exiting w = false /\ m_state w' = Backoff /\ m_restartTimer w' = Some kIntentRestartDelayMs /\
     (m_failures w' = 0 \/ m_failures w' = m_failures w) /\ m_restartCount w' = m_restartCount w /\
     (m_expectedExitGen w = gen \/ (code = kCoreIdentityExitCode /\ identityUnsupported w = false))) \/
    (exiting w = false /\ m_expectedExitGen w <> gen /\
     exists b w1, w' = onCoreFailed gui b gen failed w1 /\ (gen <> m_acceptedGen w -> b = false) /\
       m_failures w1 = m_failures w /\ m_startFailures w1 = m_startFailures w /\
       m_restartTimer w1 = m_restartTimer w /\ m_restartCount w1 = m_restartCount w /\
       m_state w1 = m_state w /\ m_handledExitGen w1 = gen /\
       m_startWhenUp w1 = m_startWhenUp w /\ started_id w1 = started_id w))).
Proof.
  cbv zeta. unfold onCoreExited. destruct (Z.leb_spec gen (m_handledExitGen w)); [by left|right].
  fields. set (probing := m_probing w && _). set (w1 := if probing then _ else _).
  assert (exists v, w1 = set_m_probing v (set_m_handledExitGen gen w)) as [v ->].
  { subst w1. destruct probing; [by exists false|]. exists (m_probing w). by destruct w. }
  assert (exiting (set_m_probing v (set_m_handledExitGen gen w)) = exiting w) as Hex by (by destruct w). rewrite Hex.
  split; [done|]. clearbody probing. clear Hex. destruct w; unfold scheduleRestart, setState; fields.
  set (b := negb failed && (gen =? m_acceptedGen) && negb probing).
  assert (gen <> m_acceptedGen -> b = false) as Hb.
  { intros Hne. subst b. destruct (Z.eqb_spec gen m_acceptedGen); [done|]. by rewrite andb_false_r. }
  clearbody b.
  destruct (exiting _) eqn:Ee; [split; [done|left; done]|].
  destruct (Z.eqb_spec m_expectedExitGen gen) as [Eg|Eg].
  - repeat (case_match; fields); subst; split; try done; right; left; split_and!; auto.
  - destruct (negb b && (code =? _) && _) eqn:Ei.
    + repeat (case_match; fields); subst; bprop; split; try done; right; left; split_and!; auto; right; tauto.
    + split; [|right; right; split; [done|]; split; [done|]; exists b; eexists; split; [reflexivity|]; fields; done].
      match goal with |- _ (onCoreFailed _ _ _ _ ?u) = _ =>
        exact (proj1 (proj2 (proj2 (proj2 (onCoreFailed_spec b gen failed u))))) end.
Qed.

(** *** Delays *)

Lemma delay_step ev w : delay_ok w -> delay_ok (step windows gui ev w).
Proof.
  intros H. destruct ev; cbn [step].
  17:{ assert (delay_ok (noteCoreError gen cause w)) as H'.
       { unfold delay_ok in *. by run_handler w. }
       clear H. set (u := noteCoreError gen cause w) in *. clearbody u. clear w.
       unfold delay_ok in *. destruct H' as [Hf Ht].
       destruct (onCoreExited_cases gen failedToStart exitCode u) as
         [(_ & ->)|(_ & _ & [(_ & _ & _ & _ & E & _ & E' & _)|[(_ & _ & E' & E & _)|(_ & _ & b & w1 & -> & _ & E & _ & E' & _)]])].
       - done.
       - by rewrite E, E'.
       - rewrite E'. split; [lia|]. intros d [= <-]. by left.
       - destruct (onCoreFailed_spec b gen failedToStart w1) as (F & _ & _ & _ & [(_ & T & _)|(_ & T & _)]).
         + rewrite T, E'. split; [lia|done].
         + rewrite T. split; [lia|]. intros d [= <-]. right. apply backoffDelay_form. lia. }
  all: unfold delay_ok in *; destruct H as [Hf Ht]; run_handler w; (split; [lia|done]).
Qed.

Lemma delay_run evs w : delay_ok w -> delay_ok (run windows gui evs w).
Proof. revert w. induction evs as [|ev evs IH]; intros w H; [done|]. apply IH. by apply delay_step. Qed.

(** *** Exits are handled once *)

Lemma handled_step ev w : m_handledExitGen w <= m_handledExitGen (step windows gui ev w).
Proof.
  destruct ev; cbn [step].
  17:{ assert (m_handledExitGen (noteCoreError gen cause w) = m_handledExitGen w) as <- by by run_handler w.
       set (u := noteCoreError gen cause w). clearbody u.
       destruct (onCoreExited_cases gen failedToStart exitCode u) as [(_ & ->)|(Hlt & -> & _)]; lia. }
  all: run_handler w; lia.
Qed.

Lemma handled_run evs w : m_handledExitGen w <= m_handledExitGen (run windows gui evs w).
Proof.
  revert w. induction evs as [|ev evs IH]; intros w; [cbn; lia|].
  cbn [run fold_left]. pose proof (handled_step ev w). specialize (IH (step windows gui ev w)). unfold run in IH. lia.
Qed.

Lemma handled_exit gen failed code cause w :
  gen <= m_handledExitGen (step windows gui (EvCoreExited gen failed code cause) w).
Proof.
  cbn [step]. set (u := noteCoreError gen cause w). clearbody u.
  destruct (onCoreExited_cases gen failed code u) as [(Hle & ->)|(_ & -> & _)]; lia.
Qed.

Lemma handled_noop gen failed code cause w :
  gen <= m_handledExitGen w -> step windows gui (EvCoreExited gen failed code cause) w = w.
Proof.
  intros H. cbn [step]. unfold noteCoreError. destruct (Z.leb_spec gen (m_handledExitGen w)); [|lia]. cbn [orb].
  unfold onCoreExited. destruct (Z.leb_spec gen (m_handledExitGen w)); [done|lia].
Qed.

(** *** Shutting down is final *)

Definition countIf {A} (p : A -> bool) (l : list A) : nat := length (List.filter p l).
Definition isCoreStarted (e : Effect) : bool := match e with EmitCoreStarted _ => true | _ => false end.
Definition isProcessStarted (e : Effect) : bool := match e with ProcessStarted _ => true | _ => false end.
Definition isSpawn (t : Task) : bool := match t with TStart | TRestart _ => true | _ => false end.
Definition isFirstStart (t : Task) : bool := match t with TStart => true | _ => false end.

(** Starts announced, processes spawned, and spawns still to come. *)
Definition announced (w : World) : nat := countIf isCoreStarted (emitted w).
Definition spawned (w : World) : nat := countIf isProcessStarted (emitted w).
Definition toSpawn (w : World) : nat := countIf isSpawn (tasks w).

Lemma countIf_app {A} (p : A -> bool) l m : countIf p (l ++ m) = (countIf p l + countIf p m)%nat.
Proof. unfold countIf. by rewrite List.filter_app, length_app. Qed.

Lemma countIf_one {A} (p : A -> bool) x : countIf p [x] = if p x then 1%nat else 0%nat.
Proof. unfold countIf. cbn. by destruct (p x). Qed.

Record final_step (w w' : World) : Prop := {
  final_state : m_state w' = ShuttingDown;
  final_announced : announced w' = announced w;
  final_spawns : (spawned w' + toSpawn w' <= spawned w + toSpawn w)%nat;
  final_exit : prepare_exit w = true -> prepare_exit w' = true;
  final_tasks : countIf isFirstStart (tasks w) = 0%nat -> countIf isFirstStart (tasks w') = 0%nat;
  final_spawned : prepare_exit w = true -> countIf isFirstStart (tasks w) = 0%nat -> spawned w' = spawned w }.

Lemma final_refl w : m_state w = ShuttingDown -> final_step w w.
Proof. by split. Qed.

Lemma shutting_down_step ev w : m_state w = ShuttingDown -> final_step w (step windows gui ev w).
Proof.
  intros H. destruct ev; cbn [step].
  17:{ assert (m_state (noteCoreError gen cause w) = ShuttingDown /\ emitted (noteCoreError gen cause w) = emitted w /\
         tasks (noteCoreError gen cause w) = tasks w /\ prepare_exit (noteCoreError gen cause w) = prepare_exit w)
         as (H1 & H2 & H3 & H4) by by run_handler w.
       set (u := noteCoreError gen cause w) in *. clearbody u.
       assert (exiting u = true) as Hx by (unfold exiting; by rewrite H1).
       destruct (onCoreExited_cases gen failedToStart exitCode u) as
         [(_ & ->)|(_ & _ & [(_ & E1 & E2 & E3 & _ & _ & _ & _ & E4 & _)|[(Hn & _)|(Hn & _)]])]; [| |congruence..].
       - split; unfold announced, spawned, toSpawn; rewrite ?H2, ?H3, ?H4; (done || lia).
       - split; unfold announced, spawned, toSpawn; rewrite ?E1, ?E2, ?E3, ?E4, ?H1, ?H2, ?H3, ?H4; (done || lia). }
  17:{ destruct w; fields. subst m_state. destruct tasks as [|t ts]; [by apply final_refl|].
       unfold runTask, processStart, processKill, stopProfile, currentGeneration. fields.
       repeat (case_match; fields); split; unfold announced, spawned, toSpawn; fields; subst;
         rewrite ?countIf_app, ?countIf_one; cbn [isCoreStarted isProcessStarted];
         try (change (?t :: ?ts) with ([t] ++ ts)); rewrite ?countIf_app, ?countIf_one; cbn [isSpawn isFirstStart];
         try done; try lia. all: intros; congruence || lia. }
  all: run_handler w; try (subst; discriminate); try (rewrite ?H in *; discriminate);
    split; unfold announced, spawned, toSpawn; fields; rewrite ?countIf_app, ?countIf_one;
    cbn [isCoreStarted isProcessStarted isSpawn isFirstStart]; subst; try done; try lia.
  all: try (by intros ->); exfalso; bprop; tauto.
Qed.

(** *** Giving up *)

(** What happens without a request from outside and without a core that
    connects: reports of cores that failed by themselves, timers, the process
    thread, refused connections and the clock. *)
Definition unattended (ev : Event) (w : World) : Prop :=
  match ev with
  | EvCoreExited gen _ code _ =>
      gen <> m_acceptedGen w /\ gen <> m_expectedExitGen w /\
      (code <> kCoreIdentityExitCode \/ identityUnsupported w = true)
  | EvRunTask => match tasks w with TResetKill :: _ | TPrivilegeKill :: _ => False | _ => True end
  | EvCoreSpawned _ | EvConnectTimeout | EvRestartTimeout | EvTick _ => True
  | EvNewConnection peer => peer = false
  | _ => False
  end.

Inductive unattended_run : World -> World -> Prop :=
| unattended_done w : unattended_run w w
| unattended_more ev w w' :
    unattended ev w -> unattended_run (step windows gui ev w) w' -> unattended_run w w'.

Fixpoint unattended_all (evs : list Event) (w : World) : Prop :=
  match evs with
  | [] => True
  | ev :: evs' => unattended ev w /\ unattended_all evs' (step windows gui ev w)
  end.

Lemma unattended_events evs : forall w, unattended_all evs w -> unattended_run w (run windows gui evs w).
Proof.
  induction evs as [|ev evs IH]; intros w; [intros; apply unattended_done|].
  intros [Hu Hr]. apply (unattended_more ev); [done|]. by apply IH.
Qed.

(** The budget: restarts made so far, of at most one less than the limit. *)
Record budget (made : Z) (w : World) : Prop := {
  budget_nonneg : 0 <= m_startFailures w;
  budget_state :
    (m_state w = Starting /\ made <= m_startFailures w < kGiveUpAfter) \/
    (m_state w = Backoff /\ made < m_startFailures w < kGiveUpAfter) \/
    (m_state w = GaveUp /\ made < kGiveUpAfter /\ m_startWhenUp w < 0 /\ started_id w < 0 /\
     (kGiveUpAfter <= m_failures w \/ kGiveUpAfter <= m_startFailures w)) }.

Lemma budget_step ev w made :
  budget made w -> unattended ev w -> 0 <= m_restartCount w ->
  let w' := step windows gui ev w in
  m_restartCount w <= m_restartCount w' /\ budget (made + (m_restartCount w' - m_restartCount w)) w'.
Proof.
  intros [Hn Hb] Hu Hr. cbv zeta. destruct ev; cbn [unattended] in Hu; try done; cbn [step].
  5:{ assert (m_startFailures (noteCoreError gen cause w) = m_startFailures w /\ m_failures (noteCoreError gen cause w) = m_failures w /\
        m_state (noteCoreError gen cause w) = m_state w /\ m_restartCount (noteCoreError gen cause w) = m_restartCount w /\
        m_acceptedGen (noteCoreError gen cause w) = m_acceptedGen w /\
        m_expectedExitGen (noteCoreError gen cause w) = m_expectedExitGen w /\
        identityUnsupported (noteCoreError gen cause w) = identityUnsupported w /\
        m_startWhenUp (noteCoreError gen cause w) = m_startWhenUp w /\ started_id (noteCoreError gen cause w) = started_id w)
        as (E1 & E2 & E3 & E4 & E5 & E6 & E7 & E8 & E9) by by run_handler w.
      set (u := noteCoreError gen cause w) in *. clearbody u.
      rewrite <- E1, <- E2, <- E3, <- E8, <- E9 in Hb. rewrite <- E4. rewrite <- E1 in Hn. rewrite <- E5, <- E6, <- E7 in Hu.
      clear E1 E2 E3 E4 E5 E6 E7 E8 E9 Hr w. destruct Hu as (Ha & He & Hi).
      destruct (onCoreExited_cases gen failedToStart exitCode u) as
        [(_ & ->)|(_ & _ & [(_ & E1 & _ & _ & E2 & E3 & _ & E4 & _ & E5 & E6)|[(_ & _ & _ & _ & _ & H)|
           (_ & _ & b & w1 & -> & Hab & F1 & F2 & F3 & F4 & F5 & _ & F7 & F8)]])].
      - rewrite Z.sub_diag, Z.add_0_r. by split; [lia|split].
      - rewrite E4, Z.sub_diag, Z.add_0_r. split; [lia|]. split; rewrite ?E1, ?E2, ?E3, ?E5, ?E6; done.
      - exfalso. destruct H as [H|[H1 H2]]; [congruence|]. destruct Hi as [Hi|Hi]; congruence.
      - rewrite (Hab Ha). clear Hab Ha He Hi b.
        pose proof (onCoreFailed_spec false gen failedToStart w1) as HS. cbv zeta in HS.
        pose proof (onCoreFailed_resume false gen failedToStart w1) as HR.
        set (v := onCoreFailed gui false gen failedToStart w1) in *. clearbody v.
        destruct HS as ([G1|[G1 _]] & G2 & G3 & _ & G5); [|done].
        rewrite F1, F2, F4, F7, F8 in *. rewrite G3, Z.sub_diag, Z.add_0_r. split; [lia|].
        split; [lia|]. unfold kGiveUpAfter in *.
        destruct G5 as [(S1 & _ & S3 & S4 & S5)|(S1 & _ & S3 & S4)]; rewrite S1.
        + right; right. split_and!; try done; try lia.
        + right; left. split; [done|]. specialize (S3 eq_refl). split; [|lia].
          destruct Hb as [(_ & Hb)|[(_ & Hb)|(_ & Hb & H1 & H2 & H3)]]; [lia|lia|].
          exfalso. destruct (HR H2 H1). destruct H3 as [H3|H3]; lia. }
  all: run_handler w; subst; rewrite ?Z.sub_diag, ?Z.add_0_r; (split; [try done; lia|]);
    (split; fields; [done|]); try done.
  all: left; split; [done|]; match goal with E : (_ || _) = false |- _ => rename E into Eb end; bprop;
    destruct Eb as [Eb _]; rewrite Eb in Hb; destruct Hb as [(Hx & _)|[(_ & Hb)|(Hx & _)]]; (done || lia).
Qed.

Lemma unattended_budget w w' made :
  unattended_run w w' -> budget made w -> 0 <= m_restartCount w ->
  budget (made + (m_restartCount w' - m_restartCount w)) w'.
Proof.
  intros H. revert made. induction H as [w|ev w w' Hu Hr IH]; intros made Hb H0.
  - by rewrite Z.sub_diag, Z.add_0_r.
  - destruct (budget_step ev w made Hb Hu H0) as [Hle Hb']. specialize (IH _ Hb' ltac:(lia)).
    replace (made + (m_restartCount w' - m_restartCount w)) with
      (made + (m_restartCount (step windows gui ev w) - m_restartCount w) +
       (m_restartCount w' - m_restartCount (step windows gui ev w))) by lia. exact IH.
Qed.
End Supervision.

(** ** Properties *)

Lemma initial_delay_ok : delay_ok initialWorld.
Proof. by split. Qed.

(** Whatever happens, an armed restart timer holds a delay the policy
    names: 200 ms for an intended restart, or the exponential backoff that
    starts at 500 ms, doubles at most six times and never passes 30 s. *)
Theorem restart_delay (windows gui : bool) (evs : list Event) :
  match m_restartTimer (run windows gui evs initialWorld) with
  | None => True
  | Some d => (d = kIntentRestartDelayMs \/
      exists k, 0 <= k <= 6 /\ d = Z.min (kBackoffFirstMs * 2 ^ k) kBackoffCapMs) /\ 0 < d <= kBackoffCapMs
  end.
Proof.
  destruct (delay_run windows gui evs initialWorld initial_delay_ok) as [_ H].
  destruct (m_restartTimer _) as [d|]; [|done]. specialize (H d eq_refl). split; [done|].
  unfold kIntentRestartDelayMs, kBackoffCapMs, kBackoffFirstMs in *. destruct H as [->|(k & Hk & ->)]; [lia|].
  assert (0 < 2 ^ k) by (apply Z.pow_pos_nonneg; lia). lia.
Qed.

(** The exit of a generation is handled once: after a report of it, further
    reports of the same generation change nothing, whatever happened in
    between and whatever they claim about the exit. *)
Theorem exit_handled_once (windows gui : bool) (gen : Z) (failed : bool) (code : Z) (cause : qstring)
    (evs : list Event) (w : World) (failed' : bool) (code' : Z) (cause' : qstring) :
  let w1 := run windows gui evs (step windows gui (EvCoreExited gen failed code cause) w) in
  step windows gui (EvCoreExited gen failed' code' cause') w1 = w1.
Proof.
  cbv zeta. apply handled_noop.
  pose proof (handled_exit windows gui gen failed code cause w).
  pose proof (handled_run windows gui evs (step windows gui (EvCoreExited gen failed code cause) w)). lia.
Qed.

(** Shutting down is final: from then on no event changes the state, no
    start is announced, no new spawn of the core is asked for, and once the
    exit flag is set the spawns already queued are not carried out either. *)
Theorem shutdown_final (windows gui : bool) (evs : list Event) (w : World) (Hs : m_state w = ShuttingDown) :
  let w' := run windows gui evs w in
  m_state w' = ShuttingDown /\ announced w' = announced w /\
  (spawned w' + toSpawn w' <= spawned w + toSpawn w)%nat /\
  (prepare_exit w = true -> countIf isFirstStart (tasks w) = 0%nat -> spawned w' = spawned w).
Proof.
  cbv zeta. revert w Hs. induction evs as [|ev evs IH]; intros w Hs; [by split_and!|].
  destruct (shutting_down_step windows gui ev w Hs) as [F1 F2 F3 F4 F5 F6].
  destruct (IH _ F1) as (I1 & I2 & I3 & I4). cbn [run fold_left]. unfold run in *.
  split_and!; [done|congruence|lia|]. intros Hp Ht. rewrite I4, F6; auto.
Qed.

Lemma shutdown_final_witness :
  let w := step false false (EvShutdown 30000) (step false false (EvStart 7) initialWorld) in
  let w' := run false false [EvRunTask; EvRunTask; EvResetCore; EvRestartTimeout; EvNewConnection true] w in
  m_state w' = ShuttingDown /\ announced w' = announced w /\
  (spawned w' + toSpawn w' <= spawned w + toSpawn w)%nat /\
  (prepare_exit w = true -> countIf isFirstStart (tasks w) = 0%nat -> spawned w' = spawned w).
Proof. apply shutdown_final. reflexivity. Defined.

(** C34: Giving up ends the restarts: from a fresh start, as long as nobody asks
    for anything and no core connects, cores that fail by themselves are
    restarted at most four times, and with the fifth failure the supervisor
    has given up, which nothing but a request ends. *)
Theorem gives_up (windows gui : bool) (w w' : World)
    (Hs : m_state w = Starting) (Hf : m_startFailures w = 0) (Hr : 0 <= m_restartCount w)
    (Hrun : unattended_run windows gui w w') :
  m_restartCount w' <= m_restartCount w + (kGiveUpAfter - 1) /\
  (kGiveUpAfter <= m_startFailures w' -> m_state w' = GaveUp).
Proof.
  assert (budget 0 w) as Hb by (split; [lia|left; split; [done|unfold kGiveUpAfter; lia]]).
  destruct (unattended_budget windows gui w w' 0 Hrun Hb Hr) as [Hn H]. unfold kGiveUpAfter in *.
  destruct H as [(E & H)|[(E & H)|(E & H & _)]]; (split; [lia|intros; done || lia]).
Qed.

Definition failedStart (gen : Z) : list Event := [EvRunTask; EvCoreExited gen true (-1) []; EvRestartTimeout].

Lemma gives_up_witness :
  let w := start (-1) initialWorld in
  let w' := run false false (failedStart 1 ++ failedStart 2 ++ failedStart 3 ++ failedStart 4 ++ failedStart 5) w in
  m_state w' = GaveUp /\ m_restartCount w' = m_restartCount w + 4 /\
  m_restartCount w' <= m_restartCount w + (kGiveUpAfter - 1) /\
  (kGiveUpAfter <= m_startFailures w' -> m_state w' = GaveUp).
Proof.
  split; [reflexivity|split; [reflexivity|]].
  apply (gives_up false false); [reflexivity|reflexivity|by vm_compute|].
  apply unattended_events. vm_compute. repeat split; try discriminate; left; discriminate.
Defined.
