(* ===== verification/CoreStderr.v ===== *)
(** * What a dying core said (src/src/engine/supervisor/CoreSupervisor.cpp)

    The reassembly of a core's standard error into lines across reads and the
    choice of the line that tells why it died. Decoding UTF-8 is an argument. *)

From Stdlib Require Import Ascii String.
From S2P Require Import Prelude QtText CoreSupervisor.

Local Open Scope Z_scope.

Definition kCoreSupervisorErrorMaxChars : Z := 300.
Definition kCoreSupervisorStderrLineCap : Z := 4096.

Record CoreSupervisorStderrTail := Tail { tailGen : Z; partial : list Z; panic : qstring; lastLine : qstring }.

(** QString::simplified, and QChar's category of control characters. *)
Definition simplified (s : qstring) : qstring :=
  join [32] (List.filter (fun p => negb (isEmpty p)) (splitBy isSpace s)).
Definition isControl (c : Z) : bool := ((0 <=? c) && (c <? 32)) || ((127 <=? c) && (c <? 160)).

Definition coreSupervisorOneLine (text : qstring) : qstring :=
  let text := simplified (map (fun c => if isControl c then 32 else c) text) in
  if kCoreSupervisorErrorMaxChars <? qsize text
  then take (Z.to_nat (kCoreSupervisorErrorMaxChars - 3)) text ++ qs "..."
  else text.

(** The two regular expressions: a Go log's time stamp, removed from the front,
    and a line of a register dump. *)
Fixpoint consumeShape (shape : list (Z -> bool)) (s : qstring) : option qstring :=
  match shape, s with
  | [], _ => Some s
  | p :: shape', c :: s' => if p c then consumeShape shape' s' else None
  | _ :: _, [] => None
  end.
Definition isDigit (c : Z) : bool := (48 <=? c) && (c <=? 57).
Definition goLogShape : list (Z -> bool) :=
  let d := isDigit in let c x := Z.eqb (ch x) in
  [d; d; d; d; c "/"%char; d; d; c "/"%char; d; d; c " "%char; d; d; c ":"%char; d; d; c ":"%char; d; d].
Definition removeGoLogStamp (s : qstring) : qstring :=
  match consumeShape goLogShape s with
  | None => s
  | Some (c :: rest) =>
      if c =? ch " " then rest
      else if c =? ch "." then
        match takeWhile isDigit rest, dropWhile isDigit rest with
        | _ :: _, e :: rest' => if e =? ch " " then rest' else s
        | _, _ => s
        end
      else s
  | Some [] => s
  end.

Definition isLower (c : Z) : bool := (97 <=? c) && (c <=? 122).
Definition isHexLower (c : Z) : bool := isDigit c || ((97 <=? c) && (c <=? 102)).
Definition isRegexSpace (c : Z) : bool := ((9 <=? c) && (c <=? 13)) || (c =? 32).
Definition registerDump (s : qstring) : bool :=
  let word := takeWhile (fun c => isLower c || isDigit c) s in
  let rest := dropWhile (fun c => isLower c || isDigit c) s in
  match word with
  | c :: _ =>
      isLower c && (length word <=? 8)%nat && negb (isEmpty (takeWhile isRegexSpace rest)) &&
      (let value := dropWhile isRegexSpace rest in
       startsWith (qs "0x") value && negb (isEmpty (drop 2 value)) && forallb isHexLower (drop 2 value))
  | [] => false
  end.

Section Stderr.
Context (fromUtf8 : list Z -> qstring).

Definition noteText (tail : CoreSupervisorStderrTail) (text : qstring) : CoreSupervisorStderrTail :=
  if isEmpty text then tail
  else if CoreExitLooksLikePanic text then Tail (tailGen tail) (partial tail) text (lastLine tail)
  else if startsWith (qs "goroutine ") text || registerDump text then tail
  else Tail (tailGen tail) (partial tail) (panic tail) text.

Definition coreSupervisorNoteStderrLine (tail : CoreSupervisorStderrTail) (line : list Z) : CoreSupervisorStderrTail :=
  if negb (isEmpty (panic tail)) then tail
  else
    let line := if endsWithC 13 line then take (length line - 1) line else line in
    if isEmpty line || startsWithC 32 line || startsWithC 9 line then tail
    else noteText tail (coreSupervisorOneLine (removeGoLogStamp (fromUtf8 line))).

(** The loop over the complete lines; what follows the last one is kept. *)
Fixpoint feedLines (tail : CoreSupervisorStderrTail) (pieces : list (list Z)) : CoreSupervisorStderrTail :=
  match pieces with
  | [] => tail
  | [rest] => Tail (tailGen tail) rest (panic tail) (lastLine tail)
  | line :: pieces' => feedLines (coreSupervisorNoteStderrLine tail line) pieces'
  end.

Definition coreSupervisorFeedStderr (tail : CoreSupervisorStderrTail) (gen : Z) (chunk : list Z) : CoreSupervisorStderrTail :=
  let tail := if tailGen tail =? gen then tail else Tail gen [] [] [] in
  if negb (isEmpty (panic tail)) then tail
  else
    let tail := feedLines tail (split 10 (partial tail ++ chunk)) in
    if kCoreSupervisorStderrLineCap <? qsize (partial tail)
    then Tail (tailGen tail) [] (panic tail) (lastLine tail) else tail.

Definition coreSupervisorStderrCause (tail : CoreSupervisorStderrTail) (gen : Z) : qstring :=
  if negb (tailGen tail =? gen) then []
  else
    let tail := if isEmpty (partial tail) then tail
                else coreSupervisorNoteStderrLine (Tail (tailGen tail) [] (panic tail) (lastLine tail)) (partial tail) in
    if isEmpty (panic tail) then lastLine tail else panic tail.

(** ** Lines and chunks *)

Definition noteLines (tail : CoreSupervisorStderrTail) (lines : list (list Z)) : CoreSupervisorStderrTail :=
  fold_left coreSupervisorNoteStderrLine lines tail.

Definition withPartial (p : list Z) (tail : CoreSupervisorStderrTail) : CoreSupervisorStderrTail :=
  Tail (tailGen tail) p (panic tail) (lastLine tail).

Lemma note_partial tail line p :
  coreSupervisorNoteStderrLine (withPartial p tail) line = withPartial p (coreSupervisorNoteStderrLine tail line).
Proof.
  unfold coreSupervisorNoteStderrLine, noteText, withPartial. cbn [panic tailGen partial lastLine].
  repeat (case_match; cbn [panic tailGen partial lastLine]); done.
Qed.

Lemma notes_partial tail lines p : noteLines (withPartial p tail) lines = withPartial p (noteLines tail lines).
Proof.
  unfold noteLines. revert tail. induction lines as [|l lines IH]; intros tail; [done|]. cbn [fold_left].
  by rewrite note_partial, IH.
Qed.

Lemma feedLines_notes tail lines rest :
  feedLines tail (lines ++ [rest]) = withPartial rest (noteLines tail lines).
Proof.
  revert tail. induction lines as [|l lines IH]; intros tail; [done|]. cbn [app feedLines noteLines fold_left].
  destruct (lines ++ [rest]) eqn:E; [by destruct lines|]. apply (IH (coreSupervisorNoteStderrLine tail l)).
Qed.

Lemma split_last c s : exists lines rest, split c s = lines ++ [rest].
Proof.
  destruct (exists_last (splitBy_nonempty (fun d => d =? c) s)) as (lines & rest & E). by exists lines, rest.
Qed.

(** Splitting a text that continues. *)
Lemma split_more c s t lines rest :
  split c s = lines ++ [rest] -> split c (s ++ t) = lines ++ split c (rest ++ t).
Proof.
  unfold split. revert lines rest. induction s as [|d s IH]; intros lines rest; cbn [splitBy app].
  - intros E. destruct lines as [|l lines]; [by injection E as <-|]. by destruct lines.
  - destruct (d =? c) eqn:Ed.
    + intros E. destruct lines as [|l lines]; [injection E as <- E; by apply splitBy_nonempty in E|].
      injection E as <- E. cbn [app]. f_equal. by apply IH.
    + destruct (splitBy (fun d => d =? c) s) as [|p ps] eqn:Es; [by apply splitBy_nonempty in Es|].
      intros E. destruct lines as [|l lines].
      * injection E as <- ->. specialize (IH [] p eq_refl). cbn [app] in *. rewrite IH.
        cbn [splitBy]. by rewrite Ed.
      * injection E as <- ->. rewrite (IH (p :: lines) rest eq_refl). done.
Qed.

Lemma note_panic tail line : panic tail <> [] -> coreSupervisorNoteStderrLine tail line = tail.
Proof. intros H. unfold coreSupervisorNoteStderrLine. by destruct (panic tail). Qed.

Lemma notes_panic tail lines : panic tail <> [] -> noteLines tail lines = tail.
Proof.
  intros H. unfold noteLines. induction lines as [|l lines IH]; [done|]. cbn [fold_left]. by rewrite note_panic.
Qed.

Lemma note_gen tail line : tailGen (coreSupervisorNoteStderrLine tail line) = tailGen tail.
Proof. unfold coreSupervisorNoteStderrLine, noteText. repeat case_match; done. Qed.

Lemma notes_gen tail lines : tailGen (noteLines tail lines) = tailGen tail.
Proof.
  unfold noteLines. revert tail. induction lines as [|l lines IH]; intros tail; [done|]. cbn [fold_left].
  by rewrite IH, note_gen.
Qed.

(** The reference: all lines of the whole output, the last one included. *)
Definition causeOf (gen : Z) (output : list Z) : qstring :=
  let tail := noteLines (Tail gen [] [] []) (split 10 output) in
  if isEmpty (panic tail) then lastLine tail else panic tail.

Definition lines_short (output : list Z) : Prop :=
  Forall (fun line => qsize line <= kCoreSupervisorStderrLineCap) (split 10 output).

(** What a tail holds after reading [output]: the notes of its complete lines
    and, until a panic is found, its incomplete last one. *)
Definition holds_output (gen : Z) (output : list Z) (tail : CoreSupervisorStderrTail) : Prop :=
  exists lines rest, split 10 output = lines ++ [rest] /\
    let notes := noteLines (Tail gen [] [] []) lines in
    tailGen tail = gen /\ panic tail = panic notes /\ lastLine tail = lastLine notes /\
    (panic notes = [] -> partial tail = rest).

Lemma feed_output gen output chunk tail :
  lines_short (output ++ chunk) -> holds_output gen output tail ->
  holds_output gen (output ++ chunk) (coreSupervisorFeedStderr tail gen chunk).
Proof.
  intros Hs (lines & rest & E & Hg & Hp & Hl & Hr).
  destruct (split_last 10 (rest ++ chunk)) as (more & rest' & E').
  pose proof (split_more 10 output chunk lines rest E) as Ea. rewrite E', app_assoc in Ea.
  exists (lines ++ more), rest'. split; [done|]. cbv zeta.
  assert (noteLines (Tail gen [] [] []) (lines ++ more) = noteLines (noteLines (Tail gen [] [] []) lines) more) as ->
    by apply fold_left_app.
  set (notes := noteLines (Tail gen [] [] []) lines) in *.
  unfold coreSupervisorFeedStderr. rewrite Hg, Z.eqb_refl, Hp.
  destruct (panic notes) as [|x p] eqn:Ep; cbn [isEmpty negb].
  2:{ rewrite (notes_panic notes more) by (by rewrite Ep). rewrite Ep. split_and!; done. }
  rewrite (Hr eq_refl), E', feedLines_notes.
  assert (tail = withPartial rest notes) as ->.
  { destruct tail as [g pa pn la]. cbn in *. unfold withPartial. subst g. rewrite Ep, <- Hl, (Hr eq_refl). subst pn.
    f_equal. unfold notes. by rewrite notes_gen. }
  rewrite notes_partial. cbn [partial withPartial].
  assert (qsize rest' <= kCoreSupervisorStderrLineCap) as Hc.
  { unfold lines_short in Hs. rewrite Ea in Hs. apply Forall_app in Hs as [_ Hs]. apply Forall_cons in Hs as [Hs _]. exact Hs. }
  destruct (Z.ltb_spec kCoreSupervisorStderrLineCap (qsize rest')); [lia|].
  unfold withPartial. cbn. split_and!; [|done..]. unfold notes. by rewrite !notes_gen.
Qed.

Lemma split_prepend c r t : free c r ->
  exists p ps, split c t = p :: ps /\ split c (r ++ t) = (r ++ p) :: ps.
Proof.
  intros Hr. destruct (split c t) as [|p ps] eqn:E; [by apply splitBy_nonempty in E|].
  exists p, ps. split; [done|]. unfold split in *. induction Hr as [|d r Hd _ IH]; [done|]. cbn [app splitBy].
  destruct (Z.eqb_spec d c); [done|]. by rewrite IH.
Qed.

Lemma lines_short_prefix s t : lines_short (s ++ t) -> lines_short s.
Proof.
  unfold lines_short. intros H. destruct (split_last 10 s) as (ls & r & E).
  rewrite (split_more 10 s t ls r E) in H. apply Forall_app in H as [H1 H2]. rewrite E.
  apply Forall_app. split; [done|]. apply Forall_singleton.
  pose proof (split_free_parts 10 s) as Hf. rewrite E in Hf. apply Forall_app in Hf as [_ Hf]. apply Forall_cons in Hf as [Hf _].
  destruct (split_prepend 10 r t Hf) as (p & ps & _ & E2). rewrite E2 in H2. apply Forall_cons in H2 as [H2 _].
  unfold qsize in *. rewrite length_app in H2. lia.
Qed.

Lemma feed_all gen cs : forall output t,
  lines_short (output ++ concat cs) -> holds_output gen output t ->
  holds_output gen (output ++ concat cs) (fold_left (fun t c => coreSupervisorFeedStderr t gen c) cs t).
Proof.
  induction cs as [|c cs IH]; intros output t Hl Ht; [by rewrite app_nil_r|]. cbn [fold_left concat] in *.
  rewrite app_assoc in *. apply IH; [done|]. apply feed_output; [|done]. by eapply lines_short_prefix.
Qed.

Lemma cause_output gen output tail :
  holds_output gen output tail -> coreSupervisorStderrCause tail gen = causeOf gen output.
Proof.
  intros (lines & rest & E & Hg & Hp & Hl & Hr). unfold coreSupervisorStderrCause, causeOf.
  rewrite Hg, Z.eqb_refl, E. cbn [negb].
  assert (noteLines (Tail gen [] [] []) (lines ++ [rest]) =
    coreSupervisorNoteStderrLine (noteLines (Tail gen [] [] []) lines) rest) as -> by apply fold_left_app.
  set (notes := noteLines (Tail gen [] [] []) lines) in *.
  destruct (panic notes) as [|x p] eqn:Ep.
  - specialize (Hr eq_refl). destruct rest as [|y rest].
    + rewrite Hr. cbn [isEmpty]. rewrite Hp, Hl.
      assert (coreSupervisorNoteStderrLine notes [] = notes) as ->
        by (clear -Ep; clearbody notes; destruct notes as [g pa pn la]; cbn in Ep; subst pn; reflexivity). by rewrite Ep.
    + rewrite Hr. cbn [isEmpty].
      assert (Tail gen [] (panic tail) (lastLine tail) = withPartial [] notes) as ->.
      { unfold withPartial. rewrite Hp, Hl, Ep. f_equal. unfold notes. by rewrite notes_gen. }
      rewrite note_partial. done.
  - assert (forall line, coreSupervisorNoteStderrLine notes line = notes) as Hn by (intros; apply note_panic; by rewrite Ep).
    rewrite Hn, Ep. cbn [isEmpty].
    destruct (isEmpty (partial tail)); [by rewrite Hp|].
    rewrite note_panic by (cbn [panic]; by rewrite Hp). cbn [panic]. by rewrite Hp.
Qed.

(** How the reads cut a core's output does not matter: for any cutting of
    an output whose lines stay under the cap, the cause named at the exit is
    the one of its lines, the first panic line or else the last plain one. *)
Theorem stderr_chunks (gen : Z) (chunks : list (list Z)) (Hs : lines_short (concat chunks)) :
  coreSupervisorStderrCause (fold_left (fun t c => coreSupervisorFeedStderr t gen c) chunks (Tail gen [] [] [])) gen
  = causeOf gen (concat chunks).
Proof.
  apply cause_output. apply (feed_all gen chunks [] (Tail gen [] [] [])); [done|]. by exists [], [].
Qed.
End Stderr.

Lemma stderr_chunks_witness :
  let chunks := [qs "2024/01/02 03:04:05 pan"; qs "ic: boom" ++ [10] ++ qs "gorou"; qs "tine 1"] in
  coreSupervisorStderrCause id (fold_left (fun t c => coreSupervisorFeedStderr id t 3 c) chunks (Tail 3 [] [] [])) 3
  = causeOf id 3 (concat chunks) /\
  causeOf id 3 (concat chunks) = qs "panic: boom".
Proof.
  split; [|reflexivity]. apply (stderr_chunks id 3). unfold lines_short.
  repeat (apply Forall_cons; split; [vm_compute; discriminate|]). constructor.
Defined.
