(* ===== verification/Lists.v ===== *)
(** * Lists shared by several components

    A stable sort with its contract, and the first occurrences of a list. *)

From Stdlib Require Import Sorted.
From S2P Require Import Prelude.

Local Open Scope Z_scope.

(** ** [std::stable_sort] *)

Section StableSort.
Context {A : Type}.

(** [x] goes behind the elements that are smaller, in front of the others. *)
Fixpoint insertStable (lt : A -> A -> bool) (x : A) (l : list A) : list A :=
  match l with
  | [] => [x]
  | y :: l' => if lt y x then y :: insertStable lt x l' else x :: y :: l'
  end.

Definition stableSort (lt : A -> A -> bool) (l : list A) : list A := foldr (insertStable lt) [] l.

Lemma insertStable_perm lt x l : insertStable lt x l ≡ₚ x :: l.
Proof. induction l as [|y l IH]; cbn; [done|]. case_match; [|done]. rewrite IH. apply Permutation_swap. Qed.

Lemma stableSort_perm lt l : stableSort lt l ≡ₚ l.
Proof. induction l as [|x l IH]; cbn; [done|]. by rewrite insertStable_perm, IH. Qed.

(** The comparison of a strict weak order: [x] may come before [y] when [y] is
    not smaller. *)
Variable lt : A -> A -> bool.
Hypothesis lt_asym : forall x y, lt x y = true -> lt y x = false.
Hypothesis lt_trans : forall x y z, lt y x = false -> lt z y = false -> lt z x = false.

Definition notAfter (x y : A) : Prop := lt y x = false.
Definition sameRank (a x : A) : bool := negb (lt a x) && negb (lt x a).

Lemma insertStable_sorted x l : StronglySorted notAfter l -> StronglySorted notAfter (insertStable lt x l).
Proof.
  induction 1 as [|y l Hl IH Hy]; cbn; [by repeat constructor|]. destruct (lt y x) eqn:E.
  - constructor; [done|]. rewrite insertStable_perm. constructor; [by apply lt_asym|done].
  - constructor; [by constructor|]. constructor; [done|]. eapply Forall_impl; [exact Hy|].
    intros z. by apply lt_trans.
Qed.

Lemma stableSort_sorted l : StronglySorted notAfter (stableSort lt l).
Proof. induction l as [|x l IH]; cbn; [constructor|]. by apply insertStable_sorted. Qed.

(** Elements of the same rank keep their order. *)
Lemma insertStable_class a x l : List.filter (sameRank a) (insertStable lt x l) = List.filter (sameRank a) (x :: l).
Proof.
  induction l as [|y l IH]; cbn [insertStable]; [done|]. destruct (lt y x) eqn:E; [|done].
  cbn [List.filter] in *. rewrite IH. unfold sameRank.
  destruct (lt a x) eqn:E1, (lt x a) eqn:E2, (lt a y) eqn:E3, (lt y a) eqn:E4; cbn; try done.
  pose proof (lt_trans x a y E1 E4). congruence.
Qed.

Lemma stableSort_class a l : List.filter (sameRank a) (stableSort lt l) = List.filter (sameRank a) l.
Proof.
  induction l as [|x l IH]; [done|]. cbn [stableSort foldr]. rewrite insertStable_class.
  cbn [List.filter]. fold (stableSort lt l). by rewrite IH.
Qed.

Lemma stableSort_sorted_id l : StronglySorted notAfter l -> stableSort lt l = l.
Proof.
  induction 1 as [|x l Hl IH Hx]; [done|]. cbn [stableSort foldr]. fold (stableSort lt l). rewrite IH.
  destruct l as [|y l]; [done|]. cbn. apply Forall_cons in Hx as [Hx _]. unfold notAfter in Hx. by rewrite Hx.
Qed.
End StableSort.

(** ** First occurrences *)

(** The elements of a list without the repetitions, each where it is first,
    skipping the elements of [seen]. *)
Fixpoint firsts (seen : gset Z) (l : list Z) : list Z :=
  match l with
  | [] => []
  | x :: l' => if decide (x ∈ seen) then firsts seen l' else x :: firsts ({[x]} ∪ seen) l'
  end.

Lemma elem_of_firsts l : forall seen x, x ∈ firsts seen l <-> x ∈ l /\ x ∉ seen.
Proof.
  induction l as [|y l IH]; intros seen x; cbn [firsts]; [rewrite elem_of_nil; tauto|].
  rewrite elem_of_cons. case_decide as Hy; [|rewrite elem_of_cons]; rewrite IH.
  - split; [tauto|]. intros [[->|H] Hx]; [done|tauto].
  - rewrite elem_of_union, elem_of_singleton. destruct (decide (x = y)) as [->|Hne]; tauto.
Qed.

Lemma firsts_NoDup l : forall seen, NoDup (firsts seen l).
Proof.
  induction l as [|y l IH]; intros seen; cbn [firsts]; [constructor|].
  case_decide; [done|]. constructor; [|done]. rewrite elem_of_firsts. set_solver.
Qed.

Lemma firsts_fresh l : forall seen, NoDup l -> (forall x, x ∈ l -> x ∉ seen) -> firsts seen l = l.
Proof.
  induction l as [|y l IH]; intros seen Hn Hs; cbn [firsts]; [done|].
  apply NoDup_cons in Hn as [Hy Hn]. rewrite decide_False by set_solver. f_equal.
  apply IH; [done|]. set_solver.
Qed.

Lemma firsts_app l1 : forall seen l2, firsts seen (l1 ++ l2) = firsts seen l1 ++ firsts (list_to_set l1 ∪ seen) l2.
Proof.
  induction l1 as [|x l1 IH]; intros seen l2; cbn [firsts app list_to_set].
  - f_equal. set_solver.
  - case_decide; rewrite IH; cbn [app]; [do 2 f_equal|do 3 f_equal]; set_solver.
Qed.

(** The same for elements identified by [f]. *)
Fixpoint firstsBy {A} (f : A -> Z) (seen : gset Z) (l : list A) : list A :=
  match l with
  | [] => []
  | x :: l' => if decide (f x ∈ seen) then firstsBy f seen l' else x :: firstsBy f ({[f x]} ∪ seen) l'
  end.

Lemma firstsBy_map {A} (f : A -> Z) l : forall seen, map f (firstsBy f seen l) = firsts seen (map f l).
Proof.
  induction l as [|x l IH]; intros seen; cbn [firstsBy firsts map]; [done|].
  case_decide; [apply IH|]. cbn [map]. by rewrite IH.
Qed.

Lemma firsts_take l : forall n seen, NoDup l -> (forall x, x ∈ l -> x ∉ seen) -> firsts seen (take n l) = take n l.
Proof.
  intros n seen Hn Hs. apply firsts_fresh.
  - apply (NoDup_app (take n l) (drop n l)). by rewrite take_drop.
  - intros x Hx. apply Hs. apply list_elem_of_In in Hx. apply list_elem_of_In.
    rewrite <- (take_drop n l). apply in_app_iff. by left.
Qed.

Lemma filter_all {A} (p : A -> bool) l : Forall (fun x => p x = true) l -> List.filter p l = l.
Proof. induction 1 as [|x l Hx _ IH]; [done|]. cbn. by rewrite Hx, IH. Qed.

Lemma filter_none {A} (p : A -> bool) l : Forall (fun x => p x = false) l -> List.filter p l = [].
Proof. induction 1 as [|x l Hx _ IH]; [done|]. cbn. by rewrite Hx. Qed.

Lemma elem_of_filter' {A} (p : A -> bool) l x : x ∈ List.filter p l <-> x ∈ l /\ p x = true.
Proof. by rewrite !list_elem_of_In, filter_In. Qed.

Lemma NoDup_filter' {A} (p : A -> bool) l : NoDup l -> NoDup (List.filter p l).
Proof. rewrite !NoDup_ListNoDup. apply List.NoDup_filter. Qed.

(** Splitting a list by a test. *)
Lemma filter_partition {A} (p : A -> bool) l :
  List.filter p l ++ List.filter (fun x => negb (p x)) l ≡ₚ l.
Proof.
  induction l as [|x l IH]; cbn; [done|]. destruct (p x); cbn; [by rewrite IH|].
  by rewrite <- Permutation_middle, IH.
Qed.
