(* ===== verification/Logs.v ===== *)
(** * Logs

    What a component does, oldest first, and laws that each entry of a log obeys
    given the entries before it. *)

From S2P Require Import Prelude.

Local Open Scope Z_scope.

Section Log.
Context {A : Type}.
Implicit Types (p : A -> bool) (l : list A) (a : A).

(** The entries after the last one that [p] selects. *)
Definition since p l : list A := fold_left (fun acc a => if p a then [] else acc ++ [a]) l [].

Lemma since_snoc p l a : since p (l ++ [a]) = if p a then [] else since p l ++ [a].
Proof. unfold since. by rewrite fold_left_app. Qed.

(** How many entries [p] selects. *)
Definition times p l : Z := Z.of_nat (length (List.filter p l)).

Lemma times_snoc p l a : times p (l ++ [a]) = times p l + (if p a then 1 else 0).
Proof. unfold times. rewrite List.filter_app, length_app. cbn [List.filter]. destruct (p a); cbn [length]; lia. Qed.
Lemma times_cons p a l : times p (a :: l) = (if p a then 1 else 0) + times p l.
Proof. unfold times. cbn [List.filter]. destruct (p a); cbn [length]; lia. Qed.
Lemma times_insert p l j a b : l !! j = Some a ->
  times p (<[j := b]> l) = times p l - (if p a then 1 else 0) + (if p b then 1 else 0).
Proof.
  revert j. induction l as [|c l IH]; intros [|j] Ha; try done.
  - injection Ha as ->. change (<[0%nat := b]> (a :: l)) with (b :: l). rewrite !times_cons. lia.
  - change (<[S j := b]> (c :: l)) with (c :: <[j := b]> l). rewrite !times_cons, (IH j Ha). lia.
Qed.
Lemma times_nonneg p l : 0 <= times p l.
Proof. unfold times. lia. Qed.

(** Every entry was allowed by what came before it. *)
Definition lawful (allowed : list A -> A -> Prop) l : Prop :=
  forall before a after, l = before ++ a :: after -> allowed before a.

Lemma lawful_nil allowed : lawful allowed [].
Proof. intros [|] ?? E; discriminate E. Qed.

Lemma lawful_snoc allowed l a : lawful allowed l -> allowed l a -> lawful allowed (l ++ [a]).
Proof.
  intros Hl Ha before b after E. destruct after as [|c after _] using rev_ind.
  - apply app_inj_tail in E as [-> ->]. done.
  - rewrite app_comm_cons, app_assoc in E. apply app_inj_tail in E as [-> ->]. by eapply Hl.
Qed.
End Log.
