(* ===== verification/AutoSelector.v ===== *)
(** * Auto selector profiles (src/include/configs/outbounds/autoselector.h)

    The settings of an auto selector, their clamping, their JSON form and the
    usage history with its least-recently-used trim. *)

From Stdlib Require Import Ascii String.
From S2P Require Import Prelude QtText Json.

Local Open Scope Z_scope.

(** ** Data *)

Definition kMaxPoolCap : Z := 3000.
Definition kMaxBuildLimit : Z := 500.
Definition kMaxHistoryEntries : nat := 2000.

Record autoSelector := MkSelector {
  name : qstring;
  gids : list Z;
  nameFilter : qstring;
  countryFilter : qstring;
  excludeUnavailable : bool;
  poolCap : Z;
  buildLimit : Z;
  resultValidityMins : Z;
  testURL : qstring;
  connectivityURL : qstring;
  intervalSec : Z;
  benchIntervalSec : Z;
  watchIntervalSec : Z;
  activeSize : Z;
  sampling : Z;
  toleranceMs : Z;
  maxRTTms : Z;
  expected : Z;
  dialRetries : Z;
  interruptOnSwitch : bool;
  balance : bool;
  balanceMode : qstring;
  balanceIntervalSec : Z;
  pool : list Z;
  poolRankedAt : Z;
  pinnedID : Z;
  lastBuilt : list Z;
  lastBuiltAt : Z;
  history : list QJsonValue }.

Definition defaultSelector : autoSelector :=
  MkSelector [] [] [] [] true 1000 300 1440 [] [] 300 600 15 8 10 300 0 3 2 true false
    (qs "rotate") 30 [] 0 (-1) [] 0 [].

Definition selectorEta (s : autoSelector) : autoSelector :=
  MkSelector (name s) (gids s) (nameFilter s) (countryFilter s) (excludeUnavailable s) (poolCap s)
    (buildLimit s) (resultValidityMins s) (testURL s) (connectivityURL s) (intervalSec s)
    (benchIntervalSec s) (watchIntervalSec s) (activeSize s) (sampling s) (toleranceMs s) (maxRTTms
    s) (expected s) (dialRetries s) (interruptOnSwitch s) (balance s) (balanceMode s)
    (balanceIntervalSec s) (pool s) (poolRankedAt s) (pinnedID s) (lastBuilt s) (lastBuiltAt s)
    (history s).
Definition set_pool (v : list Z) (s : autoSelector) : autoSelector := ltac:(setter selectorEta pool v s).
Definition set_poolRankedAt (v : Z) (s : autoSelector) : autoSelector := ltac:(setter selectorEta poolRankedAt v s).
Definition set_history (v : list QJsonValue) (s : autoSelector) : autoSelector := ltac:(setter selectorEta history v s).

(** ** Clamping *)

(** The tracked groups: valid ids, each once, in the user's order. *)
Fixpoint trackedGids (gids tracked : list Z) : list Z :=
  match gids with
  | [] => tracked
  | gid :: gids' =>
      trackedGids gids' (if (0 <=? gid) && negb (existsb (Z.eqb gid) tracked) then tracked ++ [gid] else tracked)
  end.

Definition Normalize (s : autoSelector) : autoSelector :=
  let gids := trackedGids (gids s) [] in
  let poolCap := if poolCap s <? 1 then 1 else poolCap s in
  let poolCap := if kMaxPoolCap <? poolCap then kMaxPoolCap else poolCap in
  let buildLimit := if buildLimit s <? 1 then 1 else buildLimit s in
  let buildLimit := if kMaxBuildLimit <? buildLimit then kMaxBuildLimit else buildLimit in
  let buildLimit := if poolCap <? buildLimit then poolCap else buildLimit in
  let resultValidityMins := if resultValidityMins s <? 0 then 0 else resultValidityMins s in
  let intervalSec := if intervalSec s <? 10 then 10 else intervalSec s in
  let benchIntervalSec := if benchIntervalSec s <? intervalSec then intervalSec else benchIntervalSec s in
  let watchIntervalSec := if watchIntervalSec s <? 5 then 5 else watchIntervalSec s in
  let watchIntervalSec := if intervalSec <? watchIntervalSec then intervalSec else watchIntervalSec in
  let activeSize := if activeSize s <? 1 then 1 else activeSize s in
  let expected := if expected s <? 1 then 1 else expected s in
  let activeSize := if activeSize <? expected then expected else activeSize in
  let activeSize := if buildLimit <? activeSize then buildLimit else activeSize in
  let sampling := if sampling s <? 2 then 2 else sampling s in
  let sampling := if 60 <? sampling then 60 else sampling in
  let toleranceMs := if toleranceMs s <? 0 then 0 else toleranceMs s in
  let maxRTTms := if maxRTTms s <? 0 then 0 else maxRTTms s in
  let expected := if buildLimit <? expected then buildLimit else expected in
  let dialRetries := if dialRetries s <? 0 then 0 else dialRetries s in
  let dialRetries := if 5 <? dialRetries then 5 else dialRetries in
  let balanceIntervalSec := if balanceIntervalSec s <? 5 then 5 else balanceIntervalSec s in
  let balanceMode := if bool_decide (balanceMode s = qs "connection") then balanceMode s else qs "rotate" in
  MkSelector (name s) gids (nameFilter s) (countryFilter s) (excludeUnavailable s) poolCap buildLimit
    resultValidityMins (testURL s) (connectivityURL s) intervalSec benchIntervalSec watchIntervalSec
    activeSize sampling toleranceMs maxRTTms expected dialRetries (interruptOnSwitch s) (balance s)
    balanceMode balanceIntervalSec (pool s) (poolRankedAt s) (pinnedID s) (lastBuilt s) (lastBuiltAt s) (history s).

(** ** JSON *)

(** QListInt2QJsonArray and QJsonArray2QListInt (src/src/global/Utils.cpp). *)
Definition QListInt2QJsonArray (l : list Z) : list QJsonValue := map JInt l.
Definition QJsonArray2QListInt (a : list QJsonValue) : list Z := map (fun v => jsonToInt 0 (Some v)) a.

(** A member that is there is read, one that is not keeps its value. *)
Definition readMember {A} (o : QJsonObject) (key : qstring) (read : option QJsonValue -> A) (old : A) : A :=
  if jsonHas o key then read (jsonGet o key) else old.

Definition readGids (o : QJsonObject) (old : list Z) : list Z :=
  if jsonHas o (qs "gids") then QJsonArray2QListInt (jsonToArray (jsonGet o (qs "gids")))
  else let gid := jsonToInt (-1) (jsonGet o (qs "gid")) in
       if 0 <=? gid then [gid] else old.

(** [None] is the function's false. *)
Definition ParseFromJson (s : autoSelector) (o : QJsonObject) : option autoSelector :=
  if isEmpty o then None
  else Some (Normalize (MkSelector
    (readMember o (qs "name") (jsonToString []) (name s))
    (readGids o (gids s))
    (readMember o (qs "name_filter") (jsonToString []) (nameFilter s))
    (readMember o (qs "country_filter") (jsonToString []) (countryFilter s))
    (readMember o (qs "exclude_unavailable") (jsonToBool true) (excludeUnavailable s))
    (readMember o (qs "pool_cap") (jsonToInt 3000) (poolCap s))
    (readMember o (qs "build_limit") (jsonToInt 300) (buildLimit s))
    (readMember o (qs "result_validity_mins") (jsonToInt 60) (resultValidityMins s))
    (readMember o (qs "test_url") (jsonToString []) (testURL s))
    (readMember o (qs "connectivity_url") (jsonToString []) (connectivityURL s))
    (readMember o (qs "interval_sec") (jsonToInt 60) (intervalSec s))
    (readMember o (qs "bench_interval_sec") (jsonToInt 600) (benchIntervalSec s))
    (readMember o (qs "watch_interval_sec") (jsonToInt 15) (watchIntervalSec s))
    (readMember o (qs "active_size") (jsonToInt 10) (activeSize s))
    (readMember o (qs "sampling") (jsonToInt 10) (sampling s))
    (readMember o (qs "tolerance_ms") (jsonToInt 100) (toleranceMs s))
    (readMember o (qs "max_rtt_ms") (jsonToInt 0) (maxRTTms s))
    (readMember o (qs "expected") (jsonToInt 3) (expected s))
    (readMember o (qs "dial_retries") (jsonToInt 2) (dialRetries s))
    (readMember o (qs "interrupt_on_switch") (jsonToBool true) (interruptOnSwitch s))
    (readMember o (qs "balance") (jsonToBool false) (balance s))
    (readMember o (qs "balance_mode") (jsonToString (qs "rotate")) (balanceMode s))
    (readMember o (qs "balance_interval_sec") (jsonToInt 30) (balanceIntervalSec s))
    (readMember o (qs "pool") (fun v => QJsonArray2QListInt (jsonToArray v)) (pool s))
    (readMember o (qs "pool_ranked_at") jsonToInteger (poolRankedAt s))
    (readMember o (qs "pinned_id") (jsonToInt (-1)) (pinnedID s))
    (readMember o (qs "last_built") (fun v => QJsonArray2QListInt (jsonToArray v)) (lastBuilt s))
    (readMember o (qs "last_built_at") jsonToInteger (lastBuiltAt s))
    (readMember o (qs "history") jsonToArray (history s)))).

Definition ExportToJson (s : autoSelector) : QJsonObject :=
  [(qs "name", JString (name s));
   (qs "type", JString (qs "autoselector"));
   (qs "gids", JArray (QListInt2QJsonArray (gids s)));
   (qs "gid", JInt (match gids s with gid :: _ => gid | [] => -1 end));
   (qs "name_filter", JString (nameFilter s));
   (qs "country_filter", JString (countryFilter s));
   (qs "exclude_unavailable", JBool (excludeUnavailable s));
   (qs "pool_cap", JInt (poolCap s));
   (qs "build_limit", JInt (buildLimit s));
   (qs "result_validity_mins", JInt (resultValidityMins s));
   (qs "test_url", JString (testURL s));
   (qs "connectivity_url", JString (connectivityURL s));
   (qs "interval_sec", JInt (intervalSec s));
   (qs "bench_interval_sec", JInt (benchIntervalSec s));
   (qs "watch_interval_sec", JInt (watchIntervalSec s));
   (qs "active_size", JInt (activeSize s));
   (qs "sampling", JInt (sampling s));
   (qs "tolerance_ms", JInt (toleranceMs s));
   (qs "max_rtt_ms", JInt (maxRTTms s));
   (qs "expected", JInt (expected s));
   (qs "dial_retries", JInt (dialRetries s));
   (qs "interrupt_on_switch", JBool (interruptOnSwitch s));
   (qs "balance", JBool (balance s));
   (qs "balance_mode", JString (balanceMode s));
   (qs "balance_interval_sec", JInt (balanceIntervalSec s));
   (qs "pool", JArray (QListInt2QJsonArray (pool s)));
   (qs "pool_ranked_at", JDouble (doubleOf (poolRankedAt s)) true);
   (qs "pinned_id", JInt (pinnedID s));
   (qs "last_built", JArray (QListInt2QJsonArray (lastBuilt s)));
   (qs "last_built_at", JDouble (doubleOf (lastBuiltAt s)) true);
   (qs "history", JArray (history s))].

(** ** Usage history *)

Record HistoryEntry := MkHistory {
  hId : Z; firstUsed : Z; lastUsed : Z; builds : Z; failures : Z; hName : qstring }.
Definition noHistory : HistoryEntry := MkHistory (-1) 0 0 0 0 [].

Definition historyEntry (v : QJsonValue) : HistoryEntry :=
  let o := jsonToObject (Some v) in
  MkHistory (jsonToInt (-1) (jsonGet o (qs "id"))) (jsonToInteger (jsonGet o (qs "first")))
    (jsonToInteger (jsonGet o (qs "last"))) (jsonToInt 0 (jsonGet o (qs "builds")))
    (jsonToInt 0 (jsonGet o (qs "fails"))) (jsonToString [] (jsonGet o (qs "name"))).

Definition HistoryEntries (s : autoSelector) : list HistoryEntry :=
  List.filter (fun e => 0 <=? hId e) (map historyEntry (history s)).

Definition historyObject (e : HistoryEntry) : QJsonValue :=
  JObject [(qs "id", JInt (hId e)); (qs "first", JDouble (doubleOf (firstUsed e)) true);
           (qs "last", JDouble (doubleOf (lastUsed e)) true); (qs "builds", JInt (builds e));
           (qs "fails", JInt (failures e)); (qs "name", JString (hName e))].

(** QList::removeOne: the first occurrence only. *)
Fixpoint removeOne (x : Z) (l : list Z) : list Z :=
  match l with
  | [] => []
  | y :: l' => if y =? x then l' else y :: removeOne x l'
  end.

Definition recordOne (names : gmap Z qstring) (now : Z) (st : gmap Z HistoryEntry * list Z) (id : Z)
  : gmap Z HistoryEntry * list Z :=
  let '(byID, order) := st in
  let old := default noHistory (byID !! id) in
  let '(entry, order) := if hId old <? 0
                         then (MkHistory id now (lastUsed old) (builds old) (failures old) (hName old), order)
                         else (old, removeOne id order) in
  let entry := MkHistory (hId entry) (firstUsed entry) now (builds entry + 1) (failures entry)
                 (default (hName entry) (names !! id)) in
  (<[id := entry]> byID, id :: order).

(** The trim drops the last of the order until it fits. *)
Fixpoint trimHistory (fuel : nat) (st : gmap Z HistoryEntry * list Z) : gmap Z HistoryEntry * list Z :=
  match fuel with
  | O => st
  | S fuel' =>
      let '(byID, order) := st in
      if (kMaxHistoryEntries <? length order)%nat
      then trimHistory fuel' (delete (List.last order 0) byID, take (length order - 1) order)
      else st
  end.

Definition RecordHistory (ids : list Z) (names : gmap Z qstring) (now : Z) (s : autoSelector) : autoSelector :=
  let entries := HistoryEntries s in
  let byID := fold_left (fun m e => <[hId e := e]> m) entries ∅ in
  let order := map hId entries in
  let '(byID, order) := fold_left (recordOne names now) ids (byID, order) in
  let '(byID, order) := trimHistory (length order) (byID, order) in
  set_history (map (fun id => historyObject (default noHistory (byID !! id))) order) s.

Fixpoint recordFailure (id : Z) (history : list QJsonValue) : list QJsonValue :=
  match history with
  | [] => []
  | v :: history' =>
      let o := jsonToObject (Some v) in
      if negb (jsonToInt (-1) (jsonGet o (qs "id")) =? id) then v :: recordFailure id history'
      else JObject (jsonSet o (qs "fails") (JInt (jsonToInt 0 (jsonGet o (qs "fails")) + 1))) :: history'
  end.
Definition RecordHistoryFailure (id : Z) (s : autoSelector) : autoSelector :=
  set_history (recordFailure id (history s)) s.

(** ** Clamping is a normal form *)

Record normalized (s : autoSelector) : Prop := {
  nz_gids : NoDup (gids s) /\ Forall (fun gid => 0 <= gid) (gids s);
  nz_pool : 1 <= poolCap s <= kMaxPoolCap;
  nz_build : 1 <= buildLimit s <= kMaxBuildLimit /\ buildLimit s <= poolCap s;
  nz_validity : 0 <= resultValidityMins s;
  nz_interval : 10 <= intervalSec s <= benchIntervalSec s;
  nz_watch : 5 <= watchIntervalSec s <= intervalSec s;
  nz_active : 1 <= expected s <= activeSize s /\ activeSize s <= buildLimit s;
  nz_sampling : 2 <= sampling s <= 60;
  nz_tolerance : 0 <= toleranceMs s /\ 0 <= maxRTTms s;
  nz_dial : 0 <= dialRetries s <= 5;
  nz_balance : 5 <= balanceIntervalSec s /\ (balanceMode s = qs "connection" \/ balanceMode s = qs "rotate") }.

Lemma existsb_eqb x l : existsb (Z.eqb x) l = true <-> x ∈ l.
Proof.
  rewrite existsb_exists. split.
  - intros (y & Hy & ->%Z.eqb_eq). by apply list_elem_of_In.
  - intros H. exists x. split; [by apply list_elem_of_In|apply Z.eqb_refl].
Qed.

Lemma trackedGids_spec l : forall tracked,
  NoDup tracked -> Forall (fun gid => 0 <= gid) tracked ->
  NoDup (trackedGids l tracked) /\ Forall (fun gid => 0 <= gid) (trackedGids l tracked).
Proof.
  induction l as [|gid l IH]; intros tracked Hn Hp; cbn [trackedGids]; [done|].
  destruct ((0 <=? gid) && negb (existsb (Z.eqb gid) tracked)) eqn:E; [|by apply IH].
  apply andb_true_iff in E as [E1%Z.leb_le E2%negb_true_iff]. apply IH.
  - apply NoDup_app. split_and!; [done| |apply NoDup_singleton].
    intros x Hx ->%list_elem_of_singleton. apply existsb_eqb in Hx. congruence.
  - apply Forall_app. split; [done|]. constructor; [done|constructor].
Qed.

Lemma trackedGids_id l : forall tracked,
  NoDup (tracked ++ l) -> Forall (fun gid => 0 <= gid) l -> trackedGids l tracked = tracked ++ l.
Proof.
  induction l as [|gid l IH]; intros tracked Hn Hp; cbn [trackedGids]; [by rewrite app_nil_r|].
  apply Forall_cons in Hp as [Hg Hp].
  assert (existsb (Z.eqb gid) tracked = false) as ->.
  { apply not_true_iff_false. rewrite existsb_eqb. intros Hin. apply NoDup_app in Hn as (_ & Hd & _).
    apply (Hd gid Hin). by left. }
  destruct (Z.leb_spec 0 gid); [|lia]. cbn [andb negb]. rewrite IH; [by rewrite <- app_assoc| |done].
  by rewrite <- app_assoc.
Qed.

Ltac settle :=
  repeat match goal with
  | |- context [if ?a <? ?b then _ else _] =>
      lazymatch a with context [if _ then _ else _] => fail | _ => idtac end;
      lazymatch b with context [if _ then _ else _] => fail | _ => idtac end;
      destruct (Z.ltb_spec a b)
  end.

Lemma normalize_normalized s : normalized (Normalize s).
Proof.
  unfold Normalize. cbv zeta. split; cbn [gids poolCap buildLimit resultValidityMins intervalSec benchIntervalSec
    watchIntervalSec activeSize sampling toleranceMs maxRTTms expected dialRetries balanceMode balanceIntervalSec];
    unfold kMaxPoolCap, kMaxBuildLimit.
  - apply trackedGids_spec; constructor.
  - settle; lia.
  - settle; lia.
  - settle; lia.
  - settle; lia.
  - settle; lia.
  - settle; lia.
  - settle; lia.
  - settle; lia.
  - settle; lia.
  - split; [settle; lia|]. case_bool_decide; auto.
Qed.

Lemma normalized_fixed s : normalized s -> Normalize s = s.
Proof.
  intros [[Hn Hp] ? [? ?] ? ? ? [? ?] ? [? ?] ? [? Hm]]. unfold Normalize. cbv zeta.
  rewrite (trackedGids_id (gids s) []) by done. unfold kMaxPoolCap, kMaxBuildLimit in *.
  repeat match goal with
  | |- context [if ?a <? ?b then _ else _] => destruct (Z.ltb_spec a b) as [?|_]; [lia|]
  end.
  replace (if bool_decide (balanceMode s = qs "connection") then balanceMode s else qs "rotate") with (balanceMode s).
  - by destruct s.
  - case_bool_decide; [done|]. destruct Hm; done.
Qed.

(** ** The JSON form survives *)

Lemma readMember_some {A} o k (read : option QJsonValue -> A) old v :
  jsonGet o k = Some v -> readMember o k read old = read (Some v).
Proof. intros H. unfold readMember, jsonHas. by rewrite H. Qed.

Lemma intList_roundtrip l :
  Forall (fun z => intRange z = true) l -> QJsonArray2QListInt (QListInt2QJsonArray l) = l.
Proof.
  induction 1 as [|z l Hz _ IH]; [done|]. unfold QJsonArray2QListInt, QListInt2QJsonArray in *. cbn [map].
  by rewrite jsonToInt_int, IH.
Qed.

(** Every number fits the int it is declared as, and the two time stamps fit a
    double, as every time before the year 285 million does. *)
Record json_range (s : autoSelector) : Prop := {
  jr_numbers : Forall (fun z => intRange z = true)
    [poolCap s; buildLimit s; resultValidityMins s; intervalSec s; benchIntervalSec s; watchIntervalSec s;
     activeSize s; sampling s; toleranceMs s; maxRTTms s; expected s; dialRetries s; balanceIntervalSec s; pinnedID s];
  jr_lists : Forall (fun z => intRange z = true) (gids s ++ pool s ++ lastBuilt s);
  jr_times : Z.abs (poolRankedAt s) <= 2 ^ 53 /\ Z.abs (lastBuiltAt s) <= 2 ^ 53 }.

Lemma json_roundtrip_normalize s s0 : json_range s -> ParseFromJson s0 (ExportToJson s) = Some (Normalize s).
Proof.
  intros [Hn Hl [Ht1 Ht2]]. unfold ParseFromJson.
  change (isEmpty (ExportToJson s)) with false. cbv iota. f_equal.
  apply Forall_app in Hl as [Hg Hl]. apply Forall_app in Hl as [Hp Hb].
  repeat (apply Forall_cons in Hn as [? Hn]).
  assert (readGids (ExportToJson s) (gids s0) = gids s) as ->.
  { unfold readGids. change (jsonHas (ExportToJson s) (qs "gids")) with true. cbv iota.
    change (jsonGet (ExportToJson s) (qs "gids")) with (Some (JArray (QListInt2QJsonArray (gids s)))).
    cbn [jsonToArray]. by apply intList_roundtrip. }
  f_equal.
  repeat (erewrite readMember_some by reflexivity).
  cbn [jsonToString jsonToBool jsonToInteger jsonToArray].
  rewrite !jsonToInt_int by done. rewrite !intList_roundtrip by done.
  rewrite !double_exact by done. by destruct s.
Qed.

(** An auto selector survives its JSON form: reading back what it exports
    gives the clamped settings, whatever object they are read into, and clamping
    is a normal form: its result satisfies every relation between the settings
    and clamping again changes nothing. *)
Theorem autoselector_json_roundtrip (s s0 : autoSelector) (Hr : json_range s) :
  ParseFromJson s0 (ExportToJson s) = Some (Normalize s) /\
  normalized (Normalize s) /\ (normalized s -> Normalize s = s).
Proof.
  split; [by apply json_roundtrip_normalize|]. split; [apply normalize_normalized|apply normalized_fixed].
Qed.

Lemma autoselector_json_roundtrip_witness :
  let s := set_pool [3; 1] defaultSelector in
  ParseFromJson defaultSelector (ExportToJson s) = Some (Normalize s) /\
  normalized (Normalize s) /\ (normalized s -> Normalize s = s).
Proof.
  apply autoselector_json_roundtrip. split.
  - repeat (apply Forall_cons; split; [reflexivity|]). constructor.
  - repeat (apply Forall_cons; split; [reflexivity|]). constructor.
  - split; by vm_compute.
Defined.

(** ** The usage history is a least-recently-used list *)

Definition touch (o : list Z) (id : Z) : list Z := id :: List.filter (fun x => negb (x =? id)) o.
Definition historyIds (s : autoSelector) : list Z := map hId (HistoryEntries s).

Lemma filter_none_id (id : Z) l : ~ In id l -> List.filter (fun x => negb (x =? id)) l = l.
Proof.
  induction l as [|y l IH]; intros H; [done|]. cbn [List.filter In] in *.
  destruct (Z.eqb_spec y id); [exfalso; tauto|]. cbn [negb]. f_equal. apply IH. tauto.
Qed.

Lemma removeOne_filter id l : List.NoDup l -> removeOne id l = List.filter (fun x => negb (x =? id)) l.
Proof.
  induction 1 as [|y l Hy _ IH]; [done|]. cbn [removeOne List.filter].
  destruct (Z.eqb_spec y id) as [->|Hne]; cbn [negb]; [by rewrite filter_none_id|by rewrite IH].
Qed.

Lemma touch_NoDup o id : List.NoDup o -> List.NoDup (touch o id).
Proof.
  intros H. constructor; [|by apply List.NoDup_filter].
  rewrite filter_In. intros [_ Hc]. by rewrite Z.eqb_refl in Hc.
Qed.

(** The map and the order agree: the keys are the listed ids, each the id of
    its entry, and the entries of [touched] ids were used now. *)
Record history_inv (now : Z) (touched : Z -> Prop) (byID : gmap Z HistoryEntry) (order : list Z) : Prop := {
  hi_nodup : List.NoDup order;
  hi_range : Forall (fun id => 0 <= id /\ intRange id = true) order;
  hi_in : forall id, In id order -> exists e, byID !! id = Some e /\ hId e = id /\ (touched id -> lastUsed e = now);
  hi_out : forall id, ~ In id order -> byID !! id = None }.

Lemma recordOne_inv names now touched byID order id :
  history_inv now touched byID order -> 0 <= id /\ intRange id = true ->
  exists byID', recordOne names now (byID, order) id = (byID', touch order id) /\
    history_inv now (fun x => touched x \/ x = id) byID' (touch order id).
Proof.
  intros [Hn Hr Hin Hout] Hid. unfold recordOne.
  assert (exists entry, hId entry = id /\
    (if hId (default noHistory (byID !! id)) <? 0
     then (MkHistory id now (lastUsed (default noHistory (byID !! id))) (builds (default noHistory (byID !! id)))
             (failures (default noHistory (byID !! id))) (hName (default noHistory (byID !! id))), order)
     else (default noHistory (byID !! id), removeOne id order)) =
    (entry, List.filter (fun x => negb (x =? id)) order)) as (entry & He & ->).
  { destruct (in_dec Z.eq_dec id order) as [Hi|Hi].
    - destruct (Hin id Hi) as (e & E & Ei & _). rewrite E. exists e. split; [done|]. simpl.
      rewrite Ei. destruct (Z.ltb_spec id 0); [lia|]. by rewrite removeOne_filter.
    - rewrite (Hout id Hi), filter_none_id by done. simpl. eexists. split; [|reflexivity]. done. }
  eexists. split; [reflexivity|]. split.
  - by apply touch_NoDup.
  - constructor; [done|]. rewrite Forall_forall in *. intros x Hx%list_elem_of_In%filter_In. apply Hr.
    apply list_elem_of_In. tauto.
  - intros x [<-|Hx]; [rewrite lookup_insert_eq; eexists; split; [done|]; by split|].
    apply filter_In in Hx as [Hx Hne%negb_true_iff%Z.eqb_neq]. rewrite lookup_insert_ne by done.
    destruct (Hin x Hx) as (e & E & Ei & Et). exists e. split_and!; [done..|]. intros [H| ->]; [by apply Et|done].
  - intros x Hx. unfold touch in Hx. cbn [In] in Hx. rewrite lookup_insert_ne by tauto.
    apply Hout. intros Hi. apply Hx. right. apply filter_In. split; [done|]. apply negb_true_iff, Z.eqb_neq. intros ->. tauto.
Qed.

Lemma record_all names now ids : forall touched byID order,
  history_inv now touched byID order -> Forall (fun id => 0 <= id /\ intRange id = true) ids ->
  exists byID', fold_left (recordOne names now) ids (byID, order) = (byID', fold_left touch ids order) /\
    history_inv now (fun x => touched x \/ In x ids) byID' (fold_left touch ids order).
Proof.
  induction ids as [|id ids IH]; intros touched byID order Hi Hids; cbn [fold_left].
  - exists byID. split; [done|]. destruct Hi as [H1 H2 H3 H4]. split; try done.
    intros x Hx. destruct (H3 x Hx) as (e & E & Ei & Et). exists e. split_and!; [done..|]. intros [H|[]]. by apply Et.
  - apply Forall_cons in Hids as [Hid Hids].
    destruct (recordOne_inv names now touched byID order id Hi Hid) as (byID1 & -> & Hi1).
    destruct (IH _ _ _ Hi1 Hids) as (byID2 & E2 & [H1 H2 H3 H4]). exists byID2. split; [done|]. split; try done.
    intros x Hx. destruct (H3 x Hx) as (e & E & Ei & Et). exists e. split_and!; [done..|].
    intros [H|[<-|H]]; apply Et; tauto.
Qed.

Lemma trim_inv now touched fuel : forall byID order,
  history_inv now touched byID order -> (length order <= kMaxHistoryEntries + fuel)%nat ->
  exists byID', trimHistory fuel (byID, order) = (byID', take kMaxHistoryEntries order) /\
    history_inv now touched byID' (take kMaxHistoryEntries order).
Proof.
  induction fuel as [|fuel IH]; intros byID order Hi Hl; cbn [trimHistory].
  - exists byID. rewrite take_ge by lia. done.
  - destruct (Nat.ltb_spec kMaxHistoryEntries (length order)) as [Hlt|Hle].
    2:{ exists byID. rewrite take_ge by done. done. }
    destruct (exists_last (l := order)) as (l & x & ->); [intros ->; cbn in Hlt; lia|].
    rewrite last_last, length_app in *. cbn [length] in *.
    replace (length l + 1 - 1)%nat with (length l) by lia. rewrite take_app_length.
    rewrite take_app_le by lia. apply IH; [|lia]. destruct Hi as [H1 H2 H3 H4].
    assert (~ In x l) as Hx.
    { intros Hx. apply (List.NoDup_remove_2 l [] x); [done|]. by rewrite app_nil_r. }
    split.
    + apply List.NoDup_remove_1 in H1. by rewrite app_nil_r in H1.
    + by apply Forall_app in H2 as [H2 _].
    + intros y Hy. rewrite lookup_delete_ne by (intros ->; done). apply H3, in_app_iff. by left.
    + intros y Hy. destruct (decide (y = x)) as [->|Hne]; [apply lookup_delete_eq|].
      rewrite lookup_delete_ne by done. apply H4. rewrite in_app_iff. cbn. intuition congruence.
Qed.

Lemma entries_inv es :
  List.NoDup (map hId es) -> Forall (fun e => 0 <= hId e /\ intRange (hId e) = true) es ->
  history_inv 0 (fun _ => False) (fold_left (fun m e => <[hId e := e]> m) es ∅) (map hId es).
Proof.
  intros Hn Hr.
  assert (forall l m, List.NoDup (map hId l) ->
    (forall id, In id (map hId l) -> exists e, fold_left (fun m e => <[hId e := e]> m) l m !! id = Some e /\ hId e = id) /\
    (forall id, ~ In id (map hId l) -> fold_left (fun m e => <[hId e := e]> m) l m !! id = (m : gmap Z HistoryEntry) !! id)) as H.
  { induction l as [|e l IH]; intros m Hl; cbn [map fold_left In]; [by split|].
    cbn [map] in Hl. inversion Hl as [|? ? Hnot Hl']; subst. destruct (IH (<[hId e := e]> m) Hl') as [I1 I2].
    split.
    - intros id [<-|Hin]; [|by apply I1]. rewrite I2 by done. rewrite lookup_insert_eq. by exists e.
    - intros id Hin. rewrite I2 by tauto. apply lookup_insert_ne. tauto. }
  destruct (H es ∅ Hn) as [H1 H2]. split; [done| | |].
  - apply Forall_map. exact Hr.
  - intros id Hid. destruct (H1 id Hid) as (e & E & Ei). exists e. by split_and!.
  - intros id Hid. rewrite H2 by done. apply lookup_empty.
Qed.

Lemma history_object_entry e : intRange (hId e) = true ->
  hId (historyEntry (historyObject e)) = hId e /\ lastUsed (historyEntry (historyObject e)) = doubleOf (lastUsed e).
Proof. intros H. split; [|reflexivity]. by apply (jsonToInt_int (-1)). Qed.

(** The usage history is a least-recently-used list: recording members puts
    each at the front, the last one first, without repeating it, keeps the rest
    in order, drops what is beyond the limit from the tail, and stamps every
    recorded member that stays with the current time. *)
Theorem history_lru (ids : list Z) (names : gmap Z qstring) (now : Z) (s : autoSelector)
    (Hids : Forall (fun id => 0 <= id /\ intRange id = true) ids)
    (Hs : List.NoDup (historyIds s)) :
  let s' := RecordHistory ids names now s in
  historyIds s' = take kMaxHistoryEntries (fold_left touch ids (historyIds s)) /\
  List.NoDup (historyIds s') /\
  Forall (fun e => In (hId e) ids -> lastUsed e = doubleOf now) (HistoryEntries s').
Proof.
  cbv zeta. unfold RecordHistory.
  assert (Forall (fun e => 0 <= hId e /\ intRange (hId e) = true) (HistoryEntries s)) as Hr.
  { apply Forall_forall. intros e He%list_elem_of_In. unfold HistoryEntries in He.
    apply filter_In in He as [He Hp%Z.leb_le]. split; [done|]. apply in_map_iff in He as (v & <- & _).
    unfold historyEntry. cbn [hId]. unfold jsonToInt. repeat case_match; try done. }
  pose proof (entries_inv (HistoryEntries s) Hs Hr) as H0.
  assert (history_inv now (fun _ => False) (fold_left (fun m e => <[hId e := e]> m) (HistoryEntries s) ∅)
    (map hId (HistoryEntries s))) as H0'.
  { destruct H0 as [A1 A2 A3 A4]. split; try done. intros id Hid. destruct (A3 id Hid) as (e & E & Ei & _).
    exists e. by split_and!. }
  destruct (record_all names now ids _ _ _ H0' Hids) as (byID & -> & H1).
  destruct (trim_inv now _ (length (fold_left touch ids (map hId (HistoryEntries s)))) _ _ H1 ltac:(lia)) as (byID' & -> & H2).
  fold (historyIds s) in *. set (order := take kMaxHistoryEntries _) in *. clearbody order. clear - H2.
  assert (forall l, incl l order -> map hId (List.filter (fun e => 0 <=? hId e)
      (map historyEntry (map (fun id => historyObject (default noHistory (byID' !! id))) l))) = l /\
    Forall (fun e => In (hId e) ids -> lastUsed e = doubleOf now) (List.filter (fun e => 0 <=? hId e)
      (map historyEntry (map (fun id => historyObject (default noHistory (byID' !! id))) l)))) as H.
  { destruct H2 as [Hn Hr Hin Hout]. induction l as [|id l IH]; intros Hi; [by split|].
    apply incl_cons_inv in Hi as [Hid Hi]. destruct (IH Hi) as [I1 I2]. cbn [map List.filter].
    destruct (Hin id Hid) as (e & -> & Ei & Et). change (default noHistory (Some e)) with e.
    rewrite Forall_forall in Hr. destruct (Hr id) as [Hp Hri]; [by apply list_elem_of_In|].
    destruct (history_object_entry e) as [E1 E2]; [by rewrite Ei|].
    rewrite E1, Ei. destruct (Z.leb_spec 0 id); [|lia]. cbn [map]. rewrite E1, I1, Ei. split; [done|].
    constructor; [|done]. rewrite E1, E2, Ei. intros Hids. rewrite Et; [done|by right]. }
  destruct (H order (incl_refl _)) as [I1 I2]. unfold historyIds, HistoryEntries.
  change (history (set_history ?h s)) with h. rewrite I1. split_and!; [done|apply H2|exact I2].
Qed.

Lemma history_lru_witness :
  let s' := RecordHistory [4; 7] ∅ 100 defaultSelector in
  historyIds s' = take kMaxHistoryEntries (fold_left touch [4; 7] (historyIds defaultSelector)) /\
  List.NoDup (historyIds s') /\
  Forall (fun e => In (hId e) [4; 7] -> lastUsed e = doubleOf 100) (HistoryEntries s').
Proof.
  apply history_lru; [|constructor].
  repeat (apply Forall_cons; split; [split; [lia|reflexivity]|]). constructor.
Defined.
