(* ===== verification/AutoSelectorPlan.v ===== *)
(** * Auto selector planning (src/src/configs/AutoSelectorPlan.cpp)

    Which members of the tracked groups a selector may use, how they are
    ordered and capped, and when the build has to be taken again.

    Regular expressions, upper casing and the JSON parser are arguments. A
    profile's outbound is the record of the virtual methods the plan calls; the
    repositories are maps of one moment. A null [plan] pointer is a plan nobody
    reads. *)

From Stdlib Require Import Ascii String Sorted.
From S2P Require Import Prelude QtText Json Lists AutoSelector.

Local Open Scope Z_scope.

(** ** Data *)

Inductive AutoSelectorSkip :=
| SkipNone | Missing | MetaType | CoreTransitions | ExtraCore | FullConfig | Malformed | Tailscale
| ManagementEndpoint | NameFilter | CountryFilter | Unavailable | XrayFullChained.

Definition skipCode (k : AutoSelectorSkip) : nat :=
  match k with
  | SkipNone => 0 | Missing => 1 | MetaType => 2 | CoreTransitions => 3 | ExtraCore => 4 | FullConfig => 5
  | Malformed => 6 | Tailscale => 7 | ManagementEndpoint => 8 | NameFilter => 9 | CountryFilter => 10
  | Unavailable => 11 | XrayFullChained => 12
  end.

(** In the order of the enumerators, the order of a map's keys. *)
Definition allSkips : list AutoSelectorSkip :=
  [SkipNone; Missing; MetaType; CoreTransitions; ExtraCore; FullConfig; Malformed; Tailscale;
   ManagementEndpoint; NameFilter; CountryFilter; Unavailable; XrayFullChained].

#[export] Instance skip_eq_dec : EqDecision AutoSelectorSkip.
Proof. solve_decision. Defined.

#[export] Instance skip_countable : Countable AutoSelectorSkip.
Proof. apply (inj_countable' skipCode (fun n => nth n allSkips SkipNone)). by intros []. Defined.

(** The reason in the user's language, [tr] being the translation. *)
Definition AutoSelectorSkipReason (tr : qstring -> qstring) (skip : AutoSelectorSkip) : qstring :=
  match skip with
  | Missing => tr (qs "missing profile")
  | MetaType => tr (qs "chain or auto selector")
  | CoreTransitions => tr (qs "needs too many core switches")
  | ExtraCore => tr (qs "extra-core profile")
  | FullConfig => tr (qs "full config profile")
  | Malformed => tr (qs "config does not parse")
  | Tailscale => tr (qs "Tailscale profile")
  | ManagementEndpoint => tr (qs "OpenVPN or OpenConnect profile")
  | NameFilter => tr (qs "filtered out by name")
  | CountryFilter => tr (qs "filtered out by country")
  | Unavailable => tr (qs "last test failed")
  | XrayFullChained => tr (qs "Xray full config cannot be combined with the group's proxies")
  | SkipNone => []
  end.

Definition CustomOutbound : qstring := qs "outbound".
Definition CustomXrayOutbound : qstring := qs "xrayoutbound".
Definition CustomXrayFullConfig : qstring := qs "xrayfullconfig".

Record custom := MkCustom { customType : qstring; config : qstring }.

Record outbound := MkOutbound {
  IsXray : bool;
  IsXrayFullConfig : bool;
  IsExtraCore : bool;
  DisplayName : qstring;
  Custom : option custom;
  AutoSelector : option autoSelector }.

Record Profile := MkProfile {
  profileId : Z;
  type : qstring;
  latency : Z;
  latency_at : Z;
  test_country : qstring;
  outboundOf : option outbound }.

Record Group := MkGroup { landing_proxy_id : Z; front_proxy_id : Z; Profiles : list Z }.

Record Repos := MkRepos { profilesRepo : gmap Z Profile; groupsRepo : gmap Z Group }.

Record AutoSelectorPlan := MkPlan {
  planPool : list Z;
  build : list Z;
  membersInGroups : Z;
  missingGroups : Z;
  eligible : Z;
  rankedByTest : Z;
  keptUnavailable : Z;
  skipped : list (AutoSelectorSkip * Z);
  truncated : bool;
  poolCapUsed : Z;
  buildLimitUsed : Z;
  needsRanking : bool;
  error : qstring }.

Definition skippedCount (plan : AutoSelectorPlan) : Z :=
  fold_left (fun total entry => total + snd entry) (skipped plan) 0.

Definition errorPlan (missing poolCap buildLimit : Z) (e : qstring) : AutoSelectorPlan :=
  MkPlan [] [] 0 missing 0 0 0 [] false poolCap buildLimit false e.

(** ** Results and their order *)

Section Plan.
Context (toUpper : qstring -> qstring) (regexValid : qstring -> bool) (regexMatches : qstring -> qstring -> bool)
  (QString2QJsonObject : qstring -> QJsonObject).

Record MemberFilters := MkFilters {
  filterName : qstring;
  hasName : bool;
  countries : list qstring;
  excludedCountries : list qstring }.

Definition addCountry (f : MemberFilters) (item : qstring) : MemberFilters :=
  let code := trimmed item in
  let exclude := startsWithC (ch "!"%char) code in
  let code := if exclude then trimmed (drop 1 code) else code in
  if isEmpty code then f
  else if exclude then MkFilters (filterName f) (hasName f) (countries f) (toUpper code :: excludedCountries f)
  else MkFilters (filterName f) (hasName f) (toUpper code :: countries f) (excludedCountries f).

Definition buildFilters (selector : autoSelector) : MemberFilters :=
  let filters :=
    if negb (isEmpty (trimmed (nameFilter selector)))
    then MkFilters (nameFilter selector) (regexValid (nameFilter selector)) [] []
    else MkFilters [] false [] [] in
  fold_left addCountry
    (List.filter (fun p => negb (isEmpty p)) (split (ch ","%char) (countryFilter selector))) filters.

Definition hasFreshResult (member : option Profile) (selector : autoSelector) (now : Z) : bool :=
  match member with
  | None => false
  | Some m =>
      if latency m =? 0 then false
      else if resultValidityMins selector <=? 0 then false
      else if latency_at m <=? 0 then false
      else now - latency_at m <=? resultValidityMins selector * 60
  end.

Definition inTexts (x : qstring) (l : list qstring) : bool := bool_decide (x ∈ l).
Definition typeIs (m : Profile) (t : string) : bool := bool_decide (type m = qs t).

Definition eligibilityOf (member : option Profile) (selector : autoSelector) (filters : MemberFilters)
    (now : Z) : AutoSelectorSkip :=
  match member with
  | None => Missing
  | Some m =>
    match outboundOf m with
    | None => Missing
    | Some o =>
      if typeIs m "chain" || typeIs m "autoselector" then MetaType
      else if typeIs m "tailscale" then Tailscale
      else if typeIs m "openvpn" || typeIs m "openconnect" then ManagementEndpoint
      else if IsExtraCore o then ExtraCore
      else
        let customSkip :=
          if typeIs m "custom" then
            match Custom o with
            | None => Some Missing
            | Some c =>
                if bool_decide (customType c <> CustomOutbound /\ customType c <> CustomXrayOutbound /\
                                customType c <> CustomXrayFullConfig) then Some FullConfig
                else if isEmpty (QString2QJsonObject (config c)) then Some Malformed
                else None
            end
          else None in
        match customSkip with
        | Some k => k
        | None =>
          if hasName filters && negb (regexMatches (filterName filters) (DisplayName o)) then NameFilter
          else
            let country := toUpper (trimmed (test_country m)) in
            if (negb (isEmpty (countries filters)) || negb (isEmpty (excludedCountries filters))) &&
               (isEmpty country || inTexts country (excludedCountries filters) ||
                (negb (isEmpty (countries filters)) && negb (inTexts country (countries filters))))
            then CountryFilter
            else if excludeUnavailable selector && (latency m <? 0) && hasFreshResult member selector now
            then Unavailable
            else SkipNone
        end
    end
  end.

Definition coreHop (st : Z * bool) (hop : option Profile) : Z * bool :=
  match hop with
  | Some p =>
      match outboundOf p with
      | Some o => ((if Bool.eqb (IsXray o) (snd st) then fst st else fst st + 1), IsXray o)
      | None => st
      end
  | None => st
  end.

Definition coreTransitions (landing member front : option Profile) : Z :=
  fst (fold_left coreHop [landing; member; front] (0, false)).

Definition xrayFullConfigFitsChain (landing front : option Profile) : bool :=
  match front with
  | Some _ => false
  | None =>
      match landing with
      | None => true
      | Some l =>
          match outboundOf l with
          | None => true
          | Some o => negb (IsXray o) && negb (IsXrayFullConfig o) && negb (IsExtraCore o)
          end
      end
  end.

Definition latencyRank (latency : Z) : Z := if 0 <? latency then 0 else if latency =? 0 then 1 else 2.

Definition effectiveLatency (member : option Profile) (selector : autoSelector) (now : Z) : Z :=
  match member with
  | Some m => if hasFreshResult member selector now then latency m else 0
  | None => 0
  end.

Definition effectiveLatencyOf (repos : Repos) (id : Z) (selector : autoSelector) (now : Z) : Z :=
  effectiveLatency (profilesRepo repos !! id) selector now.

Definition byLatency (leftLatency rightLatency : Z) : bool :=
  let leftRank := latencyRank leftLatency in
  let rightRank := latencyRank rightLatency in
  if negb (leftRank =? rightRank) then leftRank <? rightRank
  else if leftRank =? 0 then leftLatency <? rightLatency
  else false.

(** The latencies, read once before the sort. *)
Definition latencyTable (repos : Repos) (ids : list Z) (selector : autoSelector) (now : Z)
    (untrusted : list Z) : gmap Z Z :=
  fold_left (fun t id => <[id := if bool_decide (id ∈ untrusted) then 0
                                 else effectiveLatencyOf repos id selector now]> t) ids ∅.

Definition sortByLatency (repos : Repos) (ids : list Z) (selector : autoSelector) (now : Z)
    (untrusted : list Z) : list Z :=
  let latency := latencyTable repos ids selector now untrusted in
  stableSort (fun left right => byLatency (default 0 (latency !! left)) (default 0 (latency !! right))) ids.

(** ** The eligible members *)

Record Scan := MkScan {
  scanMembers : list Z;
  scanUnavailable : list Z;
  scanSeen : gset Z;
  scanSkips : gmap AutoSelectorSkip Z;
  scanInGroups : Z;
  scanRanked : Z }.

Definition bumpSkip (k : AutoSelectorSkip) (n : Z) (skips : gmap AutoSelectorSkip Z) : gmap AutoSelectorSkip Z :=
  <[k := default 0 (skips !! k) + n]> skips.

(** What keeps a member out of the chain of its group. *)
Definition chainSkip (landing : option Profile) (m : Profile) (o : outbound) (front : option Profile)
  : option AutoSelectorSkip :=
  if IsXrayFullConfig o then
    if negb (xrayFullConfigFitsChain landing front) then Some XrayFullChained else None
  else if 2 <? coreTransitions landing (Some m) front then Some CoreTransitions
  else None.

Definition scanMember (repos : Repos) (ent : Z) (selector : autoSelector) (filters : MemberFilters) (now : Z)
    (landing front : option Profile) (st : Scan) (id : Z) : Scan :=
  let '(MkScan members unavailable seen skips inGroups ranked) := st in
  if (id =? ent) || bool_decide (id ∈ seen) then st
  else
    let seen := {[id]} ∪ seen in
    let member := profilesRepo repos !! id in
    let inGroups := inGroups + 1 in
    let skip := eligibilityOf member selector filters now in
    if negb (bool_decide (skip = SkipNone)) && negb (bool_decide (skip = Unavailable))
    then MkScan members unavailable seen (bumpSkip skip 1 skips) inGroups ranked
    else
      match member with
      | Some (MkProfile _ _ _ _ _ (Some o) as m) =>
          match chainSkip landing m o front with
          | Some k => MkScan members unavailable seen (bumpSkip k 1 skips) inGroups ranked
          | None =>
              if bool_decide (skip = Unavailable)
              then MkScan members (unavailable ++ [id]) seen skips inGroups ranked
              else MkScan (members ++ [id]) unavailable seen skips inGroups
                     (if 0 <? effectiveLatency member selector now then ranked + 1 else ranked)
          end
      | _ => st
      end.

Definition proxyOf (repos : Repos) (id : Z) : option Profile :=
  if 0 <=? id then profilesRepo repos !! id else None.

Definition scanGroup (repos : Repos) (ent : Z) (selector : autoSelector) (filters : MemberFilters) (now : Z)
    (st : Scan) (group : Group) : Scan :=
  let landing := proxyOf repos (landing_proxy_id group) in
  let front := proxyOf repos (front_proxy_id group) in
  fold_left (scanMember repos ent selector filters now landing front) (Profiles group) st.

Definition trackedGroups (repos : Repos) (gids : list Z) : list Group :=
  omap (fun gid => groupsRepo repos !! gid) gids.

Definition eligibleMembers (repos : Repos) (ent : Z) (selector : autoSelector) (now : Z)
    : list Z * AutoSelectorPlan :=
  let cap := poolCap selector in
  let limit := buildLimit selector in
  if isEmpty (gids selector) then ([], errorPlan 0 cap limit (qs "Auto selector tracks no group"))
  else
    let groups := trackedGroups repos (gids selector) in
    let missing := qsize (gids selector) - qsize groups in
    if isEmpty groups
    then ([], errorPlan missing cap limit (qs "Auto selector points at a group that no longer exists"))
    else
      let filters := buildFilters selector in
      let '(MkScan members unavailable _ skips inGroups ranked) :=
        fold_left (scanGroup repos ent selector filters now) groups (MkScan [] [] ∅ ∅ 0 0) in
      let keep := isEmpty members && negb (isEmpty unavailable) in
      let skips :=
        if keep then skips
        else if negb (isEmpty unavailable) then bumpSkip Unavailable (qsize unavailable) skips
        else skips in
      (if keep then unavailable else members,
       MkPlan [] [] inGroups missing 0 ranked (if keep then qsize unavailable else 0)
         (omap (fun k => pair k <$> skips !! k) allSkips) false cap limit false []).

(** The persisted order first, then the newcomers by latency. *)
Fixpoint keepPersisted (eligible placed : gset Z) (persisted : list Z) : list Z * gset Z :=
  match persisted with
  | [] => ([], placed)
  | id :: persisted' =>
      if negb (bool_decide (id ∈ eligible)) || bool_decide (id ∈ placed) then keepPersisted eligible placed persisted'
      else let '(ordered, placed') := keepPersisted eligible ({[id]} ∪ placed) persisted' in (id :: ordered, placed')
  end.

Definition orderMembers (repos : Repos) (members persistedPool : list Z) (selector : autoSelector) (now : Z)
    : list Z :=
  let '(ordered, placed) := keepPersisted (list_to_set members) ∅ persistedPool in
  let newcomers := List.filter (fun id => negb (bool_decide (id ∈ placed))) members in
  ordered ++ sortByLatency repos newcomers selector now [].

(** ** The entry points; the selector of [ent] is normalized in place *)

Definition selectorOf (ent : Profile) : option autoSelector := o ← outboundOf ent; AutoSelector o.

Definition withSelector (ent : Profile) (s : autoSelector) : Profile :=
  MkProfile (profileId ent) (type ent) (latency ent) (latency_at ent) (test_country ent)
    ((fun o => MkOutbound (IsXray o) (IsXrayFullConfig o) (IsExtraCore o) (DisplayName o) (Custom o) (Some s))
       <$> outboundOf ent).

Definition PlanAutoSelector (repos : Repos) (now1 now2 : Z) (ent : option Profile)
    : AutoSelectorPlan * option Profile :=
  match ent with
  | None => (errorPlan 0 0 0 (qs "Null profile passed to PlanAutoSelector"), None)
  | Some e =>
    match selectorOf e with
    | None => (errorPlan 0 0 0 (qs "Profile is not an auto selector, data is corrupted"), Some e)
    | Some s =>
      let selector := Normalize s in
      let ent := Some (withSelector e selector) in
      let '(members, plan) := eligibleMembers repos (profileId e) selector now1 in
      let '(MkPlan _ _ inGroups missing _ ranked kept skips _ cap limit _ err) := plan in
      if negb (isEmpty err) then (plan, ent)
      else
        let n := qsize members in
        if isEmpty members
        then (MkPlan [] [] inGroups missing n ranked kept skips false cap limit false
                (qs "Auto selector has no usable members"), ent)
        else
          let ordered := orderMembers repos members (pool selector) selector now2 in
          let truncated := poolCap selector <? qsize ordered in
          let ordered := if truncated then take (Z.to_nat (poolCap selector)) ordered else ordered in
          let build := take (Z.to_nat (Z.min (qsize ordered) (buildLimit selector))) ordered in
          let needs :=
            if buildLimit selector <? qsize ordered
            then existsb (fun id => effectiveLatencyOf repos id selector now2 =? 0) build
            else false in
          (MkPlan ordered build inGroups missing n ranked kept skips truncated cap limit needs [], ent)
    end
  end.

Definition AutoSelectorRankingCandidates (repos : Repos) (now : Z) (ent : option Profile) : list Z * option Profile :=
  match ent with
  | None => ([], None)
  | Some e =>
    match selectorOf e with
    | None => ([], Some e)
    | Some s => (fst (eligibleMembers repos (profileId e) (Normalize s) now), Some (withSelector e (Normalize s)))
    end
  end.

Definition AutoSelectorUnmeasuredCandidates (repos : Repos) (now1 now2 : Z) (ent : option Profile) (stale : list Z)
    : list Z * Z * option Profile :=
  match ent with
  | None => ([], 0, None)
  | Some e =>
    match selectorOf e with
    | None => ([], 0, Some e)
    | Some s =>
      let '(candidates, ent) := AutoSelectorRankingCandidates repos now1 ent in
      let selector := Normalize s in
      let step := fun (st : list Z * Z) id =>
        if bool_decide (id ∈ stale) then (fst st ++ [id], snd st)
        else
          let latency := effectiveLatencyOf repos id selector now2 in
          if latency =? 0 then (fst st ++ [id], snd st)
          else if 0 <? latency then (fst st, snd st + 1)
          else st in
      let '(needed, working) := fold_left step candidates ([], 0) in
      (needed, working, ent)
    end
  end.

Definition AutoSelectorMemberWorks (now : Z) (ent member : option Profile) : bool :=
  match ent with
  | None => false
  | Some e =>
      match selectorOf e with
      | None => false
      | Some s => 0 <? effectiveLatency member s now
      end
  end.

Definition AutoSelectorStartQuorum (ent : option Profile) : Z :=
  match ent with
  | None => 0
  | Some e =>
      match selectorOf e with
      | None => 0
      | Some s =>
          let selector := Normalize s in
          Z.min (Z.max (expected selector) (activeSize selector)) (buildLimit selector)
      end
  end.

Definition AutoSelectorBuildChanged (repos : Repos) (now1 now2 now3 : Z) (ent : option Profile) : bool :=
  match ent with
  | None => false
  | Some e =>
    match selectorOf e with
    | None => false
    | Some s =>
      let '(plan, _) := PlanAutoSelector repos now1 now2 ent in
      if negb (isEmpty (error plan)) then false
      else
        let selector := Normalize s in
        let next := build plan in
        let built := lastBuilt selector in
        if existsb (fun id => negb (bool_decide (id ∈ next))) built then true
        else existsb (fun id => negb (bool_decide (id ∈ built)) &&
                                (0 <? effectiveLatencyOf repos id selector now3)) next
    end
  end.

(** Returns the new pool and the profile, which is saved. *)
Definition RerankAutoSelectorPool (repos : Repos) (now1 now2 now3 : Z) (ent : option Profile) (untrusted : list Z)
    : list Z * option Profile :=
  match ent with
  | None => ([], None)
  | Some e =>
    match selectorOf e with
    | None => ([], Some e)
    | Some s =>
      let members := fst (eligibleMembers repos (profileId e) s now1) in
      let members := sortByLatency repos members s now2 untrusted in
      let members := if poolCap s <? qsize members then take (Z.to_nat (poolCap s)) members else members in
      (members, Some (withSelector e (set_poolRankedAt now3 (set_pool members s))))
    end
  end.

(** ** What the scan computes *)

(** The verdict on a candidate: its own eligibility, then the chain of its group. *)
Definition verdict (repos : Repos) (selector : autoSelector) (filters : MemberFilters) (now : Z)
    (c : Group * Z) : AutoSelectorSkip :=
  let member := profilesRepo repos !! snd c in
  let skip := eligibilityOf member selector filters now in
  if bool_decide (skip = SkipNone) || bool_decide (skip = Unavailable) then
    match member with
    | Some m =>
        match outboundOf m with
        | Some o => default skip (chainSkip (proxyOf repos (landing_proxy_id (fst c))) m o
                                   (proxyOf repos (front_proxy_id (fst c))))
        | None => skip
        end
    | None => skip
    end
  else skip.

(** Every profile of the tracked groups once, in the first group listing it. *)
Definition candidates (ent : Z) (groups : list Group) : list (Group * Z) :=
  firstsBy snd {[ent]} (flat_map (fun g => map (pair g) (Profiles g)) groups).

Definition withVerdict (v : Group * Z -> AutoSelectorSkip) (k : AutoSelectorSkip) (cs : list (Group * Z)) : list Z :=
  map snd (List.filter (fun c => bool_decide (v c = k)) cs).

Lemma withVerdict_cons v k c cs :
  withVerdict v k (c :: cs) = (if bool_decide (v c = k) then [snd c] else []) ++ withVerdict v k cs.
Proof. unfold withVerdict. cbn [List.filter]. by case_bool_decide. Qed.

Lemma elem_of_withVerdict v k cs id : id ∈ withVerdict v k cs <-> exists g, (g, id) ∈ cs /\ v (g, id) = k.
Proof.
  unfold withVerdict. rewrite list_elem_of_fmap. split.
  - intros ([g x] & -> & H). apply elem_of_filter' in H as [H E%bool_decide_eq_true]. by exists g.
  - intros (g & H & E). exists (g, id). split; [done|]. apply elem_of_filter'. by rewrite bool_decide_true.
Qed.

Lemma candidates_NoDup ent groups : NoDup (map snd (candidates ent groups)).
Proof. unfold candidates. rewrite firstsBy_map. apply firsts_NoDup. Qed.

Lemma withVerdict_NoDup v k cs : NoDup (map snd cs) -> NoDup (withVerdict v k cs).
Proof.
  induction cs as [|c cs IH]; intros H; [constructor|]. cbn [map] in H. apply NoDup_cons in H as [Hc H].
  rewrite withVerdict_cons. case_bool_decide; cbn [app]; [|by apply IH]. constructor; [|by apply IH].
  rewrite elem_of_withVerdict. intros (g & Hg & _). apply Hc. apply list_elem_of_fmap. by exists (g, snd c).
Qed.

Section Scan.
Variables (repos : Repos) (ent : Z) (selector : autoSelector) (filters : MemberFilters) (now : Z).
Let v := verdict repos selector filters now.

Definition scanPair (st : Scan) (c : Group * Z) : Scan :=
  scanMember repos ent selector filters now (proxyOf repos (landing_proxy_id (fst c)))
    (proxyOf repos (front_proxy_id (fst c))) st (snd c).

Lemma scan_flat groups : forall st,
  fold_left (scanGroup repos ent selector filters now) groups st =
  fold_left scanPair (flat_map (fun g => map (pair g) (Profiles g)) groups) st.
Proof.
  induction groups as [|g groups IH]; intros st; cbn [fold_left flat_map]; [done|].
  rewrite fold_left_app, IH. f_equal. unfold scanGroup.
  generalize (Profiles g) as ids. intros ids. revert st. induction ids as [|id ids IHi]; intros st; [done|].
  cbn [fold_left map]. by rewrite IHi.
Qed.

(** The fate of one new candidate. *)
Lemma scanPair_new ms us seen skips n r c : snd c ≠ ent -> snd c ∉ seen ->
  exists r', scanPair (MkScan ms us seen skips n r) c =
  MkScan (ms ++ (if bool_decide (v c = SkipNone) then [snd c] else []))
    (us ++ (if bool_decide (v c = Unavailable) then [snd c] else [])) ({[snd c]} ∪ seen)
    (if bool_decide (v c = SkipNone) || bool_decide (v c = Unavailable) then skips else bumpSkip (v c) 1 skips)
    (n + 1) r'.
Proof.
  intros He Hs. unfold scanPair, scanMember. rewrite (proj2 (Z.eqb_neq _ _) He), bool_decide_false by done. cbn [orb].
  unfold v, verdict. destruct c as [g id]. cbn [fst snd] in *. set (k := eligibilityOf _ _ _ _).
  destruct (decide (k = SkipNone)) as [Ek|Ek]; [|destruct (decide (k = Unavailable)) as [Eu|Eu]].
  3:{ rewrite (bool_decide_false (k = SkipNone)), (bool_decide_false (k = Unavailable)) by done. cbn [negb andb orb].
      rewrite (bool_decide_false (k = SkipNone)), (bool_decide_false (k = Unavailable)), !app_nil_r by done.
      by eexists. }
  all: assert (exists m o, profilesRepo repos !! id = Some m /\ outboundOf m = Some o) as ([a1 a2 a3 a4 a5 a6] & o & E & Eo).
  1,3: subst k; destruct (profilesRepo repos !! id) as [m|]; cbn in *; [|congruence];
    destruct (outboundOf m) as [o|] eqn:Eo; [|congruence]; by exists m, o.
  all: rewrite E in *; cbn [outboundOf] in *; subst a6; first [rewrite Ek|rewrite Eu]; clearbody k; cbn [negb andb orb].
  all: destruct (chainSkip _ _ _ _) as [c|] eqn:Ec; cbn.
  2,4: rewrite ?app_nil_r; by eexists.
  all: assert (c = XrayFullChained \/ c = CoreTransitions) as Hc by
      (unfold chainSkip in Ec; case_tests_in Ec; simplify_eq; tauto).
  all: destruct Hc as [-> | ->]; cbn; rewrite ?app_nil_r; by eexists.
Qed.

Definition countOf (k : AutoSelectorSkip) (cs : list (Group * Z)) : Z := qsize (withVerdict v k cs).
Definition skipAt (skips : gmap AutoSelectorSkip Z) (k : AutoSelectorSkip) : Z := default 0 (skips !! k).

Lemma skipAt_bump k n skips k' : skipAt (bumpSkip k n skips) k' = skipAt skips k' + (if bool_decide (k' = k) then n else 0).
Proof.
  unfold skipAt, bumpSkip. case_bool_decide as E; [subst; by rewrite lookup_insert_eq|].
  rewrite lookup_insert_ne by congruence. lia.
Qed.

Definition rejected (k : AutoSelectorSkip) : bool := negb (bool_decide (k = SkipNone) || bool_decide (k = Unavailable)).

Lemma countOf_cons k c cs : countOf k (c :: cs) = (if bool_decide (v c = k) then 1 else 0) + countOf k cs.
Proof. unfold countOf, qsize. rewrite withVerdict_cons. case_bool_decide; cbn [app length]; lia. Qed.

Lemma scan_all cs : forall ms us seen skips n r,
  let cs' := firstsBy snd ({[ent]} ∪ seen) cs in
  exists seen' skips' r',
    fold_left scanPair cs (MkScan ms us seen skips n r) =
      MkScan (ms ++ withVerdict v SkipNone cs') (us ++ withVerdict v Unavailable cs') seen' skips' (n + qsize cs') r' /\
    forall k, skipAt skips' k = skipAt skips k + (if rejected k then countOf k cs' else 0).
Proof.
  induction cs as [|c cs IH]; intros ms us seen skips n r; cbv zeta in *; cbn [fold_left firstsBy].
  - exists seen, skips, r. rewrite !app_nil_r, Z.add_0_r. split; [done|]. intros k.
    change (countOf k []) with 0. destruct (rejected k); lia.
  - case_decide as Hs.
    + assert (scanPair (MkScan ms us seen skips n r) c = MkScan ms us seen skips n r) as ->; [|apply IH].
      unfold scanPair, scanMember. apply elem_of_union in Hs as [Hs%elem_of_singleton|Hs].
      * by rewrite Hs, Z.eqb_refl.
      * by rewrite bool_decide_true, orb_true_r.
    + apply not_elem_of_union in Hs as [He%not_elem_of_singleton Hs].
      destruct (scanPair_new ms us seen skips n r c He Hs) as (r1 & ->).
      replace ({[snd c]} ∪ ({[ent]} ∪ seen)) with ({[ent]} ∪ ({[snd c]} ∪ seen)) by set_solver.
      edestruct IH as (seen' & skips' & r' & -> & Hk). exists seen', skips', r'. split.
      * rewrite !withVerdict_cons, !app_assoc. f_equal. unfold qsize. cbn [length]. lia.
      * intros k. rewrite Hk. rewrite countOf_cons. unfold rejected. clear Hk IH.
        destruct (bool_decide (v c = SkipNone) || bool_decide (v c = Unavailable)) eqn:Ev;
          rewrite ?skipAt_bump; repeat case_bool_decide; subst; cbn [negb orb] in *; try congruence; lia.
Qed.

Lemma scan_pairs pairs :
  let cs := firstsBy snd {[ent]} pairs in
  exists seen skips r,
    fold_left scanPair pairs (MkScan [] [] ∅ ∅ 0 0) =
      MkScan (withVerdict v SkipNone cs) (withVerdict v Unavailable cs) seen skips (qsize cs) r /\
    forall k, skipAt skips k = if rejected k then countOf k cs else 0.
Proof.
  destruct (scan_all pairs [] [] ∅ ∅ 0 0) as (seen & skips & r & E & Hk).
  rewrite union_empty_r_L in E, Hk. exists seen, skips, r. split; [exact E|]. intros k. rewrite Hk. unfold skipAt at 1. rewrite lookup_empty. done.
Qed.
End Scan.

Lemma sum_skips (skips : gmap AutoSelectorSkip Z) ks : forall a,
  fold_left (fun total entry => total + snd entry) (omap (fun k => pair k <$> skips !! k) ks) a =
  fold_left (fun total k => total + skipAt skips k) ks a.
Proof.
  induction ks as [|k ks IH]; intros a; [done|]. cbn [omap list_omap fold_left]. unfold skipAt at 2.
  destruct (skips !! k); cbn; rewrite IH; f_equal. cbn. lia.
Qed.

Lemma sum_add (f g : AutoSelectorSkip -> Z) ks : forall a b,
  fold_left (fun total k => total + (f k + g k)) ks (a + b) =
  fold_left (fun total k => total + f k) ks a + fold_left (fun total k => total + g k) ks b.
Proof.
  induction ks as [|k ks IH]; intros a b; cbn [fold_left]; [done|]. rewrite <- IH. f_equal. lia.
Qed.

Lemma sum_ext (f g : AutoSelectorSkip -> Z) ks : (forall k, f k = g k) ->
  forall a, fold_left (fun total k => total + f k) ks a = fold_left (fun total k => total + g k) ks a.
Proof. intros H. induction ks as [|k ks IH]; intros a; cbn [fold_left]; [done|]. by rewrite H, IH. Qed.

Lemma one_skip k0 : fold_left (fun total k => total + (if bool_decide (k0 = k) then 1 else 0)) allSkips 0 = 1.
Proof. by destruct k0; vm_compute. Qed.

Lemma counts_total repos selector filters now cs :
  fold_left (fun total k => total + countOf repos selector filters now k cs) allSkips 0 = qsize cs.
Proof.
  induction cs as [|c cs IH]; [done|]. transitivity (1 + qsize cs); [|unfold qsize; cbn [length]; lia].
  rewrite <- IH, <- (one_skip (verdict repos selector filters now c)), <- sum_add.
  apply sum_ext. intros k. apply countOf_cons.
Qed.

(** The members a plan may use: the usable candidates, or the ones whose last
    test failed when there is no other. *)
Definition planMembers (repos : Repos) (ent : Z) (selector : autoSelector) (now : Z) : list Z :=
  let v := verdict repos selector (buildFilters selector) now in
  let cs := candidates ent (trackedGroups repos (gids selector)) in
  if isEmpty (withVerdict v SkipNone cs) then withVerdict v Unavailable cs else withVerdict v SkipNone cs.

Lemma planMembers_NoDup repos ent selector now : NoDup (planMembers repos ent selector now).
Proof. unfold planMembers. case_match; apply withVerdict_NoDup, candidates_NoDup. Qed.

Lemma point_sum k0 x :
  fold_left (fun total k => total + (if bool_decide (k0 = k) then x else 0)) allSkips 0 = x.
Proof.
  assert (forall ks a, fold_left (fun total k => total + (if bool_decide (k0 = k) then x else 0)) ks (a * x) =
    fold_left (fun total k => total + (if bool_decide (k0 = k) then 1 else 0)) ks a * x) as H.
  { induction ks as [|k ks IH]; intros a; [done|]. cbn [fold_left]. rewrite <- IH. f_equal. case_match; lia. }
  change 0 with (0 * x). rewrite H, one_skip. lia.
Qed.

(** The skips of a plan and its members account for every candidate. *)
Lemma skips_account repos selector filters now cs skips k0 x :
  (forall k, countOf repos selector filters now k cs = skipAt skips k + (if bool_decide (k0 = k) then x else 0)) ->
  fold_left (fun total entry => total + snd entry) (omap (fun k => pair k <$> skips !! k) allSkips) 0 + x = qsize cs.
Proof.
  intros H. rewrite sum_skips, <- (counts_total repos selector filters now cs), (sum_ext _ _ allSkips H), (sum_add _ _ _ 0 0).
  by rewrite point_sum.
Qed.

Lemma skipped_entry (skips : gmap AutoSelectorSkip Z) k n :
  (k, n) ∈ omap (fun k => pair k <$> skips !! k) allSkips -> n = skipAt skips k.
Proof.
  rewrite list_elem_of_omap. intros (k' & _ & H). apply fmap_Some in H as (n' & E & [= -> ->]).
  unfold skipAt. by rewrite E.
Qed.

Lemma eligible_spec repos ent selector now :
  gids selector <> [] -> trackedGroups repos (gids selector) <> [] ->
  let cs := candidates ent (trackedGroups repos (gids selector)) in
  let '(members, plan) := eligibleMembers repos ent selector now in
  members = planMembers repos ent selector now /\ error plan = [] /\ membersInGroups plan = qsize cs /\
  skippedCount plan + qsize members = qsize cs /\
  poolCapUsed plan = poolCap selector /\ buildLimitUsed plan = buildLimit selector /\
  (forall k n, (k, n) ∈ skipped plan -> k <> SkipNone -> k <> Unavailable ->
     n = countOf repos selector (buildFilters selector) now k cs).
Proof.
  intros Hg Ht. unfold eligibleMembers, planMembers. destruct (gids selector) as [|g gs] eqn:Eg; [done|].
  rewrite <- Eg in Ht |- *. assert (isEmpty (gids selector) = false) as -> by (by rewrite Eg).
  destruct (trackedGroups repos (gids selector)) as [|h hs]; [done|]. cbn [isEmpty].
  rewrite scan_flat. unfold candidates. set (pairs := flat_map _ _). set (filters := buildFilters selector).
  destruct (scan_pairs repos ent selector filters now pairs) as (seen & skips & r & -> & Hk).
  set (cs := firstsBy snd _ pairs) in *.
  cbv zeta. cbn [error membersInGroups poolCapUsed buildLimitUsed skipped].
  fold (countOf repos selector filters now SkipNone cs).
  set (v := verdict repos selector filters now) in *. set (usable := withVerdict v SkipNone cs).
  set (down := withVerdict v Unavailable cs).
  set (skips' := if isEmpty usable && negb (isEmpty down) then skips
    else if negb (isEmpty down) then bumpSkip Unavailable (qsize down) skips else skips).
  replace (if isEmpty usable && negb (isEmpty down) then down else usable) with (if isEmpty usable then down else usable).
  2:{ destruct usable; [|done]. by destruct down. }
  assert (forall k, countOf repos selector filters now k cs = skipAt skips' k +
    (if bool_decide ((if isEmpty usable && negb (isEmpty down) then Unavailable else SkipNone) = k)
     then qsize (if isEmpty usable then down else usable) else 0)) as Hc.
  { intros k. unfold skips'. destruct (rejected k) eqn:Er.
    - assert (k <> SkipNone /\ k <> Unavailable) as [H1 H2] by by (split; intros ->).
      rewrite bool_decide_false by (by destruct (isEmpty usable && negb (isEmpty down))).
      specialize (Hk k). rewrite Er in Hk. rewrite <- Hk.
      repeat case_match; rewrite ?skipAt_bump, ?(bool_decide_false (k = Unavailable)) by done; lia.
    - assert (k = SkipNone \/ k = Unavailable) as [-> | ->] by (unfold rejected in Er; bprop; tauto).
      all: pose proof (Hk SkipNone) as Hn; pose proof (Hk Unavailable) as Hu; change (rejected SkipNone) with false in Hn;
        change (rejected Unavailable) with false in Hu; cbv iota in Hn, Hu; unfold countOf; fold v; fold usable down.
      all: destruct usable as [|x l], down as [|x' l']; cbn [isEmpty andb negb]; rewrite ?skipAt_bump, ?Hn, ?Hu;
        repeat first [rewrite bool_decide_true by done|rewrite bool_decide_false by done]; done. }
  split_and!; try done.
  - unfold skippedCount. cbn [skipped]. by eapply skips_account.
  - intros k n Hn H1 H2. apply skipped_entry in Hn as ->. rewrite Hc, bool_decide_false by (by case_match).
    lia.
Qed.

(** ** The order of a pool *)

Lemma byLatency_spec l r :
  byLatency l r = true <-> latencyRank l < latencyRank r \/ latencyRank l = latencyRank r /\ latencyRank l = 0 /\ l < r.
Proof. unfold byLatency. case_tests; bprop; lia. Qed.

Lemma byLatency_false l r :
  byLatency l r = false <-> latencyRank r < latencyRank l \/ latencyRank l = latencyRank r /\ (latencyRank l = 0 -> r <= l).
Proof. rewrite <- not_true_iff_false, byLatency_spec. lia. Qed.

Lemma byLatency_asym l r : byLatency l r = true -> byLatency r l = false.
Proof. rewrite byLatency_spec, byLatency_false. lia. Qed.

Lemma byLatency_trans x y z : byLatency y x = false -> byLatency z y = false -> byLatency z x = false.
Proof. rewrite !byLatency_false. lia. Qed.

(** The latency the order is by: none for an untrusted member. *)
Definition rankedLatency (repos : Repos) (selector : autoSelector) (now : Z) (untrusted : list Z) (id : Z) : Z :=
  if bool_decide (id ∈ untrusted) then 0 else effectiveLatencyOf repos id selector now.

Definition before (repos : Repos) (selector : autoSelector) (now : Z) (untrusted : list Z) (x y : Z) : bool :=
  byLatency (rankedLatency repos selector now untrusted x) (rankedLatency repos selector now untrusted y).

Lemma before_asym repos selector now untrusted x y :
  before repos selector now untrusted x y = true -> before repos selector now untrusted y x = false.
Proof. apply byLatency_asym. Qed.

Lemma before_trans repos selector now untrusted x y z :
  before repos selector now untrusted y x = false -> before repos selector now untrusted z y = false ->
  before repos selector now untrusted z x = false.
Proof. apply byLatency_trans. Qed.

Lemma latencyTable_lookup repos ids selector now untrusted id : id ∈ ids ->
  latencyTable repos ids selector now untrusted !! id = Some (rankedLatency repos selector now untrusted id).
Proof.
  unfold latencyTable, rankedLatency. set (f := fun id : Z => if bool_decide (id ∈ untrusted) then 0 else effectiveLatencyOf repos id selector now).
  fold (f id).
  assert (forall m, (id ∈ ids \/ m !! id = Some (f id)) ->
    fold_left (fun (t : gmap Z Z) id => <[id := f id]> t) ids m !! id = Some (f id)) as H.
  { induction ids as [|x ids IH]; intros m Hm; cbn [fold_left].
    - destruct Hm as [Hm|Hm]; [by apply elem_of_nil in Hm|done].
    - apply IH. destruct (decide (id = x)) as [->|Hne]; [right; by rewrite lookup_insert_eq|].
      rewrite lookup_insert_ne by congruence. rewrite elem_of_cons in Hm. tauto. }
  intros Hin. apply (H ∅). by left.
Qed.

(** The table of the latencies read up front sorts like the latencies. *)
Lemma insertStable_ext {A} (lt lt' : A -> A -> bool) x l :
  (forall y, y ∈ l -> lt y x = lt' y x) -> insertStable lt x l = insertStable lt' x l.
Proof.
  induction l as [|y l IH]; intros H; cbn; [done|]. rewrite H by apply list_elem_of_here.
  case_match; [|done]. f_equal. apply IH. intros z Hz. apply H. by apply list_elem_of_further.
Qed.

Lemma stableSort_ext {A} (lt lt' : A -> A -> bool) l :
  (forall x y, x ∈ l -> y ∈ l -> lt x y = lt' x y) -> stableSort lt l = stableSort lt' l.
Proof.
  induction l as [|x l IH]; intros H; [done|]. cbn. fold (stableSort lt l) (stableSort lt' l). rewrite IH.
  - apply insertStable_ext. intros y Hy. rewrite (stableSort_perm lt' l) in Hy. apply H; set_solver.
  - intros y z Hy Hz. apply H; set_solver.
Qed.

Lemma sortByLatency_spec repos ids selector now untrusted :
  sortByLatency repos ids selector now untrusted = stableSort (before repos selector now untrusted) ids.
Proof.
  apply stableSort_ext. intros x y Hx Hy. by rewrite !latencyTable_lookup.
Qed.

Lemma keepPersisted_spec eligible persisted : forall placed,
  let kept := firsts placed (List.filter (fun id => bool_decide (id ∈ eligible)) persisted) in
  keepPersisted eligible placed persisted = (kept, list_to_set kept ∪ placed).
Proof.
  induction persisted as [|id persisted IH]; intros placed; cbv zeta in *; cbn [keepPersisted List.filter].
  - cbn. f_equal. set_solver.
  - destruct (bool_decide (id ∈ eligible)); cbn [negb orb firsts]; [|apply IH].
    case_bool_decide as Hp; [rewrite decide_True by done; apply IH|]. rewrite decide_False by done.
    rewrite IH. f_equal. cbn [list_to_set]. set_solver.
Qed.

(** The persisted order, then the newcomers sorted. *)
Lemma orderMembers_spec repos members persisted selector now :
  let kept := firsts ∅ (List.filter (fun id => bool_decide (id ∈ members)) persisted) in
  orderMembers repos members persisted selector now =
  kept ++ stableSort (before repos selector now [])
            (List.filter (fun id => negb (bool_decide (id ∈ kept))) members).
Proof.
  cbv zeta. unfold orderMembers. rewrite keepPersisted_spec, sortByLatency_spec.
  rewrite (filter_ext _ (fun id => bool_decide (id ∈ members))).
  2:{ intros id. apply bool_decide_ext. by rewrite elem_of_list_to_set. }
  do 2 f_equal. apply filter_ext. intros id. f_equal. apply bool_decide_ext. set_solver.
Qed.

Lemma orderMembers_perm repos members persisted selector now : NoDup members ->
  orderMembers repos members persisted selector now ≡ₚ members.
Proof.
  intros Hn. rewrite orderMembers_spec. cbv zeta. set (kept := firsts _ _). rewrite stableSort_perm.
  assert (kept ≡ₚ List.filter (fun id => bool_decide (id ∈ kept)) members) as E.
  { apply NoDup_Permutation; [apply firsts_NoDup|by apply NoDup_filter'|]. intros x.
    rewrite elem_of_filter', bool_decide_eq_true. subst kept. rewrite elem_of_firsts, elem_of_filter', bool_decide_eq_true.
    set_solver. }
  rewrite E at 1. apply filter_partition.
Qed.

(** ** The plan *)

(** What [PlanAutoSelector] returns, its parts named. *)
Lemma plan_spec repos now1 now2 e s :
  selectorOf e = Some s -> trackedGroups repos (gids (Normalize s)) <> [] ->
  let n := Normalize s in
  let members := planMembers repos (profileId e) n now1 in
  let cs := candidates (profileId e) (trackedGroups repos (gids n)) in
  let ordered := orderMembers repos members (pool n) n now2 in
  let '(plan, ent) := PlanAutoSelector repos now1 now2 (Some e) in
  ent = Some (withSelector e n) /\ (isEmpty (error plan) = negb (isEmpty members)) /\
  membersInGroups plan = qsize cs /\ eligible plan = qsize members /\ skippedCount plan + qsize members = qsize cs /\
  (forall k c, (k, c) ∈ skipped plan -> k <> SkipNone -> k <> Unavailable ->
     c = countOf repos n (buildFilters n) now1 k cs) /\
  (members <> [] -> planPool plan = take (Z.to_nat (poolCap n)) ordered /\
     build plan = take (Z.to_nat (buildLimit n)) (planPool plan)).
Proof.
  intros Hs Hg n members cs ordered. cbn [PlanAutoSelector]. rewrite Hs. cbv zeta. fold n.
  assert (gids n <> []) as Hg' by (intros E; unfold n in E; rewrite E in Hg; by apply Hg).
  pose proof (eligible_spec repos (profileId e) n now1 Hg' Hg) as H. cbv zeta in H. fold cs in H.
  destruct (eligibleMembers _ _ _ _) as [ms [p b mi mg el rk ku sk tr pc bl nr err]].
  destruct H as (-> & Ee & Em & Ea & _ & _ & Ek). cbn in Ee, Em, Ea, Ek. subst err. fold members. fold members in Ea.
  destruct (normalize_normalized s) as [_ Hn1 Hn2 _ _ _ _ _ _ _ _]. fold n in Hn1, Hn2.
  destruct (isEmpty members) eqn:E; cbn [negb isEmpty].
  - split_and!; try done. by destruct members.
  - split_and!; try done. intros _. cbn [planPool build]. fold ordered.
    unfold qsize. destruct (Z.ltb_spec (poolCap n) (Z.of_nat (length ordered))).
    + split; [done|]. rewrite !take_take, length_take. f_equal. lia.
    + rewrite (take_ge ordered (Z.to_nat (poolCap n))) by lia. split; [done|].
      destruct (Z.le_gt_cases (Z.of_nat (length ordered)) (buildLimit n)); [rewrite !take_ge by lia; done|].
      by rewrite Z.min_r by lia.
Qed.

Lemma selectorOf_with e s s' : selectorOf e = Some s -> selectorOf (withSelector e s') = Some s'.
Proof. unfold selectorOf, withSelector. destruct e as [? ? ? ? ? [o|]]; [done|by intros]. Qed.

Lemma planMembers_pool repos ent s now l t :
  planMembers repos ent (set_poolRankedAt t (set_pool l s)) now = planMembers repos ent s now.
Proof. reflexivity. Qed.

Lemma normalize_pool s l t :
  Normalize s = s -> Normalize (set_poolRankedAt t (set_pool l s)) = set_poolRankedAt t (set_pool l s).
Proof. intros H. rewrite <- H at 2. destruct s. reflexivity. Qed.

(** C36: A plan accounts for every profile of the tracked groups once, in the
    first group that lists it: it is a member or a counted skip, each skip under
    its reason; the plan fails exactly when no member is left. *)
Theorem plan_accounting repos now1 now2 e s
    (Hs : selectorOf e = Some s) (Hg : trackedGroups repos (gids (Normalize s)) <> []) :
  let n := Normalize s in
  let cs := candidates (profileId e) (trackedGroups repos (gids n)) in
  let plan := fst (PlanAutoSelector repos now1 now2 (Some e)) in
  membersInGroups plan = qsize cs /\
  eligible plan = qsize (planMembers repos (profileId e) n now1) /\
  eligible plan + skippedCount plan = membersInGroups plan /\
  (error plan = [] <-> eligible plan <> 0) /\
  (forall k c, (k, c) ∈ skipped plan -> k <> SkipNone -> k <> Unavailable ->
     c = countOf repos n (buildFilters n) now1 k cs).
Proof.
  cbv zeta. pose proof (plan_spec repos now1 now2 e s Hs Hg) as H. cbv zeta in H.
  destruct (PlanAutoSelector _ _ _ _) as [plan ent]. destruct H as (_ & Ee & Em & El & Ea & Ek & _). cbn [fst].
  split_and!; [done|done|lia| |done]. rewrite El. unfold qsize.
  destruct (planMembers _ _ _ _), (error plan); cbn in Ee |- *; done.
Qed.

(** The pool of a plan is the capped order of the eligible members: the
    persisted pool's members in their persisted order, then the newcomers by
    latency; no member twice, and the build is a prefix of the pool. *)
Theorem plan_order repos now1 now2 e s
    (Hs : selectorOf e = Some s) (Hg : trackedGroups repos (gids (Normalize s)) <> [])
    (He : error (fst (PlanAutoSelector repos now1 now2 (Some e))) = []) :
  let n := Normalize s in
  let members := planMembers repos (profileId e) n now1 in
  let plan := fst (PlanAutoSelector repos now1 now2 (Some e)) in
  exists kept newcomers,
    planPool plan = take (Z.to_nat (poolCap n)) (kept ++ newcomers) /\
    build plan = take (Z.to_nat (buildLimit n)) (planPool plan) /\ build plan <> [] /\
    kept = firsts ∅ (List.filter (fun id => bool_decide (id ∈ members)) (pool n)) /\
    StronglySorted (notAfter (before repos n now2 [])) newcomers /\
    kept ++ newcomers ≡ₚ members /\ NoDup (kept ++ newcomers).
Proof.
  cbv zeta. pose proof (plan_spec repos now1 now2 e s Hs Hg) as H. cbv zeta in H.
  destruct (PlanAutoSelector _ _ _ _) as [plan ent]. cbn [fst] in *. destruct H as (_ & Ee & _ & _ & _ & _ & Ep).
  rewrite He in Ee. set (members := planMembers _ _ _ _) in *.
  assert (members <> []) as Hm by (by destruct members). destruct (Ep Hm) as [Ep1 Ep2].
  pose proof (orderMembers_perm repos members (pool (Normalize s)) (Normalize s) now2
    (planMembers_NoDup _ _ _ _)) as Hp. rewrite orderMembers_spec in Hp, Ep1. cbv zeta in Hp, Ep1.
  do 2 eexists. split_and!; [exact Ep1|exact Ep2| |reflexivity| |exact Hp|].
  - destruct (normalize_normalized s) as [_ Hn1 [Hn2 _] _ _ _ _ _ _ _ _].
    rewrite Ep2, Ep1, take_take. destruct (_ ++ _) as [|x l].
    + apply Permutation_nil_l in Hp. congruence.
    + destruct (Z.to_nat _ `min` Z.to_nat _)%nat eqn:E; [lia|done].
  - apply stableSort_sorted; intros *; [apply before_asym|apply before_trans].
  - rewrite Hp. apply planMembers_NoDup.
Qed.

(** Reranking sorts the eligible members by latency with the untrusted ones
    as untested, keeps the order of equals, and the next plan's pool is the
    pool it stored. *)
Theorem rerank_plan repos now1 now2 now3 now4 e s untrusted
    (Hs : selectorOf e = Some s) (Hn : Normalize s = s) (Hg : trackedGroups repos (gids s) <> []) :
  let members := planMembers repos (profileId e) s now1 in
  let '(ranked, ent) := RerankAutoSelectorPool repos now1 now2 now3 (Some e) untrusted in
  let sorted := stableSort (before repos s now2 untrusted) members in
  ranked = take (Z.to_nat (poolCap s)) sorted /\
  StronglySorted (notAfter (before repos s now2 untrusted)) sorted /\ sorted ≡ₚ members /\
  (forall a, List.filter (sameRank (before repos s now2 untrusted) a) sorted =
             List.filter (sameRank (before repos s now2 untrusted) a) members) /\
  (members <> [] -> planPool (fst (PlanAutoSelector repos now1 now4 ent)) = ranked).
Proof.
  cbv zeta. cbn [RerankAutoSelectorPool]. rewrite Hs, sortByLatency_spec.
  assert (gids s <> []) as Hg' by (intros E; rewrite E in Hg; by apply Hg).
  pose proof (eligible_spec repos (profileId e) s now1 Hg' Hg) as H.
  destruct (eligibleMembers _ _ _ _) as [ms pl]. destruct H as (-> & _). cbn [fst].
  set (members := planMembers _ _ _ _). set (sorted := stableSort _ members).
  assert ((if poolCap s <? qsize sorted then take (Z.to_nat (poolCap s)) sorted else sorted) =
    take (Z.to_nat (poolCap s)) sorted) as ->.
  { unfold qsize. destruct (Z.ltb_spec (poolCap s) (Z.of_nat (length sorted))); [done|]. by rewrite take_ge by lia. }
  set (ranked := take _ sorted).
  assert (sorted ≡ₚ members) as Hp by apply stableSort_perm.
  split_and!; [done| |done| |].
  - apply stableSort_sorted; intros *; [apply before_asym|apply before_trans].
  - intros a. apply stableSort_class; intros *; [apply before_trans].
  - intros Hm. set (s' := set_poolRankedAt now3 (set_pool ranked s)).
    pose proof (normalize_pool s ranked now3 Hn) as Hn'. fold s' in Hn'.
    assert (trackedGroups repos (gids (Normalize s')) <> []) as Hg2 by (rewrite Hn'; exact Hg).
    pose proof (plan_spec repos now1 now4 (withSelector e s') s' (selectorOf_with e s s' Hs) Hg2) as H.
    cbv zeta in H. rewrite Hn' in H.
    change (planMembers repos (profileId (withSelector e s')) s' now1) with members in H.
    destruct (PlanAutoSelector _ _ _ _) as [plan ent]. destruct H as (_ & _ & _ & _ & _ & _ & Ep).
    cbn [fst]. destruct (Ep Hm) as [-> _]. change (poolCap s') with (poolCap s). change (pool s') with ranked.
    rewrite orderMembers_spec. cbv zeta.
    assert (NoDup sorted) as Hnd by (rewrite Hp; apply planMembers_NoDup).
    assert (firsts ∅ (List.filter (fun id => bool_decide (id ∈ members)) ranked) = ranked) as ->.
    { rewrite filter_all.
      - apply firsts_take; set_solver.
      - apply Forall_forall. intros x Hx. apply bool_decide_eq_true. rewrite <- Hp.
        unfold ranked in Hx. apply list_elem_of_In. rewrite <- (take_drop (Z.to_nat (poolCap s)) sorted).
        apply in_app_iff. left. by apply list_elem_of_In. }
    unfold ranked at 1. rewrite take_app, take_take, Nat.min_id. fold ranked.
    destruct (Nat.le_gt_cases (Z.to_nat (poolCap s)) (length sorted)) as [Hle|Hgt].
    + assert (length ranked = Z.to_nat (poolCap s)) as -> by (unfold ranked; rewrite length_take; lia).
      rewrite Nat.sub_diag. apply app_nil_r.
    + assert (ranked = sorted) as E by (apply take_ge; lia). rewrite E.
      assert (List.filter (fun id => negb (bool_decide (id ∈ sorted))) members = []) as ->.
      { apply filter_none. apply Forall_forall. intros x Hx. rewrite bool_decide_true; [done|]. by rewrite Hp. }
      cbn [stableSort foldr]. by rewrite take_nil, app_nil_r.
Qed.
End Plan.

(** A selector over two groups sharing a profile, one member with a failed test. *)
Definition exampleSelector : autoSelector := Normalize (MkSelector [] [0; 1] [] [] true 3 2 1440 [] [] 300 600 15 8 10
  300 0 3 2 true false (qs "rotate") 30 [12] 0 (-1) [] 0 []).
Definition exampleProfile (id ms : Z) : Profile :=
  MkProfile id (qs "vless") ms 900 [] (Some (MkOutbound false false false [] None None)).
Definition exampleEnt : Profile :=
  MkProfile 5 (qs "autoselector") 0 0 [] (Some (MkOutbound false false false [] None (Some exampleSelector))).
Definition exampleRepos : Repos :=
  MkRepos (list_to_map [(10, exampleProfile 10 80); (11, exampleProfile 11 (-1)); (12, exampleProfile 12 200);
                        (13, exampleProfile 13 50)])
    (list_to_map [(0, MkGroup (-1) (-1) [10; 11; 12]); (1, MkGroup (-1) (-1) [12; 13; 5])]).
Definition examplePlan : AutoSelectorPlan :=
  fst (PlanAutoSelector id (fun _ => true) (fun _ _ => true) (fun _ => []) exampleRepos 1000 1000 (Some exampleEnt)).

Example examplePlan_pool : planPool examplePlan = [12; 13; 10] /\ build examplePlan = [12; 13] /\
  skipped examplePlan = [(Unavailable, 1)] /\ membersInGroups examplePlan = 4.
Proof. by vm_compute. Qed.

Lemma plan_accounting_witness :
  trackedGroups exampleRepos (gids (Normalize exampleSelector)) <> [] /\
  eligible examplePlan + skippedCount examplePlan = membersInGroups examplePlan.
Proof.
  split; [by vm_compute|].
  apply (plan_accounting id (fun _ => true) (fun _ _ => true) (fun _ => []) exampleRepos 1000 1000 exampleEnt
    exampleSelector); by vm_compute.
Defined.

Lemma plan_order_witness :
  error examplePlan = [] /\
  exists kept newcomers, planPool examplePlan = take (Z.to_nat (poolCap (Normalize exampleSelector))) (kept ++ newcomers) /\
    build examplePlan <> [].
Proof.
  split; [by vm_compute|].
  destruct (plan_order id (fun _ => true) (fun _ _ => true) (fun _ => []) exampleRepos 1000 1000 exampleEnt
    exampleSelector) as (kept & newcomers & H1 & _ & H2 & _); [by vm_compute..|].
  exists kept, newcomers. split; [exact H1|exact H2].
Defined.

Lemma rerank_plan_witness :
  let '(ranked, ent) := RerankAutoSelectorPool id (fun _ => true) (fun _ _ => true) (fun _ => []) exampleRepos
    1000 1000 1001 (Some exampleEnt) [13] in
  ranked = [10; 12; 13] /\
  planPool (fst (PlanAutoSelector id (fun _ => true) (fun _ _ => true) (fun _ => []) exampleRepos 1000 1005 ent)) = ranked.
Proof.
  pose proof (rerank_plan id (fun _ => true) (fun _ _ => true) (fun _ => []) exampleRepos 1000 1000 1001 1005
    exampleEnt exampleSelector [13] eq_refl ltac:(by vm_compute) ltac:(by vm_compute)) as H.
  cbv zeta in H. destruct (RerankAutoSelectorPool _ _ _ _ _ _ _ _ _ _) as [ranked ent] eqn:E.
  destruct H as (_ & _ & _ & _ & Hp). split.
  - vm_compute in E. congruence.
  - apply Hp. by vm_compute.
Defined.
