(* ===== verification/AutoSelectorMonitor.v ===== *)
(** * Watching a running auto selector (src/src/stats/autoselector/AutoSelectorMonitor.cpp)

    A thread polls the core for the health of the pool that was built. [Monitor] is
    the members under the mutex, the place the thread has reached between two
    sections under it ([PollAt]), and what was done, oldest first; [step] is one
    section of the thread or a call from another thread, so a list of events is any
    interleaving. Texts for the interface are untranslated. *)

From Stdlib Require Import Ascii String.
From S2P Require Import Prelude QtText Logs.

Local Open Scope Z_scope.
#[local] Set Warnings "-register-all".

Definition kPoolExhaustedGraceSecs : Z := 20.
Definition kRebuildBackoffMinSecs : Z := 60.
Definition kRebuildBackoffMaxSecs : Z := 600.
Definition kHealthPersistSecs : Z := 60.

(** ** Data *)

(** A member as the core reports it, and with what the build knows of it. *)
Record MemberReport := MkMember {
  tag : qstring; rank : Z; state : qstring; selected : bool; selectedUDP : bool; qualified : bool; memberActive : bool;
  averageMs : Z; deviationMs : Z; minMs : Z; maxMs : Z; samples : Z; failures : Z; probes : Z; dialTotal : Z; dialFail : Z;
  lastOKms : Z; lastProbeMs : Z; cooldownUntilMs : Z; lastError : qstring }.

Record AutoSelectorMemberView := MkMemberView { report : MemberReport; memberProfileID : Z; memberName : qstring; pinned : bool }.

Definition isDead (m : AutoSelectorMemberView) : bool := bool_decide (state (report m) = qs "dead").
Definition isUsable (m : AutoSelectorMemberView) : bool :=
  bool_decide (state (report m) = qs "ok") || bool_decide (state (report m) = qs "degraded").
Definition hasProblem (m : AutoSelectorMemberView) : bool :=
  bool_decide (state (report m) = qs "dead") || bool_decide (state (report m) = qs "cooldown")
    || bool_decide (state (report m) = qs "degraded").

(** libcore::AutoSelectorStatus. *)
Record AutoSelectorStatus := MkStatus {
  statusTag : qstring; phase : qstring; selectedTag : qstring; pinnedTag : qstring; balance : bool; balanceMode : qstring;
  suspended : bool; suspendedSinceMs : Z; membersTotal : Z; membersProbed : Z; membersAlive : Z; membersQualified : Z;
  membersCooldown : Z; probesInFlight : Z; roundsCompleted : Z; lastRoundMs : Z; nextRoundMs : Z; lastSwitchMs : Z;
  lastSwitchReason : qstring; reports : list MemberReport }.

Definition emptyStatus : AutoSelectorStatus := MkStatus [] [] [] [] false [] false 0 0 0 0 0 0 0 0 0 0 0 [] [].

Record AutoSelectorView := MkView {
  valid : bool; viewTag : qstring; viewProfileID : Z; status : AutoSelectorStatus; selectedName : qstring;
  selectedProfileID : Z; pinnedName : qstring; updatedAtMs : Z; exhaustedSinceMs : Z; members : list AutoSelectorMemberView }.

Definition emptyView : AutoSelectorView := MkView false [] (-1) emptyStatus [] (-1) [] 0 0 [].

(** ** Texts *)

Definition elapsedText (sinceMs nowMs : Z) : qstring :=
  if sinceMs <=? 0 then qs "never"
  else let secs := Z.quot (nowMs - sinceMs) 1000 in
       if secs <? 60 then number secs ++ qs "s ago"
       else if secs <? 3600 then number (Z.quot secs 60) ++ qs "m ago"
       else number (Z.quot secs 3600) ++ qs "h ago".

Definition emDash : Z := 0x2014.
Definition phaseIs (p : string) (s : AutoSelectorStatus) : bool := bool_decide (phase s = qs p).

Definition summary (v : AutoSelectorView) (nowMs : Z) : qstring :=
  let s := status v in
  if negb (valid v) then []
  else if suspended s then qs "Auto selector paused " ++ [emDash] ++ qs " no network connection (" ++ number (membersTotal s) ++ qs " profiles held)"
  else if phaseIs "starting" s || (phaseIs "probing" s && (membersProbed s =? 0))
       then qs "Auto selector starting " ++ [emDash] ++ qs " checking " ++ number (membersTotal s) ++ qs " profiles"
  else if phaseIs "probing" s
       then qs "Auto selector checking profiles (" ++ number (membersProbed s) ++ qs "/" ++ number (membersTotal s) ++ qs " measured)"
  else if membersAlive s =? 0
       then qs "Auto selector " ++ [emDash] ++ qs " no working profile out of " ++ number (membersTotal s) ++ qs ", still checking"
  else qs "Auto selector on " ++ (if isEmpty (selectedName v) then selectedTag s else selectedName v) ++ qs " (" ++
       number (membersAlive s) ++ qs " of " ++ number (membersTotal s) ++ qs " working)" ++
       (if 0 <? lastSwitchMs s then qs ", switched " ++ elapsedText (lastSwitchMs s) nowMs else []).

Definition detail (v : AutoSelectorView) : qstring :=
  let s := status v in
  if negb (valid v) then []
  else
    let measured :=
      if 0 <? membersProbed s then
        [number (membersAlive s) ++ qs " working"]
        ++ (if 0 <? membersCooldown s then [number (membersCooldown s) ++ qs " cooling down"] else [])
        ++ (if 0 <? membersTotal s - membersProbed s then [number (membersTotal s - membersProbed s) ++ qs " not checked yet"] else [])
      else [] in
    let parts := measured
      ++ (if 0 <? probesInFlight s then [number (probesInFlight s) ++ qs " being checked"] else [])
      ++ (if balance s then [qs "balancing over " ++ number (membersQualified s)] else []) in
    if isEmpty parts then [] else number (membersTotal s) ++ qs " profiles: " ++ join (qs ", ") parts.

(** ** State *)

(** What was done: a build or a stop, what a poll concluded, and what followed from it. *)
Inductive Act :=
| Built
| Cleared
| Judged (nowMs : Z) (polled : AutoSelectorView) (fire : bool)
| Updated
| SetLatency (profileID latency : Z)
| NoNetwork
| PoolExhausted (profileID : Z)
| Recheck (groupTag : qstring)
| Select (groupTag member : qstring)
| SavePinned (selectorID memberID : Z).

(** Where the poll thread is: between polls, with the group's status, with the view
    built from it, or after the verdict with what is left to do. *)
Inductive PollAt :=
| Sleeping
| Polling
| Fetched (groups : list AutoSelectorStatus)
| HasStatus (s : AutoSelectorStatus) (wantedTag : qstring) (updatedAt : Z)
| HasView (next : AutoSelectorView) (usable : Z)
| Announcing (nowMs : Z) (fire : bool) (profile : Z)
| Persisting (fire : bool) (profile : Z)
| Asking (profile : Z).

Record Monitor := MkMonitor {
  view : AutoSelectorView;
  tagToProfile : gmap qstring Z;
  tagToName : gmap qstring qstring;
  groupTag : qstring;
  profileID : Z;
  active : bool;
  exhaustedSince : Z;
  lastRebuildRequest : Z;
  rebuildBackoffSecs : Z;
  lastHealthPersist : Z;
  pollAt : PollAt;
  acts : list Act }.

Definition monitorEta (m : Monitor) : Monitor :=
  MkMonitor (view m) (tagToProfile m) (tagToName m) (groupTag m) (profileID m) (active m) (exhaustedSince m)
    (lastRebuildRequest m) (rebuildBackoffSecs m) (lastHealthPersist m) (pollAt m) (acts m).
Definition set_view (v : AutoSelectorView) (m : Monitor) : Monitor := ltac:(setter monitorEta view v m).
Definition set_tagToProfile (v : gmap qstring Z) (m : Monitor) : Monitor := ltac:(setter monitorEta tagToProfile v m).
Definition set_tagToName (v : gmap qstring qstring) (m : Monitor) : Monitor := ltac:(setter monitorEta tagToName v m).
Definition set_groupTag (v : qstring) (m : Monitor) : Monitor := ltac:(setter monitorEta groupTag v m).
Definition set_profileID (v : Z) (m : Monitor) : Monitor := ltac:(setter monitorEta profileID v m).
Definition set_active (v : bool) (m : Monitor) : Monitor := ltac:(setter monitorEta active v m).
Definition set_exhaustedSince (v : Z) (m : Monitor) : Monitor := ltac:(setter monitorEta exhaustedSince v m).
Definition set_lastRebuildRequest (v : Z) (m : Monitor) : Monitor := ltac:(setter monitorEta lastRebuildRequest v m).
Definition set_rebuildBackoffSecs (v : Z) (m : Monitor) : Monitor := ltac:(setter monitorEta rebuildBackoffSecs v m).
Definition set_lastHealthPersist (v : Z) (m : Monitor) : Monitor := ltac:(setter monitorEta lastHealthPersist v m).
Definition set_pollAt (v : PollAt) (m : Monitor) : Monitor := ltac:(setter monitorEta pollAt v m).
Definition set_acts (v : list Act) (m : Monitor) : Monitor := ltac:(setter monitorEta acts v m).

Definition act (a : Act) (m : Monitor) : Monitor := set_acts (acts m ++ [a]) m.

(** A member of a build: its tag, with its profile's id and name unless it is null. *)
Record AutoSelectorBuildInfo := MkBuild {
  buildTag : qstring; buildProfile : option Z; buildMembers : list (qstring * option (Z * qstring)) }.

Definition newMonitor : Monitor := MkMonitor emptyView ∅ ∅ [] (-1) false 0 0 0 0 Sleeping [].

(** ** Builds *)

Definition forgetBuild (m : Monitor) : Monitor :=
  set_active false (set_profileID (-1) (set_groupTag [] (set_exhaustedSince 0
    (set_view emptyView (set_tagToName ∅ (set_tagToProfile ∅ m)))))).

Definition noteMember (m : Monitor) (b : qstring * option (Z * qstring)) : Monitor :=
  match b with
  | (t, Some (i, n)) => set_tagToName (<[t := n]> (tagToName m)) (set_tagToProfile (<[t := i]> (tagToProfile m)) m)
  | (_, None) => m
  end.

Definition startingStatus (total : Z) : AutoSelectorStatus :=
  MkStatus [] (qs "starting") [] [] false [] false 0 total 0 0 0 0 0 0 0 0 0 [] [].

Definition SetBuild (infos : list AutoSelectorBuildInfo) (nowMs : Z) (m : Monitor) : Monitor :=
  let m := act Built (forgetBuild m) in
  match infos with
  | [] => m
  | info :: _ =>
      let m := set_profileID (default (-1) (buildProfile info)) (set_groupTag (buildTag info) m) in
      let m := fold_left noteMember (buildMembers info) m in
      let v := MkView true (groupTag m) (profileID m) (startingStatus (i32 (qsize (buildMembers info)))) [] (-1) [] 0 0 [] in
      set_active true (set_lastHealthPersist nowMs (set_view v m))
  end.

(** ** Keeping what was measured *)

(** The latency a member's profile is given, [None] when nothing is known. *)
Definition healthLatency (v : AutoSelectorMemberView) : option Z :=
  if (memberProfileID v <? 0) || (probes (report v) =? 0) then None
  else if isUsable v && (0 <? averageMs (report v)) then Some (averageMs (report v))
  else if isDead v then Some (-1)
  else None.

(** [latencyOf] is the latency of a profile, if there is one. *)
Definition PersistHealth (latencyOf : Z -> option Z) (nowMs : Z) (m : Monitor) : Monitor :=
  if negb (active m) || negb (valid (view m)) || suspended (status (view m)) then m
  else
    let m := set_lastHealthPersist nowMs m in
    fold_left (fun m v =>
      match healthLatency v with
      | Some latency =>
          match latencyOf (memberProfileID v) with
          | Some old => if old =? latency then m else act (SetLatency (memberProfileID v) latency) m
          | None => m
          end
      | None => m
      end) (members (view m)) m.

Definition Clear (latencyOf : Z -> option Z) (nowMs : Z) (m : Monitor) : Monitor :=
  act Cleared (forgetBuild (PersistHealth latencyOf nowMs m)).

(** ** Requests of the user *)

Definition RequestRecheck (m : Monitor) : Monitor := if active m then act (Recheck (groupTag m)) m else m.

(** [None] when the core took it; [pinnedOf] is the pin of a selector, if it is one. *)
Inductive SelectError := NotRunning | NotInPool | Unreachable | CoreError (e : qstring).
Definition RequestSelect (member : qstring) (answer : option qstring) (pinnedOf : Z -> option Z) (m : Monitor)
    : option SelectError * Monitor :=
  if negb (active m) then (Some NotRunning, m)
  else
    let memberID := if isEmpty member then -1 else default (-1) (tagToProfile m !! member) in
    if negb (isEmpty member) && (memberID <? 0) then (Some NotInPool, m)
    else
      let m := act (Select (groupTag m) member) m in
      match answer with
      | None => (Some Unreachable, m)
      | Some (c :: e) => (Some (CoreError (c :: e)), m)
      | Some [] =>
          match pinnedOf (profileID m) with
          | Some pin => (None, if pin =? memberID then m else act (SavePinned (profileID m) memberID) m)
          | None => (None, m)
          end
      end.

(** ** The poll, section by section *)

Definition memberView (m : Monitor) (pin : qstring) (r : MemberReport) : AutoSelectorMemberView :=
  MkMemberView r (default (-1) (tagToProfile m !! tag r)) (default [] (tagToName m !! tag r))
    (negb (isEmpty pin) && bool_decide (tag r = pin)).

Definition countsUsable (v : AutoSelectorMemberView) : bool := isUsable v || bool_decide (state (report v) = qs "untested").

Definition buildView (s : AutoSelectorStatus) (wantedTag : qstring) (updatedAt : Z) (m : Monitor) : AutoSelectorView :=
  let vs := map (memberView m (pinnedTag s)) (reports s) in
  let chosen := last (List.filter (fun v => selected (report v)) vs) in
  let pin := last (List.filter pinned vs) in
  MkView true wantedTag (profileID m) s (from_option memberName [] chosen) (from_option memberProfileID (-1) chosen)
    (from_option memberName [] pin) updatedAt 0 vs.

Definition usableOf (v : AutoSelectorView) : Z := qsize (List.filter countsUsable (members v)).

Definition everythingDead (v : AutoSelectorView) (usable : Z) : bool :=
  (usable =? 0) && (0 <? membersProbed (status v)) && negb (suspended (status v)) && negb (phaseIs "starting" (status v)).

Definition withExhausted (t : Z) (v : AutoSelectorView) : AutoSelectorView :=
  MkView (valid v) (viewTag v) (viewProfileID v) (status v) (selectedName v) (selectedProfileID v) (pinnedName v)
    (updatedAtMs v) t (members v).

(** Whether the pool is given up now. *)
Definition due (nowMs : Z) (m : Monitor) : bool :=
  negb (exhaustedSince m =? 0) && (kPoolExhaustedGraceSecs * 1000 <=? nowMs - exhaustedSince m)
  && ((lastRebuildRequest m =? 0) || (rebuildBackoffSecs m * 1000 <=? nowMs - lastRebuildRequest m)).

Definition nextBackoff (secs : Z) : Z :=
  if secs =? 0 then kRebuildBackoffMinSecs else Z.min (secs * 2) kRebuildBackoffMaxSecs.

Definition judge (next : AutoSelectorView) (usable nowMs : Z) (m : Monitor) : Monitor :=
  let dead := everythingDead next usable in
  let m := set_exhaustedSince (if dead then if exhaustedSince m =? 0 then nowMs else exhaustedSince m else 0) m in
  let shown := withExhausted (exhaustedSince m) next in
  let fire := due nowMs m in
  let m := if fire then set_exhaustedSince 0 (set_rebuildBackoffSecs (nextBackoff (rebuildBackoffSecs m)) (set_lastRebuildRequest nowMs m))
           else m in
  let m := if 0 <? usable then set_rebuildBackoffSecs 0 m else m in
  set_pollAt (Announcing nowMs fire (viewProfileID shown)) (act (Judged nowMs next fire) (set_view shown m)).

Inductive Event :=
| ESetBuild (infos : list AutoSelectorBuildInfo) (nowMs : Z)
| EClear (latencyOf : Z -> option Z) (nowMs : Z)
| ERecheck
| ESelect (member : qstring) (answer : option qstring) (pinnedOf : Z -> option Z)
| EPoll (nowMs : Z) (groups : option (list AutoSelectorStatus)) (latencyOf : Z -> option Z) (defaultInterface : option qstring).

(** One section of the poll thread; [groups] is the core's answer, [None] when it fails. *)
Definition pollStep (nowMs : Z) (groups : option (list AutoSelectorStatus)) (latencyOf : Z -> option Z)
    (defaultInterface : option qstring) (m : Monitor) : Monitor :=
  match pollAt m with
  | Sleeping => if active m then set_pollAt Polling m else m
  | Polling => set_pollAt (match groups with Some gs => Fetched gs | None => Sleeping end) m
  | Fetched gs =>
      if active m then
        match List.find (fun g => bool_decide (statusTag g = groupTag m)) gs with
        | Some s => set_pollAt (HasStatus s (groupTag m) nowMs) m
        | None => set_pollAt Sleeping m
        end
      else set_pollAt Sleeping m
  | HasStatus s t updatedAt => let v := buildView s t updatedAt m in set_pollAt (HasView v (usableOf v)) m
  | HasView next usable => if active m then judge next usable nowMs m else set_pollAt Sleeping m
  | Announcing judgedMs fire p =>
      let m := act Updated m in
      if kHealthPersistSecs * 1000 <=? judgedMs - lastHealthPersist m then set_pollAt (Persisting fire p) m
      else set_pollAt (if fire then Asking p else Sleeping) m
  | Persisting fire p => set_pollAt (if fire then Asking p else Sleeping) (PersistHealth latencyOf nowMs m)
  | Asking p =>
      set_pollAt Sleeping (act (if bool_decide (defaultInterface = Some []) then NoNetwork else PoolExhausted p) m)
  end.

Definition step (m : Monitor) (e : Event) : Monitor :=
  match e with
  | ESetBuild infos now => SetBuild infos now m
  | EClear latencyOf now => Clear latencyOf now m
  | ERecheck => RequestRecheck m
  | ESelect member answer pinnedOf => snd (RequestSelect member answer pinnedOf m)
  | EPoll now groups latencyOf iface => pollStep now groups latencyOf iface m
  end.

Definition run (m : Monitor) (es : list Event) : Monitor := fold_left step es m.

(** ** When a pool may be given up *)

(** What a poll saw: a member the core calls working, or one it has not reached yet. *)
Definition working (r : MemberReport) : bool := bool_decide (state r ∈ [qs "ok"; qs "degraded"]).
Definition unreached (r : MemberReport) : bool := bool_decide (state r = qs "untested").
Definition hopeful (v : AutoSelectorView) : bool := existsb (fun m => working (report m) || unreached (report m)) (members v).
(** No member works or is still to be tried, in a pool that has started and is not paused. *)
Definition lost (v : AutoSelectorView) : bool :=
  negb (hopeful v) && (0 <? membersProbed (status v)) && negb (suspended (status v)) && bool_decide (phase (status v) <> qs "starting").

Definition fired (a : Act) : bool := match a with Judged _ _ f => f | _ => false end.
(** What starts the pause over: a poll with a member that works or was not reached yet. *)
Definition recovered (a : Act) : bool := match a with Judged _ v _ => hopeful v | _ => false end.
Definition answered (a : Act) : bool := match a with PoolExhausted _ | NoNetwork => true | _ => false end.
(** What ends a time in which every poll found the pool lost. *)
Definition interrupts (a : Act) : bool :=
  match a with Built | Cleared => true | Judged _ v fire => negb (lost v) || fire | _ => false end.

Definition firstJudged (l : list Act) : option Z :=
  head (omap (fun a => match a with Judged now _ _ => Some now | _ => None end) l).
Definition lastFired (l : list Act) : option Z :=
  fold_left (fun r a => match a with Judged now _ true => Some now | _ => r end) l None.

(** The pause after [n] requests in a row. *)
Definition backoffAfter (n : Z) : Z := if n =? 0 then 0 else Z.min (kRebuildBackoffMinSecs * 2 ^ (n - 1)) kRebuildBackoffMaxSecs.

(** When a poll at [now] may give the pool up: the polls of at least the grace found it
    lost, and the pause since the last time is over. *)
Definition timeIsUp (before : list Act) (now : Z) : Prop :=
  (exists t, firstJudged (since interrupts before) = Some t /\ t + kPoolExhaustedGraceSecs * 1000 <= now) /\
  (forall r, lastFired before = Some r -> r + backoffAfter (times fired (since recovered before)) * 1000 <= now).

Definition monitorAllowed (before : list Act) (a : Act) : Prop :=
  match a with
  | Judged now v fire => fire = true <-> lost v = true /\ timeIsUp before now
  | PoolExhausted _ | NoNetwork => times answered before < times fired before
  | _ => True
  end.

(** A verdict that still has to be announced. *)
Definition unanswered (p : PollAt) : Z :=
  match p with Announcing _ true _ | Persisting true _ | Asking _ => 1 | _ => 0 end.

Record Paced (m : Monitor) : Prop := {
  since_dead : exhaustedSince m = default 0 (firstJudged (since interrupts (acts m)));
  dead_positive t : firstJudged (since interrupts (acts m)) = Some t -> 0 < t;
  last_request : lastRebuildRequest m = default 0 (lastFired (acts m));
  request_positive r : lastFired (acts m) = Some r -> 0 < r;
  backoff_counted : rebuildBackoffSecs m = backoffAfter (times fired (since recovered (acts m)));
  all_answered : times fired (acts m) = times answered (acts m) + unanswered (pollAt m);
  view_counted : match pollAt m with HasView v usable => usable = usableOf v | _ => True end;
  monitor_lawful : lawful monitorAllowed (acts m) }.

Lemma lastFired_snoc l a : lastFired (l ++ [a]) = match a with Judged now _ true => Some now | _ => lastFired l end.
Proof. unfold lastFired. rewrite fold_left_app. by destruct a as [| |? ? []| | | | | | |]. Qed.
Lemma firstJudged_snoc l a : firstJudged (l ++ [a]) =
  match firstJudged l with Some t => Some t | None => match a with Judged now _ _ => Some now | _ => None end end.
Proof.
  unfold firstJudged. rewrite omap_app. destruct (omap _ l) as [|t l']; [|done]. by destruct a.
Qed.

Lemma firstJudged_other l a : match a with Judged _ _ _ => False | _ => True end -> firstJudged (l ++ [a]) = firstJudged l.
Proof. intros Ha. rewrite firstJudged_snoc. by destruct (firstJudged l), a. Qed.

Lemma nextBackoff_after n : 0 <= n -> nextBackoff (backoffAfter n) = backoffAfter (n + 1).
Proof.
  intros Hn. unfold nextBackoff, backoffAfter, kRebuildBackoffMinSecs, kRebuildBackoffMaxSecs.
  rewrite (proj2 (Z.eqb_neq (n + 1) 0)) by lia. replace (n + 1 - 1) with n by lia.
  destruct (Z.eqb_spec n 0) as [->|]; [done|].
  assert (0 < 2 ^ (n - 1)) by (apply Z.pow_pos_nonneg; lia).
  rewrite (proj2 (Z.eqb_neq _ 0)) by lia. replace n with (Z.succ (n - 1)) at 2 by lia. rewrite Z.pow_succ_r by lia. lia.
Qed.

(** An act that no pace depends on. *)
Definition idle (a : Act) : bool :=
  match a with Built | Cleared | Judged _ _ _ | NoNetwork | PoolExhausted _ => false | _ => true end.

Definition paceFields (m : Monitor) := (exhaustedSince m, lastRebuildRequest m, rebuildBackoffSecs m, pollAt m).

Create Rewrite HintDb paces.
#[local] Hint Rewrite (@since_snoc Act) (@times_snoc Act) lastFired_snoc : paces.

Lemma idle_paced l m m' : acts m' = acts m ++ l -> Forall (fun a => idle a = true) l ->
  paceFields m' = paceFields m -> Paced m -> Paced m'.
Proof.
  intros El Hl E [H1 H2 H3 H4 H5 H6 H7 H8]. unfold paceFields in E. injection E as E1 E2 E3 E4.
  assert (HA : firstJudged (since interrupts (acts m')) = firstJudged (since interrupts (acts m)) /\
    lastFired (acts m') = lastFired (acts m) /\
    times fired (since recovered (acts m')) = times fired (since recovered (acts m)) /\
    times fired (acts m') = times fired (acts m) /\ times answered (acts m') = times answered (acts m) /\
    lawful monitorAllowed (acts m')).
  { rewrite El. clear El. induction l as [|a l IH] using rev_ind; [by rewrite app_nil_r|].
    apply Forall_app in Hl as [Hl Ha]. apply Forall_cons_1 in Ha as [Ha _]. destruct (IH Hl) as (I1 & I2 & I3 & I4 & I5 & I6).
    rewrite app_assoc. destruct a; try done; (split_and!; [..|by apply lawful_snoc]; autorewrite with paces;
      cbn [interrupts recovered fired answered]; autorewrite with paces; cbn [fired]; rewrite ?firstJudged_snoc, ?I1; try lia; try done; by destruct (firstJudged _)). }
  destruct HA as (A1 & A2 & A3 & A4 & A5 & A6). split; rewrite ?E1, ?E2, ?E3, ?E4, ?A1, ?A2, ?A3, ?A4, ?A5; done.
Qed.

Ltac fields :=
  cbn [view tagToProfile tagToName groupTag profileID active exhaustedSince lastRebuildRequest rebuildBackoffSecs
       lastHealthPersist pollAt acts set_view set_tagToProfile set_tagToName set_groupTag set_profileID set_active
       set_exhaustedSince set_lastRebuildRequest set_rebuildBackoffSecs set_lastHealthPersist set_pollAt set_acts act].

(** Ending the build ends the time in which its members were dead. *)
Lemma forgotten_paced a m : a = Built \/ a = Cleared -> Paced m -> Paced (act a (forgetBuild m)).
Proof.
  intros Ha [H1 H2 H3 H4 H5 H6 H7 H8]. unfold forgetBuild.
  destruct Ha as [-> | ->]; (split; fields; autorewrite with paces; cbn [interrupts recovered fired answered];
    autorewrite with paces; cbn [fired]; rewrite ?Z.add_0_r; try done; by apply lawful_snoc).
Qed.

Lemma quiet_paced m m' : acts m' = acts m -> paceFields m' = paceFields m -> Paced m -> Paced m'.
Proof. intros E. apply (idle_paced []); [by rewrite app_nil_r | done]. Qed.

Lemma shown_paced v now m : Paced m -> Paced (set_active true (set_lastHealthPersist now (set_view v m))).
Proof. by apply quiet_paced. Qed.
Lemma named_paced i t m : Paced m -> Paced (set_profileID i (set_groupTag t m)).
Proof. by apply quiet_paced. Qed.
Lemma member_paced b m : Paced m -> Paced (noteMember m b).
Proof. destruct b as [t [[i n]|]]; [by apply quiet_paced | done]. Qed.

Lemma setBuild_paced infos now m : Paced m -> Paced (SetBuild infos now m).
Proof.
  intros Hm. apply (forgotten_paced Built) in Hm; [|by left]. unfold SetBuild. destruct infos as [|info _]; [done|].
  apply shown_paced. apply (named_paced (default (-1) (buildProfile info)) (buildTag info)) in Hm. revert Hm.
  generalize (set_profileID (default (-1) (buildProfile info)) (set_groupTag (buildTag info) (act Built (forgetBuild m)))).
  induction (buildMembers info) as [|b l IH]; intros k Hk; cbn [fold_left]; [done|]. by apply IH, member_paced.
Qed.

Lemma persist_paced latencyOf now m : Paced m -> Paced (PersistHealth latencyOf now m).
Proof.
  intros Hm. unfold PersistHealth. case_match; [done|].
  assert (H1 : Paced (set_lastHealthPersist now m)) by (by apply (quiet_paced m)). revert H1. generalize (set_lastHealthPersist now m) as m1.
  intros m1 H1. cbn zeta. generalize (members (view m1)). intros l. revert m1 H1. induction l as [|v l IH]; intros m1 H1; cbn [fold_left]; [done|].
  apply IH. repeat case_match; try done. apply (idle_paced [SetLatency (memberProfileID v) z] m1); [done | by apply Forall_singleton | done | done].
Qed.

(** The start of the time in which every member is dead, once this verdict is in. *)
Definition sinceAfter (dead : bool) (now : Z) (m : Monitor) : Z :=
  if dead then if exhaustedSince m =? 0 then now else exhaustedSince m else 0.

Lemma sinceAfter_log v now m : Paced m ->
  sinceAfter (lost v) now m = default 0 (firstJudged (since interrupts (acts m ++ [Judged now v false]))).
Proof.
  intros [H1 H2 _ _ _ _ _ _]. unfold sinceAfter. rewrite since_snoc. cbn [interrupts]. destruct (lost v); cbn [negb orb]; [|done].
  rewrite firstJudged_snoc, H1. destruct (firstJudged _) as [t|] eqn:Hf; cbn [from_option id]; [|done].
  specialize (H2 t eq_refl). by rewrite (proj2 (Z.eqb_neq t 0)) by lia.
Qed.

(** What the thread counts is what the law looks at. *)
Lemma usable_hopeful v : (0 <? usableOf v) = hopeful v.
Proof.
  unfold usableOf, hopeful, qsize. induction (members v) as [|m l IH]; [done|]. cbn [List.filter existsb].
  assert (E : countsUsable m = working (report m) || unreached (report m)).
  { unfold countsUsable, isUsable, working, unreached. f_equal. apply eq_bool_prop_intro. rewrite orb_True, !bool_decide_spec. set_solver. }
  rewrite <- E. destruct (countsUsable m); [|done]. cbn [length orb]. apply Z.ltb_lt. lia.
Qed.
Lemma usable_lost v : everythingDead v (usableOf v) = lost v.
Proof.
  unfold everythingDead, lost, phaseIs. rewrite <- usable_hopeful. f_equal; [|by rewrite bool_decide_not]. do 2 f_equal.
  assert (0 <= usableOf v) by (unfold usableOf, qsize; lia). apply eq_bool_prop_intro.
  destruct (Z.eqb_spec (usableOf v) 0), (Z.ltb_spec 0 (usableOf v)); cbn; lia || done.
Qed.

(** A pool is given up exactly when the law says so. *)
Lemma due_allowed v now m : 0 < now -> Paced m ->
  due now (set_exhaustedSince (sinceAfter (lost v) now m) m) = true <-> lost v = true /\ timeIsUp (acts m) now.
Proof.
  intros Hn [H1 H2 H3 H4 H5 _ _ _]. unfold due, sinceAfter, timeIsUp. fields. unfold kPoolExhaustedGraceSecs. rewrite H1, H3, H5.
  destruct (lost v); [|naive_solver].
  destruct (firstJudged _) as [t|]; cbn [from_option id].
  - specialize (H2 t eq_refl). rewrite (proj2 (Z.eqb_neq t 0)), (proj2 (Z.eqb_neq t 0)) by lia. cbn [negb andb].
    destruct (lastFired _) as [r|]; cbn [from_option id].
    + specialize (H4 r eq_refl). rewrite (proj2 (Z.eqb_neq r 0)) by lia. cbn [orb]. rewrite andb_true_iff, !Z.leb_le.
      split; [intros [? ?]; split_and!; [done | exists t; split; [done | lia] | intros ? [= <-]; lia]|].
      intros (_ & (? & [= <-] & ?) & Hr). specialize (Hr r eq_refl). lia.
    + rewrite Z.eqb_refl, orb_true_l, andb_true_r, Z.leb_le. split; [intros; split_and!; [done | exists t; split; [done | lia] | done]|].
      intros (_ & (? & [= <-] & ?) & _). lia.
  - rewrite Z.eqb_refl, Z.sub_diag. split; [|by intros (_ & (? & ? & _) & _)]. intros. bprop. lia.
Qed.

Lemma fired_paced now t profile v w m : 0 < now -> Paced m -> unanswered (pollAt m) = 0 ->
  lost v = true -> timeIsUp (acts m) now ->
  let m1 := set_exhaustedSince t m in
  Paced (set_pollAt (Announcing now true profile) (act (Judged now v true) (set_view w
    (set_exhaustedSince 0 (set_rebuildBackoffSecs (nextBackoff (rebuildBackoffSecs m1)) (set_lastRebuildRequest now m1)))))).
Proof.
  intros Hn [H1 H2 H3 H4 H5 H6 H7 H8] Hp Hl Ht.
  assert (Hh : hopeful v = false) by (unfold lost in Hl; by destruct (hopeful v)).
  split; fields; rewrite ?lastFired_snoc, ?since_snoc; cbn [interrupts recovered]; rewrite ?Hl, ?Hh; cbn [negb orb];
    rewrite ?times_snoc; cbn [fired answered unanswered]; try done.
  - by intros ? [= <-].
  - rewrite H5. apply nextBackoff_after, times_nonneg.
  - lia.
  - by apply lawful_snoc.
Qed.

Lemma waited_paced v w now profile m : 0 < now -> ~ (lost v = true /\ timeIsUp (acts m) now) -> Paced m -> unanswered (pollAt m) = 0 ->
  let m1 := set_exhaustedSince (sinceAfter (lost v) now m) m in
  Paced (set_pollAt (Announcing now false profile) (act (Judged now v false)
    (set_view w (if hopeful v then set_rebuildBackoffSecs 0 m1 else m1)))).
Proof.
  intros Hn Hd Hm Hp. pose proof (sinceAfter_log v now m Hm) as Hs. destruct Hm as [H1 H2 H3 H4 H5 H6 H7 H8].
  cbn zeta. assert (Hl : lawful monitorAllowed (acts m ++ [Judged now v false])) by (by apply lawful_snoc).
  assert (Hpos : forall t, firstJudged (since interrupts (acts m ++ [Judged now v false])) = Some t -> 0 < t).
  { intros t. rewrite since_snoc. cbn [interrupts]. destruct (lost v); cbn [negb orb]; [|done]. rewrite firstJudged_snoc.
    destruct (firstJudged _) eqn:E; [|by intros [= <-]]. intros [= <-]. by apply H2. }
  destruct (hopeful v) eqn:Eu; split; fields; try done;
    rewrite ?lastFired_snoc, ?since_snoc, ?times_snoc; cbn [recovered fired answered unanswered]; rewrite ?Eu, ?times_snoc;
    cbn [fired]; rewrite ?Z.add_0_r; try done; lia.
Qed.

Lemma judged_paced next now m : 0 < now -> pollAt m = HasView next (usableOf next) -> Paced m -> Paced (judge next (usableOf next) now m).
Proof.
  intros Hn Hp Hm. unfold judge. rewrite usable_lost, usable_hopeful. fold (sinceAfter (lost next) now m).
  assert (Hw : unanswered (pollAt m) = 0) by (by rewrite Hp). pose proof (due_allowed next now m Hn Hm) as Hd.
  destruct (due now _).
  - destruct (proj1 Hd eq_refl) as [Hl Ht]. assert (Hh : hopeful next = false) by (unfold lost in Hl; by destruct (hopeful next)).
    rewrite Hh. by apply fired_paced.
  - apply waited_paced; [done | by rewrite <- Hd | done | done].
Qed.

Definition timed (e : Event) : Prop := match e with EPoll now _ _ _ => 0 < now | _ => True end.

(** Where the thread goes next leaves the pace alone while no verdict is open. *)
Lemma goto_paced p m : unanswered p = unanswered (pollAt m) -> match p with HasView v usable => usable = usableOf v | _ => True end ->
  Paced m -> Paced (set_pollAt p m).
Proof. intros Hp Hv [H1 H2 H3 H4 H5 H6 H7 H8]. split; fields; try done. by rewrite Hp. Qed.

Lemma asked_paced a p m : a = NoNetwork \/ a = PoolExhausted p -> pollAt m = Asking p -> Paced m -> Paced (set_pollAt Sleeping (act a m)).
Proof.
  intros Ha Hp [H1 H2 H3 H4 H5 H6 H7 H8]. rewrite Hp in H6. cbn [unanswered] in H6.
  destruct Ha as [-> | ->]; (split; fields; autorewrite with paces; cbn [interrupts recovered fired answered unanswered];
    autorewrite with paces; cbn [fired]; rewrite ?firstJudged_other by done; rewrite ?Z.add_0_r; try done; try lia; apply lawful_snoc; [done|]).
  all: cbn [monitorAllowed]; lia.
Qed.

Lemma poll_paced now groups latencyOf iface m : 0 < now -> Paced m -> Paced (pollStep now groups latencyOf iface m).
Proof.
  intros Hn Hm. unfold pollStep. destruct (pollAt m) as [| |gs|s t u|next usable|j fire p|fire p|p] eqn:Hp.
  - case_match; [|done]. apply goto_paced; [by rewrite Hp | done | done].
  - destruct groups; (apply goto_paced; [by rewrite Hp | done | done]).
  - repeat case_match; (apply goto_paced; [by rewrite Hp | done | done]).
  - apply goto_paced; [by rewrite Hp | done | done].
  - destruct (active m); [|apply goto_paced; [by rewrite Hp | done | done]].
    pose proof (view_counted m Hm) as Hv; rewrite Hp in Hv. subst usable. by apply judged_paced.
  - assert (H1 : Paced (act Updated m)) by (apply (idle_paced [Updated] m); [done | by apply Forall_singleton | done | done]).
    cbn zeta. case_match; [by apply goto_paced; [fields; rewrite Hp; destruct fire | |]|].
    destruct fire; (apply goto_paced; [fields; by rewrite Hp | done | done]).
  - assert (Hq : pollAt (PersistHealth latencyOf now m) = pollAt m).
    { unfold PersistHealth. case_match; [done|]. cbn zeta. generalize (members (view (set_lastHealthPersist now m))). intros l.
      change (pollAt m) with (pollAt (set_lastHealthPersist now m)). generalize (set_lastHealthPersist now m).
      induction l as [|v l IH]; intros k; cbn [fold_left]; [done|]. rewrite IH. by repeat case_match. }
    destruct fire; (apply goto_paced; [by rewrite Hq, Hp | done | by apply persist_paced]).
  - apply (asked_paced _ p); [|done|done]. case_bool_decide; [by left | by right].
Qed.

Lemma select_paced member answer pinnedOf m : Paced m -> Paced (snd (RequestSelect member answer pinnedOf m)).
Proof.
  intros Hm. unfold RequestSelect. case_match; [done|]. case_match; [done|]. cbn zeta.
  assert (H1 : Paced (act (Select (groupTag m) member) m)) by (apply (idle_paced [Select (groupTag m) member] m); [done | by apply Forall_singleton | done | done]).
  destruct answer as [[|c e]|]; [|done|done]. destruct (pinnedOf _) as [pin|]; [|done]. cbn [snd]. destruct (pin =? _); [done|].
  eapply idle_paced; [reflexivity | by apply Forall_singleton | done | done].
Qed.

Lemma step_paced e m : timed e -> Paced m -> Paced (step m e).
Proof.
  intros Ht Hm. destruct e; cbn [step].
  - by apply setBuild_paced.
  - apply forgotten_paced; [by right | by apply persist_paced].
  - unfold RequestRecheck. case_match; [|done]. eapply idle_paced; [reflexivity | by apply Forall_singleton | done | done].
  - by apply select_paced.
  - by apply poll_paced.
Qed.

Lemma run_paced es m : Forall timed es -> Paced m -> Paced (run m es).
Proof.
  revert m. induction es as [|e es IH]; intros m Hes Hm; [done|]. apply Forall_cons in Hes as [He Hes].
  cbn [run fold_left]. by apply IH, step_paced.
Qed.

Lemma new_paced : Paced newMonitor.
Proof. split; try done. apply lawful_nil. Qed.

(** C20: In every run, whatever the core answers and however builds and stops fall between
    the sections of a poll, a poll gives the pool up exactly when it finds it lost (no
    member that works or was not tried yet, in a pool that has started and is not
    suspended), so have all the polls of at least twenty seconds, without a new build or
    stop between, and the pause since the last time is over: none after a poll that found
    a member working or not tried yet, else a minute, doubled with each time since such a
    poll, at most ten. Each time is answered at most once, by asking for a rebuild or by
    noting that there is no network. *)
Theorem rebuilds_paced es : Forall timed es -> lawful monitorAllowed (acts (run newMonitor es)).
Proof. intros H. apply monitor_lawful, run_paced; [done | apply new_paced]. Qed.

(** ** A pool that dies *)

Module MonitorSample.
Definition member (t st : string) : MemberReport :=
  MkMember (qs t) 0 (qs st) false false false false 90 0 0 0 0 0 4 0 0 0 0 0 [].
Definition group (st : string) : AutoSelectorStatus :=
  MkStatus (qs "auto") (qs "ready") [] [] false [] false 0 2 2 0 0 0 0 1 0 0 0 [] [member "p1" st; member "p2" "dead"].
Definition built : Event :=
  ESetBuild [MkBuild (qs "auto") (Some 7) [(qs "p1", Some (11, qs "one")); (qs "p2", Some (12, qs "two"))]] 1000.
(** A poll: seven sections at one time. *)
Definition poll (secs : Z) (st : string) : list Event :=
  replicate 7 (EPoll (secs * 1000) (Some [group st]) (fun _ => Some 90) (Some (qs "eth0"))).
Definition course : list Event :=
  built :: poll 10 "ok" ++ poll 20 "dead" ++ poll 30 "dead" ++ poll 40 "dead" ++ poll 50 "dead" ++ poll 70 "dead"
        ++ poll 99 "dead" ++ poll 100 "dead" ++ take 1 (poll 100 "dead").

(** The time of giving the pool up, and the profile to rebuild. *)
Definition outcome (a : Act) : option (Z + Z) :=
  match a with Judged now _ true => Some (inl now) | PoolExhausted p => Some (inr p) | _ => None end.

Lemma rebuilds_paced_witness :
  Forall timed course /\ lawful monitorAllowed (acts (run newMonitor course)) /\
  omap outcome (acts (run newMonitor course)) = [inl 40000; inr 7; inl 100000; inr 7].
Proof.
  assert (H : Forall timed course) by (repeat constructor).
  split; [exact H|]. split; [exact (rebuilds_paced course H) | vm_compute; reflexivity].
Defined.

(** A rebuild starts with members that were not tried, and they start the pause over: a
    pool in which nothing ever works is given up at 30, 54 and 78 seconds, and the pause
    of a minute and more is never kept. *)
Definition rebuild (secs : Z) : list Event :=
  ESetBuild [MkBuild (qs "auto") (Some 7) [(qs "p1", Some (11, qs "one")); (qs "p2", Some (12, qs "two"))]] (secs * 1000)
  :: poll (secs + 2) "untested" ++ poll (secs + 3) "dead" ++ poll (secs + 23) "dead" ++ take 1 (poll (secs + 23) "dead").
Example untested_resets_pause :
  omap outcome (acts (run newMonitor (rebuild 7 ++ rebuild 31 ++ rebuild 55))) = [inl 30000; inr 7; inl 54000; inr 7; inl 78000; inr 7].
Proof. vm_compute. reflexivity. Qed.
End MonitorSample.
