(* ===== verification/AutoSelectorSweeps.v ===== *)
(** * Ranking an auto selector before its start (src/src/engine/autoselector/AutoSelectorController.cpp)

    A start whose pool needs ranking waits while a thread of its own measures the
    members; it goes on as soon as enough of them work, or when the tests end. A
    [Job] is one such thread with its sweep, which the hook of the tests shares;
    the main thread runs what was posted to it in order. [step] is one piece of one
    thread, so a list of events is any interleaving. What the plan, the profiles
    and the clock say comes with the event. *)

From Stdlib Require Import Ascii String.
From S2P Require Import Prelude QtText Json Logs AutoSelector AutoSelectorPlan.

Local Open Scope Z_scope.
#[local] Set Warnings "-register-all".

(** ** Data *)

(** A semaphore and what it announces: released once for the quorum, once for the end. *)
Record AutoSelectorSweep := MkSweep {
  wake : nat; measured : gset Z; working : gset Z; workingBefore : Z; quorum : Z; quorumMet : bool; done_ : bool }.

Definition newSweep (before q : Z) : AutoSelectorSweep := MkSweep 0 ∅ ∅ before q false false.

Definition reachedQuorum (s : AutoSelectorSweep) : bool :=
  (0 <? quorum s) && (quorum s <=? workingBefore s + Z.of_nat (size (working s))).

(** Which call ranks: the start path, or the rebuild of an exhausted pool. *)
Inductive Cause := BeforeStart | Exhausted.

(** Where the thread is in [rank], and after it. *)
Inductive Phase :=
| Ranking
| Testing
| Waiting
| StartingEarly (untrusted : list Z)
| Reranking
| Ended
| Rechecking
| Rechecked.
#[export] Instance Phase_eq_dec : EqDecision Phase.
Proof. solve_decision. Defined.

Record Job := MkJob {
  cause : Cause; ent : Z; phase : Phase; sweep : AutoSelectorSweep; needed : list Z; stale : list Z; startedEarly : bool }.

(** Calls posted to the main thread. *)
Inductive Task := StartEarly (j : nat) | RankEnded (j : nat) (early : bool) | Rebuild (j : nat) (changed : bool).

Inductive Act :=
| Resumed (j : nat)
| StartRequest (profileID : Z)
| Reranked (j : nat) (pool : list Z)
| SaveProfile (profileID : Z).

Record World := MkWorld {
  jobs : list Job; rankingInFlight_ : Z; rankedFor_ : Z; queue : list Task; settling : list nat;
  monitorLoopStarted_ : bool; acts : list Act }.

Definition worldEta (w : World) : World :=
  MkWorld (jobs w) (rankingInFlight_ w) (rankedFor_ w) (queue w) (settling w) (monitorLoopStarted_ w) (acts w).
Definition set_jobs (v : list Job) (w : World) : World := ltac:(setter worldEta jobs v w).
Definition set_rankingInFlight_ (v : Z) (w : World) : World := ltac:(setter worldEta rankingInFlight_ v w).
Definition set_rankedFor_ (v : Z) (w : World) : World := ltac:(setter worldEta rankedFor_ v w).
Definition set_queue (v : list Task) (w : World) : World := ltac:(setter worldEta queue v w).
Definition set_settling (v : list nat) (w : World) : World := ltac:(setter worldEta settling v w).
Definition set_monitorLoopStarted_ (v : bool) (w : World) : World := ltac:(setter worldEta monitorLoopStarted_ v w).
Definition set_acts (v : list Act) (w : World) : World := ltac:(setter worldEta acts v w).
Definition act (a : Act) (w : World) : World := set_acts (acts w ++ [a]) w.
Definition post (t : Task) (w : World) : World := set_queue (queue w ++ [t]) w.
Definition newWorld : World := MkWorld [] 0 (-1) [] [] false [].

Definition jobEta (b : Job) : Job := MkJob (cause b) (ent b) (phase b) (sweep b) (needed b) (stale b) (startedEarly b).
Definition set_phase (v : Phase) (b : Job) : Job := ltac:(setter jobEta phase v b).
Definition set_sweep (v : AutoSelectorSweep) (b : Job) : Job := ltac:(setter jobEta sweep v b).
Definition set_needed (v : list Z) (b : Job) : Job := ltac:(setter jobEta needed v b).
Definition set_stale (v : list Z) (b : Job) : Job := ltac:(setter jobEta stale v b).
Definition set_startedEarly (v : bool) (b : Job) : Job := ltac:(setter jobEta startedEarly v b).

Definition putJob (j : nat) (b : Job) (w : World) : World := set_jobs (<[j := b]> (jobs w)) w.

(** What a piece of code reads: the repositories, the selector's profile and the clock. *)
Record Reading := MkReading { repos : Repos; entNow : option Profile; time1 : Z; time2 : Z; time3 : Z }.

(** What the main thread reads: the state of the connection, and whether the start it
    calls comes back to [rankBeforeStart], for which profile. *)
Record Moment := MkMoment { connecting : bool; isRunning : bool; running : option Z; reenters : option (Z * Reading) }.

Section Controller.
Context (toUpper : qstring -> qstring) (regexValid : qstring -> bool) (regexMatches : qstring -> qstring -> bool)
  (QString2QJsonObject : qstring -> QJsonObject).
Abbreviation planOf := (PlanAutoSelector toUpper regexValid regexMatches QString2QJsonObject).
Abbreviation unmeasured := (AutoSelectorUnmeasuredCandidates toUpper regexValid regexMatches QString2QJsonObject).
Abbreviation buildChanged := (AutoSelectorBuildChanged toUpper regexValid regexMatches QString2QJsonObject).
Abbreviation rerankedPool := (RerankAutoSelectorPool toUpper regexValid regexMatches QString2QJsonObject).

Definition isSelector (e : option Profile) : bool :=
  match e with Some p => bool_decide (type p = qs "autoselector") | None => false end.

(** ** The main thread *)

Definition startMonitorLoop (w : World) : World := set_monitorLoopStarted_ true w.

Definition addJob (c : Cause) (profileID : Z) (w : World) : World :=
  set_rankingInFlight_ (rankingInFlight_ w + 1)
    (set_jobs (jobs w ++ [MkJob c profileID Ranking (newSweep 0 0) [] [] false]) w).

(** [true] when the start has to wait. *)
Definition rankBeforeStart (profileID : Z) (r : Reading) (w : World) : bool * World :=
  let justRanked := rankedFor_ w =? profileID in
  let w := set_rankedFor_ (-1) w in
  if negb (isSelector (entNow r)) || (0 <? rankingInFlight_ w) || justRanked then (false, w)
  else let plan := fst (planOf (repos r) (time1 r) (time2 r) (entNow r)) in
       if negb (isEmpty (error plan)) || negb (needsRanking plan) then (false, w)
       else (true, addJob BeforeStart profileID w).

Definition startRanked (profileID : Z) (start : Act) (m : Moment) (w : World) : World :=
  let w := act start (set_rankedFor_ profileID w) in
  let w := match reenters m with Some (p, r) => snd (rankBeforeStart p r w) | None => w end in
  set_rankedFor_ (-1) w.

(** The start that waited goes on: the one of the start path as it is, the rebuild of a
    pool if its profile still runs. *)
Definition resume (j : nat) (b : Job) (m : Moment) (w : World) : World :=
  match cause b with
  | BeforeStart => startRanked (ent b) (Resumed j) m w
  | Exhausted =>
      let w := act (Resumed j) w in
      if bool_decide (running m = Some (ent b)) then startRanked (ent b) (StartRequest (ent b)) m w else w
  end.

Definition finishEarlySweep (m : Moment) (j : nat) (w : World) : World :=
  if connecting m then set_settling (settling w ++ [j]) w
  else match jobs w !! j with Some b => putJob j (set_phase Rechecking b) w | None => w end.

Definition onStateChanged (m : Moment) (w : World) : World :=
  if connecting m then w
  else fold_left (fun w j => finishEarlySweep m j w) (settling w) (set_settling [] w).

Definition onPoolExhausted (profileID : Z) (known : bool) (runningID : option Z) (w : World) : World :=
  if known && bool_decide (runningID = Some profileID) then addJob Exhausted profileID w else w.

Definition runTask (t : Task) (m : Moment) (w : World) : World :=
  match t with
  | StartEarly j => match jobs w !! j with Some b => resume j b m w | None => w end
  | RankEnded j early =>
      let w := set_rankingInFlight_ (rankingInFlight_ w - 1) w in
      if early then finishEarlySweep m j w
      else match jobs w !! j with Some b => resume j b m w | None => w end
  | Rebuild j changed =>
      match jobs w !! j with
      | Some b => if changed && isRunning m && bool_decide (running m = Some (ent b))
                  then startRanked (ent b) (StartRequest (ent b)) m w else w
      | None => w
      end
  end.

Definition mainStep (m : Moment) (w : World) : World :=
  match queue w with [] => w | t :: q => runTask t m (set_queue q w) end.

(** ** The thread of a job *)

Definition rerank (j : nat) (r : Reading) (untrusted : list Z) (w : World) : World :=
  act (Reranked j (fst (rerankedPool (repos r) (time1 r) (time2 r) (time3 r) (entNow r) untrusted))) w.

Definition returnRank (j : nat) (early : bool) (b : Job) (w : World) : World :=
  post (RankEnded j early) (putJob j (set_phase Ended b) w).

Definition lastBuiltOf (e : option Profile) : list Z :=
  match e with Some p => match selectorOf p with Some s => lastBuilt s | None => [] end | None => [] end.

Definition rankThread (j : nat) (b : Job) (r : Reading) (w : World) : World :=
  if negb (isSelector (entNow r)) then returnRank j false b w
  else
    let stale := match cause b with BeforeStart => [] | Exhausted => lastBuiltOf (entNow r) end in
    let '(need, before, _) := unmeasured (repos r) (time1 r) (time2 r) (entNow r) stale in
    if isEmpty need then returnRank j false b (rerank j r [] w)
    else putJob j (set_phase Testing (set_sweep (newSweep before (AutoSelectorStartQuorum (entNow r)))
                     (set_needed need (set_stale stale b)))) w.

(** A wake-up of the loop; without one the thread is blocked. *)
Definition awake (j : nat) (b : Job) (w : World) : World :=
  let s := sweep b in
  match wake s with
  | O => w
  | S n =>
      let s := MkSweep n (measured s) (working s) (workingBefore s) (quorum s) (quorumMet s) (done_ s) in
      let b := set_sweep s b in
      if done_ s then
        if startedEarly b then returnRank j true b w else putJob j (set_phase Reranking b) w
      else if startedEarly b || negb (quorumMet s) then putJob j b w
      else
        let untrusted := List.filter (fun i => negb (bool_decide (i ∈ measured s))) (stale b) in
        putJob j (set_phase (StartingEarly untrusted) (set_startedEarly true b)) w
  end.

Definition threadStep (j : nat) (r : Reading) (w : World) : World :=
  match jobs w !! j with
  | None => w
  | Some b =>
      match phase b with
      | Ranking => rankThread j b r w
      | Testing => w
      | Waiting => awake j b w
      | StartingEarly untrusted => post (StartEarly j) (putJob j (set_phase Waiting b) (rerank j r untrusted w))
      | Reranking => returnRank j false b (rerank j r [] w)
      | Ended => w
      | Rechecking =>
          let changed := buildChanged (repos r) (time1 r) (time2 r) (time3 r) (entNow r) in
          post (Rebuild j changed) (putJob j (set_phase Rechecked b) (rerank j r [] w))
      | Rechecked => w
      end
  end.

(** ** The tests *)

(** Between the call of the tests and the end of the thread's wait, and after it: a late
    result may still come. *)
Definition testsBegan (p : Phase) : bool := match p with Ranking => false | _ => true end.

Definition meetQuorum (s : AutoSelectorSweep) : AutoSelectorSweep :=
  if quorumMet s || negb (reachedQuorum s) then s
  else MkSweep (S (wake s)) (measured s) (working s) (workingBefore s) (quorum s) true (done_ s).

Definition onResult (member : Z) (works : bool) (s : AutoSelectorSweep) : AutoSelectorSweep :=
  meetQuorum (MkSweep (wake s) ({[member]} ∪ measured s)
    (if works then {[member]} ∪ working s else working s ∖ {[member]})
    (workingBefore s) (quorum s) (quorumMet s) (done_ s)).

Definition onFinished (s : AutoSelectorSweep) : AutoSelectorSweep :=
  MkSweep (S (wake s)) (measured s) (working s) (workingBefore s) (quorum s) (quorumMet s) true.

Definition onJob (j : nat) (f : Job -> Job) (w : World) : World :=
  match jobs w !! j with Some b => putJob j (f b) w | None => w end.

(** The runner's side: it refuses, with the end reported at once, or accepts; then it
    reports results, and the end once. *)
Definition testsRefused (b : Job) : Job :=
  if bool_decide (phase b = Testing) && negb (done_ (sweep b))
  then set_phase Waiting (set_sweep (onFinished (sweep b)) b) else b.
Definition testsAccepted (b : Job) : Job :=
  if bool_decide (phase b = Testing) then set_phase Waiting (set_sweep (meetQuorum (sweep b)) b) else b.
Definition testsResult (member : Z) (works : bool) (b : Job) : Job :=
  if testsBegan (phase b) then set_sweep (onResult member works (sweep b)) b else b.
Definition testsFinished (b : Job) : Job :=
  if testsBegan (phase b) && negb (done_ (sweep b)) then set_sweep (onFinished (sweep b)) b else b.

(** ** A subscription that changed *)

Definition set_lastBuilt (v : list Z) (s : autoSelector) : autoSelector := ltac:(setter selectorEta lastBuilt v s).
Definition set_lastBuiltAt (v : Z) (s : autoSelector) : autoSelector := ltac:(setter selectorEta lastBuiltAt v s).

Definition Tracks (gid : Z) (s : autoSelector) : bool := bool_decide (gid ∈ gids s).

(** A selector that tracks the group loses the members that are gone. *)
Definition prune (profiles : gmap Z Profile) (s : autoSelector) : autoSelector :=
  let exists_ := fun i => bool_decide (is_Some (profiles !! i)) in
  set_lastBuilt (List.filter exists_ (lastBuilt s)) (set_pool (List.filter exists_ (pool s)) s).

(** One selector: the profiles after it and whether the running one has to be rebuilt. *)
Definition pruneOne (gid : Z) (disturbed : list Z) (runningID : option Z) (st : gmap Z Profile * option Z * World) (i : Z)
    : gmap Z Profile * option Z * World :=
  let '(profiles, restart, w) := st in
  match profiles !! i with
  | None => st
  | Some p =>
      match selectorOf p with
      | None => st
      | Some s =>
          if negb (Tracks gid s) then st
          else
            let s' := prune profiles s in
            let prunedPool := (length (pool s') <? length (pool s))%nat in
            let prunedBuilt := (length (lastBuilt s') <? length (lastBuilt s))%nat in
            let profiles := <[i := withSelector p s']> profiles in
            let w := if prunedPool || prunedBuilt then act (SaveProfile i) w else w in
            if bool_decide (runningID = Some (profileId p)) then
              if prunedBuilt || existsb (fun m => bool_decide (m ∈ disturbed)) (lastBuilt s')
              then (profiles, Some (profileId p), w) else (profiles, restart, w)
            else (profiles, restart, w)
      end
  end.

Definition onSubscriptionGroupChanged (gid : Z) (disturbed : list Z) (runningID : option Z) (selectors : list Z)
    (profiles : gmap Z Profile) (w : World) : gmap Z Profile * World :=
  if gid <? 0 then (profiles, w)
  else
    let '(profiles, restart, w) := fold_left (pruneOne gid disturbed runningID) selectors (profiles, None, w) in
    match restart with
    | Some i => (profiles, if i <? 0 then w else act (StartRequest i) w)
    | None => (profiles, w)
    end.

(** ** Events *)

Inductive Event :=
| EStartPath (profileID : Z) (r : Reading)
| EPoolExhausted (profileID : Z) (known : bool) (runningID : option Z)
| EMain (m : Moment)
| EStateChanged (m : Moment)
| EThread (j : nat) (r : Reading)
| ETestsRefused (j : nat)
| ETestsAccepted (j : nat)
| ETestsResult (j : nat) (member : Z) (now : Z) (e m : option Profile)
| ETestsFinished (j : nat)
| EGroupChanged (gid : Z) (disturbed : list Z) (runningID : option Z) (selectors : list Z) (profiles : gmap Z Profile).

Definition step (w : World) (e : Event) : World :=
  match e with
  | EStartPath i r => snd (rankBeforeStart i r w)
  | EPoolExhausted i known runningID => onPoolExhausted i known runningID w
  | EMain m => mainStep m w
  | EStateChanged m => onStateChanged m w
  | EThread j r => threadStep j r w
  | ETestsRefused j => onJob j testsRefused w
  | ETestsAccepted j => onJob j testsAccepted w
  | ETestsResult j member now e m => onJob j (testsResult member (AutoSelectorMemberWorks now e m)) w
  | ETestsFinished j => onJob j testsFinished w
  | EGroupChanged gid disturbed runningID selectors profiles =>
      snd (onSubscriptionGroupChanged gid disturbed runningID selectors profiles w)
  end.

Definition run (w : World) (es : list Event) : World := fold_left step es w.
End Controller.
