(* ===== verification/AutoSelectorResume.v ===== *)
(** * A start that waits for its ranking goes on exactly once

    [Fated] is the invariant of the ranking threads: the calls that let a start go
    on, made, posted or still owed by its thread, are exactly one; and a thread
    that waits is woken once there is something to see. *)

From Stdlib Require Import Ascii String.
From S2P Require Import Prelude QtText Json Logs AutoSelector AutoSelectorPlan AutoSelectorSweeps.

Local Open Scope Z_scope.
#[local] Set Warnings "-register-all".

(** Calls that let the start of job [j] go on, made or posted. *)
Definition isResumed (j : nat) (a : Act) : bool := match a with Resumed i => bool_decide (i = j) | _ => false end.
Definition resumeTask (j : nat) (t : Task) : bool :=
  match t with StartEarly i | RankEnded i false => bool_decide (i = j) | _ => false end.
Definition isRankEnded (t : Task) : bool := match t with RankEnded _ _ => true | _ => false end.
Definition calls (j : nat) (w : World) : Z := times (isResumed j) (acts w) + times (resumeTask j) (queue w).

(** Whether the thread of a job still has to see to it. *)
Definition owed (b : Job) : Z :=
  match phase b with
  | Ranking | Testing | Reranking => 1
  | Waiting | StartingEarly _ => if startedEarly b then match phase b with StartingEarly _ => 1 | _ => 0 end else 1
  | Ended | Rechecking | Rechecked => 0
  end.
Definition inRank (b : Job) : bool := match phase b with Ended | Rechecking | Rechecked => false | _ => true end.

Record Roused (b : Job) : Prop := {
  not_early : startedEarly b = true -> match phase b with Ranking | Testing | Reranking => False | _ => True end;
  early_marked u : phase b = StartingEarly u -> startedEarly b = true;
  end_seen : done_ (sweep b) = true ->
    match phase b with Ranking => False | Testing | Waiting | StartingEarly _ => (0 < wake (sweep b))%nat | _ => True end;
  quorum_seen : quorumMet (sweep b) = true -> startedEarly b = false ->
    match phase b with Testing | Waiting => (0 < wake (sweep b))%nat | _ => True end }.

Record Fated (w : World) : Prop := {
  one_call j b : jobs w !! j = Some b -> calls j w + owed b = 1;
  no_call j : jobs w !! j = None -> calls j w = 0;
  roused j b : jobs w !! j = Some b -> Roused b;
  in_flight : rankingInFlight_ w = times inRank (jobs w) + times isRankEnded (queue w);
  over j e : j ∈ settling w \/ RankEnded j e ∈ queue w -> exists b, jobs w !! j = Some b /\ inRank b = false }.

Section Controller.
Context (toUpper : qstring -> qstring) (regexValid : qstring -> bool) (regexMatches : qstring -> qstring -> bool)
  (QString2QJsonObject : qstring -> QJsonObject).
Abbreviation rankBeforeStart := (rankBeforeStart toUpper regexValid regexMatches QString2QJsonObject).
Abbreviation startRanked := (startRanked toUpper regexValid regexMatches QString2QJsonObject).
Abbreviation resume := (resume toUpper regexValid regexMatches QString2QJsonObject).
Abbreviation runTask := (runTask toUpper regexValid regexMatches QString2QJsonObject).
Abbreviation mainStep := (mainStep toUpper regexValid regexMatches QString2QJsonObject).
Abbreviation threadStep := (threadStep toUpper regexValid regexMatches QString2QJsonObject).
Abbreviation step := (step toUpper regexValid regexMatches QString2QJsonObject).
Abbreviation run := (run toUpper regexValid regexMatches QString2QJsonObject).

(** ** What keeps it *)

Lemma same_fated w w' l : jobs w' = jobs w -> queue w' = queue w -> rankingInFlight_ w' = rankingInFlight_ w ->
  settling w' = settling w -> acts w' = acts w ++ l -> Forall (fun a => match a with Resumed _ => False | _ => True end) l -> Fated w -> Fated w'.
Proof.
  intros Ej Eq Ef Es Ea Hl [H1 H2 H3 H4 H5].
  assert (Hc : forall j, calls j w' = calls j w).
  { intros j. unfold calls. rewrite Eq, Ea. clear Ea. induction l as [|a l IH] using rev_ind; [by rewrite app_nil_r|].
    apply Forall_app in Hl as [Hl Ha]. apply Forall_cons_1 in Ha as [Ha _]. rewrite app_assoc, times_snoc.
    specialize (IH Hl). destruct a; cbn [isResumed]; done || lia. }
  split; intros; rewrite ?Hc, ?Ej, ?Eq, ?Ef, ?Es in *; eauto.
Qed.

Lemma put_fated j b b' w : jobs w !! j = Some b -> Roused b' -> owed b' = owed b -> inRank b' = inRank b ->
  Fated w -> Fated (putJob j b' w).
Proof.
  intros Hb Hr Ho Hi [H1 H2 H3 H4 H5]. unfold putJob.
  assert (Hl : forall i c, <[j := b']> (jobs w) !! i = Some c -> (i = j /\ c = b') \/ jobs w !! i = Some c).
  { intros i c. destruct (decide (i = j)) as [->|Hn]; [|rewrite list_lookup_insert_ne by done; by right].
    rewrite list_lookup_insert_eq by (by eapply lookup_lt_Some). intros [= <-]. by left. }
  split; cbn [jobs queue acts rankingInFlight_ set_jobs].
  - intros i c [[-> ->]|Hc]%Hl; [rewrite Ho; by apply H1 | by apply H1].
  - intros i Hc. apply H2. apply lookup_ge_None. apply lookup_ge_None in Hc. by rewrite length_insert in Hc.
  - intros i c [[-> ->]|Hc]%Hl; [done | by eapply H3].
  - rewrite (times_insert inRank (jobs w) j b b' Hb), Hi, H4. lia.
  - intros i e Hs. destruct (H5 i e Hs) as (c & Hc & Hn). destruct (decide (i = j)) as [->|].
    + exists b'. rewrite list_lookup_insert_eq by (by eapply lookup_lt_Some). split; [done|]. rewrite Hi. by simplify_eq.
    + exists c. by rewrite list_lookup_insert_ne.
Qed.

Lemma calls_post j t w : calls j (post t w) = calls j w + (if resumeTask j t then 1 else 0).
Proof. unfold calls, post. cbn [acts queue set_queue]. rewrite times_snoc. lia. Qed.
Lemma calls_act j a w : calls j (act a w) = calls j w + (if isResumed j a then 1 else 0).
Proof. unfold calls, act. cbn [acts queue set_acts]. rewrite times_snoc. lia. Qed.

(** A thread pays what it owes by posting the call. *)
Lemma paid_fated j b b' t w : jobs w !! j = Some b -> Roused b' ->
  owed b' + (if resumeTask j t then 1 else 0) = owed b -> (forall i, i <> j -> resumeTask i t = false) ->
  (forall i e, t = RankEnded i e -> i = j) ->
  (if inRank b' then 1 else 0) + (if isRankEnded t then 1 else 0) = (if inRank b then 1 else 0) ->
  Fated w -> Fated (post t (putJob j b' w)).
Proof.
  intros Hb Hr Ho Ht He Hi [H1 H2 H3 H4 H5].
  assert (Hc : forall i, calls i (post t (putJob j b' w)) = calls i w + (if resumeTask i t then 1 else 0)) by (intros i; by rewrite calls_post).
  assert (Hl : forall i c, <[j := b']> (jobs w) !! i = Some c -> (i = j /\ c = b') \/ (i <> j /\ jobs w !! i = Some c)).
  { intros i c. destruct (decide (i = j)) as [->|Hn]; [|rewrite list_lookup_insert_ne by done; by right].
    rewrite list_lookup_insert_eq by (by eapply lookup_lt_Some). intros [= <-]. by left. }
  split; rewrite ?Hc; cbn [post putJob jobs queue acts rankingInFlight_ set_jobs set_queue].
  - intros i c Hic. rewrite Hc. destruct (Hl i c Hic) as [[-> ->]|[Hn Hi']].
    + specialize (H1 j b Hb). lia.
    + rewrite (Ht i Hn). specialize (H1 i c Hi'). lia.
  - intros i Hic. rewrite Hc. assert (jobs w !! i = None) as Hn.
    { apply lookup_ge_None. apply lookup_ge_None in Hic. by rewrite length_insert in Hic. }
    rewrite (Ht i); [by rewrite (H2 i Hn)|]. intros ->. by rewrite Hb in Hn.
  - intros i c [[-> ->]|[_ Hc']]%Hl; [done | by eapply H3].
  - rewrite times_snoc, (times_insert inRank (jobs w) j b b' Hb), H4. lia.
  - assert (Hj : inRank b = false \/ isRankEnded t = true -> exists c, <[j := b']> (jobs w) !! j = Some c /\ inRank c = false).
    { intros Hor. exists b'. rewrite list_lookup_insert_eq by (by eapply lookup_lt_Some). split; [done|].
      destruct Hor as [E|E]; rewrite E in Hi; destruct (inRank b'), (inRank b), (isRankEnded t); done. }
    assert (Hold : forall i e, i ∈ settling w \/ RankEnded i e ∈ queue w -> exists c, <[j := b']> (jobs w) !! i = Some c /\ inRank c = false).
    { intros i e Hs. destruct (H5 i e Hs) as (c & Hic & Hn). destruct (decide (i = j)) as [->|]; [apply Hj; left; congruence|].
      exists c. by rewrite list_lookup_insert_ne. }
    intros i e [Hs|[Hs|Hs%list_elem_of_singleton]%elem_of_app]; [by apply (Hold i e); left | by apply (Hold i e); right|].
    rewrite (He i e (eq_sym Hs)). apply Hj. right. by rewrite <- Hs.
Qed.

Lemma added_fated c p w : Fated w -> Fated (addJob c p w).
Proof.
  intros [H1 H2 H3 H4 H5]. unfold addJob. set (b := MkJob c p Ranking (newSweep 0 0) [] [] false).
  assert (Hl : forall i d, (jobs w ++ [b]) !! i = Some d -> (jobs w !! i = None /\ d = b) \/ jobs w !! i = Some d).
  { intros i d [H|[Hn [_ H]%list_lookup_singleton_Some]]%lookup_app_Some; [by right | left; by rewrite lookup_ge_None]. }
  split; cbn [jobs queue acts rankingInFlight_ set_jobs set_rankingInFlight_].
  - intros i d [[Hn ->]|Hd]%Hl; [unfold calls in *; specialize (H2 i Hn); cbn [acts queue]; cbn; lia | by apply H1].
  - intros i Hn. apply H2. rewrite lookup_app in Hn. by destruct (jobs w !! i).
  - intros i d [[_ ->]|Hd]%Hl; [by split | by eapply H3].
  - rewrite times_snoc, H4. cbn [inRank phase b]. lia.
  - intros i e Hs. destruct (H5 i e Hs) as (d & Hd & Hn). exists d. by rewrite lookup_app_l by (by eapply lookup_lt_Some).
Qed.

(** ** The main thread *)

Lemma quiet_fated w w' : jobs w' = jobs w -> queue w' = queue w -> rankingInFlight_ w' = rankingInFlight_ w ->
  settling w' = settling w -> acts w' = acts w ->
  Fated w -> Fated w'.
Proof. intros E1 E2 E3 E4 E5. apply (same_fated w w' []); [done..|by rewrite app_nil_r|done]. Qed.

Lemma start_fated p r w : Fated w -> Fated (snd (rankBeforeStart p r w)).
Proof.
  intros Hw. assert (H1 : Fated (set_rankedFor_ (-1) w)) by (by apply (quiet_fated w)). unfold rankBeforeStart.
  case_match; [done|]. cbn zeta. case_match; [done|]. by apply added_fated.
Qed.

Lemma startRanked_fated p a m w : Fated (act a w) -> Fated (startRanked p a m w).
Proof.
  intros Hw. unfold startRanked, AutoSelectorSweeps.startRanked. cbn zeta.
  match goal with |- Fated (set_rankedFor_ _ ?v) => apply (quiet_fated v); [done..|] end.
  assert (H1 : Fated (act a (set_rankedFor_ p w))) by (by apply (quiet_fated (act a w))).
  destruct (reenters m) as [[q r]|]; [by apply start_fated | done].
Qed.

Lemma request_fated p w : Fated w -> Fated (act (StartRequest p) w).
Proof. intros Hw. apply (same_fated w _ [StartRequest p]); [done..|by apply Forall_singleton|done]. Qed.

Lemma resume_fated j b m w : Fated (act (Resumed j) w) -> Fated (resume j b m w).
Proof.
  intros Hw. unfold resume, AutoSelectorSweeps.resume. destruct (cause b); [by apply startRanked_fated|].
  cbn zeta. case_match; [|done]. by apply startRanked_fated, request_fated.
Qed.

Lemma settled_fated j w : (exists b, jobs w !! j = Some b /\ inRank b = false) -> Fated w -> Fated (set_settling (settling w ++ [j]) w).
Proof.
  intros Hj [H1 H2 H3 H4 H5]. split; try done. intros i e [[Hs|Hs%list_elem_of_singleton]%elem_of_app|Hs].
  - apply (H5 i e). by left.
  - by subst.
  - apply (H5 i e). by right.
Qed.

Lemma finish_fated m j w : (exists b, jobs w !! j = Some b /\ inRank b = false) -> Fated w -> Fated (finishEarlySweep m j w).
Proof.
  intros Hj Hw. unfold finishEarlySweep. case_match; [by apply settled_fated|]. destruct Hj as (b & Hb & Hi). rewrite Hb.
  pose proof (roused w Hw j b Hb) as [R1 R2 R3 R4].
  assert (Ho : owed b = 0) by (unfold owed; unfold inRank in Hi; by destruct (phase b)).
  apply (put_fated j b); try done; by split.
Qed.

(** The head of the queue is run. *)
Lemma popped_fated t q w : queue w = t :: q -> isRankEnded t = true -> (forall j, resumeTask j t = false) ->
  Fated w -> Fated (set_rankingInFlight_ (rankingInFlight_ w - 1) (set_queue q w)).
Proof.
  intros Eq Ht Hn [H1 H2 H3 H4 H5].
  set (w' := set_rankingInFlight_ _ _). assert (Hc : forall j, calls j w' = calls j w).
  { intros j. unfold calls, w'. cbn [acts queue set_rankingInFlight_ set_queue]. rewrite Eq, times_cons, (Hn j). lia. }
  split; try done.
  - intros j b Hb. rewrite Hc. by apply H1.
  - intros j Hj. rewrite Hc. by apply H2.
  - cbn. rewrite H4, Eq, times_cons, Ht. lia.
  - intros j e [Hs|Hs]; [apply (H5 j e); by left | apply (H5 j e); right; rewrite Eq; by apply list_elem_of_further].
Qed.

Lemma called_fated j t q w : queue w = t :: q -> resumeTask j t = true -> (forall i, i <> j -> resumeTask i t = false) ->
  Fated w -> Fated (act (Resumed j) (set_rankingInFlight_ (rankingInFlight_ w - (if isRankEnded t then 1 else 0)) (set_queue q w))).
Proof.
  intros Eq Ht Hn [H1 H2 H3 H4 H5].
  set (w' := act _ _). assert (Hc : forall i, calls i w' = calls i w).
  { intros i. unfold calls, w'. cbn [acts queue act set_acts set_rankingInFlight_ set_queue]. rewrite Eq, times_snoc, times_cons.
    cbn [isResumed]. destruct (decide (i = j)) as [->|E]; [rewrite Ht, bool_decide_true by done; lia|].
    rewrite (Hn i E), bool_decide_false by done. lia. }
  split; try done.
  - intros i b Hb. rewrite Hc. by apply H1.
  - intros i Hi. rewrite Hc. by apply H2.
  - cbn. rewrite H4, Eq, times_cons. lia.
  - intros i e [Hs|Hs]; [apply (H5 i e); by left | apply (H5 i e); right; rewrite Eq; by apply list_elem_of_further].
Qed.

Lemma quietPop_fated t q w : queue w = t :: q -> isRankEnded t = false -> (forall j, resumeTask j t = false) ->
  Fated w -> Fated (set_queue q w).
Proof.
  intros Eq Ht Hn [H1 H2 H3 H4 H5].
  assert (Hc : forall j, calls j (set_queue q w) = calls j w).
  { intros j. unfold calls. cbn [acts queue set_queue]. rewrite Eq, times_cons, (Hn j). lia. }
  split; cbn [jobs queue acts settling rankingInFlight_ set_queue]; try done.
  - intros j b Hb. rewrite Hc. by apply H1.
  - intros j Hj. rewrite Hc. by apply H2.
  - rewrite H4, Eq, times_cons, Ht. lia.
  - intros j e [Hs|Hs]; [apply (H5 j e); by left | apply (H5 j e); right; rewrite Eq; by apply list_elem_of_further].
Qed.

(** A job whose call is posted exists. *)
Lemma posted_known j t q w : queue w = t :: q -> resumeTask j t = true -> Fated w -> exists b, jobs w !! j = Some b.
Proof.
  intros Eq Ht [_ H2 _ _ _]. destruct (jobs w !! j) as [b|] eqn:Hb; [by exists b|]. specialize (H2 j Hb). unfold calls in H2.
  rewrite Eq, times_cons, Ht in H2. pose proof (times_nonneg (isResumed j) (acts w)). pose proof (times_nonneg (resumeTask j) q). lia.
Qed.

Lemma main_fated m w : Fated w -> Fated (mainStep m w).
Proof.
  intros Hw. unfold mainStep, AutoSelectorSweeps.mainStep. destruct (queue w) as [|t q] eqn:Eq; [done|].
  destruct t as [j|j early|j changed]; cbn [AutoSelectorSweeps.runTask].
  - assert (Hj : resumeTask j (StartEarly j) = true) by (by apply bool_decide_true).
    destruct (posted_known j _ q w Eq Hj Hw) as [b Hb]. cbn [jobs set_queue]. rewrite Hb. apply resume_fated.
    assert (H := called_fated j (StartEarly j) q w Eq Hj (fun i Hi => bool_decide_false _ (not_eq_sym Hi)) Hw).
    cbn [isRankEnded] in H. by apply (quiet_fated _ (act (Resumed j) (set_queue q w))) in H; [|cbn; rewrite ?Z.sub_0_r..].
  - cbn zeta. destruct early.
    + assert (H := popped_fated _ q w Eq eq_refl (fun _ => eq_refl) Hw). apply finish_fated; [|done].
      cbn. apply (over w Hw j true). right. rewrite Eq. by apply list_elem_of_here.
    + assert (Hj : resumeTask j (RankEnded j false) = true) by (by apply bool_decide_true).
      destruct (posted_known j _ q w Eq Hj Hw) as [b Hb]. cbn [jobs set_rankingInFlight_ set_queue]. rewrite Hb. apply resume_fated.
      exact (called_fated j (RankEnded j false) q w Eq Hj (fun i Hi => bool_decide_false _ (not_eq_sym Hi)) Hw).
  - assert (H := quietPop_fated _ q w Eq eq_refl (fun _ => eq_refl) Hw). repeat case_match; try done.
    by apply startRanked_fated, request_fated.
Qed.

(** ** The threads and the tests *)

Lemma rerank_fated j r u w : Fated w -> Fated (rerank toUpper regexValid regexMatches QString2QJsonObject j r u w).
Proof.
  unfold rerank. generalize (AutoSelectorPlan.RerankAutoSelectorPool toUpper regexValid regexMatches QString2QJsonObject (repos r) (time1 r) (time2 r) (time3 r) (entNow r) u).1.
  intros p. apply (same_fated w _ [Reranked j p]); [done..|by apply Forall_singleton].
Qed.

Lemma returned_fated j b (early : bool) w : jobs w !! j = Some b -> owed b = (if early then 0 else 1) -> inRank b = true ->
  Roused b -> Fated w -> Fated (returnRank j early b w).
Proof.
  intros Hb Ho Hi [R1 R2 R3 R4] Hw. apply (paid_fated j b); [done|by split|..|done].
  - rewrite Ho. unfold owed. cbn [phase set_phase]. destruct early; cbn [resumeTask]; [done|]. by rewrite bool_decide_true.
  - intros i Hn. destruct early; [done|]. cbn [resumeTask]. by rewrite bool_decide_false.
  - by intros i e [= -> _].
  - by rewrite Hi.
Qed.

Lemma rank_fated j b r w : jobs w !! j = Some b -> phase b = Ranking -> Fated w ->
  Fated (rankThread toUpper regexValid regexMatches QString2QJsonObject j b r w).
Proof.
  intros Hb Hp Hw. pose proof (roused w Hw j b Hb) as R. pose proof R as [R1 R2 R3 R4].
  assert (Ho : owed b = 1) by (unfold owed; by rewrite Hp). assert (Hi : inRank b = true) by (unfold inRank; by rewrite Hp).
  assert (He : startedEarly b = false) by (destruct (startedEarly b) eqn:E; [by specialize (R1 eq_refl); rewrite Hp in R1 | done]).
  unfold rankThread. destruct (negb (isSelector _)); [by apply returned_fated|]. cbn zeta.
  destruct (AutoSelectorPlan.AutoSelectorUnmeasuredCandidates _ _ _ _ _ _ _ _ _) as [[need before] e].
  destruct (isEmpty need); [by apply returned_fated; [| | | |apply rerank_fated]|].
  apply (put_fated j b); try done; by split; cbn; rewrite ?He.
Qed.

Lemma awake_fated j b w : jobs w !! j = Some b -> phase b = Waiting -> Fated w -> Fated (awake j b w).
Proof.
  intros Hb Hp Hw. pose proof (roused w Hw j b Hb) as R. pose proof R as [R1 R2 R3 R4]. rewrite Hp in *. unfold awake.
  destruct (wake (sweep b)) as [|n] eqn:Hk; [done|]. cbn zeta. set (s := MkSweep n _ _ _ _ _ _).
  assert (Hi : inRank b = true) by (unfold inRank; by rewrite Hp).
  destruct (done_ s) eqn:Hd.
  - destruct (startedEarly (set_sweep s b)) eqn:He; cbn [startedEarly set_sweep] in He.
    + apply (paid_fated j b); [done|by split| |done| | |done].
      * unfold owed. rewrite Hp. cbn. by rewrite He.
      * by intros i e [= -> _].
      * by rewrite Hi.
    + apply (put_fated j b); [done | by split; cbn; rewrite ?He | unfold owed; rewrite Hp; cbn; by rewrite He | by rewrite Hi | done].
  - assert (Hd' : done_ (sweep b) = true -> False) by (intros E; cbn in Hd; by rewrite Hd in E).
    destruct (startedEarly (set_sweep s b)) eqn:He; cbn [startedEarly set_sweep orb] in He |- *;
      [|cbn [quorumMet s]; destruct (quorumMet (sweep b)) eqn:Hq; cbn [negb]].
    + apply (put_fated j b); try done. split; cbn; rewrite ?Hp, ?He; done.
    + apply (put_fated j b); [done | split; cbn; done | unfold owed; rewrite Hp; cbn; by rewrite He | by rewrite Hi | done].
    + apply (put_fated j b); try done. split; cbn; rewrite ?Hp, ?He, ?Hq; done.
Qed.

Lemma thread_fated j r w : Fated w -> Fated (threadStep j r w).
Proof.
  intros Hw. unfold threadStep, AutoSelectorSweeps.threadStep. destruct (jobs w !! j) as [b|] eqn:Hb; [|done].
  pose proof (roused w Hw j b Hb) as R. pose proof R as [R1 R2 R3 R4].
  destruct (phase b) as [| | |u| | | |] eqn:Hp; try done.
  - by apply rank_fated.
  - by apply awake_fated.
  - apply (paid_fated j b); [done| | | |done| |by apply rerank_fated].
    + split; cbn; try done. by rewrite (R2 u eq_refl).
    + unfold owed. cbn. rewrite Hp, (R2 u eq_refl), bool_decide_true by done. done.
    + intros i Hn. cbn. by rewrite bool_decide_false.
    + unfold inRank. by rewrite Hp.
  - apply returned_fated; [done|unfold owed; by rewrite Hp|unfold inRank; by rewrite Hp|done|by apply rerank_fated].
  - apply (paid_fated j b); [done| | |done|done| |by apply rerank_fated].
    + split; cbn; try done.
    + unfold owed. by rewrite Hp.
    + unfold inRank. by rewrite Hp.
Qed.

Lemma onJob_fated j f w : (forall b, jobs w !! j = Some b -> Roused b -> Roused (f b) /\ owed (f b) = owed b /\ inRank (f b) = inRank b) ->
  Fated w -> Fated (onJob j f w).
Proof.
  intros Hf Hw. unfold onJob. destruct (jobs w !! j) as [b|] eqn:Hb; [|done].
  destruct (Hf b eq_refl (roused w Hw j b Hb)) as (H1 & H2 & H3). by apply (put_fated j b).
Qed.

(** A sweep whose announcements come with their releases. *)
Lemma announced s s' b : Roused b -> sweep b = s -> phase b <> Ranking ->
  (wake s <= wake s')%nat -> (done_ s' = true -> done_ s = true \/ (0 < wake s')%nat) ->
  (quorumMet s' = true -> quorumMet s = true \/ (0 < wake s')%nat) -> Roused (set_sweep s' b).
Proof.
  intros [R1 R2 R3 R4] <- Hp Hk Hd Hq. split; cbn; [done|done| |].
  - intros D. destruct (Hd D) as [D'|]; [specialize (R3 D')|]; destruct (phase b); done || lia.
  - intros D E. destruct (Hq D) as [D'|]; [specialize (R4 D' E)|]; destruct (phase b); done || lia.
Qed.

Lemma meet_wake s : (wake s <= wake (meetQuorum s))%nat /\ done_ (meetQuorum s) = done_ s /\
  (quorumMet (meetQuorum s) = true -> quorumMet s = true \/ (0 < wake (meetQuorum s))%nat).
Proof. unfold meetQuorum. case_match; cbn; (split; [lia|]); (split; [done|]); [intros; by left | intros _; right; lia]. Qed.

Lemma awaits b s : phase b = Testing -> Roused (set_sweep s b) -> Roused b ->
  let b' := set_phase Waiting (set_sweep s b) in Roused b' /\ owed b' = owed b /\ inRank b' = inRank b.
Proof.
  intros Hp [S1 S2 S3 S4] [R1 _ _ _]. cbn in S1, S3, S4. rewrite Hp in *. unfold owed, inRank. cbn. rewrite Hp.
  destruct (startedEarly b) eqn:E; [by specialize (R1 eq_refl)|]. split; [by split; cbn; rewrite ?E | done].
Qed.

Lemma tests_fated j f w : f = testsRefused \/ f = testsAccepted \/ f = testsFinished \/ (exists m works, f = testsResult m works) ->
  Fated w -> Fated (onJob j f w).
Proof.
  intros Hf. apply onJob_fated. intros b _ R.
  assert (Hrest : forall s', Roused (set_sweep s' b) -> Roused (set_sweep s' b) /\ owed (set_sweep s' b) = owed b /\ inRank (set_sweep s' b) = inRank b) by done.
  assert (Hend : phase b <> Ranking -> Roused (set_sweep (onFinished (sweep b)) b)).
  { intros Hp. apply (announced (sweep b)); try done; cbn; [lia | right; lia | by left]. }
  destruct Hf as [-> | [-> | [-> | (m & works & ->)]]].
  - unfold testsRefused. case_bool_decide as Hp; cbn [andb]; [|done]. destruct (negb (done_ (sweep b))); [|done].
    apply awaits; [done | apply Hend; by rewrite Hp | done].
  - unfold testsAccepted. case_bool_decide as Hp; [|done]. destruct (meet_wake (sweep b)) as (K & D & Q).
    apply awaits; [done | | done]. apply (announced (sweep b)); try done; [by rewrite Hp | rewrite D; by left].
  - unfold testsFinished. destruct (testsBegan (phase b)) eqn:Hb; cbn [andb]; [|done]. destruct (negb (done_ (sweep b))); [|done].
    apply Hrest, Hend. intros Hp. by rewrite Hp in Hb.
  - unfold testsResult. destruct (testsBegan (phase b)) eqn:Hb; [|done]. apply Hrest. unfold onResult.
    match goal with |- context [meetQuorum ?s0] => destruct (meet_wake s0) as (K & D & Q) end.
    apply (announced (sweep b)); try done; [intros Hp; by rewrite Hp in Hb | rewrite D; by left].
Qed.

Lemma settle_fated m w : Fated w -> Fated (onStateChanged m w).
Proof.
  intros Hw. unfold onStateChanged. destruct (connecting m) eqn:Em; [done|].
  assert (H0 : Fated (set_settling [] w)).
  { destruct Hw as [H1 H2 H3 H4 H5]. split; try done. intros j e [Hs|Hs]; [by apply elem_of_nil in Hs | apply (H5 j e); by right]. }
  assert (Hl : forall j, j ∈ settling w -> exists b, jobs (set_settling [] w) !! j = Some b /\ inRank b = false).
  { intros j Hj. apply (over w Hw j false). by left. }
  revert Hl H0. generalize (set_settling [] w). induction (settling w) as [|j l IH]; intros v Hl H0; cbn [fold_left]; [done|].
  apply IH; [|apply finish_fated; [apply Hl; by apply list_elem_of_here | done]].
  intros i Hi. destruct (Hl i (list_elem_of_further _ _ _ Hi)) as (b & Hb & Hn). unfold finishEarlySweep. rewrite Em.
  destruct (jobs v !! j) as [c|] eqn:Hc; [|by exists b]. destruct (decide (i = j)) as [->|].
  - exists (set_phase Rechecking c). cbn. by rewrite list_lookup_insert_eq by (by eapply lookup_lt_Some).
  - exists b. cbn. by rewrite list_lookup_insert_ne.
Qed.

Lemma group_fated gid d r sel profiles w : Fated w -> Fated (snd (onSubscriptionGroupChanged gid d r sel profiles w)).
Proof.
  intros Hw. unfold onSubscriptionGroupChanged. case_match; [done|].
  assert (Hl : forall l st, Fated (snd st) -> Fated (snd (fold_left (pruneOne gid d r) l st))).
  { induction l as [|i l IH]; intros [[ps re] v] Hv; cbn [fold_left]; [done|]. apply IH. unfold pruneOne.
    destruct (ps !! i) as [p|]; [|done]. destruct (selectorOf p) as [s|]; [|done]. destruct (negb (Tracks gid s)); [done|]. cbn zeta.
    set (v' := if _ || _ then _ else v). assert (Fated v').
    { unfold v'. case_match; [|done]. apply (same_fated v _ [SaveProfile i]); [done..|by apply Forall_singleton|done]. }
    clearbody v'. by repeat case_match. }
  specialize (Hl sel (profiles, None, w) Hw). destruct (fold_left _ sel _) as [[ps re] v]. cbn [snd] in Hl.
  destruct re as [i|]; [|done]. cbn [snd]. case_match; [done | by apply request_fated].
Qed.

Lemma step_fated e w : Fated w -> Fated (step w e).
Proof.
  intros Hw. destruct e; cbn [AutoSelectorSweeps.step].
  - by apply start_fated.
  - unfold onPoolExhausted. case_match; [by apply added_fated | done].
  - by apply main_fated.
  - by apply settle_fated.
  - by apply thread_fated.
  - apply tests_fated; tauto.
  - apply tests_fated; tauto.
  - apply tests_fated; [|done]. do 3 right. by eexists _, _.
  - apply tests_fated; tauto.
  - by apply group_fated.
Qed.

Lemma run_fated es : forall w, Fated w -> Fated (run w es).
Proof. induction es as [|e es IH]; intros w Hw; [done|]. by apply IH, step_fated. Qed.

Lemma new_fated : Fated newWorld.
Proof. split; try done. intros j e [Hs|Hs]; by apply elem_of_nil in Hs. Qed.

(** ** The queue and the threads drain *)

Definition grows (w w' : World) : Prop := queue w' = queue w /\ jobs w `prefix_of` jobs w'.

Lemma startRanked_grows p a m w : grows w (startRanked p a m w).
Proof.
  unfold startRanked, AutoSelectorSweeps.startRanked. cbn zeta. destruct (reenters m) as [[q r]|]; [|by split].
  unfold AutoSelectorSweeps.rankBeforeStart. case_match; [by split|]. cbn zeta. case_match; [by split|]. split; [done|]. by eexists.
Qed.

Lemma resume_grows j b m w : grows w (resume j b m w).
Proof.
  unfold resume, AutoSelectorSweeps.resume. destruct (cause b); [apply startRanked_grows|]. cbn zeta. case_match; [|by split].
  exact (startRanked_grows _ _ _ (act (Resumed j) w)).
Qed.

Definition isOver (j : nat) (w : World) : Prop := exists b, jobs w !! j = Some b /\ inRank b = false.

Lemma grows_over j w w' : grows w w' -> isOver j w -> isOver j w'.
Proof. intros [_ Hp] (b & Hb & Hn). exists b. split; [by eapply prefix_lookup_Some | done]. Qed.

Lemma main_drains m w j : isOver j w ->
  isOver j (mainStep m w) /\ length (queue (mainStep m w)) = (length (queue w) - 1)%nat.
Proof.
  intros Hj. unfold mainStep, AutoSelectorSweeps.mainStep. destruct (queue w) as [|t q] eqn:Eq; [by rewrite Eq|].
  set (w0 := set_queue q w). assert (H0 : isOver j w0) by done. assert (Hq : length (queue w0) = (length (t :: q) - 1)%nat) by (cbn; lia).
  clearbody w0. rewrite <- Hq. clear Hq Eq Hj.
  assert (G : forall w', grows w0 w' -> isOver j w' /\ length (queue w') = length (queue w0)).
  { intros w' Hg. split; [by eapply grows_over | by destruct Hg as [-> _]]. }
  destruct t as [i|i early|i changed]; cbn [AutoSelectorSweeps.runTask].
  - case_match; [apply G, resume_grows | done].
  - cbn zeta. destruct early; [|case_match; [exact (G _ (resume_grows _ _ _ (set_rankingInFlight_ _ w0))) | done]].
    unfold finishEarlySweep. case_match; [done|]. cbn [jobs set_rankingInFlight_]. destruct (jobs w0 !! i) as [c|] eqn:Hc; [|done].
    split; [|done]. destruct H0 as (b & Hb & Hn). destruct (decide (i = j)) as [->|].
    + exists (set_phase Rechecking c). split; [|done]. cbn. by rewrite list_lookup_insert_eq by (by eapply lookup_lt_Some).
    + exists b. cbn. by rewrite list_lookup_insert_ne.
  - case_match; [|done]. case_match; [apply G, startRanked_grows | done].
Qed.

Lemma drained ms : forall j w, isOver j w -> length ms = length (queue w) ->
  isOver j (run w (map EMain ms)) /\ queue (run w (map EMain ms)) = [].
Proof.
  induction ms as [|m ms IH]; intros j w Hj Hl; cbn in Hl.
  - split; [done|]. cbn. by destruct (queue w).
  - destruct (main_drains m w j Hj) as [H1 H2]. apply IH; [done|]. change (step w (EMain m)) with (mainStep m w). lia.
Qed.

Lemma put_lookup j b c w : jobs w !! j = Some b -> jobs (putJob j c w) !! j = Some c.
Proof. intros Hb. cbn. by rewrite list_lookup_insert_eq by (by eapply lookup_lt_Some). Qed.

Lemma over_stays j r w : isOver j w -> isOver j (threadStep j r w).
Proof.
  intros (b & Hb & Hi). unfold threadStep, AutoSelectorSweeps.threadStep. rewrite Hb. unfold inRank in Hi.
  destruct (phase b) eqn:Hp; try done; [exists b; unfold inRank; by rewrite Hp | | exists b; unfold inRank; by rewrite Hp].
  exists (set_phase Rechecked b). split; [|done]. by eapply (put_lookup j b).
Qed.

Lemma reranking_ends j b r w : jobs w !! j = Some b -> phase b = Reranking -> isOver j (threadStep j r w).
Proof.
  intros Hb Hp. unfold threadStep, AutoSelectorSweeps.threadStep. rewrite Hb, Hp. exists (set_phase Ended b). split; [|done].
  by eapply (put_lookup j b).
Qed.

Lemma early_ends j b r w : jobs w !! j = Some b -> phase b = Waiting -> done_ (sweep b) = true -> (0 < wake (sweep b))%nat ->
  startedEarly b = true -> isOver j (threadStep j r w).
Proof.
  intros Hb Hp Hd Hk He. unfold threadStep, AutoSelectorSweeps.threadStep. rewrite Hb, Hp. unfold awake.
  destruct (wake (sweep b)) as [|n]; [lia|]. cbn [done_ set_sweep startedEarly]. rewrite Hd, He.
  eexists. split; [by eapply (put_lookup j b)|done].
Qed.

(** Once the tests have ended and their call has returned, two more pieces of its thread
    are enough. *)
Lemma thread_ends j b r1 r2 w : Fated w -> jobs w !! j = Some b -> done_ (sweep b) = true -> phase b <> Testing ->
  isOver j (threadStep j r2 (threadStep j r1 w)).
Proof.
  intros Hw Hb Hd Ht. pose proof (roused w Hw j b Hb) as [R1 R2 R3 R4]. specialize (R3 Hd).
  destruct (phase b) as [| | |u| | | |] eqn:Hp; try done.
  2: { eapply (early_ends j (set_phase Waiting b)); try done; [|by apply (R2 u)].
       unfold threadStep at 1, AutoSelectorSweeps.threadStep. rewrite Hb, Hp. by eapply (put_lookup j b). }
  2: { by eapply over_stays, reranking_ends. }
  2-4: by apply over_stays, over_stays; exists b; unfold inRank; rewrite Hp.
  destruct (startedEarly b) eqn:He; [by eapply over_stays, early_ends|].
  destruct (wake (sweep b)) as [|n] eqn:Hk; [lia|].
  eapply (reranking_ends j); [unfold AutoSelectorSweeps.threadStep; rewrite Hb, Hp; unfold awake; rewrite Hk|].
  - cbn [done_ set_sweep startedEarly]. rewrite Hd, He. by eapply (put_lookup j b).
  - done.
Qed.

(** C19: However results, the end of the tests, the steps of the threads and the main
    thread's calls interleave, the start that waits for a ranking is let go on at most
    once, early or at the end; and once the tests have ended and their call has returned,
    two more steps of its thread and the calls that are then posted let it go on. *)
Theorem start_resumes_once es j b :
  jobs (run newWorld es) !! j = Some b ->
  times (isResumed j) (acts (run newWorld es)) <= 1 /\
  (done_ (sweep b) = true -> phase b <> Testing -> forall r1 r2 ms,
     let w := run newWorld (es ++ [EThread j r1; EThread j r2]) in
     length ms = length (queue w) -> times (isResumed j) (acts (run w (map EMain ms))) = 1).
Proof.
  intros Hb. pose proof (run_fated es newWorld new_fated) as Hw. split.
  - pose proof (one_call _ Hw j b Hb) as H. unfold calls in H. pose proof (times_nonneg (resumeTask j) (queue (run newWorld es))).
    unfold owed in H. destruct (phase b), (startedEarly b); lia.
  - intros Hd Ht r1 r2 ms w Hl. assert (Ho : isOver j w).
    { unfold w, AutoSelectorSweeps.run. rewrite fold_left_app. by apply (thread_ends j b). }
    assert (Hf : Fated w) by apply run_fated, new_fated.
    destruct (drained ms j w Ho Hl) as [(c & Hc & Hn) Hq]. pose proof (one_call _ (run_fated (map EMain ms) w Hf) j c Hc) as H1.
    unfold calls in H1. rewrite Hq in H1. unfold owed in H1. unfold inRank in Hn. change (times (resumeTask j) []) with 0 in H1.
    destruct (phase c); try done; lia.
Qed.
End Controller.

(** ** A start that goes on early *)

Module SweepSample.
(** A selector with room for two of three members, two of them not measured. *)
Definition selector : autoSelector := Normalize (MkSelector [] [0] [] [] true 3 2 1440 [] [] 300 600 15 2 10
  300 0 2 2 true false (qs "rotate") 30 [] 0 (-1) [] 0 []).
Definition ent : Profile := MkProfile 5 (qs "autoselector") 0 0 [] (Some (MkOutbound false false false [] None (Some selector))).
Definition member (i ms : Z) : Profile := MkProfile i (qs "vless") ms 900 [] (Some (MkOutbound false false false [] None None)).
(** What is stored when the member 11 was measured in [ms]. *)
Definition stored (ms : Z) : Repos :=
  MkRepos (list_to_map [(10, member 10 80); (11, member 11 ms); (12, member 12 0)]) (list_to_map [(0, MkGroup (-1) (-1) [10; 11; 12])]).
Definition reading : Reading := MkReading (stored 0) (Some ent) 1000 1000 1000.
Definition later : Reading := MkReading (stored 70) (Some ent) 1000 1000 1000.
(** The start that goes on comes back to the ranking, which lets it through. *)
Definition moment : Moment := MkMoment false true (Some 5) (Some (5, reading)).
Abbreviation go := (AutoSelectorSweeps.run (fun s => s) (fun _ => true) (fun _ _ => true) (fun _ => [])).
Definition course : list Event :=
  [EStartPath 5 reading; EThread 0 reading; ETestsAccepted 0; ETestsResult 0 11 1000 (Some ent) (Some (member 11 70));
   EThread 0 reading; EThread 0 later; EMain moment;
   ETestsResult 0 12 1000 (Some ent) (Some (member 12 (-1))); ETestsFinished 0].
Definition last_ : Job := MkJob BeforeStart 5 Waiting (MkSweep 1 {[11; 12]} {[11]} 1 2 true true) [11; 12] [] true.

Lemma start_resumes_once_witness :
  jobs (go newWorld course) !! 0%nat = Some last_ /\ acts (go newWorld course) = [Reranked 0 [11; 10; 12]; Resumed 0] /\
  let w := go newWorld (course ++ [EThread 0 reading; EThread 0 reading]) in
  times (isResumed 0) (acts (go w (map EMain [moment]))) = 1.
Proof.
  assert (H : jobs (go newWorld course) !! 0%nat = Some last_) by (vm_compute; reflexivity).
  split; [exact H|]. split; [vm_compute; reflexivity|].
  destruct (start_resumes_once (fun s => s) (fun _ => true) (fun _ _ => true) (fun _ => []) course 0 last_ H) as [_ Hl].
  apply (Hl eq_refl); [discriminate | vm_compute; reflexivity].
Defined.
End SweepSample.
