(* ===== verification/KillSwitch.v ===== *)
(** * The kill switch (src/src/sys/KillSwitch.cpp)

    A guard process holds the firewall rules for as long as its input is open.
    [World] is the switch's members, its guard processes, the settings it reads
    and what it did, oldest first. Every member function is a function on
    worlds; what the guards, the timers, the dialogs and other threads do is an
    event with arbitrary arguments. The callbacks of the waiters are recorded
    where they are called. Lines for the diagnostic log only are left out. *)

From Stdlib Require Import Ascii String.
From S2P Require Import Prelude QtText Json Lists.

Local Open Scope Z_scope.
#[local] Set Warnings "-register-all".

(** ** Data *)

Inductive Platform := Windows | Linux | MacOS.
#[export] Instance Platform_eq_dec : EqDecision Platform.
Proof. solve_decision. Defined.

Inductive State := Disabled | Arming | Armed | Failed.
#[export] Instance State_eq_dec : EqDecision State.
Proof. solve_decision. Defined.

Definition kReadyTimeoutMs : Z := 15000.
Definition kCloseGraceMs : Z := 5000.
Definition kRespawnIntervalMs : Z := 30000.

Definition kPrivilege : qstring := qs "privilege".
Definition kUnsupported : qstring := qs "unsupported".
Definition kConfig : qstring := qs "config".
Definition kTampered : qstring := qs "tampered".
Definition kInternal : qstring := qs "internal".
Definition kCrash : qstring := qs "crash".
Definition kTimeout : qstring := qs "timeout".
Definition kOverridden : qstring := qs "overridden".

(** The settings the switch reads. *)
Record Settings := MkSettings {
  kill_switch : bool;
  prepare_exit : bool;
  disable_private_range_bypass : bool;
  vpn_tun_ipv4_cidr : qstring;
  vpn_tun_ipv6_cidr : qstring;
  vpn_l3_bridge : bool;
  extraCorePaths : list qstring }.

Record GuardConfig := MkGuardConfig { json : qstring; extraPaths : list qstring }.

(** [running] is the process, [closing] is set before its exit is expected. *)
Record GuardProcess := MkGuard {
  config : qstring;
  launch : qstring;
  guardPaths : list qstring;
  stderrTail : qstring;
  readyTimer : bool;
  ready : bool;
  closing : bool;
  running : bool }.

(** Whose callback a waiter is: [whenSettled], [whenIdle] or [permitExtraCore]. *)
Inductive Callback := OnSettled (n : Z) | OnIdle (n : Z) | OnPermit (n : Z) (path : qstring).

Record Waiter := MkWaiter { context : Z; bound : bool; idle : bool; callback : Callback }.

Inductive Action :=
| StateChanged (s : State)
| ShowLog (line : qstring)
| Spawned (g : Z) (at_ms : Z) (respawn : bool)
| WriteLaunch (g : Z) (launch : qstring)
| CloseWriteChannel (g : Z)
| StopHard (g : Z) (terminate : bool)
| Called (c : Callback) (armed : bool)
| Permitted (n : Z) (permitted : bool)
| SaveSettings
| ArmRespawnTimer.

Record World := MkWorld {
  state_ : State;
  identityUnsupported_ : bool;
  identityDetail_ : qstring;
  overridden_ : bool;
  active_ : option Z;
  pending_ : option Z;
  failureCode_ : qstring;
  failureMessage_ : qstring;
  lastRespawn_ : option Z;
  waiters_ : list Waiter;
  shutdown_ : bool;
  guards : gmap Z GuardProcess;
  nextGuard : Z;
  settings : Settings;
  apiPort : Z;
  now : Z;
  goneContexts : list Z;
  actions : list Action }.

Definition worldEta (w : World) : World :=
  MkWorld (state_ w) (identityUnsupported_ w) (identityDetail_ w) (overridden_ w) (active_ w) (pending_ w)
    (failureCode_ w) (failureMessage_ w) (lastRespawn_ w) (waiters_ w) (shutdown_ w) (guards w) (nextGuard w)
    (settings w) (apiPort w) (now w) (goneContexts w) (actions w).

Definition set_state_ (v : State) (w : World) : World := ltac:(setter worldEta state_ v w).
Definition set_identityUnsupported_ (v : bool) (w : World) : World := ltac:(setter worldEta identityUnsupported_ v w).
Definition set_identityDetail_ (v : qstring) (w : World) : World := ltac:(setter worldEta identityDetail_ v w).
Definition set_overridden_ (v : bool) (w : World) : World := ltac:(setter worldEta overridden_ v w).
Definition set_active_ (v : option Z) (w : World) : World := ltac:(setter worldEta active_ v w).
Definition set_pending_ (v : option Z) (w : World) : World := ltac:(setter worldEta pending_ v w).
Definition set_failureCode_ (v : qstring) (w : World) : World := ltac:(setter worldEta failureCode_ v w).
Definition set_failureMessage_ (v : qstring) (w : World) : World := ltac:(setter worldEta failureMessage_ v w).
Definition set_lastRespawn_ (v : option Z) (w : World) : World := ltac:(setter worldEta lastRespawn_ v w).
Definition set_waiters_ (v : list Waiter) (w : World) : World := ltac:(setter worldEta waiters_ v w).
Definition set_shutdown_ (v : bool) (w : World) : World := ltac:(setter worldEta shutdown_ v w).
Definition set_guards (v : gmap Z GuardProcess) (w : World) : World := ltac:(setter worldEta guards v w).
Definition set_nextGuard (v : Z) (w : World) : World := ltac:(setter worldEta nextGuard v w).
Definition set_settings (v : Settings) (w : World) : World := ltac:(setter worldEta settings v w).
Definition set_apiPort (v : Z) (w : World) : World := ltac:(setter worldEta apiPort v w).
Definition set_now (v : Z) (w : World) : World := ltac:(setter worldEta now v w).
Definition set_goneContexts (v : list Z) (w : World) : World := ltac:(setter worldEta goneContexts v w).
Definition set_actions (v : list Action) (w : World) : World := ltac:(setter worldEta actions v w).

Definition emit (a : Action) (w : World) : World := set_actions (actions w ++ [a]) w.

Definition guardSet (f : GuardProcess -> GuardProcess) (g : Z) (w : World) : World :=
  match guards w !! g with
  | Some G => set_guards (<[g := f G]> (guards w)) w
  | None => w
  end.
Definition setClosing (G : GuardProcess) : GuardProcess :=
  MkGuard (config G) (launch G) (guardPaths G) (stderrTail G) (readyTimer G) (ready G) true (running G).
Definition stopTimer (G : GuardProcess) : GuardProcess :=
  MkGuard (config G) (launch G) (guardPaths G) (stderrTail G) false (ready G) (closing G) (running G).
Definition setReady (G : GuardProcess) : GuardProcess :=
  MkGuard (config G) (launch G) (guardPaths G) (stderrTail G) (readyTimer G) true (closing G) (running G).
Definition setNotRunning (G : GuardProcess) : GuardProcess :=
  MkGuard (config G) (launch G) (guardPaths G) (stderrTail G) (readyTimer G) (ready G) (closing G) false.
Definition setTail (t : qstring) (G : GuardProcess) : GuardProcess :=
  MkGuard (config G) (launch G) (guardPaths G) t (readyTimer G) (ready G) (closing G) (running G).
Definition deleteGuard (g : Z) (w : World) : World := set_guards (delete g (guards w)) w.

(** A guard that is gone was closed before. *)
Definition isClosing (g : Z) (w : World) : bool :=
  match guards w !! g with Some G => closing G | None => true end.

(** ** Questions *)

Definition isSome {A} (o : option A) : bool := match o with Some _ => true | None => false end.
Definition holds (o : option Z) (g : Z) : bool := bool_decide (o = Some g).
Definition isState (s : State) (w : World) : bool := bool_decide (state_ w = s).
Definition sameText (a b : qstring) : bool := bool_decide (a = b).

Definition allowsStart (w : World) : bool := isState Disabled w || isState Armed w.
Definition failedForPrivileges (w : World) : bool := isState Failed w && sameText (failureCode_ w) kPrivilege.
Definition failedPersistently (w : World) : bool :=
  if negb (isState Failed w) then false
  else sameText (failureCode_ w) kPrivilege || sameText (failureCode_ w) kUnsupported ||
       sameText (failureCode_ w) kConfig || sameText (failureCode_ w) kOverridden.
Definition failedForIdentity (w : World) : bool :=
  isState Failed w && sameText (failureCode_ w) kUnsupported && identityUnsupported_ w &&
  (isSome (active_ w) || isSome (pending_ w)).

(** [QString::section] on single spaces: the first field, and the rest. *)
Definition section0 (line : qstring) : qstring := hd [] (split (ch " "%char) line).
Definition section1 (line : qstring) : qstring := join [ch " "%char] (tl (split (ch " "%char) line)).

(** ** The handlers *)

Section Handlers.
(** The platform, the translations, Qt's string formatting, its JSON text, the
    absolute native form of a path and the case folding of path comparison. *)
Context (platform : Platform) (tr : qstring -> qstring) (arg : qstring -> qstring -> qstring)
  (toJson : QJsonObject -> qstring) (fromJson : qstring -> QJsonObject)
  (absoluteNative : qstring -> qstring) (foldCase : Z -> Z).

Definition killSwitchIdentityMessage (detail : qstring) : qstring :=
  let message := qs "the core cannot adopt the kill-switch group 1950896719 here (it needs CAP_SETGID and that GID mapped in this user namespace); the kill switch keeps blocking traffic, and profiles stay refused until kill_switch is turned off" in
  if negb (isEmpty detail) then message ++ arg (qs "; the core reported: %1") detail else message.

Definition tunName : qstring := if decide (platform = MacOS) then [] else qs "throne-tun".
Definition bridgeName (s : Settings) : qstring :=
  if bool_decide (platform = Linux) && vpn_l3_bridge s then qs "throne-br" else [].

Definition nativePath (path : qstring) : qstring :=
  let t := trimmed path in if isEmpty t then [] else absoluteNative t.
Definition containsPath (paths : list qstring) (native : qstring) : bool :=
  existsb (fun p => equalCI foldCase p native) paths.
Definition listsPath (paths : list qstring) (path : qstring) : bool := containsPath paths (nativePath path).

Definition failureText (w : World) : qstring :=
  let details := fun text : qstring =>
    if negb (isEmpty (failureMessage_ w))
    then text ++ [10; 10] ++ arg (tr (qs "Details: %1")) (failureMessage_ w) else text in
  if sameText (failureCode_ w) kOverridden then failureMessage_ w
  else if sameText (failureCode_ w) kPrivilege then
    details (if decide (platform = Windows) then tr (qs "The kill switch needs Throne to run as administrator.")
             else tr (qs "The kill switch needs the core to have root privileges."))
  else if sameText (failureCode_ w) kUnsupported then
    (if isEmpty (failureMessage_ w) then tr (qs "The kill switch is not supported on this system.") else failureMessage_ w)
  else if sameText (failureCode_ w) kTampered then
    details (tr (qs "Another program removed the kill switch rules or disabled the system firewall."))
  else if sameText (failureCode_ w) kConfig then details (tr (qs "The kill switch rejected its settings."))
  else details (tr (qs "The kill switch process stopped unexpectedly.")).

Definition addExtraPath (paths : list qstring) (path : qstring) : list qstring :=
  let native := nativePath path in
  if negb (isEmpty native) && negb (containsPath paths native) then paths ++ [native] else paths.

Definition buildConfig (w : World) : GuardConfig :=
  let s := settings w in
  let extraPaths := if decide (platform = Windows) then fold_left addExtraPath (extraCorePaths s) [] else [] in
  let object :=
    [(qs "allow_lan", JBool (negb (disable_private_range_bypass s)));
     (qs "tun_name", JString tunName);
     (qs "tun_cidrs", JArray [JString (vpn_tun_ipv4_cidr s); JString (vpn_tun_ipv6_cidr s)]);
     (qs "extra_paths", JArray (map JString extraPaths));
     (qs "bridge_name", JString (bridgeName s));
     (qs "api_port", JInt (apiPort w))] in
  MkGuardConfig (toJson object) extraPaths.

Definition stopHard (g : Z) (w : World) : World := emit (StopHard g (bool_decide (platform = MacOS))) w.

Definition setState (s : State) (w : World) : World :=
  let w := if negb (bool_decide (s = Failed)) then set_failureMessage_ [] (set_failureCode_ [] w) else w in
  if bool_decide (state_ w = s) then w else emit (StateChanged s) (set_state_ s w).

(** A waiter's callback; the one of [permitExtraCore] answers its worker. *)
Definition runCallback (c : Callback) (w : World) : World :=
  let armed := isState Armed w in
  match c with
  | OnPermit n path =>
      emit (Permitted n (armed && match active_ w with
                                  | Some g => match guards w !! g with
                                              | Some G => listsPath (guardPaths G) path
                                              | None => false
                                              end
                                  | None => false
                                  end)) w
  | _ => emit (Called c armed) w
  end.

Definition mustWait (w : World) (x : Waiter) : bool :=
  if idle x then isSome (pending_ w) else isState Arming w.

Definition settleOne (w : World) (x : Waiter) : World :=
  if mustWait w x then set_waiters_ (waiters_ w ++ [x]) w
  else if bound x && bool_decide (context x ∈ goneContexts w) then w
  else runCallback (callback x) w.

Definition settle (w : World) : World := fold_left settleOne (waiters_ w) (set_waiters_ [] w).

Definition fail (code message : qstring) (w : World) : World :=
  let w := set_failureMessage_ message (set_failureCode_ code w) in
  let w := emit (ShowLog (arg (tr (qs "[Kill switch] Not active: %1")) (if isEmpty message then code else message))) w in
  settle (setState Failed w).

Definition failIdentity (w : World) : World :=
  let message := killSwitchIdentityMessage (identityDetail_ w) in
  let w :=
    if negb (isState Failed w) || negb (sameText (failureCode_ w) kUnsupported) ||
       negb (sameText (failureMessage_ w) message)
    then
      let w := set_failureMessage_ message (set_failureCode_ kUnsupported w) in
      let w := emit (ShowLog (arg (arg (qs "[Kill switch] Profiles refused (%1): %2") kUnsupported) message)) w in
      setState Failed w
    else w in
  settle w.

Definition closeGuard (guard : option Z) (w : World) : World :=
  match guard with
  | None => w
  | Some g =>
      match guards w !! g with
      | None => w
      | Some G =>
          if closing G then w
          else
            let w := guardSet stopTimer g (guardSet setClosing g w) in
            if negb (running G) then deleteGuard g w else emit (CloseWriteChannel g) w
      end
  end.

Definition keepStates (config : qstring) : qstring :=
  toJson (jsonSet (fromJson config) (qs "keep_states") (JBool true)).

(** [respawn]: the caller is [protectionLost]. *)
Definition spawn (respawn : bool) (c : GuardConfig) (w : World) : World :=
  let previous := pending_ w in
  let w := closeGuard previous (set_pending_ None w) in
  let g := nextGuard w in
  let launch := if isSome (active_ w) then keepStates (json c) else json c in
  let w := set_nextGuard (g + 1) w in
  let w := set_guards (<[g := MkGuard (json c) launch (extraPaths c) [] true false false true]> (guards w)) w in
  let w := set_pending_ (Some g) w in
  let w := if negb (isSome (active_ w)) && negb (identityUnsupported_ w) then setState Arming w else w in
  emit (Spawned g (now w) respawn) w.

Definition closeBoth (w : World) : World :=
  let pending := pending_ w in
  let w := closeGuard pending (set_pending_ None w) in
  let active := active_ w in
  closeGuard active (set_active_ None w).

Definition overriddenMessage : qstring :=
  qs "turned off for this run by --no-kill-switch (THRONE_KILL_SWITCH); profiles stay refused until kill_switch is turned off".

Definition configIs (g : option Z) (c : GuardConfig) (w : World) : bool :=
  match g with
  | Some g => match guards w !! g with Some G => sameText (config G) (json c) | None => false end
  | None => false
  end.

Definition apply (w : World) : World :=
  if shutdown_ w then w
  else if negb (kill_switch (settings w)) then
    let w := set_identityDetail_ [] (set_identityUnsupported_ false w) in
    let wasOn := negb (isState Disabled w) in
    let w := closeBoth w in
    let w := if wasOn then emit (ShowLog (tr (qs "[Kill switch] Off."))) w else w in
    settle (setState Disabled w)
  else if overridden_ w then
    let w := closeBoth w in
    if isState Failed w && sameText (failureCode_ w) kOverridden && sameText (failureMessage_ w) overriddenMessage
    then settle w
    else fail kOverridden overriddenMessage w
  else
    let w := if identityUnsupported_ w && isState Armed w then failIdentity w else w in
    let c := buildConfig w in
    if configIs (pending_ w) c w then w
    else if configIs (active_ w) c w then
      match pending_ w with
      | Some g => settle (closeGuard (Some g) (set_pending_ None w))
      | None => w
      end
    else spawn false c w.

Definition noteIdentityUnsupported (detail : qstring) (w : World) : World :=
  apply (set_identityUnsupported_ true (set_identityDetail_ detail w)).

Definition setOverride (overridden : bool) (w : World) : World := set_overridden_ overridden w.

(** What [SetApiPort] posts to the switch when the port changed. *)
Definition onApiPort (w : World) : World :=
  if negb (isState Arming w) && negb (isState Armed w) && negb (isSome (active_ w)) && negb (isSome (pending_ w)) then w
  else if prepare_exit (settings w) then w
  else apply w.

Definition whenSettled (ctx : option Z) (c : Callback) (w : World) : World :=
  if negb (isState Arming w) then runCallback c w
  else set_waiters_ (waiters_ w ++ [MkWaiter (default 0 ctx) (isSome ctx) false c]) w.

(** The switch itself, the context of these waiters, is never destroyed. *)
Definition whenIdle (c : Callback) (w : World) : World :=
  match pending_ w with
  | None => runCallback c w
  | Some _ => set_waiters_ (waiters_ w ++ [MkWaiter (-1) true true c]) w
  end.

Definition addExtraCorePath (path : qstring) (w : World) : World :=
  let s := settings w in
  if bool_decide (path ∈ extraCorePaths s) then w
  else emit SaveSettings (set_settings (MkSettings (kill_switch s) (prepare_exit s) (disable_private_range_bypass s)
         (vpn_tun_ipv4_cidr s) (vpn_tun_ipv6_cidr s) (vpn_l3_bridge s) (extraCorePaths s ++ [path])) w).

(** The part of [permitExtraCore] on the thread of the switch. *)
Definition permitExtraCore (n : Z) (path : qstring) (w : World) : World :=
  if negb (bool_decide (platform = Windows)) || isState Disabled w then emit (Permitted n true) w
  else if match active_ w with
          | Some g => match guards w !! g with Some G => listsPath (guardPaths G) path | None => false end
          | None => false
          end
  then emit (Permitted n true) w
  else
    let w := addExtraCorePath path w in
    let w := emit (ShowLog (arg (tr (qs "[Kill switch] Allowing the extra core %1.")) (nativePath path))) w in
    whenIdle (OnPermit n path) (apply w).

(** ** What a guard does *)

Definition armRespawn (w : World) : World := emit ArmRespawnTimer w.

(** The single shot armed when new settings could not be applied. *)
Definition onRespawnTimer (w : World) : World :=
  if shutdown_ w || isSome (pending_ w) || negb (isSome (active_ w)) then w
  else if prepare_exit (settings w) then w
  else apply w.

Definition recoverableCode (code : qstring) : bool :=
  negb (sameText code kPrivilege) && negb (sameText code kUnsupported) && negb (sameText code kConfig).

Definition armFailed (code message : qstring) (w : World) : World :=
  if isSome (active_ w) then
    let w := emit (ShowLog (arg (tr (qs "[Kill switch] The new settings could not be applied, the previous ones stay in force: %1")) message)) w in
    let w := if recoverableCode code then armRespawn w else w in
    settle w
  else fail code message w.

Definition respawnDue (w : World) : bool :=
  match lastRespawn_ w with
  | None => true
  | Some t => kRespawnIntervalMs <? now w - t
  end.

Definition protectionLost (code message : qstring) (w : World) : World :=
  let w := emit (ShowLog (arg (tr (qs "[Kill switch] Protection lost: %1")) message)) w in
  if shutdown_ w then w
  else if negb (kill_switch (settings w)) then apply w
  else if isSome (pending_ w) then
    settle (if negb (identityUnsupported_ w) then setState Arming w else w)
  else if recoverableCode code && respawnDue w then
    let w := set_lastRespawn_ (Some (now w)) w in
    let w := emit (ShowLog (tr (qs "[Kill switch] Starting it again..."))) w in
    spawn true (buildConfig w) w
  else fail code message w.

Definition onReady (g : Z) (w : World) : World :=
  if negb (holds (pending_ w) g) || match guards w !! g with Some G => ready G | None => false end then w
  else
    let w := guardSet stopTimer g (guardSet setReady g w) in
    let previous := active_ w in
    let w := set_pending_ None (set_active_ (Some g) w) in
    let w := closeGuard previous w in
    let w := emit (ShowLog (if isSome previous then tr (qs "[Kill switch] New settings applied.")
                            else tr (qs "[Kill switch] On: only traffic through Throne can leave this device."))) w in
    if identityUnsupported_ w then failIdentity w
    else settle (setState Armed w).

Definition handleLine (g : Z) (w : World) (line : qstring) : World :=
  let verb := section0 line in
  let rest := section1 line in
  if sameText verb (qs "WARN") then emit (ShowLog (arg (tr (qs "[Kill switch] Warning: %1")) rest)) w
  else if sameText verb (qs "READY") then onReady g w
  else if negb (sameText verb (qs "ERROR")) && negb (sameText verb (qs "FAIL")) then
    emit (ShowLog (qs "[Kill switch] " ++ line)) w
  else if isClosing g w then w
  else
    let code := section0 rest in
    let message := section1 rest in
    let wasActive := holds (active_ w) g in
    let wasPending := holds (pending_ w) g in
    let w := if wasActive then set_active_ None w else w in
    let w := if wasPending then set_pending_ None w else w in
    let w := closeGuard (Some g) w in
    if wasActive then protectionLost code message w
    else if wasPending then armFailed code message w
    else w.

Definition readOutput (g : Z) (lines : list qstring) (w : World) : World :=
  fold_left (fun w line => let line := trimmed line in if isEmpty line then w else handleLine g w line) lines w.

Definition showErrorLine (w : World) (line : qstring) : World :=
  let line := trimmed line in if isEmpty line then w else emit (ShowLog (qs "[Kill switch] " ++ line)) w.

(** The complete lines are shown, the rest stays until it is complete or flushed. *)
Definition readErrors (g : Z) (bytes : qstring) (flush : bool) (w : World) : World :=
  match guards w !! g with
  | None => w
  | Some G =>
      let parts := split 10 (stderrTail G ++ bytes) in
      let w := fold_left showErrorLine (removelast parts) w in
      let tail := List.last parts [] in
      if flush && negb (isEmpty (trimmed tail))
      then guardSet (setTail []) g (showErrorLine w tail)
      else guardSet (setTail tail) g w
  end.

Definition onReadyTimeout (g : Z) (w : World) : World :=
  if negb (holds (pending_ w) g) || match guards w !! g with Some G => ready G | None => false end then w
  else
    let w := set_pending_ None w in
    let w := closeGuard (Some g) w in
    let w := stopHard g w in
    armFailed kTimeout (arg (tr (qs "the kill switch did not respond within %1 seconds")) (number (kReadyTimeoutMs / 1000))) w.

Definition onStartFailed (g : Z) (program error : qstring) (w : World) : World :=
  let w := guardSet stopTimer g w in
  let message := arg (arg (tr (qs "could not start %1: %2")) program) error in
  let wasPending := negb (isClosing g w) && holds (pending_ w) g in
  let w := if wasPending then set_pending_ None w else w in
  let w := deleteGuard g w in
  if wasPending then armFailed kInternal message w else w.

Definition onFinished (g : Z) (lines : list qstring) (last errors : qstring) (exitCode : Z) (crashed : bool) (w : World) : World :=
  let w := readOutput g lines w in
  let last := trimmed last in
  let w := if isEmpty last then w else handleLine g w last in
  let w := readErrors g errors true w in
  let w := guardSet stopTimer g w in
  let wasActive := negb (isClosing g w) && holds (active_ w) g in
  let wasPending := negb (isClosing g w) && holds (pending_ w) g in
  let w := if wasActive then set_active_ None w else w in
  let w := if wasPending then set_pending_ None w else w in
  let w := deleteGuard g w in
  if wasActive then
    protectionLost kCrash (if crashed then tr (qs "the kill switch process crashed")
                           else arg (tr (qs "the kill switch process exited with code %1")) (number exitCode)) w
  else if wasPending then
    armFailed kCrash (if crashed then tr (qs "the kill switch process crashed before it was ready")
                      else arg (tr (qs "the kill switch process exited with code %1 before it was ready")) (number exitCode)) w
  else w.

Definition onGraceTimer (g : Z) (w : World) : World :=
  match guards w !! g with
  | Some G => if running G then stopHard g w else w
  | None => w
  end.

Definition shutGuard (w : World) (g : Z) : World :=
  match guards w !! g with
  | Some G =>
      let w := guardSet stopTimer g (guardSet setClosing g w) in
      if running G then emit (CloseWriteChannel g) w else w
  | None => w
  end.

(** [late]: the guards still running when the wait is over. *)
Definition shutdown (late : list Z) (w : World) : World :=
  if shutdown_ w then w
  else
    let w := set_pending_ None (set_active_ None (set_waiters_ [] (set_shutdown_ true w))) in
    let w := fold_left shutGuard (map fst (map_to_list (guards w))) w in
    fold_left (fun w g => onGraceTimer g w) late w.

(** ** Events *)

Inductive Event :=
| Elapse (ms : Z)
| ChangeSettings (s : Settings)
| ContextGone (ctx : Z)
| Apply
| WhenSettled (ctx : option Z) (n : Z)
| WhenIdle (n : Z)
| PermitExtraCore (n : Z) (path : qstring)
| NoteIdentityUnsupported (detail : qstring)
| SetOverride (overridden : bool)
| SetApiPort (port : Z)
| ApiPortPosted
| RespawnTimer
| Shutdown (late : list Z)
| GuardStarted (g : Z)
| GuardOutput (g : Z) (lines : list qstring)
| GuardErrors (g : Z) (bytes : qstring)
| ReadyTimeout (g : Z)
| StartFailed (g : Z) (program error : qstring)
| Finished (g : Z) (lines : list qstring) (last errors : qstring) (exitCode : Z) (crashed : bool)
| GraceTimer (g : Z).

Definition guardStarted (g : Z) (w : World) : World :=
  match guards w !! g with
  | Some G => if closing G then w else emit (WriteLaunch g (launch G)) w
  | None => w
  end.

(** The signals of a guard object end with the object, its timer's with the
    timer; a guard that reported to be ready did start. *)
Definition step (w : World) (e : Event) : World :=
  match e with
  | Elapse ms => set_now (now w + Z.max 0 ms) w
  | ChangeSettings s => set_settings s w
  | ContextGone ctx => set_goneContexts (ctx :: goneContexts w) w
  | Apply => apply w
  | WhenSettled ctx n => whenSettled ctx (OnSettled n) w
  | WhenIdle n => whenIdle (OnIdle n) w
  | PermitExtraCore n path => permitExtraCore n path w
  | NoteIdentityUnsupported detail => noteIdentityUnsupported detail w
  | SetOverride o => setOverride o w
  | SetApiPort port => set_apiPort port w
  | ApiPortPosted => onApiPort w
  | RespawnTimer => onRespawnTimer w
  | Shutdown late => shutdown late w
  | GuardStarted g => guardStarted g w
  | GuardOutput g lines => if isSome (guards w !! g) then readOutput g lines w else w
  | GuardErrors g bytes => readErrors g bytes false w
  | ReadyTimeout g =>
      match guards w !! g with Some G => if readyTimer G then onReadyTimeout g (guardSet stopTimer g w) else w | None => w end
  | StartFailed g program error =>
      match guards w !! g with
      | Some G => if ready G then w else onStartFailed g program error (guardSet setNotRunning g w)
      | None => w
      end
  | Finished g lines last errors exitCode crashed =>
      match guards w !! g with
      | Some G => onFinished g lines last errors exitCode crashed (guardSet setNotRunning g w)
      | None => w
      end
  | GraceTimer g => onGraceTimer g w
  end.

Definition start (s : Settings) : World :=
  MkWorld Disabled false [] false None None [] [] None [] false ∅ 0 s 0 0 [] [].

Definition run (w : World) (es : list Event) : World := fold_left step es w.

(** ** Frames: what the helpers leave alone *)

Ltac fields :=
  cbn [state_ identityUnsupported_ identityDetail_ overridden_ active_ pending_ failureCode_ failureMessage_
       lastRespawn_ waiters_ shutdown_ guards nextGuard settings apiPort now goneContexts actions
       set_state_ set_identityUnsupported_ set_identityDetail_ set_overridden_ set_active_ set_pending_
       set_failureCode_ set_failureMessage_ set_lastRespawn_ set_waiters_ set_shutdown_ set_guards set_nextGuard
       set_settings set_apiPort set_now set_goneContexts set_actions emit] in *.

(** The same, down to records of fields. *)
Ltac flat :=
  cbv beta iota delta [state_ identityUnsupported_ identityDetail_ overridden_ active_ pending_ failureCode_ failureMessage_
       lastRespawn_ waiters_ shutdown_ guards nextGuard settings apiPort now goneContexts actions
       set_state_ set_identityUnsupported_ set_identityDetail_ set_overridden_ set_active_ set_pending_
       set_failureCode_ set_failureMessage_ set_lastRespawn_ set_waiters_ set_shutdown_ set_guards set_nextGuard
       set_settings set_apiPort set_now set_goneContexts set_actions emit worldEta].

(** A waiter may stay only while what it waits for is open. *)
Definition waits (s : State) (pending : option Z) (x : Waiter) : bool :=
  if idle x then isSome pending else bool_decide (s = Arming).

Lemma runCallback_eq c w : exists acts, runCallback c w = set_actions acts w.
Proof. unfold runCallback. destruct c; by eexists. Qed.

Lemma settle_eq w : exists acts,
  settle w = set_waiters_ (List.filter (waits (state_ w) (pending_ w)) (waiters_ w)) (set_actions acts w).
Proof.
  unfold settle.
  assert (forall ws kept acts, exists acts', fold_left settleOne ws (set_waiters_ kept (set_actions acts w)) =
    set_waiters_ (kept ++ List.filter (waits (state_ w) (pending_ w)) ws) (set_actions acts' w)) as H.
  { induction ws as [|x ws IH]; intros kept acts; cbn [fold_left List.filter]; [rewrite app_nil_r; by eexists|].
    unfold settleOne at 2. change (mustWait _ x) with (waits (state_ w) (pending_ w) x).
    destruct (waits _ _ x).
    - change (set_waiters_ (waiters_ (set_waiters_ kept (set_actions acts w)) ++ [x]) (set_waiters_ kept (set_actions acts w)))
        with (set_waiters_ (kept ++ [x]) (set_actions acts w)).
      destruct (IH (kept ++ [x]) acts) as (acts' & ->). rewrite <- app_assoc. by eexists.
    - case_match; [apply IH|].
      destruct (runCallback_eq (callback x) (set_waiters_ kept (set_actions acts w))) as (acts1 & ->).
      apply (IH kept acts1). }
  destruct (H (waiters_ w) [] (actions w)) as (acts & E). exists acts. etransitivity; [|exact E]. by destruct w.
Qed.

Lemma setState_eq s w : exists c m acts,
  setState s w = set_state_ s (set_failureCode_ c (set_failureMessage_ m (set_actions acts w))).
Proof.
  unfold setState. destruct (bool_decide (s = Failed)); cbn [negb].
  - exists (failureCode_ w), (failureMessage_ w). case_bool_decide as E; destruct w; fields; subst; by eexists.
  - exists [], []. case_bool_decide as E; destruct w; fields; subst; by eexists.
Qed.

Lemma fail_eq code message w : exists c m acts,
  fail code message w =
    set_waiters_ (List.filter (waits Failed (pending_ w)) (waiters_ w))
      (set_state_ Failed (set_failureCode_ c (set_failureMessage_ m (set_actions acts w)))).
Proof.
  unfold fail. set (w1 := emit _ _). destruct (setState_eq Failed w1) as (c & m & acts & ->).
  destruct (settle_eq (set_state_ Failed (set_failureCode_ c (set_failureMessage_ m (set_actions acts w1))))) as (acts' & ->).
  exists c, m, acts'. subst w1. destruct w. reflexivity.
Qed.

Lemma failIdentity_eq w : exists s c m acts,
  failIdentity w =
    set_waiters_ (List.filter (waits s (pending_ w)) (waiters_ w))
      (set_state_ s (set_failureCode_ c (set_failureMessage_ m (set_actions acts w)))) /\ s = Failed.
Proof.
  unfold failIdentity. set (message := killSwitchIdentityMessage _). case_match eqn:E.
  - set (w1 := emit _ _). destruct (setState_eq Failed w1) as (c & m & acts & ->).
    destruct (settle_eq (set_state_ Failed (set_failureCode_ c (set_failureMessage_ m (set_actions acts w1))))) as (acts' & ->).
    exists Failed, c, m, acts'. split; [|done]. subst w1. destruct w. reflexivity.
  - destruct (settle_eq w) as (acts & ->). exists (state_ w), (failureCode_ w), (failureMessage_ w), acts. split.
    + destruct w. reflexivity.
    + apply orb_false_iff in E as [E _]. apply orb_false_iff in E as [E _]. unfold isState in E. bprop. done.
Qed.

(** The guards after closing one: it is closing or gone, the others are as they were. *)
Definition closed (og : option Z) (gs gs' : gmap Z GuardProcess) : Prop :=
  (forall x, og <> Some x -> gs' !! x = gs !! x) /\
  (forall x G, gs' !! x = Some G -> is_Some (gs !! x) /\ (og = Some x -> closing G = true)).

Lemma closed_refl gs : closed None gs gs.
Proof. split; [done|]. intros x G H. split; [by eexists|done]. Qed.

Lemma closeGuard_eq og w : exists gs acts,
  closeGuard og w = set_guards gs (set_actions acts w) /\ closed og (guards w) gs.
Proof.
  unfold closeGuard. destruct og as [g|].
  2:{ exists (guards w), (actions w). split; [by destruct w|apply closed_refl]. }
  destruct (guards w !! g) as [G|] eqn:E.
  2:{ exists (guards w), (actions w). split; [by destruct w|]. split; [done|]. intros x G H.
      split; [by eexists|intros [= ->]; congruence]. }
  destruct (closing G) eqn:Ec.
  { exists (guards w), (actions w). split; [by destruct w|]. split; [done|]. intros x G' H.
    split; [by eexists|intros [= ->]; congruence]. }
  unfold guardSet. rewrite E. fields. rewrite lookup_insert_eq. destruct (running G); cbn [negb].
  - rewrite insert_insert_eq.
    exists (<[g := stopTimer (setClosing G)]> (guards w)), (actions w ++ [CloseWriteChannel g]).
    split; [by destruct w|]. split.
    + intros x Hx. apply lookup_insert_ne. congruence.
    + intros x G' [[<- <-]|[Hne H]]%lookup_insert_Some; (split; [by eexists|]); [done|]. intros [= ->]. done.
  - unfold deleteGuard. fields. rewrite !delete_insert_eq. exists (delete g (guards w)), (actions w).
    split; [by destruct w|]. split.
    + intros x Hx. apply lookup_delete_ne. congruence.
    + intros x G' H. apply lookup_delete_Some in H as [Hne H]. split; [by eexists|]. intros [= ->]. done.
Qed.

(** ** The invariant *)

Definition inForce (G : GuardProcess) : Prop := closing G = false /\ ready G = true.
Definition isArming (G : GuardProcess) : Prop := closing G = false /\ ready G = false /\ readyTimer G = true.

(** The active guard holds its rules, the pending one is still awaited. *)
Record guards_ok (gs : gmap Z GuardProcess) (a p : option Z) (n : Z) : Prop := {
  go_active : forall g, a = Some g -> exists G, gs !! g = Some G /\ inForce G;
  go_pending : forall g, p = Some g -> exists G, gs !! g = Some G /\ isArming G;
  go_next : forall g G, gs !! g = Some G -> g < n }.

(** What the reported state promises. *)
Record state_ok (s : State) (identity : bool) (a p : option Z) : Prop := {
  so_armed : s = Armed -> a <> None /\ identity = false;
  so_arming : s = Arming -> a = None /\ p <> None;
  so_disabled : s = Disabled -> a = None }.

Definition waiters_ok (s : State) (p : option Z) (ws : list Waiter) : Prop :=
  Forall (fun x => waits s p x = true) ws.

Record ok (w : World) : Prop := {
  ok_guards : guards_ok (guards w) (active_ w) (pending_ w) (nextGuard w);
  ok_state : shutdown_ w = false -> state_ok (state_ w) (identityUnsupported_ w) (active_ w) (pending_ w);
  ok_waiters : shutdown_ w = false -> waiters_ok (state_ w) (pending_ w) (waiters_ w) }.

Lemma waiters_ok_filter s p ws : waiters_ok s p (List.filter (waits s p) ws).
Proof. apply Forall_forall. intros x Hx%list_elem_of_In%filter_In. apply Hx. Qed.

Lemma guards_ok_sub gs a p n a' p' : guards_ok gs a p n ->
  (forall g, a' = Some g -> a = Some g) -> (forall g, p' = Some g -> p = Some g) -> guards_ok gs a' p' n.
Proof. intros [H1 H2 H3] Ha Hp. split; [intros g Hg; by apply H1, Ha|intros g Hg; by apply H2, Hp|done]. Qed.

Lemma guards_ok_closed gs gs' og a p n : guards_ok gs a p n -> closed og gs gs' ->
  (forall g, og = Some g -> a <> Some g /\ p <> Some g) -> guards_ok gs' a p n.
Proof.
  intros [H1 H2 H3] [C1 C2] Hn. split.
  - intros g Hg. rewrite C1; [by apply H1|]. intros E. by destruct (Hn g E).
  - intros g Hg. rewrite C1; [by apply H2|]. intros E. by destruct (Hn g E).
  - intros g G HG. apply C2 in HG as [[G' HG] _]. by eapply H3.
Qed.

Lemma guards_ok_distinct gs a p n g : guards_ok gs a p n -> a = Some g -> p <> Some g.
Proof.
  intros [H1 H2 _] Ha Hp. destruct (H1 g Ha) as (G & E & _ & Hr). destruct (H2 g Hp) as (G' & E' & _ & Hr' & _).
  congruence.
Qed.

Lemma guards_ok_insert gs a p n G : guards_ok gs a p n -> isArming G -> guards_ok (<[n := G]> gs) a (Some n) (n + 1).
Proof.
  intros [H1 H2 H3] HG. split.
  - intros g Hg. destruct (H1 g Hg) as (G' & E & HG'). exists G'. split; [|done].
    rewrite lookup_insert_ne; [done|]. intros <-. pose proof (H3 _ _ E). lia.
  - intros g [= <-]. exists G. by rewrite lookup_insert_eq.
  - intros g G' [[<- <-]|[Hne H]]%lookup_insert_Some; [lia|]. pose proof (H3 _ _ H). lia.
Qed.

Lemma state_ok_failed i a p : state_ok Failed i a p.
Proof. by split. Qed.

(** The error path ends in [Failed], everything settled. *)
Lemma fail_ok code message w :
  guards_ok (guards w) (active_ w) (pending_ w) (nextGuard w) -> ok (fail code message w).
Proof.
  intros H. destruct (fail_eq code message w) as (c & m & acts & ->). split; fields; [done| |].
  - intros _. apply state_ok_failed.
  - intros _. apply waiters_ok_filter.
Qed.

Lemma settle_ok w : guards_ok (guards w) (active_ w) (pending_ w) (nextGuard w) ->
  (shutdown_ w = false -> state_ok (state_ w) (identityUnsupported_ w) (active_ w) (pending_ w)) -> ok (settle w).
Proof.
  intros H1 H2. destruct (settle_eq w) as (acts & ->). split; fields; [done..|]. intros _. apply waiters_ok_filter.
Qed.

Lemma setState_settle_ok s w : guards_ok (guards w) (active_ w) (pending_ w) (nextGuard w) ->
  (shutdown_ w = false -> state_ok s (identityUnsupported_ w) (active_ w) (pending_ w)) -> ok (settle (setState s w)).
Proof.
  intros H1 H2. apply settle_ok; destruct (setState_eq s w) as (c & m & acts & ->); by fields.
Qed.

Lemma failIdentity_ok w : guards_ok (guards w) (active_ w) (pending_ w) (nextGuard w) -> ok (failIdentity w).
Proof.
  intros H. destruct (failIdentity_eq w) as (s & c & m & acts & -> & ->). split; fields; [done| |].
  - intros _. apply state_ok_failed.
  - intros _. apply waiters_ok_filter.
Qed.

Lemma armFailed_ok code message w :
  guards_ok (guards w) (active_ w) (pending_ w) (nextGuard w) ->
  (active_ w <> None -> shutdown_ w = false ->
     state_ok (state_ w) (identityUnsupported_ w) (active_ w) (pending_ w)) ->
  ok (armFailed code message w).
Proof.
  intros H1 H2. unfold armFailed. destruct (active_ w) as [g|] eqn:E; cbn [isSome]; [|by apply fail_ok; rewrite E].
  apply settle_ok.
  - case_match; unfold armRespawn; fields; by rewrite E.
  - intros Hs. case_match; unfold armRespawn in *; fields; rewrite E; by apply H2.
Qed.

Definition spawnState (w : World) : State :=
  if negb (isSome (active_ w)) && negb (identityUnsupported_ w) then Arming else state_ w.

Lemma spawn_eq respawn c w : exists gs launch cc m acts,
  spawn respawn c w =
    set_pending_ (Some (nextGuard w))
      (set_guards (<[nextGuard w := MkGuard (json c) launch (extraPaths c) [] true false false true]> gs)
        (set_nextGuard (nextGuard w + 1)
          (set_state_ (spawnState w) (set_failureCode_ cc (set_failureMessage_ m (set_actions acts w)))))) /\
  closed (pending_ w) (guards w) gs /\
  (exists extra, acts = extra ++ [Spawned (nextGuard w) (now w) respawn]).
Proof.
  unfold spawn. destruct (closeGuard_eq (pending_ w) (set_pending_ None w)) as (gs & acts & -> & Hc).
  destruct w as [st idu idd ov ac pe fc fm lr ws sd gd ng se ap nw gc act]. unfold spawnState. fields.
  exists gs, (if isSome ac then keepStates (json c) else json c).
  destruct (negb (isSome ac) && negb idu).
  - match goal with |- context [setState Arming ?w1] => destruct (setState_eq Arming w1) as (cc & m & acts' & ->) end.
    fields. exists cc, m, (acts' ++ [Spawned ng nw respawn]). split_and!; [|exact Hc|by eexists].
    by flat.
  - exists fc, fm, (acts ++ [Spawned ng nw respawn]). split_and!; [by flat|exact Hc|by eexists].
Qed.

Lemma spawn_ok respawn c w :
  guards_ok (guards w) (active_ w) (pending_ w) (nextGuard w) ->
  (shutdown_ w = false -> waiters_ok (state_ w) (pending_ w) (waiters_ w)) ->
  (shutdown_ w = false ->
     (active_ w = None /\ identityUnsupported_ w = false) \/
     (state_ok (state_ w) (identityUnsupported_ w) (active_ w) (pending_ w))) ->
  ok (spawn respawn c w).
Proof.
  intros Hg Hw Hs. destruct (spawn_eq respawn c w) as (gs & launch & cc & m & acts & -> & Hc & _).
  split; fields.
  - apply (guards_ok_insert _ _ None); [|done]. eapply guards_ok_closed; [|exact Hc|].
    + by apply (guards_ok_sub _ _ _ _ (active_ w) None Hg).
    + intros g Hp. split; [|done]. intros Ha. by destruct (guards_ok_distinct _ _ _ _ g Hg Ha).
  - intros Hsd. unfold spawnState. destruct (Hs Hsd) as [[-> ->]|[H1 H2 H3]]; cbn; [by split|].
    destruct (active_ w) as [g|] eqn:Ea; cbn.
    + split; try done. intros E. by destruct (H2 E).
    + destruct (identityUnsupported_ w); cbn; [|by split]. split; [|done..]. intros E. by destruct (H1 E).
  - intros Hsd. eapply Forall_impl; [exact (Hw Hsd)|]. intros x. unfold waits, spawnState. destruct (idle x); [done|].
    intros E%bool_decide_eq_true. rewrite E. by case_match.
Qed.

Lemma closeBoth_eq w : guards_ok (guards w) (active_ w) (pending_ w) (nextGuard w) -> exists gs acts,
  closeBoth w = set_active_ None (set_pending_ None (set_guards gs (set_actions acts w))) /\
  guards_ok gs None None (nextGuard w).
Proof.
  intros H. unfold closeBoth. destruct (closeGuard_eq (pending_ w) (set_pending_ None w)) as (gs1 & acts1 & E1 & C1).
  rewrite E1. fields. set (w1 := set_active_ None _).
  destruct (closeGuard_eq (active_ w) w1) as (gs2 & acts2 & E2 & C2). rewrite E2.
  exists gs2, acts2. split; [subst w1; by flat|]. subst w1. fields.
  eapply guards_ok_closed; [|exact C2|done]. eapply guards_ok_closed; [|exact C1|done].
  by eapply guards_ok_sub.
Qed.

Lemma ok_shut w : guards_ok (guards w) (active_ w) (pending_ w) (nextGuard w) -> shutdown_ w = true -> ok w.
Proof. intros H E. split; [done|congruence..]. Qed.

Lemma ok_intro w : guards_ok (guards w) (active_ w) (pending_ w) (nextGuard w) ->
  state_ok (state_ w) (identityUnsupported_ w) (active_ w) (pending_ w) ->
  waiters_ok (state_ w) (pending_ w) (waiters_ w) -> ok w.
Proof. by split. Qed.

(** The identity flag may be set while the state still says [Armed]. *)
Lemma apply_ok_gen w :
  guards_ok (guards w) (active_ w) (pending_ w) (nextGuard w) ->
  (shutdown_ w = false -> state_ok (state_ w) false (active_ w) (pending_ w)) ->
  (shutdown_ w = false -> waiters_ok (state_ w) (pending_ w) (waiters_ w)) -> ok (apply w).
Proof.
  intros Hg Hs Hw. unfold apply. destruct (shutdown_ w) eqn:Esd; [by apply ok_shut|]. specialize (Hs eq_refl). specialize (Hw eq_refl).
  destruct (kill_switch (settings w)) eqn:Ek; cbn [negb].
  2:{ set (w1 := set_identityDetail_ [] _). destruct (closeBoth_eq w1 Hg) as (gs & acts & -> & Hc).
      apply setState_settle_ok; case_match; fields; done || by split. }
  destruct (overridden_ w).
  { destruct (closeBoth_eq w Hg) as (gs & acts & -> & Hc). case_match eqn:E; [|by apply fail_ok; fields].
    apply settle_ok; fields; [done|]. intros _. unfold isState in E. fields. bprop.
    destruct E as [[E _] _]. rewrite E. apply state_ok_failed. }
  set (w1 := if identityUnsupported_ w && _ then _ else w).
  assert (ok w1 /\ shutdown_ w1 = false) as [[Hg1 Hs1 Hw1] E1].
  { subst w1. case_match eqn:E.
    - split; [by apply failIdentity_ok|]. by destruct (failIdentity_eq w) as (s & c & m & acts & -> & _).
    - split; [|done]. apply ok_intro; [done| |done]. destruct Hs as [S1 S2 S3]. split; [|done..]. intros Es.
      split; [by apply S1|]. unfold isState in E. rewrite Es, bool_decide_true, andb_true_r in E by done. done. }
  clearbody w1. clear w Hg Hs Hw Esd Ek. rename w1 into w, Hg1 into Hg. specialize (Hs1 E1). specialize (Hw1 E1).
  cbv zeta. case_match eqn:Ep; [by apply ok_intro|]. case_match eqn:Ea.
  - destruct (pending_ w) as [g|] eqn:Epg; [|apply ok_intro; by rewrite Epg].
    destruct (closeGuard_eq (Some g) (set_pending_ None w)) as (gs & acts & -> & Hc).
    apply settle_ok; fields.
    + eapply guards_ok_closed; [|exact Hc|].
      * by eapply guards_ok_sub.
      * intros g' [= <-]. split; [|done]. intros Eg. by destruct (guards_ok_distinct _ _ _ _ g Hg Eg).
    + intros _. destruct Hs1 as [S1 S2 S3]. split; [done| |done]. intros Es. destruct (S2 Es) as [Ean _].
      unfold configIs in Ea. by rewrite Ean in Ea.
  - apply spawn_ok; [done|done|]. intros _. by right.
Qed.

Lemma apply_ok w : ok w -> ok (apply w).
Proof.
  intros [Hg Hs Hw]. apply apply_ok_gen; [done| |done]. intros Hsd. destruct (Hs Hsd) as [S1 S2 S3].
  split; [|done..]. intros E. split; [by apply S1|done].
Qed.

Lemma protectionLost_ok code message w :
  guards_ok (guards w) None (pending_ w) (nextGuard w) -> active_ w = None ->
  (shutdown_ w = false -> waiters_ok (state_ w) (pending_ w) (waiters_ w)) ->
  (shutdown_ w = false -> (state_ w = Armed -> identityUnsupported_ w = false) /\ state_ w <> Arming) ->
  ok (protectionLost code message w).
Proof.
  intros Hg Ha Hw Hs. unfold protectionLost. cbv zeta. set (w1 := emit _ w).
  change (shutdown_ w1) with (shutdown_ w). change (settings w1) with (settings w). change (pending_ w1) with (pending_ w).
  change (identityUnsupported_ w1) with (identityUnsupported_ w).
  destruct (shutdown_ w) eqn:Esd.
  { apply ok_shut; [|done]. subst w1. fields. by rewrite Ha. }
  specialize (Hw eq_refl). destruct (Hs eq_refl) as [Hs1 Hs2].
  destruct (kill_switch (settings w)) eqn:Ek; cbn [negb].
  2:{ unfold apply. change (shutdown_ w1) with (shutdown_ w). change (settings w1) with (settings w). rewrite Esd, Ek. cbn [negb].
      set (w2 := set_identityDetail_ [] _).
      assert (guards_ok (guards w2) (active_ w2) (pending_ w2) (nextGuard w2)) as Hg2 by (subst w2 w1; fields; by rewrite Ha).
      destruct (closeBoth_eq w2 Hg2) as (gs & acts & -> & Hc). apply setState_settle_ok; case_match; fields; done || by split. }
  destruct (pending_ w) as [g|] eqn:Ep; cbn [isSome].
  { destruct (identityUnsupported_ w) eqn:Ei; cbn [negb].
    - apply settle_ok; subst w1; fields; [by rewrite Ha, Ep|]. intros _. rewrite Ha, Ep, Ei. split; [|done..].
      intros E. by specialize (Hs1 E).
    - apply setState_settle_ok; subst w1; fields; [by rewrite Ha, Ep|]. intros _. rewrite Ha, Ep. by split. }
  case_match.
  - apply spawn_ok; subst w1; fields; rewrite ?Ha, ?Ep; [done|done|]. intros _.
    destruct (identityUnsupported_ w) eqn:Ei; [right|by left]. split; [|done..]. intros E. by specialize (Hs1 E).
  - apply fail_ok. subst w1. fields. by rewrite Ha, Ep.
Qed.

Lemma guardSet_eq f g w : guardSet f g w = set_guards (alter f g (guards w)) w.
Proof.
  unfold guardSet. destruct (guards w !! g) as [G|] eqn:E.
  - f_equal. apply map_eq. intros x. destruct (decide (x = g)) as [->|Hne].
    + by rewrite lookup_insert_eq, lookup_alter_eq, E.
    + by rewrite lookup_insert_ne, lookup_alter_ne by done.
  - rewrite alter_id by (intros y Hy; congruence). by destruct w.
Qed.

Lemma guards_ok_alter f g gs a p n : guards_ok gs a p n ->
  (a = Some g -> forall G, inForce G -> inForce (f G)) -> (p = Some g -> forall G, isArming G -> isArming (f G)) ->
  guards_ok (alter f g gs) a p n.
Proof.
  intros [H1 H2 H3] Fa Fp. split.
  - intros x Hx. destruct (H1 x Hx) as (G & E & HG). destruct (decide (x = g)) as [->|Hne].
    + exists (f G). rewrite lookup_alter_eq, E. split; [done|by apply Fa].
    + exists G. by rewrite lookup_alter_ne by done.
  - intros x Hx. destruct (H2 x Hx) as (G & E & HG). destruct (decide (x = g)) as [->|Hne].
    + exists (f G). rewrite lookup_alter_eq, E. split; [done|by apply Fp].
    + exists G. by rewrite lookup_alter_ne by done.
  - intros x G [(-> & G' & E & _)|[_ E]]%lookup_alter_Some; by eapply H3.
Qed.

Lemma guards_ok_delete g gs a p n : guards_ok gs a p n -> a <> Some g -> p <> Some g -> guards_ok (delete g gs) a p n.
Proof.
  intros [H1 H2 H3] Ha Hp. split.
  - intros x Hx. rewrite lookup_delete_ne by congruence. by apply H1.
  - intros x Hx. rewrite lookup_delete_ne by congruence. by apply H2.
  - intros x G [_ E]%lookup_delete_Some. by eapply H3.
Qed.

Lemma holds_true o g : holds o g = true <-> o = Some g.
Proof. apply bool_decide_eq_true. Qed.
Lemma holds_false o g : holds o g = false <-> o <> Some g.
Proof. apply bool_decide_eq_false. Qed.

Lemma onReady_ok g w : ok w -> ok (onReady g w).
Proof.
  intros [Hg Hs Hw]. unfold onReady. destruct (negb _ || _) eqn:E; [done|].
  apply orb_false_iff in E as [E1%negb_false_iff%holds_true E2].
  rewrite !guardSet_eq. cbv zeta. fields. set (gs := alter stopTimer g _).
  assert (guards_ok gs (Some g) None (nextGuard w)) as H1.
  { destruct Hg as [H1 H2 H3]. destruct (H2 g E1) as (G & EG & HG). split; [|done|].
    - intros x [= <-]. exists (stopTimer (setReady G)). subst gs. rewrite !lookup_alter_eq, EG. split; [done|].
      by destruct HG as (? & ? & ?).
    - intros x G' Hx. subst gs. apply lookup_alter_Some in Hx as [(-> & G1 & _ & _)|[_ Hx]]; [by eapply H3|].
      apply lookup_alter_Some in Hx as [(-> & G1 & _ & _)|[_ Hx]]; by eapply H3. }
  destruct (closeGuard_eq (active_ w) (set_pending_ None (set_active_ (Some g) (set_guards gs (set_guards (alter setReady g (guards w)) w)))))
    as (gs' & acts & -> & Hc). fields.
  assert (guards_ok gs' (Some g) None (nextGuard w)) as H2.
  { eapply guards_ok_closed; [exact H1|exact Hc|]. intros x Hx. split; [|done]. intros [= ->].
    by destruct (guards_ok_distinct _ _ _ _ x Hg Hx). }
  destruct (identityUnsupported_ w) eqn:Ei.
  - by apply failIdentity_ok.
  - apply setState_settle_ok; fields; [done|]. intros _. rewrite Ei. by split.
Qed.

(** A guard that failed by itself leaves its place, then the failure is handled. *)
Definition leave (g : Z) (w : World) : World :=
  let w' := if holds (active_ w) g then set_active_ None w else w in
  if holds (pending_ w) g then set_pending_ None w' else w'.

Lemma leave_eq g w : leave g w =
  set_pending_ (if holds (pending_ w) g then None else pending_ w)
    (set_active_ (if holds (active_ w) g then None else active_ w) w).
Proof. unfold leave. destruct (holds (pending_ w) g), (holds (active_ w) g), w; reflexivity. Qed.

Lemma lost_ok g code1 msg1 code2 msg2 w w' gs acts :
  ok w -> w' = set_guards gs (set_actions acts (leave g w)) ->
  guards_ok gs (active_ (leave g w)) (pending_ (leave g w)) (nextGuard w) ->
  ok (if holds (active_ w) g then protectionLost code1 msg1 w'
      else if holds (pending_ w) g then armFailed code2 msg2 w' else w').
Proof.
  intros [Hg Hs Hw] -> Hgs. rewrite leave_eq in *. fields.
  destruct (holds (active_ w) g) eqn:Ea; [|destruct (holds (pending_ w) g) eqn:Ep].
  - apply holds_true in Ea. assert (holds (pending_ w) g = false) as Ep.
    { apply holds_false. by eapply guards_ok_distinct. }
    rewrite Ep in *. apply protectionLost_ok; fields; [done|done|done|]. intros Hsd. destruct (Hs Hsd) as [S1 S2 S3].
    split; [intros E; by destruct (S1 E)|]. intros E. destruct (S2 E). congruence.
  - apply armFailed_ok; fields; [done|]. intros Ha Hsd. destruct (Hs Hsd) as [S1 S2 S3]. split; [done| |done].
    intros E. by destruct (S2 E).
  - split; fields; done.
Qed.

Lemma handleLine_ok g line w : ok w -> ok (handleLine g w line).
Proof.
  intros H. unfold handleLine. cbv zeta. case_match; [by destruct H; split|]. case_match; [by apply onReady_ok|].
  case_match; [by destruct H; split|]. case_match; [done|].
  change (if holds (pending_ w) g then set_pending_ None _ else _) with (leave g w).
  destruct (closeGuard_eq (Some g) (leave g w)) as (gs & acts & -> & Hc).
  eapply lost_ok; [done|reflexivity|]. destruct H as [Hg _ _]. rewrite leave_eq in *. fields.
  eapply guards_ok_closed; [|exact Hc|].
  - eapply guards_ok_sub; [exact Hg|by case_match..].
  - intros x [= <-]. split; case_match eqn:E; try done; by apply holds_false in E.
Qed.

Lemma readOutput_ok g lines w : ok w -> ok (readOutput g lines w).
Proof.
  unfold readOutput. revert w. induction lines as [|line lines IH]; intros w H; [done|]. cbn [fold_left]. apply IH.
  case_match; [done|by apply handleLine_ok].
Qed.

(** What is only shown changes nothing. *)
Lemma ok_actions w acts : ok w -> ok (set_actions acts w).
Proof. intros []. by split. Qed.

Lemma showErrorLines_eq lines w : exists acts, fold_left showErrorLine lines w = set_actions acts w.
Proof.
  revert w. induction lines as [|line lines IH]; intros w; cbn [fold_left]; [exists (actions w); by destruct w|].
  unfold showErrorLine at 2. case_match; [apply IH|]. destruct (IH (emit (ShowLog (qs "[Kill switch] " ++ trimmed line)) w)) as (acts & E).
  exists acts. etransitivity; [exact E|]. by flat.
Qed.

Lemma ok_alter f g w : ok w -> (forall G, inForce G -> inForce (f G)) -> (forall G, isArming G -> isArming (f G)) ->
  ok (guardSet f g w).
Proof.
  intros [H1 H2 H3] F1 F2. rewrite guardSet_eq. split; fields; [|done..]. apply guards_ok_alter; [done|by intros _..].
Qed.

Lemma readErrors_ok g bytes flush w : ok w -> ok (readErrors g bytes flush w).
Proof.
  intros H. unfold readErrors. case_match; [|done].
  destruct (showErrorLines_eq (removelast (split 10 (stderrTail g0 ++ bytes))) w) as (acts & ->).
  case_match; (apply ok_alter; [|done..]).
  - destruct (showErrorLines_eq [List.last (split 10 (stderrTail g0 ++ bytes)) []] (set_actions acts w)) as (acts' & E).
    cbn [fold_left] in E. rewrite E. by apply ok_actions, ok_actions.
  - by apply ok_actions.
Qed.

Lemma ok_closing_active g w : ok w -> holds (active_ w) g = true -> isClosing g w = false.
Proof.
  intros [Hg _ _] E%holds_true. destruct (go_active _ _ _ _ Hg g E) as (G & EG & Hc & _). unfold isClosing. by rewrite EG.
Qed.

Lemma ok_closing_pending g w : ok w -> holds (pending_ w) g = true -> isClosing g w = false.
Proof.
  intros [Hg _ _] E%holds_true. destruct (go_pending _ _ _ _ Hg g E) as (G & EG & Hc & _). unfold isClosing. by rewrite EG.
Qed.

(** The guard is gone for good and left its place before. *)
Lemma gone_ok g f w : guards_ok (guards w) (active_ w) (pending_ w) (nextGuard w) ->
  guards_ok (delete g (alter f g (guards w))) (active_ (leave g w)) (pending_ (leave g w)) (nextGuard w).
Proof.
  intros H. rewrite leave_eq. fields. replace (delete g (alter f g (guards w))) with (delete g (guards w)).
  - apply guards_ok_delete.
    + eapply guards_ok_sub; [exact H|by case_match..].
    + case_match eqn:E; [done|by apply holds_false in E].
    + case_match eqn:E; [done|by apply holds_false in E].
  - apply map_eq. intros x. destruct (decide (x = g)) as [->|Hne]; [by rewrite !lookup_delete_eq|].
    by rewrite !lookup_delete_ne, lookup_alter_ne by done.
Qed.

Lemma onFinished_ok g lines last errors code crashed w : ok w -> ok (onFinished g lines last errors code crashed w).
Proof.
  intros H. unfold onFinished. cbv zeta. set (w1 := if isEmpty (trimmed last) then _ else _).
  assert (ok w1) as H1 by (subst w1; case_match; [|apply handleLine_ok]; by apply readOutput_ok).
  apply (readErrors_ok g errors true) in H1. clearbody w1. revert H1.
  generalize (readErrors g errors true w1). clear w w1 H. intros w H.
  rewrite guardSet_eq. set (w' := set_guards (alter stopTimer g (guards w)) w).
  assert (isClosing g w' = isClosing g w) as Ec.
  { unfold isClosing. subst w'. fields. rewrite lookup_alter_eq. by destruct (guards w !! g). }
  change (active_ w') with (active_ w). change (pending_ w') with (pending_ w).
  replace (negb (isClosing g w') && holds (active_ w) g) with (holds (active_ w) g).
  2:{ rewrite Ec. destruct (holds (active_ w) g) eqn:E; [by rewrite (ok_closing_active g w)|by rewrite andb_false_r]. }
  replace (negb (isClosing g w') && holds (pending_ w) g) with (holds (pending_ w) g).
  2:{ rewrite Ec. destruct (holds (pending_ w) g) eqn:E; [by rewrite (ok_closing_pending g w)|by rewrite andb_false_r]. }
  apply (lost_ok g _ _ _ _ w _ (delete g (alter stopTimer g (guards w))) (actions w)); [exact H| |].
  - subst w'. rewrite leave_eq. unfold deleteGuard.
    destruct (holds (active_ w) g), (holds (pending_ w) g), w; by flat.
  - destruct H as [Hg _ _]. by apply gone_ok.
Qed.

Lemma onStartFailed_ok g program error w : ok w -> holds (active_ w) g = false -> ok (onStartFailed g program error w).
Proof.
  intros H Ha. unfold onStartFailed. cbv zeta. rewrite guardSet_eq. set (w' := set_guards (alter stopTimer g (guards w)) w).
  assert (isClosing g w' = isClosing g w) as Ec.
  { unfold isClosing. subst w'. fields. rewrite lookup_alter_eq. by destruct (guards w !! g). }
  change (pending_ w') with (pending_ w).
  replace (negb (isClosing g w') && holds (pending_ w) g) with (holds (pending_ w) g).
  2:{ rewrite Ec. destruct (holds (pending_ w) g) eqn:E; [by rewrite (ok_closing_pending g w)|by rewrite andb_false_r]. }
  pose proof (lost_ok g [] [] kInternal (arg (arg (tr (qs "could not start %1: %2")) program) error) w
    (set_guards (delete g (alter stopTimer g (guards w))) (set_actions (actions w) (leave g w)))
    (delete g (alter stopTimer g (guards w))) (actions w) H eq_refl) as L.
  rewrite Ha in L. replace (deleteGuard g _) with
    (set_guards (delete g (alter stopTimer g (guards w))) (set_actions (actions w) (leave g w))).
  - apply L. destruct H as [Hg _ _]. by apply gone_ok.
  - subst w'. rewrite leave_eq, Ha. unfold deleteGuard. destruct (holds (pending_ w) g), w; by flat.
Qed.

Lemma onReadyTimeout_ok g w : ok w -> ok (onReadyTimeout g (guardSet stopTimer g w)).
Proof.
  intros H. unfold onReadyTimeout. cbv zeta. rewrite guardSet_eq. fields.
  destruct (holds (pending_ w) g) eqn:Ep.
  - pose proof (proj1 (holds_true _ _) Ep) as Ep'. destruct H as [Hg Hs Hw].
    destruct (go_pending _ _ _ _ Hg g Ep') as (G & EG & Hc & Hr & Ht).
    rewrite lookup_alter_eq, EG. cbn [negb orb].
    change (match stopTimer <$> Some G with Some G0 => ready G0 | None => false end) with (ready G). rewrite Hr.
    set (w1 := set_pending_ None _). destruct (closeGuard_eq (Some g) w1) as (gs & acts & -> & Hcl). subst w1. fields.
    unfold stopHard. set (w2 := emit _ _).
    assert (active_ w <> Some g) as Ha by (intros E; by destruct (guards_ok_distinct _ _ _ _ g Hg E)).
    assert (guards_ok gs (active_ w) None (nextGuard w)) as H2.
    { eapply guards_ok_closed; [|exact Hcl|by intros x [= <-]]. apply guards_ok_alter; [|by intros..].
      by eapply guards_ok_sub. }
    apply armFailed_ok; subst w2; fields; [done|]. intros Hn Hsd. destruct (Hs Hsd) as [S1 S2 S3]. split; [done| |done].
    intros E. by destruct (S2 E).
  - cbn [negb orb]. destruct H as [Hg Hs Hw]. split; fields; [|done..]. apply guards_ok_alter; [done|done|].
    intros E. by apply holds_false in Ep.
Qed.

Lemma shutGuard_eq g w : exists gs acts, shutGuard w g = set_guards gs (set_actions acts w) /\
  (forall x G, gs !! x = Some G -> is_Some (guards w !! x)).
Proof.
  unfold shutGuard. destruct (guards w !! g) as [G|] eqn:E.
  2:{ exists (guards w), (actions w). split; [by destruct w|]. intros x G' HG. by eexists. }
  rewrite !guardSet_eq. fields. set (gs := alter stopTimer g _).
  assert (forall x G', gs !! x = Some G' -> is_Some (guards w !! x)) as H.
  { subst gs. intros x G' HG. apply lookup_alter_is_Some with (f := setClosing) (i := g).
    apply lookup_alter_is_Some with (f := stopTimer) (i := g). by eexists. }
  case_match; [exists gs, (actions w ++ [CloseWriteChannel g])|exists gs, (actions w)]; (split; [destruct w; by flat|done]).
Qed.

Lemma graceTimer_eq g w : exists acts, onGraceTimer g w = set_actions acts w.
Proof.
  unfold onGraceTimer, stopHard. case_match; [case_match; [by eexists|]|]; exists (actions w); by destruct w.
Qed.

Lemma shutdown_ok late w : ok w -> ok (shutdown late w).
Proof.
  intros H. unfold shutdown. destruct (shutdown_ w) eqn:Esd; [done|]. cbv zeta.
  set (w0 := set_pending_ None _).
  assert (forall ids u, shutdown_ u = true -> active_ u = None -> pending_ u = None ->
    (forall x G, guards u !! x = Some G -> x < nextGuard u) ->
    ok (fold_left shutGuard ids u) /\ shutdown_ (fold_left shutGuard ids u) = true) as Hs.
  { induction ids as [|g ids IH]; intros u U1 U2 U3 U4; cbn [fold_left].
    - split; [|done]. apply ok_shut; [|done]. rewrite U2, U3. by split.
    - destruct (shutGuard_eq g u) as (gs & acts & -> & Hd). apply IH; fields; try done.
      intros x G HG. destruct (Hd _ _ HG) as [G' HG']. by eapply U4. }
  destruct (Hs (map fst (map_to_list (guards w0))) w0) as [H1 _]; subst w0; fields; try done.
  { destruct H as [[_ _ H3] _ _]. exact H3. }
  revert H1. generalize (fold_left shutGuard (map fst (map_to_list (guards w)))
    (set_pending_ None (set_active_ None (set_waiters_ [] (set_shutdown_ true w))))).
  induction late as [|g late IH]; intros u Hu; cbn [fold_left]; [done|]. apply IH.
  destruct (graceTimer_eq g u) as (acts & ->). by apply ok_actions.
Qed.

Lemma runCallback_ok c w : ok w -> ok (runCallback c w).
Proof. intros H. destruct (runCallback_eq c w) as (acts & ->). by apply ok_actions. Qed.

Lemma addWaiter_ok x w : ok w -> (shutdown_ w = false -> waits (state_ w) (pending_ w) x = true) ->
  ok (set_waiters_ (waiters_ w ++ [x]) w).
Proof.
  intros [Hg Hs Hw] Hx. split; fields; [done..|]. intros Hsd. apply Forall_app. split; [by apply Hw|].
  apply Forall_cons. split; [by apply Hx|constructor].
Qed.

Lemma whenIdle_ok c w : ok w -> ok (whenIdle c w).
Proof.
  intros H. unfold whenIdle. destruct (pending_ w) eqn:E; [|by apply runCallback_ok].
  apply addWaiter_ok; [done|]. intros _. unfold waits. by rewrite E.
Qed.

Lemma addExtraCorePath_ok path w : ok w -> ok (addExtraCorePath path w).
Proof. intros H. unfold addExtraCorePath. cbv zeta. case_match; [done|]. apply ok_actions. destruct H. by split. Qed.

Lemma step_ok w e : ok w -> ok (step w e).
Proof.
  intros H. pose proof H as [Hg Hs Hw]. destruct e; cbn [step]; try (split; fields; done).
  - by apply apply_ok.
  - unfold whenSettled. case_match eqn:E; [by apply runCallback_ok|]. apply addWaiter_ok; [done|]. intros _.
    by apply negb_false_iff in E.
  - by apply whenIdle_ok.
  - unfold permitExtraCore. case_match; [by apply ok_actions|]. case_match; [by apply ok_actions|].
    apply whenIdle_ok, apply_ok, ok_actions. by apply addExtraCorePath_ok.
  - apply apply_ok_gen; fields; [done| |done]. intros Hsd. destruct (Hs Hsd) as [S1 S2 S3].
    split; [|done..]. intros E. split; [by apply S1|done].
  - unfold onApiPort. case_match; [done|]. case_match; [done|]. by apply apply_ok.
  - unfold onRespawnTimer. case_match; [done|]. case_match; [done|]. by apply apply_ok.
  - by apply shutdown_ok.
  - unfold guardStarted. case_match; [|done]. case_match; [done|]. by apply ok_actions.
  - case_match; [|done]. by apply readOutput_ok.
  - by apply readErrors_ok.
  - case_match; [|done]. case_match; [|done]. by apply onReadyTimeout_ok.
  - destruct (guards w !! g) as [G|] eqn:EG; [|done]. destruct (ready G) eqn:Er; [done|]. apply onStartFailed_ok.
    + by apply ok_alter.
    + rewrite guardSet_eq. fields. apply holds_false. intros E.
      destruct (go_active _ _ _ _ Hg g E) as (G' & EG' & _ & Hr). congruence.
  - case_match; [|done]. apply onFinished_ok. by apply ok_alter.
  - destruct (graceTimer_eq g w) as (acts & ->). by apply ok_actions.
Qed.

Lemma start_ok s : ok (start s).
Proof.
  apply ok_intro; [split; [done..|]|by split|constructor]. intros g G H. cbn in H. by rewrite lookup_empty in H.
Qed.

Lemma run_ok es w : ok w -> ok (run w es).
Proof. revert w. induction es as [|e es IH]; intros w H; [done|]. by apply IH, step_ok. Qed.

(** ** Properties *)

(** C28: Whatever happens, until the switch is shut down the reported state is
    true: [Armed] means that a guard is active that said it is ready and whose
    input was not closed, [Arming] that a guard is awaited under its timer,
    [Disabled] that none is active; and every waiter left waits for something
    open. *)
Theorem ks_state_true (s : Settings) (es : list Event) (w : World)
    (Hw : w = run (start s) es) (Hsd : shutdown_ w = false) :
  (state_ w = Armed -> identityUnsupported_ w = false /\
     exists g G, active_ w = Some g /\ guards w !! g = Some G /\ inForce G) /\
  (state_ w = Arming -> active_ w = None /\
     exists g G, pending_ w = Some g /\ guards w !! g = Some G /\ isArming G) /\
  (state_ w = Disabled -> active_ w = None) /\
  Forall (fun x => if idle x then pending_ w <> None else state_ w = Arming) (waiters_ w).
Proof.
  destruct (run_ok es (start s) (start_ok s)) as [Hg Hs Hws]. rewrite <- Hw in *.
  destruct (Hs Hsd) as [S1 S2 S3]. split_and!; [| |done|].
  - intros E. destruct (S1 E) as [Ha Hi]. split; [done|]. destruct (active_ w) as [g|] eqn:Ea; [|done].
    destruct (go_active _ _ _ _ Hg g eq_refl) as (G & EG & HG). by exists g, G.
  - intros E. destruct (S2 E) as [Ha Hp]. split; [done|]. destruct (pending_ w) as [g|] eqn:Ep; [|done].
    destruct (go_pending _ _ _ _ Hg g eq_refl) as (G & EG & HG). by exists g, G.
  - eapply Forall_impl; [exact (Hws Hsd)|]. intros x. unfold waits. destruct (idle x).
    + by destruct (pending_ w).
    + apply bool_decide_eq_true.
Qed.

(** The active guard through the helpers. *)
Lemma settle_active w : active_ (settle w) = active_ w.
Proof. by destruct (settle_eq w) as (acts & ->). Qed.

Lemma setState_active s w : active_ (setState s w) = active_ w.
Proof. by destruct (setState_eq s w) as (c & m & acts & ->). Qed.

Lemma fail_active code message w : active_ (fail code message w) = active_ w.
Proof. by destruct (fail_eq code message w) as (c & m & acts & ->). Qed.

Lemma failIdentity_active w : active_ (failIdentity w) = active_ w.
Proof. by destruct (failIdentity_eq w) as (s & c & m & acts & -> & _). Qed.

Lemma spawn_active respawn c w : active_ (spawn respawn c w) = active_ w.
Proof. by destruct (spawn_eq respawn c w) as (gs & l & cc & m & acts & -> & _). Qed.

Lemma closeGuard_active og w : active_ (closeGuard og w) = active_ w.
Proof. by destruct (closeGuard_eq og w) as (gs & acts & -> & _). Qed.

Lemma armFailed_active code message w : active_ (armFailed code message w) = active_ w.
Proof. unfold armFailed. case_match; [|apply fail_active]. rewrite settle_active. by case_match. Qed.

Lemma apply_active w : kill_switch (settings w) = true -> overridden_ w = false -> active_ (apply w) = active_ w.
Proof.
  intros Hk Ho. unfold apply. rewrite Hk, Ho. cbn [negb]. case_match; [done|].
  set (w1 := if identityUnsupported_ w && _ then _ else w).
  assert (active_ w1 = active_ w) as E by (subst w1; case_match; [apply failIdentity_active|done]).
  rewrite <- E. clearbody w1. cbv zeta. case_match; [done|]. case_match; [|by rewrite spawn_active].
  case_match; [|done]. by rewrite settle_active, closeGuard_active.
Qed.

Lemma runCallback_active c w : active_ (runCallback c w) = active_ w.
Proof. by destruct (runCallback_eq c w) as (acts & ->). Qed.

Lemma permitExtraCore_active n path w : kill_switch (settings w) = true -> overridden_ w = false ->
  active_ (permitExtraCore n path w) = active_ w.
Proof.
  intros Hk Ho. unfold permitExtraCore. case_match; [done|]. case_match; [done|]. cbv zeta.
  set (w1 := addExtraCorePath path w).
  assert (w1 = w \/ exists se a, w1 = set_actions a (set_settings se w) /\ kill_switch se = kill_switch (settings w)) as Hw1.
  { subst w1. unfold addExtraCorePath. cbv zeta. match goal with |- context [if ?b then w else _] => destruct b end; [by left|].
    right. by do 2 eexists. }
  assert (kill_switch (settings w1) = true /\ overridden_ w1 = false /\ active_ w1 = active_ w) as (H1 & H2 & <-).
  { destruct Hw1 as [->|(se & a & -> & E)]; [done|]. fields. by rewrite E. }
  clearbody w1. unfold whenIdle. set (w2 := emit _ w1).
  assert (active_ (apply w2) = active_ w2) as E by by apply apply_active.
  destruct (pending_ (apply w2)); [exact E|]. by rewrite runCallback_active.
Qed.

(** A line saying that a guard is ready. *)
Definition readyLine (line : qstring) : bool := sameText (section0 (trimmed line)) (qs "READY").

Lemma readErrors_active g bytes flush w : active_ (readErrors g bytes flush w) = active_ w.
Proof.
  unfold readErrors. case_match; [|done]. cbv zeta. rewrite !guardSet_eq.
  match goal with |- context [fold_left showErrorLine ?l w] => destruct (showErrorLines_eq l w) as (acts & ->) end.
  case_match; [|done]. unfold showErrorLine. by case_match.
Qed.

(** A guard in no place only has its lines shown, or is closed. *)
Lemma handleLine_stray g h line w : active_ w = Some g -> g <> h -> pending_ w <> Some h ->
  active_ (handleLine h w line) = Some g /\ pending_ (handleLine h w line) <> Some h.
Proof.
  intros Ha Hne Hp. unfold handleLine. cbv zeta. case_match; [done|].
  case_match.
  { unfold onReady. by rewrite (proj2 (holds_false _ h) Hp). }
  case_match; [done|]. case_match; [done|].
  rewrite Ha, (proj2 (holds_false (Some g) h)), (proj2 (holds_false (pending_ w) h)) by congruence.
  by destruct (closeGuard_eq (Some h) w) as (gs & acts & -> & _).
Qed.

Lemma readOutput_stray g h lines w : active_ w = Some g -> g <> h -> pending_ w <> Some h ->
  active_ (readOutput h lines w) = Some g /\ pending_ (readOutput h lines w) <> Some h.
Proof.
  unfold readOutput. intros Ha Hne Hp. revert w Ha Hp.
  induction lines as [|line lines IH]; intros w Ha Hp; cbn [fold_left]; [done|].
  case_match; [by apply IH|]. by apply IH; apply (handleLine_stray g).
Qed.

Lemma readErrors_pending g bytes flush w : pending_ (readErrors g bytes flush w) = pending_ w.
Proof.
  unfold readErrors. case_match; [|done]. cbv zeta. rewrite !guardSet_eq.
  match goal with |- context [fold_left showErrorLine ?l w] => destruct (showErrorLines_eq l w) as (acts & ->) end.
  case_match; [|done]. unfold showErrorLine. by case_match.
Qed.

Lemma onFinished_stray g h lines last errors code crashed w : active_ w = Some g -> g <> h -> pending_ w <> Some h ->
  active_ (onFinished h lines last errors code crashed w) = Some g.
Proof.
  intros Ha Hne Hp. unfold onFinished. cbv zeta. set (w1 := if isEmpty (trimmed last) then _ else _).
  assert (active_ w1 = Some g /\ pending_ w1 <> Some h) as [H1 H2].
  { subst w1. pose proof (readOutput_stray g h lines w Ha Hne Hp) as [A1 A2]. case_match; [done|].
    by apply handleLine_stray. }
  rewrite <- (readErrors_active h errors true) in H1. rewrite <- (readErrors_pending h errors true) in H2.
  clearbody w1. revert H1 H2. generalize (readErrors h errors true w1). clear w w1 Ha Hp. intros w Ha Hp. rewrite guardSet_eq.
  set (w' := set_guards _ w). change (active_ w') with (active_ w). change (pending_ w') with (pending_ w).
  rewrite Ha, (proj2 (holds_false (Some g) h)), (proj2 (holds_false (pending_ w) h)), !andb_false_r by congruence. done.
Qed.

(** The guard whose output or exit an event is, and whether it says it is ready. *)
Definition guardOf (e : Event) : option Z :=
  match e with GuardOutput g _ | Finished g _ _ _ _ _ => Some g | _ => None end.
Definition saysReady (e : Event) : bool :=
  match e with
  | GuardOutput _ lines => existsb readyLine lines
  | Finished _ lines last _ _ _ => existsb readyLine lines || readyLine last
  | _ => false
  end.

(** A line by which a guard gives up, and an event that ends its guard. *)
Definition failLine (line : qstring) : bool :=
  let verb := section0 (trimmed line) in sameText verb (qs "ERROR") || sameText verb (qs "FAIL").
Definition saysFailed (e : Event) : bool :=
  match e with GuardOutput _ lines => existsb failLine lines | Finished _ _ _ _ _ _ => true | _ => false end.

(** A guard that is closed or gone. *)
Definition gone (g : Z) (w : World) : Prop := forall G, guards w !! g = Some G -> closing G = true.
(** A lost protection is being restored, or reported as failed. *)
Definition mourned (w : World) : Prop := shutdown_ w = true \/ pending_ w <> None \/ state_ w = Failed.

Lemma protectionLost_out code message w : kill_switch (settings w) = true -> active_ w = None ->
  let w' := protectionLost code message w in
  active_ w' = None /\ settings w' = settings w /\ mourned w' /\
  forall h, pending_ w <> Some h -> h < nextGuard w -> pending_ w' <> Some h.
Proof.
  intros Hk Ha. cbv zeta. unfold protectionLost. set (w1 := emit _ w). change (shutdown_ w1) with (shutdown_ w).
  change (settings w1) with (settings w). rewrite Hk. cbn [negb].
  assert (active_ w1 = None) as Ha1 by done. assert (pending_ w1 = pending_ w) as Hp1 by done.
  assert (settings w1 = settings w) as Hs1 by done. assert (nextGuard w1 = nextGuard w) as Hn1 by done.
  assert (shutdown_ w1 = shutdown_ w) as Hd1 by done. clearbody w1. unfold mourned.
  destruct (shutdown_ w) eqn:Ed; [rewrite Hp1; split_and!; auto|]. destruct (pending_ w1) as [p|] eqn:Ep; cbn [isSome].
  { set (w2 := if _ : bool then _ else _).
    assert (active_ w2 = None /\ pending_ w2 = Some p /\ settings w2 = settings w) as (A & B & C).
    { subst w2. case_match; [|done]. destruct (setState_eq Arming w1) as (c & m & acts & ->). done. }
    clearbody w2. destruct (settle_eq w2) as (acts & ->). fields. rewrite A, B, C, <- Hp1. split_and!; [done..|by right; left|done]. }
  case_match.
  - set (w2 := emit _ _). assert (pending_ w2 = None) as Hp2 by done. assert (nextGuard w2 = nextGuard w) as Hn2 by done.
    destruct (spawn_eq true (buildConfig w2) w2) as (gs & l & cc & m & acts & -> & _). fields. rewrite Hn2.
    split_and!; [done|done|by right; left|]. intros h _ Hh [= E]. lia.
  - destruct (fail_eq code message w1) as (c & m & acts & ->). fields. rewrite Ep. split_and!; [done|done|by right; right|by intros].
Qed.

Lemma onReady_out g w : ok w -> pending_ w = Some g -> let w' := onReady g w in
  active_ w' = Some g /\ settings w' = settings w /\ forall h, active_ w = Some h -> gone h w'.
Proof.
  intros Hok Hp. unfold onReady. rewrite (proj2 (holds_true _ _) Hp). cbn [negb orb].
  destruct (go_pending _ _ _ _ (ok_guards _ Hok) g Hp) as (G & EG & _ & Hr & _). rewrite EG, Hr. cbv zeta. rewrite !guardSet_eq. fields.
  match goal with |- context [closeGuard (active_ w) ?u] => destruct (closeGuard_eq (active_ w) u) as (gs & acts & -> & Hc) end. fields.
  assert (forall h, active_ w = Some h -> forall H, gs !! h = Some H -> closing H = true) as Hg.
  { intros h Hh H EH. by apply (proj2 Hc h H EH). }
  case_match.
  - match goal with |- context [failIdentity ?u] => destruct (failIdentity_eq u) as (s & c & m & a & -> & _) end. by split_and!.
  - match goal with |- context [setState Armed ?u] => destruct (setState_eq Armed u) as (c & m & a & ->) end.
    match goal with |- context [settle ?u] => destruct (settle_eq u) as (a' & ->) end. by split_and!.
Qed.

(** While the lines of the guard [h] are read and [g] was in force before them. *)
Inductive after (g h : Z) (saidReady failed : bool) (w : World) : Prop :=
| Kept : active_ w = Some g -> (g = h -> failed = false) -> after g h saidReady failed w
| Taken : g <> h -> saidReady = true -> active_ w = Some h -> gone g w -> after g h saidReady failed w
| Lost : failed = true -> g = h \/ saidReady = true -> active_ w = None -> mourned w -> pending_ w <> Some h ->
    after g h saidReady failed w.

Lemma after_same g h r f w r' w' : after g h r f w -> (r = true -> r' = true) -> (exists acts, w' = set_actions acts w) -> after g h r' f w'.
Proof.
  intros [H Hf|Hn Hr H Hg|Hf Hr H Hm Hp] Er (acts & ->); [by apply Kept|apply Taken; [done|by apply Er|done..]|].
  apply Lost; [done| |done..]. destruct Hr; [by left|right; by apply Er].
Qed.

(** A guard that is closing, or in no place, may fail. *)
Lemma after_stray g h r f w : after g h r f w -> active_ w <> Some h \/ isClosing h w = true -> ok w -> after g h r true w.
Proof.
  intros [H Hf|Hn Hr H Hg|Hf Hr H Hm Hp] Hs Hok; [|by apply Taken|by apply Lost]. apply Kept; [done|]. intros ->.
  destruct Hs as [Hs|Hs]; [done|]. by rewrite (ok_closing_active h w Hok) in Hs by by apply holds_true.
Qed.

(** The active guard fails: protection is lost. *)
Lemma active_fails g h r w : ok w -> kill_switch (settings w) = true -> active_ w = Some h -> g = h \/ r = true ->
  forall gs acts code message,
    let w' := protectionLost code message (set_guards gs (set_actions acts (set_active_ None w))) in
    after g h r true w' /\ settings w' = settings w.
Proof.
  intros Hok Hk Ha Hr gs acts code message. cbv zeta.
  destruct (protectionLost_out code message (set_guards gs (set_actions acts (set_active_ None w))) Hk eq_refl) as (A & B & C & D).
  split; [|done]. apply Lost; [done|done|done|done|]. pose proof (ok_guards _ Hok) as Hg.
  apply D; [by eapply guards_ok_distinct|]. destruct (go_active _ _ _ _ Hg h Ha) as (G & EG & _). by eapply go_next.
Qed.

(** The pending one fails while another is in force: that one stays. *)
Lemma armFailed_kept g code message w : active_ w = Some g ->
  active_ (armFailed code message w) = Some g /\ settings (armFailed code message w) = settings w.
Proof.
  intros Ha. rewrite armFailed_active. split; [done|]. unfold armFailed. rewrite Ha. cbn [isSome].
  match goal with |- context [settle ?u] => destruct (settle_eq u) as (acts & ->) end. by case_match.
Qed.

Lemma verbs_apart line : sameText line (qs "READY") = true -> sameText line (qs "ERROR") || sameText line (qs "FAIL") = false.
Proof. intros ->%bool_decide_eq_true. done. Qed.

Lemma handleLine_after g h r f line w : ok w -> kill_switch (settings w) = true -> after g h r f w ->
  let w' := handleLine h w (trimmed line) in
  after g h (r || readyLine line) (f || failLine line) w' /\ settings w' = settings w.
Proof.
  intros Hok Hk H. cbv zeta. unfold handleLine, readyLine, failLine. cbv zeta. set (verb := section0 (trimmed line)).
  assert (forall w', (exists acts, w' = set_actions acts w) -> after g h (r || sameText verb (qs "READY")) f w' /\ settings w' = settings w) as Hsame.
  { intros w' Hw. split; [|by destruct Hw as (a & ->)]. eapply after_same; [exact H|by intros ->|done]. }
  assert (exists acts, w = set_actions acts w) as Hid by (exists (actions w); by destruct w).
  destruct (sameText verb (qs "WARN")) eqn:Ew.
  { apply bool_decide_eq_true in Ew. rewrite Ew in *.
    replace (f || _) with f by (symmetry; apply orb_false_r). apply Hsame. by eexists. }
  destruct (sameText verb (qs "READY")) eqn:Er.
  { rewrite verbs_apart, orb_true_r, orb_false_r by done. destruct (decide (pending_ w = Some h)) as [Hp|Hp].
    - destruct (onReady_out h w Hok Hp) as (A & B & C). split; [|done]. destruct H as [H _|? _ H|_ _ _ _ Hn]; [|exfalso|done].
      + apply Taken; [|done..|by apply C]. intros ->. by eapply guards_ok_distinct; [apply Hok|..].
      + by eapply guards_ok_distinct; [apply Hok|..].
    - unfold onReady. rewrite (proj2 (holds_false _ h) Hp). cbn [negb orb]. specialize (Hsame w Hid).
      by rewrite orb_true_r in Hsame. }
  rewrite <- negb_orb. destruct (sameText verb (qs "ERROR") || sameText verb (qs "FAIL")) eqn:Ef; cbn [negb];
    [|rewrite (orb_false_r f); apply Hsame; by eexists]. rewrite orb_true_r, orb_false_r.
  destruct (isClosing h w) eqn:Ec.
  { split; [|done]. eapply after_stray; [exact H|by right|done]. }
  destruct (holds (active_ w) h) eqn:Ea.
  - apply holds_true in Ea. assert (holds (pending_ w) h = false) as ->.
    { apply holds_false. by eapply guards_ok_distinct; [apply Hok|]. }
    destruct (closeGuard_eq (Some h) (set_active_ None w)) as (gs & acts & -> & _).
    apply active_fails; [done..|]. destruct H as [H _|_ Hr _ _|_ _ H]; [left; congruence|by right|congruence].
  - apply holds_false in Ea. destruct (holds (pending_ w) h) eqn:Ep.
    + destruct H as [H _|_ _ H|_ _ _ _ H]; [|congruence|by apply holds_true in Ep].
      destruct (closeGuard_eq (Some h) (set_pending_ None w)) as (gs & acts & -> & _).
      match goal with |- context [armFailed ?c ?m ?u] => destruct (armFailed_kept g c m u H) as (A & B) end.
      split; [apply Kept; [done|congruence]|exact B].
    + destruct (closeGuard_eq (Some h) w) as (gs & acts & -> & Hc). split; [|done].
      destruct H as [H _|_ _ H|Hf Hr H Hm Hp]; [apply Kept; [done|congruence]|congruence|]. by apply Lost.
Qed.

Lemma readOutput_after g h lines : forall r f w, ok w -> kill_switch (settings w) = true -> after g h r f w ->
  let w' := readOutput h lines w in
  after g h (r || existsb readyLine lines) (f || existsb failLine lines) w' /\ settings w' = settings w.
Proof.
  unfold readOutput. induction lines as [|line lines IH]; intros r f w Hok Hk H; cbn [fold_left existsb]; [by rewrite !orb_false_r|].
  destruct (isEmpty (trimmed line)) eqn:E.
  - assert (readyLine line = false /\ failLine line = false) as [-> ->].
    { unfold readyLine, failLine. by destruct (trimmed line). }
    cbn [orb]. by apply IH.
  - destruct (handleLine_after g h r f line w Hok Hk H) as [H1 H2]. rewrite !orb_assoc, <- H2.
    apply IH; [by apply handleLine_ok|by rewrite H2|done].
Qed.
(** Guards that close no less do not change what is lost. *)
Lemma after_guards g h r f gs acts w : after g h r f w ->
  (forall x G, gs !! x = Some G -> exists G0, guards w !! x = Some G0 /\ (closing G0 = true -> closing G = true)) ->
  after g h r f (set_guards gs (set_actions acts w)).
Proof.
  intros [H Hf|Hn Hr H Hg|Hf Hr H Hm Hp] Hgs; [by apply Kept|apply Taken; [done..|]|by apply Lost].
  intros G HG. destruct (Hgs g G HG) as (G0 & E & Hc). apply Hc, (Hg G0 E).
Qed.

Lemma alter_closes (f : GuardProcess -> GuardProcess) h (gs : gmap Z GuardProcess) : (forall G, closing (f G) = closing G) ->
  forall x G, alter f h gs !! x = Some G -> exists G0, gs !! x = Some G0 /\ (closing G0 = true -> closing G = true).
Proof.
  intros Hf x G [(-> & G0 & E & ->)|[_ E]]%lookup_alter_Some; [|by exists G]. exists G0. by rewrite Hf.
Qed.

Lemma readErrors_guards h bytes flush w : exists f acts, (forall G, closing (f G) = closing G) /\
  readErrors h bytes flush w = set_guards (alter f h (guards w)) (set_actions acts w).
Proof.
  unfold readErrors. destruct (guards w !! h) as [G|] eqn:E.
  - destruct (showErrorLines_eq (removelast (split 10 (stderrTail G ++ bytes))) w) as (acts & ->). cbv zeta. rewrite !guardSet_eq.
    case_match; [exists (setTail []); unfold showErrorLine; case_match; by eexists|]. eexists (setTail _). by eexists.
  - exists id, (actions w). split; [done|]. rewrite alter_id by done. by destruct w.
Qed.

(** At its end the guard leaves its place, if it still has one. *)
Lemma end_after g h r f code message code' message' w : ok w -> kill_switch (settings w) = true -> after g h r f w ->
  let w1 := guardSet stopTimer h w in
  let wasActive := negb (isClosing h w1) && holds (active_ w1) h in
  let wasPending := negb (isClosing h w1) && holds (pending_ w1) h in
  let w2 := deleteGuard h (if wasPending then set_pending_ None (if wasActive then set_active_ None w1 else w1)
                           else if wasActive then set_active_ None w1 else w1) in
  let w3 := if wasActive then protectionLost code message w2 else if wasPending then armFailed code' message' w2 else w2 in
  after g h r true w3 /\ active_ w3 <> Some h.
Proof.
  intros Hok Hk H. cbv zeta. rewrite guardSet_eq. set (w1 := set_guards _ w).
  assert (isClosing h w1 = isClosing h w) as Ec.
  { unfold isClosing. subst w1. fields. rewrite lookup_alter_eq. by destruct (guards w !! h). }
  rewrite Ec. change (active_ w1) with (active_ w). change (pending_ w1) with (pending_ w).
  destruct (holds (active_ w) h) eqn:Ea.
  - rewrite (ok_closing_active h w) by done. apply holds_true in Ea. assert (holds (pending_ w) h = false) as ->.
    { apply holds_false. by eapply guards_ok_distinct; [apply Hok|]. }
    cbn [negb andb]. match goal with |- context [protectionLost ?c ?m ?u] =>
      assert (u = set_guards (delete h (alter stopTimer h (guards w))) (set_actions (actions w) (set_active_ None w))) as -> by (subst w1; by destruct w);
      destruct (protectionLost_out c m (set_guards (delete h (alter stopTimer h (guards w))) (set_actions (actions w) (set_active_ None w))) Hk eq_refl) as (A & _) end.
    split; [|by rewrite A]. apply active_fails; [done..|]. destruct H as [H _|_ Hr _ _|_ _ H]; [left; congruence|by right|congruence].
  - rewrite andb_false_r. apply holds_false in Ea.
    assert (after g h r true (deleteGuard h w1)) as Hd.
    { unfold deleteGuard. subst w1. fields. replace (set_guards _ (set_guards _ w)) with
        (set_guards (delete h (alter stopTimer h (guards w))) (set_actions (actions w) w)) by by destruct w.
      apply after_guards; [eapply after_stray; [exact H|by left|done]|].
      intros x G [_ HG]%lookup_delete_Some. by eapply (alter_closes stopTimer). }
    destruct (negb (isClosing h w) && holds (pending_ w) h) eqn:Ep; [|done].
    apply andb_true_iff in Ep as [_ Ep]. apply holds_true in Ep.
    assert (active_ w = Some g) as Ha by (destruct H as [H _|_ _ H|_ _ _ _ H]; congruence).
    match goal with |- context [armFailed ?c ?m ?u] => destruct (armFailed_kept g c m u Ha) as [A _] end.
    split; [apply Kept; congruence|]. rewrite A. congruence.
Qed.

Lemma onFinished_after g h lines last errors code crashed w : ok w -> kill_switch (settings w) = true -> active_ w = Some g ->
  let w' := onFinished h lines last errors code crashed w in
  after g h (existsb readyLine lines || readyLine last) true w' /\ active_ w' <> Some h.
Proof.
  intros Hok Hk Ha. cbv zeta. unfold onFinished. cbv zeta.
  destruct (readOutput_after g h lines false false w Hok Hk (Kept _ _ _ _ _ Ha (fun _ => eq_refl))) as [H1 S1]. cbn [orb] in H1.
  pose proof (readOutput_ok h lines w Hok) as O1. set (w1 := readOutput h lines w) in *.
  set (w2 := if isEmpty (trimmed last) then _ else _).
  assert (exists f, ok w2 /\ settings w2 = settings w /\ after g h (existsb readyLine lines || readyLine last) f w2) as (f & O2 & S2 & H2).
  { subst w2. destruct (isEmpty (trimmed last)) eqn:E.
    - assert (readyLine last = false) as -> by (unfold readyLine; by destruct (trimmed last)). rewrite orb_false_r. by eexists.
    - destruct (handleLine_after g h _ _ last w1 O1 ltac:(by rewrite S1) H1) as [A B]. eexists. split_and!; [by apply handleLine_ok|congruence|exact A]. }
  clearbody w2. pose proof (readErrors_ok h errors true w2 O2) as O3.
  destruct (readErrors_guards h errors true w2) as (ff & acts & Hff & E). rewrite E in *.
  apply (end_after g h _ f); [done|exact (eq_trans (f_equal kill_switch S2) Hk)|].
  apply after_guards; [done|]. by apply alter_closes.
Qed.

(** Every other event leaves the guard in force in its place. *)
Lemma others_keep w e g : kill_switch (settings w) = true -> overridden_ w = false -> active_ w = Some g ->
  guardOf e = None -> (forall late, e <> Shutdown late) -> active_ (step w e) = Some g.
Proof.
  intros Hk Ho Ha Hg Hs. destruct e; cbn [step guardOf] in *; try done.
  - by rewrite apply_active.
  - unfold whenSettled. case_match; [by rewrite runCallback_active|done].
  - unfold whenIdle. case_match; [done|by rewrite runCallback_active].
  - by rewrite permitExtraCore_active.
  - unfold noteIdentityUnsupported. by rewrite apply_active.
  - unfold onApiPort. case_match; [done|]. case_match; [done|]. by rewrite apply_active.
  - unfold onRespawnTimer. case_match; [done|]. case_match; [done|]. by rewrite apply_active.
  - by destruct (Hs late).
  - unfold guardStarted. case_match; [by case_match|done].
  - by rewrite readErrors_active.
  - case_match; [|done]. case_match; [|done]. rewrite guardSet_eq. unfold onReadyTimeout. cbv zeta. case_match; [done|].
    rewrite armFailed_active. unfold stopHard. fields. by rewrite closeGuard_active.
  - case_match; [|done]. case_match; [done|]. unfold onStartFailed. cbv zeta. rewrite !guardSet_eq.
    case_match; [rewrite armFailed_active|]; done.
  - by destruct (graceTimer_eq g0 w) as (acts & ->).
Qed.

(** A guard in no place says what it likes. *)
Lemma stray_keeps w e g h : ok w -> active_ w = Some g -> guardOf e = Some h -> g <> h -> pending_ w <> Some h -> active_ (step w e) = Some g.
Proof.
  intros Hok Ha He Hne Hp. destruct e; cbn [guardOf step] in *; try done; injection He as ->.
  - case_match; [|done]. by apply readOutput_stray.
  - destruct (guards w !! h); [|done]. rewrite guardSet_eq. by apply onFinished_stray.
Qed.

Lemma guard_event w e g h : ok w -> kill_switch (settings w) = true -> active_ w = Some g -> guardOf e = Some h ->
  after g h (saysReady e) (saysFailed e) (step w e).
Proof.
  intros Hok Hk Ha He. destruct e; cbn [guardOf step saysReady saysFailed] in *; try done; injection He as ->.
  - case_match eqn:E.
    2:{ apply Kept; [done|]. intros ->. destruct (go_active _ _ _ _ (ok_guards _ Hok) h Ha) as (G & EG & _). by rewrite EG in E. }
    by apply (readOutput_after g h lines false false w Hok Hk (Kept _ _ _ _ _ Ha (fun _ => eq_refl))).
  - destruct (guards w !! h) as [G|] eqn:E.
    + rewrite guardSet_eq. destruct (onFinished_after g h lines last0 errors exitCode crashed (set_guards (alter setNotRunning h (guards w)) w)) as [A B];
        [rewrite <- guardSet_eq; by apply ok_alter|done|done|done].
    + apply Kept; [done|]. intros ->. destruct (go_active _ _ _ _ (ok_guards _ Hok) h Ha) as (G & EG & _). congruence.
Qed.

(** C29: Protection is continuous. While the setting is on and not overridden, a
    guard in force stays the active one, still open, through every event but three.
    The guard that was awaited says that it is ready: it becomes the active one, in
    force, and the old one is closed. The guard that is active, or became
    so in this event, gives up with an ERROR or FAIL line or exits: then none is
    active, and a guard is awaited or the failure reported, unless the program is
    shutting down. Last, the shutdown. *)
Theorem ks_protection_continuous (s : Settings) (es : list Event) (w : World) (g : Z) (e : Event)
    (Hw : w = run (start s) es) (Ha : active_ w = Some g)
    (Hk : kill_switch (settings w) = true) (Ho : overridden_ w = false) :
  let w' := step w e in
  (active_ w' = Some g /\ (exists G, guards w' !! g = Some G /\ inForce G) /\
     (guardOf e = Some g -> saysFailed e = false)) \/
  (exists h H, guardOf e = Some h /\ h <> g /\ pending_ w = Some h /\ saysReady e = true /\
     active_ w' = Some h /\ guards w' !! h = Some H /\ inForce H /\ gone g w') \/
  (exists h, guardOf e = Some h /\ saysFailed e = true /\ (h = g \/ pending_ w = Some h /\ saysReady e = true) /\
     active_ w' = None /\ mourned w') \/
  (exists late, e = Shutdown late).
Proof.
  cbv zeta. assert (ok w) as Hok by (rewrite Hw; apply run_ok, start_ok). clear Hw.
  pose proof (step_ok w e Hok) as Hok'.
  assert (forall h, active_ (step w e) = Some h -> exists G, guards (step w e) !! h = Some G /\ inForce G) as Hin.
  { intros h. apply (go_active _ _ _ _ (ok_guards _ Hok')). }
  destruct (guardOf e) as [h|] eqn:Eg.
  - destruct (decide (g = h \/ pending_ w = Some h)) as [Hh|Hh].
    2:{ assert (active_ (step w e) = Some g) as E by (apply (stray_keeps w e g h); tauto). left. split_and!; [done|by apply Hin|].
        intros [= ->]. tauto. }
    destruct (guard_event w e g h Hok Hk Ha Eg) as [H Hf|Hn Hr H Hg|Hf Hr H Hm _].
    + left. split_and!; [done|by apply Hin|]. intros [= ->]. by apply Hf.
    + right; left. destruct (Hin h H) as (G & EG & HG). exists h, G. split_and!; try done. by destruct Hh.
    + right; right; left. exists h. split_and!; try done. destruct Hr as [->|Hr]; [by left|]. destruct Hh as [->|Hp]; [by left|by right].
  - destruct e as [| | | | | | | | | | | |late| | | | | | |]; try (left; split_and!; [|apply Hin|done]; by apply others_keep).
    right; right; right. by eexists.
Qed.

(** Every waiter let go is answered, unless its context is gone. *)
Definition answered (c : Callback) (acts : list Action) : Prop :=
  match c with
  | OnPermit n _ => exists p, In (Permitted n p) acts
  | _ => exists armed, In (Called c armed) acts
  end.

Lemma runCallback_answers c w : exists acts, runCallback c w = set_actions (actions w ++ acts) w /\ answered c acts.
Proof. unfold runCallback, answered. destruct c; eexists [_]; (split; [done|]); eexists; by left. Qed.

Lemma answered_app c a b : answered c a \/ answered c b -> answered c (a ++ b).
Proof. unfold answered. destruct c; intros [(x & H)|(x & H)]; exists x; apply in_app_iff; tauto. Qed.

Lemma settle_answers w x : In x (waiters_ w) -> waits (state_ w) (pending_ w) x = false ->
  (bound x = true -> context x ∉ goneContexts w) -> answered (callback x) (actions (settle w)).
Proof.
  intros Hin Hx Hc. unfold settle.
  assert (forall ws kept acts, In x ws \/ answered (callback x) acts ->
    answered (callback x) (actions (fold_left settleOne ws (set_waiters_ kept (set_actions acts w))))) as H.
  { induction ws as [|y ws IH]; intros kept acts [Hi|Hi]; cbn [fold_left]; try done.
    all: unfold settleOne at 2; change (mustWait _ y) with (waits (state_ w) (pending_ w) y).
    all: change (goneContexts _) with (goneContexts w).
    - destruct Hi as [->|Hi].
      + rewrite Hx. replace (bound x && bool_decide (context x ∈ goneContexts w)) with false.
        2:{ destruct (bound x); [|done]. cbn [andb]. symmetry. apply bool_decide_eq_false. by apply Hc. }
        destruct (runCallback_answers (callback x) (set_waiters_ kept (set_actions acts w))) as (acts' & -> & Ha).
        apply (IH kept (acts ++ acts')). right. apply answered_app. by right.
      + case_match; [apply (IH (kept ++ [y]) acts); by left|]. case_match; [apply (IH kept acts); by left|].
        destruct (runCallback_answers (callback y) (set_waiters_ kept (set_actions acts w))) as (acts' & -> & Ha).
        apply (IH kept (acts ++ acts')). by left.
    - case_match; [apply (IH (kept ++ [y]) acts); by right|]. case_match; [apply (IH kept acts); by right|].
      destruct (runCallback_answers (callback y) (set_waiters_ kept (set_actions acts w))) as (acts' & -> & Ha).
      apply (IH kept (acts ++ acts')). right. apply answered_app. by left. }
  replace (set_waiters_ [] w) with (set_waiters_ [] (set_actions (actions w) w)) by by destruct w.
  apply H. by left.
Qed.

Lemma fail_settles code message w : pending_ w = None ->
  state_ (fail code message w) = Failed /\ waiters_ (fail code message w) = [] /\ pending_ (fail code message w) = None /\
  forall x, In x (waiters_ w) -> (bound x = true -> context x ∉ goneContexts w) ->
    answered (callback x) (actions (fail code message w)).
Proof.
  intros Hp. destruct (fail_eq code message w) as (c & m & acts & E). rewrite E. fields.
  assert (forall x, waits Failed None x = false) as Hn by (intros x; unfold waits; by destruct (idle x)).
  split_and!; [done| |done|].
  - rewrite Hp. apply Lists.filter_none. apply Forall_forall. by intros x _.
  - intros x Hx Hc. change acts with (actions (set_waiters_ (List.filter (waits Failed (pending_ w)) (waiters_ w))
      (set_state_ Failed (set_failureCode_ c (set_failureMessage_ m (set_actions acts w)))))).
    rewrite <- E. unfold fail. cbv zeta. match goal with |- context [setState Failed ?u] => set (w1 := u) end.
    destruct (setState_eq Failed w1) as (c' & m' & acts' & ->). subst w1.
    apply settle_answers; fields; [done|by rewrite Hp, Hn|done].
Qed.

(** C30: Arming always comes to an end: the guard that is awaited runs under a
    timer, and when it expires the state is [Failed], nobody waits any more and
    every waiter was answered. *)
Theorem ks_arming_resolves (s : Settings) (es : list Event) (w : World)
    (Hw : w = run (start s) es) (Hsd : shutdown_ w = false) (Hs : state_ w = Arming) :
  exists g, pending_ w = Some g /\
    let w' := step w (ReadyTimeout g) in
    state_ w' = Failed /\ waiters_ w' = [] /\ pending_ w' = None /\
    forall x, In x (waiters_ w) -> (bound x = true -> context x ∉ goneContexts w) ->
      answered (callback x) (actions w').
Proof.
  destruct (run_ok es (start s) (start_ok s)) as [Hg Hst _]. rewrite <- Hw in *.
  destruct (so_arming _ _ _ _ (Hst Hsd) Hs) as [Ha Hp]. destruct (pending_ w) as [g|] eqn:Ep; [|done].
  exists g. split; [done|]. destruct (go_pending _ _ _ _ Hg g eq_refl) as (G & EG & Hc & Hr & Ht).
  cbv zeta. cbn [step]. rewrite EG, Ht. unfold onReadyTimeout. cbv zeta. rewrite guardSet_eq. fields.
  rewrite Ep, (proj2 (holds_true (Some g) g) eq_refl), lookup_alter_eq, EG. cbn [negb orb].
  change (match stopTimer <$> Some G with Some G0 => ready G0 | None => false end) with (ready G). rewrite Hr.
  match goal with |- context [closeGuard (Some g) ?u] => destruct (closeGuard_eq (Some g) u) as (gs & acts & -> & _) end.
  unfold armFailed, stopHard. fields. rewrite Ha. cbn [isSome].
  match goal with |- context [fail ?c ?m ?u] => destruct (fail_settles c m u eq_refl) as (H1 & H2 & H3 & H4) end.
  split_and!; done.
Qed.
End Handlers.

(** A run on one platform: the setting is on, a guard is started and says it is ready. *)
Definition exampleSettings : Settings := MkSettings true false false [] [] false [].
Definition exampleEvents : list Event := [Apply; WhenSettled None 7; GuardStarted 0; GuardOutput 0 [qs "READY"]].
Definition exampleRun (es : list Event) : World :=
  run Linux id (fun p _ => p) (fun _ => []) (fun _ => []) id id (start exampleSettings) es.

Example exampleRun_armed : state_ (exampleRun exampleEvents) = Armed /\ active_ (exampleRun exampleEvents) = Some 0 /\
  In (Called (OnSettled 7) true) (actions (exampleRun exampleEvents)).
Proof. vm_compute. tauto. Qed.

Lemma ks_state_true_witness :
  state_ (exampleRun exampleEvents) = Armed /\
  exists g G, active_ (exampleRun exampleEvents) = Some g /\ guards (exampleRun exampleEvents) !! g = Some G /\ inForce G.
Proof.
  split; [by vm_compute|].
  destruct (ks_state_true Linux id (fun p _ => p) (fun _ => []) (fun _ => []) id id exampleSettings exampleEvents
    (exampleRun exampleEvents) ltac:(unfold exampleRun; reflexivity) ltac:(by vm_compute)) as [H _].
  apply H. by vm_compute.
Defined.

Lemma ks_protection_continuous_witness :
  active_ (exampleRun exampleEvents) = Some 0 /\
  active_ (step Linux id (fun p _ => p) (fun _ => []) (fun _ => []) id id (exampleRun exampleEvents) (SetApiPort 80)) = Some 0.
Proof.
  split; [by vm_compute|].
  destruct (ks_protection_continuous Linux id (fun p _ => p) (fun _ => []) (fun _ => []) id id exampleSettings
    exampleEvents (exampleRun exampleEvents) 0 (SetApiPort 80) ltac:(unfold exampleRun; reflexivity)
    ltac:(by vm_compute) ltac:(by vm_compute) ltac:(by vm_compute))
    as [[H _]|[(h & H & E & _)|[(h & E & _)|(late & E)]]]; [exact H|discriminate E..].
Defined.

Lemma ks_arming_resolves_witness :
  exists g, pending_ (exampleRun [Apply; WhenSettled None 7]) = Some g /\
    waiters_ (step Linux id (fun p _ => p) (fun _ => []) (fun _ => []) id id
      (exampleRun [Apply; WhenSettled None 7]) (ReadyTimeout g)) = [].
Proof.
  destruct (ks_arming_resolves Linux id (fun p _ => p) (fun _ => []) (fun _ => []) id id exampleSettings
    [Apply; WhenSettled None 7] (exampleRun [Apply; WhenSettled None 7]) ltac:(unfold exampleRun; reflexivity) ltac:(by vm_compute) ltac:(by vm_compute)) as (g & Hp & _ & Hw & _).
  exists g. split; [exact Hp|exact Hw].
Defined.
