(* ===== verification/Subscription.v ===== *)
(** * Refreshing a subscription (src/src/configs/sub/SubscriptionReconcile.cpp)

    The profiles of a group against the profiles a document brings: identical
    content keeps its row, a leftover of the same identity is updated in place,
    the rest is added or goes. [sinkAdd] and [flush] are the part of
    [GroupUpdater]'s ImportSink that feeds the diff; digests are byte strings. *)

From S2P Require Import Prelude QtText Lists.

Local Open Scope Z_scope.

(** ** Data *)

Record ProfileKeys := MkKeys { content : qstring; identity : qstring }.
Record OldEntry := MkOld { oldId : Z; oldKeys : ProfileKeys; oldDisplay : qstring }.
Record NewEntry := MkNew {
  newId : Z;
  reused : bool;
  contentKnown : bool;
  newKeys : ProfileKeys;
  newDisplay : qstring }.

(** Queues of ids by key, as [QHash<QByteArray, QList<int>>]. *)
Definition poolAdd (k : qstring) (id : Z) (m : gmap qstring (list Z)) : gmap qstring (list Z) :=
  <[k := default [] (m !! k) ++ [id]]> m.
Definition poolTake (k : qstring) (m : gmap qstring (list Z)) : option (Z * gmap qstring (list Z)) :=
  match m !! k with
  | Some (id :: rest) => Some (id, <[k := rest]> m)
  | _ => None
  end.

Record ContentIndex := MkIndex {
  unclaimed : gmap qstring (list Z);
  known : gset qstring;
  arrivals : gset qstring;
  claimedIds : gset Z }.

Definition contentIndex (old : list OldEntry) : ContentIndex :=
  fold_left (fun ix e => MkIndex (poolAdd (content (oldKeys e)) (oldId e) (unclaimed ix))
                          ({[content (oldKeys e)]} ∪ known ix) (arrivals ix) (claimedIds ix))
    old (MkIndex ∅ ∅ ∅ ∅).

Definition knows (ix : ContentIndex) (c : qstring) : bool := bool_decide (c ∈ known ix).
Definition arrived (ix : ContentIndex) (c : qstring) : bool := bool_decide (c ∈ arrivals ix).
Definition isClaimed (ix : ContentIndex) (id : Z) : bool := bool_decide (id ∈ claimedIds ix).
Definition noteArrival (ix : ContentIndex) (c : qstring) : ContentIndex :=
  MkIndex (unclaimed ix) (known ix) ({[c]} ∪ arrivals ix) (claimedIds ix).
Definition claim (ix : ContentIndex) (c : qstring) : option Z * ContentIndex :=
  match poolTake c (unclaimed ix) with
  | None => (None, ix)
  | Some (id, rest) => (Some id, MkIndex rest (known ix) (arrivals ix) ({[id]} ∪ claimedIds ix))
  end.

(** ** Arrivals *)

Record Arrival := MkArrival { arrivalKeys : ProfileKeys; arrivalDisplay : qstring }.

Definition sinkAdd (st : ContentIndex * list NewEntry) (a : Arrival) : ContentIndex * list NewEntry :=
  let '(ix, entries) := st in
  let c := content (arrivalKeys a) in
  let ix := noteArrival ix c in
  let contentKnown := knows ix c in
  match claim ix c with
  | (Some id, ix) => (ix, entries ++ [MkNew id true contentKnown (MkKeys c []) (arrivalDisplay a)])
  | (None, ix) =>
      let i := if negb contentKnown then identity (arrivalKeys a) else [] in
      (ix, entries ++ [MkNew (-1) false contentKnown (MkKeys c i) (arrivalDisplay a)])
  end.

(** The rows the batch inserted, in the order of the entries that had none. *)
Fixpoint flush (entries : list NewEntry) (rows : list Z) : list NewEntry :=
  match entries with
  | [] => []
  | e :: entries' =>
      if reused e then e :: flush entries' rows
      else match rows with
           | id :: rows' => MkNew id (reused e) (contentKnown e) (newKeys e) (newDisplay e) :: flush entries' rows'
           | [] => e :: flush entries' []
           end
  end.

(** ** The diff *)

Record ReconcilePlan := MkReconcile {
  order : list Z;
  updates : list (Z * Z);
  stale : list Z;
  added : list qstring;
  updated : list qstring;
  deleted : list qstring }.

Definition leftoverByIdentity (old : list OldEntry) (ix : ContentIndex) : gmap qstring (list Z) :=
  fold_left (fun m e => if isClaimed ix (oldId e) || arrived ix (content (oldKeys e)) then m
                        else poolAdd (identity (oldKeys e)) (oldId e) m) old ∅.

Record Matching := MkMatching {
  leftover : gmap qstring (list Z);
  pairs : list (Z * Z);
  pairDisplays : list qstring;
  supersededBy : gmap Z Z;
  matchedOld : gset Z }.

Definition matchEntry (st : Matching) (e : NewEntry) : Matching :=
  if (newId e <? 0) || reused e || contentKnown e then st
  else
    match poolTake (identity (newKeys e)) (leftover st) with
    | None => st
    | Some (old, rest) =>
        MkMatching rest (pairs st ++ [(old, newId e)]) (pairDisplays st ++ [newDisplay e])
          (<[newId e := old]> (supersededBy st)) ({[old]} ∪ matchedOld st)
    end.

Definition placeEntry (superseded : gmap Z Z) (st : list Z * list Z * list qstring) (e : NewEntry)
    : list Z * list Z * list qstring :=
  let '(order, stale, added) := st in
  if newId e <? 0 then st
  else if reused e then (order ++ [newId e], stale, added)
  else match superseded !! newId e with
       | Some old => (order ++ [old], stale ++ [newId e], added)
       | None => (order ++ [newId e], stale, added ++ [newDisplay e])
       end.

Definition Reconcile (old : list OldEntry) (incoming : list NewEntry) (index : ContentIndex) : ReconcilePlan :=
  let m := fold_left matchEntry incoming (MkMatching (leftoverByIdentity old index) [] [] ∅ ∅) in
  let gone := List.filter (fun e => negb (isClaimed index (oldId e) || bool_decide (oldId e ∈ matchedOld m))) old in
  let '(order, stale, added) :=
    fold_left (placeEntry (supersededBy m)) incoming ([], map oldId gone, []) in
  MkReconcile order (pairs m) stale added (pairDisplays m) (map oldDisplay gone).

(** A refresh: the arrivals go through the sink, the fresh ones get their rows. *)
Definition refresh (old : list OldEntry) (arrivals : list Arrival) (rows : list Z) : list NewEntry * ReconcilePlan :=
  let '(index, entries) := fold_left sinkAdd arrivals (contentIndex old, []) in
  let entries := flush entries rows in
  (entries, Reconcile old entries index).

(** ** The queues *)

(** A queue map holds the ids of a list of keyed ids, in its order. *)
Definition holds (m : gmap qstring (list Z)) (l : list (qstring * Z)) : Prop :=
  forall k, default [] (m !! k) = map snd (List.filter (fun p => bool_decide (fst p = k)) l).

Lemma holds_empty : holds ∅ [].
Proof. intros k. by rewrite lookup_empty. Qed.

Lemma holds_add m l k id : holds m l -> holds (poolAdd k id m) (l ++ [(k, id)]).
Proof.
  intros H k'. unfold poolAdd. rewrite List.filter_app, map_app. cbn [List.filter fst].
  destruct (decide (k = k')) as [->|Hne].
  - rewrite lookup_insert_eq, bool_decide_true by done. cbn. by rewrite H.
  - rewrite lookup_insert_ne, bool_decide_false, app_nil_r by done. apply H.
Qed.

Lemma holds_take m l k : holds m l ->
  match poolTake k m with
  | Some (id, m') => exists l1 l2, l = l1 ++ (k, id) :: l2 /\ holds m' (l1 ++ l2)
  | None => forall id, (k, id) ∉ l
  end.
Proof.
  intros H. unfold poolTake. pose proof (H k) as Hk.
  destruct (m !! k) as [[|id rest]|] eqn:E; cbn in Hk.
  1,3: intros id Hid%list_elem_of_In; assert (In id (map snd (List.filter (fun p => bool_decide (fst p = k)) l))) as Hin
    by (apply in_map_iff; exists (k, id); split; [done|]; apply filter_In; split; [done|]; by apply bool_decide_eq_true);
    by rewrite <- Hk in Hin.
  assert (exists l1 l2, l = l1 ++ (k, id) :: l2 /\ List.filter (fun p => bool_decide (fst p = k)) l1 = []) as (l1 & l2 & -> & Hl1).
  { clear H E. revert Hk. induction l as [|[k' id'] l IH]; intros Hk; [done|]. cbn [List.filter fst] in Hk.
    case_bool_decide as Ek.
    - subst k'. injection Hk as -> _. by exists [], l.
    - destruct (IH Hk) as (l1 & l2 & -> & Hl). exists ((k', id') :: l1), l2. split; [done|]. cbn. by rewrite bool_decide_false. }
  exists l1, l2. split; [done|]. intros k'. destruct (decide (k' = k)) as [->|Hne].
  - rewrite lookup_insert_eq. rewrite List.filter_app, map_app, Hl1 in Hk |- *. cbn in Hk |- *.
    rewrite bool_decide_true in Hk by done. by injection Hk.
  - rewrite lookup_insert_ne by done. rewrite H, !List.filter_app, !map_app. cbn. by rewrite bool_decide_false.
Qed.

(** ** What the sink leaves *)

Definition contentPair (o : OldEntry) : qstring * Z := (content (oldKeys o), oldId o).
Definition reusedIds (es : list NewEntry) : list Z := map newId (List.filter reused es).
Definition freshEntries (es : list NewEntry) : list NewEntry := List.filter (fun e => negb (reused e)) es.

Record sink_ok (old : list OldEntry) (ix : ContentIndex) (es : list NewEntry) (l : list (qstring * Z)) : Prop := {
  si_holds : holds (unclaimed ix) l;
  si_known : forall c, c ∈ known ix <-> exists o, o ∈ old /\ content (oldKeys o) = c;
  si_claimed : forall id, id ∈ claimedIds ix <-> id ∈ reusedIds es;
  si_ids : reusedIds es ++ map snd l ≡ₚ map oldId old;
  si_left : forall p, p ∈ l -> p ∈ map contentPair old;
  si_reused : forall e, e ∈ es -> reused e = true -> exists o, o ∈ old /\ oldId o = newId e /\ content (oldKeys o) = content (newKeys e);
  si_fresh : forall e, e ∈ es -> reused e = false -> newId e = -1 /\ (contentKnown e = true <-> content (newKeys e) ∈ known ix) /\
    forall id, (content (newKeys e), id) ∉ l }.

Lemma contentIndex_ok old : sink_ok old (contentIndex old) [] (map contentPair old).
Proof.
  unfold contentIndex.
  assert (forall es ix l, holds (unclaimed ix) l -> claimedIds ix = ∅ ->
    let ix' := fold_left (fun ix e => MkIndex (poolAdd (content (oldKeys e)) (oldId e) (unclaimed ix))
                 ({[content (oldKeys e)]} ∪ known ix) (arrivals ix) (claimedIds ix)) es ix in
    holds (unclaimed ix') (l ++ map contentPair es) /\ claimedIds ix' = ∅ /\
    (forall c, c ∈ known ix' <-> c ∈ known ix \/ exists o, o ∈ es /\ content (oldKeys o) = c)) as H.
  { induction es as [|e es IH]; intros ix l Hl Hc; cbv zeta in *; cbn [fold_left map].
    - rewrite app_nil_r. split_and!; [done..|]. intros c. set_solver.
    - destruct (IH (MkIndex (poolAdd (content (oldKeys e)) (oldId e) (unclaimed ix))
        ({[content (oldKeys e)]} ∪ known ix) (arrivals ix) (claimedIds ix)) (l ++ [contentPair e])) as (H1 & H2 & H3).
      + by apply holds_add.
      + done.
      + rewrite <- app_assoc in H1. split_and!; [done..|]. intros c. rewrite H3. cbn [known].
        rewrite elem_of_union, elem_of_singleton. split.
        * intros [[->|Hc']|(o & Ho & E)]; [right; exists e; split; [by apply list_elem_of_here|done]|by left|].
          right. exists o. split; [by apply list_elem_of_further|done].
        * intros [Hc'|(o & [Ho|Ho]%elem_of_cons & E)]; [by left; right|subst o; by left; left|right; by exists o]. }
  destruct (H old (MkIndex ∅ ∅ ∅ ∅) [] holds_empty eq_refl) as (H1 & H2 & H3). split.
  - exact H1.
  - intros c. rewrite H3. cbn. set_solver.
  - intros id. match type of H2 with ?a = _ => match goal with |- id ∈ ?b <-> _ => replace b with (∅ : gset Z) by (symmetry; exact H2) end end. cbn. set_solver.
  - cbn. rewrite map_map. done.
  - done.
  - intros e He. by apply elem_of_nil in He.
  - intros e He. by apply elem_of_nil in He.
Qed.

Lemma reusedIds_snoc es e : reusedIds (es ++ [e]) = reusedIds es ++ (if reused e then [newId e] else []).
Proof. unfold reusedIds. rewrite List.filter_app, map_app. cbn. by destruct (reused e). Qed.

Lemma sinkAdd_ok old ix es l a : sink_ok old ix es l -> exists ix' e l',
  sinkAdd (ix, es) a = (ix', es ++ [e]) /\ sink_ok old ix' (es ++ [e]) l' /\
  content (newKeys e) = content (arrivalKeys a) /\
  (contentKnown e = false -> reused e = false -> identity (newKeys e) = identity (arrivalKeys a)).
Proof.
  intros [H1 H2 H3 H4 H5 H6 H7]. unfold sinkAdd, claim. cbn [noteArrival unclaimed]. set (c := content (arrivalKeys a)).
  pose proof (holds_take _ _ c H1) as Ht. destruct (poolTake c (unclaimed ix)) as [[id rest]|].
  - destruct Ht as (l1 & l2 & -> & Hr). do 3 eexists. split; [reflexivity|]. split; [|done]. split.
    + exact Hr.
    + exact H2.
    + intros x. cbn [claimedIds]. rewrite reusedIds_snoc. cbn [reused newId]. rewrite elem_of_union, elem_of_singleton, H3.
      rewrite elem_of_app, list_elem_of_singleton. tauto.
    + rewrite reusedIds_snoc. cbn [reused newId]. rewrite <- H4, !map_app. cbn [map snd].
      rewrite <- app_assoc. cbn [app]. by rewrite (Permutation_middle (map snd l1)).
    + intros p Hp. apply H5. rewrite elem_of_app, elem_of_cons in *. tauto.
    + intros e [He|He%list_elem_of_singleton]%elem_of_app Hre; [by apply H6|subst e]. cbn [newId newKeys content].
      assert ((c, id) ∈ map contentPair old) as Hin by (apply H5; rewrite elem_of_app, elem_of_cons; tauto).
      apply list_elem_of_fmap in Hin as (o & [= Ec Ei] & Ho). exists o. by split_and!.
    + intros e [He|He%list_elem_of_singleton]%elem_of_app Hre; [|by subst e]. destruct (H7 e He Hre) as (A1 & A2 & A3).
      split_and!; [done|done|]. intros x Hx. apply (A3 x). rewrite elem_of_app, elem_of_cons in *. tauto.
  - do 3 eexists. split; [reflexivity|]. split; [|cbn [newKeys content identity contentKnown reused]; split; [done|by intros -> _]].
    split; [exact H1|exact H2| | |exact H5| |].
    + intros x. rewrite reusedIds_snoc. cbn. rewrite app_nil_r. apply H3.
    + rewrite reusedIds_snoc. cbn. by rewrite app_nil_r.
    + intros e [He|He%list_elem_of_singleton]%elem_of_app Hre; [by apply H6|by subst e].
    + intros e [He|He%list_elem_of_singleton]%elem_of_app Hre; [by apply H7|subst e]. split_and!; [done| |exact Ht].
      cbn [contentKnown newKeys content]. apply bool_decide_eq_true.
Qed.

Lemma sink_all old arrivals : forall ix es l, sink_ok old ix es l -> exists ix' es' l',
  fold_left sinkAdd arrivals (ix, es) = (ix', es ++ es') /\ sink_ok old ix' (es ++ es') l' /\
  Forall2 (fun a e => content (newKeys e) = content (arrivalKeys a)) arrivals es'.
Proof.
  induction arrivals as [|a arrivals IH]; intros ix es l H; cbn [fold_left].
  - exists ix, [], l. rewrite app_nil_r. by split_and!.
  - destruct (sinkAdd_ok old ix es l a H) as (ix1 & e & l1 & -> & H1 & He & _).
    destruct (IH ix1 (es ++ [e]) l1 H1) as (ix2 & es2 & l2 & -> & H2 & Hc).
    exists ix2, (e :: es2), l2. rewrite <- app_assoc in H2 |- *. split_and!; [done..|]. by constructor.
Qed.

(** The entries with their rows. *)
Lemma flush_spec es : forall rows, length rows = length (freshEntries es) ->
  reusedIds (flush es rows) = reusedIds es /\ map newId (freshEntries (flush es rows)) = rows /\
  length (flush es rows) = length es /\
  forall e, e ∈ flush es rows -> exists e0, e0 ∈ es /\ reused e = reused e0 /\ contentKnown e = contentKnown e0 /\
    newKeys e = newKeys e0 /\ newDisplay e = newDisplay e0 /\ (reused e = true -> newId e = newId e0).
Proof.
  induction es as [|e es IH]; intros rows Hr; cbn [flush].
  - cbn in Hr. destruct rows; [|done]. split_and!; try done. intros e He. by apply elem_of_nil in He.
  - unfold reusedIds, freshEntries in *. cbn [List.filter] in *. destruct (reused e) eqn:Er; cbn [negb] in *.
    + destruct (IH rows Hr) as (A1 & A2 & A3 & A4). cbv iota. cbn [List.filter]. rewrite ?Er. cbn [negb map length]. rewrite A1, A2, A3.
      split_and!; try done. intros x [Hx|Hx]%elem_of_cons; [subst x; exists e; split; [apply list_elem_of_here|by split_and!]|].
      destruct (A4 x Hx) as (e0 & He0 & Hrest). exists e0. split; [by apply list_elem_of_further|done].
    + destruct rows as [|id rows]; [done|]. cbn [length] in Hr. destruct (IH rows ltac:(lia)) as (A1 & A2 & A3 & A4).
      cbv iota. cbn [List.filter reused]. rewrite ?Er. cbn [negb map length newId]. rewrite A1, A2, A3.
      split_and!; try done. intros x [Hx|Hx]%elem_of_cons.
      * subst x. exists e. split; [apply list_elem_of_here|]. cbn [reused contentKnown newKeys newDisplay]. split_and!; [done..|congruence].
      * destruct (A4 x Hx) as (e0 & He0 & Hrest). exists e0. split; [by apply list_elem_of_further|done].
Qed.

Lemma flush_contents (arrivals : list Arrival) es : forall rows,
  Forall2 (fun a e => content (newKeys e) = content (arrivalKeys a)) arrivals es ->
  Forall2 (fun a e => content (newKeys e) = content (arrivalKeys a)) arrivals (flush es rows).
Proof.
  intros rows H. revert rows. induction H as [|a e arrivals es He _ IH]; intros rows; cbn [flush]; [constructor|].
  destruct (reused e); [by constructor|]. destruct rows; by constructor.
Qed.

(** ** What the diff does *)

Definition freshIds (es : list NewEntry) : list Z := map newId (freshEntries es).
Definition eligibleOld (ix : ContentIndex) (o : OldEntry) : bool :=
  negb (isClaimed ix (oldId o) || arrived ix (content (oldKeys o))).
Definition identityPair (o : OldEntry) : qstring * Z := (identity (oldKeys o), oldId o).

Lemma leftover_holds old ix : holds (leftoverByIdentity old ix) (map identityPair (List.filter (eligibleOld ix) old)).
Proof.
  unfold leftoverByIdentity.
  assert (forall es m l, holds m l -> holds (fold_left (fun m e => if isClaimed ix (oldId e) || arrived ix (content (oldKeys e)) then m
                        else poolAdd (identity (oldKeys e)) (oldId e) m) es m) (l ++ map identityPair (List.filter (eligibleOld ix) es))) as H.
  { induction es as [|e es IH]; intros m l Hl; cbn [fold_left List.filter map]; [by rewrite app_nil_r|].
    unfold eligibleOld at 1. destruct (isClaimed ix (oldId e) || arrived ix (content (oldKeys e))); cbn [negb map].
    - by apply IH.
    - change (identityPair e :: ?x) with ([identityPair e] ++ x). rewrite app_assoc. by apply IH, holds_add. }
  apply (H old ∅ []), holds_empty.
Qed.

(** One pair: an old profile and the row that came for it. *)
Definition pairOk (old : list OldEntry) (ix : ContentIndex) (es : list NewEntry) (p : Z * Z) : Prop :=
  exists o e, o ∈ old /\ e ∈ es /\ p = (oldId o, newId e) /\ identity (oldKeys o) = identity (newKeys e) /\
    eligibleOld ix o = true /\ reused e = false /\ contentKnown e = false.

Record match_ok (old : list OldEntry) (ix : ContentIndex) (all : list NewEntry) (st : Matching) (l : list (qstring * Z)) : Prop := {
  mo_holds : holds (leftover st) l;
  mo_left : forall p, p ∈ l -> p ∈ map identityPair (List.filter (eligibleOld ix) old);
  mo_ids : map fst (pairs st) ++ map snd l ≡ₚ map oldId (List.filter (eligibleOld ix) old);
  mo_superseded : forall n o, supersededBy st !! n = Some o <-> (o, n) ∈ pairs st;
  mo_new : NoDup (map snd (pairs st));
  mo_matched : forall id, id ∈ matchedOld st <-> id ∈ map fst (pairs st);
  mo_pairs : Forall (pairOk old ix all) (pairs st) }.

Lemma match_all old ix all es : forall st l, match_ok old ix all st l ->
  (forall e, e ∈ es -> e ∈ all /\ 0 <= newId e) -> NoDup (freshIds es) ->
  (forall n, n ∈ freshIds es -> n ∉ map snd (pairs st)) ->
  exists l', match_ok old ix all (fold_left matchEntry es st) l' /\
    (forall n, n ∈ map snd (pairs (fold_left matchEntry es st)) -> n ∈ map snd (pairs st) \/ n ∈ freshIds es).
Proof.
  induction es as [|e es IH]; intros st l H Hall Hn Hd; cbn [fold_left]; [exists l; split; [done|]; tauto|].
  assert (forall e', e' ∈ es -> e' ∈ all /\ 0 <= newId e') as Hall' by (intros; apply Hall; by apply list_elem_of_further).
  destruct (Hall e ltac:(apply list_elem_of_here)) as [He H0].
  unfold freshIds, freshEntries in Hn, Hd |- *. cbn [List.filter] in Hn, Hd |- *. destruct (reused e) eqn:Er; cbn [negb map] in Hn, Hd |- *.
  { unfold matchEntry at 2 4. rewrite Er, orb_true_r. by apply (IH st l). }
  apply NoDup_cons in Hn as [Hne Hn].
  assert (matchEntry st e = st \/ contentKnown e = false /\ exists o rest, poolTake (identity (newKeys e)) (leftover st) = Some (o, rest) /\
    matchEntry st e = MkMatching rest (pairs st ++ [(o, newId e)]) (pairDisplays st ++ [newDisplay e])
      (<[newId e := o]> (supersededBy st)) ({[o]} ∪ matchedOld st)) as Hm.
  { unfold matchEntry. rewrite Er. destruct (Z.ltb_spec (newId e) 0); [lia|]. cbn [orb].
    destruct (contentKnown e); [by left|]. destruct (poolTake _ _) as [[o rest]|]; [|by left]. right. split; [done|]. by exists o, rest. }
  destruct Hm as [->|(Ek & o & rest & Et & ->)].
  { destruct (IH st l H Hall' Hn) as (l' & H1 & H2).
    - intros n Hin. apply Hd. by apply list_elem_of_further.
    - exists l'. split; [done|]. intros n Hin. destruct (H2 n Hin); [by left|right; by apply list_elem_of_further]. }
  destruct H as [A1 A2 A3 A4 A5 A6 A7].
  pose proof (holds_take _ _ (identity (newKeys e)) A1) as Ht. rewrite Et in Ht. destruct Ht as (l1 & l2 & -> & Hr).
  assert (newId e ∉ map snd (pairs st)) as Hnew by (apply Hd, list_elem_of_here).
  assert ((identity (newKeys e), o) ∈ map identityPair (List.filter (eligibleOld ix) old)) as Ho.
  { apply A2. rewrite elem_of_app, elem_of_cons. tauto. }
  match goal with |- context [fold_left matchEntry es ?u] => set (st' := u) end.
  assert (match_ok old ix all st' (l1 ++ l2)) as H'.
  { split; cbn [st' leftover pairs supersededBy matchedOld].
    - exact Hr.
    - intros p Hp. apply A2. rewrite elem_of_app, elem_of_cons in *. tauto.
    - rewrite <- A3, !map_app. cbn [map fst snd]. rewrite <- app_assoc. cbn [app]. by rewrite (Permutation_middle (map snd l1)).
    - intros n o'. rewrite elem_of_app, list_elem_of_singleton. destruct (decide (n = newId e)) as [->|Hx].
      + rewrite lookup_insert_eq. split; [intros [= ->]; by right|]. intros [Hp|[= ->]]; [|done].
        exfalso. apply Hnew. apply list_elem_of_fmap. by exists (o', newId e).
      + rewrite lookup_insert_ne, A4 by congruence. split; [by left|]. intros [Hp|[= _ ->]]; done.
    - rewrite map_app. cbn [map snd]. apply NoDup_app. split_and!; [done| |apply NoDup_singleton].
      intros n Hin ->%list_elem_of_singleton. done.
    - intros id. rewrite map_app, elem_of_app, elem_of_union, A6. cbn [map fst].
      rewrite list_elem_of_singleton, elem_of_singleton. tauto.
    - apply Forall_app. split; [done|]. apply Forall_cons. split; [|constructor].
      apply list_elem_of_fmap in Ho as (oe & [= Ei Eo] & Hoe). apply elem_of_filter' in Hoe as [Hoe Hel].
      exists oe, e. by rewrite Eo, <- Ei. }
  destruct (IH st' (l1 ++ l2) H' Hall' Hn) as (l' & H1 & H2).
  - intros n Hin. unfold st'. cbn [pairs]. rewrite map_app. cbn [map snd]. rewrite elem_of_app, list_elem_of_singleton. intros [Hx|Hx].
    + apply (Hd n); [by apply list_elem_of_further|done].
    + cbn [snd] in Hx. subst n. done.
  - exists l'. split; [done|]. intros n Hin. destruct (H2 n Hin) as [Hx|Hx]; [|right; by apply list_elem_of_further].
    unfold st' in Hx. cbn [pairs] in Hx. rewrite map_app in Hx. cbn [map snd] in Hx. rewrite elem_of_app, list_elem_of_singleton in Hx. destruct Hx as [Hx|Hx]; [by left|].
    cbn [snd] in Hx. subst n. right. apply list_elem_of_here.
Qed.

Definition placed (sup : gmap Z Z) (e : NewEntry) : Z :=
  if reused e then newId e else default (newId e) (sup !! newId e).

Lemma place_all sup es : Forall (fun e => 0 <= newId e) es -> forall o s a, exists a',
  fold_left (placeEntry sup) es (o, s, a) =
    (o ++ map (placed sup) es, s ++ List.filter (fun n => bool_decide (is_Some (sup !! n))) (freshIds es), a').
Proof.
  induction 1 as [|e es He _ IH]; intros o s a; cbn [fold_left map].
  - exists a. by rewrite !app_nil_r.
  - unfold placeEntry at 2. destruct (Z.ltb_spec (newId e) 0); [lia|].
    unfold freshIds, freshEntries, placed in *. cbn [List.filter]. destruct (reused e) eqn:Er; cbn [negb map List.filter].
    + destruct (IH (o ++ [newId e]) s a) as (a' & ->). exists a'. by rewrite <- app_assoc.
    + destruct (sup !! newId e) as [old|] eqn:Es; cbn [default from_option].
      * destruct (IH (o ++ [old]) (s ++ [newId e]) a) as (a' & ->). exists a'. rewrite bool_decide_true by done.
        by rewrite <- !app_assoc.
      * destruct (IH (o ++ [newId e]) s (a ++ [newDisplay e])) as (a' & ->). exists a'.
        rewrite bool_decide_false by (by intros []). by rewrite <- app_assoc.
Qed.

Lemma placed_perm sup es : map (placed sup) es ≡ₚ reusedIds es ++ map (fun n => default n (sup !! n)) (freshIds es).
Proof.
  induction es as [|e es IH]; [done|]. unfold reusedIds, freshIds, freshEntries, placed in *. cbn [map List.filter].
  destruct (reused e); cbn [negb map]; [by rewrite IH|]. rewrite IH. apply Permutation_middle.
Qed.

(** Replacing the second components of pairs by the first ones. *)
Lemma superseded_perm (ps : list (Z * Z)) (sup : gmap Z Z) (fresh : list Z) :
  (forall n o, sup !! n = Some o <-> (o, n) ∈ ps) -> NoDup (map snd ps) -> NoDup fresh ->
  (forall n, n ∈ map snd ps -> n ∈ fresh) ->
  map (fun n => default n (sup !! n)) fresh ++ List.filter (fun n => bool_decide (is_Some (sup !! n))) fresh ≡ₚ
  map fst ps ++ fresh.
Proof.
  intros Hs Hn Hf Hin. set (hit := fun n => bool_decide (is_Some (sup !! n))).
  assert (List.filter hit fresh ≡ₚ map snd ps) as Eh.
  { apply NoDup_Permutation; [by apply NoDup_filter'|done|]. intros n. rewrite elem_of_filter'. subst hit. cbn beta.
    rewrite bool_decide_eq_true. split.
    - intros [_ [o Ho%Hs]]. apply list_elem_of_fmap. by exists (o, n).
    - intros Hx. split; [by apply Hin|]. apply list_elem_of_fmap in Hx as ([o n'] & -> & Hx). exists o. by apply Hs. }
  assert (map (fun n => default n (sup !! n)) (List.filter hit fresh) ≡ₚ map fst ps) as E1.
  { rewrite Eh, map_map. apply reflexive_eq. apply map_ext_in. intros [o n] Hp%list_elem_of_In%Hs. cbn [fst snd]. by rewrite Hp. }
  assert (map (fun n => default n (sup !! n)) (List.filter (fun n => negb (hit n)) fresh) = List.filter (fun n => negb (hit n)) fresh) as E2.
  { etransitivity; [|apply map_id]. apply map_ext_in. intros n Hx%filter_In. destruct Hx as [_ Hx]. subst hit. cbn beta in Hx.
    apply negb_true_iff, bool_decide_eq_false in Hx. destruct (sup !! n) eqn:E; [|done]. destruct Hx. by eexists. }
  rewrite <- (filter_partition hit fresh) at 1. rewrite map_app, E1, E2, <- app_assoc. f_equiv.
  rewrite Permutation_app_comm. apply filter_partition.
Qed.

Lemma oldId_inj (old : list OldEntry) o o' : NoDup (map oldId old) -> o ∈ old -> o' ∈ old -> oldId o = oldId o' -> o = o'.
Proof.
  induction old as [|x old IH]; intros Hn Ho Ho' E; [by apply elem_of_nil in Ho|].
  cbn [map] in Hn. apply NoDup_cons in Hn as [Hx Hn].
  apply elem_of_cons in Ho as [->|Ho], Ho' as [->|Ho']; [done| | |by apply IH].
  - destruct Hx. rewrite E. by apply list_elem_of_fmap_2.
  - destruct Hx. rewrite <- E. by apply list_elem_of_fmap_2.
Qed.

(** The old profiles: kept, updated or gone. *)
Lemma old_perm old ix (kept : list Z) (matched : gset Z) (ps : list (Z * Z)) :
  NoDup (map oldId old) -> (forall id, id ∈ claimedIds ix <-> id ∈ kept) -> NoDup kept ->
  (forall id, id ∈ matched <-> id ∈ map fst ps) ->
  (exists rest, map fst ps ++ rest ≡ₚ map oldId (List.filter (eligibleOld ix) old)) ->
  (forall id, id ∈ kept -> id ∈ map oldId old) ->
  kept ++ map oldId (List.filter (fun e => negb (isClaimed ix (oldId e) || bool_decide (oldId e ∈ matched))) old) ++ map fst ps
    ≡ₚ map oldId old.
Proof.
  intros Hn Hk Hnk Hm (rest & Hr) Hsub.
  assert (forall p, NoDup (map oldId (List.filter p old))) as Hnf.
  { intros p. clear - Hn. induction old as [|x old IH]; [constructor|]. cbn [map List.filter] in *.
    apply NoDup_cons in Hn as [Hx Hn]. destruct (p x); [|by apply IH]. cbn [map]. apply NoDup_cons. split; [|by apply IH].
    intros Hin. apply Hx. apply list_elem_of_fmap in Hin as (y & -> & Hy). apply elem_of_filter' in Hy as [Hy _].
    by apply list_elem_of_fmap_2. }
  assert (forall id, id ∈ map fst ps -> id ∈ map oldId old /\ id ∉ kept) as Hps.
  { intros id Hid. assert (id ∈ map oldId (List.filter (eligibleOld ix) old)) as Hin by (rewrite <- Hr, elem_of_app; by left).
    apply list_elem_of_fmap in Hin as (o & -> & Ho). apply elem_of_filter' in Ho as [Ho He]. split; [by apply list_elem_of_fmap_2|].
    unfold eligibleOld, isClaimed in He. rewrite <- Hk. by apply negb_true_iff, orb_false_iff in He as [He%bool_decide_eq_false _]. }
  assert (forall id p, id ∈ map oldId (List.filter p old) <-> exists o, o ∈ old /\ id = oldId o /\ p o = true) as Hin.
  { intros id p. rewrite list_elem_of_fmap. split; intros (o & H).
    - destruct H as [-> Ho]. apply elem_of_filter' in Ho as [Ho Hp]. by exists o.
    - destruct H as (Ho & -> & Hp). exists o. split; [done|]. by apply elem_of_filter'. }
  apply NoDup_Permutation; [|done|].
  - apply NoDup_app. split_and!; [done| |].
    + intros id Hid. rewrite elem_of_app. intros [Hx|Hx]; [|by apply Hps in Hx as [_ Hx]].
      apply Hin in Hx as (o & _ & -> & Hx). unfold isClaimed in Hx. apply Hk in Hid. by rewrite bool_decide_true in Hx.
    + apply NoDup_app. split_and!; [apply Hnf| |].
      * intros id Hx Hid. apply Hin in Hx as (o & _ & -> & Hx). apply Hm in Hid.
        by rewrite (bool_decide_true (oldId o ∈ matched)), orb_true_r in Hx.
      * apply (NoDup_app _ rest). rewrite Hr. apply Hnf.
  - intros id. rewrite !elem_of_app. split.
    + intros [H|[H|H]]; [by apply Hsub| |by apply Hps]. apply Hin in H as (o & Ho & -> & _). by apply list_elem_of_fmap_2.
    + intros H. destruct (decide (id ∈ kept)) as [Hx|Hx]; [by left|]. right.
      destruct (decide (id ∈ matched)) as [Hy|Hy]; [right; by apply Hm|]. left. apply Hin.
      apply list_elem_of_fmap in H as (o & -> & Ho). exists o. split_and!; [done..|]. unfold isClaimed.
      rewrite !bool_decide_false by (by rewrite ?Hk). done.
Qed.

(** ** A refresh as a whole *)

(** The arrivals after the sink, the rows they got, and the finished matching. *)
Record refreshed (old : list OldEntry) (rows : list Z) (ix : ContentIndex) (es : list NewEntry) (m : Matching) : Prop := {
  rd_old : NoDup (map oldId old);
  rd_rows : NoDup rows;
  rd_apart : forall id, id ∈ map oldId old -> id ∉ rows;
  rd_ids : Forall (fun e => 0 <= newId e) es;
  rd_fresh : freshIds es = rows;
  rd_claimed : forall id, id ∈ claimedIds ix <-> id ∈ reusedIds es;
  rd_kept : NoDup (reusedIds es);
  rd_sub : forall id, id ∈ reusedIds es -> id ∈ map oldId old;
  rd_match : exists l, match_ok old ix es m l;
  rd_new : forall n, n ∈ map snd (pairs m) -> n ∈ rows;
  rd_reused : forall e, e ∈ es -> reused e = true -> exists o, o ∈ old /\ oldId o = newId e /\ content (oldKeys o) = content (newKeys e);
  rd_left : forall e o, e ∈ es -> reused e = false -> o ∈ old -> content (oldKeys o) = content (newKeys e) ->
    exists e', e' ∈ es /\ reused e' = true /\ newId e' = oldId o }.

Lemma match_start old ix es : match_ok old ix es (MkMatching (leftoverByIdentity old ix) [] [] ∅ ∅)
  (map identityPair (List.filter (eligibleOld ix) old)).
Proof.
  split; cbn [leftover pairs supersededBy matchedOld]; [apply leftover_holds|done|by rewrite map_map| | | |constructor].
  - intros n o. rewrite lookup_empty, elem_of_nil. done.
  - constructor.
  - intros id. cbn. set_solver.
Qed.

(** No old profile of a fresh arrival's content is left unclaimed. *)
Lemma sink_left old ix es l e o : NoDup (map oldId old) -> sink_ok old ix es l -> e ∈ es -> reused e = false ->
  o ∈ old -> content (oldKeys o) = content (newKeys e) -> oldId o ∈ reusedIds es.
Proof.
  intros Hno [S1 S2 S3 S4 S5 S6 S7] He Hre Ho Hc. destruct (S7 e He Hre) as (_ & _ & Hl).
  assert (oldId o ∈ reusedIds es ++ map snd l) as [Hin|Hin]%elem_of_app by (rewrite S4; by apply list_elem_of_fmap_2); [done|].
  exfalso. apply list_elem_of_fmap in Hin as ([c i] & E & Hin). cbn [snd] in E. subst i.
  pose proof (S5 _ Hin) as Ho'. apply list_elem_of_fmap in Ho' as (o' & [= E1 E2] & Ho').
  assert (o = o') as -> by (by eapply oldId_inj). apply (Hl (oldId o')). by rewrite <- Hc, <- E1.
Qed.

Lemma refresh_run (old : list OldEntry) (arrivals : list Arrival) (rows : list Z)
    (Hn : NoDup (map oldId old ++ rows)) (Hp : Forall (fun id => 0 <= id) (map oldId old ++ rows))
    (Hr : length rows = length (freshEntries (snd (fold_left sinkAdd arrivals (contentIndex old, []))))) :
  exists ix es, let m := fold_left matchEntry es (MkMatching (leftoverByIdentity old ix) [] [] ∅ ∅) in
    refresh old arrivals rows = (es, Reconcile old es ix) /\ refreshed old rows ix es m /\
    Forall2 (fun a e => content (newKeys e) = content (arrivalKeys a)) arrivals es.
Proof.
  unfold refresh. destruct (sink_all old arrivals (contentIndex old) [] _ (contentIndex_ok old)) as (ix & es0 & l & E & Hs & Hc).
  cbn [app] in E, Hs. rewrite E in *. cbn [snd] in Hr. clear E.
  destruct (flush_spec es0 rows Hr) as (F1 & F2 & F3 & F4). set (es := flush es0 rows) in *. exists ix, es. cbv zeta.
  apply NoDup_app in Hn as (Hno & Hdis & Hnr). apply Forall_app in Hp as [Hpo Hpr].
  pose proof (si_ids _ _ _ _ Hs) as S4.
  assert (forall id, id ∈ reusedIds es -> id ∈ map oldId old) as Hsub.
  { intros id Hid. rewrite F1 in Hid. rewrite <- S4, elem_of_app. by left. }
  assert (Forall (fun e => 0 <= newId e) es) as Hpos.
  { apply Forall_forall. intros e He. rewrite Forall_forall in Hpo, Hpr. destruct (reused e) eqn:Er.
    - apply Hpo, Hsub. apply list_elem_of_fmap. exists e. split; [done|]. by apply elem_of_filter'.
    - apply Hpr. rewrite <- F2. apply list_elem_of_fmap. exists e. split; [done|]. apply elem_of_filter'. by rewrite Er. }
  destruct (match_all old ix es es _ _ (match_start old ix es)) as (l' & Hm & Hnew).
  { intros e He. split; [done|]. by rewrite Forall_forall in Hpos; apply Hpos. }
  { unfold freshIds. by rewrite F2. }
  { intros n _ H. by apply elem_of_nil in H. }
  split; [done|]. split; [|exact (flush_contents arrivals es0 rows Hc)].
  split; try done.
  - intros id. by rewrite F1, (si_claimed _ _ _ _ Hs).
  - apply (NoDup_app _ (map snd l)). by rewrite F1, S4.
  - by exists l'.
  - intros n Hin. destruct (Hnew n Hin) as [Hx|Hx]; [by apply elem_of_nil in Hx|]. unfold freshIds in Hx. by rewrite F2 in Hx.
  - intros e He Hre. destruct (F4 e He) as (e0 & He0 & Er & _ & Ek & _ & Ei). rewrite Er in Hre.
    destruct (si_reused _ _ _ _ Hs e0 He0 Hre) as (o & Ho & E1 & E2). exists o. rewrite Ek, Ei by congruence. done.
  - intros e o He Hre Ho Hk. destruct (F4 e He) as (e0 & He0 & Er & _ & Ek & _). rewrite Er in Hre. rewrite Ek in Hk.
    pose proof (sink_left _ _ _ _ _ _ Hno Hs He0 Hre Ho Hk) as Hin. rewrite <- F1 in Hin.
    apply list_elem_of_fmap in Hin as (e' & E & He'). apply elem_of_filter' in He' as [He' Hre']. by exists e'.
Qed.

(** The place of an arrival in the group: a kept profile's own row, the row that
    is updated from it, or the row it got. *)
Definition placedAs (updates : list (Z * Z)) (e : NewEntry) (i : Z) : Prop :=
  if reused e then i = newId e
  else (i, newId e) ∈ updates \/ (i = newId e /\ newId e ∉ map snd updates).

Section Plan.
Context (old : list OldEntry) (rows : list Z) (ix : ContentIndex) (es : list NewEntry).
Let m : Matching := fold_left matchEntry es (MkMatching (leftoverByIdentity old ix) [] [] ∅ ∅).
Hypothesis run : refreshed old rows ix es m.

Lemma plan_fields : order (Reconcile old es ix) = map (placed (supersededBy m)) es /\ updates (Reconcile old es ix) = pairs m /\
  stale (Reconcile old es ix) = map oldId (List.filter (fun e => negb (isClaimed ix (oldId e) || bool_decide (oldId e ∈ matchedOld m))) old) ++
    List.filter (fun n => bool_decide (is_Some (supersededBy m !! n))) rows.
Proof.
  unfold Reconcile. cbv zeta. fold m. set (gone := List.filter _ old).
  destruct (place_all (supersededBy m) es (rd_ids _ _ _ _ _ run) [] (map oldId gone) []) as (a & ->).
  cbn [order updates stale]. by rewrite (rd_fresh _ _ _ _ _ run).
Qed.

Lemma superseded_pair n : is_Some (supersededBy m !! n) <-> n ∈ map snd (pairs m).
Proof.
  destruct (rd_match _ _ _ _ _ run) as [l Hm]. rewrite list_elem_of_fmap. split.
  - intros [o Ho%(mo_superseded _ _ _ _ _ Hm)]. by exists (o, n).
  - intros ([o n'] & -> & Hx). exists o. by apply (mo_superseded _ _ _ _ _ Hm).
Qed.

Lemma plan_places : Forall2 (placedAs (updates (Reconcile old es ix))) es (order (Reconcile old es ix)).
Proof.
  destruct plan_fields as (-> & -> & _). apply Forall2_fmap_r, Forall_Forall2_diag, Forall_forall. intros e _.
  unfold placedAs, placed, compose. destruct (reused e); [done|]. destruct (supersededBy m !! newId e) as [o|] eqn:E; cbn.
  - left. destruct (rd_match _ _ _ _ _ run) as [l Hm]. by apply (mo_superseded _ _ _ _ _ Hm).
  - right. split; [done|]. rewrite <- superseded_pair, E. apply is_Some_None.
Qed.

(** An old row has a place exactly when it is kept or updated. *)
Lemma old_placed o : o ∈ old -> oldId o ∈ order (Reconcile old es ix) <-> oldId o ∈ reusedIds es \/ oldId o ∈ map fst (pairs m).
Proof.
  intros Ho. destruct plan_fields as (-> & _ & _). destruct (rd_match _ _ _ _ _ run) as [l Hm]. rewrite placed_perm, elem_of_app.
  rewrite (rd_fresh _ _ _ _ _ run). split; (intros [H|H]; [by left|right]).
  - apply list_elem_of_fmap in H as (n & E & Hn). destruct (supersededBy m !! n) as [i|] eqn:Es; cbn in E.
    + subst i. apply (mo_superseded _ _ _ _ _ Hm) in Es. apply list_elem_of_fmap. by exists (oldId o, n).
    + exfalso. apply (rd_apart _ _ _ _ _ run (oldId o)); [by apply list_elem_of_fmap_2|]. by rewrite E.
  - apply list_elem_of_fmap in H as ([i n] & E & Hin). cbn [fst] in E. subst i. apply list_elem_of_fmap. exists n.
    split; [by rewrite (proj2 (mo_superseded _ _ _ _ _ Hm n (oldId o)) Hin)|]. apply (rd_new _ _ _ _ _ run), list_elem_of_fmap. by exists (oldId o, n).
Qed.

Lemma plan_stale : stale (Reconcile old es ix) =
  map oldId (List.filter (fun o => negb (bool_decide (oldId o ∈ order (Reconcile old es ix)))) old) ++
  List.filter (fun n => bool_decide (n ∈ map snd (updates (Reconcile old es ix)))) rows.
Proof.
  destruct plan_fields as (_ & Eu & Es). rewrite Es, Eu. destruct (rd_match _ _ _ _ _ run) as [l Hm]. f_equal; [f_equal|].
  - apply filter_ext_in. intros o Ho%list_elem_of_In. f_equal. unfold isClaimed.
    rewrite <- bool_decide_or. apply bool_decide_ext. by rewrite old_placed, (rd_claimed _ _ _ _ _ run), (mo_matched _ _ _ _ _ Hm).
  - apply filter_ext_in. intros n _. apply bool_decide_ext, superseded_pair.
Qed.

Lemma plan_rows : order (Reconcile old es ix) ++ stale (Reconcile old es ix) ≡ₚ map oldId old ++ rows.
Proof.
  destruct plan_fields as (-> & _ & ->). destruct (rd_match _ _ _ _ _ run) as [l Hm]. set (gone := List.filter _ old).
  rewrite placed_perm, (rd_fresh _ _ _ _ _ run).
  rewrite <- app_assoc, (Permutation_app_comm (map oldId gone)), (app_assoc (map _ rows)).
  rewrite (superseded_perm (pairs m)); [|apply Hm|apply Hm|apply run|apply run].
  rewrite (Permutation_app_comm _ (map oldId gone)), !app_assoc. f_equiv. rewrite <- app_assoc.
  apply (old_perm old ix (reusedIds es) (matchedOld m) (pairs m)); try apply run; [apply Hm|].
  exists (map snd l). apply Hm.
Qed.
End Plan.


Definition exampleOld : list OldEntry :=
  [MkOld 1 (MkKeys [10] [20]) []; MkOld 2 (MkKeys [10] [20]) []; MkOld 3 (MkKeys [11] [21]) []; MkOld 4 (MkKeys [12] [22]) []].
Definition exampleArrivals : list Arrival :=
  [MkArrival (MkKeys [13] [21]) []; MkArrival (MkKeys [10] [20]) []; MkArrival (MkKeys [14] [24]) []].

Example refresh_example : snd (refresh exampleOld exampleArrivals [7; 8]) =
  MkReconcile [3; 1; 8] [(3, 7)] [2; 4; 7] [[]] [[]] [[]; []].
Proof. by vm_compute. Qed.

