(* ===== verification/DnsAddress.v ===== *)
(** * DNS server addresses (src/src/configs/DnsAddress.cpp)

    Reading an address the way people write it, printing it back, changing its
    transport and telling whether it survives a raised tunnel. Case folding,
    lower casing and the letter test are Qt's. *)

From Stdlib Require Import Ascii String.
From S2P Require Import Prelude QtText.

Local Open Scope Z_scope.

(** ** Data *)

(** The texts of the [error] field; [NoError] is the empty one. *)
Inductive DnsError :=
| NoError | AddressEmpty | UnknownScheme (scheme : qstring) | LooksLikeLink | PathNotAllowed | NoServer
| BracketOpen | PortExpected | PortMissing | PortRange | HasSpace.

Record DnsAddress := MkDns {
  dnsType : qstring;
  server : qstring;
  port : Z;
  path : qstring;
  interfaceName : qstring;
  valid : bool;
  dnsError : DnsError }.

Definition invalid (why : DnsError) : DnsAddress := MkDns [] [] (-1) [] [] false why.
Definition isLocal (a : DnsAddress) : bool := bool_decide (dnsType a = qs "local").
Definition isDhcp (a : DnsAddress) : bool := bool_decide (dnsType a = qs "dhcp").

Definition kSchemes : list qstring := [qs "udp"; qs "tcp"; qs "tls"; qs "quic"; qs "https"; qs "h3"].
Definition isScheme (t : qstring) : bool := bool_decide (t ∈ kSchemes).
Definition typeCarriesPath (t : qstring) : bool := bool_decide (t = qs "https") || bool_decide (t = qs "h3").

(** ** Host and port *)

Definition readPort (host rest : qstring) : DnsError + qstring * Z :=
  if isEmpty rest then inl PortMissing
  else match toInt rest with
       | Some parsed => if (parsed <? 1) || (65535 <? parsed) then inl PortRange else inr (host, parsed)
       | None => inl PortRange
       end.

Definition splitHostPort (input : qstring) : DnsError + qstring * Z :=
  if startsWithC (ch "["%char) input then
    match indexOf (ch "]"%char) input with
    | None => inl BracketOpen
    | Some close =>
        let host := take (close - 1) (drop 1 input) in
        let rest := drop (close + 1) input in
        if isEmpty rest then inr (host, -1)
        else if negb (startsWithC (ch ":"%char) rest) then inl PortExpected
        else readPort host (drop 1 rest)
    end
  else if (1 <? count (ch ":"%char) input)%nat then inr (input, -1)
  else match indexOf (ch ":"%char) input with
       | None => inr (input, -1)
       | Some colon => readPort (take colon input) (drop (colon + 1) input)
       end.

Section Dns.
Context (toLower : qstring -> qstring) (foldCase : Z -> Z) (isLetter : Z -> bool).

Definition looksLikeIpLiteral (host : qstring) : bool :=
  if isEmpty host then false
  else if contains (ch ":"%char) host then true
  else negb (existsb isLetter host).

(** What remains after the scheme. *)
Definition parseRest (type rest : qstring) : DnsAddress :=
  let split :=
    if typeCarriesPath type then
      match indexOf (ch "/"%char) rest with
      | Some slash => Some (take slash rest, drop slash rest)
      | None => Some (rest, [])
      end
    else if contains (ch "/"%char) rest then None else Some (rest, []) in
  match split with
  | None => invalid PathNotAllowed
  | Some (rest, path) =>
      if isEmpty rest then invalid NoServer
      else match splitHostPort rest with
           | inl error => invalid error
           | inr (server, port) =>
               if isEmpty server then invalid NoServer
               else if contains (ch " "%char) server then invalid HasSpace
               else MkDns type server port path [] true NoError
           end
  end.

Definition ParseDnsAddress (address : qstring) : DnsAddress :=
  let t := trimmed address in
  if isEmpty t then invalid AddressEmpty
  else if startsWithCI foldCase (qs "local") t then MkDns (qs "local") [] (-1) [] [] true NoError
  else if startsWithCI foldCase (qs "dhcp://") t then
    let i := drop 7 t in
    MkDns (qs "dhcp") [] (-1) [] (if bool_decide (i = qs "auto") then [] else i) true NoError
  else
    match indexOfStr (qs "://") t with
    | Some (S n) =>
        let scheme := toLower (take (S n) t) in
        if negb (isScheme scheme) then invalid (UnknownScheme scheme) else parseRest scheme (drop (S n + 3) t)
    | _ => if containsStr (qs "//") t then invalid LooksLikeLink else parseRest (qs "udp") t
    end.

Definition FormatDnsAddress (a : DnsAddress) : qstring :=
  if negb (valid a) then []
  else if isLocal a then qs "local"
  else if isDhcp a then qs "dhcp://" ++ (if isEmpty (interfaceName a) then qs "auto" else interfaceName a)
  else
    let host := if negb (port a =? -1) && (1 <? count (ch ":"%char) (server a))%nat
                then [ch "["%char] ++ server a ++ [ch "]"%char] else server a in
    dnsType a ++ qs "://" ++ host ++ (if negb (port a =? -1) then [ch ":"%char] ++ number (port a) else []) ++ path a.

Definition DnsAddressWithType (a : DnsAddress) (type : qstring) : qstring :=
  if negb (valid a) || isLocal a || isDhcp a then []
  else if negb (isScheme type) then []
  else
    let path :=
      if typeCarriesPath type then
        if looksLikeIpLiteral (server a) then qs "/dns-query"
        else if isEmpty (path a) then qs "/dns-query" else path a
      else [] in
    FormatDnsAddress (MkDns type (server a) (-1) path (interfaceName a) (valid a) (dnsError a)).

Definition DefaultDnsPort (type : qstring) : Z :=
  if bool_decide (type = qs "tls") || bool_decide (type = qs "quic") then 853
  else if bool_decide (type = qs "https") || bool_decide (type = qs "h3") then 443
  else 53.

Definition DnsUsableUnderTunnel (address : qstring) : bool :=
  let parsed := ParseDnsAddress address in
  if negb (valid parsed) then false
  else if isLocal parsed || isDhcp parsed then false
  else if (if 0 <? port parsed then port parsed else DefaultDnsPort (dnsType parsed)) =? 53 then false
  else looksLikeIpLiteral (server parsed).
End Dns.

(** ** Host and port round trip *)

(** A host that is a name or a literal: no brackets, no spaces, no slash, and
    not a single colon. *)
Record plainHost (s : qstring) : Prop := {
  ph_nonempty : s <> [];
  ph_chars : Forall (fun c => isSpace c = false /\ c <> 91 /\ c <> 93 /\ c <> 47) s;
  ph_colons : count 58 s <> 1%nat }.

Definition hostText (s : qstring) (port : Z) : qstring :=
  if negb (port =? -1) && (1 <? count 58 s)%nat then 91 :: s ++ [93] else s.
Definition portText (port : Z) : qstring := if negb (port =? -1) then 58 :: number port else [].

Lemma count_zero c s : count c s = 0%nat <-> free c s.
Proof.
  unfold count, free. split.
  - intros H. apply Forall_forall. intros x Hx ->. apply length_zero_iff_nil in H.
    assert (In c (List.filter (Z.eqb c) s)) as Hin by (apply filter_In; split; [by apply list_elem_of_In|apply Z.eqb_refl]).
    by rewrite H in Hin.
  - induction 1 as [|x s Hx _ IH]; [done|]. cbn. destruct (Z.eqb_spec c x); [congruence|done].
Qed.

Lemma number_digits n : 0 <= n -> Forall (fun c => 48 <= c <= 57) (number n).
Proof. intros H. unfold number. destruct (Z.ltb_spec n 0); [lia|]. apply unumber10_chars. Qed.

Lemma number_nonempty n : number n <> [].
Proof. unfold number. case_match; [done|]. apply unumber_nonempty. Qed.

Lemma free_digits c n : 0 <= n -> ~ (48 <= c <= 57) -> free c (number n).
Proof. intros Hn Hc. eapply Forall_impl; [by apply number_digits|]. cbn. intros x Hx ->. lia. Qed.

Lemma readPort_number host p : 1 <= p <= 65535 -> readPort host (number p) = inr (host, p).
Proof.
  intros H. unfold readPort. destruct (number p) as [|c l] eqn:E; [by destruct (number_nonempty p)|]. cbn [isEmpty].
  rewrite <- E. unfold toInt. rewrite toIntegerIn_number by lia.
  destruct (Z.ltb_spec p 1), (Z.ltb_spec 65535 p); try lia. done.
Qed.

Lemma ph_free c s : plainHost s -> c = 91 \/ c = 93 \/ c = 47 -> free c s.
Proof. intros [_ H _] Hc. eapply Forall_impl; [exact H|]. cbn. intros x Hx. lia. Qed.

Lemma startsWithC_free c s t : free c s -> s <> [] -> startsWithC c (s ++ t) = false.
Proof. intros H Hn. destruct H as [|x s Hx _]; [done|]. cbn. by apply Z.eqb_neq. Qed.

Lemma split_print s p : plainHost s -> p = -1 \/ 1 <= p <= 65535 ->
  splitHostPort (hostText s p ++ portText p) = inr (s, p).
Proof.
  intros Hs Hp. pose proof (ph_nonempty s Hs) as Hn. unfold splitHostPort, hostText, portText.
  change (ch "["%char) with 91. change (ch "]"%char) with 93. change (ch ":"%char) with 58.
  destruct Hp as [->|Hp]; [change (-1 =? -1) with true|]; cbn [negb andb].
  { pose proof (startsWithC_free 91 s [] (ph_free 91 s Hs (or_introl eq_refl)) Hn) as H0.
    rewrite app_nil_r in H0 |- *. rewrite H0.
    destruct (Nat.ltb_spec 1 (count 58 s)); [done|]. assert (free 58 s) as Hf.
    { apply count_zero. pose proof (ph_colons s Hs). lia. }
    by rewrite indexOf_free. }
  destruct (Z.eqb_spec p (-1)); [lia|]. cbn [negb andb]. destruct (Nat.ltb_spec 1 (count 58 s)) as [Hc|Hc].
  - cbn [app startsWithC]. change (91 =? 91) with true. cbv iota.
    assert (indexOf 93 (91 :: (s ++ [93]) ++ 58 :: number p) = Some (S (length s))) as ->.
    { cbn [indexOf]. change (91 =? 93) with false. cbv iota. rewrite <- app_assoc. cbn [app].
      rewrite indexOf_app by by apply ph_free; auto. done. }
    replace (S (length s) - 1)%nat with (length s) by lia. rewrite Nat.add_1_r. cbn [drop]. rewrite <- app_assoc. cbn [app].
    rewrite ?drop_0.
    rewrite take_app_length.
    replace (drop (S (length s)) (s ++ 93 :: 58 :: number p)) with (58 :: number p).
    2:{ replace (S (length s)) with (length (s ++ [93])) by (rewrite length_app; cbn; lia).
        change (93 :: 58 :: number p) with ([93] ++ 58 :: number p). by rewrite app_assoc, drop_app_length. }
    cbn [isEmpty startsWithC drop]. change (58 =? 58) with true. cbn [negb]. by apply readPort_number.
  - assert (free 58 s) as Hf by (apply count_zero; pose proof (ph_colons s Hs); lia).
    rewrite startsWithC_free by (done || by apply ph_free; auto).
    rewrite count_app, (proj2 (count_zero 58 s) Hf).
    assert (count 58 (58 :: number p) = 1%nat) as ->.
    { change (58 :: number p) with ([58] ++ number p). rewrite count_app, (proj2 (count_zero 58 (number p))); [done|].
      apply free_digits; lia. }
    cbn [Nat.add Nat.ltb Nat.leb]. rewrite indexOf_app by done. rewrite take_app_length, Nat.add_1_r.
    replace (drop (S (length s)) (s ++ 58 :: number p)) with (number p); [by apply readPort_number|].
    replace (S (length s)) with (length (s ++ [58])) by (rewrite length_app; cbn; lia).
    change (58 :: number p) with ([58] ++ number p). by rewrite app_assoc, drop_app_length.
Qed.

Lemma hostPort_free s p : plainHost s -> p = -1 \/ 1 <= p <= 65535 -> free 47 (hostText s p ++ portText p).
Proof.
  intros Hs Hp. assert (free 47 s) as Hf by (apply ph_free; auto). apply free_app. unfold hostText, portText. split.
  - case_match; [|done]. apply Forall_cons. split; [done|]. apply Forall_app. split; [done|]. by apply Forall_cons.
  - destruct Hp as [->|Hp]; [constructor|]. destruct (Z.eqb_spec p (-1)); [lia|]. cbn [negb].
    apply Forall_cons. split; [done|]. apply free_digits; lia.
Qed.

(** ** The whole address *)

Lemma trimmed_last s : trimmed s <> [] -> exists l d, trimmed s = l ++ [d] /\ isSpace d = false.
Proof.
  unfold trimmed, dropWhileEnd. generalize (dropWhile isSpace s). intros u Hu.
  destruct (dropWhile isSpace (rev u)) as [|d l] eqn:E; [done|]. exists (rev l), d. split; [done|].
  by apply dropWhile_head in E.
Qed.

Definition lastOk (s : qstring) : Prop := exists l d, s = l ++ [d] /\ isSpace d = false.

Lemma lastOk_app s t : lastOk t -> lastOk (s ++ t).
Proof. intros (l & d & -> & H). exists (s ++ l), d. by rewrite app_assoc. Qed.

Lemma lastOk_forall s : s <> [] -> Forall (fun c => isSpace c = false) s -> lastOk s.
Proof.
  intros Hn H. destruct (exists_last Hn) as (l & d & ->). exists l, d. split; [done|].
  apply Forall_app in H as [_ H]. by apply Forall_cons in H as [H _].
Qed.

Lemma trimmed_lastOk c s : isSpace c = false -> lastOk s -> trimmed (c :: s) = c :: s.
Proof. intros Hc (l & d & -> & Hd). by apply trimmed_ends. Qed.

Lemma hostPort_lastOk s p : plainHost s -> p = -1 \/ 1 <= p <= 65535 -> lastOk (hostText s p ++ portText p).
Proof.
  intros Hs Hp. unfold hostText, portText. destruct Hp as [->|Hp].
  - change (-1 =? -1) with true. cbn [negb andb]. rewrite app_nil_r. apply lastOk_forall; [by apply ph_nonempty|].
    eapply Forall_impl; [by apply ph_chars|]. cbn. tauto.
  - destruct (Z.eqb_spec p (-1)); [lia|]. cbn [negb]. apply lastOk_app. apply (lastOk_app [58]).
    apply lastOk_forall; [apply number_nonempty|]. apply number_noSpace.
Qed.

Section RoundTrip.
Context (toLower : qstring -> qstring) (foldCase : Z -> Z) (isLetter : Z -> bool).
(** Lower-case ASCII text is its own lower case and case folding. *)
Hypothesis toLower_ascii : forall t, Forall (fun c => 97 <= c <= 122 \/ 48 <= c <= 57) t -> toLower t = t.
Hypothesis foldCase_ascii : forall c, 97 <= c <= 122 -> foldCase c = c.

Record wellFormed (a : DnsAddress) : Prop := {
  wf_type : dnsType a ∈ kSchemes;
  wf_server : plainHost (server a);
  wf_port : port a = -1 \/ 1 <= port a <= 65535;
  wf_path : path a = [] \/ typeCarriesPath (dnsType a) = true /\ (exists p, path a = 47 :: p) /\ lastOk (path a);
  wf_rest : interfaceName a = [] /\ valid a = true /\ dnsError a = NoError }.

Lemma scheme_cases t : t ∈ kSchemes ->
  Forall (fun c => 97 <= c <= 122 \/ 48 <= c <= 57) t /\ t <> qs "local" /\ t <> qs "dhcp" /\
  (forall u, indexOfStr (qs "://") (t ++ qs "://" ++ u) = Some (length t)) /\
  (exists c t' n, t = c :: t' /\ 97 <= c <= 122 /\ c <> 108 /\ c <> 100 /\ length t = S n).
Proof.
  unfold kSchemes. rewrite !elem_of_cons, elem_of_nil. intros H.
  repeat destruct H as [->|H]; [..|done].
  all: split_and!; [repeat (apply Forall_cons; split; [vm_compute; intuition congruence|]); constructor|done|done|intros u; reflexivity|].
  all: do 3 eexists; split_and!; [reflexivity|vm_compute; congruence..|reflexivity].
Qed.

(** The scheme decides what the text is. *)
Lemma parse_scheme t u : t ∈ kSchemes -> lastOk u ->
  ParseDnsAddress toLower foldCase (t ++ qs "://" ++ u) = parseRest t u.
Proof.
  intros Ht Hu. destruct (scheme_cases t Ht) as (Hc & _ & _ & Hi & (c & t' & n & E & Hr & H1 & H2 & Hl)).
  unfold ParseDnsAddress. cbv zeta.
  assert (trimmed (t ++ qs "://" ++ u) = t ++ qs "://" ++ u) as ->.
  { rewrite E. cbn [app]. apply trimmed_lastOk; [|by apply lastOk_app, lastOk_app].
    destruct (isSpace c) eqn:Es; [|done]. unfold isSpace in Es. bprop. lia. }
  rewrite Hi, Hl. rewrite E at 1. cbn [app isEmpty].
  assert (forall p q, 97 <= p <= 122 -> p <> c -> startsWithCI foldCase (p :: q) (t ++ qs "://" ++ u) = false) as Hs.
  { intros p q Hp Hne. unfold startsWithCI. rewrite E. cbn [app map startsWith]. rewrite !foldCase_ascii by done.
    by rewrite (proj2 (Z.eqb_neq p c) Hne). }
  change (qs "local") with [108; 111; 99; 97; 108]. change (qs "dhcp://") with [100; 104; 99; 112; 58; 47; 47].
  rewrite (Hs 108 [111; 99; 97; 108]), (Hs 100 [104; 99; 112; 58; 47; 47]) by lia. rewrite <- Hl, take_app_length.
  rewrite toLower_ascii by done. unfold isScheme. rewrite bool_decide_true by done. cbn [negb]. f_equal.
  rewrite app_assoc, drop_app_length'; [done|]. rewrite length_app. done.
Qed.

Lemma parse_format a : wellFormed a -> ParseDnsAddress toLower foldCase (FormatDnsAddress a) = a.
Proof.
  intros [Ht Hs Hp Hpath (Hi & Hv & He)]. destruct (scheme_cases _ Ht) as (_ & Hl & Hd & _).
  unfold FormatDnsAddress, isLocal, isDhcp. rewrite Hv, !bool_decide_false by done. cbn [negb]. cbv zeta.
  set (hp := hostText (server a) (port a) ++ portText (port a)).
  replace (dnsType a ++ qs "://" ++ _ ++ _ ++ path a) with (dnsType a ++ qs "://" ++ hp ++ path a)
    by (unfold hp; rewrite <- app_assoc; reflexivity).
  assert (lastOk hp) as Hhp by by apply hostPort_lastOk.
  rewrite parse_scheme; [|done|destruct Hpath as [->|(_ & _ & H)]; [by rewrite app_nil_r|by apply lastOk_app]].
  assert (free 47 hp) as Hf by by apply hostPort_free.
  unfold parseRest. change (ch "/"%char) with 47.
  assert ((if typeCarriesPath (dnsType a) then match indexOf 47 (hp ++ path a) with
             | Some slash => Some (take slash (hp ++ path a), drop slash (hp ++ path a))
             | None => Some (hp ++ path a, []) end
           else if contains 47 (hp ++ path a) then None else Some (hp ++ path a, [])) = Some (hp, path a)) as ->.
  { destruct Hpath as [->|(Hc & (q & ->) & _)].
    - rewrite app_nil_r, (indexOf_free _ _ Hf), (proj2 (free_contains 47 hp) Hf). by case_match.
    - rewrite Hc, indexOf_app by done. by rewrite take_app_length, drop_app_length. }
  destruct hp as [|x l] eqn:E; [destruct Hhp as (l & d & H & _); by destruct l|]. cbn [isEmpty]. rewrite <- E.
  unfold hp in E |- *. rewrite split_print by done.
  destruct (server a) as [|y m] eqn:Es; [by destruct (ph_nonempty _ Hs)|]. cbn [isEmpty]. rewrite <- Es in *.
  assert (contains (ch " "%char) (server a) = false) as ->.
  { apply free_contains. eapply Forall_impl; [by apply ph_chars|]. cbn. intros z [Hz _] ->. discriminate. }
  destruct a; cbn in *; congruence.
Qed.

(** ** What a parsed address is *)

Lemma lastOk_drop n s : lastOk s -> drop n s <> [] -> lastOk (drop n s).
Proof.
  intros (l & d & -> & Hd) Hn. destruct (Nat.le_gt_cases n (length l)) as [Hle|Hgt].
  - rewrite drop_app_le by done. exists (drop n l), d. done.
  - rewrite drop_ge in Hn by (rewrite length_app; cbn; lia). done.
Qed.

Lemma readPort_range host rest h p : readPort host rest = inr (h, p) -> h = host /\ 1 <= p <= 65535.
Proof.
  unfold readPort. case_match; [done|]. case_match; [|done]. case_match eqn:E; [done|]. intros [= <- <-]. split; [done|].
  apply orb_false_iff in E as [E1%Z.ltb_ge E2%Z.ltb_ge]. lia.
Qed.

Lemma splitHostPort_range s h p : splitHostPort s = inr (h, p) -> p = -1 \/ 1 <= p <= 65535.
Proof.
  unfold splitHostPort. cbv zeta. intros H.
  repeat match type of H with context [if ?b then _ else _] => destruct b end; try done;
    repeat match type of H with context [match ?o with Some _ => _ | None => _ end] => destruct o end; try done;
    repeat match type of H with context [if ?b then _ else _] => destruct b end; try done;
    first [apply readPort_range in H as [_ H]; by right|injection H as _ <-; by left].
Qed.

Lemma indexOf_drop c s n : indexOf c s = Some n -> drop n s = c :: drop (S n) s.
Proof.
  revert n. induction s as [|d s IH]; cbn; intros n; [done|]. destruct (Z.eqb_spec d c) as [->|Hd].
  - intros [= <-]. by rewrite drop_0.
  - destruct (indexOf c s) as [m|]; cbn; [|done]. intros [= <-]. by apply IH.
Qed.

Lemma parseRest_ok t rest : t ∈ kSchemes -> lastOk rest -> let a := parseRest t rest in
  valid a = true -> plainHost (server a) -> wellFormed a /\ dnsType a = t.
Proof.
  intros Ht Hl a. subst a. unfold parseRest. change (ch "/"%char) with 47.
  set (split := if typeCarriesPath t then _ else _).
  assert (forall r p, split = Some (r, p) -> p = [] \/ typeCarriesPath t = true /\ (exists q, p = 47 :: q) /\ lastOk p) as Hs.
  { intros r p. unfold split. destruct (typeCarriesPath t); [|case_match; [done|]; intros [= _ <-]; by left].
    destruct (indexOf 47 rest) as [n|] eqn:E; [|intros [= _ <-]; by left]. intros [= _ <-]. right. split; [done|].
    pose proof (indexOf_drop _ _ _ E) as Ed. split; [by eexists|]. apply lastOk_drop; [done|]. by rewrite Ed. }
  destruct split as [[r p]|]; [|done]. specialize (Hs r p eq_refl). destruct (isEmpty r); [done|].
  destruct (splitHostPort r) as [e|[h q]] eqn:Eh; [done|]. destruct (isEmpty h); [done|]. destruct (contains _ h); [done|].
  cbn [valid server dnsType]. intros _ Hh. split; [|done]. split; cbn; [done|done|by eapply splitHostPort_range|exact Hs|done].
Qed.

(** ** Reading, printing and reading again *)

Lemma parse_local : ParseDnsAddress toLower foldCase (qs "local") = MkDns (qs "local") [] (-1) [] [] true NoError.
Proof.
  unfold ParseDnsAddress. change (trimmed (qs "local")) with (qs "local"). cbn [isEmpty qs].
  assert (startsWithCI foldCase (qs "local") (qs "local") = true) as ->; [|done].
  unfold startsWithCI. generalize (map foldCase (qs "local")). intros l. induction l as [|x l IH]; [done|]. cbn. by rewrite Z.eqb_refl.
Qed.

Lemma parse_dhcp_text i : lastOk i -> ParseDnsAddress toLower foldCase (qs "dhcp://" ++ i) =
  MkDns (qs "dhcp") [] (-1) [] (if bool_decide (i = qs "auto") then [] else i) true NoError.
Proof.
  intros Hi. unfold ParseDnsAddress. assert (trimmed (qs "dhcp://" ++ i) = qs "dhcp://" ++ i) as ->.
  { apply trimmed_lastOk; [done|]. by apply (lastOk_app [104; 99; 112; 58; 47; 47]). }
  cbv zeta. cbn [isEmpty qs app].
  assert (startsWithCI foldCase (qs "local") (qs "dhcp://" ++ i) = false) as ->.
  { unfold startsWithCI. change (qs "local") with [108; 111; 99; 97; 108]. change (qs "dhcp://") with [100; 104; 99; 112; 58; 47; 47].
    cbn [map app startsWith]. by rewrite (foldCase_ascii 108), (foldCase_ascii 100) by lia. }
  assert (startsWithCI foldCase (qs "dhcp://") (qs "dhcp://" ++ i) = true) as ->.
  { unfold startsWithCI. rewrite map_app. apply startsWith_app. }
  reflexivity.
Qed.

Lemma parse_dhcp i : lastOk i -> i <> qs "auto" ->
  ParseDnsAddress toLower foldCase (qs "dhcp://" ++ i) = MkDns (qs "dhcp") [] (-1) [] i true NoError.
Proof. intros Hi Hn. rewrite parse_dhcp_text by done. by rewrite bool_decide_false. Qed.

Lemma parse_dhcp_auto :
  ParseDnsAddress toLower foldCase (qs "dhcp://" ++ qs "auto") = MkDns (qs "dhcp") [] (-1) [] [] true NoError.
Proof. rewrite parse_dhcp_text by by exists (qs "aut"), 111. by rewrite bool_decide_true. Qed.

Lemma parseRest_type t rest : let a := parseRest t rest in valid a = true -> dnsType a = t.
Proof.
  intros a. subst a. unfold parseRest.
  repeat match goal with
  | |- context [match ?x with _ => _ end] =>
      lazymatch x with context [match _ with _ => _ end] => fail | _ => destruct x end
  end; done.
Qed.

Lemma parseRest_valid t rest : t ∈ kSchemes -> rest = [] \/ lastOk rest -> let a := parseRest t rest in
  valid a = true -> (dnsType a ∈ kSchemes -> plainHost (server a)) -> wellFormed a.
Proof.
  intros Ht [->|Hl] a Hv Hp; subst a.
  - unfold parseRest in Hv. cbn in Hv. by destruct (typeCarriesPath t).
  - apply parseRest_ok; [done..|]. apply Hp. by rewrite parseRest_type.
Qed.

(** The three shapes of a valid address. *)
Lemma parse_cases text : let a := ParseDnsAddress toLower foldCase text in valid a = true ->
  (dnsType a ∈ kSchemes -> plainHost (server a)) ->
  a = MkDns (qs "local") [] (-1) [] [] true NoError \/
  (exists i, a = MkDns (qs "dhcp") [] (-1) [] i true NoError /\ (i = [] \/ lastOk i) /\ i <> qs "auto") \/
  wellFormed a.
Proof.
  cbv zeta. unfold ParseDnsAddress. set (t := trimmed text). destruct (isEmpty t) eqn:E0; [done|].
  assert (lastOk t) as Ht.
  { destruct (trimmed_last text) as (l & d & E & Hd); [fold t; by destruct t|]. by exists l, d. }
  assert (forall n, drop n t = [] \/ lastOk (drop n t)) as Hdrop.
  { intros n. destruct (drop n t) eqn:E; [by left|right]. rewrite <- E. apply lastOk_drop; [done|]. by rewrite E. }
  destruct (startsWithCI foldCase (qs "local") t); [by left|]. destruct (startsWithCI foldCase (qs "dhcp://") t).
  { intros _ _. right; left. eexists. split; [reflexivity|].
    destruct (bool_decide_reflect (drop 7 t = qs "auto")); [split; [by left|done]|]. split; [apply Hdrop|done]. }
  assert (qs "udp" ∈ kSchemes) as Hu by (refine (bool_decide_eq_true_1 _ _); by vm_compute).
  intros Hv Hp. right; right. destruct (indexOfStr (qs "://") t) as [[|n]|].
  - destruct (containsStr (qs "//") t); [done|]. apply parseRest_valid; auto.
  - unfold isScheme in *. destruct (bool_decide_reflect (toLower (take (S n) t) ∈ kSchemes)); [|done].
    apply parseRest_valid; auto.
  - destruct (containsStr (qs "//") t); [done|]. apply parseRest_valid; auto.
Qed.

Lemma scheme_type a t : t ∈ kSchemes -> wellFormed a -> valid a = true /\ isLocal a = false /\ isDhcp a = false.
Proof.
  intros Ht [Ha _ _ _ (_ & Hv & _)]. split; [done|]. unfold isLocal, isDhcp.
  destruct (scheme_cases _ Ha) as (_ & H1 & H2 & _). by rewrite !bool_decide_false.
Qed.

(** The same server by another transport. *)
Lemma with_type a t : wellFormed a -> t ∈ kSchemes -> exists p,
  ParseDnsAddress toLower foldCase (DnsAddressWithType isLetter a t) = MkDns t (server a) (-1) p [] true NoError /\
  (p <> [] <-> typeCarriesPath t = true) /\
  (typeCarriesPath t = true -> p = qs "/dns-query" \/ p = path a /\ looksLikeIpLiteral isLetter (server a) = false).
Proof.
  intros Ha Ht. destruct (scheme_type a t Ht Ha) as (Hv & Hl & Hd). unfold DnsAddressWithType, isScheme.
  rewrite Hv, Hl, Hd, bool_decide_true by done. cbn [negb orb]. cbv zeta.
  destruct Ha as [Ha Hs Hp Hpath (Hi & _ & He)]. rewrite Hi, He.
  set (p := if typeCarriesPath t then _ else _). exists p.
  assert (qs "/dns-query" = 47 :: qs "dns-query" /\ lastOk (qs "/dns-query")) as [Hq1 Hq2].
  { split; [done|]. by exists (qs "/dns-quer"), 121. }
  split_and!.
  - apply parse_format. split; cbn; [done|done|by left| |done].
    unfold p. destruct (typeCarriesPath t) eqn:Et; [right; split; [done|]|by left].
    destruct (looksLikeIpLiteral isLetter (server a)); [by split; [eexists|]|].
    destruct Hpath as [->|(_ & H1 & H2)]; [by split; [eexists|]|]. destruct (path a) eqn:E; [by destruct H1|]. done.
  - unfold p. destruct (typeCarriesPath t); [|by split].
    split; [done|]. intros _. destruct (looksLikeIpLiteral isLetter (server a)); [done|]. by destruct (path a).
  - unfold p. intros ->. destruct (looksLikeIpLiteral isLetter (server a)); [by left|].
    destruct (path a); [by left|by right].
Qed.
End RoundTrip.

(** Reading and printing DNS addresses agree: whatever text is accepted, its
    canonical form reads back as the very same address, so normalising twice
    changes nothing. Asking for another transport, a text is printed that reads
    as that transport to the same server on the default port, with a path
    exactly for https and h3, which is the old path when it was kept and
    /dns-query otherwise; the local and DHCP servers have no other transport.
    A host is assumed to be a name or a literal (no brackets, no spaces, not a
    single colon); the case functions fix lower-case ASCII. *)
Theorem dns_roundtrip (toLower : qstring -> qstring) (foldCase : Z -> Z) (isLetter : Z -> bool)
    (toLower_ascii : forall t, Forall (fun c => 97 <= c <= 122 \/ 48 <= c <= 57) t -> toLower t = t)
    (foldCase_ascii : forall c, 97 <= c <= 122 -> foldCase c = c) (text : qstring) :
  let a := ParseDnsAddress toLower foldCase text in
  valid a = true -> (dnsType a ∈ kSchemes -> plainHost (server a)) ->
  ParseDnsAddress toLower foldCase (FormatDnsAddress a) = a /\
  (forall t, t ∈ kSchemes ->
    if isLocal a || isDhcp a then DnsAddressWithType isLetter a t = []
    else exists p, ParseDnsAddress toLower foldCase (DnsAddressWithType isLetter a t) = MkDns t (server a) (-1) p [] true NoError /\
      (p <> [] <-> typeCarriesPath t = true) /\
      (typeCarriesPath t = true -> p = qs "/dns-query" \/ p = path a /\ looksLikeIpLiteral isLetter (server a) = false)).
Proof.
  intros a Hv Hp. destruct (parse_cases toLower foldCase text Hv Hp) as [E|[(i & E & Hi & Hn)|Hw]].
  - fold a in E. rewrite E. split; [by apply (parse_local toLower)|done].
  - fold a in E. rewrite E. split; [|done]. unfold FormatDnsAddress. cbn [valid negb isLocal isDhcp dnsType interfaceName].
    change (isLocal _) with false. change (isDhcp _) with true. cbv iota.
    destruct Hi as [->|Hi].
    + cbn [isEmpty]. apply (parse_dhcp_auto toLower foldCase foldCase_ascii).
    + destruct i as [|c i]; [destruct Hi as (l & d & H & _); by destruct l|]. cbn [isEmpty]. by apply parse_dhcp.
  - fold a in Hw. split; [by apply parse_format|]. intros t Ht. destruct (scheme_type a t Ht Hw) as (_ & -> & ->).
    by apply with_type.
Qed.

Definition exampleText : qstring := qs " https://dns.google:8443/dns-query ".
Definition exampleLetter (c : Z) : bool := (97 <=? c) && (c <=? 122).

Lemma dns_roundtrip_witness :
  let a := ParseDnsAddress id id exampleText in
  FormatDnsAddress a = qs "https://dns.google:8443/dns-query" /\ ParseDnsAddress id id (FormatDnsAddress a) = a /\
  DnsAddressWithType exampleLetter a (qs "tls") = qs "tls://dns.google".
Proof.
  cbv zeta. split; [by vm_compute|]. split; [|by vm_compute].
  assert (valid (ParseDnsAddress id id exampleText) = true) as Hv by by vm_compute.
  assert (server (ParseDnsAddress id id exampleText) = qs "dns.google") as Hs by by vm_compute.
  assert (plainHost (qs "dns.google")) as Hh by (split; [done|refine (bool_decide_eq_true_1 _ _); by vm_compute|done]).
  pose proof (dns_roundtrip id id exampleLetter (fun _ _ => eq_refl) (fun _ _ => eq_refl) exampleText) as H. cbv zeta in H.
  rewrite Hs in H. exact (proj1 (H Hv (fun _ => Hh))).
Defined.

(** A name that merely begins with «local» is taken for the server of the system. *)
Example localhost_is_local : ParseDnsAddress id id (qs "localhost:5353") = ParseDnsAddress id id (qs "local").
Proof. by vm_compute. Qed.
