(* ===== verification/ResumeGuard.v ===== *)
(** * The boot-resume guard (src/src/engine/headless/ResumeGuard.cpp)

    The record of headless-state.json: how often in a row a boot that resumed a
    profile ended within a minute, and how often in a row no core became stable.
    [Guard] is the object's members with the file it writes; a boot of the
    process is the composition [HeadlessRuntime] makes: construct, settle,
    decide, arm, and what happens until the process ends. *)

From Stdlib Require Import Ascii String.
From S2P Require Import Prelude QtText Json.

Local Open Scope Z_scope.
#[local] Set Warnings "-register-all".

(** ** Data *)

Definition kResumeGuardVersion : Z := 1.
Definition kResumeGuardMaxBytes : Z := 64 * 1024.
Definition kResumeGuardMaxUnstableBoots : Z := 1000000.
Definition kStrikesToSuppress : Z := 3.
Definition kUnstableBootsToStayUp : Z := 3.
Definition CoreGaveUp : Z := 70.
Definition Stuck : Z := 71.

(** The file: [None] when it does not exist; whether it can be read and written. *)
Record StateFile := MkFile { contents : option qstring; readable : bool; writable : bool }.

Record Guard := MkGuard {
  m_profile : Z;
  m_strikes : Z;
  m_armed : bool;
  m_armedAt : Z;
  m_suppressed : bool;
  m_bootOpen : bool;
  m_unstableBoots : Z;
  m_previousExit : QJsonObject;
  m_lastExit : QJsonObject;
  m_file : StateFile }.

Definition guardEta (s : Guard) : Guard :=
  MkGuard (m_profile s) (m_strikes s) (m_armed s) (m_armedAt s) (m_suppressed s) (m_bootOpen s)
    (m_unstableBoots s) (m_previousExit s) (m_lastExit s) (m_file s).
Definition set_m_profile (v : Z) (s : Guard) : Guard := ltac:(setter guardEta m_profile v s).
Definition set_m_strikes (v : Z) (s : Guard) : Guard := ltac:(setter guardEta m_strikes v s).
Definition set_m_armed (v : bool) (s : Guard) : Guard := ltac:(setter guardEta m_armed v s).
Definition set_m_armedAt (v : Z) (s : Guard) : Guard := ltac:(setter guardEta m_armedAt v s).
Definition set_m_suppressed (v : bool) (s : Guard) : Guard := ltac:(setter guardEta m_suppressed v s).
Definition set_m_bootOpen (v : bool) (s : Guard) : Guard := ltac:(setter guardEta m_bootOpen v s).
Definition set_m_unstableBoots (v : Z) (s : Guard) : Guard := ltac:(setter guardEta m_unstableBoots v s).
Definition set_m_lastExit (v : QJsonObject) (s : Guard) : Guard := ltac:(setter guardEta m_lastExit v s).
Definition set_m_file (v : StateFile) (s : Guard) : Guard := ltac:(setter guardEta m_file v s).

Definition qBound (lo v hi : Z) : Z := Z.max lo (Z.min hi v).

Section Guard.
(** QJsonDocument::fromJson, [None] for a parse error, and toJson. *)
Context (fromJson : qstring -> option QJsonValue) (toJson : QJsonValue -> qstring).

(** ** Writing the record *)

Definition document (s : Guard) : QJsonObject :=
  [(qs "version", JInt kResumeGuardVersion);
   (qs "resume", JObject [(qs "profile", JInt (m_profile s)); (qs "strikes", JInt (m_strikes s));
                          (qs "armed", JBool (m_armed s)); (qs "armed_at", JInt (m_armedAt s))]);
   (qs "boot", JObject [(qs "open", JBool (m_bootOpen s)); (qs "unstable", JInt (m_unstableBoots s))])]
  ++ (if isEmpty (m_lastExit s) then [] else [(qs "last_exit", JObject (m_lastExit s))]).

Definition save (s : Guard) : Guard :=
  let f := m_file s in
  if writable f then set_m_file (MkFile (Some (toJson (JObject (document s)) ++ [10])) (readable f) (writable f)) s else s.

(** ** Reading it *)

Definition fresh (f : StateFile) : Guard := MkGuard (-1) 0 false 0 false false 0 [] [] f.

Definition readRecord (root : QJsonObject) (f : StateFile) : Guard :=
  let resume := jsonToObject (jsonGet root (qs "resume")) in
  let profile := jsonToInt (-1) (jsonGet resume (qs "profile")) in
  let profile := if profile <? 0 then -1 else profile in
  let armed := (0 <=? profile) && jsonToBool false (jsonGet resume (qs "armed")) in
  let boot := jsonToObject (jsonGet root (qs "boot")) in
  MkGuard profile (qBound 0 (jsonToInt 0 (jsonGet resume (qs "strikes"))) kStrikesToSuppress) armed
    (if armed then jsonToInt64 0 (jsonGet resume (qs "armed_at")) else 0) false
    (jsonToBool false (jsonGet boot (qs "open")))
    (qBound 0 (jsonToInt 0 (jsonGet boot (qs "unstable"))) kResumeGuardMaxUnstableBoots)
    (jsonToObject (jsonGet root (qs "last_exit"))) [] f.

Definition ResumeGuard (f : StateFile) : Guard :=
  match contents f with
  | None => fresh f
  | Some text =>
      if negb (readable f) then fresh f
      else if kResumeGuardMaxBytes <? qsize text then fresh f
      else match fromJson text with
           | Some (JObject root) =>
               if negb (jsonToInt 0 (jsonGet root (qs "version")) =? kResumeGuardVersion) then fresh f
               else let s := readRecord root f in if negb (isEmpty (m_previousExit s)) then save s else s
           | _ => fresh f
           end
  end.

(** ** Operations *)

Definition disarmed (s : Guard) : Guard := set_m_armedAt 0 (set_m_armed false s).

Definition settlePrevious (s : Guard) : Guard :=
  let s := if m_bootOpen s then set_m_unstableBoots (Z.min (m_unstableBoots s + 1) kResumeGuardMaxUnstableBoots) s else s in
  let s := set_m_bootOpen true s in
  if negb (m_armed s) then save s
  else save (disarmed (set_m_strikes (Z.min (m_strikes s + 1) kStrikesToSuppress) s)).

Definition unstableBoots (s : Guard) : Z := m_unstableBoots s.
Definition stayUp (s : Guard) : bool := kUnstableBootsToStayUp <=? unstableBoots s.

Definition markStable (s : Guard) : Guard :=
  if negb (m_bootOpen s) && (m_unstableBoots s =? 0) then s
  else save (set_m_unstableBoots 0 (set_m_bootOpen false s)).

Definition decide (candidateId : Z) (s : Guard) : Z * Guard :=
  let s := set_m_suppressed false s in
  if candidateId <? 0 then (-1, s)
  else if negb (candidateId =? m_profile s) then
    let hadRecord := 0 <=? m_profile s in
    let s := disarmed (set_m_strikes 0 (set_m_profile candidateId s)) in
    (candidateId, if hadRecord then save s else s)
  else if kStrikesToSuppress <=? m_strikes s then (-1, set_m_suppressed true s)
  else (candidateId, s).

Definition suppressed (s : Guard) : bool := m_suppressed s.
Definition armed (s : Guard) : bool := m_armed s.
Definition previousExit (s : Guard) : QJsonObject := m_previousExit s.

Definition liftSuppression (startedProfileId : Z) (s : Guard) : Guard :=
  if (0 <=? startedProfileId) && negb (startedProfileId =? m_profile s) then set_m_suppressed false s else s.

Definition arm (profileId now : Z) (s : Guard) : Guard :=
  if profileId <? 0 then s
  else
    let s := if negb (profileId =? m_profile s) then set_m_strikes 0 (set_m_profile profileId s) else s in
    save (set_m_armedAt now (set_m_armed true s)).

Definition disarm (s : Guard) : Guard := if negb (m_armed s) then s else save (disarmed s).

Definition strike (s : Guard) : Guard :=
  if negb (m_armed s) then s
  else save (disarmed (set_m_strikes (Z.min (m_strikes s + 1) kStrikesToSuppress) s)).

Definition survived (profileId : Z) (s : Guard) : Guard :=
  if (profileId <? 0) || negb (profileId =? m_profile s) then s
  else if (m_strikes s =? 0) && negb (m_armed s) && negb (m_suppressed s) then s
  else save (set_m_suppressed false (disarmed (set_m_strikes 0 s))).

Definition noteExit (code : Z) (reason : qstring) (now : Z) (s : Guard) : Guard :=
  let s := set_m_lastExit [(qs "code", JInt code); (qs "reason", JString reason); (qs "at", JInt now)] s in
  let s := if negb (code =? CoreGaveUp) && negb (code =? Stuck) then disarmed s else s in
  save s.
End Guard.

(** ** Boots *)

(** What happens to the guard while a process runs. *)
Inductive BootEvent :=
| EvArm (now : Z) | EvStrike | EvDisarm | EvSurvived (p : Z) | EvStable | EvLift (p : Z) | EvExit (code : Z) (reason : qstring) (now : Z).

(** A boot: the remembered profile (-1 for none) and what happens until the
    process ends; its start may be dispatched at any time, and more than once. *)
Record Boot := MkBoot { candidate : Z; happened : list BootEvent }.

Section Boots.
Context (fromJson : qstring -> option QJsonValue) (toJson : QJsonValue -> qstring).

(** [id] is the profile the boot resumes, -1 for none. *)
Definition event (id : Z) (s : Guard) (e : BootEvent) : Guard :=
  match e with
  | EvArm now => arm toJson id now s
  | EvStrike => strike toJson s
  | EvDisarm => disarm toJson s
  | EvSurvived p => survived toJson p s
  | EvStable => markStable toJson s
  | EvLift p => liftSuppression p s
  | EvExit code reason now => noteExit toJson code reason now s
  end.

Definition settled (f : StateFile) : Guard := settlePrevious toJson (ResumeGuard fromJson toJson f).

Definition runBoot (f : StateFile) (b : Boot) : Guard :=
  let '(id, s) := decide toJson (candidate b) (settled f) in
  fold_left (event id) (happened b) s.

Definition runBoots (f : StateFile) (history : list Boot) : StateFile :=
  fold_left (fun f b => m_file (runBoot f b)) history f.

(** ** What the guard is for

    Counted on the history alone, newest boot first: the resumes of [c] that
    ended badly since it last survived or another profile was remembered. *)

Definition fate (c : Z) (tried : bool) (st : Z * bool) (e : BootEvent) : Z * bool :=
  let '(n, underway) := st in
  match e with
  | EvArm _ => (n, tried || underway)
  | EvStrike => if underway then (n + 1, false) else st
  | EvDisarm => (n, false)
  | EvSurvived p => if p =? c then (0, false) else st
  | EvExit code _ _ => if (code =? CoreGaveUp) || (code =? Stuck) then st else (n, false)
  | EvStable | EvLift _ => st
  end.

Definition fates (c : Z) (b : Boot) (tried : bool) (n : Z) : Z :=
  let '(n, underway) := fold_left (fate c tried) (happened b) (n, false) in
  if underway then n + 1 else n.

Definition badAfter (c : Z) (b : Boot) (n : Z) : Z :=
  if candidate b <? 0 then fates c b false n
  else if candidate b =? c then fates c b (n <? kStrikesToSuppress) n
  else 0.

Fixpoint badInARow (c : Z) (recent : list Boot) : Z :=
  match recent with
  | [] => 0
  | b :: older => badAfter c b (badInARow c older)
  end.

Definition isStable (e : BootEvent) : bool := match e with EvStable => true | _ => false end.
Definition becameStable (b : Boot) : bool := existsb isStable (happened b).
Fixpoint unstableInARow (recent : list Boot) : Z :=
  match recent with
  | [] => 0
  | b :: older => if becameStable b then 0 else 1 + unstableInARow older
  end.

Definition exitOf (x : QJsonObject) (e : BootEvent) : QJsonObject :=
  match e with
  | EvExit code reason now => [(qs "code", JInt code); (qs "reason", JString reason); (qs "at", JInt now)]
  | _ => x
  end.
Definition lastExitOf (recent : list Boot) : QJsonObject :=
  match recent with [] => [] | b :: _ => fold_left exitOf (happened b) [] end.

(** ** The record on disk follows the one in memory *)

Definition exitOk (x : QJsonObject) : Prop :=
  x = [] \/ exists code reason now, x = [(qs "code", JInt code); (qs "reason", JString reason); (qs "at", JInt now)] /\
    intRange code = true /\ qsize reason <= 8192 /\ - 2 ^ 63 <= now < 2 ^ 63.

Record recordOk (s : Guard) : Prop := {
  ok_profile : -1 <= m_profile s < 2 ^ 31;
  ok_strikes : 0 <= m_strikes s <= kStrikesToSuppress;
  ok_armed : m_armed s = true -> 0 <= m_profile s;
  ok_armedAt : - 2 ^ 63 <= m_armedAt s < 2 ^ 63 /\ (m_armed s = false -> m_armedAt s = 0);
  ok_unstable : 0 <= m_unstableBoots s <= kResumeGuardMaxUnstableBoots;
  ok_none : m_profile s < 0 -> m_strikes s = 0;
  ok_exit : exitOk (m_lastExit s) }.

(** The file holds the record of [s]. *)
Definition stored (f : StateFile) (s : Guard) : Prop :=
  readable f = true /\ writable f = true /\ contents f = Some (toJson (JObject (document s)) ++ [10]).

(** Two records that no later boot tells apart: a record without strikes is as
    good as none. *)
Definition same (s t : Guard) : Prop :=
  m_armed s = m_armed t /\ m_bootOpen s = m_bootOpen t /\ m_unstableBoots s = m_unstableBoots t /\
  m_lastExit s = m_lastExit t /\
  (m_profile s = m_profile t /\ m_strikes s = m_strikes t \/
   m_profile t = -1 /\ m_strikes t = 0 /\ m_strikes s = 0 /\ m_armed s = false).

Definition inSync (s : Guard) : Prop := recordOk s /\ exists t, recordOk t /\ stored (m_file s) t /\ same s t.

Definition view (c : Z) (s : Guard) : Z := if m_profile s =? c then m_strikes s else 0.

Lemma save_inSync s : recordOk s -> readable (m_file s) = true -> writable (m_file s) = true -> inSync (save toJson s).
Proof.
  intros Hs Hr Hw. unfold save. rewrite Hw. split; [destruct Hs; split; cbn; assumption|].
  exists s. split; [done|]. split; [by split|]. unfold same. cbn. tauto.
Qed.

Lemma inSync_file s : inSync s -> readable (m_file s) = true /\ writable (m_file s) = true.
Proof. intros (_ & t & _ & (H1 & H2 & _) & _). done. Qed.

Lemma save_fields s : m_profile (save toJson s) = m_profile s /\ m_strikes (save toJson s) = m_strikes s /\
  m_armed (save toJson s) = m_armed s /\ m_bootOpen (save toJson s) = m_bootOpen s /\
  m_unstableBoots (save toJson s) = m_unstableBoots s /\ m_lastExit (save toJson s) = m_lastExit s /\
  m_suppressed (save toJson s) = m_suppressed s /\ m_previousExit (save toJson s) = m_previousExit s.
Proof. unfold save. by destruct (writable (m_file s)). Qed.

(** ** Reading the record back *)

(** QJsonDocument reads back what it wrote, and a record is far below the limit. *)
Hypothesis reads_back : forall s, recordOk s ->
  fromJson (toJson (JObject (document s)) ++ [10]) = Some (JObject (document s)) /\
  qsize (toJson (JObject (document s)) ++ [10]) <= kResumeGuardMaxBytes.

Lemma exitOk_object (s : Guard) : jsonToObject (jsonGet (document s) (qs "last_exit")) = m_lastExit s.
Proof. unfold document. by destruct (m_lastExit s). Qed.

Lemma qBound_in lo v hi : lo <= v <= hi -> qBound lo v hi = v.
Proof. unfold qBound. lia. Qed.

Lemma readRecord_document s f : recordOk s ->
  readRecord (document s) f =
  MkGuard (m_profile s) (m_strikes s) (m_armed s) (m_armedAt s) false (m_bootOpen s) (m_unstableBoots s) (m_lastExit s) [] f.
Proof.
  intros [H1 H2 H3 [H4 H4'] H5 H6 H7]. unfold readRecord. rewrite exitOk_object.
  unfold kStrikesToSuppress, kResumeGuardMaxUnstableBoots in *.
  cbn [document app jsonGet jsonToObject qs]. 
  repeat match goal with |- context [bool_decide (?x = ?y)] =>
    first [rewrite (bool_decide_true (x = y)) by reflexivity|rewrite (bool_decide_false (x = y)) by discriminate] end.
  cbn [jsonToObject jsonGet].
  repeat match goal with |- context [bool_decide (?x = ?y)] =>
    first [rewrite (bool_decide_true (x = y)) by reflexivity|rewrite (bool_decide_false (x = y)) by discriminate] end.
  rewrite !jsonToInt_int by (unfold intRange; rewrite andb_true_iff, Z.leb_le, Z.ltb_lt; lia).
  cbn [jsonToBool jsonToInt64]. rewrite !qBound_in by lia.
  assert ((- 2 ^ 63 <=? m_armedAt s) && (m_armedAt s <? 2 ^ 63) = true) as -> by (rewrite andb_true_iff, Z.leb_le, Z.ltb_lt; lia).
  destruct (Z.ltb_spec (m_profile s) 0), (Z.leb_spec 0 (m_profile s)); try lia.
  - replace (m_profile s) with (-1) by lia. destruct (m_armed s); [by specialize (H3 eq_refl); lia|]. cbn [andb]. by rewrite H4'.
  - cbn [andb]. destruct (m_armed s); [done|]. by rewrite H4'.
Qed.

Lemma load_stored f t : recordOk t -> stored f t -> let s := ResumeGuard fromJson toJson f in
  inSync s /\ m_profile s = m_profile t /\ m_strikes s = m_strikes t /\ m_armed s = m_armed t /\
  m_bootOpen s = m_bootOpen t /\ m_unstableBoots s = m_unstableBoots t /\ m_previousExit s = m_lastExit t /\ m_lastExit s = [].
Proof.
  intros Ht (Hr & Hw & Hc). cbv zeta. destruct (reads_back t Ht) as [Hj Hs]. unfold ResumeGuard.
  rewrite Hc, Hr, Hj. cbn [negb]. destruct (Z.ltb_spec kResumeGuardMaxBytes (qsize (toJson (JObject (document t)) ++ [10]))); [lia|].
  change (jsonToInt 0 (jsonGet (document t) (qs "version")) =? kResumeGuardVersion) with true. cbn [negb]. cbv zeta.
  rewrite readRecord_document by done. cbn [m_previousExit].
  set (s := MkGuard _ _ _ _ _ _ _ _ _ _). assert (recordOk s) as Hok by (destruct Ht; split; cbn; try assumption; by left).
  destruct (m_lastExit t) as [|kv x] eqn:E; cbn [isEmpty negb].
  - split; [|done]. split; [done|]. exists s. split; [done|]. split; [|unfold same; tauto]. split_and!; [done..|].
    cbn [s m_file]. rewrite Hc. unfold document. by rewrite E.
  - split; [by apply save_inSync|]. destruct (save_fields s) as (-> & -> & -> & -> & -> & -> & _ & ->). done.
Qed.

(** ** One boot against the count *)

Record tracks (c n : Z) (a o : bool) (u : Z) (x : QJsonObject) (s : Guard) : Prop := {
  tr_sync : inSync s;
  tr_view : view c s = Z.min n kStrikesToSuppress;
  tr_armed : m_armed s = a;
  tr_profile : a = true -> m_profile s = c;
  tr_n : 0 <= n;
  tr_open : m_bootOpen s = o;
  tr_unstable : m_unstableBoots s = u;
  tr_exit : m_lastExit s = x }.

(** A saved state tracks what its fields say. *)
Lemma save_tracks c n a o u x s : recordOk s -> readable (m_file s) = true -> writable (m_file s) = true ->
  view c s = Z.min n kStrikesToSuppress -> m_armed s = a -> (a = true -> m_profile s = c) -> 0 <= n ->
  m_bootOpen s = o -> m_unstableBoots s = u -> m_lastExit s = x -> tracks c n a o u x (save toJson s).
Proof.
  intros Hok Hr Hw Hv Ha Hp Hn Ho Hu Hx. destruct (save_fields s) as (E1 & E2 & E3 & E4 & E5 & E6 & _).
  split; [by apply save_inSync|..]; unfold view in *; rewrite ?E1, ?E2, ?E3, ?E4, ?E5, ?E6; done.
Qed.

Ltac record_ok H :=
  pose proof H as [? ? ? [? ?] ? ? ?]; split; cbn in *; unfold kStrikesToSuppress, kResumeGuardMaxUnstableBoots in *;
  first [assumption|lia|by left|done|intros; lia|split; (assumption || lia || done)].

Ltac saved H := apply save_tracks; cbn; try done; try (by record_ok H).

Lemma view_bound c s : recordOk s -> 0 <= view c s <= kStrikesToSuppress.
Proof. intros [_ H _ _ _ _ _]. unfold view. destruct (m_profile s =? c); [done|]. unfold kStrikesToSuppress. lia. Qed.

Lemma view_here c s : m_profile s = c -> view c s = m_strikes s.
Proof. intros <-. unfold view. by rewrite Z.eqb_refl. Qed.
Lemma view_away c s : m_profile s <> c -> view c s = 0.
Proof. intros H. unfold view. by rewrite (proj2 (Z.eqb_neq _ _) H). Qed.

Lemma min_zero n : 0 <= n -> 0 = Z.min n kStrikesToSuppress -> n = 0.
Proof. unfold kStrikesToSuppress. lia. Qed.

Lemma arm_tracks c n a o u x now s : 0 <= c < 2 ^ 31 -> - 2 ^ 63 <= now < 2 ^ 63 ->
  tracks c n a o u x s -> tracks c n true o u x (arm toJson c now s).
Proof.
  intros Hc Hnow [Hs Hv Ha Hp Hn Ho Hu Hx]. destruct (inSync_file s Hs) as [Hr Hw]. destruct Hs as [Hok Hst].
  unfold arm. destruct (Z.ltb_spec c 0); [lia|]. destruct (Z.eqb_spec c (m_profile s)) as [E|E]; cbn [negb].
  - saved Hok.
  - rewrite view_away in Hv by congruence. apply min_zero in Hv; [|done]. subst n. saved Hok. by rewrite view_here.
Qed.

Lemma strike_tracks c n o u x s : tracks c n true o u x s -> tracks c (n + 1) false o u x (strike toJson s).
Proof.
  intros [Hs Hv Ha Hp Hn Ho Hu Hx]. destruct (inSync_file s Hs) as [Hr Hw]. destruct Hs as [Hok Hst]. specialize (Hp eq_refl).
  unfold strike. rewrite Ha. cbn [negb]. pose proof (ok_armed s Hok Ha) as Hge. rewrite view_here in Hv by done.
  saved Hok; [|lia]. rewrite view_here by done. cbn. unfold kStrikesToSuppress in *. lia.
Qed.

Lemma survived_tracks c n a o u x p s : 0 <= c -> tracks c n a o u x s ->
  tracks c (if p =? c then 0 else n) (if p =? c then false else a) o u x (survived toJson p s).
Proof.
  intros Hc T. pose proof T as [Hs Hv Ha Hp Hn Ho Hu Hx]. destruct (inSync_file s Hs) as [Hr Hw]. destruct Hs as [Hok Hst].
  unfold survived. destruct (Z.ltb_spec p 0) as [Hp0|Hp0]; cbn [orb]; [destruct (Z.eqb_spec p c); [lia|done]|].
  destruct (Z.eqb_spec p (m_profile s)) as [->|Hne]; cbn [negb].
  - destruct ((m_strikes s =? 0) && negb (m_armed s) && negb (m_suppressed s)) eqn:E.
    + apply andb_true_iff in E as [[E1%Z.eqb_eq E2%negb_true_iff]%andb_true_iff _].
      destruct (Z.eqb_spec (m_profile s) c) as [Hpc|Hnc]; [|done].
      split; [by split|by rewrite view_here|done|done|lia|done..].
    + destruct (Z.eqb_spec (m_profile s) c) as [Hpc|Hnc].
      * saved Hok. by rewrite view_here.
      * assert (a = false) as -> by (destruct a; [by specialize (Hp eq_refl)|done]).
        saved Hok. rewrite view_away in Hv by done. by rewrite view_away.
  - destruct (Z.eqb_spec p c) as [->|Hnc]; [|done].
    assert (a = false) as -> by (destruct a; [by rewrite Hp in Hne by done|done]).
    rewrite view_away in Hv by congruence. apply min_zero in Hv; [|done]. by subst n.
Qed.

Lemma markStable_tracks c n a o u x s : tracks c n a o u x s -> tracks c n a false 0 x (markStable toJson s).
Proof.
  intros T. pose proof T as [Hs Hv Ha Hp Hn Ho Hu Hx]. destruct (inSync_file s Hs) as [Hr Hw]. destruct Hs as [Hok Hst].
  unfold markStable. rewrite Ho, Hu. destruct (negb o && (u =? 0)) eqn:E.
  - by apply andb_true_iff in E as [->%negb_true_iff ->%Z.eqb_eq].
  - saved Hok.
Qed.

Lemma disarm_tracks c n a o u x s : tracks c n a o u x s -> tracks c n false o u x (disarm toJson s).
Proof.
  intros T. pose proof T as [Hs Hv Ha Hp Hn Ho Hu Hx]. destruct (inSync_file s Hs) as [Hr Hw]. destruct Hs as [Hok Hst].
  unfold disarm. rewrite Ha. destruct a; cbn [negb]; [|done]. saved Hok.
Qed.

Lemma noteExit_tracks c n a o u x code reason now s : tracks c n a o u x s -> exitOk (exitOf x (EvExit code reason now)) ->
  tracks c n (if (code =? CoreGaveUp) || (code =? Stuck) then a else false) o u (exitOf x (EvExit code reason now))
    (noteExit toJson code reason now s).
Proof.
  intros [Hs Hv Ha Hp Hn Ho Hu Hx] He. destruct (inSync_file s Hs) as [Hr Hw]. destruct Hs as [Hok Hst].
  unfold noteExit. rewrite <- negb_orb. destruct ((code =? CoreGaveUp) || (code =? Stuck)); cbn [negb]; saved Hok.
Qed.

Lemma lift_tracks c n a o u x p s : tracks c n a o u x s -> tracks c n a o u x (liftSuppression p s).
Proof.
  intros [[Hok Hst] Hv Ha Hp Hn Ho Hu Hx]. unfold liftSuppression. case_match; [|by split].
  split; try done. split; [by record_ok Hok|exact Hst].
Qed.

Definition eventOk (e : BootEvent) : Prop :=
  match e with
  | EvArm now => - 2 ^ 63 <= now < 2 ^ 63
  | EvExit code reason now => intRange code = true /\ qsize reason <= 8192 /\ - 2 ^ 63 <= now < 2 ^ 63
  | _ => True
  end.

Lemma exitOf_ok x e : exitOk x -> eventOk e -> exitOk (exitOf x e).
Proof. intros Hx He. destruct e; cbn in *; try done. right. do 3 eexists. split; [reflexivity|done]. Qed.

(** The profile an event may arm: the tracked one when its resume is tried. *)
Definition resumes (id c : Z) (tried : bool) : Prop := if tried then id = c else id = -1.

Lemma event_tracks c id tried n a o u x s e : 0 <= c < 2 ^ 31 -> resumes id c tried -> eventOk e -> tracks c n a o u x s ->
  tracks c (fst (fate c tried (n, a) e)) (snd (fate c tried (n, a) e)) (if isStable e then false else o)
    (if isStable e then 0 else u) (exitOf x e) (event id s e).
Proof.
  intros Hc Hid He T. assert (exitOk x) as Hx.
  { rewrite <- (tr_exit _ _ _ _ _ _ _ T). apply ok_exit, (tr_sync _ _ _ _ _ _ _ T). }
  pose proof (exitOf_ok x e Hx He) as Hx'.
  destruct e as [now| | |p| |p|code reason now]; cbn [event isStable fate fst snd]; try (change (exitOf x _) with x).
  - destruct tried; cbn [orb resumes] in *; subst id; [by apply arm_tracks with (a := a)|by unfold arm].
  - destruct a; cbn [fst snd]; [by apply strike_tracks|]. unfold strike. by rewrite (tr_armed _ _ _ _ _ _ _ T).
  - by apply disarm_tracks with (a := a).
  - pose proof (survived_tracks c n a o u x p s (proj1 Hc) T) as H. by destruct (p =? c).
  - by apply markStable_tracks with (o := o) (u := u).
  - by apply lift_tracks.
  - pose proof (noteExit_tracks c n a o u x code reason now s T Hx') as H. by destruct (_ || _).
Qed.

Lemma events_track c id tried evs : 0 <= c < 2 ^ 31 -> resumes id c tried -> Forall eventOk evs -> forall n a o u x s,
  tracks c n a o u x s ->
  tracks c (fst (fold_left (fate c tried) evs (n, a))) (snd (fold_left (fate c tried) evs (n, a)))
    (if existsb isStable evs then false else o) (if existsb isStable evs then 0 else u)
    (fold_left exitOf evs x) (fold_left (event id) evs s).
Proof.
  intros Hc Hid. induction 1 as [|e evs He _ IH]; intros n a o u x s T; cbn [fold_left existsb fst snd]; [done|].
  pose proof (event_tracks c id tried n a o u x s e Hc Hid He T) as T'. destruct (fate c tried (n, a) e) as [n' a'].
  specialize (IH _ _ _ _ _ _ T'). destruct (isStable e), (existsb isStable evs); exact IH.
Qed.

Lemma event_profile id s e : id = -1 \/ id = m_profile s -> m_profile (event id s e) = m_profile s.
Proof.
  intros Hid. destruct e; cbn [event]; unfold arm, strike, disarm, survived, markStable, liftSuppression, noteExit, save; cbv zeta.
  1:{ destruct Hid as [->| ->]; [done|]. rewrite Z.eqb_refl. cbn [negb].
      repeat match goal with |- context [if ?b then _ else _] => destruct b end; reflexivity. }
  all: repeat match goal with |- context [if ?b then _ else _] => destruct b end; reflexivity.
Qed.
Lemma events_profile id evs s : id = -1 \/ id = m_profile s -> m_profile (fold_left (event id) evs s) = m_profile s.
Proof.
  revert s. induction evs as [|e evs IH]; intros s Hid; cbn [fold_left]; [done|].
  rewrite IH; rewrite event_profile by done; done.
Qed.

(** The strikes the next boot will read for [c]. *)
Definition pending (c : Z) (t : Guard) : Z := view c t + (if m_armed t && (m_profile t =? c) then 1 else 0).

(** What a file says to the next boot about [c]. *)
Definition fileSays (c n : Z) (o : bool) (u : Z) (x : QJsonObject) (f : StateFile) : Prop :=
  (contents f = None /\ readable f = true /\ writable f = true /\ n = 0 /\ o = false /\ u = 0 /\ x = []) \/
  exists t, recordOk t /\ stored f t /\ 0 <= n /\ Z.min (pending c t) kStrikesToSuppress = Z.min n kStrikesToSuppress /\
    m_bootOpen t = o /\ m_unstableBoots t = u /\ m_lastExit t = x.

Lemma tracks_file c n a o u x s : 0 <= c -> tracks c n a o u x s ->
  fileSays c (if a then n + 1 else n) o u x (m_file s).
Proof.
  intros Hc [[_ (t & Ht & Hst & Ha & Ho & Hu & Hx & Hs)] Hv Ha' Hp Hn Ho' Hu' Hx']. right. exists t.
  split; [done|]. split; [done|]. split; [destruct a; lia|]. split; [|by rewrite <- Ho, <- Hu, <- Hx].
  unfold pending. rewrite <- Ha, Ha'. destruct Hs as [[E1 E2]|(Hs1 & Hs2 & Hs3 & Hs4)].
  - assert (view c t = view c s) as -> by (unfold view; by rewrite E1, E2). rewrite Hv, <- E1.
    destruct a; cbn [andb]; [rewrite (Hp eq_refl), Z.eqb_refl|]; unfold kStrikesToSuppress; lia.
  - rewrite Hs4 in Ha'. subst a. cbn [andb]. rewrite view_away by lia. unfold view in Hv. rewrite Hs3 in Hv.
    destruct (m_profile s =? c); unfold kStrikesToSuppress in *; lia.
Qed.

(** When another profile took the record over, nothing is left of [c]. *)
Lemma tracks_file_other c d n a o u x s : 0 <= c -> 0 <= d -> c <> d -> m_profile s = d -> tracks d n a o u x s ->
  fileSays c 0 o u x (m_file s).
Proof.
  intros Hc Hd Hne Hp T. destruct (tracks_file d n a o u x s Hd T) as [(H1 & H2 & H3 & _ & H5)|H]; [by left|].
  destruct T as [[_ (t & Ht & Hst & Ha & Ho & Hu & Hx & Hs)] Hv Ha' _ _ Ho' Hu' Hx']. right. exists t.
  assert (m_profile t <> c) as Hnc by (destruct Hs as [[E _]|(E & _)]; lia).
  split; [done|]. split; [done|]. split; [done|]. unfold pending. rewrite view_away, (proj2 (Z.eqb_neq _ _) Hnc), andb_false_r by done.
  by rewrite <- Ho, <- Hu, <- Hx.
Qed.

Lemma pending_bound c t : recordOk t -> 0 <= pending c t.
Proof. intros H. pose proof (view_bound c t H). unfold pending. destruct (_ && _); lia. Qed.

Lemma fileSays_other c n o u x f d : fileSays c n o u x f -> exists m, fileSays d m o u x f.
Proof.
  intros [(H1 & H2 & H3 & _ & H5)|(t & H1 & H2 & _ & _ & H4)]; [exists 0; by left|].
  exists (pending d t). right. exists t. split; [done|]. split; [done|]. split; [by apply pending_bound|done].
Qed.

Lemma fresh_ok f : recordOk (fresh f).
Proof. split; cbn; unfold kStrikesToSuppress, kResumeGuardMaxUnstableBoots; first [lia|done|by left]. Qed.

Lemma settle_tracks c n o u x s : inSync s -> 0 <= n ->
  Z.min (pending c s) kStrikesToSuppress = Z.min n kStrikesToSuppress -> m_bootOpen s = o -> m_unstableBoots s = u ->
  m_lastExit s = x ->
  tracks c n false true (if o then Z.min (u + 1) kResumeGuardMaxUnstableBoots else u) x (settlePrevious toJson s).
Proof.
  intros Hs Hn Hm Ho Hu Hx. destruct (inSync_file s Hs) as [Hr Hw]. destruct Hs as [Hok _].
  pose proof (ok_armed s Hok) as Hge. unfold settlePrevious. rewrite Ho, Hu. unfold pending, view in *.
  destruct o; cbn [m_armed set_m_bootOpen set_m_unstableBoots]; destruct (m_armed s) eqn:Ea; cbn [negb andb] in *;
    try specialize (Hge eq_refl).
  all: saved Hok; unfold view in *; cbn; pose proof (ok_strikes s Hok);
    destruct (m_profile s =? c); unfold kStrikesToSuppress in *; lia.
Qed.

Lemma boot_settled c n o u x f : 0 <= c -> fileSays c n o u x f ->
  tracks c n false true (if o then Z.min (u + 1) kResumeGuardMaxUnstableBoots else u) [] (settled f) /\
  m_previousExit (settled f) = x.
Proof.
  intros Hc. assert (forall s, m_previousExit (settlePrevious toJson s) = m_previousExit s) as Hpe.
  { intros s. unfold settlePrevious, save. cbv zeta. repeat match goal with |- context [if ?b then _ else _] => destruct b end; done. }
  unfold settled. rewrite Hpe. intros [(Hf & Hr & Hw & -> & -> & -> & ->)|(t & Ht & Hst & Hn & Hm & Ho & Hu & Hx)].
  - unfold ResumeGuard. rewrite Hf. split; [|done]. unfold settlePrevious. cbn. pose proof (fresh_ok f) as H0.
    saved H0. rewrite view_away; [done|]. cbn. lia.
  - destruct (load_stored f t Ht Hst) as (Hs & E1 & E2 & E3 & E4 & E5 & E6 & E7). rewrite E6. split; [|done].
    apply settle_tracks; try done; [|by rewrite E4|by rewrite E5]. rewrite <- Hm. unfold pending, view. by rewrite E1, E2, E3.
Qed.

Lemma min_below n : 0 <= n -> (kStrikesToSuppress <=? Z.min n kStrikesToSuppress) = negb (n <? kStrikesToSuppress).
Proof. intros Hn. rewrite Z.leb_antisym. unfold kStrikesToSuppress. f_equal. destruct (Z.ltb_spec n 3), (Z.ltb_spec (Z.min n 3) 3); done || lia. Qed.

Lemma decide_tracks c n o u x s : 0 <= c < 2 ^ 31 -> tracks c n false o u x s -> let '(id, s') := decide toJson c s in
  tracks c n false o u x s' /\ id = (if n <? kStrikesToSuppress then c else -1) /\
  suppressed s' = negb (n <? kStrikesToSuppress).
Proof.
  intros Hc [Hs Hv Ha Hp Hn Ho Hu Hx]. destruct (inSync_file s Hs) as [Hr Hw]. destruct Hs as [Hok Hst].
  unfold decide. destruct (Z.ltb_spec c 0); [lia|]. cbn [m_profile set_m_suppressed m_strikes].
  destruct (Z.eqb_spec c (m_profile s)) as [E|E]; cbn [negb].
  - rewrite view_here in Hv by done. rewrite Hv, min_below by done.
    destruct (n <? kStrikesToSuppress); cbn [negb]; (split; [|done]).
    all: split; try done; [split; [by record_ok Hok|exact Hst]|by rewrite view_here].
  - rewrite view_away in Hv by congruence. apply min_zero in Hv; [|done]. subst n. change (0 <? kStrikesToSuppress) with true. cbn [negb].
    assert (recordOk (disarmed (set_m_strikes 0 (set_m_profile c (set_m_suppressed false s))))) as Hok' by by record_ok Hok.
    destruct (Z.leb_spec 0 (m_profile s)) as [Hge|Hlt].
    + split; [|split; [done|]].
      * saved Hok'. by rewrite view_here.
      * unfold suppressed. destruct (save_fields (disarmed (set_m_strikes 0 (set_m_profile c (set_m_suppressed false s)))))
          as (_ & _ & _ & _ & _ & _ & -> & _). done.
    + split; [|done]. split; cbn; try done; [|by rewrite view_here].
      split; [done|]. destruct Hst as (t & Ht & Hst & S1 & S2 & S3 & S4 & S5). exists t. split; [done|]. split; [done|].
      unfold same. cbn. rewrite <- S1, Ha. split_and!; try done. right.
      pose proof (ok_none s Hok Hlt). pose proof (ok_profile s Hok). destruct S5 as [[S5 S6]|(S5 & S6 & _)]; split_and!; try done; lia.
Qed.

Lemma decide_none c n o u x s : 0 <= c -> tracks c n false o u x s -> forall d, d < 0 ->
  let '(id, s') := decide toJson d s in tracks c n false o u x s' /\ id = -1.
Proof.
  intros Hc [[Hok Hst] Hv Ha Hp Hn Ho Hu Hx] d Hd. unfold decide. destruct (Z.ltb_spec d 0); [|lia]. split; [|done].
  split; try done. split; [by record_ok Hok|exact Hst].
Qed.

Definition bootOk (b : Boot) : Prop := -1 <= candidate b < 2 ^ 31 /\ Forall eventOk (happened b).

(** From the decision to the end of the process. *)
Lemma events_file c b tried n u s id : 0 <= c < 2 ^ 31 -> bootOk b -> tracks c n false true u [] s -> resumes id c tried ->
  exists n' a, tracks c n' a (negb (becameStable b)) (if becameStable b then 0 else u) (fold_left exitOf (happened b) [])
    (fold_left (event id) (happened b) s) /\ fates c b tried n = (if a then n' + 1 else n').
Proof.
  intros Hc (_ & Hev) T Hid. pose proof (events_track c id tried _ Hc Hid Hev _ _ _ _ _ _ T) as T1.
  unfold fates, becameStable. destruct (fold_left (fate c tried) _ _) as [n1 a1]. cbn [fst snd] in T1. exists n1, a1. split; [|done].
  destruct (existsb isStable _); exact T1.
Qed.

Lemma decide_profile d s : 0 <= d -> m_profile (snd (decide toJson d s)) = d.
Proof.
  intros Hd. unfold decide. destruct (Z.ltb_spec d 0); [lia|]. cbn [m_profile set_m_suppressed].
  destruct (Z.eqb_spec d (m_profile s)) as [E|E]; cbn [negb].
  - destruct (kStrikesToSuppress <=? _); by rewrite E.
  - cbn [snd]. case_match; [|done]. by destruct (save_fields (disarmed (set_m_strikes 0 (set_m_profile d (set_m_suppressed false s))))) as [-> _].
Qed.

Lemma boot_resumed b f n o u x : bootOk b -> 0 <= candidate b < 2 ^ 31 -> fileSays (candidate b) n o u x f ->
  exists s id n' a, runBoot f b = fold_left (event id) (happened b) s /\ m_profile (fold_left (event id) (happened b) s) = candidate b /\
    tracks (candidate b) n' a (negb (becameStable b))
      (if becameStable b then 0 else if o then Z.min (u + 1) kResumeGuardMaxUnstableBoots else u)
      (fold_left exitOf (happened b) []) (fold_left (event id) (happened b) s) /\
    fates (candidate b) b (n <? kStrikesToSuppress) n = (if a then n' + 1 else n').
Proof.
  intros Hb Hr Hm. pose proof (proj1 (boot_settled (candidate b) n o u x f (proj1 Hr) Hm)) as Td.
  pose proof (decide_tracks (candidate b) n _ _ _ _ Hr Td) as Hdec.
  pose proof (decide_profile (candidate b) (settled f) (proj1 Hr)) as Hp. unfold runBoot.
  destruct (decide toJson (candidate b) (settled f)) as [id s]. destruct Hdec as (T' & Hid & _). cbn [snd] in Hp.
  assert (resumes id (candidate b) (n <? kStrikesToSuppress)) as Htry by (by destruct (n <? kStrikesToSuppress)).
  destruct (events_file (candidate b) b _ n _ s id Hr Hb T' Htry) as (n' & a & T2 & E).
  exists s, id, n', a. split; [done|]. split; [|done]. rewrite events_profile; [done|].
  rewrite Hp. destruct (n <? kStrikesToSuppress); [by right|by left].
Qed.

Lemma boot_file c b f n o u x : 0 <= c < 2 ^ 31 -> bootOk b -> fileSays c n o u x f ->
  fileSays c (badAfter c b n) (negb (becameStable b))
    (if becameStable b then 0 else if o then Z.min (u + 1) kResumeGuardMaxUnstableBoots else u)
    (fold_left exitOf (happened b) []) (m_file (runBoot f b)).
Proof.
  intros Hc Hb Hf. pose proof (proj1 (boot_settled c n o u x f (proj1 Hc) Hf)) as T. pose proof (proj1 Hb) as Hd.
  unfold badAfter, runBoot. destruct (Z.ltb_spec (candidate b) 0) as [Hneg|Hpos].
  - pose proof (decide_none c n _ _ _ _ (proj1 Hc) T _ Hneg) as Hdec.
    destruct (decide toJson (candidate b) (settled f)) as [id s]. destruct Hdec as [T' ->].
    destruct (events_file c b false n _ s (-1) Hc Hb T' eq_refl) as (n' & a & T2 & ->). by apply (tracks_file _ _ _ _ _ _ _ (proj1 Hc)).
  - assert (0 <= candidate b < 2 ^ 31) as Hr by lia. destruct (Z.eqb_spec (candidate b) c) as [<-|Hne].
    { destruct (boot_resumed b f n o u x Hb Hr Hf) as (s & id & n' & a & E & _ & T2 & ->). unfold runBoot in E. rewrite E.
      by apply (tracks_file _ _ _ _ _ _ _ (proj1 Hc)). }
    destruct (fileSays_other c n o u x f (candidate b) Hf) as [m Hm].
    destruct (boot_resumed b f m o u x Hb Hr Hm) as (s & id & n' & a & E & Hp & T2 & _). unfold runBoot in E. rewrite E.
    apply (tracks_file_other c (candidate b) n' a); [lia|lia|lia|exact Hp|exact T2].
Qed.

Lemma history_file c history : 0 <= c < 2 ^ 31 -> Forall bootOk history -> exists o u,
  fileSays c (badInARow c (rev history)) o u (lastExitOf (rev history)) (runBoots (MkFile None true true) history) /\
  (if o then Z.min (u + 1) kResumeGuardMaxUnstableBoots else u) = Z.min kResumeGuardMaxUnstableBoots (unstableInARow (rev history)).
Proof.
  intros Hc. induction history as [|b history IH] using rev_ind; intros Hok.
  - exists false, 0. split; [by left|done].
  - apply Forall_app in Hok as [Hok Hb]. apply Forall_cons in Hb as [Hb _]. destruct (IH Hok) as (o & u & Hf & Hu).
    pose proof (boot_file c b _ _ _ _ _ Hc Hb Hf) as H. unfold runBoots in *. rewrite fold_left_app, rev_app_distr.
    cbn [fold_left rev app badInARow unstableInARow lastExitOf]. do 2 eexists. split; [exact H|].
    rewrite Hu. assert (0 <= unstableInARow (rev history)).
    { clear. induction (rev history) as [|e l IHl]; cbn; [lia|]. destruct (becameStable e); lia. }
    destruct (becameStable b); cbn [negb]; unfold kResumeGuardMaxUnstableBoots in *; lia.
Qed.
End Boots.

(** C33: The guard on disk implements a count over the whole history of the
    machine: whatever earlier boots did (crashes, kills, exits, other profiles,
    stable runs) and although each process only reads and writes a file, the next
    boot resumes the remembered profile exactly when fewer than three resumes of
    it ended badly since it last survived a minute or another profile was
    remembered; otherwise it is suppressed, and stays so. The number of unstable
    boots it reports is the number of boots in a row without a stable core
    (bounded by a million), and the previous exit is the last one the previous
    boot wrote, and no older one. *)
Theorem resume_guard_exact (fromJson : qstring -> option QJsonValue) (toJson : QJsonValue -> qstring)
    (reads_back : forall s, recordOk s -> fromJson (toJson (JObject (document s)) ++ [10]) = Some (JObject (document s)) /\
       qsize (toJson (JObject (document s)) ++ [10]) <= kResumeGuardMaxBytes)
    (history : list Boot) (c : Z) (Hok : Forall bootOk history) (Hc : 0 <= c < 2 ^ 31) :
  let n := badInARow c (rev history) in
  let '(id, s) := decide toJson c (settled fromJson toJson (runBoots fromJson toJson (MkFile None true true) history)) in
  id = (if n <? kStrikesToSuppress then c else -1) /\ suppressed s = negb (n <? kStrikesToSuppress) /\
  unstableBoots s = Z.min kResumeGuardMaxUnstableBoots (unstableInARow (rev history)) /\
  previousExit s = lastExitOf (rev history).
Proof.
  cbv zeta. destruct (history_file fromJson toJson reads_back c history Hc Hok) as (o & u & Hf & Hu).
  destruct (boot_settled fromJson toJson reads_back c _ _ _ _ _ (proj1 Hc) Hf) as [T Hx]. rewrite Hu in T.
  set (s0 := settled _ _ _) in *. pose proof (decide_tracks toJson c _ _ _ _ _ Hc T) as Hd.
  assert (m_previousExit (snd (decide toJson c s0)) = m_previousExit s0) as Hp.
  { unfold decide, save. cbv zeta. repeat match goal with |- context [if ?b then _ else _] => destruct b end; done. }
  destruct (decide toJson c s0) as [id s]. destruct Hd as (T' & -> & ->). cbn [snd] in Hp. split_and!; [done|done| |].
  - exact (tr_unstable _ _ _ _ _ _ _ _ T').
  - unfold previousExit. by rewrite Hp.
Qed.

(** Three boots of profile 7 killed within the minute, the last after an exit
    with code 70, suppress it; then it survives a start by hand. *)
Definition exampleHistory : list Boot :=
  [MkBoot 7 [EvArm 100]; MkBoot 7 [EvArm 200; EvStrike]; MkBoot 7 [EvArm 300; EvExit 70 (qs "core") 305]].

Lemma resume_guard_exact_witness :
  let toJson v := [Zpos (encode v)] in
  let fromJson t := match t with Zpos p :: _ => decode p | _ => None end in
  (forall s, recordOk s -> fromJson (toJson (JObject (document s)) ++ [10]) = Some (JObject (document s)) /\
       qsize (toJson (JObject (document s)) ++ [10]) <= kResumeGuardMaxBytes) /\
  fst (decide toJson 7 (settled fromJson toJson (runBoots fromJson toJson (MkFile None true true) exampleHistory))) = -1 /\
  badInARow 7 (rev (exampleHistory ++ [MkBoot 7 [EvSurvived 7; EvStable]])) = 0.
Proof.
  set (toJson := fun v : QJsonValue => [Zpos (encode v)]).
  set (fromJson := fun t => match t with Zpos p :: _ => @decode QJsonValue _ _ p | _ => None end). cbv zeta.
  assert (forall s, recordOk s -> fromJson (toJson (JObject (document s)) ++ [10]) = Some (JObject (document s)) /\
       qsize (toJson (JObject (document s)) ++ [10]) <= kResumeGuardMaxBytes) as Hr.
  { intros s _. split; [apply decode_encode|by vm_compute]. }
  assert (Forall bootOk exampleHistory) as Hok by (repeat constructor; cbn; try done; lia).
  split; [exact Hr|]. split; [|by vm_compute].
  pose proof (resume_guard_exact fromJson toJson Hr exampleHistory 7 Hok ltac:(lia)) as H. cbv zeta in H.
  destruct (decide toJson 7 _) as [id s]. destruct H as [-> _]. by vm_compute.
Defined.
