(* ===== verification/HeadlessRuntime.v ===== *)
(** * The headless process (src/src/engine/headless/HeadlessRuntime.cpp)

    Exit decisions, signals, the boot resume and the progress watchdog.
    [Runtime] is the object's members with its guard, the flag the teardown
    raises, what it posted to its own event loop, its pending timers and what
    it asked of the engine, oldest first. Every handler is a function on it;
    what it reads of the engine is an argument. The teardown runs nested event
    loops, so [runTerminate] ends where it starts and [teardownDone] is its
    return. Log lines, HEALTH and the supervisor link are left out. *)

From Stdlib Require Import Ascii String.
From S2P Require Import Prelude QtText Json ResumeGuard.

Local Open Scope Z_scope.
#[local] Set Warnings "-register-all".

(** ** Data *)

Definition ExitOk : Z := 0.
Definition ExitRestart : Z := 75.
Definition kConnectingLimitMs : Z := 180000.
Definition kStoppingLimitMs : Z := 90000.
Definition kCoreUnusableLimitMs : Z := 60000.

Inductive BootPhase := PhaseNone | Waiting | PhaseArmed | PhaseDone.
#[export] Instance BootPhase_eq_dec : EqDecision BootPhase.
Proof. solve_decision. Defined.

(** Calls queued to the main thread, and its single-shot timers. *)
Inductive Posted := PostTerminate (code : Z) (reason : qstring) | PostRun | PostStop (name : qstring) | PostExec.
Inductive Timer := BootSurvival (profileId : Z) | RunSurvival (generation profileId : Z).

Inductive Effect :=
| EffShutdown | EffExit (code : Z) | EffKillCore | EffResetCore | EffResumeSuppressed (on : bool)
| EffSetBootStart (profileId serial : Z) | EffStartWhenUp (profileId : Z) | EffMarkSteps.

Record Runtime := MkRuntime {
  m_exitCode : Z;
  m_exitReason : qstring;
  m_stopOverride : bool;
  m_terminating : bool;
  m_terminatePosted : bool;
  m_execRunning : bool;
  m_secondSignalQueued : bool;
  m_fastPathUsed : bool;
  m_hadTty : bool;
  m_parentRelaysHangup : bool;
  m_bootProfileId : Z;
  m_bootSerial : Z;
  m_bootPhase : BootPhase;
  m_retryResumeId : Z;
  m_runGeneration : Z;
  m_stuckEpisode : bool;
  stableTimer : bool;
  coreRetryTimer : bool;
  watchdogTimer : bool;
  timers : list Timer;
  posted : list Posted;
  guard : Guard;
  prepare_exit : bool;
  teardown : option Z;
  clock : Z;
  emitted : list Effect }.

Definition rtEta (w : Runtime) : Runtime :=
  MkRuntime (m_exitCode w) (m_exitReason w) (m_stopOverride w) (m_terminating w) (m_terminatePosted w) (m_execRunning w)
    (m_secondSignalQueued w) (m_fastPathUsed w) (m_hadTty w) (m_parentRelaysHangup w) (m_bootProfileId w) (m_bootSerial w)
    (m_bootPhase w) (m_retryResumeId w) (m_runGeneration w) (m_stuckEpisode w) (stableTimer w) (coreRetryTimer w)
    (watchdogTimer w) (timers w) (posted w) (guard w) (prepare_exit w) (teardown w) (clock w) (emitted w).
Definition set_m_exitCode (v : Z) (w : Runtime) : Runtime := ltac:(setter rtEta m_exitCode v w).
Definition set_m_exitReason (v : qstring) (w : Runtime) : Runtime := ltac:(setter rtEta m_exitReason v w).
Definition set_m_stopOverride (v : bool) (w : Runtime) : Runtime := ltac:(setter rtEta m_stopOverride v w).
Definition set_m_terminating (v : bool) (w : Runtime) : Runtime := ltac:(setter rtEta m_terminating v w).
Definition set_m_terminatePosted (v : bool) (w : Runtime) : Runtime := ltac:(setter rtEta m_terminatePosted v w).
Definition set_m_execRunning (v : bool) (w : Runtime) : Runtime := ltac:(setter rtEta m_execRunning v w).
Definition set_m_secondSignalQueued (v : bool) (w : Runtime) : Runtime := ltac:(setter rtEta m_secondSignalQueued v w).
Definition set_m_fastPathUsed (v : bool) (w : Runtime) : Runtime := ltac:(setter rtEta m_fastPathUsed v w).
Definition set_m_hadTty (v : bool) (w : Runtime) : Runtime := ltac:(setter rtEta m_hadTty v w).
Definition set_m_parentRelaysHangup (v : bool) (w : Runtime) : Runtime := ltac:(setter rtEta m_parentRelaysHangup v w).
Definition set_m_bootProfileId (v : Z) (w : Runtime) : Runtime := ltac:(setter rtEta m_bootProfileId v w).
Definition set_m_bootSerial (v : Z) (w : Runtime) : Runtime := ltac:(setter rtEta m_bootSerial v w).
Definition set_m_bootPhase (v : BootPhase) (w : Runtime) : Runtime := ltac:(setter rtEta m_bootPhase v w).
Definition set_m_retryResumeId (v : Z) (w : Runtime) : Runtime := ltac:(setter rtEta m_retryResumeId v w).
Definition set_m_runGeneration (v : Z) (w : Runtime) : Runtime := ltac:(setter rtEta m_runGeneration v w).
Definition set_m_stuckEpisode (v : bool) (w : Runtime) : Runtime := ltac:(setter rtEta m_stuckEpisode v w).
Definition set_stableTimer (v : bool) (w : Runtime) : Runtime := ltac:(setter rtEta stableTimer v w).
Definition set_coreRetryTimer (v : bool) (w : Runtime) : Runtime := ltac:(setter rtEta coreRetryTimer v w).
Definition set_watchdogTimer (v : bool) (w : Runtime) : Runtime := ltac:(setter rtEta watchdogTimer v w).
Definition set_timers (v : list Timer) (w : Runtime) : Runtime := ltac:(setter rtEta timers v w).
Definition set_posted (v : list Posted) (w : Runtime) : Runtime := ltac:(setter rtEta posted v w).
Definition set_guard (v : Guard) (w : Runtime) : Runtime := ltac:(setter rtEta guard v w).
Definition set_prepare_exit (v : bool) (w : Runtime) : Runtime := ltac:(setter rtEta prepare_exit v w).
Definition set_teardown (v : option Z) (w : Runtime) : Runtime := ltac:(setter rtEta teardown v w).
Definition set_clock (v : Z) (w : Runtime) : Runtime := ltac:(setter rtEta clock v w).
Definition set_emitted (v : list Effect) (w : Runtime) : Runtime := ltac:(setter rtEta emitted v w).

Definition emit (e : Effect) (w : Runtime) : Runtime := set_emitted (emitted w ++ [e]) w.
Definition post (t : Posted) (w : Runtime) : Runtime := set_posted (posted w ++ [t]) w.
Definition addTimer (t : Timer) (w : Runtime) : Runtime := set_timers (timers w ++ [t]) w.

Section Runtime.
Context (fromJson : qstring -> option QJsonValue) (toJson : QJsonValue -> qstring).

Definition onGuard (f : Guard -> Guard) (w : Runtime) : Runtime := set_guard (f (guard w)) w.

(** ** Ending the process *)

Definition exitCode (execResult : Z) (w : Runtime) : Z :=
  if m_exitCode w <? 0 then execResult else if m_stopOverride w then ExitOk else m_exitCode w.

Definition terminating (w : Runtime) : bool := (0 <=? m_exitCode w) || prepare_exit w.
Definition stayUp (w : Runtime) : bool := ResumeGuard.stayUp (guard w).

Definition postTerminate (w : Runtime) : Runtime :=
  if m_terminatePosted w then w else post PostRun (set_m_terminatePosted true w).

(** [onMain]: called on the runtime's own thread. *)
Definition terminate (onMain : bool) (code : Z) (reason : qstring) (w : Runtime) : Runtime :=
  if negb onMain then post (PostTerminate code reason) w
  else if 0 <=? m_exitCode w then
    if (code =? ExitOk) && (m_exitCode w =? ExitRestart) && negb (m_stopOverride w) then
      let w := set_m_exitReason reason (set_m_stopOverride true w) in
      if m_terminating w then onGuard (noteExit toJson ExitOk reason (clock w)) w else w
    else w
  else if prepare_exit w then w
  else
    let w := set_m_exitReason reason (set_m_exitCode code w) in
    if m_execRunning w then postTerminate w else w.

Definition stopTimers (w : Runtime) : Runtime :=
  set_watchdogTimer false (set_coreRetryTimer false (set_stableTimer false w)).

Definition noteOwnExit (w : Runtime) : Runtime :=
  onGuard (noteExit toJson (exitCode (m_exitCode w) w) (m_exitReason w) (clock w)) w.

(** The teardown: [ExitController::shutdown] raises [prepare_exit] and runs the
    event loop; it returns at once when another one is under way. *)
Definition shutdown (code : Z) (w : Runtime) : Runtime :=
  set_teardown (Some code) (set_prepare_exit true (emit EffShutdown w)).

Definition runTerminate (w : Runtime) : Runtime :=
  if m_terminating w then w
  else if prepare_exit w then w
  else
    let w := stopTimers (set_m_terminating true w) in
    shutdown (exitCode (m_exitCode w) w) (noteOwnExit w).

(** The teardown returned: QCoreApplication::exit. *)
Definition teardownDone (w : Runtime) : Runtime :=
  match teardown w with
  | Some code => emit (EffExit (exitCode code w)) (set_teardown None w)
  | None => w
  end.

Definition endSession (reason : qstring) (w : Runtime) : Runtime :=
  let w := terminate true ExitOk reason w in
  if m_terminating w || (m_exitCode w <? 0) || prepare_exit w then w
  else noteOwnExit (stopTimers (set_m_terminating true w)).

(** After the event loop returned. *)
Definition noteExecRefused (why : qstring) (w : Runtime) : Runtime :=
  if m_stopOverride w then w
  else onGuard (noteExit toJson ExitRestart (qs "exec restart refused: " ++ why) (clock w)) w.

Definition beforeExec (w : Runtime) : Runtime := set_watchdogTimer true (post PostExec w).

(** ** Signals *)

Definition stopSignal (name : qstring) (w : Runtime) : Runtime :=
  let exiting := prepare_exit w in
  if (m_exitCode w <? 0) && negb exiting then terminate true ExitOk name w
  else if (m_exitCode w =? ExitRestart) && negb (m_stopOverride w) then terminate true ExitOk name w
  else if negb exiting then
    if m_secondSignalQueued w then w else post (PostStop name) (set_m_secondSignalQueued true w)
  else if m_fastPathUsed w then w
  else emit EffKillCore (set_m_fastPathUsed true w).

Inductive Signal := SIGTERM | SIGINT | SIGHUP | OtherSignal.

Definition onSignal (signum : Signal) (fromParent fromSession ttyGone : bool) (w : Runtime) : Runtime :=
  match signum with
  | SIGHUP =>
      let judged := negb (terminating w) || ((m_exitCode w =? ExitRestart) && negb (m_stopOverride w)) in
      let hangup := judged && m_hadTty w &&
        ((fromParent && m_parentRelaysHangup w) || ((fromSession || fromParent) && ttyGone)) in
      if hangup then terminate true ExitOk (qs "SIGHUP (the terminal hung up)") w
      else if terminating w then w
      else terminate true ExitRestart (qs "SIGHUP") w
  | SIGTERM => stopSignal (qs "SIGTERM") w
  | SIGINT => stopSignal (qs "SIGINT") w
  | OtherSignal => w
  end.

Definition onStopRequest (fast : bool) (source : qstring) (w : Runtime) : Runtime :=
  let first := negb (terminating w) in
  let w := stopSignal source w in
  if fast && first then post (PostStop source) w else w.

(** A posted call runs. *)
Definition runPosted (t : Posted) (w : Runtime) : Runtime :=
  match t with
  | PostTerminate code reason => terminate true code reason w
  | PostRun => runTerminate w
  | PostStop name => stopSignal name w
  | PostExec =>
      let w := set_m_execRunning true w in
      if 0 <=? m_exitCode w then postTerminate w else w
  end.

(** ** The boot resume *)

Definition noteProfileStarted (profileId : Z) (w : Runtime) : Runtime :=
  if negb (suppressed (guard w)) then w
  else
    let w := onGuard (liftSuppression profileId) w in
    if negb (suppressed (guard w)) then emit (EffResumeSuppressed false) w else w.

Definition noteSurvived (profileId : Z) (w : Runtime) : Runtime :=
  let wasSuppressed := suppressed (guard w) in
  let w := onGuard (liftSuppression profileId) (onGuard (survived toJson profileId) w) in
  if wasSuppressed && negb (suppressed (guard w)) then emit (EffResumeSuppressed false) w else w.

(** [remembered] is the remembered profile when resuming is on, -1 otherwise;
    [exists_] whether it is in the database; [serial] the next start's. *)
Definition bootStart (resume : bool) (remembered : Z) (exists_ : bool) (serial : Z) (w : Runtime) : Runtime :=
  if negb (bool_decide (m_bootPhase w = PhaseNone)) then w
  else
    let w := onGuard (settlePrevious toJson) w in
    let '(id, serial, w) :=
      if negb resume || (remembered <? 0) || negb exists_ then (-1, 0, w)
      else
        let '(id, g) := decide toJson remembered (guard w) in
        let w := set_guard g w in
        let w := if suppressed g then emit (EffResumeSuppressed true) w else w in
        (id, if 0 <=? id then serial else 0, w) in
    set_m_bootPhase (if 0 <=? id then Waiting else PhaseDone) (set_m_bootSerial serial (set_m_bootProfileId id w)).

Definition startDispatching (serial profileId : Z) (w : Runtime) : Runtime :=
  let w := set_m_retryResumeId (-1) w in
  if (m_bootSerial w =? 0) || negb (serial =? m_bootSerial w) || negb (bool_decide (m_bootPhase w = Waiting)) then w
  else onGuard (arm toJson profileId (clock w)) (set_m_bootPhase PhaseArmed w).

Definition coreStarted (profileId : Z) (w : Runtime) : Runtime :=
  if negb (bool_decide (m_bootPhase w = Waiting)) || negb (profileId =? m_bootProfileId w) then w
  else onGuard (arm toJson profileId (clock w)) (set_m_bootPhase PhaseArmed w).

Definition coreExited (startedId : Z) (w : Runtime) : Runtime :=
  let w := set_m_runGeneration (m_runGeneration w + 1) w in
  if bool_decide (m_bootPhase w = PhaseArmed) || ((0 <=? m_bootProfileId w) && (startedId =? m_bootProfileId w))
  then onGuard (strike toJson) w
  else onGuard (disarm toJson) w.

Inductive StartOutcome := Started | CoreUnavailable | OtherFailure.
#[export] Instance StartOutcome_eq_dec : EqDecision StartOutcome.
Proof. solve_decision. Defined.

Definition startFinished (serial profileId : Z) (outcome : StartOutcome) (coreConnected : bool) (w : Runtime) : Runtime :=
  let w := if bool_decide (outcome = Started) then set_m_retryResumeId (-1) (noteProfileStarted profileId w) else w in
  if terminating w then w
  else if (m_bootSerial w =? 0) || negb (serial =? m_bootSerial w) then w
  else
    let w := if bool_decide (outcome = CoreUnavailable) && bool_decide (m_bootPhase w = Waiting)
             then set_m_retryResumeId profileId w else w in
    let phase := m_bootPhase w in
    let w := set_m_bootPhase PhaseDone w in
    if negb (bool_decide (phase = PhaseArmed)) then w
    else if negb (bool_decide (outcome = Started)) then
      if bool_decide (outcome = CoreUnavailable) && negb coreConnected then onGuard (strike toJson) w
      else onGuard (disarm toJson) w
    else addTimer (BootSurvival profileId) w.

(** [running] is the running profile, [isRunning] whether the state is Running. *)
Definition connectionStateChanged (isRunning : bool) (running : option Z) (w : Runtime) : Runtime :=
  let w := set_m_runGeneration (m_runGeneration w + 1) w in
  if negb isRunning then w
  else match running with
       | Some id => addTimer (RunSurvival (m_runGeneration w) id) w
       | None => w
       end.

Definition onTimer (t : Timer) (isRunning : bool) (running : option Z) (w : Runtime) : Runtime :=
  match t with
  | BootSurvival profileId =>
      if negb (armed (guard w)) then w
      else if bool_decide (running = Some profileId) && isRunning then noteSurvived profileId w
      else onGuard (disarm toJson) w
  | RunSurvival generation profileId => if generation =? m_runGeneration w then noteSurvived profileId w else w
  end.

(** ** The core *)

Definition supervisorStateChanged (connected : bool) (w : Runtime) : Runtime := set_stableTimer connected w.

Definition onStableTimer (connected : bool) (w : Runtime) : Runtime :=
  let w := set_stableTimer false w in
  if negb connected then w
  else
    let wasStayingUp := stayUp w in
    let w := onGuard (markStable toJson) w in
    if wasStayingUp then set_coreRetryTimer false w else w.

(** [reset] is what [resetCore] answers. *)
Definition onCoreRetryTimer (gaveUp reset : bool) (w : Runtime) : Runtime :=
  if negb gaveUp || terminating w then w
  else
    let w := emit EffResetCore w in
    if reset && (0 <=? m_retryResumeId w) then
      emit (EffStartWhenUp (m_retryResumeId w))
        (set_m_bootPhase Waiting (emit (EffSetBootStart (m_retryResumeId w) (m_bootSerial w)) w))
    else w.

Definition resumeCancelled (w : Runtime) : Runtime := set_m_retryResumeId (-1) w.

Definition onCoreGaveUp (reason : qstring) (w : Runtime) : Runtime :=
  if negb (stayUp w) then terminate true CoreGaveUp (qs "the core gave up: " ++ reason) w
  else if terminating w then w
  else set_coreRetryTimer true (emit EffMarkSteps w).

Definition stuck (reason : qstring) (code : Z) (w : Runtime) : Runtime :=
  if terminating w then w
  else if negb (stayUp w) then terminate true code reason w
  else if m_stuckEpisode w then w
  else emit EffResetCore (emit EffMarkSteps (set_m_stuckEpisode true w)).

Definition forSeconds (text : qstring) (ms : Z) : qstring := text ++ qs " for " ++ number (Z.quot ms 1000) ++ qs " s".

(** [name] is the display name of the profile in question. *)
Definition evaluateWatchdog (connectingMs stoppingMs unusableMs : Z) (name : qstring) (w : Runtime) : Runtime :=
  if terminating w then w
  else if kConnectingLimitMs <? connectingMs then stuck (forSeconds (qs "connecting to " ++ name) connectingMs) Stuck w
  else if kStoppingLimitMs <? stoppingMs then stuck (forSeconds (qs "stopping " ++ name) stoppingMs) Stuck w
  else if kCoreUnusableLimitMs <? unusableMs then stuck (forSeconds (qs "the core has not been usable") unusableMs) CoreGaveUp w
  else set_m_stuckEpisode false w.
End Runtime.

(** ** Runs *)

(** What can happen to the process: calls, signals, posted calls and timers that
    come due, what the engine reports, another shutdown, and time. *)
Inductive RtEvent :=
| RtTerminate (onMain : bool) (code : Z) (reason : qstring)
| RtSignal (signum : Signal) (fromParent fromSession ttyGone : bool)
| RtStopRequest (fast : bool) (source : qstring)
| RtEndSession (reason : qstring)
| RtBeforeExec
| RtPosted
| RtTeardownDone
| RtOtherShutdown
| RtCoreGaveUp (reason : qstring)
| RtWatchdog (connectingMs stoppingMs unusableMs : Z) (name : qstring)
| RtTimer (k : nat) (isRunning : bool) (running : option Z)
| RtDispatching (serial profileId : Z)
| RtCoreStarted (profileId : Z)
| RtCoreExited (startedId : Z)
| RtStartFinished (serial profileId : Z) (outcome : StartOutcome) (coreConnected : bool)
| RtConnection (isRunning : bool) (running : option Z)
| RtSupervisor (connected : bool)
| RtStable (connected : bool)
| RtCoreRetry (gaveUp reset : bool)
| RtResumeCancelled
| RtClock (now : Z).

Section Runs.
Context (toJson : QJsonValue -> qstring).

Definition rtStep (w : Runtime) (e : RtEvent) : Runtime :=
  match e with
  | RtTerminate onMain code reason => terminate toJson onMain code reason w
  | RtSignal s p q g => onSignal toJson s p q g w
  | RtStopRequest fast source => onStopRequest toJson fast source w
  | RtEndSession reason => endSession toJson reason w
  | RtBeforeExec => beforeExec w
  | RtPosted => match posted w with [] => w | t :: ts => runPosted toJson t (set_posted ts w) end
  | RtTeardownDone => teardownDone w
  | RtOtherShutdown => set_prepare_exit true w
  | RtCoreGaveUp reason => onCoreGaveUp toJson reason w
  | RtWatchdog a b c name => evaluateWatchdog toJson a b c name w
  | RtTimer k isRunning running =>
      match timers w !! k with
      | Some t => onTimer toJson t isRunning running (set_timers (delete k (timers w)) w)
      | None => w
      end
  | RtDispatching serial profileId => startDispatching toJson serial profileId w
  | RtCoreStarted profileId => coreStarted toJson profileId w
  | RtCoreExited startedId => coreExited toJson startedId w
  | RtStartFinished serial profileId outcome coreConnected => startFinished toJson serial profileId outcome coreConnected w
  | RtConnection isRunning running => connectionStateChanged isRunning running w
  | RtSupervisor connected => supervisorStateChanged connected w
  | RtStable connected => onStableTimer toJson connected w
  | RtCoreRetry gaveUp reset => onCoreRetryTimer gaveUp reset w
  | RtResumeCancelled => resumeCancelled w
  | RtClock now => set_clock now w
  end.

Definition rtRun (w : Runtime) (evs : list RtEvent) : Runtime := fold_left rtStep evs w.

(** A process as it is constructed, with the guard's file. *)
Definition newRuntime (fromJson : qstring -> option QJsonValue) (f : StateFile) (now : Z) (hadTty relays : bool) : Runtime :=
  MkRuntime (-1) [] false false false false false false hadTty relays (-1) 0 PhaseNone (-1) 0 false false false false [] []
    (ResumeGuard fromJson toJson f) false None now [].

(** ** What a handler can change *)

Definition isExitEffect (e : Effect) : bool := match e with EffShutdown | EffExit _ | EffKillCore => true | _ => false end.
Definition exitEffects (w : Runtime) : list Effect := List.filter isExitEffect (emitted w).

(** The part of the state that decides how the process ends. *)
Definition control (w : Runtime) :=
  (m_exitCode w, m_exitReason w, m_stopOverride w, m_terminating w, (m_terminatePosted w, m_execRunning w, m_fastPathUsed w),
   (posted w, prepare_exit w, teardown w), exitEffects w).

Lemma exitEffects_emit e w : exitEffects (emit e w) = exitEffects w ++ (if isExitEffect e then [e] else []).
Proof. unfold exitEffects, emit. cbn. rewrite List.filter_app. cbn. by destruct (isExitEffect e). Qed.

Lemma control_emit e w : isExitEffect e = false -> control (emit e w) = control w.
Proof. intros H. unfold control. rewrite exitEffects_emit, H, app_nil_r. reflexivity. Qed.

Definition isExit (e : BootEvent) : bool := match e with EvExit _ _ _ => true | _ => false end.

(** The guard of [w'] is the guard of [w] after events of the boot, none of them
    an exit; how the process ends and which profile it resumes are untouched. *)
Definition quiet (w w' : Runtime) : Prop :=
  control w' = control w /\ clock w' = clock w /\ m_bootProfileId w' = m_bootProfileId w /\ m_bootSerial w' = m_bootSerial w /\
  exists evs, Forall (fun e => isExit e = false /\ (forall now, e = EvArm now -> now = clock w)) evs /\
    guard w' = fold_left (event toJson (m_bootProfileId w)) evs (guard w).

Lemma quiet_refl w w' : control w' = control w -> clock w' = clock w -> m_bootProfileId w' = m_bootProfileId w ->
  m_bootSerial w' = m_bootSerial w -> guard w' = guard w -> quiet w w'.
Proof. intros H1 H2 H3 H4 H5. split_and!; [done..|]. exists []. split; [constructor|done]. Qed.

Lemma quiet_trans w1 w2 w3 : quiet w1 w2 -> quiet w2 w3 -> quiet w1 w3.
Proof.
  intros (A1 & A2 & A3 & A4 & evs1 & F1 & G1) (B1 & B2 & B3 & B4 & evs2 & F2 & G2).
  split_and!; [congruence..|]. exists (evs1 ++ evs2). split; [|rewrite fold_left_app; congruence].
  apply Forall_app. split; [done|]. by rewrite A2 in F2.
Qed.

Lemma quiet_emit e w : isExitEffect e = false -> quiet w (emit e w).
Proof. intros H. apply quiet_refl; try reflexivity. by apply control_emit. Qed.

Lemma quiet_event e w f : isExit e = false -> (forall now, e = EvArm now -> now = clock w) ->
  (forall g, f g = event toJson (m_bootProfileId w) g e) -> quiet w (onGuard f w).
Proof.
  intros He Hc Hf. split_and!; [reflexivity..|]. exists [e]. split; [repeat constructor; done|]. cbn. by rewrite Hf.
Qed.

Lemma quiet_noteProfileStarted p w : quiet w (noteProfileStarted p w).
Proof.
  unfold noteProfileStarted. destruct (negb (suppressed (guard w))); [by apply quiet_refl|]. cbv zeta.
  assert (quiet w (onGuard (liftSuppression p) w)) as H by (apply (quiet_event (EvLift p)); done).
  destruct (negb (suppressed _)); [|done]. eapply quiet_trans; [exact H|]. by apply quiet_emit.
Qed.

Lemma quiet_noteSurvived p w : quiet w (noteSurvived toJson p w).
Proof.
  unfold noteSurvived. cbv zeta.
  assert (quiet w (onGuard (liftSuppression p) (onGuard (survived toJson p) w))) as H.
  { eapply quiet_trans; [apply (quiet_event (EvSurvived p)); done|apply (quiet_event (EvLift p)); done]. }
  destruct (_ && _); [|done]. eapply quiet_trans; [exact H|]. by apply quiet_emit.
Qed.

(** A step through an intermediate state that differs in fields of no account. *)
Lemma quiet_via w w1 w2 : control w1 = control w -> clock w1 = clock w -> m_bootProfileId w1 = m_bootProfileId w ->
  m_bootSerial w1 = m_bootSerial w -> guard w1 = guard w -> quiet w1 w2 -> quiet w w2.
Proof. intros H1 H2 H3 H4 H5 Hq. eapply quiet_trans; [by apply quiet_refl|exact Hq]. Qed.

Ltac still := by apply quiet_refl.
Ltac via w1 := apply (quiet_via _ w1); [reflexivity..|].

Lemma quiet_dispatching serial profileId w : (serial = m_bootSerial w -> m_bootSerial w <> 0 -> profileId = m_bootProfileId w) ->
  quiet w (startDispatching toJson serial profileId w).
Proof.
  intros Hs. unfold startDispatching. cbv zeta. cbn [m_bootSerial m_bootPhase set_m_retryResumeId].
  destruct (Z.eqb_spec (m_bootSerial w) 0) as [|H0]; cbn [orb]; [still|].
  destruct (Z.eqb_spec serial (m_bootSerial w)) as [E|]; cbn [negb orb]; [|still].
  destruct (bool_decide _); cbn [negb]; [|still]. rewrite (Hs E H0). via (set_m_bootPhase PhaseArmed (set_m_retryResumeId (-1) w)).
  apply (quiet_event (EvArm (clock w))); [done|by intros now [= <-]|done].
Qed.

Lemma quiet_coreStarted profileId w : quiet w (coreStarted toJson profileId w).
Proof.
  unfold coreStarted. destruct (bool_decide _); cbn [negb orb]; [|still].
  destruct (Z.eqb_spec profileId (m_bootProfileId w)) as [->|]; cbn [negb]; [|still]. via (set_m_bootPhase PhaseArmed w).
  apply (quiet_event (EvArm (clock w))); [done|by intros now [= <-]|done].
Qed.

Lemma quiet_coreExited startedId w : quiet w (coreExited toJson startedId w).
Proof.
  unfold coreExited. cbv zeta. destruct (_ || _); via (set_m_runGeneration (m_runGeneration w + 1) w);
    first [by apply (quiet_event EvStrike)|by apply (quiet_event EvDisarm)].
Qed.

Lemma quiet_startFinished serial profileId outcome coreConnected w :
  quiet w (startFinished toJson serial profileId outcome coreConnected w).
Proof.
  unfold startFinished. cbv zeta. set (w1 := if bool_decide (outcome = Started) then _ else _).
  assert (quiet w w1) as H1.
  { unfold w1. destruct (bool_decide _); [|still]. eapply quiet_trans; [apply quiet_noteProfileStarted|still]. }
  eapply quiet_trans; [exact H1|]. clearbody w1. destruct (terminating w1); [still|]. destruct (_ || _); [still|].
  set (w2 := if bool_decide (outcome = CoreUnavailable) && _ then _ else _).
  assert (quiet w1 w2) as H2 by (unfold w2; destruct (_ && _); still). eapply quiet_trans; [exact H2|]. clearbody w2.
  destruct (negb (bool_decide (m_bootPhase w2 = PhaseArmed))); [still|]. destruct (negb (bool_decide (outcome = Started))); [|still].
  destruct (_ && _); via (set_m_bootPhase PhaseDone w2); first [by apply (quiet_event EvStrike)|by apply (quiet_event EvDisarm)].
Qed.

Lemma quiet_timer t isRunning running w : quiet w (onTimer toJson t isRunning running w).
Proof.
  unfold onTimer. destruct t as [p|g p].
  - destruct (negb (armed (guard w))); [still|]. destruct (_ && _); [apply quiet_noteSurvived|by apply (quiet_event EvDisarm)].
  - destruct (g =? m_runGeneration w); [apply quiet_noteSurvived|still].
Qed.

Lemma quiet_connection isRunning running w : quiet w (connectionStateChanged isRunning running w).
Proof. unfold connectionStateChanged. destruct (negb isRunning); [still|]. destruct running; still. Qed.

Lemma quiet_stable connected w : quiet w (onStableTimer toJson connected w).
Proof.
  unfold onStableTimer. cbv zeta. destruct (negb connected); [still|].
  assert (quiet w (onGuard (markStable toJson) (set_stableTimer false w))) as H.
  { via (set_stableTimer false w). by apply (quiet_event EvStable). }
  destruct (stayUp _); [|done]. eapply quiet_trans; [exact H|still].
Qed.

Lemma quiet_coreRetry gaveUp reset w : quiet w (onCoreRetryTimer gaveUp reset w).
Proof.
  unfold onCoreRetryTimer. destruct (_ || _); [still|]. cbv zeta. destruct (_ && _); [|by apply (quiet_emit EffResetCore)].
  eapply quiet_trans; [by apply (quiet_emit EffResetCore)|]. cbn [m_retryResumeId m_bootSerial emit set_emitted].
  eapply quiet_trans; [by apply (quiet_emit (EffSetBootStart (m_retryResumeId w) (m_bootSerial w)))|].
  eapply quiet_trans; [|by apply quiet_emit]. still.
Qed.

(** The events that do not decide how the process ends. *)
Definition resumeEvent (e : RtEvent) : bool :=
  match e with
  | RtTimer _ _ _ | RtDispatching _ _ | RtCoreStarted _ | RtCoreExited _ | RtStartFinished _ _ _ _ | RtConnection _ _
  | RtSupervisor _ | RtStable _ | RtCoreRetry _ _ | RtResumeCancelled => true
  | _ => false
  end.

(** The serial of the boot start belongs to the boot profile. *)
Definition serialOk (w : Runtime) (e : RtEvent) : Prop :=
  match e with
  | RtDispatching serial profileId => serial = m_bootSerial w -> m_bootSerial w <> 0 -> profileId = m_bootProfileId w
  | _ => True
  end.

Lemma quiet_step w e : resumeEvent e = true -> serialOk w e -> quiet w (rtStep w e).
Proof.
  destruct e as [| | | | | | | | | |k isRunning running|serial profileId|p|startedId|serial profileId outcome cc|isRunning running|connected|connected|gaveUp reset| |];
    try done; intros _ Hs; cbn [rtStep].
  - destruct (timers w !! k); [|still]. via (set_timers (delete k (timers w)) w). apply quiet_timer.
  - by apply quiet_dispatching.
  - apply quiet_coreStarted.
  - apply quiet_coreExited.
  - apply quiet_startFinished.
  - apply quiet_connection.
  - still.
  - apply quiet_stable.
  - apply quiet_coreRetry.
  - still.
Qed.

(** ** How the process ends *)

Definition saved (g : Guard) : Prop :=
  writable (m_file g) = true /\ contents (m_file g) = Some (toJson (JObject (document g)) ++ [10]).
Definition exitRecord (code : Z) (reason : qstring) (now : Z) : QJsonObject :=
  exitOf [] (EvExit code reason now).
#[local] Arguments exitRecord : simpl never.

Lemma saved_save g : writable (m_file g) = true -> saved (save toJson g).
Proof. intros H. unfold save. rewrite H. by split. Qed.

Lemma event_saved id g e : isExit e = false -> saved g ->
  saved (event toJson id g e) /\ m_lastExit (event toJson id g e) = m_lastExit g /\ writable (m_file (event toJson id g e)) = true.
Proof.
  intros He [Hw Hc]. assert (forall h, writable (m_file h) = true -> m_lastExit h = m_lastExit g ->
    saved (save toJson h) /\ m_lastExit (save toJson h) = m_lastExit g /\ writable (m_file (save toJson h)) = true) as Hs.
  { intros h Hwh Hl. split; [by apply saved_save|]. split; [|by apply saved_save].
    unfold save. by rewrite Hwh. }
  destruct e; try done; cbn [event]; unfold arm, strike, disarm, survived, markStable, liftSuppression; cbv zeta;
    repeat match goal with |- context [if ?b then _ else _] => destruct b end;
    first [by apply Hs|by split_and!].
Qed.

Lemma events_saved id evs g : Forall (fun e => isExit e = false) evs -> saved g ->
  saved (fold_left (event toJson id) evs g) /\ m_lastExit (fold_left (event toJson id) evs g) = m_lastExit g.
Proof.
  intros H. revert g. induction H as [|e evs He _ IH]; intros g Hg; cbn [fold_left]; [done|].
  destruct (event_saved id g e He Hg) as (H1 & H2 & _). destruct (IH _ H1) as [H3 H4]. split; [done|congruence].
Qed.

Lemma event_writable id g e : writable (m_file g) = true -> writable (m_file (event toJson id g e)) = true.
Proof.
  intros Hw. assert (forall h, writable (m_file h) = true -> writable (m_file (save toJson h)) = true) as Hs.
  { intros h Hh. unfold save. by rewrite Hh. }
  destruct e; cbn [event]; unfold arm, strike, disarm, survived, markStable, liftSuppression, noteExit; cbv zeta;
    repeat match goal with |- context [if ?b then _ else _] => destruct b end; first [by apply Hs|done].
Qed.
Lemma events_writable id evs g : writable (m_file g) = true -> writable (m_file (fold_left (event toJson id) evs g)) = true.
Proof. revert g. induction evs as [|e evs IH]; intros g Hg; cbn [fold_left]; [done|]. apply IH. by apply event_writable. Qed.

Definition isShutdown (e : Effect) : bool := match e with EffShutdown => true | _ => false end.
Definition isExited (e : Effect) : bool := match e with EffExit _ => true | _ => false end.
Definition isKill (e : Effect) : bool := match e with EffKillCore => true | _ => false end.
Definition times (p : Effect -> bool) (w : Runtime) : nat := length (List.filter p (exitEffects w)).

Lemma times_emit p e w : times p (emit e w) = (times p w + (if isExitEffect e && p e then 1 else 0))%nat.
Proof. unfold times. rewrite exitEffects_emit, List.filter_app, length_app. destruct (isExitEffect e); cbn; [by destruct (p e)|done]. Qed.

(** An exit that was decided is under way, or will be. *)
Definition underway (w : Runtime) : Prop := m_terminating w = true \/ prepare_exit w = true \/ PostRun ∈ posted w.

(** The queued exit follows a decision; queued codes are exit codes. *)
Definition postOk (exitCode : Z) (t : Posted) : Prop :=
  match t with PostRun => 0 <= exitCode | PostTerminate code _ => 0 <= code | _ => True end.

Lemma postOk_later t : postOk (-1) t -> forall code, postOk code t.
Proof. destruct t; cbn; intros; done || lia. Qed.

Record ending (w : Runtime) : Prop := {
  e_code : -1 <= m_exitCode w;
  e_override : m_stopOverride w = true -> m_exitCode w = ExitRestart;
  e_code_term : m_terminating w = true -> 0 <= m_exitCode w;
  e_saved : m_terminating w = true -> saved (guard w);
  e_record : m_terminating w = true -> exists now, m_lastExit (guard w) = exitRecord (exitCode (m_exitCode w) w) (m_exitReason w) now;
  e_writable : writable (m_file (guard w)) = true;
  e_shutdown : (times isShutdown w <= if m_terminating w then 1 else 0)%nat;
  e_exit : (times isExited w + (if bool_decide (is_Some (teardown w)) then 1 else 0) = times isShutdown w)%nat;
  e_teardown : is_Some (teardown w) -> prepare_exit w = true;
  e_kill : times isKill w = if m_fastPathUsed w then 1%nat else 0%nat;
  e_fast : m_fastPathUsed w = true -> prepare_exit w = true;
  e_run : 0 <= m_exitCode w -> m_execRunning w = true -> underway w;
  e_posted : m_terminatePosted w = true -> underway w;
  e_queue : Forall (postOk (m_exitCode w)) (posted w) }.

Lemma ending_quiet w w' : quiet w w' -> ending w -> ending w'.
Proof.
  intros (Hc & _ & _ & _ & evs & Hev & Hg) E. unfold control in Hc.
  injection Hc as C1 C2 C3 C4 C5 C6 C7 C8 C9 C10 C11.
  assert (Forall (fun e => isExit e = false) evs) as Hne by (eapply Forall_impl; [exact Hev|]; cbn; tauto).
  assert (exitCode (m_exitCode w) w' = exitCode (m_exitCode w) w) as Ex by (unfold exitCode; by rewrite C1, C3).
  destruct E as [E1 E2 E3 E4 E5 E6 E7 E8 E9 E10 E11 E12 E13 E14].
  split; unfold underway, times in *; rewrite ?C1, ?C2, ?C3, ?C4, ?C5, ?C6, ?C7, ?C8, ?C9, ?C10, ?C11, ?Ex, ?Hg; try done.
  - intros Ht. exact (proj1 (events_saved _ evs (guard w) Hne (E4 Ht))).
  - intros Ht. rewrite (proj2 (events_saved _ evs (guard w) Hne (E4 Ht))). by apply E5.
  - by apply events_writable.
Qed.

(** What a control handler leaves when it only touches what is listed. *)
Ltac ending E :=
  destruct E as [E1 E2 E3 E4 E5 E6 E7 E8 E9 E10 E11 E12 E13 E14]; split; unfold underway in *; cbn in *; try done.

Lemma ending_post t w : postOk (m_exitCode w) t -> ending w -> ending (post t w).
Proof.
  intros Ht E. ending E; [| |apply Forall_app; split; [done|by repeat constructor]].
  - intros H1 H2. destruct (E12 H1 H2) as [H|[H|H]]; [by left|by right; left|]. right; right. apply elem_of_app. by left.
  - intros H1. destruct (E13 H1) as [H|[H|H]]; [by left|by right; left|]. right; right. apply elem_of_app. by left.
Qed.

Lemma ending_postTerminate w : 0 <= m_exitCode w -> ending w -> ending (postTerminate w) /\ underway (postTerminate w).
Proof.
  intros Hc E. unfold postTerminate. destruct (m_terminatePosted w) eqn:Ep; [split; [done|by apply (e_posted _ E)]|].
  assert (PostRun ∈ posted w ++ [PostRun]) as Hin by (apply elem_of_app; right; by apply list_elem_of_singleton).
  split; [|by right; right]. ending E; try (intros; by right; right).
  apply Forall_app. split; [done|by repeat constructor].
Qed.

Lemma noteExit_facts code reason now g : writable (m_file g) = true -> let g' := noteExit toJson code reason now g in
  saved g' /\ m_lastExit g' = exitRecord code reason now /\ writable (m_file g') = true.
Proof.
  intros Hw. cbv zeta. unfold noteExit. cbv zeta. set (h := if negb (code =? CoreGaveUp) && _ then _ else _).
  assert (writable (m_file h) = true /\ m_lastExit h = exitRecord code reason now) as [H1 H2] by (unfold h; destruct (_ && _); split; [exact Hw|reflexivity|exact Hw|reflexivity]).
  clearbody h. split; [by apply saved_save|]. unfold save. by rewrite H1.
Qed.

Lemma ending_terminate onMain code reason w : 0 <= code -> ending w -> ending (terminate toJson onMain code reason w).
Proof.
  intros Hc E. unfold terminate. destruct onMain; cbn [negb]; [|by apply ending_post].
  destruct (Z.leb_spec 0 (m_exitCode w)) as [H0|H0].
  - destruct (Z.eqb_spec code ExitOk) as [->|]; cbn [andb]; [|done].
    destruct (Z.eqb_spec (m_exitCode w) ExitRestart) as [Hr|]; cbn [andb]; [|done].
    destruct (m_stopOverride w) eqn:Es; cbn [negb]; [done|]. cbv zeta.
    cbn [m_terminating set_m_exitReason set_m_stopOverride]. destruct (m_terminating w) eqn:Et.
    + destruct (noteExit_facts ExitOk reason (clock w) (guard w) (e_writable w E)) as (Hf1 & Hf2 & Hf3).
      assert (exitCode (m_exitCode w) (set_m_stopOverride true w) = ExitOk) as Hx by (unfold exitCode; change (m_exitCode (set_m_stopOverride true w)) with (m_exitCode w); destruct (Z.ltb_spec (m_exitCode w) 0); [lia|done]).
      ending E. intros _. exists (clock w). rewrite Hf2. f_equal. symmetry. exact Hx.
    + ending E; congruence.
  - destruct (prepare_exit w) eqn:Ep; [done|]. cbv zeta.
    assert (m_terminating w = false) as Ht by (destruct (m_terminating w) eqn:Et; [pose proof (e_code_term _ E Et); lia|done]).
    assert (m_stopOverride w = false) as Hs by (destruct (m_stopOverride w) eqn:Et; [pose proof (e_override _ E Et); unfold ExitRestart in *; lia|done]).
    assert (PostRun ∈ posted w ++ [PostRun]) as Hin by (apply elem_of_app; right; by apply list_elem_of_singleton).
    cbn [m_execRunning set_m_exitReason set_m_exitCode]. unfold postTerminate.
    cbn [m_terminatePosted set_m_exitReason set_m_exitCode].
    assert (Forall (postOk code) (posted w)) as Hq.
    { eapply Forall_impl; [exact (e_queue _ E)|]. intros [] Hp; cbn in *; done || lia. }
    destruct (m_execRunning w) eqn:Ex; [destruct (m_terminatePosted w) eqn:Epo|]; ending E; try congruence; try lia; try auto.
    apply Forall_app. split; [done|by repeat constructor].
Qed.

Lemma exitCode_ext r w w' : m_exitCode w' = m_exitCode w -> m_stopOverride w' = m_stopOverride w -> exitCode r w' = exitCode r w.
Proof. intros H1 H2. unfold exitCode. by rewrite H1, H2. Qed.

(** The exit is written down and the process is marked as terminating. *)
Lemma ending_own w : 0 <= m_exitCode w -> m_terminating w = false -> ending w ->
  ending (noteOwnExit toJson (stopTimers (set_m_terminating true w))).
Proof.
  intros Hc Ht E. unfold noteOwnExit.
  destruct (noteExit_facts (exitCode (m_exitCode w) w) (m_exitReason w) (clock w) (guard w) (e_writable w E)) as (Hf1 & Hf2 & Hf3).
  pose proof (e_shutdown _ E) as Hs. rewrite Ht in Hs. ending E; try (intros; by left).
  - intros _. exists (clock w). exact Hf2.
  - unfold times, exitEffects in *. cbn. lia.
Qed.

Lemma ending_runTerminate w : 0 <= m_exitCode w -> ending w ->
  ending (runTerminate toJson w) /\ underway (runTerminate toJson w).
Proof.
  intros Hc E. unfold runTerminate. destruct (m_terminating w) eqn:Et; [split; [done|by left]|].
  destruct (prepare_exit w) eqn:Ep; [split; [done|by right; left]|]. cbv zeta. split; [|by left].
  pose proof (ending_own w Hc Et E) as E'. pose proof (e_shutdown _ E) as Hs. rewrite Et in Hs.
  pose proof (e_exit _ E) as Hx.
  set (w1 := noteOwnExit toJson (stopTimers (set_m_terminating true w))) in *.
  assert (times isShutdown w1 = times isShutdown w /\ times isExited w1 = times isExited w /\ times isKill w1 = times isKill w) as (T1 & T2 & T3).
  { done. }
  assert (m_terminating w1 = true /\ m_fastPathUsed w1 = m_fastPathUsed w) as (F1 & F2) by done. clearbody w1.
  assert (forall p, times p (shutdown (exitCode (m_exitCode (stopTimers (set_m_terminating true w))) (stopTimers (set_m_terminating true w))) w1)
    = (times p w1 + (if p EffShutdown then 1 else 0))%nat) as Ht by (intros p; apply (times_emit p EffShutdown w1)).
  assert (forall c, exitCode c (shutdown (exitCode (m_exitCode (stopTimers (set_m_terminating true w))) (stopTimers (set_m_terminating true w))) w1) = exitCode c w1) as Hec by done.
  destruct E' as [E1 E2 E3 E4 E5 E6 E7 E8 E9 E10 E11 E12 E13 E14].
  split; rewrite ?Ht, ?Hec; try done; cbn [isShutdown isExited isKill m_terminating teardown m_fastPathUsed shutdown set_teardown set_prepare_exit emit set_emitted].
  - rewrite F1. lia.
  - rewrite bool_decide_true by done. lia.
  - rewrite E10. lia.
  - intros _ _. by right; left.
  - intros _. by right; left.
Qed.

Lemma ending_teardownDone w : ending w -> ending (teardownDone w).
Proof.
  intros E. unfold teardownDone. destruct (teardown w) as [code|] eqn:Et; [|done].
  pose proof (e_exit _ E) as Hx. rewrite Et, bool_decide_true in Hx by done.
  set (e := EffExit _). assert (forall p, times p (emit e (set_teardown None w)) = (times p w + (if p e then 1 else 0))%nat) as Ht.
  { intros p. rewrite times_emit. reflexivity. }
  destruct E as [E1 E2 E3 E4 E5 E6 E7 E8 E9 E10 E11 E12 E13 E14]. split; rewrite ?Ht; try done; cbn.
  - lia.
  - lia.
  - intros [? [=]].
  - rewrite E10. lia.
Qed.

Lemma ending_kill w : ending w -> prepare_exit w = true -> m_fastPathUsed w = false ->
  ending (emit EffKillCore (set_m_fastPathUsed true w)).
Proof.
  intros E Hp Hf. assert (forall p, times p (emit EffKillCore (set_m_fastPathUsed true w)) = (times p w + (if p EffKillCore then 1 else 0))%nat) as Ht.
  { intros p. rewrite times_emit. reflexivity. }
  destruct E as [E1 E2 E3 E4 E5 E6 E7 E8 E9 E10 E11 E12 E13 E14]. rewrite Hf in E10.
  split; rewrite ?Ht; try done; cbn; [lia|lia|rewrite E10; lia].
Qed.

Lemma ending_stopSignal name w : ending w -> ending (stopSignal toJson name w).
Proof.
  intros E. unfold stopSignal. cbv zeta. destruct (_ && _); [by apply ending_terminate|].
  destruct (_ && _); [by apply ending_terminate|]. destruct (prepare_exit w) eqn:Ep; cbn [negb].
  - destruct (m_fastPathUsed w) eqn:Ef; [done|by apply ending_kill].
  - destruct (m_secondSignalQueued w); [done|]. apply ending_post; [done|]. ending E.
Qed.

Lemma ending_onSignal s p q g w : ending w -> ending (onSignal toJson s p q g w).
Proof.
  intros E. unfold onSignal. destruct s; try by apply ending_stopSignal; try done.
  - cbv zeta. destruct (_ && _); [by apply ending_terminate|]. destruct (terminating w); [done|by apply ending_terminate].
  - done.
Qed.

Lemma ending_endSession reason w : ending w -> ending (endSession toJson reason w).
Proof.
  intros E. unfold endSession. cbv zeta. pose proof (ending_terminate true ExitOk reason w ltac:(done) E) as E'.
  set (w1 := terminate toJson true ExitOk reason w) in *. clearbody w1.
  destruct (m_terminating w1) eqn:Et; cbn [orb]; [done|]. destruct (Z.ltb_spec (m_exitCode w1) 0); cbn [orb]; [done|].
  destruct (prepare_exit w1); [done|]. by apply ending_own.
Qed.

Lemma ending_pop t ts w : posted w = t :: ts -> ending w -> ending (runPosted toJson t (set_posted ts w)).
Proof.
  intros Hp E. pose proof (e_queue _ E) as Hq. rewrite Hp in Hq. apply Forall_cons in Hq as [Ht Hts].
  assert (t <> PostRun -> ending (set_posted ts w)) as Hpop.
  { intros Hne. pose proof (e_run _ E) as H12. pose proof (e_posted _ E) as H13. unfold underway in H12, H13. rewrite Hp in H12, H13.
    ending E.
    - intros H1 H2. destruct (H12 H1 H2) as [H|[H|H]]; [by left|by right; left|]. right; right.
      apply elem_of_cons in H as [H|H]; [by destruct Hne|done].
    - intros H1. destruct (H13 H1) as [H|[H|H]]; [by left|by right; left|]. right; right.
      apply elem_of_cons in H as [H|H]; [by destruct Hne|done]. }
  destruct t as [code reason| |name|]; cbn [runPosted].
  - apply ending_terminate; [done|]. by apply Hpop.
  - cbn [postOk] in Ht. unfold runTerminate. cbn [m_terminating set_posted prepare_exit].
    destruct (m_terminating w) eqn:Em; [ending E; intros; by left|].
    destruct (prepare_exit w) eqn:Ep; [ending E; intros; by right; left|].
    pose proof (proj1 (ending_runTerminate w Ht E)) as E'. unfold runTerminate in E'. rewrite Em, Ep in E'.
    ending E'; intros; by left.
  - apply ending_stopSignal. by apply Hpop.
  - cbv zeta. assert (ending (set_posted ts w)) as E' by by apply Hpop. cbn [m_exitCode set_m_execRunning set_posted].
    destruct (Z.leb_spec 0 (m_exitCode w)) as [H0|H0]; [|ending E'; lia].
    assert (underway (set_posted ts w) -> ending (set_m_execRunning true (set_posted ts w))) as Hex by (intros Hu; ending E').
    unfold postTerminate. destruct (m_terminatePosted (set_m_execRunning true (set_posted ts w))) eqn:Epo.
    + apply Hex. by apply (e_posted _ E').
    + assert (PostRun ∈ ts ++ [PostRun]) as Hin by (apply elem_of_app; right; by apply list_elem_of_singleton).
      ending E'; try (intros; by right; right). apply Forall_app. split; [done|by repeat constructor].
Qed.

Lemma ending_stuck reason code w : 0 <= code -> ending w -> ending (stuck toJson reason code w).
Proof.
  intros Hc E. unfold stuck. destruct (terminating w); [done|]. destruct (negb (stayUp w)); [by apply ending_terminate|].
  destruct (m_stuckEpisode w); [done|].
  apply (ending_quiet w); [|done]. eapply quiet_trans; [|by apply quiet_emit]. eapply quiet_trans; [|by apply quiet_emit]. still.
Qed.

Definition codeOk (e : RtEvent) : Prop := match e with RtTerminate _ code _ => 0 <= code | _ => True end.

Lemma ending_step w e : codeOk e -> serialOk w e -> ending w -> ending (rtStep w e).
Proof.
  intros Hc Hs E. destruct (resumeEvent e) eqn:Er; [by apply (ending_quiet w); [apply quiet_step|]|].
  destruct e; try done; cbn [rtStep codeOk] in *.
  - by apply ending_terminate.
  - by apply ending_onSignal.
  - unfold onStopRequest. cbv zeta. destruct (_ && _); [apply ending_post; [done|]|]; by apply ending_stopSignal.
  - by apply ending_endSession.
  - unfold beforeExec. apply (ending_quiet (post PostExec w)); [still|]. by apply ending_post.
  - destruct (posted w) as [|t ts] eqn:Ep; [done|]. by apply ending_pop.
  - by apply ending_teardownDone.
  - ending E; intros; by right; left.
  - unfold onCoreGaveUp. destruct (negb (stayUp w)); [by apply ending_terminate|]. destruct (terminating w); [done|].
    apply (ending_quiet w); [|done]. eapply quiet_trans; [by apply (quiet_emit EffMarkSteps)|still].
  - unfold evaluateWatchdog. destruct (terminating w); [done|].
    repeat match goal with |- context [if ?b then _ else _] => destruct b end; try by apply ending_stuck.
    apply (ending_quiet w); [still|done].
  - ending E.
Qed.

(** A decided exit code stays. *)
Definition keeps (w w' : Runtime) : Prop :=
  0 <= m_exitCode w -> m_exitCode w' = m_exitCode w /\ (m_stopOverride w = true -> m_stopOverride w' = true).

Lemma keeps_same w w' : m_exitCode w' = m_exitCode w -> m_stopOverride w' = m_stopOverride w -> keeps w w'.
Proof. intros H1 H2 _. split; [done|congruence]. Qed.

Lemma keeps_trans w1 w2 w3 : keeps w1 w2 -> keeps w2 w3 -> keeps w1 w3.
Proof. intros H1 H2 H0. destruct (H1 H0) as [A1 A2]. destruct (H2 ltac:(lia)) as [B1 B2]. split; [congruence|auto]. Qed.

Ltac kept := by apply keeps_same.

Lemma keeps_terminate onMain code reason w : keeps w (terminate toJson onMain code reason w).
Proof.
  unfold terminate. destruct onMain; cbn [negb]; [|kept]. destruct (Z.leb_spec 0 (m_exitCode w)).
  - destruct (_ && _); [|kept]. cbv zeta. intros _. by destruct (m_terminating _).
  - intros Hc. lia.
Qed.

Lemma keeps_runTerminate w : keeps w (runTerminate toJson w).
Proof. unfold runTerminate. destruct (m_terminating w); [kept|]. destruct (prepare_exit w); kept. Qed.

Lemma keeps_stopSignal name w : keeps w (stopSignal toJson name w).
Proof.
  unfold stopSignal. cbv zeta. destruct (_ && _); [apply keeps_terminate|]. destruct (_ && _); [apply keeps_terminate|].
  destruct (negb (prepare_exit w)); [destruct (m_secondSignalQueued w); kept|destruct (m_fastPathUsed w); kept].
Qed.

Lemma keeps_step w e : serialOk w e -> keeps w (rtStep w e).
Proof.
  intros Hs. destruct (resumeEvent e) eqn:Er.
  { pose proof (quiet_step w e Er Hs) as [Hc _]. unfold control in Hc. injection Hc as C1 _ C3 _ _ _ _ _ _ _ _. by apply keeps_same. }
  destruct e as [onMain code reason|sg p q g|fast source|reason| | | | |reason|a b c name| | | | | | | | | | |now]; try discriminate Er; cbn [rtStep].
  - apply keeps_terminate.
  - unfold onSignal. destruct sg; try apply keeps_stopSignal; [|kept]. cbv zeta.
    destruct (_ && _); [apply keeps_terminate|]. destruct (terminating w); [kept|apply keeps_terminate].
  - unfold onStopRequest. cbv zeta. eapply keeps_trans; [apply keeps_stopSignal|]. destruct (_ && _); kept.
  - unfold endSession. cbv zeta. eapply keeps_trans; [apply keeps_terminate|]. destruct (_ || _); kept.
  - kept.
  - destruct (posted w) as [|t ts]; [kept|]. apply (keeps_trans _ (set_posted ts w)); [kept|].
    destruct t; cbn [runPosted]; [apply keeps_terminate|apply keeps_runTerminate|apply keeps_stopSignal|].
    cbv zeta. destruct (_ <=? _); [|kept]. unfold postTerminate. destruct (m_terminatePosted _); kept.
  - unfold teardownDone. destruct (teardown w); kept.
  - kept.
  - unfold onCoreGaveUp. destruct (negb _); [apply keeps_terminate|]. destruct (terminating w); kept.
  - unfold evaluateWatchdog, stuck. destruct (terminating w); [kept|].
    repeat match goal with |- context [if ?b then _ else _] => destruct b end; first [apply keeps_terminate|kept].
  - kept.
Qed.

Fixpoint rtOk (w : Runtime) (evs : list RtEvent) : Prop :=
  match evs with
  | [] => True
  | e :: evs => codeOk e /\ serialOk w e /\ rtOk (rtStep w e) evs
  end.

Lemma ending_run evs w : rtOk w evs -> ending w -> ending (rtRun w evs).
Proof.
  revert w. induction evs as [|e evs IH]; intros w Hok E; cbn in *; [done|]. destruct Hok as (H1 & H2 & H3).
  apply IH; [done|]. by apply ending_step.
Qed.
End Runs.

Section Boot.
Context (fromJson : qstring -> option QJsonValue) (toJson : QJsonValue -> qstring).

Definition booted (f : StateFile) (now : Z) (hadTty relays resume : bool) (remembered : Z) (exists_ : bool) (serial : Z) : Runtime :=
  bootStart toJson resume remembered exists_ serial (newRuntime toJson fromJson f now hadTty relays).

Lemma guard_file f : writable f = true -> writable (m_file (ResumeGuard fromJson toJson f)) = true.
Proof.
  intros Hw. unfold ResumeGuard, save. cbv zeta.
  repeat match goal with
  | |- context [if ?b then _ else _] => destruct b
  | |- context [match ?x with _ => _ end] => destruct x
  end; done.
Qed.

Lemma save_writable g : writable (m_file g) = true -> writable (m_file (save toJson g)) = true.
Proof. intros H. unfold save. by rewrite H. Qed.

(** The guard after a boot start is the settled and decided one. *)
Lemma booted_guard f now hadTty relays resume remembered exists_ serial :
  let d := if negb resume || (remembered <? 0) || negb exists_ then -1 else remembered in
  let w := booted f now hadTty relays resume remembered exists_ serial in
  let '(id, g) := decide toJson d (settled fromJson toJson f) in
  guard w = g /\ m_bootProfileId w = id /\ m_bootPhase w <> PhaseNone /\ posted w = [] /\ clock w = now /\ m_exitCode w = -1 /\
  m_exitReason w = [] /\ (id = -1 \/ 0 <= id).
Proof.
  cbv zeta. unfold booted, bootStart. cbn [m_bootPhase newRuntime]. rewrite bool_decide_true by done. cbn [negb].
  change (guard (onGuard (settlePrevious toJson) (newRuntime toJson fromJson f now hadTty relays))) with (settled fromJson toJson f).
  destruct (_ || negb exists_) eqn:Ed.
  - assert (m_suppressed (settled fromJson toJson f) = false) as Hsup.
    { unfold settled, settlePrevious, ResumeGuard, save. cbv zeta.
      repeat match goal with
      | |- context [if ?b then _ else _] => destruct b
      | |- context [match contents f with _ => _ end] => destruct (contents f)
      | |- context [match fromJson ?x with _ => _ end] => destruct (fromJson x) as [[]|]
      end; reflexivity. }
    unfold decide. change (-1 <? 0) with true. cbv iota.
    assert (set_m_suppressed false (settled fromJson toJson f) = settled fromJson toJson f) as ->.
    { rewrite <- Hsup. by destruct (settled fromJson toJson f). }
    split_and!; try done. by left.
  - apply orb_false_iff in Ed as [Ed _]. apply orb_false_iff in Ed as [_ Hr%Z.ltb_ge].
    destruct (decide toJson remembered (settled fromJson toJson f)) as [id g] eqn:Edc.
    assert (id = -1 \/ 0 <= id) as Hid.
    { unfold decide in Edc. cbv zeta in Edc. repeat match type of Edc with context [if ?b then _ else _] => destruct b end;
        injection Edc as <- <-; auto. }
    destruct (suppressed g), (0 <=? id); split_and!; done.
Qed.

Lemma ending_booted f now hadTty relays resume remembered exists_ serial : writable f = true ->
  ending toJson (booted f now hadTty relays resume remembered exists_ serial).
Proof.
  intros Hw. assert (writable (m_file (settled fromJson toJson f)) = true) as Hs.
  { unfold settled, settlePrevious. cbv zeta. pose proof (guard_file f Hw) as Hg.
    repeat match goal with |- context [if ?b then _ else _] => destruct b end; by apply save_writable. }
  assert (forall d, writable (m_file (snd (decide toJson d (settled fromJson toJson f)))) = true) as Hd.
  { intros d. unfold decide. cbv zeta.
    repeat match goal with |- context [if ?b then _ else _] => destruct b end; cbn [snd]; first [by apply save_writable|done]. }
  unfold booted, bootStart. cbn [m_bootPhase newRuntime]. rewrite bool_decide_true by done. cbn [negb].
  change (guard (onGuard (settlePrevious toJson) (newRuntime toJson fromJson f now hadTty relays))) with (settled fromJson toJson f).
  destruct (_ || negb exists_).
  - split; cbn; try done; try lia; try (intros [? [=]]); constructor.
  - specialize (Hd remembered). destruct (decide toJson remembered (settled fromJson toJson f)) as [id g]. cbn [snd] in Hd.
    destruct (suppressed g); split; cbn; try done; try lia; try (intros [? [=]]); constructor.
Qed.
End Boot.

(** C31: How the process ends is decided once. Whatever calls, signals, posted
    calls, timers, core exits and teardowns interleave after the boot: at most one
    teardown is started by the runtime, at most one exit follows it and the core
    is killed at most once, only during a teardown; the first exit code recorded
    is kept for ever, but for a restart that a stop turns into 0; a code decided
    while the event loop runs is being carried out or queued, never lost; and
    when the teardown returns, the process exits with exactly the decided code,
    which the state file on disk already names as the last exit. *)
Theorem exit_decided (fromJson : qstring -> option QJsonValue) (toJson : QJsonValue -> qstring) (f : StateFile)
    (now : Z) (hadTty relays resume : bool) (remembered : Z) (exists_ : bool) (serial : Z) (evs : list RtEvent) (e : RtEvent) :
  writable f = true ->
  rtOk toJson (booted fromJson toJson f now hadTty relays resume remembered exists_ serial) (evs ++ [e]) ->
  let w := rtRun toJson (booted fromJson toJson f now hadTty relays resume remembered exists_ serial) evs in
  let w' := rtStep toJson w e in
  (times isShutdown w <= 1 /\ times isExited w <= times isShutdown w /\ times isKill w <= 1)%nat /\
  (times isKill w = 1%nat -> prepare_exit w = true) /\
  (0 <= m_exitCode w -> m_exitCode w' = m_exitCode w /\ (m_stopOverride w = true -> m_stopOverride w' = true)) /\
  (m_stopOverride w = true -> m_exitCode w = ExitRestart) /\
  (0 <= m_exitCode w -> m_execRunning w = true -> underway w) /\
  (is_Some (teardown w) -> exists code at_,
     emitted (rtStep toJson w RtTeardownDone) = emitted w ++ [EffExit code] /\
     code = (if m_stopOverride w then ExitOk else m_exitCode w) /\ 0 <= code /\
     m_lastExit (guard w) = exitRecord code (m_exitReason w) at_ /\
     contents (m_file (guard w)) = Some (toJson (JObject (document (guard w))) ++ [10])).
Proof.
  intros Hw Hok w w'.
  assert (forall evs w, rtOk toJson w (evs ++ [e]) -> rtOk toJson w evs /\ serialOk (rtRun toJson w evs) e) as Hsplit.
  { clear. induction evs as [|a evs IH]; intros w; cbn [app rtOk rtRun fold_left]; [tauto|].
    intros (H1 & H2 & H3). destruct (IH _ H3) as [H4 H5]. done. }
  destruct (Hsplit _ _ Hok) as [Hevs Hs]. fold w in Hs. clear Hsplit Hok.
  pose proof (ending_run toJson evs _ Hevs (ending_booted fromJson toJson f now hadTty relays resume remembered exists_ serial Hw)) as E.
  fold w in E. clearbody w. pose proof (keeps_step toJson w e Hs) as Hk.
  destruct E as [E1 E2 E3 E4 E5 E6 E7 E8 E9 E10 E11 E12 E13 E14].
  assert ((times isShutdown w <= 1)%nat) as Hsh by (destruct (m_terminating w); lia).
  split_and!; try done; try lia.
  - rewrite E10. destruct (m_fastPathUsed w); lia.
  - rewrite E10. intros Hkill. apply E11. by destruct (m_fastPathUsed w).
  - intros Ht. assert (m_terminating w = true) as Hterm.
    { rewrite bool_decide_true in E8 by done. destruct (m_terminating w); [done|lia]. }
    destruct Ht as [code Ht]. destruct (E5 Hterm) as [at_ Hrec]. pose proof (E3 Hterm) as Hc.
    assert (forall r w, m_exitCode w >= 0 -> exitCode r w = if m_stopOverride w then ExitOk else m_exitCode w) as Hx.
    { intros r u Hu. unfold exitCode. destruct (Z.ltb_spec (m_exitCode u) 0); [lia|done]. }
    rewrite Hx in Hrec by lia. exists (if m_stopOverride w then ExitOk else m_exitCode w), at_.
    split_and!; [|done|destruct (m_stopOverride w); [done|lia]|done|by apply E4].
    cbn [rtStep]. unfold teardownDone. rewrite Ht. cbn [emitted emit set_emitted set_teardown]. by rewrite Hx by (cbn; lia).
Qed.

(** A restart asked for, a stop while its teardown runs, a second signal. *)
Definition exampleRun : list RtEvent :=
  [RtBeforeExec; RtPosted; RtSignal SIGHUP false false false; RtPosted; RtSignal SIGTERM false false false; RtSignal SIGINT false false false].

Lemma exit_decided_witness :
  let w := rtRun (fun _ => []) (booted (fun _ => None) (fun _ => []) (MkFile None true true) 7 false false true 3 true 1) exampleRun in
  emitted (rtStep (fun _ => []) w RtTeardownDone) = [EffShutdown; EffKillCore; EffExit 0] /\ m_stopOverride w = true /\
  (times isExited w <= times isShutdown w)%nat.
Proof.
  cbv zeta. split; [by vm_compute|]. split; [by vm_compute|].
  assert (rtOk (fun _ => []) (booted (fun _ => None) (fun _ => []) (MkFile None true true) 7 false false true 3 true 1) (exampleRun ++ [RtTeardownDone])) as Hok
    by (vm_compute; tauto).
  pose proof (exit_decided (fun _ => None) (fun _ => []) (MkFile None true true) 7 false false true 3 true 1 exampleRun RtTeardownDone eq_refl Hok) as H.
  exact (proj1 (proj2 (proj1 H))).
Defined.
