(* ===== verification/HeadlessBoot.v ===== *)
(** * What the boot guard hears of a process (src/src/engine/headless/HeadlessRuntime.cpp)

    The handlers of HeadlessRuntime.v call the resume guard from a dozen places.
    [Watch] is what a boot resume looks like from outside, without the runtime's
    members: where the resumed start stands, which profile a retry may resume,
    and which survival checks are still to come, each with whether its run is
    unbroken. [hears] says what each event of the process means to the guard and
    [ends] when an exit is written down; [boot] strings them along a run. C32
    proves that the handlers leave exactly the guard of that boot. *)

From Stdlib Require Import Ascii String.
From S2P Require Import Prelude QtText Json ResumeGuard HeadlessRuntime.

Local Open Scope Z_scope.
#[local] Set Warnings "-register-all".

(** ** The boot of a run *)

(** A survival check to come: of the boot start, or of a run and whether nothing
    has broken it so far. *)
Inductive Pending := ResumeAlive (p : Z) | RunAlive (p : Z) (unbroken : bool).

Record Watch := MkWatch { stage : BootPhase; again : Z; pending : list Pending }.

Definition broken (p : Pending) : Pending := match p with RunAlive a _ => RunAlive a false | _ => p end.
Definition breakRuns (s : Watch) : Watch := MkWatch (stage s) (again s) (map broken (pending s)).
Definition alive (p : Z) : list BootEvent := [EvSurvived p; EvLift p].

Section Boot.
(** The profile the boot resumes (-1 for none) and the serial of its start. *)
Context (id serial : Z).

(** What an event means to the guard, and the watch after it. [exiting] is
    whether the process was ending, [armed] whether the guard was armed. *)
Definition hears (now : Z) (exiting armed : bool) (s : Watch) (e : RtEvent) : Watch * list BootEvent :=
  let start := bool_decide (stage s = Waiting) in
  let underWay := bool_decide (stage s = PhaseArmed) in
  match e with
  | RtDispatching sr _ =>
      if negb (serial =? 0) && (sr =? serial) && start then (MkWatch PhaseArmed (-1) (pending s), [EvArm now])
      else (MkWatch (stage s) (-1) (pending s), [])
  | RtCoreStarted p =>
      if start && (p =? id) then (MkWatch PhaseArmed (again s) (pending s), [EvArm now]) else (s, [])
  | RtCoreExited p => (breakRuns s, [if underWay || ((0 <=? id) && (p =? id)) then EvStrike else EvDisarm])
  | RtStartFinished sr p outcome connected =>
      let started := bool_decide (outcome = Started) in
      let unavailable := bool_decide (outcome = CoreUnavailable) in
      let s := if started then MkWatch (stage s) (-1) (pending s) else s in
      let lifts := if started then [EvLift p] else [] in
      if exiting || (serial =? 0) || negb (sr =? serial) then (s, lifts)
      else
        (MkWatch PhaseDone (if unavailable && start then p else again s)
                 (pending s ++ (if underWay && started then [ResumeAlive p] else [])),
         lifts ++ (if underWay && negb started then [if unavailable && negb connected then EvStrike else EvDisarm] else []))
  | RtTimer k isRunning running =>
      (MkWatch (stage s) (again s) (delete k (pending s)),
       match pending s !! k with
       | Some (ResumeAlive p) =>
           if negb armed then []
           else if bool_decide (running = Some p) && isRunning then alive p else [EvDisarm]
       | Some (RunAlive p true) => alive p
       | _ => []
       end)
  | RtConnection isRunning running =>
      let s := breakRuns s in
      (MkWatch (stage s) (again s)
         (pending s ++ match running with Some p => if isRunning then [RunAlive p true] else [] | None => [] end), [])
  | RtStable connected => (s, if connected then [EvStable] else [])
  | RtCoreRetry gaveUp reset =>
      (if gaveUp && negb exiting && reset && (0 <=? again s) then MkWatch Waiting (again s) (pending s) else s, [])
  | RtResumeCancelled => (MkWatch (stage s) (-1) (pending s), [])
  | _ => (s, [])
  end.

(** An exit is written down when the runtime starts to end the process, and once
    more when a stop overrides the restart it was ending for. *)
Definition ends (w w' : Runtime) : list BootEvent :=
  if (negb (m_terminating w) && m_terminating w') || (m_terminating w && negb (m_stopOverride w) && m_stopOverride w')
  then [EvExit (exitCode (m_exitCode w') w') (m_exitReason w') (clock w')] else [].
End Boot.

Section Trace.
Context (toJson : QJsonValue -> qstring).

Definition heard (w : Runtime) (s : Watch) (e : RtEvent) : Watch * list BootEvent :=
  hears (m_bootProfileId w) (m_bootSerial w) (clock w) (terminating w) (armed (guard w)) s e.

Fixpoint boot (w : Runtime) (s : Watch) (evs : list RtEvent) : list BootEvent :=
  match evs with
  | [] => []
  | e :: evs =>
      let w' := rtStep toJson w e in
      snd (heard w s e) ++ ends w w' ++ boot w' (fst (heard w s e)) evs
  end.

(** A process starts with its start asked for, or nothing to resume. *)
Definition asked (w : Runtime) : Watch := MkWatch (if 0 <=? m_bootProfileId w then Waiting else PhaseDone) (-1) [].

(** ** The runtime follows the watch *)

Definition stands (generation : Z) (t : Timer) (p : Pending) : Prop :=
  match t, p with
  | BootSurvival a, ResumeAlive b => a = b
  | RunSurvival g a, RunAlive b unbroken => a = b /\ g <= generation /\ unbroken = (g =? generation)
  | _, _ => False
  end.

Record follows (w : Runtime) (s : Watch) : Prop := {
  f_stage : m_bootPhase w = stage s;
  f_again : m_retryResumeId w = again s;
  f_pending : Forall2 (stands (m_runGeneration w)) (timers w) (pending s) }.

Lemma stands_broken g ts ps : Forall2 (stands g) ts ps -> Forall2 (stands (g + 1)) ts (map broken ps).
Proof.
  induction 1 as [|t p ts ps H _ IH]; cbn; constructor; [|done].
  destruct t, p; cbn in *; try done. destruct H as (-> & H & _). split_and!; [done|lia|]. symmetry. apply Z.eqb_neq. lia.
Qed.

Lemma stands_lookup g ts ps k : Forall2 (stands g) ts ps ->
  match ts !! k, ps !! k with
  | Some t, Some p => stands g t p
  | None, None => True
  | _, _ => False
  end.
Proof.
  intros H. pose proof (Forall2_length _ _ _ H) as Hl. destruct (ts !! k) as [t|] eqn:Et.
  - destruct (Forall2_lookup_l _ _ _ _ _ H Et) as (p & -> & Hp). done.
  - apply lookup_ge_None in Et. rewrite (proj2 (lookup_ge_None ps k)) by lia. done.
Qed.

Lemma delete_absent {A} (l : list A) k : l !! k = None -> delete k l = l.
Proof. revert k. induction l as [|x l IH]; intros [|k] H; cbn in *; try done. f_equal. by apply IH. Qed.

Lemma lift_idle p g : suppressed g = false -> liftSuppression p g = g.
Proof.
  unfold suppressed, liftSuppression. intros H. destruct (_ && _); [|done]. unfold set_m_suppressed. rewrite <- H. by destruct g.
Qed.

(** The two notes of a profile that runs touch the guard only, and say so. *)
Definition onlyGuard (w w' : Runtime) : Prop :=
  m_bootPhase w' = m_bootPhase w /\ m_retryResumeId w' = m_retryResumeId w /\ timers w' = timers w /\
  m_runGeneration w' = m_runGeneration w.

Lemma noteProfileStarted_guard p w :
  guard (noteProfileStarted p w) = liftSuppression p (guard w) /\ onlyGuard w (noteProfileStarted p w) /\
  m_bootSerial (noteProfileStarted p w) = m_bootSerial w /\ terminating (noteProfileStarted p w) = terminating w.
Proof.
  unfold noteProfileStarted. destruct (suppressed (guard w)) eqn:E; cbn [negb]; [|by rewrite lift_idle].
  cbv zeta. destruct (negb _); by split_and!.
Qed.

Lemma noteSurvived_guard p w :
  guard (noteSurvived toJson p w) = liftSuppression p (survived toJson p (guard w)) /\ onlyGuard w (noteSurvived toJson p w).
Proof. unfold noteSurvived. cbv zeta. by destruct (_ && _). Qed.

Lemma follows_same w w' s : onlyGuard w w' -> follows w s -> follows w' s.
Proof. intros (H1 & H2 & H3 & H4) [F1 F2 F3]. split; rewrite ?H1, ?H2, ?H3, ?H4; done. Qed.

(** After [e] the guard has heard [l] and the runtime follows [s']. *)
Definition answered (w w' : Runtime) (r : Watch * list BootEvent) : Prop :=
  follows w' (fst r) /\ guard w' = fold_left (event toJson (m_bootProfileId w)) (snd r) (guard w).

Ltac answers F := split; [destruct F as [F1 F2 F3]; split; cbn; try done|try reflexivity].

Lemma answered_dispatching sr p w s : (sr = m_bootSerial w -> m_bootSerial w <> 0 -> p = m_bootProfileId w) -> follows w s ->
  answered w (startDispatching toJson sr p w) (heard w s (RtDispatching sr p)).
Proof.
  intros Hs F. unfold heard, hears, startDispatching. cbv zeta. cbn [m_bootSerial m_bootPhase set_m_retryResumeId]. rewrite (f_stage _ _ F).
  destruct (Z.eqb_spec (m_bootSerial w) 0) as [|H0]; cbn [orb andb negb]; [answers F|].
  destruct (Z.eqb_spec sr (m_bootSerial w)) as [E|]; cbn [orb andb negb]; [|answers F].
  destruct (bool_decide _); cbn [negb]; [|answers F]. rewrite (Hs E H0). answers F.
Qed.

Lemma answered_coreStarted p w s : follows w s -> answered w (coreStarted toJson p w) (heard w s (RtCoreStarted p)).
Proof.
  intros F. unfold heard, hears, coreStarted. rewrite (f_stage _ _ F). destruct (bool_decide _); cbn [orb andb negb]; [|answers F].
  destruct (Z.eqb_spec p (m_bootProfileId w)) as [->|]; cbn [negb]; answers F.
Qed.

Lemma answered_coreExited p w s : follows w s -> answered w (coreExited toJson p w) (heard w s (RtCoreExited p)).
Proof.
  intros F. unfold heard, hears, coreExited. cbv zeta. cbn [m_bootPhase m_bootProfileId set_m_runGeneration]. rewrite (f_stage _ _ F).
  destruct (_ || _); answers F; by apply stands_broken.
Qed.

Lemma answered_startFinished sr p outcome connected w s : follows w s ->
  answered w (startFinished toJson sr p outcome connected w) (heard w s (RtStartFinished sr p outcome connected)).
Proof.
  intros F. unfold heard, hears, startFinished. cbv zeta.
  destruct (noteProfileStarted_guard p w) as (G & O & S & T).
  set (w1 := if bool_decide (outcome = Started) then _ else w).
  set (s1 := if bool_decide (outcome = Started) then MkWatch _ _ _ else s).
  set (lifts := if bool_decide (outcome = Started) then [EvLift p] else []).
  assert (follows w1 s1 /\ guard w1 = fold_left (event toJson (m_bootProfileId w)) lifts (guard w) /\
    m_bootSerial w1 = m_bootSerial w /\ terminating w1 = terminating w /\ stage s1 = stage s) as (F' & G1 & S1 & T1 & P1).
  { unfold w1, s1, lifts. destruct (bool_decide _); [|done]. split_and!; [|exact G|exact S|exact T|done].
    destruct (follows_same _ _ _ O F) as [F1 F2 F3]. by split. }
  rewrite <- P1. clearbody w1 s1 lifts. clear G O S T F. rewrite T1, S1.
  destruct (terminating w); cbn [orb]; [done|].
  destruct (_ || _); [done|].
  set (w2 := if bool_decide (outcome = CoreUnavailable) && _ then _ else _).
  assert (m_bootPhase w2 = stage s1 /\ guard w2 = guard w1 /\ timers w2 = timers w1 /\ m_runGeneration w2 = m_runGeneration w1 /\
    m_retryResumeId w2 = if bool_decide (outcome = CoreUnavailable) && bool_decide (stage s1 = Waiting) then p else again s1) as (A1 & A2 & A3 & A4 & A5).
  { unfold w2. clear w2. rewrite (f_stage _ _ F'). destruct F' as [F1 F2 F3]. destruct (_ && _); split_and!; cbn; done. }
  clearbody w2. destruct F' as [F1 F2 F3]. rewrite <- A3, <- A4 in F3. rewrite A1. unfold answered. cbn [fst snd]. rewrite fold_left_app, <- G1, <- A2.
  destruct (bool_decide (stage s1 = PhaseArmed)); cbn [negb andb]; [|split; [split; cbn; by rewrite ?app_nil_r|done]].
  destruct (bool_decide (outcome = Started)); cbn [negb fst snd].
  - split; [split; cbn; [done|done|]|done]. apply Forall2_app; [done|]. by repeat constructor.
  - destruct (_ && negb connected); (split; [split; cbn; by rewrite ?app_nil_r|done]).
Qed.

Lemma answered_timer k isRunning running w s : follows w s ->
  answered w (rtStep toJson w (RtTimer k isRunning running)) (heard w s (RtTimer k isRunning running)).
Proof.
  intros F. unfold heard, hears. cbn [rtStep]. pose proof (stands_lookup _ _ _ k (f_pending _ _ F)) as Hk.
  assert (follows (set_timers (delete k (timers w)) w) (MkWatch (stage s) (again s) (delete k (pending s)))) as F'.
  { destruct F as [F1 F2 F3]. split; cbn; [done|done|]. by apply Forall2_delete. }
  destruct (timers w !! k) as [t|] eqn:Et, (pending s !! k) as [q|] eqn:Eq; try done.
  2: { split; [|done]. apply (follows_same (set_timers (delete k (timers w)) w)); [|done].
       unfold onlyGuard. cbn. split_and!; try done. by rewrite delete_absent. }
  set (w1 := set_timers (delete k (timers w)) w) in *. change (guard w) with (guard w1).
  destruct t as [a|g a], q as [b|b u]; cbn in Hk; try done; cbn [onTimer].
  - subst b. destruct (negb (armed (guard w1))); [done|].
    destruct (_ && _); [|split; [by apply (follows_same w1)|done]].
    destruct (noteSurvived_guard a w1) as [G O]. split; [by apply (follows_same w1)|exact G].
  - destruct Hk as (<- & _ & ->). change (m_runGeneration w1) with (m_runGeneration w). destruct (g =? m_runGeneration w); [|done].
    destruct (noteSurvived_guard a w1) as [G O]. split; [by apply (follows_same w1)|exact G].
Qed.

Lemma answered_connection isRunning running w s : follows w s ->
  answered w (connectionStateChanged isRunning running w) (heard w s (RtConnection isRunning running)).
Proof.
  intros F. unfold heard, hears, connectionStateChanged. cbv zeta. destruct isRunning; cbn [negb].
  - destruct running as [p|]; answers F; rewrite ?app_nil_r; [|by apply stands_broken].
    apply Forall2_app; [by apply stands_broken|]. repeat constructor; cbn; [lia|]. symmetry. apply Z.eqb_refl.
  - answers F. replace (match running with Some _ => _ | None => _ end) with (@nil Pending) by by destruct running.
    rewrite app_nil_r. by apply stands_broken.
Qed.

Lemma answered_coreRetry gaveUp reset w s : follows w s ->
  answered w (onCoreRetryTimer gaveUp reset w) (heard w s (RtCoreRetry gaveUp reset)).
Proof.
  intros F. unfold heard, hears, onCoreRetryTimer. destruct gaveUp; cbn [negb orb andb]; [|done].
  destruct (terminating w); cbn [negb orb andb]; [done|]. cbv zeta. cbn [m_retryResumeId emit set_emitted]. rewrite (f_again _ _ F).
  destruct (_ && _); answers F.
Qed.

Lemma answered_stable connected w s : follows w s ->
  answered w (onStableTimer toJson connected w) (heard w s (RtStable connected)).
Proof.
  intros F. unfold heard, hears, onStableTimer. cbv zeta. destruct connected; cbn [negb]; [|answers F].
  destruct (stayUp _); answers F.
Qed.

Lemma answered_resume w s e : resumeEvent e = true -> serialOk w e -> follows w s -> answered w (rtStep toJson w e) (heard w s e).
Proof.
  destruct e as [| | | | | | | | | |k isRunning running|sr p|p|startedId|sr p outcome cc|isRunning running|connected|connected|gaveUp reset| |];
    try done; intros _ Hs F.
  - by apply answered_timer.
  - by apply answered_dispatching.
  - by apply answered_coreStarted.
  - by apply answered_coreExited.
  - by apply answered_startFinished.
  - by apply answered_connection.
  - split; [by apply (follows_same w)|done].
  - by apply answered_stable.
  - by apply answered_coreRetry.
  - cbn [rtStep]. unfold resumeCancelled. answers F.
Qed.

(** ** The exits it writes down *)

(** A handler that ends the process tells the guard [ends], and nothing else. *)
Definition tells (w w' : Runtime) : Prop :=
  onlyGuard w w' /\ forall id, guard w' = fold_left (event toJson id) (ends w w') (guard w).

Lemma ends_none w w' : m_terminating w' = m_terminating w -> m_stopOverride w' = m_stopOverride w -> ends w w' = [].
Proof. intros H1 H2. unfold ends. rewrite H1, H2. by destruct (m_terminating w), (m_stopOverride w). Qed.

Lemma tells_none w w' : onlyGuard w w' -> guard w' = guard w -> m_terminating w' = m_terminating w ->
  m_stopOverride w' = m_stopOverride w -> tells w w'.
Proof. intros O G H1 H2. split; [done|]. intros id. by rewrite ends_none. Qed.

(** Before or after a step that ends nothing. *)
Definition idle (w w' : Runtime) : Prop :=
  onlyGuard w w' /\ guard w' = guard w /\ m_terminating w' = m_terminating w /\ m_stopOverride w' = m_stopOverride w.

Lemma tells_idle w w1 w' : idle w w1 -> tells w1 w' -> tells w w'.
Proof.
  intros ((A1 & A2 & A3 & A4) & B & C & D) ((E1 & E2 & E3 & E4) & G). split; [split_and!; congruence|].
  intros id. rewrite (G id), B. unfold ends. by rewrite C, D.
Qed.

Ltac silent := by apply tells_none.

Lemma tells_post w w' t : tells w w' -> tells w (post t w').
Proof. done. Qed.

Lemma tells_postTerminate w w' : tells w w' -> tells w (postTerminate w').
Proof. unfold postTerminate. by destruct (m_terminatePosted w'). Qed.

Lemma tells_terminate onMain code reason w : tells w (terminate toJson onMain code reason w).
Proof.
  unfold terminate. destruct onMain; cbn [negb]; [|silent]. destruct (Z.leb_spec 0 (m_exitCode w)) as [H0|H0].
  - destruct (_ && _) eqn:Eb; [|silent]. apply andb_true_iff in Eb as [_ Ho%negb_true_iff]. cbv zeta.
    cbn [m_terminating set_m_exitReason set_m_stopOverride]. destruct (m_terminating w) eqn:Et.
    + split; [done|]. intros id. unfold ends. cbn. rewrite Et, Ho. cbn. unfold exitCode. cbn.
      destruct (Z.ltb_spec (m_exitCode w) 0); [lia|done].
    + split; [done|]. intros id. unfold ends. cbn. by rewrite Et.
  - destruct (prepare_exit w); [silent|]. cbv zeta. destruct (m_execRunning _); [|silent]. apply tells_postTerminate. silent.
Qed.

Lemma tells_own w : m_terminating w = false -> tells w (noteOwnExit toJson (stopTimers (set_m_terminating true w))).
Proof. intros Ht. split; [done|]. intros id. unfold ends. cbn. by rewrite Ht. Qed.

Lemma tells_runTerminate w : tells w (runTerminate toJson w).
Proof.
  unfold runTerminate. destruct (m_terminating w) eqn:Et; [silent|]. destruct (prepare_exit w); [silent|]. cbv zeta.
  split; [done|]. intros id. unfold ends. cbn. by rewrite Et.
Qed.

Lemma tells_endSession reason w : tells w (endSession toJson reason w).
Proof.
  unfold endSession. cbv zeta. set (w1 := terminate toJson true ExitOk reason w).
  pose proof (tells_terminate true ExitOk reason w) as T. fold w1 in T.
  destruct (_ || _) eqn:Eb; [done|]. apply orb_false_iff in Eb as [Eb _]. apply orb_false_iff in Eb as [Et _].
  assert (m_terminating w = false) as Ht.
  { rewrite <- Et. unfold w1, terminate, postTerminate. cbv zeta.
    repeat match goal with |- context [if ?b then _ else _] => destruct b end; done. }
  destruct T as [(A1 & A2 & A3 & A4) T]. destruct (tells_own w1 Et) as [(B1 & B2 & B3 & B4) T'].
  split; [split_and!; congruence|]. intros id. rewrite (T' id), (T id). unfold ends at 2. rewrite Ht, Et. cbn [negb andb orb fold_left].
  unfold ends. by rewrite Ht, Et.
Qed.

Lemma tells_stopSignal name w : tells w (stopSignal toJson name w).
Proof.
  unfold stopSignal. cbv zeta. destruct (_ && _); [apply tells_terminate|]. destruct (_ && _); [apply tells_terminate|].
  destruct (negb _); [destruct (m_secondSignalQueued w)|destruct (m_fastPathUsed w)]; silent.
Qed.

Lemma tells_stuck reason code w : tells w (stuck toJson reason code w).
Proof.
  unfold stuck. destruct (terminating w); [silent|]. destruct (negb (stayUp w)); [apply tells_terminate|].
  destruct (m_stuckEpisode w); silent.
Qed.

Lemma tells_posted t w : tells w (runPosted toJson t w).
Proof.
  destruct t as [code reason| |name|]; cbn [runPosted]; [apply tells_terminate|apply tells_runTerminate|apply tells_stopSignal|].
  cbv zeta. destruct (_ <=? _); [|silent]. apply tells_postTerminate. silent.
Qed.

Lemma tells_step w e : resumeEvent e = false -> tells w (rtStep toJson w e).
Proof.
  destruct e as [onMain code reason|sg p q g|fast source|reason| | | | |reason|a b c name| | | | | | | | | | |now]; try done; intros _; cbn [rtStep].
  - apply tells_terminate.
  - unfold onSignal. destruct sg; try apply tells_stopSignal; [|silent]. cbv zeta.
    destruct (_ && _); [apply tells_terminate|]. destruct (terminating w); [silent|apply tells_terminate].
  - unfold onStopRequest. cbv zeta. destruct (_ && _); [apply tells_post|]; apply tells_stopSignal.
  - apply tells_endSession.
  - silent.
  - destruct (posted w) as [|t ts]; [silent|]. apply (tells_idle _ (set_posted ts w)); [done|]. apply tells_posted.
  - unfold teardownDone. destruct (teardown w); silent.
  - silent.
  - unfold onCoreGaveUp. destruct (negb _); [apply tells_terminate|]. destruct (terminating w); silent.
  - unfold evaluateWatchdog. destruct (terminating w); [silent|]. destruct (_ <? a); [apply tells_stuck|].
    destruct (_ <? b); [apply tells_stuck|]. destruct (_ <? c); [apply tells_stuck|silent].
  - silent.
Qed.

(** ** Texts, codes and times stay in their bounds *)

(** Texts of a reasonable length, codes and times of their types. *)
Definition textOk (s : qstring) : Prop := qsize s <= 4096.
Definition timeOk (t : Z) : Prop := - 2 ^ 63 <= t < 2 ^ 63.
Definition postedOk (t : Posted) : Prop :=
  match t with
  | PostTerminate code reason => intRange code = true /\ textOk reason
  | PostStop name => textOk name
  | _ => True
  end.
Definition boundsOk (e : RtEvent) : Prop :=
  match e with
  | RtTerminate _ code reason => intRange code = true /\ textOk reason
  | RtStopRequest _ source => textOk source
  | RtEndSession reason | RtCoreGaveUp reason => textOk reason
  | RtWatchdog a b c name => 0 <= a < 2 ^ 63 /\ 0 <= b < 2 ^ 63 /\ 0 <= c < 2 ^ 63 /\ textOk name
  | RtClock now => timeOk now
  | _ => True
  end.

Record within (w : Runtime) : Prop := {
  w_clock : timeOk (clock w);
  w_code : intRange (m_exitCode w) = true;
  w_reason : qsize (m_exitReason w) <= 8192;
  w_posted : Forall postedOk (posted w) }.

Ltac within H := destruct H as [W1 W2 W3 W4]; split; cbn; try done.

Lemma within_quiet w w' : quiet toJson w w' -> within w -> within w'.
Proof.
  intros (Hc & Hk & _) [W1 W2 W3 W4]. unfold control in Hc.
  injection Hc as C1 C2 _ _ _ _ _ C8 _ _ _. by split; rewrite ?Hk, ?C1, ?C2, ?C8.
Qed.

Lemma within_guard f w : within w -> within (onGuard f w).
Proof. intros W. by within W. Qed.

Lemma within_post t w : postedOk t -> within w -> within (post t w).
Proof. intros Ht W. within W. apply Forall_app. split; [done|by apply Forall_singleton]. Qed.

Lemma within_fields w w' : clock w' = clock w -> m_exitCode w' = m_exitCode w -> m_exitReason w' = m_exitReason w ->
  posted w' = posted w -> within w -> within w'.
Proof. intros E1 E2 E3 E4 [W1 W2 W3 W4]. split; by rewrite ?E1, ?E2, ?E3, ?E4. Qed.
Ltac fields_of w := apply (within_fields w); [reflexivity..|].

Lemma within_postTerminate w : within w -> within (postTerminate w).
Proof.
  intros W. unfold postTerminate. destruct (m_terminatePosted w); [done|]. apply within_post; [done|].
  by fields_of w.
Qed.

Lemma within_terminate onMain code reason w : intRange code = true -> qsize reason <= 8192 ->
  (onMain = false -> textOk reason) -> within w -> within (terminate toJson onMain code reason w).
Proof.
  intros Hc Hr Ho W. unfold terminate. destruct onMain; cbn [negb]; [|apply within_post; [split; auto|done]].
  destruct (0 <=? m_exitCode w).
  - destruct (_ && _); [|done]. cbv zeta. set (w1 := set_m_exitReason reason (set_m_stopOverride true w)).
    assert (within w1) as W1 by (unfold w1; within W). destruct (m_terminating w1); [|done].
    by apply within_guard.
  - destruct (prepare_exit w); [done|]. cbv zeta. set (w1 := set_m_exitReason reason (set_m_exitCode code w)).
    assert (within w1) as W1 by (unfold w1; within W). destruct (m_execRunning w1); [by apply within_postTerminate|done].
Qed.

Lemma exitCode_range r w : intRange r = true -> intRange (m_exitCode w) = true -> intRange (exitCode r w) = true.
Proof. intros H1 H2. unfold exitCode. by destruct (m_exitCode w <? 0), (m_stopOverride w). Qed.

Lemma within_own w : within w -> within (noteOwnExit toJson (stopTimers (set_m_terminating true w))).
Proof.
  intros W. unfold noteOwnExit. apply within_guard. by fields_of w.
Qed.

Lemma within_shutdown code w : within w -> within (shutdown code w).
Proof. intros W. by fields_of w. Qed.

Lemma within_runTerminate w : within w -> within (runTerminate toJson w).
Proof.
  intros W. unfold runTerminate. destruct (m_terminating w); [done|]. destruct (prepare_exit w); [done|]. cbv zeta.
  apply within_shutdown. by apply within_own.
Qed.

Lemma textOk_long s : textOk s -> qsize s <= 8192.
Proof. unfold textOk. lia. Qed.

Lemma within_stopSignal name w : textOk name -> within w -> within (stopSignal toJson name w).
Proof.
  intros Hn W. unfold stopSignal. cbv zeta. pose proof (textOk_long name Hn).
  destruct (_ && _); [by apply within_terminate|]. destruct (_ && _); [by apply within_terminate|].
  destruct (negb (prepare_exit w)).
  - destruct (m_secondSignalQueued w); [done|]. apply within_post; [done|]. by fields_of w.
  - destruct (m_fastPathUsed w); [done|]. by fields_of w.
Qed.

Lemma within_runPosted t w : postedOk t -> within w -> within (runPosted toJson t w).
Proof.
  intros Ht W. destruct t as [code reason| |name|]; cbn [runPosted postedOk] in *.
  - destruct Ht. apply within_terminate; try done. by apply textOk_long.
  - by apply within_runTerminate.
  - by apply within_stopSignal.
  - cbv zeta. assert (within (set_m_execRunning true w)) by by fields_of w.
    destruct (0 <=? _); [by apply within_postTerminate|done].
Qed.

Lemma number_length n : 0 <= n < 10 ^ 19 -> qsize (number n) <= 19.
Proof.
  intros Hn. unfold number. destruct (Z.ltb_spec n 0); [lia|]. unfold unumber, qsize.
  pose proof (number_loop_length 10 18 (S (Z.to_nat (Z.log2 n))) n [] ltac:(lia) ltac:(cbn; lia)) as Hlen. cbn [length] in Hlen. lia.
Qed.

Lemma forSeconds_length text ms : qsize text <= 5000 -> 0 <= ms < 2 ^ 63 -> qsize (forSeconds text ms) <= 8192.
Proof.
  intros Ht Hm. unfold forSeconds, qsize in *. rewrite !length_app. assert (0 <= Z.quot ms 1000 < 10 ^ 19) as Hq.
  { rewrite Z.quot_div_nonneg by lia. split; [apply Z.div_pos; lia|]. apply Z.div_lt_upper_bound; lia. }
  pose proof (number_length _ Hq) as Hl. unfold qsize in Hl. change (length (qs " for ")) with 5%nat. change (length (qs " s")) with 2%nat. lia.
Qed.

Lemma within_stuck reason code w : intRange code = true -> qsize reason <= 8192 -> within w -> within (stuck toJson reason code w).
Proof.
  intros Hc Hr W. unfold stuck. destruct (terminating w); [done|]. destruct (negb (stayUp w)); [by apply within_terminate|].
  destruct (m_stuckEpisode w); [done|]. by fields_of w.
Qed.

Lemma within_watchdog a b c name w : boundsOk (RtWatchdog a b c name) -> within w -> within (evaluateWatchdog toJson a b c name w).
Proof.
  intros (Ha & Hb & Hc & Hn) W. unfold evaluateWatchdog. destruct (terminating w); [done|]. unfold textOk in Hn.
  assert (forall t, qsize t <= 100 -> qsize (t ++ name) <= 5000) as Hl by (intros t Ht; unfold qsize in *; rewrite length_app; lia).
  destruct (_ <? a); [apply within_stuck; [done|apply forSeconds_length; [by apply Hl|done]|done]|].
  destruct (_ <? b); [apply within_stuck; [done|apply forSeconds_length; [by apply Hl|done]|done]|].
  destruct (_ <? c); [apply within_stuck; [done|by apply forSeconds_length|done]|]. by fields_of w.
Qed.

Lemma within_step w e : boundsOk e -> serialOk w e -> within w -> within (rtStep toJson w e).
Proof.
  intros Hb Hs W. destruct (resumeEvent e) eqn:Er; [by apply (within_quiet w); [apply quiet_step|]|].
  destruct e as [onMain code reason|sg p q g|fast source|reason| | | | |reason|a b c name| | | | | | | | | | |now];
    try discriminate Er; cbn [rtStep boundsOk] in *.
  - destruct Hb. apply within_terminate; try done. by apply textOk_long.
  - assert (forall n, qsize n <= 100 -> textOk n) as Ht by (intros n Hn; unfold textOk; lia).
    unfold onSignal. destruct sg; [by apply within_stopSignal|by apply within_stopSignal| |done]. cbv zeta.
    destruct (_ && _); [by apply within_terminate|]. destruct (terminating w); [done|by apply within_terminate].
  - unfold onStopRequest. cbv zeta. destruct (_ && _); [apply within_post; [done|]|]; by apply within_stopSignal.
  - unfold endSession. cbv zeta. pose proof (textOk_long _ Hb) as Hl.
    assert (within (terminate toJson true ExitOk reason w)) as W1 by by apply within_terminate.
    destruct (_ || _); [done|]. by apply within_own.
  - unfold beforeExec. assert (within (post PostExec w)) as W1 by by apply within_post. by fields_of (post PostExec w).
  - destruct (posted w) as [|t ts] eqn:Ep; [done|]. pose proof (w_posted w W) as Hp. rewrite Ep in Hp.
    apply Forall_cons in Hp as [Ht Hts]. apply within_runPosted; [done|]. within W.
  - unfold teardownDone. destruct (teardown w); [|done]. by fields_of w.
  - by fields_of w.
  - unfold onCoreGaveUp. destruct (negb (stayUp w)).
    + apply within_terminate; try done. unfold textOk, qsize in *. rewrite length_app. change (length (qs "the core gave up: ")) with 18%nat. lia.
    + destruct (terminating w); [done|]. by fields_of w.
  - by apply within_watchdog.
  - within W.
Qed.

(** ** One step, and the run *)

Lemma booted_asked fromJson f now hadTty relays resume remembered exists_ serial :
  let w0 := booted fromJson toJson f now hadTty relays resume remembered exists_ serial in follows w0 (asked w0).
Proof.
  cbv zeta. unfold booted, bootStart. cbn [m_bootPhase newRuntime]. rewrite bool_decide_true by done. cbn [negb].
  destruct (_ || negb exists_); [by repeat constructor|].
  destruct (decide toJson remembered _) as [id g]. destruct (suppressed g); repeat constructor.
Qed.

Lemma resume_ends w e : resumeEvent e = true -> serialOk w e -> ends w (rtStep toJson w e) = [].
Proof.
  intros He Hs. destruct (quiet_step toJson w e He Hs) as [Hc _]. unfold control in Hc. injection Hc as _ _ C3 C4 _ _ _ _ _ _ _.
  by apply ends_none.
Qed.

Lemma boot_step w s e : serialOk w e -> follows w s ->
  follows (rtStep toJson w e) (fst (heard w s e)) /\
  guard (rtStep toJson w e) = fold_left (event toJson (m_bootProfileId w)) (snd (heard w s e) ++ ends w (rtStep toJson w e)) (guard w).
Proof.
  intros Hs F. destruct (resumeEvent e) eqn:Er.
  - rewrite resume_ends, app_nil_r by done. by apply answered_resume.
  - destruct (tells_step w e Er) as [O G]. assert (heard w s e = (s, [])) as -> by by destruct e.
    split; [by apply (follows_same w)|apply G].
Qed.

Lemma boot_id w e : serialOk w e -> m_bootProfileId (rtStep toJson w e) = m_bootProfileId w.
Proof.
  intros Hs. destruct (resumeEvent e) eqn:Er; [by apply quiet_step|].
  destruct e; try done; cbn [rtStep]; unfold onSignal, onStopRequest, endSession, onCoreGaveUp, evaluateWatchdog, stuck, runPosted, teardownDone,
    runTerminate, stopSignal, terminate, postTerminate; cbv zeta;
  repeat match goal with
  | |- context [if ?b then _ else _] => destruct b
  | |- context [match ?x with _ => _ end] => destruct x
  end; done.
Qed.

Lemma heard_ok w s e : timeOk (clock w) -> Forall eventOk (snd (heard w s e)).
Proof.
  intros Ht. unfold heard, hears, alive. cbv zeta. destruct e; cbn [snd]; try by constructor.
  all: repeat match goal with
  | |- context [if ?b then _ else _] => destruct b
  | |- context [match ?x with _ => _ end] => destruct x
  end; cbn; repeat first [apply Forall_nil_2|apply Forall_cons_2]; done.
Qed.

Lemma ends_ok w w' : within w' -> Forall eventOk (ends w w').
Proof.
  intros W. unfold ends. destruct (_ || _); [|constructor]. repeat constructor; [|exact (w_reason w' W)|apply (w_clock w' W)|apply (w_clock w' W)].
  apply exitCode_range; exact (w_code w' W).
Qed.

Lemma boot_run evs w s : Forall boundsOk evs -> rtOk toJson w evs -> within w -> follows w s ->
  guard (rtRun toJson w evs) = fold_left (event toJson (m_bootProfileId w)) (boot w s evs) (guard w) /\ Forall eventOk (boot w s evs).
Proof.
  intros Hb. revert w s. induction Hb as [|e evs He _ IH]; intros w s Hok W F; [by split|]. destruct Hok as (_ & H2 & H3).
  destruct (boot_step w s e H2 F) as [F' G]. pose proof (within_step w e He H2 W) as W'. cbn [rtRun fold_left boot].
  destruct (IH _ _ H3 W' F') as [I1 I2]. split.
  - unfold rtRun in I1. rewrite I1, boot_id, G, !fold_left_app by done. done.
  - apply Forall_app. split; [by apply heard_ok, (w_clock w W)|]. apply Forall_app. split; [by apply ends_ok|done].
Qed.
End Trace.

(** C32: What a headless process does to the resume guard, event by event. After
    the boot has settled the previous one and chosen its profile, any
    interleaving of starts, core exits, survival timers, signals, posted calls,
    watchdog verdicts and teardowns leaves the guard, its file included, of the
    boot that [boot] reads off the run: the start is armed once per request, by
    whichever signal dispatches the boot start first; a core that dies before the
    outcome, or with that profile remembered as started, is a strike, and
    any other core exit disarms; a start that fails after it was armed strikes
    when the core is gone and disarms otherwise; a minute's survival clears the
    strikes only if the profile of the boot start still runs, or nothing broke
    the run since it began; an exit is written when the teardown begins and again
    when a stop overrides the restart, and outcomes the teardown delivers are not
    judged. Every prefix of a run is a run, so a killed process is included, and
    the count of bad resumes of C33 counts these events. *)
Theorem runtime_is_boot (fromJson : qstring -> option QJsonValue) (toJson : QJsonValue -> qstring) (f : StateFile)
    (now : Z) (hadTty relays resume : bool) (remembered : Z) (exists_ : bool) (serial : Z) (evs : list RtEvent) :
  timeOk now -> remembered < 2 ^ 31 -> Forall boundsOk evs ->
  let w0 := booted fromJson toJson f now hadTty relays resume remembered exists_ serial in
  rtOk toJson w0 evs ->
  let b := MkBoot (if negb resume || (remembered <? 0) || negb exists_ then -1 else remembered) (boot toJson w0 (asked w0) evs) in
  guard (rtRun toJson w0 evs) = runBoot fromJson toJson f b /\ bootOk b.
Proof.
  intros Hnow Hrem Hb w0 Hok b. pose proof (booted_guard fromJson toJson f now hadTty relays resume remembered exists_ serial) as Hg.
  cbv zeta in Hg. unfold b. clear b. set (d := if _ || negb exists_ then -1 else remembered) in *.
  destruct (decide toJson d (settled fromJson toJson f)) as [id g0] eqn:Ed.
  destruct Hg as (G1 & G2 & _ & G4 & G5 & G6 & G7 & _). fold w0 in G1, G2, G4, G5, G6, G7.
  assert (within w0) as W by (split; rewrite ?G4, ?G5, ?G6, ?G7; done).
  destruct (boot_run toJson evs w0 (asked w0) Hb Hok W (booted_asked _ _ _ _ _ _ _ _ _ _)) as [I1 I2].
  split; [unfold runBoot; cbn [candidate happened]; by rewrite I1, Ed, G1, G2|]. split; [|done].
  cbn. unfold d. destruct (negb resume); cbn [orb]; [lia|]. destruct (Z.ltb_spec remembered 0); cbn [orb]; [lia|].
  destruct (negb exists_); lia.
Qed.

(** A boot whose core dies under the start, is given up and started again by the
    stay-up retry, runs for its minute and is restarted; a stop overrides it. *)
Definition exampleBoot : list RtEvent :=
  [RtBeforeExec; RtPosted; RtStartFinished 1 3 CoreUnavailable false; RtCoreRetry true true; RtDispatching 1 3; RtCoreStarted 3;
   RtStartFinished 1 3 Started true; RtConnection true (Some 3); RtTimer 0 true (Some 3); RtConnection false None; RtTimer 0 true (Some 3);
   RtCoreExited 3; RtSignal SIGHUP false false false; RtPosted; RtSignal SIGTERM false false false; RtStartFinished 1 3 OtherFailure true].

Lemma runtime_is_boot_witness :
  let w0 := booted (fun _ => None) (fun _ => []) (MkFile None true true) 7 false false true 3 true 1 in
  boot (fun _ => []) w0 (asked w0) exampleBoot =
    [EvArm 7; EvLift 3; EvSurvived 3; EvLift 3; EvStrike; EvExit ExitRestart (qs "SIGHUP") 7; EvExit ExitOk (qs "SIGTERM") 7] /\
  guard (rtRun (fun _ => []) w0 exampleBoot) = runBoot (fun _ => None) (fun _ => []) (MkFile None true true)
    (MkBoot 3 (boot (fun _ => []) w0 (asked w0) exampleBoot)).
Proof.
  cbv zeta. split; [by vm_compute|].
  exact (proj1 (runtime_is_boot (fun _ => None) (fun _ => []) (MkFile None true true) 7 false false true 3 true 1 exampleBoot
    ltac:(done) ltac:(done) ltac:(repeat constructor; done) ltac:(vm_compute; tauto))).
Defined.
