(* ===== verification/ConnectionManager.v ===== *)
(** * Starting, stopping and switching profiles (src/src/engine/connection/)

    [Conn] is the manager's members, the settings it writes, the two locks, the
    worker threads, the calls queued to the main thread and what was emitted,
    oldest first. Handlers of the main thread are functions; a start or stop
    worker advances one step per event, so that any interleaving of the threads
    is a sequence of events. What a handler reads of the database, the core
    supervisor, the kill switch and the host is an argument. Dialogs, log lines,
    statistics, error texts, VPN sign-in and the system journal are left out. *)

From Stdlib Require Import Ascii String.
From S2P Require Import Prelude QtText.

Local Open Scope Z_scope.
#[local] Set Warnings "-register-all".

(** ** Data *)

Inductive ConnectionState := Idle | Connecting | Running | Stopping.
#[export] Instance ConnectionState_eq_dec : EqDecision ConnectionState.
Proof. solve_decision. Defined.

Inductive StartOutcome :=
| Started | Exiting | NotFound | GroupUnavailable | KillSwitchInactive | Superseded | CoreUnavailable | BuildFailed | Busy
| ExtraCoreBlocked | GeoAssetsMissing | StrictRouteUnavailable | TunFailed | StartFailed.
#[export] Instance StartOutcome_eq_dec : EqDecision StartOutcome.
Proof. solve_decision. Defined.

Record StartRequest := MkRequest { profileId : Z; interactive : bool; serial : Z; dnsChecked : bool }.
Definition noRequest : StartRequest := MkRequest (-1) true 0 false.
Definition plainRequest (id : Z) : StartRequest := MkRequest id true 0 false.

Record StopOptions := MkStop { crash : bool; manual : bool }.
Record ModeChange := MkChange { changeSave : bool; changeInteractive : bool; changeRestart : bool; restartSerial : Z }.

Inductive RestartReason := ReasonSettings | ReasonRouting | ReasonProfile | ReasonGroup.
#[export] Instance RestartReason_eq_dec : EqDecision RestartReason.
Proof. solve_decision. Defined.

(** The state of the kill switch. *)
Inductive Guarding := KsDisabled | KsArming | KsArmed | KsFailed.
#[export] Instance Guarding_eq_dec : EqDecision Guarding.
Proof. solve_decision. Defined.

Definition kGuardRestartWindowMs : Z := 15000.

(** The worker of a start: where it is, what it starts, and whether it switches
    away from a running profile. *)
Inductive StarterStep := AtBegin | AtStopCheck | AtStopLock (id : Z) | AtWait | AtStage2 | AtRpc | AtUnlock (started : bool).
Record Starter := MkStarter { s_step : StarterStep; s_request : StartRequest; s_switching : bool; s_tun : bool }.

(** The last part of a stop runs from a timer of the main thread that a queued
    call starts: [StopAwaitUi] until that call, [StopReady] after it. *)
Inductive StopperStep := StopBegin | StopRpc | StopClear | StopAwaitUi | StopReady.
Record Stopper := MkStopper { t_step : StopperStep; t_id : Z; t_options : StopOptions }.

(** Calls queued to the main thread. *)
Inductive UiTask :=
| UiFinish (r : StartRequest) (o : StartOutcome) | UiStarted (r : StartRequest) | UiDisconnecting
| UiStopTimer | UiCancelResume | UiStartDone (started switching : bool) | UiAdapterRetry (id : Z) | UiOfferReset.

Inductive Effect :=
| EffDispatching (serial profileId : Z) | EffStatusChanged | EffBusyChanged | EffStateChanged (s : ConnectionState)
| EffStopFinished (id : Z) | EffRestartReasons | EffRpcStart (id : Z) | EffRpcStop | EffSystemProxy (enable : bool)
| EffSetStartWhenUp (id : Z) | EffRestartNotListening (id : Z) | EffRestartForGuard | EffCancelResume | EffResetCore
| EffKillSwitchApply | EffDnsSelect | EffMarkStopped | EffMarkStarted (switched : bool).

Record Conn := MkConn {
  m_lastProfileId : Z;
  m_profileConnecting : bool;
  m_profileDisconnecting : bool;
  m_lastConnectionState : ConnectionState;
  m_killSwitchDeferredStart : StartRequest;
  settledWaiters : nat;
  m_coreStartRequest : StartRequest;
  m_guardCoreRestart : option Z;
  m_killSwitchWasFailed : bool;
  m_killSwitchWasArmed : bool;
  m_bootSerial : Z;
  m_tunRestoreHeld : bool;
  m_applyingProviderPolicy : bool;
  m_geoRetriedProfile : Z;
  m_geoRetryToken : Z;
  m_restartReasons : list RestartReason;
  m_dnsSelect : bool;
  dnsPending : list StartRequest;
  rankPending : list StartRequest;
  m_running : option Z;
  m_runningTun : bool;
  mu_starting : bool;
  mu_stopping : bool;
  m_switchingProfile : bool;
  starter : option Starter;
  leaving : list (bool * bool);
  stopper : option Stopper;
  ui : list UiTask;
  started_id : Z;
  spmode_vpn : bool;
  spmode_system_proxy : bool;
  remember_tun : bool;
  remember_system_proxy : bool;
  flag_restart_tun_on : bool;
  prepare_exit : bool;
  core_running : bool;
  clock : Z;
  answered : list (Z * Z * StartOutcome);
  emitted : list Effect }.

Definition connEta (w : Conn) : Conn :=
  MkConn (m_lastProfileId w) (m_profileConnecting w) (m_profileDisconnecting w) (m_lastConnectionState w)
    (m_killSwitchDeferredStart w) (settledWaiters w) (m_coreStartRequest w) (m_guardCoreRestart w)
    (m_killSwitchWasFailed w) (m_killSwitchWasArmed w) (m_bootSerial w) (m_tunRestoreHeld w)
    (m_applyingProviderPolicy w) (m_geoRetriedProfile w) (m_geoRetryToken w) (m_restartReasons w) (m_dnsSelect
    w) (dnsPending w) (rankPending w) (m_running w) (m_runningTun w) (mu_starting w) (mu_stopping w)
    (m_switchingProfile w) (starter w) (leaving w) (stopper w) (ui w) (started_id w) (spmode_vpn w)
    (spmode_system_proxy w) (remember_tun w) (remember_system_proxy w) (flag_restart_tun_on w) (prepare_exit
    w) (core_running w) (clock w) (answered w) (emitted w).
Definition set_m_lastProfileId (v : Z) (w : Conn) : Conn := ltac:(setter connEta m_lastProfileId v w).
Definition set_m_profileConnecting (v : bool) (w : Conn) : Conn := ltac:(setter connEta m_profileConnecting v w).
Definition set_m_profileDisconnecting (v : bool) (w : Conn) : Conn := ltac:(setter connEta m_profileDisconnecting v w).
Definition set_m_lastConnectionState (v : ConnectionState) (w : Conn) : Conn := ltac:(setter connEta m_lastConnectionState v w).
Definition set_m_killSwitchDeferredStart (v : StartRequest) (w : Conn) : Conn := ltac:(setter connEta m_killSwitchDeferredStart v w).
Definition set_settledWaiters (v : nat) (w : Conn) : Conn := ltac:(setter connEta settledWaiters v w).
Definition set_m_coreStartRequest (v : StartRequest) (w : Conn) : Conn := ltac:(setter connEta m_coreStartRequest v w).
Definition set_m_guardCoreRestart (v : option Z) (w : Conn) : Conn := ltac:(setter connEta m_guardCoreRestart v w).
Definition set_m_killSwitchWasFailed (v : bool) (w : Conn) : Conn := ltac:(setter connEta m_killSwitchWasFailed v w).
Definition set_m_killSwitchWasArmed (v : bool) (w : Conn) : Conn := ltac:(setter connEta m_killSwitchWasArmed v w).
Definition set_m_bootSerial (v : Z) (w : Conn) : Conn := ltac:(setter connEta m_bootSerial v w).
Definition set_m_tunRestoreHeld (v : bool) (w : Conn) : Conn := ltac:(setter connEta m_tunRestoreHeld v w).
Definition set_m_applyingProviderPolicy (v : bool) (w : Conn) : Conn := ltac:(setter connEta m_applyingProviderPolicy v w).
Definition set_m_geoRetriedProfile (v : Z) (w : Conn) : Conn := ltac:(setter connEta m_geoRetriedProfile v w).
Definition set_m_geoRetryToken (v : Z) (w : Conn) : Conn := ltac:(setter connEta m_geoRetryToken v w).
Definition set_m_restartReasons (v : list RestartReason) (w : Conn) : Conn := ltac:(setter connEta m_restartReasons v w).
Definition set_m_dnsSelect (v : bool) (w : Conn) : Conn := ltac:(setter connEta m_dnsSelect v w).
Definition set_dnsPending (v : list StartRequest) (w : Conn) : Conn := ltac:(setter connEta dnsPending v w).
Definition set_rankPending (v : list StartRequest) (w : Conn) : Conn := ltac:(setter connEta rankPending v w).
Definition set_m_running (v : option Z) (w : Conn) : Conn := ltac:(setter connEta m_running v w).
Definition set_m_runningTun (v : bool) (w : Conn) : Conn := ltac:(setter connEta m_runningTun v w).
Definition set_mu_starting (v : bool) (w : Conn) : Conn := ltac:(setter connEta mu_starting v w).
Definition set_mu_stopping (v : bool) (w : Conn) : Conn := ltac:(setter connEta mu_stopping v w).
Definition set_m_switchingProfile (v : bool) (w : Conn) : Conn := ltac:(setter connEta m_switchingProfile v w).
Definition set_starter (v : option Starter) (w : Conn) : Conn := ltac:(setter connEta starter v w).
Definition set_leaving (v : list (bool * bool)) (w : Conn) : Conn := ltac:(setter connEta leaving v w).
Definition set_stopper (v : option Stopper) (w : Conn) : Conn := ltac:(setter connEta stopper v w).
Definition set_ui (v : list UiTask) (w : Conn) : Conn := ltac:(setter connEta ui v w).
Definition set_started_id (v : Z) (w : Conn) : Conn := ltac:(setter connEta started_id v w).
Definition set_spmode_vpn (v : bool) (w : Conn) : Conn := ltac:(setter connEta spmode_vpn v w).
Definition set_spmode_system_proxy (v : bool) (w : Conn) : Conn := ltac:(setter connEta spmode_system_proxy v w).
Definition set_remember_tun (v : bool) (w : Conn) : Conn := ltac:(setter connEta remember_tun v w).
Definition set_remember_system_proxy (v : bool) (w : Conn) : Conn := ltac:(setter connEta remember_system_proxy v w).
Definition set_flag_restart_tun_on (v : bool) (w : Conn) : Conn := ltac:(setter connEta flag_restart_tun_on v w).
Definition set_prepare_exit (v : bool) (w : Conn) : Conn := ltac:(setter connEta prepare_exit v w).
Definition set_core_running (v : bool) (w : Conn) : Conn := ltac:(setter connEta core_running v w).
Definition set_clock (v : Z) (w : Conn) : Conn := ltac:(setter connEta clock v w).
Definition set_answered (v : list (Z * Z * StartOutcome)) (w : Conn) : Conn := ltac:(setter connEta answered v w).
Definition set_emitted (v : list Effect) (w : Conn) : Conn := ltac:(setter connEta emitted v w).

Definition emit (e : Effect) (w : Conn) : Conn := set_emitted (emitted w ++ [e]) w.
Definition queue (t : UiTask) (w : Conn) : Conn := set_ui (ui w ++ [t]) w.

(** startFinished. *)
Definition answer (r : StartRequest) (o : StartOutcome) (w : Conn) : Conn :=
  set_answered (answered w ++ [(serial r, profileId r, o)]) w.

Definition connectionState (w : Conn) : ConnectionState :=
  if m_profileConnecting w then Connecting
  else if m_profileDisconnecting w then Stopping
  else match m_running w with Some _ => Running | None => Idle end.

Definition syncState (w : Conn) : Conn :=
  let s := connectionState w in
  if bool_decide (s = m_lastConnectionState w) then w
  else emit (EffStateChanged s) (set_m_lastConnectionState s w).

Definition setRunning (profile : option Z) (tun : bool) (w : Conn) : Conn :=
  set_m_runningTun (match profile with Some _ => tun | None => false end) (set_m_running profile w).

Definition noteRestartNeeded (reason : RestartReason) (w : Conn) : Conn :=
  if (started_id w <? 0) || bool_decide (reason ∈ m_restartReasons w) then w
  else emit EffRestartReasons (set_m_restartReasons (m_restartReasons w ++ [reason]) w).

Definition clearRestartNeeded (w : Conn) : Conn :=
  match m_restartReasons w with [] => w | _ => emit EffRestartReasons (set_m_restartReasons [] w) end.

Definition restartPending (w : Conn) : bool := negb (isEmpty (m_restartReasons w)).

Definition deferStartToCore (request : StartRequest) (w : Conn) : Conn :=
  let w := if 0 <=? profileId (m_coreStartRequest w) then answer (m_coreStartRequest w) Superseded w else w in
  set_m_coreStartRequest request w.

Definition setBootStart (request : StartRequest) (w : Conn) : Conn :=
  deferStartToCore request (set_m_bootSerial (serial request) w).

Definition guardRestartPending (w : Conn) : bool :=
  match m_guardCoreRestart w with Some since => clock w - since <=? kGuardRestartWindowMs | None => false end.

(** [haveCore]: whether the supervisor has a core process. *)
Definition restartCoreForGuard (haveCore : bool) (request : StartRequest) (w : Conn) : Conn :=
  if negb haveCore then answer request CoreUnavailable w
  else
    let w := deferStartToCore request (emit (EffSetStartWhenUp (profileId request)) w) in
    if guardRestartPending w then w
    else emit EffRestartForGuard (set_m_guardCoreRestart (Some (clock w)) w).

(** ** Modes *)

(** What the modes read of the host, the core's capabilities and the options. *)
Record ModesEnv := MkModes {
  hostTunConflict : bool;
  privileged : bool;
  capsBlocker : bool -> bool;
  disable_privilege_req : bool;
  privilegesGranted : bool;
  systemProxyOption : bool;
  disable_mixed_inbound : bool;
  reset_proxy_on_disable_sp : bool }.

Definition tunBlocked (env : ModesEnv) (w : Conn) : bool :=
  if spmode_vpn w || m_runningTun w then false
  else match connectionState w with Connecting | Stopping => false | _ => hostTunConflict env end.

Definition ensureTunPrivileges (env : ModesEnv) (interactive : bool) : bool :=
  if disable_privilege_req env then true
  else if capsBlocker env interactive then false
  else if privileged env then true
  else if negb interactive then false
  else privilegesGranted env.

(** setTun up to the restart it asks for. *)
Definition setTunMode (env : ModesEnv) (enable : bool) (change : ModeChange) (w : Conn) : Conn * option StartRequest :=
  let w :=
    if negb enable && m_tunRestoreHeld w then
      let w := set_m_tunRestoreHeld false w in
      let w := if changeSave change then set_remember_tun false w else w in
      emit EffStatusChanged w
    else w in
  if Bool.eqb enable (spmode_vpn w) then (w, None)
  else if enable && tunBlocked env w then (emit EffStatusChanged w, None)
  else if enable && (negb (privileged env) || capsBlocker env true) && negb (ensureTunPrivileges env (changeInteractive change))
  then (emit EffStatusChanged w, None)
  else
    let w := set_m_tunRestoreHeld false w in
    let w := if changeSave change then set_remember_tun enable w else w in
    let w := emit EffStatusChanged (set_spmode_vpn enable w) in
    if negb (changeRestart change) || (started_id w <? 0) then (w, None)
    else (w, Some (MkRequest (started_id w) (changeInteractive change) (restartSerial change) false)).

(** setSystemProxy up to and after the restart it asks for. *)
Definition setProxyMode (env : ModesEnv) (enable : bool) (change : ModeChange) (w : Conn) : option (Conn * option StartRequest) :=
  if negb (systemProxyOption env) then None
  else if enable && disable_mixed_inbound env then None
  else
    let w := set_spmode_system_proxy enable w in
    Some (match m_running w with
          | Some id =>
              let w := emit (EffSystemProxy enable) w in
              if negb enable && reset_proxy_on_disable_sp env && changeRestart change
              then (w, Some (MkRequest id (changeInteractive change) (restartSerial change) false))
              else (w, None)
          | None => (w, None)
          end).
Definition rememberProxy (enable : bool) (change : ModeChange) (w : Conn) : Conn :=
  emit EffStatusChanged (if changeSave change then set_remember_system_proxy enable w else w).
Definition proxyRefused (env : ModesEnv) (enable : bool) (w : Conn) : Conn :=
  if enable then emit EffStatusChanged w else w.

(** ** Starting *)

(** What a start reads: the profile and its group, the provider's wish for Tun,
    the direct DNS, the kill switch, the core and the built config. *)
Record StartEnv := MkEnv {
  modes : ModesEnv;
  profileExists : bool;
  groupUsable : bool;
  policyTun : option bool;
  dnsAuto : bool;
  serverIsAddress : bool;
  guarding : Guarding;
  allowsStart : bool;
  unguardedCore : bool;
  haveCore : bool;
  ranksFirst : bool;
  builds : bool;
  buildsTun : bool;
  awaitingCoreStarted : bool;
  canStartCore : bool }.

Definition applyProviderPolicy (env : StartEnv) (interactive : bool) (w : Conn) : Conn :=
  if m_applyingProviderPolicy w then w
  else match policyTun env with
       | Some on =>
           if Bool.eqb on (spmode_vpn w) then w
           else
             let w := set_m_applyingProviderPolicy true w in
             set_m_applyingProviderPolicy false (fst (setTunMode (modes env) on (MkChange true interactive false 0) w))
       | None => w
       end.

(** Answers, and tells whoever asked unattended through the log. *)
Definition failStart (r : StartRequest) (o : StartOutcome) (w : Conn) : Conn := answer r o w.

Definition deferStartForDns (env : StartEnv) (r : StartRequest) (w : Conn) : bool * Conn :=
  if negb (dnsAuto env) then (false, w)
  else if m_dnsSelect w then (true, failStart r Busy w)
  else if serverIsAddress env then (false, w)
  else
    let next := MkRequest (profileId r) (interactive r) (serial r) true in
    (true, emit EffDnsSelect (set_dnsPending (dnsPending w ++ [next]) (set_m_dnsSelect true w))).

(** The last part of a start: the locks, the core, the worker. *)
Definition launch (env : StartEnv) (r : StartRequest) (w : Conn) : Conn :=
  if mu_starting w then failStart r Busy w
  else if mu_stopping w then failStart r Busy w
  else if awaitingCoreStarted env then emit (EffSetStartWhenUp (profileId r)) (deferStartToCore r w)
  else if negb (core_running w) then
    if negb (canStartCore env) then failStart r CoreUnavailable w
    else emit (EffRestartNotListening (profileId r)) (deferStartToCore r w)
  else
    let w := set_mu_starting true w in
    let w := emit EffBusyChanged (syncState (set_m_profileConnecting true w)) in
    set_starter (Some (MkStarter AtBegin r false (buildsTun env))) w.

(** From the kill switch on. *)
Definition dispatch (env : StartEnv) (r : StartRequest) (w : Conn) : Conn :=
  if bool_decide (guarding env = KsArming) then
    let queued := 0 <=? profileId (m_killSwitchDeferredStart w) in
    let w := if queued then answer (m_killSwitchDeferredStart w) Superseded w else w in
    let w := set_m_killSwitchDeferredStart r w in
    if queued then w else set_settledWaiters (S (settledWaiters w)) w
  else if negb (allowsStart env) then answer r KillSwitchInactive w
  else if guardRestartPending w || (bool_decide (guarding env = KsArmed) && unguardedCore env)
  then restartCoreForGuard (haveCore env) r w
  else if ranksFirst env then set_rankPending (rankPending w ++ [r]) w
  else if negb (builds env) then failStart r BuildFailed w
  else launch env r w.

Definition start (env : StartEnv) (r : StartRequest) (w : Conn) : Conn :=
  let w := set_m_geoRetryToken (m_geoRetryToken w + 1) w in
  if prepare_exit w then answer r Exiting w
  else if (profileId r <? 0) || negb (profileExists env) then answer r NotFound w
  else
    let w := emit (EffDispatching (serial r) (profileId r)) (set_m_lastProfileId (profileId r) w) in
    if negb (groupUsable env) then answer r GroupUnavailable w
    else
      let w := applyProviderPolicy env (interactive r) w in
      let '(deferred, w) := if dnsChecked r then (false, w) else deferStartForDns env r w in
      if deferred then w else dispatch env r w.

Definition startSome (env : StartEnv) (r : option StartRequest) (w : Conn) : Conn :=
  match r with Some r => start env r w | None => w end.

(** The kill switch settled: the deferred start goes on. *)
Definition onSettled (env : StartEnv) (w : Conn) : Conn :=
  match settledWaiters w with
  | O => w
  | S n =>
      let next := m_killSwitchDeferredStart w in
      let w := set_settledWaiters n (set_m_killSwitchDeferredStart noRequest w) in
      if 0 <=? profileId next then start env next w else w
  end.

(** The search for a working DNS server ended. *)
Definition onDnsSelected (env : StartEnv) (found : bool) (w : Conn) : Conn :=
  match dnsPending w with
  | [] => w
  | next :: rest =>
      let w := set_dnsPending rest w in
      if negb found && spmode_vpn w then emit EffStatusChanged (answer next StartFailed w) else start env next w
  end.

(** The ranking of a selector ended, or found enough. *)
Definition onRanked (env : StartEnv) (k : nat) (w : Conn) : Conn :=
  match rankPending w !! k with
  | Some r => start env r (set_rankPending (delete k (rankPending w)) w)
  | None => w
  end.

Definition setTun (env : StartEnv) (enable : bool) (change : ModeChange) (w : Conn) : Conn :=
  let '(w, r) := setTunMode (modes env) enable change w in startSome env r w.

Definition setSystemProxy (env : StartEnv) (enable : bool) (change : ModeChange) (w : Conn) : Conn :=
  match setProxyMode (modes env) enable change w with
  | None => proxyRefused (modes env) enable w
  | Some (w, r) => rememberProxy enable change (startSome env r w)
  end.

(** [groupRoute]: the running profile's group has a route of its own. *)
Definition chooseRoute (env : StartEnv) (changed groupRoute interactive : bool) (serial : Z) (w : Conn) : Conn :=
  if negb changed || (started_id w <? 0) then w
  else if bool_decide (is_Some (m_running w)) && groupRoute then w
  else start env (MkRequest (started_id w) interactive serial false) w.

Definition restartStartedProfile (env : StartEnv) (interactive : bool) (serial : Z) (w : Conn) : Conn :=
  if started_id w <? 0 then w else start env (MkRequest (started_id w) interactive serial false) w.

Definition applyPendingRestart (env : StartEnv) (w : Conn) : Conn :=
  let id := started_id w in
  let w := clearRestartNeeded w in
  if 0 <=? id then start env (plainRequest id) w else w.

Definition retryAfterGeoFetch (env : StartEnv) (id token : Z) (w : Conn) : Conn :=
  if negb (token =? m_geoRetryToken w) then w
  else if prepare_exit w || negb (bool_decide (connectionState w = Idle)) || negb (m_lastProfileId w =? id) then w
  else if m_geoRetriedProfile w =? id then w
  else start env (MkRequest id false 0 false) (set_m_geoRetriedProfile id w).

(** ** Stopping *)

(** The part of [stop] after its snapshot of the running profile. *)
Definition stopLock (onMain : bool) (id : Z) (o : StopOptions) (w : Conn) : Conn :=
  if mu_stopping w then w
  else
    let w := set_mu_stopping true w in
    let w := if onMain then emit EffBusyChanged (syncState (set_m_profileDisconnecting true w)) else queue UiDisconnecting w in
    set_stopper (Some (MkStopper StopBegin id o)) w.

Definition noteManual (o : StopOptions) (w : Conn) : Conn :=
  if manual o then set_m_geoRetryToken (m_geoRetryToken w + 1) w else w.
Definition cancelResume (w : Conn) : Conn := emit EffCancelResume (set_started_id (-1) w).

(** A stop asked for on the main thread. *)
Definition stop (o : StopOptions) (w : Conn) : Conn :=
  let w := noteManual o w in
  match m_running w with
  | None => if manual o && negb (crash o) then cancelResume w else w
  | Some id => stopLock true id o w
  end.

(** The stop a switch runs on its own worker. *)
Definition switchStop : StopOptions := MkStop false true.

(** The worker of a stop; [ok] is the answer of its RPC. *)
Definition stopperStep (ok : bool) (w : Conn) : Conn :=
  match stopper w with
  | None => w
  | Some t =>
      let at_ s := Some (MkStopper s (t_id t) (t_options t)) in
      let proxyOff w := if spmode_system_proxy w then emit (EffSystemProxy false) w else w in
      match t_step t with
      | StopBegin =>
          if crash (t_options t) then set_stopper (at_ StopClear) (proxyOff w)
          else set_stopper (at_ StopRpc) (emit EffRpcStop w)
      | StopRpc => set_stopper (at_ StopClear) (if ok then proxyOff w else w)
      | StopClear =>
          let w := if manual (t_options t) then set_started_id (-1) w else w in
          queue UiStopTimer (set_stopper (at_ StopAwaitUi) (setRunning None false w))
      | StopAwaitUi | StopReady => w
      end
  end.

(** Its last part, on the main thread. *)
Definition stopDone (w : Conn) : Conn :=
  match stopper w with
  | Some (MkStopper StopReady id _) =>
      let w := if m_switchingProfile w then w else emit EffMarkStopped w in
      let w := clearRestartNeeded (set_m_profileDisconnecting false w) in
      let w := emit EffStatusChanged (syncState w) in
      emit (EffStopFinished id) (set_stopper None (set_mu_stopping false w))
  | _ => w
  end.

(** ** The worker of a start *)

Section Starter.
Context (foldCase : Z -> Z).

(** What the second stage meets: the extra core's permission, the RPC, its error
    text, and whether the error is one of missing geo data. *)
Record Stage2 := MkStage2 { permitted : bool; rpcOK : bool; error : qstring; geoHandled : bool }.

Definition startError (x : Stage2) : option StartOutcome :=
  if negb (rpcOK x) then Some CoreUnavailable
  else if isEmpty (error x) then None
  else if geoHandled x then Some GeoAssetsMissing
  else if containsCI foldCase (qs "Fwpm") (error x) then Some StrictRouteUnavailable
  else if containsStr (qs "configure tun interface") (error x) then Some TunFailed
  else Some StartFailed.

(** What an interactive start offers after a Tun failure. *)
Definition offers (r : StartRequest) (o : StartOutcome) (x : Stage2) (w : Conn) : Conn :=
  if bool_decide (o = TunFailed) && interactive r then
    if containsStr (qs "open existing adapter") (error x) then queue (UiAdapterRetry (profileId r)) w else queue UiOfferReset w
  else w.

Definition starterStep (x : Stage2) (w : Conn) : Conn :=
  match starter w with
  | None => w
  | Some s =>
      let r := s_request s in
      let at_ step w := set_starter (Some (MkStarter step r (s_switching s) (s_tun s))) w in
      match s_step s with
      | AtBegin =>
          match m_running w with
          | Some _ => set_starter (Some (MkStarter AtStopCheck r true (s_tun s))) (set_m_switchingProfile true w)
          | None => at_ AtStage2 w
          end
      | AtStopCheck =>
          let w := noteManual switchStop w in
          match m_running w with
          | Some id => at_ (AtStopLock id) w
          | None => at_ AtWait (queue UiCancelResume w)
          end
      | AtStopLock id => at_ AtWait (stopLock false id switchStop w)
      | AtWait => if mu_stopping w then w else at_ AtStage2 (set_m_switchingProfile false w)
      | AtStage2 =>
          if negb (permitted x) then at_ (AtUnlock false) (queue (UiFinish r ExtraCoreBlocked) w)
          else at_ AtRpc (emit (EffRpcStart (profileId r)) w)
      | AtRpc =>
          match startError x with
          | Some o => at_ (AtUnlock false) (offers r o x (queue (UiFinish r o) w))
          | None =>
              let w := setRunning (Some (profileId r)) (s_tun s) (set_started_id (profileId r) w) in
              let w := if spmode_system_proxy w then emit (EffSystemProxy true) w else w in
              at_ (AtUnlock true) (queue (UiStarted r) w)
          end
      | AtUnlock started =>
          set_leaving (leaving w ++ [(started, s_switching s)]) (set_starter None (set_mu_starting false w))
      end
  end.
End Starter.

(** A worker that gave the lock back queues its end. *)
Definition starterLeaves (k : nat) (w : Conn) : Conn :=
  match leaving w !! k with
  | Some (started, switching) => queue (UiStartDone started switching) (set_leaving (delete k (leaving w)) w)
  | None => w
  end.

(** A queued call runs; [accept] is the answer of the dialog it shows. *)
Definition runUi (env : StartEnv) (accept : bool) (t : UiTask) (w : Conn) : Conn :=
  match t with
  | UiFinish r o => answer r o w
  | UiStarted r => answer r Started (emit EffStatusChanged (clearRestartNeeded (set_m_geoRetriedProfile (-1) w)))
  | UiDisconnecting => emit EffBusyChanged (syncState (set_m_profileDisconnecting true w))
  | UiCancelResume => cancelResume w
  | UiStopTimer =>
      match stopper w with
      | Some (MkStopper StopAwaitUi id o) => set_stopper (Some (MkStopper StopReady id o)) w
      | _ => w
      end
  | UiStartDone started switching =>
      let w := emit EffBusyChanged (syncState (set_m_profileConnecting false w)) in
      if started then emit (EffMarkStarted switching) w else if switching then emit EffMarkStopped w else w
  | UiAdapterRetry id =>
      if negb accept then w
      else if prepare_exit w || negb (bool_decide (connectionState w = Idle)) then w
      else start env (plainRequest id) w
  | UiOfferReset => if accept then emit EffResetCore w else w
  end.

(** ** The core and the kill switch *)

Record CoreEnv := MkCore {
  headless : bool;
  tunRequired : bool;
  resumesModes : bool;
  guardFailedForPrivileges : bool }.

Definition restoreModes (core : CoreEnv) (env : StartEnv) (w : Conn) : Conn :=
  if headless core then
    let wantTun := remember_tun w || flag_restart_tun_on w in
    let w := if wantTun then set_flag_restart_tun_on false (fst (setTunMode (modes env) true (MkChange false false false 0) w)) else w in
    set_m_tunRestoreHeld (tunRequired core && wantTun && negb (spmode_vpn w)) w
  else
    let w := if resumesModes core && remember_system_proxy w then
               match setProxyMode (modes env) true (MkChange false true false 0) w with
               | None => proxyRefused (modes env) true w
               | Some (w, _) => rememberProxy true (MkChange false true false 0) w
               end
             else w in
    if (resumesModes core && remember_tun w) || flag_restart_tun_on w then
      set_flag_restart_tun_on false
        (fst (setTunMode (modes env) true (MkChange (flag_restart_tun_on w) true false 0) w))
    else w.

Definition onCoreStarted (core : CoreEnv) (env : StartEnv) (id : Z) (w : Conn) : Conn :=
  let w := set_m_guardCoreRestart None w in
  let w := if guardFailedForPrivileges core then emit EffKillSwitchApply w else w in
  let w := restoreModes core env w in
  let request := m_coreStartRequest w in
  let bootSerial := m_bootSerial w in
  let w := set_m_bootSerial 0 (set_m_coreStartRequest noRequest w) in
  let w := if (0 <=? profileId request) && negb (profileId request =? id) then answer request Superseded w else w in
  let w :=
    if 0 <=? id then
      let next := if profileId request =? id then request else plainRequest id in
      if m_tunRestoreHeld w && negb (serial next =? 0) && (serial next =? bootSerial) then answer next TunFailed w
      else start env next w
    else w in
  emit EffStatusChanged w.

Definition onCoreGaveUp (w : Conn) : Conn :=
  let request := m_coreStartRequest w in
  let w := set_m_coreStartRequest noRequest (set_m_guardCoreRestart None w) in
  if 0 <=? profileId request then answer request CoreUnavailable w else w.

(** [startWhenUp] is what the supervisor holds for the core that is coming up. *)
Definition onKillSwitchStateChanged (env : StartEnv) (startWhenUp : Z) (w : Conn) : Conn :=
  let failed := bool_decide (guarding env = KsFailed) in
  let armed := bool_decide (guarding env = KsArmed) in
  let enteredArmed := armed && negb (m_killSwitchWasArmed w) in
  let w := emit EffStatusChanged (set_m_killSwitchWasArmed armed (set_m_killSwitchWasFailed failed w)) in
  if enteredArmed && negb (guardRestartPending w) && unguardedCore env then
    if awaitingCoreStarted env && (0 <=? startWhenUp) then
      let request := m_coreStartRequest w in
      if 0 <=? profileId request then restartCoreForGuard (haveCore env) request (set_m_coreStartRequest noRequest w)
      else restartCoreForGuard (haveCore env) (plainRequest startWhenUp) w
    else restartCoreForGuard (haveCore env) (plainRequest (started_id w)) w
  else w.

Definition resolveLastProfile (exists_ : Z -> bool) (rememberId : Z) (w : Conn) : Z :=
  default (-1) (head (List.filter (fun id => (0 <=? id) && exists_ id) [started_id w; m_lastProfileId w; rememberId])).

(** ** Runs *)

Inductive ConnEvent :=
| EvStart (env : StartEnv) (r : StartRequest)
| EvSetBootStart (r : StartRequest)
| EvStop (o : StopOptions)
| EvSettled (env : StartEnv)
| EvDnsSelected (env : StartEnv) (found : bool)
| EvDnsDeleted
| EvRanked (env : StartEnv) (k : nat)
| EvSetTun (env : StartEnv) (enable : bool) (change : ModeChange)
| EvSetSystemProxy (env : StartEnv) (enable : bool) (change : ModeChange)
| EvChooseRoute (env : StartEnv) (changed groupRoute interactive : bool) (serial : Z)
| EvRestartStarted (env : StartEnv) (interactive : bool) (serial : Z)
| EvApplyRestart (env : StartEnv)
| EvNoteRestart (reason : RestartReason)
| EvGeoInstalled (env : StartEnv) (id token : Z)
| EvStarter (x : Stage2)
| EvStarterLeaves (k : nat)
| EvStopper (ok : bool)
| EvStopDone
| EvUi (env : StartEnv) (accept : bool)
| EvCoreStarted (core : CoreEnv) (env : StartEnv) (id : Z)
| EvCoreGaveUp
| EvCoreRunning (on : bool)
| EvKillSwitch (env : StartEnv) (startWhenUp : Z)
| EvExiting
| EvClock (now : Z).

Section Run.
Context (foldCase : Z -> Z).

Definition connStep (w : Conn) (e : ConnEvent) : Conn :=
  match e with
  | EvStart env r => start env r w
  | EvSetBootStart r => setBootStart r w
  | EvStop o => stop o w
  | EvSettled env => onSettled env w
  | EvDnsSelected env found => onDnsSelected env found w
  | EvDnsDeleted => if isEmpty (dnsPending w) then set_m_dnsSelect false w else w
  | EvRanked env k => onRanked env k w
  | EvSetTun env enable change => setTun env enable change w
  | EvSetSystemProxy env enable change => setSystemProxy env enable change w
  | EvChooseRoute env changed groupRoute interactive serial => chooseRoute env changed groupRoute interactive serial w
  | EvRestartStarted env interactive serial => restartStartedProfile env interactive serial w
  | EvApplyRestart env => applyPendingRestart env w
  | EvNoteRestart reason => noteRestartNeeded reason w
  | EvGeoInstalled env id token => retryAfterGeoFetch env id token w
  | EvStarter x => starterStep foldCase x w
  | EvStarterLeaves k => starterLeaves k w
  | EvStopper ok => stopperStep ok w
  | EvStopDone => stopDone w
  | EvUi env accept => match ui w with [] => w | t :: ts => runUi env accept t (set_ui ts w) end
  | EvCoreStarted core env id => onCoreStarted core env id w
  | EvCoreGaveUp => onCoreGaveUp w
  | EvCoreRunning on => set_core_running on w
  | EvKillSwitch env startWhenUp => onKillSwitchStateChanged env startWhenUp w
  | EvExiting => set_prepare_exit true w
  | EvClock now => set_clock now w
  end.

Definition connRun (w : Conn) (evs : list ConnEvent) : Conn := fold_left connStep evs w.
End Run.

Definition newConn (rememberId startedId : Z) : Conn :=
  MkConn rememberId false false Idle noRequest 0 noRequest None false false 0 false false (-1) 0 [] false [] [] None false
    false false false None [] None [] startedId false false false false false false false 0 [] [].

(** ** What the modes leave alone *)

(** The part of the manager its threads share. *)
Definition shared (w : Conn) :=
  (answered w, m_killSwitchDeferredStart w, m_coreStartRequest w, dnsPending w, rankPending w, mu_starting w, mu_stopping w,
   m_running w, starter w, leaving w, stopper w, ui w, (m_profileConnecting w, m_profileDisconnecting w, m_lastConnectionState w)).

Definition quiet (w w' : Conn) : Prop := shared w' = shared w.

#[export] Instance quiet_preorder : PreOrder quiet.
Proof. split; [done|]. intros w1 w2 w3 H1 H2. unfold quiet in *. congruence. Qed.

Ltac tests := repeat match goal with |- context [if ?b then _ else _] => destruct b end.

Lemma quiet_clearRestartNeeded w : quiet w (clearRestartNeeded w).
Proof. unfold clearRestartNeeded. by destruct (m_restartReasons w). Qed.
Lemma quiet_noteRestartNeeded reason w : quiet w (noteRestartNeeded reason w).
Proof. unfold noteRestartNeeded. by tests. Qed.
Lemma quiet_setTunMode env enable change w : quiet w (fst (setTunMode env enable change w)).
Proof. unfold setTunMode. cbv zeta. by tests. Qed.
Lemma quiet_setProxyMode env enable change w w' r : setProxyMode env enable change w = Some (w', r) -> quiet w w'.
Proof.
  unfold setProxyMode. destruct (negb _); [done|]. destruct (_ && _); [done|]. cbv zeta. intros [= E].
  destruct (m_running _); [case_tests_in E|]; by injection E as <- <-.
Qed.
Lemma quiet_rememberProxy enable change w : quiet w (rememberProxy enable change w).
Proof. unfold rememberProxy. by tests. Qed.
Lemma quiet_proxyRefused env enable w : quiet w (proxyRefused env enable w).
Proof. unfold proxyRefused. by tests. Qed.
Lemma quiet_applyProviderPolicy env i w : quiet w (applyProviderPolicy env i w).
Proof.
  unfold applyProviderPolicy. destruct (m_applyingProviderPolicy w); [done|]. destruct (policyTun env) as [on|]; [|done].
  destruct (Bool.eqb _ _); [done|].
  exact (quiet_setTunMode (modes env) on (MkChange true i false 0) (set_m_applyingProviderPolicy true w)).
Qed.

Lemma quiet_restoreModes core env w : quiet w (restoreModes core env w).
Proof.
  unfold restoreModes. destruct (headless core); cbv zeta.
  { destruct (_ || _); [|done]. exact (quiet_setTunMode (modes env) true (MkChange false false false 0) w). }
  set (w1 := if _ && _ then _ else w). assert (quiet w w1) as H.
  { unfold w1. destruct (_ && _); [|done]. destruct (setProxyMode _ _ _ _) as [[u r]|] eqn:E.
    - etrans; [exact (quiet_setProxyMode _ _ _ _ _ _ E)|apply quiet_rememberProxy].
    - apply quiet_proxyRefused. }
  clearbody w1. destruct (_ || _); [|done]. etrans; [exact H|].
  exact (quiet_setTunMode (modes env) true (MkChange (flag_restart_tun_on w1) true false 0) w1).
Qed.
