(* ===== verification/ConnectionPhases.v ===== *)
(** * The phases of a connection

    The life of the two workers of ConnectionManager.v without the requests they
    carry: [PhaseStep] is the specification of how they take turns, and every
    event of the manager is one of its steps or none. What holds of all its
    reachable states is proved by rule induction and carried over. *)

From S2P Require Import Prelude QtText ConnectionManager.

#[local] Set Warnings "-register-all,-clear-no-such-hyp".

(** ** The specification *)

Inductive StartPhase := PhBegin | PhStopCheck | PhStopLock | PhWait | PhStage2 | PhRpc | PhUnlock.
#[export] Instance StartPhase_eq_dec : EqDecision StartPhase.
Proof. solve_decision. Defined.
#[export] Instance StopperStep_eq_dec : EqDecision StopperStep.
Proof. solve_decision. Defined.

(** The queued calls that matter to the phases. *)
Inductive PhaseTask := TaskDisconnecting | TaskStopTimer | TaskStartDone.
#[export] Instance PhaseTask_eq_dec : EqDecision PhaseTask.
Proof. solve_decision. Defined.

Record Phases := MkPhases {
  p_start : option StartPhase;
  p_stop : option StopperStep;
  p_running : bool;
  p_leaving : nat;
  p_tasks : list PhaseTask;
  p_connecting : bool;
  p_disconnecting : bool;
  p_last : ConnectionState }.

Definition stateOf (connecting disconnecting running : bool) : ConnectionState :=
  if connecting then Connecting else if disconnecting then Stopping else if running then Running else Idle.

Definition idlePhases : Phases := MkPhases None None false 0 [] false false Idle.

Inductive PhaseStep : Phases -> Phases -> Prop :=
| StepLaunch run lv ts c d l :
    PhaseStep (MkPhases None None run lv ts c d l) (MkPhases (Some PhBegin) None run lv ts true d Connecting)
| StepStop st lv ts c d l :
    PhaseStep (MkPhases st None true lv ts c d l) (MkPhases st (Some StopBegin) true lv ts c true (stateOf c true true))
| StepBegin sp run lv ts c d l :
    PhaseStep (MkPhases (Some PhBegin) sp run lv ts c d l)
              (MkPhases (Some (if run then PhStopCheck else PhStage2)) sp run lv ts c d l)
| StepCheck sp run lv ts c d l :
    PhaseStep (MkPhases (Some PhStopCheck) sp run lv ts c d l)
              (MkPhases (Some (if run then PhStopLock else PhWait)) sp run lv ts c d l)
| StepLock run lv ts c d l :
    PhaseStep (MkPhases (Some PhStopLock) None run lv ts c d l)
              (MkPhases (Some PhWait) (Some StopBegin) run lv (ts ++ [TaskDisconnecting]) c d l)
| StepLocked s run lv ts c d l :
    PhaseStep (MkPhases (Some PhStopLock) (Some s) run lv ts c d l) (MkPhases (Some PhWait) (Some s) run lv ts c d l)
| StepWait run lv ts c d l :
    PhaseStep (MkPhases (Some PhWait) None run lv ts c d l) (MkPhases (Some PhStage2) None run lv ts c d l)
| StepStage2 sp run lv ts c d l (refused : bool) :
    PhaseStep (MkPhases (Some PhStage2) sp run lv ts c d l)
              (MkPhases (Some (if refused then PhUnlock else PhRpc)) sp run lv ts c d l)
| StepRpc sp run lv ts c d l (ok : bool) :
    PhaseStep (MkPhases (Some PhRpc) sp run lv ts c d l) (MkPhases (Some PhUnlock) sp (ok || run) lv ts c d l)
| StepUnlock sp run lv ts c d l :
    PhaseStep (MkPhases (Some PhUnlock) sp run lv ts c d l) (MkPhases None sp run (S lv) ts c d l)
| StepLeave st sp run lv ts c d l :
    PhaseStep (MkPhases st sp run (S lv) ts c d l) (MkPhases st sp run lv (ts ++ [TaskStartDone]) c d l)
| StepStopBegin st run lv ts c d l (crash : bool) :
    PhaseStep (MkPhases st (Some StopBegin) run lv ts c d l)
              (MkPhases st (Some (if crash then StopClear else StopRpc)) run lv ts c d l)
| StepStopRpc st run lv ts c d l :
    PhaseStep (MkPhases st (Some StopRpc) run lv ts c d l) (MkPhases st (Some StopClear) run lv ts c d l)
| StepStopClear st run lv ts c d l :
    PhaseStep (MkPhases st (Some StopClear) run lv ts c d l)
              (MkPhases st (Some StopAwaitUi) false lv (ts ++ [TaskStopTimer]) c d l)
| StepDisconnecting st sp run lv ts c d l :
    PhaseStep (MkPhases st sp run lv (TaskDisconnecting :: ts) c d l) (MkPhases st sp run lv ts c true (stateOf c true run))
| StepStopTimer st sp run lv ts c d l :
    PhaseStep (MkPhases st sp run lv (TaskStopTimer :: ts) c d l)
              (MkPhases st (if decide (sp = Some StopAwaitUi) then Some StopReady else sp) run lv ts c d l)
| StepStartDone st sp run lv ts c d l :
    PhaseStep (MkPhases st sp run lv (TaskStartDone :: ts) c d l)
              (MkPhases st sp run lv ts false d (stateOf false d run))
| StepStopDone st run lv ts c d l :
    PhaseStep (MkPhases st (Some StopReady) run lv ts c d l) (MkPhases st None run lv ts c false (stateOf c false run)).

(** ** What holds of every reachable phase *)

(** A stop worker that has not cleared the running profile, and one that has. *)
Definition tearing (sp : option StopperStep) : bool :=
  match sp with Some StopBegin | Some StopRpc | Some StopClear => true | _ => false end.
Definition cleared (sp : option StopperStep) : bool :=
  match sp with Some StopAwaitUi | Some StopReady => true | _ => false end.
(** A start worker past its wait, before the core's answer. *)
Definition committed (st : option StartPhase) : bool :=
  match st with Some PhStage2 | Some PhRpc => true | _ => false end.
Definition starting (st : option StartPhase) : bool :=
  match st with None | Some PhUnlock => false | _ => true end.
Definition waiting (st : option StartPhase) : bool := bool_decide (st = Some PhWait).

(** A committed start runs alone; a start that waits for no stop finds nothing
    running; what a stop has cleared stays so until a start commits; and a stop
    has something to clear, unless a switch asked for it. *)
Definition workersOk (st : option StartPhase) (sp : option StopperStep) (run : bool) : bool :=
  implb (committed st) (negb run && negb (tearing sp)) && implb (waiting st && negb (tearing sp)) (negb run) &&
  implb (starting st && cleared sp) (negb run) && implb (tearing sp) (run || waiting st).

(** The queued calls of a stop, in their order. *)
Definition stopTasks (ts : list PhaseTask) : list PhaseTask :=
  List.filter (fun t => match t with TaskStartDone => false | _ => true end) ts.
Definition tasksOk (sp : option StopperStep) (ts : list PhaseTask) : bool :=
  match sp, ts with
  | (None | Some StopReady), [] => true
  | Some StopAwaitUi, ([TaskStopTimer] | [TaskDisconnecting; TaskStopTimer]) => true
  | Some (StopBegin | StopRpc | StopClear), ([] | [TaskDisconnecting]) => true
  | _, _ => false
  end.

(** The end of a start is still to come. *)
Definition ending (p : Phases) : Prop := p_start p <> None \/ p_leaving p <> 0 \/ TaskStartDone ∈ p_tasks p.

Record PhaseInv (p : Phases) : Prop := {
  inv_workers : workersOk (p_start p) (p_stop p) (p_running p) = true;
  inv_tasks : tasksOk (p_stop p) (stopTasks (p_tasks p)) = true;
  inv_connecting : p_connecting p = true -> ending p;
  inv_disconnecting : p_disconnecting p = true -> p_stop p <> None;
  inv_last : p_last p = stateOf (p_connecting p) (p_disconnecting p) (p_running p) \/ p_stop p <> None \/ ending p }.

Lemma workersOk_step p p' : PhaseStep p p' ->
  workersOk (p_start p) (p_stop p) (p_running p) = true -> workersOk (p_start p') (p_stop p') (p_running p') = true.
Proof.
  intros Hs. inversion Hs; subst; cbn [p_start p_stop p_running];
    repeat match goal with
           | x : option StartPhase |- _ => destruct x as [[]|]
           | x : option StopperStep |- _ => destruct x as [[]|]
           | x : StopperStep |- _ => destruct x
           | x : bool |- _ => destruct x
           end; done.
Qed.

Lemma stopTasks_app ts1 ts2 : stopTasks (ts1 ++ ts2) = stopTasks ts1 ++ stopTasks ts2.
Proof. apply List.filter_app. Qed.

Lemma tasks_step p p' : PhaseStep p p' ->
  tasksOk (p_stop p) (stopTasks (p_tasks p)) = true -> tasksOk (p_stop p') (stopTasks (p_tasks p')) = true.
Proof.
  intros Hs. inversion Hs; subst; cbn [p_stop p_tasks]; rewrite ?stopTasks_app; try done;
    change (stopTasks [TaskDisconnecting]) with [TaskDisconnecting]; change (stopTasks [TaskStopTimer]) with [TaskStopTimer];
    change (stopTasks [TaskStartDone]) with (@nil PhaseTask); rewrite ?app_nil_r; try done;
    try change (stopTasks (TaskDisconnecting :: ts)) with (TaskDisconnecting :: stopTasks ts);
    try change (stopTasks (TaskStopTimer :: ts)) with (TaskStopTimer :: stopTasks ts);
    generalize (stopTasks ts); intros us;
    repeat match goal with
           | x : bool |- _ => destruct x
           | x : option StopperStep |- _ => destruct x as [[]|]
           end; destruct us as [|[] [|[] [|? ?]]]; done.
Qed.

Definition synced (p : Phases) : Prop := p_last p = stateOf (p_connecting p) (p_disconnecting p) (p_running p).

(** An end that came leaves no start on show, and the state told. *)
Lemma ending_kept p p' : PhaseStep p p' -> ending p -> ending p' \/ (p_connecting p' = false /\ synced p').
Proof.
  intros Hs. unfold ending, synced. inversion Hs; subst; cbn [p_start p_stop p_leaving p_tasks p_connecting p_disconnecting p_running p_last];
    rewrite ?elem_of_app, ?elem_of_cons, ?list_elem_of_singleton; naive_solver.
Qed.

Lemma connecting_step p p' : PhaseStep p p' -> p_connecting p' = true -> p_connecting p = true \/ ending p'.
Proof. intros Hs. unfold ending. inversion Hs; subst; cbn; naive_solver. Qed.

Lemma disconnecting_step p p' : PhaseStep p p' -> tasksOk (p_stop p) (stopTasks (p_tasks p)) = true ->
  (p_disconnecting p = true -> p_stop p <> None) -> p_disconnecting p' = true -> p_stop p' <> None.
Proof.
  intros Hs. inversion Hs; subst; cbn [p_stop p_disconnecting p_tasks]; try naive_solver.
  intros _ H Hd. specialize (H Hd). by destruct sp as [[]|].
Qed.

Lemma last_step p p' : PhaseStep p p' -> synced p -> synced p' \/ p_stop p' <> None \/ ending p'.
Proof.
  intros Hs. unfold synced, ending. inversion Hs; subst; cbn [p_start p_stop p_leaving p_tasks p_connecting p_disconnecting p_running p_last]; naive_solver.
Qed.

Lemma stop_step p p' : PhaseStep p p' -> p_stop p <> None -> p_stop p' <> None \/ synced p'.
Proof.
  intros Hs. unfold synced. inversion Hs; subst; cbn [p_start p_stop p_leaving p_tasks p_connecting p_disconnecting p_running p_last];
    try case_decide; naive_solver.
Qed.

Lemma phase_step_inv p p' : PhaseStep p p' -> PhaseInv p -> PhaseInv p'.
Proof.
  intros Hs [Hw Ht Hc Hd Hl]. split.
  - by eapply workersOk_step.
  - by eapply tasks_step.
  - intros H. destruct (connecting_step _ _ Hs H) as [H0|H0]; [|done]. destruct (ending_kept _ _ Hs (Hc H0)) as [?|[? _]]; congruence.
  - by eapply disconnecting_step.
  - destruct Hl as [Hl|[Hl|Hl]].
    + by apply (last_step _ _ Hs).
    + destruct (stop_step _ _ Hs Hl); auto.
    + destruct (ending_kept _ _ Hs Hl) as [?|[_ ?]]; auto.
Qed.

Lemma idlePhases_inv : PhaseInv idlePhases.
Proof. split; cbn; try done. by left. Qed.

(** ** The manager follows the specification *)

Definition phaseOf (s : StarterStep) : StartPhase :=
  match s with
  | AtBegin => PhBegin | AtStopCheck => PhStopCheck | AtStopLock _ => PhStopLock | AtWait => PhWait
  | AtStage2 => PhStage2 | AtRpc => PhRpc | AtUnlock _ => PhUnlock
  end.

Definition taskOf (t : UiTask) : option PhaseTask :=
  match t with
  | UiDisconnecting => Some TaskDisconnecting | UiStopTimer => Some TaskStopTimer | UiStartDone _ _ => Some TaskStartDone
  | _ => None
  end.

Definition present {A} (x : option A) : bool := match x with Some _ => true | None => false end.

Definition phasesOf (w : Conn) : Phases :=
  MkPhases ((fun s => phaseOf (s_step s)) <$> starter w) (t_step <$> stopper w) (present (m_running w)) (length (leaving w))
    (omap taskOf (ui w)) (m_profileConnecting w) (m_profileDisconnecting w) (m_lastConnectionState w).

(** A lock is held exactly while there is a worker to give it back. *)
Definition locked (w : Conn) : Prop := mu_starting w = present (starter w) /\ mu_stopping w = present (stopper w).

(** One step of the specification, or none. *)
Definition advances (w w' : Conn) : Prop := locked w' /\ (phasesOf w' = phasesOf w \/ PhaseStep (phasesOf w) (phasesOf w')).

Definition still (w w' : Conn) : Prop :=
  mu_starting w' = mu_starting w /\ mu_stopping w' = mu_stopping w /\ phasesOf w' = phasesOf w.

#[export] Instance still_preorder : PreOrder still.
Proof. split; [done|]. intros w1 w2 w3 (? & ? & ?) (? & ? & ?). split_and!; congruence. Qed.

Lemma still_quiet w w' : quiet w w' -> still w w'.
Proof. unfold quiet, shared, still, phasesOf. by intros [= _ _ _ _ _ -> -> -> -> -> -> -> -> -> ->]. Qed.

Lemma present_fmap {A B} (f : A -> B) x : present (f <$> x) = present x.
Proof. by destruct x. Qed.

Lemma locked_phases w : locked w <-> mu_starting w = present (p_start (phasesOf w)) /\ mu_stopping w = present (p_stop (phasesOf w)).
Proof. unfold locked. cbn. by rewrite !present_fmap. Qed.

Lemma locked_still w w' : still w w' -> locked w -> locked w'.
Proof. rewrite !locked_phases. by intros (-> & -> & ->). Qed.

Lemma advances_still w w' : still w w' -> locked w -> advances w w'.
Proof. intros Hs Hl. split; [by eapply locked_still|]. destruct Hs. tauto. Qed.

Lemma still_advances w w1 w2 : still w w1 -> advances w1 w2 -> advances w w2.
Proof. intros (_ & _ & E) [Hl H]. split; [done|]. by rewrite <- E. Qed.
Lemma advances_stay w w1 w2 : advances w w1 -> still w1 w2 -> advances w w2.
Proof. intros [Hl H] Hs. split; [by eapply locked_still|]. destruct Hs as (_ & _ & E). by rewrite E. Qed.

(** *** Starting *)

Definition resync (p : Phases) : Phases :=
  MkPhases (p_start p) (p_stop p) (p_running p) (p_leaving p) (p_tasks p) (p_connecting p) (p_disconnecting p)
    (stateOf (p_connecting p) (p_disconnecting p) (p_running p)).

Lemma syncState_spec w :
  phasesOf (syncState w) = resync (phasesOf w) /\ mu_starting (syncState w) = mu_starting w /\ mu_stopping (syncState w) = mu_stopping w.
Proof.
  unfold syncState. assert (connectionState w = stateOf (m_profileConnecting w) (m_profileDisconnecting w) (present (m_running w))) as E.
  { unfold connectionState. by destruct (m_running w). }
  cbv zeta. case_bool_decide as Hd; [|split_and!; [|done..]; unfold resync, phasesOf; cbn; by rewrite <- E].
  split_and!; [|done..]. unfold resync, phasesOf. cbn. by rewrite <- E, Hd.
Qed.

Lemma still_deferStartToCore r w : still w (deferStartToCore r w).
Proof. unfold deferStartToCore. by destruct (0 <=? _)%Z. Qed.
Lemma still_restartCoreForGuard have r w : still w (restartCoreForGuard have r w).
Proof.
  unfold restartCoreForGuard. destruct (negb have); [done|]. cbv zeta.
  pose proof (still_deferStartToCore r (emit (EffSetStartWhenUp (profileId r)) w)) as H.
  set (w1 := deferStartToCore _ _) in *. by destruct (guardRestartPending _).
Qed.

Lemma advances_launch env r w : locked w -> advances w (launch env r w).
Proof.
  intros Hl. unfold launch, failStart. destruct Hl as [H1 H2]. pose proof (conj H1 H2 : locked w) as Hl.
  destruct (mu_starting w); [by apply advances_still|]. destruct (mu_stopping w) eqn:Em; [by apply advances_still|].
  destruct (awaitingCoreStarted env); [apply advances_still; [exact (still_deferStartToCore r w)|done]|].
  destruct (negb (core_running w)).
  { destruct (negb (canStartCore env)); apply advances_still; try done. exact (still_deferStartToCore r w). }
  cbv zeta. set (w0 := set_m_profileConnecting true (set_mu_starting true w)).
  destruct (syncState_spec w0) as (E & Es & Et). set (w1 := syncState w0) in *. clearbody w1.
  destruct (starter w) eqn:E1; [done|]. destruct (stopper w) eqn:E2; [done|].
  split; [split; cbn; [exact Es|]|right].
  - rewrite Et. injection E as _ F _ _ _ _ _ _. cbn in F. rewrite E2 in F. destruct (stopper w1); [done|]. exact Em.
  - assert (phasesOf w = MkPhases None None (present (m_running w)) (length (leaving w)) (omap taskOf (ui w))
              (m_profileConnecting w) (m_profileDisconnecting w) (m_lastConnectionState w)) as -> by (unfold phasesOf; by rewrite E1, E2).
    unfold resync in E. cbn in E. injection E as _ F2 F3 F4 F5 F6 F7 F8. unfold phasesOf. cbn.
    rewrite F2, F3, F4, F5, F6, F7, F8, E2. constructor.
Qed.

Lemma advances_dispatch env r w : locked w -> advances w (dispatch env r w).
Proof.
  intros Hl. unfold dispatch, failStart. destruct (bool_decide _).
  { cbv zeta. destruct (0 <=? _)%Z; by apply advances_still. }
  destruct (negb (allowsStart env)); [by apply advances_still|].
  destruct (_ || _); [apply advances_still; [apply still_restartCoreForGuard|done]|].
  destruct (ranksFirst env); [by apply advances_still|].
  destruct (negb (builds env)); [by apply advances_still|]. by apply advances_launch.
Qed.

Lemma advances_start env r w : locked w -> advances w (start env r w).
Proof.
  intros Hl. unfold start. cbv zeta. set (w0 := set_m_geoRetryToken _ w).
  apply (still_advances w w0); [done|]. assert (locked w0) as Hl0 by exact Hl. clearbody w0. clear Hl.
  destruct (prepare_exit w0); [by apply advances_still|]. destruct (_ || _); [by apply advances_still|].
  set (w1 := emit _ _). apply (still_advances w0 w1); [done|]. assert (locked w1) as Hl1 by exact Hl0. clearbody w1. clear Hl0.
  destruct (negb (groupUsable env)); [by apply advances_still|].
  pose proof (still_quiet _ _ (quiet_applyProviderPolicy env (interactive r) w1)) as Hp.
  apply (still_advances w1 _ _ Hp). apply (locked_still _ _ Hp) in Hl1. set (w2 := applyProviderPolicy _ _ _) in *. clearbody w2.
  destruct (dnsChecked r); [by apply advances_dispatch|].
  unfold deferStartForDns, failStart. destruct (negb (dnsAuto env)); [by apply advances_dispatch|].
  destruct (m_dnsSelect w2); [by apply advances_still|].
  destruct (serverIsAddress env); [by apply advances_dispatch|]. by apply advances_still.
Qed.

Lemma advances_after env r w w1 : still w w1 -> locked w -> advances w (start env r w1).
Proof. intros Hs Hl. apply (still_advances w w1 _ Hs). apply advances_start. by eapply locked_still. Qed.

(** *** The workers *)

(** The step from [w], whose workers the equations name. *)
Ltac phase_step :=
  right; unfold phasesOf; cbn [phaseOf s_step t_step present taskOf fmap option_fmap option_map starter stopper m_running leaving ui
    m_profileConnecting m_profileDisconnecting m_lastConnectionState set_starter set_stopper set_m_running set_ui set_leaving
    set_m_switchingProfile queue emit set_emitted setRunning set_m_runningTun set_started_id noteManual switchStop manual
    set_m_geoRetryToken];
  repeat match goal with H : _ = Some _ |- _ => rewrite H | H : _ = None |- _ => rewrite H end;
  rewrite ?omap_app, ?length_app, ?app_nil_r; cbn [phaseOf s_step t_step present fmap option_fmap option_map length omap list_omap taskOf];
  rewrite ?app_nil_r.

Lemma advances_stopLock r sw tun id w : locked w -> starter w = Some (MkStarter (AtStopLock id) r sw tun) ->
  advances w (set_starter (Some (MkStarter AtWait r sw tun)) (stopLock false id switchStop w)).
Proof.
  intros [H1 H2] E. rewrite E in H1. unfold stopLock. destruct (mu_stopping w) eqn:Em, (stopper w) as [[step ? ?]|] eqn:Et; try done.
  - split; [by split; cbn; rewrite ?Em, ?Et|]. phase_step. constructor.
  - split; [by split|]. phase_step. constructor.
Qed.

Lemma advances_starterStep fold x w : locked w -> advances w (starterStep fold x w).
Proof.
  intros [H1 H2]. unfold starterStep. destruct (starter w) as [[step r sw tun]|] eqn:E; [|by apply advances_still; [|split; [rewrite E|]]].
  cbv zeta. cbn [s_step s_request s_switching s_tun]. destruct step.
  - destruct (m_running w) eqn:Er; (split; [by split|]); phase_step; [apply (StepBegin _ true)|apply (StepBegin _ false)].
  - cbn [noteManual manual switchStop]. change (m_running (set_m_geoRetryToken (m_geoRetryToken w + 1)%Z w)) with (m_running w).
    destruct (m_running w) eqn:Er; (split; [by split|]); phase_step; [apply (StepCheck _ true)|apply (StepCheck _ false)].
  - apply (advances_stopLock r sw tun id); [split; [by rewrite E|done]|done].
  - destruct (mu_stopping w) eqn:Em; [by apply advances_still; [|split; [rewrite E|rewrite Em]]|].
    destruct (stopper w) eqn:Et; [done|]. split; [split; cbn; [done|by rewrite Et, Em]|]. phase_step. constructor.
  - destruct (negb (permitted x)); (split; [by split|]); phase_step; [apply (StepStage2 _ _ _ _ _ _ _ true)|apply (StepStage2 _ _ _ _ _ _ _ false)].
  - destruct (startError fold x) as [o|].
    + unfold offers. destruct (_ && _); [destruct (containsStr _ _)|]; (split; [by split|]); phase_step; apply (StepRpc _ _ _ _ _ _ _ false).
    + destruct (spmode_system_proxy _); (split; [by split|]); phase_step; apply (StepRpc _ _ _ _ _ _ _ true).
  - split; [by split|]. phase_step. rewrite Nat.add_1_r. constructor.
Qed.

Lemma advances_starterLeaves k w : locked w -> advances w (starterLeaves k w).
Proof.
  intros Hl. unfold starterLeaves. destruct (leaving w !! k) as [[started sw]|] eqn:E; [|by apply advances_still].
  split; [exact Hl|]. pose proof (lookup_lt_Some _ _ _ E) as Hk. phase_step.
  rewrite length_delete by (by rewrite E). destruct (length (leaving w)); [lia|]. rewrite Nat.sub_succ, Nat.sub_0_r. constructor.
Qed.

Lemma advances_sync w w0 : locked w0 -> PhaseStep (phasesOf w) (resync (phasesOf w0)) -> advances w (syncState w0).
Proof.
  intros [H1 H2] Hs. destruct (syncState_spec w0) as (E & Es & Et). split; [|right; by rewrite E].
  apply locked_phases. rewrite E, Es, Et. cbn. by rewrite !present_fmap.
Qed.

Lemma sync_set_stopper t w : phasesOf (set_stopper t (syncState w)) = resync (phasesOf (set_stopper t w)).
Proof.
  destruct (syncState_spec w) as (E & _ & _). unfold resync in *. cbn in *. injection E as F1 _ F3 F4 F5 F6 F7 F8.
  unfold phasesOf. cbn. by rewrite F1, F3, F4, F5, F6, F7, F8.
Qed.

Lemma advances_stop o w : locked w -> advances w (stop o w).
Proof.
  intros Hl. unfold stop. cbv zeta. assert (still w (noteManual o w)) as Hs by (unfold noteManual; by destruct (manual o)).
  apply (still_advances w _ _ Hs). apply (locked_still _ _ Hs) in Hl. set (w1 := noteManual o w) in *. clearbody w1. clear Hs.
  destruct (m_running w1) as [id|] eqn:Er; [|destruct (_ && _); by apply advances_still].
  unfold stopLock. destruct Hl as [H1 H2]. destruct (mu_stopping w1) eqn:Em; [by apply advances_still; [|split; [|rewrite Em]]|].
  destruct (stopper w1) eqn:Et; [done|]. cbv zeta.
  set (w2 := set_m_profileDisconnecting true (set_mu_stopping true w1)).
  destruct (syncState_spec w2) as (E & Es & Ep). split; [split; cbn; [|by rewrite Ep]|right].
  - rewrite Es. injection E as F _ _ _ _ _ _ _. cbn in F |- *. rewrite H1, <- !(present_fmap (fun s => phaseOf (s_step s))). by rewrite F.
  - change (phasesOf (set_stopper _ _)) with (phasesOf (set_stopper (Some (MkStopper StopBegin id o)) (syncState w2))).
    rewrite sync_set_stopper. unfold phasesOf, resync, w2. cbn. rewrite Et, Er. apply StepStop.
Qed.

Lemma advances_stopperStep ok w : locked w -> advances w (stopperStep ok w).
Proof.
  intros Hl. pose proof Hl as [H1 H2]. unfold stopperStep. destruct (stopper w) as [[step id o]|] eqn:E; [|by apply advances_still].
  cbv zeta. cbn [t_step t_id t_options]. destruct step; [| | |by apply advances_still..].
  - destruct (crash o); [destruct (spmode_system_proxy w)|]; (split; [by split|]); phase_step;
      [apply (StepStopBegin _ _ _ _ _ _ _ true)..|apply (StepStopBegin _ _ _ _ _ _ _ false)].
  - destruct ok; [destruct (spmode_system_proxy w)|]; (split; [by split|]); phase_step; apply StepStopRpc.
  - destruct (manual o); (split; [by split|]); phase_step; apply StepStopClear.
Qed.

Lemma advances_stopDone w : locked w -> advances w (stopDone w).
Proof.
  intros Hl. pose proof Hl as [H1 H2]. unfold stopDone. destruct (stopper w) as [[[] id o]|] eqn:E; try by apply advances_still.
  cbv zeta. set (w1 := if m_switchingProfile w then w else emit EffMarkStopped w).
  assert (still w w1) as Hs by (unfold w1; by destruct (m_switchingProfile w)).
  apply (still_advances w w1 _ Hs). apply (locked_still _ _ Hs) in Hl.
  assert (stopper w1 = stopper w) as E1 by (unfold w1; by destruct (m_switchingProfile w)). rewrite E in E1. clearbody w1.
  pose proof (still_quiet _ _ (quiet_clearRestartNeeded (set_m_profileDisconnecting false w1))) as (Q1 & Q2 & Q3).
  set (w2 := clearRestartNeeded _) in *. clearbody w2. destruct Hl as [L1 L2].
  destruct (syncState_spec w2) as (F & Fs & Ft). split; [split; cbn|right].
  - rewrite Fs, Q1. cbn. injection F as F0 _ _ _ _ _ _ _. injection Q3 as G0 _ _ _ _ _ _ _. cbn in F0, G0 |- *.
    rewrite L1, <- !(present_fmap (fun s => phaseOf (s_step s))). by rewrite F0, G0.
  - done.
  - change (phasesOf (emit _ _)) with (phasesOf (set_stopper None (syncState w2))). rewrite sync_set_stopper.
    unfold phasesOf in Q3. cbn in Q3. injection Q3 as G1 G2 G3 G4 G5 G6 G7 G8.
    unfold phasesOf, resync. cbn. rewrite G1, G3, G4, G5, G6, G7, E1. apply StepStopDone.
Qed.

(** *** Queued calls, the core and the kill switch *)

(** A call that starts, stops and tells nothing takes no step. *)
Lemma still_pop t ts w : ui w = t :: ts -> taskOf t = None -> still w (set_ui ts w).
Proof. intros E Ht. split_and!; try done. unfold phasesOf. cbn. rewrite E. cbn. by rewrite Ht. Qed.

Lemma advances_startDone started sw ts env accept w : locked w -> ui w = UiStartDone started sw :: ts ->
  advances w (runUi env accept (UiStartDone started sw) (set_ui ts w)).
Proof.
  intros Hl E. cbn [runUi]. cbv zeta. set (w0 := set_m_profileConnecting false (set_ui ts w)).
  apply (advances_stay _ (syncState w0)); [|by destruct started, sw].
  apply advances_sync; [exact Hl|]. unfold phasesOf, resync, w0. cbn. rewrite E. apply StepStartDone.
Qed.

Lemma advances_stopTimer ts w : locked w -> ui w = UiStopTimer :: ts ->
  advances w match stopper w with
             | Some (MkStopper StopAwaitUi id o) => set_stopper (Some (MkStopper StopReady id o)) (set_ui ts w)
             | _ => set_ui ts w
             end.
Proof.
  intros [H1 H2] E. pose proof (StepStopTimer (p_start (phasesOf w)) (p_stop (phasesOf w)) (p_running (phasesOf w))
    (p_leaving (phasesOf w)) (omap taskOf ts) (p_connecting (phasesOf w)) (p_disconnecting (phasesOf w)) (p_last (phasesOf w))) as Hs.
  unfold phasesOf in Hs. cbn in Hs.
  destruct (stopper w) as [[step id o]|] eqn:Et; [destruct step|]; (split; [by split; cbn; rewrite ?Et|right]);
    unfold phasesOf; cbn; rewrite E, Et; exact Hs.
Qed.

Lemma advances_ui env accept w : locked w ->
  advances w match ui w with [] => w | t :: ts => runUi env accept t (set_ui ts w) end.
Proof.
  intros Hl. destruct (ui w) as [|t ts] eqn:E; [by apply advances_still|].
  destruct t as [r o|r| | | |started sw|id|].
  - apply advances_still; [|done]. by apply still_pop in E.
  - apply advances_still; [|done]. cbn [runUi]. etrans; [by apply still_pop in E|].
    exact (still_quiet _ _ (quiet_clearRestartNeeded (set_m_geoRetriedProfile (-1)%Z (set_ui ts w)))).
  - cbn [runUi]. set (w0 := set_m_profileDisconnecting true (set_ui ts w)).
    apply (advances_stay _ (syncState w0)); [|done]. apply advances_sync; [exact Hl|].
    unfold phasesOf, resync, w0. cbn. rewrite E. apply StepDisconnecting.
  - exact (advances_stopTimer ts w Hl E).
  - apply advances_still; [|done]. by apply still_pop in E.
  - by apply advances_startDone.
  - cbn [runUi]. apply still_pop in E; [|done]. destruct (negb accept); [by apply advances_still|].
    destruct (_ || _); [by apply advances_still|by apply advances_after].
  - cbn [runUi]. apply still_pop in E; [|done]. destruct accept; by apply advances_still.
Qed.

Lemma advances_onCoreStarted core env id w : locked w -> advances w (onCoreStarted core env id w).
Proof.
  intros Hl. unfold onCoreStarted. cbv zeta. set (w0 := if guardFailedForPrivileges core then _ else _).
  assert (still w w0) as H0 by (unfold w0; by destruct (guardFailedForPrivileges core)).
  pose proof (still_quiet _ _ (quiet_restoreModes core env w0)) as H1. set (w1 := restoreModes core env w0) in *.
  clearbody w1. set (w2 := if (0 <=? profileId (m_coreStartRequest w1))%Z && _ then _ else _). assert (still w w2) as H2.
  { etrans; [exact H0|]. etrans; [exact H1|]. unfold w2. by destruct (_ && _). }
  clearbody w2. set (w3 := if (0 <=? id)%Z then _ else _). apply (advances_stay _ w3); [|done]. unfold w3.
  destruct (0 <=? id)%Z; [|by apply advances_still]. destruct (_ && _); [by apply advances_still|by apply advances_after].
Qed.

Lemma still_onCoreGaveUp w : still w (onCoreGaveUp w).
Proof. unfold onCoreGaveUp. cbv zeta. by destruct (0 <=? _)%Z. Qed.

Lemma still_onKillSwitchStateChanged env id w : still w (onKillSwitchStateChanged env id w).
Proof.
  unfold onKillSwitchStateChanged. cbv zeta. set (w1 := emit _ _). assert (still w w1) as H1 by done. clearbody w1.
  destruct (_ && _); [|done]. etrans; [exact H1|].
  destruct (_ && _); [destruct (0 <=? _)%Z|]; try apply still_restartCoreForGuard.
  apply (still_restartCoreForGuard (haveCore env) (m_coreStartRequest w1) (set_m_coreStartRequest noRequest w1)).
Qed.

Lemma advances_requested env r w w1 : still w w1 -> locked w -> advances w (startSome env r w1).
Proof. intros Hs Hl. destruct r; [by apply advances_after|by apply advances_still]. Qed.

Lemma advances_setSystemProxy env enable change w : locked w -> advances w (setSystemProxy env enable change w).
Proof.
  intros Hl. unfold setSystemProxy. destruct (setProxyMode _ _ _ _) as [[w1 r]|] eqn:E.
  - apply (advances_stay _ (startSome env r w1)); [|apply still_quiet, quiet_rememberProxy].
    apply advances_requested; [|done]. by eapply still_quiet, quiet_setProxyMode.
  - apply advances_still; [|done]. apply still_quiet, quiet_proxyRefused.
Qed.

Lemma advances_setTun env enable change w : locked w -> advances w (setTun env enable change w).
Proof.
  intros Hl. unfold setTun. pose proof (quiet_setTunMode (modes env) enable change w) as H.
  destruct (setTunMode _ _ _ _) as [w1 r]. apply advances_requested; [by apply still_quiet|done].
Qed.

Section Refinement.
Context (foldCase : Z -> Z).

Lemma connStep_advances w e : locked w -> advances w (connStep foldCase w e).
Proof.
  intros Hl. destruct e; cbn [connStep].
  - by apply advances_start.
  - apply advances_still; [|done]. exact (still_deferStartToCore r (set_m_bootSerial (serial r) w)).
  - by apply advances_stop.
  - unfold onSettled. destruct (settledWaiters w) as [|k]; [by apply advances_still|]. cbv zeta.
    destruct (0 <=? _)%Z; [by apply advances_after|by apply advances_still].
  - unfold onDnsSelected. destruct (dnsPending w); [by apply advances_still|]. cbv zeta.
    destruct (_ && _); [by apply advances_still|by apply advances_after].
  - destruct (isEmpty _); by apply advances_still.
  - unfold onRanked. destruct (rankPending w !! k); [by apply advances_after|by apply advances_still].
  - by apply advances_setTun.
  - by apply advances_setSystemProxy.
  - unfold chooseRoute. destruct (_ || _); [by apply advances_still|].
    destruct (_ && _); [by apply advances_still|by apply advances_start].
  - unfold restartStartedProfile. destruct (_ <? _)%Z; [by apply advances_still|by apply advances_start].
  - unfold applyPendingRestart. cbv zeta. pose proof (still_quiet _ _ (quiet_clearRestartNeeded w)).
    destruct (_ <=? _)%Z; [by apply advances_after|by apply advances_still].
  - apply advances_still; [|done]. apply still_quiet, quiet_noteRestartNeeded.
  - unfold retryAfterGeoFetch. destruct (negb _); [by apply advances_still|]. destruct (_ || _); [by apply advances_still|].
    destruct (_ =? _)%Z; [by apply advances_still|by apply advances_after].
  - by apply advances_starterStep.
  - by apply advances_starterLeaves.
  - by apply advances_stopperStep.
  - by apply advances_stopDone.
  - by apply advances_ui.
  - by apply advances_onCoreStarted.
  - apply advances_still; [apply still_onCoreGaveUp|done].
  - by apply advances_still.
  - apply advances_still; [apply still_onKillSwitchStateChanged|done].
  - by apply advances_still.
  - by apply advances_still.
Qed.

(** The worlds a new manager comes to. *)
Inductive Reached : Conn -> Prop :=
| ReachedNew rememberId startedId : Reached (newConn rememberId startedId)
| ReachedStep w e : Reached w -> Reached (connStep foldCase w e).

Lemma reached_inv w : Reached w -> locked w /\ PhaseInv (phasesOf w).
Proof.
  induction 1 as [? ?|w e _ [Hl Hi]].
  - split; [done|]. exact idlePhases_inv.
  - destruct (connStep_advances w e Hl) as [Hl' [->|Hs]]; [done|]. split; [done|]. by eapply phase_step_inv.
Qed.
End Refinement.

(** ** The workers finish *)

Definition startEnergy (s : StarterStep) : nat :=
  match s with
  | AtBegin => 18 | AtStopCheck => 17 | AtStopLock _ => 16 | AtWait => 8 | AtStage2 => 7 | AtRpc => 6 | AtUnlock _ => 3
  end.
Definition stopEnergy (s : StopperStep) : nat :=
  match s with StopBegin => 6 | StopRpc => 5 | StopClear => 4 | StopAwaitUi => 2 | StopReady => 1 end.
Definition weigh {A} (f : A -> nat) (x : option A) : nat := match x with Some x => f x | None => 0 end.

(** How many steps the workers and the queued calls can still take. *)
Definition energy (w : Conn) : nat :=
  length (ui w) + 2 * length (leaving w) + weigh (fun t => stopEnergy (t_step t)) (stopper w) +
  weigh (fun s => startEnergy (s_step s)) (starter w).

Section Finish.
Context (foldCase : Z -> Z) (env : StartEnv) (x : Stage2) (ok : bool).

(** What runs next when no one asks for anything: queued calls first, then the
    stop, the workers on their way out, and the start. *)
Definition nextEvent (w : Conn) : option ConnEvent :=
  match ui w, stopper w, leaving w, starter w with
  | _ :: _, _, _, _ => Some (EvUi env false)
  | [], Some t, _, _ => Some (match t_step t with StopReady => EvStopDone | _ => EvStopper ok end)
  | [], None, _ :: _, _ => Some (EvStarterLeaves 0)
  | [], None, [], Some _ => Some (EvStarter x)
  | [], None, [], None => None
  end.

Fixpoint drive (fuel : nat) (w : Conn) : Conn :=
  match fuel, nextEvent w with
  | S fuel, Some e => drive fuel (connStep foldCase w e)
  | _, _ => w
  end.

Lemma energy_same w w' : ui w' = ui w -> leaving w' = leaving w -> stopper w' = stopper w -> starter w' = starter w ->
  energy w' = energy w.
Proof. unfold energy. by intros -> -> -> ->. Qed.

Lemma energy_quiet w w' : quiet w w' -> energy w' = energy w.
Proof. unfold quiet, shared. intros [= _ _ _ _ _ _ _ _ ? ? ? ? _ _ _]. by apply energy_same. Qed.

Lemma energy_sync w : energy (syncState w) = energy w.
Proof. unfold syncState. cbv zeta. by destruct (bool_decide _). Qed.

Lemma energy_runUi t ts w : ui w = t :: ts -> (energy (runUi env false t (set_ui ts w)) < energy w)%nat.
Proof.
  intros E. assert (energy (set_ui ts w) < energy w)%nat as H by (unfold energy; cbn; rewrite E; cbn; lia).
  destruct t as [r o|r| | | |started sw|id|]; cbn [runUi]; try exact H.
  - change (energy (clearRestartNeeded (set_m_geoRetriedProfile (-1)%Z (set_ui ts w))) < energy w)%nat.
    by rewrite (energy_quiet _ _ (quiet_clearRestartNeeded _)).
  - change (energy (syncState (set_m_profileDisconnecting true (set_ui ts w))) < energy w)%nat. by rewrite energy_sync.
  - change (stopper (set_ui ts w)) with (stopper w). destruct (stopper w) as [[[] id o]|] eqn:Et; try exact H.
    unfold energy in *. cbn in *. rewrite Et in *. cbn in *. lia.
  - cbv zeta. assert (forall u : Conn, energy (if started then emit (EffMarkStarted sw) u else if sw then emit EffMarkStopped u else u) = energy u) as Hm
      by (intros u; by destruct started, sw).
    rewrite Hm. change (energy (syncState (set_m_profileConnecting false (set_ui ts w))) < energy w)%nat. by rewrite energy_sync.
Qed.

Lemma energy_stop t w : ui w = [] -> stopper w = Some t -> locked w -> PhaseInv (phasesOf w) ->
  (energy (connStep foldCase w (match t_step t with StopReady => EvStopDone | _ => EvStopper ok end)) < energy w)%nat.
Proof.
  intros Eu E _ [_ Ht _ _ _]. destruct t as [step id o]. unfold phasesOf in Ht. cbn in Ht. rewrite Eu, E in Ht.
  assert (energy w = 2 * length (leaving w) + stopEnergy step + weigh (fun s => startEnergy (s_step s)) (starter w))%nat as Hw
    by (unfold energy; rewrite Eu, E; cbn; lia).
  rewrite Hw. cbn [t_step]. destruct step; cbn [connStep]; unfold stopperStep, stopDone; rewrite ?E; cbn [t_step t_id t_options]; cbv zeta.
  - destruct (crash o); [destruct (spmode_system_proxy w)|]; unfold energy; cbn; rewrite Eu; cbn; lia.
  - destruct ok; [destruct (spmode_system_proxy w)|]; unfold energy; cbn; rewrite Eu; cbn; lia.
  - destruct (manual o); unfold energy; cbn; rewrite Eu; cbn; lia.
  - done.
  - set (w1 := if m_switchingProfile w then w else _).
    assert (quiet w w1) as Q by (unfold w1; by destruct (m_switchingProfile w)). clearbody w1.
    pose proof (quiet_clearRestartNeeded (set_m_profileDisconnecting false w1)) as Q2. set (w2 := clearRestartNeeded _) in *. clearbody w2.
    assert (energy (syncState w2) = energy w) as E2.
    { rewrite energy_sync, (energy_quiet _ _ Q2), <- (energy_quiet _ _ Q). done. }
    assert (stopper (syncState w2) = Some (MkStopper StopReady id o)) as E3.
    { unfold syncState. cbv zeta. injection Q2 as _ _ _ _ _ _ _ _ _ _ F _ _ _ _. injection Q as _ _ _ _ _ _ _ _ _ _ G _ _ _ _.
      cbn in F. destruct (bool_decide _); cbn; congruence. }
    set (u := syncState w2) in *. clearbody u. rewrite <- Hw, <- E2. unfold energy. cbn. rewrite E3. cbn. lia.
Qed.

(** A step of the start worker, when no stop runs. *)
Lemma energy_start w : ui w = [] -> stopper w = None -> leaving w = [] -> starter w <> None -> locked w ->
  (energy (starterStep foldCase x w) < energy w)%nat.
Proof.
  intros Eu Et El Es [_ Hl]. rewrite Et in Hl. unfold starterStep. destruct (starter w) as [[step r sw tun]|] eqn:E; [|done].
  assert (energy w = startEnergy step) as Hw by (unfold energy; rewrite Eu, Et, El, E; cbn; lia).
  rewrite Hw. cbv zeta. cbn [s_step s_request s_switching s_tun].
  assert (forall step' u, ui u = ui w -> leaving u = leaving w -> stopper u = stopper w ->
            energy (set_starter (Some (MkStarter step' r sw tun)) u) = startEnergy step') as Hset.
  { intros step' u H1 H2 H3. unfold energy. cbn. rewrite H1, H2, H3, Eu, Et, El. cbn. lia. }
  destruct step; cbn [noteManual manual switchStop startEnergy].
  - destruct (m_running w); [|rewrite Hset by done; cbn; lia]. unfold energy. cbn. rewrite Eu, Et, El. cbn. lia.
  - change (m_running (set_m_geoRetryToken (m_geoRetryToken w + 1)%Z w)) with (m_running w).
    destruct (m_running w); [rewrite Hset by done; cbn; lia|]. unfold energy. cbn. rewrite Eu, Et, El. cbn. lia.
  - unfold stopLock. cbn in Hl. rewrite Hl. unfold energy. cbn. rewrite Eu, El. cbn. lia.
  - cbn in Hl. rewrite Hl. rewrite Hset by done. cbn. lia.
  - destruct (negb (permitted x)); [|rewrite Hset by done; cbn; lia]. unfold energy. cbn. rewrite Eu, Et, El. cbn. lia.
  - destruct (startError foldCase x) as [o|].
    + unfold offers. destruct (_ && _); [destruct (containsStr _ _)|]; unfold energy; cbn; rewrite Eu, Et, El; cbn; lia.
    + destruct (spmode_system_proxy _); unfold energy; cbn; rewrite Eu, Et, El; cbn; lia.
  - unfold energy. cbn. rewrite Eu, Et, El. cbn. lia.
Qed.

Lemma energy_next w e : locked w -> PhaseInv (phasesOf w) -> nextEvent w = Some e -> (energy (connStep foldCase w e) < energy w)%nat.
Proof.
  intros Hl Hi. unfold nextEvent. destruct (ui w) as [|t ts] eqn:Eu.
  - destruct (stopper w) as [t|] eqn:Et; [intros [= <-]; by apply energy_stop|].
    destruct (leaving w) as [|[started sw] l] eqn:El.
    + destruct (starter w) as [s|] eqn:Es; [|done]. intros [= <-]. apply energy_start; try done. by rewrite Es.
    + intros [= <-]. cbn [connStep]. unfold starterLeaves. rewrite El. cbn [lookup list_lookup].
      unfold energy. cbn. rewrite Eu, El. cbn. lia.
  - intros [= <-]. cbn [connStep]. rewrite Eu. by apply energy_runUi.
Qed.

Lemma nextEvent_none w : nextEvent w = None -> ui w = [] /\ stopper w = None /\ leaving w = [] /\ starter w = None.
Proof. unfold nextEvent. by destruct (ui w), (stopper w), (leaving w), (starter w). Qed.

Lemma drive_ends fuel w : (energy w <= fuel)%nat -> Reached foldCase w ->
  Reached foldCase (drive fuel w) /\ nextEvent (drive fuel w) = None.
Proof.
  revert w. induction fuel as [|fuel IH]; intros w Hf Hr; cbn; destruct (nextEvent w) as [e|] eqn:E; try done.
  - destruct (reached_inv _ _ Hr) as [Hl Hi]. pose proof (energy_next w e Hl Hi E). lia.
  - destruct (reached_inv _ _ Hr) as [Hl Hi]. pose proof (energy_next w e Hl Hi E). apply IH; [lia|by constructor].
Qed.
End Finish.

(** ** What the threads cannot do to each other *)

Lemma starter_quiet w w' : quiet w w' -> starter w' = starter w /\ mu_starting w' = mu_starting w.
Proof. unfold quiet, shared. by intros [= _ _ _ _ _ ? _ _ ? _ _ _ _ _ _]. Qed.

Lemma dispatch_busy env r w : mu_starting w = true -> starter (dispatch env r w) = starter w.
Proof.
  intros Hm. unfold dispatch, launch, restartCoreForGuard, deferStartToCore, failStart. rewrite Hm. cbv zeta. by tests.
Qed.

(** A second start leaves the one under way alone. *)
Lemma start_busy env r w : mu_starting w = true -> starter (start env r w) = starter w.
Proof.
  intros Hm. unfold start. cbv zeta. set (w0 := set_m_geoRetryToken _ w).
  destruct (prepare_exit w0); [done|]. destruct (_ || _); [done|]. set (w1 := emit _ _). destruct (negb (groupUsable env)); [done|].
  destruct (starter_quiet _ _ (quiet_applyProviderPolicy env (interactive r) w1)) as [E1 E2].
  change (starter w1) with (starter w) in E1. change (mu_starting w1) with (mu_starting w) in E2. rewrite <- E1. rewrite Hm in E2.
  set (w2 := applyProviderPolicy _ _ _) in *. clearbody w2.
  destruct (dnsChecked r); [by apply dispatch_busy|]. unfold deferStartForDns, failStart.
  destruct (negb (dnsAuto env)); [by apply dispatch_busy|]. destruct (m_dnsSelect w2); [done|].
  destruct (serverIsAddress env); [by apply dispatch_busy|done].
Qed.

Section Threads.
Context (foldCase : Z -> Z).

Lemma reached_run w evs : Reached foldCase w -> Reached foldCase (connRun foldCase w evs).
Proof. revert w. induction evs as [|e evs IH]; intros w H; [done|]. apply IH. by constructor. Qed.

Lemma locked_run w evs : locked w -> locked (connRun foldCase w evs) /\ rtc PhaseStep (phasesOf w) (phasesOf (connRun foldCase w evs)).
Proof.
  revert w. induction evs as [|e evs IH]; intros w Hl; [by split|].
  destruct (connStep_advances foldCase w e Hl) as [Hl' Hs]. destruct (IH _ Hl') as [H1 H2]. split; [exact H1|].
  destruct Hs as [Hs|Hs]; [by rewrite <- Hs|by eapply rtc_l].
Qed.

(** C26: every run of the manager, whatever its threads and callers do, is a run
    of the phase specification from its idle state, and a lock is taken exactly
    while a worker of its kind lives. *)
Theorem connection_refines_phases rememberId startedId evs :
  let w := connRun foldCase (newConn rememberId startedId) evs in
  rtc PhaseStep idlePhases (phasesOf w) /\ mu_starting w = present (starter w) /\ mu_stopping w = present (stopper w).
Proof. cbv zeta. destruct (locked_run (newConn rememberId startedId) evs) as [H1 H2]; [done|]. by split. Qed.

(** While a start is past its wait and before the core's answer, no profile
    runs, no stop is before its clearing of the running profile, and neither
    another start nor, from a running profile, another stop can begin. *)
Theorem start_exclusive rememberId startedId evs s :
  let w := connRun foldCase (newConn rememberId startedId) evs in
  starter w = Some s -> s_step s = AtStage2 \/ s_step s = AtRpc ->
  m_running w = None /\ mu_starting w = true /\
  (forall t, stopper w = Some t -> t_step t = StopAwaitUi \/ t_step t = StopReady) /\
  (forall env r, starter (start env r w) = Some s) /\ (forall o, stopper (stop o w) = stopper w).
Proof.
  cbv zeta. set (w := connRun _ _ _). intros E Hc. assert (Reached foldCase w) as Hr by (apply reached_run; constructor).
  destruct (reached_inv _ _ Hr) as [[L1 L2] [Hw _ _ _ _]]. rewrite E in L1. clearbody w.
  unfold phasesOf in Hw. cbn in Hw. rewrite E in Hw. unfold workersOk in Hw. cbn [fmap option_fmap option_map] in Hw.
  assert (m_running w = None /\ tearing (t_step <$> stopper w) = false) as [Hn Ht].
  { destruct (tearing _), (m_running w), Hc as [Hc|Hc]; rewrite Hc in Hw; done. }
  split_and!; [done|done| | |].
  - intros t Et. rewrite Et in Ht. cbn in Ht. destruct (t_step t); auto; done.
  - intros env r. rewrite <- E. apply start_busy. by rewrite L1.
  - intros o. unfold stop. cbv zeta. assert (m_running (noteManual o w) = None) as -> by (unfold noteManual; by destruct (manual o)).
    unfold noteManual. by destruct (manual o), (crash o).
Qed.

(** C27: whatever the core answers, the workers and the calls they queue come to an
    end within [energy] steps when nobody asks for more: nothing deadlocks, both
    locks are free, and the last state told is whether a profile runs. *)
Theorem workers_finish env x ok rememberId startedId evs :
  let w := connRun foldCase (newConn rememberId startedId) evs in
  let w' := drive foldCase env x ok (energy w) w in
  starter w' = None /\ leaving w' = [] /\ stopper w' = None /\ ui w' = [] /\
  mu_starting w' = false /\ mu_stopping w' = false /\
  m_profileConnecting w' = false /\ m_profileDisconnecting w' = false /\
  m_lastConnectionState w' = match m_running w' with Some _ => Running | None => Idle end.
Proof.
  cbv zeta. set (w := connRun _ _ _). assert (Reached foldCase w) as Hr by (apply reached_run; constructor).
  destruct (drive_ends foldCase env x ok (energy w) w) as [Hd He]; [done|done|]. set (w' := drive _ _ _ _ _ _) in *. clearbody w' w.
  destruct (nextEvent_none _ _ _ _ He) as (Eu & Et & El & Es). destruct (reached_inv _ _ Hd) as [[L1 L2] [_ _ Hc Hx Hz]].
  rewrite Es in L1. rewrite Et in L2.
  assert (~ ending (phasesOf w')) as Hn by (unfold ending; cbn; rewrite Es, El, Eu; cbn; set_solver).
  assert (m_profileConnecting w' = false) as H1 by (destruct (m_profileConnecting w') eqn:E; [destruct Hn; by apply Hc|done]).
  assert (m_profileDisconnecting w' = false) as H2.
  { destruct (m_profileDisconnecting w') eqn:E; [|done]. destruct (Hx E). cbn. by rewrite Et. }
  split_and!; try done. destruct Hz as [Hz|[Hz|Hz]]; [|cbn in Hz; by rewrite Et in Hz|done].
  cbn in Hz. rewrite H1, H2 in Hz. by destruct (m_running w').
Qed.
End Threads.

(** ** Concrete runs *)

Module Sample.
Definition modesEnv : ModesEnv := MkModes false true (fun _ => false) false true true false false.
Definition env : StartEnv := MkEnv modesEnv true true None false true KsDisabled true false true false true false false true.
Definition fine : Stage2 := MkStage2 true true [] false.
Definition startOf (id n : Z) : ConnEvent := EvStart env (MkRequest id true n false).
Definition up : list ConnEvent := [EvCoreRunning true; startOf 7 1; EvStarter fine; EvStarter fine].
Definition run (evs : list ConnEvent) : Conn := connRun (fun c => c) (newConn (-1) (-1)) evs.
End Sample.

(** The second profile is refused while the first one is with the core. *)
Lemma start_exclusive_witness :
  starter (start Sample.env (plainRequest 8) (Sample.run Sample.up)) = Some (MkStarter AtRpc (MkRequest 7 true 1 false) false false).
Proof.
  pose proof (start_exclusive (fun c => c) (-1) (-1) Sample.up (MkStarter AtRpc (MkRequest 7 true 1 false) false false)) as H.
  cbv zeta in H. apply H; [vm_compute; reflexivity|right; reflexivity].
Defined.

(** A start that takes the lock between the last worker's release and its queued
    end: that end then shows no start, though one is under way. *)
Example start_loses_connecting :
  let w := Sample.run (Sample.up ++ [EvStarter Sample.fine; EvStarter Sample.fine; Sample.startOf 8 2; EvStarterLeaves 0;
                                      EvUi Sample.env false; EvUi Sample.env false]) in
  mu_starting w = true /\ s_step <$> starter w = Some AtBegin /\ m_lastConnectionState w = Running.
Proof. vm_compute. done. Qed.
