(* ===== verification/ConnectionAnswers.v ===== *)
(** * Every request is answered once

    What becomes of a start request of ConnectionManager.v: its serial is told to
    whoever waits by [answer] exactly once, and until then exactly one place of
    the manager holds it. *)

From Stdlib Require Import Ascii String.
From S2P Require Import Prelude QtText ConnectionManager ConnectionPhases.

Local Open Scope Z_scope.
#[local] Set Warnings "-register-all".

(** ** Answers *)

(** How often the serial [n] occurs. *)
Definition one (n : Z) (r : StartRequest) : nat := if serial r =? n then 1 else 0.
Definition tally (n : Z) (l : list StartRequest) : nat := list_sum (map (one n) l).
(** A slot holds a request when its profile is one. *)
Definition slot (n : Z) (r : StartRequest) : nat := if 0 <=? profileId r then one n r else 0.

Definition answersTo (n : Z) (w : Conn) : nat := length (List.filter (fun a => a.1.1 =? n) (answered w)).

Definition early (s : Starter) : bool := match s_step s with AtUnlock _ => false | _ => true end.
Definition starterHolds (n : Z) (w : Conn) : nat :=
  match starter w with Some s => if early s then one n (s_request s) else 0 | None => 0 end.
Definition uiHolds (n : Z) (t : UiTask) : nat := match t with UiFinish r _ | UiStarted r => one n r | _ => 0 end.

(** Where a request can wait for its answer. *)
Definition heldFor (n : Z) (w : Conn) : nat :=
  slot n (m_killSwitchDeferredStart w) + slot n (m_coreStartRequest w) + tally n (dnsPending w) + tally n (rankPending w) +
  starterHolds n w + list_sum (map (uiHolds n) (ui w)).

Definition ledger (n : Z) (w : Conn) : nat := answersTo n w + heldFor n w.

(** Who waits for an answer under the serial [n] once [e] has happened in [w]. *)
Definition asks (n serial : Z) (b : bool) : nat := if b && (serial =? n) then 1 else 0.
Definition asksSome (n : Z) (r : option StartRequest) : nat := match r with Some r => one n r | None => 0 end.
Definition asked (n : Z) (w : Conn) (e : ConnEvent) : nat :=
  match e with
  | EvStart _ r => one n r
  | EvSetBootStart r => slot n r
  | EvSetTun env enable change => asksSome n (snd (setTunMode (modes env) enable change w))
  | EvSetSystemProxy env enable change =>
      match setProxyMode (modes env) enable change w with Some (_, r) => asksSome n r | None => 0 end
  | EvChooseRoute _ changed groupRoute _ serial =>
      asks n serial (changed && (0 <=? started_id w) && negb (bool_decide (is_Some (m_running w)) && groupRoute))
  | EvRestartStarted _ _ serial => asks n serial (0 <=? started_id w)
  | _ => 0
  end.

Section Asked.
Context (foldCase : Z -> Z).
Fixpoint askedIn (n : Z) (w : Conn) (evs : list ConnEvent) : nat :=
  match evs with
  | [] => 0
  | e :: evs => asked n w e + askedIn n (connStep foldCase w e) evs
  end.
End Asked.

(** A request whose serial someone waits for names a profile. *)
Definition requestOk (r : StartRequest) : Prop := serial r <> 0 -> 0 <= profileId r.

Lemma slot_ok n r : n <> 0 -> requestOk r -> slot n r = one n r.
Proof.
  intros Hn Hr. unfold slot, one. destruct (Z.leb_spec 0 (profileId r)); [done|].
  destruct (Z.eqb_spec (serial r) n); [|done]. unfold requestOk in Hr. lia.
Qed.

Lemma list_sum_cons x l : list_sum (x :: l) = (x + list_sum l)%nat.
Proof. done. Qed.
#[local] Arguments list_sum : simpl never.

Lemma tally_app n l1 l2 : tally n (l1 ++ l2) = (tally n l1 + tally n l2)%nat.
Proof. unfold tally. rewrite map_app. apply list_sum_app. Qed.

Lemma tally_cons n r l : tally n (r :: l) = (one n r + tally n l)%nat.
Proof. unfold tally. cbn [map]. apply list_sum_cons. Qed.
Lemma tally_single n r : tally n [r] = one n r.
Proof. rewrite tally_cons. apply Nat.add_0_r. Qed.

Lemma tally_delete n l k r : l !! k = Some r -> tally n l = (one n r + tally n (delete k l))%nat.
Proof.
  revert k. induction l as [|x l IH]; intros [|k]; [done|done| |].
  - by intros [= ->].
  - intros H. change (delete (S k) (x :: l)) with (x :: delete k l).
    rewrite !tally_cons, (IH k H). lia.
Qed.

Lemma answersTo_answer n r o w : answersTo n (answer r o w) = (answersTo n w + one n r)%nat.
Proof.
  unfold answersTo, answer. cbn [answered set_answered]. rewrite List.filter_app, length_app. unfold one. cbn.
  by destruct (serial r =? n).
Qed.

Lemma ledger_answer n r o w : ledger n (answer r o w) = (ledger n w + one n r)%nat.
Proof. unfold ledger. rewrite answersTo_answer. change (heldFor n (answer r o w)) with (heldFor n w). lia. Qed.

(** Handlers that neither answer nor hold. *)
Definition sameLedger (w w' : Conn) : Prop :=
  answered w' = answered w /\ m_killSwitchDeferredStart w' = m_killSwitchDeferredStart w /\
  m_coreStartRequest w' = m_coreStartRequest w /\ dnsPending w' = dnsPending w /\ rankPending w' = rankPending w /\
  starter w' = starter w /\ ui w' = ui w /\ mu_starting w' = mu_starting w.

Lemma ledger_same n w w' : sameLedger w w' -> ledger n w' = ledger n w.
Proof. intros (H1 & H2 & H3 & H4 & H5 & H6 & H7 & _). unfold ledger, heldFor, answersTo, starterHolds. by rewrite H1, H2, H3, H4, H5, H6, H7. Qed.

Lemma same_refl w : sameLedger w w.
Proof. by split_and!. Qed.
Lemma same_trans w1 w2 w3 : sameLedger w1 w2 -> sameLedger w2 w3 -> sameLedger w1 w3.
Proof. intros (A1 & A2 & A3 & A4 & A5 & A6 & A7 & A8) (B1 & B2 & B3 & B4 & B5 & B6 & B7 & B8). split_and!; congruence. Qed.

Lemma same_syncState w : sameLedger w (syncState w).
Proof. unfold syncState. cbv zeta. tests; by split_and!. Qed.
Lemma same_quiet w w' : quiet w w' -> sameLedger w w'.
Proof. unfold quiet, shared. by intros [= ? ? ? ? ? ? ? ? ? ? ? ? ? ? ?]. Qed.

(** A free lock has no worker. *)
Definition startable (w : Conn) : Prop := mu_starting w = false -> starter w = None.

Lemma startable_same w w' : sameLedger w w' -> startable w -> startable w'.
Proof. intros (_ & _ & _ & _ & _ & H6 & _ & H8) H. unfold startable. by rewrite H6, H8. Qed.

Section Ledger.
Context (n : Z) (Hn : n <> 0).

Lemma ledger_deferStartToCore r w : ledger n (deferStartToCore r w) = (ledger n w + slot n r)%nat.
Proof.
  unfold deferStartToCore. cbv zeta.
  assert (forall u, (ledger n (set_m_coreStartRequest r u) + slot n (m_coreStartRequest u) = ledger n u + slot n r)%nat) as H.
  { intros u. unfold ledger, heldFor. cbn [answersTo answered set_m_coreStartRequest].
    change (answersTo n (set_m_coreStartRequest r u)) with (answersTo n u). cbn. 
    change (starterHolds n (set_m_coreStartRequest r u)) with (starterHolds n u). lia. }
  destruct (0 <=? profileId (m_coreStartRequest w)) eqn:E.
  - specialize (H (answer (m_coreStartRequest w) Superseded w)). rewrite ledger_answer in H.
    change (m_coreStartRequest (answer (m_coreStartRequest w) Superseded w)) with (m_coreStartRequest w) in H.
    assert (slot n (m_coreStartRequest w) = one n (m_coreStartRequest w)) as Hs by (unfold slot; by rewrite E). lia.
  - specialize (H w). assert (slot n (m_coreStartRequest w) = 0%nat) as Hs by (unfold slot; by rewrite E). lia.
Qed.

Lemma ledger_restartCoreForGuard have r w : requestOk r -> ledger n (restartCoreForGuard have r w) = (ledger n w + one n r)%nat.
Proof.
  intros Hr. unfold restartCoreForGuard. destruct (negb have); [by rewrite ledger_answer|]. cbv zeta.
  set (w1 := emit _ w). assert (ledger n (deferStartToCore r w1) = (ledger n w + one n r)%nat) as H.
  { rewrite ledger_deferStartToCore, slot_ok by done. done. }
  destruct (guardRestartPending _); [done|]. rewrite <- H. apply ledger_same. by split_and!.
Qed.

Lemma ledger_launch env r w : requestOk r -> startable w -> ledger n (launch env r w) = (ledger n w + one n r)%nat.
Proof.
  intros Hr Hs. unfold launch, failStart. destruct (mu_starting w) eqn:Em; [by rewrite ledger_answer|].
  destruct (mu_stopping w); [by rewrite ledger_answer|].
  assert (forall e, ledger n (emit e (deferStartToCore r w)) = (ledger n w + one n r)%nat) as Hd.
  { intros e. rewrite <- (slot_ok n r), <- ledger_deferStartToCore by done. apply ledger_same. by split_and!. }
  destruct (awaitingCoreStarted env); [apply Hd|]. destruct (negb (core_running w)).
  { destruct (negb (canStartCore env)); [by rewrite ledger_answer|apply Hd]. }
  cbv zeta. set (w1 := emit _ _). assert (sameLedger (set_mu_starting true w) w1) as (H1 & H2 & H3 & H4 & H5 & H6 & H7 & _).
  { exact (same_syncState (set_m_profileConnecting true (set_mu_starting true w))). }
  clearbody w1. cbn in H1, H2, H3, H4, H5, H7. unfold ledger, heldFor, answersTo, starterHolds.
  cbn [answered m_killSwitchDeferredStart m_coreStartRequest dnsPending rankPending starter ui set_starter early s_step s_request].
  rewrite H1, H2, H3, H4, H5, H7, (Hs Em). lia.
Qed.

Lemma ledger_hold_rank r w : ledger n (set_rankPending (rankPending w ++ [r]) w) = (ledger n w + one n r)%nat.
Proof.
  unfold ledger, heldFor. change (answersTo n (set_rankPending (rankPending w ++ [r]) w)) with (answersTo n w).
  change (starterHolds n (set_rankPending (rankPending w ++ [r]) w)) with (starterHolds n w).
  cbn [m_killSwitchDeferredStart m_coreStartRequest dnsPending rankPending ui set_rankPending].
  rewrite tally_app, tally_single. lia.
Qed.

Lemma ledger_hold_dns r e w : ledger n (emit e (set_dnsPending (dnsPending w ++ [r]) (set_m_dnsSelect true w))) = (ledger n w + one n r)%nat.
Proof.
  set (w' := emit e _). unfold ledger, heldFor. change (answersTo n w') with (answersTo n w). change (starterHolds n w') with (starterHolds n w).
  cbn [w' m_killSwitchDeferredStart m_coreStartRequest dnsPending rankPending ui emit set_emitted set_dnsPending set_m_dnsSelect].
  rewrite tally_app, tally_single. lia.
Qed.

Lemma ledger_hold_guard r w : slot n r = one n r ->
  (ledger n (set_m_killSwitchDeferredStart r w) + slot n (m_killSwitchDeferredStart w) = ledger n w + one n r)%nat.
Proof.
  intros Hr. unfold ledger, heldFor. set (w' := set_m_killSwitchDeferredStart r w).
  change (answersTo n w') with (answersTo n w). change (starterHolds n w') with (starterHolds n w).
  cbn [w' m_killSwitchDeferredStart m_coreStartRequest dnsPending rankPending ui set_m_killSwitchDeferredStart]. lia.
Qed.

Lemma ledger_dispatch env r w : requestOk r -> startable w -> ledger n (dispatch env r w) = (ledger n w + one n r)%nat.
Proof.
  intros Hr Hs. unfold dispatch, failStart. destruct (bool_decide _).
  - cbv zeta. unfold slot in *. pose proof (slot_ok n r Hn Hr) as Hsl.
    destruct (0 <=? profileId (m_killSwitchDeferredStart w)) eqn:E.
    + pose proof (ledger_hold_guard r (answer (m_killSwitchDeferredStart w) Superseded w) Hsl) as H.
      rewrite ledger_answer in H. change (m_killSwitchDeferredStart (answer _ _ w)) with (m_killSwitchDeferredStart w) in H.
      unfold slot in H. rewrite E in H. lia.
    + pose proof (ledger_hold_guard r w Hsl) as H. unfold slot in H. rewrite E in H.
      rewrite (ledger_same n (set_m_killSwitchDeferredStart r w)) by by split_and!. lia.
  - destruct (negb (allowsStart env)); [by rewrite ledger_answer|].
    destruct (_ || _); [by apply ledger_restartCoreForGuard|].
    destruct (ranksFirst env); [by apply ledger_hold_rank|].
    destruct (negb (builds env)); [by rewrite ledger_answer|]. by apply ledger_launch.
Qed.

Lemma ledger_start env r w : startable w -> ledger n (start env r w) = (ledger n w + one n r)%nat.
Proof.
  intros Hs. unfold start. cbv zeta. set (w0 := set_m_geoRetryToken _ w).
  assert (ledger n w0 = ledger n w) as E0 by (apply ledger_same; by split_and!).
  rewrite <- E0. assert (startable w0) as Hs0 by exact Hs. clearbody w0.
  destruct (prepare_exit w0); [by rewrite ledger_answer|].
  destruct (Z.ltb_spec (profileId r) 0) as [|Hid]; cbn [orb]; [by rewrite ledger_answer|].
  assert (requestOk r) as Hr by (intros _; done).
  destruct (negb (profileExists env)); [by rewrite ledger_answer|].
  set (w1 := emit _ _). assert (ledger n w1 = ledger n w0) as E1 by (apply ledger_same; by split_and!).
  assert (startable w1) as Hs1 by exact Hs0. rewrite <- E1. clearbody w1.
  destruct (negb (groupUsable env)); [by rewrite ledger_answer|].
  pose proof (same_quiet _ _ (quiet_applyProviderPolicy env (interactive r) w1)) as Hp.
  rewrite <- (ledger_same n _ _ Hp). pose proof (startable_same _ _ Hp Hs1) as Hs2.
  set (w2 := applyProviderPolicy _ _ _) in *. clearbody w2.
  destruct (dnsChecked r); [by apply ledger_dispatch|].
  unfold deferStartForDns, failStart. destruct (negb (dnsAuto env)); [by apply ledger_dispatch|].
  destruct (m_dnsSelect w2); [by rewrite ledger_answer|].
  destruct (serverIsAddress env); [by apply ledger_dispatch|]. by rewrite ledger_hold_dns.
Qed.

Lemma ledger_startSome env r w : startable w -> ledger n (startSome env r w) = (ledger n w + asksSome n r)%nat.
Proof. intros Hs. destruct r; cbn; [by apply ledger_start|lia]. Qed.

Lemma one_plain id : one n (plainRequest id) = 0%nat.
Proof. unfold one. cbn [serial plainRequest]. destruct (Z.eqb_spec 0 n); lia. Qed.

(** *** The handlers *)

Lemma startable_locked w : locked w -> startable w.
Proof. intros [H _] E. rewrite H in E. by destruct (starter w). Qed.

Lemma ledger_startAfter env r w w1 : sameLedger w w1 -> locked w -> ledger n (start env r w1) = (ledger n w + one n r)%nat.
Proof.
  intros Hs Hl. rewrite ledger_start by by eapply startable_same, startable_locked. by rewrite (ledger_same n w w1).
Qed.

Lemma ledger_plainAfter env id w w1 : sameLedger w w1 -> locked w -> ledger n (start env (plainRequest id) w1) = ledger n w.
Proof. intros Hs Hl. rewrite (ledger_startAfter _ _ w) by done. rewrite one_plain. lia. Qed.

Lemma ledger_onSettled env w : locked w -> ledger n (onSettled env w) = ledger n w.
Proof.
  intros Hl. unfold onSettled. destruct (settledWaiters w) as [|k]; [done|]. cbv zeta.
  set (w1 := set_settledWaiters k _). pose proof (ledger_hold_guard noRequest w) as H.
  assert (ledger n w1 + slot n (m_killSwitchDeferredStart w) = ledger n w)%nat as E.
  { assert (one n noRequest = 0%nat) as H0 by apply one_plain. rewrite H0 in H. specialize (H eq_refl).
    rewrite (ledger_same n (set_m_killSwitchDeferredStart noRequest w)) by by split_and!. lia. }
  assert (startable w1) as Hs by exact (startable_locked _ Hl). clearbody w1. unfold slot in E.
  destruct (0 <=? profileId (m_killSwitchDeferredStart w)); [rewrite ledger_start by done; lia|lia].
Qed.

Lemma ledger_take_dns r rest w : dnsPending w = r :: rest -> (ledger n (set_dnsPending rest w) + one n r)%nat = ledger n w.
Proof.
  intros E. unfold ledger, heldFor. change (answersTo n (set_dnsPending rest w)) with (answersTo n w).
  change (starterHolds n (set_dnsPending rest w)) with (starterHolds n w).
  cbn [m_killSwitchDeferredStart m_coreStartRequest dnsPending rankPending ui set_dnsPending]. rewrite E.
  rewrite tally_cons. lia.
Qed.

Lemma ledger_onDnsSelected env found w : locked w -> ledger n (onDnsSelected env found w) = ledger n w.
Proof.
  intros Hl. unfold onDnsSelected. destruct (dnsPending w) as [|r rest] eqn:E; [done|]. cbv zeta.
  pose proof (ledger_take_dns r rest w E) as H. assert (startable (set_dnsPending rest w)) as Hs by exact (startable_locked _ Hl).
  set (w1 := set_dnsPending rest w) in *. clearbody w1. destruct (_ && _).
  - rewrite (ledger_same n (answer r StartFailed w1)) by by split_and!. rewrite ledger_answer. lia.
  - rewrite ledger_start by done. lia.
Qed.

Lemma ledger_onRanked env k w : locked w -> ledger n (onRanked env k w) = ledger n w.
Proof.
  intros Hl. unfold onRanked. destruct (rankPending w !! k) as [r|] eqn:E; [|done].
  rewrite ledger_start by exact (startable_locked _ Hl). unfold ledger, heldFor. set (w' := set_rankPending _ w).
  change (answersTo n w') with (answersTo n w). change (starterHolds n w') with (starterHolds n w).
  cbn [w' m_killSwitchDeferredStart m_coreStartRequest dnsPending rankPending ui set_rankPending].
  rewrite (tally_delete n (rankPending w) k r E). lia.
Qed.

(** *** The workers and the queued calls *)

Lemma ledger_queue t w : ledger n (queue t w) = (ledger n w + uiHolds n t)%nat.
Proof.
  unfold ledger, heldFor. change (answersTo n (queue t w)) with (answersTo n w). change (starterHolds n (queue t w)) with (starterHolds n w).
  cbn [m_killSwitchDeferredStart m_coreStartRequest dnsPending rankPending ui queue set_ui].
  rewrite map_app, list_sum_app. cbn [map]. rewrite list_sum_cons. change (list_sum []) with 0%nat. lia.
Qed.

Lemma ledger_set_starter s w : (ledger n (set_starter s w) + starterHolds n w = ledger n w + starterHolds n (set_starter s w))%nat.
Proof.
  unfold ledger, heldFor. change (answersTo n (set_starter s w)) with (answersTo n w).
  cbn [m_killSwitchDeferredStart m_coreStartRequest dnsPending rankPending ui set_starter]. lia.
Qed.

(** The worker goes on with its request. *)
Lemma ledger_goOn step step' r sw sw' tun w w' : sameLedger w w' -> starter w = Some (MkStarter step r sw tun) ->
  early (MkStarter step r sw tun) = early (MkStarter step' r sw' tun) ->
  ledger n (set_starter (Some (MkStarter step' r sw' tun)) w') = ledger n w.
Proof.
  intros Hq E He. pose proof (ledger_set_starter (Some (MkStarter step' r sw' tun)) w') as H.
  rewrite (ledger_same n _ _ Hq) in H. assert (starter w' = starter w) as E' by apply Hq.
  unfold starterHolds in H. rewrite E', E in H. cbn [starter set_starter s_request] in H. rewrite He in H. lia.
Qed.

(** It hands its request to the main thread. *)
Lemma ledger_handOver step b r sw tun t w w' : sameLedger w w' -> starter w = Some (MkStarter step r sw tun) ->
  early (MkStarter step r sw tun) = true -> uiHolds n t = one n r ->
  ledger n (set_starter (Some (MkStarter (AtUnlock b) r sw tun)) (queue t w')) = ledger n w.
Proof.
  intros Hq E He Ht. pose proof (ledger_set_starter (Some (MkStarter (AtUnlock b) r sw tun)) (queue t w')) as H.
  rewrite ledger_queue, (ledger_same n _ _ Hq), Ht in H. assert (starter w' = starter w) as E' by apply Hq.
  unfold starterHolds in H. change (starter (queue t w')) with (starter w') in H.
  rewrite E', E, He in H. cbn [starter set_starter s_request early s_step] in H. lia.
Qed.

Lemma ledger_stopLock b id o w : ledger n (stopLock b id o w) = ledger n w.
Proof.
  unfold stopLock. destruct (mu_stopping w); [done|]. cbv zeta. destruct b.
  - apply ledger_same. eapply same_trans; [|exact (same_syncState (set_m_profileDisconnecting true (set_mu_stopping true w)))]. by split_and!.
  - rewrite (ledger_same n (queue UiDisconnecting (set_mu_stopping true w))) by by split_and!. rewrite ledger_queue. apply Nat.add_0_r.
Qed.

Lemma ledger_starterStep foldCase x w : ledger n (starterStep foldCase x w) = ledger n w.
Proof.
  unfold starterStep. destruct (starter w) as [[step r sw tun]|] eqn:E; [|done]. cbv zeta. cbn [s_step s_request s_switching s_tun].
  destruct step.
  - destruct (m_running w); by eapply ledger_goOn.
  - change (m_running (noteManual switchStop w)) with (m_running w). destruct (m_running w); [by eapply ledger_goOn|].
    assert (ledger n w = ledger n (queue UiCancelResume w)) as -> by (rewrite ledger_queue; symmetry; apply Nat.add_0_r).
    by eapply (ledger_goOn AtStopCheck AtWait r sw sw tun (queue UiCancelResume w)).
  - rewrite <- (ledger_stopLock false id switchStop w).
    apply (ledger_goOn (AtStopLock id) AtWait r sw sw tun (stopLock false id switchStop w)); [by split_and!| |done].
    unfold stopLock. by destruct (mu_stopping w).
  - destruct (mu_stopping w); [done|]. by eapply ledger_goOn.
  - destruct (negb (permitted x)); [by eapply ledger_handOver|by eapply ledger_goOn].
  - destruct (startError foldCase x) as [o|].
    + assert (forall u, ledger n (set_starter (Some (MkStarter (AtUnlock false) r sw tun)) (offers r o x u))
                = ledger n (set_starter (Some (MkStarter (AtUnlock false) r sw tun)) u)) as Ho.
      { intros u. unfold offers. destruct (_ && _); [destruct (containsStr _ _)|done].
        - rewrite <- (Nat.add_0_r (ledger n (set_starter _ u))). exact (ledger_queue (UiAdapterRetry _) (set_starter _ u)).
        - rewrite <- (Nat.add_0_r (ledger n (set_starter _ u))). exact (ledger_queue UiOfferReset (set_starter _ u)). }
      rewrite Ho. by eapply ledger_handOver.
    + eapply ledger_handOver; [|exact E|done|done]. by destruct (spmode_system_proxy _); split_and!.
  - pose proof (ledger_set_starter None w) as H. unfold starterHolds in H. rewrite E in H.
    cbn [starter set_starter early s_step] in H.
    change (ledger n (set_leaving _ _)) with (ledger n (set_starter None w)). lia.
Qed.

Lemma ledger_stopperStep ok w : ledger n (stopperStep ok w) = ledger n w.
Proof.
  unfold stopperStep. destruct (stopper w) as [[step id o]|]; [|done]. cbv zeta. cbn [t_step t_id t_options]. destruct step; try done.
  - destruct (crash o); [destruct (spmode_system_proxy w)|]; done.
  - destruct ok; [destruct (spmode_system_proxy w)|]; done.
  - rewrite ledger_queue. rewrite Nat.add_0_r. by destruct (manual o).
Qed.

Lemma ledger_stopDone w : ledger n (stopDone w) = ledger n w.
Proof.
  unfold stopDone. destruct (stopper w) as [[[] id o]|]; try done. cbv zeta. set (w1 := if m_switchingProfile w then w else _).
  assert (ledger n w1 = ledger n w) as <- by (unfold w1; by destruct (m_switchingProfile w)). clearbody w1.
  change (ledger n (syncState (clearRestartNeeded (set_m_profileDisconnecting false w1))) = ledger n w1).
  rewrite (ledger_same n _ _ (same_syncState _)).
  exact (ledger_same n _ _ (same_quiet _ _ (quiet_clearRestartNeeded (set_m_profileDisconnecting false w1)))).
Qed.

Lemma ledger_pop t ts w : ui w = t :: ts -> (ledger n (set_ui ts w) + uiHolds n t)%nat = ledger n w.
Proof.
  intros E. unfold ledger, heldFor. change (answersTo n (set_ui ts w)) with (answersTo n w).
  change (starterHolds n (set_ui ts w)) with (starterHolds n w).
  cbn [m_killSwitchDeferredStart m_coreStartRequest dnsPending rankPending ui set_ui]. rewrite E. cbn [map]. rewrite list_sum_cons. lia.
Qed.

Lemma ledger_ui env accept w : locked w ->
  ledger n match ui w with [] => w | t :: ts => runUi env accept t (set_ui ts w) end = ledger n w.
Proof.
  intros Hl. destruct (ui w) as [|t ts] eqn:E; [done|]. pose proof (ledger_pop t ts w E) as H.
  assert (locked (set_ui ts w)) as Hl1 by exact Hl. set (w1 := set_ui ts w) in *. clearbody w1.
  destruct t as [r o|r| | | |started sw|id|]; cbn [runUi uiHolds] in *; rewrite ?Nat.add_0_r in H.
  - rewrite ledger_answer. lia.
  - rewrite ledger_answer, <- H. f_equal.
    exact (ledger_same n _ _ (same_quiet _ _ (quiet_clearRestartNeeded (set_m_geoRetriedProfile (-1) w1)))).
  - rewrite <- H. exact (ledger_same n _ _ (same_syncState (set_m_profileDisconnecting true w1))).
  - rewrite <- H. destruct (stopper w1) as [[[] ? ?]|]; done.
  - exact H.
  - rewrite <- H. cbv zeta. transitivity (ledger n (syncState (set_m_profileConnecting false w1))); [by destruct started, sw|].
    exact (ledger_same n _ _ (same_syncState (set_m_profileConnecting false w1))).
  - rewrite <- H. destruct (negb accept); [done|]. destruct (_ || _); [done|]. apply ledger_plainAfter; [apply same_refl|exact Hl1].
  - rewrite <- H. by destruct accept.
Qed.

(** *** The core and the kill switch *)

Lemma ledger_release w : (ledger n (set_m_coreStartRequest noRequest w) + slot n (m_coreStartRequest w))%nat = ledger n w.
Proof.
  unfold ledger, heldFor. change (answersTo n (set_m_coreStartRequest noRequest w)) with (answersTo n w).
  change (starterHolds n (set_m_coreStartRequest noRequest w)) with (starterHolds n w).
  cbn [m_killSwitchDeferredStart m_coreStartRequest dnsPending rankPending ui set_m_coreStartRequest].
  change (slot n noRequest) with 0%nat. lia.
Qed.

Lemma ledger_onCoreGaveUp w : ledger n (onCoreGaveUp w) = ledger n w.
Proof.
  unfold onCoreGaveUp. cbv zeta. pose proof (ledger_release w) as H. unfold slot in H.
  change (ledger n (set_m_coreStartRequest noRequest w)) with (ledger n (set_m_coreStartRequest noRequest (set_m_guardCoreRestart None w))) in H.
  destruct (0 <=? _); [rewrite ledger_answer|]; lia.
Qed.

Lemma ledger_onKillSwitchStateChanged env id w : ledger n (onKillSwitchStateChanged env id w) = ledger n w.
Proof.
  unfold onKillSwitchStateChanged. cbv zeta. set (w1 := emit _ _). assert (ledger n w1 = ledger n w) as <- by done. clearbody w1.
  assert (forall i, requestOk (plainRequest i)) as Hp by (intros i Hi; destruct Hi; done).
  destruct (_ && _); [|done]. destruct (_ && _).
  - pose proof (ledger_release w1) as H. unfold slot in H. destruct (Z.leb_spec 0 (profileId (m_coreStartRequest w1))) as [Hi|].
    + rewrite ledger_restartCoreForGuard by (intros _; exact Hi). exact H.
    + rewrite ledger_restartCoreForGuard, one_plain by done. lia.
  - rewrite ledger_restartCoreForGuard, one_plain by done. lia.
Qed.

Lemma ledger_onCoreStarted core env id w : locked w -> ledger n (onCoreStarted core env id w) = ledger n w.
Proof.
  intros Hl. unfold onCoreStarted. cbv zeta. set (w0 := if guardFailedForPrivileges core then _ else _).
  assert (sameLedger w w0) as H0 by (unfold w0; destruct (guardFailedForPrivileges core); by split_and!).
  pose proof (same_trans _ _ _ H0 (same_quiet _ _ (quiet_restoreModes core env w0))) as H1.
  pose proof (startable_same _ _ H1 (startable_locked _ Hl)) as Hs. rewrite <- (ledger_same n _ _ H1).
  set (w1 := restoreModes core env w0) in *. clearbody w1. clear H0 H1 Hl. clearbody w0.
  pose proof (ledger_release w1) as H. set (w2 := set_m_bootSerial 0 (set_m_coreStartRequest noRequest w1)).
  change (ledger n (set_m_coreStartRequest noRequest w1)) with (ledger n w2) in H. assert (startable w2) as Hs2 by exact Hs. clearbody w2.
  set (q := m_coreStartRequest w1) in *. set (bs := m_bootSerial w1). clearbody q bs. clear Hs.
  set (w3 := if (0 <=? profileId q) && _ then _ else w2). set (next := if profileId q =? id then q else plainRequest id).
  change (ledger n (emit EffStatusChanged ?u)) with (ledger n u). unfold slot in H.
  assert (startable w3) as Hs3 by (unfold w3; destruct (_ && _); exact Hs2).
  assert (forall u, ledger n (if m_tunRestoreHeld w3 && negb (serial next =? 0) && (serial next =? bs) then answer next TunFailed w3
                    else start u next w3) = (ledger n w3 + one n next)%nat) as Hgo
    by (intros u; destruct (m_tunRestoreHeld w3 && _ && _); [apply ledger_answer|by apply ledger_start]).
  destruct (Z.eqb_spec (profileId q) id) as [Ei|Ei].
  - assert (w3 = w2) as E3 by (unfold w3; by rewrite andb_false_r). rewrite Ei in H.
    destruct (0 <=? id); [rewrite Hgo|]; rewrite E3; subst next; lia.
  - assert (ledger n w3 = (ledger n w2 + if (0 <=? profileId q)%Z then one n q else 0)%nat) as E3.
    { unfold w3. destruct (0 <=? profileId q); cbn [andb negb]; [apply ledger_answer|lia]. }
    destruct (0 <=? id); [rewrite Hgo; subst next; rewrite one_plain|]; lia.
Qed.

Lemma ledger_request env id i serial w (b : bool) : locked w ->
  ledger n (if b then start env (MkRequest id i serial false) w else w) = (ledger n w + asks n serial b)%nat.
Proof.
  intros Hl. destruct b; cbn; [|lia]. rewrite (ledger_startAfter env _ w w); [done|apply same_refl|exact Hl].
Qed.

Lemma ledger_setTun env enable change w : locked w ->
  ledger n (setTun env enable change w) = (ledger n w + asksSome n (snd (setTunMode (modes env) enable change w)))%nat.
Proof.
  intros Hl. unfold setTun. pose proof (same_quiet _ _ (quiet_setTunMode (modes env) enable change w)) as H.
  destruct (setTunMode _ _ _ _) as [w1 r]. cbn [fst snd] in *. rewrite ledger_startSome by by eapply startable_same, startable_locked.
  by rewrite (ledger_same n _ _ H).
Qed.

Lemma ledger_setSystemProxy env enable change w : locked w ->
  ledger n (setSystemProxy env enable change w) = (ledger n w + asked n w (EvSetSystemProxy env enable change))%nat.
Proof.
  intros Hl. unfold setSystemProxy, asked. destruct (setProxyMode _ _ _ _) as [[w1 r]|] eqn:E.
  - rewrite (ledger_same n _ _ (same_quiet _ _ (quiet_rememberProxy enable change _))).
    pose proof (same_quiet _ _ (quiet_setProxyMode _ _ _ _ _ _ E)) as H.
    rewrite ledger_startSome by by eapply startable_same, startable_locked. by rewrite (ledger_same n _ _ H).
  - rewrite (ledger_same n _ _ (same_quiet _ _ (quiet_proxyRefused _ _ _))). lia.
Qed.

Lemma ledger_stop o w : ledger n (stop o w) = ledger n w.
Proof.
  unfold stop. cbv zeta. assert (ledger n (noteManual o w) = ledger n w) as <- by (unfold noteManual; by destruct (manual o)).
  destruct (m_running _); [apply ledger_stopLock|]. by destruct (_ && _).
Qed.

(** *** Every event *)

Lemma ledger_step foldCase w e : locked w -> ledger n (connStep foldCase w e) = (ledger n w + asked n w e)%nat.
Proof.
  intros Hl. pose proof (startable_locked _ Hl) as Hs. destruct e; cbn [connStep asked]; rewrite ?Nat.add_0_r.
  - by apply ledger_start.
  - exact (ledger_deferStartToCore r (set_m_bootSerial (serial r) w)).
  - apply ledger_stop.
  - by apply ledger_onSettled.
  - by apply ledger_onDnsSelected.
  - by destruct (isEmpty _).
  - by apply ledger_onRanked.
  - by apply ledger_setTun.
  - by apply ledger_setSystemProxy.
  - rewrite <- (ledger_request env (started_id w) interactive serial) by done. f_equal.
    unfold chooseRoute. rewrite Z.ltb_antisym. by destruct changed, (0 <=? started_id w), (_ && _).
  - rewrite <- (ledger_request env (started_id w) interactive serial) by done. f_equal.
    unfold restartStartedProfile. rewrite Z.ltb_antisym. by destruct (0 <=? started_id w).
  - unfold applyPendingRestart. cbv zeta. pose proof (same_quiet _ _ (quiet_clearRestartNeeded w)) as H.
    destruct (_ <=? _); [by apply ledger_plainAfter|by apply ledger_same].
  - apply ledger_same, same_quiet, quiet_noteRestartNeeded.
  - unfold retryAfterGeoFetch. destruct (negb _); [done|]. destruct (_ || _); [done|]. destruct (_ =? _); [done|].
    rewrite (ledger_startAfter env _ w); [|by split_and!|exact Hl].
    unfold one. cbn [serial]. destruct (Z.eqb_spec 0 n); lia.
  - apply ledger_starterStep.
  - unfold starterLeaves. destruct (leaving w !! k) as [[started sw]|]; [|done]. rewrite ledger_queue. apply Nat.add_0_r.
  - apply ledger_stopperStep.
  - apply ledger_stopDone.
  - by apply ledger_ui.
  - by apply ledger_onCoreStarted.
  - apply ledger_onCoreGaveUp.
  - done.
  - apply ledger_onKillSwitchStateChanged.
  - done.
  - done.
Qed.
End Ledger.

Section Requests.
Context (foldCase : Z -> Z).

Lemma ledger_run n w evs : n <> 0 -> locked w -> ledger n (connRun foldCase w evs) = (ledger n w + askedIn foldCase n w evs)%nat.
Proof.
  intros Hn. revert w. induction evs as [|e evs IH]; intros w Hl; cbn [askedIn]; [cbn; lia|].
  change (connRun foldCase w (e :: evs)) with (connRun foldCase (connStep foldCase w e) evs).
  rewrite IH by by apply connStep_advances. rewrite ledger_step by done. lia.
Qed.

(** C25: every start request someone waits for is answered once: in any run, the
    answers to a serial and the places that still hold it number as many as the
    times it was asked for, whatever was superseded, refused, deferred to the
    kill switch, the core, the DNS search or a ranking, or handed to a worker. *)
Theorem requests_answered_once n rememberId startedId evs : n <> 0 ->
  let w := connRun foldCase (newConn rememberId startedId) evs in
  (answersTo n w + heldFor n w = askedIn foldCase n (newConn rememberId startedId) evs)%nat.
Proof.
  intros Hn. cbv zeta. fold (ledger n (connRun foldCase (newConn rememberId startedId) evs)). rewrite ledger_run by done. done.
Qed.
End Requests.

(** A start deferred to an arming kill switch, superseded by a second one, which
    then starts: two answers. *)
Definition arming : StartEnv :=
  MkEnv Sample.modesEnv true true None false true KsArming true false true false true false false true.
Definition superseded : list ConnEvent :=
  [EvCoreRunning true; EvStart arming (MkRequest 7 true 1 false); EvStart arming (MkRequest 8 true 2 false); EvSettled Sample.env;
   EvStarter Sample.fine; EvStarter Sample.fine; EvStarter Sample.fine; EvUi Sample.env false].

Lemma requests_answered_once_witness :
  (answersTo 1 (Sample.run superseded) + heldFor 1 (Sample.run superseded) = 1)%nat /\
  answered (Sample.run superseded) = [(1, 7, Superseded); (2, 8, Started)].
Proof.
  split; [|vm_compute; reflexivity].
  exact (requests_answered_once (fun c => c) 1 (-1) (-1) superseded (fun H => match Z.neq_succ_diag_l 0 H with end)).
Defined.
