(* ===== verification/ConfigChains.v ===== *)
(** * Hop chains of the core's configuration (src/src/configs/generate.cpp)

    How a list of profiles becomes linked outbounds: the hops that sing-box runs,
    those that its Xray sidecar runs, and the local bridges between the two cores.
    A profile is the record of what the builder asks its outbound; [Build] and
    [BuildXray] give an object and an error. The repositories, the settings, the
    probes for free ports, the random secrets and the edits of Xray's JSON are the
    environment [BuildEnv]. *)

From Stdlib Require Import Ascii String.
From S2P Require Import Prelude QtText Json Lists.

Local Open Scope Z_scope.
#[local] Set Warnings "-register-all".

(** ** QMap with text keys: its members by key *)

Fixpoint qless (a b : qstring) : bool :=
  match a, b with
  | _, [] => false
  | [], _ :: _ => true
  | x :: a, y :: b => (x <? y) || ((x =? y) && qless a b)
  end.
Abbreviation qmap A := (list (qstring * A)).
Fixpoint qmapSet {A} (k : qstring) (v : A) (m : qmap A) : qmap A :=
  match m with
  | [] => [(k, v)]
  | (k', v') :: m' => if bool_decide (k = k') then (k, v) :: m' else if qless k k' then (k, v) :: m else (k', v') :: qmapSet k v m'
  end.
Fixpoint qmapGet {A} (k : qstring) (m : qmap A) : option A :=
  match m with [] => None | (k', v) :: m' => if bool_decide (k = k') then Some v else qmapGet k m' end.

(** ** Tags *)

Definition tagProxy : qstring := qs "proxy".
Definition tagDirect : qstring := qs "direct".
Definition tagWarpBypass : qstring := qs "warp-bypass".
Definition tagL3Direct : qstring := qs "l3-direct".
Definition tagDnsRemote : qstring := qs "dns-remote".
Definition tagDnsDirect : qstring := qs "dns-direct".
Definition tagDnsPinned : qstring := qs "dns-pinned".
Definition tagDnsLocal : qstring := qs "dns-local".
Definition tagDnsFake : qstring := qs "dns-fake".
Definition tagDnsTailscale : qstring := qs "dns-tailscale".
Definition tagDnsHosts : qstring := qs "dns-hosts".
Definition dnsVpnPrefix : qstring := qs "dns-vpn".
Definition dnsEchPrefix : qstring := qs "dns-ech".
Definition tagXrayFullConfigIn : qstring := qs "throne-bridge".
Definition mainChainPrefix : qstring := qs "config".
Definition routeChainPrefix : qstring := qs "route".
Definition auxEndpointPrefix : qstring := qs "aux".
Definition poolChainPrefix : qstring := qs "pool".
Definition bridgePrefix : qstring := qs "bridge".

Definition hopTag (prefix : qstring) (index : Z) : qstring := prefix ++ qs "-" ++ number index.
Definition bridgeTagFor (singIngressTag : qstring) : qstring := bridgePrefix ++ qs "-" ++ singIngressTag.

(** ** Data *)

Inductive BuildError :=
| CustomFullInChain | TwoExtraCores | TwoXrayFull | ExtraCoreWithXrayFull | XrayFullWithXrayHops | ExtraCoreNotLast
| XrayFullNotLast | TooManyTransitions | ChainInChain | SelectorAsHop
| MissingChainHop (chain : qstring) (id : Z) | DeletedFrontProxy (group : qstring) | DeletedLandingProxy (group : qstring) | MissingProxy
| HopBuildFailed (text : qstring) | NotACustom | XrayFullNotJson | NoFullConfigPort | NoSingToXrayPort | NoXrayToSingPort
| BridgeMismatch | XrayIngressMismatch | NoGroup | CorruptChain | CorruptSelector | SelectorPlanFailed (text : qstring)
| MemberWithoutXrayConfig | NoUsableMembers | NoRoutingProfile | WarpNotConfigured | MissingOutbounds | ForbiddenOutbound
| EmptyChainOutbound | ChainOutboundMissing | ForbiddenChainHop | MissingEndpoint (id : Z) | EmptyEndpoint (name : qstring)
| EndpointHopMissing (name : qstring) | EndpointNotTunnel (name : qstring) | ForbiddenEndpointHop (name : qstring)
| XrayEndpointHop (name : qstring) | EndpointAlsoUsed (name : qstring) | EndpointTwice (name : qstring) | NotAnExtraCore | RawRouteNotJson.

Record Tls := MkTls {
  tlsEnabled : bool; echEnabled : bool; echConfig : bool; echConfigPath : qstring; echServerName : qstring;
  echResolver : qstring; tlsServerName : qstring }.

(** [p_chain] is the hop list of a chain; [p_custom] the parsed configuration of
    a custom profile and the host its bridge listens on; [p_tunnelDns] and
    [p_onlyAdvertised] are those of OpenVPN and OpenConnect; [p_socks4] is SOCKS4
    with local name resolution. *)
Record Profile := MkProfile {
  p_id : Z; p_gid : Z; p_type : qstring; p_name : qstring;
  p_server : qstring;
  p_chain : option (list Z);
  p_custom : option (QJsonObject * qstring);
  IsXray : bool; IsXrayFullConfig : bool; IsExtraCore : bool; IsEndpoint : bool; customFullConfig : bool;
  p_socks4 : bool; p_realmActive : bool; p_tls : option Tls;
  p_tunnelDns : qstring; p_onlyAdvertised : bool;
  Build : QJsonObject * qstring; BuildXray : QJsonObject * qstring }.

Record Group := MkGroup { g_name : qstring; landing_proxy_id : Z; front_proxy_id : Z }.
Record Bridge := MkBridge { b_needed : bool; b_port : Z; b_auth : qstring; b_host : qstring }.
Definition noBridge : Bridge := MkBridge false (-1) [] (qs "127.0.0.1").
Definition bridgeOn (port : Z) (auth : qstring) : Bridge := MkBridge true port auth (qs "127.0.0.1").

(** An Xray outbound: its object, the tag it dials through, and whether it trusts
    the system's certificates. *)
Record XrayOutbound := MkXray { x_tag : qstring; x_object : QJsonObject; x_dialer : option qstring; x_systemCA : bool }.

Inductive TrafficChainKind := KindMain | KindRoute | KindAux.
Record TrafficChainGroup := MkChainGroup {
  watchTag : qstring; tg_profiles : list Profile; tg_kind : TrafficChainKind; tg_profileId : Z; tg_name : qstring }.

Record AutoSelectorBuildInfo := MkSelectorInfo { i_groupTag : qstring; i_profile : Profile; i_members : list (qstring * Profile) }.

Definition warpProfileID : Z := -2408.

Record BuildEnv := MkBuildEnv {
  getProfile : Z -> option Profile;
  getGroup : Z -> option Group;
  allGroupIds : list Z;
  warpType : qstring;
  warpBuild : QJsonObject * qstring;
  liveProfile : Profile -> Profile;
  isIpText : qstring -> bool;
  toAceHost : qstring -> qstring;
  toLower : qstring -> qstring;
  dnsAddressType : qstring -> option qstring;
  pinnedHosts : list qstring;
  directDomainStrategy : qstring;
  dnsFromJsonDisabled : bool;
  xray_use_system_ca : bool;
  stripXrayDns : QJsonObject -> QJsonObject;
  setXrayDialerProxy : QJsonObject -> qstring -> QJsonObject;
  useXraySystemCA : QJsonObject -> QJsonObject;
  freePorts : Z -> nat -> list Z;
  randomText : Z -> qstring }.

(** The built-in WARP profile, an endpoint of sing-box. *)
Definition warpProfile (env : BuildEnv) : Profile :=
  MkProfile warpProfileID (-1) (warpType env) (qs "warp") [] None None false false false true false false false None [] false
    (warpBuild env) ([], []).

Record BuildContext := MkContext {
  forTest : bool;
  tunEnabled : bool;
  isResolvedUsed : bool;
  proxyUsesXray : bool;
  singToXrayTransitioned : bool;
  xrayToSingTransitioned : bool;
  ent : Profile;
  errors : list BuildError;
  outbounds : list QJsonObject;
  endpoints : list QJsonObject;
  xrayOutbounds : list XrayOutbound;
  vpnEndpointTags : qmap qstring;
  vpnGateTags : list qstring;
  vpnAuxTags : list qstring;
  echQueryNames : list qstring;
  vpnStrictTag : qstring;
  xrayIngressTags : list qstring;
  singIngressTags : list qstring;
  singToXrayBridges : list Bridge;
  xrayToSingBridges : list Bridge;
  echResolvers : qmap qstring;
  coreConfig : QJsonObject;
  xrayConfig : QJsonObject;
  isXrayNeeded : bool;
  xrayFullConfigs : list QJsonObject;
  chainGroups : list TrafficChainGroup;
  vpnEndpointProfiles : qmap Z;
  outboundNames : qmap qstring;
  autoSelectors : list AutoSelectorBuildInfo;
  probes : Z;
  draws : Z }.

Definition ctxEta (c : BuildContext) : BuildContext :=
  MkContext (forTest c) (tunEnabled c) (isResolvedUsed c) (proxyUsesXray c) (singToXrayTransitioned c)
    (xrayToSingTransitioned c) (ent c) (errors c) (outbounds c) (endpoints c) (xrayOutbounds c) (vpnEndpointTags
    c) (vpnGateTags c) (vpnAuxTags c) (echQueryNames c) (vpnStrictTag c) (xrayIngressTags c) (singIngressTags c)
    (singToXrayBridges c) (xrayToSingBridges c) (echResolvers c) (coreConfig c) (xrayConfig c) (isXrayNeeded c)
    (xrayFullConfigs c) (chainGroups c) (vpnEndpointProfiles c) (outboundNames c) (autoSelectors c)
    (probes c) (draws c).
Definition set_forTest (v : bool) (c : BuildContext) : BuildContext := ltac:(setter ctxEta forTest v c).
Definition set_tunEnabled (v : bool) (c : BuildContext) : BuildContext := ltac:(setter ctxEta tunEnabled v c).
Definition set_isResolvedUsed (v : bool) (c : BuildContext) : BuildContext := ltac:(setter ctxEta isResolvedUsed v c).
Definition set_proxyUsesXray (v : bool) (c : BuildContext) : BuildContext := ltac:(setter ctxEta proxyUsesXray v c).
Definition set_singToXrayTransitioned (v : bool) (c : BuildContext) : BuildContext := ltac:(setter ctxEta singToXrayTransitioned v c).
Definition set_xrayToSingTransitioned (v : bool) (c : BuildContext) : BuildContext := ltac:(setter ctxEta xrayToSingTransitioned v c).
Definition set_ent (v : Profile) (c : BuildContext) : BuildContext := ltac:(setter ctxEta ent v c).
Definition set_errors (v : list BuildError) (c : BuildContext) : BuildContext := ltac:(setter ctxEta errors v c).
Definition set_outbounds (v : list QJsonObject) (c : BuildContext) : BuildContext := ltac:(setter ctxEta outbounds v c).
Definition set_endpoints (v : list QJsonObject) (c : BuildContext) : BuildContext := ltac:(setter ctxEta endpoints v c).
Definition set_xrayOutbounds (v : list XrayOutbound) (c : BuildContext) : BuildContext := ltac:(setter ctxEta xrayOutbounds v c).
Definition set_vpnEndpointTags (v : qmap qstring) (c : BuildContext) : BuildContext := ltac:(setter ctxEta vpnEndpointTags v c).
Definition set_vpnGateTags (v : list qstring) (c : BuildContext) : BuildContext := ltac:(setter ctxEta vpnGateTags v c).
Definition set_vpnAuxTags (v : list qstring) (c : BuildContext) : BuildContext := ltac:(setter ctxEta vpnAuxTags v c).
Definition set_echQueryNames (v : list qstring) (c : BuildContext) : BuildContext := ltac:(setter ctxEta echQueryNames v c).
Definition set_vpnStrictTag (v : qstring) (c : BuildContext) : BuildContext := ltac:(setter ctxEta vpnStrictTag v c).
Definition set_xrayIngressTags (v : list qstring) (c : BuildContext) : BuildContext := ltac:(setter ctxEta xrayIngressTags v c).
Definition set_singIngressTags (v : list qstring) (c : BuildContext) : BuildContext := ltac:(setter ctxEta singIngressTags v c).
Definition set_singToXrayBridges (v : list Bridge) (c : BuildContext) : BuildContext := ltac:(setter ctxEta singToXrayBridges v c).
Definition set_xrayToSingBridges (v : list Bridge) (c : BuildContext) : BuildContext := ltac:(setter ctxEta xrayToSingBridges v c).
Definition set_echResolvers (v : qmap qstring) (c : BuildContext) : BuildContext := ltac:(setter ctxEta echResolvers v c).
Definition set_coreConfig (v : QJsonObject) (c : BuildContext) : BuildContext := ltac:(setter ctxEta coreConfig v c).
Definition set_xrayConfig (v : QJsonObject) (c : BuildContext) : BuildContext := ltac:(setter ctxEta xrayConfig v c).
Definition set_isXrayNeeded (v : bool) (c : BuildContext) : BuildContext := ltac:(setter ctxEta isXrayNeeded v c).
Definition set_xrayFullConfigs (v : list QJsonObject) (c : BuildContext) : BuildContext := ltac:(setter ctxEta xrayFullConfigs v c).
Definition set_chainGroups (v : list TrafficChainGroup) (c : BuildContext) : BuildContext := ltac:(setter ctxEta chainGroups v c).
Definition set_vpnEndpointProfiles (v : qmap Z) (c : BuildContext) : BuildContext := ltac:(setter ctxEta vpnEndpointProfiles v c).
Definition set_outboundNames (v : qmap qstring) (c : BuildContext) : BuildContext := ltac:(setter ctxEta outboundNames v c).
Definition set_autoSelectors (v : list AutoSelectorBuildInfo) (c : BuildContext) : BuildContext := ltac:(setter ctxEta autoSelectors v c).
Definition set_probes (v : Z) (c : BuildContext) : BuildContext := ltac:(setter ctxEta probes v c).
Definition set_draws (v : Z) (c : BuildContext) : BuildContext := ltac:(setter ctxEta draws v c).

(** [ctx.error = ...] and [ctx.error += ...] *)
Definition fail (e : BuildError) (c : BuildContext) : BuildContext := set_errors [e] c.
Definition failMore (e : BuildError) (c : BuildContext) : BuildContext := set_errors (errors c ++ [e]) c.
Definition failed (c : BuildContext) : bool := negb (isEmpty (errors c)).

(** ** The hops of a chain *)

Record ChainScan := MkScan {
  hopCount : Z; extraCoreCount : Z; extraCoreIdx : Z; xrayFullConfigCount : Z; xrayFullConfigIdx : Z; xrayHopCount : Z;
  hasCustomFullConfig : bool; coreTransitions : Z }.

Definition chainScanError (s : ChainScan) : option BuildError :=
  if hasCustomFullConfig s then Some CustomFullInChain
  else if 1 <? extraCoreCount s then Some TwoExtraCores
  else if 1 <? xrayFullConfigCount s then Some TwoXrayFull
  else if (0 <? extraCoreCount s) && (0 <? xrayFullConfigCount s) then Some ExtraCoreWithXrayFull
  else if (0 <? xrayFullConfigCount s) && (0 <? xrayHopCount s) then Some XrayFullWithXrayHops
  else if (extraCoreCount s =? 1) && (1 <? hopCount s) && negb (extraCoreIdx s =? hopCount s - 1) then Some ExtraCoreNotLast
  else if (xrayFullConfigCount s =? 1) && (1 <? hopCount s) && negb (xrayFullConfigIdx s =? hopCount s - 1) then Some XrayFullNotLast
  else if 2 <? coreTransitions s then Some TooManyTransitions
  else None.

Definition unwrapChain (env : BuildEnv) (entID : Z) : list Z :=
  match getProfile env entID with
  | None => []
  | Some p => if bool_decide (p_type p = qs "chain") then rev (default [] (p_chain p)) else [entID]
  end.

Definition missingHopError (env : BuildEnv) (c : BuildContext) (id : Z) : BuildError :=
  let groupError gid :=
    match getGroup env gid with
    | None => None
    | Some g =>
        if front_proxy_id g =? id then Some (DeletedFrontProxy (g_name g))
        else if landing_proxy_id g =? id then Some (DeletedLandingProxy (g_name g)) else None
    end in
  let inGroups :=
    default MissingProxy (foldr (fun gid rest => match groupError gid with Some e => Some e | None => rest end) None
                            (p_gid (ent c) :: allGroupIds env)) in
  if bool_decide (p_type (ent c) = qs "chain") then
    match p_chain (ent c) with
    | Some hops => if existsb (Z.eqb id) hops then MissingChainHop (p_name (ent c)) id else inGroups
    | None => inGroups
    end
  else inGroups.

(** The loop of entIDListtoEntList: whether the last hop runs on Xray, what was
    counted, and the hops found. *)
Definition scanHop (p : Profile) (n : Z) (s : ChainScan) : ChainScan :=
  MkScan (hopCount s)
    (if IsExtraCore p then extraCoreCount s + 1 else extraCoreCount s) (if IsExtraCore p then n else extraCoreIdx s)
    (if IsXrayFullConfig p then xrayFullConfigCount s + 1 else xrayFullConfigCount s)
    (if IsXrayFullConfig p then n else xrayFullConfigIdx s)
    (if IsXray p then xrayHopCount s + 1 else xrayHopCount s)
    (hasCustomFullConfig s || customFullConfig p)
    (coreTransitions s).
Definition transition (p : Profile) (inXray : bool) (s : ChainScan) : ChainScan :=
  if Bool.eqb (IsXray p) inXray then s
  else MkScan (hopCount s) (extraCoreCount s) (extraCoreIdx s) (xrayFullConfigCount s) (xrayFullConfigIdx s) (xrayHopCount s)
         (hasCustomFullConfig s) (coreTransitions s + 1).
Definition noteTransition (p : Profile) (inXray : bool) (c : BuildContext) : BuildContext :=
  if IsXray p && negb inXray then set_singToXrayTransitioned true c
  else if negb (IsXray p) && inXray then set_xrayToSingTransitioned true c
  else c.

Fixpoint entListLoop (env : BuildEnv) (ids : list Z) (inXray : bool) (s : ChainScan) (ents : list Profile) (c : BuildContext)
    : BuildContext * (list Profile * option ChainScan) :=
  match ids with
  | [] => (c, (ents, Some s))
  | id :: ids =>
      if id =? warpProfileID then
        let p := warpProfile env in
        entListLoop env ids false (transition p inXray s) (ents ++ [p]) (noteTransition p inXray c)
      else
        match getProfile env id with
        | None => (fail (missingHopError env c id) c, (ents, None))
        | Some p =>
            let c := noteTransition p inXray c in
            let s := transition p inXray s in
            if bool_decide (p_type p = qs "chain") then (fail ChainInChain c, (ents, None))
            else if bool_decide (p_type p = qs "autoselector") then (fail SelectorAsHop c, (ents, None))
            else entListLoop env ids (IsXray p) (scanHop p (qsize ents) s) (ents ++ [p]) c
        end
  end.

Definition entIDListtoEntList (env : BuildEnv) (ids : list Z) (c : BuildContext) : BuildContext * list Profile :=
  match entListLoop env ids false (MkScan 0 0 (-1) 0 (-1) 0 false 0) [] c with
  | (c, (ents, None)) => (c, ents)
  | (c, (ents, Some s)) =>
      let s := MkScan (qsize ents) (extraCoreCount s) (extraCoreIdx s) (xrayFullConfigCount s) (xrayFullConfigIdx s) (xrayHopCount s)
                 (hasCustomFullConfig s) (coreTransitions s) in
      (match chainScanError s with Some e => fail e c | None => c end, ents)
  end.

(** ** The two cores *)

Record hopChainOptions := MkHopOptions {
  o_prefix : qstring; o_includeProxy : bool; o_link : bool; o_startSuffix : Z; o_markIngress : bool; o_warpWrap : bool;
  o_auxiliary : bool; o_addressableTags : list qstring }.

Definition resolvesHostnamesViaDnsRules (p : Profile) : bool := IsEndpoint p || p_socks4 p.
Definition usableEchResolver (env : BuildEnv) (resolver : qstring) : bool :=
  match dnsAddressType env resolver with Some t => negb (bool_decide (t = qs "dhcp")) | None => false end.

Definition serverIsPinned (env : BuildEnv) (p : Profile) : bool :=
  let host := toLower env (trimmed (p_server p)) in negb (isEmpty host) && bool_decide (host ∈ pinnedHosts env).

Definition collectEchQueryName (env : BuildEnv) (p : Profile) (c : BuildContext) : BuildContext :=
  match p_tls p with
  | None => c
  | Some tls =>
      if negb (tlsEnabled tls && echEnabled tls) then c
      else if echConfig tls || negb (isEmpty (echConfigPath tls)) then c
      else
        let name := if isEmpty (echServerName tls) then tlsServerName tls else echServerName tls in
        let name := if isEmpty name then p_server p else name in
        let name := toAceHost env (trimmed name) in
        if isEmpty name || isIpText env name then c
        else if usableEchResolver env (echResolver tls) then
          match qmapGet name (echResolvers c) with
          | Some _ => c
          | None => set_echResolvers (qmapSet name (echResolver tls) (echResolvers c)) c
          end
        else if bool_decide (name ∈ echQueryNames c) then c
        else set_echQueryNames (echQueryNames c ++ [name]) c
  end.

Definition isTunnelType (t : qstring) : bool := bool_decide (t = qs "openvpn") || bool_decide (t = qs "openconnect").

Definition jtext (s : qstring) : QJsonValue := JString s.
Definition directDomainResolver (env : BuildEnv) : QJsonValue :=
  JObject [(qs "server", jtext tagDnsDirect); (qs "strategy", jtext (directDomainStrategy env))].

(** The tag of the hop at position [idx]. *)
Definition singTag (o : hopChainOptions) (idx : Z) : qstring :=
  if o_warpWrap o && (idx =? 1) then tagWarpBypass
  else if o_includeProxy o && (idx =? 0) then tagProxy
  else hopTag (o_prefix o) (o_startSuffix o + idx).

Definition noteTunnel (o : hopChainOptions) (idx : Z) (p : Profile) (c : BuildContext) : BuildContext :=
  let tag := singTag o idx in
  let addressable := (idx =? 0) || (o_warpWrap o && (idx =? 1)) || bool_decide (tag ∈ o_addressableTags o) in
  if negb (addressable && isTunnelType (p_type p)) then c
  else
    let c := set_vpnEndpointProfiles (qmapSet tag (p_id p) (vpnEndpointProfiles c)) c in
    let c := if bool_decide (p_tunnelDns p = qs "none") then c else set_vpnEndpointTags (qmapSet tag (p_type p) (vpnEndpointTags c)) c in
    let c := if bool_decide (p_tunnelDns p = qs "strict") && (bool_decide (tag = tagProxy) || bool_decide (tag = tagWarpBypass))
             then set_vpnStrictTag tag c else c in
    if negb (o_auxiliary o) && p_onlyAdvertised p then set_vpnGateTags (vpnGateTags c ++ [tag]) c else c.

(** The object of a hop; [next] is the one it dials through. *)
Definition singObject (env : BuildEnv) (forTest : bool) (o : hopChainOptions) (idx : Z) (p : Profile) (next : option Profile) : QJsonObject :=
  let object := jsonSet (fst (Build p)) (qs "tag") (jtext (singTag o idx)) in
  let object := if p_realmActive p then jsonSet object (qs "domain_resolver") (JObject [(qs "server", jtext tagDnsDirect)]) else object in
  let nextTag := hopTag (o_prefix o) (o_startSuffix o + idx + 1) in
  let linked := match next with Some _ => o_link o | None => false end in
  let object := if linked then jsonSet object (qs "detour") (jtext nextTag) else object in
  let object := if o_warpWrap o && (idx =? 0) then jsonSet object (qs "detour") (jtext tagWarpBypass) else object in
  let object :=
    match next with
    | Some q =>
        if o_link o && negb (IsEndpoint p) && negb (jsonHas object (qs "domain_resolver")) && resolvesHostnamesViaDnsRules q
        then jsonSet object (qs "domain_resolver") (directDomainResolver env) else object
    | None => object
    end in
  if negb forTest && negb (IsEndpoint p) && serverIsPinned env p && negb (p_realmActive p)
  then jsonSet object (qs "domain_resolver") (JObject [(qs "server", jtext tagDnsPinned)]) else object.

Fixpoint buildSingboxChain (env : BuildEnv) (o : hopChainOptions) (idx : Z) (ents : list Profile) (c : BuildContext) : BuildContext :=
  match ents with
  | [] => c
  | p :: rest =>
      let c := if o_markIngress o && (idx =? 0) then set_singIngressTags (singIngressTags c ++ [singTag o idx]) c else c in
      let c := noteTunnel o idx p c in
      if negb (isEmpty (snd (Build p))) then failMore (HopBuildFailed (snd (Build p))) c
      else
        let c := collectEchQueryName env p c in
        let object := singObject env (forTest c) o idx p (head rest) in
        let c := if IsEndpoint p then set_endpoints (endpoints c ++ [object]) c else set_outbounds (outbounds c ++ [object]) c in
        buildSingboxChain env o (idx + 1) rest c
  end.

Definition xrayHopTag (o : hopChainOptions) (idx : Z) : qstring :=
  if o_includeProxy o && (idx =? 0) then tagProxy else hopTag (o_prefix o) (o_startSuffix o + idx).

Fixpoint buildXrayHops (env : BuildEnv) (o : hopChainOptions) (bridge : Bridge) (idx : Z) (ents : list Profile) (c : BuildContext)
    : BuildContext * bool :=
  match ents with
  | [] => (c, true)
  | p :: rest =>
      let nextTag := if negb (isEmpty rest) || b_needed bridge then Some (hopTag (o_prefix o) (o_startSuffix o + idx + 1)) else None in
      let c := if idx =? 0 then set_xrayIngressTags (xrayIngressTags c ++ [xrayHopTag o idx]) c else c in
      if negb (isEmpty (snd (BuildXray p))) then (failMore (HopBuildFailed (snd (BuildXray p))) c, false)
      else
        let x := MkXray (xrayHopTag o idx) (fst (BuildXray p)) (if o_link o || b_needed bridge then nextTag else None) (xray_use_system_ca env) in
        buildXrayHops env o bridge (idx + 1) rest (set_xrayOutbounds (xrayOutbounds c ++ [x]) c)
  end.

Definition backBridgeDial (b : Bridge) : QJsonObject :=
  [(qs "protocol", jtext (qs "socks"));
   (qs "settings", JObject [(qs "address", jtext (b_host b)); (qs "port", JInt (b_port b)); (qs "user", jtext (b_auth b)); (qs "pass", jtext (b_auth b))])].
Definition bridgeOutbound (o : hopChainOptions) (n : Z) (b : Bridge) : XrayOutbound :=
  MkXray (hopTag (o_prefix o) (o_startSuffix o + n)) (backBridgeDial b) None false.

(** A hop that fails returns before the bridge. *)
Definition buildXrayChain (env : BuildEnv) (o : hopChainOptions) (bridge : Bridge) (ents : list Profile) (c : BuildContext) : BuildContext :=
  match buildXrayHops env o bridge 0 ents c with
  | (c, false) => c
  | (c, true) => if b_needed bridge then set_xrayOutbounds (xrayOutbounds c ++ [bridgeOutbound o (qsize ents) bridge]) c else c
  end.

(** ** A whole chain *)

Record ChainBuildRequest := MkChainRequest {
  hopIDs : list Z; r_prefix : qstring; r_includeProxy : bool; r_link : bool; r_startSuffix : Z; r_singToXrayPort : Z;
  r_xrayToSingPort : Z; r_xrayFullConfigPort : Z; soleXrayInbound : bool; r_warpWrap : bool; r_auxiliary : bool;
  r_addressableTags : list qstring }.

(** What dials a bridge: ProfilesRepo::NewProfile("socks") pointed at it, and a
    whole Xray configuration once its bridge is open. *)
Definition bridgeDial (b : Bridge) : QJsonObject :=
  [(qs "type", jtext (qs "socks")); (qs "server", jtext (b_host b)); (qs "server_port", JInt (b_port b));
   (qs "username", jtext (b_auth b)); (qs "password", jtext (b_auth b))].
Definition bridgeProfile (b : Bridge) : Profile :=
  MkProfile (-1) 0 (qs "socks") [] (b_host b) None None false false false false false false false None [] false
    (bridgeDial b, []) ([], []).
Definition withBuild (o : QJsonObject) (p : Profile) : Profile :=
  MkProfile (p_id p) (p_gid p) (p_type p) (p_name p) (p_server p) (p_chain p) (p_custom p) (IsXray p) (IsXrayFullConfig p)
    (IsExtraCore p) (IsEndpoint p) (customFullConfig p) (p_socks4 p) (p_realmActive p) (p_tls p) (p_tunnelDns p)
    (p_onlyAdvertised p) (o, []) (BuildXray p).

Definition xraySocksInbound (tag : qstring) (b : Bridge) : QJsonObject :=
  [(qs "tag", jtext tag); (qs "listen", jtext (b_host b)); (qs "port", JInt (b_port b)); (qs "protocol", jtext (qs "socks"));
   (qs "settings", JObject [(qs "auth", jtext (qs "password")); (qs "udp", JBool true);
      (qs "accounts", JArray [JObject [(qs "user", jtext (b_auth b)); (qs "pass", jtext (b_auth b))]])])].

Definition socksBridgeInbound (tag : qstring) (b : Bridge) : QJsonObject :=
  [(qs "type", jtext (qs "socks")); (qs "tag", jtext tag); (qs "listen", jtext (b_host b)); (qs "listen_port", JInt (b_port b));
   (qs "users", JArray [JObject [(qs "username", jtext (b_auth b)); (qs "password", jtext (b_auth b))]])].

Definition probe (env : BuildEnv) (n : nat) (c : BuildContext) : list Z * BuildContext :=
  (freePorts env (probes c) n, set_probes (probes c + 1) c).
Definition draw (env : BuildEnv) (c : BuildContext) : qstring * BuildContext := (randomText env (draws c), set_draws (draws c + 1) c).

(** The user's whole Xray configuration behind a bridge of its own. *)
Definition fullConfigJson (env : BuildEnv) (req : ChainBuildRequest) (test : bool) (config : QJsonObject) (b : Bridge) : QJsonObject :=
  let config := if dnsFromJsonDisabled env then stripXrayDns env config else config in
  let inbound := jsonSet (xraySocksInbound tagXrayFullConfigIn b) (qs "sniffing")
        (JObject [(qs "enabled", JBool true);
                  (qs "destOverride", JArray [jtext (qs "http"); jtext (qs "tls"); jtext (qs "quic")]);
                  (qs "routeOnly", JBool false)]) in
  let inbounds := if test || soleXrayInbound req then [] else jsonToArray (jsonGet config (qs "inbounds")) in
  let config := jsonSet config (qs "inbounds") (JArray (JObject inbound :: inbounds)) in
  let trust v := match v with JObject o => JObject (useXraySystemCA env o) | _ => v end in
  if xray_use_system_ca env
  then jsonSet config (qs "outbounds") (JArray (map trust (jsonToArray (jsonGet config (qs "outbounds"))))) else config.

Definition fullConfigHop (env : BuildEnv) (req : ChainBuildRequest) (p : Profile) (c : BuildContext) : BuildContext * Profile :=
  match p_custom p with
  | None => (fail NotACustom c, p)
  | Some (config, bridgeHost) =>
      if isEmpty config then (fail XrayFullNotJson c, p)
      else
        let '(port, c) := if r_xrayFullConfigPort req <=? 0 then let '(ps, c) := probe env 1 c in (default 0 (head ps), c)
                          else (r_xrayFullConfigPort req, c) in
        if port <=? 0 then (fail NoFullConfigPort c, p)
        else
          let '(auth, c) := draw env c in
          let b := MkBridge true port auth bridgeHost in
          (set_isXrayNeeded true (set_xrayConfig (fullConfigJson env req (forTest c) config b) c), withBuild (bridgeDial b) p)
  end.

(** The last hop may be such a configuration. *)
Definition openFullConfig (env : BuildEnv) (req : ChainBuildRequest) (ents : list Profile) (c : BuildContext) : BuildContext * list Profile :=
  match last ents with
  | Some p =>
      if IsXrayFullConfig p then let '(c, p) := fullConfigHop env req p c in (c, removelast ents ++ [p]) else (c, ents)
  | None => (c, ents)
  end.

(** The hops before the first one on Xray, those on Xray, and the rest. *)
Fixpoint splitCores (ents initial xray tailing : list Profile) : list Profile * list Profile * list Profile :=
  match ents with
  | [] => (initial, xray, tailing)
  | p :: ents =>
      if IsXray p then splitCores ents initial (xray ++ [p]) tailing
      else if isEmpty xray then splitCores ents (initial ++ [p]) xray tailing
      else splitCores ents initial xray (tailing ++ [p])
  end.

(** [ports]: what the one probe of the chain left, once it was made. *)
Definition bridgePort (env : BuildEnv) (given : Z) (ports : list Z) (c : BuildContext) : Z * list Z * BuildContext :=
  if 0 <? given then (given, ports, c)
  else
    let '(ports, c) := if isEmpty ports then probe env 2 c else (ports, c) in
    (default 0 (head ports), tail ports, c).

Definition chainIngress (req : ChainBuildRequest) : qstring :=
  if r_includeProxy req then tagProxy else hopTag (r_prefix req) (r_startSuffix req).

Definition leadingOpts (req : ChainBuildRequest) : hopChainOptions :=
  MkHopOptions (r_prefix req) (r_includeProxy req) (r_link req) (r_startSuffix req) false (r_warpWrap req) (r_auxiliary req) (r_addressableTags req).
Definition tailingOpts (req : ChainBuildRequest) (start : Z) : hopChainOptions :=
  MkHopOptions (r_prefix req) false (r_link req) start true false false [].

(** The bridges a chain needs; [None] when a port could not be reserved. *)
Definition openBridges (env : BuildEnv) (req : ChainBuildRequest) (c : BuildContext)
    : option Bridge * option Bridge * BuildContext :=
  let '(first, ports, c) :=
    if singToXrayTransitioned c then
      let '(port, ports, c) := bridgePort env (r_singToXrayPort req) [] c in
      if port <=? 0 then (None, ports, fail NoSingToXrayPort c)
      else let '(auth, c) := draw env c in
           let b := bridgeOn port auth in (Some b, ports, set_singToXrayBridges (singToXrayBridges c ++ [b]) c)
    else (Some noBridge, [], c) in
  match first with
  | None => (None, None, c)
  | Some b1 =>
      if xrayToSingTransitioned c then
        let '(port, ports, c) := bridgePort env (r_xrayToSingPort req) ports c in
        if port <=? 0 then (Some b1, None, fail NoXrayToSingPort c)
        else let '(auth, c) := draw env c in
             let b := bridgeOn port auth in (Some b1, Some b, set_xrayToSingBridges (xrayToSingBridges c ++ [b]) c)
      else (Some b1, Some noBridge, c)
  end.

Definition buildOutboundChain (env : BuildEnv) (req : ChainBuildRequest) (c : BuildContext) : qstring * BuildContext :=
  let ingressTag := chainIngress req in
  let c := set_xrayToSingTransitioned false (set_singToXrayTransitioned false c) in
  let '(c, ents) := entIDListtoEntList env (hopIDs req) c in
  if failed c then (ingressTag, c)
  else
    let '(c, ents) := openFullConfig env req ents c in
    if failed c then (ingressTag, c)
    else
      let '(initial, xray, tailing) := splitCores ents [] [] [] in
      match openBridges env req c with
      | (Some b1, Some b2, c) =>
          let initial := if b_needed b1 then initial ++ [bridgeProfile b1] else initial in
          let tailingStart := r_startSuffix req + qsize initial in
          let c := buildSingboxChain env (leadingOpts req) 0 initial c in
          let c := if isEmpty xray then c else buildXrayChain env (leadingOpts req) b2 xray c in
          let c := buildSingboxChain env (tailingOpts req tailingStart) 0 tailing c in
          let group := MkChainGroup (if isEmpty tailing then ingressTag else hopTag (r_prefix req) tailingStart)
                         (map (liveProfile env) ents) KindMain (-1) [] in
          (ingressTag, if isEmpty ents then c else set_chainGroups (chainGroups c ++ [group]) c)
      | (_, _, c) => (ingressTag, c)
      end.

(** ** Frames *)

Ltac branches := repeat match goal with |- context [if ?b then _ else _] => destruct b end.

(** What the hops of a chain share with the rest of the build. *)
Definition shape (c : BuildContext) :=
  (forTest c, xrayOutbounds c, xrayIngressTags c, singToXrayBridges c, xrayToSingBridges c, xrayConfig c, chainGroups c).

Lemma noteTunnel_frame o idx p c :
  shape (noteTunnel o idx p c) = shape c /\ singIngressTags (noteTunnel o idx p c) = singIngressTags c /\
  errors (noteTunnel o idx p c) = errors c /\ outbounds (noteTunnel o idx p c) = outbounds c /\ endpoints (noteTunnel o idx p c) = endpoints c.
Proof. unfold noteTunnel. cbv zeta. by branches. Qed.

Lemma collectEchQueryName_frame env p c :
  shape (collectEchQueryName env p c) = shape c /\ singIngressTags (collectEchQueryName env p c) = singIngressTags c /\
  errors (collectEchQueryName env p c) = errors c /\ outbounds (collectEchQueryName env p c) = outbounds c /\
  endpoints (collectEchQueryName env p c) = endpoints c.
Proof. unfold collectEchQueryName. destruct (p_tls p); [|done]. cbv zeta. by repeat match goal with |- context [match ?x with _ => _ end] => destruct x end. Qed.

Definition emitObject (p : Profile) (object : QJsonObject) (c : BuildContext) : BuildContext :=
  if IsEndpoint p then set_endpoints (endpoints c ++ [object]) c else set_outbounds (outbounds c ++ [object]) c.
Definition emitted (c : BuildContext) : list QJsonObject := outbounds c ++ endpoints c.

(** One hop, up to its build. *)
Definition hopBefore (o : hopChainOptions) (idx : Z) (p : Profile) (c : BuildContext) : BuildContext :=
  noteTunnel o idx p (if o_markIngress o && (idx =? 0) then set_singIngressTags (singIngressTags c ++ [singTag o idx]) c else c).

Lemma singbox_cons env o idx p rest c :
  buildSingboxChain env o idx (p :: rest) c =
  if negb (isEmpty (snd (Build p))) then failMore (HopBuildFailed (snd (Build p))) (hopBefore o idx p c)
  else let c' := collectEchQueryName env p (hopBefore o idx p c) in
       buildSingboxChain env o (idx + 1) rest (emitObject p (singObject env (forTest c') o idx p (head rest)) c').
Proof. done. Qed.

Lemma hopBefore_frame o idx p c :
  shape (hopBefore o idx p c) = shape c /\ errors (hopBefore o idx p c) = errors c /\ emitted (hopBefore o idx p c) = emitted c /\
  singIngressTags (hopBefore o idx p c) = singIngressTags c ++ (if o_markIngress o && (idx =? 0) then [singTag o idx] else []).
Proof.
  unfold hopBefore, emitted. set (c1 := if _ && _ then _ else c).
  destruct (noteTunnel_frame o idx p c1) as (H1 & H2 & H3 & H4 & H5). rewrite H1, H2, H3, H4, H5. unfold c1.
  destruct (_ && _); by rewrite ?app_nil_r.
Qed.

Definition tagOf (o : QJsonObject) : qstring := jsonText (jsonGet o (qs "tag")).
Lemma jsonGet_setIf (b : bool) o k v k' : jsonGet (if b then jsonSet o k v else o) k' = if b && bool_decide (k = k') then Some v else jsonGet o k'.
Proof. destruct b; [apply jsonGet_set|done]. Qed.

Lemma singObject_tag env ft o idx p next : tagOf (singObject env ft o idx p next) = singTag o idx.
Proof.
  unfold tagOf, singObject. cbv zeta. set (t := jtext (singTag o idx)).
  destruct next; rewrite !jsonGet_setIf, jsonGet_set_same; cbn [bool_decide]; rewrite !bool_decide_false, ?andb_false_r by done; done.
Qed.

(** What a chain of sing-box hops adds when none fails: an object per hop. *)
Record SingAdded (env : BuildEnv) (o : hopChainOptions) (ents : list Profile) (idx : Z) (c c' : BuildContext) : Prop := {
  sa_shape : shape c' = shape c;
  sa_errors : errors c' = errors c;
  sa_ingress : singIngressTags c' = singIngressTags c ++ (if o_markIngress o && (idx =? 0) && negb (isEmpty ents) then [singTag o idx] else []);
  sa_kept : emitted c ⊆ emitted c';
  sa_hops : forall i p, ents !! i = Some p ->
    singObject env (forTest c) o (idx + Z.of_nat i) p (ents !! S i) ∈ emitted c';
  sa_builds : Forall (fun p => snd (Build p) = []) ents;
  sa_tags : map tagOf (emitted c') ≡ₚ map tagOf (emitted c) ++ imap (fun i _ => singTag o (idx + Z.of_nat i)) ents }.

Lemma shape_forTest c c' : shape c' = shape c -> forTest c' = forTest c.
Proof. unfold shape. by intros [= -> _ _ _ _ _ _]. Qed.

Lemma emitted_emit p object c : emitted (emitObject p object c) ≡ₚ emitted c ++ [object].
Proof.
  unfold emitted, emitObject. destruct (IsEndpoint p); cbn [outbounds endpoints set_outbounds set_endpoints].
  - by rewrite app_assoc.
  - rewrite <- !app_assoc. apply Permutation_app_head, Permutation_app_comm.
Qed.

Lemma emitObject_frame p object c :
  shape (emitObject p object c) = shape c /\ errors (emitObject p object c) = errors c /\
  singIngressTags (emitObject p object c) = singIngressTags c.
Proof. unfold emitObject. by destruct (IsEndpoint p). Qed.

Lemma isEmpty_nil {A} (l : list A) : isEmpty l = true <-> l = [].
Proof. by destruct l. Qed.

(** Errors only grow, so what succeeds has not failed before. *)
Lemma singbox_errors env o ents : forall idx c, exists es, errors (buildSingboxChain env o idx ents c) = errors c ++ es.
Proof.
  induction ents as [|p rest IH]; intros idx c; [exists []; by rewrite app_nil_r|]. rewrite singbox_cons.
  destruct (hopBefore_frame o idx p c) as (_ & He & _). destruct (negb _).
  - exists [HopBuildFailed (snd (Build p))]. cbn. by rewrite He.
  - cbv zeta. set (c1 := collectEchQueryName _ _ _). destruct (IH (idx + 1) (emitObject p (singObject env (forTest c1) o idx p (head rest)) c1)) as [es E].
    exists es. rewrite E. destruct (emitObject_frame p (singObject env (forTest c1) o idx p (head rest)) c1) as (_ & -> & _).
    destruct (collectEchQueryName_frame env p (hopBefore o idx p c)) as (_ & _ & Hc & _). unfold c1. by rewrite Hc, He.
Qed.

Lemma singbox_added env o ents : forall idx c, errors (buildSingboxChain env o idx ents c) = errors c -> 0 <= idx ->
  SingAdded env o ents idx c (buildSingboxChain env o idx ents c).
Proof.
  induction ents as [|p rest IH]; intros idx c He Hi.
  { split; try done; [by rewrite andb_false_r, app_nil_r|by rewrite app_nil_r]. }
  rewrite singbox_cons in *. destruct (hopBefore_frame o idx p c) as (Hs0 & He0 & Hm0 & Hg0).
  destruct (isEmpty (snd (Build p))) eqn:Eb; cbn [negb] in *.
  2:{ cbn in He. rewrite He0 in He. apply (f_equal length) in He. rewrite length_app in He. cbn in He. lia. }
  cbv zeta in *. destruct (collectEchQueryName_frame env p (hopBefore o idx p c)) as (Hs1 & Hg1 & He1 & Ho1 & Hp1).
  set (c1 := collectEchQueryName env p (hopBefore o idx p c)) in *.
  assert (shape c1 = shape c) as Hs by congruence. assert (emitted c1 = emitted c) as Hm by (unfold emitted in *; congruence).
  rewrite (shape_forTest _ _ Hs) in *. set (object := singObject env (forTest c) o idx p (head rest)) in *.
  destruct (emitObject_frame p object c1) as (Hs2 & He2 & Hg2). pose proof (emitted_emit p object c1) as Hm2.
  set (c2 := emitObject p object c1) in *. destruct (IH (idx + 1) c2) as [A1 A2 A3 A4 A5 A6 A7]; [congruence|lia|].
  split; try congruence.
  - rewrite A3, Hg2, Hg1, Hg0. cbn [isEmpty negb]. replace (idx + 1 =? 0) with false by lia.
    by rewrite andb_false_r, andb_true_r, app_nil_r.
  - intros x Hx. apply A4. rewrite Hm2, Hm. set_solver.
  - intros [|i] q Hq.
    + cbn in Hq. injection Hq as <-. rewrite Z.add_0_r. replace (_ !! 1%nat) with (head rest) by by destruct rest.
      apply A4. rewrite Hm2. set_solver.
    + specialize (A5 i q Hq). rewrite (shape_forTest c c2) in A5 by congruence. by replace (idx + Z.of_nat (S i)) with (idx + 1 + Z.of_nat i) by lia.
  - constructor; [by apply isEmpty_nil|done].
  - rewrite A7, imap_cons, Z.add_0_r. rewrite (Permutation_map tagOf Hm2), map_app, Hm, <- app_assoc. cbn [map app]. unfold object.
    rewrite singObject_tag. f_equiv. f_equiv. apply Permutation_refl', imap_ext. intros i q _. cbn. f_equal. lia.
Qed.

(** The Xray outbounds of a chain. *)
Fixpoint xrayList (env : BuildEnv) (o : hopChainOptions) (bridge : Bridge) (idx : Z) (ents : list Profile) : list XrayOutbound :=
  match ents with
  | [] => if b_needed bridge then [bridgeOutbound o idx bridge] else []
  | p :: rest =>
      MkXray (xrayHopTag o idx) (fst (BuildXray p))
        (if (o_link o || b_needed bridge) && (negb (isEmpty rest) || b_needed bridge)
         then Some (hopTag (o_prefix o) (o_startSuffix o + idx + 1)) else None) (xray_use_system_ca env)
      :: xrayList env o bridge (idx + 1) rest
  end.

(** What is not Xray's. *)
Definition aside (c : BuildContext) :=
  (forTest c, singToXrayBridges c, xrayToSingBridges c, xrayConfig c, chainGroups c, singIngressTags c, outbounds c, endpoints c).

Record XrayAdded (env : BuildEnv) (o : hopChainOptions) (bridge : Bridge) (ents : list Profile) (c c' : BuildContext) : Prop := {
  xa_aside : aside c' = aside c;
  xa_errors : errors c' = errors c;
  xa_ingress : xrayIngressTags c' = xrayIngressTags c ++ (if isEmpty ents then [] else [xrayHopTag o 0]);
  xa_outbounds : xrayOutbounds c' = xrayOutbounds c ++ xrayList env o bridge 0 ents }.

Lemma xrayHops_added env o bridge ents : forall idx c c' b, 0 <= idx -> buildXrayHops env o bridge idx ents c = (c', b) ->
  (exists es, errors c' = errors c ++ es /\ (b = false -> es <> [])) /\
  (b = true -> aside c' = aside c /\ errors c' = errors c /\
     xrayIngressTags c' = xrayIngressTags c ++ (if (idx =? 0) && negb (isEmpty ents) then [xrayHopTag o idx] else []) /\
     xrayOutbounds c' ++ (if b_needed bridge then [bridgeOutbound o (idx + qsize ents) bridge] else []) =
       xrayOutbounds c ++ xrayList env o bridge idx ents).
Proof.
  induction ents as [|p rest IH]; intros idx c c' b Hi; cbn [buildXrayHops].
  { intros [= <- <-]. split; [exists []; by rewrite app_nil_r|]. intros _. rewrite andb_false_r, app_nil_r. unfold qsize. cbn. by rewrite Z.add_0_r. }
  set (c1 := if idx =? 0 then _ else c). destruct (isEmpty (snd (BuildXray p))) eqn:Eb; cbn [negb].
  2:{ intros [= <- <-]. split; [|done]. exists [HopBuildFailed (snd (BuildXray p))]. split; [|done]. unfold c1. by destruct (idx =? 0). }
  intros H. apply IH in H; [|lia]. destruct H as [[es [E1 E2]] H]. split.
  { exists es. split; [|done]. rewrite E1. unfold c1. by destruct (idx =? 0). }
  intros Hb. destruct (H Hb) as (A1 & A2 & A3 & A4). cbn [xrayIngressTags xrayOutbounds set_xrayOutbounds] in A3, A4.
  split_and!; [rewrite A1; unfold c1; by destruct (idx =? 0)|rewrite A2; unfold c1; by destruct (idx =? 0)| |].
  - rewrite A3. replace (idx + 1 =? 0) with false by lia. cbn [andb isEmpty negb]. rewrite app_nil_r, andb_true_r.
    unfold c1. by destruct (idx =? 0); rewrite ?app_nil_r.
  - replace (idx + qsize (p :: rest)) with (idx + 1 + qsize rest) by (unfold qsize; cbn [length]; lia). rewrite A4.
    assert (xrayOutbounds c1 = xrayOutbounds c) as -> by (unfold c1; by destruct (idx =? 0)).
    rewrite <- app_assoc. do 2 f_equal. cbn. do 2 f_equal. destruct (o_link o || b_needed bridge), (negb (isEmpty rest) || b_needed bridge); done.
Qed.

Lemma xrayChain_added env o bridge ents c : ents <> [] -> errors (buildXrayChain env o bridge ents c) = errors c ->
  XrayAdded env o bridge ents c (buildXrayChain env o bridge ents c).
Proof.
  intros Hne. unfold buildXrayChain. destruct (buildXrayHops env o bridge 0 ents c) as [c1 b] eqn:E.
  destruct (xrayHops_added env o bridge ents 0 c c1 b ltac:(lia) E) as [[es [E1 E2]] H]. destruct b.
  - destruct (H eq_refl) as (A1 & A2 & A3 & A4). intros _. destruct ents as [|p rest]; [done|]. cbn [isEmpty negb andb Z.eqb] in A3.
    destruct (b_needed bridge); (split; try done). by rewrite app_nil_r in A4.
  - intros He. rewrite E1 in He. apply (f_equal length) in He. rewrite length_app in He. destruct es; [by destruct (E2 eq_refl)|cbn in He; lia].
Qed.

Lemma xrayChain_errors env o bridge ents c : exists es, errors (buildXrayChain env o bridge ents c) = errors c ++ es.
Proof.
  unfold buildXrayChain. destruct (buildXrayHops env o bridge 0 ents c) as [c1 b] eqn:E.
  destruct (xrayHops_added env o bridge ents 0 c c1 b ltac:(lia) E) as [[es [E1 _]] _]. exists es.
  destruct b; [destruct (b_needed bridge)|]; exact E1.
Qed.

(** ** The list of hops *)

Definition hopOf (env : BuildEnv) (id : Z) : option Profile := if id =? warpProfileID then Some (warpProfile env) else getProfile env id.

(** How often a list of hops changes the core, and whether it enters or leaves Xray. *)
Fixpoint changes (inXray : bool) (ents : list Profile) : Z :=
  match ents with [] => 0 | p :: ents => (if Bool.eqb (IsXray p) inXray then 0 else 1) + changes (IsXray p) ents end.
Fixpoint enters (inXray : bool) (ents : list Profile) : bool :=
  match ents with [] => false | p :: ents => (IsXray p && negb inXray) || enters (IsXray p) ents end.
Fixpoint leaves (inXray : bool) (ents : list Profile) : bool :=
  match ents with [] => false | p :: ents => (negb (IsXray p) && inXray) || leaves (IsXray p) ents end.

Definition placed (c : BuildContext) := (shape c, emitted c, singIngressTags c, errors c, outbounds c, endpoints c).

Lemma noteTransition_spec p b c :
  placed (noteTransition p b c) = placed c /\
  singToXrayTransitioned (noteTransition p b c) = singToXrayTransitioned c || (IsXray p && negb b) /\
  xrayToSingTransitioned (noteTransition p b c) = xrayToSingTransitioned c || (negb (IsXray p) && b).
Proof.
  unfold noteTransition. destruct (IsXray p), b; cbn; rewrite ?orb_false_r; by rewrite ?orb_true_r.
Qed.

Lemma transition_count p b s : coreTransitions (transition p b s) = coreTransitions s + (if Bool.eqb (IsXray p) b then 0 else 1).
Proof. unfold transition. destruct (Bool.eqb _ _); cbn; lia. Qed.

(** A loop that succeeds found every hop, in order, and noted the transitions. *)
Lemma entListLoop_spec env ids : forall b s ents0 c c' ents s',
  entListLoop env ids b s ents0 c = (c', (ents, Some s')) ->
  exists new, ents = ents0 ++ new /\ Forall2 (fun id p => hopOf env id = Some p) ids new /\ placed c' = placed c /\
    coreTransitions s' = coreTransitions s + changes b new /\
    singToXrayTransitioned c' = singToXrayTransitioned c || enters b new /\
    xrayToSingTransitioned c' = xrayToSingTransitioned c || leaves b new.
Proof.
  induction ids as [|id ids IH]; intros b s ents0 c c' ents s'; cbn [entListLoop].
  { intros [= <- <- <-]. exists []. cbn. rewrite app_nil_r, !orb_false_r, Z.add_0_r. by split_and!. }
  assert (forall p s1, hopOf env id = Some p -> coreTransitions s1 = coreTransitions (transition p b s) ->
            entListLoop env ids (IsXray p) s1 (ents0 ++ [p]) (noteTransition p b c) = (c', (ents, Some s')) ->
            exists new, ents = ents0 ++ new /\ Forall2 (fun id p => hopOf env id = Some p) (id :: ids) new /\ placed c' = placed c /\
              coreTransitions s' = coreTransitions s + changes b new /\
              singToXrayTransitioned c' = singToXrayTransitioned c || enters b new /\
              xrayToSingTransitioned c' = xrayToSingTransitioned c || leaves b new) as Hgo.
  { intros p s1 Hp Hs1 H. apply IH in H as (new & -> & Hf & Hpl & Hc & He & Hl). exists (p :: new).
    destruct (noteTransition_spec p b c) as (N1 & N2 & N3). rewrite <- app_assoc. cbn [app changes enters leaves].
    rewrite Hpl, N1, Hc, Hs1, transition_count, He, N2, Hl, N3, !orb_assoc. split_and!; try done; [by constructor|lia]. }
  destruct (id =? warpProfileID) eqn:Ew.
  - intros H. eapply Hgo; [unfold hopOf; by rewrite Ew| |exact H]. done.
  - destruct (getProfile env id) as [p|] eqn:Ep; [|done]. cbv zeta.
    destruct (bool_decide _); [done|]. destruct (bool_decide _); [done|]. intros H.
    eapply Hgo; [unfold hopOf; by rewrite Ew| |exact H]. done.
Qed.

Lemma entList_spec env ids c c' ents : entIDListtoEntList env ids c = (c', ents) -> errors c' = [] ->
  Forall2 (fun id p => hopOf env id = Some p) ids ents /\ placed c' = placed c /\ changes false ents <= 2 /\
  singToXrayTransitioned c' = singToXrayTransitioned c || enters false ents /\
  xrayToSingTransitioned c' = xrayToSingTransitioned c || leaves false ents.
Proof.
  unfold entIDListtoEntList. destruct (entListLoop _ _ _ _ _ _) as [c1 [ents1 [s|]]] eqn:E.
  - cbv zeta. destruct (chainScanError _) as [e|] eqn:Ee; intros [= <- <-]; [done|]. intros _.
    apply entListLoop_spec in E as (new & -> & Hf & Hp & Hc & H1 & H2). split_and!; try done.
    unfold chainScanError in Ee. cbn [coreTransitions app] in *. case_tests_in Ee; try done. lia.
  - intros [= <- <-] He. exfalso. revert E He.
    assert (forall ids b s ents0 c c1 ents, entListLoop env ids b s ents0 c = (c1, (ents, None)) -> errors c1 <> []) as Hn.
    { clear. induction ids as [|id ids IH]; intros b s ents0 c c1 ents; cbn [entListLoop]; [done|].
      destruct (id =? warpProfileID); [apply IH|]. destruct (getProfile env id); [|by intros [= <- _]].
      cbv zeta. destruct (bool_decide _); [by intros [= <- _]|]. destruct (bool_decide _); [by intros [= <- _]|apply IH]. }
    intros E He. by apply Hn in E.
Qed.

(** *** The parts of a chain *)

Definition onSing (p : Profile) : bool := negb (IsXray p).

Lemma splitCores_after ents : forall i x t, x <> [] ->
  splitCores ents i x t = (i, x ++ List.filter IsXray ents, t ++ List.filter onSing ents).
Proof.
  unfold onSing. induction ents as [|p ents IH]; intros i x t Hx; cbn; [by rewrite !app_nil_r|]. destruct (IsXray p) eqn:E; cbn.
  - rewrite IH by by destruct x. by rewrite <- app_assoc.
  - replace (isEmpty x) with false by by destruct x. rewrite IH by done. by rewrite <- app_assoc.
Qed.

Lemma splitCores_spec ents : forall i, splitCores ents i [] [] =
  let rest := dropWhile onSing ents in (i ++ takeWhile onSing ents, List.filter IsXray rest, List.filter onSing rest).
Proof.
  induction ents as [|p ents IH]; intros i; cbn; [by rewrite app_nil_r|]. destruct (IsXray p) eqn:E; cbn.
  - assert (onSing p = false) as Ep by (unfold onSing; by rewrite E). rewrite splitCores_after, Ep by done. cbn. by rewrite E, Ep, app_nil_r.
  - assert (onSing p = true) as Ep by (unfold onSing; by rewrite E). rewrite IH, Ep. cbn. by rewrite <- app_assoc.
Qed.

Lemma changes_nonneg ents : forall b, 0 <= changes b ents.
Proof. induction ents as [|p ents IH]; intros b; cbn; [done|]. specialize (IH (IsXray p)). destruct (Bool.eqb _ _); lia. Qed.

Lemma changes_none ents : forall b, changes b ents <= 0 -> Forall (fun p => IsXray p = b) ents.
Proof.
  induction ents as [|p ents IH]; intros b H; cbn in *; [done|]. pose proof (changes_nonneg ents (IsXray p)).
  destruct (Bool.eqb (IsXray p) b) eqn:E; [|lia]. apply eqb_prop in E. constructor; [done|]. subst b. apply IH. lia.
Qed.

(** A chain that enters Xray at most once keeps its order when it is split. *)
Lemma split_in_order ents : changes true ents <= 1 -> List.filter IsXray ents ++ List.filter onSing ents = ents.
Proof.
  unfold onSing. induction ents as [|p ents IH]; intros H; cbn in *; [done|]. destruct (IsXray p) eqn:E; cbn in *.
  - rewrite IH by lia. done.
  - assert (Forall (fun q => IsXray q = false) ents) as Hf by (apply changes_none; lia).
    rewrite filter_none by done. rewrite filter_all; [done|]. eapply Forall_impl; [exact Hf|]. intros q Hq. cbn. by rewrite Hq.
Qed.

Lemma changes_drop ents : changes true (dropWhile onSing ents) <= Z.max 0 (changes false ents - 1).
Proof.
  unfold onSing. induction ents as [|p ents IH]; cbn; [done|]. destruct (IsXray p) eqn:E; cbn; rewrite ?E; cbn; [|lia].
  pose proof (changes_nonneg ents true). lia.
Qed.

(** Entering and leaving Xray is having hops there and after. *)
Lemma leaves_spec ents : leaves true ents = negb (isEmpty (List.filter onSing ents)).
Proof.
  unfold onSing. induction ents as [|p ents IH]; cbn; [done|]. destruct (IsXray p) eqn:E; cbn; [exact IH|done].
Qed.

Lemma enters_leaves ents : let rest := dropWhile onSing ents in
  enters false ents = negb (isEmpty (List.filter IsXray rest)) /\ leaves false ents = negb (isEmpty (List.filter onSing rest)).
Proof.
  cbv zeta. induction ents as [|p ents IH]; cbn; [done|]. destruct (IsXray p) eqn:E.
  - assert (onSing p = false) as Ep by (unfold onSing; by rewrite E). rewrite Ep. cbn. rewrite E, Ep. cbn. split; [done|]. apply leaves_spec.
  - assert (onSing p = true) as Ep by (unfold onSing; by rewrite E). rewrite Ep. exact IH.
Qed.

(** What a list of hops that was accepted splits into. *)
Lemma splitCores_parts ents initial xray tailing : changes false ents <= 2 -> splitCores ents [] [] [] = (initial, xray, tailing) ->
  ents = initial ++ xray ++ tailing /\ Forall (fun p => IsXray p = true) xray /\
  Forall (fun p => IsXray p = false) initial /\ Forall (fun p => IsXray p = false) tailing /\
  enters false ents = negb (isEmpty xray) /\ leaves false ents = negb (isEmpty tailing) /\ (xray = [] -> tailing = []).
Proof.
  intros Hc. rewrite splitCores_spec. cbv zeta. cbn [app]. intros [= <- <- <-].
  destruct (enters_leaves ents) as [H1 H2]. pose proof (changes_drop ents) as H3.
  rewrite split_in_order by lia. split_and!; try done.
  - by rewrite takeWhile_dropWhile.
  - apply Forall_forall. intros p Hp. by apply elem_of_filter' in Hp as [_ ?].
  - eapply Forall_impl; [apply takeWhile_all|]. intros p. unfold onSing. cbn. by destruct (IsXray p).
  - apply Forall_forall. intros p Hp. apply elem_of_filter' in Hp as [_ Hp]. unfold onSing in Hp. by destruct (IsXray p).
  - destruct (dropWhile onSing ents) as [|p rest] eqn:E; [done|]. pose proof (dropWhile_head _ _ _ _ E) as Hp.
    unfold onSing in Hp. cbn. destruct (IsXray p); done.
Qed.
