(* ===== verification/ConfigHops.v ===== *)
(** * What a chain adds to a configuration (src/src/configs/generate.cpp)

    [chain_built] tells everything [buildOutboundChain] of ConfigChains.v adds to
    a build that succeeds: the hops of each core in their order, the bridges
    between the cores, the objects and tags. *)

From Stdlib Require Import Ascii String.
From S2P Require Import Prelude QtText Json Lists ConfigChains.

Local Open Scope Z_scope.
#[local] Set Warnings "-register-all".

(** ** What a chain adds *)

(** A hop as it is built: a whole Xray configuration is dialled at its bridge. *)
Definition builtAs (p p' : Profile) : Prop :=
  p' = p \/ (IsXrayFullConfig p = true /\ exists b, p' = withBuild (bridgeDial b) p).

Lemma builtAs_IsXray ents ents' : Forall2 builtAs ents ents' ->
  forall b, changes b ents' = changes b ents /\ enters b ents' = enters b ents /\ leaves b ents' = leaves b ents.
Proof.
  induction 1 as [|p p' ents ents' Hp _ IH]; intros b; [done|]. cbn.
  assert (IsXray p' = IsXray p) as -> by (by destruct Hp as [->|(_ & ? & ->)]).
  destruct (IH (IsXray p)) as (-> & -> & ->). done.
Qed.

Lemma builtAs_refl ents : Forall2 builtAs ents ents.
Proof. induction ents; constructor; [by left|done]. Qed.

(** What the opening of bridges and configurations leaves alone. *)
Definition rest (c : BuildContext) :=
  (forTest c, xrayOutbounds c, xrayIngressTags c, singIngressTags c, outbounds c, endpoints c, chainGroups c).

Definition built (c : BuildContext) :=
  (forTest c, singToXrayBridges c, xrayToSingBridges c, xrayIngressTags c, singIngressTags c, xrayOutbounds c, outbounds c, endpoints c).

Lemma rest_emitted c c' : rest c' = rest c -> emitted c' = emitted c.
Proof. unfold rest, emitted. intros H. injection H. intros. congruence. Qed.

Lemma placed_rest c c' : placed c' = placed c ->
  rest c' = rest c /\ singToXrayBridges c' = singToXrayBridges c /\ xrayToSingBridges c' = xrayToSingBridges c /\ errors c' = errors c.
Proof. unfold placed, shape, rest. intros H. injection H. intros. split_and!; congruence. Qed.

Lemma openFullConfig_spec env req ents c c' ents' : openFullConfig env req ents c = (c', ents') -> errors c' = [] ->
  Forall2 builtAs ents ents' /\ rest c' = rest c /\ errors c = [] /\ singToXrayBridges c' = singToXrayBridges c /\
  xrayToSingBridges c' = xrayToSingBridges c /\ singToXrayTransitioned c' = singToXrayTransitioned c /\
  xrayToSingTransitioned c' = xrayToSingTransitioned c.
Proof.
  unfold openFullConfig. destruct (last ents) as [p|] eqn:El; [|intros [= <- <-] He; split_and!; try done; apply builtAs_refl].
  destruct (IsXrayFullConfig p) eqn:Ex; [|intros [= <- <-] He; split_and!; try done; apply builtAs_refl].
  destruct (fullConfigHop env req p c) as [c1 p1] eqn:E. intros [= <- <-] He. revert E. unfold fullConfigHop.
  destruct (p_custom p) as [[config bridgeHost]|]; [|by intros [= <- <-]]. destruct (isEmpty config); [by intros [= <- <-]|].
  unfold probe, draw. apply last_Some in El as [l ->]. assert (removelast (l ++ [p]) = l) as -> by apply List.removelast_last.
  destruct (r_xrayFullConfigPort req <=? 0); cbv zeta beta iota; destruct (_ <=? 0); try (by intros [= <- <-]);
    intros [= <- <-]; (split_and!; try done);
    (apply Forall2_app; [apply builtAs_refl|constructor; [right; eauto|done]]).
Qed.

Lemma bridgePort_frame env given ports c port ports' c' : bridgePort env given ports c = (port, ports', c') ->
  rest c' = rest c /\ errors c' = errors c /\ singToXrayBridges c' = singToXrayBridges c /\ xrayToSingBridges c' = xrayToSingBridges c /\
  xrayToSingTransitioned c' = xrayToSingTransitioned c /\ xrayConfig c' = xrayConfig c.
Proof.
  unfold bridgePort, probe. destruct (0 <? given); [by intros [= <- <- <-]|]. destruct (isEmpty ports); by intros [= <- <- <-].
Qed.

(** The bridges that were opened, when every port could be reserved. *)
Lemma openBridges_spec env req c b1 b2 c' : openBridges env req c = (b1, b2, c') -> errors c = [] -> errors c' = [] ->
  exists f1 f2, b1 = Some f1 /\ b2 = Some f2 /\ rest c' = rest c /\
    b_needed f1 = singToXrayTransitioned c /\ b_needed f2 = xrayToSingTransitioned c /\
    singToXrayBridges c' = singToXrayBridges c ++ (if b_needed f1 then [f1] else []) /\
    xrayToSingBridges c' = xrayToSingBridges c ++ (if b_needed f2 then [f2] else []).
Proof.
  unfold openBridges. destruct (singToXrayTransitioned c) eqn:E1.
  - destruct (bridgePort env (r_singToXrayPort req) [] c) as [[port ports] c1] eqn:Ep.
    apply bridgePort_frame in Ep as (P1 & P2 & P3 & P4 & P5 & _). destruct (port <=? 0); [by intros [= <- <- <-]|].
    unfold draw. cbv zeta beta iota. set (c2 := set_singToXrayBridges _ _). assert (xrayToSingTransitioned c2 = xrayToSingTransitioned c) as -> by exact P5.
    set (f1 := bridgeOn port _). assert (rest c2 = rest c) as Hr by exact P1. assert (errors c2 = errors c) as He by exact P2.
    assert (singToXrayBridges c2 = singToXrayBridges c ++ [f1]) as H1 by (unfold c2; cbn; by rewrite P3).
    assert (xrayToSingBridges c2 = xrayToSingBridges c) as H2 by exact P4. clearbody c2.
    destruct (xrayToSingTransitioned c) eqn:E2.
    + destruct (bridgePort env (r_xrayToSingPort req) ports c2) as [[port2 ports2] c3] eqn:Eq.
      apply bridgePort_frame in Eq as (Q1 & Q2 & Q3 & Q4 & _ & _). destruct (port2 <=? 0); [by intros [= <- <- <-]|].
      intros [= <- <- <-] _ _. eexists f1, _. split_and!; try done; [by rewrite <- Hr, <- Q1|cbn; by rewrite Q3, H1|cbn; by rewrite Q4, H2].
    + intros [= <- <- <-] _ _. exists f1, noBridge. split_and!; try done. cbn. by rewrite app_nil_r.
  - destruct (xrayToSingTransitioned c) eqn:E2.
    + destruct (bridgePort env (r_xrayToSingPort req) [] c) as [[port2 ports2] c3] eqn:Eq.
      apply bridgePort_frame in Eq as (Q1 & Q2 & Q3 & Q4 & _ & _). destruct (port2 <=? 0); [by intros [= <- <- <-]|].
      unfold draw. intros [= <- <- <-] _ _. eexists noBridge, _. split_and!; try done; cbn; [by rewrite app_nil_r|by rewrite Q4].
    + intros [= <- <- <-] _ _. exists noBridge, noBridge. cbn. by rewrite !app_nil_r.
Qed.

(** Everything a chain that was built added: [initial] ends with the bridge to
    Xray when there are hops there. *)
Definition withBridge (initial : list Profile) (b : Bridge) : list Profile := if b_needed b then initial ++ [bridgeProfile b] else initial.
Definition tailStart (req : ChainBuildRequest) (initial : list Profile) (b : Bridge) : Z := r_startSuffix req + qsize (withBridge initial b).

(** The tags of what sing-box runs of a chain. *)
Definition chainTags (req : ChainBuildRequest) (start : Z) (leading tailing : list Profile) : list qstring :=
  imap (fun i _ => singTag (leadingOpts req) (0 + Z.of_nat i)) leading ++ imap (fun i _ => singTag (tailingOpts req start) (0 + Z.of_nat i)) tailing.

Record ChainBuilt (env : BuildEnv) (req : ChainBuildRequest) (c c' : BuildContext)
    (ents initial xray tailing : list Profile) (b1 b2 : Bridge) : Prop := {
  cb_ids : exists found, Forall2 (fun id p => hopOf env id = Some p) (hopIDs req) found /\ Forall2 builtAs found ents;
  cb_order : ents = initial ++ xray ++ tailing;
  cb_xray : Forall (fun p => IsXray p = true) xray;
  cb_initial : Forall (fun p => IsXray p = false) initial;
  cb_tailing : Forall (fun p => IsXray p = false) tailing;
  cb_tail : xray = [] -> tailing = [];
  cb_b1 : b_needed b1 = negb (isEmpty xray);
  cb_b2 : b_needed b2 = negb (isEmpty tailing);
  cb_forTest : forTest c' = forTest c;
  cb_bridges1 : singToXrayBridges c' = singToXrayBridges c ++ (if b_needed b1 then [b1] else []);
  cb_bridges2 : xrayToSingBridges c' = xrayToSingBridges c ++ (if b_needed b2 then [b2] else []);
  cb_ingress1 : xrayIngressTags c' = xrayIngressTags c ++ (if b_needed b1 then [xrayHopTag (leadingOpts req) 0] else []);
  cb_ingress2 : singIngressTags c' = singIngressTags c ++ (if b_needed b2 then [hopTag (r_prefix req) (tailStart req initial b1)] else []);
  cb_xrayOutbounds : xrayOutbounds c' = xrayOutbounds c ++ (if b_needed b1 then xrayList env (leadingOpts req) b2 0 xray else []);
  cb_kept : emitted c ⊆ emitted c';
  cb_leading : forall i p, withBridge initial b1 !! i = Some p ->
    singObject env (forTest c) (leadingOpts req) (Z.of_nat i) p (withBridge initial b1 !! S i) ∈ emitted c';
  cb_trailing : forall i p, tailing !! i = Some p ->
    singObject env (forTest c) (tailingOpts req (tailStart req initial b1)) (Z.of_nat i) p (tailing !! S i) ∈ emitted c';
  cb_tags : map tagOf (emitted c') ≡ₚ map tagOf (emitted c) ++ chainTags req (tailStart req initial b1) (withBridge initial b1) tailing }.

Lemma app_nil_both {A} (l1 l2 l3 : list A) : l3 = l2 ++ l1 -> l3 = [] -> l1 = [] /\ l2 = [].
Proof. intros -> H. by apply app_eq_nil in H as [-> ->]. Qed.

(** The three stages of the two cores, none of which failed. *)
Lemma stages env o1 o2 b2 leading xray tailing c c' :
  c' = buildSingboxChain env o2 0 tailing
         (let c := buildSingboxChain env o1 0 leading c in if isEmpty xray then c else buildXrayChain env o1 b2 xray c) ->
  errors c' = [] -> exists c1 c2,
    SingAdded env o1 leading 0 c c1 /\
    (if isEmpty xray then c2 = c1 else XrayAdded env o1 b2 xray c1 c2) /\
    SingAdded env o2 tailing 0 c2 c'.
Proof.
  intros -> He. cbv zeta in *. set (c1 := buildSingboxChain env o1 0 leading c) in *.
  set (c2 := if isEmpty xray then c1 else buildXrayChain env o1 b2 xray c1) in *.
  destruct (singbox_errors env o2 tailing 0 c2) as [es3 E3]. destruct (app_nil_both _ _ _ E3 He) as [N3 N2].
  assert (exists es2, errors c2 = errors c1 ++ es2) as [es2 E2].
  { unfold c2. destruct (isEmpty xray); [exists []; by rewrite app_nil_r|apply xrayChain_errors]. }
  destruct (app_nil_both _ _ _ E2 N2) as [M2 M1]. destruct (singbox_errors env o1 leading 0 c) as [es1 E1].
  fold c1 in E1. destruct (app_nil_both _ _ _ E1 M1) as [K1 K0].
  exists c1, c2. split_and!.
  - apply singbox_added; [fold c1; congruence|done].
  - unfold c2 in *. destruct xray as [|p xray]; cbn [isEmpty] in *; [done|]. apply xrayChain_added; [done|congruence].
  - apply singbox_added; [congruence|done].
Qed.

(** What the stages did to each field. *)
Lemma stages_fields env req b2 start leading xray tailing c c1 c2 c' :
  SingAdded env (leadingOpts req) leading 0 c c1 ->
  (if isEmpty xray then c2 = c1 else XrayAdded env (leadingOpts req) b2 xray c1 c2) ->
  SingAdded env (tailingOpts req start) tailing 0 c2 c' ->
  forTest c' = forTest c /\ singToXrayBridges c' = singToXrayBridges c /\ xrayToSingBridges c' = xrayToSingBridges c /\
  xrayIngressTags c' = xrayIngressTags c ++ (if isEmpty xray then [] else [xrayHopTag (leadingOpts req) 0]) /\
  singIngressTags c' = singIngressTags c ++ (if isEmpty tailing then [] else [hopTag (r_prefix req) start]) /\
  xrayOutbounds c' = xrayOutbounds c ++ (if isEmpty xray then [] else xrayList env (leadingOpts req) b2 0 xray) /\
  emitted c ⊆ emitted c' /\
  (forall i p, leading !! i = Some p -> singObject env (forTest c) (leadingOpts req) (Z.of_nat i) p (leading !! S i) ∈ emitted c') /\
  (forall i p, tailing !! i = Some p -> singObject env (forTest c) (tailingOpts req start) (Z.of_nat i) p (tailing !! S i) ∈ emitted c') /\
  map tagOf (emitted c') ≡ₚ map tagOf (emitted c) ++ chainTags req start leading tailing.
Proof.
  intros [A1 _ A2 A3 A4 _ A5] B [C1 _ C2 C3 C4 _ C5].
  assert (aside c2 = aside c1 /\ xrayIngressTags c2 = xrayIngressTags c1 ++ (if isEmpty xray then [] else [xrayHopTag (leadingOpts req) 0]) /\
          xrayOutbounds c2 = xrayOutbounds c1 ++ (if isEmpty xray then [] else xrayList env (leadingOpts req) b2 0 xray)) as (B1 & B2 & B3).
  { destruct (isEmpty xray) eqn:E; [subst c2; by rewrite !app_nil_r|]. destruct B as [B1 _ B2 B3]. by rewrite E in B2. }
  unfold shape, aside in *. cbn [o_markIngress leadingOpts tailingOpts] in *. injection A1. injection C1. injection B1. intros.
  assert (singTag (tailingOpts req start) 0 = hopTag (r_prefix req) start) as Ht by (unfold singTag; cbn; by rewrite Z.add_0_r).
  rewrite Ht in C2. cbn [andb Z.eqb] in *. rewrite app_nil_r in A2. assert (emitted c2 = emitted c1) as Em by (unfold emitted; congruence).
  assert (forTest c2 = forTest c) as Ft by congruence. rewrite Em in C3. rewrite Ft in C4. split_and!; try congruence.
  - rewrite C2. destruct (isEmpty tailing); cbn; congruence.
  - set_solver.
  - intros i p Hp. apply C3. exact (A4 i p Hp).
  - exact C4.
  - rewrite C5, Em, A5, <- app_assoc. done.
Qed.

Lemma chain_built env req c tag c' : errors c = [] -> buildOutboundChain env req c = (tag, c') -> errors c' = [] ->
  tag = chainIngress req /\ exists ents initial xray tailing b1 b2, ChainBuilt env req c c' ents initial xray tailing b1 b2.
Proof.
  intros He0. unfold buildOutboundChain. set (c0 := set_xrayToSingTransitioned false _).
  destruct (entIDListtoEntList env (hopIDs req) c0) as [c1 found] eqn:E1.
  destruct (failed c1) eqn:Ef1; [intros [= <- <-] He; unfold failed in Ef1; by rewrite He in Ef1|].
  assert (errors c1 = []) as He1 by (unfold failed in Ef1; by destruct (errors c1)).
  destruct (entList_spec env _ c0 c1 found E1 He1) as (Hids & Hp & Hch & Hen & Hle).
  apply placed_rest in Hp as (P1 & P2 & P3 & P4).
  destruct (openFullConfig env req found c1) as [c2 ents] eqn:E2.
  destruct (failed c2) eqn:Ef2; [intros [= <- <-] He; unfold failed in Ef2; by rewrite He in Ef2|].
  assert (errors c2 = []) as He2 by (unfold failed in Ef2; by destruct (errors c2)).
  destruct (openFullConfig_spec env req found c1 c2 ents E2 He2) as (Hb & Q1 & _ & Q2 & Q3 & Q4 & Q5).
  destruct (builtAs_IsXray _ _ Hb false) as (B1 & B2 & B3).
  assert (enters false found = singToXrayTransitioned c1) as Hen' by (by rewrite Hen).
  assert (leaves false found = xrayToSingTransitioned c1) as Hle' by (by rewrite Hle).
  destruct (splitCores ents [] [] []) as [[initial xray] tailing] eqn:Esp.
  destruct (splitCores_parts ents initial xray tailing ltac:(lia) Esp) as (S1 & S2 & S3 & S4 & S5 & S6 & S7).
  rewrite B2, Hen' in S5. rewrite B3, Hle' in S6. rewrite <- Q4 in S5. rewrite <- Q5 in S6.
  destruct (openBridges env req c2) as [[ob1 ob2] c3] eqn:E3. intros H Hend.
  assert (rest c2 = rest c) as R2 by (rewrite Q1; exact P1).
  destruct ob1 as [f1|], ob2 as [f2|].
  2-4: injection H as <- <-; destruct (openBridges_spec env req c2 _ _ _ E3 He2 Hend) as (g1 & g2 & ? & ? & _); done.
  revert H. cbv zeta. set (cs := buildSingboxChain env (tailingOpts _ _) 0 tailing _). intros H. injection H as <- <-.
  assert (errors cs = []) as Hcs by (by destruct (isEmpty ents)).
  destruct (stages env _ _ _ _ xray tailing c3 cs eq_refl Hcs) as (d1 & d2 & A1 & A2 & A3).
  assert (errors c3 = []) as He3.
  { rewrite <- (sa_errors _ _ _ _ _ _ A1). rewrite <- Hcs, (sa_errors _ _ _ _ _ _ A3). destruct (isEmpty xray); [by subst d2|].
    by rewrite (xa_errors _ _ _ _ _ _ A2). }
  destruct (openBridges_spec env req c2 _ _ _ E3 He2 He3) as (g1 & g2 & [= <-] & [= <-] & R3 & N1 & N2 & T1 & T2).
  split; [done|]. exists ents, initial, xray, tailing, f1, f2. rewrite R2 in R3.
  rewrite N1, S5 in T1. rewrite N2, S6 in T2. rewrite S5 in N1. rewrite S6 in N2.
  destruct (stages_fields env req f2 _ _ _ _ _ _ _ _ A1 A2 A3) as (F1 & F2 & F3 & F4 & F5 & F6 & F7 & F8 & F9 & F10).
  fold (withBridge initial f1) in *. fold (tailStart req initial f1) in *. set (c' := if isEmpty ents then cs else _).
  assert (built c' = built cs) as Hsh by (unfold c'; by destruct (isEmpty ents)). injection Hsh as G1 G2 G3 G4 G5 G6 G7 G8.
  assert (emitted c' = emitted cs) as Gm by (unfold emitted; congruence).
  rewrite (rest_emitted _ _ R3) in F7, F10. injection R3 as W1 W2 W3 W4 W5 W6 W7. rewrite W1 in F8, F9.
  split; rewrite ?N1, ?N2, ?G1, ?G2, ?G3, ?G4, ?G5, ?G6, ?Gm; try done; try congruence.
  1: by exists found.
  all: change (singToXrayBridges c0) with (singToXrayBridges c) in *; change (xrayToSingBridges c0) with (xrayToSingBridges c) in *.
  all: rewrite ?F2, ?F3, ?F4, ?F5, ?F6, ?T1, ?T2; destruct (isEmpty xray), (isEmpty tailing); cbn; congruence.
Qed.
