(* ===== verification/ConfigPath.v ===== *)
(** * The way of a connection through a chain (src/src/configs/generate.cpp)

    Where the outbounds that [buildOutboundChain] adds lead: from the tag rules
    name, through the hops of the profile in their order, across the bridges
    between the two cores. *)

From Stdlib Require Import Ascii String.
From S2P Require Import Prelude QtText Json Lists ConfigChains ConfigHops.

Local Open Scope Z_scope.
#[local] Set Warnings "-register-all".

(** ** Where an outbound leads *)

(** What a core runs: an outbound of sing-box, or one of Xray. *)
Inductive Node := NSing (object : QJsonObject) | NXray (x : XrayOutbound).

Definition singAt (c : BuildContext) (t : qstring) : option QJsonObject := List.find (fun o => bool_decide (tagOf o = t)) (emitted c).
Definition xrayAt (c : BuildContext) (t : qstring) : option XrayOutbound := List.find (fun x => bool_decide (x_tag x = t)) (xrayOutbounds c).

(** An outbound that dials a bridge. *)
Definition dialsBridge (o : QJsonObject) (b : Bridge) : bool := forallb (fun kv => bool_decide (jsonGet o kv.1 = Some kv.2)) (bridgeDial b).
Definition dialsBack (x : XrayOutbound) (b : Bridge) : bool := bool_decide (x_object x = backBridgeDial b).

(** The outbound behind an outbound: the one it detours to, or the one that the
    other core routes its bridge to, which is that of the same index. *)
Definition nextNode (c : BuildContext) (n : Node) : option Node :=
  match n with
  | NSing o =>
      match jsonGet o (qs "detour") with
      | Some v => NSing <$> singAt c (jsonText (Some v))
      | None =>
          '(i, _) ← list_find (fun b => Is_true (dialsBridge o b)) (singToXrayBridges c);
          t ← xrayIngressTags c !! i; NXray <$> xrayAt c t
      end
  | NXray x =>
      match x_dialer x with
      | Some t => NXray <$> xrayAt c t
      | None =>
          '(i, _) ← list_find (fun b => Is_true (dialsBack x b)) (xrayToSingBridges c);
          t ← singIngressTags c !! i; NSing <$> singAt c t
      end
  end.

(** Nodes that lead to one another. *)
Definition path (c : BuildContext) (ns : list Node) : Prop :=
  forall i n m, ns !! i = Some n -> ns !! S i = Some m -> nextNode c n = Some m.

(** A node that runs a profile: its object is what the profile builds, but for
    the keys the builder sets. *)
Definition builderKeys : list qstring := [qs "tag"; qs "detour"; qs "domain_resolver"].
Definition runs (p : Profile) (n : Node) : Prop :=
  match n with
  | NSing o => IsXray p = false /\ forall k, k ∉ builderKeys -> jsonGet o k = jsonGet (fst (Build p)) k
  | NXray x => IsXray p = true /\ x_object x = fst (BuildXray p)
  end.
Definition isBridge (c : BuildContext) (n : Node) : Prop :=
  match n with
  | NSing o => exists b, b ∈ singToXrayBridges c /\ dialsBridge o b = true
  | NXray x => exists b, b ∈ xrayToSingBridges c /\ dialsBack x b = true
  end.

(** A node that no link of the chain leaves. *)
Definition endsItself (p : Profile) (n : Node) : Prop :=
  match n with
  | NSing o => jsonGet o (qs "detour") = jsonGet (fst (Build p)) (qs "detour")
  | NXray x => x_dialer x = None
  end.

(** Nodes that run profiles in their order; a bridge is followed by a hop. *)
Inductive crosses (c : BuildContext) : list Node -> list Profile -> Prop :=
| crosses_nil : crosses c [] []
| crosses_hop n ns p ps : runs p n -> crosses c ns ps -> crosses c (n :: ns) (p :: ps)
| crosses_bridge n ns p ps : isBridge c n -> crosses c ns (p :: ps) -> crosses c (n :: ns) (p :: ps).

(** What tells the outbounds and the bridges of a build apart. *)
Record Distinct (c : BuildContext) : Prop := {
  di_sing : NoDup (map tagOf (emitted c));
  di_xray : NoDup (map x_tag (xrayOutbounds c));
  di_bridges : NoDup (map b_port (singToXrayBridges c));
  di_back : NoDup (map b_port (xrayToSingBridges c)) }.

Definition bridgesMatch (c : BuildContext) : Prop :=
  length (xrayIngressTags c) = length (singToXrayBridges c) /\ length (singIngressTags c) = length (xrayToSingBridges c).

Lemma find_at {A} (f : A -> qstring) (l : list A) x : NoDup (map f l) -> x ∈ l -> List.find (fun y => bool_decide (f y = f x)) l = Some x.
Proof.
  induction l as [|y l IH]; cbn; [by intros _ ?%elem_of_nil|]. intros [Hy Hl]%NoDup_cons [->|Hx]%elem_of_cons.
  - by rewrite bool_decide_true.
  - rewrite bool_decide_false; [by apply IH|]. intros E. apply Hy. rewrite E. by apply list_elem_of_fmap_2.
Qed.

Lemma singAt_in c o : Distinct c -> o ∈ emitted c -> singAt c (tagOf o) = Some o.
Proof. intros H. apply find_at, di_sing, H. Qed.
Lemma xrayAt_in c x : Distinct c -> x ∈ xrayOutbounds c -> xrayAt c (x_tag x) = Some x.
Proof. intros H. apply find_at, di_xray, H. Qed.

Lemma find_bridge (P : Bridge -> bool) l i b : NoDup (map b_port l) -> (forall b', P b' = true -> b_port b' = b_port b) ->
  l !! i = Some b -> P b = true -> list_find (fun b => Is_true (P b)) l = Some (i, b).
Proof.
  intros Hl Hp Hi Hb. apply list_find_Some. split_and!; [done|by rewrite Hb|]. intros j y Hj Hlt Hy.
  apply Is_true_eq_true, Hp in Hy. assert (j = i); [|lia].
  eapply (NoDup_lookup _ _ _ (b_port b) Hl); rewrite list_lookup_fmap; [by rewrite Hj, <- Hy|by rewrite Hi].
Qed.

Lemma dialsBridge_port o b b' : dialsBridge o b = true -> dialsBridge o b' = true -> b_port b' = b_port b.
Proof.
  unfold dialsBridge. cbn. intros H H'. bprop. destruct H as (_ & _ & H & _), H' as (_ & _ & H' & _).
  congruence.
Qed.
Lemma dialsBack_port x b b' : dialsBack x b = true -> dialsBack x b' = true -> b_port b' = b_port b.
Proof. unfold dialsBack. intros H%bool_decide_eq_true_1 H'%bool_decide_eq_true_1. rewrite H in H'. injection H'. intros. congruence. Qed.

(** *** The objects of the hops *)

Lemma singObject_get env ft o idx p next k : k ∉ builderKeys -> jsonGet (singObject env ft o idx p next) k = jsonGet (fst (Build p)) k.
Proof.
  unfold builderKeys, singObject. intros H. cbv zeta.
  assert (qs "tag" <> k /\ qs "detour" <> k /\ qs "domain_resolver" <> k) as (H1 & H2 & H3) by (split_and!; intros <-; set_solver).
  destruct next; rewrite !jsonGet_setIf, jsonGet_set, !bool_decide_false by done; by rewrite ?andb_false_r.
Qed.

Lemma singObject_detour env ft o idx p next : jsonGet (singObject env ft o idx p next) (qs "detour") =
  if o_warpWrap o && (idx =? 0) then Some (jtext tagWarpBypass)
  else match next with
       | Some _ => if o_link o then Some (jtext (hopTag (o_prefix o) (o_startSuffix o + idx + 1))) else jsonGet (fst (Build p)) (qs "detour")
       | None => jsonGet (fst (Build p)) (qs "detour")
       end.
Proof.
  unfold singObject. cbv zeta. set (t := jtext (hopTag _ _)). set (w := o_warpWrap o && (idx =? 0)).
  assert (bool_decide (qs "domain_resolver" = qs "detour") = false) as E by reflexivity.
  assert (bool_decide (qs "tag" = qs "detour") = false) as E' by reflexivity.
  destruct next; rewrite !jsonGet_setIf, jsonGet_set, E, E', ?andb_false_r, !bool_decide_true, ?andb_true_r by done; [done|].
  by destruct w.
Qed.

(** *** The nodes of a chain *)

Definition singNode (env : BuildEnv) (ft : bool) (o : hopChainOptions) (ents : list Profile) (i : nat) (p : Profile) : Node :=
  NSing (singObject env ft o (Z.of_nat i) p (ents !! S i)).
Definition singNodes (env : BuildEnv) (ft : bool) (o : hopChainOptions) (ents : list Profile) : list Node :=
  imap (singNode env ft o ents) ents.

Definition xrayNode (env : BuildEnv) (o : hopChainOptions) (b : Bridge) (n : nat) (idx : Z) (i : nat) (p : Profile) : XrayOutbound :=
  MkXray (xrayHopTag o (idx + Z.of_nat i)) (fst (BuildXray p))
    (if (o_link o || b_needed b) && (negb (S i =? n)%nat || b_needed b) then Some (hopTag (o_prefix o) (o_startSuffix o + (idx + Z.of_nat i) + 1)) else None)
    (xray_use_system_ca env).

Lemma xrayList_imap env o b ents : forall idx, xrayList env o b idx ents =
  imap (xrayNode env o b (length ents) idx) ents ++ (if b_needed b then [bridgeOutbound o (idx + qsize ents) b] else []).
Proof.
  induction ents as [|p ents IH]; intros idx; cbn [xrayList].
  - unfold qsize. cbn. by rewrite Z.add_0_r.
  - rewrite IH, imap_cons. cbn [app]. f_equal.
    + unfold xrayNode. change (Z.of_nat 0) with 0. rewrite !Z.add_0_r. by destruct ents, (o_link o), (b_needed b).
    + f_equal.
      * apply imap_ext. intros i q _. unfold xrayNode. cbn [compose length]. by replace (idx + Z.of_nat (S i)) with (idx + 1 + Z.of_nat i) by lia.
      * unfold qsize. cbn [length]. by replace (idx + Z.of_nat (S _)) with (idx + 1 + Z.of_nat (length ents)) by lia.
Qed.

Lemma path_nil c : path c [].
Proof. by intros i n m. Qed.

Lemma path_app c l1 l2 : path c l1 -> path c l2 ->
  (forall n m, last l1 = Some n -> head l2 = Some m -> nextNode c n = Some m) -> path c (l1 ++ l2).
Proof.
  intros H1 H2 H i n m Hn Hm. destruct (Nat.lt_trichotomy (S i) (length l1)) as [Hi|[Hi|Hi]].
  - rewrite lookup_app_l in Hn, Hm by lia. exact (H1 i n m Hn Hm).
  - rewrite lookup_app_l in Hn by lia. rewrite lookup_app_r in Hm by lia. apply H.
    + by rewrite last_lookup, <- Hi.
    + rewrite head_lookup. by replace (S i - length l1)%nat with 0%nat in Hm by lia.
  - rewrite lookup_app_r in Hn, Hm by lia. apply (H2 (i - length l1)%nat); [done|]. by replace (S (i - length l1)) with (S i - length l1)%nat by lia.
Qed.

Lemma crosses_app c ns1 ps1 ns2 ps2 : crosses c ns1 ps1 -> crosses c ns2 ps2 -> crosses c (ns1 ++ ns2) (ps1 ++ ps2).
Proof. induction 1; intros; cbn; [done|by constructor; auto|by constructor; auto]. Qed.

Lemma crosses_imap c (f : nat -> Profile -> Node) ps : (forall i p, ps !! i = Some p -> runs p (f i p)) -> crosses c (imap f ps) ps.
Proof.
  revert f. induction ps as [|p ps IH]; intros f H; [constructor|]. rewrite imap_cons. constructor; [by apply H|].
  apply IH. intros i q Hq. exact (H (S i) q Hq).
Qed.

(** A tag that a hop detours to is the tag of the next hop. *)
Lemma singNodes_path env ft o ents c : Distinct c -> (o_link o = true \/ (length ents <= 1)%nat) ->
  (forall i p, ents !! i = Some p -> singObject env ft o (Z.of_nat i) p (ents !! S i) ∈ emitted c) -> path c (singNodes env ft o ents).
Proof.
  intros Hd Hl He i n m Hn Hm. unfold singNodes in *. rewrite list_lookup_imap in Hn, Hm.
  destruct (ents !! i) as [p|] eqn:Ei; [|done]. destruct (ents !! S i) as [q|] eqn:Ej; [|done]. cbn in Hn, Hm.
  injection Hn as <-. injection Hm as <-. apply lookup_lt_Some in Ej as Hlen. destruct Hl as [Hl|Hl]; [|lia].
  cbn [nextNode singNode]. rewrite singObject_detour, Ej, Hl.
  assert (forall v, v = jtext (singTag o (Z.of_nat (S i))) -> NSing <$> singAt c (jsonText (Some v)) = Some (singNode env ft o ents (S i) q)) as Hgo.
  { intros v ->. cbn. rewrite <- (singObject_tag env ft o (Z.of_nat (S i)) q (ents !! S (S i))), singAt_in; auto. }
  assert ((Z.of_nat (S i) =? 0) = false) as E0 by (apply Z.eqb_neq; lia). unfold singTag in Hgo. rewrite E0, andb_false_r in Hgo.
  destruct (o_warpWrap o && (Z.of_nat i =? 0)) eqn:Ew.
  - apply andb_true_iff in Ew as [Ew Ei0%Z.eqb_eq]. apply Hgo. rewrite Ew. assert (i = 0)%nat as -> by lia. done.
  - apply Hgo. assert (o_warpWrap o && (Z.of_nat (S i) =? 1) = false) as -> by (destruct (o_warpWrap o); [|done]; apply Z.eqb_neq in Ew; apply Z.eqb_neq; lia).
    do 2 f_equal. lia.
Qed.

(** Xray's outbounds likewise. *)
Lemma xrayNodes_path env o b ents c : Distinct c -> (o_link o = true \/ length ents = 1%nat) ->
  xrayList env o b 0 ents ⊆ xrayOutbounds c -> path c (map NXray (xrayList env o b 0 ents)).
Proof.
  intros Hd Hl Hin i n m Hn Hm. rewrite list_lookup_fmap in Hn, Hm.
  destruct (xrayList env o b 0 ents !! i) as [x|] eqn:Ex; [|done]. destruct (xrayList env o b 0 ents !! S i) as [y|] eqn:Ey; [|done].
  injection Hn as <-. injection Hm as <-.
  assert (x_dialer x = Some (x_tag y)) as E.
  2:{ cbn. rewrite E, xrayAt_in; [done|done|]. apply Hin. by apply list_elem_of_lookup_2 in Ey. }
  rewrite xrayList_imap in Ex, Ey. set (g := xrayNode env o b (length ents) 0) in *.
  assert (S i < length ents \/ S i = length ents /\ b_needed b = true)%nat as Hi.
  { apply lookup_lt_Some in Ey. rewrite length_app, length_imap in Ey. destruct (b_needed b); cbn in Ey; lia. }
  assert (o_link o || b_needed b = true) as Hlink by (destruct Hl as [->|Hl], Hi as [Hi|[_ ->]]; rewrite ?orb_true_r; done || lia).
  rewrite lookup_app_l, list_lookup_imap in Ex by (rewrite length_imap; lia). destruct (ents !! i) as [p|] eqn:Ei; [|done].
  injection Ex as <-. unfold g at 1, xrayNode at 1. cbn [x_dialer]. rewrite Hlink.
  assert (negb (S i =? length ents)%nat || b_needed b = true) as -> by (destruct Hi as [Hi|[_ ->]]; [|by rewrite orb_true_r]; bprop; lia).
  cbn [andb]. f_equal. destruct Hi as [Hi|[Hi Hb]].
  - rewrite lookup_app_l, list_lookup_imap in Ey by (rewrite length_imap; lia). destruct (ents !! S i) as [q|] eqn:Ej; [|done].
    injection Ey as <-. unfold g, xrayNode, xrayHopTag. cbn [x_tag]. assert ((0 + Z.of_nat (S i) =? 0) = false) as -> by (apply Z.eqb_neq; lia).
    rewrite andb_false_r. f_equal. lia.
  - rewrite lookup_app_r, length_imap, Hi, Nat.sub_diag, Hb in Ey by (rewrite length_imap; lia). injection Ey as <-. cbn. f_equal. unfold qsize. lia.
Qed.

(** *** From core to core *)

(** The last hop of sing-box before Xray dials the bridge, which leads to the
    first hop there: bridges and ingress tags are matched by their index. *)
Lemma bridge_leads c o b bs ts t x : Distinct c -> singToXrayBridges c = bs ++ [b] -> xrayIngressTags c = ts ++ [t] -> length ts = length bs ->
  jsonGet o (qs "detour") = None -> dialsBridge o b = true -> x ∈ xrayOutbounds c -> x_tag x = t -> nextNode c (NSing o) = Some (NXray x).
Proof.
  intros Hd Hb Ht Hl Ho Hdial Hx Hxt. cbn [nextNode]. rewrite Ho.
  rewrite (find_bridge (dialsBridge o) _ (length bs) b); [|apply Hd|intros b'; by apply dialsBridge_port|by rewrite Hb, list_lookup_middle|done].
  cbn. rewrite Ht, <- Hl, list_lookup_middle by done. cbn. by rewrite <- Hxt, xrayAt_in.
Qed.

Lemma back_leads c x b bs ts o : Distinct c -> xrayToSingBridges c = bs ++ [b] -> singIngressTags c = ts ++ [tagOf o] -> length ts = length bs ->
  x_dialer x = None -> dialsBack x b = true -> o ∈ emitted c -> nextNode c (NXray x) = Some (NSing o).
Proof.
  intros Hd Hb Ht Hl Hn Hdial Ho. cbn [nextNode]. rewrite Hn.
  rewrite (find_bridge (dialsBack x) _ (length bs) b); [|apply Hd|intros b'; by apply dialsBack_port|by rewrite Hb, list_lookup_middle|done].
  cbn. rewrite Ht, <- Hl, list_lookup_middle by done. cbn. by rewrite singAt_in.
Qed.

Lemma bridgeProfile_dials env ft o idx b : dialsBridge (singObject env ft o idx (bridgeProfile b) None) b = true.
Proof.
  unfold dialsBridge, bridgeDial. cbn [forallb fst snd].
  rewrite !singObject_get by (apply (bool_decide_unpack _); vm_compute; exact I). cbn. by rewrite !bool_decide_true.
Qed.

(** *** A whole chain *)

(** The parts of a chain. *)
Section Parts.
Context {env : BuildEnv} {req : ChainBuildRequest} {c c' : BuildContext} {ents initial xray tailing : list Profile} {b1 b2 : Bridge}.
Hypothesis H : ChainBuilt env req c c' ents initial xray tailing b1 b2.

Lemma chain_lengths : length ents = (length initial + length xray + length tailing)%nat.
Proof. rewrite (cb_order _ _ _ _ _ _ _ _ _ _ H), !length_app. lia. Qed.

Lemma chain_b1 : b_needed b1 = false -> xray = [] /\ tailing = [].
Proof.
  rewrite (cb_b1 _ _ _ _ _ _ _ _ _ _ H). destruct xray eqn:E; [|done]. intros _. split; [done|]. by apply (cb_tail _ _ _ _ _ _ _ _ _ _ H).
Qed.
Lemma chain_b1_xray : b_needed b1 = true -> xray <> [].
Proof. rewrite (cb_b1 _ _ _ _ _ _ _ _ _ _ H). by destruct xray. Qed.
Lemma chain_xray_cons : b_needed b1 = true -> exists p rest, xray = p :: rest.
Proof. intros Eb%chain_b1_xray. destruct xray as [|p rest]; [done|by exists p, rest]. Qed.
Lemma chain_b2 : b_needed b2 = negb (isEmpty tailing).
Proof. apply H. Qed.
End Parts.

Section Chain.
Context (env : BuildEnv) (req : ChainBuildRequest) (c c' : BuildContext) (ents initial xray tailing : list Profile) (b1 b2 : Bridge).
Hypothesis H : ChainBuilt env req c c' ents initial xray tailing b1 b2.
Hypothesis Hd : Distinct c'.
Hypothesis Hm : bridgesMatch c.
Hypothesis Hl : r_link req = true \/ length ents = 1%nat.
Hypothesis Hw : r_warpWrap req = true -> initial <> [] /\ (2 <= length ents)%nat.

Let lead := withBridge initial b1.
Let xs := if b_needed b1 then xrayList env (leadingOpts req) b2 0 xray else [].
Let start := tailStart req initial b1.
Let front := singNodes env (forTest c) (leadingOpts req) lead.
Let back := singNodes env (forTest c) (tailingOpts req start) tailing.
Definition chainNodes : list Node :=
  singNodes env (forTest c) (leadingOpts req) (withBridge initial b1) ++
  map NXray (if b_needed b1 then xrayList env (leadingOpts req) b2 0 xray else []) ++
  singNodes env (forTest c) (tailingOpts req (tailStart req initial b1)) tailing.

Lemma front_path : path c' front.
Proof.
  apply singNodes_path; [done| |apply H]. destruct Hl as [?|Hone]; [by left|right]. unfold lead, withBridge. pose proof (chain_lengths H) as Hlen.
  destruct (b_needed b1) eqn:Eb; rewrite ?length_app; cbn [length]; [|lia]. apply (chain_b1_xray H) in Eb. destruct xray; [done|]. cbn in Hlen. lia.
Qed.

Lemma xray_path : path c' (map NXray xs).
Proof.
  unfold xs. destruct (b_needed b1) eqn:Eb; [|apply path_nil]. apply xrayNodes_path; [done| |].
  - destruct Hl as [?|Hone]; [by left|right]. pose proof (chain_lengths H). apply (chain_b1_xray H) in Eb. destruct xray; [done|]. cbn in *. lia.
  - rewrite (cb_xrayOutbounds _ _ _ _ _ _ _ _ _ _ H), Eb. set_solver.
Qed.

Lemma back_path : path c' back.
Proof.
  apply singNodes_path; [done| |apply H]. destruct Hl as [?|Hone]; [by left|right]. pose proof (chain_lengths H). lia.
Qed.

(** The junctions. *)
Lemma last_imap {A B} (f : nat -> A -> B) l : last (imap f l) = f (pred (length l)) <$> last l.
Proof. rewrite !last_lookup, length_imap. apply list_lookup_imap. Qed.

Lemma front_to_xray n m : last front = Some n -> head (map NXray xs) = Some m -> nextNode c' n = Some m.
Proof.
  unfold xs. destruct (b_needed b1) eqn:Eb; [|done]. intros Hn Hh.
  pose proof (cb_bridges1 _ _ _ _ _ _ _ _ _ _ H) as B1. pose proof (cb_ingress1 _ _ _ _ _ _ _ _ _ _ H) as I1.
  pose proof (cb_xrayOutbounds _ _ _ _ _ _ _ _ _ _ H) as X1. rewrite Eb in B1, I1, X1.
  unfold front, lead, withBridge in Hn. rewrite Eb in Hn. unfold singNodes in Hn. rewrite last_imap, last_snoc in Hn. injection Hn as <-.
  unfold singNode. rewrite length_app, Nat.add_1_r. cbn [length pred].
  rewrite lookup_ge_None_2 by (rewrite length_app; cbn; lia).
  destruct (chain_xray_cons H Eb) as (p & rest & Ex). rewrite Ex in Hh, X1. cbn [xrayList map head] in Hh. injection Hh as <-.
  eapply bridge_leads; [done|exact B1|exact I1|apply Hm| |apply bridgeProfile_dials|rewrite X1; cbn; set_solver|done].
  rewrite singObject_detour. cbn [leadingOpts o_warpWrap]. destruct (r_warpWrap req) eqn:Ew; [|done].
  destruct (Hw eq_refl) as [Hi _]. by destruct initial.
Qed.

Lemma xray_to_back n m : last (map NXray xs) = Some n -> head back = Some m -> nextNode c' n = Some m.
Proof.
  intros Hn Hh. unfold back, singNodes in Hh. destruct (tailing !! 0%nat) as [p|] eqn:Et; rewrite head_lookup, list_lookup_imap, Et in Hh; [|done].
  injection Hh as <-. assert (b_needed b2 = true) as Eb by (rewrite (chain_b2 H); destruct tailing; [by rewrite lookup_nil in Et|done]).
  pose proof (cb_bridges2 _ _ _ _ _ _ _ _ _ _ H) as B2. pose proof (cb_ingress2 _ _ _ _ _ _ _ _ _ _ H) as I2. rewrite Eb in B2, I2.
  unfold xs in Hn. destruct (b_needed b1) eqn:Eb1; [|done]. rewrite xrayList_imap, Eb, map_app in Hn. cbn [map] in Hn. rewrite last_snoc in Hn.
  injection Hn as <-. eapply back_leads; [done|exact B2| |apply Hm|done|by apply bool_decide_eq_true_2|exact (cb_trailing _ _ _ _ _ _ _ _ _ _ H 0%nat p Et)].
  rewrite singObject_tag. unfold singTag. cbn. by rewrite Z.add_0_r.
Qed.

Lemma chain_path : path c' chainNodes.
Proof.
  apply path_app; [apply front_path|apply path_app; [apply xray_path|apply back_path|apply xray_to_back]|].
  intros n m Hn Hh. destruct (map NXray xs) as [|x l] eqn:Ex.
  - assert (tailing = []) as Et. { apply map_eq_nil in Ex. unfold xs in Ex. destruct (b_needed b1) eqn:Eb; [|by apply (chain_b1 H)].
      destruct (chain_xray_cons H Eb) as (p & rest & E). by rewrite E in Ex. }
    fold xs in Hh. rewrite Ex, Et in Hh. done.
  - apply front_to_xray; [done|]. fold xs in Hh. rewrite Ex in Hh |- *. done.
Qed.

Lemma singNode_runs ft o l i p : IsXray p = false -> runs p (singNode env ft o l i p).
Proof. intros Hp. split; [done|]. intros k Hk. by apply singObject_get. Qed.

Lemma back_crosses : crosses c' back tailing.
Proof. apply crosses_imap. intros i p Hp. apply singNode_runs. exact (Forall_lookup_1 _ _ _ _ (cb_tailing _ _ _ _ _ _ _ _ _ _ H) Hp). Qed.

Lemma xray_crosses : crosses c' (map NXray xs ++ back) (xray ++ tailing).
Proof.
  unfold xs. destruct (b_needed b1) eqn:Eb; [|destruct (chain_b1 H Eb) as [-> ->]; apply crosses_nil].
  rewrite xrayList_imap, map_app, <- app_assoc. apply crosses_app.
  - change (map NXray ?l) with (NXray <$> l). rewrite fmap_imap. apply crosses_imap. intros i p Hp. split; [|done].
    exact (Forall_lookup_1 _ _ _ _ (cb_xray _ _ _ _ _ _ _ _ _ _ H) Hp).
  - pose proof back_crosses as Hb. pose proof (chain_b2 H) as E2. destruct (b_needed b2) eqn:Eb2; [|exact Hb].
    destruct tailing as [|p ps]; [done|]. apply crosses_bridge; [|exact Hb]. exists b2. split; [|by apply bool_decide_eq_true_2].
    rewrite (cb_bridges2 _ _ _ _ _ _ _ _ _ _ H), Eb2. set_solver.
Qed.

Lemma chain_crosses : crosses c' chainNodes ents.
Proof.
  pose proof xray_crosses as Hx. rewrite (cb_order _ _ _ _ _ _ _ _ _ _ H). unfold chainNodes, singNodes at 1, withBridge. fold xs start back. destruct (b_needed b1) eqn:Eb.
  - rewrite imap_app, <- app_assoc. apply crosses_app.
    + apply crosses_imap. intros i p Hp. apply singNode_runs. exact (Forall_lookup_1 _ _ _ _ (cb_initial _ _ _ _ _ _ _ _ _ _ H) Hp).
    + destruct (chain_xray_cons H Eb) as (p & rest & Ex). rewrite Ex in Hx |- *. apply crosses_bridge; [|exact Hx].
      exists b1. split; [rewrite (cb_bridges1 _ _ _ _ _ _ _ _ _ _ H), Eb; set_solver|].
      rewrite lookup_ge_None_2 by (rewrite length_app; cbn; lia). apply bridgeProfile_dials.
  - apply crosses_app; [|exact Hx]. apply crosses_imap. intros i p Hp. apply singNode_runs.
    exact (Forall_lookup_1 _ _ _ _ (cb_initial _ _ _ _ _ _ _ _ _ _ H) Hp).
Qed.

(** The last hop dials as its own profile says. *)
Lemma singNodes_end ft o l n p : last (singNodes env ft o l) = Some n -> last l = Some p -> (o_warpWrap o = true -> 2 <= length l)%nat ->
  endsItself p n.
Proof.
  intros Hn Hp Hwl. unfold singNodes in Hn. rewrite last_imap, Hp in Hn. injection Hn as <-.
  assert (l !! S (pred (length l)) = None) as E by (apply lookup_ge_None_2; lia). cbn. rewrite E, singObject_detour.
  destruct (o_warpWrap o) eqn:Ew; [|done]. specialize (Hwl eq_refl). cbn [andb].
  by assert ((Z.of_nat (pred (length l)) =? 0) = false) as -> by (apply Z.eqb_neq; lia).
Qed.

Lemma chain_end n p : last chainNodes = Some n -> last ents = Some p -> endsItself p n.
Proof.
  rewrite (cb_order _ _ _ _ _ _ _ _ _ _ H). unfold chainNodes. rewrite !last_app. intros Hn Hp.
  destruct (last tailing) as [q|] eqn:Et.
  { injection Hp as ->. destruct (last (singNodes _ _ (tailingOpts _ _) _)) eqn:E; [|unfold singNodes in E; by rewrite last_imap, Et in E].
    injection Hn as ->. by eapply singNodes_end. }
  apply last_None in Et. pose proof (chain_b2 H) as E2. rewrite Et in E2, Hn. cbn [singNodes imap last isEmpty negb] in E2, Hn.
  destruct (last xray) as [q|] eqn:Ex.
  - injection Hp as ->. assert (b_needed b1 = true) as Eb by (rewrite (cb_b1 _ _ _ _ _ _ _ _ _ _ H); destruct xray; done).
    rewrite Eb, xrayList_imap, E2, app_nil_r in Hn. rewrite fmap_last, last_imap, Ex in Hn. injection Hn as <-. cbn [endsItself xrayNode x_dialer]. rewrite E2, orb_false_r.
    assert (0 < length xray)%nat by (destruct xray; [done|cbn; lia]). replace (S (pred (length xray))) with (length xray) by lia.
    by rewrite Nat.eqb_refl, andb_false_r.
  - apply last_None in Ex. assert (b_needed b1 = false) as Eb by (by rewrite (cb_b1 _ _ _ _ _ _ _ _ _ _ H), Ex). rewrite Eb in Hn. cbn in Hn.
    unfold withBridge in Hn. rewrite Eb in Hn. eapply singNodes_end; [exact Hn|exact Hp|]. intros [_ Hlen]%Hw.
    rewrite (chain_lengths H), Ex, Et in Hlen. cbn in Hlen. lia.
Qed.

(** What the tag of the chain names is its first node. *)
Lemma chain_entry : ents <> [] -> NSing <$> singAt c' (chainIngress req) = head chainNodes.
Proof.
  intros Hne. destruct (withBridge initial b1) as [|p l] eqn:El.
  - exfalso. unfold withBridge in El. destruct (b_needed b1) eqn:Eb; [by destruct initial|]. destruct (chain_b1 H Eb) as [Ex Et]. apply Hne.
    by rewrite (cb_order _ _ _ _ _ _ _ _ _ _ H), El, Ex, Et.
  - pose proof (cb_leading _ _ _ _ _ _ _ _ _ _ H 0%nat p) as Hin. unfold chainNodes. rewrite El in Hin |- *. specialize (Hin eq_refl).
    apply singAt_in in Hin; [|done]. rewrite singObject_tag in Hin. unfold singNodes. rewrite imap_cons. cbn [app head].
    unfold singTag, chainIngress in *. cbn [leadingOpts o_warpWrap o_includeProxy o_prefix o_startSuffix] in Hin. change (Z.of_nat 0) with 0 in Hin.
    rewrite andb_false_r, andb_true_r, Z.add_0_r in Hin. by rewrite Hin.
Qed.
End Chain.

(** A chain behind WARP begins on sing-box. *)
Lemma warp_first env req c c' ents initial xray tailing b1 b2 ids found : ChainBuilt env req c c' ents initial xray tailing b1 b2 ->
  Forall2 (fun id p => hopOf env id = Some p) (warpProfileID :: ids) found -> Forall2 builtAs found ents -> initial <> [].
Proof.
  intros H Hf Hb ->. inversion Hf as [|? w ? found' Hw _]; subst. inversion Hb as [|? q ? ents' Hq _]; subst.
  injection Hw as <-. assert (IsXray q = false) as Eq by (by destruct Hq as [->|(_ & b & ->)]).
  pose proof (cb_order _ _ _ _ _ _ _ _ _ _ H) as Ho. pose proof (cb_xray _ _ _ _ _ _ _ _ _ _ H) as Hx.
  destruct xray as [|x xray]; cbn in Ho.
  - by rewrite (cb_tail _ _ _ _ _ _ _ _ _ _ H eq_refl) in Ho.
  - injection Ho as <- _. apply Forall_cons in Hx as [Hx _]. congruence.
Qed.

(** A connection that enters at [tag] goes through the hops [ids]. *)
Definition passes (env : BuildEnv) (c : BuildContext) (tag : qstring) (ids : list Z) : Prop :=
  exists found ents nodes, Forall2 (fun id p => hopOf env id = Some p) ids found /\ Forall2 builtAs found ents /\
    NSing <$> singAt c tag = head nodes /\ path c nodes /\ crosses c nodes ents /\
    (forall n p, last nodes = Some n -> last ents = Some p -> endsItself p n).

(** A chain that is built leads through its hops. *)
Lemma chain_passes env req c tag c' : errors c = [] -> bridgesMatch c -> hopIDs req <> [] ->
  (r_link req = true \/ length (hopIDs req) = 1%nat) ->
  (r_warpWrap req = true -> exists id rest, hopIDs req = warpProfileID :: id :: rest) ->
  buildOutboundChain env req c = (tag, c') -> errors c' = [] -> Distinct c' -> passes env c' tag (hopIDs req).
Proof.
  intros He Hm Hne Hl Hw Hb He' Hd. destruct (chain_built env req c tag c' He Hb He') as (-> & ents & initial & xray & tailing & b1 & b2 & H).
  destruct (cb_ids _ _ _ _ _ _ _ _ _ _ H) as (found & Hf & Hbu). pose proof (Forall2_length _ _ _ Hf) as L1. pose proof (Forall2_length _ _ _ Hbu) as L2.
  assert (r_link req = true \/ length ents = 1%nat) as Hl' by (rewrite <- L2, <- L1; exact Hl).
  assert (r_warpWrap req = true -> initial <> [] /\ (2 <= length ents)%nat) as Hw'.
  { intros (id & rest & E)%Hw. rewrite E in Hf, L1. cbn in L1. split; [|lia]. by eapply warp_first. }
  exists found, ents, (chainNodes env req c initial xray tailing b1 b2). split_and!; try done.
  - eapply chain_entry; [exact H|done..|]. intros ->. cbn in L2. destruct (hopIDs req); [done|]. cbn in L1. lia.
  - by eapply chain_path.
  - by eapply chain_crosses.
  - intros n p. by eapply chain_end.
Qed.
