(* ===== verification/ConfigGrowth.v ===== *)
(** * What a chain leaves of a build (src/src/configs/generate.cpp)

    A chain adds to the outbounds, the bridges and the ingress tags of a build and
    takes nothing away: the ways through the chains before it stay as they are,
    and its tags are those its request may use. *)

From Stdlib Require Import Ascii String.
From S2P Require Import Prelude QtText Json Lists ConfigChains ConfigHops ConfigPath.

Local Open Scope Z_scope.
#[local] Set Warnings "-register-all".

(** ** Growth *)

Record Extends (c c' : BuildContext) : Prop := {
  ex_emitted : emitted c ⊆ emitted c';
  ex_xray : xrayOutbounds c ⊆ xrayOutbounds c';
  ex_xrayIngress : xrayIngressTags c `prefix_of` xrayIngressTags c';
  ex_singIngress : singIngressTags c `prefix_of` singIngressTags c';
  ex_bridges : singToXrayBridges c `prefix_of` singToXrayBridges c';
  ex_back : xrayToSingBridges c `prefix_of` xrayToSingBridges c' }.

#[export] Instance Extends_preorder : PreOrder Extends.
Proof.
  split; [intros c; by split|]. intros a b c [A1 A2 A3 A4 A5 A6] [B1 B2 B3 B4 B5 B6].
  split; (etrans; [eassumption|done]).
Qed.

Lemma singAt_found c t o : singAt c t = Some o -> o ∈ emitted c /\ tagOf o = t.
Proof. intros [Ho Ht]%List.find_some. apply bool_decide_eq_true_1 in Ht. by apply list_elem_of_In in Ho. Qed.
Lemma xrayAt_found c t x : xrayAt c t = Some x -> x ∈ xrayOutbounds c /\ x_tag x = t.
Proof. intros [Ho Ht]%List.find_some. apply bool_decide_eq_true_1 in Ht. by apply list_elem_of_In in Ho. Qed.

Lemma singAt_kept c c' t o : Extends c c' -> Distinct c' -> singAt c t = Some o -> singAt c' t = Some o.
Proof. intros He Hd [Ho <-]%singAt_found. apply singAt_in; [done|]. by apply He. Qed.
Lemma xrayAt_kept c c' t x : Extends c c' -> Distinct c' -> xrayAt c t = Some x -> xrayAt c' t = Some x.
Proof. intros He Hd [Ho <-]%xrayAt_found. apply xrayAt_in; [done|]. by apply He. Qed.

Lemma list_find_prefix {A} (P : A -> Prop) `{!∀ x, Decision (P x)} l l' r : l `prefix_of` l' -> list_find P l = Some r -> list_find P l' = Some r.
Proof. intros [k ->] Hr. destruct r. by apply list_find_app_l. Qed.

(** The links that were there still lead where they led. *)
Lemma nextNode_kept c c' n m : Extends c c' -> Distinct c' -> nextNode c n = Some m -> nextNode c' n = Some m.
Proof.
  intros He Hd. destruct n as [o|x]; cbn [nextNode].
  - destruct (jsonGet o (qs "detour")) as [v|].
    + destruct (singAt c (jsonText (Some v))) as [o'|] eqn:E; [|done]. by rewrite (singAt_kept _ _ _ _ He Hd E).
    + destruct (list_find _ (singToXrayBridges c)) as [[i b]|] eqn:E; [|done]. rewrite (list_find_prefix _ _ _ _ (ex_bridges _ _ He) E). cbn.
      destruct (xrayIngressTags c !! i) as [t|] eqn:Et; [|done]. rewrite (prefix_lookup_Some _ _ _ _ Et (ex_xrayIngress _ _ He)). cbn.
      destruct (xrayAt c t) as [x|] eqn:Ex; [|done]. by rewrite (xrayAt_kept _ _ _ _ He Hd Ex).
  - destruct (x_dialer x) as [t|].
    + destruct (xrayAt c t) as [y|] eqn:E; [|done]. by rewrite (xrayAt_kept _ _ _ _ He Hd E).
    + destruct (list_find _ (xrayToSingBridges c)) as [[i b]|] eqn:E; [|done]. rewrite (list_find_prefix _ _ _ _ (ex_back _ _ He) E). cbn.
      destruct (singIngressTags c !! i) as [t|] eqn:Et; [|done]. rewrite (prefix_lookup_Some _ _ _ _ Et (ex_singIngress _ _ He)). cbn.
      destruct (singAt c t) as [o|] eqn:Eo; [|done]. by rewrite (singAt_kept _ _ _ _ He Hd Eo).
Qed.

Lemma path_kept c c' ns : Extends c c' -> Distinct c' -> path c ns -> path c' ns.
Proof. intros He Hd H i n m Hn Hm. eapply nextNode_kept; eauto. Qed.

Lemma isBridge_kept c c' n : Extends c c' -> isBridge c n -> isBridge c' n.
Proof.
  intros He. destruct n; intros (b & Hb & Hd); exists b; (split; [|done]).
  - destruct (ex_bridges _ _ He) as [k ->]. set_solver.
  - destruct (ex_back _ _ He) as [k ->]. set_solver.
Qed.

Lemma crosses_kept c c' ns ps : Extends c c' -> crosses c ns ps -> crosses c' ns ps.
Proof. intros He. induction 1; [apply crosses_nil|by apply crosses_hop|apply crosses_bridge; [by eapply isBridge_kept|done]]. Qed.

(** What is distinct was distinct before. *)
Lemma NoDup_prefix {A} (l l' : list A) : l `prefix_of` l' -> NoDup l' -> NoDup l.
Proof. intros [k ->]. by intros [? _]%NoDup_app. Qed.

(** ** The tags of a request *)

Definition mayTag (req : ChainBuildRequest) (t : qstring) : Prop :=
  (r_includeProxy req = true /\ t = tagProxy) \/ (r_warpWrap req = true /\ t = tagWarpBypass) \/
  exists k, r_startSuffix req <= k < r_startSuffix req + qsize (hopIDs req) /\ t = hopTag (r_prefix req) k.

(** Tags of the request's prefix are not the two names rules know. *)
Definition clean (req : ChainBuildRequest) : Prop := forall k, hopTag (r_prefix req) k <> tagProxy /\ hopTag (r_prefix req) k <> tagWarpBypass.

Lemma hopTag_inj p i j : hopTag p i = hopTag p j -> i = j.
Proof. unfold hopTag. intros H. apply app_inv_head, app_inv_head in H. by apply number_injective. Qed.

Lemma NoDup_imap {A B} (f : nat -> A -> B) l :
  (forall i j x y, l !! i = Some x -> l !! j = Some y -> f i x = f j y -> i = j) -> NoDup (imap f l).
Proof.
  intros H. apply NoDup_alt. intros i j b Hi Hj. rewrite list_lookup_imap in Hi, Hj.
  destruct (l !! i) as [x|] eqn:Ei; [|done]. destruct (l !! j) as [y|] eqn:Ej; [|done]. cbn in Hi, Hj.
  apply (H i j x y); [done|done|congruence].
Qed.

Lemma Forall_imap {A B} (P : B -> Prop) (f : nat -> A -> B) l :
  (forall i x, l !! i = Some x -> P (f i x)) -> Forall P (imap f l).
Proof.
  intros H. apply Forall_lookup. intros i b Hb. rewrite list_lookup_imap in Hb. destruct (l !! i) as [x|] eqn:E; [|done].
  injection Hb as <-. by apply H.
Qed.

Section Tags.
Context (env : BuildEnv) (req : ChainBuildRequest).
Hypothesis Hclean : clean req.

(** The tag of position [i] on sing-box: a name rules know, or the request's. *)
Lemma leading_tag i : 0 <= i -> let t := singTag (leadingOpts req) i in
  (i = 1 /\ r_warpWrap req = true /\ t = tagWarpBypass) \/ (i = 0 /\ r_includeProxy req = true /\ t = tagProxy) \/
  t = hopTag (r_prefix req) (r_startSuffix req + i).
Proof.
  intros Hi. unfold singTag. cbn [leadingOpts o_warpWrap o_includeProxy o_prefix o_startSuffix].
  destruct (r_warpWrap req), (Z.eqb_spec i 1); cbn; try (left; by split_and!);
    destruct (r_includeProxy req), (Z.eqb_spec i 0); cbn; try (by right; right); right; left; by split_and!.
Qed.

Lemma leading_inj i j : 0 <= i -> 0 <= j -> singTag (leadingOpts req) i = singTag (leadingOpts req) j -> i = j.
Proof.
  intros Hi Hj. destruct (leading_tag i Hi) as [(-> & _ & ->)|[(-> & _ & ->)| ->]], (leading_tag j Hj) as [(-> & _ & ->)|[(-> & _ & ->)| ->]]; try done.
  - intros E. by destruct (Hclean (r_startSuffix req + j)) as [_ []].
  - intros E. by destruct (Hclean (r_startSuffix req + j)) as [[] _].
  - intros E. by destruct (Hclean (r_startSuffix req + i)) as [_ []].
  - intros E. by destruct (Hclean (r_startSuffix req + i)) as [[] _].
  - intros ->%hopTag_inj%Z.add_reg_l. done.
Qed.

Lemma xray_inj i j : 0 <= i -> 0 <= j -> xrayHopTag (leadingOpts req) i = xrayHopTag (leadingOpts req) j -> i = j.
Proof.
  intros Hi Hj. unfold xrayHopTag. cbn [leadingOpts o_includeProxy o_prefix o_startSuffix].
  destruct (r_includeProxy req), (Z.eqb_spec i 0), (Z.eqb_spec j 0); cbn; try lia; intros E;
    try (apply hopTag_inj in E; lia);
    [by destruct (Hclean (r_startSuffix req + j)) as [[] _]|by destruct (Hclean (r_startSuffix req + i)) as [[] _]].
Qed.

Lemma tailing_tag start i : singTag (tailingOpts req start) i = hopTag (r_prefix req) (start + i).
Proof. done. Qed.

Lemma chainTags_spec leading tailing : let start := r_startSuffix req + qsize leading in
  (length leading + length tailing <= length (hopIDs req))%nat ->
  NoDup (chainTags req start leading tailing) /\ Forall (mayTag req) (chainTags req start leading tailing).
Proof.
  cbv zeta. intros Hlen. unfold chainTags. split.
  - apply NoDup_app. split_and!.
    + apply NoDup_imap. intros i j p q _ _ E%leading_inj; lia.
    + intros t Ht Ht'. apply elem_of_lookup_imap in Ht as (i & p & -> & Hi). apply elem_of_lookup_imap in Ht' as (j & q & E & Hj).
      apply lookup_lt_Some in Hi. rewrite tailing_tag in E. destruct (leading_tag (0 + Z.of_nat i)) as [(_ & _ & E')|[(_ & _ & E')|E']]; [lia|..]; rewrite E' in E.
      * symmetry in E. by apply Hclean in E.
      * symmetry in E. by apply Hclean in E.
      * apply hopTag_inj in E. unfold qsize in E. lia.
    + apply NoDup_imap. intros i j p q _ _ E. rewrite !tailing_tag in E. apply hopTag_inj in E. lia.
  - apply Forall_app. split; apply Forall_imap; intros i p Hi; apply lookup_lt_Some in Hi.
    + destruct (leading_tag (0 + Z.of_nat i)) as [(_ & Hw & ->)|[(_ & Hp & ->)| ->]]; [lia|by right; left|by left|].
      right; right. eexists. split; [|done]. unfold qsize. lia.
    + right; right. rewrite tailing_tag. eexists. split; [|done]. unfold qsize. lia.
Qed.

Lemma xrayTags_spec b xray : xray <> [] -> (length xray + (if b_needed b then 1 else 0) <= length (hopIDs req))%nat ->
  let xs := map x_tag (xrayList env (leadingOpts req) b 0 xray) in NoDup xs /\ Forall (mayTag req) xs.
Proof.
  cbv zeta. intros Hne Hlen. rewrite xrayList_imap, map_app. change (map x_tag (imap ?f ?l)) with (x_tag <$> imap f l). rewrite fmap_imap.
  assert (0 < length xray)%nat by (destruct xray; [done|cbn; lia]).
  assert (forall i, 0 <= i < qsize (hopIDs req) -> mayTag req (xrayHopTag (leadingOpts req) i)) as Hmay.
  { intros i Hi. unfold xrayHopTag. cbn. destruct (r_includeProxy req && (i =? 0)) eqn:E; [left; by apply andb_true_iff in E as [? _]|].
    right; right. eexists. split; [|done]. lia. }
  assert (forall n, 0 < n -> hopTag (r_prefix req) (r_startSuffix req + n) = xrayHopTag (leadingOpts req) n) as Hb.
  { intros n Hn. unfold xrayHopTag. cbn. assert ((n =? 0) = false) as -> by (apply Z.eqb_neq; lia). by rewrite andb_false_r. }
  split; [apply NoDup_app; split_and!|apply Forall_app; split].
  - apply NoDup_imap. intros i j p q _ _ E%xray_inj; lia.
  - intros t Ht Ht'. apply elem_of_lookup_imap in Ht as (i & p & -> & Hi). apply lookup_lt_Some in Hi. destruct (b_needed b); [|by apply elem_of_nil in Ht'].
    apply list_elem_of_singleton in Ht'. cbn [bridgeOutbound x_tag o_prefix o_startSuffix leadingOpts] in Ht'. rewrite Hb in Ht' by (unfold qsize; lia). apply xray_inj in Ht'; unfold qsize in *; lia.
  - destruct (b_needed b); [apply NoDup_singleton|apply NoDup_nil_2].
  - apply Forall_imap. intros i p Hi. apply lookup_lt_Some in Hi. apply Hmay. unfold qsize. lia.
  - destruct (b_needed b); [|done]. apply Forall_singleton. cbn [bridgeOutbound x_tag o_prefix o_startSuffix leadingOpts]. rewrite Hb by (unfold qsize; lia). apply Hmay. unfold qsize. lia.
Qed.
End Tags.

(** ** The tags of a build *)

(** The outbounds of each core have tags of their own, which [P] allows, and
    every bridge has its ingress: the tag of an outbound, no two the same. *)
Record Tagged (P : qstring -> Prop) (c : BuildContext) : Prop := {
  tg_sing : NoDup (map tagOf (emitted c));
  tg_singP : Forall P (map tagOf (emitted c));
  tg_xray : NoDup (map x_tag (xrayOutbounds c));
  tg_xrayP : Forall P (map x_tag (xrayOutbounds c));
  tg_match : bridgesMatch c;
  tg_xrayIn : NoDup (xrayIngressTags c);
  tg_xrayInTags : xrayIngressTags c ⊆ map x_tag (xrayOutbounds c);
  tg_singIn : NoDup (singIngressTags c);
  tg_singInTags : singIngressTags c ⊆ map tagOf (emitted c) }.

Definition disjointTags (P Q : qstring -> Prop) : Prop := forall t, P t -> Q t -> False.

Lemma Tagged_mono (P Q : qstring -> Prop) c : (forall t, P t -> Q t) -> Tagged P c -> Tagged Q c.
Proof. intros H []. split; try done; by eapply Forall_impl. Qed.

Lemma NoDup_added (P Q : qstring -> Prop) l ts : disjointTags P Q -> NoDup l -> Forall P l -> NoDup ts -> Forall Q ts ->
  NoDup (l ++ ts) /\ Forall (fun t => P t \/ Q t) (l ++ ts).
Proof.
  intros Hd Hl HP Ht HQ. rewrite Forall_forall in HP, HQ. split.
  - apply NoDup_app. split_and!; [done| |done]. intros t H1 H2. by apply (Hd t); [apply HP|apply HQ].
  - apply Forall_app. split; apply Forall_forall; intros t H; [left|right]; auto.
Qed.

Lemma NoDup_ingress (P Q : qstring -> Prop) l ts ins new : disjointTags P Q -> Forall P l -> NoDup ins -> ins ⊆ l -> Forall Q ts ->
  NoDup new /\ new ⊆ ts -> NoDup (ins ++ new) /\ ins ++ new ⊆ l ++ ts.
Proof.
  rewrite !Forall_forall. intros Hd HP Hn Hs HQ [Hn' Hs']. split; [|set_solver]. apply NoDup_app. split_and!; [done| |done].
  intros t H1 H2. apply (Hd t); auto.
Qed.

Section Growth.
Context (env : BuildEnv) (req : ChainBuildRequest) (c c' : BuildContext) (ents initial xray tailing : list Profile) (b1 b2 : Bridge).
Hypothesis H : ChainBuilt env req c c' ents initial xray tailing b1 b2.

Lemma built_length : length (hopIDs req) = (length initial + length xray + length tailing)%nat.
Proof.
  destruct (cb_ids _ _ _ _ _ _ _ _ _ _ H) as (found & Hf & Hb). pose proof (Forall2_length _ _ _ Hf). pose proof (Forall2_length _ _ _ Hb).
  rewrite <- (chain_lengths H). congruence.
Qed.

Lemma built_extends : Extends c c'.
Proof.
  split.
  - apply H.
  - rewrite (cb_xrayOutbounds _ _ _ _ _ _ _ _ _ _ H). set_solver.
  - rewrite (cb_ingress1 _ _ _ _ _ _ _ _ _ _ H). by eexists.
  - rewrite (cb_ingress2 _ _ _ _ _ _ _ _ _ _ H). by eexists.
  - rewrite (cb_bridges1 _ _ _ _ _ _ _ _ _ _ H). by eexists.
  - rewrite (cb_bridges2 _ _ _ _ _ _ _ _ _ _ H). by eexists.
Qed.

Lemma built_match : bridgesMatch c -> bridgesMatch c'.
Proof.
  intros [M1 M2]. split.
  - rewrite (cb_ingress1 _ _ _ _ _ _ _ _ _ _ H), (cb_bridges1 _ _ _ _ _ _ _ _ _ _ H), !length_app, M1. by destruct (b_needed b1).
  - rewrite (cb_ingress2 _ _ _ _ _ _ _ _ _ _ H), (cb_bridges2 _ _ _ _ _ _ _ _ _ _ H), !length_app, M2. by destruct (b_needed b2).
Qed.

Lemma singleton_sub {A} (b : bool) (x : A) l : (b = true -> x ∈ l) -> NoDup (if b then [x] else []) /\ (if b then [x] else []) ⊆ l.
Proof. destruct b; intros Hx; (split; [apply NoDup_singleton || apply NoDup_nil_2|set_solver]). Qed.

Lemma ingress_xray : let new := if b_needed b1 then [xrayHopTag (leadingOpts req) 0] else [] in
  NoDup new /\ new ⊆ map x_tag (if b_needed b1 then xrayList env (leadingOpts req) b2 0 xray else []).
Proof.
  apply singleton_sub. intros Eb. rewrite Eb. destruct (chain_xray_cons H Eb) as (p & rest & ->). cbn. set_solver.
Qed.

Lemma ingress_sing : let start := tailStart req initial b1 in let new := if b_needed b2 then [hopTag (r_prefix req) start] else [] in
  NoDup new /\ new ⊆ chainTags req start (withBridge initial b1) tailing.
Proof.
  apply singleton_sub. rewrite (chain_b2 H). intros Eb. destruct tailing as [|p rest]; [done|]. unfold chainTags. rewrite imap_cons, tailing_tag.
  rewrite !Z.add_0_r. set_solver.
Qed.

Lemma built_tagged P : clean req -> disjointTags P (mayTag req) -> Tagged P c -> Tagged (fun t => P t \/ mayTag req t) c'.
Proof.
  intros Hc Hd [T1 T2 T3 T4 T5 T6 T7 T8 T9]. pose proof built_length as Hlen.
  assert (length (withBridge initial b1) + length tailing <= length (hopIDs req))%nat as Hl.
  { unfold withBridge. destruct (b_needed b1) eqn:Eb; [|lia]. rewrite length_app. cbn.
    destruct (chain_xray_cons H Eb) as (p & rest & ->). cbn in Hlen. lia. }
  destruct (chainTags_spec req Hc _ _ Hl) as [S1 S2]. fold (tailStart req initial b1) in S1, S2.
  destruct (NoDup_added P (mayTag req) _ _ Hd T1 T2 S1 S2) as [A1 A2].
  set (xs := map x_tag (if b_needed b1 then xrayList env (leadingOpts req) b2 0 xray else [])).
  assert (map x_tag (xrayOutbounds c') = map x_tag (xrayOutbounds c) ++ xs) as E by (by rewrite (cb_xrayOutbounds _ _ _ _ _ _ _ _ _ _ H), map_app).
  assert (NoDup xs /\ Forall (mayTag req) xs) as [X1 X2].
  { unfold xs. destruct (b_needed b1) eqn:Eb; [|split; [apply NoDup_nil_2|done]]. apply xrayTags_spec; [done|by eapply chain_b1_xray|].
    pose proof (chain_b2 H) as E2. destruct (b_needed b2), tailing; cbn in *; try done; lia. }
  destruct (NoDup_added P (mayTag req) _ _ Hd T3 T4 X1 X2) as [B1 B2]. pose proof (cb_tags _ _ _ _ _ _ _ _ _ _ H) as HT.
  destruct (NoDup_ingress P (mayTag req) _ _ _ _ Hd T4 T6 T7 X2 ingress_xray) as [C1 C2].
  destruct (NoDup_ingress P (mayTag req) _ _ _ _ Hd T2 T8 T9 S2 ingress_sing) as [D1 D2].
  pose proof (cb_ingress1 _ _ _ _ _ _ _ _ _ _ H) as I1. pose proof (cb_ingress2 _ _ _ _ _ _ _ _ _ _ H) as I2.
  split; rewrite ?E, ?I1, ?I2; try done; [by rewrite HT|by rewrite HT|by apply built_match|by rewrite HT].
Qed.
End Growth.

(** A chain that is built keeps the tags apart. *)
Lemma chain_tagged env req c tag c' P : errors c = [] -> buildOutboundChain env req c = (tag, c') -> errors c' = [] ->
  clean req -> disjointTags P (mayTag req) -> Tagged P c ->
  Tagged (fun t => P t \/ mayTag req t) c' /\ Extends c c' /\ forTest c' = forTest c /\ tag = chainIngress req.
Proof.
  intros He Hb He' Hc Hd HT. destruct (chain_built env req c tag c' He Hb He') as (-> & ents & initial & xray & tailing & b1 & b2 & H).
  split_and!; [by eapply built_tagged|by eapply built_extends|by apply H|done].
Qed.
