(* ===== verification/ConfigOutbounds.v ===== *)
(** * The outbounds of a configuration (src/src/configs/generate.cpp)

    [buildOutboundsSection]: the chain of the started profile or the members of an
    auto selector, the chains that routing rules name, the endpoints of the
    routing profile, and the inbounds of the bridges back from Xray;
    [buildXrayConfig]: the configuration of the sidecar. *)

From Stdlib Require Import Ascii String.
From S2P Require Import Prelude QtText Json Lists AutoSelector ConfigChains ConfigHops ConfigPath.

Local Open Scope Z_scope.
#[local] Set Warnings "-register-all".

(** ** Inputs *)

Record RouteOutboundGroup := MkRouteGroup { rg_hopIDs : list Z; chainWrapper : option Profile }.
Record AuxEndpointGroup := MkAuxGroup { ag_hopIDs : list Z; innerHopIndexes : list Z; ag_endpoint : option Profile }.

(** The routing part of BuildPrerequisites; [outboundMap] is a std::map by id. *)
Record RoutingDeps := MkRouting {
  outboundMap : gmap Z qstring;
  routeOutboundGroups : list RouteOutboundGroup;
  auxEndpointGroups : list AuxEndpointGroup }.

(** What the section asks beside [BuildEnv]: [plan] is what PlanAutoSelector
    returns (its build list and its error), [invalid] whether the core refuses a
    profile, [measured] the latency of a profile and the time of its test. *)
Record OutboundsEnv := MkOutboundsEnv {
  enable_warp : bool;
  l3Bridge : bool;
  displayName : Profile -> qstring;
  selectorOf : Profile -> option autoSelector;
  plan : Profile -> list Z * qstring;
  invalid : Z -> bool;
  measured : Profile -> Z * Z;
  builtAt : Z;
  test_latency_url : qstring;
  direct_test_url : qstring;
  xray_log_level : qstring }.

Section Outbounds.
Context (env : BuildEnv) (set : OutboundsEnv).

(** ** Groups of traffic *)

Definition onLastGroup (f : TrafficChainGroup -> TrafficChainGroup) (c : BuildContext) : BuildContext :=
  match last (chainGroups c) with
  | Some g => set_chainGroups (removelast (chainGroups c) ++ [f g]) c
  | None => c
  end.
Definition creditTo (p : Profile) (g : TrafficChainGroup) : TrafficChainGroup :=
  MkChainGroup (watchTag g) (tg_profiles g ++ [p]) (tg_kind g) (tg_profileId g) (tg_name g).
Definition namedAs (kind : TrafficChainKind) (p : Profile) (g : TrafficChainGroup) : TrafficChainGroup :=
  MkChainGroup (watchTag g) (tg_profiles g) kind (p_id p) (displayName set p).
Definition nameOutbound (tag name : qstring) (c : BuildContext) : BuildContext := set_outboundNames (qmapSet tag name (outboundNames c)) c.

(** ** The auto selector *)

Record memberBridges := MkBridges { singToXray : bool; xrayToSing : bool; xrayFullConfig : bool }.
Definition bridgesCount (b : memberBridges) : nat := Nat.b2n (singToXray b) + Nat.b2n (xrayToSing b) + Nat.b2n (xrayFullConfig b).

Definition bridgesForHop (st : memberBridges * bool) (id : Z) : memberBridges * bool :=
  let '(needed, inXray) := st in
  match getProfile env id with
  | None => st
  | Some hop =>
      (MkBridges (singToXray needed || (IsXray hop && negb inXray)) (xrayToSing needed || (negb (IsXray hop) && inXray))
         (xrayFullConfig needed || IsXrayFullConfig hop), IsXray hop)
  end.
Definition bridgesFor (hopIDs : list Z) : memberBridges := (fold_left bridgesForHop hopIDs (MkBridges false false false, false)).1.

Record plannedMember := MkPlanned { pm_ent : Profile; pm_hopIDs : list Z; pm_bridges : memberBridges }.

(** A member runs as if it were started: behind the proxies of its own group. *)
Definition planMember (id : Z) : option plannedMember :=
  if invalid set id then None
  else
    member ← liveProfile env <$> getProfile env id;
    let hopIDs :=
      match getGroup env (p_gid member) with
      | None => [id]
      | Some g => (if 0 <=? landing_proxy_id g then [landing_proxy_id g] else []) ++ [id] ++ (if 0 <=? front_proxy_id g then [front_proxy_id g] else [])
      end in
    Some (MkPlanned member hopIDs (bridgesFor hopIDs)).

(** The ports of a member, in the order of the one probe. *)
Definition takePort (needed : bool) (ports : list Z) : Z * list Z := if needed then (default 0 (head ports), tail ports) else (-1, ports).

Definition memberRequest (idx : Z) (m : plannedMember) (ports : list Z) : ChainBuildRequest * list Z :=
  let '(singToXrayPort, ports) := takePort (singToXray (pm_bridges m)) ports in
  let '(xrayToSingPort, ports) := takePort (xrayToSing (pm_bridges m)) ports in
  let '(xrayFullConfigPort, ports) := takePort (xrayFullConfig (pm_bridges m)) ports in
  (MkChainRequest (pm_hopIDs m) (hopTag poolChainPrefix idx) false true 0 singToXrayPort xrayToSingPort xrayFullConfigPort
     (xrayFullConfig (pm_bridges m)) false false [], ports).

(** What the loop over the members gathers. *)
Record Gathered := MkGathered { g_tags : list qstring; g_members : list (qstring * Profile); g_warm : list QJsonValue; g_pinned : qstring }.

(** A measurement the selector may start from; a failed one has no round trip. *)
Definition warmEntry (selector : autoSelector) (tag : qstring) (member : Profile) : list QJsonValue :=
  let '(latency, latency_at) := measured set member in
  if negb (latency =? 0) && (0 <? latency_at) && (0 <? resultValidityMins selector) then
    let age := builtAt set - latency_at in
    if (0 <=? age) && (age <=? resultValidityMins selector * 60)
    then [JObject [(qs "tag", jtext tag); (qs "rtt", JInt (if 0 <? latency then latency else 0)); (qs "age", JDouble age true)]] else []
  else [].

(** The whole Xray configuration of a member gets an instance of its own. *)
Definition drainFullConfig (m : plannedMember) (c : BuildContext) : BuildContext :=
  if xrayFullConfig (pm_bridges m) then
    if isEmpty (xrayConfig c) then fail MemberWithoutXrayConfig c
    else set_isXrayNeeded false (set_xrayConfig [] (set_xrayFullConfigs (xrayFullConfigs c ++ [xrayConfig c]) c))
  else c.

Fixpoint buildMembers (selector : autoSelector) (idx : Z) (planned : list plannedMember) (ports : list Z) (g : Gathered) (c : BuildContext)
    : Gathered * BuildContext :=
  match planned with
  | [] => (g, c)
  | m :: planned =>
      let '(req, ports) := memberRequest idx m ports in
      let '(tag, c) := buildOutboundChain env req c in
      if failed c then (g, c)
      else
        let c := drainFullConfig m c in
        if failed c then (g, c)
        else
          let member := pm_ent m in
          let g := MkGathered (g_tags g ++ [tag]) (g_members g ++ [(tag, member)]) (g_warm g ++ warmEntry selector tag member)
                     (if p_id member =? pinnedID selector then tag else g_pinned g) in
          let c := onLastGroup (creditTo (ent c)) (nameOutbound tag (displayName set member) c) in
          buildMembers selector (idx + 1) planned ports g c
  end.

Definition seconds (n : Z) : QJsonValue := jtext (number n ++ qs "s").

(** The object of the group, members by tag. *)
Definition selectorObject (selector : autoSelector) (groupTag : qstring) (g : Gathered) : QJsonObject :=
  let o :=
    [(qs "type", jtext (qs "auto-selector")); (qs "tag", jtext groupTag); (qs "outbounds", JArray (map jtext (g_tags g)));
     (qs "url", jtext (if isEmpty (testURL selector) then test_latency_url set else testURL selector));
     (qs "interval", seconds (intervalSec selector)); (qs "bench_interval", seconds (benchIntervalSec selector));
     (qs "watch_interval", seconds (watchIntervalSec selector)); (qs "active_size", JInt (activeSize selector));
     (qs "sampling", JInt (sampling selector)); (qs "tolerance", JInt (toleranceMs selector)); (qs "expected", JInt (expected selector));
     (qs "dial_retries", JInt (dialRetries selector)); (qs "interrupt_exist_connections", JBool (interruptOnSwitch selector))] in
  let o := if isEmpty (g_warm g) then o else jsonSet o (qs "warm") (JArray (g_warm g)) in
  let o := if isEmpty (g_pinned g) then o else jsonSet o (qs "pinned") (jtext (g_pinned g)) in
  let o := if 0 <? maxRTTms selector then jsonSet o (qs "max_rtt") (jtext (number (maxRTTms selector) ++ qs "ms")) else o in
  let connectivity := if isEmpty (connectivityURL selector) then direct_test_url set else connectivityURL selector in
  let o := if isEmpty connectivity then o else jsonSet o (qs "connectivity_url") (jtext connectivity) in
  if balance selector then
    jsonSet (jsonSet (jsonSet o (qs "balance") (JBool true)) (qs "balance_mode") (jtext (balanceMode selector)))
      (qs "balance_interval") (seconds (balanceIntervalSec selector))
  else o.

(** Behind WARP the bytes are those of the WARP outbound: one group, which takes
    the members' groups from the last. *)
Definition creditWarp (before : nat) (c : BuildContext) : BuildContext :=
  let credited := concat (map tg_profiles (rev (drop before (chainGroups c)))) in
  set_chainGroups (take before (chainGroups c) ++ [MkChainGroup tagProxy credited KindMain (-1) []]) c.

Definition buildAutoSelectorGroup (warpWrap : bool) (c : BuildContext) : BuildContext :=
  match selectorOf set (ent c) with
  | None => fail CorruptSelector c
  | Some selector =>
      let selector := Normalize selector in
      let '(build, error) := plan set (ent c) in
      if negb (isEmpty error) then fail (SelectorPlanFailed error) c
      else
        let groupTag := if warpWrap then tagWarpBypass else tagProxy in
        let before := length (chainGroups c) in
        let planned := omap planMember build in
        let '(ports, c) := probe env (list_sum (map (fun m => bridgesCount (pm_bridges m)) planned)) c in
        let '(g, c) := buildMembers selector 0 planned ports (MkGathered [] [] [] []) c in
        if failed c then c
        else if isEmpty (g_tags g) then fail NoUsableMembers c
        else
          let c := if warpWrap then creditWarp before c else c in
          let c := set_outbounds (outbounds c ++ [selectorObject selector groupTag g]) c in
          set_autoSelectors (autoSelectors c ++ [MkSelectorInfo groupTag (ent c) (g_members g)]) c
  end.

Definition buildWarpInFrontOfSelector (c : BuildContext) : BuildContext :=
  let p := warpProfile env in
  if negb (isEmpty (snd (Build p))) then failMore (HopBuildFailed (snd (Build p))) c
  else
    let object := jsonSet (jsonSet (fst (Build p)) (qs "tag") (jtext tagProxy)) (qs "detour") (jtext tagWarpBypass) in
    emitObject p object c.

(** ** The section *)

(** The hops of the started profile: WARP, the landing proxy of its group, the
    profile or its chain from the outer hop, and the front proxy. *)
Definition mainHops (warpWrap : bool) (g : Group) (p : Profile) (own : list Z) : list Z :=
  (if warpWrap then [warpProfileID] else []) ++ (if 0 <=? landing_proxy_id g then [landing_proxy_id g] else []) ++ own ++
  (if 0 <=? front_proxy_id g then [front_proxy_id g] else []).
Definition ownHops (p : Profile) : option (list Z) :=
  if bool_decide (p_type p = qs "chain") then (@rev Z) <$> p_chain p else Some [p_id p].

Definition mainRequest (warpWrap : bool) (hopIDs : list Z) : ChainBuildRequest :=
  MkChainRequest hopIDs mainChainPrefix true true 0 (-1) (-1) (-1) false warpWrap false [].
Definition routeRequest (hopIDs : list Z) (suffix : Z) : ChainBuildRequest :=
  MkChainRequest hopIDs routeChainPrefix false (1 <? qsize hopIDs) suffix (-1) (-1) (-1) false false false [].
Definition auxRequest (hopIDs : list Z) (suffix : Z) (innerTags : list qstring) : ChainBuildRequest :=
  MkChainRequest hopIDs auxEndpointPrefix false (1 <? qsize hopIDs) suffix (-1) (-1) (-1) false false true innerTags.

(** The started profile; [false] when the section ends there. *)
Definition buildMain (g : Group) (c : BuildContext) : BuildContext * bool :=
  let warpWrap := enable_warp set in
  if bool_decide (p_type (ent c) = qs "autoselector") then
    let c := buildAutoSelectorGroup warpWrap c in
    if failed c then (c, false)
    else if warpWrap then let c := buildWarpInFrontOfSelector c in (c, negb (failed c)) else (c, true)
  else
    match ownHops (ent c) with
    | None => (fail CorruptChain c, false)
    | Some own =>
        let c := snd (buildOutboundChain env (mainRequest warpWrap (mainHops warpWrap g (ent c) own)) c) in
        (if bool_decide (p_type (ent c) = qs "chain") then onLastGroup (creditTo (ent c)) c else c, true)
    end.

Definition nameMain (c : BuildContext) : BuildContext :=
  let c := nameOutbound (if enable_warp set then tagWarpBypass else tagProxy) (displayName set (ent c)) c in
  if enable_warp set then nameOutbound tagProxy (qs "WARP") c else c.

(** A chain that routing rules name: the profile it stands for. *)
Definition routeNamed (r : RouteOutboundGroup) : option Profile :=
  match chainWrapper r with Some p => Some p | None => id ← head (rg_hopIDs r); getProfile env id end.
Definition grewSince (before : list TrafficChainGroup) (c : BuildContext) : bool := (length before <? length (chainGroups c))%nat.
Definition whenGrew (before : list TrafficChainGroup) (f : TrafficChainGroup -> TrafficChainGroup) (c : BuildContext) : BuildContext :=
  if grewSince before c then onLastGroup f c else c.

Definition buildRouteGroup (r : RouteOutboundGroup) (suffix : Z) (c : BuildContext) : BuildContext :=
  let before := chainGroups c in
  let '(tag, c) := buildOutboundChain env (routeRequest (rg_hopIDs r) suffix) c in
  let c := match chainWrapper r with Some w => whenGrew before (creditTo w) c | None => c end in
  match routeNamed r with
  | Some named => whenGrew before (namedAs KindRoute named) (nameOutbound tag (displayName set named) c)
  | None => c
  end.
Fixpoint buildRouteGroups (groups : list RouteOutboundGroup) (suffix : Z) (c : BuildContext) : BuildContext :=
  match groups with
  | [] => c
  | r :: groups => buildRouteGroups groups (suffix + qsize (rg_hopIDs r)) (buildRouteGroup r suffix c)
  end.

(** An endpoint of the routing profile and its inner hops that rules may name. *)
Definition nameInner (a : AuxEndpointGroup) (suffix : Z) (c : BuildContext) (idx : Z) : BuildContext :=
  match id ← ag_hopIDs a !! Z.to_nat idx; getProfile env id with
  | Some hop => nameOutbound (hopTag auxEndpointPrefix (suffix + idx)) (displayName set hop) c
  | None => c
  end.
Definition innerTagsOf (a : AuxEndpointGroup) (suffix : Z) : list qstring := map (fun idx => hopTag auxEndpointPrefix (suffix + idx)) (innerHopIndexes a).
Definition buildAuxGroup (a : AuxEndpointGroup) (suffix : Z) (c : BuildContext) : BuildContext :=
  let c := fold_left (nameInner a suffix) (innerHopIndexes a) c in
  let innerTags := innerTagsOf a suffix in
  let before := chainGroups c in
  let '(tag, c) := buildOutboundChain env (auxRequest (ag_hopIDs a) suffix innerTags) c in
  if failed c then c
  else
    let c := match ag_endpoint a with
             | Some p => whenGrew before (namedAs KindAux p) (nameOutbound tag (displayName set p) c)
             | None => c
             end in
    set_vpnAuxTags (vpnAuxTags c ++ [tag] ++ innerTags) c.
Fixpoint buildAuxGroups (groups : list AuxEndpointGroup) (suffix : Z) (c : BuildContext) : BuildContext * bool :=
  match groups with
  | [] => (c, true)
  | a :: groups =>
      let c := buildAuxGroup a suffix c in
      if failed c then (c, false) else buildAuxGroups groups (suffix + qsize (ag_hopIDs a)) c
  end.

Definition directOutbound : QJsonObject := [(qs "type", jtext (qs "direct")); (qs "tag", jtext tagDirect)].
Definition l3Outbound : QJsonObject :=
  [(qs "type", jtext (qs "bridge")); (qs "tag", jtext tagL3Direct); (qs "bridge_name", jtext (qs "throne-br"))].

Definition bridgeInbounds (c : BuildContext) : list QJsonValue :=
  zip_with (fun t b => JObject (socksBridgeInbound (bridgeTagFor t) b)) (singIngressTags c) (xrayToSingBridges c).
Definition bridgeIngressMismatch (c : BuildContext) : bool := negb (length (xrayToSingBridges c) =? length (singIngressTags c))%nat.

(** The sections written to the core's configuration. *)
Definition writeOutbounds (c : BuildContext) : BuildContext :=
  let inboundArr := jsonToArray (jsonGet (coreConfig c) (qs "inbounds")) ++ bridgeInbounds c in
  let c := set_coreConfig (jsonSet (coreConfig c) (qs "inbounds") (JArray inboundArr)) c in
  let c := set_outbounds (outbounds c ++ [directOutbound] ++ (if l3Bridge set then [l3Outbound] else [])) c in
  set_coreConfig (jsonSet (jsonSet (coreConfig c) (qs "endpoints") (JArray (map JObject (endpoints c))))
                    (qs "outbounds") (JArray (map JObject (outbounds c)))) c.

Definition buildOutboundsSection (deps : RoutingDeps) (c : BuildContext) : BuildContext :=
  match getGroup env (p_gid (ent c)) with
  | None => fail NoGroup c
  | Some g =>
      match buildMain g c with
      | (c, false) => c
      | (c, true) =>
          let c := buildRouteGroups (routeOutboundGroups deps) 0 (nameMain c) in
          match (if forTest c then (c, true) else buildAuxGroups (auxEndpointGroups deps) 0 c) with
          | (c, false) => c
          | (c, true) => if bridgeIngressMismatch c then fail BridgeMismatch c else writeOutbounds c
          end
      end
  end.

(** ** The sidecar *)

Definition xrayObject (x : XrayOutbound) : QJsonObject :=
  let o := jsonSet (x_object x) (qs "tag") (jtext (x_tag x)) in
  let o := match x_dialer x with Some t => setXrayDialerProxy env o t | None => o end in
  if x_systemCA x then useXraySystemCA env o else o.

Definition xrayInboundTag (outboundTag : qstring) : qstring := outboundTag ++ qs "-" ++ qs "inbound".
Definition xrayRule (t : qstring) : QJsonObject :=
  [(qs "type", jtext (qs "field")); (qs "inboundTag", JArray [jtext (xrayInboundTag t)]); (qs "outboundTag", jtext t)].

Definition buildXrayConfig (c : BuildContext) : BuildContext :=
  if isEmpty (xrayOutbounds c) then c
  else
    let c := set_isXrayNeeded true c in
    if negb (length (xrayIngressTags c) =? length (singToXrayBridges c))%nat then fail XrayIngressMismatch c
    else
      let inbounds := zip_with (fun t b => JObject (xraySocksInbound (xrayInboundTag t) b)) (xrayIngressTags c) (singToXrayBridges c) in
      let log := [(qs "loglevel", jtext (xray_log_level set));
                  (qs "access", jtext (if bool_decide (xray_log_level set = qs "info") then [] else qs "none"))] in
      let o := jsonSet (xrayConfig c) (qs "log") (JObject log) in
      let o := jsonSet o (qs "inbounds") (JArray inbounds) in
      let o := jsonSet o (qs "outbounds") (JArray (map (fun x => JObject (xrayObject x)) (xrayOutbounds c))) in
      let o := jsonSet o (qs "routing") (JObject [(qs "domainStrategy", jtext (qs "AsIs"));
                                                   (qs "rules", JArray (map (fun t => JObject (xrayRule t)) (xrayIngressTags c)))]) in
      set_xrayConfig o c.
End Outbounds.
