(* ===== verification/ConfigSections.v ===== *)
(** * Tags and ways of a whole configuration (src/src/configs/generate.cpp)

    What [buildOutboundsSection] of ConfigOutbounds.v promises once it succeeds: every
    outbound has a tag of its own, every bridge between the cores has its ingress,
    and each tag that rules may name leads through the hops it stands for. *)

From Stdlib Require Import Ascii String.
From S2P Require Import Prelude QtText Json Lists DnsAddress AutoSelector ConfigChains ConfigHops ConfigPath ConfigGrowth ConfigOutbounds.

Local Open Scope Z_scope.
#[local] Set Warnings "-register-all".

(** ** Frames *)

(** Steps that leave the outbounds, the bridges and the errors alone. *)
Definition still (c c' : BuildContext) : Prop := built c' = built c /\ errors c' = errors c /\ ent c' = ent c.

#[export] Instance still_preorder : PreOrder still.
Proof. split; [done|]. intros a b c (A1 & A2 & A3) (B1 & B2 & B3). split_and!; congruence. Qed.

Lemma still_emitted c c' : still c c' -> emitted c' = emitted c.
Proof. intros (H & _ & _). unfold built, emitted in *. injection H. intros. congruence. Qed.

Lemma still_extends c c' : still c c' -> Extends c c'.
Proof.
  intros H. pose proof (still_emitted _ _ H) as E. destruct H as (H & _ & _). unfold built in H. injection H as H1 H2 H3 H4 H5 H6 _ _.
  split; rewrite ?E, ?H2, ?H3, ?H4, ?H5, ?H6; done.
Qed.

Lemma still_tagged P c c' : still c c' -> Tagged P c -> Tagged P c'.
Proof.
  intros H [T1 T2 T3 T4 T5 T6 T7 T8 T9]. pose proof (still_emitted _ _ H) as E. destruct H as (H & _ & _). unfold built in H.
  injection H as H1 H2 H3 H4 H5 H6 _ _. split; rewrite ?E, ?H4, ?H5, ?H6; try done. unfold bridgesMatch in *. by rewrite H2, H3, H4, H5.
Qed.

Lemma still_forTest c c' : still c c' -> forTest c' = forTest c.
Proof. intros (H & _ & _). unfold built in H. by injection H. Qed.

Lemma onLastGroup_still f c : still c (onLastGroup f c).
Proof. unfold onLastGroup. by destruct (last (chainGroups c)). Qed.
Lemma whenGrew_still before f c : still c (whenGrew before f c).
Proof. unfold whenGrew. destruct (grewSince before c); [apply onLastGroup_still|done]. Qed.
Lemma nameOutbound_still tag name c : still c (nameOutbound tag name c).
Proof. done. Qed.

(** ** Errors stay *)

Lemma entListLoop_errors env ids : forall b s ents c, errors c <> [] -> errors (fst (entListLoop env ids b s ents c)) <> [].
Proof.
  induction ids as [|id ids IH]; intros b s ents c He; cbn [entListLoop]; [done|].
  assert (forall p, errors (noteTransition p b c) <> []) as Hn by (intros p; unfold noteTransition; by destruct (IsXray p), b).
  destruct (id =? warpProfileID); [by apply IH|]. destruct (getProfile env id) as [p|]; [|done]. cbv zeta.
  destruct (bool_decide _); [done|]. destruct (bool_decide _); [done|]. by apply IH.
Qed.

Lemma chain_failed env req c : errors c <> [] -> errors (snd (buildOutboundChain env req c)) <> [].
Proof.
  intros He. unfold buildOutboundChain. set (c0 := set_xrayToSingTransitioned false _).
  pose proof (entListLoop_errors env (hopIDs req) false (MkScan 0 0 (-1) 0 (-1) 0 false 0) [] c0 He) as H. unfold entIDListtoEntList.
  destruct (entListLoop _ _ _ _ _ _) as [c1 [ents [s|]]]; cbn [fst] in H.
  - cbv zeta. destruct (chainScanError _) as [e|]; [done|]. by replace (failed c1) with true by (unfold failed; by destruct (errors c1)).
  - by replace (failed c1) with true by (unfold failed; by destruct (errors c1)).
Qed.

Lemma failed_false c : failed c = false -> errors c = [].
Proof. unfold failed. by destruct (errors c). Qed.

(** ** The ways of a build *)

Lemma passes_kept env c c' tag ids : ids <> [] -> Extends c c' -> Distinct c' -> passes env c tag ids -> passes env c' tag ids.
Proof.
  intros Hne He Hd (found & ents & nodes & H1 & H2 & H3 & H4 & H5 & H6). exists found, ents, nodes.
  split_and!; [done|done| |by eapply path_kept|by eapply crosses_kept|done].
  destruct (singAt c tag) as [o|] eqn:E; cbn in H3; [by rewrite (singAt_kept _ _ _ _ He Hd E)|]. exfalso.
  destruct nodes; [|done]. inversion H5; subst. apply Forall2_nil_inv_r in H2 as ->. by apply Forall2_nil_inv_r in H1.
Qed.

(** A request whose hops are linked, with something behind WARP. *)
Record Sound (req : ChainBuildRequest) : Prop := {
  so_hops : hopIDs req <> [];
  so_link : r_link req = true \/ length (hopIDs req) = 1%nat;
  so_warp : r_warpWrap req = true -> exists id rest, hopIDs req = warpProfileID :: id :: rest;
  so_clean : clean req }.

Definition portsDistinct (c : BuildContext) : Prop := NoDup (map b_port (singToXrayBridges c)) /\ NoDup (map b_port (xrayToSingBridges c)).

Lemma ports_kept c c' : Extends c c' -> portsDistinct c' -> portsDistinct c.
Proof.
  intros He [P1 P2]. destruct (ex_bridges _ _ He) as [k1 E1], (ex_back _ _ He) as [k2 E2]. rewrite E1, E2, !map_app in *.
  by apply NoDup_app in P1 as [? _], P2 as [? _].
Qed.

Lemma Tagged_distinct P c : Tagged P c -> portsDistinct c -> Distinct c.
Proof. intros [] []. by split. Qed.

(** ** Stages of the build *)

Section Stages.
Context (env : BuildEnv).

(** What any larger build will keep. *)
Definition promised (c : BuildContext) (w : qstring * list Z) : Prop :=
  forall c', Extends c c' -> Distinct c' -> passes env c' w.1 w.2.

(** A build so far: its tags are apart and allowed by [P], and its tags [ws] lead
    through their hops. *)
Record Ready (P : qstring -> Prop) (ws : list (qstring * list Z)) (c : BuildContext) : Prop := {
  rd_tagged : Tagged P c;
  rd_ways : Forall (promised c) ws }.

Lemma promised_kept c c' w : Extends c c' -> promised c w -> promised c' w.
Proof. intros He H c'' He' Hd. apply H; [by etrans|done]. Qed.

Lemma Ready_mono (P Q : qstring -> Prop) ws c : (forall t, P t -> Q t) -> Ready P ws c -> Ready Q ws c.
Proof. intros H []. split; [by eapply Tagged_mono|done]. Qed.

Lemma still_ready P ws c c' : still c c' -> Ready P ws c -> Ready P ws c'.
Proof.
  intros H [T W]. split; [by eapply still_tagged|]. eapply Forall_impl; [exact W|]. intros w. by apply promised_kept, still_extends.
Qed.

Lemma chain_ready P ws req c tag c' : Ready P ws c -> errors c = [] -> buildOutboundChain env req c = (tag, c') -> errors c' = [] ->
  Sound req -> disjointTags P (mayTag req) ->
  Ready (fun t => P t \/ mayTag req t) (ws ++ [(tag, hopIDs req)]) c' /\ forTest c' = forTest c /\ tag = chainIngress req.
Proof.
  intros [T W] He Hb He' [So1 So2 So3 So4] Hd. destruct (chain_tagged env req c tag c' P He Hb He' So4 Hd T) as (T' & Hx & Hf & Ht).
  split_and!; [|done..]. split; [done|]. apply Forall_app. split.
  - eapply Forall_impl; [exact W|]. intros w. by apply promised_kept.
  - apply Forall_singleton. intros c'' Hx' Hd'. cbn. apply (passes_kept env c'); [done..|].
    apply (chain_passes env req c tag c'); try done; [apply T|]. eapply Tagged_distinct; [exact T'|]. eapply ports_kept; [exact Hx'|]. by destruct Hd'.
Qed.

(** One more outbound. *)
Lemma emit_ready P ws c c' ts : Ready P ws c -> map tagOf (emitted c') ≡ₚ map tagOf (emitted c) ++ ts -> emitted c ⊆ emitted c' ->
  xrayOutbounds c' = xrayOutbounds c -> xrayIngressTags c' = xrayIngressTags c -> singIngressTags c' = singIngressTags c ->
  singToXrayBridges c' = singToXrayBridges c -> xrayToSingBridges c' = xrayToSingBridges c ->
  NoDup ts -> disjointTags P (fun t => t ∈ ts) -> Ready (fun t => P t \/ t ∈ ts) ws c'.
Proof.
  intros [[T1 T2 T3 T4 T5 T6 T7 T8 T9] W] E He Ex Ei Es Eb Eb' Hn Hd.
  destruct (NoDup_added P (fun t => t ∈ ts) _ ts Hd T1 T2 Hn) as [A1 A2]; [by apply Forall_forall|]. split.
  - split; rewrite ?E, ?Ex, ?Ei, ?Es; try done; [eapply Forall_impl; [exact T4|by left]| |set_solver]. unfold bridgesMatch in *. by rewrite Ei, Es, Eb, Eb'.
  - eapply Forall_impl; [exact W|]. intros w. apply promised_kept. split; rewrite ?Ex, ?Ei, ?Es, ?Eb, ?Eb'; done.
Qed.

Lemma emitted_outbounds c os : emitted (set_outbounds (outbounds c ++ os) c) ≡ₚ emitted c ++ os.
Proof. unfold emitted. cbn [outbounds endpoints set_outbounds]. rewrite <- !app_assoc. apply Permutation_app_head, Permutation_app_comm. Qed.

Lemma outbounds_ready P ws c os : Ready P ws c -> NoDup (map tagOf os) -> disjointTags P (fun t => t ∈ map tagOf os) ->
  Ready (fun t => P t \/ t ∈ map tagOf os) ws (set_outbounds (outbounds c ++ os) c).
Proof.
  intros Hr Hn Hd. eapply emit_ready; try done.
  - by rewrite (Permutation_map tagOf (emitted_outbounds c os)), map_app.
  - intros o Ho. rewrite emitted_outbounds. set_solver.
Qed.

Lemma emitObject_ready P ws c p o : Ready P ws c -> ~ P (tagOf o) -> Ready (fun t => P t \/ t = tagOf o) ws (emitObject p o c).
Proof.
  intros Hr Hp. apply (Ready_mono (fun t => P t \/ t ∈ [tagOf o])); [intros t; by rewrite list_elem_of_singleton|].
  destruct (emitObject_frame p o c) as (Hs & _ & Hi). unfold shape in Hs. injection Hs as S1 S2 S3 S4 S5 S6 S7.
  eapply emit_ready; try done; [by rewrite (Permutation_map tagOf (emitted_emit p o c)), map_app| | |].
  - intros x Hx. rewrite emitted_emit. set_solver.
  - apply NoDup_singleton.
  - intros t Ht ->%list_elem_of_singleton. done.
Qed.

(** ** The loops *)

Definition prefixed (p : qstring) (lo hi : Z) (t : qstring) : Prop := exists k, lo <= k < hi /\ t = hopTag p k.

Lemma prefixed_split p lo mid hi t : lo <= mid <= hi -> prefixed p lo hi t <-> prefixed p lo mid t \/ prefixed p mid hi t.
Proof.
  intros H. split.
  - intros (k & Hk & ->). destruct (decide (k < mid)); [left|right]; exists k; (split; [lia|done]).
  - intros [(k & Hk & ->)|(k & Hk & ->)]; exists k; (split; [lia|done]).
Qed.

Lemma qsize_nonneg {A} (l : list A) : 0 <= qsize l.
Proof. unfold qsize. lia. Qed.

Definition apart (P : qstring -> Prop) (p : qstring) : Prop := forall k, ~ P (hopTag p k).

Lemma one_or_linked (ids : list Z) : ids <> [] -> (1 <? qsize ids) = true \/ length ids = 1%nat.
Proof. intros H. destruct ids as [|a [|b ids]]; [done|by right|left]. apply Z.ltb_lt. unfold qsize. cbn [length]. lia. Qed.

Lemma route_sound ids suffix : ids <> [] -> Sound (routeRequest ids suffix).
Proof. intros H. split; [done|by apply one_or_linked|done|]. intros k. by split. Qed.
Lemma aux_sound ids suffix inner : ids <> [] -> Sound (auxRequest ids suffix inner).
Proof. intros H. split; [done|by apply one_or_linked|done|]. intros k. by split. Qed.

(** The tags of the chains that rules name, and where they lead. *)
Fixpoint chainWays (p : qstring) (groups : list (list Z)) (suffix : Z) : list (qstring * list Z) :=
  match groups with [] => [] | ids :: groups => (hopTag p suffix, ids) :: chainWays p groups (suffix + qsize ids) end.
Fixpoint spanOf (groups : list (list Z)) : Z := match groups with [] => 0 | ids :: groups => qsize ids + spanOf groups end.
Lemma spanOf_nonneg groups : 0 <= spanOf groups.
Proof. induction groups as [|ids groups IH]; cbn; [done|]. pose proof (qsize_nonneg ids). lia. Qed.

(** A loop that builds one chain per group, from tags left off by the one before. *)
Section Loop.
Context {A : Type} (idsOf : A -> list Z) (request : A -> Z -> ChainBuildRequest) (step : A -> Z -> BuildContext -> BuildContext) (p : qstring).
Hypothesis Hstep : forall g suffix c, exists c0, still c c0 /\ still (snd (buildOutboundChain env (request g suffix) c0)) (step g suffix c).
Hypothesis Hreq : forall g suffix, hopIDs (request g suffix) = idsOf g /\ r_prefix (request g suffix) = p /\ r_startSuffix (request g suffix) = suffix /\
  r_includeProxy (request g suffix) = false /\ r_warpWrap (request g suffix) = false.
Hypothesis Hsound : forall g suffix, idsOf g <> [] -> Sound (request g suffix).

Fixpoint buildLoop (groups : list A) (suffix : Z) (c : BuildContext) : BuildContext :=
  match groups with [] => c | g :: groups => buildLoop groups (suffix + qsize (idsOf g)) (step g suffix c) end.

Lemma step_failed g suffix c : errors c <> [] -> errors (step g suffix c) <> [].
Proof. intros He. destruct (Hstep g suffix c) as (c0 & (_ & E0 & _) & (_ & -> & _)). apply chain_failed. by rewrite E0. Qed.

Lemma buildLoop_failed groups : forall suffix c, errors c <> [] -> errors (buildLoop groups suffix c) <> [].
Proof. induction groups as [|g groups IH]; intros suffix c He; [done|]. cbn. by apply IH, step_failed. Qed.

Lemma mayTag_group g suffix t : mayTag (request g suffix) t <-> prefixed p suffix (suffix + qsize (idsOf g)) t.
Proof. destruct (Hreq g suffix) as (E1 & E2 & E3 & E4 & E5). unfold mayTag, prefixed. rewrite E1, E2, E3, E4, E5. split; [by intros [[? _]|[[? _]|?]]|by right; right]. Qed.

Lemma loop_ready groups : forall P ws suffix c, Forall (fun g => idsOf g <> []) groups -> Ready P ws c ->
  let c' := buildLoop groups suffix c in let hi := suffix + spanOf (map idsOf groups) in
  errors c' = [] -> disjointTags P (prefixed p suffix hi) ->
  Ready (fun t => P t \/ prefixed p suffix hi t) (ws ++ chainWays p (map idsOf groups) suffix) c' /\ forTest c' = forTest c.
Proof.
  induction groups as [|g groups IH]; intros P ws suffix c Hne Hr; cbn [buildLoop map chainWays spanOf]; cbv zeta; intros He' Hd.
  { split; [|done]. rewrite app_nil_r. eapply Ready_mono; [|exact Hr]. by left. }
  apply Forall_cons in Hne as [Hg Hne]. pose proof (qsize_nonneg (idsOf g)) as Hq. pose proof (spanOf_nonneg (map idsOf groups)) as Hsp.
  set (ids := idsOf g) in *. set (span := spanOf (map idsOf groups)) in *. set (mid := suffix + qsize ids).
  assert (errors (step g suffix c) = []) as He1 by (destruct (errors (step g suffix c)) eqn:E; [done|]; exfalso; eapply buildLoop_failed; [|exact He']; by rewrite E).
  destruct (Hstep g suffix c) as (c0 & Hs0 & Hs). pose proof (still_ready _ _ _ _ Hs0 Hr) as Hr0.
  destruct (buildOutboundChain env (request g suffix) c0) as [tag c1] eqn:Eb. cbn [snd] in Hs.
  assert (errors c1 = []) as He2 by (destruct Hs as (_ & <- & _); done).
  assert (errors c0 = []) as He0 by (destruct (errors c0) eqn:E; [done|]; exfalso; apply (chain_failed env (request g suffix) c0); [by rewrite E|by rewrite Eb]).
  destruct (chain_ready P ws _ c0 tag c1 Hr0 He0 Eb He2 (Hsound g suffix Hg)) as (Hr1 & Hf1 & Ht).
  { intros t Ht Hm. apply (Hd t Ht). rewrite (prefixed_split _ _ mid) by lia. left. by apply mayTag_group. }
  destruct (IH _ _ mid _ Hne (still_ready _ _ _ _ Hs Hr1) He') as [R F].
  { intros t [Ht'|Hm] Hp; [apply (Hd t Ht'); rewrite (prefixed_split _ _ mid) by lia; right; by rewrite Z.add_assoc|].
    apply mayTag_group in Hm as (k & Hk & ->). destruct Hp as (k' & Hk' & E). apply hopTag_inj in E. unfold mid in *. fold ids in Hk. lia. }
  split; [|by rewrite F, (still_forTest _ _ Hs), Hf1, (still_forTest _ _ Hs0)]. rewrite <- app_assoc in R.
  destruct (Hreq g suffix) as (E1 & E2 & E3 & E4 & _). unfold chainIngress in Ht. rewrite E2, E3, E4 in Ht. rewrite E1, Ht in R.
  eapply Ready_mono; [|exact R]. intros t. cbn beta. rewrite mayTag_group, Z.add_assoc. fold ids mid span. rewrite (prefixed_split _ suffix mid (mid + span)) by lia. tauto.
Qed.
End Loop.

Context (set : OutboundsEnv).

Lemma route_step r suffix c : exists c0, still c c0 /\ still (snd (buildOutboundChain env (routeRequest (rg_hopIDs r) suffix) c0)) (buildRouteGroup env set r suffix c).
Proof.
  exists c. split; [done|]. unfold buildRouteGroup. destruct (buildOutboundChain env _ c) as [tag c1]. cbv zeta.
  assert (still c1 (match chainWrapper r with Some w => whenGrew (chainGroups c) (creditTo w) c1 | None => c1 end)) as H.
  { destruct (chainWrapper r); [apply whenGrew_still|done]. }
  destruct (routeNamed env r); [|done]. etrans; [exact H|]. etrans; [apply nameOutbound_still|apply whenGrew_still].
Qed.

Lemma routeGroups_loop groups : forall suffix c, buildRouteGroups env set groups suffix c = buildLoop rg_hopIDs (buildRouteGroup env set) groups suffix c.
Proof. induction groups as [|r groups IH]; intros suffix c; [done|]. apply IH. Qed.

Lemma nameInner_still a suffix idxs : forall c, still c (fold_left (nameInner env set a suffix) idxs c).
Proof.
  induction idxs as [|i idxs IH]; intros c; [done|]. cbn. etrans; [|apply IH]. unfold nameInner. by destruct (_ ← _; _).
Qed.

Lemma aux_step a suffix c : exists c0, still c c0 /\
  still (snd (buildOutboundChain env (auxRequest (ag_hopIDs a) suffix (innerTagsOf a suffix)) c0)) (buildAuxGroup env set a suffix c).
Proof.
  exists (fold_left (nameInner env set a suffix) (innerHopIndexes a) c). split; [apply nameInner_still|]. unfold buildAuxGroup. cbv zeta.
  set (c0 := fold_left _ _ _). destruct (buildOutboundChain env _ c0) as [tag c1]. cbn [snd]. destruct (failed c1); [done|].
  assert (still c1 (match ag_endpoint a with Some p => whenGrew (chainGroups c0) (namedAs set KindAux p) (nameOutbound tag (displayName set p) c1) | None => c1 end)) as H.
  { destruct (ag_endpoint a); [|done]. etrans; [apply nameOutbound_still|apply whenGrew_still]. }
  etrans; [exact H|done].
Qed.

(** The loop over the endpoints stops at a failure. *)
Lemma auxGroups_loop groups : forall suffix c c' b, buildAuxGroups env set groups suffix c = (c', b) -> errors c = [] -> errors c' = [] ->
  b = true /\ c' = buildLoop ag_hopIDs (buildAuxGroup env set) groups suffix c.
Proof.
  induction groups as [|a groups IH]; intros suffix c c' b; cbn [buildAuxGroups buildLoop]; [by intros [= <- <-]|].
  destruct (failed (buildAuxGroup env set a suffix c)) eqn:Ef; [|intros H _; apply (IH _ _ _ _ H); by apply failed_false].
  intros [= <- <-] _ He. unfold failed in Ef. by rewrite He in Ef.
Qed.

(** ** The members of a selector *)

Definition poolTags (lo hi : Z) (t : qstring) : Prop := exists i k, lo <= i < hi /\ 0 <= k /\ t = hopTag (hopTag poolChainPrefix i) k.

Lemma split_at_dash {A} (x : A) n1 n2 : x ∉ n1 -> x ∉ n2 -> forall s1 s2, s1 ++ x :: n1 = s2 ++ x :: n2 -> s1 = s2.
Proof.
  intros H1 H2. induction s1 as [|a s1 IH]; intros [|b s2] E; cbn in E; [done| | |].
  - injection E as -> ->. exfalso. apply H1. set_solver.
  - injection E as -> <-. exfalso. apply H2. set_solver.
  - injection E as -> E. f_equal. by apply IH.
Qed.

Lemma number_no_dash n : 0 <= n -> ch "-" ∉ number n.
Proof. intros Hn H. pose proof (number_digits n Hn) as Hd. rewrite Forall_forall in Hd. specialize (Hd _ H). by vm_compute in Hd; destruct Hd. Qed.

Lemma hopTag_prefix_inj p q i j : 0 <= i -> 0 <= j -> hopTag p i = hopTag q j -> p = q.
Proof. intros Hi Hj E. by eapply (split_at_dash (ch "-")); [apply (number_no_dash i)|apply (number_no_dash j)|exact E]. Qed.

Fixpoint memberWays (idx : Z) (planned : list plannedMember) : list (qstring * list Z) :=
  match planned with [] => [] | m :: planned => (hopTag (hopTag poolChainPrefix idx) 0, pm_hopIDs m) :: memberWays (idx + 1) planned end.

Lemma member_request idx m ports req ports' : memberRequest idx m ports = (req, ports') ->
  hopIDs req = pm_hopIDs m /\ r_prefix req = hopTag poolChainPrefix idx /\ r_startSuffix req = 0 /\ r_includeProxy req = false /\
  r_warpWrap req = false /\ r_link req = true.
Proof. unfold memberRequest, takePort. repeat case_match; simplify_eq; intros [= <- <-]; done. Qed.

Lemma drain_still m c : failed (drainFullConfig m c) = false -> still c (drainFullConfig m c).
Proof. unfold drainFullConfig. destruct (xrayFullConfig (pm_bridges m)); [|done]. by destruct (isEmpty (xrayConfig c)). Qed.

Lemma members_ready selector planned : forall P ws idx ports g c g' c', 0 <= idx -> Forall (fun m => pm_hopIDs m <> []) planned ->
  Ready P ws c -> errors c = [] -> buildMembers env set selector idx planned ports g c = (g', c') -> errors c' = [] ->
  disjointTags P (poolTags idx (idx + qsize planned)) ->
  Ready (fun t => P t \/ poolTags idx (idx + qsize planned) t) (ws ++ memberWays idx planned) c' /\ forTest c' = forTest c /\
  g_tags g' = g_tags g ++ map fst (memberWays idx planned).
Proof.
  induction planned as [|m planned IH]; intros P ws idx ports g c g' c' Hi Hne Hr He; cbn [buildMembers memberWays].
  { intros [= <- <-] _ _. cbn. rewrite !app_nil_r. split_and!; try done. eapply Ready_mono; [|exact Hr]. by left. }
  apply Forall_cons in Hne as [Hm Hne]. destruct (memberRequest idx m ports) as [req ports'] eqn:Er.
  destruct (member_request _ _ _ _ _ Er) as (R1 & R2 & R3 & R4 & R5 & R6).
  destruct (buildOutboundChain env req c) as [tag c1] eqn:Eb. destruct (failed c1) eqn:Ef1; [intros [= <- <-] He'; unfold failed in Ef1; by rewrite He' in Ef1|].
  destruct (failed (drainFullConfig m c1)) eqn:Ef2; [intros [= <- <-] He'; unfold failed in Ef2; by rewrite He' in Ef2|].
  cbv zeta. set (g1 := MkGathered _ _ _ _). set (c2 := onLastGroup _ _). intros H He' Hd.
  assert (qsize (m :: planned) = qsize planned + 1) as Eq by (unfold qsize; cbn [length]; lia). rewrite Eq in Hd |- *. pose proof (qsize_nonneg planned).
  apply failed_false in Ef1. pose proof (drain_still _ _ Ef2) as Hs2.
  assert (forall t, mayTag req t -> poolTags idx (idx + 1) t) as Hmay.
  { intros t. unfold mayTag. rewrite R2, R3, R4, R5. intros [[? _]|[[? _]|(k & Hk & ->)]]; [done..|]. exists idx, k. split_and!; [lia|lia|lia|done]. }
  destruct (chain_ready P ws req c tag c1 Hr He Eb Ef1) as (Hr1 & Hf1 & Ht).
  { split; [by rewrite R1|by left|by rewrite R5|]. intros k. rewrite R2. by split. }
  { intros t Ht Htm. apply (Hd t Ht). apply Hmay in Htm as (i & k & ? & ? & ->). exists i, k. split_and!; [lia|lia|lia|done]. }
  assert (still c1 c2) as Hs by (etrans; [exact Hs2|]; unfold c2; etrans; [apply nameOutbound_still|apply onLastGroup_still]).
  destruct (IH _ _ (idx + 1) _ _ _ _ _ ltac:(lia) Hne (still_ready _ _ _ _ Hs Hr1) ltac:(destruct Hs as (_ & -> & _); done) H He') as (R & F & G).
  { intros t [Ht'|Hm'] (i & k & Hik & Hk & ->).
    - apply (Hd _ Ht'). exists i, k. split_and!; [lia|lia|lia|done].
    - apply Hmay in Hm' as (i' & k' & Hi' & Hk' & E). apply hopTag_prefix_inj, hopTag_inj in E; lia. }
  assert (chainIngress req = hopTag (hopTag poolChainPrefix idx) 0) as Et by (unfold chainIngress; by rewrite R2, R3, R4).
  split_and!.
  - rewrite <- app_assoc, R1, Ht, Et in R. eapply Ready_mono; [|exact R]. cbn beta. intros t [[?|(i & k & ? & ? & ->)%Hmay]|(i & k & ? & ? & ->)]; [by left|right..];
      exists i, k; (split_and!; [lia|lia|lia|done]).
  - by rewrite F, (still_forTest _ _ Hs).
  - rewrite G. unfold g1. cbn [g_tags map fst]. by rewrite <- app_assoc, Ht, Et.
Qed.

Lemma planMember_hops id m : planMember env set id = Some m -> pm_hopIDs m <> [].
Proof.
  unfold planMember. destruct (invalid set id); [done|]. destruct (getProfile env id); [|done]. cbn. intros [= <-]. cbn.
  destruct (getGroup env _); [|done]. by destruct (0 <=? _).
Qed.

Lemma selectorObject_tag selector groupTag g : tagOf (selectorObject set selector groupTag g) = groupTag.
Proof.
  unfold selectorObject, tagOf. cbv zeta. set (o := _ :: _). assert (jsonGet o (qs "tag") = Some (jtext groupTag)) as Ho by done. clearbody o.
  destruct (balance selector); rewrite ?jsonGet_set_other by done;
    repeat match goal with |- context [if ?b then _ else _] => destruct b; rewrite ?jsonGet_set_other by done end; by rewrite Ho.
Qed.

(** ** The started profile *)

Definition mainTag (t : qstring) : Prop :=
  t = tagProxy \/ t = tagWarpBypass \/ (exists k, t = hopTag mainChainPrefix k) \/ exists i k, t = hopTag (hopTag poolChainPrefix i) k.

(** Where the tags of the started profile lead. *)
Definition membersOf (p : Profile) : list plannedMember := omap (planMember env set) (plan set p).1.
Definition mainWays (g : Group) (p : Profile) : list (qstring * list Z) :=
  if bool_decide (p_type p = qs "autoselector") then memberWays 0 (membersOf p)
  else match ownHops p with Some own => [(tagProxy, mainHops (enable_warp set) g p own)] | None => [] end.

Definition freshContext (c : BuildContext) : Prop :=
  errors c = [] /\ emitted c = [] /\ xrayOutbounds c = [] /\ xrayIngressTags c = [] /\ singIngressTags c = [] /\ singToXrayBridges c = [] /\ xrayToSingBridges c = [].

Definition noTag (t : qstring) : Prop := False.

Lemma fresh_ready c : freshContext c -> Ready noTag [] c.
Proof.
  intros (_ & E & X & I1 & I2 & B1 & B2). split; [|done]. split; rewrite ?E, ?X, ?I1, ?I2; try apply NoDup_nil_2; try done.
  unfold bridgesMatch. by rewrite I1, I2, B1, B2.
Qed.

Lemma poolTags_main lo hi t : poolTags lo hi t -> mainTag t.
Proof. intros (i & k & _ & _ & ->). right; right; right. eauto. Qed.

Lemma buildSelector_ready warp c : freshContext c -> errors (buildAutoSelectorGroup env set warp c) = [] ->
  let c' := buildAutoSelectorGroup env set warp c in let ms := membersOf (ent c) in
  Ready (fun t => (noTag t \/ poolTags 0 (qsize ms) t) \/ t = (if warp then tagWarpBypass else tagProxy)) (memberWays 0 ms) c' /\ forTest c' = forTest c.
Proof.
  intros Hf He'. cbv zeta. pose proof (fresh_ready _ Hf) as Hr. unfold membersOf. revert He'. unfold buildAutoSelectorGroup.
  destruct (selectorOf set (ent c)) as [selector|]; [|done]. cbv zeta. destruct (plan set (ent c)) as [build error]. cbn [fst].
  destruct (negb (isEmpty error)); [done|]. set (planned := omap _ build). destruct (probe env _ c) as [ports c0] eqn:Ep.
  assert (still c c0) as Hs0 by (unfold probe in Ep; by injection Ep as _ <-).
  destruct (buildMembers _ _ _ _ _ _ _ _) as [g c1] eqn:Em. destruct (failed c1) eqn:Ef; [intros He; unfold failed in Ef; by rewrite He in Ef|].
  destruct (isEmpty (g_tags g)); [done|]. intros _. apply failed_false in Ef.
  assert (Forall (fun m => pm_hopIDs m <> []) planned) as Hne.
  { apply Forall_forall. intros m Hm. apply list_elem_of_omap in Hm as (id & _ & Hm). by eapply planMember_hops. }
  assert (errors c0 = []) as He0 by (destruct Hs0 as (_ & -> & _); apply Hf).
  destruct (members_ready _ planned noTag [] 0 _ _ c0 g c1 ltac:(lia) Hne (still_ready _ _ _ _ Hs0 Hr) He0 Em Ef) as (R & F & _); [by intros t []|].
  set (c2 := if warp then creditWarp _ c1 else c1). assert (still c1 c2) as Hs2 by (unfold c2; by destruct warp).
  set (o := selectorObject set (Normalize selector) (if warp then tagWarpBypass else tagProxy) g). assert (tagOf o = (if warp then tagWarpBypass else tagProxy)) as Eo by apply selectorObject_tag.
  split; [|by rewrite <- (still_forTest _ _ Hs0), <- F, <- (still_forTest _ _ Hs2)].
  eapply still_ready; [|eapply Ready_mono; [|eapply (outbounds_ready _ _ _ [o])]]; [done| |by eapply still_ready|apply NoDup_singleton|].
  - intros t. cbn [map]. rewrite list_elem_of_singleton, Eo. tauto.
  - intros t [[]|(i & k & _ & _ & ->)]. cbn [map]. rewrite list_elem_of_singleton, Eo. by destruct warp.
Qed.

Lemma mainHops_sound warp g p own : own <> [] -> Sound (mainRequest warp (mainHops warp g p own)).
Proof.
  intros Ho. unfold mainHops. split; cbn; [|by left| |intros k; by split].
  - destruct warp; [done|]. destruct (0 <=? landing_proxy_id g); [done|]. by destruct own.
  - intros ->. destruct (0 <=? landing_proxy_id g), own; cbn; eauto; done.
Qed.

Lemma buildMain_ready g c c' b : freshContext c -> (forall own, ownHops (ent c) = Some own -> own <> []) ->
  buildMain env set g c = (c', b) -> errors c' = [] -> b = true /\ Ready mainTag (mainWays g (ent c)) c' /\ forTest c' = forTest c.
Proof.
  intros Hf Hown. unfold buildMain, mainWays. destruct (bool_decide (p_type (ent c) = qs "autoselector")).
  - cbv zeta. set (c1 := buildAutoSelectorGroup env set _ c). destruct (failed c1) eqn:Ef; [intros [= <- <-] He; unfold failed in Ef; by rewrite He in Ef|].
    apply failed_false in Ef. destruct (buildSelector_ready _ c Hf Ef) as [R F]. fold c1 in R, F. destruct (enable_warp set).
    + unfold buildWarpInFrontOfSelector. cbv zeta. destruct (negb (isEmpty _)); [intros [= <- _] He; cbn in He; by apply app_eq_nil in He as [_ ?]|]. set (o := jsonSet _ _ _). intros [= <- <-] He.
      assert (tagOf o = tagProxy) as Eo by (unfold tagOf, o; by rewrite jsonGet_set_other, jsonGet_set_same by done). destruct (emitObject_frame (warpProfile env) o c1) as (Hs & E & _).
      split_and!; [unfold failed; by rewrite He| |by rewrite <- F, <- (shape_forTest _ _ Hs)].
      eapply Ready_mono; [|apply emitObject_ready; [exact R|]].
      * rewrite Eo. intros t [[[[]|Hp]| ->]| ->]; [by eapply poolTags_main|right; by left|by left].
      * rewrite Eo. intros [[[]|(i & k & _ & _ & E')]|E']; done.
    + intros [= <- <-] _. split_and!; [done| |done]. eapply Ready_mono; [|exact R].
      intros t [[[]|Hp]| ->]; [by eapply poolTags_main|by left].
  - destruct (ownHops (ent c)) as [own|]; [|by intros [= <- _]]. cbv zeta. set (warp := enable_warp set). set (hops := mainHops warp g (ent c) own).
    destruct (buildOutboundChain env (mainRequest warp hops) c) as [tag c1] eqn:Eb. cbn [snd]. set (c2 := if bool_decide _ then _ else c1).
    assert (still c1 c2) as Hs by (unfold c2; destruct (bool_decide _); [apply onLastGroup_still|done]). intros [= <- <-] He.
    assert (errors c1 = []) as He1 by (by destruct Hs as (_ & <- & _)).
    destruct (chain_ready _ _ _ c tag c1 (fresh_ready _ Hf) (proj1 Hf) Eb He1 (mainHops_sound warp g (ent c) own (Hown own eq_refl))) as (R & F & Ht); [by intros t []|].
    split_and!; [done| |by rewrite (still_forTest _ _ Hs)]. eapply still_ready; [exact Hs|]. rewrite Ht in R. eapply Ready_mono; [|exact R].
    intros t [[]|[[_ ->]|[[_ ->]|(k & _ & ->)]]]; [by left|right; by left|right; right; left; eauto].
Qed.

(** ** The whole section *)

Definition routeHops (deps : RoutingDeps) : list (list Z) := map rg_hopIDs (routeOutboundGroups deps).
Definition auxHops (deps : RoutingDeps) : list (list Z) := map ag_hopIDs (auxEndpointGroups deps).

(** The tags rules may name, with the hops each stands for. *)
Definition sectionWays (deps : RoutingDeps) (g : Group) (c : BuildContext) : list (qstring * list Z) :=
  mainWays g (ent c) ++ chainWays routeChainPrefix (routeHops deps) 0 ++ (if forTest c then [] else chainWays auxEndpointPrefix (auxHops deps) 0).

(** What the routing profile gives: no empty chain. *)
Record WellGiven (deps : RoutingDeps) (c : BuildContext) : Prop := {
  wg_fresh : freshContext c;
  wg_own : forall own, ownHops (ent c) = Some own -> own <> [];
  wg_routes : Forall (fun ids => ids <> []) (routeHops deps);
  wg_aux : Forall (fun ids => ids <> []) (auxHops deps) }.

Definition anyTag (t : qstring) : Prop := True.

Lemma nameMain_still c : still c (nameMain set c).
Proof. unfold nameMain. cbv zeta. by destruct (enable_warp set). Qed.

Lemma writeOutbounds_ready P ws c : Ready P ws c -> ~ P tagDirect -> ~ P tagL3Direct -> Ready anyTag ws (writeOutbounds set c).
Proof.
  intros Hr H1 H2. set (os := [directOutbound] ++ (if l3Bridge set then [l3Outbound] else [])).
  assert (still (set_outbounds (outbounds c ++ os) c) (writeOutbounds set c)) as Hs by done.
  eapply still_ready; [exact Hs|]. eapply Ready_mono; [|apply outbounds_ready; [exact Hr|..]]; [done| |].
  - apply (bool_decide_unpack _). unfold os. by destruct (l3Bridge set).
  - intros t Ht Hin. assert (t = tagDirect \/ t = tagL3Direct) as [-> | ->]; [|done..]. unfold os in Hin.
    destruct (l3Bridge set); cbn in Hin; rewrite ?elem_of_cons in Hin; destruct Hin as [?|Hin]; [by left|destruct Hin as [?|[]%elem_of_nil]; by right|by left|by apply elem_of_nil in Hin].
Qed.

(** The stages of a section that succeeds: the started profile, the chains of
    rules, the endpoints, and the writing of the sections. *)
Lemma section_stages deps c : let c' := buildOutboundsSection env set deps c in errors c' = [] ->
  exists g c1 c3, getGroup env (p_gid (ent c)) = Some g /\ buildMain env set g c = (c1, true) /\ errors c1 = [] /\
    let c2 := buildRouteGroups env set (routeOutboundGroups deps) 0 (nameMain set c1) in errors c2 = [] /\
    (if forTest c2 then (c2, true) else buildAuxGroups env set (auxEndpointGroups deps) 0 c2) = (c3, true) /\ errors c3 = [] /\
    c' = writeOutbounds set c3 /\ bridgeIngressMismatch c3 = false.
Proof.
  cbv zeta. unfold buildOutboundsSection. destruct (getGroup env (p_gid (ent c))) as [g|]; [|done]. destruct (buildMain env set g c) as [c1 b1] eqn:E1. intros He.
  assert (b1 = true) as ->.
  { destruct b1; [done|]. revert E1. unfold buildMain. cbv zeta. destruct (bool_decide _).
    - destruct (failed _) eqn:Ef; [intros [= <-]; unfold failed in Ef; by rewrite He in Ef|]. destruct (enable_warp set); [|done].
      intros [= <- Hb]. unfold failed in Hb. by rewrite He in Hb.
    - destruct (ownHops (ent c)); [done|]. by intros [= <-]. }
  exists g, c1. rewrite routeGroups_loop in *. set (c2 := buildLoop _ _ _ _ _) in *.
  destruct (if forTest c2 then (c2, true) else buildAuxGroups env set (auxEndpointGroups deps) 0 c2) as [c3 b3] eqn:E3. exists c3.
  assert (errors c3 = []) as He3 by (destruct b3, (bridgeIngressMismatch c3); done).
  assert (errors c2 = []) as He2.
  { destruct (forTest c2); [by injection E3 as ->|]. destruct (errors c2) eqn:E; [done|]. exfalso.
    destruct (auxEndpointGroups deps) as [|a auxs]; cbn [buildAuxGroups] in E3; [injection E3 as ->; congruence|].
    pose proof (step_failed _ _ aux_step a 0 c2 ltac:(by rewrite E)) as Hx. unfold failed in E3.
    destruct (errors (buildAuxGroup env set a 0 c2)) eqn:Ex; [done|]. cbn in E3. injection E3 as <- _. congruence. }
  assert (errors c1 = []) as He1.
  { destruct (errors c1) eqn:E; [done|]. exfalso. eapply (buildLoop_failed _ _ _ route_step); [|exact He2].
    destruct (nameMain_still c1) as (_ & -> & _). by rewrite E. }
  assert (b3 = true) as ->.
  { destruct (forTest c2); [by injection E3|]. by apply (auxGroups_loop _ _ _ _ _ E3 He2 He3). }
  split_and!; try done; by destruct (bridgeIngressMismatch c3).
Qed.

Lemma section_ready deps c : WellGiven deps c -> let c' := buildOutboundsSection env set deps c in errors c' = [] ->
  exists g, getGroup env (p_gid (ent c)) = Some g /\ Ready anyTag (sectionWays deps g c) c'.
Proof.
  intros [Hf Hown Hrt Hax]. cbv zeta. intros He. destruct (section_stages deps c He) as (g & c1 & c3 & Hg & E1 & He1 & He2 & E3 & He3 & -> & _).
  exists g. split; [done|]. destruct (buildMain_ready g c c1 true Hf Hown E1 He1) as (_ & R1 & F1). rewrite routeGroups_loop in *.
  set (c2 := buildLoop _ _ _ _ _) in *.
  apply (still_ready _ _ _ _ (nameMain_still c1)) in R1.
  destruct (loop_ready rg_hopIDs _ _ routeChainPrefix route_step ltac:(done) ltac:(intros; by apply route_sound) (routeOutboundGroups deps)
              _ _ 0 _ (proj1 (Forall_fmap _ _ _) Hrt) R1 He2) as [R2 F2].
  { intros t [->|[->|[(k & ->)|(i & k & ->)]]] (j & _ & E); done. }
  fold c2 in R2, F2. rewrite (still_forTest _ _ (nameMain_still c1)), F1 in F2. rewrite F2 in E3. unfold sectionWays. rewrite app_assoc.
  assert (forall P : qstring -> Prop, (forall t, P t -> (mainTag t \/ exists k, t = hopTag routeChainPrefix k) \/ exists k, t = hopTag auxEndpointPrefix k) ->
            Ready P ((mainWays g (ent c) ++ chainWays routeChainPrefix (routeHops deps) 0) ++ (if forTest c then [] else chainWays auxEndpointPrefix (auxHops deps) 0)) c3 ->
            Ready anyTag ((mainWays g (ent c) ++ chainWays routeChainPrefix (routeHops deps) 0) ++
              (if forTest c then [] else chainWays auxEndpointPrefix (auxHops deps) 0)) (writeOutbounds set c3)) as Hwrite.
  { intros P HP R. eapply writeOutbounds_ready; [exact R|..];
      intros Ht; apply HP in Ht as [[[E|[E|[(k & E)|(i & k & E)]]]|(k & E)]|(k & E)]; done. }
  destruct (forTest c).
  - injection E3 as <-. eapply Hwrite; [|rewrite app_nil_r; exact R2]. intros t [?|(k & _ & ->)]; left; [by left|right; by eexists].
  - destruct (auxGroups_loop _ _ _ _ _ E3 He2 He3) as [_ E4].
    destruct (loop_ready ag_hopIDs _ _ auxEndpointPrefix aux_step ltac:(done) ltac:(intros; by apply aux_sound) (auxEndpointGroups deps)
                _ _ 0 _ (proj1 (Forall_fmap _ _ _) Hax) R2 ltac:(by rewrite <- E4)) as [R3 _].
    { intros t [[->|[->|[(k & ->)|(i & k & ->)]]]|(k & _ & ->)] (j & _ & E); done. }
    rewrite <- E4 in R3. eapply Hwrite; [|exact R3].
    intros t [[?|(k & _ & ->)]|(k & _ & ->)]; [left; by left|left; right; by eexists|right; by eexists].
Qed.
End Stages.
