(* ===== verification/ConfigDelivery.v ===== *)
(** * Where a configuration delivers (src/src/configs/generate.cpp)

    The promises of [buildOutboundsSection] and [buildXrayConfig]: tags that are apart,
    the ways from a tag through the hops it stands for, and a sidecar that hands what
    arrives at a bridge to the hop behind it. ConfigCrossing joins them. *)

From Stdlib Require Import Ascii String.
From S2P Require Import Prelude QtText Json Lists AutoSelector ConfigChains ConfigHops ConfigPath ConfigGrowth ConfigOutbounds ConfigSections.

Local Open Scope Z_scope.
#[local] Set Warnings "-register-all".

(** ** What Xray does with its configuration *)

Definition members (config : QJsonObject) (key : qstring) : list QJsonObject := map (fun v => jsonToObject (Some v)) (jsonToArray (jsonGet config key)).

(** The inbound that listens on a port, and the outbound of the first rule that may
    take what arrives there: one that names the inbound or none. *)
Definition xrayInboundAt (config : QJsonObject) (port : Z) : option QJsonObject :=
  List.find (fun o => bool_decide (jsonGet o (qs "port") = Some (JInt port))) (members config (qs "inbounds")).
Definition xrayMayTake (t : qstring) (r : QJsonObject) : bool :=
  match jsonGet r (qs "inboundTag") with Some v => bool_decide (jtext t ∈ jsonToArray (Some v)) | None => true end.
Definition xrayRoute (config : QJsonObject) (port : Z) : option qstring :=
  i ← xrayInboundAt config port;
  r ← List.find (xrayMayTake (tagOf i)) (members (jsonToObject (jsonGet config (qs "routing"))) (qs "rules"));
  Some (jsonText (jsonGet r (qs "outboundTag"))).

Lemma members_objects config key os : jsonGet config key = Some (JArray (map JObject os)) -> members config key = os.
Proof. intros E. unfold members. rewrite E. cbn. rewrite map_map. apply map_id. Qed.

Lemma find_unique {A} (P : A -> bool) (l : list A) x : forall i, l !! i = Some x -> P x = true ->
  (forall j y, l !! j = Some y -> P y = true -> j = i) -> List.find P l = Some x.
Proof.
  induction l as [|z l IH]; intros i Hi Hp Hu; [by rewrite lookup_nil in Hi|]. cbn. destruct i as [|i].
  - injection Hi as ->. by rewrite Hp.
  - destruct (P z) eqn:E; [by specialize (Hu 0%nat z eq_refl E)|]. apply (IH i Hi Hp). intros j y Hj Hy. specialize (Hu (S j) y Hj Hy). lia.
Qed.

Section Delivery.
Context (env : BuildEnv) (set : OutboundsEnv).

(** C6: a section that succeeds gives every outbound of each core a tag of its own;
    every bridge between the cores has one ingress, which is the tag of an
    outbound, and no two bridges the same. *)
Theorem section_tags_apart deps c : WellGiven deps c -> let c' := buildOutboundsSection env set deps c in errors c' = [] ->
  NoDup (map tagOf (emitted c')) /\ NoDup (map x_tag (xrayOutbounds c')) /\ bridgesMatch c' /\
  NoDup (xrayIngressTags c') /\ xrayIngressTags c' ⊆ map x_tag (xrayOutbounds c') /\
  NoDup (singIngressTags c') /\ singIngressTags c' ⊆ map tagOf (emitted c').
Proof. intros Hw c' He. destruct (section_ready env set deps c Hw He) as (g & _ & [[] _]). by split_and!. Qed.

(** After a section that succeeds, with bridges at distinct ports, every tag that
    rules may name -- the proxy or the members of the selector, the chains of the
    routing rules and the endpoints of the routing profile -- leads through the
    hops it stands for, in their order, crossing between the cores only at bridges,
    and the last hop dials as its own profile says. *)
Lemma section_ways deps c : WellGiven deps c -> let c' := buildOutboundsSection env set deps c in errors c' = [] ->
  portsDistinct c' ->
  exists g, getGroup env (p_gid (ent c)) = Some g /\ forall tag ids, (tag, ids) ∈ sectionWays env set deps g c -> passes env c' tag ids.
Proof.
  intros Hw c' He Hp. destruct (section_ready env set deps c Hw He) as (g & Hg & [T W]). exists g. split; [done|].
  intros tag ids Hin. rewrite Forall_forall in W. apply (W (tag, ids) Hin); [done|]. by eapply Tagged_distinct.
Qed.

Lemma xrayConfig_members c : xrayOutbounds c <> [] -> length (xrayIngressTags c) = length (singToXrayBridges c) ->
  let x := xrayConfig (buildXrayConfig env set c) in
  errors (buildXrayConfig env set c) = errors c /\
  members x (qs "inbounds") = map (fun '(t, b) => xraySocksInbound (xrayInboundTag t) b) (zip (xrayIngressTags c) (singToXrayBridges c)) /\
  members (jsonToObject (jsonGet x (qs "routing"))) (qs "rules") = map xrayRule (xrayIngressTags c) /\
  members x (qs "outbounds") = map (xrayObject env) (xrayOutbounds c).
Proof.
  intros Hne Hl. unfold buildXrayConfig. assert (isEmpty (xrayOutbounds c) = false) as -> by (by destruct (xrayOutbounds c)).
  cbv zeta. cbn [xrayIngressTags singToXrayBridges set_isXrayNeeded]. rewrite Hl, Nat.eqb_refl. cbn [negb].
  cbn [xrayConfig xrayOutbounds set_xrayConfig set_isXrayNeeded errors]. split_and!; [done|..].
  - apply members_objects. rewrite !jsonGet_set_other, jsonGet_set_same by done. do 2 f_equal. clear.
    generalize (singToXrayBridges c). induction (xrayIngressTags c) as [|t l IH]; intros [|b k]; cbn; try done. by rewrite IH.
  - apply members_objects. rewrite jsonGet_set_same. cbn. by rewrite map_map.
  - apply members_objects. rewrite jsonGet_set_other, jsonGet_set_same by done. by rewrite map_map.
Qed.

Lemma xrayInboundTag_inj t t' : xrayInboundTag t = xrayInboundTag t' -> t = t'.
Proof. unfold xrayInboundTag. intros E. rewrite !app_assoc in E. by apply app_inv_tail in E; apply app_inv_tail in E. Qed.

(** After a section that succeeds the sidecar's configuration is built without
    an error, and what arrives at the port of a bridge goes to the outbound that
    the chain of that bridge enters. *)
Theorem sidecar_routes_bridges deps c : WellGiven deps c -> let c' := buildOutboundsSection env set deps c in errors c' = [] ->
  portsDistinct c' -> let x := buildXrayConfig env set c' in
  errors x = [] /\
  forall i b t, singToXrayBridges c' !! i = Some b -> xrayIngressTags c' !! i = Some t ->
    xrayInboundAt (xrayConfig x) (b_port b) = Some (xraySocksInbound (xrayInboundTag t) b) /\
    xrayRoute (xrayConfig x) (b_port b) = Some t /\
    exists o, xrayAt c' t = Some o /\ xrayObject env o ∈ members (xrayConfig x) (qs "outbounds").
Proof.
  intros Hw c' He Hp x. destruct (section_ready env set deps c Hw He) as (g & _ & [HT _]). fold c' in HT.
  pose proof (Tagged_distinct _ _ HT Hp) as Hd. destruct HT as [_ _ _ _ [M _] N S _ _].
  destruct (decide (xrayOutbounds c' = [])) as [Ex|Ex].
  { split; [unfold x, buildXrayConfig; by rewrite Ex|]. intros i b t _ Ht. rewrite Ex in S. apply list_elem_of_lookup_2 in Ht. by apply S, elem_of_nil in Ht. }
  destruct (xrayConfig_members c' Ex M) as (X1 & X2 & X3 & X4). fold x in X1, X2, X3, X4. split; [by rewrite X1|].
  intros i b t Hb Ht.
  assert (xrayInboundAt (xrayConfig x) (b_port b) = Some (xraySocksInbound (xrayInboundTag t) b)) as Hin.
  { unfold xrayInboundAt. rewrite X2.
    assert (zip (xrayIngressTags c') (singToXrayBridges c') !! i = Some (t, b)) as Hi by (rewrite lookup_zip_with, Ht, Hb; done).
    rewrite (find_unique _ _ (xraySocksInbound (xrayInboundTag t) b) i); [done|by rewrite list_lookup_fmap, Hi|by apply bool_decide_eq_true_2|].
    intros j o Hj Ho. rewrite list_lookup_fmap, lookup_zip_with in Hj. destruct (xrayIngressTags c' !! j) as [t'|]; [|done].
    destruct (singToXrayBridges c' !! j) as [b'|] eqn:Ej; [|done]. injection Hj as <-. apply bool_decide_eq_true_1 in Ho. injection Ho as Ho.
    apply (NoDup_lookup (map b_port (singToXrayBridges c')) j i (b_port b)); [apply Hp|by rewrite list_lookup_fmap, Ej, <- Ho|by rewrite list_lookup_fmap, Hb]. }
  split_and!; [exact Hin| |].
  - unfold xrayRoute. rewrite Hin, X3. cbn [mbind option_bind].
    rewrite (find_unique _ _ (xrayRule t) i); [done|by rewrite list_lookup_fmap, Ht|by apply bool_decide_eq_true_2, list_elem_of_singleton|].
    intros j r Hj Hr. rewrite list_lookup_fmap in Hj. destruct (xrayIngressTags c' !! j) as [t'|] eqn:Ej; [|done]. injection Hj as <-.
    apply bool_decide_eq_true_1, list_elem_of_singleton in Hr. injection Hr as Hr. apply xrayInboundTag_inj in Hr as ->. by eapply NoDup_lookup.
  - apply list_elem_of_lookup_2, S, list_elem_of_fmap in Ht as (o & -> & Ho). exists o. split; [by apply xrayAt_in|].
    rewrite X4. by apply list_elem_of_fmap_2.
Qed.
End Delivery.

(** ** An example: sing-box, Xray and sing-box again *)

Module Sample.
Definition hop (id : Z) (xray : bool) : Profile :=
  MkProfile id 0 (qs "vless") [] (qs "example.org") None None xray false false false false false false None [] false
    ([(qs "type", jtext (qs "vless")); (qs "server_port", JInt id)], []) ([(qs "protocol", jtext (qs "vless")); (qs "port", JInt id)], []).
Definition chainProfile : Profile :=
  MkProfile 9 0 (qs "chain") (qs "three") [] (Some [1; 2; 3]) None false false false false false false false None [] false ([], []) ([], []).
Definition fullProfile : Profile :=
  MkProfile 5 0 (qs "custom") [] [] None (Some ([(qs "log", JObject [])], qs "127.0.0.1")) false true false false false false false None [] false ([], []) ([], []).
Definition profile (id : Z) : option Profile :=
  if id =? 5 then Some fullProfile else if id =? 9 then Some chainProfile
  else if (1 <=? id) && (id <=? 4) then Some (hop id ((id =? 2) || (id =? 4))) else None.
Definition sampleEnv : BuildEnv :=
  MkBuildEnv profile (fun _ => Some (MkGroup [] (-1) (-1))) [0] (qs "wireguard") ([], []) (fun p => p) (fun _ => false) (fun h => h) (fun h => h)
    (fun _ => None) [] (qs "prefer_ipv4") false false (fun o => o) (fun o t => jsonSet o (qs "dialerProxy") (jtext t)) (fun o => o)
    (fun k n => map (fun i => 20000 + 100 * k + Z.of_nat i) (seq 0 n)) (fun k => number k).
Definition sampleSet : OutboundsEnv :=
  MkOutboundsEnv false false p_name (fun _ => None) (fun _ => ([], [])) (fun _ => false) (fun _ => (0, 0)) 0 [] [] (qs "warning").
(** A rule names profile 4, which runs on Xray. *)
Definition deps : RoutingDeps := MkRouting {[4 := hopTag routeChainPrefix 0]} [MkRouteGroup [4] None] [].
Definition start (p : Profile) : BuildContext :=
  MkContext false false false false false false p [] [] [] [] [] [] [] [] [] [] [] [] [] [] [] [] false [] [] [] [] [] 0 0.

Lemma given p : (forall own, ownHops p = Some own -> own <> []) -> WellGiven deps (start p).
Proof. intros H. split; [by split_and!|exact H|by repeat constructor|by constructor]. Qed.
Lemma chain_own own : ownHops chainProfile = Some own -> own <> [].
Proof. by intros [= <-]. Qed.

(** A started profile that is a whole Xray configuration dials a bridge of its own;
    once a rule names a profile on Xray, the sidecar's configuration has no inbound
    there: the bridges of the rule have replaced it. *)
Example full_config_without_inbound :
  let c := buildOutboundsSection sampleEnv sampleSet deps (start fullProfile) in
  let x := buildXrayConfig sampleEnv sampleSet c in
  errors x = [] /\ jsonGet (default [] (singAt x tagProxy)) (qs "server_port") = Some (JInt 20000) /\
  is_Some (xrayInboundAt (xrayConfig c) 20000) /\ xrayInboundAt (xrayConfig x) 20000 = None.
Proof. vm_compute. split_and!; by try eexists. Qed.
End Sample.

Lemma section_tags_apart_witness : let c' := buildOutboundsSection Sample.sampleEnv Sample.sampleSet Sample.deps (Sample.start Sample.chainProfile) in
  length (emitted c') = 5%nat /\ NoDup (map tagOf (emitted c')).
Proof.
  split; [by vm_compute|].
  exact (proj1 (section_tags_apart Sample.sampleEnv Sample.sampleSet Sample.deps (Sample.start Sample.chainProfile) (Sample.given _ Sample.chain_own) ltac:(by vm_compute))).
Defined.

Lemma sidecar_routes_bridges_witness :
  let c' := buildOutboundsSection Sample.sampleEnv Sample.sampleSet Sample.deps (Sample.start Sample.chainProfile) in
  xrayRoute (xrayConfig (buildXrayConfig Sample.sampleEnv Sample.sampleSet c')) 20000 = Some tagProxy.
Proof.
  exact (proj1 (proj2 (proj2 (sidecar_routes_bridges Sample.sampleEnv Sample.sampleSet Sample.deps (Sample.start Sample.chainProfile) (Sample.given _ Sample.chain_own)
    ltac:(by vm_compute) ltac:(split; apply (bool_decide_unpack _); vm_compute; exact I)) 0%nat _ _ ltac:(by vm_compute) ltac:(by vm_compute)))).
Defined.
