(* ===== verification/RouteRules.v ===== *)
(** * Rules of a routing profile (src/src/database/entities/RouteRule.cpp)

    [RouteRule] is the record of the class without the editor's own fields. What it
    asks of others -- names of profiles, the case of letters, the checks of
    Validation.cpp -- is the environment [RuleEnv]; translated messages are left out. *)

From Stdlib Require Import Ascii String.
From S2P Require Import Prelude QtText Json.

Local Open Scope Z_scope.
#[local] Set Warnings "-register-all".

(** ** Data *)

Definition proxyID : Z := -1.
Definition directID : Z := -2.
Definition blockID : Z := -3.
Definition dnsOutID : Z := -4.
Definition warpBypassID : Z := -5.

Inductive ruleType :=
| custom | simpleAddressProxy | simpleAddressBypass | simpleAddressBlock | simpleProcessNameProxy | simpleProcessNameBypass
| simpleProcessNameBlock | simpleProcessPathProxy | simpleProcessPathBypass | simpleProcessPathBlock | simpleAddressWarpBypass
| simpleProcessNameWarpBypass | simpleProcessPathWarpBypass | endpointPreferredBy.
#[export] Instance ruleType_eq_dec : EqDecision ruleType.
Proof. solve_decision. Defined.

Definition ruleTypeTokens : list (ruleType * qstring) :=
  [(simpleAddressProxy, qs "simple_address_proxy"); (simpleAddressBypass, qs "simple_address_bypass");
   (simpleAddressBlock, qs "simple_address_block"); (simpleProcessNameProxy, qs "simple_process_name_proxy");
   (simpleProcessNameBypass, qs "simple_process_name_bypass"); (simpleProcessNameBlock, qs "simple_process_name_block");
   (simpleProcessPathProxy, qs "simple_process_path_proxy"); (simpleProcessPathBypass, qs "simple_process_path_bypass");
   (simpleProcessPathBlock, qs "simple_process_path_block"); (simpleAddressWarpBypass, qs "simple_address_warp_bypass");
   (simpleProcessNameWarpBypass, qs "simple_process_name_warp_bypass");
   (simpleProcessPathWarpBypass, qs "simple_process_path_warp_bypass"); (endpointPreferredBy, qs "endpoint_preferred_by")].
Definition ruleTypeToToken (t : ruleType) : qstring :=
  match List.find (fun p => bool_decide (p.1 = t)) ruleTypeTokens with Some p => p.2 | None => qs "custom" end.
Definition tokenToRuleType (s : qstring) : ruleType :=
  match List.find (fun p => bool_decide (p.2 = s)) ruleTypeTokens with Some p => p.1 | None => custom end.

Definition outboundIDToString (id : Z) : qstring :=
  if id =? proxyID then qs "proxy" else if id =? directID then qs "direct" else if id =? blockID then qs "block"
  else if id =? warpBypassID then qs "warp-bypass" else qs "unknown".
Definition stringToOutboundID (s : qstring) : Z :=
  if bool_decide (s = qs "direct") then directID else if bool_decide (s = qs "block") then blockID
  else if bool_decide (s = qs "warp-bypass") then warpBypassID else proxyID.

Record RouteRule := MkRule {
  ruleName : qstring; ruleKind : ruleType; disabled : bool; ip_version : qstring; network : qstring;
  protocol : qstring; inbound : list qstring; domain : list qstring; domain_suffix : list qstring;
  domain_keyword : list qstring; domain_regex : list qstring; source_ip_cidr : list qstring;
  source_ip_is_private : bool; ip_cidr : list qstring; ip_is_private : bool; source_port : list qstring;
  source_port_range : list qstring; port : list qstring; port_range : list qstring; process_name : list qstring;
  process_path : list qstring; process_path_regex : list qstring; package_name : list qstring;
  wifi_ssid : list qstring; wifi_bssid : list qstring; rule_set : list qstring; invert : bool; outboundID : Z;
  action : qstring; rejectMethod : qstring; no_drop : bool; override_address : qstring; override_port : qstring;
  tls_fragment : bool; tls_fragment_fallback_delay : qstring; tls_record_fragment : bool; tls_spoof : qstring;
  tls_spoof_method : qstring; sniffers : list qstring; sniffOverrideDest : bool; strategy : qstring }.

Definition ruleEta (r : RouteRule) : RouteRule :=
  MkRule (ruleName r) (ruleKind r) (disabled r) (ip_version r) (network r) (protocol r) (inbound r) (domain r)
    (domain_suffix r) (domain_keyword r) (domain_regex r) (source_ip_cidr r) (source_ip_is_private r)
    (ip_cidr r) (ip_is_private r) (source_port r) (source_port_range r) (port r) (port_range r)
    (process_name r) (process_path r) (process_path_regex r) (package_name r) (wifi_ssid r) (wifi_bssid r)
    (rule_set r) (invert r) (outboundID r) (action r) (rejectMethod r) (no_drop r) (override_address r)
    (override_port r) (tls_fragment r) (tls_fragment_fallback_delay r) (tls_record_fragment r) (tls_spoof r)
    (tls_spoof_method r) (sniffers r) (sniffOverrideDest r) (strategy r).
Definition set_ruleName (v : qstring) (r : RouteRule) : RouteRule := ltac:(setter ruleEta ruleName v r).
Definition set_ruleKind (v : ruleType) (r : RouteRule) : RouteRule := ltac:(setter ruleEta ruleKind v r).
Definition set_disabled (v : bool) (r : RouteRule) : RouteRule := ltac:(setter ruleEta disabled v r).
Definition set_ip_version (v : qstring) (r : RouteRule) : RouteRule := ltac:(setter ruleEta ip_version v r).
Definition set_network (v : qstring) (r : RouteRule) : RouteRule := ltac:(setter ruleEta network v r).
Definition set_protocol (v : qstring) (r : RouteRule) : RouteRule := ltac:(setter ruleEta protocol v r).
Definition set_inbound (v : list qstring) (r : RouteRule) : RouteRule := ltac:(setter ruleEta inbound v r).
Definition set_domain (v : list qstring) (r : RouteRule) : RouteRule := ltac:(setter ruleEta domain v r).
Definition set_domain_suffix (v : list qstring) (r : RouteRule) : RouteRule := ltac:(setter ruleEta domain_suffix v r).
Definition set_domain_keyword (v : list qstring) (r : RouteRule) : RouteRule := ltac:(setter ruleEta domain_keyword v r).
Definition set_domain_regex (v : list qstring) (r : RouteRule) : RouteRule := ltac:(setter ruleEta domain_regex v r).
Definition set_source_ip_cidr (v : list qstring) (r : RouteRule) : RouteRule := ltac:(setter ruleEta source_ip_cidr v r).
Definition set_source_ip_is_private (v : bool) (r : RouteRule) : RouteRule := ltac:(setter ruleEta source_ip_is_private v r).
Definition set_ip_cidr (v : list qstring) (r : RouteRule) : RouteRule := ltac:(setter ruleEta ip_cidr v r).
Definition set_ip_is_private (v : bool) (r : RouteRule) : RouteRule := ltac:(setter ruleEta ip_is_private v r).
Definition set_source_port (v : list qstring) (r : RouteRule) : RouteRule := ltac:(setter ruleEta source_port v r).
Definition set_source_port_range (v : list qstring) (r : RouteRule) : RouteRule := ltac:(setter ruleEta source_port_range v r).
Definition set_port (v : list qstring) (r : RouteRule) : RouteRule := ltac:(setter ruleEta port v r).
Definition set_port_range (v : list qstring) (r : RouteRule) : RouteRule := ltac:(setter ruleEta port_range v r).
Definition set_process_name (v : list qstring) (r : RouteRule) : RouteRule := ltac:(setter ruleEta process_name v r).
Definition set_process_path (v : list qstring) (r : RouteRule) : RouteRule := ltac:(setter ruleEta process_path v r).
Definition set_process_path_regex (v : list qstring) (r : RouteRule) : RouteRule := ltac:(setter ruleEta process_path_regex v r).
Definition set_package_name (v : list qstring) (r : RouteRule) : RouteRule := ltac:(setter ruleEta package_name v r).
Definition set_wifi_ssid (v : list qstring) (r : RouteRule) : RouteRule := ltac:(setter ruleEta wifi_ssid v r).
Definition set_wifi_bssid (v : list qstring) (r : RouteRule) : RouteRule := ltac:(setter ruleEta wifi_bssid v r).
Definition set_rule_set (v : list qstring) (r : RouteRule) : RouteRule := ltac:(setter ruleEta rule_set v r).
Definition set_invert (v : bool) (r : RouteRule) : RouteRule := ltac:(setter ruleEta invert v r).
Definition set_outboundID (v : Z) (r : RouteRule) : RouteRule := ltac:(setter ruleEta outboundID v r).
Definition set_action (v : qstring) (r : RouteRule) : RouteRule := ltac:(setter ruleEta action v r).
Definition set_rejectMethod (v : qstring) (r : RouteRule) : RouteRule := ltac:(setter ruleEta rejectMethod v r).
Definition set_no_drop (v : bool) (r : RouteRule) : RouteRule := ltac:(setter ruleEta no_drop v r).
Definition set_override_address (v : qstring) (r : RouteRule) : RouteRule := ltac:(setter ruleEta override_address v r).
Definition set_override_port (v : qstring) (r : RouteRule) : RouteRule := ltac:(setter ruleEta override_port v r).
Definition set_tls_fragment (v : bool) (r : RouteRule) : RouteRule := ltac:(setter ruleEta tls_fragment v r).
Definition set_tls_fragment_fallback_delay (v : qstring) (r : RouteRule) : RouteRule := ltac:(setter ruleEta tls_fragment_fallback_delay v r).
Definition set_tls_record_fragment (v : bool) (r : RouteRule) : RouteRule := ltac:(setter ruleEta tls_record_fragment v r).
Definition set_tls_spoof (v : qstring) (r : RouteRule) : RouteRule := ltac:(setter ruleEta tls_spoof v r).
Definition set_tls_spoof_method (v : qstring) (r : RouteRule) : RouteRule := ltac:(setter ruleEta tls_spoof_method v r).
Definition set_sniffers (v : list qstring) (r : RouteRule) : RouteRule := ltac:(setter ruleEta sniffers v r).
Definition set_sniffOverrideDest (v : bool) (r : RouteRule) : RouteRule := ltac:(setter ruleEta sniffOverrideDest v r).
Definition set_strategy (v : qstring) (r : RouteRule) : RouteRule := ltac:(setter ruleEta strategy v r).

(** RouteRule(): a route rule to direct, without conditions. *)
Definition newRule : RouteRule :=
  MkRule [] custom false [] [] [] [] [] [] [] [] [] false [] false [] [] [] [] [] [] [] [] [] [] [] false (-2) (qs "route") [] false [] [] false [] false [] [] [] false [].

(** ** Attributes by name *)

Record Attr A := MkAttr { aget : RouteRule -> A; aset : A -> RouteRule -> RouteRule }.
Arguments MkAttr {A} _ _.
Arguments aget {A} _ _.
Arguments aset {A} _ _ _.

Definition textAttrs : list (qstring * Attr qstring) :=
  [(qs "ip_version", MkAttr ip_version set_ip_version); (qs "network", MkAttr network set_network); (qs "protocol", MkAttr protocol set_protocol);
   (qs "override_address", MkAttr override_address set_override_address); (qs "override_port", MkAttr override_port set_override_port);
   (qs "tls_fragment_fallback_delay", MkAttr tls_fragment_fallback_delay set_tls_fragment_fallback_delay);
   (qs "tls_spoof", MkAttr tls_spoof set_tls_spoof); (qs "tls_spoof_method", MkAttr tls_spoof_method set_tls_spoof_method);
   (qs "method", MkAttr rejectMethod set_rejectMethod); (qs "strategy", MkAttr strategy set_strategy)].
Definition listAttrs : list (qstring * Attr (list qstring)) :=
  [(qs "inbound", MkAttr inbound set_inbound); (qs "domain", MkAttr domain set_domain); (qs "domain_suffix", MkAttr domain_suffix set_domain_suffix);
   (qs "domain_keyword", MkAttr domain_keyword set_domain_keyword); (qs "domain_regex", MkAttr domain_regex set_domain_regex);
   (qs "source_ip_cidr", MkAttr source_ip_cidr set_source_ip_cidr); (qs "ip_cidr", MkAttr ip_cidr set_ip_cidr);
   (qs "source_port", MkAttr source_port set_source_port); (qs "source_port_range", MkAttr source_port_range set_source_port_range);
   (qs "port", MkAttr port set_port); (qs "port_range", MkAttr port_range set_port_range); (qs "process_name", MkAttr process_name set_process_name);
   (qs "process_path", MkAttr process_path set_process_path); (qs "process_path_regex", MkAttr process_path_regex set_process_path_regex);
   (qs "package_name", MkAttr package_name set_package_name); (qs "wifi_ssid", MkAttr wifi_ssid set_wifi_ssid);
   (qs "wifi_bssid", MkAttr wifi_bssid set_wifi_bssid); (qs "rule_set", MkAttr rule_set set_rule_set)].
Definition boolAttrs : list (qstring * Attr bool) :=
  [(qs "source_ip_is_private", MkAttr source_ip_is_private set_source_ip_is_private); (qs "ip_is_private", MkAttr ip_is_private set_ip_is_private);
   (qs "invert", MkAttr invert set_invert); (qs "no_drop", MkAttr no_drop set_no_drop); (qs "tls_fragment", MkAttr tls_fragment set_tls_fragment);
   (qs "tls_record_fragment", MkAttr tls_record_fragment set_tls_record_fragment); (qs "override_destination", MkAttr sniffOverrideDest set_sniffOverrideDest)].

Fixpoint attrAt {A} (key : qstring) (table : list (qstring * A)) : option A :=
  match table with [] => None | (k, a) :: table => if bool_decide (k = key) then Some a else attrAt key table end.

(** In the order of the source; a Mac has no Wi-Fi conditions. *)
Definition get_attributes (darwin : bool) : list qstring :=
  [qs "ip_version"; qs "network"; qs "protocol"; qs "inbound"; qs "domain"; qs "domain_suffix"; qs "domain_keyword"; qs "domain_regex";
   qs "source_ip_cidr"; qs "source_ip_is_private"; qs "ip_cidr"; qs "ip_is_private"; qs "source_port"; qs "source_port_range"; qs "port";
   qs "port_range"; qs "process_name"; qs "process_path"; qs "process_path_regex"; qs "package_name"] ++
  (if darwin then [] else [qs "wifi_ssid"; qs "wifi_bssid"]) ++
  [qs "rule_set"; qs "invert"; qs "action"; qs "outbound"; qs "override_address"; qs "override_port"; qs "tls_fragment";
   qs "tls_fragment_fallback_delay"; qs "tls_record_fragment"; qs "tls_spoof"; qs "tls_spoof_method"; qs "method"; qs "no_drop";
   qs "override_destination"; qs "strategy"].
Definition tab_attributes (darwin : bool) : list qstring := List.filter (fun a => negb (bool_decide (a = qs "action"))) (get_attributes darwin).

Inductive inputType := trufalse | select | text.
Definition get_input_type (attr : qstring) : inputType :=
  if bool_decide (attr ∈ map fst boolAttrs) then trufalse
  else if bool_decide (attr ∈ [qs "ip_version"; qs "network"; qs "protocol"; qs "action"; qs "method"; qs "strategy"; qs "tls_spoof_method"; qs "outbound"])
  then select else text.
Definition isTruFalse (attr : qstring) : bool := match get_input_type attr with trufalse => true | _ => false end.

Definition is_list_attribute (attr : qstring) : bool := bool_decide (attr ∈ map fst listAttrs ++ [qs "sniffers"]).
Definition is_match_attribute (attr : qstring) : bool :=
  bool_decide (attr ∈ map fst listAttrs ++ [qs "ip_version"; qs "network"; qs "protocol"; qs "source_ip_is_private"; qs "ip_is_private"; qs "invert"]).

Definition get_current_value_string (attr : qstring) (r : RouteRule) : list qstring :=
  if bool_decide (attr = qs "action") then [action r]
  else if bool_decide (attr = qs "outbound") then [number (outboundID r)]
  else match attrAt attr textAttrs with
       | Some a => [aget a r]
       | None => match attrAt attr listAttrs with Some a => aget a r | None => [] end
       end.

Definition filterEmpty (base : list qstring) : list qstring := List.filter (fun s => negb (isEmpty s)) (map trimmed base).

(** Older builds wrote "reject_method" for the method, and "sniffers". *)
Definition set_field_value (attr : qstring) (value : list qstring) (r : RouteRule) : RouteRule :=
  let scalar := match value with [] => [] | s :: _ => trimmed s end in
  if bool_decide (attr = qs "action") then set_action (if isEmpty scalar then qs "route" else scalar) r
  else if bool_decide (attr = qs "outbound") then set_outboundID (default 0 (toInt scalar)) r
  else if bool_decide (attr = qs "reject_method") then set_rejectMethod scalar r
  else if bool_decide (attr = qs "sniffers") then set_sniffers (filterEmpty value) r
  else match attrAt attr textAttrs with
       | Some a => aset a scalar r
       | None => match attrAt attr listAttrs with
                 | Some a => aset a (filterEmpty value) r
                 | None => match attrAt attr boolAttrs with
                           | Some a => aset a (bool_decide (scalar = qs "true")) r
                           | None => r
                           end
                 end
       end.

Definition clear_attribute_value (attr : qstring) (r : RouteRule) : RouteRule :=
  if bool_decide (attr = qs "outbound") then set_outboundID directID r
  else match attrAt attr textAttrs with
       | Some a => aset a [] r
       | None => match attrAt attr listAttrs with
                 | Some a => aset a [] r
                 | None => match attrAt attr boolAttrs with Some a => aset a false r | None => r end
                 end
       end.

Definition isValidStrArray (arr : list qstring) : bool := existsb (fun s => negb (isEmpty (trimmed s))) arr.

Definition is_attribute_at_default (r : RouteRule) (attr : qstring) : bool :=
  if bool_decide (attr = qs "action") then true
  else match get_input_type attr with
       | trufalse => match attrAt attr boolAttrs with Some a => negb (aget a r) | None => true end
       | select =>
           if bool_decide (attr = qs "outbound") then outboundID r =? directID
           else match get_current_value_string attr r with [] => true | s :: _ => isEmpty s end
       | text =>
           if bool_decide (attr = qs "override_address") then isEmpty (override_address r)
           else if bool_decide (attr = qs "override_port") then
             isEmpty (trimmed (override_port r)) || bool_decide (trimmed (override_port r) = qs "0")
           else if bool_decide (attr = qs "tls_spoof") then isEmpty (tls_spoof r)
           else negb (isValidStrArray (get_current_value_string attr r))
       end.

(** ** Conditions and actions *)

(** A route rule to block or to the DNS outbound rejects or hijacks. *)
Definition effective_action (r : RouteRule) : qstring :=
  if bool_decide (action r = qs "route") then
    if outboundID r =? blockID then qs "reject" else if outboundID r =? dnsOutID then qs "hijack-dns" else action r
  else action r.

Definition has_match_conditions (darwin : bool) (r : RouteRule) : bool :=
  source_ip_is_private r || ip_is_private r ||
  existsb (fun attr => is_match_attribute attr && negb (isTruFalse attr) && isValidStrArray (get_current_value_string attr r)) (get_attributes darwin).

Definition routeLike : list qstring := [qs "route"; qs "route-options"; qs "bypass"].
Definition routeRuleActionScopes : list (qstring * list qstring) :=
  [(qs "outbound", [qs "route"; qs "bypass"]); (qs "override_address", routeLike); (qs "override_port", routeLike); (qs "tls_fragment", routeLike);
   (qs "tls_fragment_fallback_delay", routeLike); (qs "tls_record_fragment", routeLike); (qs "tls_spoof", routeLike);
   (qs "tls_spoof_method", routeLike); (qs "method", [qs "reject"]); (qs "no_drop", [qs "reject"]); (qs "override_destination", [qs "sniff"]);
   (qs "strategy", [qs "resolve"])].
Definition action_scope (attr : qstring) : list qstring := default [] (attrAt attr routeRuleActionScopes).

(** ** A rule of the core's configuration *)

(** [profileName] of the profile with that id, if it exists; [srsUrl] whether a
    text is the URL of a rule-set file, and [srsName] the tag such a file gets. *)
Record RuleEnv := MkRuleEnv {
  lowerCase : qstring -> qstring; srsUrl : qstring -> bool; srsName : qstring -> qstring; profileName : Z -> option qstring }.
Definition get_rule_set_name (env : RuleEnv) (ruleSet : qstring) : qstring := if srsUrl env ruleSet then srsName env ruleSet else ruleSet.

Definition cond (b : bool) (key : qstring) (v : QJsonValue) : QJsonObject := if b then [(key, v)] else [].
Definition stripped (str : list qstring) : list qstring := filterEmpty str.
Definition get_as_array (str : list qstring) : QJsonValue := JArray (map JString (stripped str)).
Definition get_as_numbers (str : list qstring) : QJsonValue := JArray (map (fun s => JInt (default 0 (toInt s))) (stripped str)).
Definition get_as_array_by (f : qstring -> qstring) (str : list qstring) : QJsonValue := JArray (map (fun s => JString (f s)) (stripped str)).
Definition condText (key : qstring) (s : qstring) : QJsonObject := cond (negb (isEmpty (trimmed s))) key (JString (trimmed s)).
Definition condList (key : qstring) (l : list qstring) : QJsonObject := cond (isValidStrArray l) key (get_as_array l).
Definition condBool (key : qstring) (b : bool) : QJsonObject := cond b key (JBool true).
Definition numberOf (s : qstring) : Z := default 0 (toInt (trimmed s)).

Definition rejectMethods : list qstring := [qs "default"; qs "drop"; qs "reply"].

Section RuleJson.
Context (env : RuleEnv).

(** The conditions; every key is written once, so each adds a member. *)
Definition conditionsJson (forView : bool) (r : RouteRule) : QJsonObject :=
  cond (negb (isEmpty (trimmed (ip_version r)))) (qs "ip_version") (JInt (numberOf (ip_version r))) ++
  condText (qs "network") (network r) ++ condText (qs "protocol") (protocol r) ++
  condList (qs "inbound") (inbound r) ++ condList (qs "domain") (domain r) ++ condList (qs "domain_suffix") (domain_suffix r) ++
  condList (qs "domain_keyword") (domain_keyword r) ++ condList (qs "domain_regex") (domain_regex r) ++
  condList (qs "source_ip_cidr") (source_ip_cidr r) ++ condBool (qs "source_ip_is_private") (source_ip_is_private r) ++
  condList (qs "ip_cidr") (ip_cidr r) ++ condBool (qs "ip_is_private") (ip_is_private r) ++
  cond (isValidStrArray (source_port r)) (qs "source_port") (get_as_numbers (source_port r)) ++
  condList (qs "source_port_range") (source_port_range r) ++
  cond (isValidStrArray (port r)) (qs "port") (get_as_numbers (port r)) ++
  condList (qs "port_range") (port_range r) ++ condList (qs "process_name") (process_name r) ++ condList (qs "process_path") (process_path r) ++
  condList (qs "process_path_regex") (process_path_regex r) ++ condList (qs "package_name") (package_name r) ++
  condList (qs "wifi_ssid") (wifi_ssid r) ++ condList (qs "wifi_bssid") (wifi_bssid r) ++
  (if forView then condList (qs "rule_set") (rule_set r)
   else cond (isValidStrArray (rule_set r)) (qs "rule_set") (get_as_array_by (get_rule_set_name env) (rule_set r))) ++
  condBool (qs "invert") (invert r).

(** get_rule_json resolves a route rule to block or to the DNS outbound in place. *)
Definition settle (r : RouteRule) : RouteRule := set_action (effective_action r) r.

Definition rejectJson (r : RouteRule) : QJsonObject :=
  let method := lowerCase env (trimmed (rejectMethod r)) in
  cond (bool_decide (method ∈ rejectMethods)) (qs "method") (JString method) ++
  condBool (qs "no_drop") (no_drop r && negb (bool_decide (method = qs "drop"))).

Definition optionsJson (r : RouteRule) : QJsonObject :=
  condText (qs "override_address") (override_address r) ++
  cond (0 <? numberOf (override_port r)) (qs "override_port") (JInt (numberOf (override_port r))) ++
  (if tls_fragment r then (qs "tls_fragment", JBool true) :: condText (qs "tls_fragment_fallback_delay") (tls_fragment_fallback_delay r) else []) ++
  condBool (qs "tls_record_fragment") (tls_record_fragment r) ++
  (if isEmpty (trimmed (tls_spoof r)) then []
   else (qs "tls_spoof", JString (trimmed (tls_spoof r))) :: condText (qs "tls_spoof_method") (tls_spoof_method r)).

(** [None] when the rule names a profile that is gone. *)
Definition outboundJson (forView : bool) (outboundTag : qstring) (r : RouteRule) : option QJsonValue :=
  if forView then
    if outboundID r =? proxyID then Some (JString (qs "proxy")) else if outboundID r =? directID then Some (JString (qs "direct"))
    else if outboundID r =? warpBypassID then Some (JString (qs "warp-bypass"))
    else JString <$> profileName env (outboundID r)
  else Some (if isEmpty outboundTag then JInt (outboundID r) else JString outboundTag).

Definition isAction (a : qstring) (r : RouteRule) : bool := bool_decide (action r = a).

(** What the action adds, after [settle]. *)
Definition actionJson (forView : bool) (outboundTag : qstring) (r : RouteRule) : option QJsonObject :=
  if isAction (qs "reject") r then Some (rejectJson r)
  else if isAction (qs "route") r || isAction (qs "bypass") r then
    v ← outboundJson forView outboundTag r; Some (optionsJson r ++ [(qs "outbound", v)])
  else if isAction (qs "route-options") r then Some (optionsJson r)
  else if isAction (qs "sniff") r then Some (condBool (qs "override_destination") (sniffOverrideDest r))
  else if isAction (qs "resolve") r then Some (condText (qs "strategy") (strategy r))
  else Some [].

Definition gateJson (tag : qstring) : QJsonObject :=
  [(qs "preferred_by", JArray [JString tag]); (qs "action", JString (qs "route")); (qs "outbound", JString tag)].

(** The rule's object, empty when there is none, and the rule after the call. *)
Definition get_rule_json (forView : bool) (outboundTag : qstring) (r : RouteRule) : QJsonObject * RouteRule :=
  if bool_decide (ruleKind r = endpointPreferredBy) then
    let tag := if forView then default [] (profileName env (outboundID r)) else outboundTag in
    (if isEmpty tag then [] else gateJson tag, r)
  else
    let r' := settle r in
    (match actionJson forView outboundTag r' with
     | Some o => conditionsJson forView r ++ [(qs "action", JString (action r'))] ++ o
     | None => []
     end, r').

Definition to_share_json (r : RouteRule) : QJsonObject * RouteRule :=
  if bool_decide (ruleKind r = endpointPreferredBy) then
    ([(qs "name", JString (ruleName r)); (qs "type", JString (ruleTypeToToken (ruleKind r))); (qs "outbound", JInt (outboundID r))], r)
  else
    let '(obj, r') := get_rule_json true [] r in
    (if isEmpty obj then []
     else obj ++ [(qs "name", JString (ruleName r')); (qs "type", JString (ruleTypeToToken (ruleKind r')))] ++ condBool (qs "disabled") (disabled r'), r').

(** isEmpty: whether the rule says nothing; of a custom rule its object is built. *)
Definition isSimpleAddress (t : ruleType) : bool :=
  bool_decide (t ∈ [simpleAddressProxy; simpleAddressBypass; simpleAddressBlock; simpleAddressWarpBypass]).
Definition ruleIsEmpty (r : RouteRule) : bool * RouteRule :=
  if bool_decide (ruleKind r = custom) then
    let '(obj, r') := get_rule_json false [] r in
    (if isAction (qs "route") r' || isAction (qs "route-options") r' || isAction (qs "hijack-dns") r' then (length obj <=? 1)%nat
     else if bool_decide (action r' ∈ [qs "sniff"; qs "resolve"; qs "reject"; qs "bypass"]) then (length obj <? 1)%nat else false, r')
  else if bool_decide (ruleKind r = endpointPreferredBy) then (false, r)
  else if isSimpleAddress (ruleKind r) then
    (isEmpty (domain r) && isEmpty (domain_suffix r) && isEmpty (domain_keyword r) && isEmpty (domain_regex r) && isEmpty (rule_set r) &&
     isEmpty (ip_cidr r), r)
  else (isEmpty (process_name r) && isEmpty (process_path r), r).
End RuleJson.

(** ** Validation *)

Inductive Severity := Warning | Error.
#[export] Instance Severity_eq_dec : EqDecision Severity.
Proof. solve_decision. Defined.
Record RuleIssue := MkIssue { severity : Severity; attr : qstring; value : qstring; related : qstring }.
#[export] Instance RuleIssue_eq_dec : EqDecision RuleIssue.
Proof. solve_decision. Defined.

(** The checks of Validation.cpp, by whether they find a problem. *)
Record CheckEnv := MkCheckEnv {
  badRegex : qstring -> bool; badCidr : qstring -> bool; badPort : qstring -> bool; badPortRange : qstring -> bool; disordered : qstring -> bool;
  badIp : qstring -> bool; badHost : qstring -> bool; badDuration : qstring -> bool; knownRuleSet : qstring -> bool; ruleSetUrl : qstring -> bool;
  isLetter : Z -> bool; lower : qstring -> qstring }.

Section Validation.
Context (chk : CheckEnv).

Definition routeRuleDigits (s : qstring) : bool := negb (isEmpty s) && forallb (fun c => (48 <=? c) && (c <=? 57)) s.
Definition routeRuleHasPortSuffix (s : qstring) : bool :=
  match lastIndexOf (ch ":") s with
  | Some n => (0 <? n)%nat && bool_decide (indexOf (ch ":") s = Some n) && routeRuleDigits (drop (S n) s)
  | None => false
  end.
Definition routeRuleAbsolutePath (s : qstring) : bool :=
  startsWithC (ch "/") s || startsWithC 92 s ||
  match s with a :: b :: c :: _ => isLetter chk a && (b =? ch ":") && ((c =? 92) || (c =? ch "/")) | _ => false end.
Definition routeRuleDomainProblem (s : qstring) : bool :=
  containsStr (qs "://") s || existsb isSpace s || contains (ch "/") s || contains (ch ":") s || negb (bool_decide (s = lower chk s)).

Definition bracketed (s : qstring) : bool := startsWithC (ch "[") s && endsWithC (ch "]") s.
Definition unbracketed (s : qstring) : qstring := take (length s - 2) (drop 1 s).
Definition routeRuleOverrideAddressProblem (s : qstring) : bool :=
  if startsWithC (ch "[") s then
    if (2 <? qsize s) && endsWithC (ch "]") s then badIp chk (unbracketed s) else true
  else if negb (badIp chk s) then false
  else routeRuleHasPortSuffix s || badHost chk s.
(** The problem of a spoofed name, a warning when it is an address. *)
Definition routeRuleSpoofProblem (s : qstring) : option Severity :=
  let bare := if bracketed s then unbracketed s else s in
  if negb (badIp chk bare) then Some Warning
  else if negb (containsStr (qs "://") s) && routeRuleHasPortSuffix s then Some Error
  else if badHost chk s then Some Error else None.

Definition problem (s : Severity) (b : bool) : option Severity := if b then Some s else None.
Definition notOneOf (s : qstring) (l : list qstring) : option Severity := problem Error (negb (bool_decide (s ∈ l))).
Definition among (a : qstring) (l : list qstring) : bool := bool_decide (a ∈ l).
Definition protocols : list qstring :=
  [qs "tls"; qs "http"; qs "quic"; qs "dns"; qs "stun"; qs "bittorrent"; qs "dtls"; qs "ssh"; qs "rdp"; qs "ntp"].
Definition actions : list qstring :=
  [qs "route"; qs "route-options"; qs "direct"; qs "bypass"; qs "reject"; qs "hijack-dns"; qs "sniff"; qs "resolve"].
Definition strategies : list qstring := [qs "as_is"; qs "prefer_ipv4"; qs "prefer_ipv6"; qs "ipv4_only"; qs "ipv6_only"].
Definition spoofMethods : list qstring := [qs "wrong-sequence"; qs "wrong-checksum"; qs "wrong-ack"; qs "wrong-md5"; qs "wrong-timestamp"].

Definition value_problem (a v : qstring) : option Severity :=
  if among a [qs "domain"; qs "domain_suffix"; qs "domain_keyword"] then problem Warning (routeRuleDomainProblem v)
  else if among a [qs "domain_regex"; qs "process_path_regex"] then problem Warning (badRegex chk v)
  else if among a [qs "ip_cidr"; qs "source_ip_cidr"] then problem Error (badCidr chk v)
  else if among a [qs "port"; qs "source_port"] then
    if contains (ch ":") v || contains (ch "-") v then Some Error
    else if bool_decide (v = qs "0") then None else problem Error (badPort chk v)
  else if among a [qs "port_range"; qs "source_port_range"] then
    if badPortRange chk v then Some Error else problem Warning (disordered chk v)
  else if bool_decide (a = qs "process_name") then problem Warning (contains (ch "/") v || contains 92 v)
  else if bool_decide (a = qs "process_path") then problem Warning (negb (routeRuleAbsolutePath v))
  else if bool_decide (a = qs "rule_set") then problem Error (negb (knownRuleSet chk v) && negb (ruleSetUrl chk v))
  else if bool_decide (a = qs "override_address") then problem Error (routeRuleOverrideAddressProblem v)
  else if bool_decide (a = qs "override_port") then if bool_decide (v = qs "0") then None else problem Error (badPort chk v)
  else if bool_decide (a = qs "tls_fragment_fallback_delay") then problem Error (badDuration chk v)
  else if bool_decide (a = qs "tls_spoof") then routeRuleSpoofProblem v
  else if bool_decide (a = qs "ip_version") then notOneOf v [qs "4"; qs "6"]
  else if bool_decide (a = qs "network") then notOneOf v [qs "tcp"; qs "udp"; qs "icmp"]
  else if bool_decide (a = qs "protocol") then notOneOf v protocols
  else if bool_decide (a = qs "action") then notOneOf v actions
  else if bool_decide (a = qs "method") then notOneOf (lower chk v) rejectMethods
  else if bool_decide (a = qs "strategy") then notOneOf v strategies
  else if bool_decide (a = qs "tls_spoof_method") then notOneOf v spoofMethods
  else None.

Definition check_value (a raw : qstring) : option RuleIssue :=
  let v := trimmed raw in
  if isEmpty v then None
  else s ← value_problem a v; Some (MkIssue s a (if is_list_attribute a then v else []) []).

(** ** Problems of a whole rule *)

(** What the profile behind an outbound is to the check: missing, not for routing,
    a chain of such hops, or fine. *)
Inductive Target := Missing | Unroutable | Fine | ChainOf (hops : list Target).
Definition badHop (t : Target) : bool := match t with Fine => false | _ => true end.
Definition routeRuleOutboundProblem (target : Z -> Target) (id : Z) : bool :=
  if (id =? proxyID) || (id =? directID) || (id =? warpBypassID) then false
  else if id <? 0 then true
  else match target id with
       | Missing | Unroutable => true
       | Fine => false
       | ChainOf hops => isEmpty hops || existsb badHop hops
       end.

Context (darwin : bool) (target : Z -> Target).

Definition applies (act attr : qstring) : bool :=
  match attrAt attr routeRuleActionScopes with Some l => bool_decide (act ∈ l) | None => true end.
Definition issue (b : bool) (s : Severity) (attr related : qstring) : list RuleIssue := if b then [MkIssue s attr [] related] else [].
Definition hasText (s : qstring) : bool := negb (isEmpty (trimmed s)).

Definition valueIssues (r : RouteRule) : list RuleIssue :=
  flat_map (fun attr =>
    if bool_decide (attr = qs "outbound") || isTruFalse attr || negb (applies (effective_action r) attr) then []
    else omap (check_value attr) (get_current_value_string attr r)) (get_attributes darwin).
Definition outboundIssues (r : RouteRule) : list RuleIssue :=
  issue (bool_decide (effective_action r ∈ [qs "route"; qs "bypass"]) && routeRuleOutboundProblem target (outboundID r)) Error (qs "outbound") [].

Definition anyOption (r : RouteRule) : bool :=
  hasText (override_address r) || (0 <? numberOf (override_port r)) || tls_fragment r || tls_record_fragment r || hasText (tls_spoof r).
Definition optionIssues (r : RouteRule) : list RuleIssue :=
  if bool_decide (effective_action r = qs "route-options") then
    issue (tls_fragment r && tls_record_fragment r) Error (qs "tls_record_fragment") (qs "tls_fragment") ++
    issue (negb (anyOption r) && has_match_conditions darwin r) Error (qs "action") []
  else [].
Definition uselessIssues (r : RouteRule) : list RuleIssue :=
  let act := effective_action r in
  (if applies act (qs "tls_fragment") then
     issue (hasText (tls_fragment_fallback_delay r) && negb (tls_fragment r)) Warning (qs "tls_fragment_fallback_delay") (qs "tls_fragment") ++
     issue (hasText (tls_spoof_method r) && negb (hasText (tls_spoof r))) Warning (qs "tls_spoof_method") (qs "tls_spoof")
   else []) ++
  issue (bool_decide (act = qs "reject") && no_drop r && bool_decide (lower chk (trimmed (rejectMethod r)) = qs "drop")) Warning (qs "no_drop") (qs "method").
Definition scopeIssues (r : RouteRule) : list RuleIssue :=
  flat_map (fun attr =>
    if applies (effective_action r) attr || is_attribute_at_default r attr ||
       (bool_decide (attr = qs "outbound") && bool_decide (action r = qs "route")) then []
    else [MkIssue Warning attr [] (qs "action")]) (get_attributes darwin).
Definition catchAllIssues (r : RouteRule) : list RuleIssue :=
  issue (bool_decide (ruleKind r = custom) && bool_decide (effective_action r ∈ [qs "route"; qs "bypass"; qs "reject"]) && negb (has_match_conditions darwin r))
    Warning (qs "action") [].

Definition validate (r : RouteRule) : list RuleIssue :=
  if bool_decide (ruleKind r = endpointPreferredBy) then []
  else valueIssues r ++ outboundIssues r ++ optionIssues r ++ uselessIssues r ++ scopeIssues r ++ catchAllIssues r.

Definition cross_checks : list RuleIssue :=
  [MkIssue Error (qs "tls_record_fragment") [] (qs "tls_fragment"); MkIssue Warning (qs "tls_fragment_fallback_delay") [] (qs "tls_fragment");
   MkIssue Warning (qs "tls_spoof_method") [] (qs "tls_spoof"); MkIssue Warning (qs "no_drop") [] (qs "method")] ++
  map (fun attr => MkIssue Warning attr [] (qs "action")) (List.filter (fun attr => bool_decide (attr ∈ map fst routeRuleActionScopes)) (get_attributes darwin)).
End Validation.

(** ** Reading a rule's object *)

Lemma jsonGet_app a b k : jsonGet (a ++ b) k = match jsonGet a k with Some v => Some v | None => jsonGet b k end.
Proof. induction a as [|[k' v] a IH]; cbn; [done|]. by case_bool_decide. Qed.
Lemma jsonGet_cond b k v key : jsonGet (cond b k v) key = if b && bool_decide (k = key) then Some v else None.
Proof. destruct b; cbn; [|done]. by case_bool_decide. Qed.
Lemma jsonGet_skip b k v o key : k <> key -> jsonGet (cond b k v ++ o) key = jsonGet o key.
Proof. intros H. rewrite jsonGet_app, jsonGet_cond, (bool_decide_false _ H). by destruct b. Qed.
Lemma jsonGet_skip_text k s o key : k <> key -> jsonGet (condText k s ++ o) key = jsonGet o key.
Proof. apply jsonGet_skip. Qed.
Lemma jsonGet_skip_list k l o key : k <> key -> jsonGet (condList k l ++ o) key = jsonGet o key.
Proof. apply jsonGet_skip. Qed.
Lemma jsonGet_skip_bool k b o key : k <> key -> jsonGet (condBool k b ++ o) key = jsonGet o key.
Proof. apply jsonGet_skip. Qed.

(** The members have other keys than those. *)
Definition avoids (keys : list qstring) (o : QJsonObject) : Prop := Forall (fun kv => kv.1 ∉ keys) o.
Lemma avoids_skip keys o key o' : avoids keys o -> key ∈ keys -> jsonGet (o ++ o') key = jsonGet o' key.
Proof.
  intros H Hk. rewrite jsonGet_app. enough (jsonGet o key = None) as -> by done.
  induction H as [|[k v] o Hkv _ IH]; cbn; [done|]. rewrite bool_decide_false; [done|]. by intros <-.
Qed.
Lemma avoids_none keys o key : avoids keys o -> key ∈ keys -> jsonGet o key = None.
Proof. intros H Hk. rewrite <- (app_nil_r o). by rewrite (avoids_skip keys). Qed.
Lemma avoids_app keys o o' : avoids keys o -> avoids keys o' -> avoids keys (o ++ o').
Proof. apply Forall_app_2. Qed.
Lemma avoids_cond keys b k v : k ∉ keys -> avoids keys (cond b k v).
Proof. intros H. destruct b; by repeat constructor. Qed.
Lemma avoids_if keys (b : bool) o o' : avoids keys o -> avoids keys o' -> avoids keys (if b then o else o').
Proof. by destruct b. Qed.
Lemma avoids_cons keys k v o : k ∉ keys -> avoids keys o -> avoids keys ((k, v) :: o).
Proof. by constructor. Qed.
Lemma avoids_nil keys : avoids keys [].
Proof. constructor. Qed.

(** Keys that no condition and no option has. *)
Definition actionKeys : list qstring :=
  [qs "action"; qs "outbound"; qs "preferred_by"; qs "name"; qs "type"; qs "disabled"; qs "method"; qs "no_drop"; qs "strategy"; qs "override_destination"].

Ltac avoid := repeat first [apply avoids_app | apply avoids_if | apply avoids_cond; by apply (bool_decide_unpack _)
  | apply avoids_cons; [by apply (bool_decide_unpack _)|] | apply avoids_nil].

Lemma conditions_avoid env view r : avoids actionKeys (conditionsJson env view r).
Proof. unfold conditionsJson, condText, condList, condBool. avoid. Qed.
Lemma options_avoid r : avoids actionKeys (optionsJson r).
Proof. unfold optionsJson, condText, condBool. avoid. Qed.

(** The rule sets stand under their own key. *)
Lemma conditions_rule_set env r o : jsonGet (conditionsJson env false r ++ o) (qs "rule_set") =
  if isValidStrArray (rule_set r) then Some (get_as_array_by (get_rule_set_name env) (rule_set r)) else jsonGet o (qs "rule_set").
Proof.
  unfold conditionsJson. rewrite <- !app_assoc. cbv iota.
  repeat first [rewrite jsonGet_skip by done | rewrite jsonGet_skip_text by done | rewrite jsonGet_skip_list by done | rewrite jsonGet_skip_bool by done].
  rewrite jsonGet_app, jsonGet_cond, (bool_decide_true (_ = _)), andb_true_r by done. destruct (isValidStrArray (rule_set r)); [done|]. by apply jsonGet_skip_bool.
Qed.
Lemma action_no_rule_set env view tag r o : actionJson env view tag r = Some o -> avoids [qs "rule_set"] o.
Proof.
  unfold actionJson. intros H. destruct (outboundJson env view tag r); cbn [mbind option_bind] in H; repeat case_match; simplify_eq; unfold rejectJson, optionsJson, condText, condBool; avoid.
Qed.

(** ** What the object of a rule says *)

Section Facts.
Context (env : RuleEnv).

Lemma effective_settled r : effective_action (settle r) = effective_action r.
Proof.
  unfold settle, effective_action. cbn [action outboundID set_action].
  destruct (bool_decide (action r = qs "route")) eqn:E; [|by rewrite E].
  destruct (outboundID r =? blockID); [done|]. destruct (outboundID r =? dnsOutID); [done|]. by rewrite E.
Qed.
Lemma settle_settled r : settle (settle r) = settle r.
Proof. unfold settle at 1. rewrite effective_settled. done. Qed.

Lemma custom_not_endpoint r : ruleKind r <> endpointPreferredBy -> forall view tag, get_rule_json env view tag r =
  (match actionJson env view tag (settle r) with
   | Some o => conditionsJson env view r ++ [(qs "action", JString (effective_action r))] ++ o | None => [] end, settle r).
Proof. intros H view tag. unfold get_rule_json. by rewrite bool_decide_false. Qed.

(** Building the object again gives the same. *)
Lemma rule_json_stable view tag r : get_rule_json env view tag (get_rule_json env view tag r).2 = get_rule_json env view tag r.
Proof.
  destruct (decide (ruleKind r = endpointPreferredBy)) as [E|E].
  - unfold get_rule_json at 2. by rewrite bool_decide_true.
  - rewrite (custom_not_endpoint r E). cbn [snd]. rewrite (custom_not_endpoint (settle r) E), settle_settled, effective_settled. done.
Qed.

Definition routes (r : RouteRule) : bool := bool_decide (effective_action r ∈ [qs "route"; qs "bypass"]).

Lemma rule_action view tag r : ruleKind r <> endpointPreferredBy -> (get_rule_json env view tag r).1 <> [] ->
  jsonGet (get_rule_json env view tag r).1 (qs "action") = Some (JString (effective_action r)).
Proof.
  intros E. rewrite (custom_not_endpoint r E). destruct actionJson as [o|]; [|done]. intros _. cbn [fst].
  rewrite (avoids_skip actionKeys); [done|apply conditions_avoid|by apply (bool_decide_unpack _)].
Qed.

(** The object has an outbound exactly when the action routes: the tag, or the id
    where no tag is given. *)
Lemma rule_outbound tag r : ruleKind r <> endpointPreferredBy ->
  jsonGet (get_rule_json env false tag r).1 (qs "outbound") =
  if routes r then Some (if isEmpty tag then JInt (outboundID r) else JString tag) else None.
Proof.
  intros E. rewrite (custom_not_endpoint r E). unfold actionJson, isAction, routes, settle. cbn [action set_action].
  assert (forall o o', jsonGet (conditionsJson env false r ++ [(qs "action", o)] ++ o') (qs "outbound") = jsonGet o' (qs "outbound")) as H.
  { intros o o'. rewrite (avoids_skip actionKeys); [done|apply conditions_avoid|by apply (bool_decide_unpack _)]. }
  generalize (effective_action r). intros a. destruct (decide (a ∈ [qs "route"; qs "bypass"])) as [Ha|Ha].
  - rewrite (bool_decide_true (a ∈ _)) by done.
    assert (bool_decide (a = qs "reject") = false) as -> by (apply bool_decide_eq_false; intros ->; by apply list_elem_of_In in Ha as [?|[?|[]]]).
    assert (bool_decide (a = qs "route") || bool_decide (a = qs "bypass") = true) as ->.
    { apply list_elem_of_In in Ha as [<-|[<-|[]]]; reflexivity. }
    cbn [mbind option_bind outboundJson fst]. rewrite H, (avoids_skip actionKeys); [done|apply options_avoid|by apply (bool_decide_unpack _)].
  - rewrite (bool_decide_false (a ∈ _)) by done.
    assert (bool_decide (a = qs "route") || bool_decide (a = qs "bypass") = false) as ->.
    { apply orb_false_iff. split; apply bool_decide_eq_false; intros ->; apply Ha; by apply (bool_decide_unpack _). }
    repeat case_match; cbn [fst]; rewrite ?H; try done; simplify_eq; (apply (avoids_none [qs "outbound"]); [|by apply (bool_decide_unpack _)]);
      unfold rejectJson, optionsJson, condText, condBool; avoid.
Qed.
End Facts.

(** ** What validation reports *)

Section Checked.
Context (chk : CheckEnv) (darwin : bool) (target : Z -> Target).

Lemma issue_elem b s a rel i : i ∈ issue b s a rel <-> b = true /\ i = MkIssue s a [] rel.
Proof. unfold issue. destruct b; set_solver. Qed.
Lemma check_value_unrelated a v i : check_value chk a v = Some i -> related i = [] /\ attr i = a.
Proof. unfold check_value. destruct (isEmpty (trimmed v)); [done|]. destruct value_problem; [|done]. by intros [= <-]. Qed.
Lemma flat_map_elem {A B} (f : A -> list B) l y : y ∈ flat_map f l <-> exists x, x ∈ l /\ y ∈ f x.
Proof. rewrite list_elem_of_In, in_flat_map. by setoid_rewrite list_elem_of_In. Qed.

(** Every problem between two attributes that validation reports is one of the
    shapes that [cross_checks] lists. *)
Theorem cross_issues_listed r i : i ∈ validate chk darwin target r -> related i <> [] -> i ∈ cross_checks darwin.
Proof.
  unfold validate, cross_checks. destruct (bool_decide (ruleKind r = _)); [by rewrite elem_of_nil|].
  rewrite !elem_of_app. intros [H|[H|[H|[H|[H|H]]]]] Hr.
  - apply flat_map_elem in H as (a & _ & H). destruct (_ || _); [by apply elem_of_nil in H|].
    apply list_elem_of_omap in H as (v & _ & H). by apply check_value_unrelated in H as [].
  - by apply issue_elem in H as [_ ->].
  - unfold optionIssues in H. destruct (bool_decide _); [|by apply elem_of_nil in H].
    apply elem_of_app in H as [H|H]; apply issue_elem in H as [_ ->]; [|done]. left. set_solver.
  - left. unfold uselessIssues in H. destruct (applies _ _); rewrite ?elem_of_app, ?elem_of_nil, !issue_elem in H; set_solver.
  - right. apply flat_map_elem in H as (a & Ha & H). destruct (applies (effective_action r) a) eqn:E; [by apply elem_of_nil in H|].
    cbn [orb] in H. destruct (_ || _); [by apply elem_of_nil in H|]. apply list_elem_of_singleton in H as ->.
    apply (list_elem_of_fmap_2 (fun a => MkIssue Warning a [] (qs "action"))). apply list_elem_of_In, filter_In. split; [by apply list_elem_of_In|].
    apply bool_decide_eq_true_2. unfold applies in E. destruct (attrAt a routeRuleActionScopes) eqn:A; [|done]. clear -A. revert A.
    induction routeRuleActionScopes as [|[k v] t IH]; cbn; [done|]. case_bool_decide; subst; set_solver.
  - by apply issue_elem in H as [_ ->].
Qed.

(** A rule that validation accepts either does not route or names an outbound that
    the build knows: a built-in one or a profile that routing can use. *)
Lemma accepted_outbound r : ruleKind r <> endpointPreferredBy -> (forall i, i ∈ validate chk darwin target r -> severity i = Warning) ->
  routes r = true -> routeRuleOutboundProblem target (outboundID r) = false.
Proof.
  intros E H R. destruct (routeRuleOutboundProblem target (outboundID r)) eqn:P; [|done].
  assert (severity (MkIssue Error (qs "outbound") [] []) = Warning) as [=]. apply H. unfold validate. rewrite bool_decide_false by done.
  rewrite !elem_of_app. right. left. apply issue_elem. unfold routes in R. by rewrite R, P.
Qed.
End Checked.

(** Apart from Macs, a rule has a condition exactly when its object has one beside
    [invert]. *)
Lemma isValid_stripped l : isValidStrArray l = negb (isEmpty (stripped l)).
Proof.
  unfold isValidStrArray, stripped, filterEmpty. induction l as [|s l IH]; [done|]. cbn. rewrite IH. by destruct (isEmpty (trimmed s)).
Qed.
Lemma existsb_cond b k v (P : qstring * QJsonValue -> bool) : existsb P (cond b k v) = b && P (k, v).
Proof. destruct b; cbn; [|done]. by rewrite orb_false_r. Qed.
Theorem conditions_counted env view r :
  has_match_conditions false r = existsb (fun kv => negb (bool_decide (kv.1 = qs "invert"))) (conditionsJson env view r).
Proof.
  assert (forall s, isValidStrArray [s] = hasText s) as E by (intros s; apply orb_false_r).
  transitivity (source_ip_is_private r || ip_is_private r || (hasText (ip_version r) || (hasText (network r) || (hasText (protocol r) ||
    existsb isValidStrArray [inbound r; domain r; domain_suffix r; domain_keyword r; domain_regex r; source_ip_cidr r; ip_cidr r; source_port r;
      source_port_range r; port r; port_range r; process_name r; process_path r; process_path_regex r; package_name r; wifi_ssid r; wifi_bssid r; rule_set r])))).
  { rewrite <- !E. reflexivity. }
  unfold conditionsJson, condText, condList, condBool. fold (hasText (ip_version r)) (hasText (network r)) (hasText (protocol r)).
  assert (existsb (fun kv => negb (bool_decide (kv.1 = qs "invert"))) (if view then cond (isValidStrArray (rule_set r)) (qs "rule_set") (get_as_array (rule_set r))
    else cond (isValidStrArray (rule_set r)) (qs "rule_set") (get_as_array_by (get_rule_set_name env) (rule_set r))) = isValidStrArray (rule_set r)) as V.
  { destruct view; rewrite existsb_cond; apply andb_true_r. }
  rewrite !existsb_app, V, !existsb_cond. cbn [fst existsb].
  repeat match goal with |- context [negb (bool_decide (qs ?a = qs ?b))] => let c := eval vm_compute in (negb (bool_decide (qs a = qs b))) in
    change (negb (bool_decide (qs a = qs b))) with c end.
  rewrite !andb_true_r, andb_false_r, !orb_false_r. apply eq_bool_prop_intro. rewrite !orb_True. tauto.
Qed.

Lemma cross_issues_listed_witness :
  let no := fun _ : qstring => false in
  let chk := MkCheckEnv no no no no no no no no no no (fun _ => false) (fun s => s) in
  let r := set_no_drop true (set_action (qs "route") (set_domain [qs "example.com"] newRule)) in
  MkIssue Warning (qs "no_drop") [] (qs "action") ∈ validate chk false (fun _ => Fine) r /\
  MkIssue Warning (qs "no_drop") [] (qs "action") ∈ cross_checks false.
Proof.
  assert (MkIssue Warning (qs "no_drop") [] (qs "action") ∈ validate (MkCheckEnv (fun _ => false) (fun _ => false) (fun _ => false) (fun _ => false)
    (fun _ => false) (fun _ => false) (fun _ => false) (fun _ => false) (fun _ => false) (fun _ => false) (fun _ => false) (fun s => s)) false (fun _ => Fine)
    (set_no_drop true (set_action (qs "route") (set_domain [qs "example.com"] newRule)))) as H by (apply (bool_decide_unpack _); vm_compute; exact I).
  split; [exact H|]. refine (cross_issues_listed _ _ _ _ _ H _). vm_compute. discriminate.
Defined.
