(* ===== verification/RouteProfiles.v ===== *)
(** * Routing profiles (src/src/database/entities/RouteProfile.cpp)

    A profile is its list of rules, or a raw [route] object of the core. Which
    outbounds it uses, the rules it gives the core, and the rules that stand for its
    endpoints. The shared rules are values here: an operation that changes them
    returns the list. *)

From Stdlib Require Import Ascii String.
From S2P Require Import Prelude QtText Json RouteRules.

Local Open Scope Z_scope.
#[local] Set Warnings "-register-all".

(** ** Data *)

Record RouteProfile := MkRoute {
  Rules : list RouteRule;
  defaultOutboundID : Z;
  isRaw : bool;
  rawRoute : qstring;
  preventModifications : bool;
  endpointProfileIDs : list Z;
  innerHopEndpointIDs : list Z }.
Definition set_Rules (v : list RouteRule) (p : RouteProfile) : RouteProfile :=
  MkRoute v (defaultOutboundID p) (isRaw p) (rawRoute p) (preventModifications p) (endpointProfileIDs p) (innerHopEndpointIDs p).

(** ** Raw profiles: outbounds by id *)

Definition isNumber (v : QJsonValue) : bool := match v with JInt _ | JDouble _ _ => true | _ => false end.
Definition namesOutbound (key : qstring) (v : QJsonValue) : bool := bool_decide (key ∈ [qs "outbound"; qs "final"]) && isNumber v.

Definition addId (id : Z) (out : list Z) : list Z := if bool_decide (id ∈ out) then out else out ++ [id].
Fixpoint collectRaw (v : QJsonValue) (out : list Z) {struct v} : list Z :=
  match v with
  | JObject o =>
      (fix members (o : QJsonObject) (out : list Z) {struct o} : list Z :=
         match o with
         | [] => out
         | (key, v) :: o => members o (if namesOutbound key v then addId (jsonToInt 0 (Some v)) out else collectRaw v out)
         end) o out
  | JArray vs => (fix items (vs : list QJsonValue) (out : list Z) {struct vs} : list Z :=
                    match vs with [] => out | v :: vs => items vs (collectRaw v out) end) vs out
  | _ => out
  end.
Definition CollectRawOutboundIds (route : QJsonObject) : list Z := collectRaw (JObject route) [].

(** Every number that names an outbound replaced by [f]. *)
Fixpoint mapRaw (f : Z -> QJsonValue) (v : QJsonValue) : QJsonValue :=
  match v with
  | JObject o => JObject (map (fun kv => (kv.1, if namesOutbound kv.1 kv.2 then f (jsonToInt 0 (Some kv.2)) else mapRaw f kv.2)) o)
  | JArray vs => JArray (map (mapRaw f) vs)
  | _ => v
  end.
Definition translated (outboundMap : gmap Z qstring) (id : Z) : QJsonValue :=
  JString (default (qs "proxy") (outboundMap !! id)).
Definition TranslateRawOutbounds (route : QJsonObject) (outboundMap : gmap Z qstring) : QJsonObject :=
  jsonToObject (Some (mapRaw (translated outboundMap) (JObject route))).

(** On import the ids are those of another machine: each is found again by the name
    that came with it, or becomes the proxy. *)
Definition remapped (names : QJsonObject) (idByName : qstring -> option Z) (id : Z) : QJsonValue :=
  if id <? 0 then JInt id
  else let nm := jsonToString [] (jsonGet names (number id)) in
       JInt (default proxyID (if isEmpty nm then None else idByName nm)).
Definition remapRawOutboundsByName (route names : QJsonObject) (idByName : qstring -> option Z) : QJsonObject :=
  jsonToObject (Some (mapRaw (remapped names idByName) (JObject route))).

(** ** The rules of the core *)

Section Emit.
Context (env : RuleEnv) (adblock_enable : bool).

Definition adblockRule : QJsonObject :=
  [(qs "action", JString (qs "reject")); (qs "rule_set", JArray [JString (qs "throne-adblocksingbox")])].
Definition skipped (item : RouteRule) : bool := disabled item || (negb (bool_decide (ruleKind item = custom)) && (ruleIsEmpty env item).1).
Definition tagFor (outboundMap : gmap Z qstring) (item : RouteRule) : qstring := default [] (outboundMap !! outboundID item).

(** The objects and whether the blocking rule is among them, [None] when one
    cannot be built; and the rules after the calls. *)
Fixpoint emitRules (forView : bool) (outboundMap : gmap Z qstring) (rules : list RouteRule) (added : bool)
    : option (list QJsonObject * bool) * list RouteRule :=
  match rules with
  | [] => (Some ([], added), [])
  | item :: rules =>
      let tag := tagFor outboundMap item in
      if skipped item || (negb forView && bool_decide (ruleKind item = endpointPreferredBy) && isEmpty tag) then
        let '(out, rules') := emitRules forView outboundMap rules added in (out, item :: rules')
      else
        let '(o, item') := get_rule_json env forView tag item in
        if isEmpty o then (None, item' :: rules)
        else
          let block := negb added && adblock_enable && bool_decide (jsonGet o (qs "action") = Some (JString (qs "route"))) in
          let '(out, rules') := emitRules forView outboundMap rules (added || block) in
          ((fun '(l, a) => ((if block then [adblockRule] else []) ++ o :: l, a)) <$> out, item' :: rules')
  end.
Definition get_route_rules (forView : bool) (outboundMap : gmap Z qstring) (rules : list RouteRule) : list QJsonObject * list RouteRule :=
  match emitRules forView outboundMap rules false with
  | (None, rules') => ([], rules')
  | (Some (l, added), rules') => (l ++ (if negb added && adblock_enable then [adblockRule] else []), rules')
  end.

(** ** What a profile uses *)

(** [parseObject] is QString2QJsonObject. *)
Context (parseObject : qstring -> QJsonObject).

Definition get_used_outbounds (p : RouteProfile) : list Z :=
  if isRaw p then CollectRawOutboundIds (parseObject (rawRoute p))
  else omap (fun item => if disabled item || bool_decide (ruleKind item = endpointPreferredBy) || negb (routes item) then None
                         else Some (outboundID item)) (Rules p).
Definition get_used_rule_sets (p : RouteProfile) : list qstring :=
  flat_map (fun item => if disabled item then [] else rule_set item) (Rules p).

Definition isRouteTo (id : Z) (item : RouteRule) : bool := negb (disabled item) && (outboundID item =? id) && isAction (qs "route") item.
Definition prefixAll (p : qstring) (l : list qstring) : list qstring := map (fun s => p ++ s) l.
Definition ruleSetsOf (kind : qstring) (item : RouteRule) : list qstring := prefixAll (qs "ruleset:") (List.filter (startsWith kind) (rule_set item)).
Definition sitesOf (item : RouteRule) : list qstring :=
  ruleSetsOf (qs "geosite-") item ++ prefixAll (qs "domain:") (domain item) ++ prefixAll (qs "suffix:") (domain_suffix item) ++
  prefixAll (qs "keyword:") (domain_keyword item) ++ prefixAll (qs "regex:") (domain_regex item).
Definition get_direct_sites (p : RouteProfile) : list qstring := flat_map sitesOf (List.filter (isRouteTo directID) (Rules p)).
Definition get_proxy_sites (p : RouteProfile) : list qstring := flat_map sitesOf (List.filter (isRouteTo proxyID) (Rules p)).
Definition get_direct_ips (p : RouteProfile) : list qstring :=
  flat_map (fun item => ruleSetsOf (qs "geoip-") item ++ prefixAll (qs "ip:") (ip_cidr item)) (List.filter (isRouteTo directID) (Rules p)).
Definition get_hijacked_ips (vpn_private_ranges : list qstring) (p : RouteProfile) : list qstring :=
  flat_map (fun item =>
    if disabled item || (isAction (qs "route") item && (outboundID item =? directID)) then []
    else if negb (isAction (qs "route") item) && negb (isAction (qs "reject") item) then []
    else (if ip_is_private item then vpn_private_ranges else []) ++ ip_cidr item) (Rules p).
Definition IsEmpty (p : RouteProfile) : bool :=
  if isRaw p then isEmpty (trimmed (rawRoute p)) else forallb (fun item => (ruleIsEmpty env item).1) (Rules p).
End Emit.

(** ** Endpoints and the rules that stand for them *)

Section Endpoints.
(** [innerHops] is AuxEndpointInnerHops; [endpointName] the name of a new rule. *)
Context (innerHops : Z -> list Z) (endpointName : Z -> qstring).

Definition addNew (targets : list Z) (id : Z) : list Z := if bool_decide (id ∈ targets) then targets else targets ++ [id].
Definition addTarget (inner : list Z) (targets : list Z) (id : Z) : list Z :=
  if bool_decide (id ∈ targets) then targets
  else if bool_decide (id ∈ inner) then fold_left addNew (innerHops id) (targets ++ [id]) else targets ++ [id].
Definition endpointRuleTargets (p : RouteProfile) : list Z := fold_left (addTarget (innerHopEndpointIDs p)) (endpointProfileIDs p) [].

Definition MakeEndpointRule (id : Z) : RouteRule := set_ruleName (endpointName id) (set_outboundID id (set_ruleKind endpointPreferredBy newRule)).
Definition isEndpointRule (r : RouteRule) : bool := bool_decide (ruleKind r = endpointPreferredBy).

(** The rules kept, and the ids they stand for. *)
Fixpoint keepRules (targets : list Z) (rules : list RouteRule) (paired : list Z) : list RouteRule * list Z :=
  match rules with
  | [] => ([], paired)
  | rule :: rules =>
      if isEndpointRule rule then
        if negb (bool_decide (outboundID rule ∈ targets)) || bool_decide (outboundID rule ∈ paired) then keepRules targets rules paired
        else let '(kept, paired) := keepRules targets rules (outboundID rule :: paired) in (rule :: kept, paired)
      else let '(kept, paired) := keepRules targets rules paired in (rule :: kept, paired)
  end.
Definition SyncEndpointRules (p : RouteProfile) : RouteProfile :=
  if isRaw p then p
  else
    let targets := endpointRuleTargets p in
    let '(kept, paired) := keepRules targets (Rules p) [] in
    set_Rules (kept ++ map MakeEndpointRule (List.filter (fun id => negb (bool_decide (id ∈ paired))) targets)) p.
End Endpoints.

Definition GetDefaultChain : list RouteRule :=
  [set_protocol (qs "dns") (set_action (qs "hijack-dns") (set_ruleName (qs "Route DNS") newRule))].

(** ** The ids of a raw profile *)

(** The specification: an id stands somewhere in the value as the number of an
    [outbound] or [final] member. *)
Inductive usesId (id : Z) : QJsonValue -> Prop :=
| uses_here o key v : (key, v) ∈ o -> namesOutbound key v = true -> jsonToInt 0 (Some v) = id -> usesId id (JObject o)
| uses_member o key v : (key, v) ∈ o -> namesOutbound key v = false -> usesId id v -> usesId id (JObject o)
| uses_item vs v : v ∈ vs -> usesId id v -> usesId id (JArray vs).

Lemma QJsonValue_deep (P : QJsonValue -> Prop) :
  (forall v, match v with JArray _ | JObject _ => False | _ => True end -> P v) ->
  (forall vs, Forall P vs -> P (JArray vs)) -> (forall o : QJsonObject, Forall (fun kv => P kv.2) o -> P (JObject o)) -> forall v, P v.
Proof.
  intros Hl Ha Ho. fix IH 1. intros [| | | | |vs|o]; try (by apply Hl).
  - apply Ha. induction vs as [|v vs IHvs]; constructor; [apply IH|exact IHvs].
  - apply Ho. induction o as [|[k v] o IHo]; constructor; [apply IH|exact IHo].
Qed.

Lemma addId_elem id k out : id ∈ addId k out <-> id ∈ out \/ id = k.
Proof. unfold addId. case_bool_decide; set_solver. Qed.
Lemma addId_nodup k out : NoDup out -> NoDup (addId k out).
Proof. intros H. unfold addId. case_bool_decide; [done|]. apply NoDup_app. split_and!; [done|set_solver|apply NoDup_singleton]. Qed.

Lemma uses_cons id k v o : usesId id (JObject ((k, v) :: o)) <->
  (if namesOutbound k v then jsonToInt 0 (Some v) = id else usesId id v) \/ usesId id (JObject o).
Proof.
  split.
  - intros H. inversion H as [? key v' Hin Hn E|? key v' Hin Hn E|]; subst; apply elem_of_cons in Hin as [[= <- <-]|Hin]; rewrite ?Hn; auto; right.
    + by eapply uses_here.
    + by eapply uses_member.
  - intros [H|H].
    + destruct (namesOutbound k v) eqn:E; [by eapply (uses_here id _ k v); [left| |]|by eapply (uses_member id _ k v); [left| |]].
    + inversion H as [? key v' Hin Hn E|? key v' Hin Hn Hu|]; subst.
      * eapply uses_here; [by right|done|done].
      * eapply uses_member; [by right|done|done].
Qed.
Lemma uses_item_cons id v vs : usesId id (JArray (v :: vs)) <-> usesId id v \/ usesId id (JArray vs).
Proof.
  split.
  - intros H. inversion H as [| |? v' Hin Hu]; subst. apply elem_of_cons in Hin as [->|Hin]; [by left|right; by eapply uses_item].
  - intros [H|H]; [eapply uses_item; [left|done]|]. inversion H; subst. eapply uses_item; [by right|done].
Qed.
Lemma uses_nothing id : ~ usesId id (JObject []) /\ ~ usesId id (JArray []).
Proof. split; inversion 1; subst; set_solver. Qed.

Lemma collectRaw_spec v : forall out id, id ∈ collectRaw v out <-> id ∈ out \/ usesId id v.
Proof.
  induction v as [v Hv|vs IH|o IH] using QJsonValue_deep; intros out id.
  - assert (collectRaw v out = out) as -> by (by destruct v). split; [auto|]. intros [H|H]; [done|]. by inversion H; subst.
  - cbn. revert out. induction IH as [|v vs Hv _ IHvs]; intros out; [pose proof (uses_nothing id); tauto|].
    rewrite IHvs, Hv, uses_item_cons. tauto.
  - cbn. revert out. induction IH as [|[k v] o Hv _ IHo]; intros out; [pose proof (uses_nothing id); tauto|].
    rewrite IHo, uses_cons. cbn in Hv. destruct (namesOutbound k v); [rewrite addId_elem; naive_solver|]. rewrite Hv. tauto.
Qed.

(** The collected ids are those of the specification, each once. *)
Lemma collect_elem route id : id ∈ CollectRawOutboundIds route <-> usesId id (JObject route).
Proof. unfold CollectRawOutboundIds. rewrite collectRaw_spec, elem_of_nil. tauto. Qed.
Lemma collectRaw_nodup v : forall out, NoDup out -> NoDup (collectRaw v out).
Proof.
  induction v as [v Hv|vs IH|o IH] using QJsonValue_deep; intros out Ho.
  - by destruct v.
  - cbn. revert out Ho. induction IH as [|v vs Hv _ IHvs]; intros out Ho; [done|]. by apply IHvs, Hv.
  - cbn. revert out Ho. induction IH as [|[k v] o Hv _ IHo]; intros out Ho; [done|]. apply IHo. destruct (namesOutbound k v); [by apply addId_nodup|by apply Hv].
Qed.

(** What replaces an id is a number or a text. *)
Definition flat (v : QJsonValue) : bool := isNumber v || match v with JString _ => true | _ => false end.
Lemma mapRaw_uses f id v : (forall k, flat (f k) = true) ->
  usesId id (mapRaw f v) <-> exists k, usesId k v /\ isNumber (f k) = true /\ jsonToInt 0 (Some (f k)) = id.
Proof.
  intros Hf. induction v as [v Hv|vs IH|o IH] using QJsonValue_deep.
  - assert (mapRaw f v = v) as -> by (by destruct v). split; [intros H|intros (k & H & _)]; inversion H; by subst.
  - cbn. induction IH as [|v vs Hv _ IHvs]; cbn.
    + split; [intros H|intros (k & H & _)]; by apply uses_nothing in H.
    + rewrite uses_item_cons, Hv, IHvs. setoid_rewrite uses_item_cons. naive_solver.
  - cbn [mapRaw]. induction IH as [|[k v] o Hv _ IHo]; cbn [map fst snd].
    + split; [intros H|intros (k & H & _)]; by apply uses_nothing in H.
    + rewrite uses_cons, IHo. setoid_rewrite uses_cons. cbn [snd] in Hv. destruct (namesOutbound k v) eqn:E.
      * unfold namesOutbound at 1. unfold namesOutbound in E. apply andb_true_iff in E as [-> _]. cbn [andb]. specialize (Hf (jsonToInt 0 (Some v))).
        destruct (isNumber (f (jsonToInt 0 (Some v)))) eqn:N.
        -- split.
           ++ intros [Hu|(j & Hj & Hp)]; [exists (jsonToInt 0 (Some v)); split_and!; [by left|done|exact Hu]|]. exists j. auto.
           ++ intros (j & [<-|Hj] & Hn & Hp); [by left|]. right. by exists j.
        -- assert (forall i, ~ usesId i (f (jsonToInt 0 (Some v)))) as Hno.
           { intros i Hu. unfold flat in Hf. rewrite N in Hf. cbn [orb] in Hf. destruct (f (jsonToInt 0 (Some v))); try done; inversion Hu. }
           split.
           ++ intros [Hu|(j & Hj & Hp)]; [by apply Hno in Hu|]. exists j. auto.
           ++ intros (j & [<-|Hj] & Hn & Hp); [congruence|]. right. by exists j.
      * assert (namesOutbound k (mapRaw f v) = false) as ->.
        { unfold namesOutbound in *. destruct (bool_decide _); [|done]. cbn in *. by destruct v. }
        rewrite Hv. naive_solver.
Qed.

(** A translated raw profile has no outbound left that is a number, so the core
    reads every one of them as a tag. *)
Theorem translation_complete route m : CollectRawOutboundIds (TranslateRawOutbounds route m) = [].
Proof.
  destruct (CollectRawOutboundIds _) as [|id l] eqn:E; [done|].
  assert (id ∈ CollectRawOutboundIds (TranslateRawOutbounds route m)) as H by (rewrite E; left). apply collect_elem in H.
  change (JObject (TranslateRawOutbounds route m)) with (mapRaw (translated m) (JObject route)) in H.
  apply mapRaw_uses in H as (k & _ & H & _); [done|]. done.
Qed.

Lemma uses_range id v : usesId id v -> intRange id = true.
Proof.
  induction 1 as [o key v _ _ <-|o key v _ _ _ IH|vs v _ _ IH]; [|done|done]. unfold jsonToInt.
  destruct v as [| |z|z []| | |]; try done; by destruct (intRange z) eqn:E.
Qed.

(** After an import every id of a raw profile is a built-in one or that of a
    profile of this machine. *)
Theorem remap_local route names idByName : (forall nm id, idByName nm = Some id -> intRange id = true) ->
  Forall (fun id => id < 0 \/ exists nm, idByName nm = Some id) (CollectRawOutboundIds (remapRawOutboundsByName route names idByName)).
Proof.
  intros Hr. apply Forall_forall. intros id H. pose proof H as R. apply collect_elem in H. apply collect_elem, uses_range in R.
  change (JObject (remapRawOutboundsByName route names idByName)) with (mapRaw (remapped names idByName) (JObject route)) in H.
  assert (forall k, flat (remapped names idByName k) = true) as Hf by (intros k; unfold remapped; by destruct (k <? 0)).
  apply mapRaw_uses in H as (k & Hk & _ & <-); [|done]. apply uses_range in Hk. clear R. unfold remapped. destruct (Z.ltb_spec k 0) as [Hn|Hn].
  - left. by rewrite jsonToInt_int.
  - destruct (isEmpty _); cbn; [by left|]. destruct (idByName _) as [i|] eqn:Ei; cbn; [|by left]. rewrite (Hr _ _ Ei). right. by eexists.
Qed.

(** ** The rules of the core *)

Section EmitFacts.
Context (env : RuleEnv).

(** A rule as it goes to the core: its object under the tag of its outbound. *)
Definition ruleObject (m : gmap Z qstring) (item : RouteRule) : QJsonObject := (get_rule_json env false (tagFor m item) item).1.
Definition dropped (m : gmap Z qstring) (item : RouteRule) : bool := skipped env item || (isEndpointRule item && isEmpty (tagFor m item)).
Definition kept (m : gmap Z qstring) (rules : list RouteRule) : list RouteRule := List.filter (fun item => negb (dropped m item)) rules.
Definition routing (o : QJsonObject) : bool := bool_decide (jsonGet o (qs "action") = Some (JString (qs "route"))).

Lemma object_nonempty m item : dropped m item = false -> isEmpty (ruleObject m item) = false.
Proof.
  unfold dropped, ruleObject, isEndpointRule, get_rule_json. intros [_ H]%orb_false_iff. destruct (bool_decide (ruleKind item = endpointPreferredBy)) eqn:E.
  - cbn [andb] in H. cbn [fst]. by rewrite H.
  - unfold actionJson, outboundJson. destruct (isAction (qs "reject") (settle item)); [cbn [fst]; by destruct (conditionsJson _ _ _)|].
    destruct (_ || _); [cbn [mbind option_bind fst]; by destruct (conditionsJson _ _ _)|].
    repeat (destruct (isAction _ (settle item)); [cbn [fst]; by destruct (conditionsJson _ _ _)|]). cbn [fst]. by destruct (conditionsJson _ _ _).
Qed.

(** Where the blocking rule goes: before the first rule that routes. *)
Fixpoint insertBlock (os : list QJsonObject) : list QJsonObject :=
  match os with [] => [adblockRule] | o :: os => if routing o then adblockRule :: o :: os else o :: insertBlock os end.

Lemma emitRules_spec adblock m rules : forall added, exists l a, (emitRules env adblock false m rules added).1 = Some (l, a) /\
  l ++ (if negb a && adblock then [adblockRule] else []) =
  let os := map (ruleObject m) (kept m rules) in if negb added && adblock then insertBlock os else os.
Proof.
  induction rules as [|item rules IH]; intros added; cbn [emitRules kept List.filter map].
  - eexists _, _. split; [done|]. by destruct (negb added && adblock).
  - cbn [negb andb]. fold (isEndpointRule item) (dropped m item).
    destruct (dropped m item) eqn:D; cbn [negb].
    + destruct (emitRules env adblock false m rules added) as [out rules'] eqn:E. destruct (IH added) as (l & a & H & H'). rewrite E in H. cbn in H. subst out.
      exists l, a. by split.
    + apply object_nonempty in D. unfold ruleObject in D |- * at 1. destruct (get_rule_json env false (tagFor m item) item) as [o item'] eqn:G.
      cbn [fst] in D. rewrite D. fold (routing o).
      destruct (IH (added || (negb added && adblock && routing o))) as (l & a & H & H').
      destruct (emitRules env adblock false m rules _) as [out rules'] eqn:E. cbn [fst] in H |- *. subst out. cbn [fmap option_fmap option_map].
      eexists _, _. split; [done|]. cbn [map]. unfold ruleObject at 1. rewrite G. cbn [fst].
      rewrite <- app_assoc, <- app_comm_cons, H'. destruct added, adblock, (routing o) eqn:R; cbn; rewrite ?R; done.
Qed.

(** The rules of the core are those of the enabled ones, in their order; with ad
    blocking, its rule comes before the first that routes, else at the end. *)
Theorem route_rules_spec adblock m rules :
  (get_route_rules env adblock false m rules).1 =
  let os := map (ruleObject m) (kept m rules) in if adblock then insertBlock os else os.
Proof.
  unfold get_route_rules. destruct (emitRules_spec adblock m rules false) as (l & a & H & H'). cbn [negb andb] in H'.
  destruct (emitRules env adblock false m rules false) as [out rules']. cbn [fst] in H. subst out. cbn [fst]. by rewrite H'.
Qed.

Lemma insertBlock_elem o os : o ∈ insertBlock os <-> o = adblockRule \/ o ∈ os.
Proof. induction os as [|o' os IH]; cbn; [set_solver|]. destruct (routing o'); set_solver. Qed.

(** The outbound of every rule of the core is a tag of the map, once the map has
    the outbounds of the enabled rules. *)
Definition knows (m : gmap Z qstring) (item : RouteRule) : Prop :=
  disabled item = false -> ruleKind item <> endpointPreferredBy -> routes item = true -> exists tag, m !! outboundID item = Some tag /\ tag <> [].
Definition namesTag (m : gmap Z qstring) (o : QJsonObject) : Prop :=
  jsonGet o (qs "outbound") = None \/ exists id tag, m !! id = Some tag /\ jsonGet o (qs "outbound") = Some (JString tag).
Theorem route_rules_tagged adblock m rules : Forall (knows m) rules -> Forall (namesTag m) (get_route_rules env adblock false m rules).1.
Proof.
  intros Hk. rewrite route_rules_spec. cbv zeta.
  assert (forall o, o ∈ map (ruleObject m) (kept m rules) -> namesTag m o) as H.
  { intros o (item & -> & Hin)%list_elem_of_fmap. apply list_elem_of_In, filter_In in Hin as [Hin Hd]. apply negb_true_iff in Hd.
    apply list_elem_of_In in Hin. rewrite Forall_forall in Hk. specialize (Hk item Hin). unfold dropped in Hd. apply orb_false_iff in Hd as [Hs Hd].
    unfold skipped in Hs. apply orb_false_iff in Hs as [Hdis _]. unfold ruleObject, tagFor, isEndpointRule in *.
    destruct (decide (ruleKind item = endpointPreferredBy)) as [E|E].
    - rewrite bool_decide_true in Hd by done. cbn [andb] in Hd. unfold get_rule_json. rewrite bool_decide_true by done. cbn [fst]. rewrite Hd.
      right. destruct (m !! outboundID item) as [tag|] eqn:Em; [|done]. by exists (outboundID item), tag.
    - unfold namesTag. rewrite rule_outbound by done. destruct (routes item) eqn:R; [|by left]. right.
      destruct (Hk Hdis E R) as (tag & Em & Ht). exists (outboundID item), tag. rewrite Em. cbn. split; [done|]. by destruct tag. }
  apply Forall_forall. intros o Ho. destruct adblock; [|by apply H]. apply insertBlock_elem in Ho as [->|Ho]; [by left|by apply H].
Qed.
End EmitFacts.

(** ** Endpoint rules after a sync *)

Section SyncFacts.
Context (innerHops : Z -> list Z) (endpointName : Z -> qstring).

Lemma addNew_spec l : forall ts, NoDup ts -> NoDup (fold_left addNew l ts) /\ forall id, id ∈ fold_left addNew l ts <-> id ∈ ts \/ id ∈ l.
Proof.
  induction l as [|x l IH]; intros ts Hts; cbn; [split; [done|set_solver]|]. unfold addNew at 2 4. case_bool_decide as Hx.
  - destruct (IH ts Hts) as [H1 H2]. split; [done|]. intros id. rewrite H2. set_solver.
  - destruct (IH (ts ++ [x])) as [H1 H2]; [by apply NoDup_app; split_and!; [|set_solver|apply NoDup_singleton]|].
    split; [done|]. intros id. rewrite H2. set_solver.
Qed.
Lemma addTarget_nodup inner l : forall ts, NoDup ts -> NoDup (fold_left (addTarget innerHops inner) l ts).
Proof.
  induction l as [|x l IH]; intros ts Hts; cbn; [done|]. apply IH. unfold addTarget. case_bool_decide as Hx; [done|].
  assert (NoDup (ts ++ [x])) by (by apply NoDup_app; split_and!; [|set_solver|apply NoDup_singleton]).
  case_bool_decide; [by apply addNew_spec|done].
Qed.
Lemma targets_nodup p : NoDup (endpointRuleTargets innerHops p).
Proof. apply addTarget_nodup, NoDup_nil_2. Qed.

Definition endpointIds (rules : list RouteRule) : list Z := map outboundID (List.filter isEndpointRule rules).
Definition others (rules : list RouteRule) : list RouteRule := List.filter (fun r => negb (isEndpointRule r)) rules.

Lemma keepRules_spec targets rules : forall paired kept paired', keepRules targets rules paired = (kept, paired') ->
  others kept = others rules /\ NoDup (endpointIds kept) /\ endpointIds kept ⊆ targets /\
  (forall id, id ∈ endpointIds kept -> id ∉ paired) /\ (forall id, id ∈ paired' <-> id ∈ paired \/ id ∈ endpointIds kept).
Proof.
  unfold endpointIds, others. induction rules as [|r rules IH]; intros paired kept paired'; cbn [keepRules].
  - intros [= <- <-]. cbn. split_and!; [done|by apply NoDup_nil_2|set_solver..].
  - cbn [List.filter]. destruct (isEndpointRule r) eqn:E; cbn [negb].
    + destruct (negb _ || _) eqn:S; [apply IH|].
      * destruct (keepRules targets rules (outboundID r :: paired)) as [k q] eqn:K. intros [= <- <-]. cbn [List.filter map]. rewrite E. cbn [negb map].
        destruct (IH _ _ _ K) as (H1 & H2 & H3 & H4 & H5). apply orb_false_iff in S as [S1 S2]. apply negb_false_iff, bool_decide_eq_true_1 in S1.
        apply bool_decide_eq_false_1 in S2. split_and!; [done|constructor; [|done]|set_solver|set_solver|intros id; rewrite H5; set_solver].
        intros Hin. apply (H4 _ Hin). left.
    + destruct (keepRules targets rules paired) as [k q] eqn:K. intros [= <- <-]. cbn [List.filter]. rewrite E. cbn [negb].
      destruct (IH _ _ _ K) as (H1 & H2 & H3 & H4 & H5). split_and!; [by rewrite H1|done..].
Qed.

Lemma keepRules_all targets rules : forall paired, NoDup (endpointIds rules) -> endpointIds rules ⊆ targets ->
  (forall id, id ∈ endpointIds rules -> id ∉ paired) -> (keepRules targets rules paired).1 = rules.
Proof.
  unfold endpointIds. induction rules as [|r rules IH]; intros paired N S D; cbn [keepRules]; [done|]. cbn [List.filter] in *.
  destruct (isEndpointRule r) eqn:E; cbn [map] in *.
  - apply NoDup_cons in N as [N1 N]. rewrite (bool_decide_true (_ ∈ targets)) by (apply S; left). rewrite (bool_decide_false (_ ∈ paired)) by (apply D; left).
    cbn [negb orb]. specialize (IH (outboundID r :: paired) N). destruct (keepRules targets rules (outboundID r :: paired)) as [k q].
    cbn [fst] in *. rewrite IH; [done|set_solver|]. intros id Hid. apply not_elem_of_cons. split; [by intros ->|]. apply D. by right.
  - specialize (IH paired N S D). destruct (keepRules targets rules paired) as [k q]. cbn [fst] in *. by rewrite IH.
Qed.

Definition synced (targets : list Z) (rules : list RouteRule) : list RouteRule :=
  let '(kept, paired) := keepRules targets rules [] in
  kept ++ map (MakeEndpointRule endpointName) (List.filter (fun id => negb (bool_decide (id ∈ paired))) targets).

Lemma new_rules ids : endpointIds (map (MakeEndpointRule endpointName) ids) = ids /\ others (map (MakeEndpointRule endpointName) ids) = [].
Proof.
  unfold endpointIds, others. induction ids as [|id ids [IH1 IH2]]; [done|]. cbn [map List.filter].
  assert (isEndpointRule (MakeEndpointRule endpointName id) = true) as -> by done. cbn [map negb]. by rewrite IH1, IH2.
Qed.
Lemma endpointIds_app a b : endpointIds (a ++ b) = endpointIds a ++ endpointIds b.
Proof. unfold endpointIds. by rewrite List.filter_app, map_app. Qed.

Lemma synced_spec targets rules : NoDup targets ->
  endpointIds (synced targets rules) ≡ₚ targets /\ others (synced targets rules) = others rules.
Proof.
  intros N. unfold synced. destruct (keepRules targets rules []) as [kept paired] eqn:K.
  destruct (keepRules_spec _ _ _ _ _ K) as (H1 & H2 & H3 & _ & H5). set (new := List.filter _ targets).
  assert (forall id, id ∈ new <-> id ∈ targets /\ id ∉ endpointIds kept) as Hn.
  { intros id. unfold new. rewrite list_elem_of_In, filter_In, <- list_elem_of_In, negb_true_iff, bool_decide_eq_false, H5. set_solver. }
  destruct (new_rules new) as [E1 E2]. split.
  - rewrite endpointIds_app, E1. apply NoDup_Permutation; [|done|].
    + apply NoDup_app. split_and!; [done|intros id Hid; rewrite Hn; tauto|]. by apply NoDup_ListNoDup, List.NoDup_filter, NoDup_ListNoDup.
    + intros id. rewrite elem_of_app, Hn. destruct (decide (id ∈ endpointIds kept)); set_solver.
  - unfold others in *. by rewrite List.filter_app, E2, app_nil_r.
Qed.

Lemma synced_again targets rules : NoDup targets -> endpointIds rules ≡ₚ targets -> synced targets rules = rules.
Proof.
  intros N P. unfold synced. pose proof (keepRules_all targets rules []) as A. destruct (keepRules targets rules []) as [kept paired] eqn:K.
  destruct (keepRules_spec _ _ _ _ _ K) as (_ & _ & _ & _ & H5). cbn [fst] in A.
  assert (kept = rules) as -> by (apply A; [by rewrite P|by rewrite P|set_solver]).
  enough (List.filter (fun id => negb (bool_decide (id ∈ paired))) targets = []) as -> by apply app_nil_r.
  apply elem_of_nil_inv. intros id [Hin Hp]%list_elem_of_In%filter_In. apply list_elem_of_In in Hin.
  apply negb_true_iff, bool_decide_eq_false_1 in Hp. apply Hp, H5. right. by rewrite P.
Qed.

(** C7: after a sync each target has exactly one endpoint rule, there is no other, and
    the rest of the rules are as they were; a second sync changes nothing. *)
Theorem sync_pairs_endpoints p : isRaw p = false ->
  let q := SyncEndpointRules innerHops endpointName p in
  endpointIds (Rules q) ≡ₚ endpointRuleTargets innerHops p /\ others (Rules q) = others (Rules p) /\
  SyncEndpointRules innerHops endpointName q = q.
Proof.
  intros Hr q. assert (forall p, isRaw p = false -> SyncEndpointRules innerHops endpointName p = set_Rules (synced (endpointRuleTargets innerHops p) (Rules p)) p) as E.
  { clear. intros p Hr. unfold SyncEndpointRules, synced. rewrite Hr. by destruct (keepRules _ (Rules p) []). }
  destruct (synced_spec (endpointRuleTargets innerHops p) (Rules p) (targets_nodup p)) as [S1 S2].
  assert (q = set_Rules (synced (endpointRuleTargets innerHops p) (Rules p)) p) as Eq by (by apply E).
  rewrite (E q), Eq by (by rewrite Eq). cbn [Rules set_Rules]. split_and!; [done|done|].
  unfold set_Rules at 1 4. cbn. f_equal. apply synced_again; [apply targets_nodup|done].
Qed.
End SyncFacts.

Lemma sync_pairs_endpoints_witness :
  let p := MkRoute [MakeEndpointRule (fun _ => []) 9; newRule; MakeEndpointRule (fun _ => []) 6] (-1) false [] false [6; 7] [6] in
  let inner (id : Z) := if id =? 6 then [8] else [] in
  isRaw p = false /\ endpointIds (Rules (SyncEndpointRules inner (fun _ => []) p)) ≡ₚ [6; 8; 7].
Proof. split; [reflexivity|]. exact (proj1 (sync_pairs_endpoints (fun id => if id =? 6 then [8] else []) (fun _ => [])
  (MkRoute [MakeEndpointRule (fun _ => []) 9; newRule; MakeEndpointRule (fun _ => []) 6] (-1) false [] false [6; 7] [6]) eq_refl)). Defined.
