(* ===== verification/ConfigPrerequisites.v ===== *)
(** * What a routing profile needs of a build (src/src/configs/generate.cpp)

    [calculatePrerequisites]: the outbounds that rules name and the endpoints of the
    routing profile are resolved to chains before anything is built; a profile that
    is gone or cannot serve there ends the build with its reason. The DNS selectors
    and the private ranges of the Tun are left out. *)

From Stdlib Require Import Ascii String.
From S2P Require Import Prelude QtText Json Lists AutoSelector ConfigChains ConfigHops ConfigPath ConfigGrowth ConfigOutbounds ConfigSections.
From S2P Require Import RouteRules RouteProfiles.

Local Open Scope Z_scope.
#[local] Set Warnings "-register-all".

(** ** Inputs *)

(** [routeProfile] is the profile of the build's route; [typeAndName] names a
    profile in an error. *)
Record PrerequisitesEnv := MkPrereqEnv {
  routeProfile : option RouteProfile;
  warpConfigured : bool;
  parseObject : qstring -> QJsonObject;
  typeAndName : Profile -> qstring }.

Section Prerequisites.
Context (env : BuildEnv) (set : OutboundsEnv) (pre : PrerequisitesEnv).

Definition usesXrayCore (p : Profile) : bool := IsXray p || IsXrayFullConfig p.
Definition isChain (p : Profile) : bool := bool_decide (p_type p = qs "chain").
Definition isTunnel (p : Profile) : bool := bool_decide (p_type p = qs "openvpn") || bool_decide (p_type p = qs "openconnect").
Definition unroutable (p : Profile) : bool := IsExtraCore p || customFullConfig p || IsXrayFullConfig p.

Definition groupProxyIDs (gid : Z) : list Z :=
  match getGroup env gid with
  | None => []
  | Some g => (if 0 <=? front_proxy_id g then [front_proxy_id g] else []) ++ (if 0 <=? landing_proxy_id g then [landing_proxy_id g] else [])
  end.
(** The proxies of the groups of the members, each once. *)
Definition memberGroupProxyIDs (memberIDs : list Z) : list Z :=
  (fold_left (fun '(groups, ids) pid =>
     match getProfile env pid with
     | None => (groups, ids)
     | Some member =>
         if bool_decide (p_gid member ∈ groups) then (groups, ids)
         else (p_gid member :: groups, fold_left addNew (groupProxyIDs (p_gid member)) ids)
     end) memberIDs (@nil Z, [])).2.

Definition anyUsesXray (ids : list Z) : bool := existsb (fun id => match getProfile env id with Some p => usesXrayCore p | None => false end) ids.
Definition proxyPathUsesXray (p : Profile) : bool :=
  if isChain p then anyUsesXray (default [] (p_chain p))
  else if bool_decide (p_type p = qs "autoselector") then
    anyUsesXray (plan set p).1 || anyUsesXray (memberGroupProxyIDs (plan set p).1)
  else usesXrayCore p.

(** ** Outbounds of rules *)

(** The map of tags, the chains to build, the next suffix, and whether a hop runs
    on Xray. *)
Record RouteNeeds := MkNeeds { n_map : gmap Z qstring; n_groups : list RouteOutboundGroup; n_suffix : Z; n_xray : bool }.

(** The hops of a chain, [None] where a profile is missing. *)
Fixpoint checkHops (hops : list Z) : BuildError + bool :=
  match hops with
  | [] => inr false
  | hopID :: hops =>
      match getProfile env hopID with
      | None => inl ChainOutboundMissing
      | Some hop => if unroutable hop || isChain hop then inl ForbiddenChainHop
                    else match checkHops hops with inl e => inl e | inr x => inr (usesXrayCore hop || x) end
      end
  end.

Definition needOutbound (item : Z) (st : RouteNeeds) : BuildError + RouteNeeds :=
  if item <? 0 then inr st
  else match getProfile env item with
  | None => inl MissingOutbounds
  | Some p =>
      if unroutable p then inl ForbiddenOutbound
      else
        let tag := hopTag routeChainPrefix (n_suffix st) in
        if isChain p then
          match p_chain p with
          | None | Some [] => inl EmptyChainOutbound
          | Some hops =>
              match checkHops hops with
              | inl e => inl e
              | inr x => inr (MkNeeds (<[item := tag]> (n_map st)) (n_groups st ++ [MkRouteGroup (rev hops) (Some p)]) (n_suffix st + qsize hops) (n_xray st || x))
              end
          end
        else inr (MkNeeds (<[item := tag]> (n_map st)) (n_groups st ++ [MkRouteGroup [item] None]) (n_suffix st + 1) (n_xray st || usesXrayCore p))
  end.
Fixpoint needOutbounds (items : list Z) (st : RouteNeeds) : BuildError + RouteNeeds :=
  match items with
  | [] => inr st
  | item :: items => match needOutbound item st with inl e => inl e | inr st => needOutbounds items st end
  end.

(** ** Endpoints of the routing profile *)

Record EndpointNeeds := MkEndpoints { e_used : list Z; e_map : gmap Z qstring; e_groups : list AuxEndpointGroup; e_suffix : Z }.

Fixpoint checkEndpointHops (used : list Z) (name : qstring) (hops : list Z) : option BuildError :=
  match hops with
  | [] => None
  | hopID :: hops =>
      match getProfile env hopID with
      | None => Some (EndpointHopMissing name)
      | Some hop =>
          if unroutable hop || isChain hop then Some (ForbiddenEndpointHop name)
          else if usesXrayCore hop then Some (XrayEndpointHop name)
          else if bool_decide (hopID ∈ used) then Some (EndpointAlsoUsed (typeAndName pre hop))
          else checkEndpointHops used name hops
      end
  end.

(** The inner hops that are tunnels, by index, and their tags in the map. *)
Definition innerTunnels (hops : list Z) : list nat :=
  List.filter (fun i => match hops !! i ≫= getProfile env with Some hop => isTunnel hop | None => false end) (seq 1 (length hops - 1)).
Definition nameInnerHops (suffix : Z) (hops : list Z) (idxs : list nat) (m : gmap Z qstring) : gmap Z qstring :=
  fold_left (fun m i => match hops !! i with Some hop => <[hop := hopTag auxEndpointPrefix (suffix + Z.of_nat i)]> m | None => m end) idxs m.

Definition needEndpoint (inner : list Z) (endpointID : Z) (st : EndpointNeeds) : BuildError + EndpointNeeds :=
  match getProfile env endpointID with
  | None => inl (MissingEndpoint endpointID)
  | Some endpoint =>
      let name := typeAndName pre endpoint in
      let hops := unwrapChain env endpointID in
      match hops with
      | [] => inl (EmptyEndpoint name)
      | first :: _ =>
          match getProfile env first with
          | None => inl (EndpointHopMissing name)
          | Some exit =>
              if negb (isTunnel exit) then inl (EndpointNotTunnel name)
              else match checkEndpointHops (e_used st) name hops with
              | Some e => inl e
              | None =>
                  if bool_decide (endpointID ∈ e_used st) then inl (EndpointTwice name)
                  else
                    let idxs := if bool_decide (endpointID ∈ inner) then innerTunnels hops else [] in
                    let m := nameInnerHops (e_suffix st) hops idxs (e_map st) in
                    inr (MkEndpoints (e_used st ++ endpointID :: hops) (<[endpointID := hopTag auxEndpointPrefix (e_suffix st)]> m)
                           (e_groups st ++ [MkAuxGroup hops (map Z.of_nat idxs) (Some endpoint)]) (e_suffix st + qsize hops))
              end
          end
      end
  end.
Fixpoint needEndpoints (inner : list Z) (ids : list Z) (st : EndpointNeeds) : BuildError + EndpointNeeds :=
  match ids with
  | [] => inr st
  | id :: ids => match needEndpoint inner id st with inl e => inl e | inr st => needEndpoints inner ids st end
  end.

(** Which profiles can be endpoints, and the inner hops of one. *)
Definition CanBeAuxEndpoint (p : Profile) : bool :=
  isTunnel p || (isChain p && match unwrapChain env (p_id p) with
                              | first :: _ => match getProfile env first with Some exit => isTunnel exit | None => false end
                              | [] => false
                              end).
Definition AuxEndpointInnerHops (endpointID : Z) : list Z :=
  match getProfile env endpointID with
  | None => []
  | Some p =>
      if negb (isChain p) || negb (CanBeAuxEndpoint p) then []
      else List.filter (fun hopID => match getProfile env hopID with Some hop => isTunnel hop | None => false end) (tail (unwrapChain env endpointID))
  end.

(** The profiles that no endpoint may use: those of the rules, of the started
    profile and of its group. *)
Definition usedProfiles (p : Profile) (groups : list RouteOutboundGroup) : list Z :=
  concat (map rg_hopIDs groups) ++ unwrapChain env (p_id p) ++
  (if bool_decide (p_type p = qs "autoselector") then memberGroupProxyIDs (plan set p).1 else groupProxyIDs (p_gid p)).

(** ** The prerequisites *)

Definition builtinTags : gmap Z qstring :=
  <[warpBypassID := if enable_warp set then tagWarpBypass else tagProxy]> (<[directID := tagDirect]> (<[proxyID := tagProxy]> ∅)).

Definition resolveExtraCoreProfile (p : Profile) : option Profile :=
  if IsExtraCore p then Some p
  else if negb (isChain p) then None
  else match p_chain p with
       | Some (id :: _) => match getProfile env id with Some first => if IsExtraCore first then Some first else None | None => None end
       | _ => None
       end.

Definition calculatePrerequisites (c : BuildContext) : BuildContext * RoutingDeps :=
  let none := MkRouting ∅ [] [] in
  match routeProfile pre with
  | None => (fail NoRoutingProfile c, none)
  | Some route =>
      if enable_warp set && negb (warpConfigured pre) then (fail WarpNotConfigured c, none)
      else
        match needOutbounds (get_used_outbounds (parseObject pre) route) (MkNeeds builtinTags [] 0 (proxyPathUsesXray (ent c))) with
        | inl e => (fail e c, none)
        | inr n =>
            match needEndpoints (innerHopEndpointIDs route) (endpointProfileIDs route) (MkEndpoints (usedProfiles (ent c) (n_groups n)) (n_map n) [] 0) with
            | inl e => (fail e c, none)
            | inr e =>
                let groupXray := negb (bool_decide (p_type (ent c) = qs "autoselector")) && anyUsesXray (groupProxyIDs (p_gid (ent c))) in
                (set_proxyUsesXray (proxyUsesXray c || n_xray n || groupXray) c, MkRouting (e_map e) (n_groups n) (e_groups e))
            end
        end
  end.
End Prerequisites.

(** ** What the outbounds of rules become *)

Section Needed.
Context (env : BuildEnv) (set : OutboundsEnv) (pre : PrerequisitesEnv).

Lemma chainWays_app p a b s : chainWays p (a ++ b) s = chainWays p a s ++ chainWays p b (s + spanOf a).
Proof.
  revert s. induction a as [|ids a IH]; intros s; cbn; [by rewrite Z.add_0_r|]. by rewrite IH, Z.add_assoc.
Qed.
Lemma spanOf_app a b : spanOf (a ++ b) = spanOf a + spanOf b.
Proof. induction a as [|ids a IH]; cbn; lia. Qed.

(** The tag that the map has for an id leads, in the chains of the groups, through
    the hops of that profile. *)
Definition wayTo (p : qstring) (groups : list (list Z)) (s : Z) (m : gmap Z qstring) (id : Z) : Prop :=
  exists tag, m !! id = Some tag /\ (tag, unwrapChain env id) ∈ chainWays p groups s.

Record Needed (items : list Z) (st st' : RouteNeeds) (gs : list RouteOutboundGroup) : Prop := {
  ne_groups : n_groups st' = n_groups st ++ gs;
  ne_suffix : n_suffix st' = n_suffix st + spanOf (map rg_hopIDs gs);
  ne_some : Forall (fun ids => ids <> []) (map rg_hopIDs gs);
  ne_ways : forall id, (id ∈ items /\ 0 <= id /\ wayTo routeChainPrefix (map rg_hopIDs gs) (n_suffix st) (n_map st') id) \/
                       (~ (id ∈ items /\ 0 <= id) /\ n_map st' !! id = n_map st !! id) }.

Lemma qsize_rev {A} (l : list A) : qsize (rev l) = qsize l.
Proof. unfold qsize. by rewrite length_rev. Qed.

Lemma needOutbound_spec item st st' : needOutbound env item st = inr st' ->
  (item < 0 /\ st' = st) \/
  (0 <= item /\ unwrapChain env item <> [] /\ exists w x,
     st' = MkNeeds (<[item := hopTag routeChainPrefix (n_suffix st)]> (n_map st)) (n_groups st ++ [MkRouteGroup (unwrapChain env item) w])
             (n_suffix st + qsize (unwrapChain env item)) x).
Proof.
  unfold needOutbound, unwrapChain, isChain. destruct (Z.ltb_spec item 0) as [Hn|Hn]; [intros [= <-]; by left|]. intros H. right. split; [done|].
  destruct (getProfile env item) as [p|]; [|done]. destruct (unroutable p); [done|]. destruct (bool_decide (p_type p = qs "chain")) eqn:E.
  - destruct (p_chain p) as [[|h hops]|] eqn:Ec; [done| |done]. destruct (checkHops env (h :: hops)); [done|]. injection H as <-. cbn [default]. split.
    + intros Hr. apply (f_equal length) in Hr. by rewrite length_rev in Hr.
    + rewrite qsize_rev. by eexists _, _.
  - injection H as <-. split; [done|]. by eexists _, _.
Qed.

Lemma needOutbounds_spec items : forall st st', needOutbounds env items st = inr st' -> exists gs, Needed items st st' gs.
Proof.
  induction items as [|item items IH]; intros st st'; cbn [needOutbounds].
  { intros [= <-]. exists []. split; cbn; rewrite ?app_nil_r; try done; [lia|]. intros id. right. split; [set_solver|done]. }
  destruct (needOutbound env item st) as [e|st1] eqn:E1; [done|]. intros H. destruct (IH _ _ H) as [gs [G1 G2 G3 G4]].
  destruct (needOutbound_spec _ _ _ E1) as [(Hn & ->)|(Hn & Hids & w & x & ->)].
  - exists gs. split; [done..|]. intros id. destruct (G4 id) as [(Hi & Hp & W)|(Hi & W)]; [left; set_solver|right]. split; [|done].
    intros [[->|Hin]%elem_of_cons Hp]; [lia|]. by apply Hi.
  - cbn [n_map n_groups n_suffix] in *. exists (MkRouteGroup (unwrapChain env item) w :: gs).
    split; cbn [map spanOf rg_hopIDs]; [by rewrite G1, <- app_assoc|lia|by constructor|]. intros id. destruct (G4 id) as [(Hi & Hp & tag & Ht & W)|(Hi & W)].
    + left. split_and!; [by right|done|]. exists tag. split; [done|]. cbn [chainWays]. by right.
    + destruct (decide (id = item)) as [->|Hne].
      * left. split_and!; [left|done|]. eexists. rewrite W, lookup_insert_eq. split; [done|]. cbn [chainWays]. left.
      * right. split; [set_solver|]. by rewrite W, lookup_insert_ne.
Qed.

(** ** What the endpoints become *)

Lemma checkEndpointHops_spec used name hops : checkEndpointHops env pre used name hops = None ->
  Forall (fun id => exists p, getProfile env id = Some p /\ unroutable p = false /\ isChain p = false /\ usesXrayCore p = false /\ id ∉ used) hops.
Proof.
  induction hops as [|id hops IH]; cbn; [constructor|]. destruct (getProfile env id) as [p|] eqn:E; [|done].
  destruct (unroutable p || isChain p) eqn:U; [done|]. destruct (usesXrayCore p) eqn:X; [done|]. case_bool_decide as Hu; [done|]. intros H.
  apply orb_false_iff in U as [U1 U2]. constructor; [by exists p|by apply IH].
Qed.

(** What the map gets of one endpoint: its own tag and those of its inner hops. *)
Definition innerOf (hops : list Z) (s : Z) (id : Z) (tag : qstring) : Prop :=
  exists i, hops !! i = Some id /\ tag = hopTag auxEndpointPrefix (s + Z.of_nat i).

Lemma nameInnerHops_spec s hops idxs : forall m id,
  nameInnerHops s hops idxs m !! id = m !! id \/ exists tag, nameInnerHops s hops idxs m !! id = Some tag /\ innerOf hops s id tag.
Proof.
  induction idxs as [|i idxs IH]; intros m id; [by left|]. unfold nameInnerHops. cbn [fold_left].
  destruct (hops !! i) as [hop|] eqn:E; [|apply IH].
  destruct (IH (<[hop:=hopTag auxEndpointPrefix (s + Z.of_nat i)]> m) id) as [H|H]; [|by right]. unfold nameInnerHops in H. rewrite H. destruct (decide (id = hop)) as [->|Hne].
  - right. rewrite lookup_insert_eq. eexists. split; [done|]. by exists i.
  - left. by apply lookup_insert_ne.
Qed.

(** An id that the endpoints gave a tag: a tag of their chains, of hops that were
    free before. *)
Definition newlyNamed (used : list Z) (lo hi : Z) (m : gmap Z qstring) (id : Z) : Prop :=
  exists tag, m !! id = Some tag /\ prefixed auxEndpointPrefix lo hi tag /\ unwrapChain env id <> [] /\ Forall (fun hop => hop ∉ used) (unwrapChain env id).

Record Endpoints (ids : list Z) (st st' : EndpointNeeds) (gs : list AuxEndpointGroup) : Prop := {
  ep_groups : e_groups st' = e_groups st ++ gs;
  ep_suffix : e_suffix st' = e_suffix st + spanOf (map ag_hopIDs gs);
  ep_used : e_used st ⊆ e_used st';
  ep_taken : forall id, id ∈ ids -> unwrapChain env id <> [] /\ unwrapChain env id ⊆ e_used st';
  ep_some : Forall (fun ids => ids <> []) (map ag_hopIDs gs);
  ep_sing : Forall (Forall (fun id => exists p, getProfile env id = Some p /\ usesXrayCore p = false)) (map ag_hopIDs gs);
  ep_inner : Forall (fun g => Forall (fun i => 0 <= i < qsize (ag_hopIDs g)) (innerHopIndexes g)) gs;
  ep_map : forall id, e_map st' !! id = e_map st !! id \/ newlyNamed (e_used st) (e_suffix st) (e_suffix st') (e_map st') id;
  ep_ways : forall id, id ∈ ids -> wayTo auxEndpointPrefix (map ag_hopIDs gs) (e_suffix st) (e_map st') id }.

Lemma newlyNamed_mono used used' lo hi lo' hi' m id : used ⊆ used' -> lo' <= lo -> hi <= hi' -> newlyNamed used' lo hi m id -> newlyNamed used lo' hi' m id.
Proof.
  intros Hu Hl Hh (tag & Hm & (k & Hk & ->) & Hne & Hf). exists (hopTag auxEndpointPrefix k). split_and!; [done|exists k; split; [lia|done]|done|].
  eapply Forall_impl; [exact Hf|]. cbn. intros hop Hn Hin. apply Hn, Hu, Hin.
Qed.

Lemma Endpoints_trans a b st st1 st2 g1 g2 : Endpoints a st st1 g1 -> Endpoints b st1 st2 g2 -> Endpoints (a ++ b) st st2 (g1 ++ g2).
Proof.
  intros [A1 A2 A3 A4 A5 A6 A7 A8 A9] [B1 B2 B3 B4 B5 B6 B7 B8 B9]. pose proof (spanOf_nonneg (map ag_hopIDs g1)). pose proof (spanOf_nonneg (map ag_hopIDs g2)).
  split; rewrite ?map_app, ?spanOf_app, ?Forall_app; try done.
  - by rewrite B1, A1, app_assoc.
  - lia.
  - set_solver.
  - intros id [Hi|Hi]%elem_of_app; [|by apply B4]. destruct (A4 id Hi). split; [done|set_solver].
  - intros id. destruct (B8 id) as [E|E].
    + rewrite E. destruct (A8 id) as [E'|(tag & Hm & Hn)]; [by left|right]. apply (newlyNamed_mono (e_used st) (e_used st) (e_suffix st) (e_suffix st1)); [done|lia|lia|].
      exists tag. by rewrite E.
    + right. apply (newlyNamed_mono (e_used st) (e_used st1) (e_suffix st1) (e_suffix st2)); [done|lia|lia|done].
  - intros id. unfold wayTo. rewrite elem_of_app, chainWays_app. intros [Hi|Hi].
    + destruct (A9 id Hi) as (tag & Hm & Hw). exists tag. split; [|by apply elem_of_app; left]. destruct (B8 id) as [E|(_ & _ & _ & Hne & Hf)]; [by rewrite E|].
      exfalso. destruct (A4 id Hi) as [_ Hu]. destruct (unwrapChain env id) as [|hop hops]; [done|]. apply Forall_cons in Hf as [Hf _]. apply Hf, Hu. left.
    + destruct (B9 id Hi) as (tag & Hm & Hw). exists tag. split; [done|]. apply elem_of_app. right. by rewrite <- A2.
Qed.

Lemma needEndpoint_spec inner id st st' : needEndpoint env pre inner id st = inr st' -> exists gs, Endpoints [id] st st' gs.
Proof.
  unfold needEndpoint. destruct (getProfile env id) as [p|] eqn:Ep; [|done]. set (hops := unwrapChain env id). destruct hops as [|first rest] eqn:Eh; [done|].
  destruct (getProfile env first) as [exit|]; [|done]. destruct (negb (isTunnel exit)); [done|].
  destruct (checkEndpointHops _ _ _ _ _) eqn:Ec; [done|]. rewrite <- Eh in *. case_bool_decide as Hu; [done|]. intros [= <-].
  set (idxs := if bool_decide (id ∈ inner) then innerTunnels env hops else []). apply checkEndpointHops_spec in Ec. rewrite Forall_forall in Ec.
  assert (Forall (fun i => (0 <= i < length hops)%nat) idxs) as Hidx.
  { unfold idxs. destruct (bool_decide _); [|constructor]. apply Forall_forall. intros i [Hi _]%list_elem_of_In%filter_In. apply in_seq in Hi. lia. }
  assert (forall hop, hop ∈ hops -> unwrapChain env hop = [hop]) as Hunwrap.
  { intros hop Hin. destruct (Ec hop Hin) as (q & Eq & _ & Hq & _). unfold unwrapChain. rewrite Eq. unfold isChain in Hq. by rewrite Hq. }
  eexists [_]. split; cbn [map ag_hopIDs spanOf innerHopIndexes e_groups e_suffix e_used e_map].
  - done.
  - by rewrite Z.add_0_r.
  - set_solver.
  - intros ? ->%list_elem_of_singleton. fold hops. split; [by rewrite Eh|]. set_solver.
  - constructor; [by rewrite Eh|constructor].
  - constructor; [|constructor]. apply Forall_forall. intros hop Hin. destruct (Ec hop Hin) as (q & Eq & _ & _ & Hx & _). by exists q.
  - constructor; [|constructor]. apply Forall_fmap. eapply Forall_impl; [exact Hidx|]. cbn. unfold qsize. intros i Hi. lia.
  - intros id'. destruct (decide (id' = id)) as [->|Hne].
    + right. eexists. rewrite lookup_insert_eq. split_and!; [done|exists (e_suffix st); split; [|done]|fold hops; by rewrite Eh|].
      * rewrite Eh. unfold qsize. cbn [length]. lia.
      * fold hops. apply Forall_forall. intros hop Hin. by destruct (Ec hop Hin) as (q & _ & _ & _ & _ & Hn).
    + destruct (nameInnerHops_spec (e_suffix st) hops idxs (e_map st) id') as [E|(tag & E & i & Hi & ->)]; [left; by rewrite lookup_insert_ne|right].
      pose proof (list_elem_of_lookup_2 _ _ _ Hi) as Hin. apply lookup_lt_Some in Hi. eexists. rewrite lookup_insert_ne by done. rewrite E.
      split_and!; [done|eexists; split; [|done]; unfold qsize; lia|by rewrite Hunwrap|]. rewrite Hunwrap by done. constructor; [|constructor].
      by destruct (Ec id' Hin) as (q & _ & _ & _ & _ & Hn).
  - intros ? ->%list_elem_of_singleton. eexists. rewrite lookup_insert_eq. split; [done|]. cbn [chainWays]. left.
Qed.

Lemma Endpoints_nil st : Endpoints [] st st [].
Proof. split; cbn; rewrite ?app_nil_r; try done; [lia|intros id H; by apply elem_of_nil in H|by left|intros id H; by apply elem_of_nil in H]. Qed.
Lemma needEndpoints_spec inner ids : forall st st', needEndpoints env pre inner ids st = inr st' -> exists gs, Endpoints ids st st' gs.
Proof.
  induction ids as [|id ids IH]; intros st st'; cbn [needEndpoints]; [intros [= <-]; exists []; apply Endpoints_nil|].
  destruct (needEndpoint env pre inner id st) as [e|st1] eqn:E; [done|]. intros H. destruct (needEndpoint_spec _ _ _ _ E) as [g1 G1].
  destruct (IH _ _ H) as [g2 G2]. exists (g1 ++ g2). by apply (Endpoints_trans [id] ids st st1).
Qed.
End Needed.

(** ** The inner hops of endpoints *)

Section Inner.
Context (env : BuildEnv) (pre : PrerequisitesEnv).

Lemma nameInnerHops_grows s hops idxs : forall m id, is_Some (m !! id) -> is_Some (nameInnerHops s hops idxs m !! id).
Proof.
  induction idxs as [|i idxs IH]; intros m id H; [done|]. unfold nameInnerHops. cbn [fold_left]. fold (nameInnerHops s hops idxs (match hops !! i with
    Some hop => <[hop := hopTag auxEndpointPrefix (s + Z.of_nat i)]> m | None => m end)).
  apply IH. destruct (hops !! i) as [hop|]; [|done]. by apply lookup_insert_is_Some'; right.
Qed.
Lemma nameInnerHops_names s hops idxs : forall m i hop, i ∈ idxs -> hops !! i = Some hop -> is_Some (nameInnerHops s hops idxs m !! hop).
Proof.
  induction idxs as [|j idxs IH]; intros m i hop Hi Hh; [by apply elem_of_nil in Hi|]. unfold nameInnerHops. cbn [fold_left].
  fold (nameInnerHops s hops idxs (match hops !! j with Some hop => <[hop := hopTag auxEndpointPrefix (s + Z.of_nat j)]> m | None => m end)).
  apply elem_of_cons in Hi as [<-|Hi]; [|by eapply IH]. rewrite Hh. apply nameInnerHops_grows. rewrite lookup_insert_eq. by eexists.
Qed.

Lemma inner_tunnels_all id hop : hop ∈ AuxEndpointInnerHops env id -> exists i, i ∈ innerTunnels env (unwrapChain env id) /\ unwrapChain env id !! i = Some hop.
Proof.
  unfold AuxEndpointInnerHops. destruct (getProfile env id) as [p|]; [|by intros ?%elem_of_nil]. destruct (_ || _); [by intros ?%elem_of_nil|].
  intros [Hin Ht]%list_elem_of_In%filter_In. apply list_elem_of_In, list_elem_of_lookup in Hin as [i Hi]. rewrite lookup_tail in Hi. exists (S i). split; [|done].
  unfold innerTunnels. apply list_elem_of_In, filter_In. pose proof (lookup_lt_Some _ _ _ Hi). split; [apply in_seq; lia|]. by rewrite Hi.
Qed.

(** Every inner hop that a rule may stand for has a tag. *)
Lemma needEndpoints_inner inner ids : forall st st' id hop, needEndpoints env pre inner ids st = inr st' -> id ∈ ids -> id ∈ inner ->
  hop ∈ AuxEndpointInnerHops env id -> is_Some (e_map st' !! hop).
Proof.
  induction ids as [|x ids IH]; intros st st' id hop; [by intros _ ?%elem_of_nil|]. cbn [needEndpoints].
  destruct (needEndpoint env pre inner x st) as [e|st1] eqn:E; [done|]. intros H [->|Hin]%elem_of_cons Hi Hh; [|by eapply IH].
  assert (is_Some (e_map st1 !! hop)) as [tag Ht].
  { apply inner_tunnels_all in Hh as (i & Hidx & Hl). revert E. unfold needEndpoint. destruct (getProfile env x) as [p|]; [|done].
    destruct (unwrapChain env x) as [|first rest] eqn:Eh; [done|]. destruct (getProfile env first); [|done]. destruct (negb _); [done|].
    destruct (checkEndpointHops _ _ _ _ _); [done|]. rewrite (bool_decide_true (x ∈ inner)) by done. case_bool_decide; [done|]. intros [= <-]. cbn [e_map].
    apply lookup_insert_is_Some'. right. by eapply nameInnerHops_names. }
  apply needEndpoints_spec in H as [gs [_ _ _ _ _ _ _ M _]]. destruct (M hop) as [->|(tag' & -> & _)]; by eexists.
Qed.
End Inner.

(** ** What the prerequisites promise *)

Section Promise.
Context (env : BuildEnv) (set : OutboundsEnv) (pre : PrerequisitesEnv).

(** A tag of the map: built in, of a chain that a rule names, or of an endpoint. *)
Definition mappedTag (deps : RoutingDeps) (tag : qstring) : Prop :=
  (exists id, builtinTags set !! id = Some tag) \/ (exists ids, (tag, ids) ∈ chainWays routeChainPrefix (routeHops deps) 0) \/
  prefixed auxEndpointPrefix 0 (spanOf (auxHops deps)) tag.

Record Promised (route : RouteProfile) (deps : RoutingDeps) : Prop := {
  pr_routes : Forall (fun ids => ids <> []) (routeHops deps);
  pr_aux : Forall (fun ids => ids <> []) (auxHops deps);
  pr_sing : Forall (Forall (fun id => exists p, getProfile env id = Some p /\ usesXrayCore p = false)) (auxHops deps);
  pr_inner : Forall (fun g => Forall (fun i => 0 <= i < qsize (ag_hopIDs g)) (innerHopIndexes g)) (auxEndpointGroups deps);
  pr_used : forall id, id ∈ get_used_outbounds (parseObject pre) route -> 0 <= id -> wayTo env routeChainPrefix (routeHops deps) 0 (outboundMap deps) id;
  pr_endpoints : forall id, id ∈ endpointProfileIDs route -> wayTo env auxEndpointPrefix (auxHops deps) 0 (outboundMap deps) id;
  pr_inner_named : forall id hop, id ∈ endpointProfileIDs route -> id ∈ innerHopEndpointIDs route -> hop ∈ AuxEndpointInnerHops env id ->
    is_Some (outboundMap deps !! hop);
  pr_map : forall id tag, outboundMap deps !! id = Some tag -> mappedTag deps tag;
  pr_builtin : forall id, is_Some (builtinTags set !! id) -> is_Some (outboundMap deps !! id) }.

Lemma chainWays_hops p groups s tag ids : (tag, ids) ∈ chainWays p groups s -> ids ∈ groups.
Proof.
  revert s. induction groups as [|g groups IH]; intros s; cbn; [by intros ?%elem_of_nil|].
  intros [[= _ ->]|H]%elem_of_cons; [left|right; by eapply IH].
Qed.

Lemma prerequisites_promise c c' deps : errors c = [] -> calculatePrerequisites env set pre c = (c', deps) -> errors c' = [] ->
  (exists x, c' = set_proxyUsesXray x c) /\ exists route, routeProfile pre = Some route /\ Promised route deps.
Proof.
  unfold calculatePrerequisites. destruct (routeProfile pre) as [route|]; [|by intros _ [= <- <-]]. intros Hc.
  destruct (enable_warp set && negb (warpConfigured pre)); [by intros [= <- <-]|].
  destruct (needOutbounds env _ _) as [e|n] eqn:En; [by intros [= <- <-]|]. destruct (needEndpoints env pre _ _ _) as [e|e] eqn:Ee; [by intros [= <- <-]|].
  intros [= <- <-] _. split; [by eexists|]. exists route. split; [done|]. apply needOutbounds_spec in En as [gs [G1 G2 G3 G4]].
  pose proof (fun id hop => needEndpoints_inner env pre _ _ _ _ id hop Ee) as Hinner.
  apply needEndpoints_spec in Ee as [as_ [A1 A2 A3 A4 A5 A6 A7 A8 A9]]. cbn [n_groups n_suffix n_map e_used e_suffix e_map e_groups app] in *.
  assert (forall ids, ids ∈ map rg_hopIDs (n_groups n) -> ids ⊆ usedProfiles env set (ent c) (n_groups n)) as Hfree.
  { intros ids Hin hop Hh. unfold usedProfiles. apply elem_of_app. left. apply list_elem_of_In, in_concat. exists ids. by rewrite <- !list_elem_of_In. }
  unfold routeHops, auxHops. split; cbn [routeOutboundGroups auxEndpointGroups outboundMap routeHops auxHops].
  - by rewrite G1.
  - by rewrite A1.
  - by rewrite A1.
  - by rewrite A1.
  - intros id Hi Hp. rewrite G1. destruct (G4 id) as [(_ & _ & tag & Ht & Hw)|([] & _)]; [|done]. exists tag. split; [|done].
    destruct (A8 id) as [->|(_ & _ & _ & Hne & Hf)]; [done|]. exfalso. apply chainWays_hops in Hw. rewrite <- G1 in Hw.
    specialize (Hfree _ Hw). destruct (unwrapChain env id) as [|hop hops]; [done|]. apply Forall_cons in Hf as [Hf _]. apply Hf, Hfree. left.
  - intros id Hi. rewrite A1. by apply A9.
  - done.
  - intros id tag Ht. unfold mappedTag. cbn [routeOutboundGroups auxEndpointGroups]. unfold routeHops, auxHops. cbn [routeOutboundGroups auxEndpointGroups].
    rewrite A1, G1. destruct (A8 id) as [E|(tag' & E & Hp & _)].
    + rewrite E in Ht. destruct (G4 id) as [(_ & _ & tag' & E' & Hw)|(_ & E')]; rewrite E' in Ht; [injection Ht as ->; right; left; by eexists|left; by eexists].
    + rewrite E in Ht. injection Ht as ->. right; right. rewrite A2 in Hp. exact Hp.
  - intros id Hb. destruct (A8 id) as [->|(tag & -> & _)]; [|by eexists]. destruct (G4 id) as [(_ & _ & tag & -> & _)|(_ & ->)]; [by eexists|done].
Qed.

(** The targets an endpoint adds: itself, or itself and its inner hops. *)
Lemma addTarget_elem inner innerEndpoints ts x id : id ∈ addTarget inner innerEndpoints ts x ->
  id ∈ ts \/ id = x \/ (x ∈ innerEndpoints /\ id ∈ inner x).
Proof.
  unfold addTarget. case_bool_decide; [by left|]. case_bool_decide as Hx; [|set_solver].
  enough (id ∈ ts ++ [x] \/ id ∈ inner x -> id ∈ ts \/ id = x \/ (x ∈ innerEndpoints /\ id ∈ inner x)) as Hw.
  { intros Hin. apply Hw. clear Hw. revert Hin. generalize (ts ++ [x]). induction (inner x) as [|y l IH]; intros acc; cbn [fold_left]; [by left|].
    intros Hin. apply IH in Hin as [Hin|Hin]; [|right; by right]. unfold addNew in Hin. case_bool_decide; set_solver. }
  set_solver.
Qed.

(** Once the prerequisites are met every endpoint rule of a synced profile has the
    tag of its endpoint or inner hop, so none is skipped. *)
Theorem endpoint_rules_have_tags c c' deps route : errors c = [] -> calculatePrerequisites env set pre c = (c', deps) -> errors c' = [] ->
  routeProfile pre = Some route -> forall id, id ∈ endpointRuleTargets (AuxEndpointInnerHops env) route -> is_Some (outboundMap deps !! id).
Proof.
  intros Hc H He Hr. destruct (prerequisites_promise c c' deps Hc H He) as (_ & route' & Hr' & P). rewrite Hr in Hr'. injection Hr' as <-.
  assert (forall ids ts, ids ⊆ endpointProfileIDs route -> (forall id, id ∈ ts -> is_Some (outboundMap deps !! id)) ->
    forall id, id ∈ fold_left (addTarget (AuxEndpointInnerHops env) (innerHopEndpointIDs route)) ids ts -> is_Some (outboundMap deps !! id)) as Hfold.
  { induction ids as [|x ids IH]; intros ts Hsub Hts; [done|]. cbn [fold_left]. apply IH; [set_solver|].
    assert (x ∈ endpointProfileIDs route) as Hx by set_solver. destruct (pr_endpoints _ _ P x Hx) as (tag & Ht & _).
    intros id [Hin|[->|[Hi Hin]]]%addTarget_elem; [by apply Hts|by eexists|by eapply (pr_inner_named _ _ P x)]. }
  apply Hfold; [done|]. intros id Hid. by apply elem_of_nil in Hid.
Qed.
End Promise.
