(* ===== verification/ConfigTags.v ===== *)
(** * The tags a configuration has (src/src/configs/generate.cpp)

    Every tag that rules may name is that of an outbound or endpoint once
    [buildOutboundsSection] has succeeded: the proxy, WARP's bypass, the direct
    outbounds, the chains of rules, and the endpoints with their inner hops. *)

From Stdlib Require Import Ascii String.
From S2P Require Import Prelude QtText Json Lists AutoSelector ConfigChains ConfigHops ConfigPath ConfigGrowth ConfigOutbounds ConfigSections.
From S2P Require Import RouteRules RouteProfiles ConfigPrerequisites.

Local Open Scope Z_scope.
#[local] Set Warnings "-register-all".

Definition tagged (c : BuildContext) (t : qstring) : Prop := t ∈ map tagOf (emitted c).

(** ** Chains and the list of endpoint tags *)

(** A chain leaves the tags of the endpoints alone. *)
Section Aux.
Context (env : BuildEnv).

Lemma noteTunnel_aux o idx p c : vpnAuxTags (noteTunnel o idx p c) = vpnAuxTags c.
Proof. unfold noteTunnel. cbv zeta. by branches. Qed.
Lemma collectEch_aux p c : vpnAuxTags (collectEchQueryName env p c) = vpnAuxTags c.
Proof. unfold collectEchQueryName. destruct (p_tls p); [|done]. cbv zeta. branches; try done; by destruct (qmapGet _ _). Qed.
Lemma singbox_aux o ents : forall idx c, vpnAuxTags (buildSingboxChain env o idx ents c) = vpnAuxTags c.
Proof.
  induction ents as [|p ents IH]; intros idx c; [done|]. cbn [buildSingboxChain]. cbv zeta.
  set (c0 := if _ && _ then _ else c). assert (vpnAuxTags c0 = vpnAuxTags c) as E0 by (unfold c0; by branches).
  destruct (negb _); [cbn; by rewrite noteTunnel_aux|]. rewrite IH.
  destruct (IsEndpoint p); cbn [vpnAuxTags set_endpoints set_outbounds]; by rewrite collectEch_aux, noteTunnel_aux.
Qed.
Lemma xrayHops_aux o b ents : forall idx c, vpnAuxTags (buildXrayHops env o b idx ents c).1 = vpnAuxTags c.
Proof.
  induction ents as [|p ents IH]; intros idx c; [done|]. cbn [buildXrayHops]. cbv zeta. destruct (negb (isEmpty (snd (BuildXray p)))).
  - cbn. by branches.
  - rewrite IH. cbn. by branches.
Qed.
Lemma xrayChain_aux o b ents c : vpnAuxTags (buildXrayChain env o b ents c) = vpnAuxTags c.
Proof.
  unfold buildXrayChain. pose proof (xrayHops_aux o b ents 0 c) as H. destruct (buildXrayHops env o b 0 ents c) as [c' []]; [|done]. by branches.
Qed.
Lemma entList_aux ids : forall b s ents c, vpnAuxTags (entListLoop env ids b s ents c).1 = vpnAuxTags c.
Proof.
  assert (forall p b c, vpnAuxTags (noteTransition p b c) = vpnAuxTags c) as N by (intros; unfold noteTransition; by branches).
  induction ids as [|id ids IH]; intros b s ents c; [done|]. cbn [entListLoop]. cbv zeta. destruct (id =? warpProfileID); [by rewrite IH, N|].
  destruct (getProfile env id); [|done]. branches; [by rewrite <- (N p b c)..|by rewrite IH, N].
Qed.
Lemma entIDList_aux ids c : vpnAuxTags (entIDListtoEntList env ids c).1 = vpnAuxTags c.
Proof.
  unfold entIDListtoEntList. pose proof (entList_aux ids false (MkScan 0 0 (-1) 0 (-1) 0 false 0) [] c) as H.
  destruct (entListLoop _ _ _ _ _ _) as [c1 [ents [s|]]]; cbn in *; [|done]. by destruct (chainScanError _).
Qed.
Lemma openFullConfig_aux req ents c : vpnAuxTags (openFullConfig env req ents c).1 = vpnAuxTags c.
Proof.
  unfold openFullConfig. destruct (last ents) as [p|]; [|done]. destruct (IsXrayFullConfig p); [|done]. unfold fullConfigHop.
  destruct (p_custom p) as [[config host]|]; [|done]. destruct (isEmpty config); [done|].
  destruct (r_xrayFullConfigPort req <=? 0); cbn [probe draw]; by branches.
Qed.
Lemma bridgePort_aux given ports c : vpnAuxTags (bridgePort env given ports c).2 = vpnAuxTags c.
Proof. unfold bridgePort, probe. destruct (0 <? given), (isEmpty ports); done. Qed.
Lemma openBridges_aux req c : vpnAuxTags (openBridges env req c).2 = vpnAuxTags c.
Proof.
  unfold openBridges, draw. pose proof (bridgePort_aux (r_singToXrayPort req) [] c) as H1.
  destruct (bridgePort env (r_singToXrayPort req) [] c) as [[port ports] c1]. cbn [snd] in H1.
  destruct (singToXrayTransitioned c); [destruct (port <=? 0); [done|]|]; cbn [xrayToSingTransitioned set_singToXrayBridges set_draws].
  - destruct (xrayToSingTransitioned c1); [|done]. match goal with |- context [bridgePort env ?g ?ps ?d] => pose proof (bridgePort_aux g ps d) as H2; destruct (bridgePort env g ps d) as [[port2 ports2] c2] end.
    cbn [snd] in H2. destruct (port2 <=? 0); cbn in *; congruence.
  - destruct (xrayToSingTransitioned c); [|done]. match goal with |- context [bridgePort env ?g ?ps ?d] => pose proof (bridgePort_aux g ps d) as H2; destruct (bridgePort env g ps d) as [[port2 ports2] c2] end.
    cbn [snd] in H2. destruct (port2 <=? 0); cbn in *; congruence.
Qed.

Lemma chain_aux req c : vpnAuxTags (buildOutboundChain env req c).2 = vpnAuxTags c.
Proof.
  unfold buildOutboundChain. cbv zeta. set (c0 := set_xrayToSingTransitioned false _). assert (vpnAuxTags c0 = vpnAuxTags c) as H0 by done.
  pose proof (entIDList_aux (hopIDs req) c0) as H1.
  destruct (entIDListtoEntList env (hopIDs req) c0) as [c1 ents]. cbn [fst] in H1. destruct (failed c1); [done|].
  pose proof (openFullConfig_aux req ents c1) as H2. destruct (openFullConfig env req ents c1) as [c2 ents2]. cbn [fst] in H2.
  destruct (failed c2); [by cbn; rewrite H2|]. destruct (splitCores _ _ _ _) as [[initial xray] tailing]. pose proof (openBridges_aux req c2) as H3.
  destruct (openBridges env req c2) as [[[b1|] [b2|]] c3]; cbn [snd] in *; try congruence.
  transitivity (vpnAuxTags c3); [|congruence]. destruct (isEmpty ents2); cbn [vpnAuxTags set_chainGroups]; rewrite singbox_aux;
    (destruct (isEmpty xray); [|rewrite xrayChain_aux]); apply singbox_aux.
Qed.
End Aux.

(** ** The tags of one chain *)

Section Chains.
Context (env : BuildEnv).

Lemma tagged_kept c c' t : emitted c ⊆ emitted c' -> tagged c t -> tagged c' t.
Proof. intros He (o & -> & Ho)%list_elem_of_fmap. apply list_elem_of_fmap_2. by apply He. Qed.
Lemma tagged_still c c' t : still c c' -> tagged c t -> tagged c' t.
Proof. intros Hs. unfold tagged. by rewrite (still_emitted _ _ Hs). Qed.

Lemma Forall2_length_eq {A B C} (P : A -> B -> Prop) (Q : B -> C -> Prop) l m n : Forall2 P l m -> Forall2 Q m n -> length l = length n.
Proof. intros H1%Forall2_length H2%Forall2_length. congruence. Qed.

Definition singHop (id : Z) : Prop := exists p, getProfile env id = Some p /\ usesXrayCore p = false.

Record ChainTags (req : ChainBuildRequest) (c c' : BuildContext) : Prop := {
  ct_kept : emitted c ⊆ emitted c';
  ct_ingress : hopIDs req <> [] -> tagged c' (chainIngress req);
  ct_warp : r_warpWrap req = true -> forall ids, hopIDs req = warpProfileID :: ids -> ids <> [] -> tagged c' tagWarpBypass;
  ct_sing : r_includeProxy req = false -> r_warpWrap req = false -> Forall singHop (hopIDs req) ->
    forall k, r_startSuffix req <= k < r_startSuffix req + qsize (hopIDs req) -> tagged c' (hopTag (r_prefix req) k) }.

Lemma chain_tags req c tag c' : errors c = [] -> buildOutboundChain env req c = (tag, c') -> errors c' = [] -> ChainTags req c c'.
Proof.
  intros He Hb He'. destruct (chain_built env req c tag c' He Hb He') as (_ & ents & initial & xray & tailing & b1 & b2 & B).
  pose proof B as HB. destruct B as [(found & F1 & F2) O X I T Tl B1 B2 _ _ _ _ _ _ K _ _ Tg]. set (leading := withBridge initial b1) in *.
  pose proof (Forall2_length_eq _ _ _ _ _ F1 F2) as Hlen.
  assert (forall i, (i < length leading)%nat -> tagged c' (singTag (leadingOpts req) (Z.of_nat i))) as Hlead.
  { intros i Hi. unfold tagged. rewrite Tg. apply elem_of_app. right. apply elem_of_app. left. apply lookup_lt_is_Some in Hi as [p Hp].
    apply elem_of_lookup_imap. by exists i, p. }
  assert (isEmpty xray = false -> length leading = S (length initial)) as Hx.
  { intros E. unfold leading, withBridge. rewrite B1, E. cbn. rewrite length_app. cbn. lia. }
  assert (isEmpty xray = true -> tailing = [] /\ leading = ents) as Hnx.
  { intros E. destruct xray; [|done]. specialize (Tl eq_refl) as ->. split; [done|]. unfold leading, withBridge. rewrite B1. cbn. rewrite O. cbn. by rewrite app_nil_r. }
  split; [done|..].
  - intros Hne. assert (chainIngress req = singTag (leadingOpts req) (Z.of_nat 0)) as ->.
    { unfold chainIngress, singTag. cbn. rewrite andb_false_r, andb_true_r. destruct (r_includeProxy req); [done|]. by rewrite Z.add_0_r. }
    apply Hlead. destruct (isEmpty xray) eqn:E; [destruct (Hnx eq_refl) as [_ ->]|rewrite (Hx eq_refl); lia].
    destruct (hopIDs req); [done|]. rewrite <- Hlen. cbn. lia.
  - intros Hw ids Hids Hne. assert (tagWarpBypass = singTag (leadingOpts req) (Z.of_nat 1)) as -> by (unfold singTag; cbn; by rewrite Hw).
    apply Hlead. destruct (isEmpty xray) eqn:E; [destruct (Hnx eq_refl) as [_ ->]|rewrite (Hx eq_refl)].
    + rewrite Hids in Hlen. destruct ids; [done|]. rewrite <- Hlen. cbn. lia.
    + rewrite Hids in F1. pose proof (warp_first _ _ _ _ _ _ _ _ _ _ _ _ HB F1 F2) as Hi. destruct initial; [done|]. cbn. lia.
  - intros Hp Hw Hs k Hk.
    assert (Forall (fun p => IsXray p = false) ents) as Hents.
    { apply Forall_forall. intros p (i & Hi)%list_elem_of_lookup. destruct (Forall2_lookup_r _ _ _ _ _ F2 Hi) as (q & Hq & Hbuilt).
      destruct (Forall2_lookup_r _ _ _ _ _ F1 Hq) as (id & Hid & Hof). rewrite Forall_lookup in Hs. destruct (Hs i id Hid) as (q' & Eq & Hu).
      unfold hopOf in Hof. destruct (Z.eqb_spec id warpProfileID) as [->|_]; [injection Hof as <-; by destruct Hbuilt as [->|[Hf _]]|]. rewrite Eq in Hof. injection Hof as ->.
      unfold usesXrayCore in Hu. apply orb_false_iff in Hu as [U1 U2]. destruct Hbuilt as [->|[Hf _]]; [done|congruence]. }
    assert (isEmpty xray = true) as E.
    { destruct xray as [|p xray]; [done|]. apply Forall_cons in X as [X _]. rewrite Forall_forall in Hents.
      rewrite (Hents p) in X; [done|]. rewrite O. set_solver. }
    destruct (Hnx E) as [_ El]. specialize (Hlead (Z.to_nat (k - r_startSuffix req))). rewrite El in Hlead.
    unfold singTag in Hlead. cbn [leadingOpts o_warpWrap o_includeProxy o_prefix o_startSuffix] in Hlead. rewrite Hw, Hp in Hlead. cbn [andb] in Hlead.
    unfold qsize in Hk. rewrite Z2Nat.id, Zplus_minus in Hlead by lia. apply Hlead. rewrite <- Hlen. lia.
Qed.
End Chains.

(** ** The tags of the section *)

Section Stages.
Context (env : BuildEnv) (set : OutboundsEnv).

(** What a step leaves: the outbounds that were there, and the endpoint tags. *)
Definition keeps (c c' : BuildContext) : Prop := emitted c ⊆ emitted c' /\ vpnAuxTags c' = vpnAuxTags c.
#[local] Instance keeps_preorder : PreOrder keeps.
Proof. split; [done|]. intros a b c [A1 A2] [B1 B2]. split; [set_solver|congruence]. Qed.

Lemma failed_chain req c : errors (buildOutboundChain env req c).2 = [] -> errors c = [].
Proof. intros He. destruct (errors c) eqn:E; [done|]. exfalso. apply (chain_failed env req c); [by rewrite E|done]. Qed.

Lemma chain_keeps req c tag c' : buildOutboundChain env req c = (tag, c') -> errors c' = [] -> keeps c c' /\ ChainTags env req c c'.
Proof.
  intros Hb He. assert (errors c = []) as He0 by (apply (failed_chain req); by rewrite Hb). pose proof (chain_tags env req c tag c' He0 Hb He) as T.
  split; [split; [apply T|]|done]. pose proof (chain_aux env req c) as A. by rewrite Hb in A.
Qed.

Lemma onLastGroup_keeps f c : keeps c (onLastGroup f c).
Proof. unfold onLastGroup. by destruct (last (chainGroups c)). Qed.
Lemma whenGrew_keeps before f c : keeps c (whenGrew before f c).
Proof. unfold whenGrew. destruct (grewSince before c); [apply onLastGroup_keeps|done]. Qed.

Lemma routeGroup_tags r suffix c : let c' := buildRouteGroup env set r suffix c in errors c' = [] ->
  errors c = [] /\ keeps c c' /\ (rg_hopIDs r <> [] -> tagged c' (hopTag routeChainPrefix suffix)).
Proof.
  cbv zeta. unfold buildRouteGroup. destruct (buildOutboundChain env _ c) as [tag c1] eqn:Eb. cbv zeta.
  set (c2 := match chainWrapper r with Some w => _ | None => c1 end). assert (keeps c1 c2 /\ errors c2 = errors c1) as [K2 E2].
  { unfold c2. destruct (chainWrapper r); [|done]. split; [apply whenGrew_keeps|]. destruct (whenGrew_still (chainGroups c) (creditTo p) c1) as (_ & -> & _). done. }
  set (c3 := match routeNamed env r with Some _ => _ | None => c2 end). assert (keeps c2 c3 /\ errors c3 = errors c2) as [K3 E3].
  { unfold c3. destruct (routeNamed env r) as [p|]; [|done]. split; [etrans; [|apply whenGrew_keeps]; done|].
    destruct (whenGrew_still (chainGroups c) (namedAs set KindRoute p) (nameOutbound tag (displayName set p) c2)) as (_ & -> & _). done. }
  intros He. assert (errors c1 = []) as He1 by congruence. destruct (chain_keeps _ _ _ _ Eb He1) as [K T].
  split_and!; [apply (failed_chain (routeRequest (rg_hopIDs r) suffix)); by rewrite Eb|by do 2 (etrans; [|done])|].
  intros Hne. apply (tagged_kept c1); [apply (proj1 (transitivity K2 K3))|]. by apply (ct_ingress _ _ _ _ T).
Qed.

Lemma routeGroups_tags groups : forall suffix c, let c' := buildRouteGroups env set groups suffix c in errors c' = [] ->
  errors c = [] /\ keeps c c' /\
  (Forall (fun ids => ids <> []) (map rg_hopIDs groups) -> forall tag ids, (tag, ids) ∈ chainWays routeChainPrefix (map rg_hopIDs groups) suffix -> tagged c' tag).
Proof.
  induction groups as [|r groups IH]; intros suffix c; cbv zeta; cbn [buildRouteGroups map chainWays].
  { intros He. split_and!; [done..|]. intros _ tag ids H. by apply elem_of_nil in H. }
  intros He. destruct (IH _ _ He) as (He1 & K & W). destruct (routeGroup_tags r suffix c He1) as (He0 & K1 & W1).
  split_and!; [done|by etrans|]. intros [Hr Hg]%Forall_cons tag ids [[= -> ->]|H]%elem_of_cons; [|by eapply W].
  apply (tagged_kept (buildRouteGroup env set r suffix c)); [apply K|by apply W1].
Qed.

(** Every hop of an endpoint has its tag, and the tags rules may name are listed. *)
Definition auxGiven (a : AuxEndpointGroup) : Prop :=
  ag_hopIDs a <> [] /\ Forall (singHop env) (ag_hopIDs a) /\ Forall (fun i => 0 <= i < qsize (ag_hopIDs a)) (innerHopIndexes a).

Lemma nameInner_keeps a suffix idxs : forall c, keeps c (fold_left (nameInner env set a suffix) idxs c).
Proof.
  induction idxs as [|i idxs IH]; intros c; [done|]. cbn. etrans; [|apply IH]. unfold nameInner. by destruct (_ ← _; _).
Qed.

Lemma auxGroup_tags a suffix c : let c' := buildAuxGroup env set a suffix c in errors c' = [] -> auxGiven a ->
  emitted c ⊆ emitted c' /\ (forall k, suffix <= k < suffix + qsize (ag_hopIDs a) -> tagged c' (hopTag auxEndpointPrefix k)) /\
  exists ts, vpnAuxTags c' = vpnAuxTags c ++ ts /\ Forall (prefixed auxEndpointPrefix suffix (suffix + qsize (ag_hopIDs a))) ts.
Proof.
  cbv zeta. unfold buildAuxGroup. cbv zeta. set (c0 := fold_left _ _ c). pose proof (nameInner_keeps a suffix (innerHopIndexes a) c) as K0. fold c0 in K0.
  destruct (buildOutboundChain env _ c0) as [tag c1] eqn:Eb. destruct (failed c1) eqn:Ef; [intros He; unfold failed in Ef; by rewrite He in Ef|].
  apply failed_false in Ef. set (c2 := match ag_endpoint a with Some _ => _ | None => c1 end).
  assert (keeps c1 c2) as K2 by (unfold c2; destruct (ag_endpoint a); [etrans; [|apply whenGrew_keeps]; done|done]).
  destruct (chain_keeps _ _ _ _ Eb Ef) as [K1 T]. intros _ (Hne & Hs & Hi). assert (keeps c c2) as K by (do 2 (etrans; [done|]); done).
  destruct (chain_built env _ c0 tag c1 (failed_chain _ _ ltac:(by rewrite Eb)) Eb Ef) as (Et & _). split_and!; [apply K|..].
  - intros k Hk. apply (tagged_kept c1); [apply K2|]. by apply (ct_sing _ _ _ _ T).
  - exists ([tag] ++ innerTagsOf a suffix). cbn [vpnAuxTags set_vpnAuxTags]. split; [f_equal; apply K|]. pose proof (qsize_nonneg (ag_hopIDs a)). constructor.
    + exists suffix. split; [|by rewrite Et]. destruct (ag_hopIDs a); [done|]. unfold qsize. cbn [length]. lia.
    + unfold innerTagsOf. apply Forall_fmap. eapply Forall_impl; [exact Hi|]. cbn. intros i Hr. exists (suffix + i). split; [lia|done].
Qed.

Lemma auxGroups_tags groups : forall suffix c c', buildAuxGroups env set groups suffix c = (c', true) -> errors c' = [] -> Forall auxGiven groups ->
  let span := prefixed auxEndpointPrefix suffix (suffix + spanOf (map ag_hopIDs groups)) in
  emitted c ⊆ emitted c' /\ (forall t, span t -> tagged c' t) /\ exists ts, vpnAuxTags c' = vpnAuxTags c ++ ts /\ Forall span ts.
Proof.
  induction groups as [|a groups IH]; intros suffix c c'; cbn [buildAuxGroups map spanOf]; cbv zeta.
  { intros [= <-] He _. split_and!; [done|intros t (k & Hk & _); lia|]. exists []. by rewrite app_nil_r. }
  destruct (failed (buildAuxGroup env set a suffix c)) eqn:Ef; [done|]. apply failed_false in Ef. intros H He [Ha Hg]%Forall_cons.
  destruct (IH _ _ _ H He Hg) as (K & W & ts & E & F). destruct (auxGroup_tags a suffix c Ef Ha) as (K1 & W1 & ts1 & E1 & F1).
  pose proof (spanOf_nonneg (map ag_hopIDs groups)). pose proof (qsize_nonneg (ag_hopIDs a)).
  assert (forall t, prefixed auxEndpointPrefix suffix (suffix + (qsize (ag_hopIDs a) + spanOf (map ag_hopIDs groups))) t <->
    prefixed auxEndpointPrefix suffix (suffix + qsize (ag_hopIDs a)) t \/
    prefixed auxEndpointPrefix (suffix + qsize (ag_hopIDs a)) (suffix + qsize (ag_hopIDs a) + spanOf (map ag_hopIDs groups)) t) as Hsplit.
  { intros t. rewrite Z.add_assoc. apply prefixed_split. lia. }
  split_and!; [set_solver| |].
  - intros t [Ht|Ht]%Hsplit; [|by apply W]. destruct Ht as (k & Hk & ->). apply (tagged_kept (buildAuxGroup env set a suffix c)); [done|by apply W1].
  - exists (ts1 ++ ts). rewrite E, E1, app_assoc. split; [done|]. apply Forall_app. split; (eapply Forall_impl; [eassumption|]); intros t Ht; apply Hsplit; auto.
Qed.

(** The members of a selector. *)
Lemma members_keep selector planned : forall idx ports g c g' c', buildMembers env set selector idx planned ports g c = (g', c') -> errors c' = [] -> keeps c c'.
Proof.
  induction planned as [|m planned IH]; intros idx ports g c g' c'; cbn [buildMembers]; [by intros [= <- <-]|].
  destruct (memberRequest idx m ports) as [req ports']. destruct (buildOutboundChain env req c) as [tag c1] eqn:Eb.
  destruct (failed c1) eqn:Ef1; [intros [= <- <-] He'; unfold failed in Ef1; by rewrite He' in Ef1|].
  destruct (failed (drainFullConfig m c1)) eqn:Ef2; [intros [= <- <-] He'; unfold failed in Ef2; by rewrite He' in Ef2|].
  cbv zeta. intros H He. apply failed_false in Ef1. destruct (chain_keeps _ _ _ _ Eb Ef1) as [K _]. etrans; [exact K|].
  etrans; [|eapply IH; [exact H|done]]. etrans; [|apply onLastGroup_keeps].
  revert Ef2. unfold drainFullConfig. destruct (xrayFullConfig (pm_bridges m)); [|done]. by destruct (isEmpty (xrayConfig c1)).
Qed.

Lemma selector_tags warp c : let c' := buildAutoSelectorGroup env set warp c in errors c' = [] ->
  keeps c c' /\ tagged c' (if warp then tagWarpBypass else tagProxy).
Proof.
  cbv zeta. unfold buildAutoSelectorGroup. destruct (selectorOf set (ent c)) as [selector|]; [|done]. cbv zeta. destruct (plan set (ent c)) as [build error].
  destruct (negb (isEmpty error)); [done|]. destruct (probe env _ c) as [ports c0] eqn:Ep.
  assert (keeps c c0) as K0 by (unfold probe in Ep; by injection Ep as _ <-).
  destruct (buildMembers _ _ _ _ _ _ _ _) as [g c1] eqn:Em. destruct (failed c1) eqn:Ef; [intros He; unfold failed in Ef; by rewrite He in Ef|].
  destruct (isEmpty (g_tags g)); [done|]. intros _. apply failed_false in Ef. apply members_keep in Em; [|done].
  set (c2 := if warp then creditWarp _ c1 else c1). assert (keeps c1 c2) as K2 by (unfold c2; by destruct warp).
  set (o := selectorObject set (Normalize selector) (if warp then tagWarpBypass else tagProxy) g). split.
  - do 2 (etrans; [eassumption|]). etrans; [exact K2|]. split; [|done]. intros x Hx. change (x ∈ emitted (set_outbounds (outbounds c2 ++ [o]) c2)).
    rewrite emitted_outbounds. set_solver.
  - change (tagged (set_outbounds (outbounds c2 ++ [o]) c2) (if warp then tagWarpBypass else tagProxy)). unfold tagged.
    rewrite (Permutation_map tagOf (emitted_outbounds c2 [o])), map_app, elem_of_app. right. cbn [map]. rewrite list_elem_of_singleton. symmetry. apply selectorObject_tag.
Qed.

Lemma main_tags g c c' : buildMain env set g c = (c', true) -> errors c' = [] -> (forall own, ownHops (ent c) = Some own -> own <> []) ->
  keeps c c' /\ tagged c' tagProxy /\ (enable_warp set = true -> tagged c' tagWarpBypass).
Proof.
  unfold buildMain. destruct (bool_decide (p_type (ent c) = qs "autoselector")).
  - cbv zeta. pose proof (selector_tags (enable_warp set) c) as S. set (c1 := buildAutoSelectorGroup env set _ c) in *. destruct (failed c1) eqn:Ef; [done|].
    apply failed_false in Ef. destruct (S Ef) as [K T]. destruct (enable_warp set); [|by intros [= <-]].
    unfold buildWarpInFrontOfSelector. cbv zeta. destruct (negb (isEmpty _)); [intros [= <- _] He; cbn in He; by apply app_eq_nil in He as [_ ?]|].
    set (o := jsonSet _ _ _). intros [= <- _] He _. pose proof (emitted_emit (warpProfile env) o c1) as Em. split_and!.
    + etrans; [exact K|]. split; [intros x Hx; rewrite Em; set_solver|]. unfold emitObject. by destruct (IsEndpoint _).
    + unfold tagged. rewrite (Permutation_map tagOf Em), map_app, elem_of_app. right. cbn [map]. rewrite list_elem_of_singleton.
      unfold tagOf, o. by rewrite jsonGet_set_other, jsonGet_set_same by done.
    + intros _. unfold tagged. rewrite (Permutation_map tagOf Em), map_app, elem_of_app. by left.
  - destruct (ownHops (ent c)) as [own|]; [|done]. cbv zeta. set (warp := enable_warp set). set (hops := mainHops warp g (ent c) own).
    destruct (buildOutboundChain env (mainRequest warp hops) c) as [tag c1] eqn:Eb. cbn [snd]. set (c2 := if bool_decide _ then _ else c1).
    assert (keeps c1 c2 /\ errors c2 = errors c1) as [K2 E2].
    { unfold c2. destruct (bool_decide _); [|done]. split; [apply onLastGroup_keeps|]. by destruct (onLastGroup_still (creditTo (ent c1)) c1) as (_ & -> & _). }
    intros [= <-] He Hown. destruct (chain_keeps _ _ _ _ Eb ltac:(congruence)) as [K T]. split_and!.
    + by etrans.
    + apply (tagged_kept c1); [apply K2|]. apply (ct_ingress _ _ _ _ T). cbn. unfold hops, mainHops. specialize (Hown own eq_refl).
      destruct warp; [done|]. destruct (0 <=? landing_proxy_id g); [done|]. by destruct own.
    + intros Hw. apply (tagged_kept c1); [apply K2|]. eapply (ct_warp _ _ _ _ T); [exact Hw|cbn; unfold hops, mainHops; by rewrite Hw|].
      specialize (Hown own eq_refl). destruct (0 <=? landing_proxy_id g); [done|]. by destruct own.
Qed.

(** ** The whole section *)

Record SectionTags (deps : RoutingDeps) (c c' : BuildContext) : Prop := {
  st_proxy : tagged c' tagProxy;
  st_warp : enable_warp set = true -> tagged c' tagWarpBypass;
  st_direct : tagged c' tagDirect;
  st_l3 : l3Bridge set = true -> tagged c' tagL3Direct;
  st_routes : forall tag ids, (tag, ids) ∈ chainWays routeChainPrefix (routeHops deps) 0 -> tagged c' tag;
  st_aux : forTest c = false -> forall tag, prefixed auxEndpointPrefix 0 (spanOf (auxHops deps)) tag -> tagged c' tag;
  st_listed : Forall (tagged c') (vpnAuxTags c');
  st_ingress : Forall (tagged c') (singIngressTags c') }.

Lemma section_tags deps c : WellGiven deps c -> vpnAuxTags c = [] -> Forall auxGiven (auxEndpointGroups deps) ->
  let c' := buildOutboundsSection env set deps c in errors c' = [] -> SectionTags deps c c'.
Proof.
  intros Hw Hv Ha c' He. pose proof (section_ready env set deps c Hw He) as (g' & _ & [Tg _]). fold c' in Tg.
  destruct Hw as [Hf Hown Hrt _].
  destruct (section_stages env set deps c He) as (g & c1 & c3 & _ & E1 & He1 & He2 & E3 & He3 & E & _). fold c' in E.
  destruct (main_tags g c c1 E1 He1 Hown) as (K1 & P1 & W1). set (c2 := buildRouteGroups _ _ _ _ _) in *.
  destruct (routeGroups_tags (routeOutboundGroups deps) 0 (nameMain set c1) He2) as (_ & K2 & R2). fold c2 in K2, R2.
  assert (keeps c1 (nameMain set c1)) as Kn by (unfold nameMain; cbv zeta; by destruct (enable_warp set)).
  assert (keeps c c2) as K12 by (do 2 (etrans; [eassumption|]); done).
  assert (forTest c2 = forTest c) as Hft.
  { destruct (buildMain_ready env set g c c1 true Hf Hown E1 He1) as (_ & R1 & F1). unfold c2 in *. rewrite routeGroups_loop in *.
    apply (still_ready _ _ _ _ _ (nameMain_still set c1)) in R1.
    destruct (loop_ready env rg_hopIDs _ _ routeChainPrefix (route_step env set) ltac:(done) ltac:(intros; by apply route_sound) (routeOutboundGroups deps)
              _ _ 0 _ (proj1 (Forall_fmap _ _ _) Hrt) R1 He2) as [_ F2].
    { intros t [->|[->|[(k & ->)|(i & k & ->)]]] (j & _ & ?); done. }
    by rewrite F2, (still_forTest _ _ (nameMain_still set c1)), F1. }
  assert (emitted c2 ⊆ emitted c3 /\ (forTest c = false -> forall t, prefixed auxEndpointPrefix 0 (spanOf (auxHops deps)) t -> tagged c3 t) /\
          Forall (tagged c3) (vpnAuxTags c3)) as (K3 & A3 & L3).
  { assert (vpnAuxTags c2 = []) as Hv2 by (destruct K12 as [_ ->]; done). rewrite Hft in E3. destruct (forTest c).
    - injection E3 as <-. rewrite Hv2. by split_and!.
    - destruct (auxGroups_tags _ 0 c2 c3 E3 He3 Ha) as (K3 & A3 & ts & Ets & Fts). split_and!; [done|intros _; exact A3|].
      rewrite Ets, Hv2. eapply Forall_impl; [exact Fts|]. exact A3. }
  set (os := [directOutbound] ++ (if l3Bridge set then [l3Outbound] else [])).
  assert (emitted c' ≡ₚ emitted c3 ++ os /\ vpnAuxTags c' = vpnAuxTags c3) as [Ew Ev].
  { rewrite E. split; [|done]. rewrite <- emitted_outbounds. done. }
  assert (forall t, tagged c3 t -> tagged c' t) as T3 by (intros t; apply tagged_kept; intros x Hx; rewrite Ew; set_solver).
  assert (forall t, tagged c1 t -> tagged c' t) as T1.
  { intros t Ht. apply T3, (tagged_kept c2 _ _ K3), (tagged_kept (nameMain set c1) _ _ (proj1 K2)), (tagged_kept c1 _ _ (proj1 Kn)), Ht. }
  assert (forall o, o ∈ os -> tagged c' (tagOf o)) as To by (intros o Ho; apply list_elem_of_fmap_2; rewrite Ew; set_solver).
  split.
  - by apply T1.
  - intros Hw. by apply T1, W1.
  - apply (To directOutbound). unfold os. left.
  - intros Hl. apply (To l3Outbound). unfold os. rewrite Hl. set_solver.
  - intros tag ids Ht. apply T3, (tagged_kept c2 _ _ K3). by eapply R2.
  - intros Hft' t Ht. by apply T3, A3.
  - rewrite Ev. eapply Forall_impl; [exact L3|]. exact T3.
  - apply Forall_forall. destruct Tg as [_ _ _ _ _ _ _ _ Hsub]. intros t Ht. by apply Hsub.
Qed.
End Stages.
