(* ===== verification/ConfigRoute.v ===== *)
(** * The route section of a configuration (src/src/configs/generate.cpp)

    [buildRouteSection]: the rules of the bridges, what the build injects, the
    provider's applications, the rules of the profile, the gates of the endpoints
    and the end of the list; and the rule sets that the rules name. *)

From Stdlib Require Import Ascii String.
From S2P Require Import Prelude QtText Json Lists ConfigChains ConfigHops ConfigPath ConfigOutbounds.
From S2P Require Import RouteRules RouteProfiles ConfigPrerequisites.

Local Open Scope Z_scope.
#[local] Set Warnings "-register-all".

Definition tagDnsIn : qstring := qs "dns-in".
Definition tagDnsSystem : qstring := qs "dns-system".
Definition tagMixedIn : qstring := qs "mixed-in".
Definition tagTunIn : qstring := qs "tun-in".
Definition adblockRuleSet : qstring := qs "throne-adblocksingbox".
Definition privateRangesRuleSet : qstring := qs "throne-private-ranges".

(** Settings and what other parts of the build have found: the applications the
    provider lists, the extra core's path, and the URL of a built-in rule set,
    empty when there is none. *)
Record RouteEnv := MkRouteEnv {
  ruleEnv : RuleEnv;
  adblock_enable : bool;
  resolve_domain_strategy : qstring;
  spmode_vpn : bool;
  enable_stats : bool;
  block_private_relay : bool;
  osDarwin : bool;
  bypassApps : list qstring;
  proxyApps : list qstring;
  extraCorePath : qstring;
  extraCoreProcessPaths : qstring -> list QJsonValue;
  ruleSetUrlOf : qstring -> qstring;
  get_jsdelivr_link : qstring -> qstring;
  adblockUrl : qstring;
  privateRanges : option (list qstring) }.

Section Route.
Context (env : BuildEnv) (set : OutboundsEnv) (pre : PrerequisitesEnv) (re : RouteEnv).

(** ** Rule sets *)

Fixpoint dedup (l : list qstring) : list qstring := match l with [] => [] | x :: l => x :: List.filter (fun y => negb (bool_decide (y = x))) (dedup l) end.
Definition neededRuleSets (route : RouteProfile) : list qstring := dedup (get_used_rule_sets route).

Definition remoteRuleSet (tag url : qstring) : QJsonObject :=
  [(qs "type", jtext (qs "remote")); (qs "tag", jtext tag); (qs "format", jtext (qs "binary")); (qs "url", jtext url)].
Definition ruleSetObject (item : qstring) : list QJsonObject :=
  if srsUrl (ruleEnv re) item then [remoteRuleSet (get_rule_set_name (ruleEnv re) item) item]
  else if isEmpty (ruleSetUrlOf re item) then [] else [remoteRuleSet item (get_jsdelivr_link re (ruleSetUrlOf re item))].
Definition buildRuleSetArray (route : RouteProfile) : list QJsonObject :=
  flat_map ruleSetObject (neededRuleSets route) ++
  (if adblock_enable re then [remoteRuleSet adblockRuleSet (get_jsdelivr_link re (adblockUrl re))] else []) ++
  (match privateRanges re with
   | Some ranges => [[(qs "type", jtext (qs "inline")); (qs "tag", jtext privateRangesRuleSet);
                      (qs "rules", JArray [JObject [(qs "ip_cidr", JArray (map jtext ranges))]])]]
   | None => []
   end).

(** ** Rules *)

Definition routeTo (matcher : qstring) (v : QJsonValue) (tag : qstring) : QJsonObject :=
  [(matcher, v); (qs "action", jtext (qs "route")); (qs "outbound", jtext tag)].
Definition gate (tag : qstring) : QJsonObject := routeTo (qs "preferred_by") (JArray [jtext tag]) tag.
Definition rejectAll : QJsonObject := [(qs "action", jtext (qs "reject"))].

(** A copy of a rule to direct that goes to the bridge of the third layer first. *)
Definition l3BridgeTwin (rule : QJsonObject) : QJsonObject :=
  jsonSet (jsonSet (jsonSet rule (qs "preferred_by") (JArray [jtext tagL3Direct])) (qs "action") (jtext (qs "route"))) (qs "outbound") (jtext tagL3Direct).
Definition wantsTwin (rule : QJsonObject) : bool :=
  let action := jsonText (jsonGet rule (qs "action")) in
  (isEmpty action || bool_decide (action = qs "route")) && negb (jsonHas rule (qs "preferred_by")) &&
  bool_decide (jsonText (jsonGet rule (qs "outbound")) = tagDirect).
Definition withL3BridgeTwins (rules : list QJsonValue) : list QJsonValue :=
  flat_map (fun v => let rule := jsonToObject (Some v) in if wantsTwin rule then [JObject (l3BridgeTwin rule); JObject rule] else [JObject rule]) rules.

Definition carriesGate (rules : list QJsonValue) (tag : qstring) : bool :=
  existsb (fun r => existsb (fun p => bool_decide (jsonToString [] (Some p) = tag))
                      (jsonToArray (jsonGet (jsonToObject (Some r)) (qs "preferred_by")))) rules.

Definition bridgeRules (c : BuildContext) : list QJsonObject :=
  zip_with (fun (b : Bridge) t => routeTo (qs "inbound") (jtext (bridgeTagFor t)) t) (xrayToSingBridges c) (singIngressTags c).

Definition systemDnsInbound (c : BuildContext) : bool := osDarwin re && tunEnabled c && negb (forTest c).

(** What the build injects before the rules of the profile. *)
Definition injectedRules (route : RouteProfile) (c : BuildContext) : list QJsonObject :=
  (if isEmpty (extraCorePath re) then [] else [[(qs "action", jtext (qs "route")); (qs "process_path", JArray (extraCoreProcessPaths re (extraCorePath re)));
                                               (qs "outbound", jtext tagDirect)]]) ++
  (if systemDnsInbound c then [[(qs "inbound", jtext tagDnsSystem); (qs "action", jtext (qs "hijack-dns"))]] else []) ++
  (if isRaw route then [] else
     [[(qs "action", jtext (qs "sniff"))]] ++
     (if isEmpty (resolve_domain_strategy re) then [] else
        [[(qs "inbound", JArray [jtext tagMixedIn; jtext tagTunIn]); (qs "action", jtext (qs "resolve")); (qs "strategy", jtext (resolve_domain_strategy re))]]) ++
     [[(qs "protocol", jtext (qs "dns")); (qs "action", jtext (qs "hijack-dns"))]]) ++
  (if forTest c then [] else [[(qs "inbound", jtext tagDnsIn); (qs "action", jtext (qs "reject"))]]) ++
  (if negb (forTest c) && block_private_relay re then
     [[(qs "domain", JArray [jtext (qs "mask.icloud.com"); jtext (qs "mask-h2.icloud.com")]); (qs "action", jtext (qs "reject"))]] else []).

Definition appRule (apps : list qstring) (tag : qstring) : list QJsonObject :=
  if isEmpty apps then [] else [[(qs "action", jtext (qs "route")); (qs "process_name", JArray (map jtext apps)); (qs "outbound", jtext tag)]].
Definition providerAppRules (c : BuildContext) : list QJsonObject :=
  if forTest c then [] else appRule (bypassApps re) tagDirect ++ appRule (proxyApps re) tagProxy.

Definition profileRules (route : RouteProfile) (raw : QJsonObject) (outboundMap : gmap Z qstring) : list QJsonValue :=
  let rules := if isRaw route then jsonToArray (jsonGet raw (qs "rules"))
               else map JObject (get_route_rules (ruleEnv re) (adblock_enable re) false outboundMap (Rules route)).1 in
  if l3Bridge set then withL3BridgeTwins rules else rules.

(** Where what no rule matches goes; a profile that blocks it rejects before. *)
Definition finalTag (route : RouteProfile) (raw : QJsonObject) : qstring :=
  if isRaw route then match jsonGet raw (qs "final") with Some v => jsonToString [] (Some v) | None => tagProxy end
  else if defaultOutboundID route =? blockID then tagDirect
  else if defaultOutboundID route =? warpBypassID then if enable_warp set then tagWarpBypass else tagProxy
  else outboundIDToString (defaultOutboundID route).

Definition auxRules (route : RouteProfile) (rules : list QJsonValue) (c : BuildContext) : list QJsonObject :=
  map gate (List.filter (fun t => isRaw route || negb (carriesGate rules t)) (vpnAuxTags c)).
Definition l3FinalRules (route : RouteProfile) (final : qstring) : list QJsonObject :=
  if l3Bridge set && bool_decide (final = tagDirect) && (isRaw route || (defaultOutboundID route =? directID)) then [gate tagL3Direct] else [].

(** A tunnel that only takes what it advertises: the rest is rejected. *)
Definition fallthroughRules (final : qstring) (c : BuildContext) : list QJsonObject :=
  if negb (forTest c) && bool_decide (final ∈ vpnGateTags c) then
    [(qs "action", jtext (qs "resolve")) ::
       (if isEmpty (resolve_domain_strategy re) then [] else [(qs "strategy", jtext (resolve_domain_strategy re))]);
     gate final; rejectAll]
  else [].

Definition routeRules (route : RouteProfile) (raw : QJsonObject) (deps : RoutingDeps) (c : BuildContext) : list QJsonValue :=
  let profile := profileRules route raw (outboundMap deps) in
  let final := finalTag route raw in
  map JObject (bridgeRules c ++ injectedRules route c ++ providerAppRules c) ++ profile ++
  map JObject (auxRules route profile c ++ l3FinalRules route final ++ fallthroughRules final c ++
               (if negb (isRaw route) && (defaultOutboundID route =? blockID) then [rejectAll] else [])).

(** ** The section *)

Definition orElse (o : QJsonObject) (key : qstring) (v : QJsonValue) : QJsonObject := if jsonHas o key then o else jsonSet o key v.
Definition routeObject (route : RouteProfile) (raw : QJsonObject) (deps : RoutingDeps) (c : BuildContext) : QJsonObject :=
  let o := jsonSet (if isRaw route then raw else []) (qs "rules") (JArray (routeRules route raw deps c)) in
  let o := jsonSet o (qs "rule_set") (JArray (map JObject (buildRuleSetArray route) ++ (if isRaw route then jsonToArray (jsonGet raw (qs "rule_set")) else []))) in
  let o := if isRaw route then orElse o (qs "final") (jtext tagProxy) else jsonSet o (qs "final") (jtext (finalTag route raw)) in
  let o := if enable_stats re then orElse o (qs "find_process") (JBool true) else o in
  let o := orElse o (qs "default_domain_resolver") (directDomainResolver env) in
  if spmode_vpn re then orElse o (qs "auto_detect_interface") (JBool true) else o.

(** A raw profile used as it is gets only the gates of the endpoints. *)
Definition verbatimRoute (raw : QJsonObject) (c : BuildContext) : QJsonObject :=
  if isEmpty (vpnAuxTags c) then raw
  else jsonSet raw (qs "rules") (JArray (jsonToArray (jsonGet raw (qs "rules")) ++ map (fun t => JObject (gate t)) (vpnAuxTags c))).

Definition writeRoute (o : QJsonObject) (c : BuildContext) : BuildContext := set_coreConfig (jsonSet (coreConfig c) (qs "route") (JObject o)) c.

Definition buildRouteSection (deps : RoutingDeps) (c : BuildContext) : BuildContext :=
  match routeProfile pre with
  | None => fail NoRoutingProfile c
  | Some route =>
      let parsed := parseObject pre (rawRoute route) in
      if isRaw route && isEmpty parsed then fail RawRouteNotJson c
      else
        let raw := if isRaw route then TranslateRawOutbounds parsed (outboundMap deps) else [] in
        if isRaw route && preventModifications route then writeRoute (verbatimRoute raw c) c
        else if bridgeIngressMismatch c then fail BridgeMismatch c
        else writeRoute (routeObject route raw deps c) c
  end.
End Route.
