(* ===== verification/ConfigRouting.v ===== *)
(** * Rules and the outbounds they name (src/src/configs/generate.cpp)

    The prerequisites, the outbounds and the route of one build together: the tag of
    a rule leads through the hops of the profile the rule names, no rule names an
    outbound that the configuration lacks, and the rule sets it defines and those that
    rules name are stated exactly. *)

From Stdlib Require Import Ascii String.
From S2P Require Import Prelude QtText Json Lists AutoSelector ConfigChains ConfigHops ConfigPath ConfigGrowth ConfigOutbounds ConfigSections ConfigDelivery.
From S2P Require Import RouteRules RouteProfiles ConfigPrerequisites ConfigTags ConfigRoute.

Local Open Scope Z_scope.
#[local] Set Warnings "-register-all".

(** One goal for every member of a list of rules that conditions guard. *)
Ltac each := repeat first [apply Forall_nil_2 | apply Forall_cons_2 | apply Forall_app_2 | match goal with |- Forall _ (if ?b then _ else _) => destruct b end].

Section Routing.
Context (env : BuildEnv) (set : OutboundsEnv) (pre : PrerequisitesEnv) (re : RouteEnv).

(** The sections of a build that routing depends on, each only after the one before
    has succeeded. *)
Record Build := MkBuild { bd_deps : RoutingDeps; bd_outbounds : BuildContext; bd_config : BuildContext }.
Definition buildRouting (c : BuildContext) : BuildError + Build :=
  match calculatePrerequisites env set pre c with
  | (c1, deps) =>
      match errors c1 with
      | e :: _ => inl e
      | [] =>
          let c2 := buildOutboundsSection env set deps c1 in
          match errors c2 with
          | e :: _ => inl e
          | [] =>
              let c3 := buildRouteSection env set pre re deps c2 in
              match errors c3 with e :: _ => inl e | [] => inr (MkBuild deps c2 c3) end
          end
      end
  end.

(** A build starts from a context without outbounds; a chain that is started has hops. *)
Record Startable (c : BuildContext) : Prop := {
  sb_fresh : freshContext c;
  sb_aux : vpnAuxTags c = [];
  sb_own : forall own, ownHops (ent c) = Some own -> own <> [] }.

Record Stages (c : BuildContext) (b : Build) (route : RouteProfile) (c1 : BuildContext) : Prop := {
  bs_start : exists x, c1 = set_proxyUsesXray x c;
  bs_route : routeProfile pre = Some route;
  bs_promised : Promised env set pre route (bd_deps b);
  bs_given : WellGiven (bd_deps b) c1;
  bs_outbounds : bd_outbounds b = buildOutboundsSection env set (bd_deps b) c1;
  bs_ok : errors (bd_outbounds b) = [];
  bs_tags : SectionTags set (bd_deps b) c1 (bd_outbounds b);
  bs_config : bd_config b = buildRouteSection env set pre re (bd_deps b) (bd_outbounds b);
  bs_config_ok : errors (bd_config b) = [] }.

Lemma build_stages c b : Startable c -> buildRouting c = inr b -> exists route c1, Stages c b route c1.
Proof.
  intros [Hf Ha Hown]. unfold buildRouting. destruct (calculatePrerequisites env set pre c) as [c1 deps] eqn:E1. destruct (errors c1) eqn:He1; [|done].
  destruct (prerequisites_promise env set pre c c1 deps (proj1 Hf) E1 He1) as ((x & ->) & route & Hr & Hp). cbv zeta.
  destruct (errors (buildOutboundsSection env set deps _)) eqn:He2; [|done]. destruct (errors (buildRouteSection _ _ _ _ _ _)) eqn:He3; [|done]. intros [= <-].
  assert (WellGiven deps (set_proxyUsesXray x c)) as Hw by (split; [exact Hf|exact Hown|apply Hp|apply Hp]).
  exists route, (set_proxyUsesXray x c). split; cbn [bd_deps bd_outbounds bd_config]; try done; [by exists x|].
  apply section_tags; [done|exact Ha| |exact He2]. pose proof (pr_aux _ _ _ _ _ Hp) as P1. pose proof (pr_sing _ _ _ _ _ Hp) as P2. pose proof (pr_inner _ _ _ _ _ Hp) as P3.
  unfold auxHops in P1, P2. rewrite Forall_fmap in P1, P2. rewrite Forall_forall in P1, P2, P3 |- *. intros a Hin. split_and!; [by apply P1|by apply P2|by apply P3].
Qed.

(** ** Rules lead where they say *)

(** A rule of the profile that names another profile. *)
Definition namesProfile (route : RouteProfile) (item : RouteRule) : Prop :=
  item ∈ Rules route /\ disabled item = false /\ ruleKind item <> endpointPreferredBy /\ routes item = true /\ 0 <= outboundID item.

Lemma rule_used route item : isRaw route = false -> namesProfile route item -> outboundID item ∈ get_used_outbounds (parseObject pre) route.
Proof.
  intros Hr (Hin & Hd & Hk & Hro & _). unfold get_used_outbounds. rewrite Hr. apply list_elem_of_omap. exists item. split; [done|].
  by rewrite Hd, (bool_decide_false _ Hk), Hro.
Qed.

Lemma promised_passes c b route c1 tag ids : Stages c b route c1 -> portsDistinct (bd_outbounds b) ->
  (tag, ids) ∈ chainWays routeChainPrefix (routeHops (bd_deps b)) 0 \/
  (forTest c = false /\ (tag, ids) ∈ chainWays auxEndpointPrefix (auxHops (bd_deps b)) 0) -> passes env (bd_outbounds b) tag ids.
Proof.
  intros [[x ->] _ _ Hw E He _ _ _] Hp Hin. rewrite E in *. destruct (section_ready env set _ _ Hw He) as (g & _ & [T W]).
  rewrite Forall_forall in W. apply (W (tag, ids)); [|done|by eapply Tagged_distinct]. unfold sectionWays. rewrite !elem_of_app. right.
  destruct Hin as [Hin|[Hf Hin]]; [by left|right]. cbn [forTest set_proxyUsesXray]. by rewrite Hf.
Qed.

Lemma chainWays_tag p groups s tag ids : (tag, ids) ∈ chainWays p groups s -> tag <> [].
Proof.
  revert s. induction groups as [|g groups IH]; intros s; cbn [chainWays]; [by intros ?%elem_of_nil|].
  intros [[= -> _]|H]%elem_of_cons; [|by eapply IH]. unfold hopTag. intros E. apply app_eq_nil in E as [_ E]. done.
Qed.

(** C1: once a build has succeeded, with bridges at distinct ports, a rule that names a
    profile has the tag of an outbound that leads through exactly the hops of that
    profile, in their order. *)
Theorem rule_leads_through_its_profile c b route item : Startable c -> buildRouting c = inr b -> routeProfile pre = Some route -> isRaw route = false ->
  portsDistinct (bd_outbounds b) -> namesProfile route item ->
  exists tag, jsonGet (ruleObject (ruleEnv re) (outboundMap (bd_deps b)) item) (qs "outbound") = Some (JString tag) /\
    passes env (bd_outbounds b) tag (unwrapChain env (outboundID item)).
Proof.
  intros Hs Hb Hr Hraw Hp Hn. destruct (build_stages c b Hs Hb) as (route' & c1 & St). pose proof (bs_route _ _ _ _ St) as Hr'. rewrite Hr in Hr'. injection Hr' as <-.
  destruct (pr_used _ _ _ _ _ (bs_promised _ _ _ _ St) (outboundID item) (rule_used route item Hraw Hn)) as (tag & Hm & Hw); [apply Hn|].
  destruct Hn as (_ & _ & Hk & Hro & _). exists tag. split.
  - unfold ruleObject. rewrite rule_outbound by done. rewrite Hro. unfold tagFor. rewrite Hm. cbn [default]. pose proof (chainWays_tag _ _ _ _ _ Hw). by destruct tag.
  - eapply promised_passes; [exact St|done|by left].
Qed.

(** C4: an endpoint of the routing profile, in a build that is no test, has a tag that
    leads through its hops, none of which another chain of a rule uses. *)
Theorem endpoint_leads_through_its_hops c b route id : Startable c -> buildRouting c = inr b -> routeProfile pre = Some route -> forTest c = false ->
  portsDistinct (bd_outbounds b) -> id ∈ endpointProfileIDs route ->
  exists tag, outboundMap (bd_deps b) !! id = Some tag /\ passes env (bd_outbounds b) tag (unwrapChain env id).
Proof.
  intros Hs Hb Hr Hf Hp Hin. destruct (build_stages c b Hs Hb) as (route' & c1 & St). pose proof (bs_route _ _ _ _ St) as Hr'. rewrite Hr in Hr'. injection Hr' as <-.
  destruct (pr_endpoints _ _ _ _ _ (bs_promised _ _ _ _ St) id Hin) as (tag & Hm & Hw). exists tag. split; [done|].
  eapply promised_passes; [exact St|done|by right].
Qed.

(** ** No rule names what is not there *)

Definition coreTags (config : QJsonObject) : list qstring := map tagOf (members config (qs "outbounds") ++ members config (qs "endpoints")).
Definition routeOf (config : QJsonObject) : QJsonObject := jsonToObject (jsonGet config (qs "route")).

(** The outbound of a rule, where it has one, is a tag of the list. *)
Definition namesOneOf (tags : list qstring) (r : QJsonObject) : Prop :=
  jsonGet r (qs "outbound") = None \/ exists t, jsonGet r (qs "outbound") = Some (JString t) /\ t ∈ tags.

(** The outbounds a rule may name in the editor: the built-in ones and profiles. *)
Definition namesKnown (item : RouteRule) : Prop :=
  disabled item = false -> ruleKind item <> endpointPreferredBy -> routes item = true ->
  outboundID item ∈ [proxyID; directID; warpBypassID] \/ 0 <= outboundID item.

Lemma config_tags c b route c1 : Stages c b route c1 ->
  members (coreConfig (bd_outbounds b)) (qs "outbounds") = outbounds (bd_outbounds b) /\
  members (coreConfig (bd_outbounds b)) (qs "endpoints") = endpoints (bd_outbounds b).
Proof.
  intros [_ _ _ _ E He _ _ _]. rewrite E in *. destruct (section_stages env set _ _ He) as (g & d1 & d3 & _ & _ & _ & _ & _ & _ & -> & _).
  unfold writeOutbounds. cbv zeta. cbn [coreConfig outbounds endpoints set_coreConfig set_outbounds]. split; apply members_objects.
  - by rewrite jsonGet_set_same.
  - by rewrite jsonGet_set_other, jsonGet_set_same by done.
Qed.

Lemma route_written c b route c1 : Stages c b route c1 -> isRaw route = false ->
  bd_config b = writeRoute (routeObject env set re route [] (bd_deps b) (bd_outbounds b)) (bd_outbounds b).
Proof.
  intros [_ Hr _ _ _ _ _ E He] Hraw. rewrite E in *. unfold buildRouteSection in *. rewrite Hr, Hraw in *. cbn [andb] in *.
  by destruct (bridgeIngressMismatch (bd_outbounds b)).
Qed.

Lemma written_tags c b route c1 t : Stages c b route c1 -> isRaw route = false ->
  tagged (bd_outbounds b) t <-> t ∈ coreTags (coreConfig (bd_config b)).
Proof.
  intros St Hraw. rewrite (route_written _ _ _ _ St Hraw). destruct (config_tags _ _ _ _ St) as [E1 E2]. unfold coreTags, members in *.
  cbn [writeRoute coreConfig set_coreConfig]. rewrite !jsonGet_set_other, E1, E2 by done. unfold tagged, emitted. rewrite !map_app, !elem_of_app. tauto.
Qed.

Lemma mapped_tagged deps c c' tag : SectionTags set deps c c' -> forTest c = false -> mappedTag set deps tag -> tagged c' tag.
Proof.
  intros [P W D _ R A _ _] Hf [(id & Hb)|[(ids & Hw)|Hp]]; [|by eapply R|by apply A]. unfold builtinTags in Hb.
  rewrite !lookup_insert in Hb. repeat case_decide; simplify_eq; try done. destruct (enable_warp set) eqn:E; [by apply W|done].
Qed.

Lemma mapped_nonempty deps tag : mappedTag set deps tag -> tag <> [].
Proof.
  intros [(id & Hb)|[(ids & Hw)|(k & _ & ->)]]; [|by eapply chainWays_tag|].
  - unfold builtinTags in Hb. rewrite !lookup_insert in Hb. repeat case_decide; simplify_eq; by try destruct (enable_warp set).
  - unfold hopTag. intros E. by apply app_eq_nil in E as [_ E].
Qed.

Lemma rules_known c b route c1 : Stages c b route c1 -> isRaw route = false -> Forall namesKnown (Rules route) ->
  Forall (knows (outboundMap (bd_deps b))) (Rules route).
Proof.
  intros St Hraw Hk. pose proof (bs_promised _ _ _ _ St) as Pr. rewrite Forall_forall in Hk |- *. intros item Hin Hd He Hro.
  assert (is_Some (outboundMap (bd_deps b) !! outboundID item)) as [tag Ht].
  { destruct (Hk item Hin Hd He Hro) as [Hb|Hp].
    - apply (pr_builtin _ _ _ _ _ Pr). unfold builtinTags. rewrite !lookup_insert. repeat case_decide; try by eexists. set_solver.
    - destruct (pr_used _ _ _ _ _ Pr (outboundID item) (rule_used route item Hraw ltac:(by split_and!)) Hp) as (tag & Ht & _). by exists tag. }
  exists tag. split; [done|]. eapply mapped_nonempty, (pr_map _ _ _ _ _ Pr), Ht.
Qed.

Lemma namesOneOf_route tags k v t : k <> qs "outbound" -> t ∈ tags -> namesOneOf tags (routeTo k v t).
Proof. intros Hk Ht. right. exists t. split; [|done]. unfold routeTo. cbn [jsonGet]. by rewrite (bool_decide_false _ Hk). Qed.
Lemma namesOneOf_twins tags rules : (l3Bridge set = true -> tagL3Direct ∈ tags) -> l3Bridge set = true ->
  Forall (fun v => namesOneOf tags (jsonToObject (Some v))) rules -> Forall (fun v => namesOneOf tags (jsonToObject (Some v))) (withL3BridgeTwins rules).
Proof.
  intros Hl E. unfold withL3BridgeTwins. induction 1 as [|v rules Hv _ IH]; [constructor|]. cbn [flat_map]. apply Forall_app. split; [|done].
  assert (namesOneOf tags (l3BridgeTwin (jsonToObject (Some v)))) by (right; exists tagL3Direct; split; [by unfold l3BridgeTwin; rewrite jsonGet_set_same|by apply Hl]).
  destruct (wantsTwin _); repeat (apply Forall_cons_2; [done|]); by apply Forall_nil_2.
Qed.

Lemma orElse_other o k v k' : k <> k' -> jsonGet (orElse o k v) k' = jsonGet o k'.
Proof. intros H. unfold orElse. destruct (jsonHas o k); [done|]. by apply jsonGet_set_other. Qed.
Lemma routeObject_keys route deps c : isRaw route = false -> let o := routeObject env set re route [] deps c in
  jsonGet o (qs "rules") = Some (JArray (routeRules set re route [] deps c)) /\ jsonGet o (qs "final") = Some (jtext (finalTag set route [])) /\
  jsonGet o (qs "rule_set") = Some (JArray (map JObject (buildRuleSetArray re route))).
Proof.
  intros Hraw. unfold routeObject. rewrite Hraw, app_nil_r. cbv zeta.
  destruct (spmode_vpn re), (enable_stats re); rewrite !orElse_other by done; split_and!; rewrite ?jsonGet_set_same; try done;
    rewrite !jsonGet_set_other by done; by rewrite jsonGet_set_same.
Qed.

(** What each part of the list names, when the tags of the build are there. *)
Section Parts.
Context (tags : list qstring) (deps : RoutingDeps) (c1 c2 : BuildContext) (route : RouteProfile).
Hypothesis Tg : SectionTags set deps c1 c2.
Hypothesis HT : forall t, tagged c2 t -> t ∈ tags.
Notation fine := (namesOneOf tags).

Lemma bridges_fine : Forall fine (bridgeRules c2).
Proof.
  apply Forall_forall. intros r (i & Hi)%list_elem_of_lookup. unfold bridgeRules in Hi. rewrite lookup_zip_with in Hi.
  destruct (xrayToSingBridges c2 !! i) as [b|]; [|done]. destruct (singIngressTags c2 !! i) as [t|] eqn:Et; [|done]. injection Hi as <-.
  apply namesOneOf_route; [done|]. pose proof (st_ingress _ _ _ _ Tg) as F. rewrite Forall_lookup in F. by apply HT, (F i).
Qed.
Lemma injected_fine : Forall fine (injectedRules re route c2 ++ providerAppRules re c2).
Proof.
  unfold injectedRules, providerAppRules, appRule. each; try by left.
  all: right; eexists; split; [done|]; apply HT, Tg.
Qed.
Lemma gate_fine t : tagged c2 t -> fine (gate t).
Proof. intros Ht. apply namesOneOf_route; [done|by apply HT]. Qed.
Lemma aux_fine rules : Forall fine (auxRules route rules c2).
Proof.
  unfold auxRules. apply Forall_fmap, Forall_forall. intros t [Hin _]%list_elem_of_In%filter_In. apply list_elem_of_In in Hin.
  apply gate_fine. pose proof (st_listed _ _ _ _ Tg) as F. rewrite Forall_forall in F. by apply F.
Qed.
Lemma ending_fine final : tagged c2 final ->
  Forall fine (l3FinalRules set route final ++ fallthroughRules re final c2 ++ (if negb (isRaw route) && (defaultOutboundID route =? blockID) then [rejectAll] else [])).
Proof.
  intros Hf. unfold l3FinalRules, fallthroughRules. destruct (l3Bridge set) eqn:El; cbn [andb]; each; try (by left); try (by apply gate_fine).
  all: first [left; by destruct (isEmpty _) | apply gate_fine; by apply Tg].
Qed.
Lemma profile_fine m : isRaw route = false -> Forall (knows m) (Rules route) -> (forall id t, m !! id = Some t -> tagged c2 t) ->
  Forall (fun v => fine (jsonToObject (Some v))) (profileRules set re route [] m).
Proof.
  intros Hraw Hk Hm. unfold profileRules. rewrite Hraw. cbv zeta.
  assert (Forall (fun v => fine (jsonToObject (Some v))) (map JObject (get_route_rules (ruleEnv re) (adblock_enable re) false m (Rules route)).1)) as H.
  { apply Forall_fmap. eapply Forall_impl; [by apply route_rules_tagged|]. cbn. intros o [Hn|(id & t & Ht & Ho)]; [by left|right]. exists t. split; [done|]. by eapply HT, Hm. }
  destruct (l3Bridge set) eqn:El; [|done]. apply namesOneOf_twins; [|done|done]. intros _. by apply HT, Tg.
Qed.
End Parts.

(** C2: in a build that succeeds, from a profile whose rules name known outbounds, every
    outbound that a rule of the route section names, and the final one, is an
    outbound or endpoint of the same configuration. *)
Theorem no_dangling_outbound c b route : Startable c -> buildRouting c = inr b -> routeProfile pre = Some route -> isRaw route = false ->
  forTest c = false -> Forall namesKnown (Rules route) -> defaultOutboundID route ∈ [proxyID; directID; blockID; warpBypassID] ->
  let config := coreConfig (bd_config b) in
  Forall (namesOneOf (coreTags config)) (members (routeOf config) (qs "rules")) /\ jsonText (jsonGet (routeOf config) (qs "final")) ∈ coreTags config.
Proof.
  intros Hs Hb Hr Hraw Hf Hk Hd config. destruct (build_stages c b Hs Hb) as (route' & c1 & St). pose proof (bs_route _ _ _ _ St) as Hr'.
  rewrite Hr in Hr'. injection Hr' as <-. pose proof (bs_tags _ _ _ _ St) as Tg. assert (forTest c1 = false) as Hf1 by (by destruct (bs_start _ _ _ _ St) as [x ->]).
  assert (forall t, tagged (bd_outbounds b) t -> t ∈ coreTags config) as HT by (intros t; by apply (written_tags _ _ _ _ t St)).
  pose proof (rules_known _ _ _ _ St Hraw Hk) as Hknows. pose proof (route_written _ _ _ _ St Hraw) as Ew.
  set (tags := coreTags config) in *. set (c2 := bd_outbounds b) in *. set (deps := bd_deps b) in *.
  destruct (routeObject_keys route deps c2 Hraw) as (R1 & R2 & _).
  assert (routeOf config = routeObject env set re route [] deps c2) as ->.
  { unfold config, routeOf. rewrite Ew. cbn [writeRoute coreConfig set_coreConfig]. by rewrite jsonGet_set_same. }
  assert (tagged c2 (finalTag set route [])) as Hfin.
  { unfold finalTag. rewrite Hraw. destruct Tg as [P W D _ _ _ _ _]. rewrite !elem_of_cons, elem_of_nil in Hd.
    destruct Hd as [->|[->|[->|[->|[]]]]]; cbn; try done. destruct (enable_warp set) eqn:E; [by apply W|done]. }
  split; [|rewrite R2; by apply HT].
  unfold members. rewrite R1. apply Forall_fmap. cbn [jsonToArray]. unfold routeRules. cbv zeta. rewrite !Forall_app. split_and!.
  - apply Forall_fmap, Forall_app. split; [by eapply bridges_fine|by eapply injected_fine].
  - eapply profile_fine; [exact Tg|exact HT|done|done|]. intros id t Ht. eapply mapped_tagged; [exact Tg|done|]. by eapply pr_map; [apply St|].
  - apply Forall_fmap, Forall_app. split; [by eapply aux_fine|by eapply ending_fine].
Qed.

(** ** The rule sets that rules name and those that are defined *)

Definition definedRuleSets (config : QJsonObject) : list (qstring * qstring) :=
  map (fun o => (tagOf o, jsonText (jsonGet o (qs "url")))) (members (routeOf config) (qs "rule_set")).
Definition ruleSetTags (config : QJsonObject) : list qstring := map fst (definedRuleSets config).
Definition ruleSetsNamed (r : QJsonObject) : list qstring := map (fun v => jsonText (Some v)) (jsonToArray (jsonGet r (qs "rule_set"))).

(** The name and the address of a rule set as the editor stores it, if the build knows it. *)
Definition sourceOf (s : qstring) : option (qstring * qstring) :=
  if srsUrl (ruleEnv re) s then Some (srsName (ruleEnv re) s, s)
  else if decide (ruleSetUrlOf re s = []) then None else Some (s, get_jsdelivr_link re (ruleSetUrlOf re s)).

(** A rule set of a rule that is switched on. *)
Definition usedRuleSet (route : RouteProfile) (s : qstring) : Prop :=
  exists item, item ∈ Rules route /\ disabled item = false /\ s ∈ rule_set item.

Lemma dedup_elem x l : x ∈ dedup l <-> x ∈ l.
Proof.
  induction l as [|y l IH]; cbn; [done|]. rewrite !elem_of_cons, list_elem_of_In, filter_In, <- list_elem_of_In, IH, negb_true_iff, bool_decide_eq_false.
  destruct (decide (x = y)); naive_solver.
Qed.

Lemma needed_used route s : s ∈ neededRuleSets route <-> usedRuleSet route s.
Proof.
  unfold neededRuleSets, usedRuleSet. rewrite dedup_elem. unfold get_used_rule_sets. rewrite flat_map_elem.
  split; intros (item & Hin & H); exists item; destruct (disabled item); try (by destruct H as [? _]); try set_solver.
Qed.

(** What the build defines, exactly. *)
Lemma rule_sets_written route tag url :
  (tag, url) ∈ map (fun o => (tagOf o, jsonText (jsonGet o (qs "url")))) (buildRuleSetArray re route) <->
    (exists s, usedRuleSet route s /\ sourceOf s = Some (tag, url)) \/
    (adblock_enable re = true /\ tag = adblockRuleSet /\ url = get_jsdelivr_link re (adblockUrl re)) \/
    (privateRanges re <> None /\ tag = privateRangesRuleSet /\ url = []).
Proof.
  unfold buildRuleSetArray. rewrite !map_app, !elem_of_app. f_equiv; [|f_equiv].
  - rewrite list_elem_of_fmap. split.
    + intros (o & E & (s & Hs%needed_used & Ho)%flat_map_elem). exists s. split; [done|]. revert Ho. unfold ruleSetObject, sourceOf, get_rule_set_name.
      destruct (srsUrl _ s); [intros ->%list_elem_of_singleton; by rewrite E|].
      destruct (ruleSetUrlOf re s) eqn:Eu; cbn [isEmpty]; [by intros ?%elem_of_nil|]. rewrite decide_False by done.
      intros ->%list_elem_of_singleton. by rewrite E.
    + intros (s & Hs & E). exists (remoteRuleSet tag url). split; [done|]. apply flat_map_elem. exists s. split; [by apply needed_used|].
      revert E. unfold ruleSetObject, sourceOf, get_rule_set_name. destruct (srsUrl _ s) eqn:Ev; [intros [= <- <-]; apply list_elem_of_here|].
      destruct (decide _) as [|Hn]; [done|]. intros [= <- <-]. destruct (ruleSetUrlOf re s); [done|]. apply list_elem_of_here.
  - destruct (adblock_enable re); cbn [map]; rewrite ?list_elem_of_singleton; [|split; [by intros ?%elem_of_nil | by intros [? _]]].
    cbn. split; [intros [= -> ->]; done | by intros (_ & -> & ->)].
  - destruct (privateRanges re) as [l|]; cbn [map]; rewrite ?list_elem_of_singleton; [|split; [by intros ?%elem_of_nil | by intros [? _]]].
    cbn. split; [intros [= -> ->]; done | by intros (_ & -> & ->)].
Qed.

(** The rule sets of a rule's object are those of the rule, without the spaces around them. *)
Lemma object_rule_sets m item : ruleSetsNamed (ruleObject (ruleEnv re) m item) ⊆ map (get_rule_set_name (ruleEnv re)) (filterEmpty (rule_set item)).
Proof.
  unfold ruleSetsNamed, ruleObject. destruct (decide (ruleKind item = endpointPreferredBy)) as [E|E].
  { unfold get_rule_json. rewrite bool_decide_true by done. cbn [fst]. destruct (isEmpty _); intros x Hx; by apply elem_of_nil in Hx. }
  rewrite custom_not_endpoint by done. cbn [fst]. destruct (actionJson _ _ _ _) as [o|] eqn:Ea; [|intros x Hx; by apply elem_of_nil in Hx].
  rewrite conditions_rule_set. destruct (isValidStrArray (rule_set item)).
  - unfold get_as_array_by, stripped. cbn [jsonToArray]. by rewrite map_map.
  - cbn [app jsonGet]. rewrite bool_decide_false by done. rewrite (avoids_none [qs "rule_set"]); [intros x Hx; by apply elem_of_nil in Hx|by eapply action_no_rule_set|by apply (bool_decide_unpack _)].
Qed.

(** A stored name is defined under the name that the rule uses, or it is one that the
    build does not know or that has spaces around it. *)
Definition unfound (s : qstring) : Prop := sourceOf s = None \/ trimmed s <> s.
Definition accounted (route : RouteProfile) (tags : list qstring) (r : QJsonObject) : Prop :=
  forall x, x ∈ ruleSetsNamed r -> x ∈ tags \/ exists s, usedRuleSet route s /\ unfound s /\ trimmed s <> [] /\ x = get_rule_set_name (ruleEnv re) (trimmed s).

Lemma object_accounted m route item tags : item ∈ Rules route -> disabled item = false ->
  (forall s t u, usedRuleSet route s -> sourceOf s = Some (t, u) -> t ∈ tags) -> accounted route tags (ruleObject (ruleEnv re) m item).
Proof.
  intros Hin Hd Ht x Hx%object_rule_sets. apply list_elem_of_fmap in Hx as (y & -> & Hy). unfold filterEmpty in Hy.
  apply list_elem_of_In, filter_In in Hy as [Hy Hn]. apply list_elem_of_In, list_elem_of_fmap in Hy as (s & -> & Hs).
  assert (Hu : usedRuleSet route s) by (by exists item). assert (trimmed s <> []) by (by destruct (trimmed s)).
  destruct (sourceOf s) as [[t u]|] eqn:E; [|right; exists s; by repeat split; [|left|]].
  destruct (decide (trimmed s = s)) as [Es|Es]; [|right; exists s; by repeat split; [|right|]].
  left. rewrite Es. assert (get_rule_set_name (ruleEnv re) s = t) as ->; [|by eapply Ht].
  unfold sourceOf, get_rule_set_name in *. destruct (srsUrl _ s); [by injection E|]. destruct (decide _); [done|]. by injection E.
Qed.

Definition noRuleSet (r : QJsonObject) : Prop := ruleSetsNamed r = [].
Lemma added_no_rule_set route c : isRaw route = false -> forall rules final, Forall noRuleSet (bridgeRules c ++ injectedRules re route c ++ providerAppRules re c) /\
  Forall noRuleSet (auxRules route rules c ++ l3FinalRules set route final ++ fallthroughRules re final c ++
                    (if negb (isRaw route) && (defaultOutboundID route =? blockID) then [rejectAll] else [])).
Proof.
  intros Hraw rules final. split.
  - apply Forall_app. split.
    + apply Forall_forall. intros r (i & Hi)%list_elem_of_lookup. unfold bridgeRules in Hi. rewrite lookup_zip_with in Hi.
      destruct (xrayToSingBridges c !! i); [|done]. destruct (singIngressTags c !! i); [|done]. by injection Hi as <-.
    + unfold injectedRules, providerAppRules, appRule. each; done.
  - apply Forall_app. split.
    + unfold auxRules. apply Forall_fmap, Forall_forall. done.
    + unfold l3FinalRules, fallthroughRules. destruct (l3Bridge set); cbn [andb]; each; try done; unfold noRuleSet; by destruct (isEmpty _).
Qed.

Lemma twins_rule_sets route tags rules : Forall (fun v => accounted route tags (jsonToObject (Some v))) rules ->
  Forall (fun v => accounted route tags (jsonToObject (Some v))) (withL3BridgeTwins rules).
Proof.
  unfold withL3BridgeTwins. induction 1 as [|v rules Hv _ IH]; [constructor|]. cbn [flat_map]. apply Forall_app. split; [|done].
  assert (accounted route tags (l3BridgeTwin (jsonToObject (Some v)))).
  { intros x. unfold ruleSetsNamed, l3BridgeTwin. rewrite !jsonGet_set_other by done. apply Hv. }
  destruct (wantsTwin _); repeat (apply Forall_cons_2; [done|]); by apply Forall_nil_2.
Qed.

Lemma none_accounted route tags r : noRuleSet r -> accounted route tags r.
Proof. intros Hn x. rewrite Hn. by intros ?%elem_of_nil. Qed.

Lemma profile_accounted route m tags : isRaw route = false -> (adblock_enable re = true -> adblockRuleSet ∈ tags) ->
  (forall s t u, usedRuleSet route s -> sourceOf s = Some (t, u) -> t ∈ tags) ->
  Forall (fun v => accounted route tags (jsonToObject (Some v))) (profileRules set re route [] m).
Proof.
  intros Hraw Had Ht. unfold profileRules. rewrite Hraw. cbv zeta.
  assert (Forall (fun v => accounted route tags (jsonToObject (Some v)))
    (map JObject (get_route_rules (ruleEnv re) (adblock_enable re) false m (Rules route)).1)) as H.
  { apply Forall_fmap. rewrite route_rules_spec. cbv zeta. apply Forall_forall. intros o Ho.
    assert (o ∈ map (ruleObject (ruleEnv re) m) (kept (ruleEnv re) m (Rules route)) \/ (adblock_enable re = true /\ o = adblockRule)) as [Hin| [Ha ->]].
    { destruct (adblock_enable re); [apply insertBlock_elem in Ho as [->|Ho]; [by right|by left]|by left]. }
    - apply list_elem_of_fmap in Hin as (item & -> & Hin). apply list_elem_of_In, filter_In in Hin as [Hin Hd]. apply list_elem_of_In in Hin.
      apply object_accounted; [done| |done]. unfold dropped, skipped in Hd; by destruct (disabled item).
    - intros x [->|Hx]%elem_of_cons; [|by apply elem_of_nil in Hx]. left. by apply Had. }
  destruct (l3Bridge set); [by apply twins_rule_sets|done].
Qed.

(** C3: In a build that succeeds, the rule sets that the route section defines are, name
    and address, exactly those the build knows among the stored rule sets of the rules
    that are switched on, the block list of advertisements when it is switched on, and
    the private ranges when they are kept as a rule set. A rule set that a rule of the
    section names is one of them, unless it was stored under a name that the build does
    not know or with spaces around its name, which the rule leaves out. *)
Theorem rule_sets_defined c b route : Startable c -> buildRouting c = inr b -> routeProfile pre = Some route -> isRaw route = false ->
  let config := coreConfig (bd_config b) in
  (forall tag url, (tag, url) ∈ definedRuleSets config <->
     (exists s, usedRuleSet route s /\ sourceOf s = Some (tag, url)) \/
     (adblock_enable re = true /\ tag = adblockRuleSet /\ url = get_jsdelivr_link re (adblockUrl re)) \/
     (privateRanges re <> None /\ tag = privateRangesRuleSet /\ url = [])) /\
  Forall (fun r => forall x, x ∈ ruleSetsNamed r -> x ∈ ruleSetTags config \/
    exists s, usedRuleSet route s /\ unfound s /\ trimmed s <> [] /\ x = get_rule_set_name (ruleEnv re) (trimmed s))
    (members (routeOf config) (qs "rules")).
Proof.
  intros Hs Hb Hr Hraw config. destruct (build_stages c b Hs Hb) as (route' & c1 & St). pose proof (bs_route _ _ _ _ St) as Hr'.
  rewrite Hr in Hr'. injection Hr' as <-. pose proof (route_written _ _ _ _ St Hraw) as Ew.
  set (c2 := bd_outbounds b) in *. set (deps := bd_deps b) in *. destruct (routeObject_keys route deps c2 Hraw) as (R1 & _ & R3).
  assert (routeOf config = routeObject env set re route [] deps c2) as Eo.
  { unfold config, routeOf. rewrite Ew. cbn [writeRoute coreConfig set_coreConfig]. by rewrite jsonGet_set_same. }
  pose proof (rule_sets_written route) as Hd.
  assert (definedRuleSets config = map (fun o => (tagOf o, jsonText (jsonGet o (qs "url")))) (buildRuleSetArray re route)) as Ed.
  { unfold definedRuleSets. by rewrite Eo, (members_objects _ _ _ R3). }
  rewrite <- Ed in Hd.
  split; [exact Hd|]. change (Forall (accounted route (ruleSetTags config)) (members (routeOf config) (qs "rules"))).
  assert (Ht : forall tag url, (tag, url) ∈ definedRuleSets config -> tag ∈ ruleSetTags config).
  { intros tag url H. apply list_elem_of_fmap. by exists (tag, url). }
  rewrite Eo. unfold members. rewrite R1. apply Forall_fmap. cbn [jsonToArray].
  destruct (added_no_rule_set route c2 Hraw (profileRules set re route [] (outboundMap deps)) (finalTag set route [])) as [A1 A2].
  unfold routeRules. cbv zeta. rewrite !Forall_app. split_and!.
  - apply Forall_fmap. eapply Forall_impl; [exact A1|]. intros r. apply none_accounted.
  - apply profile_accounted; [done| |].
    + intros Ha. eapply Ht, Hd. right; left. by repeat split.
    + intros s t u Hu Hsrc. eapply Ht, Hd. left. by exists s.
  - apply Forall_fmap. eapply Forall_impl; [exact A2|]. intros r. apply none_accounted.
Qed.
End Routing.

(** ** An example: a started chain, a rule to a server and an endpoint *)

Module RoutingSample.
Definition tunnel : Profile :=
  MkProfile 6 0 (qs "openvpn") (qs "office") (qs "vpn.example.org") None None false false false true false false false None [] false
    ([(qs "type", jtext (qs "openvpn"))], []) ([], []).
Definition profile (id : Z) : option Profile := if id =? 6 then Some tunnel else Sample.profile id.
Definition env : BuildEnv :=
  MkBuildEnv profile (fun _ => Some (MkGroup [] (-1) (-1))) [0] (qs "wireguard") ([], []) (fun p => p) (fun _ => false) (fun h => h) (fun h => h)
    (fun _ => None) [] (qs "prefer_ipv4") false false (fun o => o) (fun o t => jsonSet o (qs "dialerProxy") (jtext t)) (fun o => o)
    (fun k n => map (fun i => 20000 + 100 * k + Z.of_nat i) (seq 0 n)) (fun k => number k).

Definition toServer : RouteRule := set_outboundID 4 (set_domain [qs "example.com"] newRule).
Definition toDirect : RouteRule := set_rule_set [qs "geosite-cn"] newRule.
Definition toEndpoint : RouteRule := MakeEndpointRule (fun _ => qs "office") 6.
Definition route : RouteProfile := MkRoute [toServer; toDirect; toEndpoint] (-1) false [] false [6] [].
Definition ofRoute (r : RouteProfile) (raw : QJsonObject) : PrerequisitesEnv := MkPrereqEnv (Some r) true (fun _ => raw) p_type.
Definition pre : PrerequisitesEnv := ofRoute route [].
Definition re : RouteEnv :=
  MkRouteEnv (MkRuleEnv (fun s => s) (fun _ => false) (fun s => s) (fun _ => None)) true (qs "prefer_ipv4") true true true false [] [] [] (fun _ => [])
    (fun s => if bool_decide (s = qs "geosite-cn") then qs "https://example.org/cn.srs" else []) (fun u => u) (qs "https://example.org/ads.srs") None.
Definition start : BuildContext := Sample.start Sample.chainProfile.
Definition build (pre : PrerequisitesEnv) : BuildError + Build := buildRouting env Sample.sampleSet pre re start.
Definition built (pre : PrerequisitesEnv) : Build := match build pre with inr b => b | inl _ => MkBuild (MkRouting ∅ [] []) start start end.
Definition succeeds (pre : PrerequisitesEnv) : bool := match build pre with inr _ => true | inl _ => false end.
Definition rulesOf (b : Build) : list QJsonObject := members (routeOf (coreConfig (bd_config b))) (qs "rules").

Lemma built_inr pre : succeeds pre = true -> buildRouting env Sample.sampleSet pre re start = inr (built pre).
Proof. unfold succeeds, built, build. by destruct (buildRouting _ _ _ _ _). Qed.
Lemma startable : Startable start.
Proof. split; [by split_and!|done|exact Sample.chain_own]. Qed.
Lemma distinct : portsDistinct (bd_outbounds (built pre)).
Proof. split; apply (bool_decide_unpack _); vm_compute; exact I. Qed.

(** A raw profile used as it is has no rule for the bridge back from Xray, so what
    comes back goes where its other rules say: to the proxy, which is the chain
    it came from. *)
Example verbatim_drops_bridges :
  let raw := MkRoute [] (-1) true (qs "raw") true [] [] in
  let pre := ofRoute raw [(qs "final", jtext (qs "proxy"))] in
  succeeds pre = true /\ length (xrayToSingBridges (bd_outbounds (built pre))) = 1%nat /\ rulesOf (built pre) = [].
Proof. by vm_compute. Qed.

(** A rule set stored with a space around its name reaches the rule without it, and
    is not defined. *)
Example stray_rule_set_undefined :
  let stray := MkRoute [set_rule_set [qs " geosite-cn"] newRule] (-1) false [] false [] [] in
  let b := built (ofRoute stray []) in
  succeeds (ofRoute stray []) = true /\ qs "geosite-cn" ∈ concat (map ruleSetsNamed (rulesOf b)) /\ qs "geosite-cn" ∉ ruleSetTags (coreConfig (bd_config b)).
Proof. split; [by vm_compute|]. split; apply (bool_decide_unpack _); vm_compute; exact I. Qed.
End RoutingSample.

Lemma rule_leads_through_its_profile_witness : let b := RoutingSample.built RoutingSample.pre in exists tag,
  jsonGet (ruleObject (ruleEnv RoutingSample.re) (outboundMap (bd_deps b)) RoutingSample.toServer) (qs "outbound") = Some (JString tag) /\
  passes RoutingSample.env (bd_outbounds b) tag [4].
Proof.
  assert (RoutingSample.succeeds RoutingSample.pre = true) as E by (vm_compute; reflexivity).
  destruct (rule_leads_through_its_profile RoutingSample.env Sample.sampleSet RoutingSample.pre RoutingSample.re RoutingSample.start (RoutingSample.built RoutingSample.pre)
    RoutingSample.route RoutingSample.toServer RoutingSample.startable (RoutingSample.built_inr _ E) eq_refl eq_refl RoutingSample.distinct
    ltac:(split_and!; [left|reflexivity|discriminate|reflexivity|cbn; lia])) as (tag & Ht & Hp). exists tag. split; [exact Ht|exact Hp].
Defined.

Lemma endpoint_leads_through_its_hops_witness : let b := RoutingSample.built RoutingSample.pre in exists tag, outboundMap (bd_deps b) !! 6 = Some tag /\ passes RoutingSample.env (bd_outbounds b) tag [6].
Proof.
  assert (RoutingSample.succeeds RoutingSample.pre = true) as E by (vm_compute; reflexivity).
  destruct (endpoint_leads_through_its_hops RoutingSample.env Sample.sampleSet RoutingSample.pre RoutingSample.re RoutingSample.start (RoutingSample.built RoutingSample.pre)
    RoutingSample.route 6 RoutingSample.startable (RoutingSample.built_inr _ E) eq_refl eq_refl RoutingSample.distinct ltac:(left)) as (tag & Ht & Hp).
  exists tag. split; [exact Ht|exact Hp].
Defined.

Lemma no_dangling_outbound_witness : let b := RoutingSample.built RoutingSample.pre in length (RoutingSample.rulesOf b) = 10%nat /\
  Forall (namesOneOf (coreTags (coreConfig (bd_config b)))) (RoutingSample.rulesOf b).
Proof.
  assert (RoutingSample.succeeds RoutingSample.pre = true) as E by (vm_compute; reflexivity). split.
  - vm_compute. reflexivity.
  - refine (proj1 (no_dangling_outbound RoutingSample.env Sample.sampleSet RoutingSample.pre RoutingSample.re RoutingSample.start (RoutingSample.built RoutingSample.pre)
      RoutingSample.route RoutingSample.startable (RoutingSample.built_inr _ E) eq_refl eq_refl eq_refl _ _)); [|left].
    apply Forall_cons; split; [|apply Forall_cons; split; [|apply Forall_cons; split; [|apply Forall_nil; exact I]]].
    + intros _ _ _. right. cbn. lia.
    + intros _ _ _. left. right. left.
    + intros _ Hk. by destruct Hk.
Defined.

Lemma rule_sets_defined_witness : let b := RoutingSample.built RoutingSample.pre in
  qs "geosite-cn" ∈ ruleSetTags (coreConfig (bd_config b)) /\ (qs "geosite-cn", qs "https://example.org/cn.srs") ∈ definedRuleSets (coreConfig (bd_config b)).
Proof.
  assert (RoutingSample.succeeds RoutingSample.pre = true) as E by (vm_compute; reflexivity).
  destruct (rule_sets_defined RoutingSample.env Sample.sampleSet RoutingSample.pre RoutingSample.re RoutingSample.start (RoutingSample.built RoutingSample.pre)
      RoutingSample.route RoutingSample.startable (RoutingSample.built_inr _ E) eq_refl eq_refl) as [D _].
  assert (H : (qs "geosite-cn", qs "https://example.org/cn.srs") ∈ definedRuleSets (coreConfig (bd_config (RoutingSample.built RoutingSample.pre)))).
  { apply D. left. exists (qs "geosite-cn"). split; [|vm_compute; reflexivity].
    exists RoutingSample.toDirect. split; [right; left|]. split; [reflexivity | left]. }
  split; [|exact H]. apply list_elem_of_fmap. eexists. split; [|exact H]. reflexivity.
Defined.

Lemma endpoint_rules_have_tags_witness : let '(c, deps) := calculatePrerequisites RoutingSample.env Sample.sampleSet RoutingSample.pre RoutingSample.start in
  endpointRuleTargets (AuxEndpointInnerHops RoutingSample.env) RoutingSample.route = [6] /\ is_Some (outboundMap deps !! 6).
Proof.
  destruct (calculatePrerequisites RoutingSample.env Sample.sampleSet RoutingSample.pre RoutingSample.start) as [c deps] eqn:E. split; [vm_compute; reflexivity|].
  refine (endpoint_rules_have_tags RoutingSample.env Sample.sampleSet RoutingSample.pre RoutingSample.start c deps RoutingSample.route eq_refl E _ eq_refl 6 _).
  - assert (errors (calculatePrerequisites RoutingSample.env Sample.sampleSet RoutingSample.pre RoutingSample.start).1 = []) as H by (vm_compute; reflexivity).
    rewrite E in H. exact H.
  - vm_compute. left.
Defined.
