(* ===== verification/ConfigCrossing.v ===== *)
(** * From core to core in the configurations that are written (src/src/configs/generate.cpp)

    [passes] follows a chain by the bridges the build keeps. Here the bridges are
    crossed as the two cores do it: by the inbound that listens at the port dialled and
    takes the credentials, and the first rule of that core's configuration that may take
    what arrives there. *)

From Stdlib Require Import Ascii String.
From S2P Require Import Prelude QtText Json Lists AutoSelector ConfigChains ConfigHops ConfigPath ConfigGrowth ConfigOutbounds ConfigSections ConfigDelivery.
From S2P Require Import RouteRules RouteProfiles ConfigPrerequisites ConfigTags ConfigRoute ConfigRouting.

Local Open Scope Z_scope.
#[local] Set Warnings "-register-all".

(** ** What the two cores do with their configurations *)

Definition coreOutbounds (core : QJsonObject) : list QJsonObject := members core (qs "outbounds") ++ members core (qs "endpoints").
Definition coreOutbound (core : QJsonObject) (t : qstring) : option QJsonObject :=
  List.find (fun o => bool_decide (tagOf o = t)) (coreOutbounds core).

Definition inboundPort (o : QJsonObject) : option Z := match jsonGet o (qs "listen_port") with Some (JInt p) => Some p | _ => None end.
Definition coreInboundAt (core : QJsonObject) (port : Z) : option QJsonObject :=
  List.find (fun o => bool_decide (inboundPort o = Some port)) (members core (qs "inbounds")).

(** A rule may take what arrives at an inbound when it names it or no inbound. *)
Definition mayTake (t : qstring) (r : QJsonObject) : bool :=
  match jsonGet r (qs "inbound") with
  | Some (JString u) => bool_decide (u = t)
  | Some (JArray l) => bool_decide (jtext t ∈ l)
  | _ => true
  end.
Definition coreRoute (core : QJsonObject) (port : Z) : option qstring :=
  i ← coreInboundAt core port;
  r ← List.find (mayTake (tagOf i)) (members (routeOf core) (qs "rules"));
  if bool_decide (jsonGet r (qs "action") = Some (jtext (qs "route"))) then Some (jsonText (jsonGet r (qs "outbound"))) else None.

(** What an outbound dials by SOCKS: address, port, user and password. *)
Record Dial := MkDial { d_host : qstring; d_port : Z; d_user : qstring; d_pass : qstring }.
Definition textAt (o : QJsonObject) (key : qstring) : qstring := jsonText (jsonGet o key).
Definition dialled (o : QJsonObject) : option Dial :=
  match jsonGet o (qs "server_port") with
  | Some (JInt p) =>
      if bool_decide (textAt o (qs "type") = qs "socks")
      then Some (MkDial (textAt o (qs "server")) p (textAt o (qs "username")) (textAt o (qs "password"))) else None
  | _ => None
  end.
Definition dialledByXray (o : QJsonObject) : option Dial :=
  let s := jsonToObject (jsonGet o (qs "settings")) in
  match jsonGet s (qs "port") with
  | Some (JInt p) =>
      if bool_decide (textAt o (qs "protocol") = qs "socks") then Some (MkDial (textAt s (qs "address")) p (textAt s (qs "user")) (textAt s (qs "pass"))) else None
  | _ => None
  end.

(** A SOCKS inbound that listens at the address dialled and takes the credentials. *)
Definition xrayAccepts (i : QJsonObject) (d : Dial) : bool :=
  bool_decide (textAt i (qs "protocol") = qs "socks") && bool_decide (textAt i (qs "listen") = d_host d) &&
  bool_decide (JObject [(qs "user", jtext (d_user d)); (qs "pass", jtext (d_pass d))] ∈
               jsonToArray (jsonGet (jsonToObject (jsonGet i (qs "settings"))) (qs "accounts"))).
Definition coreAccepts (i : QJsonObject) (d : Dial) : bool :=
  bool_decide (textAt i (qs "type") = qs "socks") && bool_decide (textAt i (qs "listen") = d_host d) &&
  bool_decide (JObject [(qs "username", jtext (d_user d)); (qs "password", jtext (d_pass d))] ∈ jsonToArray (jsonGet i (qs "users"))).

(** The node behind a node: what it detours or dials through, or what the other core
    does with what is dialled there. *)
Definition delivers (core xray : QJsonObject) (c : BuildContext) (n : Node) : option Node :=
  match n with
  | NSing o =>
      match jsonGet o (qs "detour") with
      | Some v => NSing <$> coreOutbound core (jsonText (Some v))
      | None =>
          d ← dialled o; i ← xrayInboundAt xray (d_port d); t ← xrayRoute xray (d_port d);
          if xrayAccepts i d then NXray <$> xrayAt c t else None
      end
  | NXray x =>
      match x_dialer x with
      | Some t => NXray <$> xrayAt c t
      | None =>
          d ← dialledByXray (x_object x); i ← coreInboundAt core (d_port d); t ← coreRoute core (d_port d);
          if coreAccepts i d then NSing <$> coreOutbound core t else None
      end
  end.

(** A node is there in the configuration of its core. *)
Definition isWritten (env : BuildEnv) (core xray : QJsonObject) (n : Node) : Prop :=
  match n with NSing o => o ∈ coreOutbounds core | NXray x => xrayObject env x ∈ members xray (qs "outbounds") end.

(** No two inbounds of the core listen at the same port. *)
Definition inboundsApart (core : QJsonObject) : Prop := NoDup (omap inboundPort (members core (qs "inbounds"))).

(** ** The way of a tag *)

(** A connection that the core sends to the outbound [tag] goes through the profiles
    [ids], in the configurations as written, and the last one dials for itself. *)
Definition leadsThrough (env : BuildEnv) (core xray : QJsonObject) (c : BuildContext) (tag : qstring) (ids : list Z) : Prop :=
  exists hops nodes, Forall2 (fun id p => hopOf env id = Some p) ids hops /\
    NSing <$> coreOutbound core tag = head nodes /\
    (forall i n m, nodes !! i = Some n -> nodes !! S i = Some m -> delivers core xray c n = Some m) /\
    Forall (isWritten env core xray) nodes /\ crosses c nodes hops /\
    (forall n p, last nodes = Some n -> last hops = Some p -> endsItself p n).

Section Crossing.
Context (env : BuildEnv) (set : OutboundsEnv) (pre : PrerequisitesEnv) (re : RouteEnv).

(** The configurations of the two cores once a build is done. *)
Definition coreWritten (b : Build) : QJsonObject := coreConfig (bd_config b).
Definition xrayWritten (b : Build) : QJsonObject := xrayConfig (buildXrayConfig env set (bd_config b)).

Lemma dials_dialled o w : dialsBridge o w = true -> dialled o = Some (MkDial (b_host w) (b_port w) (b_auth w) (b_auth w)).
Proof.
  unfold dialsBridge, bridgeDial. cbn [forallb fst snd]. rewrite !andb_true_iff, !bool_decide_eq_true. intros (H1 & H2 & H3 & H4 & H5 & _).
  unfold dialled, textAt. by rewrite H1, H2, H3, H4, H5.
Qed.
Lemma xray_accepts t w : xrayAccepts (xraySocksInbound t w) (MkDial (b_host w) (b_port w) (b_auth w) (b_auth w)) = true.
Proof. unfold xrayAccepts. rewrite !bool_decide_true; [done|apply list_elem_of_here|done..]. Qed.
Lemma core_accepts t w : coreAccepts (socksBridgeInbound t w) (MkDial (b_host w) (b_port w) (b_auth w) (b_auth w)) = true.
Proof. unfold coreAccepts. rewrite !bool_decide_true; [done|apply list_elem_of_here|done..]. Qed.

Lemma find_in_front {A} (P : A -> bool) (l k : list A) x : List.find P l = Some x -> List.find P (l ++ k) = Some x.
Proof. induction l as [|y l IH]; [done|]. cbn. by destruct (P y). Qed.

Lemma xray_config_core o c : xrayConfig (buildXrayConfig env set (set_coreConfig o c)) = xrayConfig (buildXrayConfig env set c).
Proof.
  unfold buildXrayConfig. cbn [xrayOutbounds set_coreConfig]. destruct (isEmpty (xrayOutbounds c)); [done|]. cbv zeta.
  cbn [xrayIngressTags singToXrayBridges set_coreConfig set_isXrayNeeded]. by destruct (negb _).
Qed.

(** A profile that is not used word for word gets its route section from the build. *)
Lemma section_written c b route c1 : Stages env set pre re c b route c1 -> isRaw route && preventModifications route = false ->
  exists raw, bd_config b = writeRoute (routeObject env set re route raw (bd_deps b) (bd_outbounds b)) (bd_outbounds b).
Proof.
  intros [_ Hr _ _ _ _ _ E He] Hraw. rewrite E in *. unfold buildRouteSection in *. rewrite Hr in *. cbv zeta in *. rewrite Hraw in *.
  destruct (isRaw route && isEmpty _); [done|]. destruct (bridgeIngressMismatch (bd_outbounds b)); [done|]. by eexists.
Qed.

Lemma object_rules route raw deps c : jsonGet (routeObject env set re route raw deps c) (qs "rules") = Some (JArray (routeRules set re route raw deps c)).
Proof.
  unfold routeObject. cbv zeta. destruct (spmode_vpn re), (enable_stats re), (isRaw route); rewrite !orElse_other by done;
    rewrite !jsonGet_set_other by done; by rewrite jsonGet_set_same.
Qed.

Lemma stage_tagged c b route c1 : Stages env set pre re c b route c1 -> Tagged anyTag (bd_outbounds b).
Proof.
  intros St. pose proof (bs_outbounds _ _ _ _ _ _ _ _ St) as E. pose proof (bs_ok _ _ _ _ _ _ _ _ St) as He. rewrite E in *.
  destruct (section_ready env set _ _ (bs_given _ _ _ _ _ _ _ _ St) He) as (g & _ & [T _]). exact T.
Qed.

Lemma outbounds_written c b route c1 : Stages env set pre re c b route c1 -> isRaw route && preventModifications route = false ->
  coreOutbounds (coreWritten b) = emitted (bd_outbounds b).
Proof.
  intros St Hraw. destruct (section_written c b route c1 St Hraw) as [raw Ew]. destruct (config_tags env set pre re c b route c1 St) as [E1 E2].
  unfold coreOutbounds, coreWritten, emitted, members in *. rewrite Ew. cbn [writeRoute coreConfig set_coreConfig].
  by rewrite !jsonGet_set_other, E1, E2 by done.
Qed.

(** The inbounds of the bridges are among those of the core. *)
Lemma bridge_inbounds c b route c1 : Stages env set pre re c b route c1 -> exists before,
  members (coreConfig (bd_outbounds b)) (qs "inbounds") =
  before ++ zip_with (fun t b => socksBridgeInbound (bridgeTagFor t) b) (singIngressTags (bd_outbounds b)) (xrayToSingBridges (bd_outbounds b)).
Proof.
  intros [_ _ _ _ E He _ _ _]. rewrite E in *. destruct (section_stages env set _ _ He) as (g & d1 & d3 & _ & _ & _ & _ & _ & _ & -> & _).
  unfold writeOutbounds. cbv zeta. cbn [coreConfig singIngressTags xrayToSingBridges set_coreConfig set_outbounds]. unfold members.
  rewrite !jsonGet_set_other, jsonGet_set_same by done. cbn [jsonToArray]. rewrite map_app. eexists. f_equal. unfold bridgeInbounds.
  generalize (xrayToSingBridges d3). induction (singIngressTags d3) as [|t l IH]; intros [|x k]; cbn; try done. by rewrite IH.
Qed.

Lemma bridgeTagFor_inj t u : bridgeTagFor t = bridgeTagFor u -> t = u.
Proof. unfold bridgeTagFor. intros E. by apply app_inv_head, app_inv_head in E. Qed.

(** The inbound at the port of a bridge back is that of the bridge, and the first rule
    that may take what arrives there sends it to where the chain goes on. *)
Lemma core_routes_bridge core c before i x t :
  members core (qs "inbounds") = before ++ zip_with (fun t b => socksBridgeInbound (bridgeTagFor t) b) (singIngressTags c) (xrayToSingBridges c) ->
  inboundsApart core -> NoDup (singIngressTags c) -> (exists rest, members (routeOf core) (qs "rules") = bridgeRules c ++ rest) ->
  xrayToSingBridges c !! i = Some x -> singIngressTags c !! i = Some t ->
  coreInboundAt core (b_port x) = Some (socksBridgeInbound (bridgeTagFor t) x) /\ coreRoute core (b_port x) = Some t.
Proof.
  intros Em Ha Hn [rest Er] Hx Ht. set (f := fun t b => socksBridgeInbound (bridgeTagFor t) b) in *.
  assert (Hi : zip_with f (singIngressTags c) (xrayToSingBridges c) !! i = Some (f t x)) by (by rewrite lookup_zip_with, Ht, Hx).
  assert (Hin : coreInboundAt core (b_port x) = Some (f t x)).
  { unfold coreInboundAt. unfold inboundsApart in Ha. rewrite Em in Ha |- *. clear - Ha Hi. set (l := zip_with _ _ _) in *. clearbody l.
    assert (Hl : f t x ∈ before ++ l) by (apply elem_of_app; right; by eapply list_elem_of_lookup_2). clear Hi.
    induction (before ++ l) as [|o k IH]; [by apply elem_of_nil in Hl|]. cbn [List.find]. cbn [omap list_omap] in Ha.
    apply elem_of_cons in Hl as [<-|Hl]; [by rewrite bool_decide_true|]. case_bool_decide as Ho.
    - rewrite Ho in Ha. apply NoDup_cons in Ha as [Hp _]. exfalso. apply Hp, list_elem_of_omap. by exists (f t x).
    - apply IH; [|done]. destruct (inboundPort o); [by apply NoDup_cons in Ha as [_ ?]|done]. }
  split; [done|]. unfold coreRoute. rewrite Hin. cbn [mbind option_bind]. rewrite Er.
  assert (Hr : bridgeRules c !! i = Some (routeTo (qs "inbound") (jtext (bridgeTagFor t)) t)) by (unfold bridgeRules; by rewrite lookup_zip_with, Hx, Ht).
  assert (List.find (mayTake (tagOf (f t x))) (bridgeRules c) = Some (routeTo (qs "inbound") (jtext (bridgeTagFor t)) t)) as Hf.
  { apply (find_unique _ _ _ i Hr); [by apply bool_decide_eq_true_2|]. intros j r Hj Hm. unfold bridgeRules in Hj. rewrite lookup_zip_with in Hj.
    destruct (xrayToSingBridges c !! j); [|done]. destruct (singIngressTags c !! j) as [u|] eqn:Eu; [|done]. injection Hj as <-.
    apply bool_decide_eq_true_1 in Hm. apply bridgeTagFor_inj in Hm as ->. by eapply NoDup_lookup. }
  by rewrite (find_in_front _ _ _ _ Hf).
Qed.

(** A step between the nodes of the build is one between the configurations. *)
Lemma next_delivers c b route c1 n m : Stages env set pre re c b route c1 -> isRaw route && preventModifications route = false ->
  portsDistinct (bd_outbounds b) -> inboundsApart (coreWritten b) -> nextNode (bd_outbounds b) n = Some m ->
  delivers (coreWritten b) (xrayWritten b) (bd_outbounds b) n = Some m.
Proof.
  intros St Hraw Hp Ha. destruct (section_written c b route c1 St Hraw) as [raw Ew]. set (c2 := bd_outbounds b) in *.
  assert (He : forall t, coreOutbound (coreWritten b) t = singAt c2 t) by (intros t; unfold coreOutbound; by rewrite (outbounds_written c b route c1 St Hraw)).
  destruct n as [o|x]; cbn [nextNode delivers].
  - destruct (jsonGet o (qs "detour")) as [v|]; [by rewrite He|]. destruct (list_find _ (singToXrayBridges c2)) as [[i w]|] eqn:Ef; [|done]. cbn.
    destruct (xrayIngressTags c2 !! i) as [t|] eqn:Et; [|done]. cbn. intros Hm.
    apply list_find_Some in Ef as (Hw & Hd%Is_true_eq_true & _). pose proof (bs_outbounds _ _ _ _ _ _ _ _ St) as Eo. pose proof (bs_ok _ _ _ _ _ _ _ _ St) as Hok.
    fold c2 in Eo, Hok. rewrite Eo in Hp, Hok, Hw, Et. destruct (sidecar_routes_bridges env set _ _ (bs_given _ _ _ _ _ _ _ _ St) Hok Hp) as [_ Hs].
    destruct (Hs i w t Hw Et) as (S1 & S2 & _). rewrite <- Eo in S1, S2. unfold xrayWritten. rewrite Ew. unfold writeRoute. rewrite xray_config_core.
    rewrite (dials_dialled o w Hd). cbn [mbind option_bind d_port]. rewrite S1, S2. cbn. by rewrite xray_accepts.
  - destruct (x_dialer x); [done|]. destruct (list_find _ (xrayToSingBridges c2)) as [[i w]|] eqn:Ef; [|done]. cbn.
    destruct (singIngressTags c2 !! i) as [t|] eqn:Et; [|done]. cbn. intros Hm.
    apply list_find_Some in Ef as (Hw & Hd%Is_true_eq_true & _). apply bool_decide_eq_true_1 in Hd. rewrite Hd.
    destruct (bridge_inbounds c b route c1 St) as [before Eb]. fold c2 in Eb.
    destruct (core_routes_bridge (coreWritten b) c2 before i w t) as [C1 C2]; try done.
    + rewrite <- Eb. unfold coreWritten, members. rewrite Ew. cbn [writeRoute coreConfig set_coreConfig]. by rewrite jsonGet_set_other.
    + by eapply tg_singIn, stage_tagged.
    + unfold coreWritten, routeOf, members. rewrite Ew. cbn [writeRoute coreConfig set_coreConfig]. rewrite jsonGet_set_same. cbn [jsonToObject].
      rewrite object_rules. cbn [jsonToArray]. unfold routeRules. cbv zeta. rewrite !map_app, map_map, map_id, <- !app_assoc. by eexists.
    + change (dialledByXray (backBridgeDial w)) with (Some (MkDial (b_host w) (b_port w) (b_auth w) (b_auth w))).
      cbn [mbind option_bind d_port]. rewrite C1, C2. cbn [mbind option_bind]. rewrite core_accepts, He. done.
Qed.

(** Where a node leads is in one of the configurations. *)
Lemma reached_written c b route c1 n m : Stages env set pre re c b route c1 -> isRaw route && preventModifications route = false ->
  nextNode (bd_outbounds b) n = Some m -> isWritten env (coreWritten b) (xrayWritten b) m.
Proof.
  intros St Hraw. assert (Hs : forall t o, singAt (bd_outbounds b) t = Some o -> isWritten env (coreWritten b) (xrayWritten b) (NSing o)).
  { intros t o Ho. apply List.find_some in Ho as [Ho _]. cbn [isWritten]. rewrite (outbounds_written c b route c1 St Hraw). by apply list_elem_of_In. }
  assert (Hx : forall t x, xrayAt (bd_outbounds b) t = Some x -> isWritten env (coreWritten b) (xrayWritten b) (NXray x)).
  { intros t x [Hin _]%List.find_some. apply list_elem_of_In in Hin. cbn [isWritten]. unfold xrayWritten. destruct (section_written c b route c1 St Hraw) as [raw ->].
    unfold writeRoute. rewrite xray_config_core. destruct (xrayConfig_members env set (bd_outbounds b)) as (_ & _ & _ & ->); [by intros E; rewrite E in Hin; apply elem_of_nil in Hin| |by apply list_elem_of_fmap_2].
    by eapply tg_match, stage_tagged. }
  destruct n as [o|x]; cbn [nextNode].
  - destruct (jsonGet o _); [destruct (singAt _ _) eqn:E; [|done]; intros [= <-]; by eapply Hs|].
    destruct (list_find _ _) as [[i w]|]; [|done]. cbn. destruct (_ !! i); [|done]. cbn. destruct (xrayAt _ _) eqn:E; [|done]. intros [= <-]. by eapply Hx.
  - destruct (x_dialer x); [destruct (xrayAt _ _) eqn:E; [|done]; intros [= <-]; by eapply Hx|].
    destruct (list_find _ _) as [[i w]|]; [|done]. cbn. destruct (_ !! i); [|done]. cbn. destruct (singAt _ _) eqn:E; [|done]. intros [= <-]. by eapply Hs.
Qed.

(** No hop is a whole Xray configuration, which is run by a core of its own. *)
Definition ordinary (ids : list Z) : Prop := forall id p, id ∈ ids -> hopOf env id = Some p -> IsXrayFullConfig p = false.

Lemma ordinary_built ids found ents : ordinary ids -> Forall2 (fun id p => hopOf env id = Some p) ids found -> Forall2 builtAs found ents -> ents = found.
Proof.
  intros Ho Hf. revert ents. induction Hf as [|id p ids found Hid Hf IH]; intros ents Hb; inversion Hb as [|? q ? l Hq Hl]; subst; [done|].
  f_equal; [|apply IH; [|done]; intros j q' Hj; apply Ho; by right].
  destruct Hq as [->|(Hx & _)]; [done|]. by rewrite (Ho id p ltac:(left) Hid) in Hx.
Qed.

Lemma passes_leads c b route c1 tag ids : Stages env set pre re c b route c1 -> isRaw route && preventModifications route = false ->
  portsDistinct (bd_outbounds b) -> inboundsApart (coreWritten b) -> ordinary ids ->
  passes env (bd_outbounds b) tag ids -> leadsThrough env (coreWritten b) (xrayWritten b) (bd_outbounds b) tag ids.
Proof.
  intros St Hraw Hp Ha Ho (found & ents & nodes & Hf & Hb & Hh & Hpath & Hc & Hl). pose proof (ordinary_built ids found ents Ho Hf Hb) as ->.
  exists found, nodes.
  assert (Hco : coreOutbound (coreWritten b) tag = singAt (bd_outbounds b) tag) by (unfold coreOutbound; by rewrite (outbounds_written c b route c1 St Hraw)).
  split_and!; [done|by rewrite Hco| | |done|done].
  - intros i n m Hn Hm. eapply next_delivers; [exact St|done..|by eapply Hpath].
  - apply Forall_lookup. intros [|i] n Hn.
    + rewrite <- head_lookup in Hn. rewrite Hn in Hh. destruct (singAt _ _) as [o|] eqn:E; [|done]. injection Hh as <-. cbn.
      rewrite (outbounds_written c b route c1 St Hraw). apply List.find_some in E as [E _]. by apply list_elem_of_In.
    + destruct (nodes !! i) as [n'|] eqn:Ei; [eapply reached_written; [exact St|done|by eapply Hpath]|].
      apply lookup_ge_None in Ei. apply lookup_lt_Some in Hn. lia.
Qed.

(** C5: In a build that succeeds, from a profile that is not used word for word, with
    bridges and inbounds at distinct ports, every tag that rules may name -- the proxy or
    the members of the selector, the chains of the routing rules and the endpoints of the
    routing profile -- leads through the profiles it stands for, in their order, in the two
    configurations as they are written: each outbound is there, it detours to the next
    one, or dials an inbound of the other core that listens at that address, takes those
    credentials and whose first matching rule names the next one; and the last profile
    dials as its own settings say. Tags with a whole Xray configuration among
    their hops are excepted. *)
Theorem section_leads_through_hops c b route tag ids g : Startable c -> buildRouting env set pre re c = inr b -> routeProfile pre = Some route ->
  isRaw route && preventModifications route = false -> portsDistinct (bd_outbounds b) -> inboundsApart (coreWritten b) ->
  getGroup env (p_gid (ent c)) = Some g -> (tag, ids) ∈ sectionWays env set (bd_deps b) g c -> ordinary ids ->
  leadsThrough env (coreWritten b) (xrayWritten b) (bd_outbounds b) tag ids.
Proof.
  intros Hs Hb Hr Hraw Hp Ha Hg Hin Ho. destruct (build_stages env set pre re c b Hs Hb) as (route' & c1 & St).
  pose proof (bs_route _ _ _ _ _ _ _ _ St) as Hr'. rewrite Hr in Hr'. injection Hr' as <-.
  eapply passes_leads; [exact St|done..|]. destruct St as [[x ->] _ _ Hw E He _ _ _]. rewrite E in He, Hp |- *.
  destruct (section_ways env set _ _ Hw He Hp) as (g' & Hg' & H). cbn in Hg'. rewrite Hg in Hg'. injection Hg' as <-. by apply H.
Qed.
End Crossing.

(** The started chain goes from sing-box to Xray and back, a rule's profile to Xray. *)
Lemma section_leads_through_hops_witness : let b := RoutingSample.built RoutingSample.pre in
  leadsThrough RoutingSample.env (coreWritten b) (xrayWritten RoutingSample.env Sample.sampleSet b) (bd_outbounds b) tagProxy [3; 2; 1] /\
  leadsThrough RoutingSample.env (coreWritten b) (xrayWritten RoutingSample.env Sample.sampleSet b) (bd_outbounds b) (hopTag routeChainPrefix 0) [4].
Proof.
  assert (RoutingSample.succeeds RoutingSample.pre = true) as E by (vm_compute; reflexivity).
  assert (forall tag ids, (tag, ids) ∈ sectionWays RoutingSample.env Sample.sampleSet (bd_deps (RoutingSample.built RoutingSample.pre)) (MkGroup [] (-1) (-1)) RoutingSample.start ->
    ordinary RoutingSample.env ids -> leadsThrough RoutingSample.env (coreWritten (RoutingSample.built RoutingSample.pre))
      (xrayWritten RoutingSample.env Sample.sampleSet (RoutingSample.built RoutingSample.pre)) (bd_outbounds (RoutingSample.built RoutingSample.pre)) tag ids) as H.
  { intros tag ids Hin Ho.
    apply (section_leads_through_hops RoutingSample.env Sample.sampleSet RoutingSample.pre RoutingSample.re RoutingSample.start
      (RoutingSample.built RoutingSample.pre) RoutingSample.route tag ids (MkGroup [] (-1) (-1)) RoutingSample.startable (RoutingSample.built_inr _ E) eq_refl
      eq_refl RoutingSample.distinct ltac:(apply (bool_decide_unpack _); vm_compute; exact I) eq_refl Hin Ho). }
  assert (forall ids, forallb (fun id => match hopOf RoutingSample.env id with Some p => negb (IsXrayFullConfig p) | None => true end) ids = true ->
    ordinary RoutingSample.env ids) as Hord.
  { intros ids Hf id p Hin Hp. rewrite forallb_forall in Hf. apply list_elem_of_In, Hf in Hin. rewrite Hp in Hin. by apply negb_true_iff. }
  split; (apply H; [apply (bool_decide_unpack _); vm_compute; exact I | apply Hord; vm_compute; reflexivity]).
Defined.
