(* ===== verification/Validation.v ===== *)
(** * Checks of settings fields (src/src/global/Validation.cpp)

    Numbers, ports, addresses, hosts, keys and identifiers, as the editors check them
    before the core sees them. A check gives [None] for acceptable text, else the
    message, which is a constructor with what the source puts into it. *)

From Stdlib Require Import Ascii String.
From S2P Require Import Prelude QtText.

Local Open Scope Z_scope.
Local Open Scope throne_scope.
#[local] Set Warnings "-register-all".

(** ** Data *)

Inductive Empty := Allowed | Required.
Inductive Family := AnyFamily | V4 | V6.
Inductive RangeSep := Colon | Dash.
Record PortRangeStyle := MkStyle { sep : RangeSep; allowSingle : bool; allowOpenEnds : bool; checkOrder : bool }.
Inductive ValidationIpKind := IpInvalid | IpV4 | IpV6.
Record ValidationIp := MkIp { kind : ValidationIpKind; zoned : bool }.
Inductive Split := Comma | Newline | CommaOrNewline | Whitespace.
#[export] Instance ValidationIpKind_eq_dec : EqDecision ValidationIpKind.
Proof. solve_decision. Defined.

Inductive Message :=
| FieldRequired | OutOfRange (min max : Z) | NotWhole | BadPort | PortsTooLarge | RangeFormat | SinglePort (t : qstring) | RangeReversed
| WholeOrRange | RangeBackwards | BadIp (f : Family) | ZoneForbidden | NeedPrefix | NetmaskForbidden | PrefixZeros | PrefixRange (max : Z)
| SchemeForbidden | HasSpaces | PathForbidden | PortElsewhere | BadHost | NeedBrackets | AddPort
| BadKey (bytes total : Z) (url padded : bool) | BadBase64 | NotHex | OddLength | TooLong (n : Z) | TooShort (n : Z) | BadUuid | BadXrayId
| BadScheme | BadUrl | UnknownValue | BadToken | BadRegex (e : qstring) | NoRe2 (token : qstring) | TooManyRepeats
| NotJson (line column : Z) | NotJsonObject | InItem (i : Z) (m : Message).

(** ** Characters and numbers *)

Definition validationDigit (c : Z) : bool := (48 <=? c) && (c <=? 57).
Definition validationHexDigit (u : Z) : bool :=
  ((48 <=? u) && (u <=? 57)) || ((97 <=? u) && (u <=? 102)) || ((65 <=? u) && (u <=? 70)).
Definition validationAsciiAlnum (u : Z) : bool :=
  ((48 <=? u) && (u <=? 57)) || ((97 <=? u) && (u <=? 122)) || ((65 <=? u) && (u <=? 90)).
Definition validationAllDigits (s : qstring) : bool := negb (isEmpty s) && forallb validationDigit s.
Definition validationSignedDigits (s : qstring) : bool := validationAllDigits (if startsWithC (ch "-") s then drop 1 s else s).

Definition validationRequired (text : qstring) : option Message := if isEmpty (trimmed text) then Some FieldRequired else None.
Definition validationEmpty (empty : Empty) : option Message := match empty with Required => Some FieldRequired | Allowed => None end.

(** The digits accumulate in 64 bits, below [limit]. *)
Fixpoint parseIntLoop (limit : Z) (s : qstring) (v : Z) : option Z :=
  match s with
  | [] => Some v
  | c :: s =>
      if negb (validationDigit c) then None
      else let d := c - 48 in
           if (limit - d) / 10 <? v then None else parseIntLoop limit s (u64 (v * 10 + d))
  end.
Definition validationParseInt (s : qstring) : option Z :=
  match s with
  | [] => None
  | c :: rest =>
      let neg := c =? ch "-" in
      let digits := if neg then rest else s in
      if isEmpty digits then None
      else let limit := 2 ^ 63 - 1 + (if neg then 1 else 0) in
           v ← parseIntLoop limit digits 0;
           Some (if negb neg then v else if v =? limit then - 2 ^ 63 else - v)
  end.
Definition ToInt (text : qstring) : option Z := validationParseInt (trimmed text).

(** Leading zeros are skipped, the last digit never. *)
Fixpoint skipZeros (s : qstring) : qstring :=
  match s with c :: ((_ :: _) as rest) => if c =? 48 then skipZeros rest else s | _ => s end.
Definition validationParseUint16 (s : qstring) : option Z :=
  if negb (validationAllDigits s) then None
  else let s := skipZeros s in
       if 5 <? qsize s then None
       else let v := default 0 (toInt s) in if 65535 <? v then None else Some v.

Definition validInt (text : qstring) (min max : Z) (empty : Empty) : option Message :=
  let t := trimmed text in
  if isEmpty t then validationEmpty empty
  else match validationParseInt t with
       | None => Some (if validationSignedDigits t then OutOfRange min max else NotWhole)
       | Some v => if (v <? min) || (max <? v) then Some (OutOfRange min max) else None
       end.

(** Whether a text is the number of a port. *)
Definition portNumber (s : qstring) : bool := match validationParseInt s with Some v => (1 <=? v) && (v <=? 65535) | None => false end.
Definition Port (text : qstring) (empty : Empty) : option Message :=
  let t := trimmed text in
  if isEmpty t then validationEmpty empty else if portNumber t then None else Some BadPort.

(** A side of a range, [def] when it is left open. *)
Definition rangeSide (style : PortRangeStyle) (side : qstring) (def : Z) : Message + Z :=
  if isEmpty side then if allowOpenEnds style then inr def else inl RangeFormat
  else match validationParseUint16 side with
       | Some v => inr v
       | None => inl (if validationAllDigits side then PortsTooLarge else RangeFormat)
       end.
Definition separator (style : PortRangeStyle) : Z := match sep style with Colon => ch ":" | Dash => ch "-" end.
Definition PortRange (text : qstring) (style : PortRangeStyle) : option Message :=
  let t := trimmed text in
  if isEmpty t then None
  else match indexOf (separator style) t with
       | None =>
           match validationParseUint16 t with
           | Some _ => if allowSingle style then None else Some (SinglePort t)
           | None => Some (if validationAllDigits t then PortsTooLarge else RangeFormat)
           end
       | Some at_ =>
           match rangeSide style (take at_ t) 0 with
           | inl m => Some m
           | inr start =>
               match rangeSide style (drop (S at_) t) 65535 with
               | inl m => Some m
               | inr end_ => if checkOrder style && (end_ <? start) then Some RangeReversed else None
               end
           end
       end.
Definition withOrder (b : bool) (style : PortRangeStyle) : PortRangeStyle := MkStyle (sep style) (allowSingle style) (allowOpenEnds style) b.
Definition PortRangeOrder (text : qstring) (style : PortRangeStyle) : option Message :=
  match PortRange text (withOrder false style) with Some _ => None | None => PortRange text (withOrder true style) end.

Definition intSide (min max : Z) (part : qstring) : Message + Z :=
  if negb (validationSignedDigits part) || (negb (min <? 0) && startsWithC (ch "-") part) then inl WholeOrRange
  else match validationParseInt part with
       | Some v => if (v <? min) || (max <? v) then inl (OutOfRange min max) else inr v
       | None => inl (OutOfRange min max)
       end.
(** The dash of the range: with negative numbers allowed, not the sign in front. *)
Definition rangeDash (min : Z) (t : qstring) : option nat :=
  if (min <? 0) && startsWithC (ch "-") t then S <$> indexOf (ch "-") (drop 1 t) else indexOf (ch "-") t.
Definition IntOrRange (text : qstring) (min max : Z) (empty : Empty) (allowReversed : bool) : option Message :=
  let t := trimmed text in
  if isEmpty t then validationEmpty empty
  else
    let '(a, b) := match rangeDash min t with None => (t, t) | Some dash => (take dash t, drop (S dash) t) end in
    match intSide min max a with
    | inl m => Some m
    | inr x => match intSide min max b with
               | inl m => Some m
               | inr y => if negb allowReversed && (y <? x) then Some RangeBackwards else None
               end
    end.

(** ** Addresses *)

(** [prev] is the character before. *)
Fixpoint v4Fields (prev : option Z) (s : qstring) (val pos digLen : Z) : bool :=
  match s with
  | [] => pos =? 3
  | c :: rest =>
      if validationDigit c then
        if (digLen =? 1) && (val =? 0) then false
        else let val := val * 10 + (c - 48) in
             if 255 <? val then false else v4Fields (Some c) rest val pos (digLen + 1)
      else if c =? ch "." then
        if bool_decide (prev = None) || isEmpty rest || bool_decide (prev = Some (ch ".")) then false
        else if pos =? 3 then false else v4Fields (Some c) rest 0 (pos + 1) 0
      else false
  end.
Definition validationIpv4Fields (s : qstring) : bool := v4Fields None s 0 0 0.

Definition hexValue (u : Z) : Z := if u <=? 57 then u - 48 else (u .| 0x20) - 97 + 10.
(** The hexadecimal digits in front: how many, and what follows; [None] when they
    are no group. *)
Fixpoint hexRun (s : qstring) (off acc : Z) : option (Z * qstring) :=
  match s with
  | c :: s' =>
      if validationHexDigit c then
        let acc := u32 ((acc <<< 4) + hexValue c) in
        if (3 <? off) || (0xFFFF <? acc) then None else hexRun s' (off + 1) acc
      else Some (off, s)
  | [] => Some (off, s)
  end.

(** After the last turn: nothing is left, and two colons stand for zeros exactly
    when there is room for them. *)
Definition v6Finish (s : qstring) (i ellipsis : Z) : bool := isEmpty s && (if i <? 16 then 0 <=? ellipsis else ellipsis <? 0).
(** [s] is the text from the position [p] on; [i] the bytes read; a negative
    [ellipsis] none yet. Every turn reads two bytes, so eight turns are enough. *)
Fixpoint v6Loop (fuel : nat) (s : qstring) (i ellipsis : Z) : bool :=
  match fuel with
  | O => v6Finish s i ellipsis
  | S fuel =>
      match hexRun s 0 0 with
      | None => false
      | Some (off, rest) =>
          if off =? 0 then false
          else if startsWithC (ch ".") rest then
            if (ellipsis <? 0) && negb (i =? 12) then false
            else if 16 <? i + 4 then false
            else if validationIpv4Fields s then v6Finish [] (i + 4) ellipsis else false
          else
            let i := i + 2 in
            match rest with
            | [] => v6Finish [] i ellipsis
            | c :: after =>
                if negb (c =? ch ":") || isEmpty after then false
                else if startsWithC (ch ":") after then
                  if 0 <=? ellipsis then false
                  else if isEmpty (drop 1 after) then v6Finish [] i i else v6Loop fuel (drop 1 after) i i
                else v6Loop fuel after i ellipsis
            end
      end
  end.
Definition v6Text (s : qstring) : bool :=
  match s with
  | a :: b :: rest => if (a =? ch ":") && (b =? ch ":") then isEmpty rest || v6Loop 8 rest 0 0 else v6Loop 8 s 0 (-1)
  | _ => v6Loop 8 s 0 (-1)
  end.
(** The address without its zone, and whether it had one. *)
Definition validationIpv6 (s : qstring) : bool * bool :=
  match indexOf (ch "%") s with
  | Some pct => if Nat.eqb (S pct) (length s) then (false, false) else (v6Text (take pct s), true)
  | None => (v6Text s, false)
  end.

Fixpoint parseIpBy (all s : qstring) : ValidationIp :=
  match s with
  | [] => MkIp IpInvalid false
  | c :: s =>
      if c =? ch "." then MkIp (if validationIpv4Fields all then IpV4 else IpInvalid) false
      else if c =? ch ":" then let '(ok, z) := validationIpv6 all in MkIp (if ok then IpV6 else IpInvalid) z
      else if c =? ch "%" then MkIp IpInvalid false
      else parseIpBy all s
  end.
Definition validationParseIp (s : qstring) : ValidationIp := parseIpBy s s.
Definition isKind (k : ValidationIpKind) (s : qstring) : bool := bool_decide (kind (validationParseIp s) = k).

Definition validationCheckIp (ip : ValidationIp) (family : Family) : option Message :=
  match kind ip, family with
  | IpInvalid, _ | IpV6, V4 | IpV4, V6 => Some (BadIp family)
  | _, _ => if zoned ip then Some ZoneForbidden else None
  end.

Definition Ip (text : qstring) (family : Family) (empty : Empty) : option Message :=
  let t := trimmed text in
  if isEmpty t then validationEmpty empty else validationCheckIp (validationParseIp t) family.

Definition Cidr (text : qstring) (family : Family) (allowBareIp : bool) (empty : Empty) : option Message :=
  let t := trimmed text in
  if isEmpty t then validationEmpty empty
  else match lastIndexOf (ch "/") t with
       | None => if allowBareIp then validationCheckIp (validationParseIp t) family else Some NeedPrefix
       | Some slash =>
           let ip := validationParseIp (take slash t) in
           match validationCheckIp ip family with
           | Some m => Some m
           | None =>
               let bits := drop (S slash) t in
               if contains (ch ".") bits then Some NetmaskForbidden
               else if negb (validationAllDigits bits) then Some NeedPrefix
               else if (1 <? qsize bits) && startsWithC 48 bits then Some PrefixZeros
               else let maxBits := match kind ip with IpV4 => 32 | _ => 128 end in
                    if (3 <? qsize bits) || (maxBits <? default 0 (toInt bits)) then Some (PrefixRange maxBits) else None
           end
       end.

(** ** Hosts *)

Definition validationZoneHasColon (s : qstring) : bool :=
  match indexOf (ch "%") s with Some pct => contains (ch ":") (drop (S pct) s) | None => false end.
Definition validationIpv6Like (s : qstring) : bool :=
  let address := match indexOf (ch "%") s with Some pct => take pct s | None => s end in
  match indexOf (ch ":") address with
  | None => false
  | Some colon =>
      if match indexOf (ch ".") address with Some dot => Nat.ltb dot colon | None => false end then false
      else forallb (fun c => validationHexDigit c || (c =? ch ":") || (c =? ch ".")) address
  end.

(** What stands between the bracket in front and its closing one, and what follows. *)
Definition inBrackets (t : qstring) : option (qstring * qstring) :=
  close ← indexOf (ch "]") t; Some (take (close - 1) (drop 1 t), drop (S close) t).
Definition urlChar (c : Z) : bool := (c =? ch "/") || (c =? ch "?") || (c =? ch "#") || (c =? ch "@").
Definition hostByte (c : Z) : bool := validationAsciiAlnum c || (c =? ch "-") || (c =? ch "_").
Definition labelOk (label : qstring) : bool :=
  negb (isEmpty label) && (qsize label <=? 63) && negb (startsWithC (ch "-") label) && negb (endsWithC (ch "-") label) && forallb hostByte label.

Section Hosts.
(** QUrl::toAce *)
Context (toAce : qstring -> list Z).

Definition dnsName (t : qstring) : bool :=
  let name := toAce t in
  let name := if endsWithC (ch ".") name then take (length name - 1) name else name in
  negb (isEmpty name) && (qsize name <=? 253) && forallb labelOk (split (ch ".") name).

Definition Host (text : qstring) (empty : Empty) : option Message :=
  let t := trimmed text in
  if isEmpty t then validationEmpty empty
  else if containsStr (qs "://") t then Some SchemeForbidden
  else if existsb isSpace t then Some HasSpaces
  else if existsb urlChar t then Some PathForbidden
  else if startsWithC (ch "[") t then
    match inBrackets t with
    | None => Some BadHost
    | Some (address, rest) =>
        if negb (isKind IpV6 address) then Some BadHost
        else if isEmpty rest then None
        else if startsWithC (ch ":") rest && validationAllDigits (drop 1 rest) then Some PortElsewhere else Some BadHost
    end
  else if negb (isKind IpInvalid t) then
    if negb (validationZoneHasColon t) then None
    else Some (if validationAllDigits (drop (match lastIndexOf (ch ":") t with Some n => S n | None => 0 end) t) then PortElsewhere else BadIp V6)
  else match lastIndexOf (ch ":") t with
       | Some colon =>
           if negb (bool_decide (indexOf (ch ":") t = Some colon)) then Some (if validationIpv6Like t then BadIp V6 else BadHost)
           else Some (if validationAllDigits (drop (S colon) t) then PortElsewhere else BadHost)
       | None =>
           if forallb (fun c => validationDigit c || (c =? ch ".")) t then Some (BadIp V4)
           else if dnsName t then None else Some BadHost
       end.

(** The port after the host, [None] where there is none; or the message. *)
Definition hostPortSplit (t : qstring) (portRequired : bool) : option Message + option qstring :=
  if startsWithC (ch "[") t then
    match inBrackets t with
    | None => inl (Some (BadIp V6))
    | Some (address, rest) =>
        if negb (isKind IpV6 address) then inl (Some (BadIp V6))
        else if isEmpty rest then inr None
        else if negb (startsWithC (ch ":") rest) then inl (Some BadHost) else inr (Some (drop 1 rest))
    end
  else if isKind IpV6 t then inl (if portRequired || validationZoneHasColon t then Some NeedBrackets else None)
  else
    let checked (host : qstring) (port : option qstring) :=
      if isEmpty host then inl (Some BadHost) else match Host host Required with Some m => inl (Some m) | None => inr port end in
    match lastIndexOf (ch ":") t with
    | None => checked t None
    | Some colon =>
        let host := take colon t in
        if contains (ch ":") host then inl (Some (if validationIpv6Like host then NeedBrackets else BadHost))
        else checked host (Some (drop (S colon) t))
    end.
Definition HostPort (text : qstring) (portRequired : bool) (empty : Empty) : option Message :=
  let t := trimmed text in
  if isEmpty t then validationEmpty empty
  else if containsStr (qs "://") t then Some SchemeForbidden
  else match hostPortSplit t portRequired with
       | inl m => m
       | inr None => if portRequired then Some AddPort else None
       | inr (Some port) => if portNumber port then None else Some BadPort
       end.
End Hosts.

(** ** Keys and identifiers *)

Definition validationBase64Char (url : bool) (u : Z) : bool :=
  validationAsciiAlnum u || (if url then (u =? ch "-") || (u =? ch "_") else (u =? ch "+") || (u =? ch "/")).

Section Keys.
(** QByteArray::fromBase64Encoding of a text filled up with [=], by alphabet, and
    QString::toUtf8. *)
Context (decodeBase64 : bool -> qstring -> option (list Z)) (toUtf8 : qstring -> list Z).

Definition dataChars (bytes : Z) : Z := let r := bytes mod 3 in bytes / 3 * 4 + (if r =? 0 then 0 else r + 1).
Definition totalChars (bytes : Z) (padded : bool) : Z := let r := bytes mod 3 in dataChars bytes + (if padded && negb (r =? 0) then 3 - r else 0).
Definition Base64Key (text : qstring) (bytes : Z) (urlAlphabet padded : bool) (empty : Empty) : option Message :=
  let t := trimmed text in
  if isEmpty t then validationEmpty empty
  else
    let data := Z.to_nat (dataChars bytes) in
    let ok := (qsize t =? totalChars bytes padded) && forallb (validationBase64Char urlAlphabet) (take data t) &&
              forallb (fun c => c =? ch "=") (drop data t) in
    if ok && match decodeBase64 urlAlphabet t with Some d => qsize d =? bytes | None => false end then None
    else Some (BadKey bytes (totalChars bytes padded) urlAlphabet padded).

Definition Base64 (text : qstring) (empty : Empty) : option Message :=
  let t := trimmed text in
  if isEmpty t then validationEmpty empty
  else
    let data := dropWhileEnd (fun c => c =? ch "=") t in
    let equals := qsize t - qsize data in
    let ok := negb (isEmpty data) && (equals <=? 2) && (if equals =? 0 then negb (qsize t mod 4 =? 1) else qsize t mod 4 =? 0) &&
              forallb (validationBase64Char false) data in
    if ok && match decodeBase64 false t with Some d => negb (isEmpty d) | None => false end then None else Some BadBase64.

Definition Hex (text : qstring) (minChars maxChars : Z) (evenLength : bool) (empty : Empty) : option Message :=
  let t := trimmed text in
  if isEmpty t then validationEmpty empty
  else if negb (forallb validationHexDigit t) then Some NotHex
  else if evenLength && Z.odd (qsize t) then Some OddLength
  else if (0 <? maxChars) && (maxChars <? qsize t) then Some (TooLong maxChars)
  else if (0 <? minChars) && (qsize t <? minChars) then Some (TooShort minChars)
  else None.

(** The dashes of a text of 36 characters are at these positions. *)
Definition uuidChars (b : list Z) : bool :=
  forallb (fun '(i, c) => if Nat.eqb (length b) 36 && bool_decide (i ∈ [8; 13; 18; 23]%nat) then c =? ch "-" else validationHexDigit c) (imap pair b).
Definition validationGofrsUuid (b : list Z) : bool :=
  let n := length b in
  if bool_decide (n ∈ [32; 36]%nat) then uuidChars b
  else if bool_decide (n ∈ [34; 38]%nat) then startsWithC (ch "{") b && endsWithC (ch "}") b && uuidChars (take (n - 2) (drop 1 b))
  else if bool_decide (n ∈ [41; 45]%nat) then startsWith (qs "urn:uuid:") b && uuidChars (drop 9 b)
  else false.

(** The five groups, a dash before each being skipped; what follows is ignored. *)
Fixpoint xrayGroups (groups : list nat) (text : list Z) : bool :=
  match groups with
  | [] => true
  | group :: groups =>
      let text := if startsWithC (ch "-") text then drop 1 text else text in
      if Nat.ltb (length text) group then false
      else if negb (forallb validationHexDigit (take group text)) then false else xrayGroups groups (drop group text)
  end.
Definition validationXrayUuid (text : list Z) : bool :=
  let l := length text in
  if Nat.ltb l 32 || Nat.ltb 36 l then negb (Nat.eqb l 0) && Nat.leb l 30 else xrayGroups [8; 4; 4; 4; 12]%nat text.

Definition Uuid (text : qstring) (empty : Empty) : option Message :=
  let t := trimmed text in
  if isEmpty t then validationEmpty empty else if validationGofrsUuid (toUtf8 t) then None else Some BadUuid.
Definition XrayId (text : qstring) (empty : Empty) : option Message :=
  let t := trimmed text in
  if isEmpty t then validationEmpty empty else if validationXrayUuid (toUtf8 t) then None else Some BadXrayId.
End Keys.

(** ** Addresses of pages, choices, tokens and lists *)

Definition schemeChar (c : Z) : bool := validationAsciiAlnum c || (c =? ch "+") || (c =? ch "-") || (c =? ch ".").
Definition authorityEnd (c : Z) : bool := (c =? ch "/") || (c =? ch "?") || (c =? ch "#").
(** The port text of a URL's authority, empty when there is none. *)
Definition validationUrlPort (t : qstring) : qstring :=
  match indexOfStr (qs "://") t with
  | None => []
  | Some sep =>
      let letterFirst := match t with c :: _ => (0 <? Z.of_nat sep) && validationAsciiAlnum c && negb (validationDigit c) | [] => false end in
      if negb letterFirst || negb (forallb schemeChar (take sep t)) then []
      else
        let authority := takeWhile (fun c => negb (authorityEnd c)) (drop (sep + 3) t) in
        let host := match lastIndexOf (ch "@") authority with Some n => drop (S n) authority | None => authority end in
        if startsWithC (ch "[") host then
          match indexOf (ch "]") host with
          | Some close => match drop (S close) host with c :: port => if c =? ch ":" then port else [] | [] => [] end
          | None => []
          end
        else match lastIndexOf (ch ":") host with Some colon => drop (S colon) host | None => [] end
  end.

(** What QUrl's tolerant mode reads of a text. *)
Record UrlParts := MkUrl { urlValid : bool; urlScheme : qstring; urlHost : qstring }.
Inductive JsonRead := ReadError (offset : Z) | ReadObject | ReadOther.

Section Texts.
(** QUrl, the case folding of characters, QString::toUtf8 and fromUtf8, and
    QJsonDocument::fromJson. *)
Context (tolerantUrl : qstring -> UrlParts) (foldCase : Z -> Z) (toUtf8 : qstring -> list Z) (fromUtf8 : list Z -> qstring) (fromJson : list Z -> JsonRead).

Definition Url (text : qstring) (schemes : list qstring) (empty : Empty) : option Message :=
  let t := trimmed text in
  if isEmpty t then validationEmpty empty
  else if existsb isSpace t then Some HasSpaces
  else
    let url := tolerantUrl t in
    if negb (isEmpty schemes) && negb (existsb (fun s => equalCI foldCase s (urlScheme url)) schemes) then Some BadScheme
    else if negb (isEmpty (validationUrlPort t)) && negb (portNumber (validationUrlPort t)) then Some BadPort
    else if negb (urlValid url) || isEmpty (urlScheme url) || isEmpty (urlHost url) then Some BadUrl else None.

Definition OneOf (text : qstring) (allowed : list qstring) (empty : Empty) (caseSensitive : bool) : option Message :=
  let t := trimmed text in
  if isEmpty t then validationEmpty empty
  else if if caseSensitive then bool_decide (t ∈ allowed) else existsb (fun a => equalCI foldCase a t) allowed then None else Some UnknownValue.

Definition validationHttpTokenChar (u : Z) : bool := validationAsciiAlnum u || bool_decide (u ∈ qs "!#$%&'*+-.^_`|~").
Definition HttpToken (text : qstring) (empty : Empty) : option Message :=
  let t := trimmed text in
  if isEmpty t then validationEmpty empty else if forallb validationHttpTokenChar t then None else Some BadToken.

(** The line of an offset, and the position that line starts at. *)
Fixpoint lineAt (utf8 : list Z) (offset : nat) (i line lineStart : nat) : nat * nat :=
  match offset, utf8 with
  | S offset, c :: utf8 => if c =? 10 then lineAt utf8 offset (S i) (S line) (S i) else lineAt utf8 offset (S i) line lineStart
  | _, _ => (line, lineStart)
  end.
Definition JsonObject (text : qstring) (empty : Empty) : option Message :=
  if isEmpty (trimmed text) then validationEmpty empty
  else
    let utf8 := toUtf8 text in
    match fromJson utf8 with
    | ReadError at_ =>
        let offset := Z.to_nat (Z.max 0 (Z.min at_ (qsize utf8))) in
        let '(line, lineStart) := lineAt utf8 offset 0 1 0 in
        Some (NotJson (Z.of_nat line) (qsize (fromUtf8 (take (offset - lineStart) (drop lineStart utf8))) + 1))
    | ReadOther => Some NotJsonObject
    | ReadObject => None
    end.
End Texts.

Definition Items (text : qstring) (by_ : Split) : list qstring :=
  let parts := match by_ with
               | Comma => split (ch ",") text
               | Newline => split 10 text
               | CommaOrNewline => split (ch ",") (map (fun c => if c =? 10 then ch "," else c) text)
               | Whitespace => split (ch " ") (simplified text)
               end in
  List.filter (fun item => negb (isEmpty item)) (map trimmed parts).

(** The first item that fails, by its number from 1. *)
Fixpoint firstBad (item : qstring -> option Message) (i : Z) (items : list qstring) : option Message :=
  match items with
  | [] => None
  | x :: items => match item x with Some m => Some (InItem i m) | None => firstBad item (i + 1) items end
  end.
Definition EachItem (text : qstring) (by_ : Split) (item : option (qstring -> option Message)) (empty : Empty) : option Message :=
  let items := Items text by_ in
  if isEmpty items then validationEmpty empty
  else match item with None => None | Some f => firstBad f 1 items end.
Fixpoint AllOf (rules : list (option (qstring -> option Message))) (text : qstring) : option Message :=
  match rules with
  | [] => None
  | None :: rules => AllOf rules text
  | Some rule :: rules => match rule text with Some m => Some m | None => AllOf rules text end
  end.
