(* ===== verification/ValidationAddress.v ===== *)
(** * The two readers of addresses agree

    The address check of Validation.cpp follows Go's netip, character by character;
    IpListParse.cpp splits the text and reads the pieces. They accept the same
    addresses, the zone apart. *)

From Stdlib Require Import Ascii String.
From S2P Require Import Prelude QtText IpListParse IpCover IpAddressText Validation.

Local Open Scope Z_scope.
#[local] Set Warnings "-register-all".

(** ** Four octets *)

(** The number of an octet, read on from [val] with [k] digits before. *)
Fixpoint octet (t : qstring) (val k : Z) : option Z :=
  match t with
  | [] => Some val
  | c :: t =>
      if negb (validationDigit c) || ((k =? 1) && (val =? 0)) then None
      else let val := val * 10 + (c - 48) in if 255 <? val then None else octet t val (k + 1)
  end.

Lemma octet_grows t : forall val k v, octet t val k = Some v -> 1 <= val -> val * 10 ^ Z.of_nat (length t) <= v /\ v <= Z.max val 255.
Proof.
  induction t as [|c t IH]; intros val k v; cbn [octet length].
  { intros [= <-] H. cbn. lia. }
  destruct (validationDigit c) eqn:D; [|done]. cbn [negb orb]. destruct (_ && _); [done|]. destruct (Z.ltb_spec 255 (val * 10 + (c - 48))); [done|].
  intros H1 H2. unfold validationDigit in D. bprop. apply IH in H1; [|lia]. rewrite Nat2Z.inj_succ, Z.pow_succ_r by lia.
  assert (0 < 10 ^ Z.of_nat (length t)) by (apply Z.pow_pos_nonneg; lia). split; [nia|lia].
Qed.

Lemma octet_decimal t : forall val k v, octet t val k = Some v -> 0 <= val <= 255 -> ipListParseDecimalLoop t val = Some v /\ v <= 255.
Proof.
  induction t as [|c t IH]; intros val k v; cbn [octet ipListParseDecimalLoop].
  { intros [= <-] H. split; [done|lia]. }
  destruct (validationDigit c) eqn:D; [|done]. cbn [negb orb]. destruct (_ && _); [done|]. destruct (Z.ltb_spec 255 (val * 10 + (c - 48))); [done|].
  intros H1 H2. unfold validationDigit in D. bprop. change (ch "0") with 48. change (ch "9") with 57.
  destruct (Z.ltb_spec c 48), (Z.ltb_spec 57 c); [lia..|]. cbn [orb]. rewrite u32_small by lia. eapply IH; [done|lia].
Qed.

Lemma octet_ok_of t v : octet t 0 0 = Some v -> t <> [] -> octet_ok t v.
Proof.
  intros H Hne. destruct (octet_decimal _ _ _ _ H) as [Hd Hv]; [lia|]. destruct t as [|c t]; [done|]. cbn [octet] in H.
  destruct (validationDigit c) eqn:D; [|done]. cbn [negb orb andb Z.eqb] in H. destruct (Z.ltb_spec 255 (0 * 10 + (c - 48))); [done|].
  unfold validationDigit in D. bprop. assert (qsize (c :: t) <= 3 /\ ((1 <? qsize (c :: t)) && (c =? 48) = false)) as [L Z0].
  { unfold qsize. destruct (Z.eqb_spec c 48) as [->|Hc].
    - destruct t; [done|]. cbn [octet] in H. by destruct (validationDigit _).
    - rewrite andb_false_r. split; [|done]. apply octet_grows in H as [H1 H2]; [|lia]. cbn [length].
      destruct (Z.le_gt_cases (Z.of_nat (length t)) 2) as [|Hl]; [lia|]. assert (10 ^ 3 <= 10 ^ Z.of_nat (length t)) by (apply Z.pow_le_mono_r; lia). nia. }
  unfold octet_ok, ipListParseDecimal. cbn [isEmpty orb startsWithC]. change (ch "0") with 48. destruct (Z.ltb_spec 3 (qsize (c :: t))); [lia|].
  split_and!; [done|by apply Z.ltb_ge|done].
Qed.

Lemma octet_of n : 0 <= n < 256 -> octet (unumber 10 n) 0 0 = Some n.
Proof.
  intros H. pose (p := fun n => bool_decide (octet (unumber 10 n) 0 0 = Some n)).
  assert (p n = true) as E by (apply (below_forall p 256); [by vm_compute|lia]). by apply bool_decide_eq_true_1 in E.
Qed.

(** A run of digits, and what follows. *)
Lemma v4Fields_run t : forall prev rest val pos k, (t <> [] \/ prev <> None /\ prev <> Some 46) -> 0 <= k -> Forall (fun c => 48 <= c <= 57) t ->
  exists prev', prev' <> None /\ prev' <> Some 46 /\
    v4Fields prev (t ++ rest) val pos k = match octet t val k with Some v => v4Fields prev' rest v pos (k + qsize t) | None => false end.
Proof.
  induction t as [|c t IH]; intros prev rest val pos k Hp Hk Hd.
  { destruct Hp as [|[H1 H2]]; [done|]. exists prev. split_and!; [done..|]. cbn. by rewrite Z.add_0_r. }
  apply Forall_cons in Hd as [Hc Hd]. assert (validationDigit c = true) as D by (unfold validationDigit; bprop; lia).
  destruct (IH (Some c) rest (val * 10 + (c - 48)) pos (k + 1)) as (prev' & P1 & P2 & E); [right; split; [done|intros [=]; lia]|lia|done|].
  exists prev'. split_and!; [done..|]. cbn [app v4Fields octet]. rewrite D. cbn [negb orb]. destruct (_ && _); [done|]. destruct (255 <? _); [done|].
  rewrite E. unfold qsize. cbn [length]. by rewrite Nat2Z.inj_succ, <- Z.add_1_l, Z.add_assoc.
Qed.

Lemma digits_of s : s = takeWhile validationDigit s ++ dropWhile validationDigit s /\ Forall (fun c => 48 <= c <= 57) (takeWhile validationDigit s).
Proof.
  split; [symmetry; apply takeWhile_dropWhile|]. eapply Forall_impl; [apply takeWhile_all|]. cbn. intros c. unfold validationDigit. bprop. lia.
Qed.

(** The text of an octet in front, and the end or the next one after a dot. *)
Lemma v4Fields_inv prev s pos : prev = None \/ prev = Some 46 -> s <> [] -> v4Fields prev s 0 pos 0 = true ->
  exists n rest, 0 <= n < 256 /\ s = unumber 10 n ++ rest /\
    (rest = [] /\ pos = 3 \/ exists s', rest = 46 :: s' /\ s' <> [] /\ pos <> 3 /\ v4Fields (Some 46) s' 0 (pos + 1) 0 = true).
Proof.
  intros Hp Hne. destruct (digits_of s) as [Es Hd]. pose proof (dropWhile_head validationDigit s) as Hh. revert Es Hd Hh.
  generalize (takeWhile validationDigit s), (dropWhile validationDigit s). intros t r -> Hd Hh.
  destruct (decide (t = [])) as [->|E].
  { cbn [app] in *. destruct r as [|c r]; [done|]. cbn [v4Fields]. rewrite (Hh _ _ eq_refl). destruct (c =? ch "."); [|done].
    destruct Hp as [->| ->]; [by rewrite bool_decide_true|]. rewrite orb_comm. by rewrite (bool_decide_true (Some 46 = Some (ch "."))). }
  destruct (v4Fields_run t prev r 0 pos 0) as (prev' & P1 & P2 & ->); [by left|lia|done|].
  destruct (octet _ 0 0) as [v|] eqn:Eo; [|done]. destruct (octet_unique _ _ (octet_ok_of _ _ Eo E)) as [Hv ->]. intros H.
  exists v, r. split_and!; [lia|lia|done|]. destruct r as [|c r]; cbn [v4Fields] in H.
  - left. split; [done|by apply Z.eqb_eq].
  - right. rewrite (Hh _ _ eq_refl) in H. change (ch ".") with 46 in H. destruct (Z.eqb_spec c 46) as [->|]; [|done]. exists r. split; [done|].
    rewrite !bool_decide_false in H by done. cbn [orb] in H. destruct r; [done|]. cbn [isEmpty orb] in H.
    destruct (Z.eqb_spec pos 3); [done|]. done.
Qed.

Lemma v4Fields_octet prev n rest pos : 0 <= n < 256 -> exists prev' k, prev' <> None /\ prev' <> Some 46 /\
  v4Fields prev (unumber 10 n ++ rest) 0 pos 0 = v4Fields prev' rest n pos k.
Proof.
  intros Hn. destruct (v4Fields_run (unumber 10 n) prev rest 0 pos 0) as (prev' & P1 & P2 & ->); [left; apply unumber_nonempty|lia|apply unumber10_chars|].
  rewrite octet_of by done. by eexists prev', _.
Qed.
Lemma v4Fields_dot prev n rest pos k : prev <> None -> prev <> Some 46 -> rest <> [] -> pos <> 3 ->
  v4Fields prev (46 :: rest) n pos k = v4Fields (Some 46) rest 0 (pos + 1) 0.
Proof.
  intros H1 H2 H3 H4. cbn [v4Fields]. change (validationDigit 46) with false. change (46 =? ch ".") with true. change (ch ".") with 46.
  rewrite !bool_decide_false by done. destruct rest; [done|]. cbn [isEmpty orb]. by destruct (Z.eqb_spec pos 3).
Qed.

(** The check accepts exactly the dotted quads that the scanner reads. *)
Lemma v4_agree s : validationIpv4Fields s = true <-> is_Some (ipListParseV4 s).
Proof.
  split.
  - unfold validationIpv4Fields. intros H. destruct s as [|c0 s0] eqn:E0; [done|]. rewrite <- E0 in *.
    apply v4Fields_inv in H as (a & r & Ha & -> & [[_ [=]]|(s1 & -> & N1 & _ & H)]); [|by left|by rewrite E0].
    apply v4Fields_inv in H as (b & r & Hb & -> & [[_ [=]]|(s2 & -> & N2 & _ & H)]); [|by right|done].
    apply v4Fields_inv in H as (c & r & Hc & -> & [[_ [=]]|(s3 & -> & N3 & _ & H)]); [|by right|done].
    apply v4Fields_inv in H as (d & r & Hd & -> & [[-> _]|(s4 & -> & N4 & Hp & _)]); [| |by right|done]; [|lia].
    rewrite app_nil_r. exists (v4_of a b c d). by apply v4_parts_print.
  - intros [v H]. apply v4_parse_inv in H as (a & b & c & d & Ha & Hb & Hc & Hd & -> & _). unfold v4_text, validationIpv4Fields. cbn [app].
    change (ch ".") with 46.
    destruct (v4Fields_octet None a (46 :: unumber 10 b ++ 46 :: unumber 10 c ++ 46 :: unumber 10 d) 0 Ha) as (p1 & k1 & P1 & Q1 & ->).
    rewrite v4Fields_dot; [|done|done|by destruct (unumber 10 b)|done].
    destruct (v4Fields_octet (Some 46) b (46 :: unumber 10 c ++ 46 :: unumber 10 d) (0 + 1) Hb) as (p2 & k2 & P2 & Q2 & ->).
    rewrite v4Fields_dot; [|done|done|by destruct (unumber 10 c)|done].
    destruct (v4Fields_octet (Some 46) c (46 :: unumber 10 d) (0 + 1 + 1) Hc) as (p3 & k3 & P3 & Q3 & ->).
    rewrite v4Fields_dot; [|done|done|by apply unumber_nonempty|done].
    rewrite <- (app_nil_r (unumber 10 d)). by destruct (v4Fields_octet (Some 46) d [] (0 + 1 + 1 + 1) Hd) as (p4 & k4 & _ & _ & ->).
Qed.

(** ** Eight groups *)

(** A group of an IPv6 address, and the 16-bit words that a list of pieces makes;
    only the last piece may be an IPv4 address, where [tl] allows it. *)
Definition groupOk (t : qstring) : bool := negb (isEmpty t) && (length t <=? 4)%nat && forallb validationHexDigit t.
Fixpoint words (tl : bool) (ts : list qstring) : option nat :=
  match ts with
  | [] => Some 0%nat
  | t :: rest =>
      if isEmpty rest && tl && contains (ch ".") t then if validationIpv4Fields t then Some 2%nat else None
      else if groupOk t then S <$> words tl rest else None
  end.

Lemma hex_digit_neg c : (ipListParseHexDigit c <? 0) = negb (validationHexDigit c).
Proof.
  unfold ipListParseHexDigit, validationHexDigit. change (ch "0") with 48. change (ch "9") with 57. change (ch "a") with 97. change (ch "f") with 102.
  change (ch "A") with 65. change (ch "F") with 70.
  destruct (Z.leb_spec 48 c), (Z.leb_spec c 57), (Z.leb_spec 97 c), (Z.leb_spec c 102), (Z.leb_spec 65 c), (Z.leb_spec c 70); cbn [andb orb negb]; try lia;
    try (apply Z.ltb_ge; lia); apply Z.ltb_lt; lia.
Qed.
Lemma hex_group_some t : forall v, is_Some (ipListParseHexGroup t v) <-> forallb validationHexDigit t = true.
Proof.
  induction t as [|c t IH]; intros v; cbn [ipListParseHexGroup forallb]; [split; [done|by eexists]|]. cbv zeta. rewrite hex_digit_neg.
  destruct (validationHexDigit c); cbn [negb andb]; [apply IH|]. split; [by intros [? [=]]|done].
Qed.

(** The scanner's reader of one side. *)
Lemma part_loop_words tl ts : forall acc, length <$> ipListParseV6PartLoop tl ts acc =
  match words tl ts with Some k => if (length acc + k <=? 8)%nat then Some (length acc + k)%nat else None | None => None end
  \/ (8 < length acc)%nat.
Proof.
  induction ts as [|t ts IH]; intros acc; cbn [ipListParseV6PartLoop words].
  { destruct (Nat.leb_spec (length acc + 0) 8); [left; cbn; f_equal; lia|right; lia]. }
  destruct (isEmpty ts && tl && contains (ch ".") t) eqn:E.
  - left. unfold qsize. destruct (Z.ltb_spec 6 (Z.of_nat (length acc))).
    + destruct (validationIpv4Fields t); [|done]. destruct (Nat.leb_spec (length acc + 2) 8); [lia|done].
    + destruct (ipListParseV4 t) eqn:E4.
      * rewrite (proj2 (v4_agree t)) by by eexists. destruct (Nat.leb_spec (length acc + 2) 8); [|lia]. cbn. by rewrite length_app.
      * destruct (validationIpv4Fields t) eqn:Ev; [|done]. apply v4_agree in Ev as [? Ev]. by rewrite E4 in Ev.
  - unfold groupOk, qsize. destruct t as [|c t']; [by left|]. set (t := c :: t'). change (isEmpty t) with false. cbn [orb negb andb].
    destruct (Z.ltb_spec 4 (Z.of_nat (length t))), (Nat.leb_spec (length t) 4); try lia; cbn [orb andb]; [by left|].
    destruct (Z.leb_spec 8 (Z.of_nat (length acc))).
    { left. destruct (forallb _ _); [|done]. destruct (words tl ts); [|done]. cbn. destruct (Nat.leb_spec (length acc + S n) 8); [lia|done]. }
    pose proof (hex_group_some t 0) as Hh. destruct (ipListParseHexGroup t 0) as [v|].
    + rewrite (proj1 Hh) by by eexists. destruct (IH (acc ++ [v])) as [->|]; [|rewrite length_app in *; cbn in *; lia]. left.
      destruct (words tl ts) as [k|]; [|done]. cbn. rewrite length_app. cbn. by replace (length acc + S k)%nat with (length acc + 1 + k)%nat by lia.
    + destruct (forallb validationHexDigit t); [|by left]. destruct (proj2 Hh eq_refl) as [? [=]].
Qed.
Lemma part_words tl s : length <$> ipListParseV6Part s tl =
  if isEmpty s then Some 0%nat else match words tl (split (ch ":") s) with Some k => if (k <=? 8)%nat then Some k else None | None => None end.
Proof.
  unfold ipListParseV6Part. destruct (isEmpty s); [done|]. destruct (part_loop_words tl (split (ch ":") s) []) as [->|]; [done|]. cbn in *. lia.
Qed.

(** The validator's reader, a piece at a time. *)
Lemma hexValue_range c : validationHexDigit c = true -> 0 <= hexValue c < 16.
Proof.
  intros H. assert (0 <= c < 128) as R by (unfold validationHexDigit in H; bprop; lia).
  pose (p := fun c => negb (validationHexDigit c) || ((0 <=? hexValue c) && (hexValue c <? 16))).
  assert (p c = true) as E by (apply (below_forall p 128); [by vm_compute|lia]). unfold p in E. rewrite H in E. cbn in E. bprop. lia.
Qed.
Lemma hexRun_spec s : forall off acc, 0 <= off <= 4 -> 0 <= acc < 16 ^ off ->
  hexRun s off acc = let n := off + qsize (takeWhile validationHexDigit s) in if n <=? 4 then Some (n, dropWhile validationHexDigit s) else None.
Proof.
  induction s as [|c s IH]; intros off acc Ho Ha; cbn [hexRun takeWhile dropWhile]; cbv zeta.
  { cbn. rewrite Z.add_0_r. by destruct (Z.leb_spec off 4); [|lia]. }
  destruct (validationHexDigit c) eqn:D.
  - pose proof (hexValue_range c D). unfold qsize. cbn [length]. rewrite Z.shiftl_mul_pow2 by lia.
    destruct (Z.ltb_spec 3 off).
    + cbn [orb]. destruct (Z.leb_spec (off + Z.of_nat (S (length (takeWhile validationHexDigit s)))) 4); [lia|done].
    + assert (acc * 16 + hexValue c < 16 ^ (off + 1)) by (rewrite Z.pow_add_r by lia; nia).
      assert (16 ^ (off + 1) <= 16 ^ 4) by (apply Z.pow_le_mono_r; lia). change (16 ^ 4) with 65536 in *. change (2 ^ 4) with 16.
      rewrite u32_small by lia. destruct (Z.ltb_spec 65535 (acc * 16 + hexValue c)); [lia|]. cbn [orb]. rewrite IH by lia. cbv zeta. unfold qsize.
      by rewrite Nat2Z.inj_succ, <- Z.add_1_l, Z.add_assoc.
  - cbn. rewrite Z.add_0_r. by destruct (Z.leb_spec off 4); [|lia].
Qed.

Lemma while_app {A} (p : A -> bool) t u : match u with [] => True | x :: _ => p x = false end ->
  takeWhile p (t ++ u) = takeWhile p t /\ dropWhile p (t ++ u) = dropWhile p t ++ u.
Proof.
  intros Hu. induction t as [|x t [IH1 IH2]]; cbn [app takeWhile dropWhile].
  - destruct u as [|x u]; [done|]. cbn. by rewrite Hu.
  - destruct (p x); [by rewrite IH1, IH2|done].
Qed.
Lemma while_all {A} (p : A -> bool) t : forallb p t = true -> takeWhile p t = t /\ dropWhile p t = [].
Proof. induction t as [|x t IH]; cbn; [done|]. destruct (p x); [|done]. intros H. by destruct (IH H) as [-> ->]. Qed.
Lemma while_split {A} (p : A -> bool) t : (forallb p t = true /\ dropWhile p t = []) \/ (forallb p t = false /\ exists c u, dropWhile p t = c :: u /\ p c = false).
Proof.
  induction t as [|x t IH]; cbn; [by left|]. destruct (p x) eqn:E; cbn; [exact IH|]. right. split; [done|]. by eexists _, _.
Qed.

(** An IPv4 address has up to three digits, then a dot. *)
Lemma v4_shape t : validationIpv4Fields t = true -> free (ch ":") t /\
  (1 <= length (takeWhile validationHexDigit t) <= 3)%nat /\ exists u, dropWhile validationHexDigit t = 46 :: u.
Proof.
  intros [v H]%v4_agree. apply v4_parse_inv in H as (a & b & c & d & Ha & Hb & Hc & Hd & -> & _).
  assert (forall n, free (ch ":") (unumber 10 n)) as Hf by (intros n; apply digits_free; [apply unumber10_chars|vm_compute; intros [_ H]; by apply H]).
  unfold v4_text. split; [rewrite !free_app; split_and!; try apply Hf; by repeat constructor|].
  assert (forallb validationHexDigit (unumber 10 a) = true) as Hh.
  { apply forallb_forall. intros x Hx%list_elem_of_In. pose proof (unumber10_chars a) as Hu. rewrite Forall_forall in Hu. specialize (Hu x Hx). cbn in Hu.
    unfold validationHexDigit. bprop. lia. }
  destruct (while_app validationHexDigit (unumber 10 a) ([ch "."] ++ unumber 10 b ++ [ch "."] ++ unumber 10 c ++ [ch "."] ++ unumber 10 d)) as [-> ->]; [done|].
  destruct (while_all _ _ Hh) as [-> ->]. split; [|by eexists]. pose proof (unumber_nonempty 10 a). destruct (decimal_some _ _ _ (proj1 (octet_print a Ha))) as (_ & Hl & _).
  unfold qsize in Hl. split; [|lia]. by destruct (unumber 10 a); [|cbn; lia].
Qed.

Lemma v6_step fuel t u i e : free (ch ":") t -> u = [] \/ (exists s', u = 58 :: s') ->
  v6Loop (S fuel) (t ++ u) i e =
  if groupOk t then
    match u with
    | [] => v6Finish [] (i + 2) e
    | _ :: after =>
        if isEmpty after then false
        else if startsWithC 58 after then
          if 0 <=? e then false else if isEmpty (drop 1 after) then v6Finish [] (i + 2) (i + 2) else v6Loop fuel (drop 1 after) (i + 2) (i + 2)
        else v6Loop fuel after (i + 2) e
    end
  else isEmpty u && validationIpv4Fields t && negb ((e <? 0) && negb (i =? 12)) && (i + 4 <=? 16) && v6Finish [] (i + 4) e.
Proof.
  intros Hf Hu. cbn [v6Loop]. rewrite hexRun_spec by lia. cbv zeta. rewrite Z.add_0_l.
  destruct (while_app validationHexDigit t u) as [-> ->]; [by destruct Hu as [->|[s' ->]]|].
  pose proof (while_split validationHexDigit t) as Hw. pose proof (v4_shape t) as H4. pose proof (takeWhile_dropWhile validationHexDigit t) as Et.
  unfold groupOk. destruct Hw as [[Ha Hd]|(Ha & c & w & Hd & Hc)].
  - destruct (while_all _ _ Ha) as [Ht _]. rewrite Ha, Ht, Hd in *. cbn [app].
    assert (validationIpv4Fields t = false) as -> by (destruct (validationIpv4Fields t); [by destruct (H4 eq_refl) as (_ & _ & x & [=])|done]).
    rewrite andb_false_r, andb_true_r. cbn [andb]. unfold qsize. destruct (Z.leb_spec (Z.of_nat (length t)) 4), (Nat.leb_spec (length t) 4); try lia; [|by destruct (isEmpty t)].
    destruct t as [|c t']; [done|]. cbn [isEmpty negb andb]. destruct (Z.eqb_spec (Z.of_nat (length (c :: t'))) 0); [cbn in *; lia|].
    destruct Hu as [->|[s' ->]]; [done|]. cbn [startsWithC]. change (58 =? ch ".") with false. change (58 =? ch ":") with true. done.
  - rewrite Ha, andb_false_r, Hd in *. cbn [app startsWithC]. unfold qsize.
    destruct (Z.leb_spec (Z.of_nat (length (takeWhile validationHexDigit t))) 4) as [Hl|Hl].
    2:{ destruct (validationIpv4Fields t); [|by rewrite andb_false_r]. destruct (H4 eq_refl) as (_ & Hlen & _). lia. }
    destruct (Z.eqb_spec (Z.of_nat (length (takeWhile validationHexDigit t))) 0) as [Hz|Hz].
    { destruct (validationIpv4Fields t); [|by rewrite andb_false_r]. destruct (H4 eq_refl) as (_ & Hlen & _). lia. }
    change (ch ".") with 46. destruct (Z.eqb_spec c 46) as [->|Hcd].
    + assert (validationIpv4Fields (t ++ u) = isEmpty u && validationIpv4Fields t) as ->.
      { destruct Hu as [->|[s' ->]]; [by rewrite app_nil_r|]. destruct (validationIpv4Fields (t ++ 58 :: s')) eqn:E; [|done].
        apply v4_shape in E as [Hx _]. apply free_app in Hx as [_ Hx]. apply Forall_cons in Hx as [Hx _]. done. }
      destruct ((e <? 0) && negb (i =? 12)); cbn [negb]; [by rewrite andb_false_r|]. destruct (Z.ltb_spec 16 (i + 4)), (Z.leb_spec (i + 4) 16); try lia; [by rewrite andb_false_r|].
      rewrite !andb_true_r. by destruct (isEmpty u && validationIpv4Fields t).
    + assert (validationIpv4Fields t = false) as ->.
      { destruct (validationIpv4Fields t); [|done]. by destruct (H4 eq_refl) as (_ & _ & x & [= ->]). }
      rewrite andb_false_r. cbn [andb]. assert (c <> 58) as Hn.
      { rewrite <- Et in Hf. apply free_app in Hf as [_ Hf]. by apply Forall_cons in Hf as [Hf _]. }
      change (ch ":") with 58. change (startsWithC 46 (c :: w ++ u)) with (c =? 46). destruct (Z.eqb_spec c 46), (Z.eqb_spec c 58); [done..|reflexivity].
Qed.

(** ** The two readers on the same pieces *)

Lemma split_head s : exists t u, free (ch ":") t /\ s = t ++ u /\
  (u = [] /\ split (ch ":") s = [t] \/ exists s', u = 58 :: s' /\ split (ch ":") s = t :: split (ch ":") s').
Proof.
  induction s as [|c s (t & u & Hf & -> & H)]; [by exists [], []; split_and!; [constructor| |left]|].
  destruct (decide (c = 58)) as [->|Hc].
  - exists [], (58 :: t ++ u). split_and!; [constructor|done|]. right. by eexists.
  - exists (c :: t), u. split_and!; [by constructor|done|]. unfold split in *. cbn [app splitBy]. destruct (Z.eqb_spec c (ch ":")); [done|].
    destruct H as [[-> ->]|(s' & -> & ->)]; [by left|right]. by exists s'.
Qed.

Lemma group_no_dot t : groupOk t = true -> contains (ch ".") t = false.
Proof.
  unfold groupOk. intros H. bprop. destruct H as [_ H]. apply free_contains. apply Forall_forall. intros c Hc ->.
  rewrite forallb_forall in H. apply list_elem_of_In, H in Hc. done.
Qed.
Lemma v4_dot t : validationIpv4Fields t = true -> contains (ch ".") t = true.
Proof.
  intros (_ & _ & u & H)%v4_shape. rewrite <- (takeWhile_dropWhile validationHexDigit t), H, contains_app. apply orb_true_iff. by right.
Qed.
Lemma words_last tl t : words tl [t] = if groupOk t then Some 1%nat else if tl && validationIpv4Fields t then Some 2%nat else None.
Proof.
  cbn [words isEmpty andb]. destruct (groupOk t) eqn:G; [by rewrite (group_no_dot t G), andb_false_r|].
  destruct tl; cbn [andb]; [|done]. destruct (validationIpv4Fields t) eqn:V; [by rewrite (v4_dot t V)|]. by destruct (contains _ t).
Qed.
Lemma words_more tl t ts : ts <> [] -> words tl (t :: ts) = if groupOk t then S <$> words tl ts else None.
Proof. by destruct ts. Qed.
Lemma split_ne c s : split c s <> [].
Proof. apply splitBy_nonempty. Qed.
Lemma words_empty tl ts : words tl ([] :: ts) = None.
Proof. cbn [words]. change (contains (ch ".") []) with false. by rewrite andb_false_r. Qed.

(** Behind the two colons. *)
Lemma v6_after fuel : forall n s e, (n + fuel = 8)%nat -> 0 <= e ->
  v6Loop fuel s (2 * Z.of_nat n) e = match words true (split (ch ":") s) with Some k => (n + k <=? 7)%nat | None => false end.
Proof.
  induction fuel as [|fuel IH]; intros n s e Hn He.
  { cbn [v6Loop]. unfold v6Finish. destruct (Z.ltb_spec (2 * Z.of_nat n) 16); [lia|]. destruct (Z.ltb_spec e 0); [lia|]. rewrite andb_false_r.
    destruct (words _ _); [|done]. symmetry. apply Nat.leb_gt. lia. }
  destruct (split_head s) as (t & u & Hf & -> & H). rewrite v6_step; [|done|destruct H as [[-> _]|(s' & -> & _)]; [by left|right; by eexists]].
  unfold v6Finish. destruct (Z.ltb_spec e 0); [lia|]. destruct (Z.leb_spec 0 e); [|lia]. cbn [isEmpty andb negb].
  destruct H as [[-> Es]|(s' & -> & Es)]; rewrite Es.
  - rewrite words_last. cbn [isEmpty andb]. destruct (groupOk t).
    + destruct (Z.ltb_spec (2 * Z.of_nat n + 2) 16), (Nat.leb_spec (n + 1) 7); try lia; done.
    + destruct (validationIpv4Fields t); [|done]. cbn [andb].
      destruct (Z.leb_spec (2 * Z.of_nat n + 4) 16), (Z.ltb_spec (2 * Z.of_nat n + 4) 16), (Nat.leb_spec (n + 2) 7); try lia; done.
  - rewrite words_more by apply split_ne. cbn [isEmpty andb]. destruct (groupOk t); [|done].
    destruct s' as [|c s']; [done|]. cbn [isEmpty startsWithC]. destruct (Z.eqb_spec c 58) as [->|Hc].
    + change (split (ch ":") (58 :: s')) with ([] :: split (ch ":") s'). by rewrite words_empty.
    + replace (2 * Z.of_nat n + 2) with (2 * Z.of_nat (S n)) by lia. rewrite IH by (lia || done).
      destruct (words true _); [|done]. cbn. by rewrite Nat.add_succ_r.
Qed.

(** Before them: the pieces up to the first empty one. *)
Fixpoint gapped (ts : list qstring) (n : nat) : bool :=
  match ts with
  | [] => false
  | [t] => if groupOk t then (n + 1 =? 8)%nat else validationIpv4Fields t && (n =? 6)%nat
  | t :: ([] :: rest) =>
      groupOk t && match rest with
                   | [] => false
                   | [[]] => (n + 1 <=? 7)%nat
                   | _ => match words true rest with Some k => (n + 1 + k <=? 7)%nat | None => false end
                   end
  | t :: rest => groupOk t && gapped rest (S n)
  end.
Lemma gapped_more t c x r n : gapped (t :: (c :: x) :: r) n = groupOk t && gapped ((c :: x) :: r) (S n).
Proof. done. Qed.
Lemma gapped_full ts : forall n, (8 <= n)%nat -> gapped ts n = false.
Proof.
  induction ts as [|t ts IH]; intros m Hm; [done|]. cbn [gapped]. destruct ts as [|x rest].
  - destruct (groupOk t); [apply Nat.eqb_neq; lia|]. destruct (Nat.eqb_spec m 6); [lia|]. apply andb_false_r.
  - destruct x as [|c x]; [|rewrite IH by lia; apply andb_false_r]. destruct (groupOk t); [|done]. cbn [andb].
    destruct rest as [|y rest]; [done|]. destruct y as [|c y], rest as [|z rest]; try (destruct (words _ _); [|done]); apply Nat.leb_gt; lia.
Qed.
Lemma v6_before fuel : forall n s, (n + fuel = 8)%nat -> s <> [] -> v6Loop fuel s (2 * Z.of_nat n) (-1) = gapped (split (ch ":") s) n.
Proof.
  induction fuel as [|fuel IH]; intros n s Hn Hs.
  { rewrite gapped_full by lia. cbn [v6Loop]. unfold v6Finish. by destruct s. }
  destruct (split_head s) as (t & u & Hf & -> & H). rewrite v6_step; [|done|destruct H as [[-> _]|(s' & -> & _)]; [by left|right; by eexists]].
  unfold v6Finish. cbn [isEmpty andb negb Z.ltb Z.leb Z.compare].
  destruct H as [[-> Es]|(s' & -> & Es)]; rewrite Es; cbn [gapped isEmpty andb].
  - destruct (groupOk t).
    + destruct (Z.ltb_spec (2 * Z.of_nat n + 2) 16), (Nat.eqb_spec (n + 1) 8); try lia; done.
    + destruct (validationIpv4Fields t); [|done]. cbn [andb].
      destruct (Z.eqb_spec (2 * Z.of_nat n) 12), (Z.leb_spec (2 * Z.of_nat n + 4) 16), (Z.ltb_spec (2 * Z.of_nat n + 4) 16), (Nat.eqb_spec n 6); try lia; done.
  - destruct s' as [|c s']; [by destruct (groupOk t)|]. cbn [isEmpty startsWithC].
    destruct (Z.eqb_spec c 58) as [->|Hc].
    + change (split (ch ":") (58 :: s')) with ([] :: split (ch ":") s'). cbn [drop]. destruct (groupOk t); [|done]. cbn [andb]. rewrite drop_0.
      replace (2 * Z.of_nat n + 2) with (2 * Z.of_nat (S n)) by lia.
      destruct s' as [|d s']; cbn [isEmpty].
      * change (split (ch ":") []) with [@nil Z]. destruct (Z.ltb_spec (2 * Z.of_nat (S n)) 16), (Nat.leb_spec (n + 1) 7); try lia; [|done]. by apply Z.leb_le; lia.
      * rewrite v6_after by lia. destruct (split (ch ":") (d :: s')) as [|x xs] eqn:Ed; [by apply split_ne in Ed|].
        assert (x :: xs <> [[]]) as Hx by (intros E; rewrite <- Ed in E; pose proof (join_split (ch ":") (d :: s')) as J; by rewrite E in J).
        replace (n + 1)%nat with (S n) by lia. by destruct x, xs.
    + replace (2 * Z.of_nat n + 2) with (2 * Z.of_nat (S n)) by lia. rewrite IH by (lia || done).
      destruct (split_head (c :: s')) as (t' & u' & _ & E & H'). assert (t' <> []) as Ht'.
      { intros ->. destruct H' as [[-> _]|(s'' & -> & _)]; [done|]. by injection E as ->. }
      assert (exists r, split (ch ":") (c :: s') = t' :: r) as [r ->] by (destruct H' as [[_ ->]|(s'' & _ & ->)]; by eexists). by destruct t'.
Qed.

(** An empty piece that others surround is a second colon. *)
Fixpoint innerGap (ts : list qstring) : bool :=
  match ts with x :: ((_ :: _) as r) => isEmpty x || innerGap r | _ => false end.
Lemma startsWith_split s : startsWith [58] s = match split (ch ":") s with [] :: _ :: _ => true | _ => false end.
Proof.
  destruct s as [|c s]; [done|]. unfold split. cbn [startsWith splitBy]. rewrite andb_true_r, Z.eqb_sym. change (ch ":") with 58.
  pose proof (splitBy_nonempty (fun d => d =? 58) s). destruct (c =? 58); destruct (splitBy _ s); done.
Qed.
Lemma double_colon s : containsStr (qs "::") s = innerGap (tail (split (ch ":") s)).
Proof.
  change (qs "::") with [58; 58]. unfold containsStr. induction s as [|c s IH]; [done|]. cbn [indexOfStr startsWith].
  change ((58 =? c) && startsWith [58] s) with ((58 =? c) && startsWith [58] s). unfold split in *. cbn [splitBy]. change (ch ":") with 58 in *. rewrite (Z.eqb_sym 58 c).
  change (match s with y :: s' => (58 =? y) && true | [] => false end) with (startsWith [58] s). rewrite startsWith_split. unfold split. change (ch ":") with 58.
  pose proof (splitBy_nonempty (fun d => d =? 58) s) as Hn. destruct (Z.eqb_spec c 58) as [->|Hc]; cbn [andb tail].
  - destruct (splitBy _ s) as [|x [|y r]] eqn:E; [done| |].
    + destruct x; (destruct (indexOfStr _ s); done).
    + cbn [tail] in IH. destruct x; [done|]. cbn [innerGap isEmpty orb] in *. rewrite <- IH. by destruct (indexOfStr _ s).
  - destruct (splitBy _ s) as [|x r] eqn:E; [done|]. cbn [tail] in *. rewrite <- IH. by destruct (indexOfStr _ s).
Qed.

Lemma words_gap tl ts : innerGap ts = true -> words tl ts = None.
Proof.
  induction ts as [|t ts IH]; [done|]. destruct ts as [|y r]; [done|]. cbn [innerGap]. intros [H|H]%orb_true_iff.
  - destruct t; [|done]. apply words_empty.
  - rewrite words_more, IH by done. by destruct (groupOk t).
Qed.
Lemma gapped_plain ts : forall n, ts <> [] -> innerGap (tail ts) = false -> gapped ts n = match words true ts with Some k => (n + k =? 8)%nat | None => false end.
Proof.
  induction ts as [|t ts IH]; intros n Hne H; [done|]. cbn [tail] in H. destruct ts as [|x r].
  - rewrite words_last. cbn [gapped andb]. destruct (groupOk t); [done|]. destruct (validationIpv4Fields t); [|done]. cbn [andb].
    destruct (Nat.eqb_spec n 6), (Nat.eqb_spec (n + 2) 8); lia || done.
  - rewrite words_more by done. destruct x as [|c x].
    + destruct r; [|done]. rewrite words_empty. cbn [gapped]. rewrite andb_false_r. by destruct (groupOk t).
    + rewrite gapped_more, IH by (done || by destruct r). destruct (groupOk t); [|done]. cbn [andb]. destruct (words true _); [|done]. cbn. by rewrite Nat.add_succ_r.
Qed.
Lemma words_inner tl a ts : ts <> [] -> words tl (a ++ [] :: ts) = None.
Proof.
  intros Ht. induction a as [|x a IH]; cbn [app]; [apply words_empty|]. rewrite words_more by by destruct a. rewrite IH. by destruct (groupOk x).
Qed.
Lemma words_plain ts : words false ts = if forallb groupOk ts then Some (length ts) else None.
Proof.
  induction ts as [|t ts IH]; [done|]. cbn [words forallb length]. rewrite andb_false_r. cbn [andb]. destruct (groupOk t); [|done]. rewrite IH. cbn [andb]. by destruct (forallb _ ts).
Qed.
Lemma gapped_at hs ts : forall n, hs <> [] -> ts <> [] -> gapped (hs ++ [] :: ts) n =
  forallb groupOk hs && (if bool_decide (ts = [[]]) then (n + length hs <=? 7)%nat
                         else match words true ts with Some k => (n + length hs + k <=? 7)%nat | None => false end).
Proof.
  induction hs as [|t hs IH]; intros n Hh Ht; [done|]. destruct hs as [|x hs].
  - cbn [app gapped forallb length]. rewrite andb_true_r. f_equal. destruct ts as [|[|c y] [|z r]]; try done.
  - cbn [app]. destruct x as [|c x].
    + cbn [gapped forallb]. change (groupOk []) with false. cbn [andb]. rewrite andb_false_r. destruct hs as [|w hs]; cbn [app].
      * destruct ts as [|w ts]; [done|]. by rewrite words_empty, andb_false_r.
      * pose proof (words_inner true (w :: hs) ts Ht) as W. cbn [app] in W. rewrite W.
        destruct w, (hs ++ [] :: ts) eqn:E; try (by rewrite andb_false_r); by destruct hs.
    + rewrite gapped_more. change ((c :: x) :: hs ++ [] :: ts) with (((c :: x) :: hs) ++ [] :: ts). rewrite IH by done. cbn [forallb length].
      by rewrite andb_assoc, !Nat.add_succ_comm.
Qed.

Lemma split_mid c a b : split c (a ++ c :: b) = split c a ++ split c b.
Proof.
  unfold split. induction a as [|x a IH]; cbn [app splitBy].
  - by rewrite Z.eqb_refl.
  - rewrite IH. destruct (x =? c); [done|]. pose proof (splitBy_nonempty (fun d => d =? c) a). by destruct (splitBy _ a).
Qed.

(** The words of one side of the two colons. *)
Definition side (tl : bool) (s : qstring) : option nat := if isEmpty s then Some 0%nat else words tl (split (ch ":") s).
Lemma part_side tl s : length <$> ipListParseV6Part s tl = match side tl s with Some k => if (k <=? 8)%nat then Some k else None | None => None end.
Proof. rewrite part_words. unfold side. by destruct (isEmpty s). Qed.
Lemma part_cases tl s : match ipListParseV6Part s tl with Some gs => side tl s = Some (length gs) | None => side tl s = None \/ exists k, side tl s = Some k /\ (8 < k)%nat end.
Proof.
  pose proof (part_side tl s) as H. destruct (ipListParseV6Part s tl) as [gs|]; cbn in H; destruct (side tl s) as [k|]; try done.
  - destruct (k <=? 8)%nat; [by injection H as <-|done].
  - right. exists k. split; [done|]. destruct (Nat.leb_spec k 8); [done|lia].
  - by left.
Qed.

Lemma v6Text_gap a b : indexOfStr (qs "::") (a ++ qs "::" ++ b) = Some (length a) ->
  v6Text (a ++ qs "::" ++ b) = match side false a, side true b with Some i, Some j => (i + j <=? 7)%nat | _, _ => false end.
Proof.
  intros Eg. change (qs "::" ++ b) with (58 :: 58 :: b) in *. destruct a as [|x a'] eqn:Ea; cbn [side isEmpty].
  - unfold v6Text. cbn [app]. rewrite !Z.eqb_refl. cbn [andb Nat.add]. unfold side. destruct b; [done|]. cbn [isEmpty orb]. change 0 with (2 * Z.of_nat 0).
    by rewrite v6_after by lia.
  - rewrite <- Ea in *. assert (v6Text (a ++ 58 :: 58 :: b) = v6Loop 8 (a ++ 58 :: 58 :: b) (2 * Z.of_nat 0) (-1)) as ->.
    { unfold v6Text. destruct (a ++ 58 :: 58 :: b) as [|c [|d s']]; [done..|]. change (qs "::") with [58; 58] in Eg. cbn [indexOfStr startsWith] in Eg.
      change (ch ":") with 58. rewrite (Z.eqb_sym c), (Z.eqb_sym d). destruct (58 =? c), (58 =? d); try done. by rewrite Ea in Eg. }
    rewrite v6_before by (lia || by destruct a). rewrite (split_mid (ch ":") a (58 :: b) : split (ch ":") (a ++ 58 :: 58 :: b) = _).
    change (split (ch ":") (58 :: b)) with ([] :: split (ch ":") b). rewrite gapped_at by apply split_ne. unfold side. rewrite words_plain. cbn [Nat.add].
    destruct (forallb groupOk _); [|done]. cbn [andb]. destruct b as [|d b']; [rewrite bool_decide_true by done; cbn [isEmpty]; by rewrite Nat.add_0_r|].
    rewrite bool_decide_false; [done|]. intros E. pose proof (join_split (ch ":") (d :: b')) as J. by rewrite E in J.
Qed.

(** The check accepts exactly the IPv6 addresses that the scanner reads. *)
Lemma v6_agree s : v6Text s = true <-> is_Some (ipListParseV6 s).
Proof.
  unfold ipListParseV6. destruct (indexOfStr (qs "::") s) as [gap|] eqn:Eg.
  - pose proof (indexOfStr_parts _ _ _ Eg) as Es. change (length (qs "::")) with 2%nat in Es.
    assert (length (take gap s) = gap) as La.
    { apply (f_equal length) in Es. rewrite !length_app, length_take, length_drop in Es. change (length (qs "::")) with 2%nat in Es. rewrite length_take. lia. }
    revert Es La. generalize (take gap s), (drop (gap + 2) s). intros a b -> La. rewrite <- La in *. rewrite v6Text_gap by done.
    rewrite drop_app_add. change (drop 1 (qs "::" ++ b)) with (58 :: b).
    rewrite double_colon. change (split (ch ":") (58 :: b)) with ([] :: split (ch ":") b). cbn [tail].
    destruct (innerGap (split (ch ":") b)) eqn:Gb.
    { assert (side true b = None) as -> by (unfold side; rewrite (words_gap true _ Gb); by destruct b). destruct (side false a); (split; [done|by intros [? [=]]]). }
    pose proof (part_cases false a) as Pa. pose proof (part_cases true b) as Pb.
    destruct (ipListParseV6Part a false) as [ha|].
    2:{ split; [|by intros [? [=]]]. destruct Pa as [->|(k & -> & Hk)]; [done|]. destruct (side true b); [|done]. intros H%Nat.leb_le. lia. }
    rewrite Pa. destruct (ipListParseV6Part b true) as [hb|].
    2:{ split; [|by intros [? [=]]]. destruct Pb as [->|(k & -> & Hk)]; [done|]. intros H%Nat.leb_le. lia. }
    rewrite Pb. unfold qsize. destruct (Z.ltb_spec 7 (Z.of_nat (length ha) + Z.of_nat (length hb))), (Nat.leb_spec (length ha + length hb) 7); try lia.
    + split; [done|by intros [? [=]]].
    + split; [by eexists|done].
  - pose proof (double_colon s) as Hd. unfold containsStr in Hd. rewrite Eg in Hd. symmetry in Hd.
    pose proof (part_cases true s) as P. destruct s as [|c s'] eqn:Ec; [by split; [|intros [? [=]]]|]. rewrite <- Ec in *.
    assert (v6Text s = v6Loop 8 s (2 * Z.of_nat 0) (-1)) as ->.
    { rewrite Ec in *. unfold v6Text. destruct s' as [|d s']; [done|]. change (qs "::") with [58; 58] in Eg. cbn [indexOfStr startsWith] in Eg.
      change (ch ":") with 58. rewrite (Z.eqb_sym c), (Z.eqb_sym d). by destruct (58 =? c), (58 =? d). }
    rewrite v6_before by (lia || by rewrite Ec). rewrite gapped_plain by (apply split_ne || done).
    assert (side true s = words true (split (ch ":") s)) as E by (unfold side; by rewrite Ec). rewrite <- E.
    destruct (ipListParseV6Part s true) as [gs|].
    + rewrite P. unfold qsize. cbn [Nat.add]. destruct (Z.eqb_spec (Z.of_nat (length gs)) 8), (Nat.eqb_spec (length gs) 8); try lia; [split; [by eexists|done]|].
      split; [done|by intros [? [=]]].
    + split; [|by intros [? [=]]]. destruct P as [->|(k & -> & Hk)]; [done|]. intros H%Nat.eqb_eq. cbn in H. lia.
Qed.

(** ** The check of an address *)

Lemma parseIp_dispatch s : forall all, parseIpBy all s =
  match List.find (fun c => (c =? 46) || (c =? 58) || (c =? 37)) s with
  | None => MkIp IpInvalid false
  | Some c => if c =? 46 then MkIp (if validationIpv4Fields all then IpV4 else IpInvalid) false
              else if c =? 58 then let '(ok, z) := validationIpv6 all in MkIp (if ok then IpV6 else IpInvalid) z else MkIp IpInvalid false
  end.
Proof.
  induction s as [|c s IH]; intros all; [done|]. cbn [parseIpBy List.find]. change (ch ".") with 46. change (ch ":") with 58. change (ch "%") with 37.
  destruct (c =? 46) eqn:E1; cbn [orb]; [by rewrite E1|]. destruct (c =? 58) eqn:E2; cbn [orb]; [by rewrite E1, E2|].
  destruct (c =? 37) eqn:E3; [by rewrite E1, E2|]. apply IH.
Qed.

Lemma find_first {A} (p : A -> bool) l x : List.find p l = Some x -> p x = true /\ exists a b, l = a ++ x :: b /\ Forall (fun y => p y = false) a.
Proof.
  induction l as [|y l IH]; cbn; [done|]. destruct (p y) eqn:E.
  - intros [= ->]. split; [done|]. exists [], l. by split.
  - intros H. destruct (IH H) as (Hx & a & b & -> & Ha). split; [done|]. exists (y :: a), b. split; [done|]. by constructor.
Qed.
(** A dot before the first colon. *)
Lemma v6_no_dot_first a b : Forall (fun c => (c =? 46) || (c =? 58) || (c =? 37) = false) a -> contains (ch ":") (a ++ 46 :: b) = true -> v6Text (a ++ 46 :: b) = false.
Proof.
  intros Ha Hc. assert (Forall (fun c => c <> 58) a) as Hf by (eapply Forall_impl; [exact Ha|]; cbn; intros c; bprop; lia).
  assert (v6Text (a ++ 46 :: b) = v6Loop 8 (a ++ 46 :: b) (2 * Z.of_nat 0) (-1)) as ->.
  { unfold v6Text. destruct a as [|x a']; cbn [app].
    - destruct b as [|d b]; [done|]. done.
    - apply Forall_cons in Hf as [Hx _]. change (ch ":") with 58. destruct (a' ++ 46 :: b); [done|]. by destruct (Z.eqb_spec x 58). }
  rewrite v6_before by (lia || by destruct a). destruct (split_head (a ++ 46 :: b)) as (t & u & Ht & E & H).
  assert (contains (ch ".") t = true) as Hd.
  { destruct H as [[-> _]|(s' & -> & _)]; [rewrite app_nil_r in E; subst t; rewrite contains_app; apply orb_true_iff; by right|].
    clear -E Hf. revert t E. induction a as [|x a IH]; intros [|y t] E; cbn in E.
    - discriminate E.
    - by injection E as <- _.
    - injection E as -> _. by apply Forall_cons in Hf as [Hf _].
    - injection E as _ E. apply Forall_cons in Hf as [_ Hf]. unfold contains. cbn [existsb]. apply orb_true_iff. right. by apply IH. }
  assert (groupOk t = false) as Hg by (destruct (groupOk t) eqn:G; [by rewrite (group_no_dot t G) in Hd|done]).
  destruct H as [[-> _]|(s' & -> & ->)].
  - rewrite app_nil_r in E. apply free_contains in Ht. by rewrite <- E, Hc in Ht.
  - pose proof (split_ne (ch ":") s'). destruct (split (ch ":") s') as [|[|x y] r]; cbn [gapped]; by rewrite ?Hg.
Qed.

Lemma check_agrees t : validationCheckIp (validationParseIp t) AnyFamily = None <-> free (ch "%") t /\ is_Some (ipListParseAddress t).
Proof.
  unfold validationParseIp. rewrite parseIp_dispatch. unfold ipListParseAddress.
  destruct (List.find _ t) as [c|] eqn:Ef.
  - apply find_first in Ef as (Hc & a & b & Ht & Ha). assert (c = 46 \/ c = 58 \/ c = 37) as [->|[->| ->]] by (bprop; lia); cbn [Z.eqb Pos.eqb].
    + split.
      * destruct (validationIpv4Fields t) eqn:V; [|done]. intros _. destruct (v4_shape t V) as [Hf _]. rewrite (proj2 (free_contains _ _) Hf).
        apply v4_agree in V as [v V]. rewrite V. split; [|by eexists]. apply v4_text_bijection in V as [Hv ->]. apply v4_text_free; [done|vm_compute; intros [H _]; by apply H|done].
      * intros [Hz H]. rewrite indexOf_free in H by done. destruct (contains (ch ":") t) eqn:Ec.
        -- pose proof (v6_no_dot_first a b Ha) as Hn. rewrite <- Ht in Hn. specialize (Hn Ec). pose proof (proj2 (v6_agree t)) as Hv.
           destruct (ipListParseV6 t) as [[x y]|]; [|by destruct H as [? [=]]]. by rewrite Hv in Hn by by eexists.
        -- pose proof (proj2 (v4_agree t)) as Hv. destruct (ipListParseV4 t); [|by destruct H as [? [=]]]. by rewrite Hv by by eexists.
    + assert (contains (ch ":") t = true) as -> by (rewrite Ht, contains_app; apply orb_true_iff; by right). unfold validationIpv6.
      destruct (indexOf (ch "%") t) as [pct|] eqn:Ep.
      * split; [|intros [Hz _]; by rewrite indexOf_free in Ep]. destruct (Nat.eqb _ _); [done|]. by destruct (v6Text _).
      * pose proof (v6_agree t) as Hv. assert (free (ch "%") t) as Hz.
        { apply free_contains. destruct (contains (ch "%") t) eqn:E; [|done]. apply indexOf_contains in E as [? E]. by rewrite E in Ep. }
        destruct (v6Text t), (ipListParseV6 t) as [[x y]|]; cbn [validationCheckIp kind zoned].
        -- split; [by eexists|done].
        -- by destruct (proj1 Hv eq_refl) as [? [=]].
        -- pose proof (proj2 Hv ltac:(by eexists)). done.
        -- split; [done|]. by intros [_ [? [=]]].
    + split; [done|]. intros [Hz _]. rewrite Ht in Hz. apply free_app in Hz as [_ Hz]. by apply Forall_cons in Hz as [Hz _].
  - cbn [validationCheckIp kind]. split; [done|]. intros [Hz H]. pose proof (find_none _ _ Ef) as Hn. rewrite indexOf_free in H by done.
    assert (forall c, (c =? 46) || (c =? 58) || (c =? 37) = true -> contains c t = false) as Hno.
    { intros c Hc. apply free_contains, Forall_forall. intros d Hd ->. apply list_elem_of_In, Hn in Hd. by rewrite Hc in Hd. }
    rewrite (Hno (ch ":")) in H by done. pose proof (proj2 (v4_agree t)) as Hv. destruct (ipListParseV4 t); [|by destruct H as [? [=]]].
    pose proof (v4_dot t (Hv ltac:(by eexists))) as Hd. by rewrite (Hno (ch ".")) in Hd.
Qed.

(** What an accepted address is, and which characters it has. *)
Lemma check_kind t a : validationCheckIp (validationParseIp t) AnyFamily = None -> ipListParseAddress t = Some a ->
  (kind (validationParseIp t) = IpV4 /\ v6 a = false) \/ (kind (validationParseIp t) = IpV6 /\ v6 a = true).
Proof.
  unfold validationParseIp. rewrite parseIp_dispatch. unfold ipListParseAddress. destruct (List.find _ t) as [c|] eqn:Ef; [|done].
  apply find_first in Ef as (Hc & x & y & Ht & Ha). assert (c = 46 \/ c = 58 \/ c = 37) as [->|[->| ->]] by (bprop; lia); cbn [Z.eqb Pos.eqb]; [| |done].
  - destruct (validationIpv4Fields t) eqn:V; [|done]. destruct (v4_shape t V) as [Hf _]. rewrite (proj2 (free_contains _ _) Hf). intros _.
    destruct (ipListParseV4 t); [|done]. intros [= <-]. by left.
  - assert (contains (ch ":") t = true) as -> by (rewrite Ht, contains_app; apply orb_true_iff; by right). destruct (validationIpv6 t) as [[] z]; [|done]. intros _.
    destruct (ipListParseV6 _) as [[? ?]|]; [|done]. intros [= <-]. by right.
Qed.

(** An address of the family the check asks for. *)
Definition inFamily (family : Family) (a : IpListParseAddr) : Prop :=
  match family with AnyFamily => True | V4 => v6 a = false | V6 => v6 a = true end.

Lemma check_family p family : validationCheckIp p family = None <->
  validationCheckIp p AnyFamily = None /\ match family with AnyFamily => True | V4 => kind p = IpV4 | V6 => kind p = IpV6 end.
Proof. unfold validationCheckIp. destruct (kind p), family, (zoned p); intuition congruence. Qed.

(** C23: the address check of the settings accepts exactly the texts without a zone that
    the reader of IP lists takes for an address of the family that is asked for; of
    empty text it accepts what an optional field may hold. *)
Theorem ip_check_agrees text family empty : Ip text family empty = None <->
  (trimmed text = [] /\ empty = Allowed) \/
  (trimmed text <> [] /\ free (ch "%") (trimmed text) /\ exists a, ipListParseAddress (trimmed text) = Some a /\ inFamily family a).
Proof.
  unfold Ip. generalize (trimmed text). intros t. destruct t as [|c t]; cbn [isEmpty].
  { destruct empty; cbn [validationEmpty]; intuition congruence. }
  set (u := c :: t). rewrite check_family. split.
  - intros [Hc Hk]. right. split; [done|]. pose proof (proj1 (check_agrees u) Hc) as [Hz [a Ha]]. split; [done|]. exists a. split; [done|].
    destruct (check_kind u a Hc Ha) as [[E V]|[E V]]; rewrite E in Hk; destruct family; cbn [inFamily]; congruence || done.
  - intros [[? _]|(_ & Hz & a & Ha & Hf)]; [done|].
    assert (validationCheckIp (validationParseIp u) AnyFamily = None) as Hc by (apply check_agrees; split; [done|by exists a]).
    split; [done|]. destruct (check_kind u a Hc Ha) as [[E V]|[E V]]; rewrite E; destruct family; cbn [inFamily] in Hf; congruence || done.
Qed.

Lemma words_free c tl ts : forall k, words tl ts = Some k -> validationHexDigit c = false -> c <> 46 -> Forall (free c) ts.
Proof.
  induction ts as [|t ts IH]; intros k; [constructor|]. cbn [words]. destruct (isEmpty ts && tl && contains (ch ".") t) eqn:E.
  - destruct (validationIpv4Fields t) eqn:V; [|done]. intros _ Hc Hd. destruct ts; [|done]. constructor; [|constructor].
    apply v4_agree in V as [v V]. apply v4_text_bijection in V as [Hv ->]. apply v4_text_free; [done| |done].
    intros H. unfold validationHexDigit in Hc. bprop. lia.
  - destruct (groupOk t) eqn:G; [|done]. destruct (words tl ts) as [m|] eqn:W; [|done]. intros _ Hc Hd. constructor; [|by eapply IH].
    unfold groupOk in G. bprop. destruct G as [_ G]. apply Forall_forall. intros x Hx ->. rewrite forallb_forall in G. apply list_elem_of_In, G in Hx. by rewrite Hc in Hx.
Qed.
Lemma side_free c tl s k : side tl s = Some k -> validationHexDigit c = false -> c <> 46 -> c <> 58 -> free c s.
Proof.
  unfold side. destruct (isEmpty s) eqn:E; [by destruct s; [constructor|]|]. intros H Hc Hd Hn. rewrite <- (join_split (ch ":") s). apply join_Forall; [by repeat constructor|].
  by eapply words_free.
Qed.
Lemma address_free c t a : ipListParseAddress t = Some a -> free (ch "%") t -> validationHexDigit c = false -> c <> 46 -> c <> 58 -> free c t.
Proof.
  intros H Hz Hc Hd Hn. unfold ipListParseAddress in H. rewrite indexOf_free in H by done. destruct (contains (ch ":") t).
  - destruct (ipListParseV6 t) as [[x y]|] eqn:E; [|done]. clear H. unfold ipListParseV6 in E. destruct (indexOfStr (qs "::") t) as [gap|] eqn:Eg.
    + apply indexOfStr_parts in Eg. change (length (qs "::")) with 2%nat in Eg. destruct (containsStr _ _); [done|].
      pose proof (part_cases false (take gap t)) as Pa. pose proof (part_cases true (drop (gap + 2) t)) as Pb.
      destruct (ipListParseV6Part _ false); [|done]. destruct (ipListParseV6Part _ true); [|done]. rewrite Eg, !free_app. split_and!; [by eapply side_free| |by eapply side_free].
      repeat constructor; by intros <-.
    + pose proof (part_cases true t) as P. destruct (ipListParseV6Part t true); [|done]. by eapply side_free.
  - destruct (ipListParseV4 t) as [v|] eqn:E; [|done]. apply v4_text_bijection in E as [Hv ->]. apply v4_text_free; [done| |done].
    intros H'. unfold validationHexDigit in Hc. bprop. lia.
Qed.
