(* ===== verification/ValidationNumbers.v ===== *)
(** * What the number checks accept (src/src/global/Validation.cpp)

    The readers of signed numbers and of ports against the value of the digits,
    and networks against their canonical text. *)

From Stdlib Require Import Ascii String.
From S2P Require Import Prelude QtText IpListParse IpCover IpAddressText Validation ValidationAddress.

Local Open Scope Z_scope.
#[local] Set Warnings "-register-all".

(** ** Signed numbers *)

(** The number a text of digits stands for, with a minus sign in front or none. *)
Definition signedText (s : qstring) : option Z :=
  match s with c :: rest => if c =? ch "-" then Z.opp <$> unsignedText rest else unsignedText s | [] => None end.

Lemma decimalLoop_ge s : forall v n, decimalLoop s v = Some n -> 0 <= v -> v <= n.
Proof.
  induction s as [|c s IH]; intros v n; cbn [decimalLoop]; [by intros [= <-]|].
  destruct ((48 <=? c) && (c <=? 57)) eqn:D; [|done]. intros H Hv. bprop. apply IH in H; lia.
Qed.
Lemma parseIntLoop_spec limit s : 0 <= limit < 2 ^ 64 -> forall v, 0 <= v <= limit ->
  parseIntLoop limit s v = n ← decimalLoop s v; if n <=? limit then Some n else None.
Proof.
  intros Hl. induction s as [|c s IH]; intros v Hv; cbn [parseIntLoop decimalLoop].
  { cbn. destruct (Z.leb_spec v limit); [done|lia]. }
  unfold validationDigit. destruct ((48 <=? c) && (c <=? 57)) eqn:D; [|done]. cbn [negb]. bprop.
  destruct (Z.ltb_spec ((limit - (c - 48)) / 10) v) as [H|H].
  - assert (limit < 10 * v + (c - 48)) by (Z.to_euclidean_division_equations; lia). destruct (decimalLoop s _) as [n|] eqn:E; [|done].
    apply decimalLoop_ge in E; [|lia]. cbn. destruct (Z.leb_spec n limit); [lia|done].
  - assert (10 * v + (c - 48) <= limit) by (Z.to_euclidean_division_equations; lia). rewrite u64_small by lia. rewrite IH by lia.
    by replace (v * 10 + (c - 48)) with (10 * v + (c - 48)) by lia.
Qed.

(** The reader of numbers gives the value of the digits exactly when it fits in 64
    signed bits, down to the smallest one; no product wraps. *)
Theorem parse_int_exact s : validationParseInt s = n ← signedText s; if (- 2 ^ 63 <=? n) && (n <? 2 ^ 63) then Some n else None.
Proof.
  unfold validationParseInt, signedText. destruct s as [|c s]; [done|]. change (ch "-") with 45. destruct (Z.eqb_spec c 45) as [->|Hc]; cbn [negb].
  - unfold unsignedText. destruct (isEmpty s); [done|]. rewrite parseIntLoop_spec by lia. destruct (decimalLoop s 0) as [n|] eqn:E; [|done].
    apply decimalLoop_ge in E; [|lia]. cbn. destruct (Z.leb_spec n (2 ^ 63 - 1 + 1)), (Z.leb_spec (- 2 ^ 63) (- n)), (Z.ltb_spec (- n) (2 ^ 63)); try lia; [|done].
    cbn. f_equal. destruct (Z.eqb_spec n (2 ^ 63 - 1 + 1)); lia.
  - cbn [isEmpty]. unfold unsignedText. cbn [isEmpty]. rewrite parseIntLoop_spec by lia. destruct (decimalLoop (c :: s) 0) as [n|] eqn:E; [|done].
    apply decimalLoop_ge in E; [|lia]. cbn. by destruct (Z.leb_spec n (2 ^ 63 - 1 + 0)), (Z.leb_spec (- 2 ^ 63) n), (Z.ltb_spec n (2 ^ 63)); try lia.
Qed.

(** ** Ports *)

Lemma decimalLoop_all s : forall v, is_Some (decimalLoop s v) <-> forallb validationDigit s = true.
Proof.
  induction s as [|c s IH]; intros v; cbn [decimalLoop forallb]; [split; [done|by eexists]|]. unfold validationDigit at 1.
  destruct ((48 <=? c) && (c <=? 57)); cbn [andb]; [apply IH|]. split; [by intros [? [=]]|done].
Qed.
Lemma allDigits_unsigned s : validationAllDigits s = true <-> is_Some (unsignedText s).
Proof.
  unfold validationAllDigits, unsignedText. destruct s as [|c s]; [split; [done|by intros [? [=]]]|]. cbn [isEmpty negb andb]. by rewrite decimalLoop_all.
Qed.
Lemma decimalLoop_low s : forall v n, decimalLoop s v = Some n -> 0 <= v -> v * 10 ^ Z.of_nat (length s) <= n.
Proof.
  induction s as [|c s IH]; intros v n; cbn [decimalLoop length]; [intros [= <-]; cbn; lia|].
  destruct ((48 <=? c) && (c <=? 57)) eqn:D; [|done]. intros H Hv. bprop. apply IH in H; [|lia]. rewrite Nat2Z.inj_succ, Z.pow_succ_r by lia.
  assert (0 < 10 ^ Z.of_nat (length s)) by (apply Z.pow_pos_nonneg; lia). nia.
Qed.
Lemma unsigned_toInteger s n : unsignedText s = Some n -> toInteger s = Some n.
Proof.
  intros H. assert (validationAllDigits s = true) as Hd by (apply allDigits_unsigned; by eexists). unfold validationAllDigits in Hd. bprop. destruct Hd as [Hne Hd].
  assert (Forall (fun c => 48 <= c <= 57) s) as Hf.
  { apply Forall_forall. intros c Hc. rewrite forallb_forall in Hd. apply list_elem_of_In, Hd in Hc. unfold validationDigit in Hc. bprop. lia. }
  unfold toInteger. rewrite trimmed_noSpace by (eapply Forall_impl; [exact Hf|]; cbn; intros; by apply digit_not_space).
  destruct s as [|c s]; [done|]. apply Forall_cons in Hf as [Hc _]. destruct (Z.eqb_spec c 45), (Z.eqb_spec c 43); [lia..|done].
Qed.

Lemma skipZeros_spec s : validationAllDigits s = true -> unsignedText (skipZeros s) = unsignedText s /\ validationAllDigits (skipZeros s) = true /\
  (length (skipZeros s) = 1%nat \/ exists c r, skipZeros s = c :: r /\ 49 <= c <= 57).
Proof.
  induction s as [|c s IH]; [done|]. intros H. destruct s as [|d s]; [by split_and!; [| |left]|].
  change (skipZeros (c :: d :: s)) with (if c =? 48 then skipZeros (d :: s) else c :: d :: s).
  assert (validationAllDigits (d :: s) = true /\ validationDigit c = true) as [H1 H2] by (unfold validationAllDigits in *; cbn [isEmpty negb andb forallb] in *; bprop; tauto).
  destruct (Z.eqb_spec c 48) as [->|Hc].
  - destruct (IH H1) as (E1 & E2 & E3). split_and!; [by rewrite E1|done|done].
  - split_and!; [done|done|]. right. exists c, (d :: s). split; [done|]. unfold validationDigit in H2. bprop. lia.
Qed.

(** The reader of a port of a range gives the value of the digits, leading zeros
    or not, exactly when it is at most 65535. *)
Theorem parse_uint16_exact s : validationParseUint16 s = n ← unsignedText s; if n <=? 65535 then Some n else None.
Proof.
  unfold validationParseUint16. pose proof (allDigits_unsigned s) as Ha. destruct (validationAllDigits s) eqn:D; cbn [negb].
  2:{ destruct (unsignedText s); [|done]. pose proof (proj2 Ha ltac:(by eexists)) as E. done. }
  destruct (skipZeros_spec s D) as (<- & Hd & Hs). revert Hd Hs. generalize (skipZeros s). clear. intros s Hd Hs.
  apply allDigits_unsigned in Hd as [n Hn]. rewrite Hn. cbn. pose proof Hn as Hn'. unfold unsignedText in Hn'. destruct s as [|c s]; [done|]. cbn [isEmpty] in Hn'.
  destruct (Z.ltb_spec 5 (qsize (c :: s))) as [Hl|Hl].
  - unfold qsize in Hl. cbn [length] in *. destruct Hs as [Hs|(c' & r & [= <- <-] & Hc)]; [lia|]. cbn [decimalLoop] in Hn'.
    destruct ((48 <=? c) && (c <=? 57)); [|done]. apply decimalLoop_low in Hn'; [|lia]. assert (10 ^ 5 <= 10 ^ Z.of_nat (length s)) by (apply Z.pow_le_mono_r; lia).
    destruct (Z.leb_spec n 65535); [nia|done].
  - assert (0 <= n < 10 ^ 5) as Hr.
    { split; [apply (decimalLoop_ge _ _ _ Hn'); lia|]. assert (forall s v n, decimalLoop s v = Some n -> 0 <= v -> n < (v + 1) * 10 ^ Z.of_nat (length s)) as Hup.
      { clear. induction s as [|c s IH]; intros v n; cbn [decimalLoop length]; [intros [= <-]; cbn; lia|]. destruct ((48 <=? c) && (c <=? 57)) eqn:D; [|done].
        intros H Hv. bprop. apply IH in H; [|lia]. rewrite Nat2Z.inj_succ, Z.pow_succ_r by lia. assert (0 < 10 ^ Z.of_nat (length s)) by (apply Z.pow_pos_nonneg; lia). nia. }
      apply Hup in Hn'; [|lia]. unfold qsize in Hl. assert (10 ^ Z.of_nat (length (c :: s)) <= 10 ^ 5) by (apply Z.pow_le_mono_r; lia). lia. }
    unfold toInt, toIntegerIn. rewrite (unsigned_toInteger _ _ Hn). cbn. destruct (Z.leb_spec (- 2 ^ 31) n), (Z.leb_spec n (2 ^ 31 - 1)); try lia. cbn.
    by destruct (Z.ltb_spec 65535 n), (Z.leb_spec n 65535); try lia.
Qed.

(** A port that the check accepts is read as that number everywhere. *)
Lemma portNumber_toInt s : portNumber s = true -> exists n, 1 <= n <= 65535 /\ toInt s = Some n.
Proof.
  unfold portNumber. rewrite parse_int_exact. unfold signedText. destruct s as [|c s]; [done|]. change (ch "-") with 45. destruct (Z.eqb_spec c 45) as [->|Hc].
  - unfold unsignedText. destruct (isEmpty s); [done|]. destruct (decimalLoop s 0) as [n|] eqn:E; [|done]. apply decimalLoop_ge in E; [|lia]. cbn.
    destruct (_ && _); [|done]. intros H. bprop. lia.
  - destruct (unsignedText (c :: s)) as [n|] eqn:E; [|done]. cbn. destruct (_ && _); [|done]. intros H. bprop. exists n. split; [lia|].
    unfold toInt, toIntegerIn. rewrite (unsigned_toInteger _ _ E). cbn. by destruct (Z.leb_spec (- 2 ^ 31) n), (Z.leb_spec n (2 ^ 31 - 1)); try lia.
Qed.

(** ** Networks *)

Lemma free_rev c s : free c (rev s) <-> free c s.
Proof. unfold free. rewrite !Forall_forall. setoid_rewrite list_elem_of_In. by setoid_rewrite <- in_rev. Qed.
Lemma lastIndexOf_split c s n : lastIndexOf c s = Some n -> exists a b, s = a ++ c :: b /\ n = length a /\ free c b.
Proof.
  unfold lastIndexOf. destruct (indexOf c (rev s)) as [m|] eqn:E; [|done]. intros [= <-]. apply indexOf_Some in E as [Hs Hf].
  pose proof (f_equal length Hs) as Hl. rewrite length_rev, length_app in Hl. cbn [length] in Hl. apply (f_equal (@rev Z)) in Hs. rewrite rev_involutive, rev_app_distr in Hs.
  cbn [rev] in Hs. rewrite <- app_assoc in Hs. exists (rev (drop (S m) (rev s))), (rev (take m (rev s))). split_and!; [exact Hs| |].
  - rewrite length_rev. rewrite length_take in Hl. rewrite length_rev in *. lia.
  - by apply free_rev.
Qed.
Lemma drop_mid {A} (a : list A) c b : drop (S (length a)) (a ++ c :: b) = b.
Proof. induction a as [|x a IH]; cbn; [apply drop_0|exact IH]. Qed.
Lemma lastIndexOf_free c s : lastIndexOf c s = None <-> free c s.
Proof.
  unfold lastIndexOf. rewrite fmap_None. rewrite <- free_rev.
  split; [|apply indexOf_free]. intros H. apply free_contains. destruct (contains c (rev s)) eqn:E; [|done]. apply indexOf_contains in E as [? E]. by rewrite E in H.
Qed.

(** The prefix lengths that pass are the printed numbers. *)
Definition prefixOk (max : Z) (bits : qstring) : bool :=
  validationAllDigits bits && negb ((1 <? qsize bits) && startsWithC 48 bits) && (qsize bits <=? 3) && (default 0 (toInt bits) <=? max).
Lemma prefixOk_spec max bits : max <= 128 -> prefixOk max bits = true <-> exists p, 0 <= p <= max /\ bits = number p.
Proof.
  intros Hm. split.
  - unfold prefixOk. destruct ((1 <? qsize bits) && startsWithC 48 bits) eqn:E; [by rewrite andb_false_r|]. rewrite andb_true_r. intros [[Hd Hl%Z.leb_le]%andb_true_iff Hp%Z.leb_le]%andb_true_iff.
    pose (f := fun s => ((1 <? qsize s) && startsWithC 48 s) || (bool_decide (s = number (default 0 (toInt s))) && (0 <=? default 0 (toInt s)))).
    assert (f bits = true) as Hf.
    { unfold validationAllDigits in Hd. apply andb_true_iff in Hd as [Hne Hd]. apply digit3_spec; [by vm_compute|by destruct bits|unfold qsize in Hl; lia|].
      apply Forall_forall. intros c Hc. rewrite forallb_forall in Hd. apply list_elem_of_In, Hd in Hc. unfold validationDigit in Hc. bprop. lia. }
    unfold f in Hf. rewrite E in Hf. cbn [orb] in Hf. bprop. destruct Hf as [Hf1 Hf2].
    exists (default 0 (toInt bits)). split; [lia|done].
  - intros (p & Hp & ->). pose (g := fun p => prefixOk p (number p) && (default 0 (toInt (number p)) =? p)).
    assert (g p = true) as G by (apply (below_forall g 129); [by vm_compute|lia]). unfold g, prefixOk in *. bprop. destruct G as [[[[H1 H2] H3] H4] H5]. split_and!; try done; lia.
Qed.

(** The network check accepts an address as the reader of IP lists takes it, alone or
    with the printed number of a prefix length that it has, and nothing else. *)
Theorem cidr_check_exact text : Cidr text AnyFamily true Required = None <->
  exists body a, free (ch "%") body /\ ipListParseAddress body = Some a /\
    (trimmed text = body \/ exists p, 0 <= p <= ipListParseBits a /\ trimmed text = body ++ ch "/" :: number p).
Proof.
  assert (forall body a, ipListParseAddress body = Some a -> free (ch "%") body -> free (ch "/") body) as Hfree by (intros; by eapply address_free).
  unfold Cidr. destruct (isEmpty (trimmed text)) eqn:Et.
  { destruct (trimmed text); [|done]. split; [done|]. intros (body & a & _ & Ha & [<-|(p & _ & E)]); [done|]. by destruct body. }
  split.
  - destruct (lastIndexOf (ch "/") (trimmed text)) as [n|] eqn:El.
    + apply lastIndexOf_split in El as (body & bits & -> & -> & Hf). rewrite take_app_length, drop_mid. destruct (validationCheckIp _ _) eqn:Ec; [done|].
      pose proof Ec as Ec'. apply check_agrees in Ec' as [Hz [a Ha]]. intros H. exists body, a. split_and!; [done..|]. right.
      assert (prefixOk (ipListParseBits a) bits = true) as Hp.
      { unfold prefixOk. destruct (contains _ bits); [done|]. destruct (validationAllDigits bits); [|done]. cbn [negb] in H. destruct (_ && _); [done|].
        assert (match kind (validationParseIp body) with IpV4 => 32 | _ => 128 end = ipListParseBits a) as E.
        { unfold ipListParseBits. by destruct (check_kind _ _ Ec Ha) as [[-> ->]|[-> ->]]. }
        rewrite E in H. destruct (Z.ltb_spec 3 (qsize bits)), (Z.ltb_spec (ipListParseBits a) (default 0 (toInt bits))); try done. cbn. bprop. lia. }
      apply prefixOk_spec in Hp as (p & Hp & ->); [|unfold ipListParseBits; by destruct (v6 a)]. by exists p.
    + intros H. apply check_agrees in H as [Hz [a Ha]]. exists (trimmed text), a. split_and!; [done..|by left].
  - intros (body & a & Hz & Ha & H). assert (validationCheckIp (validationParseIp body) AnyFamily = None) as Hc by (apply check_agrees; by split; [|eexists]).
    destruct H as [->|(p & Hp & ->)].
    + by rewrite (proj2 (lastIndexOf_free _ _)) by by eapply Hfree.
    + assert (prefixOk (ipListParseBits a) (number p) = true) as Hk by (apply prefixOk_spec; [unfold ipListParseBits; by destruct (v6 a)|by exists p]).
      assert (Forall (fun c => 48 <= c <= 57) (number p)) as Hd by (unfold number; destruct (Z.ltb_spec p 0); [lia|apply unumber10_chars]).
      rewrite lastIndexOf_app by (apply digits_free; [done|vm_compute; intros [H _]; by apply H]). rewrite take_app_length, drop_mid, Hc.
      rewrite (proj2 (free_contains _ _)) by (apply digits_free; [done|vm_compute; intros [H _]; by apply H]). unfold prefixOk in Hk.
      destruct (validationAllDigits (number p)); cbn [negb andb] in *; [|done]. destruct (_ && startsWithC _ _); cbn [negb andb] in *; [done|].
      assert (match kind (validationParseIp body) with IpV4 => 32 | _ => 128 end = ipListParseBits a) as ->.
      { unfold ipListParseBits. by destruct (check_kind _ _ Hc Ha) as [[-> ->]|[-> ->]]. }
      bprop. destruct (Z.ltb_spec 3 (qsize (number p))), (Z.ltb_spec (ipListParseBits a) (default 0 (toInt (number p)))); try lia. done.
Qed.
