(* ===== verification/ValidationDuration.v ===== *)
(** * Durations and sizes in settings (src/src/global/Validation.cpp)

    [ParseDurationNs] follows the parser of the core, on bytes and 64-bit counters;
    a fraction is computed in double precision, whose operations are those of the
    standard [spec_float] with 53 bits. [validationFormatDuration] prints what it
    reads. *)

From Stdlib Require Import Ascii String SpecFloat.
From S2P Require Import Prelude QtText Validation ValidationNumbers.

Local Open Scope Z_scope.
#[local] Set Warnings "-register-all".

(** ** Doubles *)

Definition double (z : Z) : spec_float := binary_normalize 53 1024 z 0 false.
Definition doubleMul : spec_float -> spec_float -> spec_float := SFmul 53 1024.
Definition doubleDiv : spec_float -> spec_float -> spec_float := SFdiv 53 1024.
(** The conversion to quint64, towards zero. *)
Definition toQuint64 (x : spec_float) : Z :=
  match x with
  | S754_finite false m e => if 0 <=? e then Z.pos m * 2 ^ e else Z.pos m / 2 ^ (- e)
  | _ => 0
  end.

(** ** Reading *)

Definition kLimit : Z := 2 ^ 63.

Definition durationUnits : list (qstring * Z) :=
  [(qs "ns", 1); (qs "us", 1000); ([0xC2; 0xB5; ch "s"], 1000); ([0xCE; 0xBC; ch "s"], 1000); (qs "ms", 1000000);
   (qs "s", 1000000000); (qs "m", 60000000000); (qs "h", 3600000000000); (qs "d", 86400000000000)].
Definition validationDurationUnit (u : list Z) : Z :=
  match List.find (fun p => bool_decide (p.1 = u)) durationUnits with Some p => p.2 | None => 0 end.

(** The digits before the point and what follows; [None] on overflow. *)
Fixpoint durationInt (s : list Z) (v : Z) : option (Z * list Z) :=
  match s with
  | c :: s' =>
      if validationDigit c then
        if kLimit / 10 <? v then None
        else let v := u64 (v * 10 + (c - 48)) in if kLimit <? v then None else durationInt s' v
      else Some (v, s)
  | [] => Some (v, [])
  end.
(** The digits after it, those that fit; [scale] is the power of ten they are over. *)
Fixpoint durationFrac (s : list Z) (f : Z) (scale : spec_float) (overflow : bool) : Z * spec_float * list Z :=
  match s with
  | c :: s' =>
      if validationDigit c then
        if overflow || ((kLimit - 1) / 10 <? f) then durationFrac s' f scale true
        else let y := u64 (f * 10 + (c - 48)) in
             if kLimit <? y then durationFrac s' f scale true else durationFrac s' y (doubleMul scale (double 10)) false
      else (f, scale, s)
  | [] => (f, scale, [])
  end.
Definition unitChar (c : Z) : bool := negb (c =? ch ".") && negb (validationDigit c).

(** One number with its unit, in nanoseconds, and what follows. *)
Definition durationSegment (s : list Z) : option (Z * list Z) :=
  if negb (startsWithC (ch ".") s || match s with c :: _ => validationDigit c | [] => false end) then None
  else
    '(v, r) ← durationInt s 0;
    let pre := negb (Nat.eqb (length r) (length s)) in
    let '(f, scale, r, post) :=
      match r with
      | c :: r' => if c =? ch "." then let '(f, scale, q) := durationFrac r' 0 (double 1) false in (f, scale, q, negb (Nat.eqb (length q) (length r')))
                   else (0, double 1, r, false)
      | [] => (0, double 1, r, false)
      end in
    if negb pre && negb post then None
    else
      let name := takeWhile unitChar r in
      let unit := validationDurationUnit name in
      if isEmpty name || (unit =? 0) then None
      else if kLimit / unit <? v then None
      else
        let v := u64 (v * unit) in
        let v := if 0 <? f then u64 (v + toQuint64 (doubleMul (double f) (doubleDiv (double unit) scale))) else v in
        if kLimit <? v then None else Some (v, dropWhile unitChar r).

(** The sum of the segments; each takes a character, so the length is fuel enough. *)
Fixpoint durationLoop (fuel : nat) (s : list Z) (d : Z) : option Z :=
  match s, fuel with
  | [], _ => Some d
  | _, O => None
  | _, S fuel => '(v, s) ← durationSegment s; let d := u64 (d + v) in if kLimit <? d then None else durationLoop fuel s d
  end.

Section Durations.
(** QString::toUtf8 and toLower *)
Context (toUtf8 : qstring -> list Z) (toLower : qstring -> qstring).

Definition durationBytes (bytes : list Z) : option Z :=
  let neg := startsWithC (ch "-") bytes in
  let s := if neg || startsWithC (ch "+") bytes then drop 1 bytes else bytes in
  if bool_decide (s = [ch "0"]) then Some 0
  else if isEmpty s then None
  else d ← durationLoop (length s) s 0;
       if neg then Some (if d =? kLimit then - 2 ^ 63 else - d) else if kLimit - 1 <? d then None else Some d.
Definition ParseDurationNs (text : qstring) : option Z := durationBytes (toUtf8 (trimmed text)).

(** ** Printing *)

Definition printUnits : list (Z * qstring) :=
  [(3600000000000, qs "h"); (60000000000, qs "m"); (1000000000, qs "s"); (1000000, qs "ms"); (1000, qs "us"); (1, qs "ns")].
Fixpoint printDuration (units : list (Z * qstring)) (v : Z) : qstring :=
  match units with
  | [] => []
  | (unit, name) :: units => if v / unit =? 0 then printDuration units v else number (v / unit) ++ name ++ printDuration units (v mod unit)
  end.
Definition validationFormatDuration (ns : Z) : qstring :=
  if ns =? 0 then qs "0s" else if ns <? 0 then ch "-" :: printDuration printUnits (u64 (0 - ns)) else printDuration printUnits ns.

(** ** The checks *)

Record DurationRule := MkDuration { durationEmpty : Empty; allowNegative : bool; wholeSeconds : bool; minNs : option Z; maxNs : option Z }.
Inductive DurationMessage :=
| DurationRequired | AddUnit (t : qstring) | NotDuration | MustNotBeNegative | UseWholeSeconds | AtLeast (t : qstring) | AtMost (t : qstring).
(** A number with a point or without, and no unit. *)
Definition bareNumber (t : qstring) : bool :=
  match indexOf (ch ".") t with
  | None => validationAllDigits t
  | Some dot => validationAllDigits (take dot t) && validationAllDigits (drop (S dot) t)
  end.
Definition Duration (text : qstring) (rule : DurationRule) : option DurationMessage :=
  let t := trimmed text in
  if isEmpty t then match durationEmpty rule with Required => Some DurationRequired | Allowed => None end
  else match ParseDurationNs t with
       | None => Some (if bareNumber t then AddUnit t else NotDuration)
       | Some ns =>
           if negb (allowNegative rule) && (ns <? 0) then Some MustNotBeNegative
           else if wholeSeconds rule && negb (Z.rem ns 1000000000 =? 0) then Some UseWholeSeconds
           else match minNs rule with
                | Some m => if ns <? m then Some (AtLeast (validationFormatDuration m))
                            else match maxNs rule with Some x => if x <? ns then Some (AtMost (validationFormatDuration x)) else None | None => None end
                | None => match maxNs rule with Some x => if x <? ns then Some (AtMost (validationFormatDuration x)) else None | None => None end
                end
       end.

Definition memoryUnits : list (qstring * Z) :=
  [(qs "b", 1); (qs "k", 2 ^ 10); (qs "kb", 2 ^ 10); (qs "m", 2 ^ 20); (qs "mb", 2 ^ 20); (qs "g", 2 ^ 30); (qs "gb", 2 ^ 30); (qs "t", 2 ^ 40);
   (qs "tb", 2 ^ 40); (qs "p", 2 ^ 50); (qs "pb", 2 ^ 50); (qs "e", 2 ^ 60); (qs "eb", 2 ^ 60)].
Definition validationMemoryUnit (unit : qstring) : Z :=
  match List.find (fun p => bool_decide (p.1 = unit)) memoryUnits with Some p => p.2 | None => 0 end.
Inductive SizeMessage := SizeRequired | AddSizeUnit | SizeTooLarge | SizeNegative | SizeNotWhole | NotSize | UnknownUnit (u : qstring).
Definition MemoryBytes (text : qstring) (allowBareInteger : bool) (empty : Empty) : option SizeMessage :=
  let t := trimmed text in
  if isEmpty t then match empty with Required => Some SizeRequired | Allowed => None end
  else
    let digits := takeWhile validationDigit t in
    match dropWhile validationDigit t with
    | [] => if negb allowBareInteger then Some AddSizeUnit else match validationParseInt t with Some _ => None | None => Some SizeTooLarge end
    | c :: rest =>
        let digitNext := match rest with d :: _ => validationDigit d | [] => false end in
        if isEmpty digits then
          if (c =? ch "-") && digitNext then Some SizeNegative else if (c =? ch ".") && digitNext then Some SizeNotWhole else Some NotSize
        else if ((c =? ch ".") || (c =? ch ",")) && digitNext then Some SizeNotWhole
        else match toIntegerIn 0 (2 ^ 64 - 1) digits with
             | None => Some SizeTooLarge
             | Some value =>
                 let unit := trimmed (c :: rest) in
                 let unitValue := validationMemoryUnit (toLower unit) in
                 if unitValue =? 0 then Some (UnknownUnit unit) else if (2 ^ 64 - 1) / unitValue <? value then Some SizeTooLarge else None
             end
    end.
End Durations.

(** Two durations that overflow together become none: the sum is exactly 2^64. *)
Example duration_wraps : durationBytes (qs "9223372036854775808ns9223372036854775808ns") = Some 0.
Proof. by vm_compute. Qed.
Example duration_fraction : durationBytes (qs "-1.5h.25s") = Some (- 5400250000000).
Proof. by vm_compute. Qed.
Example duration_smallest : durationBytes (validationFormatDuration (- 2 ^ 63)) = Some (- 2 ^ 63).
Proof. by vm_compute. Qed.

(** ** What is printed is read back *)

Lemma durationInt_digits t : forall v rest, Forall (fun c => 48 <= c <= 57) t -> match rest with c :: _ => validationDigit c = false | [] => True end -> 0 <= v <= kLimit ->
  durationInt (t ++ rest) v = n ← decimalLoop t v; if n <=? kLimit then Some (n, rest) else None.
Proof.
  unfold kLimit. induction t as [|c t IH]; intros v rest Ht Hr Hv; cbn [app durationInt decimalLoop]; change kLimit with (2 ^ 63).
  - destruct (Z.leb_spec v (2 ^ 63)) as [Hl|]; [|lia]. cbn. rewrite (proj2 (Z.leb_le _ _) Hl). destruct rest as [|c rest]; [done|]. cbn [durationInt]. by rewrite Hr.
  - apply Forall_cons in Ht as [Hc Ht]. unfold validationDigit. assert ((48 <=? c) && (c <=? 57) = true) as -> by (bprop; lia).
    destruct (Z.ltb_spec (2 ^ 63 / 10) v) as [H|H].
    + assert (2 ^ 63 < 10 * v + (c - 48)) by (Z.to_euclidean_division_equations; lia). destruct (decimalLoop t _) as [n|] eqn:E; [|done].
      apply decimalLoop_ge in E; [|lia]. cbn. destruct (Z.leb_spec n (2 ^ 63)); [lia|done].
    + assert (10 * v + (c - 48) < 2 ^ 64) by (Z.to_euclidean_division_equations; lia). rewrite u64_small by lia. replace (v * 10 + (c - 48)) with (10 * v + (c - 48)) by lia.
      destruct (Z.ltb_spec (2 ^ 63) (10 * v + (c - 48))).
      * destruct (decimalLoop t _) as [n|] eqn:E; [|done]. apply decimalLoop_ge in E; [|lia]. cbn. destruct (Z.leb_spec n (2 ^ 63)); [lia|done].
      * by apply IH; [done|done|lia].
Qed.

Lemma while_app_all {A} (p : A -> bool) t u : Forall (fun c => p c = true) t -> match u with [] => True | x :: _ => p x = false end ->
  takeWhile p (t ++ u) = t /\ dropWhile p (t ++ u) = u.
Proof.
  intros Ht Hu. induction Ht as [|x t Hx _ [IH1 IH2]]; cbn [app takeWhile dropWhile].
  - destruct u as [|x u]; [done|]. cbn. by rewrite Hu.
  - by rewrite Hx, IH1, IH2.
Qed.
Definition plainUnit (name : qstring) : Prop := name <> [] /\ Forall (fun c => unitChar c = true) name.
Lemma segment_print q name unit rest : 0 <= q -> q * unit <= kLimit -> 0 < unit -> plainUnit name -> validationDurationUnit name = unit ->
  match rest with c :: _ => validationDigit c = true | [] => True end ->
  durationSegment (number q ++ name ++ rest) = Some (q * unit, rest).
Proof.
  intros Hq Hl Hu [Hn Hc] Hv Hr. assert (number q = unumber 10 q) as -> by (unfold number; by destruct (Z.ltb_spec q 0); [lia|]).
  pose proof (unumber10_chars q) as Hd. pose proof (unumber_nonempty 10 q) as Hne. pose proof (unsigned_print q Hq) as Hp. revert Hd Hne Hp. generalize (unumber 10 q). intros t Hd Hne Hp.
  destruct t as [|c0 t0] eqn:Et; [done|]. rewrite <- Et in *. assert (decimalLoop t 0 = Some q) as Hdl by (unfold unsignedText in Hp; rewrite Et in *; exact Hp).
  destruct name as [|n0 name0] eqn:En; [done|]. rewrite <- En in *. assert (unitChar n0 = true) as Hn0 by (rewrite En in Hc; by apply Forall_cons in Hc as [Hc _]).
  unfold durationSegment. assert (negb (startsWithC (ch ".") (t ++ name ++ rest) || match t ++ name ++ rest with c :: _ => validationDigit c | [] => false end) = false) as ->.
  { rewrite Et. cbn [app]. apply negb_false_iff, orb_true_iff. right. rewrite Et in Hd. apply Forall_cons in Hd as [Hd _]. unfold validationDigit. bprop. lia. }
  assert (kLimit = 2 ^ 63) as Ek by done. assert (validationDigit n0 = false) as Hdn by (unfold unitChar in Hn0; apply andb_true_iff in Hn0 as [_ Hn0]; by apply negb_true_iff in Hn0).
  rewrite durationInt_digits; [|done|by rewrite En|lia]. rewrite Hdl. cbn [mbind option_bind].
  assert (q <= kLimit) as Hqk by nia. rewrite (proj2 (Z.leb_le _ _) Hqk). cbn [mbind option_bind].
  assert (negb (length (name ++ rest) =? length (t ++ name ++ rest))%nat = true) as ->.
  { rewrite (length_app t). apply negb_true_iff, Nat.eqb_neq. rewrite Et. cbn [length]. lia. }
  assert (exists d r, name ++ rest = d :: r /\ unitChar d = true) as (d & r & Edr & Hud) by (rewrite En; cbn; by eexists n0, _).
  rewrite Edr. unfold unitChar in Hud. apply andb_true_iff in Hud as [Hud1 Hud2]. apply negb_true_iff in Hud1. rewrite Hud1. cbn [negb andb]. rewrite <- Edr.
  destruct (while_app_all unitChar name rest) as [-> ->]; [done|destruct rest as [|x rest]; [done|]; unfold unitChar; rewrite Hr; apply andb_false_r|].
  assert (isEmpty name = false) as -> by by rewrite En. rewrite Hv. destruct (Z.eqb_spec unit 0); [lia|]. cbn [orb].
  destruct (Z.ltb_spec (kLimit / unit) q) as [Hx|Hx]; [assert (q <= kLimit / unit) by (apply Z.div_le_lower_bound; [lia|rewrite Z.mul_comm; exact Hl]); lia|].
  change (0 <? 0) with false. cbn iota. assert (0 <= q * unit) by nia. rewrite u64_small by (unfold kLimit in *; lia). destruct (Z.ltb_spec kLimit (q * unit)); [lia|done].
Qed.

(** The units from large to small; what is left behind the last is nothing. *)
Definition unitsOk (units : list (Z * qstring)) : Prop :=
  Forall (fun u => 0 < u.1 <= 3600000000000 /\ plainUnit u.2 /\ validationDurationUnit u.2 = u.1) units.
Lemma printDuration_head units : forall v, 0 <= v -> unitsOk units -> match printDuration units v with c :: _ => validationDigit c = true | [] => True end.
Proof.
  induction units as [|[unit name] units IH]; intros v Hv Hu; cbn [printDuration]; [done|]. apply Forall_cons in Hu as [[[Hp _] _] Hu]. cbn [fst] in Hp.
  destruct (v / unit =? 0); [by apply IH|]. assert (0 <= v / unit) by (apply Z.div_pos; lia). unfold number. destruct (Z.ltb_spec (v / unit) 0); [lia|].
  pose proof (unumber10_chars (v / unit)) as Hc. pose proof (unumber_nonempty 10 (v / unit)). destruct (unumber 10 (v / unit)) as [|c r]; [done|]. cbn [app].
  apply Forall_cons in Hc as [Hc _]. unfold validationDigit. bprop. lia.
Qed.

(** What the units leave of a number. *)
Fixpoint remainder (units : list (Z * qstring)) (v : Z) : Z :=
  match units with [] => v | (unit, _) :: units => if v / unit =? 0 then remainder units v else remainder units (v mod unit) end.
Lemma loop_print units : forall v d fuel, 0 <= v -> 0 <= d -> d + v <= kLimit -> unitsOk units -> (length (printDuration units v) <= fuel)%nat ->
  durationLoop fuel (printDuration units v) d = Some (d + v - remainder units v).
Proof.
  induction units as [|[unit name] units IH]; intros v d fuel Hv Hd Hl Hu Hf; cbn [printDuration remainder] in *.
  { destruct fuel; cbn; f_equal; lia. }
  apply Forall_cons in Hu as [[[Hp Hp2] [Hn Hun]] Hu]. cbn [fst snd] in *. destruct (Z.eqb_spec (v / unit) 0); [by apply IH|].
  pose proof (Z.div_pos v unit Hv Hp) as Hq. pose proof (Z.mod_pos_bound v unit Hp) as Hm. pose proof (Z.div_mod v unit ltac:(lia)) as E.
  assert (v / unit * unit + v mod unit = v) as E' by lia. rewrite !length_app in Hf. pose proof (unumber_nonempty 10 (v / unit)) as Hne.
  assert (0 < length (number (v / unit)))%nat as Hlen by (unfold number; destruct (Z.ltb_spec (v / unit) 0); [lia|]; destruct (unumber 10 (v / unit)); [done|cbn; lia]).
  destruct fuel as [|fuel]; [lia|]. unfold durationLoop at 1. fold durationLoop.
  destruct (number (v / unit) ++ name ++ printDuration units (v mod unit)) as [|c0 r0] eqn:Et; [destruct (number (v / unit)); [cbn in Hlen; lia|done]|]. rewrite <- Et. clear Et c0 r0.
  rewrite (segment_print _ _ unit); [|done|lia|done|done|done|apply printDuration_head; [lia|done]]. cbn [mbind option_bind]. unfold kLimit in *.
  rewrite u64_small by lia. destruct (Z.ltb_spec (2 ^ 63) (d + v / unit * unit)); [lia|]. rewrite IH by (done || lia). f_equal. lia.
Qed.
Lemma print_units_ok : unitsOk printUnits.
Proof. repeat (apply Forall_cons; split; [split_and!; cbn [fst snd]; try done; split; [done|by repeat constructor]|]). constructor. Qed.
Lemma remainder_ns units v : unitsOk units -> 0 <= v -> remainder (units ++ [(1, qs "ns")]) v = 0.
Proof.
  revert v. induction units as [|[unit name] units IH]; intros v Hu Hv; cbn [app remainder].
  - rewrite Z.div_1_r, Z.mod_1_r. by destruct (Z.eqb_spec v 0) as [->|].
  - apply Forall_cons in Hu as [[[Hp _] _] Hu]. destruct (v / unit =? 0); [by apply IH|]. apply IH; [done|]. apply Z.mod_pos_bound. exact Hp.
Qed.

(** Digits and units are ASCII and no spaces. *)
Definition plainChar (c : Z) : Prop := isSpace c = false /\ 0 <= c < 128.
Lemma print_plain units : forall v, 0 <= v -> Forall (fun u => 0 < u.1) units -> Forall (fun u => Forall plainChar u.2) units -> Forall plainChar (printDuration units v).
Proof.
  induction units as [|[unit name] units IH]; intros v Hv Hp Hc; cbn [printDuration]; [constructor|].
  apply Forall_cons in Hp as [Hp Hps]. apply Forall_cons in Hc as [Hc Hcs]. cbn [fst snd] in *. destruct (v / unit =? 0); [by apply IH|].
  assert (0 <= v / unit) by (apply Z.div_pos; lia). rewrite !Forall_app. split_and!; [|done|apply IH; [apply Z.mod_pos_bound; lia|done|done]].
  unfold number. destruct (Z.ltb_spec (v / unit) 0); [lia|]. eapply Forall_impl; [apply unumber10_chars|]. cbn. intros c Hd. split; [by apply digit_not_space|lia].
Qed.
Lemma print_value v : 0 <= v <= kLimit -> durationLoop (length (printDuration printUnits v)) (printDuration printUnits v) 0 = Some v /\
  Forall plainChar (printDuration printUnits v).
Proof.
  intros Hv. split.
  - rewrite loop_print by (lia || exact print_units_ok). change printUnits with (take 5 printUnits ++ [(1, qs "ns")]). rewrite remainder_ns; [f_equal; lia| |lia].
    apply Forall_take, print_units_ok.
  - apply print_plain; [lia| |]; repeat (apply Forall_cons; split; [|]); try done; try (cbn; lia); by repeat constructor.
Qed.

(** C24: every duration of 64 signed bits that a message shows is read back as itself, the
    smallest one included. *)
Theorem duration_roundtrip toUtf8 ns : (forall s, Forall (fun c => 0 <= c < 128) s -> toUtf8 s = s) -> - 2 ^ 63 <= ns < 2 ^ 63 ->
  ParseDurationNs toUtf8 (validationFormatDuration ns) = Some ns.
Proof.
  intros Hutf Hr. unfold ParseDurationNs, validationFormatDuration. destruct (Z.eqb_spec ns 0) as [->|Hz].
  { change (trimmed (qs "0s")) with (qs "0s"). rewrite Hutf by by repeat constructor. by vm_compute. }
  assert (forall s, Forall plainChar s -> toUtf8 (trimmed s) = s) as Hplain.
  { intros s Hs. rewrite trimmed_noSpace by (eapply Forall_impl; [exact Hs|]; by intros c []). apply Hutf. eapply Forall_impl; [exact Hs|]. by intros c []. }
  destruct (Z.ltb_spec ns 0).
  - assert (u64 (0 - ns) = - ns) as -> by (rewrite u64_small; lia). destruct (print_value (- ns)) as [Hl Hc]; [unfold kLimit; lia|].
    rewrite Hplain by (constructor; [done|exact Hc]). unfold durationBytes. change (startsWithC (ch "-") (ch "-" :: printDuration printUnits (- ns))) with true. cbn [orb drop].
    rewrite drop_0, bool_decide_false by (intros E; by rewrite E in Hl). destruct (printDuration printUnits (- ns)) as [|c r] eqn:E; [injection Hl; lia|].
    rewrite <- E in *. assert (isEmpty (printDuration printUnits (- ns)) = false) as -> by by rewrite E. rewrite Hl. cbn. f_equal. destruct (Z.eqb_spec (- ns) kLimit); unfold kLimit in *; lia.
  - destruct (print_value ns) as [Hl Hc]; [unfold kLimit; lia|]. rewrite Hplain by done. unfold durationBytes.
    pose proof (printDuration_head printUnits ns ltac:(lia) print_units_ok) as Hh. destruct (printDuration printUnits ns) as [|c r] eqn:E; [injection Hl; lia|].
    assert (startsWithC (ch "-") (c :: r) = false /\ startsWithC (ch "+") (c :: r) = false) as [-> ->].
    { unfold validationDigit in Hh. change (ch "-") with 45. change (ch "+") with 43. cbn [startsWithC]. split; apply Z.eqb_neq; bprop; lia. }
    cbn [orb]. rewrite bool_decide_false by (intros E'; by rewrite E' in Hl). change (isEmpty (c :: r)) with false. rewrite Hl. cbn [mbind option_bind].
    unfold kLimit. by destruct (Z.ltb_spec (2 ^ 63 - 1) ns); [lia|].
Qed.
Lemma duration_roundtrip_witness : validationFormatDuration (- 2 ^ 63) = qs "-2562047h47m16s854ms775us808ns" /\
  ParseDurationNs (fun s => s) (qs "-2562047h47m16s854ms775us808ns") = Some (- 2 ^ 63).
Proof. split; [vm_compute; reflexivity|]. apply (duration_roundtrip (fun s => s) (- 2 ^ 63)); [intros s _; reflexivity|lia]. Defined.

(** ** Sizes *)

Lemma memory_unit_positive u : validationMemoryUnit u <> 0 -> 0 < validationMemoryUnit u.
Proof. unfold validationMemoryUnit. destruct (List.find _ memoryUnits) as [p|] eqn:E; [|done]. apply find_some in E as [E _]. repeat (destruct E as [<-|E]; [done|]). done. Qed.

(** A size with a unit that the check accepts fits in 64 bits once it is multiplied
    out, and a bare one in 63. *)
Theorem memory_fits toLower text allowBare empty : MemoryBytes toLower text allowBare empty = None -> trimmed text <> [] ->
  exists n, unsignedText (takeWhile validationDigit (trimmed text)) = Some n /\
    let unit := dropWhile validationDigit (trimmed text) in
    (unit = [] /\ allowBare = true /\ n < 2 ^ 63) \/ (validationMemoryUnit (toLower (trimmed unit)) <> 0 /\ n * validationMemoryUnit (toLower (trimmed unit)) < 2 ^ 64).
Proof.
  unfold MemoryBytes. generalize (trimmed text). intros t H Hne. destruct (isEmpty t) eqn:E; [by destruct t|]. clear E.
  pose proof (takeWhile_dropWhile validationDigit t) as Et. pose proof (takeWhile_all validationDigit t) as Ha.
  assert (takeWhile validationDigit t <> [] -> is_Some (unsignedText (takeWhile validationDigit t))) as Hu.
  { intros Hn. apply allDigits_unsigned. unfold validationAllDigits. destruct (takeWhile validationDigit t); [done|]. cbn [isEmpty negb andb]. apply forallb_forall.
    intros c Hc%list_elem_of_In. rewrite Forall_forall in Ha. by apply Ha. }
  destruct (dropWhile validationDigit t) as [|c rest].
  - rewrite app_nil_r in Et. rewrite Et in *. destruct (Hu Hne) as [n Hn]. exists n. split; [done|]. left. split; [done|]. destruct allowBare; [|done]. split; [done|]. cbn [negb] in H.
    rewrite parse_int_exact in H. unfold signedText in H. destruct t as [|c t]; [done|]. apply Forall_cons in Ha as [Hc _].
    destruct (Z.eqb_spec c (ch "-")) as [->|]; [done|]. rewrite Hn in H. cbn [mbind option_bind] in H. destruct (_ && _) eqn:Er; [|done]. bprop. lia.
  - destruct (isEmpty (takeWhile validationDigit t)) eqn:En; [by repeat case_match|].
    destruct (Hu ltac:(by destruct (takeWhile validationDigit t))) as [n Hn]. exists n. split; [done|]. right. case_match; [done|].
    unfold toIntegerIn in H. rewrite (unsigned_toInteger _ _ Hn) in H. cbn [mbind option_bind] in H. destruct ((0 <=? n) && _) eqn:Er; [|done].
    destruct (Z.eqb_spec (validationMemoryUnit (toLower (trimmed (c :: rest)))) 0) as [|Hz]; [done|]. split; [done|]. pose proof (memory_unit_positive _ Hz) as Hp.
    destruct (Z.ltb_spec ((2 ^ 64 - 1) / validationMemoryUnit (toLower (trimmed (c :: rest)))) n); [done|]. bprop.
    pose proof (Z.mul_div_le (2 ^ 64 - 1) _ Hp). nia.
Qed.
Lemma memory_fits_witness : exists n, unsignedText (qs "17") = Some n /\ n * validationMemoryUnit (qs "gb") < 2 ^ 64.
Proof.
  assert (MemoryBytes (fun s => s) (qs " 17 gb ") false Required = None) as E by (vm_compute; reflexivity).
  destruct (memory_fits (fun s => s) (qs " 17 gb ") false Required E ltac:(discriminate)) as (n & Hn & H). exists n. split; [exact Hn|].
  destruct H as [[H _]|[_ H]]; [discriminate H|exact H].
Defined.
