(* ===== verification/SimpleRules.v ===== *)
(** * Simple rules (src/src/database/entities/RouteProfile.cpp)

    Lines such as [suffix:example.com] in the lists of the basic tab, and in the rules
    of a server: reading them, showing them, moving one from list to list, and which
    line of an earlier rule already catches another. *)

From Stdlib Require Import Ascii String.
From S2P Require Import Prelude QtText Json RouteRules.

Local Open Scope Z_scope.
#[local] Set Warnings "-register-all".

(** ** Data *)

Inductive simpleAction := bypass | block | proxy | warpBypass.
#[export] Instance simpleAction_eq_dec : EqDecision simpleAction.
Proof. solve_decision. Defined.

Definition INVALID_ID : Z := -99999.
Record SimpleTarget := MkTarget { targetAction : simpleAction; serverID : Z }.
#[export] Instance SimpleTarget_eq_dec : EqDecision SimpleTarget.
Proof. solve_decision. Defined.
Definition listOf (a : simpleAction) : SimpleTarget := MkTarget a INVALID_ID.
Definition isServer (t : SimpleTarget) : bool := 0 <=? serverID t.

Definition addressType (a : simpleAction) : ruleType :=
  match a with proxy => simpleAddressProxy | bypass => simpleAddressBypass | warpBypass => simpleAddressWarpBypass | block => simpleAddressBlock end.
Definition processNameType (a : simpleAction) : ruleType :=
  match a with proxy => simpleProcessNameProxy | bypass => simpleProcessNameBypass | warpBypass => simpleProcessNameWarpBypass | block => simpleProcessNameBlock end.
Definition processPathType (a : simpleAction) : ruleType :=
  match a with proxy => simpleProcessPathProxy | bypass => simpleProcessPathBypass | warpBypass => simpleProcessPathWarpBypass | block => simpleProcessPathBlock end.
Definition simpleTypes (a : simpleAction) : list ruleType := [addressType a; processNameType a; processPathType a].

Definition ruleTypeNames : list (ruleType * qstring) :=
  [(simpleAddressProxy, qs "Simple Address Proxy"); (simpleAddressBypass, qs "Simple Address Bypass"); (simpleAddressBlock, qs "Simple Address Block");
   (simpleProcessNameProxy, qs "Simple Process Name Proxy"); (simpleProcessNameBypass, qs "Simple Process Name Bypass");
   (simpleProcessNameBlock, qs "Simple Process Name Block"); (simpleProcessPathProxy, qs "Simple Process Path Proxy");
   (simpleProcessPathBypass, qs "Simple Process Path Bypass"); (simpleProcessPathBlock, qs "Simple Process Path Block");
   (simpleAddressWarpBypass, qs "Simple Address Warp-bypass"); (simpleProcessNameWarpBypass, qs "Simple Process Name Warp-bypass");
   (simpleProcessPathWarpBypass, qs "Simple Process Path Warp-bypass"); (endpointPreferredBy, qs "Endpoint")].
Definition ruleTypeToString (t : ruleType) : qstring :=
  match List.find (fun p => bool_decide (p.1 = t)) ruleTypeNames with Some p => p.2 | None => qs "custom" end.

(** The empty rule of each simple type. *)
Definition simpleConfigs : list (ruleType * qstring * option Z) :=
  [(simpleAddressProxy, qs "route", Some proxyID); (simpleAddressBypass, qs "route", Some directID); (simpleAddressBlock, qs "reject", None);
   (simpleProcessNameProxy, qs "route", Some proxyID); (simpleProcessNameBypass, qs "route", Some directID); (simpleProcessNameBlock, qs "reject", None);
   (simpleProcessPathProxy, qs "route", Some proxyID); (simpleProcessPathBypass, qs "route", Some directID); (simpleProcessPathBlock, qs "reject", None);
   (simpleAddressWarpBypass, qs "route", Some warpBypassID); (simpleProcessNameWarpBypass, qs "route", Some warpBypassID);
   (simpleProcessPathWarpBypass, qs "route", Some warpBypassID)].
Definition configuredRule (c : ruleType * qstring * option Z) : RouteRule :=
  let '(t, act, out) := c in
  let r := set_ruleName (ruleTypeToString t) (set_action act (set_ruleKind t newRule)) in
  match out with Some id => set_outboundID id r | None => r end.
Definition get_simple_rules : list RouteRule := map configuredRule simpleConfigs.
Definition NewSimpleRule (t : ruleType) : option RouteRule := List.find (fun r => bool_decide (ruleKind r = t)) get_simple_rules.

Inductive SimpleReason := StartTheLine | AddAValue (prefix : qstring) | BadValue (i : RuleIssue) | NotAddress | NotProcess.
(** A line that UpdateSimpleRules did not take: its number, the text and why; or
    that it found no rule for. *)
Inductive Rejection := LineRejected (number : Z) (raw : qstring) (why : option SimpleReason) | InternalError (t : ruleType).

(** ** Lists of rules *)

(** The first element that [p] selects, changed by [f]. *)
Fixpoint updateFirst {A} (p : A -> bool) (f : A -> A) (l : list A) : option (list A) :=
  match l with
  | [] => None
  | x :: l => if p x then Some (f x :: l) else (fun l => x :: l) <$> updateFirst p f l
  end.
Definition ofKind (t : ruleType) (r : RouteRule) : bool := bool_decide (ruleKind r = t).
Definition option_rule (o : option RouteRule) : list RouteRule := match o with Some r => [r] | None => [] end.

Definition reset_simple_rule (r : RouteRule) : RouteRule :=
  match NewSimpleRule (ruleKind r) with Some c => set_disabled (disabled r) c | None => r end.
Definition ResetSimpleRule (rules : list RouteRule) (t : ruleType) : list RouteRule :=
  match updateFirst (ofKind t) reset_simple_rule rules with
  | Some rules => rules
  | None => rules ++ option_rule (NewSimpleRule t)
  end.
Definition get_simple_rule_by_type (rules : list RouteRule) (t : ruleType) : option RouteRule := List.find (ofKind t) rules.

(** ** Lines *)

Definition addressPrefixes : list qstring := [qs "domain"; qs "suffix"; qs "keyword"; qs "regex"; qs "ruleset"; qs "ip"].
Definition get_rule_type (content : qstring) (a : simpleAction) : ruleType :=
  if existsb (fun p => startsWith p content) addressPrefixes then addressType a
  else if startsWith (qs "processName") content then processNameType a
  else if startsWith (qs "processPath") content then processPathType a
  else custom.

(** A prefix with the attribute it stands for, and with its list. *)
Definition lineAttrs : list (qstring * qstring) :=
  [(qs "domain", qs "domain"); (qs "suffix", qs "domain_suffix"); (qs "keyword", qs "domain_keyword"); (qs "regex", qs "domain_regex");
   (qs "ruleset", qs "rule_set"); (qs "ip", qs "ip_cidr"); (qs "processName", qs "process_name"); (qs "processPath", qs "process_path")].
Definition addressLists : list (qstring * Attr (list qstring)) :=
  [(qs "domain", MkAttr domain set_domain); (qs "suffix", MkAttr domain_suffix set_domain_suffix); (qs "keyword", MkAttr domain_keyword set_domain_keyword);
   (qs "regex", MkAttr domain_regex set_domain_regex); (qs "ruleset", MkAttr rule_set set_rule_set); (qs "ip", MkAttr ip_cidr set_ip_cidr)].
Definition nameLists : list (qstring * Attr (list qstring)) := [(qs "processName", MkAttr process_name set_process_name)].
Definition pathLists : list (qstring * Attr (list qstring)) := [(qs "processPath", MkAttr process_path set_process_path)].
Definition lineLists : list (qstring * Attr (list qstring)) := addressLists ++ nameLists ++ pathLists.
Definition lowered (prefix : qstring) : bool := bool_decide (prefix ∈ [qs "domain"; qs "suffix"; qs "keyword"]).

Definition linePrefix (s : qstring) : qstring := match indexOf (ch ":") s with Some c => trimmed (take c s) | None => [] end.
Definition afterColon (s : qstring) : qstring := trimmed (drop (match indexOf (ch ":") s with Some c => S c | None => O end) s).
Definition addValue (a : Attr (list qstring)) (v : qstring) (r : RouteRule) : RouteRule :=
  if bool_decide (v ∈ aget a r) then r else aset a (aget a r ++ [v]) r.

(** GetSimpleRules: the lines of the rules of an action. *)
Definition listLines (r : RouteRule) (p : qstring * Attr (list qstring)) : list qstring := map (fun v => p.1 ++ ch ":" :: v) (aget p.2 r).
Definition ruleLines (r : RouteRule) : list qstring := flat_map (listLines r) lineLists.
Definition GetSimpleRules (rules : list RouteRule) (a : simpleAction) : qstring :=
  concat (map (fun l => l ++ [10]) (flat_map (fun r => if bool_decide (ruleKind r ∈ simpleTypes a) then ruleLines r else []) rules)).

Section SimpleRules.
(** [lower chk] is QString::toLower; [serverName] the name the server list shows, of
    a profile that exists. *)
Context (chk : CheckEnv) (env : RuleEnv) (darwin : bool) (serverName : Z -> option qstring).

Definition storedValue (prefix v : qstring) : qstring := if lowered prefix then lower chk v else v.

Definition CheckSimpleRule (rawLine : qstring) : option (Severity * SimpleReason) :=
  let line := trimmed rawLine in
  if isEmpty line then None
  else
    let prefix := linePrefix line in
    match attrAt prefix lineAttrs with
    | None => Some (Error, StartTheLine)
    | Some attr =>
        let value := afterColon line in
        if isEmpty value then Some (Error, AddAValue prefix)
        else i ← check_value chk attr (storedValue prefix value); Some (severity i, BadValue i)
    end.

Definition simple_rule_values (content : qstring) : option (Attr (list qstring) * qstring) :=
  _ ← indexOf (ch ":") content;
  let value := afterColon content in
  if isEmpty value then None
  else let prefix := linePrefix content in a ← attrAt prefix lineLists; Some (a, storedValue prefix value).

Definition add_simple_address_rule (content : qstring) (r : RouteRule) : SimpleReason + RouteRule :=
  match indexOf (ch ":") content with
  | None => inl NotAddress
  | Some _ =>
      let address := afterColon content in
      if isEmpty address then inl NotAddress
      else let subType := linePrefix content in
           match attrAt subType addressLists with
           | Some a => inr (addValue a (storedValue subType address) r)
           | None => inl NotAddress
           end
  end.
Definition add_simple_process_rule (content : qstring) (r : RouteRule) : SimpleReason + RouteRule :=
  if negb (contains (ch ":") content) then inl NotProcess
  else
    let address := afterColon content in
    if isEmpty address then inl NotProcess
    else match attrAt (linePrefix content) (nameLists ++ pathLists) with
         | Some a => inr (addValue a address r)
         | None => inl NotProcess
         end.
Definition add_simple_rule (content : qstring) (r : RouteRule) (t : ruleType) : SimpleReason + RouteRule :=
  match CheckSimpleRule content with
  | Some (Error, why) => inl why
  | _ => if isSimpleAddress t then add_simple_address_rule content r else add_simple_process_rule content r
  end.

(** ** The lists of the basic tab *)

Definition FilterEmptyRules (rules : list RouteRule) : list RouteRule :=
  omap (fun r => let '(e, r') := ruleIsEmpty env r in if e then None else Some r') rules.

Definition updateLine (a : simpleAction) (i : Z) (raw : qstring) (rules : list RouteRule) : list RouteRule * list Rejection :=
  if isEmpty raw then (rules, [])
  else
    let t := get_rule_type raw a in
    if bool_decide (t = custom) then (rules, [LineRejected i raw (snd <$> CheckSimpleRule raw)])
    else match get_simple_rule_by_type rules t with
         | None => (rules, [InternalError t])
         | Some r => match add_simple_rule raw r t with
                     | inl why => (rules, [LineRejected i raw (Some why)])
                     | inr r' => (default rules (updateFirst (ofKind t) (fun _ => r') rules), [])
                     end
         end.
Fixpoint updateLines (a : simpleAction) (i : Z) (items : list qstring) (rules : list RouteRule) : list RouteRule * list Rejection :=
  match items with
  | [] => (rules, [])
  | item :: items =>
      let '(rules, rej) := updateLine a i (trimmed item) rules in
      let '(rules, rej') := updateLines a (i + 1) items rules in (rules, rej ++ rej')
  end.
Definition UpdateSimpleRules (content : qstring) (a : simpleAction) (rules : list RouteRule) : list RouteRule * list Rejection :=
  let '(rules, rej) := updateLines a 1 (split 10 content) (fold_left ResetSimpleRule (simpleTypes a) rules) in (FilterEmptyRules rules, rej).

(** ** One line in the rules of a target *)

Definition addressAttrs : list qstring := [qs "domain"; qs "domain_suffix"; qs "domain_keyword"; qs "domain_regex"; qs "rule_set"; qs "ip_cidr"].
Definition ownAttrs (t : ruleType) : list qstring :=
  if bool_decide (t = simpleAddressProxy) then addressAttrs else if bool_decide (t = simpleProcessNameProxy) then [qs "process_name"] else [qs "process_path"].
Definition is_server_rule_for (r : RouteRule) (content : qstring) : bool :=
  if negb (ofKind custom r) || disabled r || negb (bool_decide (action r = qs "route")) || (outboundID r <? 0) || negb (has_match_conditions darwin r) then false
  else
    let t := get_rule_type content proxy in
    if bool_decide (t = custom) then false
    else forallb (fun attr => bool_decide (attr = qs "outbound") || bool_decide (attr ∈ ownAttrs t) || is_attribute_at_default r attr) (get_attributes darwin).

Definition ownRule (content : qstring) (target : SimpleTarget) (r : RouteRule) : bool :=
  let t := get_rule_type content (targetAction target) in
  if bool_decide (t = custom) then false
  else if isServer target then (outboundID r =? serverID target) && is_server_rule_for r content else ofKind t r.
Definition rules_for (rules : list RouteRule) (content : qstring) (target : SimpleTarget) : list RouteRule := List.filter (ownRule content target) rules.

(** [base], or with the first number from [n] on that makes it free. *)
Fixpoint freeName (fuel : nat) (base : qstring) (names : list qstring) (n : Z) (candidate : qstring) : qstring :=
  match fuel with
  | O => candidate
  | S fuel => if bool_decide (candidate ∈ names) then freeName fuel base names (n + 1) (base ++ ch " " :: number n) else candidate
  end.
Definition serverRuleName (raw server : qstring) (names : list qstring) : qstring :=
  let kind := get_rule_type raw proxy in
  let base := server ++ (if bool_decide (kind = simpleAddressProxy) then qs " (address)"
                         else if bool_decide (kind = simpleProcessNameProxy) then qs " (process)" else qs " (process path)") in
  freeName (length names) base names 2 base.
(** The rule a line without one gets. *)
Definition newRuleFor (raw : qstring) (target : SimpleTarget) (rules : list RouteRule) : option RouteRule :=
  if isServer target then
    server ← serverName (serverID target);
    Some (set_ruleName (serverRuleName raw server (map ruleName rules)) (set_outboundID (serverID target) newRule))
  else NewSimpleRule (get_rule_type raw (targetAction target)).

(** [inl] when nothing was added, with the reason that the caller shows. *)
Definition AppendSimpleRule (rawRule : qstring) (target : SimpleTarget) (rules : list RouteRule) : option SimpleReason + list RouteRule :=
  let raw := trimmed rawRule in
  if isEmpty raw then inl None
  else
    let t := get_rule_type raw (targetAction target) in
    if bool_decide (t = custom) then inl (snd <$> CheckSimpleRule raw)
    else match List.find (ownRule raw target) rules with
         | Some r => match add_simple_rule raw r t with
                     | inl why => inl (Some why)
                     | inr r' => inr (default rules (updateFirst (ownRule raw target) (fun _ => r') rules))
                     end
         | None => match newRuleFor raw target rules with
                   | None => inl None
                   | Some r => match add_simple_rule raw r t with inl why => inl (Some why) | inr r' => inr (rules ++ [r']) end
                   end
         end.

Definition holds (raw : qstring) (r : RouteRule) : bool :=
  match simple_rule_values raw with Some (a, v) => bool_decide (v ∈ aget a r) | None => false end.
Definition HasSimpleRule (rules : list RouteRule) (rawRule : qstring) (target : SimpleTarget) : bool :=
  let raw := trimmed rawRule in existsb (holds raw) (rules_for rules raw target).

(** The rules left, each without the value, and whether one held it. *)
Fixpoint removeFrom (raw : qstring) (target : SimpleTarget) (a : Attr (list qstring)) (v : qstring) (rules : list RouteRule) : list RouteRule * bool :=
  match rules with
  | [] => ([], false)
  | r :: rules =>
      let '(rest, removed) := removeFrom raw target a v rules in
      if ownRule raw target r && bool_decide (v ∈ aget a r) then
        let r' := aset a (List.filter (fun w => negb (bool_decide (w = v))) (aget a r)) r in
        ((if if isServer target then negb (has_match_conditions darwin r') else (ruleIsEmpty env r').1 then rest else r' :: rest), true)
      else (r :: rest, removed)
  end.
Definition RemoveSimpleRule (rawRule : qstring) (target : SimpleTarget) (rules : list RouteRule) : list RouteRule * bool :=
  let raw := trimmed rawRule in
  match simple_rule_values raw with Some (a, v) => removeFrom raw target a v rules | None => (rules, false) end.

Fixpoint serversHolding (raw : qstring) (rules : list RouteRule) (servers : list Z) : list Z :=
  match rules with
  | [] => servers
  | r :: rules =>
      serversHolding raw rules (if bool_decide (outboundID r ∈ servers) || negb (is_server_rule_for r raw) then servers
                                else if holds raw r then servers ++ [outboundID r] else servers)
  end.
Definition ServersHoldingSimpleRule (rules : list RouteRule) (rawRule : qstring) : list Z := serversHolding (trimmed rawRule) rules [].

(** MainWindow::toggleRuleInCurrentRoute: a line is taken out of its target, or put
    there and pulled out of all others. [blocked] is routeRuleAppendBlocker, [saved]
    whether the repository stored the profile; the profile in memory stays changed. *)
Inductive RuleToggle := Failed | Added | Moved | Removed.
Definition pullOut (rawRule : qstring) (target : SimpleTarget) (st : list RouteRule * bool) (other : SimpleTarget) : list RouteRule * bool :=
  if bool_decide (other = target) then st
  else let '(rules, removed) := RemoveSimpleRule rawRule other st.1 in (rules, st.2 || removed).
Definition toggleRule (blocked saved : bool) (rawRule : qstring) (target : SimpleTarget) (rules : list RouteRule) : RuleToggle * list RouteRule :=
  let save (t : RuleToggle) := if saved then t else Failed in
  if blocked then (Failed, rules)
  else if HasSimpleRule rules rawRule target then (save Removed, (RemoveSimpleRule rawRule target rules).1)
  else match AppendSimpleRule rawRule target rules with
       | inl _ => (Failed, rules)
       | inr rules =>
           let others := map listOf [bypass; proxy; block; warpBypass] ++ map (MkTarget proxy) (ServersHoldingSimpleRule rules rawRule) in
           let '(rules, moved) := fold_left (pullOut rawRule target) others (rules, false) in (save (if moved then Moved else Added), rules)
       end.

(** ** Lines that cover others *)

Definition addressTarget (raw : qstring) (r : RouteRule) : option SimpleTarget :=
  match ruleKind r with
  | simpleAddressProxy => Some (listOf proxy)
  | simpleAddressBypass => Some (listOf bypass)
  | simpleAddressBlock => Some (listOf block)
  | simpleAddressWarpBypass => Some (listOf warpBypass)
  | _ => if is_server_rule_for r raw then Some (MkTarget proxy (outboundID r)) else None
  end.
Definition coveringKeyword (prefix value keyword : qstring) : bool :=
  let k := lower chk keyword in
  negb (isEmpty k) && containsStr k value && negb (bool_decide (prefix = qs "keyword") && bool_decide (k = value)).
Definition endsWithStr (p s : qstring) : bool := startsWith (rev p) (rev s).
Definition coveringSuffix (value suffix : qstring) : bool :=
  let s := lower chk suffix in negb (isEmpty s) && endsWithStr (ch "." :: s) value.
Definition coveringLine (prefix value : qstring) (r : RouteRule) : option qstring :=
  match List.find (coveringKeyword prefix value) (domain_keyword r) with
  | Some k => Some (qs "keyword:" ++ k)
  | None => if negb (bool_decide (prefix = qs "suffix")) then None
            else (fun s => qs "suffix:" ++ s) <$> List.find (coveringSuffix value) (domain_suffix r)
  end.
Fixpoint coveringIn (raw prefix value : qstring) (target : SimpleTarget) (rules : list RouteRule) : option (qstring * SimpleTarget) :=
  match rules with
  | [] => None
  | r :: rules =>
      if ownRule raw target r then None
      else match addressTarget raw r with
           | Some other =>
               if bool_decide (other = target) || disabled r then coveringIn raw prefix value target rules
               else match coveringLine prefix value r with Some l => Some (l, other) | None => coveringIn raw prefix value target rules end
           | None => coveringIn raw prefix value target rules
           end
  end.
Definition CoveringSimpleRule (rules : list RouteRule) (rawRule : qstring) (target : SimpleTarget) : option (qstring * SimpleTarget) :=
  let raw := trimmed rawRule in
  match indexOf (ch ":") raw with
  | None => None
  | Some _ =>
      let prefix := linePrefix raw in
      let value := lower chk (afterColon raw) in
      if isEmpty value || negb (bool_decide (prefix ∈ [qs "suffix"; qs "keyword"])) then None
      else coveringIn raw prefix value target rules
  end.
End SimpleRules.
