(* ===== verification/SimpleLines.v ===== *)
(** * Lines of simple rules: what a line stands for, and the lists of the basic tab

    A line is stored in the list that its prefix names, of a rule of the type that its
    prefix and the action name. From this: every line of a text is stored or reported,
    and the text that is shown reads back as the same rules. *)

From Stdlib Require Import Ascii String.
From S2P Require Import Prelude QtText Json Lists RouteRules SimpleRules.

Local Open Scope Z_scope.
#[local] Set Warnings "-register-all".

(** ** The lists of a rule *)

Lemma attrAt_elem {A} key (table : list (qstring * A)) a : attrAt key table = Some a -> (key, a) ∈ table.
Proof. induction table as [|[k b] table IH]; cbn; [done|]. case_bool_decide as E; [subst; intros [= ->]; left|right; auto]. Qed.
Lemma attrAt_app {A} key (t u : list (qstring * A)) : attrAt key (t ++ u) = match attrAt key t with Some a => Some a | None => attrAt key u end.
Proof. induction t as [|[k b] t IH]; cbn; [done|]. by case_bool_decide. Qed.

(** One case for each prefix. *)
Ltac line_cases H :=
  apply list_elem_of_In in H; cbn [lineLists addressLists nameLists pathLists app In] in H;
  repeat match type of H with _ \/ _ => destruct H as [H|H] end; [apply pair_eq in H as [<- <-]..|exfalso; exact H].

Lemma get_set p a l r : (p, a) ∈ lineLists -> aget a (aset a l r) = l.
Proof. intros H. by line_cases H. Qed.
Lemma get_set_other p a q b : (p, a) ∈ lineLists -> (q, b) ∈ lineLists -> p = q /\ a = b \/ forall l r, aget a (aset b l r) = aget a r.
Proof. intros H K. line_cases H; line_cases K; solve [by left|by right]. Qed.
Lemma set_frame p a l r : (p, a) ∈ lineLists -> let r' := aset a l r in
  ruleKind r' = ruleKind r /\ disabled r' = disabled r /\ outboundID r' = outboundID r /\ action r' = action r /\ ruleName r' = ruleName r.
Proof. intros H. by line_cases H. Qed.

Lemma add_elem p a v r : (p, a) ∈ lineLists -> v ∈ aget a (addValue a v r).
Proof. intros H. unfold addValue. case_bool_decide; [done|]. rewrite (get_set _ _ _ _ H). apply elem_of_app. right. by left. Qed.
Lemma add_keeps p a q b v w r : (p, a) ∈ lineLists -> (q, b) ∈ lineLists -> w ∈ aget b r -> w ∈ aget b (addValue a v r).
Proof.
  intros H K Hw. unfold addValue. case_bool_decide; [done|].
  destruct (get_set_other _ _ _ _ K H) as [[_ ->]|E]; [rewrite (get_set _ _ _ _ H); apply elem_of_app; by left|by rewrite E].
Qed.
Lemma add_frame p a v r : (p, a) ∈ lineLists -> let r' := addValue a v r in
  ruleKind r' = ruleKind r /\ disabled r' = disabled r /\ outboundID r' = outboundID r /\ action r' = action r /\ ruleName r' = ruleName r.
Proof. intros H. unfold addValue. case_bool_decide; [done|]. by eapply set_frame. Qed.

(** ** Updates of one rule of a list *)

Section UpdateFirst.
Context {A : Type} (p : A -> bool).

Lemma updateFirst_find f l : updateFirst p f l = None <-> List.find p l = None.
Proof. induction l as [|x l IH]; cbn; [done|]. destruct (p x); [done|]. by rewrite fmap_None. Qed.
Lemma updateFirst_split f l l' : updateFirst p f l = Some l' -> exists pre x post,
  l = pre ++ x :: post /\ l' = pre ++ f x :: post /\ p x = true /\ List.find p l = Some x /\ Forall (fun y => p y = false) pre.
Proof.
  revert l'. induction l as [|x l IH]; intros l'; cbn; [done|]. destruct (p x) eqn:E.
  - intros [= <-]. exists [], x, l. split_and!; (done || constructor).
  - intros (l1 & H & ->)%fmap_Some. destruct (IH _ H) as (pre & y & post & -> & -> & Hy & Hf & Hn).
    exists (x :: pre), y, post. split_and!; try done. by constructor.
Qed.
Lemma updateFirst_at f pre x post : Forall (fun y => p y = false) pre -> p x = true -> updateFirst p f (pre ++ x :: post) = Some (pre ++ f x :: post).
Proof. intros Hn Hx. induction Hn as [|y pre Hy _ IH]; cbn; [by rewrite Hx|]. by rewrite Hy, IH. Qed.
Lemma find_first_at pre x post : Forall (fun y => p y = false) pre -> p x = true -> List.find p (pre ++ x :: post) = Some x.
Proof. intros Hn Hx. induction Hn as [|y pre Hy _ IH]; cbn; [by rewrite Hx|]. by rewrite Hy. Qed.
Lemma find_split l x : List.find p l = Some x -> exists pre post, l = pre ++ x :: post /\ p x = true /\ Forall (fun y => p y = false) pre.
Proof.
  induction l as [|y l IH]; cbn; [done|]. destruct (p y) eqn:E.
  - intros [= ->]. exists [], l. split_and!; (done || constructor).
  - intros H. destruct (IH H) as (pre & post & -> & Hx & Hn). exists (y :: pre), post. split_and!; try done. by constructor.
Qed.
End UpdateFirst.

(** ** What a line stands for *)

Definition typeOfPrefix (p : qstring) (a : simpleAction) : ruleType :=
  if bool_decide (p ∈ addressPrefixes) then addressType a else if bool_decide (p = qs "processName") then processNameType a else processPathType a.
Lemma line_type raw p b a : (p, b) ∈ lineLists -> startsWith p raw = true -> get_rule_type raw a = typeOfPrefix p a.
Proof. intros H ->%startsWith_parts. line_cases H; reflexivity. Qed.
Lemma type_custom p b a : (p, b) ∈ lineLists -> typeOfPrefix p a <> custom.
Proof. intros H. line_cases H; by destruct a. Qed.

Lemma prefix_starts raw : trimmed raw = raw -> startsWith (linePrefix raw) raw = true.
Proof.
  intros Ht. unfold linePrefix. destruct (indexOf (ch ":") raw) as [c|] eqn:E; [|by destruct raw]. apply indexOf_Some in E as [E _].
  pose proof (trimmed_head raw) as Hh. rewrite Ht in Hh.
  destruct (trimmed_first (take c raw)) as [b Hb].
  { destruct raw; [by rewrite take_nil|]. destruct c; [done|exact Hh]. }
  rewrite E at 2. rewrite Hb at 2. rewrite <- app_assoc. apply startsWith_app.
Qed.

Section Lines.
Context (chk : CheckEnv).

(** [raw] puts [v] into the list [a]. *)
Lemma values_spec raw a v : simple_rule_values chk raw = Some (a, v) <->
  is_Some (indexOf (ch ":") raw) /\ afterColon raw <> [] /\ attrAt (linePrefix raw) lineLists = Some a /\ v = storedValue chk (linePrefix raw) (afterColon raw).
Proof.
  unfold simple_rule_values. generalize (attrAt (linePrefix raw) lineLists). intros oa.
  destruct (indexOf (ch ":") raw) as [c|]; cbn; [|split; [done|by intros [[] _]]].
  destruct (afterColon raw) as [|x s]; cbn [isEmpty]; [split; [done|by intros (_ & H & _)]|].
  destruct oa as [b|]; cbn.
  - split; [intros [= <- <-]; eauto|]. by intros (_ & _ & [= ->] & ->).
  - split; [done|]. by intros (_ & _ & H & _).
Qed.
Lemma values_line raw a v act : trimmed raw = raw -> simple_rule_values chk raw = Some (a, v) ->
  exists p, (p, a) ∈ lineLists /\ get_rule_type raw act = typeOfPrefix p act /\ v = storedValue chk p (afterColon raw).
Proof.
  intros Ht (_ & _ & Ha & Hv)%values_spec. apply attrAt_elem in Ha. exists (linePrefix raw). split_and!; [done| |done].
  eapply line_type; [done|]. by apply prefix_starts.
Qed.

(** A line that is taken goes into its list. *)
Lemma address_taken raw r r' : add_simple_address_rule chk raw r = inr r' -> exists a v, simple_rule_values chk raw = Some (a, v) /\ r' = addValue a v r.
Proof.
  unfold add_simple_address_rule. destruct (indexOf (ch ":") raw) eqn:Ec; [|done]. destruct (isEmpty (afterColon raw)) eqn:Ee; [done|].
  destruct (attrAt (linePrefix raw) addressLists) as [a|] eqn:Ea; [|done]. intros [= <-]. do 2 eexists. split; [|done].
  apply values_spec. rewrite Ec. split_and!; [done|by destruct (afterColon raw)| |done]. unfold lineLists. by rewrite attrAt_app, Ea.
Qed.
Lemma process_taken raw r r' : add_simple_process_rule raw r = inr r' -> exists a v, simple_rule_values chk raw = Some (a, v) /\ r' = addValue a v r.
Proof.
  unfold add_simple_process_rule. destruct (contains (ch ":") raw) eqn:Ec; [|done]. destruct (isEmpty (afterColon raw)) eqn:Ee; [done|]. cbn [negb].
  destruct (attrAt (linePrefix raw) (nameLists ++ pathLists)) as [a|] eqn:Ea; [|done]. intros [= <-]. do 2 eexists. split; [|done].
  apply values_spec. apply indexOf_contains in Ec. split_and!; [done|by destruct (afterColon raw)| |].
  - apply attrAt_elem in Ea. generalize (linePrefix raw) Ea. intros q H. by line_cases H.
  - apply attrAt_elem in Ea. generalize (linePrefix raw) Ea. intros q H. by line_cases H.
Qed.
Lemma add_taken raw r t r' : add_simple_rule chk raw r t = inr r' -> exists a v, simple_rule_values chk raw = Some (a, v) /\ r' = addValue a v r.
Proof.
  unfold add_simple_rule. intros H. assert ((if isSimpleAddress t then add_simple_address_rule chk raw r else add_simple_process_rule raw r) = inr r') as Ha.
  { by destruct (CheckSimpleRule chk raw) as [[[] ?]|]. }
  destruct (isSimpleAddress t); [by apply address_taken|by apply process_taken].
Qed.

Lemma holds_added raw a v r : trimmed raw = raw -> simple_rule_values chk raw = Some (a, v) -> holds chk raw (addValue a v r) = true.
Proof.
  intros Ht Hv. unfold holds. rewrite Hv. apply bool_decide_eq_true_2. destruct (values_line _ _ _ proxy Ht Hv) as (p & Hp & _). by eapply add_elem.
Qed.
Lemma holds_keeps raw r p a v : trimmed raw = raw -> (p, a) ∈ lineLists -> holds chk raw r = true -> holds chk raw (addValue a v r) = true.
Proof.
  unfold holds. intros Ht Ha Hh. destruct (simple_rule_values chk raw) as [[b w]|] eqn:E; [|done]. apply bool_decide_eq_true_1 in Hh.
  destruct (values_line _ _ _ proxy Ht E) as (q & Hq & _). apply bool_decide_eq_true_2. by eapply add_keeps.
Qed.

(** ** Lines of the basic tab *)

Lemma line_type_listed raw a : get_rule_type raw a = custom \/ get_rule_type raw a ∈ simpleTypes a.
Proof. unfold get_rule_type, simpleTypes. repeat case_match; set_solver. Qed.

(** The step of a line: reported, or stored in the first rule of its type. *)
Inductive LineStep (a : simpleAction) (i : Z) (raw : qstring) (rules : list RouteRule) : list RouteRule -> list Rejection -> Prop :=
| line_empty : raw = [] -> LineStep a i raw rules rules []
| line_rejected why : LineStep a i raw rules rules [LineRejected i raw why]
| line_lost t : t ∈ simpleTypes a -> List.find (ofKind t) rules = None -> LineStep a i raw rules rules [InternalError t]
| line_stored p b v pre r post : (p, b) ∈ lineLists -> simple_rule_values chk raw = Some (b, v) -> get_rule_type raw a = typeOfPrefix p a ->
    ruleKind r = typeOfPrefix p a -> Forall (fun x => ofKind (typeOfPrefix p a) x = false) pre ->
    rules = pre ++ r :: post -> LineStep a i raw rules (pre ++ addValue b v r :: post) [].

Lemma line_step a i raw rules : trimmed raw = raw -> LineStep a i raw rules (updateLine chk a i raw rules).1 (updateLine chk a i raw rules).2.
Proof.
  intros Ht. unfold updateLine. destruct (isEmpty raw) eqn:Ee; [constructor; by destruct raw|].
  destruct (line_type_listed raw a) as [E|E]; [rewrite E, bool_decide_true by done; constructor|].
  case_bool_decide; [constructor|]. unfold get_simple_rule_by_type. destruct (List.find _ rules) as [r|] eqn:Ef; [|by constructor].
  destruct (add_simple_rule chk raw r _) as [why|r'] eqn:Ea; [constructor|].
  apply add_taken in Ea as (b & v & Hv & ->). destruct (values_line _ _ _ a Ht Hv) as (p & Hp & Hk & _). rewrite Hk in *.
  destruct (find_split _ _ _ Ef) as (pre & post & -> & Hr & Hn). rewrite updateFirst_at by done. cbn [default fst snd from_option id].
  eapply line_stored; try done. by apply bool_decide_eq_true_1 in Hr.
Qed.

(** A rule of the list of [a] holds the line. *)
Definition stored (a : simpleAction) (raw : qstring) (rules : list RouteRule) : Prop :=
  exists r, r ∈ rules /\ get_rule_type raw a <> custom /\ ruleKind r = get_rule_type raw a /\ holds chk raw r = true.

Lemma step_keeps a i raw rules rules' rej a' raw' : LineStep a i raw rules rules' rej -> trimmed raw' = raw' -> stored a' raw' rules -> stored a' raw' rules'.
Proof.
  intros H Ht (x & Hx & Hc & Hk & Hh). destruct H as [| | |p b v pre r post Hp Hv Hty Hr Hn ->]; [by exists x..|].
  apply elem_of_app in Hx. rewrite elem_of_cons in Hx. destruct Hx as [Hx|[->|Hx]].
  - exists x. split; [apply elem_of_app; by left|done].
  - exists (addValue b v r). destruct (add_frame p b v r Hp) as (Hk' & _). rewrite Hk'. split_and!; [|done|done|by eapply holds_keeps].
    apply elem_of_app. right. left.
  - exists x. split; [apply elem_of_app; right; by right|done].
Qed.
Lemma step_kind a i raw rules rules' rej t : LineStep a i raw rules rules' rej -> List.find (ofKind t) rules <> None -> List.find (ofKind t) rules' <> None.
Proof.
  intros H Hf. destruct H as [| | |p b v pre r post Hp Hv Hty Hr Hn ->]; [done..|]. intros Hf'. apply Hf.
  destruct (List.find _ (pre ++ r :: post)) as [x|] eqn:E; [|done]. apply find_some in E as [Hx Hk]. exfalso.
  apply list_elem_of_In in Hx. assert (forall y, y ∈ pre ++ addValue b v r :: post -> ofKind t y = false) as Hno.
  { intros y Hy%list_elem_of_In. by apply (find_none _ _ Hf'). }
  apply elem_of_app in Hx. rewrite elem_of_cons in Hx. destruct Hx as [Hx|[->|Hx]].
  - rewrite Hno in Hk; [done|]. apply elem_of_app. by left.
  - specialize (Hno (addValue b v r)). unfold ofKind in *. destruct (add_frame p b v r Hp) as (-> & _) in Hno.
    rewrite Hno in Hk; [done|]. apply elem_of_app. right. left.
  - rewrite Hno in Hk; [done|]. apply elem_of_app. right. by right.
Qed.
Lemma step_stores a i raw rules rules' rej : LineStep a i raw rules rules' rej -> trimmed raw = raw -> raw <> [] ->
  (forall t, t ∈ simpleTypes a -> List.find (ofKind t) rules <> None) ->
  (exists why, rej = [LineRejected i raw why]) \/ rej = [] /\ stored a raw rules'.
Proof.
  intros H Ht Hne Hty. destruct H as [|why|t Hin Hf|p b v pre r post Hp Hv Hk Hr Hn ->]; [done|by left; exists why|by apply Hty in Hin|].
  right. split; [done|]. exists (addValue b v r). destruct (add_frame p b v r Hp) as (Hk' & _). rewrite Hk', Hk. split_and!; [|by eapply type_custom|done|by apply holds_added].
  apply elem_of_app. right. left.
Qed.
End Lines.

(** ** Resetting and filtering *)

Lemma new_simple_kind t c : NewSimpleRule t = Some c -> ruleKind c = t.
Proof. unfold NewSimpleRule. intros [_ H]%find_some. by apply bool_decide_eq_true_1 in H. Qed.
Lemma new_simple_some a t : t ∈ simpleTypes a -> exists c, NewSimpleRule t = Some c.
Proof.
  intros H. assert (match NewSimpleRule t with Some _ => true | None => false end = true) as E.
  { revert t H. apply Forall_forall. destruct a; repeat constructor; vm_compute; reflexivity. }
  destruct (NewSimpleRule t) as [c|]; [by exists c|done].
Qed.
Lemma reset_kind r : ruleKind (reset_simple_rule r) = ruleKind r.
Proof. unfold reset_simple_rule. destruct (NewSimpleRule _) as [c|] eqn:E; [|done]. by apply new_simple_kind in E. Qed.

Definition kinds (rules : list RouteRule) : list ruleType := map ruleKind rules.
Lemma find_kind t rules : List.find (ofKind t) rules <> None <-> t ∈ kinds rules.
Proof.
  unfold kinds. rewrite list_elem_of_fmap. split.
  - destruct (List.find _ rules) as [r|] eqn:E; [|done]. intros _. apply find_some in E as [Hr Hk]. exists r. split; [by apply bool_decide_eq_true_1 in Hk|by apply list_elem_of_In].
  - intros (r & -> & Hr) E. apply list_elem_of_In in Hr. pose proof (find_none _ _ E _ Hr) as H. by apply bool_decide_eq_false_1 in H.
Qed.
Lemma reset_kinds rules a t : t ∈ simpleTypes a -> kinds (ResetSimpleRule rules t) = kinds rules /\ t ∈ kinds rules \/
  kinds (ResetSimpleRule rules t) = kinds rules ++ [t] /\ t ∉ kinds rules.
Proof.
  intros Ht. unfold ResetSimpleRule. destruct (updateFirst _ _ rules) as [l|] eqn:E.
  - left. destruct (updateFirst_split _ _ _ _ E) as (pre & x & post & -> & -> & Hx & _). unfold kinds. rewrite !map_app. cbn [map].
    rewrite reset_kind. split; [done|]. apply elem_of_app. right. apply bool_decide_eq_true_1 in Hx as ->. left.
  - right. apply updateFirst_find in E. destruct (new_simple_some a t Ht) as [c Hc]. rewrite Hc. unfold kinds at 1. rewrite map_app. cbn. rewrite (new_simple_kind _ _ Hc).
    split; [done|]. rewrite <- find_kind. by intros [].
Qed.
Lemma reset_all a rules t : t ∈ simpleTypes a -> t ∈ kinds (fold_left ResetSimpleRule (simpleTypes a) rules).
Proof.
  intros Ht. assert (forall ts rules, ts ⊆ simpleTypes a -> t ∈ ts \/ t ∈ kinds rules -> t ∈ kinds (fold_left ResetSimpleRule ts rules)) as H; [|apply H; [done|by left]].
  clear rules. induction ts as [|u ts IH]; intros rules Hts Hin; cbn [fold_left]; [by destruct Hin as [?%not_elem_of_nil|Hin]|].
  apply IH; [set_solver|]. rewrite elem_of_cons in Hin. destruct (reset_kinds rules a u ltac:(set_solver)) as [[E Hu]|[E Hu]]; rewrite E, ?elem_of_app.
  - destruct Hin as [[->|?]|?]; auto.
  - destruct Hin as [[->|?]|?]; auto. right. right. by apply list_elem_of_singleton.
Qed.

Lemma list_not_empty {A} (v : A) l : v ∈ l -> isEmpty l = false.
Proof. destruct l; [by intros ?%not_elem_of_nil|done]. Qed.
Lemma prefix_group p a act : (p, a) ∈ lineLists -> let t := typeOfPrefix p act in
  bool_decide (t = custom) = false /\ bool_decide (t = endpointPreferredBy) = false /\ isSimpleAddress t = bool_decide (p ∈ addressPrefixes).
Proof. intros H. line_cases H; destruct act; vm_compute; auto. Qed.
(** A rule that holds a line of its type is not empty. *)
Lemma filled_not_empty env r p a v act : (p, a) ∈ lineLists -> ruleKind r = typeOfPrefix p act -> v ∈ aget a r -> ruleIsEmpty env r = (false, r).
Proof.
  intros Hp Hk Hv. unfold ruleIsEmpty. rewrite Hk. destruct (prefix_group p a act Hp) as (-> & -> & ->). apply list_not_empty in Hv.
  line_cases Hp; [rewrite bool_decide_true by (vm_compute; set_solver)..|rewrite bool_decide_false by (vm_compute; set_solver)|rewrite bool_decide_false by (vm_compute; set_solver)];
    cbn [aget] in Hv; rewrite Hv, ?andb_false_r; reflexivity.
Qed.

Section Accounts.
Context (chk : CheckEnv) (env : RuleEnv) (darwin : bool).

Lemma has_stored rules raw a : HasSimpleRule chk darwin rules raw (listOf a) = true <-> stored chk a (trimmed raw) rules.
Proof.
  unfold HasSimpleRule, rules_for. rewrite existsb_exists. unfold stored. setoid_rewrite filter_In. unfold ownRule, listOf, ofKind. cbn [targetAction isServer serverID].
  change (isServer _) with false. split.
  - intros (r & [Hr Ho] & Hh). exists r. rewrite list_elem_of_In. case_bool_decide; [done|]. apply bool_decide_eq_true_1 in Ho. done.
  - intros (r & Hr%list_elem_of_In & Hc & Hk & Hh). exists r. rewrite bool_decide_false by done. split; [|done]. split; [done|by apply bool_decide_eq_true_2].
Qed.

Lemma stored_reset a t a' raw rules : t ∈ simpleTypes a -> a' <> a -> stored chk a' raw rules -> stored chk a' raw (ResetSimpleRule rules t).
Proof.
  intros Ht Ha (x & Hx & Hc & Hk & Hh). unfold ResetSimpleRule. destruct (updateFirst _ _ rules) as [l|] eqn:E; [|exists x; rewrite elem_of_app; auto].
  destruct (updateFirst_split _ _ _ _ E) as (pre & y & post & -> & -> & Hy%bool_decide_eq_true_1 & _). exists x. split; [|done].
  rewrite elem_of_app, elem_of_cons in *. destruct Hx as [?|[->|?]]; auto. exfalso.
  destruct (line_type_listed raw a') as [?|Hin]; [done|]. rewrite <- Hk, Hy in Hin. unfold simpleTypes in *.
  rewrite !elem_of_cons in Ht, Hin. destruct a, a'; try done; destruct_or! Ht; destruct_or! Hin; subst; try done; by apply not_elem_of_nil in Ht || apply not_elem_of_nil in Hin.
Qed.
Lemma stored_filter a raw rules : trimmed raw = raw -> stored chk a raw rules -> stored chk a raw (FilterEmptyRules env rules).
Proof.
  intros Ht (x & Hx & Hc & Hk & Hh). exists x. split; [|done]. unfold FilterEmptyRules. apply list_elem_of_omap. exists x. split; [done|].
  unfold holds in Hh. destruct (simple_rule_values chk raw) as [[b v]|] eqn:E; [|done]. destruct (values_line _ _ _ _ a Ht E) as (p & Hp & Hty & _).
  rewrite (filled_not_empty env x p b v a); [done|done|congruence|by apply bool_decide_eq_true_1 in Hh].
Qed.

Lemma lines_account a items : forall i rules, (forall t, t ∈ simpleTypes a -> t ∈ kinds rules) ->
  let '(rules', rej) := updateLines chk a i items rules in
  (forall t, InternalError t ∉ rej) /\
  (forall k item, items !! k = Some item -> trimmed item <> [] -> (exists why, LineRejected (i + Z.of_nat k) (trimmed item) why ∈ rej) \/ stored chk a (trimmed item) rules') /\
  (forall a' raw, trimmed raw = raw -> stored chk a' raw rules -> stored chk a' raw rules').
Proof.
  induction items as [|x items IH]; intros i rules Hall; cbn [updateLines].
  { split_and!; [by intros t ?%not_elem_of_nil|done|done]. }
  pose proof (line_step chk a i (trimmed x) rules (trimmed_again x)) as Hs. destruct (updateLine chk a i (trimmed x) rules) as [rules1 rej1]. cbn [fst snd] in Hs.
  assert (forall t, t ∈ simpleTypes a -> List.find (ofKind t) rules <> None) as Hf by (intros t Ht; by apply find_kind, Hall).
  specialize (IH (i + 1) rules1 ltac:(intros t Ht; apply find_kind; eapply step_kind; [exact Hs|by apply Hf])).
  destruct (updateLines chk a (i + 1) items rules1) as [rules2 rej2]. destruct IH as (IHe & IHl & IHk). split_and!.
  - intros t. rewrite elem_of_app. intros [H|H]; [|by eapply IHe]. inversion Hs; subst; try (by apply not_elem_of_nil in H).
    + by apply list_elem_of_singleton in H.
    + by eapply Hf.
  - intros [|k] item; cbn [lookup list_lookup].
    + intros [= <-] Hne. rewrite Z.add_0_r. destruct (step_stores chk a i (trimmed x) rules rules1 rej1 Hs (trimmed_again x) Hne Hf) as [[why ->]|[-> Hst]].
      * left. exists why. left.
      * right. by apply IHk; [apply trimmed_again|].
    + intros Hk Hne. destruct (IHl k item Hk Hne) as [[why H]|H]; [left|by right]. exists why. apply elem_of_app. right. by replace (i + Z.of_nat (S k)) with (i + 1 + Z.of_nat k) by lia.
  - intros a' raw Ht Hst. apply IHk; [done|]. by eapply step_keeps.
Qed.

(** C11: after an update of the lines of an action, every line with text is either
    reported with its number or held by the rules of that action; no line is lost for
    want of a rule, and the other actions keep what they held. *)
Theorem update_accounts content a rules :
  let '(rules', rej) := UpdateSimpleRules chk env content a rules in
  (forall t, InternalError t ∉ rej) /\
  (forall k item, split 10 content !! k = Some item -> trimmed item <> [] ->
     (exists why, LineRejected (1 + Z.of_nat k) (trimmed item) why ∈ rej) \/ HasSimpleRule chk darwin rules' item (listOf a) = true) /\
  (forall a' raw, a' <> a -> HasSimpleRule chk darwin rules raw (listOf a') = true -> HasSimpleRule chk darwin rules' raw (listOf a') = true).
Proof.
  unfold UpdateSimpleRules. pose proof (lines_account a (split 10 content) 1 (fold_left ResetSimpleRule (simpleTypes a) rules) (reset_all a rules)) as H.
  destruct (updateLines _ _ _ _ _) as [rules1 rej]. destruct H as (He & Hl & Hk). split_and!; [done| |].
  - intros k item Hi Hne. destruct (Hl k item Hi Hne) as [H|H]; [by left|right]. by apply has_stored, stored_filter; [apply trimmed_again|].
  - intros a' raw Ha Hst%has_stored. apply has_stored, stored_filter; [apply trimmed_again|]. apply Hk; [apply trimmed_again|].
    cbn [simpleTypes fold_left]. do 3 (apply (stored_reset a); [unfold simpleTypes; set_solver|done|]). done.
Qed.
End Accounts.
