(* ===== verification/SimpleUpdate.v ===== *)
(** * What an update of the basic tab leaves, for any text and any profile

    UpdateSimpleRules empties the first rule of each type of an action, or adds one, feeds
    it line by line and drops what stays empty. [updated] says at once what is left:
    which rules are rebuilt, and what each of their lists holds. *)

From Stdlib Require Import Ascii String.
From S2P Require Import Prelude QtText Json Lists RouteRules SimpleRules SimpleLines.

Local Open Scope Z_scope.
#[local] Set Warnings "-register-all".

(** ** The specification *)

(** Each value once, where it comes first. *)
Definition once (l : list qstring) : list qstring := fold_left (fun seen v => if bool_decide (v ∈ seen) then seen else seen ++ [v]) l [].

Section Spec.
Context (chk : CheckEnv).

(** A line with text that the check does not refuse. *)
Definition taken (raw : qstring) : bool :=
  negb (isEmpty raw) && match CheckSimpleRule chk raw with Some (Error, _) => false | _ => true end.
(** The values that the lines give under a prefix, as they are stored. *)
Definition valuesUnder (p : qstring) (lines : list qstring) : list qstring :=
  omap (fun l => let raw := trimmed l in if taken raw && bool_decide (linePrefix raw = p) then Some (storedValue chk p (afterColon raw)) else None) lines.

(** A rule with the lists [f], by prefix. *)
Definition filled (r : RouteRule) (f : qstring -> list qstring) : RouteRule := fold_left (fun x q => aset q.2 (f q.1) x) lineLists r.
(** The empty rule of the same type, switched on or off as this one. *)
Definition emptied (r : RouteRule) : RouteRule := match NewSimpleRule (ruleKind r) with Some c => set_disabled (disabled r) c | None => r end.
(** The rule as new, but for its switch; under each prefix of its type the values of the lines. *)
Definition rebuilt (a : simpleAction) (lines : list qstring) (r : RouteRule) : RouteRule :=
  filled (emptied r) (fun p => if bool_decide (typeOfPrefix p a = ruleKind r) then once (valuesUnder p lines) else []).

(** [f] of the first rule of each type, of a new one where there is none. *)
Fixpoint onFirsts (f : RouteRule -> RouteRule) (ts : list ruleType) (rules : list RouteRule) : list RouteRule :=
  match rules with
  | [] => map f (flat_map (fun t => option_rule (NewSimpleRule t)) ts)
  | r :: rules => if bool_decide (ruleKind r ∈ ts) then f r :: onFirsts f (List.filter (fun t => negb (bool_decide (t = ruleKind r))) ts) rules
                  else r :: onFirsts f ts rules
  end.
Definition updated (a : simpleAction) (lines : list qstring) (rules : list RouteRule) : list RouteRule :=
  onFirsts (rebuilt a lines) (simpleTypes a) rules.

Definition refusedLine (i : Z) (l : qstring) : list Rejection :=
  match CheckSimpleRule chk l with Some (Error, why) => [LineRejected i (trimmed l) (Some why)] | _ => [] end.
Fixpoint refusedLines (i : Z) (lines : list qstring) : list Rejection :=
  match lines with [] => [] | l :: lines => refusedLine i l ++ refusedLines (i + 1) lines end.

(** ** Filling a rule *)

Lemma filled_ext r f g : (forall p b, (p, b) ∈ lineLists -> f p = g p) -> filled r f = filled r g.
Proof.
  intros H. unfold filled. assert (forall l, l ⊆ lineLists -> forall x, fold_left (fun x q => aset q.2 (f q.1) x) l x = fold_left (fun x q => aset q.2 (g q.1) x) l x) as Hl; [|by apply Hl].
  induction l as [|[p b] l IH]; intros Hs x; [done|]. cbn [fold_left fst snd]. rewrite (H p b) by (apply Hs; left). apply IH. set_solver.
Qed.

Lemma filled_kind r f : ruleKind (filled r f) = ruleKind r.
Proof. by destruct r. Qed.

Lemma filled_get p b r f : (p, b) ∈ lineLists -> aget b (filled r f) = f p.
Proof. intros Hp. destruct r. line_cases Hp; reflexivity. Qed.
Lemma filled_set p b l r f : (p, b) ∈ lineLists -> aset b l (filled r f) = filled r (fun q => if bool_decide (q = p) then l else f q).
Proof. intros Hp. destruct r. line_cases Hp; vm_compute; reflexivity. Qed.

Lemma filled_add p b v r f g : (p, b) ∈ lineLists -> g p = (if bool_decide (v ∈ f p) then f p else f p ++ [v]) -> (forall q, q <> p -> g q = f q) ->
  addValue b v (filled r f) = filled r g.
Proof.
  intros Hp Hg Ho. unfold addValue. rewrite (filled_get p), (filled_set p) by done.
  destruct (bool_decide (v ∈ f p)); apply filled_ext; intros q c _; (destruct (decide (q = p)) as [->|Hq]; [rewrite Hg | rewrite Ho by done]); try done.
  - by rewrite bool_decide_true.
  - by rewrite bool_decide_false.
Qed.

Lemma once_snoc l v : once (l ++ [v]) = if bool_decide (v ∈ once l) then once l else once l ++ [v].
Proof. unfold once. by rewrite fold_left_app. Qed.
Lemma values_snoc p lines l : valuesUnder p (lines ++ [l]) =
  valuesUnder p lines ++ (if taken (trimmed l) && bool_decide (linePrefix (trimmed l) = p) then [storedValue chk p (afterColon (trimmed l))] else []).
Proof. unfold valuesUnder. rewrite omap_app. f_equal. cbn. by destruct (taken _ && _). Qed.

Lemma emptied_reset r : emptied r = reset_simple_rule r.
Proof. unfold emptied, reset_simple_rule. by destruct (NewSimpleRule (ruleKind r)). Qed.

Lemma rebuilt_kind a lines r : ruleKind (rebuilt a lines r) = ruleKind r.
Proof. unfold rebuilt. rewrite emptied_reset. by rewrite filled_kind, reset_kind. Qed.

Lemma filled_disabled d r f : filled (set_disabled d r) f = set_disabled d (filled r f).
Proof. destruct r. vm_compute. reflexivity. Qed.
Lemma new_unfilled : map (fun c => filled c (fun _ => [])) get_simple_rules = get_simple_rules.
Proof. vm_compute. reflexivity. Qed.

Lemma rebuilt_none a r : ruleKind r ∈ simpleTypes a -> rebuilt a [] r = reset_simple_rule r.
Proof.
  intros Hk. unfold rebuilt. rewrite emptied_reset, (filled_ext _ _ (fun _ => [])) by (intros; by case_bool_decide). unfold reset_simple_rule.
  destruct (new_simple_some a _ Hk) as [c Hc]. rewrite Hc, filled_disabled. f_equal. unfold NewSimpleRule in Hc. apply find_some in Hc as [Hc _].
  apply In_nth_error in Hc as [n Hn]. pose proof (map_nth_error (fun c => filled c (fun _ => [])) n _ Hn) as Hm. rewrite new_unfilled, Hn in Hm. by injection Hm.
Qed.

(** A line that is taken adds its value to the rule of its type. *)
Lemma rebuilt_line a lines l b r : taken (trimmed l) = true -> (linePrefix (trimmed l), b) ∈ lineLists -> ruleKind r = typeOfPrefix (linePrefix (trimmed l)) a ->
  addValue b (storedValue chk (linePrefix (trimmed l)) (afterColon (trimmed l))) (rebuilt a lines r) = rebuilt a (lines ++ [l]) r.
Proof.
  intros Ht Hp Hk. unfold rebuilt. eapply filled_add; [exact Hp|..].
  - rewrite !(bool_decide_true (typeOfPrefix _ _ = _)) by done. rewrite values_snoc, Ht, bool_decide_true by done. apply once_snoc.
  - intros q Hq. case_bool_decide; [|done]. by rewrite values_snoc, Ht, bool_decide_false, app_nil_r.
Qed.
Lemma rebuilt_other a lines l r : (taken (trimmed l) = true -> ruleKind r <> typeOfPrefix (linePrefix (trimmed l)) a) -> rebuilt a (lines ++ [l]) r = rebuilt a lines r.
Proof.
  intros Hn. unfold rebuilt. apply filled_ext. intros p b Hp. case_bool_decide as E; [|done]. rewrite values_snoc.
  destruct (taken (trimmed l)); cbn [andb]; [|by rewrite app_nil_r]. case_bool_decide as El; [|by rewrite app_nil_r]. destruct (Hn eq_refl). by rewrite El.
Qed.

(** ** The rules that are rebuilt *)

Lemma firsts_ext f g ts rules : (forall r, ruleKind r ∈ ts -> f r = g r) -> onFirsts f ts rules = onFirsts g ts rules.
Proof.
  revert ts. induction rules as [|r rules IH]; intros ts H; cbn [onFirsts].
  - apply map_ext_in. intros x Hx. apply in_flat_map in Hx as (t & Ht%list_elem_of_In & Hx). destruct (NewSimpleRule t) as [c|] eqn:Ec; [|done].
    destruct Hx as [<-|[]]. apply H. by rewrite (new_simple_kind _ _ Ec).
  - case_bool_decide as E; [|f_equal; by apply IH]. rewrite H by done. f_equal. apply IH. intros x. rewrite elem_of_filter'. intros [Hx _]. by apply H.
Qed.

Lemma firsts_none f rules : onFirsts f [] rules = rules.
Proof. induction rules as [|r rules IH]; [done|]. cbn [onFirsts]. rewrite bool_decide_false by apply not_elem_of_nil. by rewrite IH. Qed.

Lemma filter_out_absent (ts : list ruleType) t : t ∉ ts -> List.filter (fun u => negb (bool_decide (u = t))) ts = ts.
Proof.
  induction ts as [|u ts IH]; [done|]. rewrite not_elem_of_cons. intros [Hne Hn]. cbn [List.filter]. rewrite bool_decide_false by done. cbn [negb]. by rewrite IH.
Qed.
Lemma filter_out_nodup (ts : list ruleType) t : NoDup ts -> NoDup (List.filter (fun u => negb (bool_decide (u = t))) ts).
Proof.
  induction 1 as [|u ts Hn Hd IH]; [constructor|]. cbn [List.filter]. destruct (negb _); [|done]. constructor; [|done]. rewrite elem_of_filter'. naive_solver.
Qed.

(** The first rule of a type, changed once more. *)
Lemma firsts_update a f g t ts : ts ⊆ simpleTypes a -> NoDup ts -> t ∈ ts -> (forall r, ruleKind (f r) = ruleKind r) -> forall rules,
  updateFirst (ofKind t) g (onFirsts f ts rules) = Some (onFirsts (fun r => if bool_decide (ruleKind r = t) then g (f r) else f r) ts rules).
Proof.
  intros Hs Hd Ht Hf rules. revert ts Hs Hd Ht. induction rules as [|r rules IH]; intros ts Hs Hd Ht; cbn [onFirsts].
  - induction Hd as [|u ts Hn Hd IH]; [by apply elem_of_nil in Ht|]. destruct (new_simple_some a u ltac:(set_solver)) as [c Hc]. cbn [flat_map]. rewrite Hc.
    cbn [option_rule app map updateFirst]. pose proof (new_simple_kind _ _ Hc) as Hk. unfold ofKind at 1. rewrite Hf, Hk. case_bool_decide as E.
    + subst u. do 2 f_equal. apply map_ext_in. intros x Hx. apply in_flat_map in Hx as (u & Hu%list_elem_of_In & Hx). destruct (NewSimpleRule u) as [d|] eqn:Ed; [|done].
      destruct Hx as [<-|[]]. rewrite (new_simple_kind _ _ Ed).
 by rewrite bool_decide_false by (intros ->; by rewrite E in Hn).
    + by rewrite IH by set_solver.
  - destruct (bool_decide_reflect (ruleKind r ∈ ts)) as [Hin|Hin]; cbn [updateFirst].
    + unfold ofKind at 1. rewrite Hf. destruct (bool_decide_reflect (ruleKind r = t)) as [E|E].
      * do 2 f_equal. apply firsts_ext. intros x. rewrite elem_of_filter'. intros [_ Hx]. rewrite E in Hx. by destruct (bool_decide (ruleKind x = t)).
      * rewrite IH; [done|intros u; rewrite elem_of_filter'; naive_solver|by apply filter_out_nodup|].
        rewrite elem_of_filter'. split; [done|]. by rewrite bool_decide_false by congruence.
    + unfold ofKind at 1. rewrite bool_decide_false by (intros E; by rewrite E in Hin). by rewrite IH.
Qed.

(** Emptying the rules, type by type. *)
Lemma reset_new t c : NewSimpleRule t = Some c -> reset_simple_rule c = c.
Proof. intros Hc. unfold reset_simple_rule. rewrite (new_simple_kind _ _ Hc), Hc. by destruct c. Qed.

Lemma reset_first a t rules : t ∈ simpleTypes a -> ResetSimpleRule rules t = onFirsts reset_simple_rule [t] rules.
Proof.
  intros Ht. unfold ResetSimpleRule. destruct (new_simple_some a t Ht) as [c Hc]. rewrite Hc. cbn [option_rule].
  induction rules as [|r rules IH]; cbn [updateFirst onFirsts].
  - cbn [flat_map]. rewrite Hc. cbn [option_rule app map]. by rewrite (reset_new _ _ Hc).
  - unfold ofKind at 1. rewrite (bool_decide_ext (ruleKind r ∈ [t]) (ruleKind r = t)) by apply list_elem_of_singleton. case_bool_decide as E.
    + cbn [List.filter]. rewrite bool_decide_true by done. cbn [negb]. by rewrite firsts_none.
    + rewrite <- IH. by destruct (updateFirst _ _ rules).
Qed.

Lemma firsts_cons a t ts : t ∈ simpleTypes a -> t ∉ ts -> forall rules, onFirsts reset_simple_rule ts (onFirsts reset_simple_rule [t] rules) = onFirsts reset_simple_rule (t :: ts) rules.
Proof.
  intros Ht Hn rules. destruct (new_simple_some a t Ht) as [c Hc]. revert ts Hn. induction rules as [|r rules IH]; intros ts Hn.
  - cbn [onFirsts flat_map]. rewrite Hc. cbn [option_rule app map onFirsts]. rewrite reset_kind, (new_simple_kind _ _ Hc). by rewrite bool_decide_false.
  - cbn [onFirsts]. rewrite (bool_decide_ext (ruleKind r ∈ [t]) (ruleKind r = t)) by apply list_elem_of_singleton.
    destruct (bool_decide_reflect (ruleKind r = t)) as [E|E].
    + rewrite (bool_decide_true (ruleKind r ∈ t :: ts)) by (rewrite E; left). cbn [List.filter]. rewrite E, bool_decide_true by done. cbn [negb].
      rewrite firsts_none, filter_out_absent by done. cbn [onFirsts]. rewrite reset_kind, E. by rewrite bool_decide_false.
    + cbn [onFirsts]. rewrite (bool_decide_ext (ruleKind r ∈ t :: ts) (ruleKind r ∈ ts)) by set_solver. case_bool_decide.
      * f_equal. cbn [List.filter]. rewrite (bool_decide_false (t = ruleKind r)) by congruence. cbn [negb]. apply IH. rewrite elem_of_filter'. naive_solver.
      * f_equal. by apply IH.
Qed.

Lemma reset_firsts a ts : ts ⊆ simpleTypes a -> NoDup ts -> forall rules, fold_left ResetSimpleRule ts rules = onFirsts reset_simple_rule ts rules.
Proof.
  intros Hs Hd. induction Hd as [|t ts Hn Hd IH]; intros rules; cbn [fold_left]; [by rewrite firsts_none|].
  rewrite IH, (reset_first a) by set_solver. apply (firsts_cons a); set_solver.
Qed.

(** ** A line *)

Lemma check_taken raw : trimmed raw = raw -> taken raw = true -> exists b, (linePrefix raw, b) ∈ lineLists /\
  simple_rule_values chk raw = Some (b, storedValue chk (linePrefix raw) (afterColon raw)).
Proof.
  intros Ht. unfold taken, CheckSimpleRule. rewrite Ht. destruct (isEmpty raw); [done|]. cbn [negb andb].
  destruct (attrAt (linePrefix raw) lineAttrs) as [attr|] eqn:Ea; [|done]. destruct (isEmpty (afterColon raw)) eqn:Ee; [done|]. intros _.
  assert (exists b, attrAt (linePrefix raw) lineLists = Some b) as [b Hb].
  { apply attrAt_elem in Ea. revert Ea. generalize (linePrefix raw). intros p Hp. apply list_elem_of_In in Hp. cbn [lineAttrs In] in Hp.
    destruct_or! Hp; try done; injection Hp as <- _; vm_compute; by eexists. }
  exists b. split; [by apply attrAt_elem|]. apply values_spec. split_and!; [|by destruct (afterColon raw)|done|done].
  destruct (indexOf (ch ":") raw) eqn:Ei; [by eexists|]. unfold linePrefix in Ea. by rewrite Ei in Ea.
Qed.

Lemma find_updated g t rules l : updateFirst (ofKind t) g rules = Some l -> exists r, List.find (ofKind t) rules = Some r /\
  updateFirst (ofKind t) (fun _ => g r) rules = Some l.
Proof.
  intros H. destruct (updateFirst_split _ _ _ _ H) as (pre & x & post & -> & -> & Hx & Hf & Hn). exists x. split; [done|]. by rewrite updateFirst_at.
Qed.

Lemma add_accepted raw r a : trimmed raw = raw -> taken raw = true -> forall b, (linePrefix raw, b) ∈ lineLists ->
  add_simple_rule chk raw r (typeOfPrefix (linePrefix raw) a) = inr (addValue b (storedValue chk (linePrefix raw) (afterColon raw)) r).
Proof.
  intros Ht Hk b Hb. destruct (check_taken raw Ht Hk) as (b' & Hb' & Hv). apply values_spec in Hv as ([c Hc] & Hne & Ha & _).
  unfold taken in Hk. apply andb_true_iff in Hk as [_ Hk]. unfold add_simple_rule. destruct (prefix_group _ _ a Hb) as (_ & _ & ->).
  assert ((if bool_decide (linePrefix raw ∈ addressPrefixes) then add_simple_address_rule chk raw r else add_simple_process_rule raw r) =
    inr (addValue b (storedValue chk (linePrefix raw) (afterColon raw)) r)) as ->.
  - unfold add_simple_address_rule, add_simple_process_rule. rewrite Hc. assert (contains (ch ":") raw = true) as -> by (apply indexOf_contains; by eexists).
    assert (isEmpty (afterColon raw) = false) as -> by by destruct (afterColon raw). cbn [negb]. clear -Hb. revert Hb. generalize (linePrefix raw), (afterColon raw).
    intros p v Hp. line_cases Hp; vm_compute; reflexivity.
  - by destruct (CheckSimpleRule chk raw) as [[[] ?]|].
Qed.

Lemma line_updates a i l f rules : (forall r, ruleKind (f r) = ruleKind r) -> let raw := trimmed l in
  updateLine chk a i raw (onFirsts f (simpleTypes a) rules) =
  (onFirsts (fun r => match simple_rule_values chk raw with
                      | Some (b, v) => if taken raw && bool_decide (ruleKind r = typeOfPrefix (linePrefix raw) a) then addValue b v (f r) else f r
                      | None => f r end) (simpleTypes a) rules, refusedLine i l).
Proof.
  intros Hf raw. assert (Ht : trimmed raw = raw) by apply trimmed_again. unfold refusedLine. assert (CheckSimpleRule chk l = CheckSimpleRule chk raw) as ->.
  { unfold CheckSimpleRule. by rewrite Ht. }
  destruct (taken raw) eqn:Hk; cbn [andb].
  - destruct (check_taken raw Ht Hk) as (b & Hb & Hv). rewrite Hv.
    assert (get_rule_type raw a = typeOfPrefix (linePrefix raw) a) as Hty by (eapply line_type; [exact Hb | by apply prefix_starts]).
    pose proof Hk as Hk'. unfold taken in Hk'. apply andb_true_iff in Hk' as [Hne Hck].
    assert (match CheckSimpleRule chk raw with Some (Error, why) => [LineRejected i (trimmed l) (Some why)] | _ => [] end = []) as -> by by destruct (CheckSimpleRule chk raw) as [[[] ?]|].
    unfold updateLine. destruct (isEmpty raw); [done|]. rewrite Hty. rewrite bool_decide_false by by eapply type_custom.
    assert (typeOfPrefix (linePrefix raw) a ∈ simpleTypes a) as Hin by (destruct (line_type_listed raw a) as [E|E]; rewrite Hty in E; [by eapply type_custom in E|done]).
    pose proof (firsts_update a f (addValue b (storedValue chk (linePrefix raw) (afterColon raw))) _ (simpleTypes a) ltac:(done)
      ltac:(destruct a; vm_compute; repeat constructor; set_solver) Hin Hf rules) as Hu.
    destruct (find_updated _ _ _ _ Hu) as (r & Hr & Hu'). unfold get_simple_rule_by_type. rewrite Hr, (add_accepted raw r a Ht Hk b Hb), Hu'. done.
  - assert (onFirsts (fun r => match simple_rule_values chk raw with Some (b, v) => f r | None => f r end) (simpleTypes a) rules = onFirsts f (simpleTypes a) rules) as ->.
    { apply firsts_ext. intros r _. by destruct (simple_rule_values chk raw) as [[b v]|]. }
    unfold updateLine. unfold taken in Hk. destruct (isEmpty raw) eqn:Ee.
    { assert (raw = []) as -> by by destruct raw. done. }
    cbn [negb andb] in Hk. destruct (CheckSimpleRule chk raw) as [[[|] why]|] eqn:Ec; try done. fold raw.
    case_bool_decide; [done|]. destruct (line_type_listed raw a) as [?|Hin]; [done|].
    pose proof (firsts_update a f (fun r => r) _ (simpleTypes a) ltac:(done) ltac:(destruct a; vm_compute; repeat constructor; set_solver) Hin Hf rules) as Hu.
    destruct (find_updated _ _ _ _ Hu) as (r & Hr & _). unfold get_simple_rule_by_type. rewrite Hr. unfold add_simple_rule. by rewrite Ec.
Qed.
(** ** A text *)

Lemma lines_update a rules : forall lines done i, updateLines chk a i lines (onFirsts (rebuilt a done) (simpleTypes a) rules) =
  (updated a (done ++ lines) rules, refusedLines i lines).
Proof.
  induction lines as [|l lines IH]; intros before i; cbn [updateLines refusedLines]; [by rewrite app_nil_r|].
  rewrite line_updates by apply rebuilt_kind.
  assert (onFirsts (fun r => match simple_rule_values chk (trimmed l) with
      | Some (b, v) => if taken (trimmed l) && bool_decide (ruleKind r = typeOfPrefix (linePrefix (trimmed l)) a) then addValue b v (rebuilt a before r) else rebuilt a before r
      | None => rebuilt a before r end) (simpleTypes a) rules = onFirsts (rebuilt a (before ++ [l])) (simpleTypes a) rules) as ->.
  - apply firsts_ext. intros r _. destruct (taken (trimmed l)) eqn:Ht.
    + destruct (check_taken (trimmed l) (trimmed_again l) Ht) as (b & Hb & ->). cbn [andb]. case_bool_decide as Hk; [by apply rebuilt_line|].
      by rewrite rebuilt_other.
    + rewrite rebuilt_other by congruence. cbn [andb]. by destruct (simple_rule_values chk (trimmed l)) as [[? ?]|].
  - rewrite (IH (before ++ [l]) (i + 1)), <- app_assoc. done.
Qed.

(** C10: For any text and any profile, the lines of an action are updated to exactly this:
    the first rule of each of its types is rebuilt, or a new one is where there was none,
    with its switch kept and under each prefix of its type the values of the lines that
    the check takes, in their order and each once; every other rule is as before, and
    rules that are then empty are dropped. Every line that the check refuses is reported,
    with its number and reason, and no other. *)
Theorem update_exact env text a rules :
  UpdateSimpleRules chk env text a rules = (FilterEmptyRules env (updated a (split 10 text) rules), refusedLines 1 (split 10 text)).
Proof.
  unfold UpdateSimpleRules. rewrite (reset_firsts a) by (done || (destruct a; vm_compute; repeat constructor; set_solver)).
  assert (onFirsts reset_simple_rule (simpleTypes a) rules = onFirsts (rebuilt a []) (simpleTypes a) rules) as ->
    by (apply firsts_ext; intros; by rewrite rebuilt_none).
  by rewrite lines_update.
Qed.
End Spec.
