(* ===== verification/SimpleText.v ===== *)
(** * The text of the basic tab reads back as the rules it shows *)

From Stdlib Require Import Ascii String.
From S2P Require Import Prelude QtText Json Lists RouteRules SimpleRules SimpleLines.

Local Open Scope Z_scope.
#[local] Set Warnings "-register-all".

Lemma set_get p a r : (p, a) ∈ lineLists -> aset a (aget a r) r = r.
Proof. intros H. destruct r. by line_cases H. Qed.
Lemma set_set p a l m r : (p, a) ∈ lineLists -> aset a l (aset a m r) = aset a l r.
Proof. intros H. by line_cases H. Qed.

Lemma split_lines ls : Forall (free 10) ls -> split 10 (concat (map (fun l => l ++ [10]) ls)) = ls ++ [[]].
Proof. induction 1 as [|l ls Hl _ IH]; [done|]. cbn [map concat app]. rewrite <- app_assoc. cbn [app]. by rewrite split_app, IH. Qed.

Section Text.
Context (chk : CheckEnv) (env : RuleEnv).

Definition lineText (p v : qstring) : qstring := p ++ ch ":" :: v.

(** A value as reading it leaves it, that the check of its prefix accepts. *)
Record PlainValue (p v : qstring) : Prop := {
  pv_trimmed : trimmed v = v;
  pv_text : v <> [];
  pv_oneLine : free 10 v;
  pv_case : storedValue chk p v = v;
  pv_accepted : match CheckSimpleRule chk (lineText p v) with Some (Error, _) => False | _ => True end }.

(** A rule of the lists of [a] with nothing but the values of its own kind. *)
Record PlainRule (a : simpleAction) (r : RouteRule) : Prop := {
  pr_own q : q ∈ lineLists -> aget q.2 r <> [] -> typeOfPrefix q.1 a = ruleKind r;
  pr_distinct q : q ∈ lineLists -> NoDup (aget q.2 r);
  pr_values q v : q ∈ lineLists -> v ∈ aget q.2 r -> PlainValue q.1 v;
  pr_rest : fold_left (fun x q => aset q.2 (aget q.2 r) x) lineLists (reset_simple_rule r) = r }.

Lemma line_trimmed p b v : (p, b) ∈ lineLists -> trimmed v = v -> v <> [] -> trimmed (lineText p v) = lineText p v.
Proof.
  intros Hp Ht Hne. destruct (trimmed_end v) as [E|(w & y & E & Hy)]; [congruence|]. rewrite Ht in E. rewrite E.
  unfold lineText. line_cases Hp; cbn [qs map app String.list_ascii_of_string]; rewrite ?app_comm_cons; (apply trimmed_ends; [reflexivity|done]).
Qed.
Lemma line_read p b v : (p, b) ∈ lineLists -> trimmed v = v ->
  indexOf (ch ":") (lineText p v) = Some (length p) /\ linePrefix (lineText p v) = p /\ afterColon (lineText p v) = v.
Proof. intros Hp Ht. line_cases Hp; (split_and!; [reflexivity|reflexivity|exact Ht]). Qed.

Lemma line_added p b v a x : (p, b) ∈ lineLists -> PlainValue p v -> add_simple_rule chk (lineText p v) x (typeOfPrefix p a) = inr (addValue b v x).
Proof.
  intros Hp [Ht Hne _ Hc Hk]. destruct (line_read p b v Hp Ht) as (Hi & Hl & Ha). unfold add_simple_rule.
  assert ((if isSimpleAddress (typeOfPrefix p a) then add_simple_address_rule chk (lineText p v) x else add_simple_process_rule (lineText p v) x) = inr (addValue b v x)) as ->.
  - destruct (prefix_group p b a Hp) as (_ & _ & ->). unfold add_simple_address_rule, add_simple_process_rule.
    assert (contains (ch ":") (lineText p v) = true) as -> by (apply indexOf_contains; by eexists). rewrite Hi, Hl, Ha. cbn [negb].
    assert (isEmpty v = false) as -> by by destruct v. rewrite Hc. clear -Hp. line_cases Hp; vm_compute; reflexivity.
  - by destruct (CheckSimpleRule chk (lineText p v)) as [[[] ?]|].
Qed.

(** A line changes the first rule of its type. *)
Lemma line_fed a i p b v pre x post : (p, b) ∈ lineLists -> PlainValue p v -> ruleKind x = typeOfPrefix p a ->
  Forall (fun y => ofKind (ruleKind x) y = false) pre ->
  updateLine chk a i (trimmed (lineText p v)) (pre ++ x :: post) = (pre ++ addValue b v x :: post, []).
Proof.
  intros Hp Hv Hk Hn. rewrite (line_trimmed p b) by (done || apply Hv). unfold updateLine.
  assert (isEmpty (lineText p v) = false) as -> by (unfold lineText; by destruct p).
  rewrite (line_type _ p b) by (done || apply startsWith_app). rewrite bool_decide_false by by eapply type_custom. rewrite <- Hk.
  unfold get_simple_rule_by_type. rewrite find_first_at by (done || by apply bool_decide_eq_true_2). rewrite Hk at 1. rewrite (line_added p b) by done.
  by rewrite updateFirst_at by (done || by apply bool_decide_eq_true_2).
Qed.

Lemma updateLines_app a l1 : forall i l2 rules, let '(r1, e1) := updateLines chk a i l1 rules in
  updateLines chk a i (l1 ++ l2) rules = let '(r2, e2) := updateLines chk a (i + Z.of_nat (length l1)) l2 r1 in (r2, e1 ++ e2).
Proof.
  induction l1 as [|x l1 IH]; intros i l2 rules; cbn [updateLines app length].
  - rewrite Z.add_0_r. by destruct (updateLines _ _ _ _ _).
  - destruct (updateLine _ _ _ _ _) as [r0 e0]. specialize (IH (i + 1) l2 r0). destruct (updateLines _ _ _ l1 r0) as [r1 e1]. rewrite IH.
    replace (i + Z.of_nat (S (length l1))) with (i + 1 + Z.of_nat (length l1)) by lia. destruct (updateLines _ _ _ l2 r1). by rewrite app_assoc.
Qed.

Lemma values_fed a p b pre post : (p, b) ∈ lineLists -> forall vs i x, ruleKind x = typeOfPrefix p a -> Forall (fun y => ofKind (ruleKind x) y = false) pre ->
  Forall (PlainValue p) vs -> NoDup (aget b x ++ vs) ->
  updateLines chk a i (map (lineText p) vs) (pre ++ x :: post) = (pre ++ aset b (aget b x ++ vs) x :: post, []).
Proof.
  intros Hp. induction vs as [|v vs IH]; intros i x Hk Hn Hv Hd; cbn [map updateLines].
  { by rewrite app_nil_r, (set_get p b). }
  apply Forall_cons in Hv as [Hv Hvs]. rewrite (line_fed a i p b) by done. destruct (add_frame p b v x Hp) as (Hk' & _).
  assert (addValue b v x = aset b (aget b x ++ [v]) x) as E.
  { unfold addValue. rewrite bool_decide_false; [done|]. apply NoDup_app in Hd as (_ & Hd & _). intros Hin. eapply Hd; [done|left]. }
  rewrite IH; [|by rewrite Hk'|by rewrite Hk'|done|].
  - rewrite E, (get_set p b), (set_set p b), <- app_assoc by done. done.
  - rewrite E, (get_set p b), <- app_assoc by done. done.
Qed.

(** The lines of a rule fill its empty form. *)
Lemma rule_fed a r pre post : PlainRule a r -> Forall (fun y => ofKind (ruleKind r) y = false) pre -> forall ls, NoDup ls.*1 -> ls ⊆ lineLists ->
  forall i x, ruleKind x = ruleKind r -> (forall q, q ∈ ls -> aget q.2 x = []) ->
  updateLines chk a i (flat_map (listLines r) ls) (pre ++ x :: post) = (pre ++ fold_left (fun x q => aset q.2 (aget q.2 r) x) ls x :: post, []).
Proof.
  intros Hr Hn. induction ls as [|[p b] ls IH]; intros Hd Hs i x Hk He; [done|]. cbn [flat_map fold_left fst snd].
  apply NoDup_cons in Hd as [Hp Hd]. assert ((p, b) ∈ lineLists) as Hin by (apply Hs; left).
  assert (updateLines chk a i (listLines r (p, b)) (pre ++ x :: post) = (pre ++ aset b (aget b r) x :: post, [])) as E.
  { unfold listLines. cbn [fst snd]. pose proof (He (p, b) ltac:(left)) as Hx. cbn [snd] in Hx. destruct (aget b r) as [|v vs] eqn:Ev.
    - cbn [map updateLines]. rewrite <- Hx. by rewrite (set_get p b).
    - rewrite <- Ev. pose proof (pr_own _ _ Hr (p, b) Hin) as Ho. cbn [fst snd] in Ho. rewrite Ev in Ho. specialize (Ho ltac:(done)).
      change (fun v0 => p ++ ch ":" :: v0) with (lineText p). rewrite (values_fed a p b pre post Hin (aget b r) i x).
      + by rewrite Hx.
      + by rewrite Hk.
      + by rewrite Hk.
      + apply Forall_forall. intros w Hw. by apply (pr_values _ _ Hr (p, b)).
      + rewrite Hx. by apply (pr_distinct _ _ Hr (p, b)). }
  pose proof (updateLines_app a (listLines r (p, b)) i (flat_map (listLines r) ls) (pre ++ x :: post)) as Ha. rewrite E in Ha. rewrite Ha.
  rewrite IH; [done|done|set_solver| |].
  - destruct (set_frame p b (aget b r) x Hin) as (-> & _). done.
  - intros q Hq. destruct q as [p' b']. assert ((p', b') ∈ lineLists) as Hin' by (apply Hs; by right).
    destruct (get_set_other p' b' p b Hin' Hin) as [[-> _]|Eq]; [|cbn [snd]; rewrite Eq; apply (He (p', b')); by right].
    exfalso. apply Hp. apply list_elem_of_fmap. by exists (p, b').
Qed.

(** ** Whole profiles *)

Definition listed (a : simpleAction) (r : RouteRule) : bool := bool_decide (ruleKind r ∈ simpleTypes a).

(** A profile of which the text shows everything: each type at most once, no rule
    empty, those of the action plain. *)
Record Shown (a : simpleAction) (rules : list RouteRule) : Prop := {
  sh_once t : t ∈ simpleTypes a -> (length (List.filter (ofKind t) rules) <= 1)%nat;
  sh_filled r : r ∈ rules -> ruleIsEmpty env r = (false, r);
  sh_plain r : r ∈ rules -> listed a r = true -> PlainRule a r }.

Definition resetIn (ts : list ruleType) (r : RouteRule) : RouteRule := if bool_decide (ruleKind r ∈ ts) then reset_simple_rule r else r.
Definition missing (ts : list ruleType) (rules : list RouteRule) : list RouteRule :=
  flat_map (fun t => if bool_decide (t ∈ kinds rules) then [] else option_rule (NewSimpleRule t)) ts.

Lemma kind_filter t rules : t ∈ kinds rules <-> List.filter (ofKind t) rules <> [].
Proof.
  unfold kinds. rewrite list_elem_of_fmap. split.
  - intros (r & -> & Hr) E. apply (not_elem_of_nil r). rewrite <- E. apply elem_of_filter'. split; [done|by apply bool_decide_eq_true_2].
  - intros H. destruct (List.filter _ _) as [|r l] eqn:E; [done|]. exists r. assert (r ∈ List.filter (ofKind t) rules) as Hr by (rewrite E; left).
    apply elem_of_filter' in Hr as [Hr Hk]. by apply bool_decide_eq_true_1 in Hk.
Qed.
Lemma reset_one t rules : (length (List.filter (ofKind t) rules) <= 1)%nat ->
  ResetSimpleRule rules t = map (resetIn [t]) rules ++ missing [t] rules.
Proof.
  intros Hl. unfold ResetSimpleRule, missing. cbn [flat_map]. rewrite app_nil_r. assert (forall l, List.filter (ofKind t) l = [] -> map (resetIn [t]) l = l) as Hid.
  { intros l H. rewrite <- (map_id l) at 2. apply map_ext_in. intros r Hr%list_elem_of_In. unfold resetIn. case_bool_decide as E; [|done].
    apply list_elem_of_singleton in E. exfalso. apply (not_elem_of_nil r). rewrite <- H. apply elem_of_filter'. split; [done|by apply bool_decide_eq_true_2]. }
  destruct (updateFirst _ _ rules) as [l|] eqn:E.
  - destruct (updateFirst_split _ _ _ _ E) as (pre & x & post & -> & -> & Hx & Hf & Hn).
    rewrite bool_decide_true by (apply find_kind; by rewrite Hf). rewrite app_nil_r, map_app. cbn [map].
    assert (List.filter (ofKind t) pre = []) as Hp by by apply filter_none. rewrite List.filter_app, Hp in Hl. cbn in Hl. rewrite Hx in Hl. cbn in Hl.
    rewrite (Hid pre) by done. rewrite (Hid post) by (destruct (List.filter _ post); [done|cbn in Hl; lia]).
    unfold resetIn. apply bool_decide_eq_true_1 in Hx. by rewrite bool_decide_true by by apply list_elem_of_singleton.
  - apply updateFirst_find in E. rewrite bool_decide_false by (rewrite <- find_kind; by intros []). f_equal. symmetry. apply Hid.
    destruct (List.filter (ofKind t) rules) eqn:Ef; [done|]. exfalso. assert (t ∈ kinds rules) as Hk by (apply kind_filter; by rewrite Ef). by apply find_kind in Hk.
Qed.

Lemma count_kind t rules : length (List.filter (ofKind t) rules) = length (List.filter (fun k => bool_decide (k = t)) (kinds rules)).
Proof. unfold kinds, ofKind. induction rules as [|r rules IH]; cbn; [done|]. case_bool_decide; cbn; by rewrite IH. Qed.
Lemma resetIn_kind ts r : ruleKind (resetIn ts r) = ruleKind r.
Proof. unfold resetIn. case_bool_decide; [apply reset_kind|done]. Qed.
Lemma missing_kinds a ts rules : ts ⊆ simpleTypes a -> kinds (missing ts rules) = List.filter (fun t => negb (bool_decide (t ∈ kinds rules))) ts.
Proof.
  unfold missing. induction ts as [|t ts IH]; intros Hs; [done|]. cbn [flat_map List.filter]. unfold kinds at 1. rewrite map_app. fold (kinds (missing ts rules)).
  unfold missing. unfold kinds in IH at 1. rewrite IH by set_solver. case_bool_decide; cbn [negb]; [done|].
  destruct (new_simple_some a t ltac:(set_solver)) as [c Hc]. rewrite Hc. cbn. by rewrite (new_simple_kind _ _ Hc).
Qed.

Lemma resetIn_cons t ts r : t ∉ ts -> resetIn ts (resetIn [t] r) = resetIn (t :: ts) r.
Proof.
  intros Hn. unfold resetIn at 1. rewrite resetIn_kind. unfold resetIn. destruct (decide (ruleKind r = t)) as [->|Hne].
  - rewrite (bool_decide_false (t ∈ ts)) by done. by rewrite !bool_decide_true by set_solver.
  - rewrite (bool_decide_false (ruleKind r ∈ [t])) by (by intros ?%list_elem_of_singleton). by rewrite (bool_decide_ext (ruleKind r ∈ ts) (ruleKind r ∈ t :: ts)) by set_solver.
Qed.
Lemma resetIn_missing t ts rules : t ∉ ts -> map (resetIn ts) (missing [t] rules) = missing [t] rules.
Proof.
  intros Hn. unfold missing. cbn [flat_map]. case_bool_decide; [done|]. destruct (NewSimpleRule t) as [c|] eqn:Ec; [|done]. cbn. f_equal.
  unfold resetIn. by rewrite (new_simple_kind _ _ Ec), bool_decide_false.
Qed.
Lemma missing_other t ts rules rules' : t ∉ ts -> (forall u, u ∈ kinds rules' <-> u ∈ kinds rules \/ u = t) -> missing ts rules' = missing ts rules.
Proof.
  intros Hn Hk. unfold missing. induction ts as [|u ts IH]; [done|]. cbn [flat_map]. rewrite not_elem_of_cons in Hn. rewrite IH by apply Hn. f_equal.
  by rewrite (bool_decide_ext (u ∈ kinds rules') (u ∈ kinds rules)) by (rewrite Hk; naive_solver).
Qed.

Lemma reset_types a ts : NoDup ts -> ts ⊆ simpleTypes a -> forall rules, (forall t, t ∈ ts -> (length (List.filter (ofKind t) rules) <= 1)%nat) ->
  fold_left ResetSimpleRule ts rules = map (resetIn ts) rules ++ missing ts rules.
Proof.
  induction 1 as [|t ts Hn Hd IH]; intros Hs rules Ho; cbn [fold_left].
  { cbn. rewrite app_nil_r. symmetry. rewrite <- (map_id rules) at 2. apply map_ext. intros r. unfold resetIn. by rewrite bool_decide_false by by apply not_elem_of_nil. }
  rewrite reset_one by (apply Ho; left). set (rules' := map _ rules ++ missing [t] rules).
  assert (kinds rules' = kinds rules ++ List.filter (fun u => negb (bool_decide (u ∈ kinds rules))) [t]) as Hk.
  { unfold rules'. unfold kinds at 1. rewrite map_app. fold (kinds (missing [t] rules)). rewrite (missing_kinds a) by set_solver. f_equal.
    unfold kinds. rewrite map_map. apply map_ext. intros r. apply resetIn_kind. }
  rewrite IH; [|set_solver|].
  - rewrite (missing_other t ts rules rules'); [|done|].
    + unfold rules'. rewrite map_app, map_map, <- app_assoc, resetIn_missing by done. f_equal.
      * apply map_ext. intros r. by apply resetIn_cons.
      * unfold missing. cbn [flat_map]. by rewrite app_nil_r.
    + intros u. rewrite Hk, elem_of_app, elem_of_filter', list_elem_of_singleton. destruct (decide (t ∈ kinds rules)); [naive_solver|].
      split; [naive_solver|]. intros [?| ->]; [by left|right]. by rewrite bool_decide_false.
  - intros u Hu. rewrite count_kind, Hk, List.filter_app, length_app, <- count_kind. cbn [List.filter].
    assert (t <> u) by (by intros ->). destruct (negb _); cbn [List.filter]; rewrite ?bool_decide_false by done; cbn [length]; specialize (Ho u ltac:(by right)); lia.
Qed.

(** The rules in turn: those before are as they were, those after still reset. *)
Lemma profile_fed a tail rules : forall i pre, Shown a (pre ++ rules) ->
  updateLines chk a i (flat_map (fun r => if listed a r then ruleLines r else []) rules) (pre ++ map (resetIn (simpleTypes a)) rules ++ tail) = (pre ++ rules ++ tail, []).
Proof.
  induction rules as [|r rules IH]; intros i pre Hsh; cbn [flat_map map app]; [done|].
  assert (r ∈ pre ++ r :: rules) as Hin by (apply elem_of_app; right; left).
  assert (forall j, updateLines chk a j (flat_map (fun r => if listed a r then ruleLines r else []) rules) (pre ++ r :: map (resetIn (simpleTypes a)) rules ++ tail) =
    (pre ++ r :: rules ++ tail, [])) as Hrest.
  { intros j. specialize (IH j (pre ++ [r])). rewrite <- !app_assoc in IH. cbn [app] in IH. by apply IH. }
  destruct (listed a r) eqn:El; unfold resetIn at 1; unfold listed in El; rewrite El; [|by rewrite app_nil_l].
  pose proof (sh_plain _ _ Hsh r Hin El) as Hp. apply bool_decide_eq_true_1 in El.
  pose proof (updateLines_app a (ruleLines r) i (flat_map (fun r => if listed a r then ruleLines r else []) rules)
    (pre ++ reset_simple_rule r :: map (resetIn (simpleTypes a)) rules ++ tail)) as Ha.
  unfold ruleLines at 1 in Ha. rewrite (rule_fed a r pre _ Hp) in Ha; [|..].
  - rewrite (pr_rest _ _ Hp) in Ha. unfold listed in Ha, Hrest |- *. rewrite Ha, Hrest. done.
  - apply Forall_forall. intros y Hy. unfold ofKind. apply bool_decide_eq_false_2. intros E.
    pose proof (sh_once _ _ Hsh _ El) as Ho. rewrite List.filter_app, length_app in Ho. cbn [List.filter] in Ho. unfold ofKind at 2 in Ho. rewrite bool_decide_true in Ho by done.
    destruct (List.filter (ofKind (ruleKind r)) pre) eqn:Ef; [|cbn in Ho; lia]. apply (not_elem_of_nil y). rewrite <- Ef. apply elem_of_filter'. split; [done|by apply bool_decide_eq_true_2].
  - vm_compute. repeat constructor; set_solver.
  - done.
  - apply reset_kind.
  - intros q Hq. unfold reset_simple_rule. destruct (new_simple_some a _ El) as [c Hc]. rewrite Hc. clear -Hq Hc.
    assert (forall q, q ∈ lineLists -> Forall (fun c => aget q.2 (set_disabled (disabled r) c) = []) get_simple_rules) as H.
    { intros q' Hq'. destruct q' as [p' b']. line_cases Hq'; repeat constructor. }
    specialize (H q Hq). rewrite Forall_forall in H. apply H. unfold NewSimpleRule in Hc. apply find_some in Hc as [Hc _]. by apply list_elem_of_In.
Qed.

Lemma new_empty a t c : t ∈ simpleTypes a -> NewSimpleRule t = Some c -> (ruleIsEmpty env c).1 = true.
Proof.
  intros Ht Hc. assert (forall u, u ∈ simpleTypes a -> match NewSimpleRule u with Some c => (ruleIsEmpty env c).1 = true | None => True end) as H.
  { apply Forall_forall. destruct a; repeat constructor; vm_compute; reflexivity. }
  specialize (H t Ht). by rewrite Hc in H.
Qed.
Lemma filter_shown a rules : (forall r, r ∈ rules -> ruleIsEmpty env r = (false, r)) -> FilterEmptyRules env (rules ++ missing (simpleTypes a) rules) = rules.
Proof.
  intros H. unfold FilterEmptyRules. rewrite omap_app. assert (omap (fun r => let '(e, r') := ruleIsEmpty env r in if e then None else Some r') (missing (simpleTypes a) rules) = []) as ->.
  - unfold missing. assert (forall ts, ts ⊆ simpleTypes a -> omap (fun r => let '(e, r') := ruleIsEmpty env r in if e then None else Some r')
      (flat_map (fun t => if bool_decide (t ∈ kinds rules) then [] else option_rule (NewSimpleRule t)) ts) = []) as Hm; [|by apply Hm].
    induction ts as [|t ts IH]; intros Hs; [done|]. cbn [flat_map]. rewrite omap_app, IH by set_solver. rewrite app_nil_r. case_bool_decide; [done|].
    destruct (NewSimpleRule t) as [c|] eqn:Ec; [|done]. cbn. pose proof (new_empty a t c ltac:(set_solver) Ec) as He. destruct (ruleIsEmpty env c). cbn in He. by subst.
  - rewrite app_nil_r. induction rules as [|r rules IH]; [done|]. cbn. rewrite H by left. f_equal. apply IH. intros x Hx. apply H. by right.
Qed.

Lemma lines_free a rules : Shown a rules -> Forall (free 10) (flat_map (fun r => if listed a r then ruleLines r else []) rules).
Proof.
  intros Hs. apply Forall_forall. intros l Hl%list_elem_of_In. apply in_flat_map in Hl as (r & Hr%list_elem_of_In & Hl). destruct (listed a r) eqn:El; [|done].
  unfold ruleLines in Hl. apply in_flat_map in Hl as ([p b] & Hq%list_elem_of_In & Hl). apply in_map_iff in Hl as (v & <- & Hv%list_elem_of_In).
  pose proof (pv_oneLine _ _ (pr_values _ _ (sh_plain _ _ Hs r Hr El) (p, b) v Hq Hv)) as Hf. cbn [fst snd] in *.
  apply free_app. split; [|constructor; [done|exact Hf]]. clear -Hq. line_cases Hq; repeat constructor; done.
Qed.

(** The text that shows the lists of an action, read back into a profile of which it
    shows everything, gives the same rules, and no line of it is refused. *)
Theorem simple_rules_roundtrip a rules : Shown a rules -> UpdateSimpleRules chk env (GetSimpleRules rules a) a rules = (rules, []).
Proof.
  intros Hs. unfold UpdateSimpleRules. rewrite (reset_types a) by (apply Hs || done || (destruct a; vm_compute; repeat constructor; set_solver)).
  unfold GetSimpleRules. pose proof (lines_free a rules Hs) as Hf. unfold listed in Hf. rewrite split_lines by done.
  pose proof (updateLines_app a (flat_map (fun r => if bool_decide (ruleKind r ∈ simpleTypes a) then ruleLines r else []) rules) 1 [[]]
    (map (resetIn (simpleTypes a)) rules ++ missing (simpleTypes a) rules)) as Ha.
  pose proof (profile_fed a (missing (simpleTypes a) rules) rules 1 [] Hs) as Hp. cbn [app] in Hp. unfold listed in Hp. rewrite Hp in Ha. rewrite Ha.
  cbn [updateLines]. change (trimmed []) with (@nil Z). unfold updateLine. cbn [isEmpty app]. by rewrite filter_shown by apply Hs.
Qed.
End Text.

(** ** Examples *)

Module TextSample.
Definition no (_ : qstring) : bool := false.
Definition chk : CheckEnv := MkCheckEnv no no no no no no no no no no (fun _ => false) (fun s => s).
Definition env : RuleEnv := MkRuleEnv (fun s => s) no (fun s => s) (fun _ => None).
Definition freshRule (t : ruleType) : RouteRule := default newRule (NewSimpleRule t).
Definition addresses : RouteRule := set_ip_cidr [qs "10.0.0.0/8"] (set_domain_suffix [qs "example.com"; qs "example.org"] (freshRule simpleAddressProxy)).
Definition processes : RouteRule := set_process_name [qs "my game.exe"] (set_disabled true (freshRule simpleProcessNameProxy)).
Definition hijack : RouteRule := set_protocol (qs "dns") (set_action (qs "hijack-dns") newRule).
Definition rules : list RouteRule := [processes; hijack; addresses].

Lemma plain_by_value a r : forallb (fun q => isEmpty (aget q.2 r) || bool_decide (typeOfPrefix q.1 a = ruleKind r)) lineLists = true ->
  forallb (fun q => bool_decide (NoDup (aget q.2 r)) && forallb (fun v => bool_decide (trimmed v = v) && negb (isEmpty v) && negb (contains 10 v) &&
    match CheckSimpleRule chk (lineText q.1 v) with Some (Error, _) => false | _ => true end) (aget q.2 r)) lineLists = true ->
  fold_left (fun x q => aset q.2 (aget q.2 r) x) lineLists (reset_simple_rule r) = r -> PlainRule chk a r.
Proof.
  rewrite !forallb_forall. intros Ho Hv Hr. split; [| | |exact Hr].
  - intros q Hq%list_elem_of_In Hne. specialize (Ho q Hq). destruct (aget q.2 r); [done|]. by apply bool_decide_eq_true_1 in Ho.
  - intros q Hq%list_elem_of_In. specialize (Hv q Hq). apply andb_true_iff in Hv as [Hd _]. by apply bool_decide_eq_true_1 in Hd.
  - intros q v Hq%list_elem_of_In Hin%list_elem_of_In. specialize (Hv q Hq). apply andb_true_iff in Hv as [_ Hv]. rewrite forallb_forall in Hv. specialize (Hv v Hin).
    rewrite !andb_true_iff in Hv. destruct Hv as [[[Ht Hne] Hf] Hk]. split.
    + by apply bool_decide_eq_true_1 in Ht.
    + by destruct v.
    + apply free_contains. by destruct (contains 10 v).
    + unfold storedValue. by destruct (lowered q.1).
    + by destruct (CheckSimpleRule chk (lineText q.1 v)) as [[[] ?]|].
Qed.
Lemma shown_sample : Shown chk env proxy rules.
Proof.
  split.
  - apply Forall_forall. repeat constructor; vm_compute; lia.
  - apply Forall_forall. repeat constructor; vm_compute; reflexivity.
  - intros r Hr Hl. unfold rules in Hr. rewrite !elem_of_cons in Hr. destruct Hr as [->|[->|[->|Hr]]]; [|done| |by apply not_elem_of_nil in Hr].
    + apply plain_by_value; vm_compute; reflexivity.
    + apply plain_by_value; vm_compute; reflexivity.
Qed.
Lemma simple_rules_roundtrip_witness : GetSimpleRules rules proxy = qs "processName:my game.exe" ++ [10] ++ qs "suffix:example.com" ++ [10] ++ qs "suffix:example.org" ++ [10] ++ qs "ip:10.0.0.0/8" ++ [10] /\
  UpdateSimpleRules chk env (GetSimpleRules rules proxy) proxy rules = (rules, []).
Proof. split; [vm_compute; reflexivity|]. exact (simple_rules_roundtrip chk env proxy rules shown_sample). Defined.

(** With two rules of a type only the first is rebuilt: a line that is deleted from the
    text stays in the second. *)
Definition twice : list RouteRule := [set_domain [qs "a.com"] (freshRule simpleAddressProxy); set_domain [qs "b.com"] (freshRule simpleAddressProxy)].
Example second_rule_kept : GetSimpleRules twice proxy = qs "domain:a.com" ++ [10] ++ qs "domain:b.com" ++ [10] /\
  UpdateSimpleRules chk env (qs "domain:a.com") proxy twice = (twice, []).
Proof. split; vm_compute; reflexivity. Qed.
End TextSample.
