(* ===== verification/SimpleTargets.v ===== *)
(** * Simple rules and their targets: one line in one list, and lines that cover others

    Switching a line on puts it into its target and out of every other, which is the
    statement the menus rely on, since the earlier of two rules would win. Which line is
    reported to cover a new one is stated exactly: a line of an earlier rule that, in
    lower case, matches every host that the new one matches. *)

From Stdlib Require Import Ascii String.
From S2P Require Import Prelude QtText Json Lists RouteRules SimpleRules SimpleLines.

Local Open Scope Z_scope.
#[local] Set Warnings "-register-all".

(** The targets the program uses: the list of an action, or a server. *)
Definition wellTarget (t : SimpleTarget) : Prop := serverID t = INVALID_ID \/ 0 <= serverID t /\ targetAction t = proxy.

Lemma type_injective raw a a' : get_rule_type raw a <> custom -> get_rule_type raw a = get_rule_type raw a' -> a = a'.
Proof. unfold get_rule_type. repeat case_match; try done; destruct a, a'; done. Qed.

(** ** Which target a rule belongs to *)

(** What of a rule decides its target. *)
Definition claims (raw : qstring) (t : SimpleTarget) (r : RouteRule) : Prop :=
  get_rule_type raw (targetAction t) <> custom /\
  if isServer t then ruleKind r = custom /\ outboundID r = serverID t else ruleKind r = get_rule_type raw (targetAction t).
Lemma claims_one raw t t' r : wellTarget t -> wellTarget t' -> claims raw t r -> claims raw t' r -> t = t'.
Proof.
  intros Ht Ht' [Hc H] [Hc' H']. destruct t as [a s], t' as [a' s']. unfold wellTarget, isServer in *. cbn [targetAction serverID] in *.
  destruct (Z.leb_spec 0 s), (Z.leb_spec 0 s').
  - destruct Ht as [->|[_ ->]], Ht' as [->|[_ ->]]; try (unfold INVALID_ID in *; lia). destruct H as [_ <-], H' as [_ <-]. done.
  - destruct H as [E _]. congruence.
  - destruct H' as [E _]. congruence.
  - assert (a = a') as -> by (eapply type_injective; [done|congruence]). destruct Ht as [->|[? _]], Ht' as [->|[? _]]; try lia. done.
Qed.
Lemma claims_frame raw t r r' : ruleKind r' = ruleKind r -> outboundID r' = outboundID r -> claims raw t r -> claims raw t r'.
Proof. intros Hk Ho [Hc H]. split; [done|]. by rewrite Hk, Ho. Qed.

Section Targets.
Context (chk : CheckEnv) (env : RuleEnv) (darwin : bool) (serverName : Z -> option qstring).

Lemma own_claims raw t r : ownRule darwin raw t r = true -> claims raw t r.
Proof.
  unfold ownRule, claims. case_bool_decide as Hc; [done|]. destruct (isServer t).
  - intros [Ho Hs]%andb_true_iff. split; [done|]. apply Z.eqb_eq in Ho. split; [|done]. unfold is_server_rule_for in Hs.
    destruct (ofKind custom r) eqn:Ek; [by apply bool_decide_eq_true_1 in Ek|done].
  - intros Hk%bool_decide_eq_true_1. done.
Qed.
Lemma own_listed raw t r : isServer t = false -> claims raw t r -> ownRule darwin raw t r = true.
Proof. intros Hs [Hc H]. unfold ownRule. rewrite Hs in *. rewrite bool_decide_false by done. by apply bool_decide_eq_true_2. Qed.

Lemma has_spec rules raw t : HasSimpleRule chk darwin rules raw t = true <->
  exists r, r ∈ rules /\ ownRule darwin (trimmed raw) t r = true /\ holds chk (trimmed raw) r = true.
Proof.
  unfold HasSimpleRule, rules_for. rewrite existsb_exists. setoid_rewrite filter_In.
  split; intros (r & H); exists r; rewrite list_elem_of_In in *; naive_solver.
Qed.
Lemma has_same rules rules' raw t : (forall r, ownRule darwin (trimmed raw) t r = true -> r ∈ rules' <-> r ∈ rules) ->
  HasSimpleRule chk darwin rules' raw t = HasSimpleRule chk darwin rules raw t.
Proof. intros H. apply Bool.eq_true_iff_eq. rewrite !has_spec. naive_solver. Qed.

(** ** Taking a line out *)

Definition without (a : Attr (list qstring)) (v : qstring) (r : RouteRule) : RouteRule :=
  aset a (List.filter (fun w => negb (bool_decide (w = v))) (aget a r)) r.

Lemma removeFrom_elem raw t a v p rules : (p, a) ∈ lineLists -> let '(rules', removed) := removeFrom env darwin raw t a v rules in
  (forall r, r ∈ rules' -> r ∈ rules /\ (ownRule darwin raw t r = true -> v ∉ aget a r) \/ claims raw t r /\ v ∉ aget a r) /\
  (forall r, r ∈ rules -> ownRule darwin raw t r = false -> r ∈ rules') /\
  (removed = true <-> exists r, r ∈ rules /\ ownRule darwin raw t r = true /\ v ∈ aget a r).
Proof.
  intros Hp. induction rules as [|r rules IH]; cbn [removeFrom].
  { split_and!; [by intros r ?%not_elem_of_nil|by intros r ?%not_elem_of_nil|]. split; [done|]. by intros (r & ?%not_elem_of_nil & _). }
  destruct (removeFrom env darwin raw t a v rules) as [rest removed]. destruct IH as (Hin & Hout & Hrm).
  destruct (ownRule darwin raw t r) eqn:Eo; cbn [andb].
  - destruct (bool_decide_reflect (v ∈ aget a r)) as [Hv|Hv].
    + fold (without a v r). assert (claims raw t (without a v r) /\ v ∉ aget a (without a v r)) as Hw.
      { split; [apply (claims_frame raw t r); [by eapply set_frame..|by apply own_claims]|]. unfold without. rewrite (get_set p) by done. rewrite elem_of_filter'.
        intros [_ H]. by rewrite bool_decide_true in H. }
      split_and!.
      * intros x Hx. destruct (if isServer t then _ else _); [|apply elem_of_cons in Hx as [->|Hx]; [by right|]];
          (destruct (Hin x Hx) as [[? ?]|?]; [left; split; [by right|done]|by right]).
      * intros x Hx Hn. apply elem_of_cons in Hx as [->|Hx]; [congruence|]. destruct (if isServer t then _ else _); [|right]; by apply Hout.
      * split; [|done]. intros _. exists r. split_and!; [left|done|done].
    + split_and!.
      * intros x Hx. apply elem_of_cons in Hx as [->|Hx]; [left; split; [left|done]|]. destruct (Hin x Hx) as [[? ?]|?]; [left; split; [by right|done]|by right].
      * intros x Hx Hn. apply elem_of_cons in Hx as [->|Hx]; [left|right; by apply Hout].
      * rewrite Hrm. split; intros (x & Hx & H); exists x; [by split; [right|]|]. apply elem_of_cons in Hx as [->|Hx]; [by destruct H|done].
  - split_and!.
    + intros x Hx. apply elem_of_cons in Hx as [->|Hx]; [left; split; [left|by rewrite Eo]|]. destruct (Hin x Hx) as [[? ?]|?]; [left; split; [by right|done]|by right].
    + intros x Hx Hn. apply elem_of_cons in Hx as [->|Hx]; [left|right; by apply Hout].
    + rewrite Hrm. split; intros (x & Hx & H); exists x; [by split; [right|]|]. apply elem_of_cons in Hx as [->|Hx]; [by destruct H; congruence|done].
Qed.

(** After it the target does not hold the line, and the others hold it as before. *)
Lemma remove_spec raw t rules : wellTarget t -> let '(rules', removed) := RemoveSimpleRule chk env darwin raw t rules in
  removed = HasSimpleRule chk darwin rules raw t /\ HasSimpleRule chk darwin rules' raw t = false /\
  (forall t', wellTarget t' -> t' <> t -> HasSimpleRule chk darwin rules' raw t' = HasSimpleRule chk darwin rules raw t').
Proof.
  intros Ht. unfold RemoveSimpleRule. destruct (simple_rule_values chk (trimmed raw)) as [[a v]|] eqn:E.
  - destruct (values_line _ _ _ _ proxy (trimmed_again raw) E) as (p & Hp & _ & _).
    assert (forall r, holds chk (trimmed raw) r = true <-> v ∈ aget a r) as Hh by (intros r; unfold holds; rewrite E; apply bool_decide_eq_true).
    pose proof (removeFrom_elem (trimmed raw) t a v p rules Hp) as H. destruct (removeFrom env darwin (trimmed raw) t a v rules) as [rules' removed]. destruct H as (Hin & Hout & Hrm).
    split_and!.
    + apply Bool.eq_true_iff_eq. rewrite Hrm, has_spec. by setoid_rewrite Hh.
    + apply not_true_iff_false. rewrite has_spec. intros (r & Hr & Ho & Hv%Hh). destruct (Hin r Hr) as [[_ H]|[_ H]]; [by apply H|done].
    + intros t' Ht' Hne. apply has_same. intros r Ho'. split.
      * intros Hr. destruct (Hin r Hr) as [[? _]|[Hc _]]; [done|]. exfalso. apply Hne. by apply (claims_one (trimmed raw) t' t r); [done|done|apply own_claims|].
      * intros Hr. apply Hout; [done|]. apply not_true_iff_false. intros Ho. apply Hne. apply (claims_one (trimmed raw) t' t r); (done || by apply own_claims).
  - assert (forall t', HasSimpleRule chk darwin rules raw t' = false) as Hf; [|by rewrite Hf].
    intros t'. apply not_true_iff_false. rewrite has_spec. intros (r & _ & _ & H). unfold holds in H. by rewrite E in H.
Qed.

(** ** Putting a line in *)

(** A closed decidable statement, by evaluation. *)
Ltac by_decision := apply (bool_decide_eq_true_1 _); vm_compute; reflexivity.
(** Whether an attribute is at its default is read from that attribute alone. *)
Lemma default_ext r r' attr : outboundID r' = outboundID r -> Forall (fun q => aget q.2 r' = aget q.2 r) boolAttrs -> Forall (fun q => aget q.2 r' = aget q.2 r) textAttrs ->
  (forall b, attrAt attr listAttrs = Some b -> aget b r' = aget b r) -> is_attribute_at_default r' attr = is_attribute_at_default r attr.
Proof.
  intros Ho Hb Ht Hl. rewrite Forall_forall in Hb. rewrite Forall_forall in Ht. unfold is_attribute_at_default. case_bool_decide as Ha; [done|].
  assert (get_current_value_string attr r' = get_current_value_string attr r) as Hg.
  { unfold get_current_value_string. rewrite bool_decide_false by done. rewrite Ho. destruct (attrAt attr textAttrs) as [b|] eqn:E; [by rewrite (Ht (attr, b) (attrAt_elem _ _ _ E) : aget b r' = aget b r)|].
    destruct (attrAt attr listAttrs) as [b|] eqn:El; [|done]. by rewrite (Hl b). }
  rewrite Ho, Hg. assert (override_address r' = override_address r /\ override_port r' = override_port r /\ tls_spoof r' = tls_spoof r) as (-> & -> & ->).
  { split_and!; [apply (Ht (qs "override_address", MkAttr override_address set_override_address))|apply (Ht (qs "override_port", MkAttr override_port set_override_port))|
      apply (Ht (qs "tls_spoof", MkAttr tls_spoof set_tls_spoof))]; unfold textAttrs; repeat (first [left|right]). }
  destruct (attrAt attr boolAttrs) as [b|] eqn:E; [by rewrite (Hb (attr, b) (attrAt_elem _ _ _ E) : aget b r' = aget b r)|done].
Qed.
Lemma set_others p a l r : (p, a) ∈ lineLists ->
  Forall (fun q => aget q.2 (aset a l r) = aget q.2 r) boolAttrs /\ Forall (fun q => aget q.2 (aset a l r) = aget q.2 r) textAttrs /\
  Forall (fun q => q.1 ∈ ownAttrs (typeOfPrefix p proxy) \/ aget q.2 (aset a l r) = aget q.2 r) listAttrs.
Proof.
  intros Hp. line_cases Hp; (split_and!; [repeat constructor..|]);
    (repeat (apply Forall_cons_2; [first [left; by_decision|right; reflexivity]|]); apply Forall_nil_2).
Qed.
(** Only the attributes of its own kind see a list change. *)
Lemma default_elsewhere p a l r attr : (p, a) ∈ lineLists -> attr ∉ ownAttrs (typeOfPrefix p proxy) ->
  is_attribute_at_default (aset a l r) attr = is_attribute_at_default r attr.
Proof.
  intros Hp Ha. destruct (set_others p a l r Hp) as (Hb & Ht & Hl). destruct (set_frame p a l r Hp) as (_ & _ & Ho & _).
  apply default_ext; [done..|]. intros b Hb'%attrAt_elem. rewrite Forall_forall in Hl. by destruct (Hl _ Hb').
Qed.
Lemma filled_matches p a v r : (p, a) ∈ lineLists -> v ∈ aget a r -> trimmed v <> [] -> has_match_conditions darwin r = true.
Proof.
  intros Hp Hv Hne. unfold has_match_conditions. apply orb_true_iff. right. apply existsb_exists.
  assert (isValidStrArray (aget a r) = true) as Hs. { apply existsb_exists. exists v. split; [by apply list_elem_of_In|]. by destruct (trimmed v). }
  assert (exists attr, attr ∈ get_attributes darwin /\ is_match_attribute attr = true /\ isTruFalse attr = false /\ get_current_value_string attr r = aget a r) as (attr & Ha & Hm & Ht & Hg).
  { unfold get_attributes. setoid_rewrite elem_of_app. setoid_rewrite elem_of_app.
    line_cases Hp; [exists (qs "domain")|exists (qs "domain_suffix")|exists (qs "domain_keyword")|exists (qs "domain_regex")|exists (qs "rule_set")|exists (qs "ip_cidr")|exists (qs "process_name")|exists (qs "process_path")];
      (split_and!; [|reflexivity|reflexivity|reflexivity]); first [left; by_decision|right; right; by_decision]. }
  exists attr. split; [by apply list_elem_of_In|]. by rewrite Hm, Ht, Hg, Hs.
Qed.

(** A rule of a server for lines of the kind of [raw], but for its conditions. *)
Definition serverShape (raw : qstring) (r : RouteRule) : Prop :=
  ruleKind r = custom /\ disabled r = false /\ action r = qs "route" /\ 0 <= outboundID r /\ get_rule_type raw proxy <> custom /\
  forall attr, attr ∈ get_attributes darwin -> attr = qs "outbound" \/ attr ∈ ownAttrs (get_rule_type raw proxy) \/ is_attribute_at_default r attr = true.
Lemma server_shape raw r : is_server_rule_for darwin r raw = true <-> serverShape raw r /\ has_match_conditions darwin r = true.
Proof.
  unfold is_server_rule_for, serverShape, ofKind. destruct (bool_decide_reflect (ruleKind r = custom)) as [Hk|Hk]; cbn [negb orb]; [|split; [done|by intros [[? _] _]]].
  destruct (disabled r); cbn [orb]; [split; [done|by intros [(_ & ? & _) _]]|].
  destruct (bool_decide_reflect (action r = qs "route")) as [Ha|Ha]; cbn [negb orb]; [|split; [done|by intros [(_ & _ & ? & _) _]]].
  destruct (Z.ltb_spec (outboundID r) 0); cbn [orb]; [split; [done|]; intros [(_ & _ & _ & ? & _) _]; lia|].
  destruct (has_match_conditions darwin r); cbn [negb]; [|split; [done|by intros [_ ?]]].
  destruct (bool_decide_reflect (get_rule_type raw proxy = custom)) as [Hc|Hc]; [split; [done|by intros [(_ & _ & _ & _ & ? & _) _]]|].
  rewrite forallb_forall. split.
  - intros Hall. split_and!; try done. intros attr Hin%list_elem_of_In. specialize (Hall attr Hin). rewrite !orb_true_iff, !bool_decide_eq_true in Hall. destruct Hall as [[?|?]|?]; auto.
  - intros [(_ & _ & _ & _ & _ & Hall) _] attr Hin%list_elem_of_In. rewrite !orb_true_iff, !bool_decide_eq_true. destruct (Hall attr Hin) as [?|[?|?]]; auto.
Qed.
Lemma shape_added raw p a v r : (p, a) ∈ lineLists -> get_rule_type raw proxy = typeOfPrefix p proxy -> serverShape raw r -> serverShape raw (addValue a v r).
Proof.
  intros Hp Ht (Hk & Hd & Ha & Ho & Hc & H). unfold serverShape. destruct (add_frame p a v r Hp) as (-> & -> & -> & -> & _). split_and!; try done.
  intros attr Hin. destruct (H attr Hin) as [?|[?|Hdef]]; [by left|by right; left|]. right. destruct (decide (attr ∈ ownAttrs (get_rule_type raw proxy))) as [?|Hno]; [by left|right].
  unfold addValue. case_bool_decide; [done|]. rewrite Ht in Hno. by rewrite (default_elsewhere p a).
Qed.
Lemma shape_new raw n id : get_rule_type raw proxy <> custom -> 0 <= id -> serverShape raw (set_ruleName n (set_outboundID id newRule)).
Proof.
  intros Hc Hid. split_and!; try done. intros attr Hin. apply list_elem_of_In in Hin. revert attr Hin.
  assert (forallb (fun attr => bool_decide (attr = qs "outbound") || is_attribute_at_default (set_ruleName n (set_outboundID id newRule)) attr) (get_attributes darwin) = true) as H.
  { destruct darwin; vm_compute; reflexivity. }
  rewrite forallb_forall in H. intros attr Hin. specialize (H attr Hin). rewrite orb_true_iff, bool_decide_eq_true in H. destruct H; auto.
Qed.

(** QString::toLower leaves text where there was some. *)
Context (lower_text : forall s, trimmed s <> [] -> trimmed (lower chk s) <> []).

Lemma stored_text raw a v : simple_rule_values chk raw = Some (a, v) -> trimmed v <> [].
Proof.
  intros (_ & Hne & _ & ->)%values_spec. assert (trimmed (afterColon raw) <> []) as Ht by (unfold afterColon in *; by rewrite trimmed_again).
  unfold storedValue. destruct (lowered _); [by apply lower_text|done].
Qed.

(** A rule that could be the target's holds the line once it is added, and is its. *)
Lemma added_owned raw t r a v : trimmed raw = raw -> wellTarget t -> simple_rule_values chk raw = Some (a, v) ->
  (if isServer t then serverShape raw r /\ outboundID r = serverID t else ruleKind r = get_rule_type raw (targetAction t)) ->
  ownRule darwin raw t (addValue a v r) = true /\ holds chk raw (addValue a v r) = true.
Proof.
  intros Ht Hw Hv Hr. split; [|by apply holds_added]. destruct (values_line _ _ _ _ (targetAction t) Ht Hv) as (p & Hp & Hk & _).
  destruct (add_frame p a v r Hp) as (Hk' & _ & Ho' & _). unfold ownRule. rewrite bool_decide_false by (rewrite Hk; by eapply type_custom).
  destruct (isServer t) eqn:Es.
  - destruct Hr as [Hs Ho]. rewrite Ho', Ho, Z.eqb_refl. cbn [andb]. assert (targetAction t = proxy) as E.
    { destruct Hw as [E|[_ E]]; [|done]. unfold isServer in Es. rewrite E in Es. done. }
    rewrite E in Hk. apply server_shape. split; [by eapply shape_added|]. eapply filled_matches; [done|by eapply add_elem|by eapply stored_text].
  - apply bool_decide_eq_true_2. by rewrite Hk'.
Qed.

Lemma elem_mid {A} (pre post : list A) x y z : y ∈ pre ++ x :: post -> y = x \/ y ∈ pre ++ z :: post.
Proof. rewrite !elem_of_app, !elem_of_cons. naive_solver. Qed.

(** Adding gives the target the line, and the other targets hold it as before. *)
Lemma append_spec raw t rules rules' : wellTarget t -> AppendSimpleRule chk darwin serverName raw t rules = inr rules' ->
  HasSimpleRule chk darwin rules' raw t = true /\
  (forall t', wellTarget t' -> t' <> t -> HasSimpleRule chk darwin rules' raw t' = HasSimpleRule chk darwin rules raw t').
Proof.
  intros Hw. unfold AppendSimpleRule. pose proof (trimmed_again raw) as Ht. set (s := trimmed raw) in *. destruct (isEmpty s); [done|].
  case_bool_decide as Hc; [done|]. destruct (List.find (ownRule darwin s t) rules) as [r|] eqn:Ef.
  - destruct (add_simple_rule chk s r _) as [|r'] eqn:Ea; [done|]. apply add_taken in Ea as (a & v & Hv & ->).
    destruct (find_split _ _ _ Ef) as (pre & post & -> & Hr & Hn). rewrite updateFirst_at by done. intros [= <-].
    pose proof (own_claims _ _ _ Hr) as Hcl. destruct (values_line _ _ _ _ proxy Ht Hv) as (p & Hp & _ & _). destruct (add_frame p a v r Hp) as (Hk & _ & Ho & _).
    assert (ownRule darwin s t (addValue a v r) = true /\ holds chk s (addValue a v r) = true) as [Hown Hh].
    { apply added_owned; [done..|]. destruct Hcl as [_ Hcl]. destruct (isServer t) eqn:Es; [|done]. split; [|apply Hcl].
      unfold ownRule in Hr. rewrite bool_decide_false, Es in Hr by done. apply andb_true_iff in Hr as [_ Hr]. by apply server_shape in Hr as [? _]. }
    split; [apply has_spec; exists (addValue a v r); split; [apply elem_of_app; right; left|done]|].
    intros t' Hw' Hne. apply has_same. intros x Hx. apply own_claims in Hx. fold s in Hx.
    split; intros Hin.
    + apply (elem_mid _ _ _ _ r) in Hin as [->|Hin]; [|done]. exfalso. apply Hne. apply (claims_one s t' t (addValue a v r)); [done..|]. by eapply claims_frame.
    + apply (elem_mid _ _ _ _ (addValue a v r)) in Hin as [->|Hin]; [|done]. exfalso. apply Hne. by apply (claims_one s t' t r).
  - destruct (newRuleFor serverName s t rules) as [r|] eqn:En; [|done]. destruct (add_simple_rule chk s r _) as [|r'] eqn:Ea; [done|].
    apply add_taken in Ea as (a & v & Hv & ->). intros [= <-]. destruct (values_line _ _ _ _ proxy Ht Hv) as (p & Hp & Hk & _).
    assert (if isServer t then serverShape s r /\ outboundID r = serverID t else ruleKind r = get_rule_type s (targetAction t)) as Hsh.
    { unfold newRuleFor in En. destruct (isServer t) eqn:Es; [|by apply new_simple_kind in En]. destruct (serverName (serverID t)); [|done]. injection En as <-.
      split; [|done]. apply shape_new; [rewrite Hk; by eapply type_custom|by apply Z.leb_le in Es]. }
    destruct (added_owned s t r a v Ht Hw Hv Hsh) as [Hown Hh].
    split; [apply has_spec; exists (addValue a v r); split; [apply elem_of_app; right; left|done]|].
    intros t' Hw' Hne. apply has_same. intros x Hx. rewrite elem_of_app, list_elem_of_singleton. split; [|by left]. intros [?| ->]; [done|].
    exfalso. apply Hne. apply (claims_one s t' t (addValue a v r)); [done..|by apply own_claims|by apply own_claims].
Qed.

(** ** Switching a line *)

Lemma servers_spec rules raw s : s ∈ ServersHoldingSimpleRule chk darwin rules raw <-> 0 <= s /\ HasSimpleRule chk darwin rules raw (MkTarget proxy s) = true.
Proof.
  unfold ServersHoldingSimpleRule. assert (forall rules servers, s ∈ serversHolding chk darwin (trimmed raw) rules servers <->
    s ∈ servers \/ exists r, r ∈ rules /\ outboundID r = s /\ is_server_rule_for darwin r (trimmed raw) = true /\ holds chk (trimmed raw) r = true) as H.
  { clear rules. induction rules as [|r rules IH]; intros servers; cbn [serversHolding].
    - split; [by left|]. intros [?|(r & ?%not_elem_of_nil & _)]; done.
    - rewrite IH. setoid_rewrite elem_of_cons. case_bool_decide as E; cbn [orb].
      + split; [intros [?|(x & ? & ?)]; [by left|right; exists x; auto]|]. intros [?|(x & [->|?] & Hx & ?)]; [by left|left; by subst|right; by exists x].
      + destruct (is_server_rule_for darwin r (trimmed raw)) eqn:Es; cbn [negb].
        * destruct (holds chk (trimmed raw) r) eqn:Eh.
          -- rewrite elem_of_app, list_elem_of_singleton. split.
             ++ intros [[?| ->]|(x & ? & ?)]; [by left|right; exists r; auto|right; exists x; auto].
             ++ intros [?|(x & [->|?] & <- & ?)]; [by left; left|left; by right|right; by exists x].
          -- split; [intros [?|(x & ? & ?)]; [by left|right; exists x; auto]|]. intros [?|(x & [->|?] & Hx & Hs & Hh)]; [by left|congruence|right; by exists x].
        * split; [intros [?|(x & ? & ?)]; [by left|right; exists x; auto]|]. intros [?|(x & [->|?] & Hx & Hs & Hh)]; [by left|congruence|right; by exists x]. }
  rewrite H, has_spec. unfold ownRule, isServer. cbn [targetAction serverID]. split.
  - intros [?%not_elem_of_nil|(r & Hr & <- & Hs & Hh)]; [done|]. pose proof (proj1 (proj1 (server_shape _ _) Hs)) as (_ & _ & _ & Ho & Hc & _). split; [done|].
    exists r. split; [done|]. rewrite bool_decide_false by done. destruct (Z.leb_spec 0 (outboundID r)); [|lia]. by rewrite Z.eqb_refl, Hs.
  - intros [Hs (r & Hr & Ho & Hh)]. right. exists r. case_bool_decide; [done|]. destruct (Z.leb_spec 0 s); [|lia]. apply andb_true_iff in Ho as [?%Z.eqb_eq ?]. done.
Qed.

Lemma pull_others raw target : wellTarget target -> forall others rules moved, Forall wellTarget others ->
  let '(rules', moved') := fold_left (pullOut chk env darwin raw target) others (rules, moved) in
  (forall t, wellTarget t -> HasSimpleRule chk darwin rules' raw t = true <-> HasSimpleRule chk darwin rules raw t = true /\ (t = target \/ t ∉ others)) /\
  (moved' = true <-> moved = true \/ exists t, t ∈ others /\ t <> target /\ HasSimpleRule chk darwin rules raw t = true).
Proof.
  intros Hw. induction others as [|o others IH]; intros rules moved Ho; cbn [fold_left].
  { split; [intros t Ht; split; [|by intros [? _]]; intros H; split; [done|right; apply not_elem_of_nil]|]. split; [by left|]. intros [?|(t & ?%not_elem_of_nil & _)]; done. }
  apply Forall_cons in Ho as [Hwo Ho]. unfold pullOut at 2. cbn [fst snd]. case_bool_decide as Eo.
  - subst o. specialize (IH rules moved Ho). destruct (fold_left _ others _) as [rules' moved']. destruct IH as [IHh IHm]. split.
    + intros t Ht. rewrite IHh, not_elem_of_cons by done. split; intros [H [?|?]]; (split; [done|]); auto. destruct (decide (t = target)); auto. right. naive_solver.
    + rewrite IHm. setoid_rewrite elem_of_cons. split; (intros [?|(t & Ht & Hne & Hh)]; [by left|right; exists t]); [auto|]. by destruct Ht.
  - pose proof (remove_spec raw o rules Hwo) as Hr. destruct (RemoveSimpleRule chk env darwin raw o rules) as [rules1 removed]. destruct Hr as (-> & Hgone & Hsame).
    specialize (IH rules1 (moved || HasSimpleRule chk darwin rules raw o) Ho). destruct (fold_left _ others _) as [rules' moved']. destruct IH as [IHh IHm]. split.
    + intros t Ht. rewrite IHh, not_elem_of_cons by done. destruct (decide (t = o)) as [->|Hne].
      * rewrite Hgone. split; [by intros [? _]|]. by intros [_ [?|[? _]]].
      * rewrite Hsame by done. naive_solver.
    + rewrite IHm, orb_true_iff. setoid_rewrite elem_of_cons. split.
      * intros [[?|Hh]|(t & Ht & Hne & Hh)]; [by left|right; exists o; auto|]. right. exists t. split; [by right|]. split; [done|].
        destruct (decide (t = o)) as [->|Hno]; [congruence|]. rewrite Forall_forall in Ho. by rewrite Hsame in Hh by auto.
      * intros [?|(t & [->|Ht] & Hne & Hh)]; [by left; left|left; by right|]. destruct (decide (t = o)) as [->|Hno]; [left; by right|]. right. exists t. split_and!; try done.
        rewrite Forall_forall in Ho. by rewrite Hsame by auto.
Qed.

(** The targets a line is pulled out of are all that hold it. *)
Definition allTargets (rules : list RouteRule) (raw : qstring) : list SimpleTarget :=
  map listOf [bypass; proxy; block; warpBypass] ++ map (MkTarget proxy) (ServersHoldingSimpleRule chk darwin rules raw).
Lemma targets_well rules raw : Forall wellTarget (allTargets rules raw).
Proof.
  apply Forall_app. split; [repeat constructor; by left|]. apply Forall_forall. intros t Ht. apply list_elem_of_fmap in Ht as (s & -> & Hs).
  apply servers_spec in Hs as [? _]. by right.
Qed.
Lemma targets_complete rules raw t : wellTarget t -> HasSimpleRule chk darwin rules raw t = true -> t ∈ allTargets rules raw.
Proof.
  intros Hw Hh. unfold allTargets. apply elem_of_app. destruct t as [a s]. destruct Hw as [E|[Hs E]]; cbn [serverID targetAction] in E.
  - left. rewrite E. apply (list_elem_of_fmap_2 listOf). destruct a; set_solver.
  - right. cbn [serverID] in Hs. rewrite E in *. apply (list_elem_of_fmap_2 (MkTarget proxy)). by apply servers_spec.
Qed.

(** C8: a line that is switched on is held by its target and by no other list or server
    of the profile, and is said to have moved exactly when another held it; switched
    off, the target holds it no more and the others are as before. *)
Theorem toggle_exclusive blocked saved raw target rules : wellTarget target ->
  let '(res, rules') := toggleRule chk env darwin serverName blocked saved raw target rules in
  match res with
  | Failed => saved = false \/ rules' = rules
  | Removed => HasSimpleRule chk darwin rules raw target = true /\ HasSimpleRule chk darwin rules' raw target = false /\
      (forall t, wellTarget t -> t <> target -> HasSimpleRule chk darwin rules' raw t = HasSimpleRule chk darwin rules raw t)
  | Added | Moved => HasSimpleRule chk darwin rules raw target = false /\
      (forall t, wellTarget t -> HasSimpleRule chk darwin rules' raw t = true <-> t = target) /\
      (res = Moved <-> exists t, wellTarget t /\ HasSimpleRule chk darwin rules raw t = true)
  end.
Proof.
  intros Hw. unfold toggleRule. destruct blocked; [by right|]. destruct (HasSimpleRule chk darwin rules raw target) eqn:Eh.
  { pose proof (remove_spec raw target rules Hw) as Hr. destruct (RemoveSimpleRule chk env darwin raw target rules) as [rules' removed]. destruct saved; [|by left].
    destruct Hr as (_ & Hg & Hs). done. }
  destruct (AppendSimpleRule chk darwin serverName raw target rules) as [|rules1] eqn:Ea; [by right|].
  destruct (append_spec raw target rules rules1 Hw Ea) as [Hon Hsame]. fold (allTargets rules1 raw).
  pose proof (pull_others raw target Hw (allTargets rules1 raw) rules1 false (targets_well rules1 raw)) as Hp.
  destruct (fold_left _ (allTargets rules1 raw) _) as [rules' moved]. destruct Hp as [Hh Hm]. destruct saved; [|by destruct moved; left].
  assert (forall t, wellTarget t -> HasSimpleRule chk darwin rules' raw t = true <-> t = target) as Hex.
  { intros t Ht. rewrite Hh by done. split; [|by intros ->; split; [|left]]. intros [H [?|Hno]]; [done|]. by destruct Hno; apply targets_complete. }
  assert (moved = true <-> exists t, wellTarget t /\ HasSimpleRule chk darwin rules raw t = true) as Hmv.
  { rewrite Hm. split.
    - intros [?|(t & Ht & Hne & H)]; [done|]. exists t. pose proof (targets_well rules1 raw) as Hf. rewrite Forall_forall in Hf. specialize (Hf t Ht). split; [done|]. by rewrite <- Hsame.
    - intros (t & Ht & H). right. exists t. assert (t <> target) by congruence. rewrite <- Hsame in H by done. split_and!; try done. by apply targets_complete. }
  destruct moved; (split_and!; [done|done|]); [by rewrite <- Hmv|]. rewrite <- Hmv. split; done.
Qed.

(** ** Lines that cover others *)

(** What the core matches: a keyword inside the host, a suffix as whole labels. *)
Definition matchesSuffix (s host : qstring) : Prop := host = s \/ exists a, host = a ++ ch "." :: s.
Definition matchesKeyword (k host : qstring) : Prop := exists a b, host = a ++ k ++ b.
Definition lineMatches (prefix value host : qstring) : Prop := if bool_decide (prefix = qs "suffix") then matchesSuffix value host else matchesKeyword value host.
(** A keyword or suffix that a rule holds. *)
Definition storedAs (r : RouteRule) (kind w : qstring) : Prop :=
  kind = qs "keyword" /\ w ∈ domain_keyword r \/ kind = qs "suffix" /\ w ∈ domain_suffix r.
(** The second line matches every host that the first one matches. *)
Definition catchesAll (line line' : qstring * qstring) : Prop := forall host, lineMatches line.1 line.2 host -> lineMatches line'.1 line'.2 host.

Lemma endsWithStr_parts p s : endsWithStr p s = true -> exists a, s = a ++ p.
Proof.
  unfold endsWithStr. intros H%startsWith_parts. exists (rev (drop (length (rev p)) (rev s))).
  apply (f_equal (@rev Z)) in H. by rewrite rev_app_distr, !rev_involutive in H.
Qed.
Lemma keyword_inside k value prefix host : (exists a b, value = a ++ k ++ b) -> lineMatches prefix value host -> matchesKeyword k host.
Proof.
  intros (a & b & ->) H. unfold lineMatches, matchesSuffix, matchesKeyword in *. case_bool_decide; [destruct H as [->|(c & ->)]; [by exists a, b|]|].
  - exists (c ++ ch "." :: a), b. by rewrite <- !app_assoc.
  - destruct H as (c & d & ->). exists (c ++ a), (b ++ d). by rewrite <- !app_assoc.
Qed.

Lemma endsWithStr_app p a : endsWithStr p (a ++ p) = true.
Proof. unfold endsWithStr. rewrite rev_app_distr. apply startsWith_app. Qed.

(** The line reported is another one, and catches every host of this one. *)
Lemma covering_line prefix value r l : prefix ∈ [qs "suffix"; qs "keyword"] -> coveringLine chk prefix value r = Some l ->
  exists kind w, storedAs r kind w /\ l = kind ++ ch ":" :: w /\ (kind, lower chk w) <> (prefix, value) /\ catchesAll (prefix, value) (kind, lower chk w).
Proof.
  intros Hp. unfold coveringLine. destruct (List.find _ (domain_keyword r)) as [k|] eqn:Ek.
  - intros [= <-]. apply find_some in Ek as [Hk Hc]. apply list_elem_of_In in Hk. exists (qs "keyword"), k. unfold coveringKeyword in Hc.
    apply andb_true_iff in Hc as [[_ Hc]%andb_true_iff Hn]. split; [by left|]. split; [done|]. split.
    + intros [= <- E]. by rewrite E, !bool_decide_true in Hn.
    + intros host. apply containsStr_parts in Hc. by apply keyword_inside.
  - case_bool_decide as Ep; [|done]. cbn [negb]. destruct (List.find _ (domain_suffix r)) as [w|] eqn:Es; [|done]. intros [= <-].
    apply find_some in Es as [Hs Hc]. apply list_elem_of_In in Hs. exists (qs "suffix"), w. unfold coveringSuffix in Hc.
    apply andb_true_iff in Hc as [_ Hc]. apply endsWithStr_parts in Hc as (a & ->). split; [by right|]. split; [done|]. split.
    + intros [= _ E]. apply (f_equal length) in E. rewrite length_app in E. cbn in E. lia.
    + intros host. rewrite Ep. unfold lineMatches. cbn [fst snd]. rewrite !bool_decide_true by done. intros [->|(c & ->)]; right; [by exists a|].
      exists (c ++ ch "." :: a). by rewrite <- app_assoc.
Qed.

Lemma matches_itself prefix value : lineMatches prefix value value.
Proof. unfold lineMatches. case_bool_decide; [by left|]. exists [], []. by rewrite app_nil_r. Qed.

(** A suffix never catches all hosts that hold a keyword. *)
Lemma suffix_not_all value w : w <> [] -> exists host, matchesKeyword value host /\ ~ matchesSuffix w host.
Proof.
  intros Hw. destruct (last w) as [c|] eqn:El; [|by apply last_None in El]. exists (value ++ [c + 1]). split; [by exists [], [c + 1]|].
  assert (Hlast : forall a, last (a ++ w) = Some c) by (intros a; by rewrite last_app, El).
  intros [E|(a & E)]; apply (f_equal last) in E; rewrite last_snoc in E.
  - rewrite El in E. injection E as E. lia.
  - rewrite (app_assoc a [ch "."] w : a ++ ch "." :: w = _), Hlast in E. injection E as E. lia.
Qed.

Lemma no_covering_line prefix value r kind w : prefix ∈ [qs "suffix"; qs "keyword"] -> coveringLine chk prefix value r = None ->
  storedAs r kind w -> lower chk w <> [] -> catchesAll (prefix, value) (kind, lower chk w) -> (kind, lower chk w) = (prefix, value).
Proof.
  clear lower_text.
  intros Hp Hnone Hs Hne Hall. unfold coveringLine in Hnone. destruct (List.find _ (domain_keyword r)) eqn:Ek; [done|].
  assert (He : isEmpty (lower chk w) = false) by (by destruct (lower chk w)).
  destruct Hs as [[-> Hw]|[-> Hw]]; apply list_elem_of_In in Hw.
  - pose proof (find_none _ _ Ek w Hw) as Hf. unfold coveringKeyword in Hf. rewrite He in Hf. cbn [negb andb] in Hf.
    destruct (Hall value (matches_itself prefix value)) as (a & b & Hv). cbn [fst snd] in Hv.
    assert (containsStr (lower chk w) value = true) as Hc by (apply containsStr_parts; by exists a, b). rewrite Hc in Hf. cbn [andb] in Hf.
    apply negb_false_iff, andb_true_iff in Hf as [->%bool_decide_eq_true ->%bool_decide_eq_true]. done.
  - case_bool_decide as Ep; cbn [negb] in Hnone.
    + destruct (List.find _ (domain_suffix r)) eqn:Es; [done|]. pose proof (find_none _ _ Es w Hw) as Hf. unfold coveringSuffix in Hf. rewrite He in Hf. cbn [negb andb] in Hf.
      specialize (Hall value (matches_itself prefix value)). unfold lineMatches in Hall. cbn [fst snd] in Hall. rewrite bool_decide_true in Hall by done.
      destruct Hall as [->|(a & ->)]; [by rewrite Ep|]. by rewrite endsWithStr_app in Hf.
    + assert (prefix = qs "keyword") as -> by set_solver. destruct (suffix_not_all value (lower chk w) Hne) as (host & Hk & Hns). destruct Hns.
      specialize (Hall host). unfold lineMatches in Hall. cbn [fst snd] in Hall. rewrite bool_decide_false, bool_decide_true in Hall by done. auto.
Qed.

(** An enabled rule of another target, before any of the target's own. *)
Definition earlierOther (raw : qstring) (target other : SimpleTarget) (rules : list RouteRule) (r : RouteRule) : Prop :=
  exists pre post, rules = pre ++ r :: post /\ Forall (fun x => ownRule darwin raw target x = false) (pre ++ [r]) /\
    addressTarget darwin raw r = Some other /\ other <> target /\ disabled r = false.

Lemma earlier_next raw target other r x rules : ownRule darwin raw target r = false -> earlierOther raw target other rules x -> earlierOther raw target other (r :: rules) x.
Proof. intros Ho (pre & post & -> & Hf & H). exists (r :: pre), post. split; [done|]. split; [by constructor|done]. Qed.
Lemma earlier_cons raw target other r x rules : earlierOther raw target other (r :: rules) x -> ownRule darwin raw target r = false /\
  (x = r /\ addressTarget darwin raw r = Some other /\ other <> target /\ disabled r = false \/ earlierOther raw target other rules x).
Proof.
  intros ([|y pre] & post & E & Hf & H); injection E as -> ->; apply Forall_cons in Hf as [Hr Hf]; (split; [done|]); [by left|right]. by exists pre, post.
Qed.

Lemma covering_in raw prefix value target rules : prefix ∈ [qs "suffix"; qs "keyword"] ->
  match coveringIn chk darwin raw prefix value target rules with
  | Some (l, other) => exists r kind w, earlierOther raw target other rules r /\ storedAs r kind w /\ l = kind ++ ch ":" :: w /\
      (kind, lower chk w) <> (prefix, value) /\ catchesAll (prefix, value) (kind, lower chk w)
  | None => forall other r kind w, earlierOther raw target other rules r -> storedAs r kind w -> lower chk w <> [] ->
      catchesAll (prefix, value) (kind, lower chk w) -> (kind, lower chk w) = (prefix, value)
  end.
Proof.
  clear lower_text.
  intros Hp. induction rules as [|r rules IH]; cbn [coveringIn]; [by intros other r kind w (pre & post & E & _); destruct pre|].
  destruct (ownRule darwin raw target r) eqn:Eo; [intros other x kind w Hx; apply earlier_cons in Hx as [? _]; congruence|].
  assert (Hskip : (forall other, addressTarget darwin raw r = Some other -> other <> target -> disabled r = false -> coveringLine chk prefix value r = None) ->
    match coveringIn chk darwin raw prefix value target rules with
    | Some (l, other) => exists r0 kind w, earlierOther raw target other (r :: rules) r0 /\ storedAs r0 kind w /\ l = kind ++ ch ":" :: w /\
        (kind, lower chk w) <> (prefix, value) /\ catchesAll (prefix, value) (kind, lower chk w)
    | None => forall other r0 kind w, earlierOther raw target other (r :: rules) r0 -> storedAs r0 kind w -> lower chk w <> [] ->
        catchesAll (prefix, value) (kind, lower chk w) -> (kind, lower chk w) = (prefix, value)
    end).
  { intros Hno. destruct (coveringIn _ _ _ _ _ _ rules) as [[l other]|].
    - destruct IH as (x & kind & w & Hx & H). exists x, kind, w. split; [by apply earlier_next|done].
    - intros other x kind w Hx. apply earlier_cons in Hx as [_ [(-> & Ha & Hne & Hd)|Hx]]; [|by eapply IH].
      apply no_covering_line; [done|by eapply Hno]. }
  destruct (addressTarget darwin raw r) as [o|] eqn:Ea; [|by apply Hskip].
  destruct (bool_decide_reflect (o = target)) as [->|Hne]; [apply Hskip; congruence|]. cbn [orb].
  destruct (disabled r) eqn:Ed; [by apply Hskip|]. destruct (coveringLine chk prefix value r) as [l|] eqn:El; [|by apply Hskip].
  destruct (covering_line prefix value r l Hp El) as (kind & w & H). exists r, kind, w. split; [|done].
  exists [], rules. split_and!; [done|by constructor|done..].
Qed.

(** C9: Whether a line that a target is to get is covered is reported exactly. For a
    keyword or suffix, what is reported is a line of an enabled rule of another target
    that comes before all of the target's own: another line, that in lower case matches
    every host that this one matches. Nothing is reported only when no such rule holds
    such a line. Stored lines are compared in lower case, and conditions of the rule
    besides its lines are not looked at; of other lines nothing is reported. *)
Theorem covering_exact rules raw target : let line := (linePrefix (trimmed raw), lower chk (afterColon (trimmed raw))) in
  match CoveringSimpleRule chk darwin rules raw target with
  | Some (l, other) => line.1 ∈ [qs "suffix"; qs "keyword"] /\
      exists r kind w, earlierOther (trimmed raw) target other rules r /\ storedAs r kind w /\ l = kind ++ ch ":" :: w /\
        (kind, lower chk w) <> line /\ catchesAll line (kind, lower chk w)
  | None => contains (ch ":") (trimmed raw) = true -> line.2 <> [] -> line.1 ∈ [qs "suffix"; qs "keyword"] ->
      forall other r kind w, earlierOther (trimmed raw) target other rules r -> storedAs r kind w -> lower chk w <> [] ->
        catchesAll line (kind, lower chk w) -> (kind, lower chk w) = line
  end.
Proof.
  cbv zeta. unfold CoveringSimpleRule. set (s := trimmed raw). cbn [fst snd]. destruct (indexOf (ch ":") s) eqn:Ei.
  2:{ intros Hin. apply indexOf_contains in Hin as [? Hin]. congruence. }
  destruct (lower chk (afterColon s)) as [|c v] eqn:Ev; [by intros _ ?|]. cbn [isEmpty orb]. rewrite <- Ev.
  destruct (bool_decide_reflect (linePrefix s ∈ [qs "suffix"; qs "keyword"])) as [Hp|Hp]; cbn [negb]; [|by intros _ _ ?].
  pose proof (covering_in s (linePrefix s) (lower chk (afterColon s)) target rules Hp) as H.
  destruct (coveringIn _ _ _ _ _ _ _) as [[l other]|]; [done|]. intros _ _ _. exact H.
Qed.
End Targets.

(** ** Examples *)

Module TargetSample.
Definition no (_ : qstring) : bool := false.
Definition chk : CheckEnv := MkCheckEnv no no no no no no no no no no (fun _ => false) (fun s => s).
Definition env : RuleEnv := MkRuleEnv (fun s => s) no (fun s => s) (fun _ => None).
Definition server (id : Z) : option qstring := if id =? 7 then Some (qs "Paris") else None.
Definition bypassed : RouteRule := set_domain_suffix [qs "example.com"; qs "video.org"] (default newRule (NewSimpleRule simpleAddressBypass)).
Definition line : qstring := qs "suffix:video.org".

Lemma toggle_exclusive_witness : let res := toggleRule chk env false server false true line (MkTarget proxy 7) [bypassed] in
  res.1 = Moved /\ map ruleName res.2 = [qs "Simple Address Bypass"; qs "Paris (address)"] /\ HasSimpleRule chk false res.2 line (listOf bypass) = false.
Proof.
  assert (wellTarget (MkTarget proxy 7)) as Hw by (right; split; [discriminate|reflexivity]).
  pose proof (toggle_exclusive chk env false server (fun s H => H) false true line (MkTarget proxy 7) [bypassed] Hw) as H. cbv zeta.
  assert ((toggleRule chk env false server false true line (MkTarget proxy 7) [bypassed]).1 = Moved /\
    map ruleName (toggleRule chk env false server false true line (MkTarget proxy 7) [bypassed]).2 = [qs "Simple Address Bypass"; qs "Paris (address)"]) as [E1 E2] by (vm_compute; split; reflexivity).
  destruct (toggleRule chk env false server false true line (MkTarget proxy 7) [bypassed]) as [res rules']. cbn [fst snd] in *. subst res.
  split; [reflexivity|]. split; [exact E2|]. destruct H as (_ & H & _). destruct (HasSimpleRule chk false rules' line (listOf bypass)) eqn:E; [|reflexivity].
  exfalso. apply (H (listOf bypass)) in E; [discriminate E|left; reflexivity].
Defined.

(** A line that is stored already is not reported, since no other line covers it; a line
    under a stored suffix is. *)
Lemma covering_exact_witness :
  (forall w, w ∈ domain_suffix bypassed -> lower chk w <> [] -> catchesAll (qs "suffix", qs "video.org") (qs "suffix", w) -> w = qs "video.org") /\
  exists r kind w, earlierOther false (qs "suffix:cdn.video.org") (listOf proxy) (listOf bypass) [bypassed] r /\ storedAs r kind w /\
    kind ++ ch ":" :: w = qs "suffix:video.org".
Proof.
  split.
  - intros w Hw Hne Hall. pose proof (covering_exact chk false [bypassed] line (listOf proxy)) as H. cbv zeta in H.
    assert (CoveringSimpleRule chk false [bypassed] line (listOf proxy) = None) as E by (vm_compute; reflexivity). rewrite E in H.
    assert (earlierOther false (trimmed line) (listOf proxy) (listOf bypass) [bypassed] bypassed) as He.
    { exists [], []. split_and!; try (vm_compute; reflexivity); [constructor; [vm_compute; reflexivity|constructor]|discriminate]. }
    specialize (H ltac:(vm_compute; reflexivity) ltac:(vm_compute; discriminate) ltac:(left) (listOf bypass) bypassed (qs "suffix") w He
      (or_intror (conj eq_refl Hw)) Hne Hall). injection H as H. exact H.
  - pose proof (covering_exact chk false [bypassed] (qs "suffix:cdn.video.org") (listOf proxy)) as H. cbv zeta in H.
    assert (CoveringSimpleRule chk false [bypassed] (qs "suffix:cdn.video.org") (listOf proxy) = Some (qs "suffix:video.org", listOf bypass)) as E
      by (vm_compute; reflexivity). rewrite E in H.
    destruct H as (_ & r & kind & w & H1 & H2 & H3 & _). exists r, kind, w. split; [exact H1|]. split; [exact H2|]. symmetry. exact H3.
Defined.

Example covering_reported : CoveringSimpleRule chk false [bypassed] (qs "suffix:cdn.video.org") (listOf proxy) = Some (qs "suffix:video.org", listOf bypass) /\
  CoveringSimpleRule chk false [bypassed] (qs "suffix:myvideo.org") (listOf proxy) = None.
Proof. vm_compute. split; reflexivity. Qed.

(** A keyword stored with a capital, from an import or the rule editor, is reported as
    covering though the core, which compares hosts in lower case with it as it is, never
    matches it. *)
Definition small (c : Z) : Z := if (65 <=? c) && (c <=? 90) then c + 32 else c.
Definition lowering : CheckEnv := MkCheckEnv no no no no no no no no no no (fun _ => false) (map small).
Example capital_keyword_reported :
  let github := set_domain_keyword [qs "GitHub"] (default newRule (NewSimpleRule simpleAddressBypass)) in
  CoveringSimpleRule lowering false [github] (qs "suffix:github.com") (listOf proxy) = Some (qs "keyword:GitHub", listOf bypass) /\
  containsStr (qs "GitHub") (qs "api.github.com") = false.
Proof. vm_compute. split; reflexivity. Qed.
End TargetSample.
