(* ===== verification/RemoteProtocol.v ===== *)
(** * The wire protocol of the remote API

    src/src/api/remote/Protocol.cpp and Message.cpp: keys as text, session keys,
    sealed frames, and the JSON of requests and responses. Bytes are integers below
    256. The hash and the cipher are the vendored ones behind [Crypto]; what the
    code relies on is [CryptoLaws]. Reading and writing JSON text is an argument. *)

From Stdlib Require Import Ascii String.
From S2P Require Import Prelude QtText Json OtpWire.

Local Open Scope Z_scope.
Local Open Scope throne_scope.
#[local] Set Warnings "-register-all".

(** ** Constants *)

Definition kDefaultPort : Z := 9095.
Definition kProtocolVersion : Z := 1.
Definition kRandomSize : nat := 16.
Definition kClientHelloSize : nat := 1 + kRandomSize.
Definition kKeySize : nat := 32.
Definition kTagSize : nat := 16.
Definition kFrameHeaderSize : nat := 4.
Definition kMaxClientFrame : Z := 1 <<< 20.
Definition kMaxServerFrame : Z := 64 <<< 20.

Definition isByte (b : Z) : Prop := 0 <= b < 256.

(** ** Keys as text: QByteArray's base64url *)

Definition base64Alphabet : qstring := qs "ABCDEFGHIJKLMNOPQRSTUVWXYZabcdefghijklmnopqrstuvwxyz0123456789-_".
Definition base64Letter (i : Z) : Z := nth (Z.to_nat i) base64Alphabet 0.

(** [toBase64] with [Base64UrlEncoding | OmitTrailingEquals]: three bytes at a time. *)
Fixpoint toBase64 (data : bytes) : qstring :=
  let letters (chunk : Z) := map (fun s => base64Letter ((chunk >>> s) .& 63)) in
  match data with
  | [] => []
  | [a] => letters (a <<< 16) [18; 12]
  | [a; b] => letters ((a <<< 16) .| (b <<< 8)) [18; 12; 6]
  | a :: b :: c :: rest => letters ((a <<< 16) .| (b <<< 8) .| c) [18; 12; 6; 0] ++ toBase64 rest
  end.

Definition base64Value (c : Z) : option Z :=
  if (ch "A" <=? c) && (c <=? ch "Z") then Some (c - ch "A")
  else if (ch "a" <=? c) && (c <=? ch "z") then Some (c - ch "a" + 26)
  else if (ch "0" <=? c) && (c <=? ch "9") then Some (c - ch "0" + 52)
  else if c =? ch "-" then Some 62
  else if c =? ch "_" then Some 63
  else None.

(** [fromBase64Encoding] with [AbortOnBase64DecodingErrors], for text without '='. *)
Fixpoint fromBase64 (text : qstring) (buf nbits : Z) : option bytes :=
  match text with
  | [] => Some []
  | c :: text =>
      match base64Value c with
      | None => None
      | Some d =>
          let buf := (buf <<< 6) .| d in
          let nbits := nbits + 6 in
          if 8 <=? nbits then
            let nbits := nbits - 8 in
            (fun out => u8 (buf >>> nbits) :: out) <$> fromBase64 text (buf .& ((1 <<< nbits) - 1)) nbits
          else fromBase64 text buf nbits
      end
  end.

(** [QString::toLatin1]: a character outside Latin-1 becomes a question mark. *)
Definition toLatin1 (text : qstring) : bytes := map (fun c => if c <=? 0xff then c else ch "?") text.

Definition KeyToText (key : bytes) : qstring := toBase64 key.
(** The empty array stands for failure, as in the source. *)
Definition KeyFromText (text : qstring) : bytes :=
  let t := trimmed text in
  if contains (ch "=") t then []
  else match fromBase64 (toLatin1 t) 0 0 with
       | Some key => if bool_decide (length key = kKeySize) then key else []
       | None => []
       end.

(** ** Frames *)

(** [bigEndian n x] is the [n] low bytes of [x], the high one first; [beNumber] reads them. *)
Fixpoint bigEndian (n : nat) (x : Z) : bytes :=
  match n with O => [] | S n => u8 (x >>> (8 * Z.of_nat n)) :: bigEndian n x end.
Definition beNumber (bs : bytes) : Z := fold_left (fun v b => v * 256 + b) bs 0.

(** HMAC-SHA256 of a message under a key; the cipher's two directions, with the
    ciphertext and the tag apart. *)
Class Crypto := {
  hmacSha256 : bytes -> bytes -> bytes;
  aeadWrite : bytes -> bytes -> bytes -> bytes -> bytes * bytes;
  aeadRead : bytes -> bytes -> bytes -> bytes -> bytes -> option bytes }.

(** Reading accepts exactly what writing produced under the same key, nonce and
    additional data. *)
Class CryptoLaws (C : Crypto) : Prop := {
  hmac_size : forall message key, length (hmacSha256 message key) = kKeySize;
  cipher_size : forall key nonce ad plain, length (aeadWrite key nonce ad plain).1 = length plain;
  tag_size : forall key nonce ad plain, length (aeadWrite key nonce ad plain).2 = kTagSize;
  read_written : forall key nonce ad cipher tag plain,
    aeadRead key nonce ad cipher tag = Some plain <-> aeadWrite key nonce ad plain = (cipher, tag) }.

Record SessionKeys := MkKeys { c2s : bytes; s2c : bytes }.

Section Frames.
Context `{C : Crypto}.

Definition DeriveKeys (key serverRandom clientRandom : bytes) : SessionKeys :=
  let randoms := serverRandom ++ clientRandom in
  MkKeys (hmacSha256 (qs "throne-api/1 c2s" ++ randoms) key) (hmacSha256 (qs "throne-api/1 s2c" ++ randoms) key).

Definition nonceOf (counter : Z) : bytes := [0; 0; 0; 0] ++ bigEndian 8 (u64 counter).

Definition SealFrame (key : bytes) (counter : Z) (plaintext : bytes) : bytes :=
  if negb (bool_decide (length key = kKeySize)) then []
  else let header := bigEndian kFrameHeaderSize (u32 (qsize plaintext + Z.of_nat kTagSize)) in
       let '(cipher, tag) := aeadWrite key (nonceOf counter) header plaintext in
       header ++ cipher ++ tag.

Definition OpenFrame (key : bytes) (counter : Z) (header sealed : bytes) : option bytes :=
  if negb (bool_decide (length key = kKeySize)) || negb (bool_decide (length header = kFrameHeaderSize)) || (length sealed <? kTagSize)%nat
  then None
  else if negb (beNumber header =? u32 (qsize sealed)) then None
  else let size := (length sealed - kTagSize)%nat in
       aeadRead key (nonceOf counter) header (take size sealed) (drop size sealed).
End Frames.

(** ** Requests and responses *)

Record Request := MkRequest {
  method : qstring; path : qstring; query : gmap qstring qstring; body : QJsonValue; peer : qstring; admin : bool }.
Record Response := MkResponse { status : Z; answerBody : QJsonValue; errorCode : qstring; errorMessage : qstring }.

Definition Ok (body : QJsonValue) (status : Z) : Response := MkResponse status body [] [].
Definition Error (status : Z) (code message : qstring) : Response := MkResponse status JNull code message.

Inductive RequestProblem := NotJson | NotAnObject | BadMethod | BadPath | QueryNotObject | QueryNotText (key : qstring).

Section Messages.
Context (fromJson : bytes -> option QJsonValue) (toJson : QJsonValue -> bytes).

Definition methods : list qstring := [qs "GET"; qs "POST"; qs "PUT"; qs "DELETE"].

(** The members of the query in order; the first that is no text is the problem. *)
Fixpoint queryOf (o : QJsonObject) (q : gmap qstring qstring) : RequestProblem + gmap qstring qstring :=
  match o with
  | [] => inr q
  | (k, JString v) :: o => queryOf o (<[k := v]> q)
  | (k, _) :: _ => inl (QueryNotText k)
  end.

Definition ParseRequest (json : bytes) : RequestProblem + Request :=
  match fromJson json with
  | None => inl NotJson
  | Some (JObject object) =>
      let method := jsonText (jsonGet object (qs "method")) in
      if negb (bool_decide (method ∈ methods)) then inl BadMethod
      else match jsonGet object (qs "path") with
           | Some (JString path) =>
               if negb (startsWithC (ch "/") path) || contains (ch "?") path || contains (ch "#") path then inl BadPath
               else
                 let request (q : gmap qstring qstring) := MkRequest method path q (default JNull (jsonGet object (qs "body"))) [] false in
                 match jsonGet object (qs "query") with
                 | None => inr (request ∅)
                 | Some (JObject q) => match queryOf q ∅ with inl p => inl p | inr q => inr (request q) end
                 | Some _ => inl QueryNotObject
                 end
           | _ => inl BadPath
           end
  | Some _ => inl NotAnObject
  end.

(** Text written as the source writes it: a body goes through an array of one
    element, whose brackets are cut off again. *)
Definition SerializeResponse (r : Response) : bytes :=
  qs "{" ++ [34] ++ qs "status" ++ [34] ++ qs ":" ++ number (status r) ++
  (if status r <? 400 then
     let wrapped := toJson (JArray [answerBody r]) in
     qs "," ++ [34] ++ qs "body" ++ [34] ++ qs ":" ++ take (length wrapped - 2) (drop 1 wrapped)
   else qs "," ++ [34] ++ qs "error" ++ [34] ++ qs ":" ++
        toJson (JObject [(qs "code", JString (errorCode r)); (qs "message", JString (errorMessage r))])) ++
  qs "}".
End Messages.

(** ** Numbers and letters *)

Lemma bigEndian_length n x : length (bigEndian n x) = n.
Proof. induction n; cbn; [done|by f_equal]. Qed.
Lemma bigEndian_bytes n x : Forall isByte (bigEndian n x).
Proof. induction n; cbn [bigEndian]; constructor; [apply u8_range|done]. Qed.

Lemma beNumber_app bs v : fold_left (fun v b => v * 256 + b) bs v = v * 256 ^ qsize bs + beNumber bs.
Proof.
  unfold beNumber, qsize. revert v. induction bs as [|b bs IH]; intros v; cbn [fold_left length]; [change (256 ^ Z.of_nat 0) with 1; lia|].
  rewrite (IH (v * 256 + b)), (IH (0 * 256 + b)), Nat2Z.inj_succ, Z.pow_succ_r by lia. lia.
Qed.

(** A number is read back modulo the width it was written with. *)
Lemma beNumber_bigEndian n x : beNumber (bigEndian n x) = x mod 256 ^ Z.of_nat n.
Proof.
  induction n as [|n IH]; [by rewrite Z.mod_1_r|]. unfold beNumber. cbn [bigEndian fold_left]. rewrite beNumber_app, IH.
  unfold qsize. rewrite bigEndian_length. unfold u8. rewrite Z.shiftr_div_pow2, Z.pow_mul_r by lia. change (2 ^ 8) with 256.
  rewrite Nat2Z.inj_succ, Z.pow_succ_r by lia. rewrite (Z.mul_comm 256), Z.rem_mul_r by lia. lia.
Qed.

Lemma beNumber_range bs : Forall isByte bs -> 0 <= beNumber bs < 256 ^ qsize bs.
Proof.
  unfold qsize. induction 1 as [|b bs Hb _ IH]; [done|]. unfold beNumber. cbn [fold_left length]. rewrite beNumber_app. unfold qsize, isByte in *.
  rewrite Nat2Z.inj_succ, Z.pow_succ_r by lia. nia.
Qed.

Lemma bigEndian_high n k x : bigEndian n (k * 256 ^ Z.of_nat n + x) = bigEndian n x.
Proof.
  revert k. induction n as [|n IH]; intros k; [done|]. cbn [bigEndian]. rewrite Nat2Z.inj_succ, Z.pow_succ_r by lia.
  replace (k * (256 * 256 ^ Z.of_nat n) + x) with (k * 256 * 256 ^ Z.of_nat n + x) by lia. rewrite IH. f_equal. unfold u8.
  rewrite !Z.shiftr_div_pow2, Z.pow_mul_r by lia. change (2 ^ 8) with 256. rewrite Z.div_add_l by lia. rewrite Z.add_comm. apply Z.mod_add. lia.
Qed.

(** A number written in its own width is read from the same bytes. *)
Lemma bigEndian_beNumber bs : Forall isByte bs -> bigEndian (length bs) (beNumber bs) = bs.
Proof.
  induction 1 as [|b bs Hb Hbs IH]; [done|]. unfold beNumber. cbn [length bigEndian fold_left]. rewrite beNumber_app. unfold qsize. rewrite bigEndian_high, IH.
  f_equal. pose proof (beNumber_range bs Hbs) as Hr. unfold qsize, isByte in *. rewrite Z.shiftr_div_pow2, Z.pow_mul_r by lia. change (2 ^ 8) with 256.
  rewrite Z.div_add_l, Z.div_small, u8_small by lia. lia.
Qed.

Lemma base64_letter i : 0 <= i < 64 -> base64Value (base64Letter i) = Some i /\ base64Letter i <> ch "=" /\ isSpace (base64Letter i) = false /\ base64Letter i <= 0xff.
Proof.
  intros Hi. pose proof (below_forall (fun i => match base64Value (base64Letter i) with Some v => v =? i | None => false end && negb (base64Letter i =? ch "=")
    && negb (isSpace (base64Letter i)) && (base64Letter i <=? 0xff)) 64 ltac:(vm_compute; reflexivity) i Hi) as H. cbv beta in H. destruct (base64Value _) as [v|]; [|done].
  bprop. destruct H as [[[-> ?] ?] ?]. done.
Qed.

Lemma sextet x : 0 <= x .& 63 < 64.
Proof. change 63 with (Z.ones 6). rewrite Z.land_ones by lia. apply Z.mod_pos_bound. lia. Qed.

(** One letter on a buffer of [n] bits. *)
Lemma base64_step i text buf n : 0 <= i < 64 -> 0 <= buf < 2 ^ n -> 0 <= n < 8 ->
  fromBase64 (base64Letter i :: text) buf n =
  if n <? 2 then fromBase64 text (buf * 64 + i) (n + 6)
  else cons ((buf * 64 + i) / 2 ^ (n - 2)) <$> fromBase64 text ((buf * 64 + i) mod 2 ^ (n - 2)) (n - 2).
Proof.
  intros Hi Hb Hn. cbn [fromBase64]. destruct (base64_letter i Hi) as (-> & _). rewrite lor_shiftl_add by lia. change (2 ^ 6) with 64.
  replace (8 <=? n + 6) with (negb (n <? 2)) by (destruct (Z.ltb_spec n 2), (Z.leb_spec 8 (n + 6)); lia).
  destruct (Z.ltb_spec n 2) as [|Hn2]; [done|]. cbn [negb]. replace (n + 6 - 8) with (n - 2) by lia.
  rewrite Z.shiftl_1_l, Z.sub_1_r, <- Z.ones_equiv, Z.land_ones by lia. rewrite Z.shiftr_div_pow2, u8_small; [done| |lia].
  split; [apply Z.div_pos; lia|]. apply Z.div_lt_upper_bound; [lia|]. rewrite <- Z.pow_add_r by lia. replace (n - 2 + 8) with (n + 6) by lia.
  rewrite Z.pow_add_r by lia. change (2 ^ 6) with 64. lia.
Qed.

Lemma group_parts a b c : isByte a -> isByte b -> isByte c ->
  (a <<< 16) .| (b <<< 8) .| c = a * 65536 + b * 256 + c /\ (a <<< 16) .| (b <<< 8) = a * 65536 + b * 256.
Proof.
  unfold isByte. intros Ha Hb Hc. assert (b <<< 8 = b * 256) as E by (rewrite Z.shiftl_mul_pow2 by lia; lia).
  assert ((a <<< 16) .| (b <<< 8) = a * 65536 + b * 256) as E2 by (rewrite E, lor_shiftl_add by lia; lia). split; [|done]. rewrite E2.
  replace (a * 65536 + b * 256) with ((a * 256 + b) <<< 8) by (rewrite Z.shiftl_mul_pow2 by lia; lia). rewrite lor_shiftl_add by lia. rewrite Z.shiftl_mul_pow2 by lia. lia.
Qed.

(** Arithmetic with quotients and remainders. *)
Ltac euclid := Z.to_euclidean_division_equations; lia.

Lemma base64_two i j text : 0 <= i < 64 -> 0 <= j < 64 ->
  fromBase64 (base64Letter i :: base64Letter j :: text) 0 0 = cons (i * 4 + j / 16) <$> fromBase64 text (j mod 16) 4.
Proof.
  intros Hi Hj. rewrite base64_step by lia. change (0 <? 2) with true. cbv iota. rewrite base64_step by lia. change (0 + 6 <? 2) with false.
  change (0 + 6 - 2) with 4. change (2 ^ 4) with 16. cbv iota. f_equal; [f_equal|f_equal]; euclid.
Qed.
Lemma base64_third k text r : 0 <= r < 16 -> 0 <= k < 64 -> fromBase64 (base64Letter k :: text) r 4 = cons (r * 16 + k / 4) <$> fromBase64 text (k mod 4) 2.
Proof.
  intros Hr Hk. rewrite base64_step by lia. change (4 <? 2) with false. change (4 - 2) with 2. change (2 ^ 2) with 4. cbv iota.
  f_equal; [f_equal|f_equal]; euclid.
Qed.
Lemma base64_fourth l text r : 0 <= r < 4 -> 0 <= l < 64 -> fromBase64 (base64Letter l :: text) r 2 = cons (r * 64 + l) <$> fromBase64 text 0 0.
Proof.
  intros Hr Hl. rewrite base64_step by lia. change (2 <? 2) with false. change (2 - 2) with 0. change (2 ^ 0) with 1. cbv iota.
  rewrite Z.div_1_r, Z.mod_1_r. done.
Qed.

Ltac group := unfold isByte in *; repeat f_equal;
  change (2 ^ 18) with 262144; change (2 ^ 16) with 65536; change (2 ^ 12) with 4096; change (2 ^ 6) with 64; change (2 ^ 0) with 1; euclid.

Lemma sextet_of x s : 0 <= s -> (x >>> s) .& 63 = x / 2 ^ s mod 64.
Proof. intros Hs. change 63 with (Z.ones 6). rewrite Z.land_ones, Z.shiftr_div_pow2 by lia. done. Qed.

(** Every text that is written is read back. *)
Lemma base64_roundtrip data : Forall isByte data -> fromBase64 (toBase64 data) 0 0 = Some data.
Proof.
  revert data. fix IH 1. intros data H. destruct data as [|a [|b [|c rest]]]; [done|..].
  all: rewrite !Forall_cons in H.
  all: cbn [toBase64 map app]; rewrite !sextet_of by lia; rewrite base64_two by (apply Z.mod_pos_bound; lia).
  all: try (rewrite base64_third by (apply Z.mod_pos_bound; lia)); try (rewrite base64_fourth by (apply Z.mod_pos_bound; lia)).
  - destruct H as [Ha _]. rewrite Z.shiftl_mul_pow2 by lia. cbn [fromBase64 fmap option_fmap option_map]. group.
  - destruct H as (Ha & Hb & _). rewrite (proj2 (group_parts a b 0 Ha Hb ltac:(unfold isByte; lia))). cbn [fromBase64 fmap option_fmap option_map]. group.
  - destruct H as (Ha & Hb & Hc & H3). rewrite (proj1 (group_parts a b c Ha Hb Hc)), (IH rest H3). cbn [fmap option_fmap option_map]. group.
Qed.

Lemma base64_chars data : Forall isByte data -> Forall (fun c => c <> ch "=" /\ isSpace c = false /\ c <= 0xff) (toBase64 data).
Proof.
  assert (forall x s, 0 <= s -> base64Letter ((x >>> s) .& 63) <> ch "=" /\ isSpace (base64Letter ((x >>> s) .& 63)) = false /\ base64Letter ((x >>> s) .& 63) <= 0xff) as Hl
    by (intros x s Hs; apply base64_letter, sextet).
  revert data. fix IH 1. intros data H. destruct data as [|a [|b [|c rest]]]; cbn [toBase64 map app]; repeat constructor; try (by apply Hl).
  all: try (apply Hl; lia). apply IH. by do 3 (inversion H as [|? ? _ H']; subst; clear H; rename H' into H).
Qed.

(** A key that is shown is accepted again as the same key. *)
Lemma key_text_roundtrip key : Forall isByte key -> length key = kKeySize -> KeyFromText (KeyToText key) = key.
Proof.
  intros Hb Hl. unfold KeyFromText, KeyToText. pose proof (base64_chars key Hb) as Hc.
  rewrite trimmed_noSpace by (eapply Forall_impl; [exact Hc|by intros ? (_ & ? & _)]).
  rewrite (proj2 (free_contains _ _)) by (eapply Forall_impl; [exact Hc|by intros ? (? & _)]).
  assert (toLatin1 (toBase64 key) = toBase64 key) as ->.
  { unfold toLatin1. induction Hc as [|c l Hx Hc IH]; cbn [map]; [done|]. rewrite IH. f_equal. by rewrite (proj2 (Z.leb_le c 0xff)) by apply Hx. }
  rewrite base64_roundtrip by done. by rewrite bool_decide_eq_true_2.
Qed.
Lemma key_text_size text : KeyFromText text = [] \/ length (KeyFromText text) = kKeySize.
Proof. unfold KeyFromText. repeat case_match; auto. right. by apply bool_decide_eq_true in H1. Qed.

(** ** What a frame opens to *)

Section Sealing.
Context `{L : CryptoLaws}.

Definition frameLimit : Z := 2 ^ 32 - Z.of_nat kTagSize.

Lemma seal_parts key counter plain : length key = kKeySize -> qsize plain < frameLimit ->
  exists header sealed, SealFrame key counter plain = header ++ sealed /\ length header = kFrameHeaderSize /\
    header = bigEndian kFrameHeaderSize (qsize plain + Z.of_nat kTagSize) /\
    length sealed = (length plain + kTagSize)%nat /\ OpenFrame key counter header sealed = Some plain.
Proof.
  intros Hk Hp. unfold SealFrame, frameLimit in *. rewrite bool_decide_eq_true_2 by done. cbn [negb]. rewrite u32_small by (unfold qsize in *; lia).
  set (header := bigEndian kFrameHeaderSize _). pose proof (cipher_size key (nonceOf counter) header plain) as Hc. pose proof (tag_size key (nonceOf counter) header plain) as Ht.
  destruct (aeadWrite key (nonceOf counter) header plain) as [cipher tag] eqn:E. cbn [fst snd] in *. exists header, (cipher ++ tag).
  split; [done|]. split; [apply bigEndian_length|]. split; [done|]. rewrite length_app. split; [lia|].
  unfold OpenFrame. rewrite !bool_decide_eq_true_2 by (done || apply bigEndian_length). rewrite length_app, Hc, Ht.
  destruct (Nat.ltb_spec (length plain + kTagSize) kTagSize); [lia|]. cbn [negb orb]. unfold header at 1. rewrite beNumber_bigEndian.
  unfold qsize in *. rewrite length_app, Hc, Ht, Nat2Z.inj_add. unfold u32. change (256 ^ Z.of_nat kFrameHeaderSize) with (2 ^ 32). rewrite Z.eqb_refl. cbn [negb].
  replace (length plain + kTagSize - kTagSize)%nat with (length cipher) by lia. rewrite take_app_length, drop_app_length. by apply read_written.
Qed.

(** A frame opens to a message exactly when it is that message sealed with the same
    key and the same counter. *)
Lemma open_exact key counter header sealed plain : Forall isByte header -> qsize sealed < 2 ^ 32 ->
  OpenFrame key counter header sealed = Some plain <->
  length key = kKeySize /\ qsize plain < frameLimit /\ length header = kFrameHeaderSize /\ SealFrame key counter plain = header ++ sealed.
Proof.
  intros Hb Hs. split.
  - unfold OpenFrame. case_bool_decide as Hk; [|done]. case_bool_decide as Hh; [|done]. destruct (Nat.ltb_spec (length sealed) kTagSize) as [|Ht]; [done|].
    cbn [negb orb]. destruct (Z.eqb_spec (beNumber header) (u32 (qsize sealed))) as [En|]; [|done]. cbn [negb]. intros Hr%read_written.
    pose proof (cipher_size key (nonceOf counter) header plain) as Hc. rewrite Hr in Hc. cbn [fst] in Hc. rewrite length_take in Hc.
    split; [done|]. unfold frameLimit, qsize in *. split; [lia|]. split; [done|]. unfold SealFrame. rewrite bool_decide_eq_true_2 by done. cbn [negb].
    assert (bigEndian kFrameHeaderSize (u32 (qsize plain + Z.of_nat kTagSize)) = header) as ->.
    { rewrite u32_small in En by lia. unfold qsize. rewrite u32_small by lia. replace (Z.of_nat (length plain) + Z.of_nat kTagSize) with (beNumber header) by lia.
      rewrite <- Hh. by apply bigEndian_beNumber. }
    rewrite Hr, take_drop. done.
  - intros (Hk & Hp & Hh & E). destruct (seal_parts key counter plain Hk Hp) as (h & s & E' & Hl & _ & _ & Ho).
    rewrite E in E'. apply app_inj_1 in E' as [-> ->]; [done|congruence].
Qed.
End Sealing.
