(* ===== verification/RemoteConfig.v ===== *)
(** * Where the remote API listens and whom it admits

    src/src/api/remote/Config.cpp and the texts of listeners of
    src/src/engine/headless/HeadlessApi.cpp: the configuration from the settings,
    the list of allowed networks, the text of a listener and the overlay of a
    headless start. QHostAddress is modelled; its reader and writer of text are
    arguments, with [HostTextLaws] for what the code relies on. *)

From Stdlib Require Import Ascii String.
From S2P Require Import Prelude QtText OtpWire RemoteProtocol.

Local Open Scope Z_scope.
Local Open Scope throne_scope.
#[local] Set Warnings "-register-all".

(** ** Addresses *)

(** QHostAddress: null, an IPv4 or an IPv6 address (with its scope), or every address. *)
Inductive HostAddress := NullAddress | V4 (a : Z) | V6 (a : Z) (scope : qstring) | AnyAddress.
#[export] Instance HostAddress_eq_dec : EqDecision HostAddress.
Proof. solve_decision. Defined.

Definition isNull (h : HostAddress) : bool := bool_decide (h = NullAddress).
Definition LocalHost : HostAddress := V4 0x7f000001.
Definition AnyIPv4 : HostAddress := V4 0.
Definition AnyIPv6 : HostAddress := V6 0 [].

(** The IPv4 address in an IPv4-mapped IPv6 address. *)
Definition mapped (a : Z) : option Z := if a >>> 32 =? 0xffff then Some (u32 a) else None.
Definition toIPv4Address (h : HostAddress) : option Z :=
  match h with V4 a => Some a | V6 a _ => mapped a | _ => None end.
Definition loopbackV4 (a : Z) : bool := a >>> 24 =? 127.
Definition isLoopback (h : HostAddress) : bool :=
  match h with
  | V4 a => loopbackV4 a
  | V6 a _ => (a =? 1) || match mapped a with Some a => loopbackV4 a | None => false end
  | _ => false
  end.
(** isInSubnet: the leading bits agree; another family never does. *)
Definition leadingBits (width n a b : Z) : bool :=
  let n := Z.min n width in (a >>> (width - n)) =? (b >>> (width - n)).
Definition isInSubnet (h net : HostAddress) (bits : Z) : bool :=
  if bits <? 0 then false
  else match h, net with
       | V4 a, V4 b => leadingBits 32 bits a b
       | V6 a _, V6 b _ => leadingBits 128 bits a b
       | _, _ => false
       end.
Definition everyAddress (h : HostAddress) : bool := bool_decide (h ∈ [AnyAddress; AnyIPv4; AnyIPv6]).

(** ** Configurations *)

Record Config := MkConfig {
  enabled : bool; lan : bool; port : Z; key : bytes; allow : list (HostAddress * Z); adminLan : bool; address : HostAddress }.
Definition newConfig : Config := MkConfig false false kDefaultPort [] [] false NullAddress.

Inductive ConfigSource := Settings | Flags | Environment | Default.
Record Overlay := MkOverlay {
  o_headless : bool; o_enabled : option bool; o_address : HostAddress; o_port : option Z; o_keyFile : qstring;
  o_adminLan : option bool; o_allow : option qstring; o_listenSource : ConfigSource; o_key : bytes; o_defaultKeyFile : qstring }.
Record Effective := MkEffective { e_config : Config; e_source : ConfigSource; e_explicitListen : bool; e_keyFile : qstring }.

(** The settings that the API reads. *)
Record ApiSettings := MkApiSettings {
  remote_api_enable : bool; remote_api_lan : bool; remote_api_admin_lan : bool; remote_api_port : Z;
  remote_api_key : qstring; remote_api_allow : qstring }.

Inductive ListenProblem := NeedsPort | NotIPv6 | NeedsBrackets | NotAnAddress.

Section Config.
Context (foldCase : Z -> Z) (isSeparator : Z -> bool).
Context (setAddress : qstring -> option HostAddress) (parseSubnet : qstring -> option (HostAddress * Z)).

Definition allowEntry (entry : qstring) : option (HostAddress * Z) :=
  let host := hd [] (split (ch "/") entry) in
  if negb (contains (ch ":") host) && negb (count (ch ".") host =? 3)%nat then None
  else parseSubnet (if contains (ch "/") entry then entry else entry ++ (if contains (ch ":") host then qs "/128" else qs "/32")).

(** The separators are commas and white space; what is no address is left out. *)
Definition ParseAllowList (text : qstring) : list (HostAddress * Z) :=
  omap allowEntry (List.filter (fun e => negb (isEmpty e)) (splitBy (fun c => (c =? ch ",") || isSeparator c) text)).

Definition ConfigFromSettings (s : ApiSettings) : Config :=
  MkConfig (remote_api_enable s) (remote_api_lan s)
    (if (1 <=? remote_api_port s) && (remote_api_port s <=? 65535) then remote_api_port s else kDefaultPort)
    (KeyFromText (remote_api_key s)) (ParseAllowList (remote_api_allow s)) (remote_api_admin_lan s) NullAddress.

(** A port in digits, at most five of them. *)
Definition listenPort (text : qstring) : option Z :=
  if forallb (fun c => (48 <=? c) && (c <=? 57)) text && (length text <=? 5)%nat then
    match unsignedText text with
    | Some p => if (1 <=? p) && (p <=? 65535) then Some p else None
    | None => None
    end
  else None.

Definition listenHost (host : qstring) : ListenProblem + HostAddress :=
  if isEmpty host || bool_decide (host = qs "*") then inr AnyAddress
  else if startsWithC (ch "[") host && endsWithC (ch "]") host then
    match setAddress (take (length host - 2) (drop 1 host)) with Some (V6 a s) => inr (V6 a s) | _ => inl NotIPv6 end
  else if contains (ch ":") host then inl NeedsBrackets
  else if negb (count (ch ".") host =? 3)%nat then inl NotAnAddress
  else match setAddress host with Some (V4 a) => inr (V4 a) | _ => inl NotAnAddress end.

Definition ParseListen (text : qstring) (o : Overlay) : ListenProblem + Overlay :=
  let value := trimmed text in
  let set (e : bool) (a : HostAddress) (p : option Z) : Overlay :=
    MkOverlay (o_headless o) (Some e) a p (o_keyFile o) (o_adminLan o) (o_allow o) (o_listenSource o) (o_key o) (o_defaultKeyFile o) in
  if equalCI foldCase (qs "off") value || equalCI foldCase (qs "none") value then inr (set false (o_address o) (o_port o))
  else
    let '(host, portText) := match lastIndexOf (ch ":") value with Some c => (Some (take c value), drop (S c) value) | None => (None, value) end in
    match listenPort portText with
    | None => inl NeedsPort
    | Some p =>
        match host with
        | None => inr (set true NullAddress (Some p))
        | Some host => match listenHost host with inl e => inl e | inr a => inr (set true a (Some p)) end
        end
    end.

Definition withOverlay (o : Overlay) (e : Effective) : Effective :=
  let c := e_config e in
  let e := match o_port o with
           | Some p =>
               let a := if isNull (o_address o) then LocalHost else o_address o in
               MkEffective (MkConfig (enabled c) (negb (isLoopback a)) p (key c) (allow c) (adminLan c) a) (o_listenSource o) true (e_keyFile e)
           | None => e
           end in
  let c := e_config e in
  let '(k, f) := if isEmpty (o_keyFile o) then (key c, e_keyFile e) else (o_key o, o_keyFile o) in
  MkEffective
    (MkConfig (enabled c) (lan c) (port c) k (match o_allow o with Some t => ParseAllowList t | None => allow c end)
      (default (adminLan c) (o_adminLan o)) (address c))
    (e_source e) (e_explicitListen e) f.

Definition EffectiveConfig (s : ApiSettings) (o : Overlay) : Effective :=
  let e := MkEffective (ConfigFromSettings s) Settings false [] in
  if negb (o_headless o) then e
  else
    let e := if enabled (e_config e) then e
             else MkEffective (MkConfig true false kDefaultPort (o_key o) [] false NullAddress) Default (e_explicitListen e) (o_defaultKeyFile o) in
    if bool_decide (o_enabled o = Some false) then
      let c := e_config e in
      MkEffective (MkConfig false (lan c) (port c) (key c) (allow c) (adminLan c) (address c)) (o_listenSource o) (e_explicitListen e) (e_keyFile e)
    else withOverlay o e.
End Config.

(** The text that ParseListen reads back. *)
Definition headlessApiListenText (toString : HostAddress -> qstring) (a : HostAddress) (port : Z) : qstring :=
  match a with
  | AnyAddress => qs "*:" ++ number port
  | V6 _ _ => qs "[" ++ toString a ++ qs "]:" ++ number port
  | _ => toString a ++ qs ":" ++ number port
  end.
Definition headlessApiBindAddress (c : Config) : HostAddress :=
  if isNull (address c) then if lan c then AnyAddress else LocalHost else address c.
(** Every entry of a list given on the command line must be an address or a network. *)
Definition headlessApiValidAllow (isSeparator : Z -> bool) (parseSubnet : qstring -> option (HostAddress * Z)) (text : qstring) : bool :=
  let entries := List.filter (fun e => negb (isEmpty e)) (splitBy (fun c => (c =? ch ",") || isSeparator c) text) in
  negb (isEmpty entries) && forallb (fun e => (length (ParseAllowList isSeparator parseSubnet e) =? 1)%nat) entries.

(** ** Listener texts are read back *)

(** What QHostAddress promises for the texts it writes. *)
Class HostTextLaws (toString : HostAddress -> qstring) (setAddress : qstring -> option HostAddress) : Prop := {
  read_v4 : forall a, 0 <= a < 2 ^ 32 -> setAddress (toString (V4 a)) = Some (V4 a);
  read_v6 : forall a, 0 <= a < 2 ^ 128 -> setAddress (toString (V6 a [])) = Some (V6 a []);
  text_clean : forall h, noSpace (toString h);
  text_v4 : forall a, free (ch ":") (toString (V4 a)) /\ count (ch ".") (toString (V4 a)) = 3%nat /\ free (ch "[") (toString (V4 a)) }.

(** An address a listener can be given. *)
Definition listenable (h : HostAddress) : Prop :=
  match h with NullAddress => False | AnyAddress => True | V4 a => 0 <= a < 2 ^ 32 | V6 a s => 0 <= a < 2 ^ 128 /\ s = [] end.

Lemma port_digits p : Forall (fun c => 48 <= c <= 57) (number p) \/ p < 0.
Proof. unfold number. destruct (Z.ltb_spec p 0); [by right|left]. apply unumber10_chars. Qed.

Lemma port_length p : 0 <= p <= 65535 -> (length (number p) <= 5)%nat.
Proof.
  intros Hp. unfold number. destruct (Z.ltb_spec p 0); [lia|].
  unfold unumber. etransitivity; [apply (number_loop_length 10 4); [lia|]|cbn [length]; lia]. change (10 ^ Z.of_nat 5) with 100000. lia.
Qed.

Lemma listenPort_number p : 1 <= p <= 65535 -> listenPort (number p) = Some p.
Proof.
  intros Hp. unfold listenPort. destruct (port_digits p) as [Hd|]; [|lia].
  rewrite (proj2 (forallb_forall _ _)) by (intros c Hc%list_elem_of_In; eapply Forall_forall in Hd; [|exact Hc]; by destruct (Z.leb_spec 48 c), (Z.leb_spec c 57); lia).
  rewrite (proj2 (Nat.leb_le _ _)) by (apply port_length; lia). cbn [andb]. unfold number. destruct (Z.ltb_spec p 0); [lia|]. rewrite unsigned_print by lia.
  by destruct (Z.leb_spec 1 p), (Z.leb_spec p 65535); try lia.
Qed.

Lemma port_free p c : 1 <= p -> ~ 48 <= c <= 57 -> free c (number p).
Proof. intros Hp Hc. destruct (port_digits p) as [Hd|]; [|lia]. eapply Forall_impl; [exact Hd|]. intros x Hx ->. done. Qed.

Section ListenTexts.
Context (foldCase : Z -> Z) (toString : HostAddress -> qstring) (setAddress : qstring -> option HostAddress).
Context `{Laws : !HostTextLaws toString setAddress}.
(** Folding the case leaves a colon alone, and nothing else becomes one. *)
Context (fold_colon : forall c, foldCase c = ch ":" <-> c = ch ":").

Lemma host_read h : listenable h -> exists host,
  (forall p, headlessApiListenText toString h p = host ++ ch ":" :: number p) /\ noSpace host /\ listenHost setAddress host = inr h.
Proof.
  destruct h as [|a|a s|]; cbn [listenable]; [done|..].
  - intros Ha. exists (toString (V4 a)). split; [done|]. split; [apply text_clean|]. destruct (text_v4 a) as (Hc & Hd & Hb). unfold listenHost.
    destruct (toString (V4 a)) as [|x t] eqn:E; [done|]. cbn [isEmpty orb]. rewrite bool_decide_eq_false_2 by (intros Hs; by rewrite Hs in Hd).
    replace (startsWithC (ch "[") (x :: t)) with false by (inversion Hb; cbn [startsWithC]; symmetry; by apply Z.eqb_neq).
    cbn [andb]. rewrite (proj2 (free_contains _ _)) by done. rewrite Hd. cbn [negb Nat.eqb]. by rewrite <- E, read_v4.
  - intros [Ha ->]. exists (qs "[" ++ toString (V6 a []) ++ qs "]"). split; [intros p; cbn; by rewrite <- app_assoc|].
    split; [apply Forall_app; split; [by constructor|]; apply Forall_app; split; [apply text_clean|by constructor]|]. unfold listenHost.
    change (qs "[" ++ toString (V6 a []) ++ qs "]") with (ch "[" :: toString (V6 a []) ++ [ch "]"]). cbn [isEmpty orb].
    rewrite bool_decide_eq_false_2 by done. cbn [startsWithC]. change (ch "[" =? ch "[") with true. unfold endsWithC. cbn [rev]. rewrite rev_app_distr. cbn [rev app startsWithC].
    change (ch "]" =? ch "]") with true. cbn [andb]. cbn [drop length]. rewrite length_app. cbn [length].
    replace (S (length (toString (V6 a [])) + 1) - 2)%nat with (length (toString (V6 a []))) by lia. rewrite drop_0, take_app_length. by rewrite read_v6.
  - intros _. exists (qs "*"). split; [done|]. split; [by constructor|done].
Qed.

(** The text that shows a listener, given again, sets that address and that port. *)
Lemma listen_text_roundtrip h p o : listenable h -> 1 <= p <= 65535 ->
  exists o', ParseListen foldCase setAddress (headlessApiListenText toString h p) o = inr o' /\
    o_enabled o' = Some true /\ o_address o' = h /\ o_port o' = Some p.
Proof.
  intros Hh Hp. destruct (host_read h Hh) as (host & -> & Hs & Hr). unfold ParseListen.
  rewrite trimmed_noSpace by (apply Forall_app; split; [done|]; constructor; [done|apply number_noSpace]).
  assert (forall w, free (ch ":") (map foldCase w) -> equalCI foldCase w (host ++ ch ":" :: number p) = false) as Hci.
  { intros w Hw. unfold equalCI. apply bool_decide_eq_false. intros E. rewrite E in Hw. rewrite map_app in Hw. cbn [map] in Hw.
    apply free_app in Hw as [_ Hw]. inversion Hw as [|? ? Hx]. apply Hx. by apply (fold_colon (ch ":")). }
  assert (forall w, free (ch ":") w -> free (ch ":") (map foldCase w)) as Hfold.
  { intros w. induction 1 as [|c w Hc _ IH]; constructor; [|done]. intros E. by apply Hc, fold_colon. }
  rewrite !Hci by (apply Hfold; by apply free_contains). cbn [orb]. rewrite lastIndexOf_app by (apply port_free; [lia|change (ch ":") with 58; lia]).
  rewrite take_app_length. replace (drop (S (length host)) (host ++ ch ":" :: number p)) with (number p)
    by (symmetry; change (S (length host)) with (1 + length host)%nat; rewrite Nat.add_comm, <- drop_drop, drop_app_length; done).
  rewrite listenPort_number, Hr by done. eexists. done.
Qed.
End ListenTexts.

(** ** Lists of allowed networks *)

Lemma splitBy_parts p s : Forall (Forall (fun c => p c = false)) (splitBy p s).
Proof.
  induction s as [|c s IH]; cbn [splitBy]; [by repeat constructor|]. pose proof (splitBy_nonempty p s) as Hn.
  destruct (splitBy p s) as [|w ws]; [done|]. destruct (p c) eqn:E; [by constructor|]. inversion IH; subst. by constructor; [constructor|].
Qed.

Section AllowLists.
Context (isSeparator : Z -> bool) (parseSubnet : qstring -> option (HostAddress * Z)).

Definition allowEntries (text : qstring) : list qstring :=
  List.filter (fun e => negb (isEmpty e)) (splitBy (fun c => (c =? ch ",") || isSeparator c) text).

Lemma single_entry text e : e ∈ allowEntries text -> allowEntries e = [e].
Proof.
  unfold allowEntries. intros [He Hne]%list_elem_of_In%filter_In. apply list_elem_of_In in He. pose proof (splitBy_parts (fun c => (c =? ch ",") || isSeparator c) text) as Hp.
  eapply Forall_forall in Hp; [|exact He]. rewrite splitBy_none by done. cbn [List.filter]. by rewrite Hne.
Qed.

(** A list that the command line accepts keeps every entry, so it is never the empty
    list, which would admit everyone. *)
Lemma valid_allow_kept text : headlessApiValidAllow isSeparator parseSubnet text = true ->
  length (ParseAllowList isSeparator parseSubnet text) = length (allowEntries text) /\ ParseAllowList isSeparator parseSubnet text <> [].
Proof.
  unfold headlessApiValidAllow. fold (allowEntries text). intros [Hne Hall]%andb_true_iff. rewrite forallb_forall in Hall.
  assert (forall e, e ∈ allowEntries text -> is_Some (allowEntry parseSubnet e)) as Hs.
  { intros e He. specialize (Hall e (proj1 (list_elem_of_In _ _) He)). apply Nat.eqb_eq in Hall. unfold ParseAllowList in Hall.
    fold (allowEntries e) in Hall. rewrite (single_entry text) in Hall by done. cbn [omap list_omap] in Hall. destruct (allowEntry parseSubnet e); [done|discriminate Hall]. }
  assert (length (ParseAllowList isSeparator parseSubnet text) = length (allowEntries text)) as El.
  { unfold ParseAllowList. fold (allowEntries text). clear Hall Hne. induction (allowEntries text) as [|e l IH]; [done|]. cbn [omap list_omap].
    destruct (Hs e) as [v ->]; [by left|]. cbn [length]. f_equal. apply IH. intros x Hx. apply Hs. by right. }
  split; [done|]. intros E. rewrite E in El. by destruct (allowEntries text).
Qed.
End AllowLists.
