(* ===== verification/RemoteServer.v ===== *)
(** * The listener of the remote API and its connections

    src/src/api/remote/Server.cpp: the worker that admits sockets, reads frames,
    hands requests to the UI thread and writes the answers. [World] is the worker
    with its sockets, the server and the exchanges that responders share; [step] is
    one event, so a list of events is any interleaving of sockets, timers, answers,
    configurations and the clock. Bytes arrive in chunks the events choose. *)

From Stdlib Require Import Ascii String.
From S2P Require Import Prelude QtText Json OtpWire RemoteProtocol RemoteConfig.

Local Open Scope Z_scope.
Local Open Scope throne_scope.
#[local] Set Warnings "-register-all".

(** ** Constants *)

Definition kMaxConnections : nat := 32.
Definition kMaxConnectionsPerPeer : Z := 8.
Definition kFailureLimit : nat := 5.
Definition kFailureWindowMs : Z := 60 * 1000.
Definition kRefusalMs : Z := 60 * 1000.
Definition kAuthExemptMs : Z := 10 * 60 * 1000.
Definition kPeerLogIntervalMs : Z := 60 * 1000.
Definition kMaxTrackedPeers : nat := 1024.
Definition counterMax : Z := 2 ^ 64 - 1.

(** ** State *)

Inductive Phase := Hello | Ready | Pending.
#[export] Instance Phase_eq_dec : EqDecision Phase.
Proof. solve_decision. Defined.

(** A connection with its socket: the bytes that arrived and were not read, and how
    many of those written have not left. An open one is in the map of the worker. *)
Record Connection := MkConnection {
  c_address : HostAddress; c_peer : qstring; c_input : bytes; c_unsent : Z; c_timer : bool; c_phase : Phase;
  c_serverRandom : bytes; c_keys : SessionKeys; c_received : Z; c_sent : Z; c_exchanges : Z;
  c_header : bytes; c_length : Z; c_body : bytes }.

Definition connEta (c : Connection) : Connection :=
  MkConnection (c_address c) (c_peer c) (c_input c) (c_unsent c) (c_timer c) (c_phase c) (c_serverRandom c) (c_keys c)
    (c_received c) (c_sent c) (c_exchanges c) (c_header c) (c_length c) (c_body c).
Definition set_c_input (v : bytes) (c : Connection) : Connection := ltac:(setter connEta c_input v c).
Definition set_c_unsent (v : Z) (c : Connection) : Connection := ltac:(setter connEta c_unsent v c).
Definition set_c_timer (v : bool) (c : Connection) : Connection := ltac:(setter connEta c_timer v c).
Definition set_c_phase (v : Phase) (c : Connection) : Connection := ltac:(setter connEta c_phase v c).
Definition set_c_keys (v : SessionKeys) (c : Connection) : Connection := ltac:(setter connEta c_keys v c).
Definition set_c_received (v : Z) (c : Connection) : Connection := ltac:(setter connEta c_received v c).
Definition set_c_sent (v : Z) (c : Connection) : Connection := ltac:(setter connEta c_sent v c).
Definition set_c_exchanges (v : Z) (c : Connection) : Connection := ltac:(setter connEta c_exchanges v c).
Definition set_c_header (v : bytes) (c : Connection) : Connection := ltac:(setter connEta c_header v c).
Definition set_c_length (v : Z) (c : Connection) : Connection := ltac:(setter connEta c_length v c).
Definition set_c_body (v : bytes) (c : Connection) : Connection := ltac:(setter connEta c_body v c).

Record FailureRecord := MkFailures { recent : list Z; refusedUntil : Z }.
Inductive ListenState := Off | Listening | KeyInvalid | BindFailed.
Record ApplyResult := MkResult { r_state : ListenState; r_address : HostAddress; r_port : Z }.
(** What the copies of one responder share. *)
Record Exchange := MkExchange { x_connection : Z; x_number : Z; x_answered : bool }.
(** The calls queued to the worker's thread. *)
Inductive Task := TApply (c : Config) | TDeliver (id number : Z) (r : Response) | TDrain.

Inductive Reason := TooManyFailures | NotAllowed | TooManyConnections | BadVersion | BadLength | NotAuthentic.
(** What crosses the sockets, the threads and the process, in order. *)
Inductive Effect :=
| Greeted (id : Z) (random : bytes)
| Arrived (id : Z) (chunk : bytes)
| Answered (id : Z) (key : bytes) (counter : Z) (plaintext : bytes)
| Closed (id : Z)
| Refused (address : HostAddress)
| Requested (id number : Z) (r : Request)
| Handed (r : Request) (exchange : nat)
| Replied (id number : Z) (r : Response)
| ApiPort (port : Z)
| Published (r : ApplyResult)
| Logged (peer : qstring) (why : Reason).

Record World := MkWorld {
  config_ : Config; result_ : ApplyResult; localAddress_ : HostAddress; listening_ : bool;
  connections_ : gmap Z Connection; perPeer_ : gmap qstring Z; failures_ : gmap qstring FailureRecord;
  authenticated_ : gmap qstring Z; peerLogged_ : gmap qstring Z; clock_ : Z; nextId_ : Z;
  started : bool; alive : bool; draining : bool; stopped_ : bool;
  exchanges : list Exchange; tasks : list Task; requests : list (Request * nat); effects : list Effect }.

Definition worldEta (w : World) : World :=
  MkWorld (config_ w) (result_ w) (localAddress_ w) (listening_ w) (connections_ w) (perPeer_ w) (failures_ w) (authenticated_ w)
    (peerLogged_ w) (clock_ w) (nextId_ w) (started w) (alive w) (draining w) (stopped_ w) (exchanges w) (tasks w) (requests w) (effects w).
Definition set_config_ (v : Config) (w : World) : World := ltac:(setter worldEta config_ v w).
Definition set_result_ (v : ApplyResult) (w : World) : World := ltac:(setter worldEta result_ v w).
Definition set_localAddress_ (v : HostAddress) (w : World) : World := ltac:(setter worldEta localAddress_ v w).
Definition set_listening_ (v : bool) (w : World) : World := ltac:(setter worldEta listening_ v w).
Definition set_connections_ (v : gmap Z Connection) (w : World) : World := ltac:(setter worldEta connections_ v w).
Definition set_perPeer_ (v : gmap qstring Z) (w : World) : World := ltac:(setter worldEta perPeer_ v w).
Definition set_failures_ (v : gmap qstring FailureRecord) (w : World) : World := ltac:(setter worldEta failures_ v w).
Definition set_authenticated_ (v : gmap qstring Z) (w : World) : World := ltac:(setter worldEta authenticated_ v w).
Definition set_peerLogged_ (v : gmap qstring Z) (w : World) : World := ltac:(setter worldEta peerLogged_ v w).
Definition set_clock_ (v : Z) (w : World) : World := ltac:(setter worldEta clock_ v w).
Definition set_nextId_ (v : Z) (w : World) : World := ltac:(setter worldEta nextId_ v w).
Definition set_started (v : bool) (w : World) : World := ltac:(setter worldEta started v w).
Definition set_alive (v : bool) (w : World) : World := ltac:(setter worldEta alive v w).
Definition set_draining (v : bool) (w : World) : World := ltac:(setter worldEta draining v w).
Definition set_stopped_ (v : bool) (w : World) : World := ltac:(setter worldEta stopped_ v w).
Definition set_exchanges (v : list Exchange) (w : World) : World := ltac:(setter worldEta exchanges v w).
Definition set_tasks (v : list Task) (w : World) : World := ltac:(setter worldEta tasks v w).
Definition set_requests (v : list (Request * nat)) (w : World) : World := ltac:(setter worldEta requests v w).
Definition emit (e : Effect) (w : World) : World := let v := effects w ++ [e] in ltac:(setter worldEta effects v w).

Definition put (id : Z) (c : Connection) (w : World) : World := set_connections_ (<[id := c]> (connections_ w)) w.

(** ** Peers *)

(** A dual-stack listener reports IPv4 peers as mapped IPv6 addresses. *)
Definition NormalizedPeer (a : HostAddress) : HostAddress := match toIPv4Address a with Some v4 => V4 v4 | None => a end.

Definition isLocal (w : World) (a : HostAddress) : bool :=
  isLoopback a || (negb (isNull (localAddress_ w)) && bool_decide (a = localAddress_ w)).
Definition isAllowed (w : World) (a : HostAddress) : bool :=
  if isLocal w a then true
  else if negb (lan (config_ w)) then false
  else if isEmpty (allow (config_ w)) then true
  else existsb (fun net => isInSubnet a net.1 net.2) (allow (config_ w)).
Definition refusedAt (fs : gmap qstring FailureRecord) (peer : qstring) (now : Z) : bool :=
  match fs !! peer with Some f => now <? refusedUntil f | None => false end.
Definition isRefused (w : World) (peer : qstring) : bool := refusedAt (failures_ w) peer (clock_ w).

(** At most one line a minute for a peer. *)
Definition logPeer (peer : qstring) (why : Reason) (w : World) : World :=
  let now := clock_ w in
  if match peerLogged_ w !! peer with Some t => now - t <? kPeerLogIntervalMs | None => false end then w
  else
    let m := if (kMaxTrackedPeers <=? size (peerLogged_ w))%nat then filter (fun p => now - p.2 < kPeerLogIntervalMs) (peerLogged_ w) else peerLogged_ w in
    emit (Logged peer why) (set_peerLogged_ (<[peer := now]> m) w).

(** The records of failures that a new one at [now] leaves. *)
Definition outdated (now : Z) (f : FailureRecord) : bool :=
  (refusedUntil f <=? now) && match last (recent f) with Some t => kFailureWindowMs <=? now - t | None => true end.
Definition failed (now : Z) (proven : bool) (f : FailureRecord) : FailureRecord :=
  let recent := List.filter (fun t => now - t <? kFailureWindowMs) (recent f) ++ [now] in
  if (kFailureLimit <=? length recent)%nat then MkFailures [] (if proven then refusedUntil f else now + kRefusalMs)
  else MkFailures recent (refusedUntil f).
Definition noFailures : FailureRecord := MkFailures [] 0.
Definition provenAt (auth : gmap qstring Z) (peer : qstring) (now : Z) : bool :=
  match auth !! peer with Some t => now - t <? kAuthExemptMs | None => false end.
(** The tables lose what is outdated once they are full. *)
Definition prunedFailures (now : Z) (fs : gmap qstring FailureRecord) : gmap qstring FailureRecord :=
  if (kMaxTrackedPeers <=? size fs)%nat then filter (fun p => outdated now p.2 = false) fs else fs.
Definition prunedProofs (now : Z) (auth : gmap qstring Z) : gmap qstring Z :=
  if (kMaxTrackedPeers <=? size auth)%nat then filter (fun p => now - p.2 < kAuthExemptMs) auth else auth.
Definition noteFailure (now : Z) (peer : qstring) (auth : gmap qstring Z) (fs : gmap qstring FailureRecord) : gmap qstring FailureRecord :=
  let fs := prunedFailures now fs in
  <[peer := failed now (provenAt auth peer now) (default noFailures (fs !! peer))]> fs.
Definition noteProof (now : Z) (peer : qstring) (auth : gmap qstring Z) : gmap qstring Z :=
  let auth := prunedProofs now auth in
  <[peer := now]> auth.
Definition noteAuthenticated (peer : qstring) (w : World) : World := set_authenticated_ (noteProof (clock_ w) peer (authenticated_ w)) w.

(** ** Closing *)

Definition released (peer : qstring) (m : gmap qstring Z) : gmap qstring Z :=
  let n := default 0 (m !! peer) - 1 in if n <=? 0 then delete peer m else <[peer := n]> m.
Definition closeConnection (id : Z) (w : World) : World :=
  match connections_ w !! id with
  | None => w
  | Some c => emit (Closed id) (set_perPeer_ (released (c_peer c) (perPeer_ w)) (set_connections_ (delete id (connections_ w)) w))
  end.
Definition closeMany (ids : list Z) (w : World) : World := fold_left (fun w id => closeConnection id w) ids w.
Definition closeAll (w : World) : World := closeMany (map fst (map_to_list (connections_ w))) w.
Definition fail (id : Z) (why : Reason) (w : World) : World :=
  match connections_ w !! id with
  | None => w
  | Some c =>
      let w := logPeer (c_peer c) why w in
      let w := if isLocal w (c_address c) then w
               else set_failures_ (noteFailure (clock_ w) (c_peer c) (authenticated_ w) (failures_ w)) w in
      closeConnection id w
  end.

(** ** Requests *)

Section Worker.
Context `{C : Crypto} (fromJson : bytes -> option QJsonValue) (toJson : QJsonValue -> bytes).
Context (problemText : RequestProblem -> qstring) (tooLargeText droppedText exitingText : qstring).
Context (addressText : HostAddress -> qstring).

Definition tooLarge : Response := Error 500 (qs "internal") tooLargeText.
Definition dropped : Response := Error 500 (qs "internal") droppedText.
Definition exiting : Response := Error 503 (qs "exiting") exitingText.

Definition answerText (r : Response) : bytes :=
  let plaintext := SerializeResponse toJson r in
  if kMaxServerFrame - Z.of_nat kTagSize <? qsize plaintext then SerializeResponse toJson tooLarge else plaintext.
Definition sendResponse (id : Z) (r : Response) (w : World) : World :=
  match connections_ w !! id with
  | None => w
  | Some c =>
      let plaintext := answerText r in
      if c_sent c =? counterMax then closeConnection id w
      else
        let frame := SealFrame (s2c (c_keys c)) (c_sent c) plaintext in
        emit (Answered id (s2c (c_keys c)) (c_sent c) plaintext)
          (put id (set_c_timer true (set_c_phase Ready (set_c_sent (c_sent c + 1) (set_c_unsent (c_unsent c + qsize frame) c)))) w)
  end.

Definition handleRequest (id : Z) (plaintext : bytes) (w : World) : World :=
  match connections_ w !! id with
  | None => w
  | Some c =>
      match ParseRequest fromJson plaintext with
      | inl p => sendResponse id (Error 400 (qs "bad_request") (problemText p)) w
      | inr r =>
          let r := MkRequest (method r) (path r) (query r) (body r) (c_peer c) (isLocal w (c_address c) || adminLan (config_ w)) in
          let number := c_exchanges c + 1 in
          let w := put id (set_c_exchanges number (set_c_timer false (set_c_phase Pending c))) w in
          emit (Requested id number r)
            (set_requests (requests w ++ [(r, length (exchanges w))]) (set_exchanges (exchanges w ++ [MkExchange id number false]) w))
      end
  end.

(** What one round of the loop of processInput finds: it waits for more, it ends
    the connection, or a step was made. *)
Inductive Round := Waits (c : Connection) | Fails (c : Connection) (why : Reason) | Ends | Greets (c : Connection) | Receives (c : Connection) (plaintext : bytes).

Definition readHello (configKey : bytes) (c : Connection) : Round :=
  if (length (c_input c) <? kClientHelloSize)%nat then Waits c
  else
    let hello := take kClientHelloSize (c_input c) in
    let c := set_c_input (drop kClientHelloSize (c_input c)) c in
    if negb (hd 0 hello =? kProtocolVersion) then Fails c BadVersion
    else Greets (set_c_timer true (set_c_phase Ready (set_c_keys (DeriveKeys configKey (c_serverRandom c) (drop 1 hello)) c))).

(** The header once it is there, unless its length is out of range. *)
Definition readHeader (c : Connection) : Round + Connection :=
  if negb (isEmpty (c_header c)) then inr c
  else if (length (c_input c) <? kFrameHeaderSize)%nat then inl (Waits c)
  else
    let header := take kFrameHeaderSize (c_input c) in
    let length := beNumber header in
    let c := set_c_length length (set_c_header header (set_c_input (drop kFrameHeaderSize (c_input c)) c)) in
    if (length <? Z.of_nat kTagSize) || (kMaxClientFrame <? length) then inl (Fails c BadLength) else inr c.

Definition readFrame (c : Connection) : Round :=
  match readHeader c with
  | inl r => r
  | inr c =>
      let missing := (Z.to_nat (c_length c) - length (c_body c))%nat in
      let c := set_c_body (c_body c ++ take missing (c_input c)) (set_c_input (drop missing (c_input c)) c) in
      if qsize (c_body c) <? c_length c then Waits c
      else if c_received c =? counterMax then Ends
      else
        let opened := OpenFrame (c2s (c_keys c)) (c_received c) (c_header c) (c_body c) in
        let c := set_c_header [] (set_c_body [] c) in
        match opened with
        | None => Fails c NotAuthentic
        | Some plaintext => Receives (set_c_received (c_received c + 1) c) plaintext
        end
  end.

Definition readRound (configKey : bytes) (c : Connection) : Round :=
  match c_phase c with
  | Hello => readHello configKey c
  | Pending => Waits c
  | Ready => if 0 <? c_unsent c then Waits c else readFrame c
  end.

(** A round that is not the last uses up bytes at hand, so these are the fuel. *)
Fixpoint inputLoop (fuel : nat) (id : Z) (w : World) : World :=
  match fuel with
  | O => w
  | S fuel =>
      match connections_ w !! id with
      | None => w
      | Some c =>
          match readRound (key (config_ w)) c with
          | Waits c => put id c w
          | Fails c why => fail id why (put id c w)
          | Ends => closeConnection id w
          | Greets c => inputLoop fuel id (put id c w)
          | Receives c plaintext =>
              let w := put id c w in
              let w := if isLocal w (c_address c) then w else noteAuthenticated (c_peer c) w in
              inputLoop fuel id (handleRequest id plaintext w)
          end
      end
  end.
Definition inputFuel (id : Z) (w : World) : nat := match connections_ w !! id with Some c => S (length (c_input c) + length (c_header c) + length (c_body c)) | None => O end.
Definition processInput (id : Z) (w : World) : World := inputLoop (inputFuel id w) id w.

Definition deliver (id number : Z) (r : Response) (w : World) : World :=
  match connections_ w !! id with
  | None => w
  | Some c =>
      if negb (bool_decide (c_phase c = Pending)) || negb (c_exchanges c =? number) then w
      else processInput id (sendResponse id r w)
  end.

(** ** Admission *)

Definition refusal (w : World) (a : HostAddress) : option Reason :=
  let peer := addressText a in
  let local := isLocal w a in
  if negb local && isRefused w peer then Some TooManyFailures
  else if negb (isAllowed w a) then Some NotAllowed
  else if (kMaxConnections <=? size (connections_ w))%nat || (negb local && (kMaxConnectionsPerPeer <=? default 0 (perPeer_ w !! peer)))
  then Some TooManyConnections
  else None.

Definition newConnection (a : HostAddress) (random input : bytes) : Connection :=
  MkConnection a (addressText a) input (qsize random) true Hello random (MkKeys [] []) 0 0 0 [] 0 [].
(** [input]: what the socket holds already. *)
Definition admit_ (socketAddress : HostAddress) (random input : bytes) (w : World) : World :=
  let a := NormalizedPeer socketAddress in
  let peer := addressText a in
  match refusal w a with
  | Some why => emit (Refused a) (logPeer peer why w)
  | None =>
      let id := nextId_ w in
      let w := put id (newConnection a random input) (set_nextId_ (id + 1) w) in
      let w := set_perPeer_ (<[peer := default 0 (perPeer_ w !! peer) + 1]> (perPeer_ w)) w in
      processInput id (emit (Arrived id input) (emit (Greeted id random) w))
  end.

(** ** Listening *)

Definition stopListening (w : World) : World :=
  if negb (listening_ w) then w
  else emit (ApiPort 0) (set_localAddress_ NullAddress (set_listening_ false w)).
Definition finish (r : ApplyResult) (w : World) : World := emit (Published r) (set_result_ r w).

Definition sameListener (w : World) (c : Config) : bool :=
  listening_ w && enabled c && bool_decide (length (key c) = kKeySize) && (port c =? port (config_ w)) &&
  Bool.eqb (lan c) (lan (config_ w)) && bool_decide (address c = address (config_ w)) && bool_decide (key c = key (config_ w)).

(** [bound]: the port that the operating system bound, or that it refused. *)
Definition listenOn (c : Config) (bound : option Z) (w : World) : World :=
  let explicit := negb (isNull (address c)) in
  let a := if explicit then address c else if lan c then AnyAddress else LocalHost in
  match bound with
  | None => finish (MkResult BindFailed a (port c)) (emit (ApiPort 0) w)
  | Some serverPort =>
      let w := emit (ApiPort (if isLoopback a then 0 else serverPort)) (set_listening_ true w) in
      let w := if explicit && negb (everyAddress a) then set_localAddress_ (NormalizedPeer a) w else w in
      finish (MkResult Listening a (port c)) w
  end.

Definition notAllowedNow (w : World) : list Z :=
  map fst (List.filter (fun p => negb (isAllowed w (c_address p.2))) (map_to_list (connections_ w))).
Definition apply (c : Config) (bound : option Z) (w : World) : World :=
  let same := sameListener w c in
  let allowChanged := negb (bool_decide (allow c = allow (config_ w))) in
  let w := set_config_ c w in
  if same then if allowChanged then closeMany (notAllowedNow w) w else w
  else
    let w := stopListening (closeAll w) in
    if negb (enabled c) then finish (MkResult Off NullAddress (port c)) w
    else if negb (bool_decide (length (key c) = kKeySize)) then finish (MkResult KeyInvalid NullAddress (port c)) w
    else listenOn c bound w.

(** ** Exchanges, the UI thread and the events *)

Definition answer (i : nat) (r : Response) (w : World) : World :=
  match exchanges w !! i with
  | Some x =>
      if x_answered x then w
      else
        let w := set_exchanges (<[i := MkExchange (x_connection x) (x_number x) true]> (exchanges w)) w in
        if alive w then emit (Replied (x_connection x) (x_number x) r) (set_tasks (tasks w ++ [TDeliver (x_connection x) (x_number x) r]) w) else w
  | None => w
  end.

(** Server::dispatch on the UI thread. *)
Definition dispatch (hasDispatcher : bool) (w : World) : World :=
  match requests w with
  | [] => w
  | (r, i) :: rest =>
      let w := set_requests rest w in
      if stopped_ w || negb hasDispatcher then answer i exiting w else emit (Handed r i) w
  end.

Definition runTask (bound : option Z) (w : World) : World :=
  match tasks w with
  | [] => w
  | t :: rest =>
      let w := set_tasks rest w in
      match t with
      | TApply c => apply c bound w
      | TDeliver id number r => deliver id number r w
      | TDrain => set_draining true (stopListening w)
      end
  end.

(** Server::apply and Server::shutdown. *)
Definition off (port : Z) : ApplyResult := MkResult Off NullAddress port.
Definition requestApply (c : Config) (w : World) : World :=
  if stopped_ w then w
  else if started w then set_tasks (tasks w ++ [TApply c]) w
  else if negb (enabled c) then emit (Published (off (port c))) w
  else set_tasks (tasks w ++ [TApply c]) (set_alive true (set_started true w)).
Definition shutdown (w : World) : World :=
  if stopped_ w then w
  else
    let w := set_stopped_ true w in
    if started w then set_tasks (tasks w ++ [TDrain]) w else emit (Published (off 0)) w.

Inductive Event :=
| ETick (ms : Z)
| EConnect (a : HostAddress) (random input : bytes)
| EData (id : Z) (chunk : bytes)
| EWritten (id n : Z)
| EGone (id : Z)
| ETimer (id : Z)
| EAnswer (i : nat) (r : Response)
| EDrop (i : nat)
| EDispatch (hasDispatcher : bool)
| ETask (bound : option Z)
| EApply (c : Config)
| EShutdown
| EDrained.

Definition areBytes (bs : bytes) : bool := forallb (fun b => (0 <=? b) && (b <? 256)) bs.
Definition onConnection (id : Z) (f : Connection -> World) (w : World) : World := match connections_ w !! id with Some c => f c | None => w end.
Definition step (w : World) (e : Event) : World :=
  match e with
  | ETick ms => set_clock_ (clock_ w + Z.max 0 ms) w
  | EConnect a random input =>
      if listening_ w && negb (draining w) && (length random =? kRandomSize)%nat && areBytes input then admit_ a random input w else w
  | EData id chunk =>
      onConnection id (fun c => if areBytes chunk then processInput id (emit (Arrived id chunk) (put id (set_c_input (c_input c ++ chunk) c) w)) else w) w
  | EWritten id n =>
      onConnection id (fun c =>
        if (0 <? n) && (n <=? c_unsent c) then
          let w := put id (set_c_unsent (c_unsent c - n) c) w in if c_unsent c - n =? 0 then processInput id w else w
        else w) w
  | EGone id => closeConnection id w
  | ETimer id => onConnection id (fun c => if c_timer c && negb (draining w) then closeConnection id w else w) w
  | EAnswer i r => answer i r w
  | EDrop i => answer i dropped w
  | EDispatch hasDispatcher => dispatch hasDispatcher w
  | ETask bound => if alive w && negb (draining w) then runTask bound w else w
  | EApply c => requestApply c w
  | EShutdown => shutdown w
  | EDrained => if draining w then emit (Published (off 0)) (set_alive false (set_draining false (closeAll w))) else w
  end.
Definition run (w : World) (es : list Event) : World := fold_left step es w.
End Worker.

Definition newWorld : World :=
  MkWorld newConfig (MkResult Off NullAddress 0) NullAddress false ∅ ∅ ∅ ∅ ∅ 0 1 false false false false [] [] [] [].
