(* ===== verification/RemoteMoves.v ===== *)
(** * The moves of the remote API server

    Every event of RemoteServer is a sequence of the moves below: each changes one
    connection, one exchange or the listener and keeps the promises that the
    invariants need. [step_moves] is the decomposition; an invariant is proved on
    the moves. [inputLoop_enough] shows that the loop over the input never runs out
    of fuel. *)

From Stdlib Require Import Ascii String.
From stdpp Require Import relations.
From S2P Require Import Prelude QtText Json OtpWire RemoteProtocol RemoteConfig RemoteServer.

Local Open Scope Z_scope.
Local Open Scope throne_scope.
#[local] Set Warnings "-register-all".

(** What the helpers leave alone: fields of records of setters. *)
Ltac fields :=
  cbn [config_ result_ localAddress_ listening_ connections_ perPeer_ failures_ authenticated_ peerLogged_ clock_ nextId_ started alive draining
       stopped_ exchanges tasks requests effects set_config_ set_result_ set_localAddress_ set_listening_ set_connections_ set_perPeer_
       set_failures_ set_authenticated_ set_peerLogged_ set_clock_ set_nextId_ set_started set_alive set_draining set_stopped_ set_exchanges
       set_tasks set_requests emit put
       c_address c_peer c_input c_unsent c_timer c_phase c_serverRandom c_keys c_received c_sent c_exchanges c_header c_length c_body
       set_c_input set_c_unsent set_c_timer set_c_phase set_c_keys set_c_received set_c_sent set_c_exchanges set_c_header set_c_length set_c_body] in *.

(** Effects that say nothing about a connection or a request. *)
Definition quiet (e : Effect) : Prop :=
  match e with Refused _ | ApiPort _ | Published _ | Logged _ _ | Handed _ _ => True | _ => False end.

(** [w'] differs from [w] in its notes on peers, its clock, its result and quiet effects only. *)
Record Noted (w w' : World) : Prop := {
  no_config : config_ w' = config_ w; no_local : localAddress_ w' = localAddress_ w; no_listening : listening_ w' = listening_ w;
  no_draining : draining w' = draining w; no_alive : alive w' = alive w; no_connections : connections_ w' = connections_ w;
  no_perPeer : perPeer_ w' = perPeer_ w; no_next : nextId_ w' = nextId_ w; no_exchanges : exchanges w' = exchanges w;
  no_tasks : tasks w' = tasks w; no_requests : requests w' = requests w;
  no_effects : exists es, effects w' = effects w ++ es /\ Forall quiet es }.

(** [w'] differs in the listener and its configuration too. *)
Record Relistened (w w' : World) : Prop := {
  re_draining : draining w' = draining w; re_alive : alive w' = alive w; re_connections : connections_ w' = connections_ w;
  re_perPeer : perPeer_ w' = perPeer_ w; re_next : nextId_ w' = nextId_ w; re_exchanges : exchanges w' = exchanges w;
  re_tasks : tasks w' = tasks w; re_requests : requests w' = requests w;
  re_effects : exists es, effects w' = effects w ++ es /\ Forall quiet es }.

(** ** Closing connections *)

Lemma close_connections id w : connections_ (closeConnection id w) = delete id (connections_ w).
Proof. unfold closeConnection. case_match eqn:Hc; fields; [done|]. by rewrite delete_id. Qed.
Lemma closeMany_lookup ids : forall w id, connections_ (closeMany ids w) !! id = if bool_decide (id ∈ ids) then None else connections_ w !! id.
Proof.
  induction ids as [|i ids IH]; intros w id; cbn [closeMany fold_left]; [by rewrite bool_decide_eq_false_2 by (apply not_elem_of_nil)|].
  fold (closeMany ids (closeConnection i w)). rewrite IH, close_connections. destruct (decide (id = i)) as [->|Hne].
  - rewrite (bool_decide_eq_true_2 (i ∈ i :: ids)) by left. rewrite lookup_delete_eq. by case_match.
  - rewrite lookup_delete_ne by done. replace (bool_decide (id ∈ i :: ids)) with (bool_decide (id ∈ ids)); [done|].
    apply bool_decide_ext. rewrite elem_of_cons. naive_solver.
Qed.
Lemma closeAll_none w : connections_ (closeAll w) = ∅.
Proof.
  apply map_eq. intros id. unfold closeAll. rewrite closeMany_lookup, lookup_empty. case_bool_decide as H; [done|].
  destruct (connections_ w !! id) as [c|] eqn:E; [|done]. destruct H. apply (list_elem_of_fmap_2 fst _ (id, c)). by apply elem_of_map_to_list.
Qed.

Lemma close_config c id w : closeConnection id (set_config_ c w) = set_config_ c (closeConnection id w).
Proof. unfold closeConnection. fields. by case_match. Qed.
Lemma closeMany_config c ids : forall w, closeMany ids (set_config_ c w) = set_config_ c (closeMany ids w).
Proof. unfold closeMany. induction ids as [|id ids IH]; intros w; cbn [fold_left]; [done|]. by rewrite close_config, IH. Qed.

Section Moves.
Context `{C : Crypto} (fromJson : bytes -> option QJsonValue) (toJson : QJsonValue -> bytes).
Context (problemText : RequestProblem -> qstring) (tooLargeText droppedText exitingText : qstring).
Context (addressText : HostAddress -> qstring).

Abbreviation sendResponse := (sendResponse toJson tooLargeText).
Abbreviation handleRequest := (handleRequest fromJson toJson problemText tooLargeText).
Abbreviation processInput := (processInput fromJson toJson problemText tooLargeText).
Abbreviation inputLoop := (inputLoop fromJson toJson problemText tooLargeText).
Abbreviation step := (step fromJson toJson problemText tooLargeText droppedText exitingText addressText).

Definition opened (a : HostAddress) (random input : bytes) (w : World) : World :=
  let peer := addressText a in
  emit (Arrived (nextId_ w) input) (emit (Greeted (nextId_ w) random)
    (set_perPeer_ (<[peer := default 0 (perPeer_ w !! peer) + 1]> (perPeer_ w))
      (put (nextId_ w) (newConnection addressText a random input) (set_nextId_ (nextId_ w + 1) w)))).

Inductive Move (w : World) : World -> Prop :=
| MNote w' : Noted w w' -> Move w w'
| MOpen a random input : Forall isByte input -> listening_ w = true -> draining w = false -> length random = kRandomSize -> refusal addressText w a = None -> Move w (opened a random input w)
| MArrive id c chunk : Forall isByte chunk -> connections_ w !! id = Some c -> Move w (emit (Arrived id chunk) (put id (set_c_input (c_input c ++ chunk) c) w))
| MLeave id c n : connections_ w !! id = Some c -> 0 < n <= c_unsent c -> Move w (put id (set_c_unsent (c_unsent c - n) c) w)
| MRead id c c' : connections_ w !! id = Some c -> readRound (key (config_ w)) c = Waits c' -> Move w (put id c' w)
| MGreet id c c' : connections_ w !! id = Some c -> readRound (key (config_ w)) c = Greets c' -> Move w (put id c' w)
| MReceive id c c' p : connections_ w !! id = Some c -> readRound (key (config_ w)) c = Receives c' p -> Move w (handleRequest id p (put id c' w))
| MClose id c : connections_ w !! id = Some c -> Move w (closeConnection id w)
| MPop t rest : tasks w = t :: rest -> match t with TDeliver id n _ => forall c, connections_ w !! id = Some c -> ~ (c_phase c = Pending /\ c_exchanges c = n) | _ => True end ->
    Move w (set_tasks rest w)
| MDeliver id c n r rest : tasks w = TDeliver id n r :: rest -> connections_ w !! id = Some c -> c_phase c = Pending -> c_exchanges c = n ->
    Move w (sendResponse id r (set_tasks rest w))
| MPost t : match t with TDeliver _ _ _ => False | _ => True end -> Move w (set_tasks (tasks w ++ [t]) w)
| MAnswer i r : Move w (answer i r w)
| MTake r i rest : requests w = (r, i) :: rest -> Move w (set_requests rest w)
| MFlags s d : Move w (set_started s (set_stopped_ d w))
| MAlive : Move w (set_alive true w)
| MSame c : sameListener w c = true -> allow c = allow (config_ w) -> Move w (set_config_ c w)
| MAllow c : sameListener w c = true -> Move w (closeMany (notAllowedNow (set_config_ c w)) (set_config_ c w))
| MListen w' : connections_ w = ∅ -> Relistened w w' -> Move w w'
| MDrain : Move w (set_draining true (stopListening w))
| MDrained : connections_ w = ∅ -> Move w (set_alive false (set_draining false w)).

(** ** The loop over the input *)

Lemma round_waits k c c' : readRound k c = Waits c' -> c_peer c' = c_peer c /\ c_address c' = c_address c.
Proof. unfold readRound, readHello, readFrame, readHeader. intros H. repeat case_match; simplify_eq; done. Qed.
Lemma round_fails k c c' why : readRound k c = Fails c' why -> c_peer c' = c_peer c /\ c_address c' = c_address c.
Proof. unfold readRound, readHello, readFrame, readHeader. intros H. repeat case_match; simplify_eq; done. Qed.

Definition inputSize (c : Connection) : nat := length (c_input c) + length (c_header c) + length (c_body c).
Lemma round_shrinks k c c' : (readRound k c = Greets c' \/ exists p, readRound k c = Receives c' p) -> (inputSize c' < inputSize c)%nat.
Proof.
  unfold readRound, readHello, readFrame, readHeader, inputSize. intros H.
  repeat case_match; destruct H as [H|[? H]]; simplify_eq; fields; rewrite ?length_drop, ?length_app, ?length_take; cbn [length].
  - apply Nat.ltb_ge in H1. unfold kClientHelloSize, kRandomSize in *. lia.
  - destruct (c_header c0); [done|]. cbn [length]. lia.
  - rename select ((length (c_input c) <? kFrameHeaderSize)%nat = false) into Hl. apply Nat.ltb_ge in Hl. unfold kFrameHeaderSize in *. cbn [length]. lia.
Qed.

Lemma send_size id c r w : connections_ w !! id = Some c -> forall c', connections_ (sendResponse id r w) !! id = Some c' -> inputSize c' = inputSize c.
Proof.
  intros Hc c'. unfold RemoteServer.sendResponse. rewrite Hc. case_match.
  - unfold closeConnection. rewrite Hc. fields. by rewrite lookup_delete_eq.
  - fields. rewrite lookup_insert_eq. by intros [= <-].
Qed.
Lemma handle_size id c p w : connections_ w !! id = Some c -> forall c', connections_ (handleRequest id p w) !! id = Some c' -> inputSize c' = inputSize c.
Proof.
  intros Hc c'. unfold RemoteServer.handleRequest. rewrite Hc. destruct (ParseRequest fromJson p); [by apply send_size|].
  fields. rewrite lookup_insert_eq. by intros [= <-].
Qed.

(** More fuel than the bytes at hand changes nothing. *)
Lemma inputLoop_enough id extra : forall fuel w, (inputFuel id w <= fuel)%nat -> inputLoop (fuel + extra) id w = inputLoop fuel id w.
Proof.
  induction fuel as [|fuel IH]; intros w Hf.
  - unfold inputFuel in Hf. destruct (connections_ w !! id) as [c|] eqn:Hc; [lia|]. destruct extra; cbn [Nat.add RemoteServer.inputLoop]; [done|]. by rewrite Hc.
  - cbn [Nat.add RemoteServer.inputLoop]. unfold inputFuel in Hf. destruct (connections_ w !! id) as [c|] eqn:Hc; [|done]. fold (inputSize c) in Hf.
    destruct (readRound _ c) as [c'|c' why| |c'|c' p] eqn:Er; try done; apply IH; unfold inputFuel.
    + fields. rewrite lookup_insert_eq. fold (inputSize c'). pose proof (round_shrinks _ c c' ltac:(left; exact Er)). lia.
    + pose proof (round_shrinks _ c c' ltac:(right; by eexists)).
      case_match eqn:Hh; [|lia]. fold (inputSize c0). enough (inputSize c0 = inputSize c') by lia.
      eapply handle_size; [|exact Hh]. destruct (isLocal _ _); unfold noteAuthenticated; fields; by rewrite lookup_insert_eq.
Qed.

(** ** Every event is a sequence of moves *)

Lemma noted_logPeer peer why w : Noted w (logPeer peer why w).
Proof.
  unfold logPeer. repeat case_match; (split; try done); fields; first [exists []; by rewrite app_nil_r|eexists; split; [done|by repeat constructor]].
Qed.
Lemma noted_trans w1 w2 w3 : Noted w1 w2 -> Noted w2 w3 -> Noted w1 w3.
Proof.
  intros [] []. split; try congruence. destruct no_effects0 as (e1 & E1 & F1), no_effects1 as (e2 & E2 & F2).
  exists (e1 ++ e2). rewrite E2, E1, app_assoc. split; [done|by apply Forall_app].
Qed.
Lemma noted_failures m w : Noted w (set_failures_ m w).
Proof. split; try done. exists []. by rewrite app_nil_r. Qed.
Lemma noted_proof peer w : Noted w (noteAuthenticated peer w).
Proof. split; try done. exists []. by rewrite app_nil_r. Qed.

Lemma move_one w w' : Move w w' -> rtc Move w w'.
Proof. apply rtc_once. Qed.
Hint Resolve move_one rtc_refl : throne.

(** A connection that fails is closed as it was, after the notes. *)
Lemma fail_moves id c c' why w : connections_ w !! id = Some c -> c_peer c' = c_peer c -> c_address c' = c_address c -> rtc Move w (fail id why (put id c' w)).
Proof.
  intros Hc Hp Ha. unfold fail. fields. rewrite lookup_insert_eq. rewrite Hp, Ha.
  set (w1 := logPeer (c_peer c) why w). pose proof (noted_logPeer (c_peer c) why w) as Hn. fold w1 in Hn.
  assert (logPeer (c_peer c) why (put id c' w) = put id c' w1) as ->.
  { unfold w1, logPeer. fields. by case_match. }
  assert (isLocal (put id c' w1) = isLocal w1) as -> by done.
  set (w2 := if isLocal w1 (c_address c) then w1 else set_failures_ (noteFailure (clock_ w1) (c_peer c) (authenticated_ w1) (failures_ w1)) w1).
  assert ((if isLocal w1 (c_address c) then put id c' w1 else
    set_failures_ (noteFailure (clock_ (put id c' w1)) (c_peer c) (authenticated_ (put id c' w1)) (failures_ (put id c' w1))) (put id c' w1)) = put id c' w2) as -> by (unfold w2; by case_match).
  assert (Noted w w2) as Hn2 by (eapply noted_trans; [exact Hn|]; unfold w2; case_match; [split; try done; exists []; by rewrite app_nil_r|apply noted_failures]).
  assert (connections_ w2 !! id = Some c) as Hc2 by (by rewrite (no_connections _ _ Hn2)).
  assert (closeConnection id (put id c' w2) = closeConnection id w2) as ->.
  { unfold closeConnection. fields. rewrite lookup_insert_eq, Hc2, Hp, delete_insert_eq. done. }
  eapply rtc_l; [by apply MNote|]. apply rtc_once. by eapply MClose.
Qed.

Lemma input_moves id : forall fuel w, rtc Move w (inputLoop fuel id w).
Proof.
  induction fuel as [|fuel IH]; intros w; cbn [RemoteServer.inputLoop]; [done|].
  destruct (connections_ w !! id) as [c|] eqn:Hc; [|done]. destruct (readRound _ c) as [c'|c' why| |c'|c' p] eqn:Er.
  - apply rtc_once. by eapply MRead.
  - apply round_fails in Er as [Hp Ha]. by eapply fail_moves.
  - apply rtc_once. by eapply MClose.
  - eapply rtc_l; [by eapply MGreet|]. apply IH.
  - set (w1 := if isLocal w (c_address c') then w else noteAuthenticated (c_peer c') w).
    assert (Noted w w1) as Hn by (unfold w1; case_match; [split; try done; exists []; by rewrite app_nil_r|apply noted_proof]).
    replace (if isLocal (put id c' w) (c_address c') then put id c' w else noteAuthenticated (c_peer c') (put id c' w)) with (put id c' w1)
      by (unfold w1; change (isLocal (put id c' w)) with (isLocal w); by case_match).
    eapply rtc_l; [by apply MNote|]. eapply rtc_l; [|apply IH]. eapply MReceive; [by rewrite (no_connections _ _ Hn)|by rewrite (no_config _ _ Hn)].
Qed.

Lemma close_moves id w : rtc Move w (closeConnection id w).
Proof.
  destruct (connections_ w !! id) as [c|] eqn:Hc; [apply rtc_once; by eapply MClose|]. unfold closeConnection. by rewrite Hc.
Qed.
Lemma closeMany_moves ids : forall w, rtc Move w (closeMany ids w).
Proof. induction ids as [|id ids IH]; intros w; cbn; [done|]. etransitivity; [apply close_moves|apply IH]. Qed.

Lemma apply_moves c bound w : rtc Move w (apply c bound w).
Proof.
  unfold apply. destruct (sameListener w c) eqn:Es.
  - case_bool_decide as Ea; cbn [negb]; [apply rtc_once; by apply MSame|]. apply rtc_once. by apply MAllow.
  - assert (closeAll (set_config_ c w) = set_config_ c (closeAll w)) as -> by apply closeMany_config.
    etransitivity; [apply closeMany_moves|]. fold (closeAll w). set (w1 := closeAll w). apply rtc_once. apply MListen; [apply closeAll_none|].
    unfold stopListening, listenOn, finish. fields.
    repeat case_match; split; try done; fields; rewrite <- ?app_assoc; try (eexists; split; [reflexivity|by repeat constructor]).
Qed.

Lemma deliver_moves id n r rest w : tasks w = TDeliver id n r :: rest ->
  rtc Move w (deliver fromJson toJson problemText tooLargeText id n r (set_tasks rest w)).
Proof.
  intros Ht. unfold deliver. fields. destruct (connections_ w !! id) as [c|] eqn:Hc.
  - case_bool_decide as Hp; [destruct (Z.eqb_spec (c_exchanges c) n) as [Hn|Hn]|]; cbn [negb orb].
    + eapply rtc_l; [by eapply MDeliver|apply input_moves].
    + apply rtc_once. eapply MPop; [done|]. intros c' Hc'. naive_solver.
    + apply rtc_once. eapply MPop; [done|]. intros c' Hc'. naive_solver.
  - apply rtc_once. eapply MPop; [done|]. intros c' Hc'. naive_solver.
Qed.

Lemma task_moves bound w : rtc Move w (runTask fromJson toJson problemText tooLargeText bound w).
Proof.
  unfold runTask. destruct (tasks w) as [|[c|id n r|] rest] eqn:Ht; [done|..].
  - eapply rtc_l; [by eapply MPop|apply apply_moves].
  - by apply deliver_moves.
  - eapply rtc_l; [by eapply MPop|]. apply rtc_once. apply MDrain.
Qed.

Lemma areBytes_spec bs : areBytes bs = true -> Forall isByte bs.
Proof.
  unfold areBytes. rewrite forallb_forall, Forall_forall. intros H b Hb%list_elem_of_In. specialize (H b Hb). bprop. unfold isByte. lia.
Qed.

Lemma admit_moves a random input w : Forall isByte input -> listening_ w = true -> draining w = false -> length random = kRandomSize ->
  rtc Move w (admit_ fromJson toJson problemText tooLargeText addressText a random input w).
Proof.
  intros Hi Hl Hd Hr. unfold admit_. destruct (refusal addressText w (NormalizedPeer a)) as [why|] eqn:Er.
  - apply rtc_once. apply MNote. eapply noted_trans; [apply noted_logPeer|]. split; try done. eexists. by repeat constructor.
  - eapply rtc_l; [by apply (MOpen _ (NormalizedPeer a) random input)|]. apply input_moves.
Qed.

Lemma step_moves w e : rtc Move w (step w e).
Proof.
  destruct e as [ms|a random input|id chunk|id n|id|id|i r|i|d|bound|c| |]; cbn [RemoteServer.step]; unfold onConnection.
  - apply rtc_once, MNote. split; try done. exists []. by rewrite app_nil_r.
  - destruct (listening_ w) eqn:Hl; [|done]. destruct (draining w) eqn:Hd; [done|]. destruct (Nat.eqb_spec (length random) kRandomSize); [|done].
    destruct (areBytes input) eqn:Eb; [|done]. apply admit_moves; [by apply areBytes_spec|done..].
  - destruct (connections_ w !! id) as [c|] eqn:Hc; [|done]. destruct (areBytes chunk) eqn:Eb; [|done].
    eapply rtc_l; [eapply MArrive; [by apply areBytes_spec|exact Hc]|apply input_moves].
  - destruct (connections_ w !! id) as [c|] eqn:Hc; [|done]. destruct (Z.ltb_spec 0 n); [|done]. destruct (Z.leb_spec n (c_unsent c)); [|done]. cbn [andb].
    eapply rtc_l; [by eapply MLeave|]. case_match; [apply input_moves|done].
  - apply close_moves.
  - destruct (connections_ w !! id) as [c|] eqn:Hc; [|done]. case_match; [apply close_moves|done].
  - apply rtc_once, MAnswer.
  - apply rtc_once, MAnswer.
  - unfold dispatch. destruct (requests w) as [|[r i] rest] eqn:Hr; [done|]. eapply rtc_l; [by eapply MTake|].
    case_match; apply rtc_once; [apply MAnswer|]. apply MNote. split; try done. eexists. by repeat constructor.
  - case_match; [apply task_moves|done].
  - unfold requestApply. case_match; [done|]. case_match; [apply rtc_once; by apply (MPost w (TApply c))|]. case_match.
    + apply rtc_once, MNote. split; try done. eexists. by repeat constructor.
    + eapply rtc_l; [by apply (MPost w (TApply c))|]. set (w1 := set_tasks _ w). eapply rtc_l; [apply (MFlags w1 true (stopped_ w))|].
      change (stopped_ w) with (stopped_ w1). apply rtc_once. apply MAlive.
  - unfold shutdown. case_match; [done|]. eapply rtc_l; [apply (MFlags w (started w) true)|]. set (w1 := set_started _ _).
    change (set_stopped_ true w) with w1. change (started w1) with (started w). case_match; apply rtc_once; [by apply (MPost w1 TDrain)|].
    apply MNote. split; try done. eexists. by repeat constructor.
  - case_match; [|done]. etransitivity; [apply closeMany_moves|]. fold (closeAll w). eapply rtc_l; [apply MDrained, closeAll_none|].
    apply rtc_once, MNote. split; try done. eexists. by repeat constructor.
Qed.
Lemma run_moves es : forall w, rtc Move w (run fromJson toJson problemText tooLargeText droppedText exitingText addressText w es).
Proof. induction es as [|e es IH]; intros w; cbn; [done|]. etransitivity; [apply step_moves|apply IH]. Qed.

(** A property of the first state that every move keeps holds in every run. *)
Lemma run_keeps (P : World -> Prop) es :
  P newWorld -> (forall w w', P w -> Move w w' -> P w') -> P (run fromJson toJson problemText tooLargeText droppedText exitingText addressText newWorld es).
Proof. intros H0 Hm. pose proof (run_moves es newWorld) as Hr. induction Hr as [|w w1 w2 H1 _ IH]; [done|]. apply IH. by eapply Hm. Qed.
End Moves.
