(* ===== verification/RemoteAccess.v ===== *)
(** * Who is connected to the remote API

    Limits, counters and permissions of the open connections, over every run of
    RemoteServer: the counts per peer are exact and within their limits, an open
    connection is allowed by the configuration in force, and past its greeting it
    uses keys derived from the key in force. *)

From Stdlib Require Import Ascii String.
From S2P Require Import Prelude QtText Json OtpWire RemoteProtocol RemoteConfig RemoteServer RemoteMoves.

Local Open Scope Z_scope.
#[local] Set Warnings "-register-all".

(** ** Counting connections *)

Section Counting.
Context (P : Connection -> Prop) `{forall c, Decision (P c)}.
Definition counted (m : gmap Z Connection) : nat := size (filter (fun p => P p.2) m).

Lemma counted_insert id c m : m !! id = None -> counted (<[id := c]> m) = (counted m + if decide (P c) then 1 else 0)%nat.
Proof.
  intros Hn. unfold counted. rewrite map_filter_insert. cbn [snd]. case_decide as Hp.
  - rewrite map_size_insert_None; [lia|]. apply map_lookup_filter_None. by left.
  - rewrite delete_id by done. lia.
Qed.
Lemma counted_delete id c m : m !! id = Some c -> counted m = (counted (delete id m) + if decide (P c) then 1 else 0)%nat.
Proof. intros Hc. rewrite <- (insert_delete_id m id c Hc) at 1. apply counted_insert, lookup_delete_eq. Qed.
Lemma counted_update id c c' m : m !! id = Some c -> (P c <-> P c') -> counted (<[id := c']> m) = counted m.
Proof.
  intros Hc Hp. rewrite <- insert_delete_eq, counted_insert by apply lookup_delete_eq. rewrite (counted_delete id c m Hc).
  f_equal. repeat case_decide; tauto.
Qed.
Lemma counted_subset m1 m2 : m1 ⊆ m2 -> (counted m1 <= counted m2)%nat.
Proof. intros Hs. unfold counted. apply map_subseteq_size. by apply map_filter_subseteq_mono. Qed.
End Counting.

Section Access.
Context `{C : Crypto} (fromJson : bytes -> option QJsonValue) (toJson : QJsonValue -> bytes).
Context (problemText : RequestProblem -> qstring) (tooLargeText droppedText exitingText : qstring).
Context (addressText : HostAddress -> qstring).

Abbreviation sendResponse := (sendResponse toJson tooLargeText).
Abbreviation handleRequest := (handleRequest fromJson toJson problemText tooLargeText).
Abbreviation Move := (Move fromJson toJson problemText tooLargeText addressText).
Abbreviation run := (run fromJson toJson problemText tooLargeText droppedText exitingText addressText).

(** The open connections of a peer, and those that the limit per peer counts. *)
Definition openFrom (peer : qstring) (w : World) : nat := counted (fun c => c_peer c = peer) (connections_ w).
Definition remoteFrom (peer : qstring) (w : World) : nat :=
  counted (fun c => c_peer c = peer /\ isLocal w (c_address c) = false) (connections_ w).

(** The keys of a connection come from [k] and the two randoms of its greeting. *)
Definition keyedBy (k : bytes) (c : Connection) : Prop :=
  c_phase c <> Hello -> exists clientRandom, length clientRandom = kRandomSize /\ c_keys c = DeriveKeys k (c_serverRandom c) clientRandom.

(** [A]: the addresses that may be connected. *)
Record Safe (A : HostAddress -> bool) (w : World) : Prop := {
  sf_next : forall id c, connections_ w !! id = Some c -> id < nextId_ w;
  sf_counts : forall peer, default 0 (perPeer_ w !! peer) = Z.of_nat (openFrom peer w);
  sf_positive : forall peer n, perPeer_ w !! peer = Some n -> 0 < n;
  sf_total : (size (connections_ w) <= kMaxConnections)%nat;
  sf_peer : draining w = false -> forall peer, Z.of_nat (remoteFrom peer w) <= kMaxConnectionsPerPeer;
  sf_allowed : forall id c, connections_ w !! id = Some c -> A (c_address c) = true;
  sf_keys : forall id c, connections_ w !! id = Some c -> keyedBy (key (config_ w)) c }.

(** What a change of one open connection keeps of it. *)
Record Kept (c c' : Connection) : Prop := { kp_address : c_address c' = c_address c; kp_peer : c_peer c' = c_peer c }.

Lemma safe_put A id c c' w : Safe A w -> connections_ w !! id = Some c -> Kept c c' -> keyedBy (key (config_ w)) c' -> Safe A (put id c' w).
Proof.
  intros [] Hc [Ha Hp] Hk. split; fields; try done.
  - intros i x. destruct (decide (i = id)) as [->|]; [intros _; by eapply sf_next0|rewrite lookup_insert_ne by done; apply sf_next0].
  - intros peer. rewrite sf_counts0. unfold openFrom. fields. f_equal. symmetry. eapply counted_update; [done|]. by rewrite Hp.
  - rewrite map_size_insert_Some; eauto.
  - intros Hd peer. specialize (sf_peer0 Hd peer). unfold remoteFrom in *. fields. erewrite (counted_update _ id c c'); [done..|].
    rewrite Hp, Ha. done.
  - intros i x. destruct (decide (i = id)) as [->|].
    + rewrite lookup_insert_eq. intros [= <-]. rewrite Ha. by eapply sf_allowed0.
    + rewrite lookup_insert_ne by done. by apply sf_allowed0.
  - intros i x. destruct (decide (i = id)) as [->|]; [rewrite lookup_insert_eq; by intros [= <-]|rewrite lookup_insert_ne by done; apply sf_keys0].
Qed.

Lemma released_counts m c peer : (forall p n, m !! p = Some n -> 0 < n) -> 0 < default 0 (m !! c_peer c) ->
  default 0 (released (c_peer c) m !! peer) = default 0 (m !! peer) - (if decide (c_peer c = peer) then 1 else 0) /\
  (forall n, released (c_peer c) m !! peer = Some n -> 0 < n).
Proof.
  intros Hpos Hin. unfold released. destruct (Z.leb_spec (default 0 (m !! c_peer c) - 1) 0) as [Hle|Hgt].
  - case_decide as Hp; [subst peer; rewrite lookup_delete_eq; cbn; split; [lia|done]|]. rewrite lookup_delete_ne by done. split; [lia|apply Hpos].
  - case_decide as Hp; [subst peer; rewrite lookup_insert_eq; cbn; split; [lia|by intros n [= <-]]|]. rewrite lookup_insert_ne by done. split; [lia|apply Hpos].
Qed.

Lemma safe_close A id w : Safe A w -> Safe A (closeConnection id w).
Proof.
  intros [] . unfold closeConnection. destruct (connections_ w !! id) as [c|] eqn:Hc; [|by split].
  assert (0 < default 0 (perPeer_ w !! c_peer c)) as Hin.
  { rewrite sf_counts0. unfold openFrom. rewrite (counted_delete _ id c) by done. rewrite decide_True by done. lia. }
  pose proof (fun peer => released_counts (perPeer_ w) c peer sf_positive0 Hin) as Hr.
  assert (delete id (connections_ w) ⊆ connections_ w) as Hsub by apply delete_subseteq.
  split; fields.
  - intros i x [_ Hx]%lookup_delete_Some. by eapply sf_next0.
  - intros peer. rewrite (proj1 (Hr peer)), sf_counts0. unfold openFrom. fields. rewrite (counted_delete _ id c (connections_ w)) by done. case_decide; lia.
  - intros peer n. apply Hr.
  - rewrite map_size_delete_Some by eauto. lia.
  - intros Hd peer. specialize (sf_peer0 Hd peer). unfold remoteFrom in *. fields.
    pose proof (counted_subset (fun c => c_peer c = peer /\ isLocal w (c_address c) = false) _ _ Hsub) as Hle. etransitivity; [|exact sf_peer0]. apply inj_le, Hle.
  - intros i x [_ Hx]%lookup_delete_Some. by eapply sf_allowed0.
  - intros i x [_ Hx]%lookup_delete_Some. by eapply sf_keys0.
Qed.

Lemma safe_closeMany A ids : forall w, Safe A w -> Safe A (closeMany ids w).
Proof. induction ids as [|id ids IH]; intros w H; cbn; [done|]. by apply IH, safe_close. Qed.

(** ** Rounds and answers keep the peer and its keys *)

Lemma round_kept k c c' p : readRound k c = Waits c' \/ readRound k c = Receives c' p -> Kept c c' /\ (keyedBy k c -> keyedBy k c') /\
  (readRound k c = Receives c' p -> c_phase c' = Ready).
Proof. unfold readRound, readHello, readFrame, readHeader. intros H. repeat case_match; destruct H as [H|H]; simplify_eq; done. Qed.
Lemma round_greets k c c' : readRound k c = Greets c' -> Kept c c' /\ keyedBy k c' /\ c_phase c' = Ready.
Proof.
  unfold readRound, readHello, readFrame, readHeader. intros H. repeat case_match; simplify_eq. split; [done|]. split; [|done]. intros _. fields.
  rename select ((length _ <? _)%nat = false) into Hl. apply Nat.ltb_ge in Hl. exists (drop 1 (take kClientHelloSize (c_input c))).
  split; [|done]. rewrite length_drop, length_take. unfold kClientHelloSize, kRandomSize in *. lia.
Qed.

Lemma safe_send A id r c w : Safe A w -> connections_ w !! id = Some c -> c_phase c <> Hello -> Safe A (sendResponse id r w).
Proof.
  intros H Hc Hp. unfold RemoteServer.sendResponse. rewrite Hc. case_match; [by apply safe_close|].
  assert (Safe A (put id (set_c_timer true (set_c_phase Ready (set_c_sent (c_sent c + 1)
    (set_c_unsent (c_unsent c + qsize (SealFrame (s2c (c_keys c)) (c_sent c) (answerText toJson tooLargeText r))) c)))) w)) as H1.
  { eapply safe_put; [done..|]. intros _. exact (sf_keys A w H id c Hc Hp). }
  destruct H1. by split.
Qed.

Lemma safe_handle A id p c w : Safe A w -> connections_ w !! id = Some c -> c_phase c = Ready -> Safe A (handleRequest id p w).
Proof.
  intros H Hc Hp. unfold RemoteServer.handleRequest. rewrite Hc. destruct (ParseRequest fromJson p) as [e|r]; [eapply safe_send; [done|exact Hc|by rewrite Hp]|].
  assert (Safe A (put id (set_c_exchanges (c_exchanges c + 1) (set_c_timer false (set_c_phase Pending c))) w)) as H1.
  { eapply safe_put; [done..|]. intros _. apply (sf_keys A w H id c Hc). by rewrite Hp. }
  destruct H1. by split.
Qed.

Lemma safe_empty A w : connections_ w = ∅ -> (forall peer, default 0 (perPeer_ w !! peer) = 0) -> (forall peer n, perPeer_ w !! peer = Some n -> 0 < n) -> Safe A w.
Proof.
  intros Hc Hp Hn. assert (forall P (HP : forall c, Decision (P c)), counted P (connections_ w) = O) as H0 by (intros P HP; rewrite Hc; done).
  split; try (intros i c Hi; rewrite Hc in Hi; by rewrite lookup_empty in Hi); try done.
  - intros peer. rewrite Hp. unfold openFrom. by rewrite H0.
  - rewrite Hc, map_size_empty. lia.
  - intros _ peer. unfold remoteFrom. by rewrite H0.
Qed.
Lemma safe_none A w peer : Safe A w -> connections_ w = ∅ -> default 0 (perPeer_ w !! peer) = 0.
Proof. intros H Hc. rewrite (sf_counts _ _ H). unfold openFrom. rewrite Hc. done. Qed.

(** ** The invariant *)

Definition admitted (w : World) (a : HostAddress) : bool := draining w || isAllowed w a.
Definition Access (w : World) : Prop := Safe (admitted w) w.

Lemma safe_ext A B w w' : (forall a, A a = true -> B a = true) -> connections_ w' = connections_ w -> perPeer_ w' = perPeer_ w -> nextId_ w' = nextId_ w ->
  key (config_ w') = key (config_ w) -> (draining w' = false -> localAddress_ w' = localAddress_ w /\ draining w = false) -> Safe A w -> Safe B w'.
Proof.
  intros HA Ec Ep En Ek El []. split; rewrite ?Ec, ?Ep, ?En, ?Ek; try done.
  - intros peer. unfold openFrom. rewrite Ec. apply sf_counts0.
  - intros Hd peer. destruct (El Hd) as [E Hd0]. specialize (sf_peer0 Hd0 peer). unfold remoteFrom in *. rewrite Ec.
    unfold isLocal in *. by rewrite E.
  - intros i c Hc. by eapply HA, sf_allowed0.
Qed.

Lemma noted_admitted w w' a : Noted w w' -> admitted w' a = admitted w a.
Proof. intros Hn. unfold admitted, isAllowed, isLocal. by rewrite (no_config _ _ Hn), (no_local _ _ Hn), (no_draining _ _ Hn). Qed.
Lemma access_note w w' : Noted w w' -> Access w -> Access w'.
Proof.
  intros Hn. apply safe_ext; try apply Hn; [|by rewrite (no_config _ _ Hn)|by rewrite (no_local _ _ Hn), (no_draining _ _ Hn)].
  intros a. by rewrite (noted_admitted w w').
Qed.

(** Changes outside the connections, the listener and the counts. *)
Lemma access_same w w' : connections_ w' = connections_ w -> perPeer_ w' = perPeer_ w -> nextId_ w' = nextId_ w -> config_ w' = config_ w ->
  draining w' = draining w -> localAddress_ w' = localAddress_ w -> Access w -> Access w'.
Proof. intros Ec Ep En Eg Ed El. apply safe_ext; [|done..|by rewrite Eg|by rewrite Ed, El]. intros a. unfold admitted, isAllowed, isLocal. by rewrite Eg, Ed, El. Qed.

Lemma safe_admitted w w' : (forall a, admitted w' a = admitted w a) -> Access w -> (Safe (admitted w) w -> Safe (admitted w) w') -> Access w'.
Proof. intros He H Hs. specialize (Hs H). destruct Hs. split; try done. intros i c Hc. rewrite He. by eapply sf_allowed0. Qed.

(** The environment of the connections. *)
Definition frame (w : World) : Config * HostAddress * bool := (config_ w, localAddress_ w, draining w).
Lemma frame_admitted w w' a : frame w' = frame w -> admitted w' a = admitted w a.
Proof. unfold frame, admitted, isAllowed, isLocal. intros [= -> -> ->]. done. Qed.
Lemma close_frame id w : frame (closeConnection id w) = frame w.
Proof. unfold closeConnection. by case_match. Qed.
Lemma closeMany_frame ids : forall w, frame (closeMany ids w) = frame w.
Proof. induction ids as [|id ids IH]; intros w; cbn; [done|]. fold (closeMany ids (closeConnection id w)). by rewrite IH, close_frame. Qed.
Lemma send_frame id r w : frame (sendResponse id r w) = frame w.
Proof. unfold RemoteServer.sendResponse. repeat case_match; try done. apply close_frame. Qed.
Lemma handle_frame id p w : frame (handleRequest id p w) = frame w.
Proof. unfold RemoteServer.handleRequest. repeat case_match; try done. apply send_frame. Qed.

Lemma access_open a random input w : draining w = false -> refusal addressText w a = None -> Access w -> Access (opened addressText a random input w).
Proof.
  intros Hd Hr []. unfold refusal in Hr. repeat case_match; try done. rename select (_ || _ = false) into Hm. rename select (negb (isAllowed w a) = false) into Ha.
  apply orb_false_iff in Hm as [Hsz Hpp]. apply Nat.leb_gt in Hsz. apply negb_false_iff in Ha.
  assert (connections_ w !! nextId_ w = None) as Hn by (destruct (connections_ w !! nextId_ w) eqn:E; [apply sf_next0 in E; lia|done]).
  set (c := newConnection addressText a random input). split; [unfold opened; fields; fold c|unfold opened; fields; fold c|unfold opened; fields; fold c|unfold opened; fields; fold c| |unfold opened; fields; fold c|unfold opened; fields; fold c].
  - intros i x. destruct (decide (i = nextId_ w)) as [->|]; [lia|]. rewrite lookup_insert_ne by done. intros Hx%sf_next0. lia.
  - intros peer. unfold openFrom. fields. rewrite counted_insert by done. case_decide as Hp; cbn beta in Hp; change (c_peer c) with (addressText a) in Hp; [subst peer|].
    + rewrite lookup_insert_eq. cbn [default from_option id]. rewrite sf_counts0. unfold openFrom. lia.
    + rewrite lookup_insert_ne by done. rewrite sf_counts0. unfold openFrom. lia.
  - intros peer n. destruct (decide (addressText a = peer)) as [<-|].
    + rewrite lookup_insert_eq. intros [= <-]. rewrite sf_counts0. lia.
    + rewrite lookup_insert_ne by done. apply sf_positive0.
  - rewrite map_size_insert_None by done. lia.
  - intros Hd' peer. specialize (sf_peer0 Hd peer). unfold remoteFrom in *.
    change (connections_ (opened addressText a random input w)) with (<[nextId_ w := c]> (connections_ w)). rewrite counted_insert by done.
    change (c_peer c) with (addressText a). change (c_address c) with a. case_decide as Hpl; [|change (isLocal (opened addressText a random input w)) with (isLocal w); lia].
    destruct Hpl as [<- Hl]. change (isLocal w a = false) in Hl. rewrite Hl in Hpp. cbn [negb andb] in Hpp. apply Z.leb_gt in Hpp. rewrite sf_counts0 in Hpp.
    enough (counted (fun c => c_peer c = addressText a /\ isLocal w (c_address c) = false) (connections_ w) <= openFrom (addressText a) w)%nat as Hle.
    { change (isLocal (opened addressText a random input w)) with (isLocal w). lia. }
    unfold openFrom, counted. apply map_subseteq_size. apply map_filter_subseteq_ext. intros i x _. cbn. tauto.
  - intros i x. destruct (decide (i = nextId_ w)) as [->|].
    + rewrite lookup_insert_eq. intros [= <-]. unfold admitted. by rewrite orb_true_iff; right.
    + rewrite lookup_insert_ne by done. by apply sf_allowed0.
  - intros i x. destruct (decide (i = nextId_ w)) as [->|]; [rewrite lookup_insert_eq; by intros [= <-] Hx|rewrite lookup_insert_ne by done; apply sf_keys0].
Qed.

Lemma same_listener w c : sameListener w c = true -> key c = key (config_ w) /\ lan c = lan (config_ w).
Proof. unfold sameListener. intros H. rewrite !andb_true_iff, !bool_decide_eq_true in H. destruct H as [[[_ H] _] ?]. split; [done|]. by apply eqb_prop. Qed.

Ltac unchanged H := (eapply safe_ext; [..|exact H]); [|by first [done|fields; done]..|by intros ?]; try done.

Lemma access_move w w' : Access w -> Move w w' -> Access w'.
Proof.
  intros H Hm. destruct Hm as [w' Hn|a random input Hi Hl Hd Hr Hf|id c chunk Hb Hc|id c n Hc Hn|id c c' Hc Hr|id c c' Hc Hr|id c c' p Hc Hr|id c Hc|t rest Ht Hs|
    id c n r rest Ht Hc Hp Hx|t Ht|i r|r i rest Hr|s d| |c Hs Ha|c Hs|w' Hc Hr| |Hc].
  - by eapply access_note.
  - by apply access_open.
  - apply access_same with (put id (set_c_input (c_input c ++ chunk) c) w); try done. eapply safe_admitted; [|done|]; [done|]. intros Hs.
    eapply safe_put; [done..|]. exact (sf_keys _ _ Hs id c Hc).
  - eapply safe_admitted; [|done|]; [done|]. intros Hs. eapply safe_put; [done..|]. exact (sf_keys _ _ Hs id c Hc).
  - destruct (round_kept _ _ _ [] (or_introl Hr)) as (Hk & Hy & _). eapply safe_admitted; [|done|]; [done|]. intros Hs. eapply safe_put; [done..|].
    apply Hy. exact (sf_keys _ _ Hs id c Hc).
  - destruct (round_greets _ _ _ Hr) as (Hk & Hy & _). eapply safe_admitted; [|done|]; [done|]. intros Hs. by eapply safe_put.
  - destruct (round_kept _ _ _ p (or_intror Hr)) as (Hk & Hy & Hp).
    eapply (safe_admitted w); [intros a; apply frame_admitted; by rewrite handle_frame|done|]. intros Hs. eapply safe_handle; [|fields; apply lookup_insert_eq|by apply Hp].
    eapply safe_put; [done..|]. apply Hy. exact (sf_keys _ _ Hs id c Hc).
  - eapply (safe_admitted w); [intros a; apply frame_admitted, close_frame|done|]. apply safe_close.
  - by apply access_same with w.
  - eapply (safe_admitted w); [intros a; apply frame_admitted; by rewrite send_frame|done|]. intros Hs. eapply safe_send; [|exact Hc|by rewrite Hp].
    by unchanged Hs.
  - by apply access_same with w.
  - unfold answer. repeat case_match; try done; by apply access_same with w.
  - by apply access_same with w.
  - by apply access_same with w.
  - by apply access_same with w.
  - destruct (same_listener _ _ Hs) as [Ek El]. unchanged H. intros a. unfold admitted, isAllowed. fields. by rewrite El, Ha.
  - destruct (same_listener _ _ Hs) as [Ek El]. set (w1 := set_config_ c w). assert (Safe (fun _ => true) w1) as H1 by (by unchanged H).
    apply (safe_closeMany _ (notAllowedNow w1)) in H1. destruct H1. split; try done. intros id x Hx.
    rewrite (frame_admitted w1) by apply closeMany_frame. rewrite closeMany_lookup in Hx. case_bool_decide as Hi; [done|].
    unfold admitted. destruct (isAllowed w1 (c_address x)) eqn:Ea; [apply orb_true_r|]. destruct Hi. unfold notAllowedNow.
    apply (list_elem_of_fmap_2 fst _ (id, x)). apply list_elem_of_In, filter_In. split; [apply list_elem_of_In; by apply elem_of_map_to_list|]. cbn. by rewrite Ea.
  - apply safe_empty; [by rewrite (re_connections _ _ Hr)|..]; rewrite (re_perPeer _ _ Hr); [intros peer; by eapply safe_none|apply (sf_positive _ _ H)].
  - unfold stopListening. case_match; by unchanged H.
  - apply safe_empty; [done|..]; fields; [intros peer; by eapply safe_none|apply (sf_positive _ _ H)].
Qed.

(** C13: in every run, the connections are at most as many as the limits allow, the
    count of a peer is the number of its open connections, and, until the server
    drains, each is allowed by the configuration in force; past the greeting its
    keys derive from the key in force. *)
Theorem open_connections_admitted es :
  let w := run newWorld es in
  (size (connections_ w) <= kMaxConnections)%nat /\
  (forall peer, default 0 (perPeer_ w !! peer) = Z.of_nat (openFrom peer w)) /\
  (draining w = false -> forall peer, Z.of_nat (remoteFrom peer w) <= kMaxConnectionsPerPeer) /\
  (forall id c, connections_ w !! id = Some c ->
     (draining w = false -> isAllowed w (c_address c) = true) /\ keyedBy (key (config_ w)) c).
Proof.
  assert (Access (run newWorld es)) as [] by (apply run_keeps; [by apply safe_empty|apply access_move]).
  split_and!; try done. intros id c Hc. split; [|by eapply sf_keys0]. intros Hd. apply sf_allowed0 in Hc. unfold admitted in Hc. by rewrite Hd in Hc.
Qed.
End Access.
