(* ===== verification/RemoteDialogue.v ===== *)
(** * What the remote API hears and says

    Over every run of RemoteServer, whatever the chunks, the timers and the order of
    the answers: the bytes of a connection are the greeting and the frames of its
    messages, sealed in order under the key of the client; each message is handed on
    once and in order; the frames written are the answers to the messages in order,
    sealed with the counters 0, 1, 2 and so on. *)

From Stdlib Require Import Ascii String.
From S2P Require Import Prelude QtText Json OtpWire RemoteProtocol RemoteConfig RemoteServer RemoteMoves.

Local Open Scope Z_scope.
#[local] Set Warnings "-register-all".

(** ** The trace of a connection *)

Definition arrivedIn (id : Z) (e : Effect) : bytes := match e with Arrived i chunk => if i =? id then chunk else [] | _ => [] end.
Definition arrivedOf (id : Z) (es : list Effect) : bytes := flat_map (arrivedIn id) es.
Definition answeredIn (id : Z) (e : Effect) : list (bytes * Z * bytes) :=
  match e with Answered i key counter plaintext => if i =? id then [(key, counter, plaintext)] else [] | _ => [] end.
Definition answeredOf (id : Z) (es : list Effect) : list (bytes * Z * bytes) := flat_map (answeredIn id) es.
(** What a request says, without what the server adds. *)
Definition content (r : Request) : qstring * qstring * gmap qstring qstring * QJsonValue := (method r, path r, query r, body r).
Definition requestedIn (id : Z) (e : Effect) : list (Z * (qstring * qstring * gmap qstring qstring * QJsonValue)) :=
  match e with Requested i n r => if i =? id then [(n, content r)] else [] | _ => [] end.
Definition requestedOf (id : Z) (es : list Effect) := flat_map (requestedIn id) es.

(** Effects that are not in the trace of [id]. *)
Definition foreign (id : Z) (e : Effect) : Prop := arrivedIn id e = [] /\ answeredIn id e = [] /\ requestedIn id e = [].
Lemma foreign_app id es es' : Forall (foreign id) es' ->
  arrivedOf id (es ++ es') = arrivedOf id es /\ answeredOf id (es ++ es') = answeredOf id es /\ requestedOf id (es ++ es') = requestedOf id es.
Proof.
  intros H. unfold arrivedOf, answeredOf, requestedOf. rewrite !flat_map_app.
  assert (flat_map (arrivedIn id) es' = [] /\ flat_map (answeredIn id) es' = [] /\ flat_map (requestedIn id) es' = []) as (-> & -> & ->).
  { induction H as [|e l (H1 & H2 & H3) _ (I1 & I2 & I3)]; [done|]. cbn. by rewrite H1, H2, H3, I1, I2, I3. }
  by rewrite !app_nil_r.
Qed.
Lemma quiet_foreign id es : Forall quiet es -> Forall (foreign id) es.
Proof. intros H. eapply Forall_impl; [exact H|]. intros [] Hq; try done; by repeat split. Qed.

Section Dialogue.
Context `{C : Crypto} `{Laws : !CryptoLaws C} (fromJson : bytes -> option QJsonValue) (toJson : QJsonValue -> bytes).
Context (problemText : RequestProblem -> qstring) (tooLargeText droppedText exitingText : qstring).
Context (addressText : HostAddress -> qstring).

Abbreviation sendResponse := (sendResponse toJson tooLargeText).
Abbreviation handleRequest := (handleRequest fromJson toJson problemText tooLargeText).
Abbreviation Move := (Move fromJson toJson problemText tooLargeText addressText).
Abbreviation run := (run fromJson toJson problemText tooLargeText droppedText exitingText addressText).
Abbreviation answerText := (answerText toJson tooLargeText).

(** ** The conversation as it should be *)

(** The messages with the number of valid requests up to each. *)
Definition valid (p : bytes) : bool := match ParseRequest fromJson p with inr _ => true | inl _ => false end.
Fixpoint numbered (n : Z) (msgs : list bytes) : list (bytes * Z) :=
  match msgs with
  | [] => []
  | p :: msgs => let n := if valid p then n + 1 else n in (p, n) :: numbered n msgs
  end.
Fixpoint validCount (n : Z) (msgs : list bytes) : Z :=
  match msgs with [] => n | p :: msgs => validCount (if valid p then n + 1 else n) msgs end.
Definition handedOf (msgs : list (bytes * Z)) : list (Z * (qstring * qstring * gmap qstring qstring * QJsonValue)) :=
  omap (fun m => match ParseRequest fromJson m.1 with inr r => Some (m.2, content r) | inl _ => None end) msgs.
Definition frames (key : bytes) (msgs : list bytes) : bytes := concat (imap (fun n p => SealFrame key (Z.of_nat n) p) msgs).

(** The answer to a message: its problem, or what the responder of its request said. *)
Definition answerFor (es : list Effect) (id : Z) (m : bytes * Z) (text : bytes) : Prop :=
  match ParseRequest fromJson m.1 with
  | inl p => text = answerText (Error 400 (qs "bad_request") (problemText p))
  | inr _ => exists r, Replied id m.2 r ∈ es /\ text = answerText r
  end.

(** The trace [es] of a connection that was greeted under the key [k]: it received
    [msgs], gave [answers] and holds [rest], the beginning of the next message. *)
Record Talk (es : list Effect) (id : Z) (k : bytes) (ks : SessionKeys) (msgs answers : list bytes) (rest : bytes) : Prop := {
  tk_arrived : exists serverRandom clientRandom, Greeted id serverRandom ∈ es /\ length clientRandom = kRandomSize /\
    ks = DeriveKeys k serverRandom clientRandom /\
    arrivedOf id es = kProtocolVersion :: clientRandom ++ frames (c2s ks) msgs ++ rest;
  tk_requested : requestedOf id es = handedOf (numbered 0 msgs);
  tk_answered : answeredOf id es = imap (fun n text => (s2c ks, Z.of_nat n, text)) answers;
  tk_answers : Forall2 (answerFor es id) (take (length answers) (numbered 0 msgs)) answers;
  tk_order : (length answers <= length msgs <= S (length answers))%nat;
  tk_bound : Z.of_nat (length msgs) <= counterMax }.
Definition Silent (es : list Effect) (id : Z) : Prop := requestedOf id es = [] /\ answeredOf id es = [].

Lemma numbered_app n a b : numbered n (a ++ b) = numbered n a ++ numbered (validCount n a) b.
Proof. revert n. induction a as [|p a IH]; intros n; cbn; [done|]. by rewrite IH. Qed.
Lemma validCount_app n a b : validCount n (a ++ b) = validCount (validCount n a) b.
Proof. revert n. induction a as [|p a IH]; intros n; cbn; [done|]. by rewrite IH. Qed.
Lemma numbered_length n a : length (numbered n a) = length a.
Proof. revert n. induction a as [|p a IH]; intros n; cbn; [done|]. by rewrite IH. Qed.
Lemma frames_app key a b : frames key (a ++ [b]) = frames key a ++ SealFrame key (Z.of_nat (length a)) b.
Proof. unfold frames. rewrite imap_app, concat_app. cbn. by rewrite app_nil_r, Nat.add_0_r. Qed.

(** ** Rounds of the input, as bytes *)

(** A header that is kept is in range and waits for the rest of its body. *)
Definition headerKept (c : Connection) : Prop :=
  if isEmpty (c_header c) then c_body c = []
  else length (c_header c) = kFrameHeaderSize /\ c_length c = beNumber (c_header c) /\ Z.of_nat kTagSize <= c_length c <= kMaxClientFrame /\
       qsize (c_body c) < c_length c.
Definition held (c : Connection) : bytes := c_header c ++ c_body c ++ c_input c.

(** What a round leaves as it was. *)
Record Same (c c' : Connection) : Prop := {
  sm_phase : c_phase c' = c_phase c; sm_random : c_serverRandom c' = c_serverRandom c; sm_keys : c_keys c' = c_keys c;
  sm_sent : c_sent c' = c_sent c; sm_exchanges : c_exchanges c' = c_exchanges c }.

Definition headed (c : Connection) : Prop :=
  length (c_header c) = kFrameHeaderSize /\ c_length c = beNumber (c_header c) /\ Z.of_nat kTagSize <= c_length c <= kMaxClientFrame /\ qsize (c_body c) < c_length c.
Lemma header_read c c' : headerKept c -> readHeader c = inr c' -> Same c c' /\ c_received c' = c_received c /\ held c' = held c /\ headed c'.
Proof.
  unfold headerKept, readHeader, held. destruct (c_header c) as [|b h] eqn:Eh; cbn [isEmpty negb]; [|intros Hk [= <-]; rewrite Eh; by unfold headed; rewrite Eh].
  intros Hb. destruct (Nat.ltb_spec (length (c_input c)) kFrameHeaderSize) as [|Hl]; [done|].
  destruct (Z.ltb_spec (beNumber (take kFrameHeaderSize (c_input c))) (Z.of_nat kTagSize)) as [|H1]; [done|].
  destruct (Z.ltb_spec kMaxClientFrame (beNumber (take kFrameHeaderSize (c_input c)))) as [|H2]; [done|]. cbn [orb]. intros [= <-]. unfold headed. fields.
  rewrite Hb. split; [done|]. split; [done|]. split; [cbn [app]; by rewrite take_drop|]. split; [rewrite length_take; lia|]. split; [done|]. split; [done|].
  unfold qsize, kTagSize in *. cbn [length]. lia.
Qed.

Lemma round_waits_held k c c' : headerKept c -> readRound k c = Waits c' -> Same c c' /\ c_received c' = c_received c /\ held c' = held c /\ headerKept c' /\
  (c_phase c = Hello -> c_header c' = c_header c).
Proof.
  intros Hk. unfold readRound. destruct (c_phase c) eqn:Ep; [|case_match; [by intros [= <-]|]|by intros [= <-]].
  - unfold readHello. repeat case_match; try done. by intros [= <-].
  - unfold readFrame. destruct (readHeader c) as [r|c1] eqn:Er.
    + intros ->. unfold readHeader in Er. repeat case_match; try done. by injection Er as <-.
    + destruct (header_read c c1 Hk Er) as (Hs & Hr & Hh & Hd). set (missing := (Z.to_nat (c_length c1) - length (c_body c1))%nat). fields.
      case_match eqn:El; [|repeat case_match; done]. intros [= <-]. apply Z.ltb_lt in El. destruct Hd as (H1 & H2 & H3 & H4).
      split; [by destruct Hs; split|]. split; [done|]. split; [rewrite <- Hh; unfold held; fields; by rewrite <- app_assoc, take_drop|].
      split; [unfold headerKept; fields; by destruct (c_header c1)|done].
Qed.

Lemma round_receives_held k c c' p : headerKept c -> Forall isByte (held c) -> readRound k c = Receives c' p ->
  Same c c' /\ c_phase c = Ready /\ c_received c <> counterMax /\ c_received c' = c_received c + 1 /\ headerKept c' /\
  held c = SealFrame (c2s (c_keys c)) (c_received c) p ++ held c'.
Proof.
  intros Hk Hb. unfold readRound. destruct (c_phase c) eqn:Ep; [unfold readHello; repeat case_match; done| |done]. case_match; [done|].
  unfold readFrame. destruct (readHeader c) as [r|c1] eqn:Er; [intros ->; unfold readHeader in Er; repeat case_match; done|].
  destruct (header_read c c1 Hk Er) as (Hs & Hr & Hh & Hd). set (missing := (Z.to_nat (c_length c1) - length (c_body c1))%nat). fields.
  case_match eqn:El; [done|]. destruct (Z.eqb_spec (c_received c1) counterMax) as [|Hm]; [done|].
  destruct (OpenFrame _ _ _ _) as [p'|] eqn:Eo; [|done]. intros [= <- ->]. destruct Hd as (H1 & H2 & H3 & H4). apply Z.ltb_ge in El.
  rewrite <- Hr. split; [by destruct Hs; split|]. split; [done|]. split; [done|]. split; [done|]. split; [by unfold headerKept; fields|].
  rewrite <- Hh in Hb |- *. unfold held in *. fields. apply Forall_app in Hb as [Hb1 Hb2].
  apply open_exact in Eo; [|done|]. 2:{ unfold qsize in *. rewrite length_app, length_take. unfold missing, kMaxClientFrame in *. change (1 <<< 20)%throne with 1048576 in H3. lia. }
  destruct Eo as (_ & _ & _ & Eo). rewrite <- (sm_keys _ _ Hs), Eo. cbn [app]. by rewrite <- !app_assoc, take_drop.
Qed.

Lemma round_greets_held k c c' : headerKept c -> c_header c = [] -> readRound k c = Greets c' ->
  c_phase c = Hello /\ c_phase c' = Ready /\ c_serverRandom c' = c_serverRandom c /\ c_received c' = c_received c /\ c_sent c' = c_sent c /\
  c_exchanges c' = c_exchanges c /\ headerKept c' /\ exists clientRandom, length clientRandom = kRandomSize /\
    c_keys c' = DeriveKeys k (c_serverRandom c) clientRandom /\ held c = kProtocolVersion :: clientRandom ++ held c'.
Proof.
  intros Hk Eh. assert (c_body c = []) as Eb by (unfold headerKept in Hk; by rewrite Eh in Hk).
  unfold readRound. destruct (c_phase c) eqn:Ep; [|unfold readFrame, readHeader; repeat case_match; try done; intros; simplify_eq; done|done].
  unfold readHello. destruct (Nat.ltb_spec (length (c_input c)) kClientHelloSize) as [|Hl]; [done|]. destruct (Z.eqb_spec (hd 0 (take kClientHelloSize (c_input c))) kProtocolVersion) as [Hv|]; [|done].
  intros [= <-]. unfold headerKept, held. fields. rewrite Eh, Eb. cbn [isEmpty app]. do 7 (split; [done|]). exists (drop 1 (take kClientHelloSize (c_input c))).
  unfold kClientHelloSize, kRandomSize in *. split; [rewrite length_drop, length_take; lia|]. split; [done|].
  rewrite <- (take_drop (1 + 16) (c_input c)) at 1. destruct (c_input c) as [|v l]; [cbn in Hl; lia|]. cbn [Nat.add take hd drop app] in *. by rewrite <- Hv.
Qed.

(** ** The invariant of a connection *)

(** What the phase says of the messages and the answers. *)
Definition turn (c : Connection) (msgs answers : list bytes) : Prop :=
  match c_phase c with
  | Pending => length msgs = S (length answers) /\ exists p, numbered 0 msgs !! length answers = Some (p, c_exchanges c) /\ valid p = true
  | _ => length msgs = length answers
  end.
Record Counted (c : Connection) (msgs answers : list bytes) : Prop := {
  ct_received : c_received c = Z.of_nat (length msgs); ct_sent : c_sent c = Z.of_nat (length answers); ct_exchanges : c_exchanges c = validCount 0 msgs }.
Record Greeting (es : list Effect) (id : Z) (c : Connection) : Prop := {
  gr_silent : Silent es id; gr_arrived : arrivedOf id es = held c; gr_header : c_header c = []; gr_counts : Counted c [] [] }.
Definition Talking (es : list Effect) (id : Z) (k : bytes) (c : Connection) (full : Connection -> list bytes -> list bytes -> Prop) : Prop :=
  exists msgs answers, Talk es id k (c_keys c) msgs answers (held c) /\ Counted c msgs answers /\ full c msgs answers.
Definition Told (w : World) (id : Z) : Prop :=
  let es := effects w in
  match connections_ w !! id with
  | None => Silent es id \/ exists k ks msgs answers rest, Talk es id k ks msgs answers rest
  | Some c =>
      headerKept c /\ Forall isByte (held c) /\ Greeted id (c_serverRandom c) ∈ es /\
      if bool_decide (c_phase c = Hello) then Greeting es id c else Talking es id (key (config_ w)) c turn
  end.

Lemma talk_more es es' id k ks msgs answers rest : Forall (foreign id) es' -> Talk es id k ks msgs answers rest -> Talk (es ++ es') id k ks msgs answers rest.
Proof.
  intros Hf []. destruct (foreign_app id es es' Hf) as (E1 & E2 & E3). split; rewrite ?E1, ?E2, ?E3; try done.
  - destruct tk_arrived0 as (sr & cr & Hg & ?). exists sr, cr. split; [apply elem_of_app; by left|done].
  - eapply Forall2_impl; [exact tk_answers0|]. intros m t. unfold answerFor. case_match; [done|]. intros (y & Hy & ->). exists y. split; [apply elem_of_app; by left|done].
Qed.
Lemma told_more w w' id es' : Told w id -> connections_ w' !! id = connections_ w !! id -> (is_Some (connections_ w !! id) -> key (config_ w') = key (config_ w)) ->
  effects w' = effects w ++ es' -> Forall (foreign id) es' -> Told w' id.
Proof.
  unfold Told. intros H El Ek Ee Hf. rewrite El, Ee. destruct (foreign_app id (effects w) es' Hf) as (E1 & E2 & E3). unfold Silent.
  destruct (connections_ w !! id) as [c|] eqn:Ec.
  - destruct H as (Hk & Hb & Hg & H). split; [done|]. split; [done|]. split; [apply elem_of_app; by left|]. rewrite Ek by done. case_bool_decide.
    + destruct H as [[] ? ? ?]. split; [split|..]; congruence.
    + destruct H as (msgs & answers & Ht & Hc & Hp). exists msgs, answers. split; [by apply talk_more|done].
  - rewrite E2, E3. destruct H as [H|(k & ks & msgs & answers & rest & H)]; [by left|right]. exists k, ks, msgs, answers, rest. by apply talk_more.
Qed.

Lemma told_close w id c : connections_ w !! id = Some c -> Told w id -> Told (closeConnection id w) id.
Proof.
  intros Hc H. unfold closeConnection. rewrite Hc. unfold Told in *. fields. rewrite lookup_delete_eq. rewrite Hc in H. destruct H as (_ & _ & _ & H).
  assert (Forall (foreign id) [Closed id]) as Hf by (by repeat constructor). destruct (foreign_app id (effects w) _ Hf) as (E1 & E2 & E3). unfold Silent. rewrite E2, E3.
  case_bool_decide; [left; apply H|right]. destruct H as (msgs & answers & Ht & _). do 5 eexists. by apply talk_more.
Qed.

(** ** Answering *)

Lemma take_lookup_S {A} (l : list A) n x : l !! n = Some x -> take (S n) l = take n l ++ [x].
Proof. apply take_S_r. Qed.

(** The answer to the message that waits is written with the next counter. *)
Lemma told_send w id c r : connections_ w !! id = Some c -> headerKept c -> Forall isByte (held c) -> Greeted id (c_serverRandom c) ∈ effects w ->
  (exists msgs answers, Talk (effects w) id (key (config_ w)) (c_keys c) msgs answers (held c) /\ Counted c msgs answers /\ length msgs = S (length answers) /\
     exists m, numbered 0 msgs !! length answers = Some m /\ answerFor (effects w) id m (answerText r)) ->
  Told (sendResponse id r w) id /\ exists c', connections_ (sendResponse id r w) = <[id := c']> (connections_ w) /\
    effects (sendResponse id r w) = effects w ++ [Answered id (s2c (c_keys c)) (c_sent c) (answerText r)].
Proof.
  intros Hc Hk Hb Hg (msgs & answers & Ht & Hn & El & m & Hm & Ha). unfold RemoteServer.sendResponse. rewrite Hc. destruct Hn as [Hr Hs He].
  destruct (Z.eqb_spec (c_sent c) counterMax) as [Hx|_]; [pose proof (tk_bound _ _ _ _ _ _ _ Ht); lia|]. split; [|eexists; by split].
  unfold Told. fields. rewrite lookup_insert_eq. split; [done|]. split; [done|]. split; [apply elem_of_app; by left|]. rewrite bool_decide_eq_false_2 by done.
  exists msgs, (answers ++ [answerText r]). split; [|split; [split; fields; rewrite ?length_app; cbn [length]; lia|unfold turn; fields; rewrite length_app; cbn [length]; lia]].
  destruct Ht. set (es' := [Answered id (s2c (c_keys c)) (c_sent c) (answerText r)]).
  assert (arrivedOf id (effects w ++ es') = arrivedOf id (effects w)) as E1 by (unfold arrivedOf; rewrite flat_map_app; apply app_nil_r).
  assert (requestedOf id (effects w ++ es') = requestedOf id (effects w)) as E3 by (unfold requestedOf; rewrite flat_map_app; apply app_nil_r).
  split; rewrite ?E1, ?E3; try done; fields.
  - destruct tk_arrived0 as (sr & cr & Hgr & ?). exists sr, cr. split; [apply elem_of_app; by left|done].
  - unfold answeredOf. rewrite flat_map_app. fold (answeredOf id (effects w)). rewrite tk_answered0, imap_app. f_equal. cbn. rewrite Z.eqb_refl, Hs, Nat.add_0_r. done.
  - rewrite length_app, Nat.add_comm. cbn [length Nat.add]. rewrite (take_lookup_S _ _ m) by done. apply Forall2_app; [|constructor; [|done]].
    + eapply Forall2_impl; [exact tk_answers0|]. intros x t. unfold answerFor. case_match; [done|]. intros (y & Hy & ->). exists y. split; [apply elem_of_app; by left|done].
    + revert Ha. unfold answerFor. case_match; [done|]. intros (y & Hy & Ey). exists y. split; [apply elem_of_app; by left|done].
  - rewrite length_app. cbn [length]. lia.
Qed.

(** ** Listening *)

Lemma told_held w w' id c c' es' extra : Told w id -> connections_ w !! id = Some c -> connections_ w' !! id = Some c' -> config_ w' = config_ w ->
  effects w' = effects w ++ es' -> arrivedOf id es' = extra -> answeredOf id es' = [] -> requestedOf id es' = [] ->
  Same c c' -> c_received c' = c_received c -> held c' = held c ++ extra -> headerKept c' -> Forall isByte extra -> (c_phase c = Hello -> c_header c' = c_header c) ->
  Told w' id.
Proof.
  intros H Hc Hc' Ek Ee E1 E2 E3 [] Hr Hh Hk Hx Hhd. unfold Told in *. rewrite Hc in H. rewrite Hc', Ek, Ee, sm_random0, sm_phase0. destruct H as (_ & Hb & Hg & H).
  split; [done|]. split; [rewrite Hh; by apply Forall_app|]. split; [apply elem_of_app; by left|].
  assert (arrivedOf id (effects w ++ es') = arrivedOf id (effects w) ++ extra) as A1 by (unfold arrivedOf in *; by rewrite flat_map_app, E1).
  assert (answeredOf id (effects w ++ es') = answeredOf id (effects w)) as A2 by (unfold answeredOf in *; by rewrite flat_map_app, E2, app_nil_r).
  assert (requestedOf id (effects w ++ es') = requestedOf id (effects w)) as A3 by (unfold requestedOf in *; by rewrite flat_map_app, E3, app_nil_r).
  case_bool_decide as Ep.
  - destruct H as [[] ? ? []]. split; [split; congruence|congruence|rewrite Hhd; done|split; congruence].
  - destruct H as (msgs & answers & [] & [] & Ht). exists msgs, answers. rewrite sm_keys0. split; [|split; [split; congruence|unfold turn in *; by rewrite sm_phase0, sm_exchanges0]].
    split; rewrite ?A1, ?A2, ?A3; try done.
    + destruct tk_arrived0 as (sr & cr & Hgr & Hl & Hks & ->). exists sr, cr. split; [apply elem_of_app; by left|]. rewrite Hh. cbn [app]. by rewrite <- !app_assoc.
    + eapply Forall2_impl; [exact tk_answers0|]. intros m t. unfold answerFor. case_match; [done|]. intros (y & Hy & ->). exists y. split; [apply elem_of_app; by left|done].
Qed.

Lemma told_greets w id c c' : Told w id -> connections_ w !! id = Some c -> readRound (key (config_ w)) c = Greets c' -> Told (put id c' w) id.
Proof.
  intros H Hc Hr. unfold Told in *. rewrite Hc in H. destruct H as (Hk & Hb & Hg & H). fields. rewrite lookup_insert_eq.
  assert (c_phase c = Hello) as Hp.
  { revert Hr. unfold readRound. destruct (c_phase c); [done|unfold readFrame, readHeader; repeat case_match; try done; intros; simplify_eq; done|done]. }
  rewrite bool_decide_eq_true_2 in H by done. destruct H as [[Hq Ha] Harr Hhd []].
  destruct (round_greets_held _ _ _ Hk Hhd Hr) as (_ & Hp' & Hsr & Hrc & Hsn & Hex & Hk' & cr & Hl & Hks & Hh).
  split; [done|]. rewrite Hh in Hb. inversion Hb as [|? ? _ Hb']. apply Forall_app in Hb' as [_ Hb']. split; [done|]. rewrite Hsr. split; [done|].
  rewrite bool_decide_eq_false_2 by (by rewrite Hp'). exists [], []. split; [|split; [split; cbn in *; congruence|unfold turn; by rewrite Hp']].
  split; [exists (c_serverRandom c), cr|..]; try done.
  - split; [done|]. split; [done|]. split; [done|]. by rewrite Harr, Hh.
  - cbn. lia.
Qed.

Lemma talk_heard es es' id k ks msgs answers rest p : Talk es id k ks msgs answers (SealFrame (c2s ks) (Z.of_nat (length msgs)) p ++ rest) ->
  length msgs = length answers -> Z.of_nat (length msgs) < counterMax ->
  arrivedOf id es' = [] -> answeredOf id es' = [] -> requestedOf id es' = handedOf (numbered (validCount 0 msgs) [p]) ->
  Talk (es ++ es') id k ks (msgs ++ [p]) answers rest.
Proof.
  intros [] El Hm E1 E2 E3.
  assert (arrivedOf id (es ++ es') = arrivedOf id es) as A1 by (unfold arrivedOf in *; by rewrite flat_map_app, E1, app_nil_r).
  assert (answeredOf id (es ++ es') = answeredOf id es) as A2 by (unfold answeredOf in *; by rewrite flat_map_app, E2, app_nil_r).
  assert (requestedOf id (es ++ es') = requestedOf id es ++ requestedOf id es') as A3 by (unfold requestedOf; by rewrite flat_map_app).
  split; rewrite ?A1, ?A2, ?A3, ?length_app; cbn [length]; try lia; try done.
  - destruct tk_arrived0 as (sr & cr & Hg & Hl & Hks & ->). exists sr, cr. split; [apply elem_of_app; by left|]. split; [done|]. split; [done|].
    rewrite frames_app. by rewrite <- !app_assoc.
  - rewrite tk_requested0, E3, numbered_app. unfold handedOf. by rewrite omap_app.
  - rewrite numbered_app. rewrite take_app_le by (rewrite numbered_length; lia).
    eapply Forall2_impl; [exact tk_answers0|]. intros m t. unfold answerFor. case_match; [done|]. intros (y & Hy & ->). exists y. split; [apply elem_of_app; by left|done].
Qed.

Lemma numbered_last msgs p : numbered 0 (msgs ++ [p]) !! length msgs = Some (p, validCount 0 (msgs ++ [p])).
Proof. rewrite numbered_app, lookup_app_r, numbered_length, Nat.sub_diag by (by rewrite numbered_length). by rewrite validCount_app. Qed.

(** A message that is received is refused at once or handed on. *)
Lemma told_receive w id c c' p : Told w id -> connections_ w !! id = Some c -> readRound (key (config_ w)) c = Receives c' p ->
  let w' := handleRequest id p (put id c' w) in
  Told w' id /\ (exists x, connections_ w' = <[id := x]> (connections_ w)) /\ exists es', effects w' = effects w ++ es' /\ forall i, i <> id -> Forall (foreign i) es'.
Proof.
  intros H Hc Hr. unfold Told in H. rewrite Hc in H. destruct H as (Hk & Hb & Hg & H).
  destruct (round_receives_held _ _ _ _ Hk Hb Hr) as ([Sp Srn Sk Ss Se] & Hp & Hmax & Hrc & Hk' & Hh). rewrite bool_decide_eq_false_2 in H by (by rewrite Hp).
  destruct H as (msgs & answers & Ht & [Cr Cs Ce] & Hturn). unfold turn in Hturn. rewrite Hp in Hturn.
  rewrite Hh, Cr in Ht. assert (Z.of_nat (length msgs) < counterMax) as Hlt by (pose proof (tk_bound _ _ _ _ _ _ _ Ht); lia).
  pose proof Hb as Hb'. rewrite Hh in Hb'. apply Forall_app in Hb' as [_ Hb'].
  unfold RemoteServer.handleRequest. fields. rewrite lookup_insert_eq. cbv zeta.
  pose proof (numbered_last msgs p) as Hnl. rewrite Hturn in Hnl.
  destruct (ParseRequest fromJson p) as [e|r] eqn:Epr.
  - pose proof (talk_heard _ [] _ _ _ _ _ _ _ Ht Hturn Hlt eq_refl eq_refl) as Ht'. rewrite app_nil_r in Ht'. specialize (Ht' ltac:(unfold handedOf; cbn; by rewrite Epr)).
    destruct (told_send (put id c' w) id c' (Error 400 (qs "bad_request") (problemText e))) as [Ht1 (x & Ex & Ee)]; fields; [apply lookup_insert_eq|done|done|by rewrite Srn| |].
    + exists (msgs ++ [p]), answers. rewrite Sk. split; [done|]. split; [split; rewrite ?length_app, ?validCount_app; cbn [length validCount]; [lia|lia|]|].
      * unfold valid. rewrite Epr. congruence.
      * split; [rewrite length_app; cbn; lia|]. eexists. split; [exact Hnl|]. unfold answerFor. cbn [fst]. by rewrite Epr.
    + split; [exact Ht1|]. split; [exists x; rewrite Ex; apply insert_insert_eq|]. eexists. split; [exact Ee|]. intros i Hi. constructor; [|done].
      repeat split. cbn. rewrite (proj2 (Z.eqb_neq _ _)) by congruence. done.
  - set (number := c_exchanges c' + 1). assert (number = validCount 0 (msgs ++ [p])) as En.
    { unfold number. rewrite validCount_app. cbn [validCount]. unfold valid. rewrite Epr. lia. }
    split; [|split; [eexists; apply insert_insert_eq|eexists; split; [reflexivity|]]].
    + unfold Told. fields. rewrite insert_insert_eq, lookup_insert_eq. split; [done|]. split; [done|]. split; [fields; rewrite ?Srn; apply elem_of_app; by left|].
      rewrite bool_decide_eq_false_2 by done. exists (msgs ++ [p]), answers. fields. rewrite Sk. split; [|split; [split; fields; rewrite ?length_app; cbn [length]; lia|]].
      * apply (talk_heard _ _ _ _ _ _ _ _ _ Ht); try done. unfold handedOf, requestedOf, requestedIn. cbn. rewrite Epr, Z.eqb_refl. cbn. unfold valid. rewrite Epr.
        unfold content. cbn. unfold number. by rewrite Se, Ce.
      * unfold turn. fields. split; [rewrite length_app; cbn; lia|]. exists p. split; [|unfold valid; by rewrite Epr]. by rewrite Hnl, En.
    + intros i Hi. constructor; [|done]. repeat split. cbn. rewrite (proj2 (Z.eqb_neq _ _)) by congruence. done.
Qed.

(** ** The invariant of the server *)

Record Inv (w : World) : Prop := {
  iv_told : forall id, Told w id;
  iv_new : forall id, nextId_ w <= id -> connections_ w !! id = None /\ Forall (foreign id) (effects w);
  iv_replies : forall id n r, TDeliver id n r ∈ tasks w -> Replied id n r ∈ effects w }.

(** A change of one open connection. *)
Lemma inv_touch id0 w w' es' : Inv w -> is_Some (connections_ w !! id0) -> (forall id, id <> id0 -> connections_ w' !! id = connections_ w !! id) ->
  config_ w' = config_ w -> nextId_ w' = nextId_ w -> (forall t, t ∈ tasks w' -> t ∈ tasks w) ->
  effects w' = effects w ++ es' -> (forall id, id <> id0 -> Forall (foreign id) es') -> Told w' id0 -> Inv w'.
Proof.
  intros [] Hs Hc Ek En Et Ee Hf Ht. assert (forall id, nextId_ w <= id -> id <> id0) as Hne.
  { intros id Hid ->. destruct (iv_new0 id0 Hid) as [Hn _]. rewrite Hn in Hs. by destruct Hs. }
  split.
  - intros id. destruct (decide (id = id0)) as [->|Hi]; [done|]. eapply told_more; [apply iv_told0|by apply Hc|intros _; by rewrite Ek|exact Ee|by apply Hf].
  - intros id. rewrite En. intros Hid. destruct (iv_new0 id Hid) as [Hn Hff]. rewrite Hc by (by apply Hne). split; [done|]. rewrite Ee. apply Forall_app. auto.
  - intros id n r Hr%Et%iv_replies0. rewrite Ee. apply elem_of_app. by left.
Qed.
(** A change outside the connections. *)
Lemma inv_other w w' es' : Inv w -> connections_ w' = connections_ w -> (connections_ w = ∅ \/ key (config_ w') = key (config_ w)) -> nextId_ w' = nextId_ w ->
  effects w' = effects w ++ es' -> (forall id, Forall (foreign id) es') -> (forall id n r, TDeliver id n r ∈ tasks w' -> TDeliver id n r ∈ tasks w \/ Replied id n r ∈ es') -> Inv w'.
Proof.
  intros [] Hc Ek En Ee Hf Ht. split.
  - intros id. eapply told_more; [apply iv_told0|by rewrite Hc| |exact Ee|by apply Hf]. intros [c Hs]. destruct Ek as [E|]; [|done]. by rewrite E, lookup_empty in Hs.
  - intros id. rewrite En, Hc, Ee. intros [? ?]%iv_new0. split; [done|]. by apply Forall_app.
  - intros id n r Hr. rewrite Ee. apply elem_of_app. destruct (Ht _ _ _ Hr) as [Hr'|Hr']; [left; by apply iv_replies0|by right].
Qed.
Lemma inv_note w w' : Noted w w' -> Inv w -> Inv w'.
Proof.
  intros Hn H. destruct (no_effects _ _ Hn) as (es' & Ee & Hq). eapply inv_other; [done|apply Hn|right; by rewrite (no_config _ _ Hn)|apply Hn|exact Ee|intros id; by apply quiet_foreign|].
  intros id n r. rewrite (no_tasks _ _ Hn). by left.
Qed.
Lemma inv_close id w : Inv w -> Inv (closeConnection id w).
Proof.
  intros H. destruct (connections_ w !! id) as [c|] eqn:Hc; [|unfold closeConnection; by rewrite Hc].
  pose proof (told_close w id c Hc (iv_told _ H id)) as Ht. revert Ht. unfold closeConnection. rewrite Hc. intros Ht.
  eapply (inv_touch id w _ [Closed id]); [done|by rewrite Hc|intros i Hi; by apply lookup_delete_ne|done..| |exact Ht]. intros i _. by repeat constructor.
Qed.
Lemma inv_closeMany ids : forall w, Inv w -> Inv (closeMany ids w).
Proof. induction ids as [|id ids IH]; intros w H; cbn; [done|]. by apply IH, inv_close. Qed.

Lemma inv_open a random input w : Forall isByte input -> Inv w -> Inv (opened addressText a random input w).
Proof.
  intros Hi []. destruct (iv_new0 (nextId_ w) ltac:(lia)) as [Hn Hf].
  assert (effects (opened addressText a random input w) = effects w ++ [Greeted (nextId_ w) random; Arrived (nextId_ w) input]) as Ee by (unfold opened; fields; by rewrite <- app_assoc).
  assert (forall id, id <> nextId_ w -> Forall (foreign id) [Greeted (nextId_ w) random; Arrived (nextId_ w) input]) as Hne.
  { intros id Hid. repeat constructor. cbn. by rewrite (proj2 (Z.eqb_neq _ _)) by congruence. }
  destruct (foreign_app (nextId_ w) [] (effects w) Hf) as (A1 & A2 & A3). cbn [app] in *.
  split.
  - intros id. destruct (decide (id = nextId_ w)) as [->|Hid].
    + unfold Told. rewrite Ee. unfold opened. fields. rewrite lookup_insert_eq. unfold newConnection, held. fields. cbn [app]. split; [done|]. split; [done|].
      split; [apply elem_of_app; right; by left|]. cbn [app]. unfold Silent, arrivedOf, answeredOf, requestedOf in *. rewrite bool_decide_eq_true_2 by done.
      split; unfold Silent, arrivedOf, answeredOf, requestedOf; rewrite ?flat_map_app, ?A1, ?A2, ?A3; cbn; [done|rewrite Z.eqb_refl, app_nil_r; done|done|by split].
    + eapply told_more; [apply iv_told0| | |exact Ee|by apply Hne]; [by apply lookup_insert_ne|done].
  - intros id Hid. unfold opened in Hid. cbn in Hid. destruct (iv_new0 id ltac:(lia)) as [Hn' Hf']. unfold opened. fields. rewrite lookup_insert_ne by lia. split; [done|].
    rewrite <- app_assoc. apply Forall_app. split; [done|]. apply Hne. lia.
  - intros id n r Hr. rewrite Ee. apply elem_of_app. left. by apply iv_replies0.
Qed.

Lemma inv_send w id c n r rest : Inv w -> tasks w = TDeliver id n r :: rest -> connections_ w !! id = Some c -> c_phase c = Pending -> c_exchanges c = n ->
  Inv (sendResponse id r (set_tasks rest w)).
Proof.
  intros H Ht Hc Hp Hx. pose proof (iv_told _ H id) as Hd. unfold Told in Hd. rewrite Hc in Hd. destruct Hd as (Hk & Hb & Hg & Hd).
  rewrite bool_decide_eq_false_2 in Hd by (by rewrite Hp). destruct Hd as (msgs & answers & Htk & Hcn & Htn). unfold turn in Htn. rewrite Hp in Htn. destruct Htn as (El & p & Hm & Hv).
  assert (Replied id n r ∈ effects w) as Hr by (apply (iv_replies _ H); rewrite Ht; by left).
  assert (answerFor (effects w) id (p, c_exchanges c) (answerText r)) as Ha.
  { unfold answerFor, valid in *. cbn [fst snd]. destruct (ParseRequest fromJson p); [done|]. exists r. by rewrite Hx. }
  destruct (told_send (set_tasks rest w) id c r Hc Hk Hb Hg) as [Ht1 (x & Ex & Ee)]; [exists msgs, answers; eauto 10|].
  eapply (inv_touch id w); [done|by rewrite Hc|intros i Hi; rewrite Ex; by apply lookup_insert_ne| | | |exact Ee| |exact Ht1].
  - unfold RemoteServer.sendResponse. fields. rewrite Hc. case_match; [unfold closeConnection; by case_match|done].
  - unfold RemoteServer.sendResponse. fields. rewrite Hc. case_match; [unfold closeConnection; by case_match|done].
  - unfold RemoteServer.sendResponse. fields. rewrite Hc. intros t Hin. rewrite Ht. right. revert Hin. case_match; [unfold closeConnection; by case_match|done].
  - intros i Hi. constructor; [|done]. repeat split. cbn. by rewrite (proj2 (Z.eqb_neq _ _)) by congruence.
Qed.

Lemma send_rest id r w : config_ (sendResponse id r w) = config_ w /\ nextId_ (sendResponse id r w) = nextId_ w /\ tasks (sendResponse id r w) = tasks w.
Proof. unfold RemoteServer.sendResponse, closeConnection. by repeat case_match. Qed.
Lemma handle_rest id p w : config_ (handleRequest id p w) = config_ w /\ nextId_ (handleRequest id p w) = nextId_ w /\ tasks (handleRequest id p w) = tasks w.
Proof. unfold RemoteServer.handleRequest. repeat case_match; try done. apply send_rest. Qed.

Lemma inv_held w w' id c c' es' extra : Inv w -> connections_ w !! id = Some c -> w' = put id c' w \/ w' = emit (Arrived id extra) (put id c' w) ->
  effects w' = effects w ++ es' -> arrivedOf id es' = extra -> answeredOf id es' = [] -> requestedOf id es' = [] ->
  Same c c' -> c_received c' = c_received c -> held c' = held c ++ extra -> headerKept c' -> Forall isByte extra -> (c_phase c = Hello -> c_header c' = c_header c) -> Inv w'.
Proof.
  intros H Hc Hw Ee E1 E2 E3 Hs Hr Hh Hk Hx Hhd. assert (connections_ w' = <[id := c']> (connections_ w)) as Ec by (by destruct Hw as [->| ->]).
  assert (Told w' id) as Ht by (eapply (told_held w w' id c c'); try done; [apply (iv_told _ H)|by rewrite Ec, lookup_insert_eq|by destruct Hw as [->| ->]]).
  eapply (inv_touch id w); [done|by rewrite Hc|intros i Hi; rewrite Ec; by apply lookup_insert_ne|by destruct Hw as [->| ->]..| |exact Ee| |exact Ht]; [by destruct Hw as [->| ->]|].
  intros i Hi. destruct Hw as [->| ->]; cbn in Ee.
  - assert (es' = []) as -> by (apply (app_inv_head (effects w)); by rewrite <- Ee, app_nil_r). done.
  - apply app_inv_head in Ee. subst es'. constructor; [|done]. repeat split. cbn. by rewrite (proj2 (Z.eqb_neq _ _)) by congruence.
Qed.

Lemma inv_move w w' : Inv w -> Move w w' -> Inv w'.
Proof.
  intros H Hm. destruct Hm as [w' Hn|a random input Hi Hl Hd Hr Hf|id c chunk Hb Hc|id c n Hc Hn|id c c' Hc Hr|id c c' Hc Hr|id c c' p Hc Hr|id c Hc|t rest Ht Hs|
    id c n r rest Ht Hc Hp Hx|t Ht|i r|r i rest Hr|s d| |c Hs Ha|c Hs|w' Hc Hr| |Hc].
  - by eapply inv_note.
  - by apply inv_open.
  - pose proof (iv_told _ H id) as Hd. unfold Told in Hd. rewrite Hc in Hd. destruct Hd as (Hk & _).
    eapply (inv_held w _ id c (set_c_input (c_input c ++ chunk) c) [Arrived id chunk] chunk); try done; [by right|cbn; by rewrite Z.eqb_refl, app_nil_r|unfold held; fields; by rewrite <- !app_assoc].
  - pose proof (iv_told _ H id) as Hd. unfold Told in Hd. rewrite Hc in Hd. destruct Hd as (Hk & _).
    eapply (inv_held w _ id c (set_c_unsent (c_unsent c - n) c) [] []); try done; [by left|by rewrite app_nil_r|by rewrite app_nil_r].
  - pose proof (iv_told _ H id) as Hd. unfold Told in Hd. rewrite Hc in Hd. destruct Hd as (Hk & _).
    destruct (round_waits_held _ _ _ Hk Hr) as (Hs & Hrc & Hh & Hk' & Hhd). eapply (inv_held w _ id c c' [] []); try done; [by left|by rewrite app_nil_r|by rewrite app_nil_r].
  - eapply (inv_touch id w _ []); [done|by rewrite Hc|intros i Hi; by apply lookup_insert_ne|done..|by rewrite app_nil_r|done|]. by eapply told_greets; [apply (iv_told _ H)|..].
  - destruct (told_receive w id c c' p (iv_told _ H id) Hc Hr) as (Ht & (x & Ex) & es' & Ee & Hf). destruct (handle_rest id p (put id c' w)) as (E1 & E2 & E3).
    eapply (inv_touch id w); [done|by rewrite Hc|intros i Hi; rewrite Ex; by apply lookup_insert_ne|done|done|by rewrite E3|exact Ee|exact Hf|exact Ht].
  - by apply inv_close.
  - eapply (inv_other w _ []); try done; [by right|by rewrite app_nil_r|]. intros id n r Hr. left. rewrite Ht. by right.
  - by eapply inv_send.
  - eapply (inv_other w _ []); try done; [by right|by rewrite app_nil_r|]. fields. intros id n r [Hr|Hr]%elem_of_app; [by left|]. apply list_elem_of_singleton in Hr. by subst t.
  - unfold answer. destruct (exchanges w !! i) as [x|]; [|done]. destruct (x_answered x); [done|].
    set (w1 := set_exchanges _ w). change (alive w1) with (alive w). destruct (alive w).
    + eapply (inv_other w _ [Replied (x_connection x) (x_number x) r]); try done; [by right|intros id; by repeat constructor|]. fields.
      intros id n r' [Hr|Hr]%elem_of_app; [by left|right]. apply list_elem_of_singleton in Hr. injection Hr as -> -> ->. by left.
    + eapply (inv_other w _ []); try done; [by right|by rewrite app_nil_r|]. by left.
  - eapply (inv_other w _ []); try done; [by right|by rewrite app_nil_r|]. by left.
  - eapply (inv_other w _ []); try done; [by right|by rewrite app_nil_r|]. by left.
  - eapply (inv_other w _ []); try done; [by right|by rewrite app_nil_r|]. by left.
  - eapply (inv_other w _ []); try done; [|by rewrite app_nil_r|by left]. right. unfold sameListener in Hs. rewrite !andb_true_iff, !bool_decide_eq_true in Hs. apply Hs.
  - apply inv_closeMany. eapply (inv_other w _ []); try done; [|by rewrite app_nil_r|by left]. right. unfold sameListener in Hs. rewrite !andb_true_iff, !bool_decide_eq_true in Hs. apply Hs.
  - destruct (re_effects _ _ Hr) as (es' & Ee & Hq). eapply (inv_other w w'); [done|apply Hr|by left|apply Hr|exact Ee|intros id; by apply quiet_foreign|].
    intros id n r. rewrite (re_tasks _ _ Hr). by left.
  - unfold stopListening. case_match; [eapply (inv_other w _ [])|eapply (inv_other w _ [ApiPort 0])]; try done; try (by right); try (by rewrite app_nil_r); try (by left).
  - eapply (inv_other w _ []); try done; [by left|by rewrite app_nil_r|]. by left.
Qed.

Lemma run_inv es : Inv (run newWorld es).
Proof.
  apply run_keeps; [|apply inv_move]. split; [intros i; by left|by intros i|intros i n r Hr; by apply not_elem_of_nil in Hr].
Qed.

(** C12: in every run, whatever the chunks, the timers and the order of answers,
    a connection either said nothing, or what arrived on it is a greeting and then
    messages sealed in order under the key of the client; each was handed on once, in
    order; the frames written are the answers to the messages in order, and no
    counter is used twice. *)
Theorem conversation_faithful es id :
  let w := run newWorld es in
  Silent (effects w) id \/
  exists k ks msgs answers rest, Talk (effects w) id k ks msgs answers rest /\
    forall c, connections_ w !! id = Some c -> k = key (config_ w) /\ rest = held c /\ (c_phase c <> Pending -> length msgs = length answers).
Proof.
  pose proof (iv_told _ (run_inv es)) as Ht. intros w. specialize (Ht id). fold w in Ht. unfold Told in Ht. destruct (connections_ w !! id) as [c|] eqn:Hc.
  - destruct Ht as (_ & _ & _ & Ht). case_bool_decide as Hp; [left; apply Ht|right]. destruct Ht as (msgs & answers & Ht & _ & Htn).
    exists (key (config_ w)), (c_keys c), msgs, answers, (held c). split; [done|]. intros c' [= <-]. split; [done|]. split; [done|].
    intros Hq. unfold turn in Htn. by destruct (c_phase c).
  - destruct Ht as [Ht|(k & ks & msgs & answers & rest & Ht)]; [by left|right]. by exists k, ks, msgs, answers, rest.
Qed.
End Dialogue.
