(* ===== verification/RemoteProgress.v ===== *)
(** * No message waits

    After every event the input of each connection has been looked at as far as it
    goes: a complete frame is left unread only while a request is open or an answer
    has not left the socket. With RemoteDialogue this settles what a client that
    sends frames gets handled. The end of the file runs a small conversation. *)

From Stdlib Require Import Ascii String.
From S2P Require Import Prelude QtText Json OtpWire RemoteProtocol RemoteConfig RemoteServer RemoteMoves RemoteDialogue.

Local Open Scope Z_scope.
#[local] Set Warnings "-register-all".

(** ** Looking again finds nothing *)

Section Progress.
Context `{C : Crypto} `{Laws : !CryptoLaws C} (fromJson : bytes -> option QJsonValue) (toJson : QJsonValue -> bytes).
Context (problemText : RequestProblem -> qstring) (tooLargeText droppedText exitingText : qstring).
Context (addressText : HostAddress -> qstring).

Abbreviation sendResponse := (sendResponse toJson tooLargeText).
Abbreviation handleRequest := (handleRequest fromJson toJson problemText tooLargeText).
Abbreviation inputLoop := (inputLoop fromJson toJson problemText tooLargeText).
Abbreviation processInput := (processInput fromJson toJson problemText tooLargeText).
Abbreviation step := (step fromJson toJson problemText tooLargeText droppedText exitingText addressText).
Abbreviation run := (run fromJson toJson problemText tooLargeText droppedText exitingText addressText).

Lemma round_again k c c' : readRound k c = Waits c' -> readRound k c' = Waits c'.
Proof.
  unfold readRound. destruct (c_phase c) eqn:Ep.
  - unfold readHello. destruct (length (c_input c) <? kClientHelloSize)%nat eqn:El; [|case_match; done]. intros [= <-]. by rewrite Ep, El.
  - destruct (0 <? c_unsent c) eqn:Eu; [intros [= <-]; by rewrite Ep, Eu|]. unfold readFrame.
    destruct (readHeader c) as [r|c1] eqn:Er.
    + intros ->. assert (c' = c) as -> by (unfold readHeader in Er; repeat case_match; by simplify_eq). by rewrite Ep, Eu, Er.
    + destruct (qsize (c_body _) <? c_length _) eqn:Eb; [|repeat case_match; done]. intros [= <-]. fields.
      assert (c_phase c1 = Ready /\ c_unsent c1 = c_unsent c /\ c_header c1 <> []) as (E1 & E2 & E3).
      { unfold readHeader in Er. repeat case_match; try done; injection Er as <-; fields; (split; [done|]; split; [done|]).
        - by destruct (c_header c).
        - intros E. apply (f_equal length) in E. rewrite length_take in E. rename select ((_ <? _)%nat = false) into Hl. apply Nat.ltb_ge in Hl.
          unfold kFrameHeaderSize in *. cbn [length] in E. lia. }
      rewrite E1, E2, Eu. unfold readHeader. fields. destruct (c_header c1) as [|h hs] eqn:Eh; [done|]. cbn [isEmpty negb]. fields.
      set (missing := (Z.to_nat (c_length c1) - length (c_body c1))%nat) in *. apply Z.ltb_lt in Eb. unfold qsize in Eb. rewrite length_app, length_take in Eb.
      rewrite drop_ge by (unfold missing in *; lia). rewrite take_nil, drop_nil, app_nil_r. unfold qsize. rewrite length_app, length_take.
      rewrite (proj2 (Z.ltb_lt _ _)) by lia. done.
  - intros [= <-]. by rewrite Ep.
Qed.

Definition AtRest (w : World) (id : Z) : Prop := forall c, connections_ w !! id = Some c -> readRound (key (config_ w)) c = Waits c.

Lemma rest_same w w' id : (connections_ w' !! id = connections_ w !! id \/ connections_ w' !! id = None) -> key (config_ w') = key (config_ w) -> AtRest w id -> AtRest w' id.
Proof. unfold AtRest. intros [E|E] Ek H c; rewrite E; [rewrite Ek; apply H|done]. Qed.

(** What a helper does to the others. *)
Lemma send_others i id r w : i <> id -> connections_ (sendResponse id r w) !! i = connections_ w !! i.
Proof.
  intros Hi. unfold RemoteServer.sendResponse. repeat case_match; try done; [rewrite close_connections; by apply lookup_delete_ne|fields; by apply lookup_insert_ne].
Qed.
Lemma handle_others i id p w : i <> id -> connections_ (handleRequest id p w) !! i = connections_ w !! i.
Proof. intros Hi. unfold RemoteServer.handleRequest. repeat case_match; try done; [by apply send_others|fields; by apply lookup_insert_ne]. Qed.
Lemma fail_others i id why w : i <> id -> connections_ (fail id why w) !! i = connections_ w !! i /\ config_ (fail id why w) = config_ w.
Proof.
  intros Hi. unfold fail. destruct (connections_ w !! id) as [c|]; [|done]. pose proof (noted_logPeer (c_peer c) why w) as Hn. set (w1 := logPeer _ _ _) in *.
  rewrite close_connections, lookup_delete_ne by done. unfold closeConnection.
  split; [case_match; fields; by rewrite (no_connections _ _ Hn)|]. case_match; case_match; fields; by rewrite (no_config _ _ Hn).
Qed.
Lemma fail_gone id why w : is_Some (connections_ w !! id) -> connections_ (fail id why w) !! id = None.
Proof. intros [c Hc]. unfold fail. rewrite Hc. rewrite close_connections. apply lookup_delete_eq. Qed.
Lemma close_config_same id w : config_ (closeConnection id w) = config_ w.
Proof. unfold closeConnection. by case_match. Qed.

Lemma loop_rest id : forall fuel w, (inputFuel id w <= fuel)%nat -> (forall i, i <> id -> AtRest w i) -> forall i, AtRest (inputLoop fuel id w) i.
Proof.
  induction fuel as [|fuel IH]; intros w Hf Ho i.
  - cbn [RemoteServer.inputLoop]. destruct (decide (i = id)) as [->|Hi]; [|by apply Ho]. unfold inputFuel in Hf. intros c Hc. rewrite Hc in Hf. lia.
  - cbn [RemoteServer.inputLoop]. unfold inputFuel in Hf. destruct (connections_ w !! id) as [c|] eqn:Hc.
    2:{ destruct (decide (i = id)) as [->|Hi]; [|by apply Ho]. intros c. by rewrite Hc. }
    fold (inputSize c) in Hf. destruct (readRound _ c) as [c'|c' why| |c'|c' p] eqn:Er.
    + destruct (decide (i = id)) as [->|Hi]; [|eapply (rest_same w); [left|done|by apply Ho]; fields; by apply lookup_insert_ne].
      intros x. fields. rewrite lookup_insert_eq. intros [= <-]. by eapply round_again.
    + destruct (decide (i = id)) as [->|Hi]; [intros x; rewrite fail_gone; [done|fields; rewrite lookup_insert_eq; by eexists]|].
      destruct (fail_others i id why (put id c' w) Hi) as [E1 E2]. eapply (rest_same w); [left; rewrite E1; fields; by apply lookup_insert_ne|by rewrite E2|by apply Ho].
    + destruct (decide (i = id)) as [->|Hi]; [intros x; rewrite close_connections, lookup_delete_eq; done|].
      eapply (rest_same w); [left; rewrite close_connections; by apply lookup_delete_ne|by rewrite close_config_same|by apply Ho].
    + apply IH.
      * unfold inputFuel. fields. rewrite lookup_insert_eq. fold (inputSize c'). pose proof (round_shrinks _ c c' ltac:(left; exact Er)). lia.
      * intros j Hj. eapply (rest_same w); [left; fields; by apply lookup_insert_ne|done|by apply Ho].
    + set (w1 := if isLocal (put id c' w) (c_address c') then put id c' w else noteAuthenticated (c_peer c') (put id c' w)).
      assert (connections_ w1 = <[id := c']> (connections_ w) /\ config_ w1 = config_ w) as [Ec Ek] by (unfold w1; by case_match).
      apply IH.
      * pose proof (round_shrinks _ c c' ltac:(right; by eexists)). unfold inputFuel. destruct (connections_ (handleRequest id p w1) !! id) as [x|] eqn:Hx; [|lia].
        fold (inputSize x). rewrite (handle_size _ _ _ _ id c' p w1 ltac:(by rewrite Ec, lookup_insert_eq) x Hx). lia.
      * intros j Hj. destruct (handle_rest fromJson toJson problemText tooLargeText id p w1) as (Ek' & _).
        eapply (rest_same w); [left; rewrite handle_others, Ec by done; by apply lookup_insert_ne|by rewrite Ek', Ek|by apply Ho].
Qed.

Lemma input_rest id w : (forall i, i <> id -> AtRest w i) -> forall i, AtRest (processInput id w) i.
Proof. intros H. by apply loop_rest. Qed.

(** ** Every event ends at rest *)

Definition Rest (w : World) : Prop := forall id, AtRest w id.
Lemma rest_keep w w' : (forall id, connections_ w' !! id = connections_ w !! id \/ connections_ w' !! id = None) -> key (config_ w') = key (config_ w) -> Rest w -> Rest w'.
Proof. intros Hc Hk H id. by apply (rest_same w). Qed.
Lemma rest_noted w w' : Noted w w' -> Rest w -> Rest w'.
Proof. intros Hn. apply rest_keep; [intros id; left; by rewrite (no_connections _ _ Hn)|by rewrite (no_config _ _ Hn)]. Qed.
Lemma rest_none w : connections_ w = ∅ -> Rest w.
Proof. intros E id c. by rewrite E, lookup_empty. Qed.
Lemma rest_close id w : Rest w -> Rest (closeConnection id w).
Proof.
  apply rest_keep; [|by rewrite close_config_same]. intros i. rewrite close_connections. destruct (decide (i = id)) as [->|]; [right; apply lookup_delete_eq|left; by apply lookup_delete_ne].
Qed.
Lemma rest_closeMany ids : forall w, Rest w -> Rest (closeMany ids w).
Proof. induction ids as [|id ids IH]; intros w H; cbn; [done|]. by apply IH, rest_close. Qed.

(** A change of one connection and then a look at its input. *)
Lemma rest_touch id w w' : Rest w -> (forall i, i <> id -> connections_ w' !! i = connections_ w !! i) -> key (config_ w') = key (config_ w) -> Rest (processInput id w').
Proof. intros H Hc Hk i. apply input_rest. intros j Hj. apply (rest_same w); [left; by apply Hc|done|apply H]. Qed.

Lemma rest_unsent k c u : 0 < u -> readRound k c = Waits c -> readRound k (set_c_unsent u c) = Waits (set_c_unsent u c).
Proof.
  intros Hu. unfold readRound. fields. destruct (c_phase c); [|by rewrite (proj2 (Z.ltb_lt 0 u) Hu)|done]. unfold readHello. fields. case_match; [done|]. by case_match.
Qed.

Lemma rest_apply c bound w : Rest w -> Rest (apply c bound w).
Proof.
  intros H. unfold apply. destruct (sameListener w c) eqn:Es.
  - assert (Rest (set_config_ c w)) as H1.
    { apply (rest_keep w); [by left| |exact H]. unfold sameListener in Es. rewrite !andb_true_iff, !bool_decide_eq_true in Es. apply Es. }
    case_match; [by apply rest_closeMany|done].
  - apply rest_none. pose proof (closeAll_none (set_config_ c w)) as E. unfold listenOn, finish, stopListening. repeat case_match; fields; exact E.
Qed.

Lemma rest_step w e : Rest w -> Rest (step w e).
Proof.
  intros H. destruct e as [ms|a random input|id chunk|id n|id|id|i r|i|d|bound|c| |]; cbn [RemoteServer.step]; unfold onConnection.
  - by apply rest_keep with w; [by left|..].
  - case_match; [|done]. unfold admit_. case_match.
    + eapply rest_noted; [|exact H]. eapply noted_trans; [apply noted_logPeer|]. split; try done. eexists. by repeat constructor.
    + eapply rest_touch; [exact H| |done]. intros i Hi. fields. by apply lookup_insert_ne.
  - destruct (connections_ w !! id) as [c|] eqn:Hc; [|done]. case_match; [|done]. eapply rest_touch; [exact H| |done]. intros i Hi. fields. by apply lookup_insert_ne.
  - destruct (connections_ w !! id) as [c|] eqn:Hc; [|done]. case_match eqn:Hn; [|done]. case_match eqn:Hz.
    + eapply rest_touch; [exact H| |done]. intros i Hi. fields. by apply lookup_insert_ne.
    + bprop. intros i. destruct (decide (i = id)) as [->|Hi]; [|apply (rest_same w); [left; by apply lookup_insert_ne|done|apply H]].
      intros x. fields. rewrite lookup_insert_eq. intros [= <-]. apply rest_unsent; [lia|exact (H id c Hc)].
  - by apply rest_close.
  - destruct (connections_ w !! id) as [c|] eqn:Hc; [|done]. case_match; [by apply rest_close|done].
  - unfold answer. repeat case_match; try done; by apply rest_keep with w; [by left|..].
  - unfold answer. repeat case_match; try done; by apply rest_keep with w; [by left|..].
  - unfold dispatch. destruct (requests w) as [|[r i] rest]; [done|]. assert (Rest (set_requests rest w)) as H1 by (by apply rest_keep with w; [by left|..]).
    case_match; [unfold answer; repeat case_match; try done|]; by apply rest_keep with w; [by left|..].
  - case_match; [|done]. unfold runTask. destruct (tasks w) as [|[c|id n r|] rest] eqn:Ht; [done|..].
    + by apply rest_apply, rest_keep with w; [by left|..].
    + unfold deliver. fields. destruct (connections_ w !! id) as [c|] eqn:Hc; [|by apply rest_keep with w; [by left|..]].
      case_match; [by apply rest_keep with w; [by left|..]|]. eapply rest_touch; [exact H| |].
      * intros i Hi. by rewrite send_others.
      * by destruct (send_rest toJson tooLargeText id r (set_tasks rest w)) as (-> & _).
    + unfold stopListening. case_match; by apply rest_keep with w; [by left|..].
  - unfold requestApply. repeat case_match; try done; by apply rest_keep with w; [by left|..].
  - unfold shutdown. repeat case_match; try done; by apply rest_keep with w; [by left|..].
  - case_match; [|done]. apply rest_none. apply closeAll_none.
Qed.

Lemma rest_run es : forall w, Rest w -> Rest (run w es).
Proof. induction es as [|e es IH]; intros w H; cbn; [done|]. by apply IH, rest_step. Qed.

(** A complete frame is longer than what a connection at rest holds. *)
Lemma held_short k c : headerKept c -> c_phase c = Ready -> c_unsent c <= 0 -> readRound k c = Waits c ->
  (length (held c) < kFrameHeaderSize)%nat \/ exists rest, held c = c_header c ++ rest /\ length (c_header c) = kFrameHeaderSize /\ qsize rest < beNumber (c_header c).
Proof.
  intros Hk Hp Hu. unfold readRound. rewrite Hp. rewrite (proj2 (Z.ltb_ge _ _)) by done. unfold readFrame. destruct (readHeader c) as [r|c1] eqn:Er.
  - intros ->. left. unfold readHeader in Er. destruct (isEmpty (c_header c)) eqn:Eh; cbn [negb] in Er; [|done]. unfold headerKept in Hk. rewrite Eh in Hk.
    destruct (Nat.ltb_spec (length (c_input c)) kFrameHeaderSize); [|repeat case_match; done]. unfold held. rewrite Hk. by destruct (c_header c).
  - destruct (header_read c c1 Hk Er) as (_ & _ & Hh & Hl & He & Hr & Hb). set (missing := (Z.to_nat (c_length c1) - length (c_body c1))%nat). fields.
    case_match eqn:Eb; [|repeat case_match; done]. intros [= Ec]. apply Z.ltb_lt in Eb. unfold qsize in *. rewrite length_app, length_take in Eb. right.
    assert (c_header c = c_header c1) as Ehd by (by rewrite <- Ec). exists (c_body c1 ++ c_input c1). rewrite <- Hh, Ehd. split; [done|]. split; [done|].
    unfold qsize. rewrite length_app. unfold missing in *. lia.
Qed.

(** C14: after every event, a connection that is ready and whose answers have left
    the socket holds no complete message: whatever a client sent whole was taken up. *)
Theorem no_message_waits es id c : connections_ (run newWorld es) !! id = Some c -> c_phase c = Ready -> c_unsent c <= 0 ->
  forall p rest, qsize p + Z.of_nat kTagSize <= kMaxClientFrame -> held c <> SealFrame (c2s (c_keys c)) (c_received c) p ++ rest.
Proof.
  intros Hc Hp Hu p rest Hs E. assert (Rest (run newWorld es)) as Hr by (by apply rest_run, rest_none).
  assert (Inv fromJson toJson problemText tooLargeText (run newWorld es)) as Hi by (apply run_inv).
  pose proof (iv_told _ _ _ _ _ Hi id) as Ht. unfold Told in Ht. rewrite Hc in Ht. destruct Ht as (Hk & _ & _ & Ht).
  rewrite bool_decide_eq_false_2 in Ht by (by rewrite Hp). destruct Ht as (msgs & answers & Ht & _).
  assert (length (c2s (c_keys c)) = kKeySize) as Hks by (destruct (tk_arrived _ _ _ _ _ _ _ _ _ _ _ Ht) as (sr & cr & _ & _ & -> & _); apply hmac_size).
  change kMaxClientFrame with 1048576 in Hs. destruct (seal_parts (c2s (c_keys c)) (c_received c) p Hks) as (h & sealed & Ef & Hh & Ehd & Hsl & _);
    [unfold frameLimit; lia|]. rewrite Ef in E.
  destruct (held_short _ c Hk Hp Hu (Hr id c Hc)) as [Hl|(tl & Etl & Hhl & Hq)].
  - rewrite E, !length_app in Hl. lia.
  - rewrite Etl, <- app_assoc in E. apply app_inj_1 in E as [E1 E2]; [|congruence]. rewrite E1, Ehd, beNumber_bigEndian in Hq.
    change (256 ^ Z.of_nat kFrameHeaderSize) with 4294967296 in Hq. unfold qsize in *. rewrite Z.mod_small in Hq by lia.
    apply (f_equal length) in E2. rewrite length_app in E2. lia.
Qed.
End Progress.

(** ** A conversation *)

Module ApiSample.
(** A cipher that only adds a tag; it stands for the vendored one in this run. *)
Definition total (l : bytes) : Z := fold_left Z.add l 0.
Definition tagOf (key nonce : bytes) : bytes := replicate kTagSize ((total key + 3 * total nonce) mod 256).
#[local] Instance crypto : Crypto := {|
  hmacSha256 message key := replicate kKeySize (total (message ++ key) mod 256);
  aeadWrite key nonce _ plain := (plain, tagOf key nonce);
  aeadRead key nonce _ cipher tag := if bool_decide (tag = tagOf key nonce) then Some cipher else None |}.
#[local] Instance cryptoLaws : CryptoLaws crypto.
Proof.
  split; try done. intros key nonce ad cipher tag plain. unfold aeadRead, aeadWrite, crypto. case_bool_decide as E; split; intros H; try done.
  - injection H as ->. congruence.
  - injection H as <- Ht. done.
  - injection H as -> Ht. by destruct E.
Qed.

Definition fromJson (text : bytes) : option QJsonValue :=
  if bool_decide (text = qs "status") then Some (JObject [(qs "method", JString (qs "GET")); (qs "path", JString (qs "/v1/status"))]) else None.
Definition toJson (v : QJsonValue) : bytes := qs "[{}]".
Definition noText (p : RequestProblem) : qstring := [].
Definition addressText (a : HostAddress) : qstring := qs "127.0.0.1".
Definition sampleRun : list Event -> World := run fromJson toJson noText [] [] [] addressText newWorld.

Definition config : Config := MkConfig true false kDefaultPort (replicate kKeySize 5) [] false NullAddress.
Definition serverRandom : bytes := replicate kRandomSize 1.
Definition clientRandom : bytes := replicate kRandomSize 2.
Definition keys : SessionKeys := DeriveKeys (key config) serverRandom clientRandom.
(** A greeting and three messages, the last cut short; the second is no JSON. *)
Definition stream : bytes :=
  kProtocolVersion :: clientRandom ++ SealFrame (c2s keys) 0 (qs "status") ++ SealFrame (c2s keys) 1 (qs "nonsense") ++ take 9 (SealFrame (c2s keys) 2 (qs "status")).
Definition frameSize : Z := qsize (SealFrame (s2c keys) 0 (SerializeResponse toJson (Ok JNull 200))).
Definition refusalSize : Z := qsize (SealFrame (s2c keys) 1 (SerializeResponse toJson (Error 400 (qs "bad_request") []))).
Definition events : list Event :=
  [EApply config; ETask (Some kDefaultPort); EConnect LocalHost serverRandom (take 3 stream); EWritten 1 16; EData 1 (take 30 (drop 3 stream));
   EData 1 (drop 33 stream); EDispatch true; EAnswer 0 (Ok JNull 200); EDrop 0; ETask None; EWritten 1 5; EWritten 1 (frameSize - 5); EWritten 1 refusalSize].
Definition sample : World := sampleRun events.
Definition connection : Connection := default (newConnection addressText NullAddress [] []) (connections_ sample !! 1).

(** The first message was handed on and answered, the second refused at once. *)
Lemma conversation_faithful_witness :
  requestedOf 1 (effects sample) = [(1, (qs "GET", qs "/v1/status", ∅, JNull))] /\
  map snd (answeredOf 1 (effects sample)) = [SerializeResponse toJson (Ok JNull 200); SerializeResponse toJson (Error 400 (qs "bad_request") [])] /\
  (Silent (effects sample) 1 \/
   exists k ks msgs answers rest, Talk fromJson toJson noText [] (effects sample) 1 k ks msgs answers rest /\
     forall c, connections_ sample !! 1 = Some c -> k = key (config_ sample) /\ rest = held c /\ (c_phase c <> Pending -> length msgs = length answers)).
Proof. split; [vm_compute; reflexivity|split; [vm_compute; reflexivity|]]. exact (conversation_faithful fromJson toJson noText [] [] [] addressText events 1). Defined.

(** The nine bytes that are left are no message. *)
Lemma no_message_waits_witness :
  held connection = take 9 (SealFrame (c2s keys) 2 (qs "status")) /\
  held connection <> SealFrame (c2s (c_keys connection)) (c_received connection) (qs "status") ++ [].
Proof.
  split; [vm_compute; reflexivity|].
  apply (no_message_waits fromJson toJson noText [] [] [] addressText events 1 connection); [vm_compute; reflexivity|vm_compute; reflexivity|vm_compute; discriminate|vm_compute; discriminate].
Defined.
End ApiSample.
