(* ===== verification/RemoteLockout.v ===== *)
(** * Peers that fail are locked out

    The records of failed and proven peers of RemoteServer against a specification
    that forgets nothing: dropping records to bound the tables never changes who is
    refused. [alike] is the equivalence of records from a time on. *)

From Stdlib Require Import Ascii String.
From S2P Require Import Prelude QtText RemoteServer.

Local Open Scope Z_scope.
#[local] Set Warnings "-register-all".

(** ** Records that look the same from now on *)

Definition current (now : Z) (f : FailureRecord) : list Z := List.filter (fun t => now - t <? kFailureWindowMs) (recent f).
Definition refuses (now : Z) (f : FailureRecord) : bool := now <? refusedUntil f.
Definition alike (now : Z) (f g : FailureRecord) : Prop :=
  current now f = current now g /\ forall now', now <= now' -> refuses now' f = refuses now' g.

#[export] Instance alike_equivalence now : Equivalence (alike now).
Proof.
  split.
  - by intros f.
  - intros f g [H1 H2]. split; [done|]. intros. symmetry. by apply H2.
  - intros f g h [H1 H2] [H3 H4]. split; [congruence|]. intros. rewrite H2 by done. by apply H4.
Qed.

Lemma current_later now now' f : now <= now' -> current now' f = List.filter (fun t => now' - t <? kFailureWindowMs) (current now f).
Proof.
  intros Hn. unfold current. induction (recent f) as [|t l IH]; [done|]. cbn [List.filter].
  destruct (Z.ltb_spec (now - t) kFailureWindowMs) as [H|H], (Z.ltb_spec (now' - t) kFailureWindowMs) as [H'|H']; cbn [List.filter]; try lia.
  - rewrite (proj2 (Z.ltb_lt _ _)) by done. by f_equal.
  - by rewrite (proj2 (Z.ltb_ge _ _)).
  - done.
Qed.
Lemma alike_later now now' f g : now <= now' -> alike now f g -> alike now' f g.
Proof. intros Hn [H1 H2]. split; [by rewrite !(current_later now now'), H1|]. intros. apply H2. lia. Qed.

#[export] Instance failed_proper now proven : Proper (alike now ==> alike now) (failed now proven).
Proof.
  intros f g [H1 H2]. unfold failed. fold (current now f) (current now g). rewrite H1. case_match; split; try done.
  - intros now' Hn. destruct proven; [by apply H2|done].
Qed.

(** The times of a record are in order, none after [now]. *)
Definition ordered (now : Z) (f : FailureRecord) : Prop := forall t, t ∈ recent f -> t <= now /\ forall l, last (recent f) = Some l -> t <= l.

Lemma outdated_alike now f : 0 <= now -> ordered now f -> outdated now f = true -> alike now f noFailures.
Proof.
  unfold outdated. intros Hn Ho [Hu Hl]%andb_true_iff. apply Z.leb_le in Hu. split.
  - unfold current. cbn. assert (forall t, t ∈ recent f -> (now - t <? kFailureWindowMs) = false) as Ht.
    { intros t Ht. destruct (last (recent f)) as [l|] eqn:El; [|apply last_None in El; rewrite El in Ht; by apply not_elem_of_nil in Ht].
      apply Z.leb_le in Hl. pose proof (proj2 (Ho t Ht) l El). apply Z.ltb_ge. lia. }
    clear -Ht. induction (recent f) as [|t l IH]; [done|]. cbn. rewrite Ht by left. apply IH. intros x Hx. apply Ht. by right.
  - intros now' Hn'. unfold refuses. cbn. destruct (Z.ltb_spec now' (refusedUntil f)), (Z.ltb_spec now' 0); lia.
Qed.

Lemma failed_ordered now proven f : ordered now f -> ordered now (failed now proven f).
Proof.
  intros H. unfold failed. case_match; intros t Ht; cbn [recent] in *; [by apply not_elem_of_nil in Ht|].
  rewrite last_snoc. apply elem_of_app in Ht as [Ht|Ht].
  - apply list_elem_of_In, filter_In in Ht as [Ht _]. apply list_elem_of_In in Ht. pose proof (proj1 (H t Ht)). split; [done|]. by intros l [= <-].
  - apply list_elem_of_singleton in Ht as ->. split; [lia|]. by intros l [= <-].
Qed.
Lemma ordered_later now now' f : now <= now' -> ordered now f -> ordered now' f.
Proof. intros Hn H t Ht. destruct (H t Ht). split; [lia|done]. Qed.

(** ** The specification *)

Inductive PeerOp := OFail (peer : qstring) | OProof (peer : qstring).
Definition History := list (Z * PeerOp).
(** What the tables of the server become. *)
Definition tableStep (st : gmap qstring FailureRecord * gmap qstring Z) (e : Z * PeerOp) : gmap qstring FailureRecord * gmap qstring Z :=
  match e with
  | (now, OFail p) => (noteFailure now p st.2 st.1, st.2)
  | (now, OProof p) => (st.1, noteProof now p st.2)
  end.
Definition tables (h : History) : gmap qstring FailureRecord * gmap qstring Z := fold_left tableStep h (∅, ∅).
(** What is remembered of one peer when nothing is dropped. *)
Definition recently (proof : option Z) (now : Z) : bool := match proof with Some t => now - t <? kAuthExemptMs | None => false end.
Definition peerStep (peer : qstring) (st : FailureRecord * option Z) (e : Z * PeerOp) : FailureRecord * option Z :=
  match e with
  | (now, OFail p) => if bool_decide (p = peer) then (failed now (recently st.2 now) st.1, st.2) else st
  | (now, OProof p) => if bool_decide (p = peer) then (st.1, Some now) else st
  end.
Definition remembered (peer : qstring) (h : History) : FailureRecord * option Z := fold_left (peerStep peer) h (noFailures, None).

(** Times that never go back, the last no later than [now]. *)
Fixpoint timely (from : Z) (h : History) (now : Z) : Prop :=
  match h with [] => from <= now | (t, _) :: h => from <= t /\ timely t h now end.

(** ** The tables remember enough *)

Record Remembers (now : Z) (st : gmap qstring FailureRecord * gmap qstring Z) (peer : qstring) (sp : FailureRecord * option Z) : Prop := {
  rm_alike : alike now (default noFailures (st.1 !! peer)) sp.1;
  rm_proof : forall now', now <= now' -> recently (st.2 !! peer) now' = recently sp.2 now';
  rm_ordered : ordered now (default noFailures (st.1 !! peer)) }.

Lemma remembers_later now now' st peer sp : now <= now' -> Remembers now st peer sp -> Remembers now' st peer sp.
Proof. intros Hn []. split; [by eapply alike_later|intros; apply rm_proof0; lia|by eapply ordered_later]. Qed.

(** Dropping what is outdated. *)
Lemma pruned_failures now fs peer : 0 <= now -> ordered now (default noFailures (fs !! peer)) ->
  alike now (default noFailures (prunedFailures now fs !! peer)) (default noFailures (fs !! peer)) /\
  ordered now (default noFailures (prunedFailures now fs !! peer)).
Proof.
  intros Hn Ho. unfold prunedFailures. case_match; [|done]. rewrite map_lookup_filter. destruct (fs !! peer) as [f|] eqn:Ef; [|done]. cbn [mbind option_bind guard default from_option id].
  cbn in Ho. destruct (decide (outdated now f = false)) as [E|E].
  - rewrite option_guard_True by done. done.
  - rewrite option_guard_False by done. split; [|intros t Ht; by apply not_elem_of_nil in Ht]. symmetry. apply outdated_alike; [done..|]. by destruct (outdated now f).
Qed.
Lemma pruned_proofs now auth peer now' : now <= now' ->
  recently (prunedProofs now auth !! peer) now' = recently (auth !! peer) now'.
Proof.
  intros Hn. unfold prunedProofs. case_match; [|done]. rewrite map_lookup_filter. destruct (auth !! peer) as [t|] eqn:Et; [|done]. cbn [mbind option_bind].
  destruct (decide (now - t < kAuthExemptMs)) as [E|E]; [by rewrite option_guard_True|rewrite option_guard_False by done]. unfold recently. symmetry. apply Z.ltb_ge. lia.
Qed.

Lemma remembers_step now st peer sp op : 0 <= now -> Remembers now st peer sp -> Remembers now (tableStep st (now, op)) peer (peerStep peer sp (now, op)).
Proof.
  intros Hn []. destruct st as [fs auth], sp as [f pr]. cbn [fst snd] in *. destruct op as [p|p]; cbn [tableStep peerStep fst snd]; destruct (decide (p = peer)) as [->|Hp].
  all: rewrite ?bool_decide_eq_true_2, ?bool_decide_eq_false_2 by done.
  - destruct (pruned_failures now fs peer Hn rm_ordered0) as [Ha Ho]. unfold noteFailure. split; cbn [fst snd]; try done; rewrite lookup_insert_eq; cbn [default from_option id].
    + replace (provenAt auth peer now) with (recently pr now) by (symmetry; apply rm_proof0; lia). apply failed_proper. by etransitivity.
    + by apply failed_ordered.
  - destruct (pruned_failures now fs peer Hn rm_ordered0) as [Ha Ho]. unfold noteFailure. split; cbn [fst snd]; try done; rewrite lookup_insert_ne by done; [by etransitivity|done].
  - unfold noteProof. split; cbn [fst snd]; try done. intros now' Hn'. by rewrite lookup_insert_eq.
  - unfold noteProof. split; cbn [fst snd]; try done. intros now' Hn'. rewrite lookup_insert_ne by done. rewrite pruned_proofs by done. by apply rm_proof0.
Qed.

Lemma remembers_history peer : forall h from now st sp, 0 <= from -> timely from h now -> Remembers from st peer sp ->
  Remembers now (fold_left tableStep h st) peer (fold_left (peerStep peer) h sp).
Proof.
  induction h as [|[t op] h IH]; intros from now st sp H0 Ht Hr; cbn [timely fold_left] in *; [by eapply remembers_later|]. destruct Ht as [Hft Ht].
  apply (IH t); [lia|done|]. apply remembers_step; [lia|]. by eapply remembers_later.
Qed.

(** ** Who is refused *)

Definition failuresOf (peer : qstring) (h : History) : list Z := omap (fun e => match e.2 with OFail p => if bool_decide (p = peer) then Some e.1 else None | _ => None end) h.
Definition proofsOf (peer : qstring) (h : History) : list Z := omap (fun e => match e.2 with OProof p => if bool_decide (p = peer) then Some e.1 else None | _ => None end) h.

(** The failure that locks a peer out: the fifth within the window, long after any
    proof of the key. *)
Definition lockedAt (peer : qstring) (h : History) (t : Z) : Prop :=
  exists h1 h2 five, h = h1 ++ (t, OFail peer) :: h2 /\ five `sublist_of` failuresOf peer (h1 ++ [(t, OFail peer)]) /\
    (kFailureLimit <= length five)%nat /\ Forall (fun x => t - x < kFailureWindowMs) five /\
    recently (last (proofsOf peer h1)) t = false.

Record Justified (peer : qstring) (h : History) (st : FailureRecord * option Z) : Prop := {
  ju_recent : recent st.1 `sublist_of` failuresOf peer h;
  ju_proof : st.2 = last (proofsOf peer h);
  ju_refused : refusedUntil st.1 = 0 \/ exists t, refusedUntil st.1 = t + kRefusalMs /\ lockedAt peer h t }.

Lemma locked_more peer h e t : lockedAt peer h t -> lockedAt peer (h ++ [e]) t.
Proof. intros (h1 & h2 & five & -> & ?). exists h1, (h2 ++ [e]), five. split; [by rewrite <- app_assoc|done]. Qed.
Lemma failures_app peer a b : failuresOf peer (a ++ b) = failuresOf peer a ++ failuresOf peer b.
Proof. apply omap_app. Qed.
Lemma proofs_app peer a b : proofsOf peer (a ++ b) = proofsOf peer a ++ proofsOf peer b.
Proof. apply omap_app. Qed.
Lemma filter_sublist {A} (p : A -> bool) l : List.filter p l `sublist_of` l.
Proof. induction l as [|x l IH]; cbn; [done|]. case_match; by constructor. Qed.

Lemma justified_step peer h st e : Justified peer h st -> Justified peer (h ++ [e]) (peerStep peer st e).
Proof.
  intros [Hr Hp Hu]. destruct st as [f pr], e as [now [p|p]]; cbn [fst snd peerStep] in *; case_bool_decide as E; [subst p| |subst p|].
  - assert (failuresOf peer (h ++ [(now, OFail peer)]) = failuresOf peer h ++ [now]) as Ef by (rewrite failures_app; cbn; by rewrite bool_decide_eq_true_2).
    assert (proofsOf peer (h ++ [(now, OFail peer)]) = proofsOf peer h) as Eq by (rewrite proofs_app; apply app_nil_r).
    set (five := current now f ++ [now]). assert (five `sublist_of` failuresOf peer (h ++ [(now, OFail peer)])) as Hs.
    { rewrite Ef. apply sublist_app; [|done]. etransitivity; [apply filter_sublist|done]. }
    unfold failed. fold (current now f). fold five. destruct (Nat.leb_spec kFailureLimit (length five)) as [Hl|Hl].
    + split; cbn [fst snd recent refusedUntil]; [apply sublist_nil_l|by rewrite Eq|]. destruct (recently pr now) eqn:Epr.
      * destruct Hu as [Hu|(t & Hu & Ht)]; [by left|right]. exists t. split; [done|by apply locked_more].
      * right. exists now. split; [done|]. exists h, [], five. split; [done|]. split; [done|]. split; [done|]. split; [|by rewrite <- Hp].
        apply Forall_app. split; [|constructor; [unfold kFailureWindowMs; lia|done]]. apply Forall_forall. intros x Hx. apply list_elem_of_In, filter_In in Hx as [_ Hx]. by apply Z.ltb_lt.
    + split; cbn [fst snd recent refusedUntil]; [done|by rewrite Eq|]. destruct Hu as [Hu|(t & Hu & Ht)]; [by left|right]. exists t. split; [done|by apply locked_more].
  - split; cbn [fst snd]; rewrite ?failures_app, ?proofs_app; cbn; rewrite ?bool_decide_eq_false_2 by done; rewrite ?app_nil_r; try done.
    destruct Hu as [Hu|(t & Hu & Ht)]; [by left|right]. exists t. split; [done|by apply locked_more].
  - split; cbn [fst snd]; rewrite ?failures_app, ?proofs_app; cbn; rewrite ?bool_decide_eq_true_2 by done; rewrite ?app_nil_r, ?last_snoc; try done.
    destruct Hu as [Hu|(t & Hu & Ht)]; [by left|right]. exists t. split; [done|by apply locked_more].
  - split; cbn [fst snd]; rewrite ?failures_app, ?proofs_app; cbn; rewrite ?bool_decide_eq_false_2 by done; rewrite ?app_nil_r; try done.
    destruct Hu as [Hu|(t & Hu & Ht)]; [by left|right]. exists t. split; [done|by apply locked_more].
Qed.
Lemma justified peer h : Justified peer h (remembered peer h).
Proof.
  induction h as [|e h IH] using rev_ind; [split; [done|done|by left]|]. unfold remembered. rewrite fold_left_app. by apply justified_step.
Qed.

(** C15: although the tables drop records once they are full, a peer is refused
    exactly as if every failure and every proof of the key had been remembered, and
    only for the minute after a fifth failure within a minute, when it had not proved
    the key in the ten minutes before. *)
Theorem lockout_exact h now peer : timely 0 h now ->
  refusedAt (tables h).1 peer now = refuses now (remembered peer h).1 /\
  (refusedAt (tables h).1 peer now = true -> exists t, now < t + kRefusalMs /\ lockedAt peer h t).
Proof.
  intros Ht. assert (Remembers now (tables h) peer (remembered peer h)) as [[_ Ha] _ _].
  { eapply (remembers_history peer h 0 now); [lia|done|]. split; [done|done|]. intros t Hin. by apply not_elem_of_nil in Hin. }
  assert (0 <= now) as Hn by (clear -Ht; revert Ht; generalize 0; induction h as [|[t op] h IH]; intros z; cbn; [done|]; intros [H1 H2]; specialize (IH t H2); lia).
  assert (refusedAt (tables h).1 peer now = refuses now (remembered peer h).1) as E.
  { rewrite <- Ha by lia. unfold refusedAt, refuses. destruct ((tables h).1 !! peer); [done|]. cbn. symmetry. apply Z.ltb_ge. lia. }
  split; [done|]. rewrite E. unfold refuses. intros Hu%Z.ltb_lt. destruct (ju_refused _ _ _ (justified peer h)) as [Hz|(t & Hz & Hl)]; [lia|].
  exists t. split; [lia|done].
Qed.

(** Five failures in a row lock a peer out, a proof of the key before them does not. *)
Module LockoutSample.
Definition peer : qstring := qs "192.0.2.7".
Definition fails : History := map (fun t => (t, OFail peer)) [100; 200; 300; 400; 500].
Lemma lockout_exact_witness :
  refusedAt (tables fails).1 peer 600 = true /\ refusedAt (tables ((50, OProof peer) :: fails)).1 peer 600 = false /\
  refusedAt (tables fails).1 peer 600 = refuses 600 (remembered peer fails).1.
Proof. split; [vm_compute; reflexivity|split; [vm_compute; reflexivity|]]. apply (lockout_exact fails 600 peer). vm_compute. intuition discriminate. Defined.
End LockoutSample.
