(* ===== verification/RemoteRouter.v ===== *)
(** * The endpoints of the remote API

    src/src/api/remote/Router.cpp: the table of endpoints with its dispatch, the
    readers of request bodies, and the requests that start, stop and reconfigure the
    connection, whose answers wait for the engine or for a deadline. What the engine,
    the settings and the database say at a moment is an [Env]; the signals that a call
    into the engine raises before it returns are an argument. *)

From Stdlib Require Import Ascii String.
From S2P Require Import Prelude QtText Json.
From S2P Require ConnectionManager.
From S2P Require Import RemoteProtocol.

Local Open Scope Z_scope.
#[local] Set Warnings "-register-all".

(** ** Paths *)

Fixpoint matchSegments (want got : list qstring) (id : Z) : option Z :=
  match want, got with
  | [], [] => Some id
  | w :: want, g :: got =>
      if bool_decide (w = qs "{id}") then match toInt g with Some v => matchSegments want got v | None => None end
      else if bool_decide (w = g) then matchSegments want got id else None
  | _, _ => None
  end.
(** The id in the path, or -1 where the pattern has none. *)
Definition matchPath (pattern path : qstring) : option Z := matchSegments (split (ch "/") pattern) (split (ch "/") path) (-1).

Record Endpoint := MkEndpoint { e_method : qstring; e_path : qstring; e_handler : qstring; e_admin : bool }.
Definition endpoints : list Endpoint :=
  [
   MkEndpoint (qs "GET") (qs "/v1/status") (qs "getStatus") false;
   MkEndpoint (qs "GET") (qs "/v1/groups") (qs "getGroups") false;
   MkEndpoint (qs "GET") (qs "/v1/profiles") (qs "getProfiles") false;
   MkEndpoint (qs "GET") (qs "/v1/profiles/{id}") (qs "getProfile") false;
   MkEndpoint (qs "PUT") (qs "/v1/connection") (qs "putConnection") false;
   MkEndpoint (qs "DELETE") (qs "/v1/connection") (qs "deleteConnection") false;
   MkEndpoint (qs "PUT") (qs "/v1/modes") (qs "putModes") false;
   MkEndpoint (qs "GET") (qs "/v1/routes") (qs "getRoutes") false;
   MkEndpoint (qs "PUT") (qs "/v1/routes/active") (qs "putActiveRoute") false;
   MkEndpoint (qs "POST") (qs "/v1/tests") (qs "postTest") false;
   MkEndpoint (qs "GET") (qs "/v1/tests") (qs "getTests") false;
   MkEndpoint (qs "GET") (qs "/v1/tests/{id}") (qs "getTest") false;
   MkEndpoint (qs "DELETE") (qs "/v1/tests/{id}") (qs "deleteTest") false;
   MkEndpoint (qs "DELETE") (qs "/v1/results") (qs "deleteResults") false;
   MkEndpoint (qs "GET") (qs "/v1/stats/live") (qs "getLiveStats") false;
   MkEndpoint (qs "GET") (qs "/v1/stats/traffic") (qs "getTrafficStats") false;
   MkEndpoint (qs "POST") (qs "/v1/import") (qs "postImport") true;
   MkEndpoint (qs "POST") (qs "/v1/groups") (qs "postGroup") true;
   MkEndpoint (qs "POST") (qs "/v1/groups/update") (qs "postGroupsUpdate") false;
   MkEndpoint (qs "POST") (qs "/v1/groups/{id}/update") (qs "postGroupUpdate") false;
   MkEndpoint (qs "DELETE") (qs "/v1/groups/{id}") (qs "deleteGroup") true;
   MkEndpoint (qs "DELETE") (qs "/v1/profiles") (qs "deleteProfiles") true;
   MkEndpoint (qs "GET") (qs "/v1/settings") (qs "getSettings") false;
   MkEndpoint (qs "PUT") (qs "/v1/settings") (qs "putSettings") true;
   MkEndpoint (qs "POST") (qs "/v1/backups") (qs "postBackup") true;
   MkEndpoint (qs "GET") (qs "/v1/backups/{id}") (qs "getBackup") true;
   MkEndpoint (qs "DELETE") (qs "/v1/backups/{id}") (qs "deleteBackup") true;
   MkEndpoint (qs "POST") (qs "/v1/restores") (qs "postRestore") true;
   MkEndpoint (qs "PUT") (qs "/v1/restores/{id}") (qs "putRestore") true;
   MkEndpoint (qs "GET") (qs "/v1/restores/{id}") (qs "getRestore") true;
   MkEndpoint (qs "DELETE") (qs "/v1/restores/{id}") (qs "deleteRestore") true;
   MkEndpoint (qs "POST") (qs "/v1/restores/{id}/apply") (qs "postRestoreApply") true;
   MkEndpoint (qs "POST") (qs "/v1/rule-sets/update") (qs "postRuleSetsUpdate") false;
   MkEndpoint (qs "GET") (qs "/v1/geo-assets") (qs "getGeoAssets") false;
   MkEndpoint (qs "POST") (qs "/v1/geo-assets/update") (qs "postGeoAssetsUpdate") false;
   MkEndpoint (qs "POST") (qs "/v1/restart") (qs "postRestart") true;
   MkEndpoint (qs "POST") (qs "/v1/shutdown") (qs "postShutdown") true;
   MkEndpoint (qs "GET") (qs "/v1/logs") (qs "getLogs") true;
   MkEndpoint (qs "GET") (qs "/v1/events") (qs "getEvents") false;
   MkEndpoint (qs "GET") (qs "/v1/profiles/{id}/config") (qs "getProfileConfig") true;
   MkEndpoint (qs "PUT") (qs "/v1/profiles/{id}/config") (qs "putProfileConfig") true;
   MkEndpoint (qs "GET") (qs "/v1/routes/schema") (qs "getRouteSchema") false;
   MkEndpoint (qs "GET") (qs "/v1/routes/{id}") (qs "getRoute") false;
   MkEndpoint (qs "POST") (qs "/v1/routes") (qs "postRoute") true;
   MkEndpoint (qs "PUT") (qs "/v1/routes/{id}") (qs "putRoute") true;
   MkEndpoint (qs "DELETE") (qs "/v1/routes/{id}") (qs "deleteRoute") true;
   MkEndpoint (qs "GET") (qs "/v1/connections") (qs "getConnections") true;
   MkEndpoint (qs "DELETE") (qs "/v1/connections") (qs "deleteConnections") true;
   MkEndpoint (qs "GET") (qs "/v1/warp") (qs "getWarp") false;
   MkEndpoint (qs "PUT") (qs "/v1/warp") (qs "putWarp") true;
   MkEndpoint (qs "POST") (qs "/v1/warp/register") (qs "postWarpRegister") true].

(** ** Dispatch *)

Inductive Verdict := Restarting | Forbidden | ShuttingDown | MethodNotAllowed | UnknownPath | Runs (handler : qstring) (id : Z).
(** [restarting]: a restart was asked for, or a restore from the window waits for one. *)
Fixpoint findEndpoint (exiting : bool) (r : Request) (known : bool) (es : list Endpoint) : Verdict :=
  match es with
  | [] => if known then MethodNotAllowed else UnknownPath
  | e :: es =>
      match matchPath (e_path e) (path r) with
      | None => findEndpoint exiting r known es
      | Some id =>
          if negb (bool_decide (method r = e_method e)) then findEndpoint exiting r true es
          else if e_admin e && negb (admin r) then Forbidden
          else if negb (bool_decide (method r = qs "GET")) && exiting then ShuttingDown
          else Runs (e_handler e) id
      end
  end.
Definition dispatchTo (restarting_ noSave prepare_exit : bool) (r : Request) : Verdict :=
  if restarting_ || (noSave && negb prepare_exit) then Restarting else findEndpoint prepare_exit r false endpoints.

Definition badRequest (message : qstring) : Response := Error 400 (qs "bad_request") message.
Definition notFound (message : qstring) : Response := Error 404 (qs "not_found") message.

(** ** Bodies *)

(** Why a body is refused. *)
Inductive BodyProblem := NeedsObject | NotObject | NotBool (key : qstring) | NotNumber (key : qstring) | NotInteger (key : qstring)
  | OutOfRange (key : qstring) | NotString (key : qstring) | BadTimeout.

Definition bodyObject (r : Request) (required : bool) : BodyProblem + QJsonObject :=
  match body r with
  | JObject o => inr o
  | JNull => if required then inl NeedsObject else inr []
  | _ => inl (if required then NeedsObject else NotObject)
  end.
Definition present (body : QJsonObject) (key : qstring) : option QJsonValue :=
  match jsonGet body key with Some JNull | None => None | v => v end.
Definition readBool (body : QJsonObject) (key : qstring) : BodyProblem + option bool :=
  match present body key with None => inr None | Some (JBool b) => inr (Some b) | Some _ => inl (NotBool key) end.
Definition readString (body : QJsonObject) (key : qstring) : BodyProblem + option qstring :=
  match present body key with None => inr None | Some (JString s) => inr (Some s) | Some _ => inl (NotString key) end.
(** A number as a double: its integral part and whether that is all of it. *)
Definition asDouble (v : QJsonValue) : option (Z * bool) :=
  match v with JInt z => Some (doubleOf z, true) | JDouble z whole => Some (z, whole) | _ => None end.
Definition readNumber (body : QJsonObject) (key : qstring) : BodyProblem + option (Z * bool) :=
  match present body key with
  | None => inr None
  | Some v => match asDouble v with Some d => inr (Some d) | None => inl (NotNumber key) end
  end.
Definition kExactLimit : Z := 9007199254740992.
Definition readInteger (body : QJsonObject) (key : qstring) : BodyProblem + option Z :=
  match present body key with
  | None => inr None
  | Some v =>
      match asDouble v with
      | Some (z, whole) => if negb whole || (kExactLimit <? Z.abs z) then inl (NotInteger key) else inr (Some z)
      | None => inl (NotInteger key)
      end
  end.
Definition readId (body : QJsonObject) (key : qstring) : BodyProblem + option Z :=
  match readInteger body key with
  | inl p => inl p
  | inr None => inr None
  | inr (Some z) => if intRange z then inr (Some z) else inl (OutOfRange key)
  end.
Definition kMaxWaitSec : Z := 300.
(** Whether to wait; the time in milliseconds only arms a timer. *)
Definition readWait (body : QJsonObject) (defaultWait : bool) : BodyProblem + bool :=
  match readBool body (qs "wait"), readNumber body (qs "timeout") with
  | inl p, _ => inl p
  | inr _, inl p => inl p
  | inr wait, inr timeout =>
      if match timeout with Some (z, whole) => (z <? 1) || (kMaxWaitSec <? z) || ((z =? kMaxWaitSec) && negb whole) | None => false end
      then inl BadTimeout else inr (default defaultWait wait)
  end.

(** ** The engine, the settings and the database at a moment *)

Inductive ConnectionState := Idle | Connecting | Running | Stopping.
#[export] Instance ConnectionState_eq_dec : EqDecision ConnectionState.
Proof. solve_decision. Defined.

(** A stored profile with its latency and when that was measured. *)
Record Tested := MkTested { t_id : Z; t_latency : Z; t_at : Z; t_autoselector : bool }.
Record Env := MkEnv {
  connectionState : ConnectionState; runningId : option Z; statusNow : QJsonValue; statusAfter : QJsonValue; nowSecs : Z;
  resolveLastProfile : Z; profileExists : Z -> bool; validRegex : qstring -> bool; current_group : Z; groupArchived : Z -> option bool;
  groupProfiles : Z -> qstring -> list Tested; profileBatch : list Z -> list Tested;
  systemProxySupported : bool; systemProxyOn : bool; tunOn : bool; tunRestoreHeld : bool; mixedInboundDisabled : bool;
  privilegesNotNeeded : bool; tunPrivileged : bool; tunCapability : option bool; tunBlocked : bool;
  routeExists : Z -> bool; current_route_id : Z; editingRoutes : bool }.

(** What the answers complain of. *)
Inductive Complaint :=
| OfBody (p : BodyProblem) | EitherProfileOrSelect | UnknownProfile (id : Z) | NothingToResume | UnknownSelect (s : qstring) | BadRegex
| NegativeAge | UnknownGroup (id : Z) | GroupIsArchived | NoProfiles | IsBusy | NoWorkingProfile | ProxyUnsupported | MixedDisabled | NeedsPrivileges
| TunConflict | IdRequired | UnknownRoute (id : Z) | IsEditing | OfStart (o : ConnectionManager.StartOutcome).

(** Signals of the engine, with what it says when they come. *)
Inductive Signal :=
| StartFinished (serial : Z) (outcome : ConnectionManager.StartOutcome) (error : qstring) (state : ConnectionState) (status : QJsonValue)
| StopFinished (status : QJsonValue)
| StateChanged (state : ConnectionState) (status : QJsonValue).

(** Calls into the engine. *)
Inductive Call :=
| CStart (profile serial : Z) | CStop | CSystemProxy (on restart : bool) (serial : Z) | CTun (on : bool) (serial : option Z) | CRoute (id serial : Z) | CTests (ids : list Z).

Record Waiter := MkWaiter { w_request : nat; w_done : bool }.
Record Pick := MkPick { p_candidates : list Z; p_requestedAt : Z; p_maxAge : Z; p_restart : bool; p_waiter : option nat }.
Record Router := MkRouter {
  waiters : list Waiter; starts_ : gmap Z nat; stops_ : list nat; settling_ : list nat; picks : list Pick; serial : Z;
  answers : list (nat * Response); delegated : list (nat * qstring * Z); calls : list Call }.
Definition routerEta (s : Router) : Router :=
  MkRouter (waiters s) (starts_ s) (stops_ s) (settling_ s) (picks s) (serial s) (answers s) (delegated s) (calls s).
Definition set_waiters (v : list Waiter) (s : Router) : Router := ltac:(setter routerEta waiters v s).
Definition set_starts_ (v : gmap Z nat) (s : Router) : Router := ltac:(setter routerEta starts_ v s).
Definition set_stops_ (v : list nat) (s : Router) : Router := ltac:(setter routerEta stops_ v s).
Definition set_settling_ (v : list nat) (s : Router) : Router := ltac:(setter routerEta settling_ v s).
Definition set_picks (v : list Pick) (s : Router) : Router := ltac:(setter routerEta picks v s).
Definition set_serial (v : Z) (s : Router) : Router := ltac:(setter routerEta serial v s).
Definition set_answers (v : list (nat * Response)) (s : Router) : Router := ltac:(setter routerEta answers v s).
Definition set_delegated (v : list (nat * qstring * Z)) (s : Router) : Router := ltac:(setter routerEta delegated v s).
Definition call (c : Call) (s : Router) : Router := let v := calls s ++ [c] in ltac:(setter routerEta calls v s).

Section Handlers.
Context (text : Complaint -> qstring).

Definition complain (status : Z) (code : string) (c : Complaint) : Response := Error status (qs code) (text c).
Definition busyConnection : Response := complain 409 "busy" IsBusy.
(** RouterImpl::startFailure. *)
Definition startFailure (o : ConnectionManager.StartOutcome) (error : qstring) : Response :=
  let make (status : Z) (code : string) : Response := Error status (qs code) (if isEmpty error then text (OfStart o) else error) in
  match o with
  | ConnectionManager.Exiting => make 503 "exiting"
  | ConnectionManager.NotFound => make 404 "not_found"
  | ConnectionManager.GroupUnavailable => make 409 "group_archived"
  | ConnectionManager.KillSwitchInactive => make 409 "kill_switch_inactive"
  | ConnectionManager.Superseded => make 409 "superseded"
  | ConnectionManager.CoreUnavailable => make 503 "core_unavailable"
  | ConnectionManager.BuildFailed => make 422 "build_failed"
  | ConnectionManager.Busy => make 409 "busy"
  | ConnectionManager.ExtraCoreBlocked => make 409 "kill_switch_blocked"
  | ConnectionManager.GeoAssetsMissing => make 422 "geo_assets_missing"
  | ConnectionManager.StrictRouteUnavailable => make 422 "strict_route_unavailable"
  | ConnectionManager.TunFailed => make 422 "tun_failed"
  | ConnectionManager.StartFailed | ConnectionManager.Started => make 422 "start_failed"
  end%string.

(** ** Waiters *)

Definition respond (i : nat) (r : Response) (s : Router) : Router := set_answers (answers s ++ [(i, r)]) s.
Definition makeWaiter (i : nat) (wait : bool) (s : Router) : option nat * Router :=
  if wait then (Some (length (waiters s)), set_waiters (waiters s ++ [MkWaiter i false]) s) else (None, s).
Definition isDone (k : nat) (s : Router) : bool := match waiters s !! k with Some w => w_done w | None => true end.
Definition answerWaiter (k : nat) (r : Response) (s : Router) : Router :=
  match waiters s !! k with
  | Some w => if w_done w then s else respond (w_request w) r (set_waiters (<[k := MkWaiter (w_request w) true]> (waiters s)) s)
  | None => s
  end.
Definition settle (k : option nat) (i : nat) (r : Response) (s : Router) : Router :=
  match k with Some k => answerWaiter k r s | None => respond i r s end.
(** Router::fail: without a waiter that waits the error is only logged. *)
Definition failWaiter (k : option nat) (r : Response) (s : Router) : Router := match k with Some k => answerWaiter k r s | None => s end.
Definition accepted (status : QJsonValue) : Response := Ok status 202.

Definition completeStart (k : nat) (failure : option Response) (state : ConnectionState) (status : QJsonValue) (s : Router) : Router :=
  if isDone k s then s
  else match failure with
       | Some f => answerWaiter k f s
       | None => if bool_decide (state = Connecting) then set_settling_ (settling_ s ++ [k]) s else answerWaiter k (Ok status 200) s
       end.
Definition answerAll (r : Response) (ks : list nat) (s : Router) : Router := fold_left (fun s k => answerWaiter k r s) ks s.
Definition signal (s : Router) (g : Signal) : Router :=
  match g with
  | StartFinished n outcome error state status =>
      match starts_ s !! n with
      | None => s
      | Some k =>
          completeStart k (match outcome with ConnectionManager.Started => None | _ => Some (startFailure outcome error) end) state status
            (set_starts_ (delete n (starts_ s)) s)
      end
  | StopFinished status => answerAll (Ok status 200) (stops_ s) (set_stops_ [] s)
  | StateChanged state status =>
      if bool_decide (state = Connecting) then s else answerAll (Ok status 200) (settling_ s) (set_settling_ [] s)
  end.
Definition signals (gs : list Signal) (s : Router) : Router := fold_left signal gs s.

(** ** Starting *)

Definition connectionBusy (e : Env) : bool := bool_decide (connectionState e = Connecting) || bool_decide (connectionState e = Stopping).
(** A signal may come before the call returns, so the waiter is entered first. *)
Definition nextStart (k : option nat) (s : Router) : Z * Router :=
  let n := serial s in
  let s := set_serial (n + 1) s in
  (n, match k with Some k => set_starts_ (<[n := k]> (starts_ s)) s | None => s end).
Definition launch (profile : Z) (restart : bool) (k : option nat) (e : Env) (gs : list Signal) (s : Router) : option Response * Router :=
  if connectionBusy e then (Some busyConnection, s)
  else if negb restart && bool_decide (runningId e = Some profile) then (Some (Ok (statusNow e) 200), s)
  else let '(n, s) := nextStart k s in (None, signals gs (call (CStart profile n) s)).

Definition resultCounts (requestedAt maxAge : Z) (t : Tested) : bool :=
  if t_at t <=? 0 then false else (requestedAt <=? t_at t) || (requestedAt - t_at t <? maxAge).
Definition better (best : option Tested) (t : Tested) : option Tested :=
  match best with Some b => if t_latency t <? t_latency b then Some t else Some b | None => Some t end.
Definition bestCandidate (requestedAt maxAge : Z) (ts : list Tested) : option Tested :=
  fold_left better (List.filter (fun t => (0 <? t_latency t) && resultCounts requestedAt maxAge t) ts) None.
Definition startBestCandidate (p : Pick) (e : Env) (gs : list Signal) (s : Router) : Router :=
  match bestCandidate (p_requestedAt p) (p_maxAge p) (profileBatch e (p_candidates p)) with
  | None => failWaiter (p_waiter p) (complain 409 "no_working_profile" NoWorkingProfile) s
  | Some best =>
      let '(now, s) := launch (t_id best) (p_restart p) (p_waiter p) e gs s in
      match now with
      | Some r => failWaiter (p_waiter p) r s
      | None => s
      end
  end.

(** Reading one thing after another, up to the first problem. *)
Definition andThen {A B} (m : BodyProblem + A) (f : A -> BodyProblem + B) : BodyProblem + B := match m with inl p => inl p | inr x => f x end.
Notation "'let?' x := m 'in' k" := (andThen m (fun x => k)) (at level 10, x pattern, m at level 100, k at level 200).

Definition latencyArgs (e : Env) (b : QJsonObject) : Response + (option Z * qstring * Z) :=
  match (let? gid := readId b (qs "group") in let? pattern := readString b (qs "name") in inr (gid, default [] pattern)) with
  | inl p => inl (badRequest (text (OfBody p)))
  | inr (gid, pattern) =>
      if negb (validRegex e pattern) then inl (badRequest (text BadRegex))
      else match readInteger b (qs "max_age") with
           | inl p => inl (badRequest (text (OfBody p)))
           | inr age => if default 0 age <? 0 then inl (badRequest (text NegativeAge)) else inr (gid, pattern, default 3600 age)
           end
  end.
Definition startLowestLatency (b : QJsonObject) (restart wait : bool) (i : nat) (e : Env) (gs : list Signal) (s : Router) : Router :=
  match latencyArgs e b with
  | inl r => respond i r s
  | inr (gid, pattern, age) =>
      let groupId := default (current_group e) gid in
      match groupArchived e groupId with
      | None => respond i (notFound (text (UnknownGroup groupId))) s
      | Some true => respond i (complain 409 "group_archived" GroupIsArchived) s
      | Some false =>
          let candidates := List.filter (fun t => negb (t_autoselector t)) (groupProfiles e groupId pattern) in
          let untested := List.filter (fun t => negb (resultCounts (nowSecs e) age t)) candidates in
          if isEmpty candidates then respond i (complain 400 "no_profiles" NoProfiles) s
          else if connectionBusy e then respond i busyConnection s
          else
            let '(k, s) := makeWaiter i wait s in
            let p := MkPick (map t_id candidates) (nowSecs e) age restart k in
            let s := if isEmpty untested then startBestCandidate p e gs s
                     else set_picks (picks s ++ [p]) (call (CTests (map t_id untested)) s) in
            match k with Some _ => s | None => respond i (accepted (statusAfter e)) s end
      end
  end.

Definition connectionArgs (r : Request) : BodyProblem + (QJsonObject * option Z * option qstring * bool * bool) :=
  let? b := bodyObject r true in
  let? profile := readId b (qs "profile") in
  let? select := readString b (qs "select") in
  let? restart := readBool b (qs "restart") in
  let? wait := readWait b true in
  inr (b, profile, select, default false restart, wait).
Definition connectionTarget (e : Env) (profile : option Z) (select : qstring) : Response + Z :=
  match profile with
  | Some p => if profileExists e p then inr p else inl (notFound (text (UnknownProfile p)))
  | None =>
      if bool_decide (select = qs "last") then
        if resolveLastProfile e <? 0 then inl (notFound (text NothingToResume)) else inr (resolveLastProfile e)
      else inl (badRequest (text (UnknownSelect select)))
  end.
Definition putConnection (r : Request) (i : nat) (e : Env) (gs : list Signal) (s : Router) : Router :=
  match connectionArgs r with
  | inl p => respond i (badRequest (text (OfBody p))) s
  | inr (b, profile, select, restart, wait) =>
      if Bool.eqb (bool_decide (is_Some profile)) (bool_decide (is_Some select)) then respond i (badRequest (text EitherProfileOrSelect)) s
      else if bool_decide (select = Some (qs "lowest_latency")) then startLowestLatency b restart wait i e gs s
      else match connectionTarget e profile (default [] select) with
           | inl r => respond i r s
           | inr id =>
               let '(k, s) := makeWaiter i wait s in
               let '(now, s) := launch id restart k e gs s in
               match now with
               | Some r => settle k i r s
               | None => match k with Some _ => s | None => respond i (accepted (statusAfter e)) s end
               end
           end
  end.

(** ** Stopping and changing modes *)

Definition deleteConnection (r : Request) (i : nat) (e : Env) (gs : list Signal) (s : Router) : Router :=
  match (let? b := bodyObject r false in readWait b true) with
  | inl p => respond i (badRequest (text (OfBody p))) s
  | inr wait =>
      match connectionState e with
      | Idle => respond i (Ok (statusAfter e) 200) (signals gs (call CStop s))
      | Connecting | Stopping => respond i busyConnection s
      | Running =>
          let '(k, s) := makeWaiter i wait s in
          let s := match k with Some k => set_stops_ (stops_ s ++ [k]) s | None => s end in
          let s := signals gs (call CStop s) in
          match k with Some _ => s | None => respond i (accepted (statusAfter e)) s end
      end
  end.

(** [restarted]: the calls say that they restart the connection. *)
Definition applyWithRestart (wait : bool) (i : nat) (e : Env) (apply : Z -> list Call) (restarted : bool) (gs : list Signal) (s : Router) : Router :=
  let '(k, s) := makeWaiter i wait s in
  let '(n, s) := nextStart k s in
  let s := signals gs (fold_left (fun s c => call c s) (apply n) s) in
  if restarted then match k with Some _ => s | None => respond i (accepted (statusAfter e)) s end
  else
    let s := set_starts_ (delete n (starts_ s)) s in
    match k with Some k => answerWaiter k (Ok (statusAfter e) 200) s | None => respond i (accepted (statusAfter e)) s end.

Definition modeArgs (r : Request) : BodyProblem + (option bool * option bool * bool) :=
  let? b := bodyObject r false in
  let? tun := readBool b (qs "tun") in
  let? systemProxy := readBool b (qs "system_proxy") in
  let? wait := readWait b true in
  inr (tun, systemProxy, wait).
Definition changes (wanted : option bool) (now : bool) : bool := match wanted with Some v => negb (Bool.eqb v now) | None => false end.
Definition modeRefusal (e : Env) (proxyOn tunOn_ : bool) : option Response :=
  if proxyOn && mixedInboundDisabled e then Some (complain 409 "mixed_inbound_disabled" MixedDisabled)
  else if tunOn_ && negb (privilegesNotNeeded e) && (negb (tunPrivileged e) || bool_decide (tunCapability e = Some false))
  then Some (complain 412 "needs_privileges" NeedsPrivileges)
  else if tunOn_ && tunBlocked e then Some (complain 409 "tun_conflict" TunConflict)
  else if connectionBusy e then Some busyConnection
  else None.
Definition putModes (r : Request) (i : nat) (e : Env) (restarted : bool) (gs : list Signal) (s : Router) : Router :=
  match modeArgs r with
  | inl p => respond i (badRequest (text (OfBody p))) s
  | inr (tun, systemProxy, wait) =>
      if bool_decide (systemProxy = Some true) && negb (systemProxySupported e) then respond i (complain 409 "system_proxy_unsupported" ProxyUnsupported) s
      else
        let proxyChanges := changes systemProxy (systemProxyOn e) in
        let tunChanges := changes tun (tunOn e) in
        let clearHeldTun := bool_decide (tun = Some false) && negb tunChanges && tunRestoreHeld e in
        let release := if clearHeldTun then [CTun false None] else [] in
        if negb proxyChanges && negb tunChanges then
          respond i (Ok (statusAfter e) 200) (if clearHeldTun then signals gs (call (CTun false None) s) else s)
        else
          let proxyOn := bool_decide (systemProxy = Some true) in
          let tunOn_ := bool_decide (tun = Some true) in
          match modeRefusal e (proxyChanges && proxyOn) (tunChanges && tunOn_) with
          | Some r => respond i r s
          | None =>
              applyWithRestart wait i e
                (fun n => release ++ (if proxyChanges then [CSystemProxy proxyOn (negb tunChanges) n] else []) ++ (if tunChanges then [CTun tunOn_ (Some n)] else []))
                restarted gs s
          end
  end.

Definition routeArgs (r : Request) : BodyProblem + (option Z * bool) :=
  let? b := bodyObject r true in
  let? id := readId b (qs "id") in
  let? wait := readWait b true in
  inr (id, wait).
Definition putActiveRoute (r : Request) (i : nat) (e : Env) (restarted : bool) (gs : list Signal) (s : Router) : Router :=
  match routeArgs r with
  | inl p => respond i (badRequest (text (OfBody p))) s
  | inr (None, _) => respond i (badRequest (text IdRequired)) s
  | inr (Some id, wait) =>
      if negb (routeExists e id) then respond i (notFound (text (UnknownRoute id))) s
      else if current_route_id e =? id then respond i (Ok (statusNow e) 200) s
      else if editingRoutes e then respond i (complain 409 "editing" IsEditing) s
      else if connectionBusy e then respond i busyConnection s
      else applyWithRestart wait i e (fun n => [CRoute id n]) restarted gs s
  end.

(** ** Events *)

(** The endpoints of other files are handed over with the responder. *)
Definition runHandler (h : qstring) (id : Z) (r : Request) (i : nat) (e : Env) (restarted : bool) (gs : list Signal) (s : Router) : Router :=
  if bool_decide (h = qs "getStatus") then respond i (Ok (statusNow e) 200) s
  else if bool_decide (h = qs "putConnection") then putConnection r i e gs s
  else if bool_decide (h = qs "deleteConnection") then deleteConnection r i e gs s
  else if bool_decide (h = qs "putModes") then putModes r i e restarted gs s
  else if bool_decide (h = qs "putActiveRoute") then putActiveRoute r i e restarted gs s
  else set_delegated (delegated s ++ [(i, h, id)]) s.
Definition verdictResponse (v : Verdict) : Response :=
  match v with
  | Restarting => Error 503 (qs "restarting") []
  | Forbidden => Error 403 (qs "forbidden") []
  | ShuttingDown => Error 503 (qs "exiting") []
  | MethodNotAllowed => Error 405 (qs "method_not_allowed") []
  | _ => notFound []
  end.
(** A request comes with the exchange whose responder it holds. *)
Inductive Event :=
| ERequest (i : nat) (r : Request) (restarting_ noSave prepare_exit : bool) (e : Env) (restarted : bool) (gs : list Signal)
| ESignal (g : Signal)
| EDeadline (k : nat) (status : QJsonValue)
| EPick (n : nat) (e : Env) (gs : list Signal).
Definition step (s : Router) (ev : Event) : Router :=
  match ev with
  | ERequest i r a b c e restarted gs =>
      match dispatchTo a b c r with
      | Runs h id => runHandler h id r i e restarted gs s
      | v => respond i (verdictResponse v) s
      end
  | ESignal g => signal s g
  | EDeadline k status => answerWaiter k (accepted status) s
  | EPick n e gs =>
      match picks s !! n with
      | Some p => startBestCandidate p e gs (set_picks (delete n (picks s)) s)
      | None => s
      end
  end.
Definition run (evs : list Event) : Router := fold_left step evs (MkRouter [] ∅ [] [] [] 1 [] [] []).
End Handlers.
