(* ===== verification/RemoteAnswers.v ===== *)
(** * Every request is dispatched by one endpoint and answered once

    The table of RemoteRouter has at most one endpoint for a path and a method, so its
    order does not matter; the verdict on a request is characterised. Whatever the
    order of signals, deadlines and tests, a request is answered at most once, and its
    deadline answers it if nothing else did. *)

From Stdlib Require Import Ascii String.
From S2P Require Import Prelude QtText Json RemoteProtocol RemoteRouter.
From S2P Require ConnectionManager.

Local Open Scope Z_scope.
#[local] Set Warnings "-register-all".

(** ** The table *)

(** Two segments of patterns that one segment of a path can match. *)
Definition overlap (p q : qstring) : bool :=
  if bool_decide (p = qs "{id}") then bool_decide (q = qs "{id}") || match toInt q with Some _ => true | None => false end
  else if bool_decide (q = qs "{id}") then match toInt p with Some _ => true | None => false end
  else bool_decide (p = q).
Fixpoint overlapAll (ps ws : list qstring) : bool :=
  match ps, ws with [], [] => true | p :: ps, q :: ws => overlap p q && overlapAll ps ws | _, _ => false end.

Lemma match_overlap path : forall ps ws i j x y, matchSegments ps path i = Some x -> matchSegments ws path j = Some y -> overlapAll ps ws = true.
Proof.
  induction path as [|g path IH]; intros [|p ps] [|q qss] i j x y; try done. cbn [matchSegments overlapAll]. unfold overlap.
  destruct (bool_decide_reflect (p = qs "{id}")) as [->|Hp], (bool_decide_reflect (q = qs "{id}")) as [->|Hq].
  - destruct (toInt g); [|done]. intros H1 H2. by rewrite (IH _ _ _ _ _ _ H1 H2).
  - destruct (bool_decide_reflect (q = g)) as [->|]; [|intros; by destruct (toInt g)]. destruct (toInt g); [|done]. intros H1 H2. by rewrite (IH _ _ _ _ _ _ H1 H2).
  - destruct (bool_decide_reflect (p = g)) as [->|]; [|done]. destruct (toInt g); [|done]. intros H1 H2. by rewrite (IH _ _ _ _ _ _ H1 H2).
  - destruct (bool_decide_reflect (p = g)) as [->|]; [|done]. destruct (bool_decide_reflect (q = g)) as [->|]; [|done].
    intros H1 H2. rewrite bool_decide_eq_true_2 by done. by rewrite (IH _ _ _ _ _ _ H1 H2).
Qed.

#[export] Instance Endpoint_eq_dec : EqDecision Endpoint.
Proof. solve_decision. Defined.
Definition served (e : Endpoint) (r : Request) : option Z := if bool_decide (method r = e_method e) then matchPath (e_path e) (path r) else None.

(** The table holds no two endpoints for one request. *)
Definition apart (e f : Endpoint) : bool :=
  bool_decide (e = f) || negb (bool_decide (e_method e = e_method f)) || negb (overlapAll (split (ch "/") (e_path e)) (split (ch "/") (e_path f))).
Lemma endpoints_apart : forallb (fun e => forallb (apart e) endpoints) endpoints = true.
Proof. vm_compute. reflexivity. Qed.
Lemma served_unique e f r : e ∈ endpoints -> f ∈ endpoints -> is_Some (served e r) -> is_Some (served f r) -> e = f.
Proof.
  intros He Hf. pose proof endpoints_apart as Ha. rewrite forallb_forall in Ha. specialize (Ha e (proj1 (list_elem_of_In _ _) He)).
  rewrite forallb_forall in Ha. specialize (Ha f (proj1 (list_elem_of_In _ _) Hf)). unfold apart in Ha. rewrite !orb_true_iff, !negb_true_iff, bool_decide_eq_true in Ha.
  unfold served, matchPath. intros [x Hx] [y Hy]. case_bool_decide as E1; [|done]. case_bool_decide as E2; [|done].
  destruct Ha as [[Ha|Ha]|Ha]; [done|apply bool_decide_eq_false in Ha; congruence|]. by rewrite (match_overlap _ _ _ _ _ _ _ Hx Hy) in Ha.
Qed.

(** ** The verdict *)

(** What happens to a request that an endpoint serves. *)
Definition permitted (exiting : bool) (e : Endpoint) (id : Z) (r : Request) : Verdict :=
  if e_admin e && negb (admin r) then Forbidden
  else if negb (bool_decide (method r = qs "GET")) && exiting then ShuttingDown
  else Runs (e_handler e) id.

Lemma find_spec exiting r : forall es known,
  (exists e id, e ∈ es /\ served e r = Some id /\ findEndpoint exiting r known es = permitted exiting e id r) \/
  ((forall e, e ∈ es -> served e r = None) /\
   findEndpoint exiting r known es = if known || existsb (fun e => match matchPath (e_path e) (path r) with Some _ => true | None => false end) es
                                     then MethodNotAllowed else UnknownPath).
Proof.
  induction es as [|e es IH]; intros known; cbn [findEndpoint existsb].
  - right. split; [intros e He; by apply not_elem_of_nil in He|]. by rewrite orb_false_r.
  - destruct (matchPath (e_path e) (path r)) as [id|] eqn:Em.
    + case_bool_decide as Ed; cbn [negb].
      * left. exists e, id. split; [by left|]. split; [unfold served; by rewrite bool_decide_eq_true_2|done].
      * destruct (IH true) as [(f & j & Hf & Hs & ->)|[Hn ->]]; [left; exists f, j; split; [by right|done]|right].
        split; [|cbn [orb]; by rewrite orb_true_r]. intros f [->|Hf]%elem_of_cons; [unfold served; by rewrite bool_decide_eq_false_2|by apply Hn].
    + destruct (IH known) as [(f & j & Hf & Hs & ->)|[Hn ->]]; [left; exists f, j; split; [by right|done]|right].
      split; [|by rewrite orb_false_l]. intros f [->|Hf]%elem_of_cons; [unfold served; rewrite Em; by case_match|by apply Hn].
Qed.

(** C16: unless the program restarts, a request that an endpoint of the table serves
    is run by that endpoint alone, refused when it is management and the client may
    not manage, or refused while shutting down unless it only reads; a request that
    none serves is refused for its method exactly when its path is known. *)
Theorem dispatch_exact restarting_ noSave prepare_exit r :
  let v := dispatchTo restarting_ noSave prepare_exit r in
  let known := existsb (fun e => match matchPath (e_path e) (path r) with Some _ => true | None => false end) endpoints in
  (restarting_ || (noSave && negb prepare_exit) = true -> v = Restarting) /\
  (restarting_ || (noSave && negb prepare_exit) = false ->
     (forall e id, e ∈ endpoints -> served e r = Some id -> v = permitted prepare_exit e id r) /\
     ((forall e, e ∈ endpoints -> served e r = None) -> v = if known then MethodNotAllowed else UnknownPath)) /\
  (forall h id, v = Runs h id -> exists e, e ∈ endpoints /\ served e r = Some id /\ e_handler e = h /\ (e_admin e = true -> admin r = true)).
Proof.
  cbv zeta. unfold dispatchTo. destruct (restarting_ || noSave && negb prepare_exit); [done|]. split; [done|].
  destruct (find_spec prepare_exit r endpoints false) as [(e & id & He & Hs & ->)|[Hn ->]].
  - split; [intros _; split|].
    + intros f j Hf Hj. assert (f = e) as -> by (eapply served_unique; [done..|by eexists|by eexists]). congruence.
    + intros Hn. by rewrite Hn in Hs.
    + intros h j. unfold permitted. case_match eqn:Ea; [done|]. case_match; [done|]. intros [= <- <-]. exists e. split; [done|]. split; [done|]. split; [done|].
      intros Hm. rewrite Hm in Ea. by apply negb_false_iff.
  - split; [intros _; split|].
    + intros f j Hf Hj. by rewrite Hn in Hj.
    + done.
    + intros h id. by case_match.
Qed.

(** ** Answers *)

Definition answersTo (i : nat) (s : Router) : nat := length (List.filter (fun a => (a.1 =? i)%nat) (answers s)).
Definition owed (i : nat) (s : Router) : nat := length (List.filter (fun w => (w_request w =? i)%nat && negb (w_done w)) (waiters s)).
Definition delegatedTo (i : nat) (s : Router) : nat := length (List.filter (fun d => (d.1.1 =? i)%nat) (delegated s)).
(** Answers given, waiters that will give one, and hand-overs. *)
Definition account (i : nat) (s : Router) : nat := answersTo i s + owed i s + delegatedTo i s.
Definition one (i j : nat) : nat := if (j =? i)%nat then 1 else 0.

Lemma filter_app_length {A} (p : A -> bool) l x : length (List.filter p (l ++ [x])) = (length (List.filter p l) + if p x then 1 else 0)%nat.
Proof. rewrite List.filter_app, length_app. cbn. by destruct (p x). Qed.

Section Answers.
Context (text : Complaint -> qstring).

Lemma account_respond i j r s : account i (respond j r s) = (account i s + one i j)%nat.
Proof. unfold account, answersTo, owed, delegatedTo, one. cbn [respond answers waiters delegated set_answers]. rewrite filter_app_length. cbn. lia. Qed.
Lemma account_waiter i j wait s : account i (makeWaiter j wait s).2 = (account i s + if wait then one i j else 0)%nat.
Proof.
  unfold makeWaiter. destruct wait; cbn [snd]; [|lia]. unfold account, answersTo, owed, delegatedTo, one. cbn [answers waiters delegated set_waiters].
  rewrite filter_app_length. cbn. rewrite andb_true_r. lia.
Qed.
Lemma owed_done i k w l : l !! k = Some w -> w_done w = false ->
  length (List.filter (fun w => (w_request w =? i)%nat && negb (w_done w)) l) =
  (length (List.filter (fun w => (w_request w =? i)%nat && negb (w_done w)) (<[k := MkWaiter (w_request w) true]> l)) + one i (w_request w))%nat.
Proof.
  revert k. induction l as [|x l IH]; intros [|k] Hk Hw; try done; cbn [lookup list_lookup insert list_insert List.filter] in *.
  - injection Hk as ->. rewrite Hw. cbn [w_request w_done negb]. unfold one. rewrite andb_true_r, andb_false_r. destruct (w_request w =? i)%nat; cbn [length]; lia.
  - case_match; cbn [length]; by rewrite (IH k).
Qed.
Lemma account_answer i k r s : account i (answerWaiter k r s) = account i s.
Proof.
  unfold answerWaiter. destruct (waiters s !! k) as [w|] eqn:Hk; [|done]. destruct (w_done w) eqn:Hw; [done|].
  rewrite account_respond. unfold account, answersTo, owed, delegatedTo. cbn [answers waiters delegated set_waiters]. rewrite (owed_done i k w (waiters s)) by done. lia.
Qed.
Lemma account_fail i k r s : account i (failWaiter k r s) = account i s.
Proof. destruct k; [apply account_answer|done]. Qed.
Lemma account_answerAll i r ks : forall s, account i (answerAll r ks s) = account i s.
Proof. induction ks as [|k ks IH]; intros s; cbn; [done|]. unfold answerAll in IH. by rewrite IH, account_answer. Qed.
Lemma account_complete i k f state status s : account i (completeStart k f state status s) = account i s.
Proof. unfold completeStart. case_match; [done|]. destruct f; [by rewrite account_answer|]. case_match; [done|by rewrite account_answer]. Qed.
Lemma account_signal i s g : account i (signal text s g) = account i s.
Proof.
  destruct g as [n outcome error state status|status|state status]; cbn [signal].
  - destruct (starts_ s !! n) as [k|]; [|done]. by rewrite account_complete.
  - by rewrite account_answerAll.
  - case_match; [done|by rewrite account_answerAll].
Qed.
Lemma account_signals i gs : forall s, account i (signals text gs s) = account i s.
Proof. induction gs as [|g gs IH]; intros s; cbn; [done|]. unfold signals in IH. by rewrite IH, account_signal. Qed.
Lemma account_launch i p restart k e gs s : account i (launch text p restart k e gs s).2 = account i s.
Proof. unfold launch. case_match; [done|]. case_match; [done|]. cbn. rewrite account_signals. by destruct k. Qed.
Lemma account_best i p e gs s : account i (startBestCandidate text p e gs s) = account i s.
Proof.
  unfold startBestCandidate. case_match; [|by rewrite account_fail]. pose proof (account_launch i (t_id t) (p_restart p) (p_waiter p) e gs s) as H1.
  destruct (launch _ _ _ _ _ _ _) as [[r|] s1]; cbn [snd] in H1; [by rewrite account_fail|done].
Qed.
Lemma account_calls i cs : forall s, account i (fold_left (fun s c => call c s) cs s) = account i s.
Proof. induction cs as [|c cs IH]; intros s; cbn; [done|]. by rewrite IH. Qed.

(** A waiter that was made is the one that is settled. *)
Lemma account_settle i j r s0 wait : forall s, account i s = account i (makeWaiter j wait s0).2 ->
  account i (settle (makeWaiter j wait s0).1 j r s) = (account i s0 + one i j)%nat.
Proof.
  intros s Hs. rewrite account_waiter in Hs. destruct wait; cbn [makeWaiter fst settle]; [by rewrite account_answer, Hs|]. rewrite account_respond. lia.
Qed.
Lemma account_left i j r s0 wait : forall s, account i s = account i (makeWaiter j wait s0).2 ->
  account i (match (makeWaiter j wait s0).1 with Some _ => s | None => respond j r s end) = (account i s0 + one i j)%nat.
Proof. intros s Hs. rewrite account_waiter in Hs. destruct wait; cbn [makeWaiter fst]; [lia|]. rewrite account_respond. lia. Qed.

Lemma account_apply i j wait e cs restarted gs s : account i (applyWithRestart text wait j e cs restarted gs s) = (account i s + one i j)%nat.
Proof.
  unfold applyWithRestart. pose proof (account_left i j (accepted (statusAfter e)) s wait) as Hl. pose proof (account_waiter i j wait s) as Hw.
  destruct (makeWaiter j wait s) as [k s1]. cbn [fst snd] in *. cbn [nextStart].
  set (s2 := match k with Some k => _ | None => _ end). set (s3 := signals text gs _).
  assert (account i s3 = account i s1) as H3 by (unfold s3; rewrite account_signals, account_calls; unfold s2; by destruct k).
  destruct restarted; [by apply Hl|]. set (s4 := set_starts_ _ s3). change (account i s4 = account i s1) in H3.
  destruct k as [k|]; [|by apply Hl]. rewrite account_answer, H3, Hw. destruct wait; [done|]. specialize (Hl s1 eq_refl). cbn in Hl. lia.
Qed.

Lemma account_latency i j b restart wait e gs s : account i (startLowestLatency text b restart wait j e gs s) = (account i s + one i j)%nat.
Proof.
  unfold startLowestLatency. destruct (latencyArgs text e b) as [r|[[gid pattern] age]]; [apply account_respond|].
  destruct (groupArchived e _) as [[]|]; try apply account_respond. case_match; [apply account_respond|]. case_match; [apply account_respond|].
  pose proof (account_left i j (accepted (statusAfter e)) s wait) as Hl. destruct (makeWaiter j wait s) as [k s1]. cbn [fst snd] in Hl. apply Hl.
  destruct (isEmpty (List.filter (fun t => negb (resultCounts (nowSecs e) age t)) _)); [apply account_best|done].
Qed.

Lemma account_putConnection i j r e gs s : account i (putConnection text r j e gs s) = (account i s + one i j)%nat.
Proof.
  unfold putConnection. destruct (connectionArgs r) as [p|[[[[b profile] select] restart] wait]]; [apply account_respond|].
  case_match; [apply account_respond|]. case_match; [apply account_latency|]. destruct (connectionTarget text e profile _) as [x|id]; [apply account_respond|].
  pose proof (account_left i j (accepted (statusAfter e)) s wait) as Hl. pose proof (account_settle i j) as Hs. specialize (fun x => Hs x s wait).
  destruct (makeWaiter j wait s) as [k s1]. cbn [fst snd] in *. pose proof (account_launch i id restart k e gs s1) as H1.
  destruct (launch text id restart k e gs s1) as [[now|] s2]; cbn [snd] in H1; [by apply Hs|by apply Hl].
Qed.
Lemma account_delete i j r e gs s : account i (deleteConnection text r j e gs s) = (account i s + one i j)%nat.
Proof.
  unfold deleteConnection. destruct (andThen _ _) as [p|wait]; [apply account_respond|]. destruct (connectionState e); try apply account_respond.
  - rewrite account_respond, account_signals. done.
  - pose proof (account_left i j (accepted (statusAfter e)) s wait) as Hl. destruct (makeWaiter j wait s) as [k s1]. cbn [fst snd] in Hl. apply Hl.
    rewrite account_signals. by destruct k.
Qed.
Lemma account_modes i j r e restarted gs s : account i (putModes text r j e restarted gs s) = (account i s + one i j)%nat.
Proof.
  unfold putModes. destruct (modeArgs r) as [p|[[tun proxy] wait]]; [apply account_respond|]. case_match; [apply account_respond|]. case_match.
  - rewrite account_respond. case_match; [by rewrite account_signals|done].
  - destruct (modeRefusal text e _ _); [apply account_respond|apply account_apply].
Qed.
Lemma account_route i j r e restarted gs s : account i (putActiveRoute text r j e restarted gs s) = (account i s + one i j)%nat.
Proof. unfold putActiveRoute. destruct (routeArgs r) as [p|[[id|] wait]]; try apply account_respond. repeat (case_match; [apply account_respond|]). apply account_apply. Qed.

(** The requests of an exchange among the events. *)
Definition asked (i : nat) (ev : Event) : nat := match ev with ERequest j _ _ _ _ _ _ _ => one i j | _ => 0 end.
Lemma account_step i s ev : account i (step text s ev) = (account i s + asked i ev)%nat.
Proof.
  destruct ev as [j r a b c e restarted gs|g|k status|n e gs]; cbn [step asked].
  - destruct (dispatchTo a b c r); try (by rewrite account_respond). unfold runHandler.
    repeat (case_match; [by first [rewrite account_respond|rewrite account_putConnection|rewrite account_delete|rewrite account_modes|rewrite account_route]|]).
    unfold account, answersTo, owed, delegatedTo, one. cbn [answers waiters delegated set_delegated]. rewrite filter_app_length. cbn. lia.
  - rewrite account_signal. lia.
  - rewrite account_answer. lia.
  - case_match; [rewrite account_best|]; done.
Qed.

Lemma deadline_answers i k status s : waiters s !! k = Some (MkWaiter i false) -> answersTo i (step text s (EDeadline k status)) = S (answersTo i s).
Proof.
  intros Hk. cbn [step]. unfold answerWaiter. rewrite Hk. cbn [w_done w_request]. unfold answersTo. cbn [respond answers set_answers set_waiters].
  rewrite filter_app_length. cbn [fst]. rewrite Nat.eqb_refl. lia.
Qed.

(** C17: in every run, a request is answered once, waits with a running deadline, or
    was handed to another file with its responder, and only one of these; the
    deadline answers a request that still waits. *)
Theorem answered_once evs i :
  let s := run text evs in
  (answersTo i s + owed i s + delegatedTo i s)%nat = sum_list (map (asked i) evs) /\
  (forall k status, waiters s !! k = Some (MkWaiter i false) -> answersTo i (step text s (EDeadline k status)) = S (answersTo i s)).
Proof.
  cbv zeta. split; [|intros k status; apply deadline_answers]. unfold run. set (s0 := MkRouter _ _ _ _ _ _ _ _ _).
  assert (forall evs s, account i (fold_left (step text) evs s) = (account i s + sum_list (map (asked i) evs))%nat) as H; [|exact (H evs s0)].
  clear. induction evs as [|ev evs IH]; intros s; cbn [fold_left map sum_list_with]; [lia|]. rewrite IH, account_step. cbn [sum_list_with id]. lia.
Qed.

(** ** The lowest latency *)

Definition eligible (requestedAt maxAge : Z) (t : Tested) : bool := (0 <? t_latency t) && resultCounts requestedAt maxAge t.
Lemma better_spec ts : forall b, match fold_left better ts (Some b) with
  | Some x => (x = b \/ x ∈ ts) /\ forall t, t = b \/ t ∈ ts -> t_latency x <= t_latency t
  | None => False end.
Proof.
  induction ts as [|t ts IH]; intros b; cbn [fold_left].
  - split; [by left|]. intros t [->|Ht]; [lia|by apply not_elem_of_nil in Ht].
  - unfold better at 2. destruct (Z.ltb_spec (t_latency t) (t_latency b)).
    + specialize (IH t). case_match; [|done]. destruct IH as [H1 H2]. split; [right; destruct H1 as [->|]; [by left|by right]|].
      intros y [->|[->|Hy]%elem_of_cons]; [specialize (H2 t (or_introl eq_refl)); lia|apply H2; by left|apply H2; by right].
    + specialize (IH b). case_match; [|done]. destruct IH as [H1 H2]. split; [destruct H1 as [->|]; [by left|right; by right]|].
      intros y [->|[->|Hy]%elem_of_cons]; [apply H2; by left|specialize (H2 b (or_introl eq_refl)); lia|apply H2; by right].
Qed.
(** The profile that is started has a result that counts and none of those is faster. *)
Lemma best_lowest requestedAt maxAge ts : match bestCandidate requestedAt maxAge ts with
  | Some b => b ∈ ts /\ eligible requestedAt maxAge b = true /\ forall t, t ∈ ts -> eligible requestedAt maxAge t = true -> t_latency b <= t_latency t
  | None => forall t, t ∈ ts -> eligible requestedAt maxAge t = false end.
Proof.
  unfold bestCandidate. fold (eligible requestedAt maxAge). assert (forall t, t ∈ List.filter (eligible requestedAt maxAge) ts <-> t ∈ ts /\ eligible requestedAt maxAge t = true) as Hin.
  { intros t. rewrite !list_elem_of_In. apply filter_In. }
  destruct (List.filter (eligible requestedAt maxAge) ts) as [|x l] eqn:E; cbn [fold_left].
  - intros t Ht. destruct (eligible requestedAt maxAge t) eqn:Ee; [|done]. pose proof (proj2 (Hin t) (conj Ht Ee)) as Hx. by apply not_elem_of_nil in Hx.
  - change (better None x) with (Some x). pose proof (better_spec l x) as Hb. destruct (fold_left better l (Some x)) as [b|]; [|done]. destruct Hb as [H1 H2].
    assert (b ∈ x :: l) as Hbin by (destruct H1 as [->|]; [by left|by right]). apply Hin in Hbin as [Hb1 Hb2]. split; [done|]. split; [done|].
    intros t Ht Ee. apply H2. apply elem_of_cons. by apply Hin.
Qed.
End Answers.
