(* ===== verification/VpnAuth.v ===== *)
(** * Sign-in of VPN endpoints (src/src/engine/vpn/VpnAuthController.cpp)

    While a profile runs, its OpenVPN and OpenConnect endpoints are polled; a
    challenge is answered with a one-time code or shown, refused credentials
    restart the profile with a new code or are asked for. [Auth] is the members
    of the controller with the tables it writes elsewhere: credentials for the
    session (VpnCredentialOverride.cpp), the profiles of the endpoints
    (VpnEndpoints.cpp) and the counters of one-time passwords (OtpPlaceholder.cpp).
    One poll thread lives exactly while [m_vpnChallengeBusy]; threads that submit
    an answer are in [submitting]. A handler reads the clock once. *)

From Stdlib Require Import Ascii String.
From S2P Require Import Prelude QtText OtpBase32 OtpWire Otp.

Local Open Scope Z_scope.
#[local] Set Warnings "-register-all".

Definition kMaxOtpRejects : Z := 3.
Definition kMaxAutoRestarts : Z := 3.
Definition kAutoRestartCooldownSecs : Z := 20.
Definition kMaxCredentialPrompts : Z := 3.
Definition intMax : Z := 2 ^ 31 - 1.

(** ** Data *)

Record VpnAuthField := MkField {
  submissionKey : qstring; fieldName : qstring; label : qstring; fieldKind : qstring; value : qstring }.

Record VpnAuthChallenge := MkChallenge {
  endpointTag : qstring; id : qstring; kind : qstring; username : qstring; message : qstring;
  error : qstring; deadline : Z; fields : list VpnAuthField }.

Record VpnEndpointState := MkEndpointState {
  tag : qstring; state : qstring; stateError : qstring; connected : bool; authFailed : bool }.

(** One result of QueryVPNStatus. *)
Record VpnStatus := MkStatus { status : VpnEndpointState; challenge : option VpnAuthChallenge }.

Record VpnCredentials := MkCredentials { credUsername : qstring; credPassword : qstring }.

Record OpenConnectFormEntry := MkFormEntry {
  entryKey : qstring; entryName : qstring; entryValue : qstring; promote : bool }.

(** The outbound of a profile, as far as a sign-in reads it. *)
Inductive Outbound :=
| OpenVPN (otp_profile_id : Z) (user pass : qstring)
| OpenConnect (otp_profile_id : Z) (user pass : qstring) (password_authentication_disabled : bool)
    (form_entries : list OpenConnectFormEntry)
| OtherOutbound.

Record VpnProfile := MkProfile { displayName : qstring; outbound : Outbound }.

Record VpnAuthAnswer := MkAnswer {
  replyUsername : qstring; replyPassword : qstring; secret : qstring; formValues : gmap qstring qstring }.

Record CancelTimer := MkCancelTimer { cancelTag : qstring; cancelId : qstring; dueMs : Z }.

(** An automatic answer as it leaves: the challenge, the profile and the credentials it
    answers with, when the clock was read for the test of the refused code and when for
    the new one, the entry and the code minted from it, and what is sent. *)
Record AutoAnswer := MkAutoAnswer {
  answerTo : VpnAuthChallenge; answerBy : Outbound; answerCreds : VpnCredentials; checkedAt_s : Z; mintedAt_s : Z;
  answerOtp : option OtpEntry; answerCode : qstring; answerReply : VpnAuthAnswer }.

(** What the controller is told and what it does, oldest first. *)
Inductive Act :=
| RunStarted
| RunStopped (profileId : Z) (manual : bool)
| StartRefused (profileId : Z)
| Reset
| OverridesCleared
| Connected (tag : qstring)
| EndpointStatusChanged (summary detail : qstring) (problem : bool)
| ExitStateChanged
| ChallengesCleared
| Submit (a : AutoAnswer)
| CancelPrompt (tag id : qstring) (atMs : Z)
| ShowChallenge (c : VpnAuthChallenge)
| AutoRestart (profileID : Z) (at_s : Z)
| CredentialsRejected (profileID : Z) (runningID : Z) (c : VpnAuthChallenge)
| Retry (profileID : Z)
| Start (profileID : Z).

Record Auth := MkAuth {
  m_vpnPendingChallenges : list VpnAuthChallenge;
  m_vpnChallengeTimer : bool;
  m_vpnChallengeBusy : bool;
  m_vpnChallengeSeen : gset qstring;
  m_vpnEndpointState : qstring;
  m_vpnTroubleSummary : qstring;
  m_vpnTroubleDetail : qstring;
  m_vpnEndpointLastState : gmap qstring qstring;
  m_vpnOtpLastCode : gmap qstring qstring;
  m_vpnOtpRejects : gmap qstring Z;
  m_vpnChallengeAnswering : gset qstring;
  m_vpnAutoRestarts : gmap Z Z;
  m_vpnAutoRestartAt : Z;
  m_vpnAuthPrompted : gmap Z Z;
  m_vpnAuthRestartID : Z;
  m_cancelTimers : gmap qstring CancelTimer;
  m_authFailed : bool;
  submitting : list qstring;
  vpnCredentialOverrides : gmap Z VpnCredentials;
  endpointDetailsProfiles : gmap qstring Z;
  otpProfiles : gmap Z OtpEntry;
  acts : list Act }.

Definition authEta (w : Auth) : Auth :=
  MkAuth (m_vpnPendingChallenges w) (m_vpnChallengeTimer w) (m_vpnChallengeBusy w) (m_vpnChallengeSeen w)
    (m_vpnEndpointState w) (m_vpnTroubleSummary w) (m_vpnTroubleDetail w) (m_vpnEndpointLastState w)
    (m_vpnOtpLastCode w) (m_vpnOtpRejects w) (m_vpnChallengeAnswering w) (m_vpnAutoRestarts w)
    (m_vpnAutoRestartAt w) (m_vpnAuthPrompted w) (m_vpnAuthRestartID w) (m_cancelTimers w) (m_authFailed w)
    (submitting w) (vpnCredentialOverrides w) (endpointDetailsProfiles w) (otpProfiles w) (acts w).
Definition set_m_vpnPendingChallenges (v : list VpnAuthChallenge) (w : Auth) : Auth := ltac:(setter authEta m_vpnPendingChallenges v w).
Definition set_m_vpnChallengeTimer (v : bool) (w : Auth) : Auth := ltac:(setter authEta m_vpnChallengeTimer v w).
Definition set_m_vpnChallengeBusy (v : bool) (w : Auth) : Auth := ltac:(setter authEta m_vpnChallengeBusy v w).
Definition set_m_vpnChallengeSeen (v : gset qstring) (w : Auth) : Auth := ltac:(setter authEta m_vpnChallengeSeen v w).
Definition set_m_vpnEndpointState (v : qstring) (w : Auth) : Auth := ltac:(setter authEta m_vpnEndpointState v w).
Definition set_m_vpnTroubleSummary (v : qstring) (w : Auth) : Auth := ltac:(setter authEta m_vpnTroubleSummary v w).
Definition set_m_vpnTroubleDetail (v : qstring) (w : Auth) : Auth := ltac:(setter authEta m_vpnTroubleDetail v w).
Definition set_m_vpnEndpointLastState (v : gmap qstring qstring) (w : Auth) : Auth := ltac:(setter authEta m_vpnEndpointLastState v w).
Definition set_m_vpnOtpLastCode (v : gmap qstring qstring) (w : Auth) : Auth := ltac:(setter authEta m_vpnOtpLastCode v w).
Definition set_m_vpnOtpRejects (v : gmap qstring Z) (w : Auth) : Auth := ltac:(setter authEta m_vpnOtpRejects v w).
Definition set_m_vpnChallengeAnswering (v : gset qstring) (w : Auth) : Auth := ltac:(setter authEta m_vpnChallengeAnswering v w).
Definition set_m_vpnAutoRestarts (v : gmap Z Z) (w : Auth) : Auth := ltac:(setter authEta m_vpnAutoRestarts v w).
Definition set_m_vpnAutoRestartAt (v : Z) (w : Auth) : Auth := ltac:(setter authEta m_vpnAutoRestartAt v w).
Definition set_m_vpnAuthPrompted (v : gmap Z Z) (w : Auth) : Auth := ltac:(setter authEta m_vpnAuthPrompted v w).
Definition set_m_vpnAuthRestartID (v : Z) (w : Auth) : Auth := ltac:(setter authEta m_vpnAuthRestartID v w).
Definition set_m_cancelTimers (v : gmap qstring CancelTimer) (w : Auth) : Auth := ltac:(setter authEta m_cancelTimers v w).
Definition set_m_authFailed (v : bool) (w : Auth) : Auth := ltac:(setter authEta m_authFailed v w).
Definition set_submitting (v : list qstring) (w : Auth) : Auth := ltac:(setter authEta submitting v w).
Definition set_vpnCredentialOverrides (v : gmap Z VpnCredentials) (w : Auth) : Auth := ltac:(setter authEta vpnCredentialOverrides v w).
Definition set_endpointDetailsProfiles (v : gmap qstring Z) (w : Auth) : Auth := ltac:(setter authEta endpointDetailsProfiles v w).
Definition set_otpProfiles (v : gmap Z OtpEntry) (w : Auth) : Auth := ltac:(setter authEta otpProfiles v w).
Definition set_acts (v : list Act) (w : Auth) : Auth := ltac:(setter authEta acts v w).

Definition act (a : Act) (w : Auth) : Auth := set_acts (acts w ++ [a]) w.

(** ** Text *)

(** QString::replace of every occurrence; [skip] characters belong to one that was replaced. *)
Fixpoint replaceAll (p r s : qstring) (skip : nat) : qstring :=
  match s with
  | [] => []
  | c :: s' =>
      match skip with
      | S k => replaceAll p r s' k
      | O => if startsWith p s then r ++ replaceAll p r s' (length p - 1) else c :: replaceAll p r s' 0
      end
  end.

Definition kOtpPlaceholder : qstring := qs "{otp}".

Definition SubstituteOtp (text code : qstring) : qstring :=
  if isEmpty code || isEmpty text then text else replaceAll kOtpPlaceholder code text 0.

Definition ellipsis : Z := 0x2026.
Definition middleDot : Z := 0xB7.
Definition unitSeparator : Z := 0x1F.

Definition VpnStateText (st : qstring) : qstring :=
  if bool_decide (st = qs "connected") then qs "Connected"
  else if bool_decide (st = qs "connecting") then qs "Connecting" ++ [ellipsis]
  else if bool_decide (st = qs "auth-pending") then qs "Waiting for sign-in"
  else if bool_decide (st = qs "error") then qs "Error"
  else if isEmpty st then qs "Unknown"
  else st.

Definition VpnExitStateText (st err : qstring) : qstring :=
  if bool_decide (st = qs "connected") then qs "Connect OK"
  else if bool_decide (st = qs "connecting") then qs "Connecting"
  else if bool_decide (st = qs "auth-pending") then qs "Waiting for authentication"
  else if bool_decide (st = qs "error") then if isEmpty err then qs "Tunnel error" else qs "Tunnel error" ++ qs ": " ++ err
  else st.

(** ** The session's credentials *)

Definition SetVpnCredentialOverride (profileID : Z) (c : VpnCredentials) (w : Auth) : Auth :=
  if profileID <? 0 then w else set_vpnCredentialOverrides (<[profileID := c]> (vpnCredentialOverrides w)) w.

Definition ClearVpnCredentialOverride (w : Auth) (profileID : Z) : Auth :=
  set_vpnCredentialOverrides (delete profileID (vpnCredentialOverrides w)) w.

Definition ResolveVpnCredentials (profileID : Z) (user pass : qstring) (w : Auth) : VpnCredentials :=
  if 0 <=? profileID then default (MkCredentials user pass) (vpnCredentialOverrides w !! profileID)
  else MkCredentials user pass.

Definition clearCredentialOverrides (w : Auth) : Auth :=
  let w := fold_left ClearVpnCredentialOverride (map fst (map_to_list (m_vpnAuthPrompted w))) w in
  act OverridesCleared (set_m_vpnAutoRestartAt 0 (set_m_vpnAutoRestarts ∅ (set_m_vpnAuthPrompted ∅ w))).

(** ** The endpoints' profiles *)

Definition SetVpnEndpointProfiles (m : gmap qstring Z) (w : Auth) : Auth := set_endpointDetailsProfiles m w.
Definition VpnEndpointProfileID (t : qstring) (w : Auth) : Z := default (-1) (endpointDetailsProfiles w !! t).

(** ** Runs *)

Definition resetTracking (w : Auth) : Auth :=
  let w := set_m_vpnChallengeSeen ∅ w in
  let w := set_m_vpnEndpointState [] w in
  let w := set_m_vpnEndpointLastState ∅ w in
  let w := set_m_vpnTroubleSummary [] w in
  let w := set_m_vpnTroubleDetail [] w in
  let w := set_m_vpnOtpLastCode ∅ w in
  let w := set_m_vpnOtpRejects ∅ w in
  let w := set_m_vpnChallengeAnswering ∅ w in
  let w := set_m_vpnPendingChallenges [] w in
  let w := set_m_cancelTimers ∅ w in
  let w := set_m_authFailed false w in
  act (EndpointStatusChanged [] [] false) (act Reset w).

Definition noteRunStarted (w : Auth) : Auth := set_m_vpnChallengeTimer true (resetTracking w).

Definition noteStartRefused (profileId : Z) (w : Auth) : Auth :=
  let w := act (StartRefused profileId) w in
  if profileId =? m_vpnAuthRestartID w then set_m_vpnAuthRestartID (-1) w else w.

Definition stopPoll (w : Auth) : Auth :=
  let w := resetTracking (set_m_vpnChallengeTimer false w) in
  act ChallengesCleared (SetVpnEndpointProfiles ∅ w).

Definition noteRunStopped (profileId : Z) (manual : bool) (w : Auth) : Auth :=
  let restartingForAuth := manual && (profileId =? m_vpnAuthRestartID w) in
  let w := set_m_vpnAuthRestartID (-1) w in
  stopPoll (if manual && negb restartingForAuth then clearCredentialOverrides w else w).

(** ** Cancelling at a deadline *)

Definition challengeKey (t i : qstring) : qstring := t ++ unitSeparator :: i.

(** std::clamp(v, 0, hi). *)
Definition delaySec (deadline capSec now_s : Z) : Z :=
  let cap := Z.max capSec 0 in
  if 0 <? deadline then Z.min (Z.max (deadline - now_s) 0) cap else cap.

Definition cancelAtDeadline (c : VpnAuthChallenge) (capSec nowMs : Z) (w : Auth) : Auth :=
  if isEmpty (id c) then w
  else let key := challengeKey (endpointTag c) (id c) in
       match m_cancelTimers w !! key with
       | Some _ => w
       | None =>
           let delay := delaySec (deadline c) capSec (nowMs / 1000) in
           set_m_cancelTimers (<[key := MkCancelTimer (endpointTag c) (id c) (nowMs + Z.min (delay * 1000) intMax)]>
                                 (m_cancelTimers w)) w
       end.

Definition isPending (t i : qstring) (w : Auth) : bool :=
  existsb (fun c => bool_decide (endpointTag c = t) && bool_decide (id c = i)) (m_vpnPendingChallenges w).

Definition onCancelTimer (key : qstring) (nowMs : Z) (w : Auth) : Auth :=
  match m_cancelTimers w !! key with
  | Some T =>
      if dueMs T <=? nowMs then
        let w := set_m_cancelTimers (delete key (m_cancelTimers w)) w in
        if isPending (cancelTag T) (cancelId T) w then act (CancelPrompt (cancelTag T) (cancelId T) nowMs) w else w
      else w
  | None => w
  end.

(** ** Polling *)

(** The poll thread: a result's challenge belongs to its endpoint unless it names another. *)
Definition labelled (f : VpnAuthField) : VpnAuthField :=
  MkField (submissionKey f) (fieldName f) (if isEmpty (label f) then fieldName f else label f) (fieldKind f) (value f).

Definition readChallenge (t : qstring) (raw : VpnAuthChallenge) : VpnAuthChallenge :=
  MkChallenge (if isEmpty (endpointTag raw) then t else endpointTag raw) (id raw) (kind raw) (username raw)
    (message raw) (error raw) (deadline raw) (map labelled (fields raw)).

Definition pendingOf (rs : list VpnStatus) : list VpnAuthChallenge :=
  omap (fun r => readChallenge (tag (status r)) <$> challenge r) rs.

Definition authFailuresOf (rs : list VpnStatus) : list (qstring * qstring) :=
  omap (fun r => if authFailed (status r) then Some (tag (status r), stateError (status r)) else None) rs.

Definition poll (started_id : Z) (w : Auth) : Auth :=
  if (started_id <? 0) || m_vpnChallengeBusy w then w else set_m_vpnChallengeBusy true w.

(** What a handler reads of the rest of the program: the clock, again when a code is
    minted and when a challenge is bounded, the running profile, the profiles, whether a
    prompt is open, how the policy bounds a challenge that nobody can answer, and
    whether a start is refused at once. *)
Record Env := MkEnv {
  nowMs : Z;
  mintMs : Z;
  boundMs : Z;
  runningSnapshot : option Z;
  profileOf : Z -> option VpnProfile;
  vpnPromptOpen : bool;
  challengeCap : option Z;
  startRefused : bool }.
Definition nowSecs (e : Env) : Z := nowMs e / 1000.
Definition mintSecs (e : Env) : Z := mintMs e / 1000.

Definition VpnEndpointDisplayName (e : Env) (t : qstring) (w : Auth) : qstring :=
  let i := VpnEndpointProfileID t w in
  if i <? 0 then t else match profileOf e i with Some p => displayName p | None => t end.

(** The lines of the endpoints that are not connected. *)
Definition summaryPart (e : Env) (w : Auth) (s : VpnEndpointState) : qstring :=
  VpnEndpointDisplayName e (tag s) w ++ qs ": " ++ VpnStateText (state s).
Definition detailPart (e : Env) (w : Auth) (s : VpnEndpointState) : qstring :=
  VpnEndpointDisplayName e (tag s) w ++ qs ": " ++ (if isEmpty (stateError s) then VpnStateText (state s) else stateError s).
Definition isProblem (s : VpnEndpointState) : bool := authFailed s || bool_decide (state s = qs "error").

Definition noteConnected (s : VpnEndpointState) (w : Auth) : Auth :=
  if connected s then act (Connected (tag s)) (set_m_vpnOtpRejects (delete (tag s) (m_vpnOtpRejects w)) w) else w.

Definition exitStateOf (states : list VpnEndpointState) : qstring :=
  fold_left (fun x s => if bool_decide (tag s = qs "proxy") then VpnExitStateText (state s) (stateError s) else x) states [].

Definition summaryText (problem : bool) (parts : list qstring) : qstring :=
  if isEmpty parts then []
  else (if problem then qs "VPN endpoint problem" else qs "VPN endpoint") ++ qs ": " ++
       join [ch " "; middleDot; ch " "] (take 2 parts) ++
       (if 2 <? qsize parts then qs " (+" ++ number (qsize parts - 2) ++ qs ")" else []).

Definition updateEndpointStates (e : Env) (states : list VpnEndpointState) (w : Auth) : Auth :=
  let w := set_m_authFailed (existsb authFailed states) w in
  let w := fold_left (fun w s => noteConnected s w) states w in
  let open := List.filter (fun s => negb (connected s)) states in
  let problem := existsb isProblem open in
  let exitState := exitStateOf states in
  let w := set_m_vpnEndpointLastState (fold_left (fun m s => <[tag s := state s]> m) states ∅) w in
  let summary := summaryText problem (map (summaryPart e w) open) in
  let detail := join (qs " | ") (take 3 (map (detailPart e w) open)) in
  if bool_decide (summary = m_vpnTroubleSummary w) && bool_decide (detail = m_vpnTroubleDetail w)
     && bool_decide (exitState = m_vpnEndpointState w) then w
  else let w := set_m_vpnEndpointState exitState (set_m_vpnTroubleDetail detail (set_m_vpnTroubleSummary summary w)) in
       act ExitStateChanged (act (EndpointStatusChanged summary detail problem) w).

(** ** Answering a form *)

Section Controller.
Context (toLower : qstring -> qstring) (hmac : bytes -> bytes -> HashAlgorithm -> bytes).

Definition vpnAuthControllerFieldHaystack (f : VpnAuthField) : qstring :=
  toLower (fieldName f ++ ch " " :: label f).

Definition tokenHints : list qstring :=
  map qs ["token"; "otp"; "passcode"; "one-time"; "onetime"; "second"; "challenge"; "verification"; "authenticator"]%string.

Definition vpnAuthControllerLooksLikeToken (f : VpnAuthField) : bool :=
  existsb (fun hint => containsStr hint (vpnAuthControllerFieldHaystack f)) tokenHints.

Definition vpnAuthControllerLooksLikeUsername (f : VpnAuthField) : bool :=
  let haystack := vpnAuthControllerFieldHaystack f in
  containsStr (qs "user") haystack || containsStr (qs "login") haystack || containsStr (qs "account") haystack.

Definition entryMatches (f : VpnAuthField) (n : OpenConnectFormEntry) : bool :=
  negb (promote n) &&
  ((negb (isEmpty (entryKey n)) && bool_decide (entryKey n = submissionKey f)) ||
   (isEmpty (entryKey n) && negb (isEmpty (entryName n)) && bool_decide (entryName n = fieldName f)
      && containsStr kOtpPlaceholder (entryValue n))).

(** The value of a field and whether the password was used; the last entry that matches counts. *)
Definition fieldAnswer (entries : list OpenConnectFormEntry) (user pass code : qstring) (passwordUsed : bool)
    (f : VpnAuthField) : option (qstring * bool) :=
  match last (List.filter (entryMatches f) entries) with
  | Some n => Some (SubstituteOtp (entryValue n) code, passwordUsed)
  | None =>
      if bool_decide (fieldKind f = qs "password") then
        if negb passwordUsed && negb (vpnAuthControllerLooksLikeToken f) && negb (isEmpty pass)
        then Some (SubstituteOtp pass code, true) else Some (code, passwordUsed)
      else if vpnAuthControllerLooksLikeUsername f && negb (isEmpty user) then Some (SubstituteOtp user code, passwordUsed)
      else if negb (isEmpty (value f)) then Some (value f, passwordUsed)
      else None
  end.

Fixpoint answerFields (entries : list OpenConnectFormEntry) (user pass code : qstring) (passwordUsed : bool)
    (fs : list VpnAuthField) (out : gmap qstring qstring) : option (gmap qstring qstring) :=
  match fs with
  | [] => Some out
  | f :: fs' =>
      '(v, used) ← fieldAnswer entries user pass code passwordUsed f;
      answerFields entries user pass code used fs' (<[submissionKey f := v]> out)
  end.

Definition vpnAuthControllerBuildFormAnswer (c : VpnAuthChallenge) (entries : list OpenConnectFormEntry)
    (user pass code : qstring) : option (gmap qstring qstring) :=
  if isEmpty (fields c) then None
  else out ← answerFields entries user pass code false (fields c) ∅;
       if bool_decide (out = ∅) then None else Some out.

(** ** One-time codes *)

Definition CurrentCode (now_s : Z) (p : OtpEntry) : qstring := default [] (GenerateCode hmac now_s p (-1)).

Definition isHOTP (p : OtpEntry) : bool := negb (isTOTP p).
Definition nextCounter (p : OtpEntry) : OtpEntry :=
  MkEntry (name p) (issuer p) (Otp.secret p) (algorithm p) (type p) (digits p) (period p) (counter p + 1).

Definition ResolveOtpCode (otpProfileId now_s : Z) (w : Auth) : qstring * Auth :=
  if otpProfileId <? 0 then ([], w)
  else match otpProfiles w !! otpProfileId with
       | None => ([], w)
       | Some p =>
           match Validate p with
           | Some _ => ([], w)
           | None => if isHOTP p then (CurrentCode now_s (nextCounter p), set_otpProfiles (<[otpProfileId := nextCounter p]> (otpProfiles w)) w)
                     else (CurrentCode now_s p, w)
           end
       end.

(** ** Answering a challenge *)

Definition submitAutoAnswer (a : AutoAnswer) (w : Auth) : Auth :=
  let t := endpointTag (answerTo a) in
  let w := set_m_vpnChallengeAnswering ({[t]} ∪ m_vpnChallengeAnswering w) w in
  act (Submit a) (set_submitting (submitting w ++ [t]) w).

Fixpoint removeOne (t : qstring) (l : list qstring) : list qstring :=
  match l with [] => [] | x :: l' => if bool_decide (x = t) then l' else x :: removeOne t l' end.

(** The thread's answer came: the endpoint may be answered again. *)
Definition submitDone (t : qstring) (w : Auth) : Auth :=
  if bool_decide (t ∈ submitting w)
  then set_m_vpnChallengeAnswering (m_vpnChallengeAnswering w ∖ {[t]}) (set_submitting (removeOne t (submitting w)) w)
  else w.

Definition otpOf (o : Outbound) : Z * (qstring * qstring) :=
  match o with
  | OpenVPN i u p => (i, (u, p))
  | OpenConnect i u p _ _ => (i, (u, p))
  | OtherOutbound => (-1, ([], []))
  end.

(** Whether a refused answer may be followed by another one with [p]'s code. *)
Inductive Refusal := GoOn | TooOften | HoldOn.
Definition afterRefusal (c : VpnAuthChallenge) (p : OtpEntry) (now_s : Z) (w : Auth) : Refusal :=
  if isEmpty (error c) then GoOn
  else if kMaxOtpRejects <=? default 0 (m_vpnOtpRejects w !! endpointTag c) then TooOften
  else if isTOTP p && bool_decide (CurrentCode now_s p = default [] (m_vpnOtpLastCode w !! endpointTag c)) then HoldOn
  else GoOn.

(** The shape of the answer, settled before a code is made. *)
Definition shapeFits (o : Outbound) (c : VpnAuthChallenge) (creds : VpnCredentials) : bool :=
  match o with
  | OpenVPN _ _ _ =>
      bool_decide (kind c = qs "secret") ||
      (bool_decide (kind c = qs "credentials") && negb (isEmpty (credUsername creds) && isEmpty (credPassword creds)))
  | _ => bool_decide (kind c = qs "form")
  end.

Definition buildReply (o : Outbound) (c : VpnAuthChallenge) (creds : VpnCredentials) (code : qstring) : option VpnAuthAnswer :=
  match o with
  | OpenVPN _ _ _ =>
      if bool_decide (kind c = qs "credentials")
      then Some (MkAnswer (SubstituteOtp (credUsername creds) code) (SubstituteOtp (credPassword creds) code) code ∅)
      else Some (MkAnswer [] [] code ∅)
  | OpenConnect _ _ _ _ entries =>
      form ← vpnAuthControllerBuildFormAnswer c entries (credUsername creds) (credPassword creds) code;
      Some (MkAnswer [] [] [] form)
  | OtherOutbound => None
  end.

(** A code is minted; it is sent if the answer can be built. *)
Definition mintAndAnswer (e : Env) (o : Outbound) (otpID : Z) (creds : VpnCredentials) (c : VpnAuthChallenge) (w : Auth) : bool * Auth :=
  let '(code, w) := ResolveOtpCode otpID (mintSecs e) w in
  if isEmpty code then (false, w)
  else match buildReply o c creds code with
       | None => (false, w)
       | Some reply =>
           let w := if isEmpty (error c) then w
                    else set_m_vpnOtpRejects (<[endpointTag c := default 0 (m_vpnOtpRejects w !! endpointTag c) + 1]> (m_vpnOtpRejects w)) w in
           let w := set_m_vpnOtpLastCode (<[endpointTag c := code]> (m_vpnOtpLastCode w)) w in
           (true, submitAutoAnswer (MkAutoAnswer c o creds (nowSecs e) (mintSecs e) (otpProfiles w !! otpID) code reply) w)
       end.

(** [true] when nobody has to be asked. *)
Definition autoAnswer (e : Env) (c : VpnAuthChallenge) (w : Auth) : bool * Auth :=
  if isEmpty (id c) || bool_decide (runningSnapshot e = None) then (false, w)
  else if bool_decide (endpointTag c ∈ m_vpnChallengeAnswering w) then (true, w)
  else let profileID := VpnEndpointProfileID (endpointTag c) w in
       if profileID <? 0 then (false, w)
       else match profileOf e profileID with
       | None => (false, w)
       | Some ent =>
           let '(otpID, (storedUser, storedPass)) := otpOf (outbound ent) in
           if otpID <? 0 then (false, w)
           else match otpProfiles w !! otpID with
           | None => (false, w)
           | Some p =>
               if bool_decide (is_Some (Validate p)) then (false, w)
               else match afterRefusal c p (nowSecs e) w with
                    | TooOften => (false, w)
                    | HoldOn => (true, w)
                    | GoOn =>
                        let creds := ResolveVpnCredentials profileID storedUser storedPass w in
                        if negb (shapeFits (outbound ent) c creds) then (false, w)
                        else mintAndAnswer e (outbound ent) otpID creds c w
                    end
           end
       end.

Definition showChallenge (e : Env) (c : VpnAuthChallenge) (w : Auth) : Auth :=
  if isEmpty (id c) then w
  else let w := set_m_vpnPendingChallenges (m_vpnPendingChallenges w ++ [c]) w in
       let key := challengeKey (endpointTag c) (id c) in
       if vpnPromptOpen e || bool_decide (key ∈ m_vpnChallengeSeen w) then w
       else let w := act (ShowChallenge c) (set_m_vpnChallengeSeen ({[key]} ∪ m_vpnChallengeSeen w) w) in
            match challengeCap e with Some cap => cancelAtDeadline c cap (boundMs e) w | None => w end.

Definition handleChallenge (e : Env) (c : VpnAuthChallenge) (w : Auth) : Auth :=
  let '(answered, w) := autoAnswer e c w in if answered then w else showChallenge e c w.

(** ** Refused credentials *)

(** EngineControl::start; a start that is refused at once says so. *)
Definition startProfile (e : Env) (profileId : Z) (w : Auth) : Auth :=
  let w := act (Start profileId) w in
  if startRefused e then noteStartRefused profileId w else w.

(** Whether a restart with a new code helps: the code of the profile, if it has one. *)
Definition restartOtp (o : Outbound) : Z :=
  match o with
  | OpenVPN i _ _ => i
  | OpenConnect i _ _ disabled _ => if disabled then -1 else i
  | OtherOutbound => -1
  end.

Definition autoRestartForAuth (e : Env) (profileID : Z) (w : Auth) : bool * Auth :=
  match profileOf e profileID, runningSnapshot e with
  | Some ent, Some runningID =>
      if restartOtp (outbound ent) <? 0 then (false, w)
      else let spent := default 0 (m_vpnAutoRestarts w !! profileID) in
           if kMaxAutoRestarts <=? spent then (false, w)
           else if nowSecs e - m_vpnAutoRestartAt w <? kAutoRestartCooldownSecs then (true, w)
           else let w := set_m_vpnAutoRestarts (<[profileID := spent + 1]> (m_vpnAutoRestarts w)) w in
                let w := set_m_vpnAutoRestartAt (nowSecs e) w in
                let w := act (AutoRestart profileID (nowSecs e)) w in
                (true, startProfile e runningID (set_m_vpnAuthRestartID runningID w))
  | _, _ => (false, w)
  end.

(** The user whose credentials are asked for; [None] when credentials cannot help. *)
Definition askedUser (o : Outbound) : option qstring :=
  match o with
  | OpenVPN _ u _ => Some u
  | OpenConnect _ u _ disabled _ => if disabled then None else Some u
  | OtherOutbound => None
  end.

Definition authFailedKey (t : qstring) : qstring := challengeKey t (qs "auth-failed").

Definition credentialsChallenge (t user err : qstring) : VpnAuthChallenge :=
  MkChallenge t [] (qs "credentials") user
    (qs "The server refused the credentials saved with this profile. Enter the ones to use for this session. The profile itself is left unchanged.")
    err 0 [].

Definition showAuthFailure (e : Env) (failure : qstring * qstring) (w : Auth) : Auth :=
  let '(t, err) := failure in
  match runningSnapshot e with
  | Some runningID =>
      let profileID := VpnEndpointProfileID t w in
      if vpnPromptOpen e || (profileID <? 0) || bool_decide (authFailedKey t ∈ m_vpnChallengeSeen w) then w
      else let '(restarted, w) := autoRestartForAuth e profileID w in
           if restarted then w
           else let w := set_m_vpnChallengeSeen ({[authFailedKey t]} ∪ m_vpnChallengeSeen w) w in
                let prompted := default 0 (m_vpnAuthPrompted w !! profileID) in
                if kMaxCredentialPrompts <=? prompted then w
                else match profileOf e profileID with
                     | Some ent =>
                         match askedUser (outbound ent) with
                         | Some u =>
                             let w := set_m_vpnAuthPrompted (<[profileID := prompted + 1]> (m_vpnAuthPrompted w)) w in
                             act (CredentialsRejected profileID runningID (credentialsChallenge t u err)) w
                         | None => w
                         end
                     | None => w
                     end
  | None => w
  end.

Definition retryWithCredentials (e : Env) (runningProfileId profileId : Z) (c : VpnCredentials) (w : Auth) : Auth :=
  if bool_decide (runningSnapshot e = Some runningProfileId) then
    let w := act (Retry profileId) (SetVpnCredentialOverride profileId c w) in
    startProfile e runningProfileId (set_m_vpnAuthRestartID runningProfileId w)
  else w.

(** ** The result of a poll *)

(** Each item is handled with what the program says when its turn comes. *)
Fixpoint handleAll {A} (handle : Env -> A -> Auth -> Auth) (es : nat -> Env) (l : list A) (w : Auth) : Auth :=
  match l with
  | [] => w
  | x :: l' => handleAll handle (fun n => es (S n)) l' (handle (es O) x w)
  end.

Definition onPolled (e : Env) (ce fe : nat -> Env) (rs : list VpnStatus) (w : Auth) : Auth :=
  if negb (m_vpnChallengeBusy w) then w
  else let w := set_m_vpnChallengeBusy false w in
       if negb (m_vpnChallengeTimer w) then w
       else let w := updateEndpointStates e (map status rs) w in
            let w := set_m_vpnPendingChallenges [] w in
            let w := handleAll handleChallenge ce (pendingOf rs) w in
            handleAll showAuthFailure fe (authFailuresOf rs) w.

(** ** Events *)

Inductive Event :=
| EBuilt (profiles : gmap qstring Z)
| EStarted
| EStartRefused (profileId : Z)
| EStopped (profileId : Z) (manual : bool)
| ETick (started_id : Z)
| EPolled (e : Env) (ce fe : nat -> Env) (results : list VpnStatus)
| ESubmitDone (t : qstring)
| ECancelAtDeadline (c : VpnAuthChallenge) (capSec nowMs : Z)
| ECancelTimer (key : qstring) (nowMs : Z)
| ERetry (e : Env) (runningProfileId profileId : Z) (c : VpnCredentials)
| EOtpSaved (otpID : Z) (p : OtpEntry).

(** A start publishes the endpoints' profiles ([EBuilt]) before the controller hears of it. *)
Definition step (w : Auth) (ev : Event) : Auth :=
  match ev with
  | EBuilt m => SetVpnEndpointProfiles m w
  | EStarted => noteRunStarted (act RunStarted w)
  | EStartRefused i => noteStartRefused i w
  | EStopped i manual => noteRunStopped i manual (act (RunStopped i manual) w)
  | ETick i => if m_vpnChallengeTimer w then poll i w else w
  | EPolled e ce fe rs => onPolled e ce fe rs w
  | ESubmitDone t => submitDone t w
  | ECancelAtDeadline c cap now => cancelAtDeadline c cap now w
  | ECancelTimer key now => onCancelTimer key now w
  | ERetry e r i c => retryWithCredentials e r i c w
  | EOtpSaved i p => set_otpProfiles (<[i := p]> (otpProfiles w)) w
  end.

Definition newAuth (otp : gmap Z OtpEntry) : Auth :=
  MkAuth [] false false ∅ [] [] [] ∅ ∅ ∅ ∅ ∅ 0 ∅ (-1) ∅ false [] ∅ ∅ otp [].

Definition run (w : Auth) (es : list Event) : Auth := fold_left step es w.
End Controller.
