(* ===== verification/VpnAuthReply.v ===== *)
(** * What an automatic answer of the sign-in controller holds

    [properReply] says what the reply to a challenge is, field by field and without the
    flag that vpnAuthControllerBuildFormAnswer threads through the form; [proper] of an
    answer adds where its code comes from. [buildReply_proper] is the refinement. *)

From Stdlib Require Import Ascii String.
From S2P Require Import Prelude QtText OtpBase32 OtpWire Otp VpnAuth.

Local Open Scope Z_scope.
#[local] Set Warnings "-register-all".

(** ** The specification *)

(** A stored entry is meant for a field when it names the key of the field, or names the
    field and holds a place for the code. *)
Definition meantFor (f : VpnAuthField) (n : OpenConnectFormEntry) : Prop :=
  promote n = false /\
  (entryKey n <> [] /\ entryKey n = submissionKey f \/
   entryKey n = [] /\ entryName n <> [] /\ entryName n = fieldName f /\ containsStr kOtpPlaceholder (entryValue n) = true).
#[export] Instance meantFor_dec f n : Decision (meantFor f n).
Proof. unfold meantFor. apply _. Defined.

Definition storedFor (entries : list OpenConnectFormEntry) (f : VpnAuthField) : option OpenConnectFormEntry :=
  last (List.filter (fun n => bool_decide (meantFor f n)) entries).

Section Replies.
Context (toLower : qstring -> qstring) (hmac : bytes -> bytes -> HashAlgorithm -> bytes).

(** A field that asks for the password itself, and not for a second one. *)
Definition asksPassword (entries : list OpenConnectFormEntry) (f : VpnAuthField) : bool :=
  bool_decide (storedFor entries f = None /\ fieldKind f = qs "password") && negb (vpnAuthControllerLooksLikeToken toLower f).

(** What a field gets, given the fields before it: the value stored for it; in a password
    field the password, once, and else the code; the user; or what the form came with. *)
Definition fieldValue (entries : list OpenConnectFormEntry) (creds : VpnCredentials) (code : qstring)
    (before : list VpnAuthField) (f : VpnAuthField) : option qstring :=
  match storedFor entries f with
  | Some n => Some (SubstituteOtp (entryValue n) code)
  | None =>
      if decide (fieldKind f = qs "password") then
        if asksPassword entries f && negb (existsb (asksPassword entries) before) && negb (isEmpty (credPassword creds))
        then Some (SubstituteOtp (credPassword creds) code) else Some code
      else if vpnAuthControllerLooksLikeUsername toLower f && negb (isEmpty (credUsername creds))
           then Some (SubstituteOtp (credUsername creds) code)
      else if isEmpty (value f) then None else Some (value f)
  end.

(** Every key of the form has the value of the last field under it, and no other key is sent. *)
Definition properForm (entries : list OpenConnectFormEntry) (creds : VpnCredentials) (code : qstring)
    (fs : list VpnAuthField) (form : gmap qstring qstring) : Prop :=
  (forall i f, fs !! i = Some f -> (forall j g, (i < j)%nat -> fs !! j = Some g -> submissionKey g <> submissionKey f) ->
     exists v, fieldValue entries creds code (take i fs) f = Some v /\ form !! submissionKey f = Some v) /\
  (forall k, k ∉ map submissionKey fs -> form !! k = None).

Definition properReply (o : Outbound) (c : VpnAuthChallenge) (creds : VpnCredentials) (code : qstring) (r : VpnAuthAnswer) : Prop :=
  match o with
  | OpenVPN _ _ _ =>
      secret r = code /\ formValues r = ∅ /\
      (kind c = qs "secret" /\ replyUsername r = [] /\ replyPassword r = [] \/
       kind c = qs "credentials" /\ (credUsername creds <> [] \/ credPassword creds <> []) /\
         replyUsername r = SubstituteOtp (credUsername creds) code /\ replyPassword r = SubstituteOtp (credPassword creds) code)
  | OpenConnect _ _ _ _ entries =>
      kind c = qs "form" /\ fields c <> [] /\ replyUsername r = [] /\ replyPassword r = [] /\ secret r = [] /\
      properForm entries creds code (fields c) (formValues r)
  | OtherOutbound => False
  end.

(** The answer's code is that of a valid entry when it was minted, and the reply is the
    one for its challenge. *)
Definition proper (a : AutoAnswer) : Prop :=
  id (answerTo a) <> [] /\ answerCode a <> [] /\
  (exists p, answerOtp a = Some p /\ Validate p = None /\ GenerateCode hmac (mintedAt_s a) p (-1) = Some (answerCode a)) /\
  properReply (answerBy a) (answerTo a) (answerCreds a) (answerCode a) (answerReply a).

(** ** The controller's replies are proper *)

Lemma entryMatches_meant f n : entryMatches f n = bool_decide (meantFor f n).
Proof.
  apply eq_true_iff_eq. rewrite bool_decide_eq_true. unfold entryMatches, meantFor.
  rewrite andb_true_iff, orb_true_iff, !andb_true_iff, !negb_true_iff, !bool_decide_eq_true.
  destruct (entryKey n), (entryName n); cbn [isEmpty]; naive_solver.
Qed.

Lemma storedFor_code entries f : last (List.filter (entryMatches f) entries) = storedFor entries f.
Proof. unfold storedFor. f_equal. apply filter_ext. intros n. apply entryMatches_meant. Qed.

Lemma fieldAnswer_value entries creds code before f :
  let used := existsb (asksPassword entries) before && negb (isEmpty (credPassword creds)) in
  fieldAnswer toLower entries (credUsername creds) (credPassword creds) code used f =
  (fun v => (v, existsb (asksPassword entries) (before ++ [f]) && negb (isEmpty (credPassword creds))))
    <$> fieldValue entries creds code before f.
Proof.
  cbv zeta. unfold fieldAnswer, fieldValue. rewrite storedFor_code, existsb_app. cbn [existsb]. rewrite orb_false_r.
  assert (asksPassword entries f = bool_decide (storedFor entries f = None /\ fieldKind f = qs "password") &&
    negb (vpnAuthControllerLooksLikeToken toLower f)) as -> by done.
  destruct (storedFor entries f) as [n|].
  { rewrite bool_decide_false by (by intros [? _]). cbn. by rewrite orb_false_r. }
  destruct (decide (fieldKind f = qs "password")) as [E|E].
  - rewrite !bool_decide_true by done. by destruct (vpnAuthControllerLooksLikeToken toLower f), (existsb _ before), (credPassword creds).
  - rewrite !bool_decide_false by (done || by intros [_ ?]). cbn [andb]. rewrite orb_false_r. by repeat case_match.
Qed.

Lemma answerFields_proper entries creds code fs : forall before out form,
  answerFields toLower entries (credUsername creds) (credPassword creds) code
    (existsb (asksPassword entries) before && negb (isEmpty (credPassword creds))) fs out = Some form ->
  (forall i f, fs !! i = Some f -> (forall j g, (i < j)%nat -> fs !! j = Some g -> submissionKey g <> submissionKey f) ->
     exists v, fieldValue entries creds code (before ++ take i fs) f = Some v /\ form !! submissionKey f = Some v) /\
  (forall k, k ∉ map submissionKey fs -> form !! k = out !! k).
Proof.
  induction fs as [|f fs IH]; intros before out form; cbn [answerFields]; [by intros [= <-]|].
  rewrite fieldAnswer_value. destruct (fieldValue entries creds code before f) as [v|] eqn:Ev; [|done]. cbn.
  intros [H1 H2]%IH. split.
  - intros [|i] g; cbn [lookup list_lookup take].
    + intros [= <-] Hl. exists v. rewrite app_nil_r. split; [done|]. rewrite H2; [apply lookup_insert_eq|].
      rewrite list_elem_of_fmap. intros (g & Eg & [j Hj]%list_elem_of_lookup). by apply (Hl (S j) g); [lia | | ].
    + intros Hg Hl. destruct (H1 i g Hg) as (u & Hu & Hf); [intros j h Hj Hh; apply (Hl (S j) h); [lia | done]|].
      exists u. split; [|done]. by rewrite <- app_assoc in Hu.
  - intros k Hk. cbn [map] in Hk. rewrite H2 by set_solver. apply lookup_insert_ne. set_solver.
Qed.

Lemma buildReply_proper o c creds code r : shapeFits o c creds = true -> buildReply toLower o c creds code = Some r ->
  properReply o c creds code r.
Proof.
  unfold shapeFits, buildReply, properReply. destruct o as [i u p|i u p d entries|]; [| |done].
  - rewrite orb_true_iff, andb_true_iff, !bool_decide_eq_true, negb_true_iff. intros Hs Hr. split; [|split].
    1, 2: by case_bool_decide; injection Hr as <-.
    destruct Hs as [E|[E Hn]]; rewrite E in Hr; injection Hr as <-; [by left|]. right. split_and!; try done.
    destruct (credUsername creds), (credPassword creds); naive_solver.
  - intros Hk%bool_decide_eq_true. unfold vpnAuthControllerBuildFormAnswer. destruct (fields c) as [|f fs] eqn:Ef; [done|].
    cbn [isEmpty]. destruct (answerFields _ _ _ _ _ _ _ _) as [form|] eqn:Ea; [|done]. cbn. case_bool_decide; [done|].
    intros [= <-]. split_and!; try done. cbn [formValues]. by apply (answerFields_proper entries creds code (f :: fs) [] ∅ form) in Ea.
Qed.
End Replies.
