(* ===== verification/VpnAuthMoves.v ===== *)
(** * What a handler of the sign-in controller does, move by move

    [Move] lists the changes of the state that the log and the budgets depend on,
    each with the guard under which a handler makes it; everything else is quiet.
    [auth_step_moves] divides every handler into moves, so that an invariant is checked
    once per move ([auth_run_keeps]). *)

From Stdlib Require Import Ascii String.
From S2P Require Import Prelude QtText OtpWire Otp VpnAuth VpnAuthReply.
From stdpp Require Import relations.

Local Open Scope Z_scope.
#[local] Set Warnings "-register-all".

Definition tracked (w : Auth) :=
  (acts w, m_vpnAutoRestarts w, m_vpnAutoRestartAt w, m_vpnAuthPrompted w, m_vpnAuthRestartID w,
   (m_vpnChallengeSeen w, m_vpnOtpLastCode w, m_vpnOtpRejects w)).

(** Acts that no budget depends on. *)
Definition neutral (a : Act) : bool :=
  match a with
  | RunStarted | EndpointStatusChanged _ _ _ | ExitStateChanged | ChallengesCleared | CancelPrompt _ _ _ => true
  | _ => false
  end.

Definition refusals (w : Auth) (t : qstring) : Z := default 0 (m_vpnOtpRejects w !! t).
Definition lastCode (w : Auth) (t : qstring) : qstring := default [] (m_vpnOtpLastCode w !! t).
Definition spentRestarts (w : Auth) (p : Z) : Z := default 0 (m_vpnAutoRestarts w !! p).
Definition spentPrompts (w : Auth) (p : Z) : Z := default 0 (m_vpnAuthPrompted w !! p).

Definition forgetRun (w : Auth) : Auth :=
  set_m_vpnOtpRejects ∅ (set_m_vpnOtpLastCode ∅ (set_m_vpnChallengeSeen ∅ w)).

Definition answered (a : AutoAnswer) (w : Auth) : Auth :=
  let c := answerTo a in
  set_m_vpnOtpLastCode (<[endpointTag c := answerCode a]> (m_vpnOtpLastCode w))
    (if isEmpty (error c) then w
     else set_m_vpnOtpRejects (<[endpointTag c := refusals w (endpointTag c) + 1]> (m_vpnOtpRejects w)) w).

Ltac field_cbn := cbn [act set_acts acts m_vpnPendingChallenges m_vpnChallengeTimer m_vpnChallengeBusy m_vpnChallengeSeen
  m_vpnEndpointState m_vpnTroubleSummary m_vpnTroubleDetail m_vpnEndpointLastState m_vpnOtpLastCode m_vpnOtpRejects
  m_vpnChallengeAnswering m_vpnAutoRestarts m_vpnAutoRestartAt m_vpnAuthPrompted m_vpnAuthRestartID m_cancelTimers
  m_authFailed submitting vpnCredentialOverrides endpointDetailsProfiles otpProfiles
  set_m_vpnAuthRestartID set_m_vpnAutoRestartAt set_m_vpnAutoRestarts set_m_vpnAuthPrompted
  set_m_vpnChallengeSeen set_m_vpnOtpLastCode set_m_vpnOtpRejects].

Section Controller.
Context (toLower : qstring -> qstring) (hmac : bytes -> bytes -> HashAlgorithm -> bytes).

(** The test of the refused code: the code of time at the first reading is another one. *)
Definition freshCode (a : AutoAnswer) (refused : qstring) : Prop :=
  forall p, answerOtp a = Some p -> type p = TOTP -> CurrentCode hmac (checkedAt_s a) p <> refused.

(** An answer may go out when it is proper; after a refusal, only within the limit and,
    for a code of time, only when the code had changed. *)
Definition mayAnswer (w : Auth) (a : AutoAnswer) : Prop :=
  let t := endpointTag (answerTo a) in
  proper toLower hmac a /\ (error (answerTo a) <> [] -> refusals w t < kMaxOtpRejects /\ freshCode a (lastCode w t)).

Inductive Move : Auth -> Auth -> Prop :=
| MQuiet w w' : tracked w' = tracked w -> Move w w'
| MNeutral a w : neutral a = true -> Move w (act a w)
| MReset w : Move w (act Reset (forgetRun w))
| MStopped i w : Move w (set_m_vpnAuthRestartID (-1) (act (RunStopped i false) w))
| MRestarted i w : m_vpnAuthRestartID w = i -> Move w (set_m_vpnAuthRestartID (-1) (act (RunStopped i true) w))
| MUserStopped i w : m_vpnAuthRestartID w <> i ->
    Move w (clearCredentialOverrides (set_m_vpnAuthRestartID (-1) (act (RunStopped i true) w)))
| MRefused i w : Move w (noteStartRefused i w)
| MConnected t w : Move w (act (Connected t) (set_m_vpnOtpRejects (delete t (m_vpnOtpRejects w)) w))
| MShown c w : challengeKey (endpointTag c) (id c) ∉ m_vpnChallengeSeen w -> id c <> [] ->
    Move w (act (ShowChallenge c) (set_m_vpnChallengeSeen ({[challengeKey (endpointTag c) (id c)]} ∪ m_vpnChallengeSeen w) w))
| MSubmitted a w : mayAnswer w a -> Move w (act (Submit a) (answered a w))
| MSeen key w : Move w (set_m_vpnChallengeSeen ({[key]} ∪ m_vpnChallengeSeen w) w)
| MRestart p r now w : spentRestarts w p < kMaxAutoRestarts -> m_vpnAutoRestartAt w + kAutoRestartCooldownSecs <= now ->
    Move w (act (Start r) (set_m_vpnAuthRestartID r (act (AutoRestart p now)
      (set_m_vpnAutoRestartAt now (set_m_vpnAutoRestarts (<[p := spentRestarts w p + 1]> (m_vpnAutoRestarts w)) w)))))
| MRejected p r c w : spentPrompts w p < kMaxCredentialPrompts ->
    Move w (act (CredentialsRejected p r c) (set_m_vpnAuthPrompted (<[p := spentPrompts w p + 1]> (m_vpnAuthPrompted w)) w))
| MRetry p r w : Move w (act (Start r) (set_m_vpnAuthRestartID r (act (Retry p) w))).

Abbreviation moves := (rtc Move).

(** ** Dividing the handlers *)

Lemma quiet w w' : tracked w' = tracked w -> moves w w'.
Proof. intros H. by apply rtc_once, MQuiet. Qed.
Lemma then_quiet w w1 w2 : moves w w1 -> tracked w2 = tracked w1 -> moves w w2.
Proof. intros ? ?. etrans; [done | by apply quiet]. Qed.
#[local] Hint Resolve rtc_refl : core.

Lemma neutral_moves a w : neutral a = true -> moves w (act a w).
Proof. intros H. by apply rtc_once, MNeutral. Qed.

(** A state is fixed by its tracked fields up to a quiet move. *)
Lemma once_quiet w w1 w2 : Move w w1 -> tracked w2 = tracked w1 -> moves w w2.
Proof. intros ??. eapply then_quiet; [by apply rtc_once | done]. Qed.

Lemma reset_moves w : moves w (resetTracking w).
Proof.
  unfold resetTracking. etrans; [|by apply neutral_moves].
  eapply once_quiet; [apply (MReset w) | reflexivity].
Qed.

Lemma profiles_tracked m w : tracked (SetVpnEndpointProfiles m w) = tracked w.
Proof. done. Qed.

Lemma stopPoll_moves w : moves w (stopPoll w).
Proof.
  unfold stopPoll. etrans; [|by apply neutral_moves].
  eapply then_quiet; [|apply profiles_tracked].
  etrans; [|apply reset_moves]. by apply quiet.
Qed.

Lemma stopped_moves i manual w : moves w (noteRunStopped i manual (act (RunStopped i manual) w)).
Proof.
  unfold noteRunStopped. etrans; [|apply stopPoll_moves]. field_cbn. destruct manual; cbn [andb].
  - destruct (Z.eqb_spec i (m_vpnAuthRestartID w)) as [E|E]; cbn [negb].
    + apply rtc_once, MRestarted. done.
    + apply rtc_once, MUserStopped. done.
  - apply rtc_once, MStopped.
Qed.

Lemma refused_moves e i w : moves w (if startRefused e then noteStartRefused i w else w).
Proof. destruct (startRefused e); [apply rtc_once, MRefused | done]. Qed.

Lemma connected_moves l : forall w, moves w (fold_left (fun w s => noteConnected s w) l w).
Proof.
  induction l as [|s l IH]; intros w; cbn [fold_left]; [done|]. etrans; [|apply IH].
  unfold noteConnected. destruct (connected s); [apply rtc_once, MConnected | done].
Qed.

Lemma states_moves e l w : moves w (updateEndpointStates e l w).
Proof.
  unfold updateEndpointStates. set (w0 := set_m_authFailed _ w).
  pose proof (connected_moves l w0) as H. set (w1 := fold_left (fun w s => noteConnected s w) l w0) in *.
  assert (H1 : moves w w1) by (etrans; [by apply (quiet w w0) | done]). clearbody w1. cbn zeta.
  case_match; [by eapply then_quiet|].
  etrans; [|by apply neutral_moves]. etrans; [|by apply neutral_moves]. by eapply then_quiet.
Qed.

Lemma cancelAt_tracked c cap now w : tracked (cancelAtDeadline c cap now w) = tracked w.
Proof. unfold cancelAtDeadline. cbn zeta. by repeat case_match. Qed.

Lemma show_moves e c w : moves w (showChallenge e c w).
Proof.
  unfold showChallenge. destruct (id c) eqn:Hi; cbn [isEmpty]; [done|]. rewrite <- Hi. cbn zeta.
  destruct (vpnPromptOpen e); cbn [orb]; [by apply quiet|]. case_bool_decide as Hk; [by apply quiet|].
  set (w1 := set_m_vpnPendingChallenges _ w) in *.
  assert (H : moves w (act (ShowChallenge c) (set_m_vpnChallengeSeen ({[challengeKey (endpointTag c) (id c)]} ∪ m_vpnChallengeSeen w1) w1))).
  { etrans; [apply (quiet _ w1); reflexivity|]. apply rtc_once, MShown; [done | by rewrite Hi]. }
  destruct (challengeCap e); [|done]. eapply then_quiet; [exact H | apply cancelAt_tracked].
Qed.

Lemma resolve_tracked i now w : tracked (ResolveOtpCode hmac i now w).2 = tracked w.
Proof. unfold ResolveOtpCode. by repeat case_match. Qed.

(** A code that was minted is that of a valid entry, for a code of time the one read before. *)
Lemma resolve_code i now w p : otpProfiles w !! i = Some p -> (ResolveOtpCode hmac i now w).1 <> [] ->
  exists q, otpProfiles (ResolveOtpCode hmac i now w).2 !! i = Some q /\ Validate q = None /\ type q = type p /\ (type p = TOTP -> q = p) /\
    GenerateCode hmac now q (-1) = Some (ResolveOtpCode hmac i now w).1.
Proof.
  intros Hp. unfold ResolveOtpCode. destruct (i <? 0); [done|]. rewrite Hp. destruct (Validate p) eqn:Hv; [done|].
  assert (Hc : forall q, CurrentCode hmac now q <> [] -> GenerateCode hmac now q (-1) = Some (CurrentCode hmac now q))
    by (intros q; unfold CurrentCode; by destruct (GenerateCode hmac now q (-1))).
  unfold isHOTP. destruct (isTOTP p) eqn:Ht; cbn [negb fst snd]; intros Hne.
  - exists p. split_and!; try done. by apply Hc.
  - exists (nextCounter p). split_and!; [apply lookup_insert_eq | | done | | by apply Hc].
    + done.
    + unfold isTOTP in Ht. by destruct (type p).
Qed.

Lemma goOn_fresh c p now w : afterRefusal hmac c p now w = GoOn -> error c <> [] ->
  refusals w (endpointTag c) < kMaxOtpRejects /\ (type p = TOTP -> CurrentCode hmac now p <> lastCode w (endpointTag c)).
Proof.
  unfold afterRefusal. intros H He. destruct (error c); [done|]. cbn [isEmpty] in H.
  fold (refusals w (endpointTag c)) (lastCode w (endpointTag c)) in H.
  destruct (Z.leb_spec kMaxOtpRejects (refusals w (endpointTag c))); [done|]. split; [done|]. intros Ht Hc.
  unfold isTOTP in H. rewrite Ht, Hc, bool_decide_true in H by done. done.
Qed.

Lemma submitted_tracked a w :
  let c := answerTo a in
  let w1 := if isEmpty (error c) then w
            else set_m_vpnOtpRejects (<[endpointTag c := default 0 (m_vpnOtpRejects w !! endpointTag c) + 1]> (m_vpnOtpRejects w)) w in
  tracked (submitAutoAnswer a (set_m_vpnOtpLastCode (<[endpointTag c := answerCode a]> (m_vpnOtpLastCode w1)) w1))
  = tracked (act (Submit a) (answered a w)).
Proof. cbv zeta. unfold answered. by destruct (isEmpty (error (answerTo a))). Qed.

Lemma mint_moves e o i p creds c w : id c <> [] -> otpProfiles w !! i = Some p ->
  shapeFits o c creds = true -> afterRefusal hmac c p (nowSecs e) w = GoOn ->
  moves w (mintAndAnswer toLower hmac e o i creds c w).2.
Proof.
  intros Hi Hp Hs Hg. unfold mintAndAnswer. pose proof (resolve_tracked i (mintSecs e) w) as Ht.
  pose proof (resolve_code i (mintSecs e) w p Hp) as Hc.
  destruct (ResolveOtpCode hmac i (mintSecs e) w) as [code w1]. cbn [fst snd] in *.
  destruct (isEmpty code) eqn:Hne; [by apply quiet|]. assert (Hcode : code <> []) by (by destruct code).
  destruct (buildReply toLower o c creds code) as [reply|] eqn:Hr; [|by apply quiet].
  destruct (Hc Hcode) as (q & Hq & Hvq & Htq & Hsame & Hgq).
  etrans; [by apply (quiet w w1)|]. cbn [snd].
  set (a := MkAutoAnswer _ _ _ _ _ _ _ _).
  assert (Ha : mayAnswer w1 a).
  { split.
    - split_and!; [done | done | by exists q; destruct (isEmpty (error c)) | by apply buildReply_proper].
    - intros He. destruct (goOn_fresh c p (nowSecs e) w Hg He) as [H1 H2]. unfold refusals, lastCode in *.
      unfold tracked in Ht. injection Ht as ?????? HL HR. cbn [answerTo a]. rewrite HL, HR. split; [done|].
      intros q' Hq' Ht'. assert (q' = q) as -> by (destruct (isEmpty (error c)); cbn in Hq'; congruence).
      rewrite Htq in Ht'. rewrite (Hsame Ht'). by apply H2. }
  eapply once_quiet; [by apply (MSubmitted a w1) | apply (submitted_tracked a w1)].
Qed.

Lemma autoAnswer_moves e c w : moves w (autoAnswer toLower hmac e c w).2.
Proof.
  unfold autoAnswer. destruct (id c) as [|x l] eqn:Hi; [done|]. cbn [isEmpty orb]. case_bool_decide; [done|].
  repeat (case_match; [done|]). destruct (profileOf e _) as [ent|]; [|done].
  destruct (otpOf _) as [i [u p]]. destruct (i <? 0); [done|]. destruct (otpProfiles w !! i) as [q|] eqn:Hq; [|done].
  case_match; [done|]. destruct (afterRefusal hmac c q (nowSecs e) w) eqn:Hg; [|done|done]. cbn zeta.
  destruct (shapeFits _ _ _) eqn:Hs; [|done]. cbn [negb]. apply (mint_moves e _ i q); [by rewrite Hi | done..].
Qed.

Lemma challenge_moves e c w : moves w (handleChallenge toLower hmac e c w).
Proof.
  unfold handleChallenge. pose proof (autoAnswer_moves e c w) as H. destruct (autoAnswer toLower hmac e c w) as [[] w1]; [done|].
  cbn [snd] in H. etrans; [done | apply show_moves].
Qed.

Lemma autoRestart_moves e p w : moves w (autoRestartForAuth e p w).2.
Proof.
  unfold autoRestartForAuth. destruct (profileOf e p) as [ent|]; [|done]. destruct (runningSnapshot e) as [r|]; [|done].
  case_match; [done|]. fold (spentRestarts w p). destruct (Z.leb_spec kMaxAutoRestarts (spentRestarts w p)); [done|].
  destruct (Z.ltb_spec (nowSecs e - m_vpnAutoRestartAt w) kAutoRestartCooldownSecs); [done|].
  cbn [snd]. unfold startProfile. etrans; [|apply refused_moves].
  eapply once_quiet; [apply (MRestart p r (nowSecs e)); lia | reflexivity].
Qed.

Lemma failure_moves e f w : moves w (showAuthFailure e f w).
Proof.
  unfold showAuthFailure. destruct f as [t err]. destruct (runningSnapshot e) as [r|]; [|done]. cbn zeta.
  case_match; [done|]. set (p := VpnEndpointProfileID t w).
  pose proof (autoRestart_moves e p w) as H1. destruct (autoRestartForAuth e p w) as [[] w1]; [done|]. cbn [snd] in H1.
  etrans; [exact H1|]. etrans; [apply rtc_once, (MSeen (authFailedKey t))|]. set (w2 := set_m_vpnChallengeSeen _ _).
  fold (spentPrompts w2 p). destruct (Z.leb_spec kMaxCredentialPrompts (spentPrompts w2 p)); [done|].
  destruct (profileOf e p) as [ent|]; [|done]. destruct (askedUser _); [|done]. by apply rtc_once, MRejected.
Qed.

Lemma retry_moves e r p c w : moves w (retryWithCredentials e r p c w).
Proof.
  unfold retryWithCredentials. case_bool_decide; [|done]. unfold startProfile. etrans; [|apply refused_moves].
  etrans; [apply (quiet w (SetVpnCredentialOverride p c w)); unfold SetVpnCredentialOverride; by case_match|].
  eapply once_quiet; [apply (MRetry p r) | reflexivity].
Qed.

Lemma handleAll_moves {A} (f : Env -> A -> Auth -> Auth) (Hf : forall e x w, moves w (f e x w)) l :
  forall es w, moves w (handleAll f es l w).
Proof. induction l as [|x l IH]; intros es w; cbn [handleAll]; [done|]. etrans; [apply Hf | apply IH]. Qed.

Lemma polled_moves e ce fe rs w : moves w (onPolled toLower hmac e ce fe rs w).
Proof.
  unfold onPolled. destruct (negb (m_vpnChallengeBusy w)); [done|]. set (w0 := set_m_vpnChallengeBusy false w).
  etrans; [by apply (quiet w w0)|]. cbn zeta. destruct (negb (m_vpnChallengeTimer w0)); [done|].
  etrans; [apply (states_moves e (map status rs))|]. set (w1 := updateEndpointStates _ _ w0). clearbody w1.
  etrans; [apply (quiet w1 (set_m_vpnPendingChallenges [] w1)); reflexivity|].
  etrans; [apply (handleAll_moves _ challenge_moves (pendingOf rs) ce) | apply handleAll_moves, failure_moves].
Qed.

Lemma timer_tracked b w : tracked (set_m_vpnChallengeTimer b w) = tracked w.
Proof. done. Qed.

Lemma started_moves w : moves w (noteRunStarted (act RunStarted w)).
Proof.
  unfold noteRunStarted. eapply then_quiet; [|apply timer_tracked].
  etrans; [by apply (neutral_moves RunStarted) | apply reset_moves].
Qed.

Lemma poll_moves i w : moves w (poll i w).
Proof. unfold poll. case_match; [done|]. by apply quiet. Qed.

Lemma submitDone_moves t w : moves w (submitDone t w).
Proof. unfold submitDone. case_match; [by apply quiet | done]. Qed.

Lemma cancelTimer_moves key now w : moves w (onCancelTimer key now w).
Proof.
  unfold onCancelTimer. destruct (m_cancelTimers w !! key) as [T|]; [|done]. destruct (dueMs T <=? now); [|done].
  cbn zeta. etrans; [apply (quiet w (set_m_cancelTimers (delete key (m_cancelTimers w)) w)); reflexivity|].
  case_match; [by apply neutral_moves | done].
Qed.

Theorem auth_step_moves w ev : moves w (step toLower hmac w ev).
Proof.
  destruct ev; cbn [step].
  - apply quiet, profiles_tracked.
  - apply started_moves.
  - apply rtc_once, MRefused.
  - apply stopped_moves.
  - destruct (m_vpnChallengeTimer w); [apply poll_moves | done].
  - apply polled_moves.
  - apply submitDone_moves.
  - apply quiet, cancelAt_tracked.
  - apply cancelTimer_moves.
  - apply retry_moves.
  - by apply quiet.
Qed.

(** What every move keeps holds in every run. *)
Lemma auth_run_keeps (I : Auth -> Prop) (HI : forall w w', Move w w' -> I w -> I w') es :
  forall w, I w -> I (run toLower hmac w es).
Proof.
  induction es as [|ev es IH]; intros w Hw; [done|]. apply IH. pose proof (auth_step_moves w ev) as H.
  revert Hw. induction H as [|? ? ? H1 _ IH1]; eauto.
Qed.
End Controller.
