(* ===== verification/VpnAuthLog.v ===== *)
(** * What the sign-in controller may do

    [recoveryAllowed] and [answerAllowed] say of each act what must have come before
    it in the log: how often and when credentials are retried, who may renew that
    budget, which challenges are shown and which codes are sent. Both hold of every
    act of every run, whatever the core, the network and the user do. *)

From Stdlib Require Import Ascii String.
From S2P Require Import Prelude QtText Logs OtpBase32 OtpWire Otp VpnAuth VpnAuthReply VpnAuthMoves.

Local Open Scope Z_scope.
#[local] Set Warnings "-register-all".

(** ** The law of recoveries *)

Definition isCleared (a : Act) : bool := match a with OverridesCleared => true | _ => false end.
Definition restartOf (p : Z) (a : Act) : bool := match a with AutoRestart q _ => q =? p | _ => false end.
Definition promptOf (p : Z) (a : Act) : bool := match a with CredentialsRejected q _ _ => q =? p | _ => false end.

(** The time of the last automatic restart, 0 when there was none. *)
Definition lastRestart (l : list Act) : Z :=
  fold_left (fun t a => match a with AutoRestart _ now => now | _ => t end) l 0.

(** The run whose stop belongs to a restart that the controller asked for. *)
Definition awaited (l : list Act) : Z :=
  fold_left (fun r a => match a with
    | Start i => i
    | RunStopped _ _ => -1
    | StartRefused i => if i =? r then -1 else r
    | _ => r end) l (-1).

Definition recoveryAllowed (before : list Act) (a : Act) : Prop :=
  match a with
  | AutoRestart p now =>
      times (restartOf p) (since isCleared before) < kMaxAutoRestarts /\
      lastRestart (since isCleared before) + kAutoRestartCooldownSecs <= now
  | CredentialsRejected p _ _ => times (promptOf p) (since isCleared before) < kMaxCredentialPrompts
  | Start _ => exists l b, before = l ++ [b] /\ match b with AutoRestart _ _ | Retry _ => True | _ => False end
  | OverridesCleared => exists l i, before = l ++ [RunStopped i true] /\ awaited l <> i
  | _ => True
  end.

(** The budgets are those of the log. *)
Record Budgets (w : Auth) : Prop := {
  restarts_counted p : spentRestarts w p = times (restartOf p) (since isCleared (acts w));
  prompts_counted p : spentPrompts w p = times (promptOf p) (since isCleared (acts w));
  restart_noted : m_vpnAutoRestartAt w = lastRestart (since isCleared (acts w));
  restart_awaited : m_vpnAuthRestartID w = awaited (acts w);
  acts_lawful : lawful recoveryAllowed (acts w) }.

Lemma lastRestart_snoc l a : lastRestart (l ++ [a]) = match a with AutoRestart _ now => now | _ => lastRestart l end.
Proof. unfold lastRestart. by rewrite fold_left_app. Qed.
Lemma awaited_snoc l a : awaited (l ++ [a]) =
  match a with Start i => i | RunStopped _ _ => -1 | StartRefused i => if i =? awaited l then -1 else awaited l | _ => awaited l end.
Proof. unfold awaited. rewrite fold_left_app. by destruct a. Qed.

Create Rewrite HintDb authlog.
#[local] Hint Rewrite (@since_snoc Act) (@times_snoc Act) lastRestart_snoc awaited_snoc : authlog.

(** An act that spends nothing, renews nothing and starts nothing. *)
Definition idle (a : Act) : bool :=
  match a with
  | RunStopped _ _ | StartRefused _ | OverridesCleared | AutoRestart _ _ | CredentialsRejected _ _ _ | Start _ => false
  | _ => true
  end.

Lemma idle_act a w : idle a = true -> Budgets w -> Budgets (act a w).
Proof.
  intros Ha [H1 H2 H3 H4 H5]. destruct a; try done; (split; cbn [act set_acts acts]; intros;
    autorewrite with authlog; cbn [isCleared restartOf promptOf]; autorewrite with authlog; cbn [restartOf promptOf];
    rewrite ?Z.add_0_r; [apply H1 | apply H2 | exact H3 | exact H4 | apply lawful_snoc; [exact H5 | exact I]]).
Qed.

Lemma tracked_budgets w w' : tracked w' = tracked w -> Budgets w -> Budgets w'.
Proof.
  intros E [H1 H2 H3 H4 H5]. unfold tracked in E. injection E as E1 E2 E3 E4 E5 _ _ _.
  split; unfold spentRestarts, spentPrompts in *; rewrite ?E1, ?E2, ?E3, ?E4, ?E5; done.
Qed.

(** The next act of the log and the fields it changes, checked one by one. *)
Ltac budget_act :=
  split; intros; unfold spentRestarts, spentPrompts; field_cbn;
  autorewrite with authlog; cbn [isCleared restartOf promptOf]; autorewrite with authlog;
  cbn [restartOf promptOf]; rewrite ?Z.add_0_r;
  try first [eassumption | done | match goal with H : forall _ : Z, _ = _ |- _ => apply H end].

Lemma spent_insert (m : gmap Z Z) p q n : default 0 (<[p := n]> m !! q) = if p =? q then n else default 0 (m !! q).
Proof. destruct (Z.eqb_spec p q) as [->|]; [by rewrite lookup_insert_eq | by rewrite lookup_insert_ne]. Qed.

Lemma stopped_budgets i manual w : Budgets w -> Budgets (set_m_vpnAuthRestartID (-1) (act (RunStopped i manual) w)).
Proof. intros [H1 H2 H3 H4 H5]. budget_act. by apply lawful_snoc. Qed.

Lemma clear_acts w : acts (clearCredentialOverrides w) = acts w ++ [OverridesCleared] /\
  m_vpnAutoRestarts (clearCredentialOverrides w) = ∅ /\ m_vpnAuthPrompted (clearCredentialOverrides w) = ∅ /\
  m_vpnAutoRestartAt (clearCredentialOverrides w) = 0 /\ m_vpnAuthRestartID (clearCredentialOverrides w) = m_vpnAuthRestartID w /\
  (m_vpnChallengeSeen (clearCredentialOverrides w), m_vpnOtpLastCode (clearCredentialOverrides w), m_vpnOtpRejects (clearCredentialOverrides w))
    = (m_vpnChallengeSeen w, m_vpnOtpLastCode w, m_vpnOtpRejects w).
Proof.
  unfold clearCredentialOverrides. set (ids := map fst _). clearbody ids.
  assert (H : forall w, tracked (fold_left ClearVpnCredentialOverride ids w) = tracked w).
  { induction ids as [|i ids IH]; intros v; cbn [fold_left]; [done|]. by rewrite IH. }
  specialize (H w). set (v := fold_left _ ids w) in *. clearbody v. unfold tracked in H. injection H as H1 _ _ _ H2 H3 H4 H5.
  cbn [act set_acts acts]. field_cbn. cbn. by rewrite H1, H2, H3, H4, H5.
Qed.

Lemma userStopped_budgets i w : m_vpnAuthRestartID w <> i -> Budgets w ->
  Budgets (clearCredentialOverrides (set_m_vpnAuthRestartID (-1) (act (RunStopped i true) w))).
Proof.
  intros Hi Hw. pose proof (stopped_budgets i true w Hw) as [_ _ _ H4 H5].
  set (w1 := set_m_vpnAuthRestartID _ _) in *. pose proof (clear_acts w1) as (Ea & Er & Ep & Et & Ei & _).
  split; intros; unfold spentRestarts, spentPrompts; rewrite ?Ea, ?Er, ?Ep, ?Et, ?Ei, ?since_snoc; cbn [isCleared]; try done.
  - rewrite awaited_snoc. done.
  - apply lawful_snoc; [done|]. exists (acts w), i. split; [done|]. by rewrite <- (restart_awaited w Hw).
Qed.

Lemma refused_budgets i w : Budgets w -> Budgets (noteStartRefused i w).
Proof.
  intros [H1 H2 H3 H4 H5]. unfold noteStartRefused. set (w1 := act _ w).
  assert (Hr : m_vpnAuthRestartID w1 = m_vpnAuthRestartID w) by done. cbn zeta. rewrite Hr. subst w1.
  destruct (i =? m_vpnAuthRestartID w) eqn:E; budget_act; rewrite ?H4 in E; rewrite ?E; done || by apply lawful_snoc.
Qed.

Lemma restart_budgets p r now w : spentRestarts w p < kMaxAutoRestarts -> m_vpnAutoRestartAt w + kAutoRestartCooldownSecs <= now ->
  Budgets w -> Budgets (act (Start r) (set_m_vpnAuthRestartID r (act (AutoRestart p now)
    (set_m_vpnAutoRestartAt now (set_m_vpnAutoRestarts (<[p := spentRestarts w p + 1]> (m_vpnAutoRestarts w)) w))))).
Proof.
  intros Hs Ht [H1 H2 H3 H4 H5]. budget_act.
  - rewrite spent_insert, <- H1. destruct (Z.eqb_spec p p0) as [->|]; unfold spentRestarts; lia.
  - apply lawful_snoc; [apply lawful_snoc; [exact H5|]|]; cbn [recoveryAllowed].
    + by rewrite <- H1, <- H3.
    + by eexists _, _.
Qed.

Lemma rejected_budgets p r c w : spentPrompts w p < kMaxCredentialPrompts -> Budgets w ->
  Budgets (act (CredentialsRejected p r c) (set_m_vpnAuthPrompted (<[p := spentPrompts w p + 1]> (m_vpnAuthPrompted w)) w)).
Proof.
  intros Hs [H1 H2 H3 H4 H5]. budget_act.
  - rewrite spent_insert, <- H2. destruct (Z.eqb_spec p p0) as [->|]; unfold spentPrompts; lia.
  - apply lawful_snoc; [exact H5|]. cbn [recoveryAllowed]. by rewrite <- H2.
Qed.

Lemma retry_budgets p r w : Budgets w -> Budgets (act (Start r) (set_m_vpnAuthRestartID r (act (Retry p) w))).
Proof.
  intros [H1 H2 H3 H4 H5]. budget_act.
  apply lawful_snoc; [by apply lawful_snoc|]. by eexists _, _.
Qed.

Lemma move_budgets toLower hmac w w' : Move toLower hmac w w' -> Budgets w -> Budgets w'.
Proof.
  intros [w0 w1 E|a w0 Ha|w0|i w0|i w0 E|i w0 E|i w0|t w0|c w0 _ _|x w0 _|key w0|p r now w0 Hs Ht|p r c w0 Hs|p r w0] Hw.
  - by eapply tracked_budgets.
  - apply idle_act; [by destruct a | done].
  - apply idle_act; [done|]. by destruct Hw.
  - by apply stopped_budgets.
  - by apply stopped_budgets.
  - by apply userStopped_budgets.
  - by apply refused_budgets.
  - apply idle_act; [done|]. by destruct Hw.
  - apply idle_act; [done|]. by destruct Hw.
  - apply idle_act; [done|]. unfold answered. by case_match; destruct Hw.
  - by destruct Hw.
  - by apply restart_budgets.
  - by apply rejected_budgets.
  - by apply retry_budgets.
Qed.

Lemma new_budgets otp : Budgets (newAuth otp).
Proof. split; [done..|]. apply lawful_nil. Qed.

(** C21: Whatever the core, the servers and the user do, a profile whose credentials are
    refused is restarted at most three times and asked about at most three times, with at
    least 20 seconds between automatic restarts; the controller starts a profile only
    so or with credentials that the user entered; and this budget is renewed only when a
    run is stopped by hand, never by the stop inside a restart that the controller asked
    for. *)
Theorem recovery_bounded toLower hmac otp es :
  lawful recoveryAllowed (acts (run toLower hmac (newAuth otp) es)).
Proof. apply acts_lawful, auth_run_keeps; [apply move_budgets | apply new_budgets]. Qed.

(** ** The law of answers *)

Definition isReset (a : Act) : bool := match a with Reset => true | _ => false end.
Definition renews (t : qstring) (a : Act) : bool :=
  match a with Reset => true | Connected u => bool_decide (u = t) | _ => false end.
Definition refusedAnswer (t : qstring) (a : Act) : bool :=
  match a with Submit x => negb (isEmpty (error (answerTo x))) && bool_decide (endpointTag (answerTo x) = t) | _ => false end.
Definition shownAs (key : qstring) (a : Act) : bool :=
  match a with ShowChallenge c => bool_decide (challengeKey (endpointTag c) (id c) = key) | _ => false end.

(** The code of the last automatic answer for an endpoint. *)
Definition codeSent (t : qstring) (l : list Act) : qstring :=
  fold_left (fun code a => match a with Submit x => if bool_decide (endpointTag (answerTo x) = t) then answerCode x else code | _ => code end) l [].

(** Whether two readings of the clock fall in one step of the time of an entry. *)
Definition oneStep (p : OtpEntry) (s t : Z) : bool := Z.quot s (period p) =? Z.quot t (period p).

Section Answers.
Context (toLower : qstring -> qstring) (hmac : bytes -> bytes -> HashAlgorithm -> bytes).

(** After a refusal: the code of time at the first reading is not the one refused, so the
    code sent is not, when the clock is still in that step at the second reading. *)
Definition anotherCode (x : AutoAnswer) (refused : qstring) : Prop :=
  forall p, answerOtp x = Some p -> type p = TOTP ->
    CurrentCode hmac (checkedAt_s x) p <> refused /\
    (oneStep p (checkedAt_s x) (mintedAt_s x) = true -> answerCode x <> refused).

Definition answerAllowed (before : list Act) (a : Act) : Prop :=
  match a with
  | ShowChallenge c => id c <> [] /\ times (shownAs (challengeKey (endpointTag c) (id c))) (since isReset before) = 0
  | Submit x =>
      let t := endpointTag (answerTo x) in
      proper toLower hmac x /\
      (error (answerTo x) <> [] ->
         times (refusedAnswer t) (since (renews t) before) < kMaxOtpRejects /\
         anotherCode x (codeSent t (since isReset before)))
  | _ => True
  end.

Record Answers (w : Auth) : Prop := {
  refusals_counted t : refusals w t = times (refusedAnswer t) (since (renews t) (acts w));
  codes_noted t : lastCode w t = codeSent t (since isReset (acts w));
  shown_seen key : key ∉ m_vpnChallengeSeen w -> times (shownAs key) (since isReset (acts w)) = 0;
  answers_lawful : lawful answerAllowed (acts w) }.

Lemma codeSent_snoc t l a : codeSent t (l ++ [a]) =
  match a with Submit x => if bool_decide (endpointTag (answerTo x) = t) then answerCode x else codeSent t l | _ => codeSent t l end.
Proof. unfold codeSent. rewrite fold_left_app. by destruct a. Qed.
#[local] Hint Rewrite codeSent_snoc : authlog.

(** An act that is no answer, shows nothing and renews nothing. *)
Definition silent (a : Act) : bool :=
  match a with Reset | Connected _ | Submit _ | ShowChallenge _ => false | _ => true end.

Lemma silent_acts w w' l : acts w' = acts w ++ l -> Forall (fun a => silent a = true) l ->
  (m_vpnChallengeSeen w', m_vpnOtpLastCode w', m_vpnOtpRejects w') = (m_vpnChallengeSeen w, m_vpnOtpLastCode w, m_vpnOtpRejects w) ->
  Answers w -> Answers w'.
Proof.
  intros El Hl E [H1 H2 H3 H4]. injection E as E1 E2 E3. unfold refusals, lastCode in *.
  assert (HA : (forall t, times (refusedAnswer t) (since (renews t) (acts w')) = times (refusedAnswer t) (since (renews t) (acts w)))
     /\ (forall t, codeSent t (since isReset (acts w')) = codeSent t (since isReset (acts w)))
     /\ (forall key, times (shownAs key) (since isReset (acts w')) = times (shownAs key) (since isReset (acts w)))
     /\ lawful answerAllowed (acts w')).
  { rewrite El. clear El. induction l as [|a l IH] using rev_ind; [by rewrite app_nil_r|].
    apply Forall_app in Hl as [Hl Ha]. apply Forall_cons_1 in Ha as [Ha _]. specialize (IH Hl) as (I1 & I2 & I3 & I4). rewrite app_assoc.
    destruct a; try done; (split_and!; [intros..|by apply lawful_snoc]; autorewrite with authlog; cbn [renews isReset];
      autorewrite with authlog; cbn [refusedAnswer shownAs]; rewrite ?Z.add_0_r; auto). }
  destruct HA as (A1 & A2 & A3 & A4).
  split; intros; unfold refusals, lastCode; rewrite ?E2, ?E3, ?A1, ?A2, ?A3; auto. apply H3. by rewrite <- E1.
Qed.

Lemma tracked_answers w w' : tracked w' = tracked w -> Answers w -> Answers w'.
Proof.
  unfold tracked. intros E. injection E as E1 _ _ _ _ E5 E6 E7. apply (silent_acts w w' []); [by rewrite app_nil_r, E1 | done | by rewrite E5, E6, E7].
Qed.

Ltac answer_act :=
  split; intros; unfold refusals, lastCode; field_cbn; autorewrite with authlog; cbn [renews isReset];
  autorewrite with authlog; cbn [refusedAnswer shownAs]; rewrite ?Z.add_0_r;
  try first [done | match goal with H : forall _ : qstring, _ |- _ => by apply H end].

Lemma reset_answers w : Answers w -> Answers (act Reset (forgetRun w)).
Proof.
  intros [H1 H2 H3 H4]. unfold forgetRun. answer_act. by apply lawful_snoc.
Qed.

Lemma connected_answers t w : Answers w -> Answers (act (Connected t) (set_m_vpnOtpRejects (delete t (m_vpnOtpRejects w)) w)).
Proof.
  intros [H1 H2 H3 H4]. answer_act.
  - case_bool_decide as E; [subst; by rewrite lookup_delete_eq|]. rewrite lookup_delete_ne by done.
    rewrite times_snoc. cbn [refusedAnswer]. rewrite Z.add_0_r. apply H1.
  - by apply lawful_snoc.
Qed.

Lemma seen_answers key w : Answers w -> Answers (set_m_vpnChallengeSeen ({[key]} ∪ m_vpnChallengeSeen w) w).
Proof. intros [H1 H2 H3 H4]. split; auto. intros k Hk. apply H3. revert Hk. field_cbn. set_solver. Qed.

Lemma shown_answers c w : challengeKey (endpointTag c) (id c) ∉ m_vpnChallengeSeen w -> id c <> [] -> Answers w ->
  Answers (act (ShowChallenge c) (set_m_vpnChallengeSeen ({[challengeKey (endpointTag c) (id c)]} ∪ m_vpnChallengeSeen w) w)).
Proof.
  intros Hk Hi [H1 H2 H3 H4]. answer_act.
  - revert H. field_cbn. intros H. rewrite bool_decide_false by set_solver. rewrite H3 by set_solver. done.
  - apply lawful_snoc; [done|]. split; [done | by apply H3].
Qed.

Lemma default_insert {A} (d : A) (m : gmap qstring A) t u n :
  default d (<[t := n]> m !! u) = if bool_decide (t = u) then n else default d (m !! u).
Proof. case_bool_decide; [subst; by rewrite lookup_insert_eq | by rewrite lookup_insert_ne]. Qed.

(** Within one step of time the same code is generated. *)
Lemma code_in_step p s t : type p = TOTP -> oneStep p s t = true -> GenerateCode hmac s p (-1) = GenerateCode hmac t p (-1).
Proof. intros Hp E%Z.eqb_eq. unfold GenerateCode, unixNow. rewrite Hp. cbn [Z.ltb Z.compare]. by rewrite E. Qed.

Lemma submit_allowed x w : mayAnswer toLower hmac w x -> Answers w -> answerAllowed (acts w) (Submit x).
Proof.
  intros [Hx Hm] [H1 H2 _ _]. split; [done|]. intros He. destruct (Hm He) as [Hn Hf]. rewrite <- H1, <- H2. split; [done|].
  intros p Hp Ht. pose proof (Hf p Hp Ht) as Hne. split; [done|]. intros Hs Hc. apply Hne. rewrite <- Hc.
  destruct Hx as (_ & _ & (q & Hq & _ & Hg) & _). rewrite Hp in Hq. injection Hq as <-.
  unfold CurrentCode. by rewrite (code_in_step p _ _ Ht Hs), Hg.
Qed.

Lemma submitted_answers x w : mayAnswer toLower hmac w x -> Answers w -> Answers (act (Submit x) (answered x w)).
Proof.
  intros Hm Hw. pose proof (submit_allowed x w Hm Hw) as Ha. destruct Hw as [H1 H2 H3 H4].
  unfold answered, refusals in *. unfold lastCode in *. cbn zeta.
  destruct (isEmpty (error (answerTo x))) eqn:He; answer_act; rewrite ?He, ?default_insert, ?H1, ?H2; cbn [negb andb];
    try by apply lawful_snoc; rewrite ?Z.add_0_r.
  all: try (case_bool_decide; [subst|]); rewrite ?H1, ?H2, ?Z.add_0_r; try done.
Qed.

Lemma move_answers w w' : Move toLower hmac w w' -> Answers w -> Answers w'.
Proof.
  intros [w0 w1 E|a w0 Ha|w0|i w0|i w0 E|i w0 E|i w0|t w0|c w0 Hk Hi|x w0 Hm|key w0|p r now w0 Hs Ht|p r c w0 Hs|p r w0].
  - by apply tracked_answers.
  - apply (silent_acts _ _ [a]); [done | by destruct a; repeat constructor | done].
  - apply reset_answers.
  - by apply (silent_acts _ _ [RunStopped i false]); repeat constructor.
  - by apply (silent_acts _ _ [RunStopped i true]); repeat constructor.
  - pose proof (clear_acts (set_m_vpnAuthRestartID (-1) (act (RunStopped i true) w0))) as (Ea & _ & _ & _ & _ & Et).
    apply (silent_acts _ _ [RunStopped i true; OverridesCleared]); [by rewrite Ea; field_cbn; rewrite <- app_assoc | by repeat constructor | done].
  - unfold noteStartRefused. cbn zeta. apply (silent_acts _ _ [StartRefused i]); [by case_match | by repeat constructor | by case_match].
  - apply connected_answers.
  - by apply shown_answers.
  - by apply submitted_answers.
  - apply seen_answers.
  - apply (silent_acts _ _ [AutoRestart p now; Start r]); [by field_cbn; rewrite <- app_assoc | by repeat constructor | done].
  - by apply (silent_acts _ _ [CredentialsRejected p r c]); repeat constructor.
  - apply (silent_acts _ _ [Retry p; Start r]); [by field_cbn; rewrite <- app_assoc | by repeat constructor | done].
Qed.

Lemma new_answers otp : Answers (newAuth otp).
Proof. split; [done..|]. apply lawful_nil. Qed.
End Answers.

(** C22: A challenge is shown to a person at most once in a run of the profile. An
    automatic answer is the reply to its challenge, made with the code that a valid entry
    had when it was minted: the code itself and the stored credentials with the code in
    their places for OpenVPN; for a form of OpenConnect, under every key what is stored
    for the field, or the password, the code, the user or the preset value, and nothing
    else, so a form that asks for no password and has no place for the code goes without
    it. After a refusal at most three answers are sent until the endpoint connects, and
    only once the code of time differs from the refused one; the code that is sent is
    minted at a later reading of the clock, and differs if that is in the same step. *)
Theorem answers_allowed toLower hmac otp es :
  lawful (answerAllowed toLower hmac) (acts (run toLower hmac (newAuth otp) es)).
Proof. apply answers_lawful, auth_run_keeps; [apply move_answers | apply new_answers]. Qed.

(** ** Two courses of events *)

Module AuthSample.
Definition hotpEntry : OtpEntry := MkEntry (qs "work") [] (qs "GEZDGNBVGY3TQOJQ") SHA1 HOTP 6 30 7.
Definition gate : VpnProfile := MkProfile (qs "Gate") (OpenConnect 1 (qs "ann") (qs "{otp}") false []).
Definition env (s : Z) : Env :=
  MkEnv (s * 1000) (s * 1000) (s * 1000) (Some 5) (fun i => if i =? 5 then Some gate else None) false None false.
Definition refused : VpnStatus := MkStatus (MkEndpointState (qs "proxy") (qs "error") (qs "denied") false true) None.
(** A form with a field that nothing stored answers. *)
Definition form : VpnAuthChallenge :=
  MkChallenge [] (qs "c1") (qs "form") [] [] [] 0 [MkField (qs "pin") (qs "PIN") [] (qs "text") []].
Definition asking : VpnStatus := MkStatus (MkEndpointState (qs "proxy") (qs "auth-pending") [] false false) (Some form).

Definition polled (s : Z) (r : VpnStatus) : list Event :=
  [ETick 5; EPolled (env s) (fun _ => env s) (fun _ => env s) [r]].
Definition restarted : list Event := [EStopped 5 true; EBuilt {[qs "proxy" := 5]}; EStarted].
Definition begin : list Event := [EBuilt {[qs "proxy" := 5]}; EStarted].
Definition after (es : list Event) : Auth := run (fun s => s) toyMac (newAuth {[1 := hotpEntry]}) es.

Definition recoveries (w : Auth) : list Act :=
  List.filter (fun a => match a with AutoRestart _ _ | CredentialsRejected _ _ _ | OverridesCleared => true | _ => false end) (acts w).

(** Refused on and on: three restarts, twenty seconds apart, then one question. *)
Example refused_for_good :
  recoveries (after (begin ++ polled 100 refused ++ restarted ++ polled 110 refused ++ polled 120 refused ++ restarted
                       ++ polled 140 refused ++ restarted ++ polled 160 refused ++ polled 180 refused)) =
  [AutoRestart 5 100; AutoRestart 5 120; AutoRestart 5 140;
   CredentialsRejected 5 5 (credentialsChallenge (qs "proxy") (qs "ann") (qs "denied"))].
Proof. vm_compute. reflexivity. Qed.

(** A form that cannot be answered spends a counter at every poll and sends nothing. *)
Example counter_spent_unsent :
  let w := after (begin ++ polled 100 asking ++ polled 102 asking) in
  counter <$> otpProfiles w !! 1 = Some 9 /\
  existsb (fun a => match a with Submit _ => true | _ => false end) (acts w) = false.
Proof. vm_compute. split; reflexivity. Qed.

(** The codes sent, each with the values of the form. *)
Definition sent (w : Auth) : list (qstring * list (qstring * qstring)) :=
  omap (fun a => match a with Submit x => Some (answerCode x, map_to_list (formValues (answerReply x))) | _ => None end) (acts w).
Definition askingFor (field err : string) : VpnStatus :=
  MkStatus (MkEndpointState (qs "proxy") (qs "auth-pending") [] false false)
    (Some (MkChallenge [] (qs "c1") (qs "form") [] [] (qs err) 0 [MkField (qs "f") (qs field) [] (qs (if String.eqb field "user" then "text" else "password")) []])).

(** A form that only asks for the user spends a code and is answered without it. *)
Example user_form_without_code :
  map snd (sent (after (begin ++ polled 100 (askingFor "user" "")))) = [[(qs "f", qs "ann")]] /\
  counter <$> otpProfiles (after (begin ++ polled 100 (askingFor "user" ""))) !! 1 = Some 8.
Proof. vm_compute. split; reflexivity. Qed.

(** A refused code of time: within its step nothing is sent, and then the next one. *)
Definition totpEntry : OtpEntry := MkEntry (qs "work") [] (qs "GEZDGNBVGY3TQOJQ") SHA1 TOTP 6 30 0.
Definition mac (message key : bytes) : HashAlgorithm -> bytes := toyMac key message.
Definition timed (es : list Event) : Auth := run (fun s => s) mac (newAuth {[1 := totpEntry]}) es.
Definition wrong : VpnStatus := askingFor "token" "wrong".
Example next_code_sent :
  let w := timed (begin ++ polled 95 (askingFor "token" "") ++ [ESubmitDone (qs "proxy")] ++ polled 110 wrong ++ polled 125 wrong) in
  map snd (sent w) = map (fun c => [(qs "f", c)]) [CurrentCode mac 95 totpEntry; CurrentCode mac 125 totpEntry].
Proof. vm_compute. reflexivity. Qed.

(** The clock is read again when the code is minted: set back in between, the refused
    code is sent once more. *)
Example clock_set_back :
  let back := MkEnv 125000 110000 110000 (Some 5) (fun i => if i =? 5 then Some gate else None) false None false in
  let w := timed (begin ++ polled 95 (askingFor "token" "") ++ [ESubmitDone (qs "proxy")]
                    ++ [ETick 5; EPolled (env 125) (fun _ => back) (fun _ => env 125) [wrong]]) in
  map fst (sent w) = [CurrentCode mac 95 totpEntry; CurrentCode mac 95 totpEntry].
Proof. vm_compute. reflexivity. Qed.
End AuthSample.
