(* ===== verification/TrafficLedger.v ===== *)
(** * Traffic statistics (src/src/stats/traffic/TrafficStatsManager.cpp and
    src/src/database/TrafficStatsRepo.cpp)

    Deltas are summed per minute in memory, added to a table of minutes when the
    minute is over or on demand, and moved to a table of hours when they are two
    days old. [Ledger] is one such way, for profiles and for applications alike: an
    accumulator, the rows a thread took out of it and has not written yet, and the
    two tables, each a list of rows. [Stats] is the manager with both ledgers; a
    list of events is any interleaving of its callers, the writes and the rollup.
    Writes are taken to succeed: a failing one is reported and its rows are lost. *)

From Stdlib Require Import Ascii String.
From S2P Require Import Prelude QtText.

Local Open Scope Z_scope.
#[local] Set Warnings "-register-all".

Definition kMinuteWindowSecs : Z := 48 * 3600.
Definition DIRECT_STAT_PROFILE_ID : Z := -101.

(** Integer division of C++ and of SQLite. *)
Definition alignMinute (secs : Z) : Z := Z.quot secs 60 * 60.
Definition alignHour (bucket : Z) : Z := Z.quot bucket 3600 * 3600.

(** ** Deltas and rows *)

Record Delta := MkDelta { up : Z; down : Z }.
#[export] Instance Delta_eq_dec : EqDecision Delta.
Proof. solve_decision. Defined.
Definition dzero : Delta := MkDelta 0 0.
Definition dadd (x y : Delta) : Delta := MkDelta (up x + up y) (down x + down y).
Definition isZero (x : Delta) : bool := (up x =? 0) && (down x =? 0).

Lemma dadd_comm x y : dadd x y = dadd y x.
Proof. unfold dadd. f_equal; lia. Qed.
Lemma dadd_assoc x y z : dadd x (dadd y z) = dadd (dadd x y) z.
Proof. unfold dadd. cbn. f_equal; lia. Qed.
Lemma dadd_zero_l x : dadd dzero x = x.
Proof. by destruct x. Qed.
Lemma dadd_zero_r x : dadd x dzero = x.
Proof. destruct x. unfold dadd. cbn. f_equal; lia. Qed.
Lemma dadd_swap x y z : dadd x (dadd y z) = dadd y (dadd x z).
Proof. by rewrite !dadd_assoc, (dadd_comm x y). Qed.
Lemma isZero_spec x : isZero x = true -> x = dzero.
Proof. destruct x. unfold isZero. cbn. intros H. bprop. by destruct H as [-> ->]. Qed.

Section Ledger.
Context {K : Type} `{Countable K}.

Record Row := MkRow { bucket_start : Z; key : K; amount : Delta }.

(** INSERT ... ON CONFLICT(bucket_start, key) DO UPDATE, which adds. *)
Fixpoint upsert (r : Row) (t : list Row) : list Row :=
  match t with
  | [] => [r]
  | x :: t' =>
      if (bucket_start x =? bucket_start r) && bool_decide (key x = key r)
      then MkRow (bucket_start x) (key x) (dadd (amount x) (amount r)) :: t'
      else x :: upsert r t'
  end.

Definition UpsertMinuteBatch (rows t : list Row) : list Row := fold_left (fun t r => upsert r t) rows t.

Record Ledger := MkLedger { accum : gmap K Delta; pending : list (list Row); minute : list Row; hour : list Row }.

Definition newLedger : Ledger := MkLedger ∅ [] [] [].

(** ** Adding and draining *)

Definition addDelta (k : K) (d : Delta) (L : Ledger) : Ledger :=
  MkLedger (<[k := dadd (default dzero (accum L !! k)) d]> (accum L)) (pending L) (minute L) (hour L).

(** The rows of the bucket; entries that sum to nothing are left out. *)
Definition drainedRows (bucket : Z) (L : Ledger) : list Row :=
  omap (fun e => if isZero e.2 then None else Some (MkRow bucket e.1 e.2)) (map_to_list (accum L)).

Definition drainLocked (bucket : Z) (L : Ledger) : Ledger :=
  MkLedger ∅ (match drainedRows bucket L with [] => pending L | rows => pending L ++ [rows] end) (minute L) (hour L).

(** A thread writes what it took. *)
Definition writeRows (n : nat) (L : Ledger) : Ledger :=
  match pending L !! n with
  | Some rows => MkLedger (accum L) (delete n (pending L)) (UpsertMinuteBatch rows (minute L)) (hour L)
  | None => L
  end.

(** ** The tiers *)

(** SELECT hour, key, SUM(...) GROUP BY hour, key: the groups of a list of rows. *)
Definition hourOf (r : Row) : Row := MkRow (alignHour (bucket_start r)) (key r) (amount r).
Definition grouped (rows : list Row) : list Row := UpsertMinuteBatch (map hourOf rows) [].

Definition RollupMinuteToHour (olderThanSecs : Z) (L : Ledger) : Ledger :=
  let old := List.filter (fun r => bucket_start r <? olderThanSecs) (minute L) in
  MkLedger (accum L) (pending L) (List.filter (fun r => negb (bucket_start r <? olderThanSecs)) (minute L))
    (UpsertMinuteBatch (grouped old) (hour L)).

Definition PruneHour (olderThanSecs : Z) (L : Ledger) : Ledger :=
  MkLedger (accum L) (pending L) (minute L) (List.filter (fun r => negb (bucket_start r <? olderThanSecs)) (hour L)).

(** What a query over [fromSecs, toSecs) sums for a key, in both tiers. *)
Definition within (fromSecs toSecs b : Z) : bool := (fromSecs <=? b) && (b <? toSecs).
Definition total (w : Z -> bool) (k : K) (t : list Row) : Delta :=
  fold_right (fun r s => if w (bucket_start r) && bool_decide (key r = k) then dadd (amount r) s else s) dzero t.
Definition QueryUsage (fromSecs toSecs : Z) (k : K) (L : Ledger) : Delta :=
  dadd (total (within fromSecs toSecs) k (minute L)) (total (within fromSecs toSecs) k (hour L)).

(** ** What the operations do to the sums *)

Definition held (k : K) (L : Ledger) : Delta := default dzero (accum L !! k).
Definition unwritten (w : Z -> bool) (k : K) (L : Ledger) : Delta := total w k (concat (pending L)).
(** Everything that was recorded for [k] in the window, when [bucket] is the minute held. *)
Definition account (w : Z -> bool) (k : K) (bucket : Z) (L : Ledger) : Delta :=
  dadd (dadd (total w k (minute L)) (total w k (hour L)))
    (dadd (unwritten w k L) (if w bucket then held k L else dzero)).

Lemma total_app w k s t : total w k (s ++ t) = dadd (total w k s) (total w k t).
Proof.
  induction s as [|r s IH]; cbn [total fold_right app]; [by rewrite dadd_zero_l|].
  fold (total w k). unfold total in IH. rewrite IH. destruct (_ && _); [|done]. by rewrite dadd_assoc.
Qed.
Lemma total_cons w k r t : total w k (r :: t) = dadd (if w (bucket_start r) && bool_decide (key r = k) then amount r else dzero) (total w k t).
Proof. cbn [total fold_right]. case_match; [done | by rewrite dadd_zero_l]. Qed.
Lemma total_perm w k s t : s ≡ₚ t -> total w k s = total w k t.
Proof.
  induction 1 as [|r s t _ IH|r q s|s t u _ IH1 _ IH2]; [done| | |by rewrite IH1]; rewrite !total_cons; [by rewrite IH|].
  apply dadd_swap.
Qed.

Lemma total_upsert w k r t : total w k (upsert r t) = total w k (r :: t).
Proof.
  induction t as [|x t IH]; [done|]. cbn [upsert]. destruct (_ && _) eqn:E.
  - bprop. destruct E as [E1 E2]. rewrite !total_cons. cbn [bucket_start key amount]. rewrite E1, E2.
    case_match; [by rewrite dadd_assoc, (dadd_comm (amount r)) | by rewrite !dadd_zero_l].
  - rewrite !total_cons, IH, total_cons. apply dadd_swap.
Qed.
Lemma total_batch w k rows : forall t, total w k (UpsertMinuteBatch rows t) = dadd (total w k rows) (total w k t).
Proof.
  induction rows as [|r rows IH]; intros t; [by rewrite dadd_zero_l|]. cbn [UpsertMinuteBatch fold_left].
  fold (UpsertMinuteBatch rows (upsert r t)). rewrite IH, total_upsert, !total_cons. by rewrite dadd_swap, dadd_assoc.
Qed.
Lemma total_split w k p t :
  total w k t = dadd (total w k (List.filter p t)) (total w k (List.filter (fun r => negb (p r)) t)).
Proof.
  induction t as [|r t IH]; [done|]. cbn [List.filter]. destruct (p r); cbn [negb]; rewrite !total_cons, IH;
    [by rewrite dadd_assoc | apply dadd_swap].
Qed.

(** A window that does not cut an hour. *)
Definition wholeHours (w : Z -> bool) : Prop := forall b, w (alignHour b) = w b.

Lemma total_hours w k t : wholeHours w -> total w k (map hourOf t) = total w k t.
Proof. intros Hw. induction t as [|r t IH]; [done|]. cbn [map]. rewrite !total_cons, IH. cbn [hourOf bucket_start key amount]. by rewrite Hw. Qed.

Lemma total_drained w k bucket L : total w k (drainedRows bucket L) = if w bucket then held k L else dzero.
Proof.
  unfold drainedRows, held. assert (Hg : forall l : list (K * Delta), total w k (omap (fun e => if isZero e.2 then None else Some (MkRow bucket e.1 e.2)) l)
    = fold_right (fun e s => dadd (if w bucket && bool_decide (e.1 = k) then e.2 else dzero) s) dzero l).
  { induction l as [|[i d] l IH]; [done|]. cbn [omap list_omap fold_right fst snd]. destruct (isZero d) eqn:Ez.
    - apply isZero_spec in Ez as ->. etrans; [apply IH|]. by destruct (_ && _); rewrite dadd_zero_l.
    - rewrite total_cons. cbn [bucket_start key amount]. f_equal. apply IH. }
  rewrite Hg. clear Hg. induction (accum L) as [|i d m Hi IH] using map_ind.
  - rewrite map_to_list_empty, lookup_empty. cbn. by destruct (w bucket).
  - assert (Hp : forall s t : list (K * Delta), s ≡ₚ t ->
      fold_right (fun e x => dadd (if w bucket && bool_decide (e.1 = k) then e.2 else dzero) x) dzero s =
      fold_right (fun e x => dadd (if w bucket && bool_decide (e.1 = k) then e.2 else dzero) x) dzero t).
    { induction 1; cbn [fold_right]; [done | by f_equal | apply dadd_swap | by etrans]. }
    rewrite (Hp _ _ (map_to_list_insert m i d Hi)). cbn [fold_right fst snd]. rewrite IH.
    destruct (decide (i = k)) as [->|Hn].
    + rewrite lookup_insert_eq, Hi, bool_decide_true by done. destruct (w bucket); cbn [andb from_option id]; [apply dadd_zero_r | done].
    + rewrite lookup_insert_ne, bool_decide_false by done. by rewrite andb_false_r, dadd_zero_l.
Qed.

Lemma account_drain w k bucket next L : account w k next (drainLocked bucket L) = account w k bucket L.
Proof.
  unfold account, unwritten, held at 1. cbn [accum minute hour drainLocked]. rewrite lookup_empty. cbn [from_option].
  f_equal. assert (E : total w k (concat (pending (drainLocked bucket L))) = dadd (total w k (concat (pending L))) (total w k (drainedRows bucket L))).
  { unfold drainLocked. cbn [pending]. destruct (drainedRows bucket L); [by rewrite dadd_zero_r|]. rewrite concat_app, total_app. cbn [concat]. by rewrite app_nil_r. }
  cbn [pending drainLocked] in E |- *. rewrite E, total_drained. destruct (w next); by rewrite dadd_zero_r.
Qed.

Lemma account_add w k bucket i d L :
  account w k bucket (addDelta i d L) = dadd (account w k bucket L) (if w bucket && bool_decide (i = k) then d else dzero).
Proof.
  unfold account, held. cbn [accum minute hour addDelta]. unfold unwritten. cbn [pending].
  destruct (w bucket); cbn [andb]; [|by rewrite !dadd_zero_r]. case_bool_decide as E.
  - subst i. rewrite lookup_insert_eq. cbn [from_option id]. by rewrite !dadd_assoc.
  - rewrite lookup_insert_ne by done. by rewrite !dadd_zero_r.
Qed.

Lemma account_write w k bucket n L : account w k bucket (writeRows n L) = account w k bucket L.
Proof.
  unfold writeRows. destruct (pending L !! n) as [rows|] eqn:Hn; [|done]. unfold account, unwritten, held. cbn [accum pending minute hour].
  rewrite total_batch. apply delete_Permutation in Hn. rewrite (total_perm w k (concat (pending L)) (rows ++ concat (delete n (pending L)))).
  - rewrite total_app. generalize (total w k rows) (total w k (minute L)) (total w k (hour L)) (total w k (concat (delete n (pending L)))).
    intros a b c d. generalize (if w bucket then default dzero (accum L !! k) else dzero). intros e. unfold dadd. cbn. f_equal; lia.
  - change (rows ++ concat (delete n (pending L))) with (concat (rows :: delete n (pending L))).
    induction Hn as [|x l l' _ IH|x y l|l l' l'' _ IH1 _ IH2]; cbn [concat]; [done | by rewrite IH | | by etrans].
    by rewrite !app_assoc, (Permutation_app_comm y x).
Qed.

Lemma account_rollup w k bucket t L : wholeHours w -> account w k bucket (RollupMinuteToHour t L) = account w k bucket L.
Proof.
  intros Hw. unfold account, unwritten, held, RollupMinuteToHour. cbn [accum pending minute hour]. f_equal. unfold grouped.
  rewrite !total_batch, total_hours by done. rewrite (total_split w k (fun r => bucket_start r <? t) (minute L)).
  change (total w k []) with dzero. rewrite dadd_zero_r. set (a := total w k _). set (b := total w k _). generalize (total w k (hour L)).
  intros c. unfold dadd. cbn. f_equal; lia.
Qed.

Lemma account_prune w k bucket t L : (forall b, w b = true -> t <= b) -> account w k bucket (PruneHour t L) = account w k bucket L.
Proof.
  intros Hw. unfold account, unwritten, held, PruneHour. cbn [accum pending minute hour]. f_equal. f_equal.
  induction (hour L) as [|r l IH]; [done|]. cbn [List.filter]. destruct (Z.ltb_spec (bucket_start r) t); cbn [negb]; rewrite !total_cons; [|by rewrite IH].
  destruct (w (bucket_start r)) eqn:E; [specialize (Hw _ E); lia|]. by rewrite dadd_zero_l.
Qed.
End Ledger.
Arguments Row : clear implicits.
Arguments Ledger K {_ _}.
