(* ===== verification/TrafficStats.v ===== *)
(** * The manager of traffic statistics (src/src/stats/traffic/TrafficStatsManager.cpp)

    [Stats] holds the ledgers of profiles and of applications with the minute they
    share. [usage_exact] states what a query returns: over whole hours, and while
    nothing of them was pruned, exactly what was recorded, however callers, writes,
    flushes and rollups interleave. *)

From Stdlib Require Import Ascii String.
From S2P Require Import Prelude QtText TrafficLedger.

Local Open Scope Z_scope.
#[local] Set Warnings "-register-all".

Record ConfigMetaRow := MkConfigMeta {
  profile_id : Z; metaName : qstring; group_name : qstring; type : qstring; server_address : qstring; first_seen : Z; last_seen : Z }.

Record Stats := MkStats {
  configs : Ledger Z;
  apps : Ledger qstring;
  appMetaSeen : gmap qstring qstring;
  currentBucket : Z;
  config_meta : gmap Z ConfigMetaRow;
  app_meta : gmap qstring (qstring * Z * Z) }.

Definition statsEta (s : Stats) : Stats :=
  MkStats (configs s) (apps s) (appMetaSeen s) (currentBucket s) (config_meta s) (app_meta s).
Definition set_configs (v : Ledger Z) (s : Stats) : Stats := ltac:(setter statsEta configs v s).
Definition set_apps (v : Ledger qstring) (s : Stats) : Stats := ltac:(setter statsEta apps v s).
Definition set_appMetaSeen (v : gmap qstring qstring) (s : Stats) : Stats := ltac:(setter statsEta appMetaSeen v s).
Definition set_currentBucket (v : Z) (s : Stats) : Stats := ltac:(setter statsEta currentBucket v s).
Definition set_config_meta (v : gmap Z ConfigMetaRow) (s : Stats) : Stats := ltac:(setter statsEta config_meta v s).
Definition set_app_meta (v : gmap qstring (qstring * Z * Z)) (s : Stats) : Stats := ltac:(setter statsEta app_meta v s).

Definition newStats : Stats := MkStats newLedger newLedger ∅ 0 ∅ ∅.

(** ** Under the lock *)

Definition drain (s : Stats) : Stats :=
  set_apps (drainLocked (currentBucket s) (apps s)) (set_configs (drainLocked (currentBucket s) (configs s)) s).

(** The minute that just ended is taken out before the next one begins. *)
Definition turn (nowBucket : Z) (s : Stats) : Stats :=
  let s := if negb (currentBucket s =? 0) && negb (nowBucket =? currentBucket s) then drain s else s in
  set_currentBucket nowBucket s.

Definition AddConfigDelta (disabled : bool) (nowSecs profileId : Z) (d : Delta) (s : Stats) : Stats :=
  if disabled || isZero d then s
  else let s := turn (alignMinute nowSecs) s in set_configs (addDelta profileId d (configs s)) s.

(** The path is kept and stored when it is new for the process. *)
Definition UpsertAppMeta (processName path : qstring) (nowSecs : Z) (s : Stats) : Stats :=
  set_app_meta (<[processName := match app_meta s !! processName with
                                 | Some (_, first, _) => (path, first, nowSecs)
                                 | None => (path, nowSecs, nowSecs) end]> (app_meta s)) s.

Definition noteAppPath (processName path : qstring) (nowSecs : Z) (s : Stats) : Stats :=
  if isEmpty path || bool_decide (appMetaSeen s !! processName = Some path) then s
  else UpsertAppMeta processName path nowSecs (set_appMetaSeen (<[processName := path]> (appMetaSeen s)) s).

Definition AddAppDelta (disabled : bool) (nowSecs : Z) (processName path : qstring) (d : Delta) (s : Stats) : Stats :=
  if disabled || isEmpty processName || isZero d then s
  else
    let s := turn (alignMinute nowSecs) s in
    let s := set_apps (addDelta processName d (apps s)) s in
    noteAppPath processName path nowSecs s.

Definition Flush (disabled : bool) (s : Stats) : Stats :=
  if disabled || (currentBucket s =? 0) then s else drain s.

(** ** The repository *)

Definition UpsertConfigMeta (m : ConfigMetaRow) (s : Stats) : Stats :=
  let first := match config_meta s !! profile_id m with Some old => first_seen old | None => first_seen m end in
  set_config_meta (<[profile_id m := MkConfigMeta (profile_id m) (metaName m) (group_name m) (type m) (server_address m) first (last_seen m)]>
                     (config_meta s)) s.

Definition SnapshotConfigMeta (disabled : bool) (nowSecs profileId : Z) (n g t a : qstring) (s : Stats) : Stats :=
  if disabled || ((profileId <? 0) && negb (profileId =? DIRECT_STAT_PROFILE_ID)) then s
  else UpsertConfigMeta (MkConfigMeta profileId n g t a nowSecs nowSecs) s.

Definition EnsureDirectMeta (disabled : bool) (nowSecs : Z) (s : Stats) : Stats :=
  SnapshotConfigMeta disabled nowSecs DIRECT_STAT_PROFILE_ID (qs "Direct") [] (qs "direct") [] s.

Definition onLedgers (f : forall K `{Countable K}, Ledger K -> Ledger K) (s : Stats) : Stats :=
  set_apps (f _ (apps s)) (set_configs (f _ (configs s)) s).

Definition rollupBound (nowSecs : Z) : Z := nowSecs - kMinuteWindowSecs.
Definition pruneBound (nowSecs days : Z) : Z := nowSecs - Z.max 1 days * 86400.

Definition runRollupOnce (disabled : bool) (nowSecs days : Z) (s : Stats) : Stats :=
  if disabled then s
  else
    let s := onLedgers (fun _ _ _ => RollupMinuteToHour (rollupBound nowSecs)) s in
    onLedgers (fun _ _ _ => PruneHour (pruneBound nowSecs days)) s.

(** ** Events *)

Inductive Event :=
| EConfigDelta (disabled : bool) (nowSecs profileId : Z) (d : Delta)
| EAppDelta (disabled : bool) (nowSecs : Z) (processName path : qstring) (d : Delta)
| EFlush (disabled : bool)
| EWriteConfigs (n : nat)
| EWriteApps (n : nat)
| ERollup (disabled : bool) (nowSecs days : Z)
| ESnapshot (disabled : bool) (nowSecs profileId : Z) (n g t a : qstring)
| EDirect (disabled : bool) (nowSecs : Z).

Definition step (s : Stats) (e : Event) : Stats :=
  match e with
  | EConfigDelta off now p d => AddConfigDelta off now p d s
  | EAppDelta off now n path d => AddAppDelta off now n path d s
  | EFlush off => Flush off s
  | EWriteConfigs n => set_configs (writeRows n (configs s)) s
  | EWriteApps n => set_apps (writeRows n (apps s)) s
  | ERollup off now days => runRollupOnce off now days s
  | ESnapshot off now p n g t a => SnapshotConfigMeta off now p n g t a s
  | EDirect off now => EnsureDirectMeta off now s
  end.

Definition run (s : Stats) (es : list Event) : Stats := fold_left step es s.

(** ** What was recorded *)

(** The deltas of a profile, or of an application, in a window. *)
Definition recordedOf (w : Z -> bool) (p : Z) (e : Event) : Delta :=
  match e with
  | EConfigDelta false now q d => if w now && (q =? p) then d else dzero
  | _ => dzero
  end.
Definition recordedOfApp (w : Z -> bool) (n : qstring) (e : Event) : Delta :=
  match e with
  | EAppDelta false now m _ d => if w now && negb (isEmpty m) && bool_decide (m = n) then d else dzero
  | _ => dzero
  end.
Definition sumOf (f : Event -> Delta) (es : list Event) : Delta := fold_left (fun x e => dadd x (f e)) es dzero.

(** The clock is past the first minute of 1970; hours that the window covers are kept. *)
Definition fits (from : Z) (e : Event) : Prop :=
  match e with
  | EConfigDelta _ now _ _ | EAppDelta _ now _ _ _ => 60 <= now
  | ERollup false now days => pruneBound now days <= from
  | _ => True
  end.

Lemma align_minute now : 60 <= now -> 60 <= alignMinute now /\ alignMinute now = 60 * (now / 60).
Proof.
  intros Hn. unfold alignMinute. rewrite Z.quot_div_nonneg by lia. split; [|lia].
  assert (1 <= now / 60) by (apply Z.div_le_lower_bound; lia). lia.
Qed.

(** A window of whole hours cuts no hour and no minute. *)
Lemma window_hours a b : 0 < a -> (3600 | a) -> (3600 | b) -> wholeHours (within a b).
Proof.
  intros Ha [c ->] [d ->] x. unfold within, alignHour. apply eq_true_iff_eq. rewrite !andb_true_iff, !Z.leb_le, !Z.ltb_lt.
  destruct (Z.le_gt_cases 0 x).
  - rewrite Z.quot_div_nonneg by lia.
    pose proof (Z.div_mod x 3600 ltac:(lia)). pose proof (Z.mod_pos_bound x 3600 ltac:(lia)). nia.
  - assert (Z.quot x 3600 <= 0) by (apply Z.quot_le_upper_bound; lia). lia.
Qed.
Lemma window_minute a b now : 0 < a -> (3600 | a) -> (3600 | b) -> 60 <= now -> within a b (alignMinute now) = within a b now.
Proof.
  intros Ha [c ->] [d ->] Hn. destruct (align_minute now Hn) as [_ ->]. unfold within.
  pose proof (Z.div_mod now 60 ltac:(lia)). pose proof (Z.mod_pos_bound now 60 ltac:(lia)).
  apply eq_true_iff_eq. rewrite !andb_true_iff, !Z.leb_le, !Z.ltb_lt. nia.
Qed.

(** ** Nothing is lost and nothing is counted twice *)

Record Kept (es : list Event) (from to : Z) (s : Stats) : Prop := {
  configs_kept p : account (within from to) p (currentBucket s) (configs s) = sumOf (recordedOf (within from to) p) es;
  apps_kept n : account (within from to) n (currentBucket s) (apps s) = sumOf (recordedOfApp (within from to) n) es;
  nothing_before : currentBucket s = 0 -> accum (configs s) = ∅ /\ accum (apps s) = ∅ }.

Lemma account_moved {K} `{Countable K} w (k : K) b1 b2 L : accum L = ∅ -> account w k b1 L = account w k b2 L.
Proof. intros E. unfold account, held. rewrite E, lookup_empty. by destruct (w b1), (w b2). Qed.

(** Draining and turning to another minute keep the accounts. *)
Lemma turn_account bucket s : (currentBucket s = 0 -> accum (configs s) = ∅ /\ accum (apps s) = ∅) ->
  (forall w p, account w p bucket (configs (turn bucket s)) = account w p (currentBucket s) (configs s)) /\
  (forall w n, account w n bucket (apps (turn bucket s)) = account w n (currentBucket s) (apps s)).
Proof.
  intros Hz. unfold turn. destruct (Z.eqb_spec (currentBucket s) 0) as [E|E]; cbn [negb andb].
  - destruct (Hz E) as [H1 H2]. split; intros; cbn [configs apps set_currentBucket]; by apply account_moved.
  - destruct (Z.eqb_spec bucket (currentBucket s)) as [->|E']; cbn [negb]; [done|].
    split; intros; unfold drain; cbn [configs apps set_currentBucket set_apps set_configs]; apply account_drain.
Qed.

Lemma sumOf_snoc f es e : sumOf f (es ++ [e]) = dadd (sumOf f es) (f e).
Proof. unfold sumOf. by rewrite fold_left_app. Qed.

Section Window.
Context (from to : Z) (Hfrom : 0 < from) (Hf : (3600 | from)) (Ht : (3600 | to)).
Abbreviation Kept := (fun es => Kept es from to).

Lemma same_kept es e s s' : configs s' = configs s -> apps s' = apps s -> currentBucket s' = currentBucket s ->
  (forall p, recordedOf (within from to) p e = dzero) -> (forall n, recordedOfApp (within from to) n e = dzero) ->
  Kept es s -> Kept (es ++ [e]) s'.
Proof.
  intros E1 E2 E3 R1 R2 [H1 H2 H3]. split; rewrite ?E1, ?E2, ?E3; try done; intros; rewrite sumOf_snoc, ?R1, ?R2, dadd_zero_r; auto.
Qed.

(** A ledger operation that keeps every account of the window, and an empty accumulator. *)
Lemma moved_kept es e s s' : currentBucket s' = currentBucket s ->
  (forall p, account (within from to) p (currentBucket s) (configs s') = account (within from to) p (currentBucket s) (configs s)) ->
  (forall n, account (within from to) n (currentBucket s) (apps s') = account (within from to) n (currentBucket s) (apps s)) ->
  (accum (configs s) = ∅ -> accum (configs s') = ∅) -> (accum (apps s) = ∅ -> accum (apps s') = ∅) ->
  (forall p, recordedOf (within from to) p e = dzero) -> (forall n, recordedOfApp (within from to) n e = dzero) ->
  Kept es s -> Kept (es ++ [e]) s'.
Proof.
  intros E A1 A2 C1 C2 R1 R2 [H1 H2 H3]. split; rewrite ?E; intros; rewrite ?sumOf_snoc, ?R1, ?R2, ?dadd_zero_r, ?A1, ?A2; auto.
  destruct (H3 H). by auto.
Qed.

Lemma config_kept es off now p d s : 60 <= now -> Kept es s -> Kept (es ++ [EConfigDelta off now p d]) (AddConfigDelta off now p d s).
Proof.
  intros Hn Hs. unfold AddConfigDelta. destruct off; cbn [orb]; [by apply (same_kept es _ s)|].
  destruct (isZero d) eqn:Ez; [apply isZero_spec in Ez as ->; apply (same_kept es _ s); try done; intros q; cbn; by destruct (_ && _)|].
  destruct Hs as [H1 H2 H3]. destruct (turn_account (alignMinute now) s H3) as [T1 T2]. destruct (align_minute now Hn) as [Hm _].
  cbn zeta. split; cbn [configs apps currentBucket set_configs].
  - intros q. change (currentBucket (turn (alignMinute now) s)) with (alignMinute now).
    rewrite account_add, T1, H1, sumOf_snoc. cbn [recordedOf]. rewrite window_minute by done.
    f_equal. destruct (within from to now); cbn [andb]; [|done]. by destruct (Z.eqb_spec p q); [rewrite bool_decide_true | rewrite bool_decide_false].
  - intros n. change (currentBucket (turn (alignMinute now) s)) with (alignMinute now). rewrite T2, H2, sumOf_snoc. cbn [recordedOfApp]. by rewrite dadd_zero_r.
  - change (currentBucket (turn (alignMinute now) s)) with (alignMinute now). lia.
Qed.

Lemma noted_same n path now s : configs (noteAppPath n path now s) = configs s /\ apps (noteAppPath n path now s) = apps s /\
  currentBucket (noteAppPath n path now s) = currentBucket s.
Proof. unfold noteAppPath. by case_match. Qed.

Lemma app_kept es off now n path d s : 60 <= now -> Kept es s -> Kept (es ++ [EAppDelta off now n path d]) (AddAppDelta off now n path d s).
Proof.
  intros Hn Hs. unfold AddAppDelta. destruct off; cbn [orb]; [by apply (same_kept es _ s)|].
  destruct (isEmpty n) eqn:En; [apply (same_kept es _ s); try done; intros m; cbn; by rewrite En, andb_false_r|]. cbn [orb].
  destruct (isZero d) eqn:Ez; [apply isZero_spec in Ez as ->; apply (same_kept es _ s); try done; intros m; cbn; by destruct (_ && _)|].
  destruct Hs as [H1 H2 H3]. destruct (turn_account (alignMinute now) s H3) as [T1 T2]. destruct (align_minute now Hn) as [Hm _].
  cbn zeta. set (s1 := set_apps _ _). destruct (noted_same n path now s1) as (E1 & E2 & E3).
  assert (Eb : currentBucket s1 = alignMinute now) by done.
  split; rewrite E3, Eb, ?E1, ?E2; subst s1; cbn [configs apps set_apps].
  - intros p. rewrite T1, H1, sumOf_snoc. cbn [recordedOf]. by rewrite dadd_zero_r.
  - intros m. rewrite account_add, T2, H2, sumOf_snoc. cbn [recordedOfApp]. rewrite window_minute, En by done. cbn [negb]. by rewrite andb_true_r.
  - lia.
Qed.

Lemma flush_kept es off s : Kept es s -> Kept (es ++ [EFlush off]) (Flush off s).
Proof.
  intros Hs. unfold Flush. case_match; [by apply (same_kept es _ s)|].
  apply (moved_kept es _ s); try done; intros; apply account_drain.
Qed.

Lemma rollup_kept es off now days s : (off = false -> pruneBound now days <= from) -> Kept es s ->
  Kept (es ++ [ERollup off now days]) (runRollupOnce off now days s).
Proof.
  intros Hp Hs. unfold runRollupOnce. destruct off; [by apply (same_kept es _ s)|]. specialize (Hp eq_refl).
  assert (Hw : forall b, within from to b = true -> pruneBound now days <= b) by (unfold within; intros b Hb; bprop; lia).
  apply (moved_kept es _ s); try done; intros; cbn [configs apps onLedgers set_apps set_configs];
    rewrite account_prune by done; apply account_rollup; by apply window_hours.
Qed.

Lemma event_kept es e s : fits from e -> Kept es s -> Kept (es ++ [e]) (step s e).
Proof.
  intros He Hs. destruct e as [off now p d|off now n path d|off|n|n|off now days|off now p n g t a|off now]; cbn [step].
  - by apply config_kept.
  - by apply app_kept.
  - by apply flush_kept.
  - apply (moved_kept es _ s); try done; intros; cbn [configs set_configs]; [apply account_write|]. unfold writeRows. by case_match.
  - apply (moved_kept es _ s); try done; intros; cbn [apps set_apps]; [apply account_write|]. unfold writeRows. by case_match.
  - apply rollup_kept; [by destruct off | done].
  - apply (same_kept es _ s); try done; unfold SnapshotConfigMeta; by case_match.
  - apply (same_kept es _ s); try done; unfold EnsureDirectMeta, SnapshotConfigMeta; by case_match.
Qed.

Lemma run_kept es : Forall (fits from) es -> Kept es (run newStats es).
Proof.
  induction es as [|e es IH] using rev_ind; intros Hes.
  - split; try done; intros; unfold account, unwritten, held; cbn; by case_match.
  - apply Forall_app in Hes as [H1 H2%Forall_cons_1]. unfold run. rewrite fold_left_app. apply event_kept; [by destruct H2 | by apply IH].
Qed.
End Window.

(** C18: Over whole hours that were not pruned, what a query sums for a profile or an
    application, what threads have taken and not written yet and what is held for the
    current minute add up to exactly the deltas recorded for it, however calls, writes,
    flushes and rollups interleave and even when the clock goes back; so once all is
    flushed and written, a query returns exactly what was recorded. *)
Theorem usage_exact from to es (Hfrom : 0 < from) (Hf : (3600 | from)) (Ht : (3600 | to)) (Hes : Forall (fits from) es) :
  let s := run newStats es in
  let w := within from to in
  (forall p, dadd (QueryUsage from to p (configs s))
               (dadd (unwritten w p (configs s)) (if w (currentBucket s) then held p (configs s) else dzero)) = sumOf (recordedOf w p) es) /\
  (forall n, dadd (QueryUsage from to n (apps s))
               (dadd (unwritten w n (apps s)) (if w (currentBucket s) then held n (apps s) else dzero)) = sumOf (recordedOfApp w n) es) /\
  (forall p, accum (configs s) = ∅ -> pending (configs s) = [] -> QueryUsage from to p (configs s) = sumOf (recordedOf w p) es).
Proof.
  cbn zeta. destruct (run_kept from to Hfrom Hf Ht es Hes) as [H1 H2 _]. split; [exact H1|]. split; [exact H2|].
  intros p Ha Hp. rewrite <- H1. unfold account, unwritten, held. rewrite Ha, Hp, lookup_empty. unfold QueryUsage. cbn [concat].
  change (total (within from to) p []) with dzero. rewrite dadd_zero_l. destruct (within _ _ (currentBucket _)); cbn; by rewrite dadd_zero_r.
Qed.

(** ** A day of statistics *)

Module StatsSample.
Definition course : list Event :=
  [EConfigDelta false 7210 1 (MkDelta 5 50); EConfigDelta false 7250 1 (MkDelta 1 10); EConfigDelta false 7261 1 (MkDelta 2 20);
   EAppDelta false 7262 (qs "curl") (qs "/bin/curl") (MkDelta 3 30); EConfigDelta false 7255 1 (MkDelta 4 40); EWriteConfigs 1;
   EFlush false; EWriteConfigs 0; EWriteConfigs 0; EWriteApps 0; ERollup false (7200 + 49 * 3600) 30].

Lemma usage_exact_witness :
  0 < 7200 /\ Forall (fits 7200) course /\ hour (configs (run newStats course)) = [MkRow 7200 1 (MkDelta 12 120)] /\
  QueryUsage 7200 10800 1 (configs (run newStats course)) = sumOf (recordedOf (within 7200 10800) 1) course.
Proof.
  assert (H : Forall (fits 7200) course) by (repeat constructor; vm_compute; discriminate).
  split; [lia|]. split; [exact H|]. split; [vm_compute; reflexivity|].
  apply (usage_exact 7200 10800 course); [lia | by exists 2 | by exists 3 | exact H | vm_compute; reflexivity..].
Defined.
End StatsSample.
